(* ===== verification/_CoqProject ===== *)
-Q . S2P
Prelude.v
Bytes.v
Pmm.v
StateM.v
Vmm.v
VmmInv.v
VmmMap.v
VmmSpace.v
VmmInit.v
VmmReserve.v
VmmClone.v
VmmRefine.v
VmmDestroy.v
Elf.v
ElfLoad.v
Crc32.v
SimHash.v
Cluster.v
BlockDev.v
Journal.v
JournalCrash.v
JournalFaults.v
GrahaFs.v
FsDemo.v
FsSafety.v
FsRead.v
FsWrite.v
CapToken.v
CapObject.v
CapRevoke.v
CapSecurity.v
HandleTable.v
Pledge.v
CapSystem.v
Can.v
CanGraph.v
CanRegister.v
CanActivate.v
CanDeactivate.v
CanNetwork.v
NetBytes.v
NetWire.v
NetTcp.v
NetUdp.v
NetArp.v
NetDns.v
NetDhcp.v
Runq.v
Rlimit.v
Vmo.v
VmoPages.v
VmoInv.v
VmoRefs.v
VmoMapping.v
VmoMap.v
VmoCreate.v
VmoCow.v
VmoFault.v
VmoPrivate.v
VmoProps.v
Stream.v
StreamInv.v
StreamSteps.v
StreamRun.v
StreamRing.v
StreamSystem.v
StreamCreate.v
StreamProps.v
Channel.v
TxnBuffer.v
Txn.v
