(* ===== verification/Prelude.v ===== *)
(** * GrahaOS: a verification development

    GrahaOS is a small capability operating system for x86-64 with a journaling file
    system and a user-space network daemon.  This library models the parts of it whose
    correctness is a matter of logic rather than of hardware, as executable definitions
    translated from the sources under src/, and proves what each part promises.

    ** How the code is modelled

    Machine integers are [Z] with their wrap-around written out ([u8], [u16], [u32],
    [u64] and the signed forms, here in Prelude); a structure is a [Record]; bytes in
    memory and on disk are [list Z] (Bytes).  A function of the C code is a definition of
    the same name that takes the state it reads and returns the state it leaves together
    with the C return value.  A run of the code that leaves an array, follows a null or
    dangling pointer, or never returns is [None] (in Channel and Txn: [Fault]), so a
    theorem that gives [Some] is also memory safety or termination.  A region under a lock
    is one atomic step.  Answers of code outside the model (memory allocator, disk,
    timer) are arguments or arbitrary streams in the state, and the theorems hold for all
    of them.  Audit records, wake-ups and similar outputs are traces.

    ** Capabilities (src/kernel/cap, src/arch/x86_64/cpu/syscall/syscall.c)

    CapToken packs and prints tokens.  CapObject is the registry of capability objects:
    create, derive, resolve, destroy, inspect.  CapRevoke is revocation with its bounded
    breadth-first cascade.  CapSecurity runs any sequence of these operations: every
    reachable registry is well formed, authority is confined to those who had it, derived
    objects are attenuated, a revoked object stays dead.  HandleTable is the per-process
    handle table; its array and free list implement a bounded finite map with generations.
    Pledge is the mask of system call classes, which only narrows.  CapSystem composes them
    into the capability system calls and the system capability, which every process with
    the pledge can forge.

    Can is the activation network of kernel/cap/can.c: components with declared
    dependencies, registered through six passes, switched on after what they need and off
    after what needs them.  CanGraph has the graph and its invariant, CanRegister the
    passes and the invariant of a registration, CanActivate and CanDeactivate the two
    recursions.  CanNetwork states the results: the network is safe under every sequence
    of operations, activation and deactivation do what they promise, names lead through
    lookup, tokens and objects back to their entry, and unregistration leaves a hole that
    the other operations fall into.

    ** Memory (src/arch/x86_64/mm, src/kernel/mm, src/kernel/elf.c)

    Pmm is the physical page allocator, a refinement of a finite map from pages to
    reference counts, and its initialisation from the boot memory map.

    Vmm is the virtual memory manager over it: four-level page tables in the bytes of
    physical frames, reached through the direct map.  VmmInv has the translation that the
    tables describe ([pte]) and the invariant that places every table in the tree of one
    space; VmmMap proves mapping, lookup, unmapping and protection, VmmSpace creation and
    destruction, VmmClone cloning with its rollback, VmmReserve the search for free
    addresses, VmmInit the kernel's space from boot.  VmmRefine states the contract, finite
    maps from pages to entries, and proves that the tables implement it for every client;
    VmmDestroy what destruction frees, and what it forgets.  The entries of tables are those
    the code writes: the accessed and dirty bits that a processor may set are not modelled.
    Elf is the program loader and ElfLoad proves what it builds.

    Vmo is the memory objects of src/kernel/mm (vmo.c, mmio_vmo.c) over the page tables
    and the quotas: arrays of frames that tasks map, share and clone with copy on write.
    VmoPages accounts for the references of frames, VmoInv is the invariant of objects and
    mappings, VmoRefs references and release along the parents, VmoMapping and VmoMap
    mapping with its rollback, unmapping and the exit of a task, VmoCreate creation and
    shared clones, VmoCow copy-on-write clones, VmoFault the fault handler, VmoPrivate the
    stores of a task through its translations and the handler.  VmoProps states
    the results: every sequence of calls keeps the accounts exact, mapping and cloning do
    what they promise, all writes to a clone stay private; but a fault and on-demand pages
    leave the accounts wrong, and the owner of a cloned object cannot write any more.

    ** Storage (src/kernel/fs, src/kernel/lib/crc32.c)

    Crc32 relates the table-driven checksum to bitwise division.  BlockDev is a disk with
    a volatile write cache and arbitrary failures.  Journal models the write-ahead journal
    and JournalCrash proves commits atomic, up to the first that fails, for every placement
    of failures and of power loss; JournalFaults exhibits runs outside the hypotheses that
    are not.  GrahaFs models
    the second version of the file system over StateM, a state monad with total
    correctness triples: inode cache, bitmap allocation, block tree, read, write,
    directories, create, unlink, truncate, mount.  FsSafety proves that every sequence of
    operations returns and keeps the state typed, with no pin or lock left behind; FsRead
    that a read gives the bytes of the block tree; FsWrite that a write to allocated
    blocks that fits the journal is atomic through power loss and has the contents it should.  FsDemo is a small
    disk for evaluation.  SimHash and Cluster are the similarity fingerprints and the
    clustering of files.

    ** Scheduling, limits, messages (src/arch/x86_64/cpu/sched, src/kernel/resource,
    src/kernel/ipc, src/kernel/txn)

    Runq is the doubly linked run queue and the work stealer, a refinement of lists.
    Rlimit is the accounting of memory, processor time and I/O; lengths from 2^63 on defeat
    the last.  Channel is the bounded FIFO of messages with freezing, thawing and rewinding.  TxnBuffer and Txn are transactions, which hold back
    the messages sent to processes outside their scope until commit; they compose the
    channels, the buffers and the handle tables.

    ** Submission streams (src/kernel/io, src/kernel/mm/vmo.c)

    Stream is the asynchronous I/O of kernel/io: requests and completions in rings that a
    process shares with the kernel, the checks of a submission, jobs and their worker, the
    dispatchers, the I/O limit's queue, destruction, creation and the system calls.
    Streams, jobs and memory objects live at addresses and a freed one is absent, so a
    dangling pointer is a fault; of memory objects it has the eager kind, with bytes that
    the process writes.  StreamInv is the accounting of references and the
    primitive steps, StreamSteps the worker and one submission, StreamRun batches and the
    ledger of requests, StreamRing the completion ring as a queue, StreamSystem the calls
    and their interleavings, StreamCreate creation.  StreamProps states the results: every
    interleaving of operations is safe and gives every request exactly one fate, batches
    and completions keep their order, the worker finishes, and the runs that lose
    cancellations, completions and ring memory.  An operation is one step; a destruction
    in the middle of a worker's pass is not interleaved.

    ** Network (src/user/netd*.c)

    NetBytes is the Internet checksum; NetWire, NetTcp, NetUdp, NetArp, NetDns and NetDhcp
    are the wire formats and protocol machines: parsers are safe on every input, what is
    built parses back.  The TCP machine is compared with RFC 793 edge by edge, with a list of
    the departures of the code; the DHCP machine with the message format of RFC 2131.

    ** Bounds and fuel

    Loops of the code that end by a counter are structural recursions on it.  The others
    carry fuel, each with a theorem or lemma that the fuel given by the caller is enough:
    the revocation cascade by the size of its queue, the compression pointers of DNS by the
    sixteen hops the code allows, activation and deactivation by the 64 entries of the
    registry, along which dependencies strictly descend, the replay scan by the size of the
    journal, the search for free addresses by the mapped pages, the release of memory
    objects by their addresses, since a parent is older than its clones, the copy loops of
    streams by the pages of a memory object, the worker's loop by its queue, the block loops
    of the file system by the byte count ([enough_fuel] in FsSafety). [no_collision] in
    JournalCrash is the assumption that the 32-bit checksum tells mixtures of old and new
    journal blocks apart; it is stated for the blocks at hand and discharged by computation
    for the example.

    ** Not modelled

    Hardware: interrupts, cached address translations, device drivers, context switches,
    boot.  The kernel heap and its object caches, and snapshots.  The disk daemon behind
    the block client and the real concurrency of processors: locked regions are atomic,
    and operations of the file system run one after another.  File versions, segments and
    their garbage collection, metadata and the asynchronous wrappers of the file system.
    The first version of the file system.  Shells, test programs, terminal libraries and
    build tools; the third-party TLS library and its certificate table. *)
From Stdlib Require Export ZArith Lia ZifyBool Bool Btauto.
From stdpp Require Export base tactics numbers option list gmap.
#[export] Unset Program Cases.
Local Open Scope Z_scope.

(** ** Machine integers

    A C integer of width [w] is a [Z]; every place where the C code truncates
    or wraps is written with one of the functions below. *)
Definition wrap (w x : Z) : Z := x mod 2 ^ w.
Definition swrap (w x : Z) : Z := (x + 2 ^ (w - 1)) mod 2 ^ w - 2 ^ (w - 1).

Abbreviation u8 := (wrap 8).
Abbreviation u16 := (wrap 16).
Abbreviation u32 := (wrap 32).
Abbreviation u64 := (wrap 64).
Abbreviation i32 := (swrap 32).
Abbreviation i64 := (swrap 64).

(** [x] is representable as an unsigned (signed) integer of width [w]. *)
Definition in_u (w x : Z) : Prop := 0 <= x < 2 ^ w.
Definition in_s (w x : Z) : Prop := - 2 ^ (w - 1) <= x < 2 ^ (w - 1).

(** ** C bit operators, in a scope of their own *)
Declare Scope c_scope.
Delimit Scope c_scope with C.
Infix "&." := Z.land (at level 42, left associativity) : c_scope.
Infix "|." := Z.lor (at level 44, left associativity) : c_scope.
Infix "^." := Z.lxor (at level 43, left associativity) : c_scope.
Notation "x <<. n" := (Z.shiftl x n) (at level 41, left associativity) : c_scope.
Notation "x >>. n" := (Z.shiftr x n) (at level 41, left associativity) : c_scope.
Open Scope c_scope.

(** The C test [if (x & m)]. *)
Definition has_flag (x m : Z) : bool := negb (x &. m =? 0).
(** The C test [(have & need) == need]: every bit of [need] is in [have]. *)
Definition has_all (have need : Z) : bool := have &. need =? need.

#[global] Arguments Z.land : simpl never.
#[global] Arguments Z.lor : simpl never.
#[global] Arguments Z.lxor : simpl never.
#[global] Arguments Z.shiftl : simpl never.
#[global] Arguments Z.shiftr : simpl never.
#[global] Arguments Z.lnot : simpl never.
#[global] Arguments wrap : simpl never.
#[global] Arguments swrap : simpl never.

(** ** Bits *)
Lemma wrap_bound w x : 0 <= w -> in_u w (wrap w x).
Proof. intros. unfold in_u, wrap. apply Z.mod_pos_bound. lia. Qed.

Lemma wrap_small w x : in_u w x -> wrap w x = x.
Proof. apply Z.mod_small. Qed.

Lemma wrap_wrap w x : 0 <= w -> wrap w (wrap w x) = wrap w x.
Proof. intros. unfold wrap. apply Z.mod_mod. lia. Qed.

Lemma wrap_add_l w x y : 0 <= w -> wrap w (wrap w x + y) = wrap w (x + y).
Proof. intros. unfold wrap. apply Z.add_mod_idemp_l. lia. Qed.

Lemma swrap_small w x : 0 < w -> in_s w x -> swrap w x = x.
Proof.
  unfold swrap, in_s. intros Hw Hx.
  assert (2 ^ w = 2 * 2 ^ (w - 1)) as E.
  { rewrite <- Z.pow_succ_r by lia. f_equal. lia. }
  rewrite Z.mod_small; lia.
Qed.

Lemma swrap_bound w x : 0 < w -> in_s w (swrap w x).
Proof.
  intros Hw. unfold swrap, in_s.
  assert (2 ^ w = 2 * 2 ^ (w - 1)) as E.
  { rewrite <- Z.pow_succ_r by lia. f_equal. lia. }
  pose proof (Z.mod_pos_bound (x + 2 ^ (w - 1)) (2 ^ w)). lia.
Qed.

Lemma testbit_wrap w x i :
  0 <= w -> Z.testbit (wrap w x) i = (i <? w) && Z.testbit x i.
Proof.
  intros. unfold wrap. destruct (Z.ltb_spec i w).
  - by rewrite Z.mod_pow2_bits_low.
  - by rewrite Z.mod_pow2_bits_high.
Qed.

Lemma testbit_high w x i : in_u w x -> 0 <= w <= i -> Z.testbit x i = false.
Proof.
  intros Hx Hi. rewrite <- (wrap_small w x Hx), testbit_wrap by lia.
  by destruct (Z.ltb_spec i w); [lia|].
Qed.

Lemma wrap_land_ones w x : 0 <= w -> wrap w x = x &. Z.ones w.
Proof. intros. unfold wrap. by rewrite Z.land_ones. Qed.

Lemma testbit_in_u w x :
  0 <= w -> 0 <= x -> (forall i, w <= i -> Z.testbit x i = false) -> in_u w x.
Proof.
  intros Hw Hx Hb. enough (wrap w x = x) as <- by by apply wrap_bound.
  apply Z.bits_inj'. intros i Hi. rewrite testbit_wrap by lia.
  destruct (Z.ltb_spec i w); [done|]. by rewrite Hb.
Qed.

Lemma in_u_lor w x y : 0 <= w -> in_u w x -> in_u w y -> in_u w (x |. y).
Proof.
  intros Hw Hx Hy. apply testbit_in_u; [done| |].
  - apply Z.lor_nonneg. unfold in_u in *. lia.
  - intros. rewrite Z.lor_spec, !(testbit_high w) by (done || lia). done.
Qed.

Lemma in_u_land_l w x y : 0 <= w -> in_u w x -> in_u w (x &. y).
Proof.
  intros Hw Hx. apply testbit_in_u; [done| |].
  - apply Z.land_nonneg. unfold in_u in *. lia.
  - intros. by rewrite Z.land_spec, (testbit_high w) by (done || lia).
Qed.

Lemma in_u_mono w w' x : 0 <= w <= w' -> in_u w x -> in_u w' x.
Proof.
  unfold in_u. intros. assert (2 ^ w <= 2 ^ w') by (apply Z.pow_le_mono_r; lia). lia.
Qed.

(** [has_all] is inclusion of the bit sets. *)
Lemma has_all_spec have need :
  has_all have need = true <->
  (forall i, 0 <= i -> Z.testbit need i = true -> Z.testbit have i = true).
Proof.
  unfold has_all. rewrite Z.eqb_eq. split.
  - intros E i Hi Hn. rewrite <- E, Z.land_spec in Hn. by apply andb_true_iff in Hn as [].
  - intros H. apply Z.bits_inj'. intros i Hi. rewrite Z.land_spec.
    destruct (Z.testbit need i) eqn:En; [by rewrite H|]. by rewrite andb_false_r.
Qed.

Lemma has_all_refl x : has_all x x = true.
Proof. by apply has_all_spec. Qed.

Lemma has_all_0 x : has_all x 0 = true.
Proof. apply has_all_spec. intros i _. by rewrite Z.bits_0. Qed.

Lemma has_all_trans a b c : has_all a b = true -> has_all b c = true -> has_all a c = true.
Proof. rewrite !has_all_spec. eauto. Qed.

Lemma has_flag_pow2 x n :
  0 <= n -> has_flag x (2 ^ n) = Z.testbit x n.
Proof.
  intros Hn. unfold has_flag. destruct (Z.testbit x n) eqn:E.
  - apply negb_true_iff, Z.eqb_neq. intros H0.
    apply (f_equal (fun z => Z.testbit z n)) in H0.
    by rewrite Z.land_spec, E, Z.pow2_bits_true, Z.bits_0 in H0.
  - apply negb_false_iff, Z.eqb_eq, Z.bits_inj'. intros i Hi.
    rewrite Z.land_spec, Z.bits_0, Z.pow2_bits_eqb by lia.
    destruct (Z.eqb_spec n i) as [->|]; [by rewrite E|by rewrite andb_false_r].
Qed.

(** ** Automation *)
Create Rewrite HintDb bits.
#[export] Hint Rewrite Z.land_spec Z.lor_spec Z.lxor_spec Z.bits_0 : bits.
#[export] Hint Rewrite Z.shiftl_spec Z.shiftr_spec testbit_wrap using lia : bits.

(** Bit-by-bit proof of an equation between [land]/[lor]/shift/[wrap] terms;
    hypotheses [in_u w x] say which bits of [x] are zero. *)
Ltac bit_cases :=
  repeat match goal with
  | |- context [?a <? ?b] => destruct (Z.ltb_spec a b); try lia; cbn [andb orb]
  | |- context [Z.testbit ?x ?j] =>
      first
        [ rewrite (Z.testbit_neg_r x j) by lia
        | match goal with H : in_u ?w x |- _ => rewrite (testbit_high w x j H) by lia end
        | assert_fails (is_var x); destruct (Z_lt_le_dec j 0);
          [ rewrite (Z.testbit_neg_r x j) by lia | progress autorewrite with bits ] ]
  end.

Ltac bitwise :=
  apply Z.bits_inj'; let i := fresh "i" in let Hi := fresh "Hi" in
  intros i Hi; autorewrite with bits; bit_cases; rewrite ?orb_false_r, ?andb_false_r;
  repeat match goal with
  | |- context [Z.testbit ?x ?j] => assert_fails (is_var j); replace j with i by lia
  end; try btauto.

Create HintDb grahaos.
#[export] Hint Resolve has_all_refl has_all_0 : grahaos.
#[export] Hint Resolve wrap_bound swrap_bound : grahaos.

(** Linear arithmetic with division and modulo by constants. *)
Ltac zlia := Z.div_mod_to_equations; lia.

(** Case split on every boolean test of the goal, then simplify. *)
Ltac split_ifs :=
  repeat match goal with
  | |- context [if ?b then _ else _] => let E := fresh "E" in destruct b eqn:E
  end.

(** ** C arrays

    An array is a list; [a[i]] with an index that the code has checked or that
    is a loop counter is [lookup_total], with a default for the type. *)
Definition upd {A} (l : list A) (i : Z) (x : A) : list A := <[Z.to_nat i := x]> l.
Definition get {A} (l : list A) (i : Z) : option A :=
  if i <? 0 then None else l !! Z.to_nat i.

Lemma get_upd_eq {A} (l : list A) i x :
  0 <= i < Z.of_nat (length l) -> get (upd l i x) i = Some x.
Proof.
  intros. unfold get, upd. destruct (Z.ltb_spec i 0); [lia|].
  apply list_lookup_insert_eq. lia.
Qed.

Lemma get_upd_ne {A} (l : list A) i j x :
  0 <= i -> i <> j -> get (upd l i x) j = get l j.
Proof.
  intros. unfold get, upd. destruct (Z.ltb_spec j 0); [done|].
  apply list_lookup_insert_ne. lia.
Qed.

Lemma length_upd {A} (l : list A) i x : length (upd l i x) = length l.
Proof. apply length_insert. Qed.

Lemma get_Some_bound {A} (l : list A) i x :
  get l i = Some x -> 0 <= i < Z.of_nat (length l).
Proof.
  unfold get. destruct (Z.ltb_spec i 0); [done|]. intros H1%lookup_lt_Some. lia.
Qed.

Lemma get_bound_Some {A} (l : list A) i :
  0 <= i < Z.of_nat (length l) -> is_Some (get l i).
Proof.
  intros. unfold get. destruct (Z.ltb_spec i 0); [lia|].
  apply lookup_lt_is_Some. lia.
Qed.

(** Evaluate [get] of literal lists at literal indices. *)
Ltac get_simpl :=
  repeat match goal with
  | |- context [get _ (Zpos ?a + Zpos ?b)] =>
      let c := eval vm_compute in (Zpos a + Zpos b) in change (Zpos a + Zpos b) with c
  | |- context [get _ (0 + Zpos ?b)] => change (0 + Zpos b) with (Zpos b)
  end;
  unfold get; cbn [Z.ltb Z.compare Pos.compare Pos.compare_cont];
  repeat match goal with
  | |- context [Z.to_nat 0] => change (Z.to_nat 0) with 0%nat
  | |- context [Z.to_nat (Zpos ?p)] =>
      let n := eval vm_compute in (Z.to_nat (Zpos p)) in change (Z.to_nat (Zpos p)) with n
  end;
  cbn [lookup list_lookup mbind option_bind].

(** A loop that stops at the first element with a property. *)
Fixpoint find_index {A} (f : A -> bool) (l : list A) : option nat :=
  match l with
  | [] => None
  | x :: l => if f x then Some 0%nat else S <$> find_index f l
  end.

Lemma find_index_Some {A} (f : A -> bool) l i : find_index f l = Some i -> exists x, l !! i = Some x /\ f x = true.
Proof.
  revert i. induction l as [|y l IH]; intros i; cbn; [done|]. destruct (f y) eqn:E; [intros [= <-]; eauto|].
  destruct (find_index f l) as [k|]; cbn; [|done]. intros [= <-]. by apply IH.
Qed.

Lemma find_index_None {A} (f : A -> bool) l i x : find_index f l = None -> l !! i = Some x -> f x = false.
Proof.
  revert i. induction l as [|y l IH]; intros i; cbn; [done|]. destruct (f y) eqn:E; [done|].
  destruct (find_index f l) as [k|]; cbn; [done|]. intros _. destruct i as [|i]; cbn; [intros [= <-]; done|]. by apply IH.
Qed.

Create Rewrite HintDb arrays.
#[export] Hint Rewrite @length_upd : arrays.
