(* ===== verification/Bytes.v ===== *)
(** * Bytes: little-endian fields of structures and blocks in memory or on disk

    A byte array is a [list Z] of values below 256.  [le] and [of_le] lay out an
    unsigned integer, [field] reads one at an offset, [splice] overwrites a range as
    [memcpy] does. *)
From S2P Require Import Prelude.
Local Open Scope Z_scope.
Local Open Scope c_scope.

Definition le (n : nat) (x : Z) : list Z := map (fun i => Z.shiftr x (8 * Z.of_nat i) &. 0xFF) (seq 0 n).

Fixpoint of_le (l : list Z) : Z :=
  match l with [] => 0 | b :: l => b + 256 * of_le l end.

(** A C string in memory: the bytes before its terminator. *)
Fixpoint cstr (l : list Z) : list Z :=
  match l with [] => [] | c :: l => if c =? 0 then [] else c :: cstr l end.

(** The bytes [a, a + n) of a structure. *)
Definition field (l : list Z) (a n : nat) : Z := of_le (take n (drop a l)).

(** memcpy of [src] to offset [off] of an array. *)
Definition splice (page : list Z) (off : nat) (src : list Z) : list Z :=
  take off page ++ src ++ drop (off + length src) page.

(** A page or a disk block of zeros. *)
Definition zero_page : list Z := replicate 4096 0.
#[global] Arguments zero_page : simpl never.

Abbreviation wf_bytes := (Forall (in_u 8)).

(** ** Arrays *)
Lemma length_splice page off src :
  (off + length src <= length page)%nat -> length (splice page off src) = length page.
Proof. intros. unfold splice. rewrite !length_app, length_take, length_drop. lia. Qed.

Lemma splice_app_mid (a p b src : list Z) off :
  (off + length src <= length p)%nat ->
  splice (a ++ p ++ b) (length a + off) src = a ++ splice p off src ++ b.
Proof.
  intros H. unfold splice. rewrite take_app_add, take_app_le by lia.
  replace (length a + off + length src)%nat with (length a + (off + length src))%nat by lia.
  rewrite drop_app_add, drop_app_le by lia. by rewrite <- !app_assoc.
Qed.

Lemma splice_splice (f s1 s2 : list Z) off :
  (off + length s1 + length s2 <= length f)%nat ->
  splice (splice f off s1) (off + length s1) s2 = splice f off (s1 ++ s2).
Proof.
  intros H. unfold splice. rewrite length_app.
  assert (length (take off f ++ s1) = (off + length s1)%nat) as Hl
    by (rewrite length_app, length_take; lia).
  rewrite (app_assoc (take off f) s1), take_app_length' by lia.
  rewrite <- Hl at 1. rewrite drop_app_add, drop_drop, <- !app_assoc. do 4 f_equal. lia.
Qed.

Lemma splice_nil (f : list Z) off : splice f off [] = f.
Proof. unfold splice. cbn. rewrite Nat.add_0_r. apply take_drop. Qed.

Lemma take_splice (f src : list Z) off :
  (off + length src <= length f)%nat -> take (off + length src) (splice f off src) = take off f ++ src.
Proof.
  intros H. unfold splice. rewrite app_assoc, take_app_length'; [done|]. rewrite length_app, length_take. lia.
Qed.

Lemma get_app_at {A} (l r : list A) x i : i = Z.of_nat (length l) -> get (l ++ x :: r) i = Some x.
Proof.
  intros ->. unfold get. destruct (Z.ltb_spec (Z.of_nat (length l)) 0); [lia|].
  rewrite Nat2Z.id. by apply list_lookup_middle.
Qed.

Lemma upd_app_at {A} (l r : list A) x y i : i = Z.of_nat (length l) -> upd (l ++ x :: r) i y = l ++ y :: r.
Proof. intros ->. unfold upd. by rewrite Nat2Z.id, insert_app_r_alt, Nat.sub_diag by lia. Qed.

Lemma u32_small x : 0 <= x < 2 ^ 32 -> u32 x = x.
Proof. intros. by apply wrap_small. Qed.

(** ** Integers *)
Lemma length_le n x : length (le n x) = n.
Proof. unfold le. by rewrite length_map, length_seq. Qed.

Lemma of_le_le n : forall x, in_u (8 * Z.of_nat n) x -> of_le (le n x) = x.
Proof.
  induction n as [|n IH]; intros x Hx.
  { unfold in_u in Hx. cbn in *. lia. }
  assert (le (S n) x = x mod 256 :: le n (x / 256)) as ->.
  { unfold le. cbn [seq map]. f_equal.
    - rewrite Z.shiftr_0_r. apply (Z.land_ones x 8). lia.
    - rewrite <- seq_shift, map_map. apply map_ext. intros i. f_equal.
      change (x / 256) with (x / 2 ^ 8). rewrite <- Z.shiftr_div_pow2, Z.shiftr_shiftr by lia. f_equal. lia. }
  cbn [of_le]. rewrite IH; [pose proof (Z.div_mod x 256); lia|].
  unfold in_u in *. split; [apply Z.div_pos; lia|]. apply Z.div_lt_upper_bound; [lia|].
  replace (256 * 2 ^ (8 * Z.of_nat n)) with (2 ^ (8 * Z.of_nat (S n))); [lia|].
  rewrite <- (Z.pow_add_r 2 8) by lia. f_equal. lia.
Qed.

Lemma length_concat_le (l : list Z) : length (concat (map (le 4) l)) = (4 * length l)%nat.
Proof. induction l as [|x l IH]; [done|]. cbn [map concat length]. rewrite length_app, length_le. lia. Qed.


(** ** Fields *)
Lemma field_skip (a b : list Z) off n : field (a ++ b) (length a + off) n = field b off n.
Proof. unfold field. by rewrite drop_app_add. Qed.

Lemma field_le n x b : in_u (8 * Z.of_nat n) x -> field (le n x ++ b) 0 n = x.
Proof.
  intros Hx. unfold field. rewrite drop_0, take_app_length' by by rewrite length_le. by apply of_le_le.
Qed.

Lemma field_splice_eq (b : list Z) off n x :
  in_u (8 * Z.of_nat n) x -> (off + n <= length b)%nat -> field (splice b off (le n x)) off n = x.
Proof.
  intros Hx Hl. unfold field, splice. rewrite drop_app_length' by (rewrite length_take; lia).
  rewrite take_app_length' by by rewrite length_le. by apply of_le_le.
Qed.

(** A slice of what was written, and one that was not touched. *)
Lemma slice_splice_eq (b s : list Z) off : (off + length s <= length b)%nat -> take (length s) (drop off (splice b off s)) = s.
Proof. intros Hl. unfold splice. rewrite drop_app_length' by (rewrite length_take; lia). apply take_app_length. Qed.

Lemma slice_splice_ne (b s : list Z) off n off' :
  (off + length s <= length b)%nat -> (off' + n <= off \/ off + length s <= off')%nat ->
  take n (drop off' (splice b off s)) = take n (drop off' b).
Proof.
  intros Hl H. unfold splice. destruct H.
  - rewrite drop_app_le, take_app_le by (rewrite ?length_drop, ?length_take; lia).
    rewrite take_drop_commute, take_take, Nat.min_l by lia. by rewrite take_drop_commute.
  - assert (length (take off b ++ s) = off + length s)%nat as Hp by (rewrite length_app, length_take; lia).
    rewrite app_assoc. replace off' with (length (take off b ++ s) + (off' - (off + length s)))%nat at 1 by lia.
    rewrite drop_app_add, drop_drop. do 2 f_equal. lia.
Qed.

Lemma field_splice_ne (b s : list Z) off n off' :
  (off + length s <= length b)%nat -> (off' + n <= off \/ off + length s <= off')%nat ->
  field (splice b off s) off' n = field b off' n.
Proof. intros Hl H. unfold field. by rewrite slice_splice_ne. Qed.

Lemma le_bytes n x : wf_bytes (le n x).
Proof.
  unfold le. apply List.Forall_map, List.Forall_forall. intros i _. change 0xFF with (Z.ones 8).
  rewrite <- wrap_land_ones by lia. by apply wrap_bound.
Qed.

Lemma wf_bytes_replicate n : wf_bytes (replicate n 0).
Proof. apply Forall_replicate. by apply (wrap_bound 8 0). Qed.

Lemma wf_bytes_splice b off s : wf_bytes b -> wf_bytes s -> wf_bytes (splice b off s).
Proof. intros. unfold splice. rewrite !Forall_app. auto using Forall_take, Forall_drop. Qed.

#[export] Hint Resolve le_bytes wf_bytes_replicate wf_bytes_splice : grahaos.
