(* ===== verification/Pmm.v ===== *)
(** * Physical memory manager (arch/x86_64/mm/pmm.c)

    A bitmap with one bit per 4 KiB page, set for pages in use, and one reference count
    per page.  The two arrays live in the memory they describe; here they are lists of
    bytes.  Operations run under [pmm_lock] and are atomic.  The theorems show that the
    manager behaves as a finite map from the pages in use to their counts, with next-fit
    search for single pages and first-fit search for runs, and what initialisation leaves
    free. *)
From S2P Require Import Prelude.
Local Open Scope Z_scope.
Local Open Scope c_scope.

Abbreviation PAGE_SIZE := 4096.

(** The static variables; [g_debug_pmm_fail_nth] is the fault-injection counter. *)
Record pmm := Pmm {
  bitmap : list Z; total_pages : Z; used_pages : Z; usable_memory : Z; last_used_index : Z;
  pp_refcounts : list Z; g_debug_pmm_fail_nth : Z }.

Definition bitmap_set_bit (bm : list Z) (page : Z) : list Z :=
  upd bm (page / 8) (u8 (default 0 (get bm (page / 8)) |. (1 <<. (page mod 8)))).
Definition bitmap_clear_bit (bm : list Z) (page : Z) : list Z :=
  upd bm (page / 8) (u8 (default 0 (get bm (page / 8)) &. Z.lnot (1 <<. (page mod 8)))).
Definition bitmap_test_bit (bm : list Z) (page : Z) : bool :=
  has_flag (default 0 (get bm (page / 8))) (1 <<. (page mod 8)).

(** ** Initialisation

    An entry of the boot loader's memory map: base, length, usable. *)
Record memmap_entry := Memmap_entry { e_base : Z; e_length : Z; e_usable : bool }.

Definition highest_addr (es : list memmap_entry) : Z :=
  fold_left (fun h e => if e_usable e then Z.max h (u64 (e_base e + e_length e)) else h) es 0.

Definition usable_bytes (es : list memmap_entry) : Z :=
  fold_left (fun u e => if e_usable e then u64 (u + e_length e) else u) es 0.

(** First chunk that holds the bitmap and the counts. *)
Definition meta_chunk (es : list memmap_entry) (meta_size : Z) : option memmap_entry :=
  List.find (fun e => e_usable e && (e_length e >=? meta_size)) es.

(** Clear, or set, [n] bits from [page]. *)
Fixpoint clear_run (bm : list Z) (page : Z) (n : nat) : list Z :=
  match n with O => bm | S n => clear_run (bitmap_clear_bit bm page) (page + 1) n end.
Fixpoint set_run (bm : list Z) (page : Z) (n : nat) : list Z :=
  match n with O => bm | S n => set_run (bitmap_set_bit bm page) (page + 1) n end.

(** [None]: no chunk is large enough and the code writes through a null pointer. *)
Definition pmm_init (es : list memmap_entry) : option pmm :=
  let total := highest_addr es / PAGE_SIZE in
  let bitmap_size := (total + 7) / 8 in
  let meta_size := bitmap_size + total in
  match meta_chunk es meta_size with
  | None => None
  | Some c =>
      let bm := replicate (Z.to_nat bitmap_size) 0xFF in
      let bm := fold_left (fun bm e =>
        if e_usable e then clear_run bm (e_base e / PAGE_SIZE) (Z.to_nat (e_length e / PAGE_SIZE)) else bm) es bm in
      let meta_pages := (meta_size + PAGE_SIZE - 1) / PAGE_SIZE in
      let bm := set_run bm (e_base c / PAGE_SIZE) (Z.to_nat meta_pages) in
      Some (Pmm bm total meta_pages (usable_bytes es) 0 (replicate (Z.to_nat total) 0) 0)
  end.

(** ** Allocation *)

(** First clear bit among [n] pages from [i]. *)
Fixpoint find_free (bm : list Z) (i : Z) (n : nat) : option Z :=
  match n with
  | O => None
  | S n => if negb (bitmap_test_bit bm i) then Some i else find_free bm (i + 1) n
  end.

Definition fault_injected (s : pmm) : pmm * bool :=
  if g_debug_pmm_fail_nth s >? 0 then
    let n := g_debug_pmm_fail_nth s - 1 in
    ({| s with g_debug_pmm_fail_nth := n |}, n =? 0)
  else (s, false).

Definition take_page (s : pmm) (i : Z) : pmm * Z :=
  ({| s with bitmap := bitmap_set_bit (bitmap s) i; pp_refcounts := upd (pp_refcounts s) i 1;
      used_pages := u64 (used_pages s + 1); last_used_index := i + 1 |}, i * PAGE_SIZE).

(** Addresses are returned; 0 is NULL. *)
Definition pmm_alloc_page (s : pmm) : pmm * Z :=
  let '(s, fail) := fault_injected s in
  if fail then (s, 0) else
  match find_free (bitmap s) (last_used_index s) (Z.to_nat (total_pages s - last_used_index s)) with
  | Some i => take_page s i
  | None =>
      match find_free (bitmap s) 0 (Z.to_nat (last_used_index s)) with
      | Some i => take_page s i
      | None => (s, 0)
      end
  end.

(** The last page of the first run of [num] clear bits, among [n] pages from [i], with
    [consecutive] clear bits just before. *)
Fixpoint find_run (bm : list Z) (num : Z) (i consecutive : Z) (n : nat) : option Z :=
  match n with
  | O => None
  | S n =>
      let consecutive := if negb (bitmap_test_bit bm i) then consecutive + 1 else 0 in
      if consecutive =? num then Some i else find_run bm num (i + 1) consecutive n
  end.

Fixpoint set_counts (rc : list Z) (page : Z) (n : nat) : list Z :=
  match n with O => rc | S n => set_counts (upd rc page 1) (page + 1) n end.

Definition pmm_alloc_pages (s : pmm) (num_pages : Z) : pmm * Z :=
  if num_pages =? 0 then (s, 0) else
  if num_pages =? 1 then pmm_alloc_page s else
  let '(s, fail) := fault_injected s in
  if fail then (s, 0) else
  match find_run (bitmap s) num_pages 0 0 (Z.to_nat (total_pages s)) with
  | Some i =>
      let start_page := i - num_pages + 1 in
      ({| s with bitmap := set_run (bitmap s) start_page (Z.to_nat num_pages);
          pp_refcounts := set_counts (pp_refcounts s) start_page (Z.to_nat num_pages);
          used_pages := u64 (used_pages s + num_pages) |}, start_page * PAGE_SIZE)
  | None => (s, 0)
  end.

(** ** Reference counts and freeing *)
Definition count_of (s : pmm) (i : Z) : Z := default 0 (get (pp_refcounts s) i).

(** One page of a free: the count goes down, and at zero the page is free. *)
Definition drop_page (s : pmm) (i : Z) : pmm * bool :=
  if (i <? total_pages s) && bitmap_test_bit (bitmap s) i then
    let c := if count_of s i >? 0 then count_of s i - 1 else count_of s i in
    let s := {| s with pp_refcounts := upd (pp_refcounts s) i c |} in
    if c =? 0
    then ({| s with bitmap := bitmap_clear_bit (bitmap s) i; used_pages := u64 (used_pages s - 1) |}, true)
    else (s, false)
  else (s, false).

Definition lower_hint (s : pmm) (i : Z) : pmm :=
  if i <? last_used_index s then {| s with last_used_index := i |} else s.

Definition pmm_free_page (s : pmm) (page : Z) : pmm :=
  if page =? 0 then s else
  let i := page / PAGE_SIZE in
  let '(s, freed) := drop_page s i in
  if freed then lower_hint s i else s.

Fixpoint drop_pages (s : pmm) (i : Z) (n : nat) : pmm :=
  match n with O => s | S n => drop_pages (fst (drop_page s i)) (i + 1) n end.

Definition pmm_free_pages (s : pmm) (pages num_pages : Z) : pmm :=
  if (pages =? 0) || (num_pages =? 0) then s else
  let start := pages / PAGE_SIZE in
  lower_hint (drop_pages s start (Z.to_nat num_pages)) start.

Definition pmm_page_ref (s : pmm) (page : Z) : pmm :=
  if page =? 0 then s else
  let i := page / PAGE_SIZE in
  if (i <? total_pages s) && bitmap_test_bit (bitmap s) i then
    if count_of s i <? 255 then {| s with pp_refcounts := upd (pp_refcounts s) i (count_of s i + 1) |} else s
  else s.

Definition pmm_page_unref (s : pmm) (page : Z) : pmm := pmm_free_page s page.

Definition pmm_page_get_refcount (s : pmm) (page : Z) : Z :=
  if page =? 0 then 0 else
  let i := page / PAGE_SIZE in
  if i >=? total_pages s then 0 else count_of s i.

Definition pmm_get_total_memory (s : pmm) : Z := usable_memory s.
Definition pmm_get_free_memory (s : pmm) : Z := u64 (usable_memory s - used_pages s * PAGE_SIZE).

(** ** Bits *)
Definition wf_bitmap (bm : list Z) (total : Z) : Prop :=
  0 <= total /\ length bm = Z.to_nat ((total + 7) / 8) /\ Forall (in_u 8) bm.

Lemma shift_bit k : 0 <= k -> 1 <<. k = 2 ^ k.
Proof. intros. by rewrite Z.shiftl_1_l. Qed.

Lemma byte_in_range bm total p : wf_bitmap bm total -> 0 <= p < total ->
  exists b, get bm (p / 8) = Some b /\ in_u 8 b.
Proof.
  intros (Ht & Hl & Hb) Hp. destruct (get_bound_Some bm (p / 8)) as [b E].
  { rewrite Hl. zlia. }
  exists b. split; [done|]. unfold get in E. destruct (p / 8 <? 0); [done|]. by eapply Forall_lookup_1.
Qed.

Lemma test_bit_spec bm p : 0 <= p -> bitmap_test_bit bm p = Z.testbit (default 0 (get bm (p / 8))) (p mod 8).
Proof. intros. unfold bitmap_test_bit. rewrite shift_bit, has_flag_pow2 by zlia. done. Qed.

(** Replacing the byte of page [p] by one that differs only in the bit of [p]. *)
Lemma test_upd bm total p q v :
  wf_bitmap bm total -> 0 <= p < total -> 0 <= q ->
  (forall k, 0 <= k < 8 -> k <> p mod 8 -> Z.testbit v k = Z.testbit (default 0 (get bm (p / 8))) k) ->
  bitmap_test_bit (upd bm (p / 8) v) q = if q =? p then Z.testbit v (p mod 8) else bitmap_test_bit bm q.
Proof.
  intros Hw Hp Hq Hv. destruct (byte_in_range bm total p Hw Hp) as (b & Eb & _). apply get_Some_bound in Eb as Hr.
  rewrite !test_bit_spec by done. destruct (Z.eqb_spec q p) as [->|Hne]; [by rewrite get_upd_eq|].
  destruct (Z.eq_dec (q / 8) (p / 8)) as [E|E].
  - rewrite E, get_upd_eq by done. apply Hv; zlia.
  - rewrite get_upd_ne by lia. done.
Qed.

Lemma wf_bitmap_upd bm total i v : wf_bitmap bm total -> in_u 8 v -> wf_bitmap (upd bm i v) total.
Proof. intros (Ht & Hl & Hb) Hv. split_and!; [done|by rewrite length_upd|]. by apply Forall_insert. Qed.

Lemma wf_set bm total p : wf_bitmap bm total -> wf_bitmap (bitmap_set_bit bm p) total.
Proof. intros. apply wf_bitmap_upd; [done|]. by apply wrap_bound. Qed.

Lemma wf_clear bm total p : wf_bitmap bm total -> wf_bitmap (bitmap_clear_bit bm p) total.
Proof. intros. apply wf_bitmap_upd; [done|]. by apply wrap_bound. Qed.

Lemma test_set bm total p q : wf_bitmap bm total -> 0 <= p < total -> 0 <= q ->
  bitmap_test_bit (bitmap_set_bit bm p) q = (q =? p) || bitmap_test_bit bm q.
Proof.
  intros Hw Hp Hq. unfold bitmap_set_bit. rewrite shift_bit by zlia. rewrite (test_upd _ total); [|done..|]; last first.
  { intros k Hk Hne. rewrite testbit_wrap, Z.lor_spec, Z.pow2_bits_false by lia.
    destruct (Z.ltb_spec k 8); [by rewrite orb_false_r|lia]. }
  destruct (Z.eqb_spec q p); [|done]. rewrite testbit_wrap, Z.lor_spec, Z.pow2_bits_true by zlia.
  destruct (Z.ltb_spec (p mod 8) 8); [|zlia]. by rewrite orb_true_r.
Qed.

Lemma test_clear bm total p q : wf_bitmap bm total -> 0 <= p < total -> 0 <= q ->
  bitmap_test_bit (bitmap_clear_bit bm p) q = negb (q =? p) && bitmap_test_bit bm q.
Proof.
  intros Hw Hp Hq. unfold bitmap_clear_bit. rewrite shift_bit by zlia. rewrite (test_upd _ total); [|done..|]; last first.
  { intros k Hk Hne. rewrite testbit_wrap, Z.land_spec, Z.lnot_spec, Z.pow2_bits_false by lia.
    destruct (Z.ltb_spec k 8); [by rewrite andb_true_r|lia]. }
  destruct (Z.eqb_spec q p); [|done]. rewrite testbit_wrap, Z.land_spec, Z.lnot_spec, Z.pow2_bits_true by zlia.
  destruct (Z.ltb_spec (p mod 8) 8); [|zlia]. by rewrite andb_false_r.
Qed.

Definition in_run (q page : Z) (n : nat) : bool := (page <=? q) && (q <? page + Z.of_nat n).

Lemma set_run_spec total n : forall bm page, wf_bitmap bm total -> 0 <= page -> page + Z.of_nat n <= total ->
  wf_bitmap (set_run bm page n) total /\
  forall q, 0 <= q -> bitmap_test_bit (set_run bm page n) q = in_run q page n || bitmap_test_bit bm q.
Proof.
  unfold in_run. induction n as [|n IH]; intros bm page Hw Hp Hn; cbn [set_run].
  { split; [done|]. intros q Hq. by replace (_ && _) with false by lia. }
  destruct (IH (bitmap_set_bit bm page) (page + 1)) as [IHw IHt]; [by apply wf_set|lia..|].
  split; [done|]. intros q Hq. rewrite IHt, (test_set _ total) by (done || lia).
  destruct (bitmap_test_bit bm q); [by rewrite !orb_true_r|lia].
Qed.

Lemma clear_run_spec total n : forall bm page, wf_bitmap bm total -> 0 <= page -> page + Z.of_nat n <= total ->
  wf_bitmap (clear_run bm page n) total /\
  forall q, 0 <= q -> bitmap_test_bit (clear_run bm page n) q = negb (in_run q page n) && bitmap_test_bit bm q.
Proof.
  unfold in_run. induction n as [|n IH]; intros bm page Hw Hp Hn; cbn [clear_run].
  { split; [done|]. intros q Hq. by replace (_ && (q <? _)) with false by lia. }
  destruct (IH (bitmap_clear_bit bm page) (page + 1)) as [IHw IHt]; [by apply wf_clear|lia..|].
  split; [done|]. intros q Hq. rewrite IHt, (test_clear _ total) by (done || lia).
  destruct (bitmap_test_bit bm q); [lia|by rewrite !andb_false_r].
Qed.

(** ** Specification: the pages in use, with their counts *)
Inductive pmm_op :=
| Alloc_page | Alloc_pages (num : Z) | Free_page (page : Z) | Free_pages (pages num : Z)
| Page_ref (page : Z) | Get_refcount (page : Z) | Get_free_memory.

Definition pmm_exec (s : pmm) (op : pmm_op) : pmm * Z :=
  match op with
  | Alloc_page => pmm_alloc_page s
  | Alloc_pages n => pmm_alloc_pages s n
  | Free_page p => (pmm_free_page s p, 0)
  | Free_pages p n => (pmm_free_pages s p n, 0)
  | Page_ref p => (pmm_page_ref s p, 0)
  | Get_refcount p => (s, pmm_page_get_refcount s p)
  | Get_free_memory => (s, pmm_get_free_memory s)
  end.

(** [n] pages from [i] are all free. *)
Definition free_run (m : gmap Z Z) (i n : Z) : Prop := forall k, i <= k < i + n -> m !! k = None.

Fixpoint use_run (m : gmap Z Z) (i : Z) (n : nat) : gmap Z Z :=
  match n with O => m | S n => use_run (<[i := 1]> m) (i + 1) n end.

Definition drop_ref (m : gmap Z Z) (i : Z) : gmap Z Z :=
  match m !! i with
  | Some c => if c <=? 1 then delete i m else <[i := c - 1]> m
  | None => m
  end.

Fixpoint drop_run (m : gmap Z Z) (i : Z) (n : nat) : gmap Z Z :=
  match n with O => m | S n => drop_run (drop_ref m i) (i + 1) n end.

Definition add_ref (m : gmap Z Z) (i : Z) : gmap Z Z :=
  match m !! i with Some c => <[i := Z.min 255 (c + 1)]> m | None => m end.

(** What each call may do to the pages in use, with [total] pages and [usable] bytes;
    [k] is the constant difference between the pages in use and the counter. *)
Inductive pmm_step (total usable k : Z) (m : gmap Z Z) : pmm_op -> gmap Z Z -> Z -> Prop :=
| St_page i : 0 <= i < total -> m !! i = None -> pmm_step total usable k m Alloc_page (<[i := 1]> m) (i * PAGE_SIZE)
| St_page_none : (forall i, 0 <= i < total -> is_Some (m !! i)) -> pmm_step total usable k m Alloc_page m 0
| St_pages_0 : pmm_step total usable k m (Alloc_pages 0) m 0
| St_pages_1 m' r : pmm_step total usable k m Alloc_page m' r -> pmm_step total usable k m (Alloc_pages 1) m' r
| St_pages i n : 2 <= n -> 0 <= i -> i + n <= total -> free_run m i n ->
    (forall i', 0 <= i' < i -> ~ free_run m i' n) ->
    pmm_step total usable k m (Alloc_pages n) (use_run m i (Z.to_nat n)) (i * PAGE_SIZE)
| St_pages_none n : 2 <= n -> (forall i, 0 <= i -> i + n <= total -> ~ free_run m i n) ->
    pmm_step total usable k m (Alloc_pages n) m 0
| St_free p : p <> 0 -> pmm_step total usable k m (Free_page p) (drop_ref m (p / PAGE_SIZE)) 0
| St_free_null : pmm_step total usable k m (Free_page 0) m 0
| St_frees p n : p <> 0 -> pmm_step total usable k m (Free_pages p n) (drop_run m (p / PAGE_SIZE) (Z.to_nat n)) 0
| St_frees_null n : pmm_step total usable k m (Free_pages 0 n) m 0
| St_ref p : p <> 0 -> pmm_step total usable k m (Page_ref p) (add_ref m (p / PAGE_SIZE)) 0
| St_ref_null : pmm_step total usable k m (Page_ref 0) m 0
| St_count p : pmm_step total usable k m (Get_refcount p) m (if p =? 0 then 0 else default 0 (m !! (p / PAGE_SIZE)))
| St_free_memory : pmm_step total usable k m Get_free_memory m (u64 (usable - (k + Z.of_nat (size m)) * PAGE_SIZE)).

(** The state represents the map [m]. *)
Record pmm_rep (k : Z) (s : pmm) (m : gmap Z Z) : Prop := {
  rp_bitmap : wf_bitmap (bitmap s) (total_pages s);
  rp_total : total_pages s < 2 ^ 52;
  rp_counts : length (pp_refcounts s) = Z.to_nat (total_pages s);
  rp_hint : 0 <= last_used_index s <= total_pages s;
  rp_nofault : g_debug_pmm_fail_nth s = 0;
  rp_used : used_pages s = u64 (k + Z.of_nat (size m));
  rp_range : forall i c, m !! i = Some c -> 0 <= i < total_pages s /\ 0 <= c <= 255;
  rp_bit : forall i, 0 <= i < total_pages s -> bitmap_test_bit (bitmap s) i = bool_decide (is_Some (m !! i));
  rp_count : forall i, 0 <= i < total_pages s -> count_of s i = default 0 (m !! i)
}.

(** ** Refinement *)
Lemma find_free_spec bm n : forall i,
  match find_free bm i n with
  | Some j => i <= j < i + Z.of_nat n /\ bitmap_test_bit bm j = false
  | None => forall j, i <= j < i + Z.of_nat n -> bitmap_test_bit bm j = true
  end.
Proof.
  induction n as [|n IH]; intros i; cbn [find_free]; [lia|].
  destruct (bitmap_test_bit bm i) eqn:E; cbn [negb]; [|split; [lia|done]].
  specialize (IH (i + 1)). destruct (find_free bm (i + 1) n); [destruct IH; split; [lia|done]|].
  intros j Hj. destruct (Z.eq_dec j i) as [->|]; [done|]. apply IH. lia.
Qed.

(** A run found ends at the first page that closes one. *)
Lemma find_run_spec bm num n : forall i c, 0 < num -> 0 <= c < num -> c <= i ->
  (forall j, i - c <= j < i -> bitmap_test_bit bm j = false) ->
  (c < i -> bitmap_test_bit bm (i - c - 1) = true) ->
  match find_run bm num i c n with
  | Some e => i <= e < i + Z.of_nat n /\ 0 <= e - num + 1 /\ (forall j, e - num < j <= e -> bitmap_test_bit bm j = false) /\
      (forall e', i <= e' < e -> exists j, e' - num < j <= e' /\ bitmap_test_bit bm j = true \/ e' - num + 1 < 0)
  | None => forall e', i <= e' < i + Z.of_nat n -> exists j, e' - num < j <= e' /\ bitmap_test_bit bm j = true \/ e' - num + 1 < 0
  end.
Proof.
  induction n as [|n IH]; intros i c Hnum Hc Hi Hfree Hbefore; cbn [find_run]; [lia|].
  set (c' := if negb (bitmap_test_bit bm i) then c + 1 else 0).
  assert (forall j, i + 1 - c' <= j < i + 1 -> bitmap_test_bit bm j = false) as Hfree'.
  { intros j Hj. unfold c' in Hj. destruct (bitmap_test_bit bm i) eqn:E; cbn [negb] in Hj; [lia|].
    destruct (Z.eq_dec j i) as [->|]; [done|]. apply Hfree. lia. }
  assert (c' < i + 1 -> bitmap_test_bit bm (i + 1 - c' - 1) = true) as Hbefore'.
  { unfold c'. destruct (bitmap_test_bit bm i) eqn:E; cbn [negb]; intros.
    - replace (i + 1 - 0 - 1) with i by lia. done.
    - replace (i + 1 - (c + 1) - 1) with (i - c - 1) by lia. apply Hbefore. lia. }
  assert (0 <= c' <= i + 1 /\ c' <= num) as Hc' by (unfold c'; destruct (negb _); lia).
  destruct (Z.eqb_spec c' num) as [E|Hne].
  - split_and!; [lia..| |intros; lia]. intros j Hj. apply Hfree'. lia.
  - assert (exists j, i - num < j <= i /\ bitmap_test_bit bm j = true \/ i - num + 1 < 0) as Hi'.
    { destruct (Z.eq_dec c' (i + 1)) as [Ec|Ec]; [exists 0; right; lia|]. exists (i - c'). left. split; [lia|].
      replace (i - c') with (i + 1 - c' - 1) by lia. apply Hbefore'. lia. }
    specialize (IH (i + 1) c' Hnum ltac:(lia) ltac:(lia) Hfree' Hbefore').
    destruct (find_run bm num (i + 1) c' n) as [e|].
    + destruct IH as (H1 & H2 & H3 & H4). split; [lia|]. split; [done|]. split; [done|]. intros e' He'.
      destruct (Z.eq_dec e' i) as [->|]; [done|]. apply H4. lia.
    + intros e' He'. destruct (Z.eq_dec e' i) as [->|]; [done|]. apply IH. lia.
Qed.

Section rep.
  Context (k : Z) (s : pmm) (m : gmap Z Z).
  Hypothesis Hrep : pmm_rep k s m.

Lemma rep_none i : m !! i = None -> 0 <= i < total_pages s -> bitmap_test_bit (bitmap s) i = false.
Proof. intros E Hi. rewrite (rp_bit _ _ _ Hrep) by done. rewrite E. apply bool_decide_eq_false_2. by intros []. Qed.

Lemma rep_clear i : 0 <= i < total_pages s -> bitmap_test_bit (bitmap s) i = false -> m !! i = None.
Proof.
  intros Hi. rewrite (rp_bit _ _ _ Hrep) by done. intros E%bool_decide_eq_false_1. by apply eq_None_not_Some.
Qed.

Lemma rep_set i : 0 <= i < total_pages s -> bitmap_test_bit (bitmap s) i = true -> is_Some (m !! i).
Proof. intros Hi. rewrite (rp_bit _ _ _ Hrep) by done. apply bool_decide_eq_true_1. Qed.
End rep.

Lemma use_run_lookup n : forall m i q, use_run m i n !! q = if in_run q i n then Some 1 else m !! q.
Proof.
  unfold in_run. induction n as [|n IH]; intros m i q; cbn [use_run].
  { by replace (_ && _) with false by lia. }
  rewrite IH. destruct (Z.eq_dec q i) as [->|].
  - replace ((i + 1 <=? i) && _) with false by lia. rewrite lookup_insert_eq. by replace (_ && _) with true by lia.
  - rewrite lookup_insert_ne by done. by replace ((i + 1 <=? q) && _) with ((i <=? q) && (q <? i + Z.of_nat (S n))) by lia.
Qed.

Lemma use_run_size n : forall m i, (forall q, i <= q < i + Z.of_nat n -> m !! q = None) ->
  Z.of_nat (size (use_run m i n)) = Z.of_nat (size m) + Z.of_nat n.
Proof.
  induction n as [|n IH]; intros m i H; cbn [use_run]; [lia|].
  rewrite IH.
  - rewrite map_size_insert_None by (apply H; lia). lia.
  - intros q Hq. rewrite lookup_insert_ne by lia. apply H. lia.
Qed.

Lemma set_counts_spec n : forall rc page q, 0 <= page -> page + Z.of_nat n <= Z.of_nat (length rc) -> 0 <= q ->
  length (set_counts rc page n) = length rc /\
  default 0 (get (set_counts rc page n) q) = if in_run q page n then 1 else default 0 (get rc q).
Proof.
  unfold in_run. induction n as [|n IH]; intros rc page q Hp Hn Hq; cbn [set_counts].
  { by replace (_ && _) with false by lia. }
  destruct (IH (upd rc page 1) (page + 1) q) as [E1 E2]; [lia|rewrite length_upd; lia|done|].
  rewrite length_upd in E1. split; [done|]. rewrite E2. destruct (Z.eq_dec q page) as [->|].
  - rewrite get_upd_eq by lia. replace ((page + 1 <=? page) && _) with false by lia.
    by replace (_ && _) with true by lia.
  - rewrite get_upd_ne by lia. by replace ((page + 1 <=? q) && _) with ((page <=? q) && (q <? page + Z.of_nat (S n))) by lia.
Qed.

(** Taking a run of free pages; single pages are runs of one. *)
Lemma rep_take k s m i n u h :
  pmm_rep k s m -> 0 <= i -> i + Z.of_nat n <= total_pages s -> free_run m i (Z.of_nat n) ->
  u = u64 (used_pages s + Z.of_nat n) -> 0 <= h <= total_pages s ->
  pmm_rep k (Pmm (set_run (bitmap s) i n) (total_pages s) u (usable_memory s) h
    (set_counts (pp_refcounts s) i n) (g_debug_pmm_fail_nth s)) (use_run m i n).
Proof.
  intros Hrep Hi Hn Hfree -> Hh.
  destruct (set_run_spec (total_pages s) n (bitmap s) i (rp_bitmap _ _ _ Hrep) Hi Hn) as [Hw Ht].
  assert (i + Z.of_nat n <= Z.of_nat (length (pp_refcounts s))) as Hl by (rewrite (rp_counts _ _ _ Hrep); lia).
  pose proof (rp_total _ _ _ Hrep). split; cbn; try done.
  - destruct (set_counts_spec n (pp_refcounts s) i 0 Hi Hl) as [-> _]; [done|]. apply (rp_counts _ _ _ Hrep).
  - apply (rp_nofault _ _ _ Hrep).
  - rewrite (rp_used _ _ _ Hrep), wrap_add_l, use_run_size by (done || apply Hfree). f_equal. lia.
  - intros q c. rewrite use_run_lookup. unfold in_run. destruct (_ && _) eqn:E; [|apply (rp_range _ _ _ Hrep)].
    intros [= <-]. lia.
  - intros q Hq. rewrite Ht, use_run_lookup by lia. destruct (in_run q i n); cbn [orb]; [|by apply (rp_bit _ _ _ Hrep)].
    symmetry. by apply bool_decide_eq_true_2.
  - intros q Hq. unfold count_of; cbn. destruct (set_counts_spec n (pp_refcounts s) i q Hi Hl ltac:(lia)) as [_ ->].
    rewrite use_run_lookup. destruct (in_run q i n); [done|]. by apply (rp_count _ _ _ Hrep).
Qed.

Lemma count_upd s l i v q : 0 <= i < Z.of_nat (length l) -> 0 <= q ->
  pp_refcounts s = upd l i v -> count_of s q = if q =? i then v else default 0 (get l q).
Proof.
  intros Hi Hq E. unfold count_of. rewrite E. destruct (Z.eqb_spec q i) as [->|]; [by rewrite get_upd_eq|].
  by rewrite get_upd_ne by lia.
Qed.

(** Changing the count of a page in use. *)
Lemma rep_count k s m i c c' :
  pmm_rep k s m -> m !! i = Some c -> 0 <= c' <= 255 ->
  pmm_rep k {| s with pp_refcounts := upd (pp_refcounts s) i c' |} (<[i := c']> m).
Proof.
  intros Hrep Hm Hc. destruct (rp_range _ _ _ Hrep _ _ Hm) as [Hi _]. destruct Hrep as [H1 H2 H3 H4 H5 H6 H7 H8 H9].
  split; cbn; try done.
  - by rewrite length_upd.
  - rewrite H6. by rewrite map_size_insert_Some.
  - intros q d. destruct (Z.eq_dec q i) as [->|]; [rewrite lookup_insert_eq; intros [= <-]; done|].
    rewrite lookup_insert_ne by done. apply H7.
  - intros q Hq. rewrite H8 by done. apply bool_decide_ext. destruct (Z.eq_dec q i) as [->|].
    + by rewrite lookup_insert_eq, Hm.
    + by rewrite lookup_insert_ne.
  - intros q Hq. rewrite (count_upd _ (pp_refcounts s) i c') by (done || lia). destruct (Z.eqb_spec q i) as [->|].
    + by rewrite lookup_insert_eq.
    + rewrite lookup_insert_ne by done. by apply H9.
Qed.

(** The last reference goes. *)
Lemma rep_release k s m i c :
  pmm_rep k s m -> m !! i = Some c ->
  pmm_rep k {| s with pp_refcounts := upd (pp_refcounts s) i 0; bitmap := bitmap_clear_bit (bitmap s) i;
              used_pages := u64 (used_pages s - 1) |} (delete i m).
Proof.
  intros Hrep Hm. destruct (rp_range _ _ _ Hrep _ _ Hm) as [Hi _]. destruct Hrep as [H1 H2 H3 H4 H5 H6 H7 H8 H9].
  split; cbn; try done.
  - by apply wf_clear.
  - by rewrite length_upd.
  - rewrite H6, map_size_delete_Some by done.
    assert (size m <> 0%nat) by (rewrite map_size_non_empty_iff; intros ->; by rewrite lookup_empty in Hm).
    replace (u64 (k + Z.of_nat (size m)) - 1) with (u64 (k + Z.of_nat (size m)) + -1) by lia.
    rewrite wrap_add_l by done. f_equal. lia.
  - intros q d. destruct (Z.eq_dec q i) as [->|]; [by rewrite lookup_delete_eq|].
    rewrite lookup_delete_ne by done. apply H7.
  - intros q Hq. rewrite (test_clear _ (total_pages s)), H8 by (done || lia). destruct (Z.eqb_spec q i) as [->|].
    + rewrite lookup_delete_eq. symmetry. apply bool_decide_eq_false_2. by intros [].
    + by rewrite lookup_delete_ne.
  - intros q Hq. rewrite (count_upd _ (pp_refcounts s) i 0) by (done || lia). destruct (Z.eqb_spec q i) as [->|].
    + by rewrite lookup_delete_eq.
    + rewrite lookup_delete_ne by done. by apply H9.
Qed.

Lemma rep_drop k s m i : pmm_rep k s m -> 0 <= i -> pmm_rep k (fst (drop_page s i)) (drop_ref m i).
Proof.
  intros Hrep Hi. unfold drop_page, drop_ref. destruct (m !! i) as [c|] eqn:Em.
  - destruct (rp_range _ _ _ Hrep _ _ Em) as [Hr Hc].
    rewrite (rp_bit _ _ _ Hrep), bool_decide_eq_true_2 by (done || by rewrite Em).
    rewrite (rp_count _ _ _ Hrep), Em by done. change (default 0 (Some c)) with c.
    destruct (Z.ltb_spec i (total_pages s)); [|lia]. cbn [andb]. cbv zeta.
    destruct (Z.leb_spec c 1).
    + replace (if c >? 0 then c - 1 else c) with 0 by (destruct (Z.gtb_spec c 0); lia).
      rewrite Z.eqb_refl. by apply (rep_release k s m i c).
    + destruct (Z.gtb_spec c 0); [|lia]. destruct (Z.eqb_spec (c - 1) 0); [lia|]. apply (rep_count k s m i c); [done..|lia].
  - destruct (Z.ltb_spec i (total_pages s)) as [Hlt|]; [|done].
    rewrite (rep_none _ _ _ Hrep) by (done || lia). done.
Qed.

Lemma rep_lower k s m i : pmm_rep k s m -> 0 <= i -> pmm_rep k (lower_hint s i) m.
Proof.
  intros Hrep Hi. unfold lower_hint. destruct (Z.ltb_spec i (last_used_index s)); [|done].
  destruct Hrep. split; cbn; try done. lia.
Qed.

Lemma rep_drops k n : forall s m i, pmm_rep k s m -> 0 <= i -> pmm_rep k (drop_pages s i n) (drop_run m i n).
Proof.
  induction n as [|n IH]; intros s m i Hrep Hi; [done|]. cbn [drop_pages drop_run]. apply IH; [|lia]. by apply rep_drop.
Qed.

Lemma drop_pages_total n : forall s i, total_pages (drop_pages s i n) = total_pages s /\
  usable_memory (drop_pages s i n) = usable_memory s.
Proof.
  induction n as [|n IH]; intros s i; [done|]. cbn [drop_pages]. destruct (IH (fst (drop_page s i)) (i + 1)) as [-> ->].
  unfold drop_page. by split_ifs.
Qed.

Lemma nofault k s m : pmm_rep k s m -> fault_injected s = (s, false).
Proof. intros Hrep. unfold fault_injected. by rewrite (rp_nofault _ _ _ Hrep). Qed.

Lemma rep_take_page k s m i : pmm_rep k s m -> 0 <= i < total_pages s -> m !! i = None ->
  pmm_rep k (fst (take_page s i)) (<[i := 1]> m).
Proof.
  intros Hrep Hi Hm. apply (rep_take k s m i 1); try done; try lia. intros q Hq. by replace q with i by lia.
Qed.

Lemma alloc_page_step usable k s m : pmm_rep k s m ->
  exists m', pmm_step (total_pages s) usable k m Alloc_page m' (snd (pmm_alloc_page s)) /\
    pmm_rep k (fst (pmm_alloc_page s)) m'.
Proof.
  intros Hrep. unfold pmm_alloc_page. rewrite (nofault _ _ _ Hrep). pose proof (rp_hint _ _ _ Hrep) as Hh.
  pose proof (find_free_spec (bitmap s) (Z.to_nat (total_pages s - last_used_index s)) (last_used_index s)) as H1.
  destruct (find_free _ _ _) as [i|] eqn:E1.
  { destruct H1 as [Hi Hb]. assert (m !! i = None) as Hm by (apply (rep_clear _ _ _ Hrep); [lia|done]).
    exists (<[i := 1]> m). split; [apply St_page; [lia|done]|]. apply rep_take_page; [done|lia|done]. }
  pose proof (find_free_spec (bitmap s) (Z.to_nat (last_used_index s)) 0) as H2.
  destruct (find_free (bitmap s) 0 _) as [i|] eqn:E2.
  { destruct H2 as [Hi Hb]. assert (m !! i = None) as Hm by (apply (rep_clear _ _ _ Hrep); [lia|done]).
    exists (<[i := 1]> m). split; [apply St_page; [lia|done]|]. apply rep_take_page; [done|lia|done]. }
  exists m. split; [|done]. apply St_page_none. intros i Hi. apply (rep_set _ _ _ Hrep); [done|].
  destruct (Z.lt_ge_cases i (last_used_index s)); [apply H2; lia|apply H1; lia].
Qed.

Lemma alloc_pages_step usable k s m n : pmm_rep k s m -> 0 <= n ->
  exists m', pmm_step (total_pages s) usable k m (Alloc_pages n) m' (snd (pmm_alloc_pages s n)) /\
    pmm_rep k (fst (pmm_alloc_pages s n)) m'.
Proof.
  intros Hrep Hn. unfold pmm_alloc_pages. destruct (Z.eqb_spec n 0) as [->|H0]; [exists m; split; [apply St_pages_0|done]|].
  destruct (Z.eqb_spec n 1) as [->|H1].
  { destruct (alloc_page_step usable k s m Hrep) as (m' & Hs & Hr). exists m'. split; [by apply St_pages_1|done]. }
  rewrite (nofault _ _ _ Hrep). pose proof (proj1 (rp_bitmap _ _ _ Hrep)) as Ht.
  pose proof (find_run_spec (bitmap s) n (Z.to_nat (total_pages s)) 0 0 ltac:(lia) ltac:(lia) ltac:(lia) ltac:(lia) ltac:(lia)) as H.
  assert (forall i, 0 <= i -> i + n <= total_pages s -> free_run m i n ->
    forall j, i <= j < i + n -> bitmap_test_bit (bitmap s) j = false) as Hclear.
  { intros i Hi Hin Hf j Hj. apply (rep_none _ _ _ Hrep); [by apply Hf|lia]. }
  destruct (find_run _ _ _ _ _) as [e|].
  - destruct H as (He & Hs & Hfree & Hfirst).
    assert (free_run m (e - n + 1) n) as Hf by (intros j Hj; apply (rep_clear _ _ _ Hrep); [lia|apply Hfree; lia]).
    exists (use_run m (e - n + 1) (Z.to_nat n)). split.
    + apply St_pages; [lia..|done|]. intros i' Hi' Hf'. destruct (Hfirst (i' + n - 1)) as (j & [[Hj Eb]|]); [lia| |lia].
      by rewrite (Hclear i') in Eb by (done || lia).
    + apply rep_take; try done; try lia; [|by rewrite Z2Nat.id|apply (rp_hint _ _ _ Hrep)].
      by rewrite Z2Nat.id.
  - exists m. split; [|done]. apply St_pages_none; [lia|]. intros i Hi Hin Hf.
    destruct (H (i + n - 1)) as (j & [[Hj Eb]|]); [lia| |lia]. by rewrite (Hclear i) in Eb by (done || lia).
Qed.

Lemma rep_ref k s m p : pmm_rep k s m -> 0 < p -> pmm_rep k (pmm_page_ref s p) (add_ref m (p / PAGE_SIZE)).
Proof.
  intros Hrep Hp. unfold pmm_page_ref, add_ref. destruct (Z.eqb_spec p 0); [lia|]. set (i := p / PAGE_SIZE).
  assert (0 <= i) by (apply Z.div_pos; lia). destruct (m !! i) as [c|] eqn:Em.
  - destruct (rp_range _ _ _ Hrep _ _ Em) as [Hr Hc].
    rewrite (rp_bit _ _ _ Hrep), bool_decide_eq_true_2 by (done || by rewrite Em).
    rewrite (rp_count _ _ _ Hrep), Em by done. change (default 0 (Some c)) with c.
    destruct (Z.ltb_spec i (total_pages s)); [|lia]. cbn [andb]. destruct (Z.ltb_spec c 255).
    + rewrite Z.min_r by lia. apply (rep_count k s m i c); [done..|lia].
    + replace (Z.min 255 (c + 1)) with c by lia. by rewrite insert_id.
  - destruct (Z.ltb_spec i (total_pages s)); [|done]. by rewrite (rep_none _ _ _ Hrep) by (done || lia).
Qed.

(** Addresses and sizes are unsigned. *)
Definition op_unsigned (op : pmm_op) : Prop :=
  match op with
  | Alloc_page | Get_free_memory => True
  | Alloc_pages n => 0 <= n
  | Free_page p | Page_ref p | Get_refcount p => 0 <= p
  | Free_pages p n => 0 <= p /\ 0 <= n
  end.

Lemma pmm_exec_step k s m op : pmm_rep k s m -> op_unsigned op ->
  exists m', pmm_step (total_pages s) (usable_memory s) k m op m' (snd (pmm_exec s op)) /\
    pmm_rep k (fst (pmm_exec s op)) m'.
Proof.
  intros Hrep Hop. destruct op as [|n|p|p n|p|p|]; cbn [pmm_exec fst snd]; cbn in Hop.
  - by apply alloc_page_step.
  - by apply alloc_pages_step.
  - unfold pmm_free_page. destruct (Z.eqb_spec p 0) as [->|]; [exists m; split; [apply St_free_null|done]|].
    exists (drop_ref m (p / PAGE_SIZE)). split; [by apply St_free|].
    assert (0 <= p / PAGE_SIZE) as Hi by (apply Z.div_pos; lia). pose proof (rep_drop k s m _ Hrep Hi) as H.
    destruct (drop_page s (p / PAGE_SIZE)) as [s' []]; [by apply rep_lower|done].
  - unfold pmm_free_pages. destruct (Z.eqb_spec p 0) as [->|]; [exists m; split; [apply St_frees_null|done]|].
    exists (drop_run m (p / PAGE_SIZE) (Z.to_nat n)). split; [by apply St_frees|].
    destruct (Z.eqb_spec n 0) as [->|]; [done|]. assert (0 <= p / PAGE_SIZE) as Hi by (apply Z.div_pos; lia).
    cbn [orb]. by apply rep_lower, Hi; apply rep_drops.
  - destruct (Z.eqb_spec p 0) as [->|]; [exists m; split; [apply St_ref_null|done]|].
    exists (add_ref m (p / PAGE_SIZE)). split; [by apply St_ref|]. apply rep_ref; [done|lia].
  - exists m. split; [|done]. assert (pmm_page_get_refcount s p = if p =? 0 then 0 else default 0 (m !! (p / PAGE_SIZE))) as ->.
    { unfold pmm_page_get_refcount. destruct (Z.eqb_spec p 0); [done|].
      assert (0 <= p / PAGE_SIZE) by (apply Z.div_pos; lia).
      destruct (Z.geb_spec (p / PAGE_SIZE) (total_pages s)); [|apply (rp_count _ _ _ Hrep); lia].
      destruct (m !! (p / PAGE_SIZE)) eqn:E; [|done]. apply (rp_range _ _ _ Hrep) in E. lia. }
    apply St_count.
  - exists m. split; [|done].
    assert (pmm_get_free_memory s = u64 (usable_memory s - (k + Z.of_nat (size m)) * PAGE_SIZE)) as ->; [|apply St_free_memory].
    unfold pmm_get_free_memory. rewrite (rp_used _ _ _ Hrep). unfold wrap.
    rewrite Zminus_mod, Zmult_mod_idemp_l, <- Zminus_mod. done.
Qed.

Lemma pmm_exec_keeps s op : total_pages (fst (pmm_exec s op)) = total_pages s /\
  usable_memory (fst (pmm_exec s op)) = usable_memory s.
Proof.
  destruct op as [|n|p|p n|p|p|]; cbn [pmm_exec fst]; try done.
  - unfold pmm_alloc_page, fault_injected. by repeat case_match; simplify_eq.
  - unfold pmm_alloc_pages, pmm_alloc_page, fault_injected. by repeat case_match; simplify_eq.
  - unfold pmm_free_page, drop_page, lower_hint. by split_ifs.
  - unfold pmm_free_pages, lower_hint. by split_ifs; cbn; rewrite ?(proj1 (drop_pages_total _ _ _)), ?(proj2 (drop_pages_total _ _ _)).
  - unfold pmm_page_ref. by split_ifs.
Qed.

Fixpoint pmm_run (s : pmm) (ops : list pmm_op) : pmm * list Z :=
  match ops with
  | [] => (s, [])
  | op :: ops => let '(s, r) := pmm_exec s op in let '(s, rs) := pmm_run s ops in (s, r :: rs)
  end.

Inductive pmm_trace (total usable k : Z) : gmap Z Z -> list pmm_op -> list Z -> gmap Z Z -> Prop :=
| Tr_nil m : pmm_trace total usable k m [] [] m
| Tr_cons m op m' r ops rs m'' : pmm_step total usable k m op m' r -> pmm_trace total usable k m' ops rs m'' ->
    pmm_trace total usable k m (op :: ops) (r :: rs) m''.

(** ** After initialisation *)
Definition entry_ok (e : memmap_entry) : Prop :=
  0 <= e_base e /\ 0 <= e_length e /\ e_base e mod PAGE_SIZE = 0 /\ e_length e mod PAGE_SIZE = 0 /\
  e_base e + e_length e < 2 ^ 63.

Definition entry_page (e : memmap_entry) (i : Z) : bool :=
  e_usable e && in_run i (e_base e / PAGE_SIZE) (Z.to_nat (e_length e / PAGE_SIZE)).

Lemma highest_acc es : forall h, h <= fold_left (fun h e => if e_usable e then Z.max h (u64 (e_base e + e_length e)) else h) es h.
Proof.
  induction es as [|e es IH]; intros h; cbn [fold_left]; [lia|]. destruct (e_usable e); [|apply IH].
  etrans; [|apply IH]. lia.
Qed.

Lemma highest_addr_ge es e : Forall entry_ok es -> e ∈ es -> e_usable e = true -> e_base e + e_length e <= highest_addr es.
Proof.
  unfold highest_addr. generalize 0. intros h Hok Hin Hu. revert h.
  induction Hok as [|e' es (H1 & H2 & _ & _ & H3) Hok IH]; intros h; [by apply elem_of_nil in Hin|].
  cbn [fold_left]. apply elem_of_cons in Hin as [<-|Hin]; [|by apply IH]. rewrite Hu.
  etrans; [|apply highest_acc]. rewrite wrap_small by (unfold in_u; lia). lia.
Qed.

Lemma highest_addr_range es : Forall entry_ok es -> 0 <= highest_addr es < 2 ^ 63.
Proof.
  unfold highest_addr. intros Hok.
  enough (forall h, 0 <= h < 2 ^ 63 ->
    0 <= fold_left (fun h e => if e_usable e then Z.max h (u64 (e_base e + e_length e)) else h) es h < 2 ^ 63) as H
    by by apply H.
  induction Hok as [|e' es (H1 & H2 & _ & _ & H3) Hok IH]; intros h Hh; cbn [fold_left]; [done|].
  apply IH. destruct (e_usable e'); [|done]. rewrite wrap_small by (unfold in_u; lia). lia.
Qed.

Lemma clear_entries es total : Forall entry_ok es ->
  (forall e, e ∈ es -> e_usable e = true -> e_base e / PAGE_SIZE + e_length e / PAGE_SIZE <= total) ->
  forall bm, wf_bitmap bm total ->
  let bm' := fold_left (fun bm e => if e_usable e
    then clear_run bm (e_base e / PAGE_SIZE) (Z.to_nat (e_length e / PAGE_SIZE)) else bm) es bm in
  wf_bitmap bm' total /\ forall q, 0 <= q -> bitmap_test_bit bm' q = negb (existsb (fun e => entry_page e q) es) && bitmap_test_bit bm q.
Proof.
  induction 1 as [|e es (H1 & H2 & _) Hok IH]; intros Hin bm Hw; cbn [fold_left existsb]; [done|].
  assert (forall e', e' ∈ es -> e_usable e' = true -> e_base e' / PAGE_SIZE + e_length e' / PAGE_SIZE <= total) as Hin'
    by (intros; apply Hin; [by right|done]).
  unfold entry_page at 1. destruct (e_usable e) eqn:Eu; cbn [andb orb]; [|by apply IH].
  pose proof (Hin e ltac:(by left) Eu). assert (0 <= e_base e / PAGE_SIZE) by (apply Z.div_pos; lia).
  assert (0 <= e_length e / PAGE_SIZE) by (apply Z.div_pos; lia).
  destruct (clear_run_spec total (Z.to_nat (e_length e / PAGE_SIZE)) bm (e_base e / PAGE_SIZE)) as [Hw' Ht']; [done|lia|lia|].
  destruct (IH Hin' _ Hw') as [Hw'' Ht'']. split; [done|]. intros q Hq. rewrite Ht'', Ht' by done.
  by rewrite negb_orb, !andb_assoc, (andb_comm (negb (in_run _ _ _))).
Qed.

(** Pages in use after initialisation, all with count 0. *)
Definition used_map (bm : list Z) (total : Z) : gmap Z Z :=
  list_to_map (map (fun i => (Z.of_nat i, 0)) (List.filter (fun i => bitmap_test_bit bm (Z.of_nat i)) (seq 0 (Z.to_nat total)))).

Lemma used_map_lookup bm total i : 0 <= total ->
  used_map bm total !! i = if (0 <=? i) && (i <? total) && bitmap_test_bit bm i then Some 0 else None.
Proof.
  intros Ht. unfold used_map. destruct (list_to_map _ !! i) as [c|] eqn:E.
  - apply elem_of_list_to_map_2, list_elem_of_In, in_map_iff in E as (j & [= <- <-] & Hj).
    apply filter_In in Hj as [[_ Hj]%in_seq ->]. by replace (_ && _) with true by lia.
  - apply not_elem_of_list_to_map_2 in E. destruct (_ && _ && _) eqn:Eb; [|done]. destruct E.
    apply list_elem_of_In, in_map_iff. exists (i, 0). split; [done|]. apply in_map_iff. exists (Z.to_nat i).
    split; [f_equal; lia|]. apply filter_In. rewrite in_seq, Z2Nat.id by lia. split; lia.
Qed.

Lemma test_full n i : 0 <= i < 8 * Z.of_nat n -> bitmap_test_bit (replicate n 0xFF) i = true.
Proof.
  intros Hi. rewrite test_bit_spec by lia. unfold get. destruct (Z.ltb_spec (i / 8) 0); [zlia|].
  rewrite lookup_replicate_2 by zlia. cbn [default from_option id].
  assert (0 <= i mod 8 < 8) as Hk by zlia. revert Hk. generalize (i mod 8). intros k Hk.
  change 0xFF with (Z.ones 8). by rewrite Z.ones_spec_low by lia.
Qed.

Lemma find_Some_in {A} (f : A -> bool) l x : List.find f l = Some x -> x ∈ l /\ f x = true.
Proof. intros H. apply find_some in H as [? ?]. by rewrite list_elem_of_In. Qed.

(** The pages occupied by the manager's own arrays. *)
Definition meta_page (es : list memmap_entry) (i : Z) : bool :=
  let total := highest_addr es / PAGE_SIZE in
  let meta_size := (total + 7) / 8 + total in
  match meta_chunk es meta_size with
  | Some c => in_run i (e_base c / PAGE_SIZE) (Z.to_nat ((meta_size + PAGE_SIZE - 1) / PAGE_SIZE))
  | None => false
  end.

(** A fresh state over any bitmap. *)
Lemma fresh_rep bm total mp usable :
  wf_bitmap bm total -> total < 2 ^ 52 -> in_u 64 mp ->
  pmm_rep (mp - Z.of_nat (size (used_map bm total))) (Pmm bm total mp usable 0 (replicate (Z.to_nat total) 0) 0)
    (used_map bm total).
Proof.
  intros Hw Ht Hmp. pose proof (proj1 Hw) as H0. split; cbn; try done; try lia; [by rewrite length_replicate| | | |].
  - replace (_ + _) with mp by lia. by rewrite wrap_small.
  - intros i v. rewrite used_map_lookup by lia. destruct (_ && _) eqn:E; [|done]. intros [= <-]. lia.
  - intros i Hi. rewrite used_map_lookup by lia. replace ((0 <=? i) && (i <? total)) with true by lia. cbn [andb].
    destruct (bitmap_test_bit bm i); symmetry; [by apply bool_decide_eq_true_2|]. apply bool_decide_eq_false_2. by intros [].
  - intros i Hi. unfold count_of, get; cbn. destruct (i <? 0) eqn:?; [lia|]. rewrite lookup_replicate_2 by lia.
    rewrite used_map_lookup by lia. by destruct (_ && _).
Qed.

(** Initialisation.  From a page-aligned memory map the manager starts in a
    well-formed state in which a page is free exactly if it lies in a usable entry and
    not under the manager's own bitmap and counts, and in which every other page is in
    use with count 0. *)
Theorem pmm_init_correct (es : list memmap_entry) (s : pmm) :
  Forall entry_ok es -> pmm_init es = Some s ->
  exists m k, pmm_rep k s m /\ total_pages s = highest_addr es / PAGE_SIZE /\
    forall i, 0 <= i < total_pages s ->
      m !! i = if existsb (fun e => entry_page e i) es && negb (meta_page es i) then None else Some 0.
Proof.
  intros Hok Hinit. pose proof (highest_addr_range es Hok) as Hh. unfold pmm_init in Hinit.
  set (total := highest_addr es / PAGE_SIZE) in *. set (ms := (total + 7) / 8 + total) in *.
  assert (0 <= total < 2 ^ 51) as Ht by (unfold total; split; [apply Z.div_pos; lia|apply Z.div_lt_upper_bound; lia]).
  destruct (meta_chunk es ms) as [c|] eqn:Ec; [|done]. injection Hinit as <-. pose proof Ec as Ec0.
  set (mp := (ms + PAGE_SIZE - 1) / PAGE_SIZE) in *.
  assert (forall e, e ∈ es -> e_usable e = true -> e_base e / PAGE_SIZE + e_length e / PAGE_SIZE <= total) as Hin.
  { intros e He Hu. pose proof (highest_addr_ge es e Hok He Hu).
    apply (proj1 (Forall_forall _ _) Hok) in He as (H1 & H2 & H3 & H4 & _). unfold total. zlia. }
  assert (wf_bitmap (replicate (Z.to_nat ((total + 7) / 8)) 0xFF) total) as Hw0.
  { split_and!; [lia|by rewrite length_replicate|]. by apply Forall_replicate. }
  destruct (clear_entries es total Hok Hin _ Hw0) as [Hw1 Ht1]. cbv zeta in Hw1, Ht1.
  set (bm1 := fold_left _ es _) in *.
  unfold meta_chunk in Ec. apply find_Some_in in Ec as [Hcin Hc]. apply andb_true_iff in Hc as [Hcu Hcl].
  pose proof (proj1 (Forall_forall _ _) Hok _ Hcin) as (H1 & H2 & H3 & H4 & _).
  assert (0 <= ms) by (unfold ms; zlia). assert (0 <= mp /\ e_base c / PAGE_SIZE + mp <= total) as [Hmp Hmt].
  { pose proof (Hin c Hcin Hcu). unfold mp. zlia. }
  destruct (set_run_spec total (Z.to_nat mp) bm1 (e_base c / PAGE_SIZE) Hw1) as [Hw2 Ht2]; [apply Z.div_pos; lia|lia|].
  set (bm2 := set_run _ _ _) in *. exists (used_map bm2 total), (mp - Z.of_nat (size (used_map bm2 total))).
  assert (in_u 64 mp) as Hu by (unfold in_u; assert (0 <= e_base c / PAGE_SIZE) by (apply Z.div_pos; lia); lia).
  split; [apply fresh_rep; [done|lia|done]|]. split; [done|].
  intros i Hi. cbn in Hi. rewrite used_map_lookup, Ht2, Ht1, test_full by zlia.
  replace ((0 <=? i) && (i <? total)) with true by lia. rewrite andb_true_r. cbn [andb].
  unfold meta_page. fold total ms. rewrite Ec0. fold mp.
  by destruct (in_run i _ _), (existsb _ es).
Qed.

(** C7: the manager refines the map of pages in use.  Starting in any represented state,
    every sequence of calls returns what a map from pages to reference counts allows: an
    allocation hands out a page that is not in use and sets its count to 1, and answers
    NULL only when every page is in use; a run is the lowest one of that length that is
    free, and NULL only when there is none; a page becomes free exactly when its last
    counted reference is dropped; the free memory reported follows the number of pages
    in use. *)
Theorem pmm_refines (ops : list pmm_op) : forall (k : Z) (s : pmm) (m : gmap Z Z),
  pmm_rep k s m -> Forall op_unsigned ops ->
  exists m', pmm_trace (total_pages s) (usable_memory s) k m ops (snd (pmm_run s ops)) m' /\
    pmm_rep k (fst (pmm_run s ops)) m'.
Proof.
  induction ops as [|op ops IH]; intros k s m Hrep Hops; [exists m; split; [constructor|done]|].
  apply Forall_cons in Hops as [Hop Hops]. destruct (pmm_exec_step k s m op Hrep Hop) as (m1 & Hs & Hr).
  destruct (pmm_exec_keeps s op) as [Et Eu]. cbn [pmm_run]. destruct (pmm_exec s op) as [s1 r]. cbn in *.
  destruct (IH k s1 m1 Hr Hops) as (m2 & Htr & Hr2). destruct (pmm_run s1 ops) as [s2 rs]. cbn in *.
  exists m2. split; [|done]. econstructor; [done|]. by rewrite <- Et, <- Eu.
Qed.

(** Sixteen pages, the first reserved, the arrays in the second. *)
Definition demo_memmap : list memmap_entry := [Memmap_entry 0 4096 false; Memmap_entry 4096 61440 true].
Definition demo_pmm : pmm := default (Pmm [] 0 0 0 0 [] 0) (pmm_init demo_memmap).

Lemma demo_memmap_ok : Forall entry_ok demo_memmap.
Proof. repeat constructor; cbn; lia. Qed.

Lemma pmm_init_correct_witness :
  exists m k, pmm_rep k demo_pmm m /\ total_pages demo_pmm = highest_addr demo_memmap / PAGE_SIZE /\
    forall i, 0 <= i < total_pages demo_pmm ->
      m !! i = if existsb (fun e => entry_page e i) demo_memmap && negb (meta_page demo_memmap i) then None else Some 0.
Proof. apply (pmm_init_correct demo_memmap demo_pmm); [apply demo_memmap_ok|by vm_compute]. Defined.

Definition demo_pmm_ops : list pmm_op :=
  [Alloc_page; Alloc_pages 3; Page_ref 8192; Free_page 8192; Get_refcount 8192; Free_page 8192; Alloc_page; Alloc_pages 20].

Lemma demo_pmm_rep : exists k, pmm_rep k demo_pmm (used_map (bitmap demo_pmm) (total_pages demo_pmm)).
Proof.
  eexists. apply (fresh_rep (bitmap demo_pmm) (total_pages demo_pmm) (used_pages demo_pmm) (usable_memory demo_pmm)).
  - split; [by vm_compute|]. split; [by vm_compute|]. repeat constructor; by vm_compute.
  - by vm_compute.
  - by vm_compute.
Qed.

Lemma pmm_refines_witness :
  snd (pmm_run demo_pmm demo_pmm_ops) = [8192; 12288; 0; 0; 1; 0; 8192; 0] /\
  exists k m m', pmm_trace (total_pages demo_pmm) (usable_memory demo_pmm) k m demo_pmm_ops
    (snd (pmm_run demo_pmm demo_pmm_ops)) m' /\ pmm_rep k (fst (pmm_run demo_pmm demo_pmm_ops)) m'.
Proof.
  split; [by vm_compute|].
  destruct demo_pmm_rep as (k & Hk).
  exists k, (used_map (bitmap demo_pmm) (total_pages demo_pmm)).
  apply (pmm_refines demo_pmm_ops k demo_pmm _ Hk). repeat constructor; cbn; lia.
Defined.

(** ** Outside the contract *)

(** Freeing a page that was never allocated, here the page under the bitmap and the
    counts, is not refused although its count is 0: it becomes free and is handed out. *)
Theorem reserved_page_freed :
  pmm_page_get_refcount demo_pmm 4096 = 0 /\
  snd (pmm_run demo_pmm [Free_page 4096; Alloc_page]) = [0; 4096].
Proof. by vm_compute. Qed.

(** A page shared by 256 owners is not pinned: after 255 of them have dropped it the page
    is free and is handed out again, while the last owner still uses it. *)
Theorem saturated_count_frees :
  let ops := Alloc_page :: replicate 255 (Page_ref 8192) ++ replicate 255 (Free_page 8192) ++ [Alloc_page] in
  (snd (pmm_run demo_pmm ops) !! 0%nat, last (snd (pmm_run demo_pmm ops))) = (Some 8192, Some 8192).
Proof. by vm_compute. Qed.
