(* ===== verification/StateM.v ===== *)
(** * A state monad for code that threads a global state

    [M S A] runs from a state and gives a new state and a result; [None] stands for a
    run that never returns (a lock that is never released) or leaves the fuel of a loop.
    [wp] is total correctness: the run returns, and the postcondition holds. *)
From S2P Require Import Prelude.

Definition M (S A : Type) : Type := S -> option (S * A).

#[export] Instance M_ret S : MRet (M S) := fun A a s => Some (s, a).
#[export] Instance M_bind S : MBind (M S) := fun A B k m s =>
  match m s with Some (s', a) => k a s' | None => None end.

Definition diverge {S A} : M S A := fun _ => None.
Definition gets {S A} (f : S -> A) : M S A := fun s => Some (s, f s).
Definition modify {S} (f : S -> S) : M S unit := fun s => Some (f s, tt).

Definition wp {S A} (m : M S A) (Q : A -> S -> Prop) (s : S) : Prop :=
  exists s' a, m s = Some (s', a) /\ Q a s'.

Section wp.
  Context {S : Type}.

Lemma wp_ret {A} (a : A) (Q : A -> S -> Prop) s : Q a s -> wp (mret a) Q s.
Proof. intros. by exists s, a. Qed.

Lemma wp_bind {A B} (m : M S A) (k : A -> M S B) Q s : wp m (fun a => wp (k a) Q) s -> wp (m ≫= k) Q s.
Proof. intros (s' & a & E & s'' & b & E' & H). exists s'', b. split; [|done]. unfold mbind, M_bind. by rewrite E. Qed.

Lemma wp_mono {A} (m : M S A) (P Q : A -> S -> Prop) s : (forall a s', P a s' -> Q a s') -> wp m P s -> wp m Q s.
Proof. intros HPQ (s' & a & E & H). exists s', a. auto. Qed.

Lemma wp_gets {A} (f : S -> A) (Q : A -> S -> Prop) s : Q (f s) s -> wp (gets f) Q s.
Proof. intros. by exists s, (f s). Qed.

Lemma wp_modify (f : S -> S) (Q : unit -> S -> Prop) s : Q tt (f s) -> wp (modify f) Q s.
Proof. intros. by exists (f s), tt. Qed.

(** A run with a postcondition has it whenever it is computed. *)
Lemma wp_elim {A} (m : M S A) Q s s' a : wp m Q s -> m s = Some (s', a) -> Q a s'.
Proof. intros (s1 & a1 & E & H) E'. rewrite E in E'. by injection E' as <- <-. Qed.

Lemma wp_and {A} (m : M S A) P Q s : wp m P s -> wp m Q s -> wp m (fun a s' => P a s' /\ Q a s') s.
Proof. intros (s' & a & E & H) HQ. exists s', a. split; [done|]. split; [done|]. by eapply wp_elim. Qed.

Lemma bind_Some {A B} (m : M S A) (k : A -> M S B) s s' b :
  (m ≫= k) s = Some (s', b) -> exists s1 a, m s = Some (s1, a) /\ k a s1 = Some (s', b).
Proof. unfold mbind, M_bind. destruct (m s) as [[s1 a]|]; [eauto|done]. Qed.

(** Total-correctness triples. *)
Definition triple {A} (P : S -> Prop) (m : M S A) (Q : A -> S -> Prop) : Prop := forall s, P s -> wp m Q s.

Lemma triple_ret {A} (P : S -> Prop) (a : A) Q : (forall s, P s -> Q a s) -> triple P (mret a) Q.
Proof. intros H s Hs. by apply wp_ret, H. Qed.

Lemma triple_bind {A B} (m : M S A) (k : A -> M S B) P Q R :
  triple P m Q -> (forall a, triple (Q a) (k a) R) -> triple P (m ≫= k) R.
Proof. intros Hm Hk s Hs. apply wp_bind. eapply wp_mono; [|by apply Hm]. intros a s' Hs'. by apply Hk. Qed.

Lemma triple_gets {A} (P : S -> Prop) (f : S -> A) Q : (forall s, P s -> Q (f s) s) -> triple P (gets f) Q.
Proof. intros H s Hs. by apply wp_gets, H. Qed.

Lemma triple_modify (P : S -> Prop) (f : S -> S) Q : (forall s, P s -> Q tt (f s)) -> triple P (modify f) Q.
Proof. intros H s Hs. by apply wp_modify, H. Qed.

Lemma triple_mono {A} (m : M S A) (P P' : S -> Prop) Q Q' :
  triple P m Q -> (forall s, P' s -> P s) -> (forall a s, Q a s -> Q' a s) -> triple P' m Q'.
Proof. intros Hm HP HQ s Hs. eapply wp_mono; [apply HQ|]. by apply Hm, HP. Qed.

(** Reading the state: its value is known in what follows. *)
Lemma triple_gets_bind {A B} (f : S -> A) (k : A -> M S B) P R :
  (forall a, triple (fun s => P s /\ f s = a) (k a) R) -> triple P (gets f ≫= k) R.
Proof. intros H s Hs. apply wp_bind, wp_gets. by apply H. Qed.

Lemma triple_pure {A} (R : Prop) (P : S -> Prop) (m : M S A) Q : (R -> triple P m Q) -> triple (fun s => P s /\ R) m Q.
Proof. unfold triple. cbv beta. intros H s [Hs HR]. by apply H. Qed.
End wp.

#[global] Arguments M_bind : simpl never.
#[global] Arguments gets : simpl never.
#[global] Arguments modify : simpl never.

(** Specifications of the operations of a state; [eauto] finds them by the program. *)
Create HintDb triple.

Ltac wp_step :=
  match goal with
  | |- wp (mbind _ _) _ _ => apply wp_bind
  | |- wp (mret _) _ _ => apply wp_ret
  | |- wp (gets _) _ _ => apply wp_gets
  | |- wp (modify _) _ _ => apply wp_modify
  end.
