(* ===== verification/Vmm.v ===== *)
(** * Virtual memory manager (arch/x86_64/mm/vmm.c)

    Address spaces are four-level page tables in physical memory, read and written through
    the higher-half direct map.  The state holds the physical memory manager, the contents
    of the page frames, and the pool of address spaces; a pointer is the address the code
    computes, and an access outside the frames of the machine is a fault, which ends the run
    ([None] of the monad of [StateM]).  The cached translations of the processor are not part
    of the state, so [invlpg] and the spinlock are the identity.  The proofs are in
    [VmmInv], [VmmMap], [VmmSpace] and [VmmClone]. *)
From S2P Require Import Prelude Bytes Pmm StateM.
Local Open Scope Z_scope.
Local Open Scope c_scope.

Abbreviation PTE_PRESENT := 0x1.
Abbreviation PTE_WRITABLE := 0x2.
Abbreviation PTE_USER := 0x4.
Abbreviation PTE_LARGEPAGE := 0x80.
Abbreviation PTE_NX := 0x8000000000000000.
Abbreviation PAGE_MASK := 0xFFFFFFFFFFFFF000.
Abbreviation MAX_ADDRESS_SPACES := 32.

(** The static variables, with [ram] the contents of the frames that the direct map reaches
    and [cr3_reg] the register; a handler is the address of its code. *)
Record vm := Vm {
  phys_pages : pmm; ram : gmap Z (list Z); g_hhdm_offset : Z; kernel_space : Z;
  address_space_pool : list Z; next_address_space_idx : Z; cr3_reg : Z;
  g_pf_handler : Z; g_snap_pf_handler : Z }.

(** A pointer to an address space: the kernel's, or one of the pool. *)
Inductive address_space := Kernel_space | Pool_space (i : Z).

Definition top_level (s : vm) (sp : address_space) : Z :=
  match sp with Kernel_space => kernel_space s | Pool_space i => default 0 (get (address_space_pool s) i) end.

Definition set_top_level (sp : address_space) (top : Z) : M vm unit := modify (fun s =>
  match sp with
  | Kernel_space => {| s with kernel_space := top |}
  | Pool_space i => {| s with address_space_pool := upd (address_space_pool s) i top |}
  end).

(** ** Memory *)
Definition load (a : Z) : M vm Z := fun s =>
  let p := u64 (a - g_hhdm_offset s) in
  pg ← ram s !! (p / PAGE_SIZE);
  if p mod PAGE_SIZE <=? PAGE_SIZE - 8 then Some (s, field pg (Z.to_nat (p mod PAGE_SIZE)) 8) else None.

Definition store_bytes (a : Z) (l : list Z) : M vm unit := fun s =>
  let p := u64 (a - g_hhdm_offset s) in
  pg ← ram s !! (p / PAGE_SIZE);
  if p mod PAGE_SIZE + Z.of_nat (length l) <=? PAGE_SIZE
  then Some ({| s with ram := <[p / PAGE_SIZE := splice pg (Z.to_nat (p mod PAGE_SIZE)) l]> (ram s) |}, tt)
  else None.

Definition store (a v : Z) : M vm unit := store_bytes a (le 8 v).

Definition vmm_memset (a c : Z) (n : nat) : M vm unit := store_bytes a (replicate n (u8 c)).

(** The direct-map address of a physical one, and the address of an array element. *)
Definition hhdm (phys : Z) : M vm Z := gets (fun s => u64 (phys + g_hhdm_offset s)).
Definition elem (table i : Z) : Z := u64 (table + 8 * i).

Definition alloc_frame : M vm Z := fun s =>
  let '(p, r) := pmm_alloc_page (phys_pages s) in Some ({| s with phys_pages := p |}, r).
Definition free_frame (phys : Z) : M vm unit :=
  modify (fun s => {| s with phys_pages := pmm_free_page (phys_pages s) phys |}).

(** Loops over the entries of a table; [for_all] leaves the loop when its body is false. *)
Fixpoint for_each {A} (l : list A) (f : A -> M vm unit) : M vm unit :=
  match l with [] => mret tt | x :: l => f x;; for_each l f end.
Fixpoint for_all {A} (l : list A) (f : A -> M vm bool) : M vm bool :=
  match l with [] => mret true | x :: l => ok ← f x; if (ok : bool) then for_all l f else mret false end.

(** ** Mapping *)
Definition pml4_index (virt : Z) : Z := (virt >>. 39) &. 0x1FF.
Definition pdpt_index (virt : Z) : Z := (virt >>. 30) &. 0x1FF.
Definition pd_index (virt : Z) : Z := (virt >>. 21) &. 0x1FF.
Definition pt_index (virt : Z) : Z := (virt >>. 12) &. 0x1FF.

Definition present (e : Z) : bool := has_flag e PTE_PRESENT.

Definition get_pml4_phys (s : vm) (sp : option address_space) : Z :=
  match sp with
  | None => 0
  | Some sp => if top_level s sp =? 0 then 0 else u64 (top_level s sp - g_hhdm_offset s)
  end.

Definition align_down (addr : Z) : Z := addr &. PAGE_MASK.
Definition align_up (addr : Z) : Z := u64 (addr + PAGE_SIZE - 1) &. PAGE_MASK.

(** One level of the walk that maps: the table behind entry [i] of [table], made when the
    entry is not present; [None] when there is no memory for it. *)
Definition next_table (table i : Z) : M vm (option Z) :=
  e ← load (elem table i);
  ok ← (if present e then mret true else
        phys ← alloc_frame;
        if phys =? 0 then mret false else
        virt ← hhdm phys;
        vmm_memset virt 0 (Z.to_nat PAGE_SIZE);;
        store (elem table i) (phys |. PTE_PRESENT |. PTE_WRITABLE |. PTE_USER);;
        mret true);
  if negb ok then mret None else
  e ← load (elem table i);
  next ← hhdm (e &. PAGE_MASK);
  mret (Some next).

(** The common body of vmm_map_page and vmm_map_page_by_cr3. *)
Definition map_page (pml4 virt phys flags : Z) : M vm bool :=
  pdpt ← next_table pml4 (pml4_index virt);
  match pdpt with None => mret false | Some pdpt =>
  pd ← next_table pdpt (pdpt_index virt);
  match pd with None => mret false | Some pd =>
  pt ← next_table pd (pd_index virt);
  match pt with None => mret false | Some pt =>
  store (elem pt (pt_index virt)) (phys |. flags);;
  mret true
  end end end.

Definition vmm_map_page (sp : option address_space) (virt phys flags : Z) : M vm bool :=
  match sp with
  | None => mret false
  | Some sp =>
      top ← gets (fun s => top_level s sp);
      if top =? 0 then mret false else map_page top virt phys flags
  end.

Definition vmm_map_page_by_cr3 (cr3 virt phys flags : Z) : M vm bool :=
  pml4 ← hhdm cr3;
  map_page pml4 virt phys flags.

(** The loop of vmm_map_range, whose [n] iterations start at [offset]. *)
Fixpoint map_range_loop (sp : option address_space) (virt phys offset flags : Z) (n : nat) : M vm bool :=
  match n with
  | O => mret true
  | S n =>
      ok ← vmm_map_page sp (u64 (virt + offset)) (u64 (phys + offset)) flags;
      if (ok : bool) then map_range_loop sp virt phys (offset + PAGE_SIZE) flags n else mret false
  end.

Definition vmm_map_range (sp : option address_space) (virt_start phys_start size flags : Z) : M vm bool :=
  let virt_aligned := align_down virt_start in
  let phys_aligned := align_down phys_start in
  let size_aligned := align_up (u64 (size + (virt_start - virt_aligned))) in
  map_range_loop sp virt_aligned phys_aligned 0 flags (Z.to_nat (size_aligned / PAGE_SIZE)).

(** ** Lookup *)

(** The address of the entry of [virt], 0 when a table on the way is absent. *)
Definition vmm_walk_pte (cr3 virt : Z) : M vm Z :=
  pml4 ← hhdm cr3;
  e ← load (elem pml4 (pml4_index virt));
  if negb (present e) then mret 0 else
  pdpt ← hhdm (e &. PAGE_MASK);
  e ← load (elem pdpt (pdpt_index virt));
  if negb (present e) then mret 0 else
  pd ← hhdm (e &. PAGE_MASK);
  e ← load (elem pd (pd_index virt));
  if negb (present e) then mret 0 else
  pt ← hhdm (e &. PAGE_MASK);
  mret (elem pt (pt_index virt)).

Definition vmm_get_physical_address (cr3 virt : Z) : M vm Z :=
  pml4 ← hhdm cr3;
  e ← load (elem pml4 (pml4_index virt));
  if negb (present e) then mret 0 else
  pdpt ← hhdm (e &. PAGE_MASK);
  e ← load (elem pdpt (pdpt_index virt));
  if negb (present e) then mret 0 else
  pd ← hhdm (e &. PAGE_MASK);
  e ← load (elem pd (pd_index virt));
  if negb (present e) then mret 0 else
  pt ← hhdm (e &. PAGE_MASK);
  e ← load (elem pt (pt_index virt));
  if negb (present e) then mret 0 else
  mret ((e &. PAGE_MASK) |. (virt &. 0xFFF)).

Definition vmm_get_pte (cr3 virt : Z) : M vm Z :=
  pte ← vmm_walk_pte cr3 virt;
  if pte =? 0 then mret 0 else
  v ← load pte;
  mret (if present v then v else 0).

Definition vmm_unmap_page_by_cr3 (cr3 virt : Z) : M vm unit :=
  pml4 ← hhdm cr3;
  e ← load (elem pml4 (pml4_index virt));
  if negb (present e) then mret tt else
  pdpt ← hhdm (e &. PAGE_MASK);
  e ← load (elem pdpt (pdpt_index virt));
  if negb (present e) then mret tt else
  pd ← hhdm (e &. PAGE_MASK);
  e ← load (elem pd (pd_index virt));
  if negb (present e) then mret tt else
  pt ← hhdm (e &. PAGE_MASK);
  store (elem pt (pt_index virt)) 0.

Definition vmm_protect_page_by_cr3 (cr3 virt new_flags : Z) : M vm bool :=
  pte ← vmm_walk_pte cr3 virt;
  if pte =? 0 then mret false else
  e ← load pte;
  if negb (present e) then mret false else
  store pte ((e &. PAGE_MASK) |. (new_flags &. (0xFFFFFFFFFFFFFFFF - PAGE_MASK)) |. PTE_PRESENT);;
  mret true.

(** ** Reservation of a range of addresses *)
Abbreviation VMM_USER_SEARCH_BOTTOM := 0x0000100000000000.
Abbreviation VMM_USER_SEARCH_TOP := 0x0000500000000000.

(** The first occupied page among [n] pages from [va]. *)
Fixpoint first_present (cr3 va : Z) (n : nat) : M vm (option Z) :=
  match n with
  | O => mret None
  | S n =>
      pte ← vmm_walk_pte cr3 va;
      taken ← (if pte =? 0 then mret false else e ← load pte; mret (present e));
      if (taken : bool) then mret (Some va) else first_present cr3 (u64 (va + PAGE_SIZE)) n
  end.

(** The search, for at most [fuel] candidates. *)
Fixpoint reserve_loop (fuel : nat) (cr3 cur stop : Z) (npages : nat) : M vm Z :=
  match fuel with
  | O => diverge
  | S fuel =>
      if cur <=? stop then
        hit ← first_present cr3 cur npages;
        match hit with
        | None => mret cur
        | Some va => reserve_loop fuel cr3 (u64 (va + PAGE_SIZE)) stop npages
        end
      else mret 0
  end.

Definition vmm_reserve_va_by_cr3 (fuel : nat) (cr3 len : Z) : M vm Z :=
  if (len =? 0) || negb (len &. (PAGE_SIZE - 1) =? 0) then mret 0 else
  reserve_loop fuel cr3 VMM_USER_SEARCH_BOTTOM (u64 (VMM_USER_SEARCH_TOP - len)) (Z.to_nat (len / PAGE_SIZE)).

(** ** Address spaces *)

(** The slot of vmm_create_address_space: the first empty one, or the next index. *)
Definition pick_slot : M vm (option Z) := fun s =>
  match find_index (fun t => t =? 0) (address_space_pool s) with
  | Some i => Some (s, Some (Z.of_nat i))
  | None =>
      if next_address_space_idx s >=? MAX_ADDRESS_SPACES then Some (s, None)
      else Some ({| s with next_address_space_idx := next_address_space_idx s + 1 |}, Some (next_address_space_idx s))
  end.

(** The picked slot gets a new top level with the kernel's half. *)
Definition fill_slot (i : Z) : M vm (option address_space) :=
  pml4_phys ← alloc_frame;
  if pml4_phys =? 0 then mret None else
  top ← hhdm pml4_phys;
  set_top_level (Pool_space i) top;;
  vmm_memset top 0 (Z.to_nat PAGE_SIZE);;
  k ← gets kernel_space;
  for_each (seqZ 256 256) (fun j => e ← load (elem k j); store (elem top j) e);;
  mret (Some (Pool_space i)).

Definition vmm_create_address_space : M vm (option address_space) :=
  slot ← pick_slot;
  match slot with
  | None => mret None
  | Some i => fill_slot i
  end.

(** The frames that the walk frees below a page table, a directory, a pointer table. *)
Definition destroy_pt (pt : Z) : M vm unit :=
  for_each (seqZ 0 512) (fun l =>
    e ← load (elem pt l);
    if negb (present e) then mret tt else free_frame (e &. PAGE_MASK)).

Definition destroy_pd (pd : Z) : M vm unit :=
  for_each (seqZ 0 512) (fun k =>
    e ← load (elem pd k);
    if negb (present e) then mret tt else
    if has_flag e PTE_LARGEPAGE then mret tt else
    pt ← hhdm (e &. PAGE_MASK);
    destroy_pt pt;;
    free_frame (e &. PAGE_MASK)).

Definition destroy_pdpt (pdpt : Z) : M vm unit :=
  for_each (seqZ 0 512) (fun j =>
    e ← load (elem pdpt j);
    if negb (present e) then mret tt else
    if has_flag e PTE_LARGEPAGE then mret tt else
    pd ← hhdm (e &. PAGE_MASK);
    destroy_pd pd;;
    free_frame (e &. PAGE_MASK)).

Definition vmm_destroy_address_space (sp : option address_space) : M vm unit :=
  match sp with
  | None => mret tt
  | Some sp =>
      pml4 ← gets (fun s => top_level s sp);
      if pml4 =? 0 then mret tt else
      for_each (seqZ 0 256) (fun i =>
        e ← load (elem pml4 i);
        if negb (present e) then mret tt else
        pdpt ← hhdm (e &. PAGE_MASK);
        destroy_pdpt pdpt;;
        free_frame (e &. PAGE_MASK));;
      off ← gets g_hhdm_offset;
      free_frame (u64 (pml4 - off));;
      set_top_level sp 0
  end.

Definition vmm_destroy_address_space_by_cr3 (cr3 : Z) : M vm unit :=
  hit ← gets (fun s => find_index (fun t => negb (t =? 0) && (u64 (t - g_hhdm_offset s) =? cr3)) (address_space_pool s));
  match hit with
  | None => mret tt
  | Some i => vmm_destroy_address_space (Some (Pool_space (Z.of_nat i)))
  end.

Definition vmm_get_pml4_phys (s : vm) (sp : option address_space) : Z := get_pml4_phys s sp.

Definition vmm_switch_address_space_phys (pml4_phys : Z) : M vm unit :=
  modify (fun s => {| s with cr3_reg := pml4_phys |}).

Definition vmm_switch_address_space (sp : option address_space) : M vm unit :=
  pml4_phys ← gets (fun s => get_pml4_phys s sp);
  vmm_switch_address_space_phys pml4_phys.

(** ** Cloned page tables *)
Abbreviation VMM_CLONE_PHYS_ADDR_MASK := 0x000FFFFFFFFFF000.

(** The walk of vmm_free_cloned_pml4: the tables, not the pages they map. *)
Definition free_cloned_pd (pd : Z) : M vm unit :=
  for_each (seqZ 0 512) (fun k =>
    e ← load (elem pd k);
    if negb (present e) then mret tt else
    if has_flag e PTE_LARGEPAGE then mret tt else
    free_frame (e &. VMM_CLONE_PHYS_ADDR_MASK)).

Definition free_cloned_pdpt (pdpt : Z) : M vm unit :=
  for_each (seqZ 0 512) (fun j =>
    e ← load (elem pdpt j);
    if negb (present e) then mret tt else
    if has_flag e PTE_LARGEPAGE then mret tt else
    pd ← hhdm (e &. VMM_CLONE_PHYS_ADDR_MASK);
    free_cloned_pd pd;;
    free_frame (e &. VMM_CLONE_PHYS_ADDR_MASK)).

Definition vmm_free_cloned_pml4 (clone_cr3 : Z) : M vm unit :=
  if clone_cr3 =? 0 then mret tt else
  pml4 ← hhdm clone_cr3;
  for_each (seqZ 0 256) (fun i =>
    e ← load (elem pml4 i);
    if negb (present e) then mret tt else
    pdpt ← hhdm (e &. VMM_CLONE_PHYS_ADDR_MASK);
    free_cloned_pdpt pdpt;;
    free_frame (e &. VMM_CLONE_PHYS_ADDR_MASK));;
  free_frame clone_cr3.

(** A fresh table for the clone of entry [e], linked at entry [i] of [clone]: its address
    and the address of the table that [e] names.  [None] when memory is exhausted. *)
Definition clone_table (clone i e : Z) : M vm (option (Z * Z)) :=
  phys ← alloc_frame;
  if phys =? 0 then mret None else
  new ← hhdm phys;
  vmm_memset new 0 (Z.to_nat PAGE_SIZE);;
  store (elem clone i) ((phys &. VMM_CLONE_PHYS_ADDR_MASK) |. (e &. (0xFFFFFFFFFFFFFFFF - VMM_CLONE_PHYS_ADDR_MASK)));;
  parent ← hhdm (e &. VMM_CLONE_PHYS_ADDR_MASK);
  mret (Some (new, parent)).

Definition clone_pt (clone parent : Z) : M vm unit :=
  for_each (seqZ 0 512) (fun l => e ← load (elem parent l); store (elem clone l) e).

Definition clone_pd (clone parent : Z) : M vm bool :=
  for_all (seqZ 0 512) (fun k =>
    e ← load (elem parent k);
    if negb (present e) then mret true else
    if has_flag e PTE_LARGEPAGE then mret true else
    t ← clone_table clone k e;
    match t with
    | None => mret false
    | Some (clone_t, parent_t) => clone_pt clone_t parent_t;; mret true
    end).

Definition clone_pdpt (clone parent : Z) : M vm bool :=
  for_all (seqZ 0 512) (fun j =>
    e ← load (elem parent j);
    if negb (present e) then mret true else
    if has_flag e PTE_LARGEPAGE then mret true else
    t ← clone_table clone j e;
    match t with
    | None => mret false
    | Some (clone_t, parent_t) => clone_pd clone_t parent_t
    end).

Definition clone_pml4 (clone parent : Z) : M vm bool :=
  for_all (seqZ 0 256) (fun i =>
    e ← load (elem parent i);
    if negb (present e) then mret true else
    t ← clone_table clone i e;
    match t with
    | None => mret false
    | Some (clone_t, parent_t) => clone_pdpt clone_t parent_t
    end).

(** The clone's physical address, or [None] for -1; the result pointer is not NULL. *)
Definition vmm_clone_user_pml4 (parent_cr3 : Z) : M vm (option Z) :=
  clone_pml4_phys ← alloc_frame;
  if clone_pml4_phys =? 0 then mret None else
  clone ← hhdm clone_pml4_phys;
  vmm_memset clone 0 (Z.to_nat PAGE_SIZE);;
  parent ← hhdm parent_cr3;
  for_each (seqZ 256 256) (fun i => e ← load (elem parent i); store (elem clone i) e);;
  ok ← clone_pml4 clone parent;
  if (ok : bool) then mret (Some clone_pml4_phys) else
  vmm_free_cloned_pml4 clone_pml4_phys;;
  mret None.

(** ** Initialisation *)
Record framebuffer := Framebuffer { fb_address : Z; fb_height : Z; fb_pitch : Z }.

(** The machine stops ([false]) when the first page or a mapping cannot be had. *)
Definition vmm_init (memmap : list memmap_entry) (fbs : list framebuffer)
    (kernel_phys_base kernel_virt_base hhdm_offset : Z) : M vm bool :=
  modify (fun s => {| s with g_hhdm_offset := hhdm_offset |});;
  pml4_phys ← alloc_frame;
  if pml4_phys =? 0 then mret false else
  top ← hhdm pml4_phys;
  set_top_level Kernel_space top;;
  vmm_memset top 0 (Z.to_nat PAGE_SIZE);;
  ok ← for_all memmap (fun e =>
    vmm_map_range (Some Kernel_space) (u64 (e_base e + hhdm_offset)) (e_base e) (e_length e) (PTE_PRESENT |. PTE_WRITABLE |. PTE_NX));
  if negb ok then mret false else
  ok ← vmm_map_range (Some Kernel_space) kernel_virt_base kernel_phys_base (256 * 1024 * 1024) (PTE_PRESENT |. PTE_WRITABLE);
  if negb ok then mret false else
  ok ← for_all fbs (fun fb =>
    vmm_map_range (Some Kernel_space) (u64 (fb_address fb + hhdm_offset)) (fb_address fb) (u64 (fb_height fb * fb_pitch fb))
      (PTE_PRESENT |. PTE_WRITABLE |. PTE_NX));
  if negb ok then mret false else
  vmm_switch_address_space (Some Kernel_space);;
  mret true.

(** ** Page faults; [call] runs the handler at an address. *)
Definition vmm_install_pf_handler (fn : Z) : M vm unit := modify (fun s => {| s with g_pf_handler := fn |}).
Definition vmm_install_snap_pf_handler (fn : Z) : M vm unit := modify (fun s => {| s with g_snap_pf_handler := fn |}).

Definition vmm_dispatch_pf (call : Z -> Z -> Z -> M vm Z) (fault_va error_code : Z) : M vm Z :=
  snap ← gets g_snap_pf_handler;
  rc ← (if snap =? 0 then mret (-1) else call snap fault_va error_code);
  if rc =? 0 then mret 0 else
  fn ← gets g_pf_handler;
  if fn =? 0 then mret (-1) else call fn fault_va error_code.
