(* ===== verification/VmmInv.v ===== *)
(** * The page tables of all address spaces as a forest

    [entry] reads a table entry in the memory, [node_at] follows a list of indices from a
    table, [pte] is the translation of an address in the space with a given top-level
    frame.  The invariant [vm_inv] names the place of every table frame: the map [T] sends
    a table frame to the frame of its top-level table and its list of indices there, and the
    present entries are exactly the links of this forest.  The upper half of every space is
    shared with the kernel, so a path that begins there belongs to the kernel's tree. *)
From S2P Require Import Prelude Bytes Pmm StateM Vmm.
Local Open Scope Z_scope.
Local Open Scope c_scope.

(** ** Entries as numbers *)
Lemma lor_low c x : 0 <= x < 4096 -> (c * 4096) |. x = c * 4096 + x.
Proof.
  intros Hx. rewrite <- Z.lxor_lor, <- Z.add_nocarry_lxor; [done| |].
  all: change 4096 with (2 ^ 12); rewrite <- Z.shiftl_mul_pow2 by lia; apply Z.bits_inj'; intros i Hi.
  all: rewrite Z.land_spec, Z.shiftl_spec, Z.bits_0 by lia.
  all: destruct (Z.lt_ge_cases i 12); [by rewrite Z.testbit_neg_r by lia|].
  all: by rewrite (testbit_high 12 x), andb_false_r by (done || lia).
Qed.

Lemma page_mask e : in_u 64 e -> e &. PAGE_MASK = e / 4096 * 4096.
Proof.
  intros He. change 4096 with (2 ^ 12). rewrite <- Z.shiftr_div_pow2, <- Z.shiftl_mul_pow2 by lia.
  change PAGE_MASK with (Z.ones 52 <<. 12). apply Z.bits_inj'. intros i Hi.
  rewrite Z.land_spec, !Z.shiftl_spec by lia. destruct (Z.lt_ge_cases i 12).
  - by rewrite !(Z.testbit_neg_r _ (i - 12)), andb_false_r by lia.
  - rewrite Z.shiftr_spec, Z.testbit_ones_nonneg by lia. replace (i - 12 + 12) with i by lia.
    destruct (Z.ltb_spec (i - 12) 52); [by rewrite andb_true_r|]. by rewrite (testbit_high 64 e) by (done || lia).
Qed.

Definition frame_of (e : Z) : Z := (e &. PAGE_MASK) / PAGE_SIZE.

(** The frame that the processor reads from an entry: bits 12 to 51. *)
Definition phys_frame (e : Z) : Z := (e &. VMM_CLONE_PHYS_ADDR_MASK) / PAGE_SIZE.

Lemma frame_of_link c : 0 <= c < 2 ^ 52 -> frame_of (c * 4096 + 7) = c.
Proof. intros Hc. unfold frame_of. rewrite page_mask by (unfold in_u; lia). zlia. Qed.

Lemma link_mask c : 0 <= c < 2 ^ 52 -> (c * 4096 + 7) &. PAGE_MASK = c * 4096.
Proof. intros Hc. rewrite page_mask by (unfold in_u; lia). zlia. Qed.

Lemma present_odd e : present e = Z.odd e.
Proof. unfold present. change 0x1 with (2 ^ 0). rewrite has_flag_pow2 by lia. apply Z.bit0_odd. Qed.

Lemma link_present c : present (c * 4096 + 7) = true.
Proof. rewrite present_odd. replace (c * 4096 + 7) with (1 + 2 * (c * 2048 + 3)) by lia. by rewrite Z.odd_add_mul_2. Qed.

Lemma present_0 : present 0 = false.
Proof. done. Qed.

Lemma index_range a b : 0 <= b -> 0 <= (a >>. b) &. 0x1FF < 512.
Proof. intros. change 0x1FF with (Z.ones 9). rewrite Z.land_ones by lia. apply Z.mod_pos_bound. lia. Qed.

(** ** Reading the tables *)
Definition entry (s : vm) (f i : Z) : Z :=
  match ram s !! f with Some pg => field pg (Z.to_nat (8 * i)) 8 | None => 0 end.

Fixpoint node_at (s : vm) (f : Z) (p : list Z) : option Z :=
  match p with
  | [] => Some f
  | i :: p => if present (entry s f i) then node_at s (frame_of (entry s f i)) p else None
  end.

Definition table_path (va : Z) : list Z := [pml4_index va; pdpt_index va; pd_index va].

(** The entry of [va] in the space with top-level frame [r], when the walk finds one. *)
Definition pte (s : vm) (r va : Z) : option Z :=
  match node_at s r (table_path va) with
  | Some f => let e := entry s f (pt_index va) in if present e then Some e else None
  | None => None
  end.

Definition ptr (s : vm) (f : Z) : Z := u64 (f * PAGE_SIZE + g_hhdm_offset s).

Lemma node_at_app s p q : forall f, node_at s f (p ++ q) = node_at s f p ≫= (fun g => node_at s g q).
Proof. induction p as [|i p IH]; intros f; [done|]. cbn. destruct (present _); [apply IH|done]. Qed.

(** Translation depends on the memory only. *)
Lemma node_at_ram s s' p : ram s' = ram s -> forall f, node_at s' f p = node_at s f p.
Proof.
  intros E. induction p as [|i p IH]; intros f; [done|]. cbn. unfold entry. rewrite E. by destruct (present _).
Qed.

Lemma pte_ram s s' r va : ram s' = ram s -> pte s' r va = pte s r va.
Proof. intros E. unfold pte. rewrite (node_at_ram s s') by done. unfold entry. by rewrite E. Qed.

Abbreviation idx := (fun i => 0 <= i < 512).

Lemma table_path_idx va : Forall idx (table_path va).
Proof. repeat constructor; apply index_range; lia. Qed.
Lemma pt_index_idx va : 0 <= pt_index va < 512.
Proof. apply index_range. lia. Qed.
#[export] Hint Resolve table_path_idx pt_index_idx : grahaos.

(** The page number of an address, which its four indices determine. *)
Definition vpn (va : Z) : Z := (va / PAGE_SIZE) mod 2 ^ 36.

Lemma vpn_indices va : vpn va = ((pml4_index va * 512 + pdpt_index va) * 512 + pd_index va) * 512 + pt_index va.
Proof.
  unfold vpn, pml4_index, pdpt_index, pd_index, pt_index. change 0x1FF with (Z.ones 9).
  rewrite !Z.land_ones, !Z.shiftr_div_pow2 by lia. change (2 ^ 12) with 4096. set (n := va / 4096).
  replace (va / 2 ^ 39) with (n / 2 ^ 27) by (unfold n; rewrite Z.div_div by lia; done).
  replace (va / 2 ^ 30) with (n / 2 ^ 18) by (unfold n; rewrite Z.div_div by lia; done).
  replace (va / 2 ^ 21) with (n / 2 ^ 9) by (unfold n; rewrite Z.div_div by lia; done).
  clearbody n. zlia.
Qed.

Lemma vpn_eq va vb : vpn va = vpn vb <-> table_path va = table_path vb /\ pt_index va = pt_index vb.
Proof.
  rewrite !vpn_indices. unfold table_path.
  pose proof (index_range va 39). pose proof (index_range va 30). pose proof (index_range va 21). pose proof (index_range va 12).
  pose proof (index_range vb 39). pose proof (index_range vb 30). pose proof (index_range vb 21). pose proof (index_range vb 12).
  fold (pml4_index va) (pdpt_index va) (pd_index va) (pt_index va) in *.
  fold (pml4_index vb) (pdpt_index vb) (pd_index vb) (pt_index vb) in *. split.
  - intros E. assert (pml4_index va = pml4_index vb /\ pdpt_index va = pdpt_index vb /\
      pd_index va = pd_index vb /\ pt_index va = pt_index vb) as (-> & -> & -> & ->) by lia. done.
  - intros [[= -> -> ->] ->]. done.
Qed.

(** Addresses of the lower half. *)
Lemma user_page_vpn n : 0 <= n < 2 ^ 36 -> vpn (n * PAGE_SIZE) = n.
Proof. intros Hn. unfold vpn. rewrite Z.div_mul by lia. by apply Z.mod_small. Qed.

Lemma user_page_index n : 0 <= n < 2 ^ 35 -> pml4_index (n * PAGE_SIZE) < 256.
Proof.
  intros Hn. pose proof (user_page_vpn n ltac:(lia)) as E. rewrite vpn_indices in E.
  pose proof (index_range (n * PAGE_SIZE) 30). pose proof (index_range (n * PAGE_SIZE) 21). pose proof (index_range (n * PAGE_SIZE) 12).
  fold (pdpt_index (n * PAGE_SIZE)) (pd_index (n * PAGE_SIZE)) (pt_index (n * PAGE_SIZE)) in *. lia.
Qed.

Lemma pte_vpn s r va vb : vpn va = vpn vb -> pte s r va = pte s r vb.
Proof. intros [Ep Ei]%vpn_eq. unfold pte. by rewrite Ep, Ei. Qed.

(** The address with given indices. *)
Definition make_va (i j k l : Z) : Z := (((i * 512 + j) * 512 + k) * 512 + l) * PAGE_SIZE.

Lemma make_va_indices i j k l : 0 <= i < 512 -> 0 <= j < 512 -> 0 <= k < 512 -> 0 <= l < 512 ->
  table_path (make_va i j k l) = [i; j; k] /\ pt_index (make_va i j k l) = l.
Proof.
  intros Hi Hj Hk Hl. unfold table_path, pml4_index, pdpt_index, pd_index, pt_index, make_va.
  change 0x1FF with (Z.ones 9). rewrite !Z.land_ones, !Z.shiftr_div_pow2 by lia.
  assert (forall a b, 0 <= b < 2 ^ 12 -> (a * PAGE_SIZE + b) / 2 ^ 12 = a) as E12 by (intros; zlia).
  replace (2 ^ 39) with (2 ^ 12 * 2 ^ 27) by lia. replace (2 ^ 30) with (2 ^ 12 * 2 ^ 18) by lia.
  replace (2 ^ 21) with (2 ^ 12 * 2 ^ 9) by lia. rewrite <- !Z.div_div by lia.
  set (n := ((i * 512 + j) * 512 + k) * 512 + l). specialize (E12 n 0 ltac:(lia)). rewrite Z.add_0_r in E12. rewrite E12.
  subst n. split; [|zlia]. repeat f_equal; zlia.
Qed.

(** ** The forest *)

(** The tree a path belongs to, seen from the space [r]; [K] is the kernel's. *)
Definition home (K r : Z) (p : list Z) : Z := match p with i :: _ => if 256 <=? i then K else r | [] => r end.

Definition kernel_root (s : vm) : Z := u64 (kernel_space s - g_hhdm_offset s) / PAGE_SIZE.

Abbreviation node := (Z * list Z)%type.

(** The contents of a frame. *)
Definition page_ok (pg : list Z) : Prop := length pg = Z.to_nat PAGE_SIZE /\ wf_bytes pg.

Lemma page_ok_zero : page_ok zero_page.
Proof. split; [apply length_replicate|apply wf_bytes_replicate]. Qed.

Lemma page_ok_splice pg off l : page_ok pg -> wf_bytes l -> (off + length l <= Z.to_nat PAGE_SIZE)%nat -> page_ok (splice pg off l).
Proof. intros [Hl Hw] Hb Hoff. split; [|auto with grahaos]. rewrite length_splice; [done|]. by rewrite Hl. Qed.

(** [m] gives the pages in use, [T] the place of every table. *)
Record vm_inv (k : Z) (s : vm) (m : gmap Z Z) (T : gmap Z node) : Prop := {
  vi_pmm : pmm_rep k (phys_pages s) m;
  vi_hhdm : 0 < g_hhdm_offset s <= 2 ^ 64 - 2 ^ 47;
  vi_total : total_pages (phys_pages s) <= 2 ^ 35;
  vi_frame : forall f pg, ram s !! f = Some pg -> 0 <= f < 2 ^ 35 /\ page_ok pg;
  vi_free : forall f, 0 <= f < total_pages (phys_pages s) -> m !! f = None -> is_Some (ram s !! f);
  vi_node : forall f r p, T !! f = Some (r, p) ->
    is_Some (ram s !! f) /\ m !! f = Some 1 /\ f <> 0 /\ (length p <= 3)%nat /\ Forall idx p /\
    home (kernel_root s) r p = r /\ (p = [] -> f = r);
  vi_inj : forall f g n, T !! f = Some n -> T !! g = Some n -> f = g;
  vi_down : forall f r p i, T !! f = Some (r, p) -> (length p < 3)%nat -> 0 <= i < 512 -> present (entry s f i) = true ->
    exists c, entry s f i = c * PAGE_SIZE + 7 /\ T !! c = Some (home (kernel_root s) r (p ++ [i]), p ++ [i]);
  vi_up : forall f r p i, T !! f = Some (r, p ++ [i]) ->
    exists g, T !! g = Some (r, p) /\ entry s g i = f * PAGE_SIZE + 7;
  vi_kernel : T !! kernel_root s = Some (kernel_root s, []) /\ kernel_space s = ptr s (kernel_root s);
  vi_pool : length (address_space_pool s) = 32%nat;
  vi_slot : forall i t, get (address_space_pool s) i = Some t -> t <> 0 ->
    exists r, t = ptr s r /\ T !! r = Some (r, []) /\ r <> kernel_root s;
  vi_slots : forall i j t, get (address_space_pool s) i = Some t -> get (address_space_pool s) j = Some t -> t <> 0 -> i = j;
  vi_next : 0 <= next_address_space_idx s;
  vi_zero : is_Some (m !! 0)
}.

(** [r] is the top-level frame of a space. *)
Abbreviation is_root T r := (T !! r = Some (r, [])).

Lemma home_snoc K r p i : p <> [] -> home K r (p ++ [i]) = home K r p.
Proof. by destruct p. Qed.
Lemma home_home K r p : home K (home K r p) p = home K r p.
Proof. destruct p as [|i p]; [done|]. cbn. by destruct (256 <=? i). Qed.

Section forest.
  Context (k : Z) (s : vm) (m : gmap Z Z) (T : gmap Z node).
  Hypothesis Hinv : vm_inv k s m T.
Let K := kernel_root s.

Lemma node_frame f r p : T !! f = Some (r, p) -> 0 < f < 2 ^ 35.
Proof using Hinv.
  intros Hf. destruct (vi_node _ _ _ _ Hinv _ _ _ Hf) as ([pg Hpg] & _ & H0 & _).
  apply (vi_frame _ _ _ _ Hinv) in Hpg. lia.
Qed.

(** A path that the memory follows from a node ends at the node of that path. *)
Lemma node_at_node q : forall f r p g, T !! f = Some (r, p) -> (length p + length q <= 3)%nat -> Forall idx q ->
  node_at s f q = Some g -> T !! g = Some (home K r (p ++ q), p ++ q).
Proof using Hinv.
  induction q as [|i q IH]; intros f r p g Hf Hl Hq; cbn [node_at].
  { intros [= <-]. rewrite app_nil_r. destruct (vi_node _ _ _ _ Hinv _ _ _ Hf) as (_ & _ & _ & _ & _ & Hh & _).
    subst K. by rewrite Hh. }
  apply Forall_cons in Hq as [Hi Hq]. cbn in Hl. destruct (present _) eqn:Ep; [|done]. intros Hg.
  destruct (vi_down _ _ _ _ Hinv f r p i Hf ltac:(lia) Hi Ep) as (c & Ec & Hc).
  assert (0 < c < 2 ^ 35) as Hcr by by eapply node_frame.
  rewrite Ec, frame_of_link in Hg by lia. apply (IH _ _ _ _ Hc) in Hg; [|rewrite length_app; cbn; lia|done].
  rewrite <- app_assoc in Hg. cbn in Hg. rewrite Hg. do 2 f_equal. subst K. destruct p as [|j p]; cbn.
  - by destruct (256 <=? i).
  - by destruct (256 <=? j).
Qed.

(** A node is found by its path from its root. *)
Lemma node_at_root p : forall f r, T !! f = Some (r, p) -> T !! r = Some (r, []) /\ node_at s r p = Some f.
Proof using Hinv.
  induction p as [|i p IH] using rev_ind; intros f r Hf.
  { destruct (vi_node _ _ _ _ Hinv _ _ _ Hf) as (_ & _ & _ & _ & _ & _ & E). by rewrite <- (E eq_refl) in *. }
  destruct (vi_up _ _ _ _ Hinv _ _ _ _ Hf) as (g & Hg & Eg). apply IH in Hg as [Hr Hg]. split; [done|].
  rewrite node_at_app, Hg. cbn. pose proof (node_frame _ _ _ Hf). by rewrite Eg, link_present, frame_of_link by lia.
Qed.

(** The table of an address: at a path of the space, or of the kernel for its half. *)
Lemma pte_table r va f : is_root T r -> node_at s r (table_path va) = Some f ->
  T !! f = Some (home K r (table_path va), table_path va).
Proof using Hinv. intros Hr Hf. apply (node_at_node (table_path va) r r [] f); auto with grahaos. Qed.
End forest.

(** ** Memory accesses *)
Lemma ptr_eq k s m T f : vm_inv k s m T -> 0 <= f < 2 ^ 35 -> ptr s f = f * PAGE_SIZE + g_hhdm_offset s.
Proof. intros Hinv Hf. pose proof (vi_hhdm _ _ _ _ Hinv). unfold ptr. apply wrap_small. unfold in_u. lia. Qed.

Lemma ptr_nonzero k s m T f : vm_inv k s m T -> 0 <= f < 2 ^ 35 -> ptr s f <> 0.
Proof. intros Hinv Hf. rewrite (ptr_eq k s m T) by done. pose proof (vi_hhdm _ _ _ _ Hinv). lia. Qed.

Lemma phys_elem s f i : 0 <= f < 2 ^ 35 -> 0 <= i < 512 ->
  u64 (elem (ptr s f) i - g_hhdm_offset s) = f * PAGE_SIZE + 8 * i.
Proof.
  intros Hf Hi. unfold elem, ptr. rewrite wrap_add_l by lia.
  replace (u64 (f * PAGE_SIZE + g_hhdm_offset s + 8 * i) - g_hhdm_offset s)
    with (u64 (f * PAGE_SIZE + g_hhdm_offset s + 8 * i) + - g_hhdm_offset s) by lia.
  rewrite wrap_add_l, wrap_small by (unfold in_u; lia). lia.
Qed.

Lemma phys_ptr s f : 0 <= f < 2 ^ 35 -> u64 (ptr s f - g_hhdm_offset s) = f * PAGE_SIZE.
Proof.
  intros Hf. pose proof (phys_elem s f 0 Hf ltac:(lia)) as E. unfold elem in E.
  replace (ptr s f + 8 * 0) with (ptr s f) in E by lia. unfold ptr in E |- *.
  rewrite wrap_wrap in E by lia. rewrite E. lia.
Qed.

Definition set_entry (s : vm) (f i v : Z) : vm :=
  {| s with ram := alter (fun pg => splice pg (Z.to_nat (8 * i)) (le 8 v)) f (ram s) |}.
Definition set_frame (s : vm) (f : Z) (pg : list Z) : vm := {| s with ram := <[f := pg]> (ram s) |}.
Definition set_pmm (s : vm) (p : pmm) : vm := {| s with phys_pages := p |}.

Lemma alter_frame {A} (h : A -> A) (r : gmap Z A) f x : r !! f = Some x -> alter h f r = <[f := h x]> r.
Proof.
  intros E. apply map_eq. intros g. destruct (decide (g = f)) as [->|].
  - by rewrite lookup_alter_eq, lookup_insert_eq, E.
  - by rewrite lookup_alter_ne, lookup_insert_ne.
Qed.

Definition mem_ok (s : vm) : Prop := forall f pg, ram s !! f = Some pg -> 0 <= f < 2 ^ 35 /\ page_ok pg.

Lemma mem_ok_set_frame s f pg : mem_ok s -> 0 <= f < 2 ^ 35 -> page_ok pg -> mem_ok (set_frame s f pg).
Proof.
  intros Hmem Hf Hpg g pg'. cbn. destruct (decide (g = f)) as [->|]; [rewrite lookup_insert_eq|rewrite lookup_insert_ne by done].
  - by intros [= <-].
  - apply Hmem.
Qed.

Section access.
  Context (s : vm).
  Hypothesis Hmem : mem_ok s.

Lemma load_raw f i : is_Some (ram s !! f) -> 0 <= i < 512 -> load (elem (ptr s f) i) s = Some (s, entry s f i).
Proof using Hmem.
  intros [pg Hpg] Hi. destruct (Hmem _ _ Hpg) as (Hf & Hl & _).
  unfold load, entry. rewrite phys_elem by done.
  replace ((f * PAGE_SIZE + 8 * i) / PAGE_SIZE) with f by zlia.
  replace ((f * PAGE_SIZE + 8 * i) mod PAGE_SIZE) with (8 * i) by zlia. rewrite Hpg. cbn [mbind option_bind].
  destruct (Z.leb_spec (8 * i) (PAGE_SIZE - 8)); [done|lia].
Qed.

Lemma store_raw f i v : is_Some (ram s !! f) -> 0 <= i < 512 -> store (elem (ptr s f) i) v s = Some (set_entry s f i v, tt).
Proof using Hmem.
  intros [pg Hpg] Hi. destruct (Hmem _ _ Hpg) as (Hf & Hl & _).
  unfold store, store_bytes, set_entry. rewrite phys_elem, length_le by done.
  replace ((f * PAGE_SIZE + 8 * i) / PAGE_SIZE) with f by zlia.
  replace ((f * PAGE_SIZE + 8 * i) mod PAGE_SIZE) with (8 * i) by zlia. rewrite Hpg. cbn [mbind option_bind].
  destruct (Z.leb_spec (8 * i + Z.of_nat 8) PAGE_SIZE); [|lia]. by rewrite (alter_frame _ _ _ pg).
Qed.

(** A store inside a frame. *)
Lemma store_bytes_raw f pg off l : ram s !! f = Some pg -> 0 <= off -> off + Z.of_nat (length l) <= PAGE_SIZE -> off < PAGE_SIZE ->
  store_bytes (u64 (ptr s f + off)) l s = Some (set_frame s f (splice pg (Z.to_nat off) l), tt).
Proof using Hmem.
  intros Hpg Ho Hl Hlt. destruct (Hmem _ _ Hpg) as (Hf & _). unfold store_bytes, set_frame, ptr.
  rewrite wrap_add_l by lia.
  replace (u64 (u64 (f * PAGE_SIZE + g_hhdm_offset s + off) - g_hhdm_offset s)) with (f * PAGE_SIZE + off); last first.
  { replace (u64 (f * PAGE_SIZE + g_hhdm_offset s + off) - g_hhdm_offset s)
      with (u64 (f * PAGE_SIZE + g_hhdm_offset s + off) + - g_hhdm_offset s) by lia.
    rewrite wrap_add_l, wrap_small by (unfold in_u; lia). lia. }
  replace ((f * PAGE_SIZE + off) / PAGE_SIZE) with f by zlia.
  replace ((f * PAGE_SIZE + off) mod PAGE_SIZE) with off by zlia. rewrite Hpg. cbn [mbind option_bind].
  destruct (Z.leb_spec (off + Z.of_nat (length l)) PAGE_SIZE); [done|lia].
Qed.

Lemma clear_raw f : is_Some (ram s !! f) ->
  vmm_memset (ptr s f) 0 (Z.to_nat PAGE_SIZE) s = Some (set_frame s f zero_page, tt).
Proof using Hmem.
  intros [pg Hpg]. destruct (Hmem _ _ Hpg) as (Hf & Hl & _). unfold vmm_memset.
  replace (ptr s f) with (u64 (ptr s f + 0)) by (unfold ptr; by rewrite Z.add_0_r, wrap_wrap).
  rewrite (store_bytes_raw f pg) by (rewrite ?length_replicate; done || lia). do 2 f_equal.
  unfold splice, zero_page. rewrite length_replicate, <- Hl. cbn [Z.to_nat take].
  rewrite Nat.add_0_l, drop_all, app_nil_r, Hl. done.
Qed.
End access.

Lemma vi_mem k s m T : vm_inv k s m T -> mem_ok s.
Proof. intros Hinv. exact (vi_frame _ _ _ _ Hinv). Qed.

Lemma load_entry k s m T f i : vm_inv k s m T -> is_Some (ram s !! f) -> 0 <= i < 512 -> load (elem (ptr s f) i) s = Some (s, entry s f i).
Proof. intros Hinv. apply load_raw. by eapply vi_mem. Qed.

Lemma store_entry k s m T f i v : vm_inv k s m T -> is_Some (ram s !! f) -> 0 <= i < 512 ->
  store (elem (ptr s f) i) v s = Some (set_entry s f i v, tt).
Proof. intros Hinv. apply store_raw. by eapply vi_mem. Qed.

Lemma clear_frame k s m T f : vm_inv k s m T -> is_Some (ram s !! f) ->
  vmm_memset (ptr s f) 0 (Z.to_nat PAGE_SIZE) s = Some (set_frame s f zero_page, tt).
Proof. intros Hinv. apply clear_raw. by eapply vi_mem. Qed.

Lemma entry_set_entry s f i v g j : (exists pg, ram s !! f = Some pg /\ page_ok pg) ->
  0 <= i < 512 -> 0 <= j < 512 -> in_u 64 v ->
  entry (set_entry s f i v) g j = if bool_decide (g = f /\ j = i) then v else entry s g j.
Proof.
  intros (pg & Hpg & Hl & _) Hi Hj Hv. unfold entry, set_entry; cbn [ram]. destruct (decide (g = f)) as [->|Hne].
  - rewrite lookup_alter_eq, Hpg. cbn [fmap option_fmap option_map]. case_bool_decide as E.
    + destruct E as [_ ->]. rewrite field_splice_eq; [done|done|lia].
    + apply field_splice_ne; rewrite length_le; lia.
  - rewrite lookup_alter_ne by done. rewrite bool_decide_eq_false_2 by naive_solver. done.
Qed.

Lemma field_zero_page n : (n <= 4088)%nat -> field zero_page n 8 = 0.
Proof.
  intros Hn. unfold field, zero_page. rewrite drop_replicate, take_replicate.
  replace (8 `min` (4096 - n))%nat with 8%nat by lia. done.
Qed.

Lemma of_le_range l : wf_bytes l -> 0 <= of_le l < 2 ^ (8 * Z.of_nat (length l)).
Proof.
  induction 1 as [|b l Hb _ IH]; [done|]. cbn [of_le length].
  replace (2 ^ (8 * Z.of_nat (S (length l)))) with (256 * 2 ^ (8 * Z.of_nat (length l)))
    by (rewrite <- (Z.pow_add_r 2 8) by lia; f_equal; lia).
  unfold in_u in Hb. lia.
Qed.

Lemma entry_u64_raw s f i : mem_ok s -> in_u 64 (entry s f i).
Proof.
  intros Hmem. unfold entry. destruct (ram s !! f) as [pg|] eqn:E; [|done]. apply Hmem in E as (_ & _ & Hw).
  unfold field. set (l := take 8 (drop _ pg)). assert (length l <= 8)%nat by (unfold l; rewrite length_take; lia).
  assert (wf_bytes l) as Hl by by apply Forall_take, Forall_drop. apply of_le_range in Hl. unfold in_u.
  assert (2 ^ (8 * Z.of_nat (length l)) <= 2 ^ 64) by (apply Z.pow_le_mono_r; lia). lia.
Qed.

Lemma entry_u64 k s m T f i : vm_inv k s m T -> in_u 64 (entry s f i).
Proof. intros Hinv. apply entry_u64_raw. by eapply vi_mem. Qed.

(** ** Memories that agree on the links of the forest *)
Section agree.
  Context (k : Z) (s : vm) (m : gmap Z Z) (T : gmap Z node) (s1 : vm).
  Hypothesis Hinv : vm_inv k s m T.
  Hypothesis Hagree : forall g r q j, T !! g = Some (r, q) -> (length q < 3)%nat -> 0 <= j < 512 -> entry s1 g j = entry s g j.

Lemma node_at_agree q : forall g r' q', T !! g = Some (r', q') -> (length q' + length q <= 3)%nat -> Forall idx q ->
  node_at s1 g q = node_at s g q.
Proof using Hinv Hagree.
  induction q as [|j q IH]; intros g r' q' Hg Hl Hq; [done|]. apply Forall_cons in Hq as [Hj Hq]. cbn [node_at].
  cbn in Hl. rewrite (Hagree g r' q') by (done || lia). destruct (present (entry s g j)) eqn:E; [|done].
  destruct (vi_down _ _ _ _ Hinv g r' q' j Hg ltac:(lia) Hj E) as (d & Ed & Hd).
  pose proof (node_frame _ _ _ _ Hinv _ _ _ Hd). rewrite Ed, frame_of_link by lia.
  apply (IH _ _ _ Hd); [rewrite length_app; cbn; lia|done].
Qed.

Lemma inv_agree : s1 = {| s with ram := ram s1 |} ->
  (forall g pg, ram s1 !! g = Some pg -> page_ok pg) ->
  (forall g, is_Some (ram s1 !! g) <-> is_Some (ram s !! g)) -> vm_inv k s1 m T.
Proof using Hinv Hagree.
  intros E Hlen Hdom. set (R := ram s1) in *. clearbody R. subst s1. destruct Hinv. split; try done.
  - intros g pg Hg. split; [|by eapply Hlen]. destruct (proj1 (Hdom g) ltac:(eauto)) as [pg' Hg']. by eapply vi_frame0.
  - intros g Hg Hn. cbn. apply Hdom. eauto.
  - intros g r q Hg. cbn. rewrite Hdom. by apply vi_node0.
  - intros g r q j Hg Hq Hj. rewrite (Hagree g r q) by done. by apply vi_down0.
  - intros g r q j Hg. destruct (vi_up0 _ _ _ _ Hg) as (g' & Hg' & E'). exists g'. split; [done|].
    destruct (vi_node0 _ _ _ Hg) as (_ & _ & _ & Hl & Hidx & _). rewrite length_app in Hl. cbn in Hl.
    apply Forall_app in Hidx as [_ [? _]%Forall_cons]. by rewrite (Hagree g' r q) by (done || lia).
Qed.
End agree.
