(* ===== verification/VmmMap.v ===== *)
(** * Mapping, unmapping and protection of pages

    How each change of the memory acts on the forest of [VmmInv]: a fresh table linked into
    an empty entry leaves all translations as they are, a store into a page table changes
    one translation, and a store outside the tables none.  From these, the specifications
    of the operations on one address space. *)
From S2P Require Import Prelude Bytes Pmm StateM Vmm VmmInv.
Local Open Scope Z_scope.
Local Open Scope c_scope.

(** ** Frames from the physical memory manager *)
Lemma alloc_frame_raw k s m : pmm_rep k (phys_pages s) m -> is_Some (m !! 0) ->
  exists p r, alloc_frame s = Some (set_pmm s p, r) /\ total_pages p = total_pages (phys_pages s) /\
    ((r = 0 /\ pmm_rep k p m /\ forall i, 0 <= i < total_pages p -> is_Some (m !! i)) \/
     (exists c, r = c * PAGE_SIZE /\ 0 < c < total_pages p /\ m !! c = None /\ pmm_rep k p (<[c := 1]> m))).
Proof.
  intros Hp H0. unfold alloc_frame. pose proof (pmm_exec_keeps (phys_pages s) Alloc_page) as [Ht _]. cbn [pmm_exec] in Ht.
  destruct (alloc_page_step 0 k _ m Hp) as (m' & Hs & Hr).
  destruct (pmm_alloc_page (phys_pages s)) as [p r] eqn:E. cbn [fst snd] in *. exists p, r. split; [done|]. split; [done|].
  inversion Hs; subst.
  - right. rename select (m !! i = None) into Hn. exists i. rewrite Ht. split; [done|]. split; [|done]. destruct (decide (i = 0)) as [->|]; [|lia].
    destruct H0 as [? E0]. by rewrite Hn in E0.
  - left. rewrite Ht. done.
Qed.

Lemma alloc_known k s m c : pmm_rep k (phys_pages s) m -> is_Some (m !! 0) -> snd (pmm_alloc_page (phys_pages s)) = c * PAGE_SIZE -> 0 < c ->
  let pm := fst (pmm_alloc_page (phys_pages s)) in
  m !! c = None /\ 0 < c < total_pages (phys_pages s) /\ pmm_rep k pm (<[c := 1]> m) /\ total_pages pm = total_pages (phys_pages s).
Proof.
  intros Hp H0 Ea Hc. destruct (alloc_frame_raw k s m Hp H0) as (pm & a & E & Ht & Hcase). unfold alloc_frame in E.
  destruct (pmm_alloc_page (phys_pages s)) as [pm' a']. cbn [fst snd] in *.
  assert (pm' = pm) as -> by exact (f_equal (fun o => default pm (option_map (fun x => phys_pages (fst x)) o)) E).
  assert (a' = a) as -> by exact (f_equal (fun o => default 0 (option_map snd o)) E).
  destruct Hcase as [(-> & _)|(d & -> & Hd & Hn & Hpm)]; [lia|]. assert (d = c) as -> by lia. by rewrite <- Ht.
Qed.

Lemma alloc_frame_spec k s m T : vm_inv k s m T ->
  exists p r, alloc_frame s = Some (set_pmm s p, r) /\ total_pages p = total_pages (phys_pages s) /\
    ((r = 0 /\ pmm_rep k p m /\ forall i, 0 <= i < total_pages p -> is_Some (m !! i)) \/
     (exists c, r = c * PAGE_SIZE /\ 0 < c < total_pages p /\ m !! c = None /\ pmm_rep k p (<[c := 1]> m))).
Proof. intros Hinv. apply alloc_frame_raw; [apply (vi_pmm _ _ _ _ Hinv)|apply (vi_zero _ _ _ _ Hinv)]. Qed.

(** The manager changes while the tables stay in use. *)
Lemma inv_set_pmm k s m T p m' : vm_inv k s m T -> pmm_rep k p m' -> total_pages p = total_pages (phys_pages s) ->
  (forall f r q, T !! f = Some (r, q) -> m' !! f = Some 1) ->
  (forall f, 0 <= f < total_pages p -> m' !! f = None -> is_Some (ram s !! f)) -> is_Some (m' !! 0) ->
  vm_inv k (set_pmm s p) m' T.
Proof.
  intros Hinv Hp Ht Hn Hf H0. pose proof (vi_node _ _ _ _ Hinv) as Hnode. destruct Hinv. split; try done; cbn; [by rewrite Ht|].
  intros f r q Hq. destruct (Hnode _ _ _ Hq) as (? & ? & ? & ? & ? & ? & ?). split_and!; eauto.
Qed.

Lemma inv_same_pmm k s m T p : vm_inv k s m T -> pmm_rep k p m -> total_pages p = total_pages (phys_pages s) -> vm_inv k (set_pmm s p) m T.
Proof.
  intros Hinv Hp Ht. apply (inv_set_pmm k s m T p m); try done; [| |apply (vi_zero _ _ _ _ Hinv)].
  - intros f r q Hq. by apply (vi_node _ _ _ _ Hinv) in Hq as (_ & ? & _).
  - rewrite Ht. apply (vi_free _ _ _ _ Hinv).
Qed.

(** ** A new table in an empty entry *)
Section link.
  Context (k : Z) (s : vm) (m : gmap Z Z) (T : gmap Z node) (f r : Z) (p : list Z) (i c : Z) (pm : pmm).
  Hypothesis Hinv : vm_inv k s m T.
  Hypothesis Hf : T !! f = Some (r, p).
  Hypothesis Hp : (length p < 3)%nat.
  Hypothesis Hi : 0 <= i < 512.
  Hypothesis Habs : present (entry s f i) = false.
  Hypothesis Hhome : home (kernel_root s) r (p ++ [i]) = r.
  Hypothesis Hc : m !! c = None.
  Hypothesis Hcr : 0 < c < total_pages (phys_pages s).
  Hypothesis Hpm : pmm_rep k pm (<[c := 1]> m).
  Hypothesis Htot : total_pages pm = total_pages (phys_pages s).
Let s1 := set_entry (set_frame (set_pmm s pm) c zero_page) f i (c * PAGE_SIZE + 7).

Lemma table_fresh : T !! c = None.
Proof using Hinv Hc.
  destruct (T !! c) as [[r' q]|] eqn:E; [|done].
  destruct (vi_node _ _ _ _ Hinv _ _ _ E) as (_ & Em & _). by rewrite Hc in Em.
Qed.

Lemma link_ne : f <> c.
Proof using All. intros E. pose proof Hf as Hf'. by rewrite E, table_fresh in Hf'. Qed.

Lemma link_c_range : 0 < c < 2 ^ 35.
Proof using All. pose proof (vi_total _ _ _ _ Hinv). lia. Qed.

Lemma link_entry g j : 0 <= j < 512 ->
  entry s1 g j = if bool_decide (g = f /\ j = i) then c * PAGE_SIZE + 7 else if bool_decide (g = c) then 0 else entry s g j.
Proof using All.
  intros Hj. unfold s1. destruct (vi_node _ _ _ _ Hinv _ _ _ Hf) as ([pg Hpg] & _).
  pose proof link_ne as Hne. pose proof link_c_range. rewrite entry_set_entry; [|eexists; split|done..|unfold in_u; lia].
  - case_bool_decide; [done|]. unfold entry at 1. cbn [ram set_frame set_pmm]. case_bool_decide as E.
    + subst g. rewrite lookup_insert_eq. apply field_zero_page. lia.
    + by rewrite lookup_insert_ne.
  - cbn. by rewrite lookup_insert_ne.
  - by apply (vi_frame _ _ _ _ Hinv) in Hpg as [_ ?].
Qed.

Lemma link_old g j r' q : T !! g = Some (r', q) -> 0 <= j < 512 -> present (entry s g j) = true -> entry s1 g j = entry s g j.
Proof using All.
  intros Hg Hj E. rewrite link_entry by done. rewrite bool_decide_eq_false_2.
  - rewrite bool_decide_eq_false_2; [done|]. intros ->. by rewrite table_fresh in Hg.
  - intros [E1 E2]. rewrite E1, E2 in E. by rewrite Habs in E.
Qed.

(** Walks of the old memory are unchanged; new ones end at the new table. *)
Lemma link_walk q : forall g r' q', T !! g = Some (r', q') -> (length q' + length q <= 3)%nat -> Forall idx q ->
  match node_at s g q with Some h => node_at s1 g q = Some h | None => node_at s1 g q = None \/ node_at s1 g q = Some c end.
Proof using All.
  induction q as [|j q IH]; intros g r' q' Hg Hl Hq; [done|]. apply Forall_cons in Hq as [Hj Hq]. cbn [node_at].
  cbn in Hl. destruct (present (entry s g j)) eqn:E.
  - rewrite (link_old g j r' q') by done. rewrite E.
    destruct (vi_down _ _ _ _ Hinv g r' q' j Hg ltac:(lia) Hj E) as (d & Ed & Hd).
    pose proof (node_frame _ _ _ _ Hinv _ _ _ Hd). rewrite Ed, frame_of_link by lia.
    apply (IH _ _ _ Hd); [rewrite length_app; cbn; lia|done].
  - pose proof link_c_range. rewrite link_entry by done. case_bool_decide as E1.
    + rewrite link_present, frame_of_link by lia. destruct q as [|j' q]; [by right|]. left. cbn [node_at].
      apply Forall_cons in Hq as [Hj' _]. pose proof link_ne.
      by rewrite link_entry, bool_decide_eq_false_2, bool_decide_eq_true_2 by naive_solver.
    + left. by case_bool_decide; [|rewrite E].
Qed.

Lemma link_pte r' va : is_root T r' -> pte s1 r' va = pte s r' va.
Proof using All.
  intros Hr. pose proof (link_walk (table_path va) r' r' [] Hr ltac:(cbn; lia) (table_path_idx va)) as Hw. unfold pte.
  assert (forall j, 0 <= j < 512 -> entry s1 c j = 0) as Hz.
  { intros j Hj. rewrite link_entry by done. rewrite bool_decide_eq_false_2; [by rewrite bool_decide_eq_true_2|].
    intros [E _]. by apply link_ne. }
  destruct (node_at s r' (table_path va)) as [h|] eqn:Eh.
  - rewrite Hw. pose proof (pte_table _ _ _ _ Hinv _ _ _ Hr Eh) as Hh. rewrite link_entry by auto with grahaos.
    rewrite !bool_decide_eq_false_2; [done|intros ->; by rewrite table_fresh in Hh|].
    intros [-> _]. rewrite Hf in Hh. apply (f_equal (fun o : option node => match o with Some n => length n.2 | None => 0%nat end)) in Hh.
    cbn [snd length table_path] in Hh. lia.
  - destruct Hw as [->| ->]; [done|]. by rewrite Hz by auto with grahaos.
Qed.

Let T1 := <[c := (r, p ++ [i])]> T.

Lemma link_dom g : is_Some (ram s1 !! g) <-> is_Some (ram s !! g).
Proof using All.
  destruct (vi_free _ _ _ _ Hinv c ltac:(lia) Hc) as [pgc Hpgc].
  unfold s1, set_entry, set_frame, set_pmm; cbn. rewrite lookup_alter_is_Some.
  destruct (decide (g = c)) as [->|]; [rewrite lookup_insert_eq, Hpgc|rewrite lookup_insert_ne]; done.
Qed.

Lemma link_frame g pg : ram s1 !! g = Some pg -> 0 <= g < 2 ^ 35 /\ page_ok pg.
Proof using All.
  pose proof link_c_range. unfold s1, set_entry, set_frame, set_pmm; cbn [ram].
  assert (forall pg', <[c := zero_page]> (ram s) !! g = Some pg' -> 0 <= g < 2 ^ 35 /\ page_ok pg') as Hg.
  { intros pg'. destruct (decide (g = c)) as [->|].
    - rewrite lookup_insert_eq. intros [= <-]. split; [lia|]. apply page_ok_zero.
    - rewrite lookup_insert_ne by done. apply (vi_frame _ _ _ _ Hinv). }
  destruct (decide (g = f)) as [->|]; [|rewrite lookup_alter_ne by done; apply Hg]. rewrite lookup_alter_eq.
  destruct (<[c := zero_page]> (ram s) !! f) as [pg'|]; [|done]. intros [= <-]. destruct (Hg pg' eq_refl) as [? E].
  split; [done|]. apply page_ok_splice; [done|auto with grahaos|]. rewrite length_le. lia.
Qed.

Lemma link_none g : T !! g = Some (r, p ++ [i]) -> False.
Proof using All.
  intros Hg. destruct (vi_up _ _ _ _ Hinv _ _ _ _ Hg) as (g' & Hg' & E). pose proof Habs as Ha.
  rewrite (vi_inj _ _ _ _ Hinv g' f _ Hg' Hf) in E. by rewrite E, link_present in Ha.
Qed.

Lemma link_down g r' q j : T1 !! g = Some (r', q) -> (length q < 3)%nat -> 0 <= j < 512 -> present (entry s1 g j) = true ->
  exists d, entry s1 g j = d * PAGE_SIZE + 7 /\ T1 !! d = Some (home (kernel_root s) r' (q ++ [j]), q ++ [j]).
Proof using All.
  intros Hg Hq Hj. rewrite link_entry by done. case_bool_decide as E1.
  - destruct E1 as [-> ->]. intros _. exists c. split; [done|]. unfold T1 in *.
    rewrite lookup_insert_ne in Hg by (intros E; by apply link_ne). rewrite Hf in Hg. injection Hg as <- <-.
    by rewrite lookup_insert_eq, Hhome.
  - case_bool_decide as E2; [by rewrite present_0|]. unfold T1 in *. rewrite lookup_insert_ne in Hg by done. intros E.
    destruct (vi_down _ _ _ _ Hinv g r' q j Hg Hq Hj E) as (d & Ed & Hd). exists d. split; [done|].
    rewrite lookup_insert_ne; [done|]. intros <-. by rewrite table_fresh in Hd.
Qed.

Lemma link_up g r' q j : T1 !! g = Some (r', q ++ [j]) -> exists g', T1 !! g' = Some (r', q) /\ entry s1 g' j = g * PAGE_SIZE + 7.
Proof using All.
  unfold T1. destruct (decide (g = c)) as [->|Hne].
  - rewrite lookup_insert_eq. intros [= <- [<- <-]%app_inj_tail]. exists f. pose proof link_ne.
    rewrite lookup_insert_ne by done. split; [done|]. by rewrite link_entry, bool_decide_eq_true_2 by done.
  - rewrite lookup_insert_ne by done. intros Hg. destruct (vi_up _ _ _ _ Hinv _ _ _ _ Hg) as (g' & Hg' & E).
    exists g'. assert (g' <> c) by (intros ->; by rewrite table_fresh in Hg'). rewrite lookup_insert_ne by done. split; [done|].
    rewrite (link_old g' j r' q); [done|done| |by rewrite E, link_present].
    destruct (vi_node _ _ _ _ Hinv _ _ _ Hg) as (_ & _ & _ & _ & Hidx & _). by apply Forall_app in Hidx as [_ [? _]%Forall_cons].
Qed.

Lemma linked_inv : vm_inv k s1 (<[c := 1]> m) T1.
Proof using All.
  pose proof table_fresh as Hfresh. pose proof link_c_range as Hcr'.
  assert (forall g n, T !! g = Some n -> T1 !! g = Some n) as Hold.
  { intros g n Hg. unfold T1. rewrite lookup_insert_ne; [done|]. intros <-. congruence. }
  split; [exact Hpm|apply (vi_hhdm _ _ _ _ Hinv)| |exact link_frame| | | |exact link_down|exact link_up| |
    apply (vi_pool _ _ _ _ Hinv)| |apply (vi_slots _ _ _ _ Hinv)|apply (vi_next _ _ _ _ Hinv)|].
  - cbn. rewrite Htot. apply (vi_total _ _ _ _ Hinv).
  - intros g Hg Hn. apply link_dom, (vi_free _ _ _ _ Hinv g); [cbn in Hg; by rewrite <- Htot|].
    rewrite lookup_insert_None in Hn. apply Hn.
  - intros g r' q Hg. rewrite link_dom. unfold T1 in Hg. destruct (decide (g = c)) as [->|Hne].
    + rewrite lookup_insert_eq in Hg. rewrite lookup_insert_eq. injection Hg as <- <-.
      destruct (vi_node _ _ _ _ Hinv _ _ _ Hf) as (_ & _ & _ & _ & Hpi & _).
      split_and!; [apply (vi_free _ _ _ _ Hinv c); [lia|done]|done|lia|rewrite length_app; cbn; lia| |done|by destruct p].
      apply Forall_app. split; [done|]. by constructor.
    + rewrite lookup_insert_ne in Hg by done. rewrite lookup_insert_ne by done. apply (vi_node _ _ _ _ Hinv _ _ _ Hg).
  - intros g h n. unfold T1. destruct (decide (g = c)) as [->|], (decide (h = c)) as [->|];
      rewrite ?lookup_insert_eq, ?lookup_insert_ne by done; [done| | |apply (vi_inj _ _ _ _ Hinv)].
    + intros [= <-] Hh. by apply link_none in Hh.
    + intros Hg [= <-]. by apply link_none in Hg.
  - destruct (vi_kernel _ _ _ _ Hinv). split; [by apply Hold|done].
  - intros j t Ht H0. destruct (vi_slot _ _ _ _ Hinv j t Ht H0) as (r' & ? & ? & ?). exists r'. auto.
  - destruct (vi_zero _ _ _ _ Hinv). rewrite lookup_insert_ne by lia. eauto.
Qed.
End link.

(** ** A store into a page table *)
Section leaf.
  Context (k : Z) (s : vm) (m : gmap Z Z) (T : gmap Z node) (f r : Z) (p : list Z) (i v : Z).
  Hypothesis Hinv : vm_inv k s m T.
  Hypothesis Hf : T !! f = Some (r, p).
  Hypothesis Hp : length p = 3%nat.
  Hypothesis Hi : 0 <= i < 512.
  Hypothesis Hv : in_u 64 v.
Let s1 := set_entry s f i v.

Lemma leaf_entry g j : 0 <= j < 512 -> entry s1 g j = if bool_decide (g = f /\ j = i) then v else entry s g j.
Proof using All.
  intros Hj. destruct (vi_node _ _ _ _ Hinv _ _ _ Hf) as ([pg Hpg] & _). apply entry_set_entry; [|done..].
  exists pg. split; [done|]. by apply (vi_frame _ _ _ _ Hinv) in Hpg as [_ ?].
Qed.

Lemma leaf_inner g r' q j : T !! g = Some (r', q) -> (length q < 3)%nat -> 0 <= j < 512 -> entry s1 g j = entry s g j.
Proof using All.
  intros Hg Hq Hj. rewrite leaf_entry by done. rewrite bool_decide_eq_false_2; [done|]. intros [-> _].
  rewrite Hf in Hg. injection Hg as _ <-. lia.
Qed.

Lemma leaf_inv : vm_inv k s1 m T.
Proof using All.
  apply (inv_agree k s m T s1 Hinv leaf_inner); [done| |intros g; apply lookup_alter_is_Some].
  intros g pg. unfold s1, set_entry; cbn [ram]. destruct (decide (g = f)) as [->|].
  - rewrite lookup_alter_eq. destruct (ram s !! f) as [pg'|] eqn:E; [|done]. intros [= <-].
    apply (vi_frame _ _ _ _ Hinv) in E as [_ E]. apply page_ok_splice; [done|auto with grahaos|]. rewrite length_le. lia.
  - rewrite lookup_alter_ne by done. intros E. by apply (vi_frame _ _ _ _ Hinv) in E as [_ E].
Qed.

Lemma leaf_pte r' va : is_root T r' ->
  pte s1 r' va = if bool_decide (node_at s r' (table_path va) = Some f /\ pt_index va = i)
    then (if present v then Some v else None) else pte s r' va.
Proof using All.
  intros Hr. unfold pte. rewrite (node_at_agree k s m T s1 Hinv leaf_inner (table_path va) r' r' []) by auto with grahaos.
  destruct (node_at s r' (table_path va)) as [g|] eqn:Eg; [|by rewrite bool_decide_eq_false_2 by naive_solver].
  rewrite leaf_entry by auto with grahaos. case_bool_decide as E1.
  - destruct E1 as [-> E1]. by rewrite bool_decide_eq_true_2.
  - by rewrite bool_decide_eq_false_2 by naive_solver.
Qed.
End leaf.

(** ** A store outside the tables *)
Section data.
  Context (k : Z) (s : vm) (m : gmap Z Z) (T : gmap Z node) (f : Z) (pg : list Z).
  Hypothesis Hinv : vm_inv k s m T.
  Hypothesis Hf : T !! f = None.
  Hypothesis Hram : is_Some (ram s !! f).
  Hypothesis Hl : page_ok pg.
Let s1 := set_frame s f pg.

Lemma data_entry g n j : T !! g = Some n -> entry s1 g j = entry s g j.
Proof using Hf. intros Hg. unfold entry, s1, set_frame; cbn [ram]. rewrite lookup_insert_ne; [done|]. intros <-. congruence. Qed.

Lemma data_dom g : is_Some (ram s1 !! g) <-> is_Some (ram s !! g).
Proof using Hram.
  unfold s1, set_frame; cbn [ram]. destruct (decide (g = f)) as [->|]; [by rewrite lookup_insert_eq|by rewrite lookup_insert_ne].
Qed.

Lemma data_inv : vm_inv k s1 m T.
Proof using Hinv Hf Hram Hl.
  apply (inv_agree k s m T s1 Hinv); [|done| |exact data_dom].
  - intros g r q j Hg _ _. by apply (data_entry g (r, q)).
  - intros g pg'. unfold s1, set_frame; cbn [ram]. destruct (decide (g = f)) as [->|].
    + rewrite lookup_insert_eq. by intros [= <-].
    + rewrite lookup_insert_ne by done. intros E. by apply (vi_frame _ _ _ _ Hinv) in E as [_ E].
Qed.

Lemma data_pte r' va : is_root T r' -> pte s1 r' va = pte s r' va.
Proof using Hinv Hf.
  intros Hr. unfold pte. rewrite (node_at_agree k s m T s1 Hinv) with (r' := r') (q' := []); [|intros; by eapply data_entry|auto with grahaos..].
  destruct (node_at s r' (table_path va)) as [g|] eqn:Eg; [|done].
  pose proof (pte_table _ _ _ _ Hinv _ _ _ Hr Eg) as Hg. by rewrite (data_entry g _ _ Hg).
Qed.
End data.

(** ** What an operation on the tables may change *)
Record vm_ext (s s' : vm) (m m' : gmap Z Z) (T T' : gmap Z node) : Prop := {
  ve_hhdm : g_hhdm_offset s' = g_hhdm_offset s;
  ve_kernel : kernel_space s' = kernel_space s;
  ve_pool : address_space_pool s' = address_space_pool s;
  ve_total : total_pages (phys_pages s') = total_pages (phys_pages s);
  ve_used : m ⊆ m';
  ve_tables : T ⊆ T';
  ve_roots : forall r, is_root T' r -> is_root T r;
  ve_data : forall f, is_Some (m !! f) -> T !! f = None -> T' !! f = None /\ ram s' !! f = ram s !! f;
  ve_dom : forall f, is_Some (ram s' !! f) <-> is_Some (ram s !! f)
}.

Lemma vm_ext_refl s m T : vm_ext s s m m T T.
Proof. by split. Qed.

Lemma vm_ext_trans s1 s2 s3 m1 m2 m3 T1 T2 T3 :
  vm_ext s1 s2 m1 m2 T1 T2 -> vm_ext s2 s3 m2 m3 T2 T3 -> vm_ext s1 s3 m1 m3 T1 T3.
Proof.
  intros [] []. split; try congruence; try (by etrans); eauto.
  - intros f Hf HT. destruct (ve_data0 f Hf HT) as [E1 E2]. destruct (ve_data1 f) as [E3 E4]; [by eapply lookup_weaken_is_Some|done|].
    split; congruence.
  - intros f. by rewrite ve_dom1.
Qed.

Lemma vm_ext_root s s' m m' T T' : vm_ext s s' m m' T T' -> kernel_root s' = kernel_root s.
Proof. intros []. unfold kernel_root. congruence. Qed.

Lemma vm_ext_ptr s s' m m' T T' f : vm_ext s s' m m' T T' -> ptr s' f = ptr s f.
Proof. intros []. unfold ptr. congruence. Qed.

(** Only tables are taken from the allocator. *)
Definition counts_kept (m m' : gmap Z Z) (T' : gmap Z node) : Prop := forall f, T' !! f = None -> m' !! f = m !! f.

Lemma counts_kept_trans m1 m2 m3 T2 T3 : counts_kept m1 m2 T2 -> counts_kept m2 m3 T3 -> T2 ⊆ T3 -> counts_kept m1 m3 T3.
Proof. intros H1 H2 Hsub f Hf. rewrite H2 by done. apply H1. by eapply lookup_weaken_None. Qed.

(** Every frame is in use. *)
Definition exhausted (s : vm) (m : gmap Z Z) : Prop := forall i, 0 <= i < total_pages (phys_pages s) -> is_Some (m !! i).

Lemma link_word c : 0 <= c -> c * PAGE_SIZE |. PTE_PRESENT |. PTE_WRITABLE |. PTE_USER = c * PAGE_SIZE + 7.
Proof. intros. rewrite <- !Z.lor_assoc. change (PTE_PRESENT |. (PTE_WRITABLE |. PTE_USER)) with 7. apply lor_low. lia. Qed.

(** The tables of all spaces translate as before. *)
Definition same_ptes (s s' : vm) (T : gmap Z node) : Prop := forall r va, is_root T r -> pte s' r va = pte s r va.

Lemma same_ptes_trans s1 s2 s3 T1 T2 : same_ptes s1 s2 T1 -> same_ptes s2 s3 T2 -> T1 ⊆ T2 -> same_ptes s1 s3 T1.
Proof. intros H1 H2 Hsub r va Hr. rewrite H2, H1; [done|done|]. by eapply lookup_weaken. Qed.

Lemma link_ext k s m T f r p i c pm : vm_inv k s m T -> T !! f = Some (r, p) -> 0 <= i < 512 ->
  m !! c = None -> 0 < c < total_pages (phys_pages s) -> total_pages pm = total_pages (phys_pages s) ->
  vm_ext s (set_entry (set_frame (set_pmm s pm) c zero_page) f i (c * PAGE_SIZE + 7)) m (<[c := 1]> m) T (<[c := (r, p ++ [i])]> T).
Proof.
  intros Hinv Hf Hi Hc Hcr Ht. pose proof (table_fresh k s m T c Hinv Hc) as Hfresh. split; try done.
  - by apply insert_subseteq.
  - by apply insert_subseteq.
  - intros g Hg. destruct (decide (g = c)) as [->|]; [|by rewrite lookup_insert_ne in Hg].
    rewrite lookup_insert_eq in Hg. injection Hg as _ E. by destruct p.
  - intros g [x Hg] HT. assert (g <> c) by (intros ->; congruence). assert (g <> f) by (intros ->; congruence).
    rewrite lookup_insert_ne by done. split; [done|]. cbn. by rewrite lookup_alter_ne, lookup_insert_ne.
  - intros g. cbn. rewrite lookup_alter_is_Some. destruct (decide (g = c)) as [->|]; [|by rewrite lookup_insert_ne].
    rewrite lookup_insert_eq. split; [|done]. intros _. by apply (vi_free _ _ _ _ Hinv); [lia|].
Qed.

Lemma next_table_spec k s m T f r p i : vm_inv k s m T -> T !! f = Some (r, p) -> (length p < 3)%nat -> 0 <= i < 512 ->
  home (kernel_root s) r (p ++ [i]) = r ->
  wp (next_table (ptr s f) i) (fun o s' => exists m' T', vm_inv k s' m' T' /\ vm_ext s s' m m' T T' /\ counts_kept m m' T' /\ same_ptes s s' T /\
    match o with Some a => exists c, a = ptr s c /\ T' !! c = Some (r, p ++ [i]) | None => exhausted s m' end) s.
Proof.
  intros Hinv Hf Hp Hi Hh. destruct (vi_node _ _ _ _ Hinv _ _ _ Hf) as (Hram & _).
  unfold next_table. wp_step. exists s, (entry s f i). split; [by eapply load_entry|]. cbv beta.
  destruct (present (entry s f i)) eqn:Ep.
  { destruct (vi_down _ _ _ _ Hinv _ _ _ _ Hf Hp Hi Ep) as (c & Ec & Hc). pose proof (node_frame _ _ _ _ Hinv _ _ _ Hc).
    do 2 wp_step. cbn [negb]. wp_step. exists s, (entry s f i). split; [by eapply load_entry|]. cbv beta.
    wp_step. unfold hhdm. do 2 wp_step. exists m, T. split; [done|]. split; [apply vm_ext_refl|]. split; [done|]. split; [done|].
    exists c. rewrite Hh in Hc. by rewrite Ec, link_mask by lia. }
  destruct (alloc_frame_spec k s m T Hinv) as (pm & a & Ea & Ht & Hcase).
  do 2 wp_step. exists (set_pmm s pm), a. split; [done|]. cbv beta.
  destruct Hcase as [(-> & Hpm & Hall)|(c & -> & Hcr & Hcn & Hpm)].
  { rewrite Z.eqb_refl. wp_step. cbn [negb]. wp_step. exists m, T. rewrite Ht in Hall.
    split; [|split; [by split|split; [done|done]]]. apply (inv_set_pmm k s m T pm m); try done; [| |apply (vi_zero _ _ _ _ Hinv)].
    - intros. by eapply (vi_node _ _ _ _ Hinv).
    - rewrite Ht. apply (vi_free _ _ _ _ Hinv). }
  destruct (Z.eqb_spec (c * PAGE_SIZE) 0); [lia|]. rewrite Ht in Hcr.
  pose proof (linked_inv k s m T f r p i c pm Hinv Hf Hp Hi Ep Hh Hcn Hcr Hpm Ht) as Hinv3.
  assert (is_Some (ram s !! c)) as Hramc by (apply (vi_free _ _ _ _ Hinv); [lia|done]).
  assert (vm_inv k (set_pmm s pm) (<[c := 1]> m) T) as Hinv1.
  { apply (inv_set_pmm k s m T pm); try done.
    - intros g r' q Hg. destruct (vi_node _ _ _ _ Hinv _ _ _ Hg) as (_ & Hx & _).
      destruct (decide (g = c)) as [->|]; [by rewrite lookup_insert_eq|by rewrite lookup_insert_ne].
    - intros g Hg Hn. rewrite lookup_insert_None in Hn. apply (vi_free _ _ _ _ Hinv); [by rewrite <- Ht|apply Hn].
    - apply lookup_insert_is_Some'. right. apply (vi_zero _ _ _ _ Hinv). }
  pose proof (table_fresh k s m T c Hinv Hcn) as Hfresh.
  pose proof (data_inv k _ _ T c zero_page Hinv1 Hfresh Hramc page_ok_zero) as Hinv2.
  unfold hhdm. do 3 wp_step. exists (set_frame (set_pmm s pm) c zero_page), tt.
  split; [by eapply (clear_frame k (set_pmm s pm))|]. cbv beta. wp_step. rewrite link_word by lia.
  eexists _, tt. split; [eapply (store_entry k (set_frame (set_pmm s pm) c zero_page)); [done| |done]|].
  { cbn. rewrite lookup_insert_ne; [done|]. intros <-. congruence. }
  cbv beta. wp_step. cbn [negb]. wp_step. eexists _, _. split; [eapply (load_entry k _ _ _ _ _ Hinv3); [|done]|].
  { eapply (vi_node _ _ _ _ Hinv3). rewrite lookup_insert_ne; [done|]. intros <-. congruence. }
  cbv beta. do 3 wp_step. exists (<[c := 1]> m), (<[c := (r, p ++ [i])]> T). split; [done|].
  split; [by apply (link_ext k)|].
  split; [intros g Hg; apply lookup_insert_None in Hg as [_ Hg]; by rewrite lookup_insert_ne|]. split; [intros r' va Hr; by apply (link_pte k s m T f r p)|].
  exists c. split; [|by rewrite lookup_insert_eq]. rewrite (link_entry k s m T f r p) by done.
  pose proof (vi_total _ _ _ _ Hinv). by rewrite bool_decide_eq_true_2, link_mask by (done || lia).
Qed.

(** ** Mapping *)
Definition kept (e : Z) : option Z := if present e then Some e else None.

(** The page of [va] is in the space's own tree: its lower half, and all of the kernel's. *)
Definition own (s : vm) (r va : Z) : Prop := r = kernel_root s \/ pml4_index va < 256.

Lemma own_home s r va : own s r va -> home (kernel_root s) r (table_path va) = r.
Proof. intros H. cbn. destruct (Z.leb_spec 256 (pml4_index va)); [|done]. destruct H; [done|lia]. Qed.

Lemma own_page s r va vb : own s r va -> vpn vb = vpn va -> own s r vb.
Proof. intros [H|H] E; [by left|right]. apply vpn_eq in E as [[= -> _ _] _]. done. Qed.

(** Which walks end at the page table of [virt] in the space [r]. *)
Lemma at_table k s m T r virt pt r' va : vm_inv k s m T -> T !! pt = Some (r, table_path virt) -> own s r virt ->
  is_root T r' -> (r' = r \/ pml4_index virt < 256 \/ pml4_index va < 256) ->
  (node_at s r' (table_path va) = Some pt /\ pt_index va = pt_index virt) <-> (r' = r /\ vpn va = vpn virt).
Proof.
  intros Hinv Hpt Hown Hr Hside. rewrite vpn_eq. split.
  - intros [Hn Hi]. pose proof (pte_table _ _ _ _ Hinv _ _ _ Hr Hn) as Hpt'. rewrite Hpt in Hpt'.
    assert (r = home (kernel_root s) r' (table_path va)) as Eh by congruence.
    assert (table_path virt = table_path va) as Ep by congruence. split; [|done].
    destruct Hside as [|Hside]; [done|]. cbn in Eh. assert (pml4_index virt = pml4_index va) by (unfold table_path in Ep; congruence).
    destruct (Z.leb_spec 256 (pml4_index va)); [lia|done].
  - intros (-> & Ep & Hi). split; [|done]. rewrite Ep. by apply (node_at_root k s m T Hinv).
Qed.

Lemma leaf_pte_own k s m T r virt pt v r' va : vm_inv k s m T -> T !! pt = Some (r, table_path virt) -> own s r virt ->
  in_u 64 v -> is_root T r' -> (r' = r \/ pml4_index virt < 256 \/ pml4_index va < 256) ->
  pte (set_entry s pt (pt_index virt) v) r' va = if bool_decide (r' = r /\ vpn va = vpn virt) then kept v else pte s r' va.
Proof.
  intros Hinv Hpt Hown Hv Hr Hside. rewrite (leaf_pte k s m T pt r (table_path virt)) by auto with grahaos.
  pose proof (at_table k s m T r virt pt r' va Hinv Hpt Hown Hr Hside) as Ht. by rewrite (bool_decide_ext _ _ Ht).
Qed.

Lemma leaf_ext k s m T f n i v : vm_inv k s m T -> T !! f = Some n -> vm_ext s (set_entry s f i v) m m T T.
Proof.
  intros Hinv Hf. split; try done.
  - intros g _ Hg. split; [done|]. cbn. rewrite lookup_alter_ne; [done|]. intros <-. congruence.
  - intros g. apply lookup_alter_is_Some.
Qed.

(** One translation becomes [v]; those of the shared half in other spaces are left open when
    the kernel maps there. *)
Definition maps (s s' : vm) (T : gmap Z node) (r virt : Z) (v : option Z) : Prop := forall r' va, is_root T r' ->
  (r' = r \/ pml4_index virt < 256 \/ pml4_index va < 256) ->
  pte s' r' va = if bool_decide (r' = r /\ vpn va = vpn virt) then v else pte s r' va.

(** A prefix of the walk that maps, started in [s]: the table at path [p] of the space. *)
Definition walked k s m T r p (o : option Z) s' : Prop := exists m' T', vm_inv k s' m' T' /\ vm_ext s s' m m' T T' /\ counts_kept m m' T' /\
  same_ptes s s' T /\ match o with Some a => exists c, a = ptr s' c /\ T' !! c = Some (r, p) | None => exhausted s m' end.

Lemma walk_next k s m T r p i a s1 : walked k s m T r p (Some a) s1 -> (length p < 3)%nat -> 0 <= i < 512 ->
  home (kernel_root s) r (p ++ [i]) = r -> wp (next_table a i) (walked k s m T r (p ++ [i])) s1.
Proof.
  intros (m1 & T1 & Hinv1 & He1 & Hk1 & Hs1 & c & -> & Hc) Hp Hi Hh. pose proof (vm_ext_root _ _ _ _ _ _ He1) as Ek.
  eapply wp_mono; [|apply (next_table_spec k s1 m1 T1 c r p i); try done; by rewrite Ek].
  intros o s2 (m2 & T2 & Hinv2 & He2 & Hk2 & Hs2 & Ho). exists m2, T2. split; [done|]. split; [by eapply vm_ext_trans|].
  split; [eapply counts_kept_trans; [done..|apply He2]|].
  split; [eapply same_ptes_trans; [done..|apply He1]|]. destruct o as [a|].
  - destruct Ho as (c' & -> & Hc'). exists c'. by rewrite (vm_ext_ptr _ _ _ _ _ _ c' He2).
  - intros j Hj. apply Ho. by rewrite (ve_total _ _ _ _ _ _ He1).
Qed.

(** The last step: the entry of the page. *)
Lemma walk_store k s m T r virt v a s1 : walked k s m T r (table_path virt) (Some a) s1 -> own s r virt -> in_u 64 v ->
  wp (store (elem a (pt_index virt)) v) (fun _ s' => exists m' T', vm_inv k s' m' T' /\ vm_ext s s' m m' T T' /\ counts_kept m m' T' /\
    maps s s' T r virt (kept v)) s1.
Proof.
  intros (m1 & T1 & Hinv1 & He1 & Hk1 & Hs1 & c & -> & Hc) Hown Hv. destruct (vi_node _ _ _ _ Hinv1 _ _ _ Hc) as (Hram & _).
  eexists _, tt. split; [apply (store_entry k s1 m1 T1); auto with grahaos|]. cbv beta. exists m1, T1.
  split; [by apply (leaf_inv k s1 m1 T1 c r (table_path virt)); auto with grahaos|].
  split; [eapply vm_ext_trans; [done|]; by eapply leaf_ext|]. split; [done|]. intros r' va Hr Hside.
  pose proof (lookup_weaken _ _ _ _ Hr (ve_tables _ _ _ _ _ _ He1)).
  assert (own s1 r virt) by (unfold own in *; by rewrite (vm_ext_root _ _ _ _ _ _ He1)).
  rewrite (leaf_pte_own k s1 m1 T1 r virt c v) by done. by rewrite Hs1.
Qed.

Lemma map_page_spec k s m T r virt phys flags : vm_inv k s m T -> is_root T r -> own s r virt -> in_u 64 (phys |. flags) ->
  wp (map_page (ptr s r) virt phys flags) (fun ok s' => exists m' T', vm_inv k s' m' T' /\ vm_ext s s' m m' T T' /\ counts_kept m m' T' /\
    if (ok : bool) then maps s s' T r virt (kept (phys |. flags)) else same_ptes s s' T /\ exhausted s m') s.
Proof.
  intros Hinv Hr Hown Hv. pose proof (own_home _ _ _ Hown) as Hh. unfold map_page.
  wp_step. eapply wp_mono; [|apply (walk_next k s m T r []); [|cbn; lia|apply index_range; lia|exact Hh]]; last first.
  { exists m, T. split; [done|]. split; [apply vm_ext_refl|]. split; [done|]. split; [done|]. by exists r. }
  intros [a|] s1 Hw; [|wp_step; destruct Hw as (m1 & T1 & H1 & H2 & H3 & H4 & H5); by exists m1, T1].
  wp_step. eapply wp_mono; [|apply (walk_next _ _ _ _ _ _ _ _ _ Hw); [cbn; lia|apply index_range; lia|exact Hh]].
  intros [b|] s2 Hw2; [|wp_step; destruct Hw2 as (m2 & T2 & H1 & H2 & H3 & H4 & H5); by exists m2, T2].
  wp_step. eapply wp_mono; [|apply (walk_next _ _ _ _ _ _ _ _ _ Hw2); [cbn; lia|apply index_range; lia|exact Hh]].
  intros [c|] s3 Hw3; [|wp_step; destruct Hw3 as (m3 & T3 & H1 & H2 & H3 & H4 & H5); by exists m3, T3].
  wp_step. eapply wp_mono; [|by apply (walk_store _ _ _ _ _ virt _ _ _ Hw3)]. intros u s4 H4. by wp_step.
Qed.

Lemma map_page_by_cr3_spec k s m T r virt phys flags : vm_inv k s m T -> is_root T r -> own s r virt -> in_u 64 (phys |. flags) ->
  wp (vmm_map_page_by_cr3 (r * PAGE_SIZE) virt phys flags) (fun ok s' => exists m' T', vm_inv k s' m' T' /\ vm_ext s s' m m' T T' /\ counts_kept m m' T' /\
    if (ok : bool) then maps s s' T r virt (kept (phys |. flags)) else same_ptes s s' T /\ exhausted s m') s.
Proof. intros. unfold vmm_map_page_by_cr3, hhdm. do 2 wp_step. by apply map_page_spec. Qed.

(** Where the tables are there, mapping cannot fail. *)
Lemma next_table_present k s m T f i c r p : vm_inv k s m T -> T !! f = Some (r, p) -> 0 <= i < 512 -> entry s f i = c * PAGE_SIZE + 7 -> 0 <= c < 2 ^ 35 ->
  next_table (ptr s f) i s = Some (s, Some (ptr s c)).
Proof.
  intros Hinv Hf Hi Ec Hc. destruct (vi_node _ _ _ _ Hinv _ _ _ Hf) as (Hram & _).
  enough (wp (next_table (ptr s f) i) (fun o s' => s' = s /\ o = Some (ptr s c)) s) as (s' & o & E & -> & ->) by done.
  unfold next_table. wp_step. exists s, (entry s f i). split; [by eapply load_entry|]. cbv beta. rewrite Ec, link_present.
  do 2 wp_step. cbn [negb]. wp_step. exists s, (entry s f i). split; [by eapply load_entry|]. cbv beta. unfold hhdm. do 3 wp_step.
  by rewrite Ec, link_mask by lia.
Qed.

Lemma map_existing k s m T r virt phys flags pt : vm_inv k s m T -> T !! pt = Some (r, table_path virt) -> own s r virt -> in_u 64 (phys |. flags) ->
  wp (vmm_map_page_by_cr3 (r * PAGE_SIZE) virt phys flags) (fun ok s' => ok = true /\ vm_inv k s' m T /\ vm_ext s s' m m T T /\
    maps s s' T r virt (kept (phys |. flags))) s.
Proof.
  intros Hinv Hpt Hown Hv. unfold vmm_map_page_by_cr3, hhdm. do 2 wp_step. fold (ptr s r).
  destruct (vi_up _ _ _ _ Hinv pt r [pml4_index virt; pdpt_index virt] (pd_index virt) Hpt) as (pd & Hpd & Epd).
  destruct (vi_up _ _ _ _ Hinv pd r [pml4_index virt] (pdpt_index virt) Hpd) as (pdpt & Hpdpt & Epdpt).
  destruct (vi_up _ _ _ _ Hinv pdpt r [] (pml4_index virt) Hpdpt) as (root & Hroot & Eroot).
  destruct (vi_node _ _ _ _ Hinv _ _ _ Hroot) as (_ & _ & _ & _ & _ & _ & Er). specialize (Er eq_refl) as ->.
  pose proof (node_frame _ _ _ _ Hinv _ _ _ Hpt). pose proof (node_frame _ _ _ _ Hinv _ _ _ Hpd). pose proof (node_frame _ _ _ _ Hinv _ _ _ Hpdpt).
  assert (forall a b, 0 <= b -> 0 <= (a >>. b) &. 0x1FF < 512) as Hidx by (intros; by apply index_range).
  unfold map_page. wp_step. eexists _, _. split; [eapply (next_table_present k s m T r (pml4_index virt) pdpt); [done|done|apply Hidx; lia|done|lia]|]. cbv beta iota.
  wp_step. eexists _, _. split; [eapply (next_table_present k s m T pdpt (pdpt_index virt) pd); [done|done|apply Hidx; lia|done|lia]|]. cbv beta iota.
  wp_step. eexists _, _. split; [eapply (next_table_present k s m T pd (pd_index virt) pt); [done|done|apply Hidx; lia|done|lia]|]. cbv beta iota.
  destruct (vi_node _ _ _ _ Hinv _ _ _ Hpt) as (Hram & _). wp_step.
  eexists _, tt. split; [apply (store_entry k s m T); auto with grahaos|]. cbv beta. wp_step. split; [done|].
  split; [by apply (leaf_inv k s m T pt r (table_path virt)); auto with grahaos|]. split; [by eapply leaf_ext|].
  intros r' va Hr' Hside. by apply (leaf_pte_own k s m T).
Qed.

Lemma map_space_spec k s m T sp r virt phys flags : vm_inv k s m T -> top_level s sp = ptr s r -> is_root T r -> own s r virt ->
  in_u 64 (phys |. flags) ->
  wp (vmm_map_page (Some sp) virt phys flags) (fun ok s' => exists m' T', vm_inv k s' m' T' /\ vm_ext s s' m m' T T' /\ counts_kept m m' T' /\
    if (ok : bool) then maps s s' T r virt (kept (phys |. flags)) else same_ptes s s' T /\ exhausted s m') s.
Proof.
  intros Hinv Htop Hr Hown Hv. unfold vmm_map_page. do 2 wp_step. rewrite Htop. pose proof (node_frame _ _ _ _ Hinv _ _ _ Hr).
  destruct (Z.eqb_spec (ptr s r) 0) as [E|_]; [by apply (ptr_nonzero k s m T) in E; [|done|lia]|]. by apply map_page_spec.
Qed.

(** ** The walk of the other operations

    [abs] when a table is absent, [cont] with the page table otherwise. *)
Definition walk {B} (cr3 virt : Z) (abs : M vm B) (cont : Z -> M vm B) : M vm B :=
  pml4 ← hhdm cr3;
  e ← load (elem pml4 (pml4_index virt));
  if negb (present e) then abs else
  pdpt ← hhdm (e &. PAGE_MASK);
  e ← load (elem pdpt (pdpt_index virt));
  if negb (present e) then abs else
  pd ← hhdm (e &. PAGE_MASK);
  e ← load (elem pd (pd_index virt));
  if negb (present e) then abs else
  pt ← hhdm (e &. PAGE_MASK);
  cont pt.

Section lookup.
  Context (k : Z) (s : vm) (m : gmap Z Z) (T : gmap Z node).
  Hypothesis Hinv : vm_inv k s m T.

Lemma walk_down {B} f r p i (abs : M vm B) cont Q : T !! f = Some (r, p) -> (length p < 3)%nat -> 0 <= i < 512 ->
  (present (entry s f i) = false -> wp abs Q s) ->
  (forall r', present (entry s f i) = true -> T !! frame_of (entry s f i) = Some (r', p ++ [i]) ->
    wp (cont (ptr s (frame_of (entry s f i)))) Q s) ->
  wp (e ← load (elem (ptr s f) i); if negb (present e) then abs else t ← hhdm (e &. PAGE_MASK); cont t) Q s.
Proof using Hinv.
  intros Hf Hp Hi Habs Hcont. destruct (vi_node _ _ _ _ Hinv _ _ _ Hf) as (Hram & _).
  wp_step. exists s, (entry s f i). split; [by eapply load_entry|]. cbv beta.
  destruct (present (entry s f i)) eqn:E; cbn [negb]; [|by apply Habs].
  destruct (vi_down _ _ _ _ Hinv _ _ _ _ Hf Hp Hi E) as (c & Ec & Hc). pose proof (node_frame _ _ _ _ Hinv _ _ _ Hc).
  unfold hhdm. do 2 wp_step. rewrite Ec, link_mask by lia. rewrite Ec, frame_of_link in Hcont by lia. by eapply Hcont.
Qed.

Lemma walk_spec {B} r virt (abs : M vm B) cont Q : is_root T r ->
  (node_at s r (table_path virt) = None -> wp abs Q s) ->
  (forall f, node_at s r (table_path virt) = Some f -> wp (cont (ptr s f)) Q s) ->
  wp (walk (r * PAGE_SIZE) virt abs cont) Q s.
Proof using Hinv.
  intros Hr Habs Hcont. unfold walk. apply wp_bind, wp_gets. fold (ptr s r). cbn [node_at table_path] in *.
  apply (walk_down r r []); [done|cbn; lia|apply index_range; lia|intros E; rewrite E in Habs; auto|].
  intros r1 E1 H1. rewrite E1 in *.
  apply (walk_down _ r1 _ _ _ _ _ H1); [cbn; lia|apply index_range; lia|intros E; rewrite E in Habs; auto|].
  intros r2 E2 H2. rewrite E2 in *.
  apply (walk_down _ r2 _ _ _ _ _ H2); [cbn; lia|apply index_range; lia|intros E; rewrite E in Habs; auto|].
  intros r3 E3 H3. rewrite E3 in *. by apply Hcont.
Qed.

Lemma pte_addr_nonzero f i : is_Some (ram s !! f) -> 0 <= i < 512 -> elem (ptr s f) i <> 0.
Proof using Hinv.
  intros [pg Hpg] Hi. apply (vi_frame _ _ _ _ Hinv) in Hpg as [Hf _]. unfold elem.
  rewrite (ptr_eq k s m T) by done. pose proof (vi_hhdm _ _ _ _ Hinv). rewrite wrap_small by (unfold in_u; lia). lia.
Qed.

Lemma table_ram r va f : is_root T r -> node_at s r (table_path va) = Some f -> is_Some (ram s !! f).
Proof using Hinv. intros Hr Hf. pose proof (pte_table _ _ _ _ Hinv _ _ _ Hr Hf) as Hn. by apply (vi_node _ _ _ _ Hinv) in Hn as [? _]. Qed.

(** [vmm_walk_pte] gives the address of the entry of the page. *)
Lemma walk_pte_spec r virt Q : is_root T r ->
  (node_at s r (table_path virt) = None -> Q 0 s) ->
  (forall f, node_at s r (table_path virt) = Some f -> Q (elem (ptr s f) (pt_index virt)) s) ->
  wp (vmm_walk_pte (r * PAGE_SIZE) virt) Q s.
Proof using Hinv.
  intros Hr Habs Hcont. change (vmm_walk_pte (r * PAGE_SIZE) virt)
    with (walk (r * PAGE_SIZE) virt (mret 0) (fun pt => mret (elem pt (pt_index virt)))).
  apply walk_spec; [done| |]; intros; wp_step; auto.
Qed.

Lemma get_pte_spec r virt Q : is_root T r -> Q (default 0 (pte s r virt)) s -> wp (vmm_get_pte (r * PAGE_SIZE) virt) Q s.
Proof using Hinv.
  intros Hr HQ. unfold vmm_get_pte. wp_step. unfold pte in HQ. apply walk_pte_spec; [done| |].
  - intros E. rewrite E in HQ. rewrite Z.eqb_refl. by wp_step.
  - intros f E. rewrite E in HQ. pose proof (table_ram _ _ _ Hr E) as Hram.
    pose proof (pte_addr_nonzero f (pt_index virt) Hram (pt_index_idx virt)). destruct (Z.eqb_spec (elem (ptr s f) (pt_index virt)) 0); [done|].
    wp_step. exists s, (entry s f (pt_index virt)). split; [by eapply load_entry; auto with grahaos|]. cbv beta. wp_step.
    by destruct (present _).
Qed.

Lemma get_physical_address_spec r virt Q : is_root T r ->
  Q (match pte s r virt with Some e => (e &. PAGE_MASK) |. (virt &. 0xFFF) | None => 0 end) s ->
  wp (vmm_get_physical_address (r * PAGE_SIZE) virt) Q s.
Proof using Hinv.
  intros Hr HQ. change (vmm_get_physical_address (r * PAGE_SIZE) virt)
    with (walk (r * PAGE_SIZE) virt (mret 0) (fun pt => e ← load (elem pt (pt_index virt));
      if negb (present e) then mret 0 else mret ((e &. PAGE_MASK) |. (virt &. 0xFFF)))).
  unfold pte in HQ. apply walk_spec; [done|intros E; rewrite E in HQ; by wp_step|].
  intros f E. rewrite E in HQ. pose proof (table_ram _ _ _ Hr E) as Hram.
  wp_step. exists s, (entry s f (pt_index virt)). split; [by eapply load_entry; auto with grahaos|]. cbv beta in HQ |- *.
  cbv zeta in HQ. destruct (present _); cbn [negb]; by wp_step.
Qed.

(** A store to the entry of a page of the space's own tree. *)
Lemma store_pte_spec r virt v f : is_root T r -> own s r virt -> in_u 64 v -> node_at s r (table_path virt) = Some f ->
  wp (store (elem (ptr s f) (pt_index virt)) v) (fun _ s' => vm_inv k s' m T /\ vm_ext s s' m m T T /\ maps s s' T r virt (kept v)) s.
Proof using Hinv.
  intros Hr Hown Hv E. pose proof (pte_table _ _ _ _ Hinv _ _ _ Hr E) as Hf. rewrite own_home in Hf by done.
  eexists _, tt. split; [eapply (store_entry k s m T); auto with grahaos; by eapply table_ram|]. cbv beta.
  split; [by apply (leaf_inv k s m T f r (table_path virt)); auto with grahaos|]. split; [by eapply leaf_ext|].
  intros r' va Hr' Hside. by apply (leaf_pte_own k s m T).
Qed.

Lemma maps_none r virt : own s r virt -> is_root T r -> node_at s r (table_path virt) = None -> maps s s T r virt None.
Proof using Hinv.
  intros Hown Hr E r' va Hr' _. case_bool_decide as Eb; [|done]. destruct Eb as [-> [Ep _]%vpn_eq]. unfold pte. by rewrite Ep, E.
Qed.

Lemma unmap_spec r virt : is_root T r -> own s r virt ->
  wp (vmm_unmap_page_by_cr3 (r * PAGE_SIZE) virt) (fun _ s' => vm_inv k s' m T /\ vm_ext s s' m m T T /\ maps s s' T r virt None) s.
Proof using Hinv.
  intros Hr Hown. change (vmm_unmap_page_by_cr3 (r * PAGE_SIZE) virt)
    with (walk (r * PAGE_SIZE) virt (mret tt) (fun pt => store (elem pt (pt_index virt)) 0)).
  apply walk_spec; [done|intros E; wp_step|].
  - split; [done|]. split; [apply vm_ext_refl|]. by apply maps_none.
  - intros f E. by apply (store_pte_spec r virt 0 f).
Qed.

(** The new flags replace the low twelve bits; bit 63 stays what it was. *)
Definition protected (e new_flags : Z) : Z := (e &. PAGE_MASK) |. (new_flags &. (0xFFFFFFFFFFFFFFFF - PAGE_MASK)) |. PTE_PRESENT.

Lemma protected_present e fl : present (protected e fl) = true.
Proof.
  rewrite present_odd, <- Z.bit0_odd. unfold protected. rewrite Z.lor_spec. by rewrite orb_true_r.
Qed.

Lemma protected_u64 e fl : in_u 64 e -> in_u 64 (protected e fl).
Proof.
  intros He. unfold protected. apply in_u_lor; [lia| |unfold in_u; lia]. apply in_u_lor; [lia|by apply in_u_land_l|].
  rewrite Z.land_comm. apply in_u_land_l; [lia|]. unfold in_u. lia.
Qed.

Lemma protected_nx e fl : Z.testbit (protected e fl) 63 = Z.testbit e 63.
Proof.
  unfold protected. rewrite !Z.lor_spec, !Z.land_spec. change (Z.testbit PAGE_MASK 63) with true.
  change (Z.testbit (0xFFFFFFFFFFFFFFFF - PAGE_MASK) 63) with false. change (Z.testbit PTE_PRESENT 63) with false.
  by rewrite andb_false_r, !orb_false_r, andb_true_r.
Qed.

Lemma protect_spec r virt fl : is_root T r -> own s r virt ->
  wp (vmm_protect_page_by_cr3 (r * PAGE_SIZE) virt fl) (fun ok s' => vm_inv k s' m T /\ vm_ext s s' m m T T /\
    match pte s r virt with
    | Some e => ok = true /\ maps s s' T r virt (Some (protected e fl))
    | None => ok = false /\ s' = s
    end) s.
Proof using Hinv.
  intros Hr Hown. unfold vmm_protect_page_by_cr3. wp_step. unfold pte. apply walk_pte_spec; [done| |].
  { intros ->. rewrite Z.eqb_refl. wp_step. split; [done|]. split; [apply vm_ext_refl|done]. }
  intros f E. rewrite E. pose proof (table_ram _ _ _ Hr E) as Hram.
  pose proof (pte_addr_nonzero f (pt_index virt) Hram (pt_index_idx virt)). destruct (Z.eqb_spec (elem (ptr s f) (pt_index virt)) 0); [done|].
  wp_step. exists s, (entry s f (pt_index virt)). split; [by eapply load_entry; auto with grahaos|]. cbv beta zeta.
  destruct (present _); cbn [negb]; [|wp_step; split; [done|]; split; [apply vm_ext_refl|done]].
  wp_step. fold (protected (entry s f (pt_index virt)) fl). pose proof (entry_u64 k s m T f (pt_index virt) Hinv) as He.
  eapply wp_mono; [|apply (store_pte_spec r virt (protected (entry s f (pt_index virt)) fl) f); try done; by apply protected_u64].
  intros u s' (H1 & H2 & H3). wp_step. unfold kept in H3. rewrite protected_present in H3. done.
Qed.
End lookup.
