(* ===== verification/VmmSpace.v ===== *)
(** * Creating and destroying address spaces

    A new space translates the upper half as the kernel does and nothing below.  A
    destroyed space gives back its tables and one reference of every page that an entry of
    its lower half names; [frees] lists the addresses in the order of the walk. *)
From S2P Require Import Prelude Bytes Pmm StateM Vmm VmmInv VmmMap.
Local Open Scope Z_scope.
Local Open Scope c_scope.

(** ** Loops *)
Lemma for_each_spec {A} (f : A -> M vm unit) (P : list A -> vm -> Prop) (l : list A) : forall pre s,
  (forall pre' x post s', pre ++ l = pre' ++ x :: post -> P pre' s' -> wp (f x) (fun _ s'' => P (pre' ++ [x]) s'') s') ->
  P pre s -> wp (for_each l f) (fun _ s' => P (pre ++ l) s') s.
Proof.
  induction l as [|x l IH]; intros pre s Hstep HP; cbn [for_each].
  { wp_step. by rewrite app_nil_r. }
  wp_step. eapply wp_mono; [|by apply (Hstep pre x l)]. intros u s' HP'.
  eapply wp_mono; [|apply (IH (pre ++ [x]) s'); [|done]].
  - intros u' s''. by rewrite <- app_assoc.
  - intros pre' y post s'' E. apply (Hstep pre' y post). rewrite <- E, <- app_assoc. done.
Qed.

Lemma for_all_spec {A} (f : A -> M vm bool) (P : list A -> vm -> Prop) (F : vm -> Prop) (l : list A) : forall pre s,
  (forall pre' x post s', pre ++ l = pre' ++ x :: post -> P pre' s' ->
    wp (f x) (fun ok s'' => if (ok : bool) then P (pre' ++ [x]) s'' else F s'') s') ->
  P pre s -> wp (for_all l f) (fun ok s' => if (ok : bool) then P (pre ++ l) s' else F s') s.
Proof.
  induction l as [|x l IH]; intros pre s Hstep HP; cbn [for_all].
  { wp_step. by rewrite app_nil_r. }
  wp_step. eapply wp_mono; [|by apply (Hstep pre x l)]. intros [] s' HP'; [|by wp_step].
  eapply wp_mono; [|apply (IH (pre ++ [x]) s'); [|done]].
  - intros ok s''. by rewrite <- app_assoc.
  - intros pre' y post s'' E. apply (Hstep pre' y post). rewrite <- E, <- app_assoc. done.
Qed.

(** ** A new top-level table

    The frame [c] becomes the top level of a space whose upper half is copied from [f]. *)
Section root.
  Context (k : Z) (s : vm) (m : gmap Z Z) (T : gmap Z node) (f c : Z) (pm : pmm) (pg : list Z).
  Hypothesis Hinv : vm_inv k s m T.
  Hypothesis Hf : is_root T f.
  Hypothesis Hc : m !! c = None.
  Hypothesis Hcr : 0 < c < total_pages (phys_pages s).
  Hypothesis Hpm : pmm_rep k pm (<[c := 1]> m).
  Hypothesis Htot : total_pages pm = total_pages (phys_pages s).
  Hypothesis Hpg : page_ok pg.
Let s1 := set_frame (set_pmm s pm) c pg.
  Hypothesis Hcopy : forall j, 0 <= j < 512 -> entry s1 c j = if 256 <=? j then entry s f j else 0.
Let T2 := <[c := (c, [])]> T.

Lemma root_fresh : T !! c = None.
Proof using Hinv Hc. by eapply table_fresh. Qed.

Lemma root_ram : is_Some (ram s !! c).
Proof using Hinv Hc Hcr. apply (vi_free _ _ _ _ Hinv); [lia|done]. Qed.

Lemma root_pmm_inv : vm_inv k (set_pmm s pm) (<[c := 1]> m) T.
Proof using Hinv Hc Hcr Hpm Htot.
  apply (inv_set_pmm k s m T pm); try done.
  - intros g r' q Hg. destruct (vi_node _ _ _ _ Hinv _ _ _ Hg) as (_ & Hx & _).
    rewrite lookup_insert_ne; [done|]. intros <-. congruence.
  - intros g Hg Hn. rewrite lookup_insert_None in Hn. apply (vi_free _ _ _ _ Hinv); [by rewrite <- Htot|apply Hn].
  - apply lookup_insert_is_Some'. right. apply (vi_zero _ _ _ _ Hinv).
Qed.

Lemma root_data_inv : vm_inv k s1 (<[c := 1]> m) T.
Proof using Hinv Hc Hcr Hpm Htot Hpg. apply data_inv; [exact root_pmm_inv|exact root_fresh|exact root_ram|done]. Qed.

Lemma root_pte_other r va : is_root T r -> pte s1 r va = pte s r va.
Proof using Hinv Hc Hcr Hpm Htot.
  intros Hr. rewrite <- (pte_ram s (set_pmm s pm)) by done. by apply (data_pte k (set_pmm s pm) _ T c pg root_pmm_inv root_fresh).
Qed.

Lemma root_inv : vm_inv k s1 (<[c := 1]> m) T2.
Proof using Hinv Hf Hc Hcr Hpm Htot Hpg Hcopy.
  pose proof root_data_inv as H1. pose proof root_fresh as Hfresh.
  assert (forall g n, T !! g = Some n -> T2 !! g = Some n) as Hold.
  { intros g n Hg. unfold T2. rewrite lookup_insert_ne; [done|]. intros <-. congruence. }
  split; [apply (vi_pmm _ _ _ _ H1)|apply (vi_hhdm _ _ _ _ H1)|apply (vi_total _ _ _ _ H1)|apply (vi_frame _ _ _ _ H1)|
    apply (vi_free _ _ _ _ H1)| | | | | |apply (vi_pool _ _ _ _ H1)| |apply (vi_slots _ _ _ _ H1)|apply (vi_next _ _ _ _ H1)|
    apply (vi_zero _ _ _ _ H1)].
  - intros g r q. unfold T2. destruct (decide (g = c)) as [->|]; [rewrite lookup_insert_eq|rewrite lookup_insert_ne by done].
    + intros [= <- <-]. rewrite lookup_insert_eq. assert (is_Some (ram s1 !! c)) by (cbn; by rewrite lookup_insert_eq).
      split_and!; solve [done|cbn; lia|constructor].
    + apply (vi_node _ _ _ _ H1).
  - intros g h n. unfold T2. destruct (decide (g = c)) as [->|], (decide (h = c)) as [->|];
      rewrite ?lookup_insert_eq, ?lookup_insert_ne by done; [done| | |apply (vi_inj _ _ _ _ H1)].
    + intros [= <-] Hh. destruct (vi_node _ _ _ _ H1 _ _ _ Hh) as (_ & _ & _ & _ & _ & _ & E). symmetry. by apply E.
    + intros Hg [= <-]. destruct (vi_node _ _ _ _ H1 _ _ _ Hg) as (_ & _ & _ & _ & _ & _ & E). by apply E.
  - intros g r q j Hg Hq Hj. unfold T2 in Hg.
    destruct (decide (g = c)) as [->|]; [rewrite lookup_insert_eq in Hg; injection Hg as <- <-|rewrite lookup_insert_ne in Hg by done].
    + rewrite Hcopy by done. destruct (256 <=? j) eqn:Ej; [|by rewrite present_0]. intros E.
      destruct (vi_down _ _ _ _ Hinv f f [] j Hf ltac:(cbn; lia) Hj E) as (d & Ed & Hd). exists d. split; [done|].
      cbn in *. rewrite Ej in *. by apply Hold.
    + intros E. destruct (vi_down _ _ _ _ H1 _ _ _ _ Hg Hq Hj E) as (d & Ed & Hd). exists d. split; [done|]. by apply Hold.
  - intros g r q j. unfold T2. destruct (decide (g = c)) as [->|]; [rewrite lookup_insert_eq|rewrite lookup_insert_ne by done].
    + intros [= _ E]. by destruct q.
    + intros Hg. destruct (vi_up _ _ _ _ H1 _ _ _ _ Hg) as (g' & Hg' & E). exists g'. split; [by apply Hold|done].
  - destruct (vi_kernel _ _ _ _ H1). split; [by apply Hold|done].
  - intros j t Ht H0. destruct (vi_slot _ _ _ _ H1 j t Ht H0) as (r & -> & Hr & Hne). exists r. split; [done|]. split; [by apply Hold|done].
Qed.

(** The new space shares the upper half of [f] and maps nothing else. *)
Lemma root_pte va : pte s1 c va = if 256 <=? pml4_index va then pte s f va else None.
Proof using Hinv Hf Hc Hcr Hpm Htot Hpg Hcopy.
  rewrite <- (root_pte_other f va Hf). unfold pte, table_path. cbn [node_at].
  assert (entry s1 f (pml4_index va) = entry s f (pml4_index va)) as ->
    by by apply (data_entry (set_pmm s pm) T c pg root_fresh f (f, [])).
  rewrite Hcopy by (apply index_range; lia). by destruct (256 <=? pml4_index va).
Qed.
End root.

(** An empty slot of the pool takes a space that is in no slot. *)
Lemma slot_inv k s m T i c : vm_inv k s m T -> get (address_space_pool s) i = Some 0 -> is_root T c -> c <> kernel_root s ->
  (forall j, get (address_space_pool s) j <> Some (ptr s c)) ->
  vm_inv k {| s with address_space_pool := upd (address_space_pool s) i (ptr s c) |} m T.
Proof.
  intros Hinv Hi Hc HcK Hno. destruct (get_Some_bound _ _ _ Hi) as [Hi0 Hi1].
  split; [apply (vi_pmm _ _ _ _ Hinv)|apply (vi_hhdm _ _ _ _ Hinv)|apply (vi_total _ _ _ _ Hinv)|apply (vi_frame _ _ _ _ Hinv)|
    apply (vi_free _ _ _ _ Hinv)|apply (vi_node _ _ _ _ Hinv)|apply (vi_inj _ _ _ _ Hinv)|apply (vi_down _ _ _ _ Hinv)|
    apply (vi_up _ _ _ _ Hinv)|apply (vi_kernel _ _ _ _ Hinv)| | | |apply (vi_next _ _ _ _ Hinv)|apply (vi_zero _ _ _ _ Hinv)].
  - cbn. rewrite length_upd. apply (vi_pool _ _ _ _ Hinv).
  - intros j t Ht H0. cbn in Ht. destruct (decide (j = i)) as [->|].
    + rewrite get_upd_eq in Ht by done. injection Ht as <-. by exists c.
    + rewrite get_upd_ne in Ht by lia. by apply (vi_slot _ _ _ _ Hinv) in Ht.
  - intros j j' t. cbn. destruct (decide (j = i)) as [->|], (decide (j' = i)) as [->|]; rewrite ?get_upd_eq, ?get_upd_ne by (done || lia);
      [done| | |apply (vi_slots _ _ _ _ Hinv)].
    + intros [= <-] H. by apply Hno in H.
    + intros H [= <-]. by apply Hno in H.
Qed.

Lemma fresh_slot k s m T c j : vm_inv k s m T -> T !! c = None -> 0 <= c < 2 ^ 35 -> get (address_space_pool s) j <> Some (ptr s c).
Proof.
  intros Hinv Hc Hcr Hj. destruct (vi_slot _ _ _ _ Hinv j _ Hj) as (r & E & Hr & _); [by apply (ptr_nonzero k s m T)|].
  pose proof (node_frame _ _ _ _ Hinv _ _ _ Hr). rewrite !(ptr_eq k s m T) in E by (done || lia).
  replace r with c in Hr by lia. by rewrite Hc in Hr.
Qed.

(** ** Creation *)

(** The loop that copies entries of the table [f] into the frame [c]. *)
Lemma copy_loop (s : vm) c f lo n : mem_ok s -> is_Some (ram s !! c) -> is_Some (ram s !! f) -> f <> c -> 0 <= lo -> lo + n <= 512 ->
  wp (for_each (seqZ lo n) (fun j => e ← load (elem (ptr s f) j); store (elem (ptr s c) j) e))
    (fun _ s' => exists pg, s' = set_frame s c pg /\ page_ok pg /\ forall j, 0 <= j < 512 ->
      entry s' c j = if (lo <=? j) && (j <? lo + n) then entry s f j else entry s c j) s.
Proof.
  intros Hmem [pg0 Hc] Hf Hne Hlo Hhi. set (P := fun (pre : list Z) s' => exists pg, s' = set_frame s c pg /\ page_ok pg /\
    forall j, 0 <= j < 512 -> entry s' c j = if bool_decide (j ∈ pre) then entry s f j else entry s c j).
  eapply wp_mono; [|apply (for_each_spec _ P (seqZ lo n) [] s)].
  - intros u s' (pg & -> & Hpg & H). exists pg. split; [done|]. split; [done|]. intros j Hj. rewrite H by done. cbn [app].
    rewrite (bool_decide_ext _ (lo <= j < lo + n)) by (rewrite elem_of_seqZ; lia).
    case_bool_decide; by destruct (Z.leb_spec lo j), (Z.ltb_spec j (lo + n)); cbn; try lia.
  - intros pre x post s' E (pg & -> & Hpg & H). cbn [app] in E.
    assert (lo <= x < lo + n) as Hx by (apply elem_of_seqZ; rewrite E; apply elem_of_app; right; by left).
    assert (mem_ok (set_frame s c pg)) as Hmem' by (apply mem_ok_set_frame; [done|by apply Hmem in Hc as [? _]|done]).
    assert (is_Some (ram (set_frame s c pg) !! c)) as Hc' by (cbn; by rewrite lookup_insert_eq).
    wp_step. eexists _, _. split; [apply (load_raw (set_frame s c pg)); [done|cbn; by rewrite lookup_insert_ne|lia]|]. cbv beta.
    eexists _, tt. split; [apply (store_raw (set_frame s c pg)); [done..|lia]|]. cbv beta.
    set (e := entry (set_frame s c pg) f x). exists (splice pg (Z.to_nat (8 * x)) (le 8 e)).
    assert (e = entry s f x) as He by (unfold e, entry; cbn [ram set_frame]; by rewrite lookup_insert_ne).
    split; [|split].
    + unfold set_entry, set_frame; cbn. f_equal. rewrite (alter_frame _ _ _ pg) by by rewrite lookup_insert_eq. by rewrite insert_insert_eq.
    + apply page_ok_splice; [done|auto with grahaos|]. rewrite length_le. lia.
    + intros j Hj. rewrite entry_set_entry; [|eexists; split; [cbn; by rewrite lookup_insert_eq|done]|lia|done|].
      * rewrite H by done. rewrite (bool_decide_ext (j ∈ pre ++ [x]) (j ∈ pre \/ j = x)) by (rewrite elem_of_app, list_elem_of_singleton; done).
        case_bool_decide as E1; [destruct E1 as [_ ->]; by rewrite bool_decide_eq_true_2 by auto|].
        case_bool_decide as E2; [by rewrite bool_decide_eq_true_2 by auto|]. rewrite bool_decide_eq_false_2 by naive_solver. done.
      * rewrite He. by apply entry_u64_raw.
  - exists pg0. split; [|split; [by apply Hmem in Hc as [_ ?]|]].
    + unfold set_frame. rewrite insert_id by done. by destruct s.
    + done.
Qed.

(** The same for the upper half of a cleared frame. *)
Lemma upper_half (s : vm) c f : mem_ok s -> 0 <= c < 2 ^ 35 -> is_Some (ram s !! f) -> f <> c ->
  wp (for_each (seqZ 256 256) (fun j => e ← load (elem (ptr s f) j); store (elem (ptr s c) j) e))
    (fun _ s' => exists pg, s' = set_frame s c pg /\ page_ok pg /\ forall j, 0 <= j < 512 ->
      entry s' c j = if 256 <=? j then entry s f j else 0) (set_frame s c zero_page).
Proof.
  intros Hmem Hc Hf Hne. set (s2 := set_frame s c zero_page).
  assert (mem_ok s2) as Hmem2 by (apply mem_ok_set_frame; [done|done|apply page_ok_zero]).
  change (ptr s f) with (ptr s2 f). change (ptr s c) with (ptr s2 c).
  eapply wp_mono; [|apply (copy_loop s2 c f 256 256); try done; unfold s2, set_frame; cbn [ram]].
  2: by rewrite lookup_insert_eq.
  2: by rewrite lookup_insert_ne.
  intros u s3 (pg & -> & Hpg & Hcopy). exists pg. split; [|split; [done|]].
  { unfold s2, set_frame; cbn. by rewrite insert_insert_eq. }
  intros j Hj. rewrite Hcopy by done. replace (j <? 256 + 256) with true by lia. rewrite andb_true_r.
  unfold entry, s2, set_frame; cbn [ram]. destruct (256 <=? j); [by rewrite lookup_insert_ne|].
  rewrite lookup_insert_eq. apply field_zero_page. lia.
Qed.

Lemma find_slot s i : find_index (fun t => t =? 0) (address_space_pool s) = Some i -> get (address_space_pool s) (Z.of_nat i) = Some 0.
Proof.
  intros (x & Hx & E)%find_index_Some. unfold get. destruct (Z.ltb_spec (Z.of_nat i) 0); [lia|].
  rewrite Nat2Z.id, Hx. f_equal. lia.
Qed.

(** The state after slot [i] has been filled with the new top level [c]. *)
Definition filled (s : vm) (i c : Z) (pm : pmm) (pg : list Z) : vm :=
  {| (set_frame (set_pmm s pm) c pg) with address_space_pool := upd (address_space_pool s) i (ptr s c) |}.

Lemma fill_slot_spec k s m T i : vm_inv k s m T ->
  wp (fill_slot i) (fun o s' => exists pm, total_pages pm = total_pages (phys_pages s) /\
    match o with
    | Some sp => sp = Pool_space i /\ exists c pg, s' = filled s i c pm pg /\ m !! c = None /\ 0 < c < total_pages (phys_pages s) /\
        pmm_rep k pm (<[c := 1]> m) /\ page_ok pg /\
        forall j, 0 <= j < 512 -> entry (set_frame (set_pmm s pm) c pg) c j = if 256 <=? j then entry s (kernel_root s) j else 0
    | None => s' = set_pmm s pm /\ pmm_rep k pm m /\ exhausted s m
    end) s.
Proof.
  intros Hinv. unfold fill_slot. destruct (alloc_frame_spec k s m T Hinv) as (pm & a & Ea & Ht & Hcase).
  wp_step. exists (set_pmm s pm), a. split; [done|]. cbv beta. destruct Hcase as [(-> & Hpm & Hall)|(c & -> & Hcr & Hcn & Hpm)].
  { rewrite Z.eqb_refl. wp_step. rewrite Ht in Hall. by exists pm. }
  destruct (Z.eqb_spec (c * PAGE_SIZE) 0); [lia|]. rewrite Ht in Hcr. unfold hhdm, set_top_level. do 4 wp_step.
  set (s1 := {| (set_pmm s pm) with address_space_pool := upd (address_space_pool s) i (ptr s c) |}).
  change (u64 (c * PAGE_SIZE + g_hhdm_offset (set_pmm s pm))) with (ptr s1 c).
  assert (is_Some (ram s !! c)) as Hramc by (apply (vi_free _ _ _ _ Hinv); [lia|done]).
  wp_step. exists (set_frame s1 c zero_page), tt. split; [apply clear_raw; [exact (vi_mem _ _ _ _ Hinv)|done]|]. cbv beta.
  do 3 wp_step. destruct (vi_kernel _ _ _ _ Hinv) as [HK EK]. destruct (vi_node _ _ _ _ Hinv _ _ _ HK) as (HKram & HKm & _).
  change (kernel_space (set_frame s1 c zero_page)) with (kernel_space s). rewrite EK. change (ptr s (kernel_root s)) with (ptr s1 (kernel_root s)).
  pose proof (vi_total _ _ _ _ Hinv) as Htot.
  eapply wp_mono; [|apply (upper_half s1 c (kernel_root s)); [exact (vi_mem _ _ _ _ Hinv)|lia|done|congruence]].
  intros u s3 (pg & -> & Hpg & Hcopy). wp_step. exists pm. split; [done|]. split; [done|]. by exists c, pg.
Qed.

Lemma create_spec k s m T : vm_inv k s m T -> (exists i, get (address_space_pool s) i = Some 0) ->
  wp vmm_create_address_space (fun o s' =>
    match o with
    | Some sp => exists i c, sp = Pool_space i /\ get (address_space_pool s) i = Some 0 /\ m !! c = None /\ T !! c = None /\
        vm_inv k s' (<[c := 1]> m) (<[c := (c, [])]> T) /\ kernel_root s' = kernel_root s /\ g_hhdm_offset s' = g_hhdm_offset s /\
        total_pages (phys_pages s') = total_pages (phys_pages s) /\
        address_space_pool s' = upd (address_space_pool s) i (ptr s' c) /\
        (forall f, f <> c -> ram s' !! f = ram s !! f) /\
        (forall va, pte s' c va = if 256 <=? pml4_index va then pte s (kernel_root s) va else None) /\ same_ptes s s' T
    | None => vm_inv k s' m T /\ exhausted s m /\ s' = set_pmm s (phys_pages s') /\
        total_pages (phys_pages s') = total_pages (phys_pages s)
    end) s.
Proof.
  intros Hinv [i0 Hi0]. unfold vmm_create_address_space. wp_step. unfold pick_slot.
  destruct (find_index (fun t => t =? 0) (address_space_pool s)) as [n|] eqn:En; last first.
  { exfalso. unfold get in Hi0. destruct (i0 <? 0); [done|]. by pose proof (find_index_None _ _ _ _ En Hi0). }
  exists s, (Some (Z.of_nat n)). split; [by rewrite En|]. cbv beta iota. apply find_slot in En.
  eapply wp_mono; [|by apply (fill_slot_spec k s m T)]. intros o s' (pm & Ht & Ho). destruct o as [sp|]; last first.
  { destruct Ho as (-> & Hpm & Hx). split; [by apply inv_same_pmm|done]. }
  destruct Ho as (-> & c & pg & -> & Hcn & Hcr & Hpm & Hpg & Hcopy). destruct (vi_kernel _ _ _ _ Hinv) as [HK _].
  pose proof (root_inv k s m T (kernel_root s) c pm pg Hinv HK Hcn Hcr Hpm Ht Hpg Hcopy) as Hroot.
  pose proof (table_fresh k s m T c Hinv Hcn) as Hfresh. pose proof (vi_total _ _ _ _ Hinv).
  exists (Z.of_nat n), c. split_and!; try done.
  - apply (slot_inv k _ _ _ (Z.of_nat n) c Hroot); [done|by rewrite lookup_insert_eq| |].
    + intros E. change (kernel_root (set_frame (set_pmm s pm) c pg)) with (kernel_root s) in E. rewrite <- E in HK. congruence.
    + intros j. apply (fresh_slot k s m T); [done..|lia].
  - intros f Hf. cbn. by rewrite lookup_insert_ne.
  - intros va. unfold filled. rewrite (pte_ram (set_frame (set_pmm s pm) c pg)) by done. by apply (root_pte k s m T).
  - intros r va Hr. unfold filled. rewrite (pte_ram (set_frame (set_pmm s pm) c pg)) by done. by apply (root_pte_other k s m T).
Qed.

(** ** Destruction: the frees of the walk *)
Definition drop_addr (m : gmap Z Z) (a : Z) : gmap Z Z := if a =? 0 then m else drop_ref m (a / PAGE_SIZE).
Definition drop_all (m : gmap Z Z) (l : list Z) : gmap Z Z := foldl drop_addr m l.

(** How often a list of addresses names the frame [x], and what that many drops leave. *)
Definition named (x : Z) (l : list Z) : nat := length (List.filter (fun a => negb (a =? 0) && (a / PAGE_SIZE =? x)) l).
Definition drop_n (o : option Z) (n : nat) : option Z :=
  match o with
  | Some c => if (n =? 0)%nat then Some c else if c <=? Z.of_nat n then None else Some (c - Z.of_nat n)
  | None => None
  end.

Lemma drop_addr_lookup m a x :
  drop_addr m a !! x = if negb (a =? 0) && (a / PAGE_SIZE =? x) then drop_n (m !! x) 1 else m !! x.
Proof.
  unfold drop_addr. destruct (Z.eqb_spec a 0); cbn [negb andb]; [done|]. unfold drop_ref.
  destruct (Z.eqb_spec (a / PAGE_SIZE) x) as [->|Hne].
  - destruct (m !! x) as [c|] eqn:E; [|by rewrite E]. cbn [drop_n Nat.eqb]. change (Z.of_nat 1) with 1. destruct (Z.leb_spec c 1).
    + by rewrite lookup_delete_eq.
    + by rewrite lookup_insert_eq.
  - destruct (m !! (a / PAGE_SIZE)) as [c|]; [|done].
    destruct (c <=? 1); [by rewrite lookup_delete_ne|by rewrite lookup_insert_ne].
Qed.

Lemma drop_n_plus o n p : drop_n (drop_n o n) p = drop_n o (n + p).
Proof.
  destruct o as [c|]; [|done]. cbn. destruct n as [|n]; [done|]. cbn [Nat.eqb Nat.add].
  destruct (Z.leb_spec c (Z.of_nat (S n))); cbn.
  - destruct (Z.leb_spec c (Z.of_nat (S (n + p)))); [done|lia].
  - destruct p as [|p]; cbn [Nat.eqb].
    + rewrite Nat.add_0_r. by destruct (Z.leb_spec c (Z.of_nat (S n))); [lia|].
    + destruct (Z.leb_spec (c - Z.of_nat (S n)) (Z.of_nat (S p))), (Z.leb_spec c (Z.of_nat (S (n + S p)))); try lia; [done|].
      f_equal. lia.
Qed.

Lemma drop_all_lookup l : forall m x, drop_all m l !! x = drop_n (m !! x) (named x l).
Proof.
  induction l as [|a l IH]; intros m x; [cbn; by destruct (m !! x)|]. unfold named in *. cbn [drop_all foldl List.filter].
  change (foldl drop_addr (drop_addr m a) l) with (drop_all (drop_addr m a) l). rewrite IH, drop_addr_lookup.
  destruct (_ && _); [|done]. by rewrite drop_n_plus.
Qed.

Lemma named_pos x l : (0 < named x l)%nat <-> exists a, a ∈ l /\ a <> 0 /\ a / PAGE_SIZE = x.
Proof.
  unfold named. split.
  - destruct (List.filter _ l) as [|a l'] eqn:E; cbn; [lia|]. intros _.
    assert (In a (List.filter (fun a => negb (a =? 0) && (a / PAGE_SIZE =? x)) l)) as [Ha Hb]%filter_In by (rewrite E; by left).
    exists a. rewrite list_elem_of_In. split; [done|]. lia.
  - intros (a & Ha & H0 & Hx). assert (In a (List.filter (fun a => negb (a =? 0) && (a / PAGE_SIZE =? x)) l)) as H.
    { apply filter_In. split; [by apply list_elem_of_In|]. lia. }
    destruct (List.filter _ l); [done|]. cbn. lia.
Qed.

(** Programs that read the memory of [s] and free the addresses [l] in this order. *)
Definition freeing (s : vm) (prog : M vm unit) (l : list Z) : Prop := forall k p m, pmm_rep k p m ->
  wp prog (fun _ s' => exists p', s' = set_pmm s p' /\ pmm_rep k p' (drop_all m l) /\ total_pages p' = total_pages p) (set_pmm s p).

Section freeing.
  Context (s : vm).
  Hypothesis Hmem : mem_ok s.

Lemma freeing_ret : freeing s (mret tt) [].
Proof using. intros k p m Hp. wp_step. by exists p. Qed.

Lemma freeing_free a : 0 <= a -> freeing s (free_frame a) [a].
Proof using.
  intros Ha k p m Hp. unfold free_frame. wp_step. exists (pmm_free_page p a). split; [done|].
  pose proof (pmm_exec_keeps p (Free_page a)) as [Ht _].
  destruct (pmm_exec_step k p m (Free_page a) Hp Ha) as (m' & Hs & Hr). split; [|done]. cbn [pmm_exec fst] in Hr.
  enough (m' = drop_all m [a]) as -> by done. cbn. unfold drop_addr. inversion Hs; subst; [|done].
  by destruct (Z.eqb_spec a 0).
Qed.

Lemma freeing_seq prog1 prog2 l1 l2 : freeing s prog1 l1 -> freeing s prog2 l2 -> freeing s (prog1;; prog2) (l1 ++ l2).
Proof using.
  intros H1 H2 k p m Hp. wp_step. eapply wp_mono; [|by apply H1]. intros u s' (p' & -> & Hp' & Ht).
  eapply wp_mono; [|by apply H2]. intros u' s'' (p'' & -> & Hp'' & Ht'). exists p''. split; [done|].
  split; [|congruence]. unfold drop_all in *. by rewrite foldl_app.
Qed.

Lemma freeing_load f i cont l : is_Some (ram s !! f) -> 0 <= i < 512 -> freeing s (cont (entry s f i)) l ->
  freeing s (e ← load (elem (ptr s f) i); cont e) l.
Proof using Hmem.
  intros Hf Hi H k p m Hp. wp_step. exists (set_pmm s p), (entry s f i). split; [|by apply H].
  change (ptr s f) with (ptr (set_pmm s p) f). change (entry s f i) with (entry (set_pmm s p) f i). by apply load_raw.
Qed.

Lemma freeing_hhdm phys cont l : freeing s (cont (u64 (phys + g_hhdm_offset s))) l -> freeing s (v ← hhdm phys; cont v) l.
Proof using. intros H k p m Hp. unfold hhdm. do 2 wp_step. by apply H. Qed.

Lemma freeing_each {A} (f : A -> M vm unit) (g : A -> list Z) l : (forall x, x ∈ l -> freeing s (f x) (g x)) ->
  freeing s (for_each l f) (flat_map g l).
Proof using.
  induction l as [|x l IH]; intros H; cbn [for_each flat_map]; [apply freeing_ret|].
  apply freeing_seq; [apply H; by left|]. apply IH. intros y Hy. apply H. by right.
Qed.
End freeing.

Lemma freeing_start s prog l k m : freeing s prog l -> pmm_rep k (phys_pages s) m ->
  wp prog (fun _ s' => exists p', s' = set_pmm s p' /\ pmm_rep k p' (drop_all m l) /\ total_pages p' = total_pages (phys_pages s)) s.
Proof. intros H Hp. specialize (H k (phys_pages s) m Hp). by replace (set_pmm s (phys_pages s)) with s in H by by destruct s. Qed.

(** The addresses freed below a page table, a directory, a pointer table and a space. *)
Definition pt_frees (s : vm) (f : Z) : list Z :=
  flat_map (fun l => let e := entry s f l in if present e then [e &. PAGE_MASK] else []) (seqZ 0 512).
Definition level_frees (sub : Z -> list Z) (s : vm) (f n : Z) : list Z :=
  flat_map (fun i => let e := entry s f i in if present e then sub (frame_of e) ++ [e &. PAGE_MASK] else []) (seqZ 0 n).
Definition pd_frees (s : vm) (f : Z) : list Z := level_frees (pt_frees s) s f 512.
Definition pdpt_frees (s : vm) (f : Z) : list Z := level_frees (pd_frees s) s f 512.
Definition frees (s : vm) (r : Z) : list Z := level_frees (pdpt_frees s) s r 256 ++ [r * PAGE_SIZE].

(** The same with what is freed below a page table given. *)
Definition frees_with (leaf : Z -> list Z) (s : vm) (r : Z) : list Z :=
  level_frees (fun g => level_frees (fun h => level_frees leaf s h 512) s g 512) s r 256 ++ [r * PAGE_SIZE].

Lemma link_not_large c : has_flag (c * PAGE_SIZE + 7) PTE_LARGEPAGE = false.
Proof.
  change PTE_LARGEPAGE with (2 ^ 7). rewrite has_flag_pow2, <- (lor_low c 7), Z.lor_spec by lia.
  change PAGE_SIZE with (2 ^ 12). by rewrite Z.mul_pow2_bits_low by lia.
Qed.

Section destroy.
  Context (k : Z) (s : vm) (m : gmap Z Z) (T : gmap Z node).
  Hypothesis Hinv : vm_inv k s m T.
Let K := kernel_root s.

Lemma destroy_pt_frees f r p : T !! f = Some (r, p) -> freeing s (destroy_pt (ptr s f)) (pt_frees s f).
Proof using Hinv.
  intros Hf. destruct (vi_node _ _ _ _ Hinv _ _ _ Hf) as (Hram & _). pose proof (vi_mem _ _ _ _ Hinv) as Hmem.
  apply freeing_each. intros l Hl%elem_of_seqZ. apply freeing_load; [done..|]. cbv zeta.
  destruct (present _); cbn [negb]; [|apply freeing_ret]. apply freeing_free. apply Z.land_nonneg. lia.
Qed.

(** One inner level, with or without the test for large pages. *)
Lemma level_freeing (walk : Z -> M vm unit) sub f r p n (large : bool) mask :
  (forall c, 0 <= c < 2 ^ 40 -> (c * PAGE_SIZE + 7) &. mask = c * PAGE_SIZE) -> T !! f = Some (r, p) -> (length p < 3)%nat -> n <= 512 ->
  (forall i c, 0 <= i < n -> T !! c = Some (home K r (p ++ [i]), p ++ [i]) -> freeing s (walk (ptr s c)) (sub c)) ->
  freeing s (for_each (seqZ 0 n) (fun i =>
    e ← load (elem (ptr s f) i);
    if negb (present e) then mret tt else
    if large && has_flag e PTE_LARGEPAGE then mret tt else
    t ← hhdm (e &. mask);
    walk t;;
    free_frame (e &. mask))) (level_frees sub s f n).
Proof using Hinv.
  intros Hmask Hf Hp Hn Hsub. destruct (vi_node _ _ _ _ Hinv _ _ _ Hf) as (Hram & _). pose proof (vi_mem _ _ _ _ Hinv) as Hmem.
  apply freeing_each. intros i Hi%elem_of_seqZ. apply freeing_load; [done..|lia|]. cbv zeta.
  destruct (present _) eqn:E; cbn [negb]; [|apply freeing_ret].
  destruct (vi_down _ _ _ _ Hinv _ _ _ i Hf Hp ltac:(lia) E) as (c & Ec & Hc). pose proof (node_frame _ _ _ _ Hinv _ _ _ Hc).
  rewrite Ec, link_not_large, andb_false_r, frame_of_link, link_mask, Hmask by lia. apply freeing_hhdm. fold (ptr s c).
  apply freeing_seq; [apply (Hsub i c); [lia|done]|]. apply freeing_free. lia.
Qed.

Lemma destroy_pd_frees f r p : T !! f = Some (r, p) -> length p = 2%nat -> freeing s (destroy_pd (ptr s f)) (pd_frees s f).
Proof using Hinv.
  intros Hf Hp. apply (level_freeing destroy_pt (pt_frees s) f r p 512 true PAGE_MASK); [intros; apply link_mask; lia|done|lia|lia|].
  intros i c _ Hc. by eapply destroy_pt_frees.
Qed.

Lemma destroy_pdpt_frees f r p : T !! f = Some (r, p) -> length p = 1%nat -> freeing s (destroy_pdpt (ptr s f)) (pdpt_frees s f).
Proof using Hinv.
  intros Hf Hp. apply (level_freeing destroy_pd (pd_frees s) f r p 512 true PAGE_MASK); [intros; apply link_mask; lia|done|lia|lia|].
  intros i c _ Hc. eapply destroy_pd_frees; [done|]. rewrite length_app, Hp. done.
Qed.

Lemma destroy_pml4_frees r : is_root T r -> freeing s (for_each (seqZ 0 256) (fun i =>
    e ← load (elem (ptr s r) i);
    if negb (present e) then mret tt else
    pdpt ← hhdm (e &. PAGE_MASK);
    destroy_pdpt pdpt;;
    free_frame (e &. PAGE_MASK))) (level_frees (pdpt_frees s) s r 256).
Proof using Hinv.
  intros Hr. apply (level_freeing destroy_pdpt (pdpt_frees s) r r [] 256 false PAGE_MASK); [intros; apply link_mask; lia|done|cbn; lia|lia|].
  intros i c _ Hc. by eapply destroy_pdpt_frees.
Qed.

(** ** What is freed *)
Lemma level_frees_in sub f r p n a : T !! f = Some (r, p) -> (length p < 3)%nat -> n <= 512 -> a ∈ level_frees sub s f n ->
  exists i c, 0 <= i < n /\ T !! c = Some (home K r (p ++ [i]), p ++ [i]) /\ (a ∈ sub c \/ a = c * PAGE_SIZE).
Proof using Hinv.
  intros Hf Hp Hn. unfold level_frees. rewrite list_elem_of_In, in_flat_map. intros (i & Hi & Ha).
  apply list_elem_of_In, elem_of_seqZ in Hi. cbv zeta in Ha. destruct (present _) eqn:E; [|done].
  destruct (vi_down _ _ _ _ Hinv _ _ _ i Hf Hp ltac:(lia) E) as (c & Ec & Hc). pose proof (node_frame _ _ _ _ Hinv _ _ _ Hc).
  rewrite Ec, frame_of_link, link_mask in Ha by lia. exists i, c. split; [lia|]. split; [done|].
  apply in_app_iff in Ha as [Ha|[<-|[]]]; [left|by right]. by apply list_elem_of_In.
Qed.

Lemma level_frees_has sub f r p n i c a : T !! f = Some (r, p) -> T !! c = Some (r, p ++ [i]) -> 0 <= i < n ->
  a ∈ sub c \/ a = c * PAGE_SIZE -> a ∈ level_frees sub s f n.
Proof using Hinv.
  intros Hf Hc Hi Ha. destruct (vi_up _ _ _ _ Hinv _ _ _ _ Hc) as (g & Hg & Eg).
  rewrite (vi_inj _ _ _ _ Hinv g f _ Hg Hf) in Eg. pose proof (node_frame _ _ _ _ Hinv _ _ _ Hc).
  unfold level_frees. rewrite list_elem_of_In, in_flat_map. exists i. split; [apply list_elem_of_In, elem_of_seqZ; lia|].
  cbv zeta. rewrite Eg, link_present, frame_of_link, link_mask by lia. apply in_app_iff.
  destruct Ha as [Ha| ->]; [left; by apply list_elem_of_In|right; by left].
Qed.

Lemma pt_frees_in f a : a ∈ pt_frees s f -> exists l, 0 <= l < 512 /\ present (entry s f l) = true /\ a = entry s f l &. PAGE_MASK.
Proof using.
  unfold pt_frees. rewrite list_elem_of_In, in_flat_map. intros (l & Hl & Ha). apply list_elem_of_In, elem_of_seqZ in Hl.
  cbv zeta in Ha. exists l. destruct (present _); [|done]. destruct Ha as [<-|[]]. split; [lia|done].
Qed.

Section space.
  Context (r : Z).
  Hypothesis Hr : is_root T r.
  Hypothesis HrK : r <> K.

Lemma tables_freed leaf x p : T !! x = Some (r, p) -> x * PAGE_SIZE ∈ frees_with leaf s r.
Proof using Hinv Hr HrK.
  intros Hx. unfold frees_with. apply elem_of_app. destruct (vi_node _ _ _ _ Hinv _ _ _ Hx) as (_ & _ & _ & Hl & Hidx & Hh & _).
  assert (forall i q, p = i :: q -> 0 <= i < 256) as Hfirst.
  { intros i q ->. apply Forall_cons in Hidx as [? _]. cbn in Hh. destruct (Z.leb_spec 256 i); [by subst r|lia]. }
  assert (forall i q, p = q ++ [i] -> 0 <= i < 512) as Hlast.
  { intros i q ->. by apply Forall_app in Hidx as [_ [? _]%Forall_cons]. }
  destruct p as [|i [|j [|l [|]]]]; cbn in Hl; try lia.
  - right. apply list_elem_of_singleton. by rewrite (vi_inj _ _ _ _ Hinv x r _ Hx Hr).
  - left. apply (level_frees_has _ r r [] 256 i x); [done..|by eapply Hfirst|by right].
  - left. destruct (vi_up _ _ _ _ Hinv x r [i] j Hx) as (g & Hg & _).
    apply (level_frees_has _ r r [] 256 i g); [done..|by eapply Hfirst|left].
    apply (level_frees_has _ g r [i] 512 j x); [done..|by apply (Hlast j [i])|by right].
  - left. destruct (vi_up _ _ _ _ Hinv x r [i; j] l Hx) as (h & Hh' & _). destruct (vi_up _ _ _ _ Hinv h r [i] j Hh') as (g & Hg & _).
    apply (level_frees_has _ r r [] 256 i g); [done..|by eapply Hfirst|left].
    apply (level_frees_has _ g r [i] 512 j h); [done..| |left].
    + apply Forall_cons in Hidx as [_ [? _]%Forall_cons]. done.
    + apply (level_frees_has _ h r [i; j] 512 l x); [done..|by apply (Hlast l [i; j])|by right].
Qed.

(** The entry of a page whose page table is known. *)
Lemma pte_at c i j l n : T !! c = Some (r, [i; j; l]) -> 0 <= n < 512 ->
  exists va, table_path va = [i; j; l] /\ pt_index va = n /\ pte s r va = kept (entry s c n).
Proof using Hinv Hr.
  intros Hc Hn. destruct (vi_node _ _ _ _ Hinv _ _ _ Hc) as (_ & _ & _ & _ & Hidx & _).
  apply Forall_cons in Hidx as [Hi [Hj [Hl _]%Forall_cons]%Forall_cons].
  destruct (make_va_indices i j l n Hi Hj Hl Hn) as [Ep Ei]. exists (make_va i j l n). split; [done|]. split; [done|].
  destruct (node_at_root k s m T Hinv _ _ _ Hc) as [_ Hn']. unfold pte. by rewrite Ep, Hn', Ei.
Qed.

Lemma freed_with leaf a : a ∈ frees_with leaf s r ->
  (exists x p, a = x * PAGE_SIZE /\ T !! x = Some (r, p)) \/
  (exists c i j l, T !! c = Some (r, [i; j; l]) /\ i < 256 /\ a ∈ leaf c).
Proof using Hinv Hr HrK.
  unfold frees_with. intros [Ha|Ha%list_elem_of_singleton]%elem_of_app; [|left; by exists r, []].
  apply (level_frees_in _ r r []) in Ha as (i & g & Hi & Hg & Ha); [|done|cbn; lia|lia].
  assert (home K r [i] = r) as Hh by (cbn; destruct (Z.leb_spec 256 i); [lia|done]). cbn [app] in Hg. rewrite Hh in Hg.
  destruct Ha as [Ha| ->]; [|left; eauto].
  apply (level_frees_in _ g r [i]) in Ha as (j & h & Hj & Hg' & Ha); [|done|cbn; lia|lia].
  rewrite home_snoc, Hh in Hg' by done. destruct Ha as [Ha| ->]; [|left; eauto].
  apply (level_frees_in _ h r [i; j]) in Ha as (l & c & Hl & Hc & Ha); [|done|cbn; lia|lia].
  change (home K r ([i; j] ++ [l])) with (home K r [i]) in Hc. rewrite Hh in Hc. destruct Ha as [Ha| ->]; [|left; eauto].
  right. exists c, i, j, l. split; [done|]. split; [lia|done].
Qed.

Lemma frees_frees_with : frees s r = frees_with (pt_frees s) s r.
Proof using. unfold frees, frees_with, pdpt_frees. by unfold pd_frees. Qed.

Lemma freed_by a : a ∈ frees s r ->
  (exists x p, a = x * PAGE_SIZE /\ T !! x = Some (r, p)) \/
  (exists va e, pml4_index va < 256 /\ pte s r va = Some e /\ a = e &. PAGE_MASK).
Proof using Hinv Hr HrK.
  rewrite frees_frees_with. intros [|(c & i & j & l & Hc & Hi & Ha)]%freed_with; [by left|right].
  apply pt_frees_in in Ha as (n & Hn & Ep & ->). destruct (pte_at c i j l n Hc Hn) as (va & Eva & _ & Ev).
  exists va, (entry s c n). unfold kept in Ev. rewrite Ep in Ev. split; [|done]. unfold table_path in Eva. by injection Eva as -> _ _.
Qed.
End space.
End destroy.

(** ** The pages of the lower half *)

(** The present entries of all pages of the lower half, in the order of the addresses. *)
Definition user_ptes (s : vm) (r : Z) : list Z := omap (fun n => pte s r (n * PAGE_SIZE)) (seqZ 0 (2 ^ 35)).

Lemma flat_map_blocks {A} (G : Z -> list A) B : 0 <= B -> forall n : nat,
  flat_map (fun b => flat_map (fun k => G (b * B + k)) (seqZ 0 B)) (seqZ 0 (Z.of_nat n)) = flat_map G (seqZ 0 (Z.of_nat n * B)).
Proof.
  intros HB. induction n as [|n IH]; [done|]. rewrite Nat2Z.inj_succ, <- Z.add_1_r, seqZ_app by lia.
  rewrite flat_map_app, IH. replace ((Z.of_nat n + 1) * B) with (Z.of_nat n * B + B) by lia.
  rewrite seqZ_app, flat_map_app by lia. f_equal. rewrite !Z.add_0_l, (seqZ_cons (Z.of_nat n) 1), (seqZ_nil _ (Z.pred 1)) by lia.
  cbn [flat_map]. rewrite app_nil_r, <- (Z.add_0_r (Z.of_nat n * B)), <- fmap_add_seqZ, !flat_map_concat_map. f_equal.
  generalize (seqZ 0 B). intros l. induction l as [|x l IHl]; [done|]. cbn. f_equal; [f_equal; lia|apply IHl].
Qed.

Lemma flat_map_omap {A} (h : Z -> option A) l : flat_map (fun n => match h n with Some e => [e] | None => [] end) l = omap h l.
Proof. induction l as [|n l IH]; [done|]. cbn. rewrite IH. by destruct (h n). Qed.

Lemma user_ptes_blocks s r : user_ptes s r =
  flat_map (fun i => flat_map (fun j => flat_map (fun k =>
    flat_map (fun l => match pte s r (make_va i j k l) with Some e => [e] | None => [] end)
      (seqZ 0 512)) (seqZ 0 512)) (seqZ 0 512)) (seqZ 0 256).
Proof.
  set (G0 := fun n => match pte s r (n * PAGE_SIZE) with Some e => [e] | None => [] end).
  set (G1 := fun a => flat_map (fun l => G0 (a * 512 + l)) (seqZ 0 512)).
  set (G2 := fun b => flat_map (fun k => G1 (b * 512 + k)) (seqZ 0 512)).
  change (user_ptes s r = flat_map (fun i => flat_map (fun j => G2 (i * 512 + j)) (seqZ 0 512)) (seqZ 0 (Z.of_nat 256))).
  rewrite flat_map_blocks by lia. change (Z.of_nat 256 * 512) with (Z.of_nat (Z.to_nat (2 ^ 17))). unfold G2.
  rewrite flat_map_blocks by lia. replace (Z.of_nat (Z.to_nat (2 ^ 17)) * 512) with (Z.of_nat (Z.to_nat (2 ^ 26))) by lia. unfold G1.
  rewrite flat_map_blocks by lia. replace (Z.of_nat (Z.to_nat (2 ^ 26)) * 512) with (2 ^ 35) by lia.
  unfold user_ptes. symmetry. apply flat_map_omap.
Qed.

(** How many entries of a list name the frame [x]. *)
Definition mapped (x : Z) (l : list Z) : nat := length (List.filter (fun e => frame_of e =? x) l).

Lemma named_app x l1 l2 : named x (l1 ++ l2) = (named x l1 + named x l2)%nat.
Proof. unfold named. by rewrite List.filter_app, length_app. Qed.
Lemma mapped_app x l1 l2 : mapped x (l1 ++ l2) = (mapped x l1 + mapped x l2)%nat.
Proof. unfold mapped. by rewrite List.filter_app, length_app. Qed.

Lemma named_flat {A} x (g g' : A -> list Z) l : (forall y, y ∈ l -> named x (g y) = mapped x (g' y)) ->
  named x (flat_map g l) = mapped x (flat_map g' l).
Proof.
  induction l as [|y l IH]; intros H; [done|]. cbn [flat_map]. rewrite named_app, mapped_app, H by by left.
  f_equal. apply IH. intros z Hz. apply H. by right.
Qed.

Section count.
  Context (k : Z) (s : vm) (m : gmap Z Z) (T : gmap Z node) (r x : Z).
  Hypothesis Hinv : vm_inv k s m T.
  Hypothesis Hr : is_root T r.
  Hypothesis HrK : r <> kernel_root s.
  Hypothesis Hx : T !! x = None.
  Hypothesis Hx0 : x <> 0.

Lemma level_named sub sub' f p n : T !! f = Some (r, p) -> (length p < 3)%nat -> n <= 512 -> (p = [] -> n <= 256) ->
  (forall i c, 0 <= i < n -> T !! c = Some (r, p ++ [i]) -> named x (sub c) = mapped x (sub' i)) ->
  (forall i, 0 <= i < n -> present (entry s f i) = false -> sub' i = []) ->
  named x (level_frees sub s f n) = mapped x (flat_map sub' (seqZ 0 n)).
Proof using Hinv HrK Hx.
  intros Hf Hp Hn Hn' Hsub Habs. apply named_flat. intros i Hi%elem_of_seqZ. cbv zeta.
  destruct (present _) eqn:E; [|by rewrite Habs by (done || lia)].
  destruct (vi_down _ _ _ _ Hinv _ _ _ i Hf Hp ltac:(lia) E) as (c & Ec & Hc). pose proof (node_frame _ _ _ _ Hinv _ _ _ Hc).
  assert (home (kernel_root s) r (p ++ [i]) = r) as Hh.
  { destruct (vi_node _ _ _ _ Hinv _ _ _ Hf) as (_ & _ & _ & _ & _ & Hh & _). destruct p as [|i0 p]; [|by rewrite home_snoc].
    cbn. destruct (Z.leb_spec 256 i); [specialize (Hn' eq_refl); lia|done]. }
  rewrite Hh in Hc. rewrite Ec, frame_of_link, link_mask, named_app, (Hsub i c) by (done || lia).
  unfold named. cbn [List.filter]. replace (c * PAGE_SIZE / PAGE_SIZE) with c by zlia.
  destruct (Z.eqb_spec c x) as [->|]; [by rewrite Hx in Hc|]. rewrite andb_false_r. cbn. lia.
Qed.

Lemma pt_named c i j l : T !! c = Some (r, [i; j; l]) ->
  named x (pt_frees s c) = mapped x (flat_map (fun n => match pte s r (make_va i j l n) with Some e => [e] | None => [] end) (seqZ 0 512)).
Proof using Hinv Hx0.
  intros Hc. apply named_flat. intros n Hn%elem_of_seqZ. cbv zeta.
  destruct (vi_node _ _ _ _ Hinv _ _ _ Hc) as (_ & _ & _ & _ & Hidx & _).
  apply Forall_cons in Hidx as [Hi [Hj [Hl _]%Forall_cons]%Forall_cons].
  destruct (make_va_indices i j l n Hi Hj Hl ltac:(lia)) as [Ep Ei]. destruct (node_at_root k s m T Hinv _ _ _ Hc) as [_ Hn'].
  unfold pte. rewrite Ep, Hn', Ei. cbv zeta. destruct (present _); [|done]. unfold named, mapped, frame_of. cbn [List.filter].
  destruct (Z.eqb_spec (entry s c n &. PAGE_MASK) 0) as [->|]; cbn [negb andb].
  - change (0 / PAGE_SIZE) with 0. by destruct (Z.eqb_spec 0 x); [congruence|].
  - by destruct (_ =? x).
Qed.

(** No page below an absent table. *)
Lemma absent_ptes f p i q va : T !! f = Some (r, p) -> present (entry s f i) = false -> table_path va = p ++ i :: q -> pte s r va = None.
Proof using Hinv.
  intros Hf E Ep. destruct (node_at_root k s m T Hinv _ _ _ Hf) as [_ Hn]. unfold pte. rewrite Ep, node_at_app, Hn. cbn. by rewrite E.
Qed.

Lemma flat_map_nil {A} (g : A -> list Z) l : (forall y, y ∈ l -> g y = []) -> flat_map g l = [].
Proof using.
  induction l as [|y l IH]; intros H; [done|]. cbn [flat_map]. rewrite H by by left. apply IH. intros z Hz. apply H. by right.
Qed.

Lemma frees_named : x <> r -> named x (frees s r) = mapped x (user_ptes s r).
Proof using Hinv Hr HrK Hx Hx0.
  intros Hxr. rewrite user_ptes_blocks. unfold frees. rewrite named_app.
  assert (named x [r * PAGE_SIZE] = 0%nat) as ->.
  { unfold named. cbn [List.filter]. replace (r * PAGE_SIZE / PAGE_SIZE) with r by zlia.
    destruct (Z.eqb_spec r x); [congruence|]. by rewrite andb_false_r. }
  rewrite Nat.add_0_r. apply (level_named _ _ r []); [done|cbn; lia|lia|lia| |].
  - intros i f Hi Hf. apply (level_named _ _ f [i]); [done|cbn; lia|lia|done| |].
    + intros j g Hj Hg. apply (level_named _ _ g [i; j]); [done|cbn; lia|lia|done| |].
      * intros l c Hl Hc. by apply pt_named.
      * intros l Hl E. apply flat_map_nil. intros n Hn%elem_of_seqZ.
        destruct (make_va_indices i j l n) as [Ep _]; [lia..|]. by rewrite (absent_ptes g [i; j] l []).
    + intros j Hj E. apply flat_map_nil. intros l Hl%elem_of_seqZ. apply flat_map_nil. intros n Hn%elem_of_seqZ.
      destruct (make_va_indices i j l n) as [Ep _]; [lia..|]. by rewrite (absent_ptes f [i] j [l]).
  - intros i Hi E. apply flat_map_nil. intros j Hj%elem_of_seqZ. apply flat_map_nil. intros l Hl%elem_of_seqZ.
    apply flat_map_nil. intros n Hn%elem_of_seqZ.
    destruct (make_va_indices i j l n) as [Ep _]; [lia..|]. by rewrite (absent_ptes r [] i [j; l]).
Qed.
End count.

(** ** Destruction *)

(** The pages that the lower half of the space maps are ordinary memory and no tables, or not
    managed at all. *)
Definition clean (s : vm) (m : gmap Z Z) (T : gmap Z node) (r : Z) : Prop := forall va e, pml4_index va < 256 ->
  pte s r va = Some e -> m !! frame_of e = None \/ (is_Some (ram s !! frame_of e) /\ T !! frame_of e = None).

Definition without (r : Z) (T : gmap Z node) : gmap Z node := filter (fun fn => fn.2.1 <> r) T.

Lemma without_lookup r T f n : without r T !! f = Some n <-> T !! f = Some n /\ n.1 <> r.
Proof. unfold without. by rewrite map_lookup_filter_Some. Qed.

(** The addresses [l] of the tables of [r], and of pages that are no tables, are freed. *)
Section unroot.
  Context (k : Z) (s : vm) (m : gmap Z Z) (T : gmap Z node) (r : Z) (l : list Z).
  Hypothesis Hinv : vm_inv k s m T.
  Hypothesis HrK : r <> kernel_root s.
  Hypothesis Hslots : forall j, get (address_space_pool s) j <> Some (ptr s r).
  Hypothesis Hfreed : forall f, (0 < named f l)%nat -> is_Some (m !! f) ->
    f <> 0 /\ is_Some (ram s !! f) /\ forall r' p, T !! f = Some (r', p) -> r' = r.

Lemma dropped_other f r' p : T !! f = Some (r', p) -> r' <> r -> drop_all m l !! f = Some 1.
Proof using Hinv Hfreed.
  intros Hf Hne. destruct (vi_node _ _ _ _ Hinv _ _ _ Hf) as (_ & Hm & _). rewrite drop_all_lookup, Hm.
  destruct (named f l) as [|n] eqn:E; [done|]. destruct (Hfreed f) as (_ & _ & H); [lia|by rewrite Hm|].
  by apply H in Hf.
Qed.

Lemma unroot_inv p : pmm_rep k p (drop_all m l) -> total_pages p = total_pages (phys_pages s) ->
  vm_inv k (set_pmm s p) (drop_all m l) (without r T).
Proof using Hinv HrK Hslots Hfreed.
  intros Hp Ht.
  split; [done|apply (vi_hhdm _ _ _ _ Hinv)|cbn; rewrite Ht; apply (vi_total _ _ _ _ Hinv)|apply (vi_frame _ _ _ _ Hinv)|
    | | | | | |apply (vi_pool _ _ _ _ Hinv)| |apply (vi_slots _ _ _ _ Hinv)|apply (vi_next _ _ _ _ Hinv)|].
  - intros f Hf. cbn in Hf |- *. rewrite Ht in Hf. rewrite drop_all_lookup. destruct (m !! f) as [c|] eqn:Em.
    + destruct (named f l) eqn:En; cbn; [done|]. intros _. apply Hfreed; [lia|by rewrite Em].
    + intros _. by apply (vi_free _ _ _ _ Hinv).
  - intros f r' q [Hf Hne]%without_lookup. cbn in Hne. destruct (vi_node _ _ _ _ Hinv _ _ _ Hf) as (? & _ & ?). split; [done|].
    split; [by eapply dropped_other|done].
  - intros f g n [Hf _]%without_lookup [Hg _]%without_lookup. by eapply (vi_inj _ _ _ _ Hinv).
  - intros f r' q j [Hf Hne]%without_lookup Hq Hj E. destruct (vi_down _ _ _ _ Hinv _ _ _ _ Hf Hq Hj E) as (c & Ec & Hc).
    exists c. split; [done|]. apply without_lookup. split; [done|]. cbn in *. destruct (q ++ [j]) as [|j' ?]; [done|]. cbn.
    by destruct (256 <=? j'); [apply not_eq_sym|].
  - intros f r' q j [Hf Hne]%without_lookup. destruct (vi_up _ _ _ _ Hinv _ _ _ _ Hf) as (g & Hg & E). exists g.
    split; [by apply without_lookup|done].
  - destruct (vi_kernel _ _ _ _ Hinv). split; [|done]. apply without_lookup. split; [done|]. cbn. by apply not_eq_sym.
  - intros j t Hj H0. destruct (vi_slot _ _ _ _ Hinv j t Hj H0) as (r' & -> & Hr' & ?). exists r'.
    split; [done|]. split; [|done]. apply without_lookup. split; [done|]. cbn. intros ->. by apply Hslots in Hj.
  - rewrite drop_all_lookup. pose proof (vi_zero _ _ _ _ Hinv) as H0. destruct (named 0 l) as [|n] eqn:E.
    + by destruct (m !! 0); [|destruct H0].
    + destruct (Hfreed 0); [lia|done|done].
Qed.
End unroot.

(** A slot of the pool becomes empty. *)
Lemma unslot_inv k s m T i : vm_inv k s m T -> 0 <= i < Z.of_nat (length (address_space_pool s)) ->
  vm_inv k {| s with address_space_pool := upd (address_space_pool s) i 0 |} m T.
Proof.
  intros Hinv Hi.
  split; [apply (vi_pmm _ _ _ _ Hinv)|apply (vi_hhdm _ _ _ _ Hinv)|apply (vi_total _ _ _ _ Hinv)|apply (vi_frame _ _ _ _ Hinv)|
    apply (vi_free _ _ _ _ Hinv)|apply (vi_node _ _ _ _ Hinv)|apply (vi_inj _ _ _ _ Hinv)|apply (vi_down _ _ _ _ Hinv)|
    apply (vi_up _ _ _ _ Hinv)|apply (vi_kernel _ _ _ _ Hinv)| | | |apply (vi_next _ _ _ _ Hinv)|apply (vi_zero _ _ _ _ Hinv)].
  - cbn. rewrite length_upd. apply (vi_pool _ _ _ _ Hinv).
  - intros j t Ht H0. cbn in Ht. destruct (decide (j = i)) as [->|]; [rewrite get_upd_eq in Ht by done; congruence|].
    rewrite get_upd_ne in Ht by lia. by apply (vi_slot _ _ _ _ Hinv) in Ht.
  - intros j j' t. cbn. destruct (decide (j = i)) as [->|], (decide (j' = i)) as [->|];
      rewrite ?get_upd_eq, ?get_upd_ne by (done || lia); [done| | |apply (vi_slots _ _ _ _ Hinv)]; congruence.
Qed.

Section destroyed.
  Context (k : Z) (s : vm) (m : gmap Z Z) (T : gmap Z node) (i r : Z).
  Hypothesis Hinv : vm_inv k s m T.
  Hypothesis Hslot : get (address_space_pool s) i = Some (ptr s r).
  Hypothesis Hr : is_root T r.
  Hypothesis HrK : r <> kernel_root s.
  Hypothesis Hclean : clean s m T r.

Lemma freed_frame f : (0 < named f (frees s r))%nat -> is_Some (m !! f) ->
  f <> 0 /\ is_Some (ram s !! f) /\ forall r' p, T !! f = Some (r', p) -> r' = r.
Proof using Hinv Hr HrK Hclean.
  intros (a & Ha & H0 & <-)%named_pos Hm. destruct (freed_by k s m T Hinv r Hr HrK a Ha) as [(x & p & -> & Hx)|(va & e & Hva & He & ->)].
  - replace (x * PAGE_SIZE / PAGE_SIZE) with x by zlia. destruct (vi_node _ _ _ _ Hinv _ _ _ Hx) as (? & _ & ? & _).
    split_and!; [done..|]. intros r' p' E. congruence.
  - fold (frame_of e) in *. assert (frame_of e <> 0) as Hne.
    { unfold pte in He. destruct (node_at _ _ _) as [g|]; [|done]. cbv zeta in He. destruct (present _); [|done]. injection He as <-.
      unfold frame_of in *. rewrite page_mask in * by (by eapply entry_u64). zlia. }
    destruct (Hclean va e Hva He) as [E|[? E]]; [by rewrite E in Hm; destruct Hm|]. split_and!; [done..|]. intros r' p'. by rewrite E.
Qed.

Lemma destroyed_inv p : pmm_rep k p (drop_all m (frees s r)) -> total_pages p = total_pages (phys_pages s) ->
  vm_inv k {| (set_pmm s p) with address_space_pool := upd (address_space_pool s) i 0 |} (drop_all m (frees s r)) (without r T).
Proof using Hinv Hslot Hr HrK Hclean.
  intros Hp Ht. destruct (get_Some_bound _ _ _ Hslot) as [Hi0 Hi1].
  apply (unroot_inv k {| s with address_space_pool := upd (address_space_pool s) i 0 |} m T r (frees s r)); try done.
  - by apply unslot_inv.
  - intros j Hj. cbn in Hj. assert (ptr s r <> 0) as H0.
    { apply (ptr_nonzero k s m T); [done|]. pose proof (node_frame _ _ _ _ Hinv _ _ _ Hr). lia. }
    change (ptr {| s with address_space_pool := upd (address_space_pool s) i 0 |} r) with (ptr s r) in Hj.
    destruct (decide (j = i)) as [->|Hne]; [rewrite get_upd_eq in Hj by done; congruence|]. rewrite get_upd_ne in Hj by lia.
    by apply (vi_slots _ _ _ _ Hinv j i) in Hj.
  - apply freed_frame.
Qed.
End destroyed.

Lemma destroy_spec k s m T i r : vm_inv k s m T -> get (address_space_pool s) i = Some (ptr s r) -> is_root T r -> r <> kernel_root s ->
  wp (vmm_destroy_address_space (Some (Pool_space i))) (fun _ s' => exists p,
    s' = {| (set_pmm s p) with address_space_pool := upd (address_space_pool s) i 0 |} /\
    pmm_rep k p (drop_all m (frees s r)) /\ total_pages p = total_pages (phys_pages s)) s.
Proof.
  intros Hinv Hslot Hr HrK. pose proof (node_frame _ _ _ _ Hinv _ _ _ Hr) as Hfr.
  unfold vmm_destroy_address_space. do 2 wp_step. unfold top_level. rewrite Hslot. change (default 0 (Some (ptr s r))) with (ptr s r).
  destruct (Z.eqb_spec (ptr s r) 0) as [E|_]; [by apply (ptr_nonzero k s m T) in E; [|done|lia]|].
  wp_step. eapply wp_mono; [|exact (freeing_start s _ _ k m (destroy_pml4_frees k s m T Hinv r Hr) (vi_pmm _ _ _ _ Hinv))].
  intros u s1 (p1 & -> & Hp1 & Ht1). do 2 wp_step. change (g_hhdm_offset (set_pmm s p1)) with (g_hhdm_offset s).
  rewrite phys_ptr by lia. wp_step. eapply wp_mono; [|apply (freeing_free s (r * PAGE_SIZE) ltac:(lia) k p1 _ Hp1)].
  intros u' s2 (p2 & -> & Hp2 & Ht2). unfold set_top_level. wp_step. exists p2. split; [done|]. split; [|congruence].
  unfold frees, drop_all in *. by rewrite foldl_app.
Qed.
