(* ===== verification/VmmInit.v ===== *)
(** * The kernel's address space (vmm_map_range and vmm_init of vmm.c)

    [vmm_map_range] maps every page of a range, and [vmm_init] builds the kernel's space
    from an empty table: at the end its translation is the one that the list of ranges
    describes, the later ones first, and nothing else is mapped. *)
From S2P Require Import Prelude Bytes Pmm StateM Vmm VmmInv VmmMap VmmSpace.
Local Open Scope Z_scope.
Local Open Scope c_scope.

(** ** A range *)
Record range := Range { r_virt : Z; r_phys : Z; r_size : Z; r_flags : Z }.

Definition r_pages (r : range) : Z := align_up (u64 (r_size r + (r_virt r - align_down (r_virt r)))) / PAGE_SIZE.

(** The entry of the page [d] of a range, and the translation of page numbers that a range
    adds to [f]. *)
Definition range_entry (r : range) (d : Z) : Z := u64 (align_down (r_phys r) + d * PAGE_SIZE) |. r_flags r.
Definition add_range (f : Z -> option Z) (r : range) (p : Z) : option Z :=
  let d := (p - vpn (r_virt r)) mod 2 ^ 36 in if d <? r_pages r then Some (range_entry r d) else f p.
Definition translation (rs : list range) : Z -> option Z := foldl add_range (fun _ => None) rs.

(** A range that does not meet itself. *)
Record range_ok (r : range) : Prop := {
  ro_virt : in_u 64 (r_virt r);
  ro_flags : in_u 64 (r_flags r);
  ro_present : has_flag (r_flags r) PTE_PRESENT = true;
  ro_pages : r_pages r <= 2 ^ 36
}.

Lemma vpn_offset v d : vpn (u64 (v + d * PAGE_SIZE)) = (vpn v + d) mod 2 ^ 36.
Proof. unfold vpn, wrap. zlia. Qed.

Lemma vpn_align v : in_u 64 v -> vpn (align_down v) = vpn v.
Proof. intros Hv. unfold vpn, align_down. rewrite page_mask by done. zlia. Qed.

Lemma kept_entry r d : has_flag (r_flags r) PTE_PRESENT = true -> kept (range_entry r d) = Some (range_entry r d).
Proof.
  unfold kept, present, range_entry. change PTE_PRESENT with (2 ^ 0). rewrite !has_flag_pow2 by lia. intros H.
  by rewrite Z.lor_spec, H, orb_true_r.
Qed.

Section kernel.
  Context (k : Z).

(** Some pages of the range, from page [j], in the kernel's space. *)
Lemma map_range_loop_spec r n : range_ok r -> forall j s m T, vm_inv k s m T -> 0 <= j -> j + Z.of_nat n <= r_pages r ->
  wp (map_range_loop (Some Kernel_space) (align_down (r_virt r)) (align_down (r_phys r)) (j * PAGE_SIZE) (r_flags r) n)
    (fun ok s' => exists m' T', vm_inv k s' m' T' /\ vm_ext s s' m m' T T' /\
      if (ok : bool) then forall va, pte s' (kernel_root s) va =
        let d := (vpn va - vpn (r_virt r)) mod 2 ^ 36 in if (j <=? d) && (d <? j + Z.of_nat n) then Some (range_entry r d) else pte s (kernel_root s) va
      else exhausted s m') s.
Proof using.
  intros [Hv Hfl Hpr Hpages]. induction n as [|n IH]; intros j s m T Hinv Hj Hn; cbn [map_range_loop].
  { wp_step. exists m, T. split; [done|]. split; [apply vm_ext_refl|]. intros va. cbv zeta.
    by destruct (Z.leb_spec j ((vpn va - vpn (r_virt r)) mod 2 ^ 36)), (Z.ltb_spec ((vpn va - vpn (r_virt r)) mod 2 ^ 36) (j + Z.of_nat 0)); cbn; try lia. }
  destruct (vi_kernel _ _ _ _ Hinv) as [HK EK].
  wp_step. eapply wp_mono; [|apply (map_space_spec k s m T Kernel_space (kernel_root s)); try done; [by left|]].
  2: { apply in_u_lor; [lia|by apply wrap_bound|done]. }
  fold (range_entry r j). intros [] s1 (m1 & T1 & Hinv1 & He1 & _ & H1); cbv iota.
  2: { wp_step. exists m1, T1. split; [done|]. split; [done|]. apply H1. }
  replace (j * PAGE_SIZE + PAGE_SIZE) with ((j + 1) * PAGE_SIZE) by lia.
  eapply wp_mono; [|apply (IH (j + 1) s1 m1 T1 Hinv1); lia]. intros ok s2 (m2 & T2 & Hinv2 & He2 & H2). exists m2, T2.
  split; [done|]. split; [by eapply vm_ext_trans|]. rewrite (vm_ext_root _ _ _ _ _ _ He1) in H2. destruct ok; last first.
  { intros i Hi. apply H2. by rewrite (ve_total _ _ _ _ _ _ He1). }
  intros va. rewrite H2, (H1 (kernel_root s) va HK ltac:(by left)), kept_entry by done.
  rewrite vpn_offset, vpn_align by done. cbv zeta. set (d := (vpn va - vpn (r_virt r)) mod 2 ^ 36).
  assert (kernel_root s = kernel_root s /\ vpn va = (vpn (r_virt r) + j) mod 2 ^ 36 <-> d = j) as Hd.
  { assert (0 <= vpn va < 2 ^ 36) by (unfold vpn; zlia). assert (0 <= vpn (r_virt r) < 2 ^ 36) by (unfold vpn; zlia). subst d. split; [intros [_ E]; rewrite E; zlia|].
    intros E. split; [done|]. zlia. }
  rewrite (bool_decide_ext _ _ Hd). case_bool_decide as Ed;
    destruct (Z.leb_spec (j + 1) d), (Z.leb_spec j d), (Z.ltb_spec d (j + 1 + Z.of_nat n)), (Z.ltb_spec d (j + Z.of_nat (S n))); cbn [andb];
    solve [lia|done|by rewrite Ed].
Qed.

(** The kernel's space translates by [F], in a state that grew from [s0]. *)
Definition boots (s0 : vm) (m0 : gmap Z Z) (T0 : gmap Z node) (F : Z -> option Z) (ok : bool) (s : vm) : Prop :=
  exists m T, vm_inv k s m T /\ vm_ext s0 s m0 m T0 T /\
    if ok then forall va, pte s (kernel_root s0) va = F (vpn va) else exhausted s0 m.

Lemma map_range_spec r s0 m0 T0 F s : range_ok r -> boots s0 m0 T0 F true s ->
  wp (vmm_map_range (Some Kernel_space) (r_virt r) (r_phys r) (r_size r) (r_flags r)) (boots s0 m0 T0 (add_range F r)) s.
Proof using.
  intros Hr (m & T & Hinv & He & HF). unfold vmm_map_range. fold (r_pages r). change 0 with (0 * PAGE_SIZE) at 1.
  assert (0 <= r_pages r) by (unfold r_pages, align_up; apply Z.div_pos; [apply Z.land_nonneg; lia|lia]).
  eapply wp_mono; [|apply (map_range_loop_spec r (Z.to_nat (r_pages r)) Hr 0 s m T Hinv); lia].
  intros ok s' (m' & T' & Hinv' & He' & H'). exists m', T'. split; [done|]. split; [by eapply vm_ext_trans|].
  rewrite (vm_ext_root _ _ _ _ _ _ He) in H'. destruct ok.
  - intros va. rewrite H', HF, Z2Nat.id by lia. unfold add_range. cbv zeta. set (d := _ mod 2 ^ 36).
    assert (0 <= d) by (subst d; zlia). by destruct (Z.leb_spec 0 d); [|lia].
  - intros i Hi. apply H'. by rewrite (ve_total _ _ _ _ _ _ He).
Qed.

(** A loop over ranges. *)
Lemma map_ranges_spec {A} (g : A -> range) l s0 m0 T0 rs s : Forall (fun a => range_ok (g a)) l -> boots s0 m0 T0 (translation rs) true s ->
  wp (for_all l (fun a => vmm_map_range (Some Kernel_space) (r_virt (g a)) (r_phys (g a)) (r_size (g a)) (r_flags (g a))))
    (boots s0 m0 T0 (translation (rs ++ map g l))) s.
Proof using.
  intros Hok. revert rs s. induction Hok as [|a l Ha Hl IH]; intros rs s Hs; cbn [for_all map].
  { wp_step. by rewrite app_nil_r. }
  wp_step. eapply wp_mono; [|by eapply (map_range_spec (g a)); [|exact Hs]]. intros [] s1 H1; cbv iota.
  - rewrite cons_middle, app_assoc. apply IH. unfold translation. by rewrite foldl_app.
  - by wp_step.
Qed.
End kernel.

(** ** Initialisation *)
Definition boot_ranges (memmap : list memmap_entry) (fbs : list framebuffer) (kernel_phys_base kernel_virt_base hhdm_offset : Z) : list range :=
  map (fun e => Range (u64 (e_base e + hhdm_offset)) (e_base e) (e_length e) (PTE_PRESENT |. PTE_WRITABLE |. PTE_NX)) memmap ++
  [Range kernel_virt_base kernel_phys_base (256 * 1024 * 1024) (PTE_PRESENT |. PTE_WRITABLE)] ++
  map (fun fb => Range (u64 (fb_address fb + hhdm_offset)) (fb_address fb) (u64 (fb_height fb * fb_pitch fb))
    (PTE_PRESENT |. PTE_WRITABLE |. PTE_NX)) fbs.

(** The machine before the call: every free page is memory, no space exists. *)
Record before_init (k : Z) (s : vm) (m : gmap Z Z) : Prop := {
  bi_pmm : pmm_rep k (phys_pages s) m;
  bi_total : total_pages (phys_pages s) <= 2 ^ 35;
  bi_mem : mem_ok s;
  bi_free : forall f, 0 <= f < total_pages (phys_pages s) -> m !! f = None -> is_Some (ram s !! f);
  bi_zero : is_Some (m !! 0);
  bi_pool : address_space_pool s = replicate 32 0;
  bi_next : next_address_space_idx s = 0
}.

(** An empty table becomes the kernel's. *)
Section boot.
  Context (k : Z) (s : vm) (m : gmap Z Z) (c : Z) (pm : pmm).
  Hypothesis Hbi : before_init k s m.
  Hypothesis Hoff : 0 < g_hhdm_offset s <= 2 ^ 64 - 2 ^ 47.
  Hypothesis Hc : m !! c = None.
  Hypothesis Hcr : 0 < c < total_pages (phys_pages s).
  Hypothesis Hpm : pmm_rep k pm (<[c := 1]> m).
  Hypothesis Htot : total_pages pm = total_pages (phys_pages s).
Let s1 := set_frame {| (set_pmm s pm) with kernel_space := ptr s c |} c zero_page.

Lemma boot_root : kernel_root s1 = c.
Proof using Hbi Hcr.
  pose proof (bi_total _ _ _ Hbi). change (kernel_root s1) with (u64 (ptr s c - g_hhdm_offset s) / PAGE_SIZE).
  rewrite phys_ptr by lia. zlia.
Qed.

Lemma boot_entry i : 0 <= i < 512 -> entry s1 c i = 0.
Proof using. intros Hi. unfold entry, s1, set_frame; cbn [ram]. rewrite lookup_insert_eq. apply field_zero_page. lia. Qed.

Lemma boot_slot i t : get (address_space_pool s1) i = Some t -> t = 0.
Proof using Hbi.
  change (address_space_pool s1) with (address_space_pool s). rewrite (bi_pool _ _ _ Hbi). unfold get. destruct (i <? 0); [done|].
  by intros [-> _]%lookup_replicate.
Qed.

Lemma booted_inv : vm_inv k s1 (<[c := 1]> m) {[c := (c, [])]}.
Proof using Hbi Hoff Hc Hcr Hpm Htot.
  pose proof (bi_total _ _ _ Hbi) as Ht. pose proof boot_root as HK.
  assert (mem_ok s1) as Hmem by (apply mem_ok_set_frame; [exact (bi_mem _ _ _ Hbi)|lia|apply page_ok_zero]).
  assert (forall f, f <> c -> ram s1 !! f = ram s !! f) as Hram by (intros; cbn; by rewrite lookup_insert_ne).
  split; try done.
  - change (total_pages (phys_pages s1)) with (total_pages pm). by rewrite Htot.
  - intros f Hf. change (total_pages (phys_pages s1)) with (total_pages pm) in Hf. rewrite Htot in Hf.
    intros [Hn Hne]%lookup_insert_None. rewrite Hram by done. by apply (bi_free _ _ _ Hbi).
  - intros f r p [<- [= <- <-]]%lookup_singleton_Some. rewrite lookup_insert_eq. assert (is_Some (ram s1 !! c)) by (cbn; by rewrite lookup_insert_eq).
    split_and!; solve [done|cbn; lia|constructor].
  - intros f g n [<- _]%lookup_singleton_Some [<- _]%lookup_singleton_Some. done.
  - intros f r p i [<- [= <- <-]]%lookup_singleton_Some _ Hi. by rewrite boot_entry.
  - intros f r p i [_ [= _ E]]%lookup_singleton_Some. by destruct p.
  - rewrite HK. split; [by rewrite lookup_singleton_eq|done].
  - change (address_space_pool s1) with (address_space_pool s). by rewrite (bi_pool _ _ _ Hbi).
  - intros i t Hi%boot_slot. done.
  - intros i j t Hi%boot_slot. done.
  - change (next_address_space_idx s1) with (next_address_space_idx s). by rewrite (bi_next _ _ _ Hbi).
  - apply lookup_insert_is_Some'. right. apply (bi_zero _ _ _ Hbi).
Qed.

Lemma boot_pte va : pte s1 c va = None.
Proof using. unfold pte, table_path. cbn [node_at]. by rewrite boot_entry by (apply index_range; lia). Qed.
End boot.

(** The outcome of the initialisation. *)
Definition init_post (k : Z) (s : vm) (m : gmap Z Z) (rs : list range) (ok : bool) (s' : vm) : Prop :=
  exists m', pmm_rep k (phys_pages s') m' /\ m ⊆ m' /\ (forall f, is_Some (m !! f) -> ram s' !! f = ram s !! f) /\
    if ok then exists T', vm_inv k s' m' T' /\ (forall f n, T' !! f = Some n -> n.1 = kernel_root s') /\
      cr3_reg s' = kernel_root s' * PAGE_SIZE /\ forall va, pte s' (kernel_root s') va = translation rs (vpn va)
    else exhausted s m'.

Section init.
  Context (k : Z) (s : vm) (m : gmap Z Z) (c : Z) (pm : pmm).
  Hypothesis Hbi : before_init k s m.
  Hypothesis Hoff : 0 < g_hhdm_offset s <= 2 ^ 64 - 2 ^ 47.
  Hypothesis Hc : m !! c = None.
  Hypothesis Hcr : 0 < c < total_pages (phys_pages s).
  Hypothesis Hpm : pmm_rep k pm (<[c := 1]> m).
  Hypothesis Htot : total_pages pm = total_pages (phys_pages s).
Let s1 := set_frame {| (set_pmm s pm) with kernel_space := ptr s c |} c zero_page.
Let T1 : gmap Z node := {[c := (c, [])]}.

Lemma init_start : boots k s1 (<[c := 1]> m) T1 (translation []) true s1.
Proof using Hbi Hoff Hc Hcr Hpm Htot.
  exists (<[c := 1]> m), T1. split; [by apply booted_inv|]. split; [apply vm_ext_refl|]. intros va.
  unfold s1. rewrite (boot_root k s m c pm Hbi Hcr). apply boot_pte.
Qed.

Lemma init_kept m' T' s' f : vm_ext s1 s' (<[c := 1]> m) m' T1 T' -> is_Some (m !! f) -> ram s' !! f = ram s !! f.
Proof using Hc.
  intros He Hf. assert (f <> c) as Hne by (intros ->; rewrite Hc in Hf; by destruct Hf).
  trans (ram s1 !! f); [|cbn; by rewrite lookup_insert_ne]. apply (ve_data _ _ _ _ _ _ He); [by rewrite lookup_insert_ne|].
  unfold T1. by rewrite lookup_singleton_ne.
Qed.

Lemma init_stop rs F s' : boots k s1 (<[c := 1]> m) T1 F false s' -> init_post k s m rs false s'.
Proof using Hc Htot.
  intros (m' & T' & Hinv & He & Hx). exists m'. split; [apply Hinv|]. split; [etrans; [by apply insert_subseteq|apply He]|].
  split; [intros f; by eapply init_kept|]. intros i Hi. apply Hx. change (total_pages (phys_pages s1)) with (total_pages pm). by rewrite Htot.
Qed.

Lemma init_done rs s' : boots k s1 (<[c := 1]> m) T1 (translation rs) true s' ->
  wp (vmm_switch_address_space (Some Kernel_space);; mret true) (init_post k s m rs) s'.
Proof using Hbi Hc Hcr.
  intros (m' & T' & Hinv & He & Hpte). unfold vmm_switch_address_space, vmm_switch_address_space_phys. do 5 wp_step.
  destruct (vi_kernel _ _ _ _ Hinv) as [HK EK]. pose proof (node_frame _ _ _ _ Hinv _ _ _ HK) as Hfr.
  pose proof (vm_ext_root _ _ _ _ _ _ He) as Er. set (s2 := {| s' with cr3_reg := _ |}).
  assert (vm_inv k s2 m' T') as Hinv2 by by destruct Hinv.
  exists m'. split; [apply Hinv|]. split; [etrans; [by apply insert_subseteq|apply He]|]. split; [intros f Hf; exact (init_kept _ _ _ _ He Hf)|].
  exists T'. split; [done|]. split_and!.
  - intros f [r p] Hf. cbn. apply (node_at_root k s' m' T' Hinv) in Hf as [Hr _]. apply (ve_roots _ _ _ _ _ _ He) in Hr.
    apply lookup_singleton_Some in Hr as [<- _]. change (kernel_root s2) with (kernel_root s'). rewrite Er. symmetry. by eapply boot_root.
  - cbn [cr3_reg s2]. unfold get_pml4_phys, top_level. rewrite EK.
    destruct (Z.eqb_spec (ptr s' (kernel_root s')) 0) as [E|_]; [by apply (ptr_nonzero k s' m' T') in E; [|done|lia]|]. by rewrite phys_ptr by lia.
  - intros va. change (kernel_root s2) with (kernel_root s'). rewrite (pte_ram s' s2) by done. rewrite Er. apply Hpte.
Qed.
End init.

(** C37: initialisation builds the kernel's address space.  From a machine whose free pages
    are memory and that has no address space, for a memory map and frame buffers whose ranges
    do not wrap onto themselves, [vmm_init] returns.  Either it has stopped because every
    page is in use, or the state is well formed, every table belongs to the kernel's space,
    which is the current one, and its translation of every address is what the list of
    ranges says: each entry of the memory map and each frame buffer at its direct-map
    address, writable and not executable, the kernel's image at its base, a later range
    before an earlier one, and no other page is mapped.  No page that was in use changes. *)
Theorem vmm_init_correct (k : Z) (s : vm) (m : gmap Z Z) memmap fbs kernel_phys_base kernel_virt_base hhdm_offset :
  let rs := boot_ranges memmap fbs kernel_phys_base kernel_virt_base hhdm_offset in
  before_init k s m -> 0 < hhdm_offset <= 2 ^ 64 - 2 ^ 47 -> Forall range_ok rs ->
  exists s' ok, vmm_init memmap fbs kernel_phys_base kernel_virt_base hhdm_offset s = Some (s', ok) /\ init_post k s m rs ok s'.
Proof.
  intros rs Hbi Hoff [Hmap [Hker Hfb]%Forall_app]%Forall_app. rewrite Forall_map in Hmap, Hfb. apply Forall_cons in Hker as [Hker _].
  enough (wp (vmm_init memmap fbs kernel_phys_base kernel_virt_base hhdm_offset) (init_post k s m rs) s) as (s' & ok & E & H) by by exists s', ok.
  unfold vmm_init. do 2 wp_step. set (s0 := {| s with g_hhdm_offset := hhdm_offset |}).
  assert (before_init k s0 m) as Hbi0 by by destruct Hbi.
  destruct (alloc_frame_raw k s0 m (bi_pmm _ _ _ Hbi) (bi_zero _ _ _ Hbi)) as (pm & a & Ea & Ht & Hcase).
  wp_step. exists (set_pmm s0 pm), a. split; [done|]. cbv beta. destruct Hcase as [(-> & Hpm & Hall)|(c & -> & Hcr & Hcn & Hpm)].
  { rewrite Z.eqb_refl. wp_step. exists m. split; [done|]. split; [done|]. split; [done|]. intros i Hi. apply Hall. by rewrite Ht. }
  destruct (Z.eqb_spec (c * PAGE_SIZE) 0); [lia|]. rewrite Ht in Hcr. unfold hhdm, set_top_level. do 4 wp_step.
  change (u64 (c * PAGE_SIZE + g_hhdm_offset (set_pmm s0 pm))) with (ptr s0 c).
  set (s1 := {| (set_pmm s0 pm) with kernel_space := ptr s0 c |}). change (ptr s0 c) with (ptr s1 c).
  wp_step. exists (set_frame s1 c zero_page), tt. split; [apply clear_raw; [exact (bi_mem _ _ _ Hbi)|apply (bi_free _ _ _ Hbi0); [lia|done]]|].
  cbv beta. pose proof (init_start k s0 m c pm Hbi0 Hoff Hcn Hcr Hpm Ht) as Hb.
  wp_step. eapply wp_mono; [|exact (map_ranges_spec k _ memmap _ _ _ [] _ Hmap Hb)]. intros [] s2 H2; cbn [negb app].
  2: { wp_step. by eapply (init_stop k s0). }
  wp_step. eapply wp_mono; [|exact (map_range_spec k _ _ _ _ _ _ Hker H2)]. intros [] s3 H3; cbn [negb].
  2: { wp_step. by eapply (init_stop k s0). }
  wp_step. eapply wp_mono; [|eapply (map_ranges_spec k _ fbs _ _ _ (map _ memmap ++ [_]) _ Hfb)]; last first.
  { unfold translation. rewrite foldl_app. exact H3. }
  intros [] s4 H4; cbn [negb]; [|wp_step; by eapply (init_stop k s0)]. rewrite <- app_assoc in H4. by apply (init_done k s0 m c pm).
Qed.

(** ** A small machine *)

(** Sixteen pages of memory, no address space. *)
Definition demo_machine : vm :=
  Vm demo_pmm (list_to_map (map (fun f => (f, zero_page)) (seqZ 0 16))) 0xFFFF800000000000 0 (replicate 32 0) 0 0 0 0.
Definition demo_used : gmap Z Z := used_map (bitmap demo_pmm) (total_pages demo_pmm).

Lemma demo_ram f pg : ram demo_machine !! f = Some pg -> 0 <= f < 16 /\ pg = zero_page.
Proof.
  intros H%elem_of_list_to_map_2. apply list_elem_of_In, in_map_iff in H as (g & [= <- <-] & Hg).
  apply list_elem_of_In, elem_of_seqZ in Hg. split; [lia|done].
Qed.

Lemma demo_total : total_pages demo_pmm = 16.
Proof. by vm_compute. Qed.

Lemma demo_before : exists k, before_init k demo_machine demo_used.
Proof.
  destruct demo_pmm_rep as (k & Hk). exists k. pose proof demo_total as Ht. split; [exact Hk| | | | |reflexivity|reflexivity].
  - cbn [phys_pages demo_machine]. lia.
  - intros f pg [Hf ->]%demo_ram. split; [lia|apply page_ok_zero].
  - intros f Hf _. cbn [phys_pages demo_machine] in Hf. apply elem_of_dom. cbn [ram demo_machine].
    rewrite dom_list_to_map. apply elem_of_list_to_set, list_elem_of_In. rewrite map_map, map_id. apply list_elem_of_In, elem_of_seqZ. lia.
  - unfold demo_used. rewrite used_map_lookup by lia. exists 0. by vm_compute.
Qed.

(** The same machine with an empty kernel space at frame 2. *)
Definition demo_vm : vm :=
  set_frame {| (set_pmm demo_machine (fst (pmm_alloc_page demo_pmm))) with kernel_space := ptr demo_machine 2 |} 2 zero_page.

Lemma demo_inv : exists k, vm_inv k demo_vm (<[2 := 1]> demo_used) {[2 := (2, [])]}.
Proof.
  destruct demo_before as (k & Hbi). exists k.
  destruct (alloc_known k demo_machine demo_used 2 (bi_pmm _ _ _ Hbi) (bi_zero _ _ _ Hbi)) as (Hn & Hc & Hpm & Ht); [by vm_compute|lia|].
  apply (booted_inv k demo_machine demo_used 2 _ Hbi); [cbn [g_hhdm_offset demo_machine]; lia|exact Hn|exact Hc|exact Hpm|exact Ht].
Qed.

Lemma demo_root : kernel_root demo_vm = 2.
Proof. by vm_compute. Qed.

Lemma demo_pte va : pte demo_vm 2 va = None.
Proof. apply boot_pte. Qed.

Lemma vmm_init_correct_witness : exists k s' ok,
  vmm_init demo_memmap [] 0x200000 0xFFFFFFFF80000000 0xFFFF800000000000 demo_machine = Some (s', ok) /\
  init_post k demo_machine demo_used (boot_ranges demo_memmap [] 0x200000 0xFFFFFFFF80000000 0xFFFF800000000000) ok s'.
Proof.
  destruct demo_before as (k & Hbi). exists k. apply (vmm_init_correct k demo_machine demo_used); [done|lia|].
  repeat constructor; by vm_compute.
Defined.
