(* ===== verification/VmmReserve.v ===== *)
(** * Reservation of a range of addresses

    [vmm_reserve_va_by_cr3] is a first-fit search: it answers the lowest page-aligned
    range between its two bounds in which no page is mapped, and 0 only when there is none.
    Every failed candidate moves the search behind a mapped page, so more fuel than there
    are mapped pages is enough. *)
From S2P Require Import Prelude Bytes Pmm StateM Vmm VmmInv VmmMap VmmSpace VmmInit.
Local Open Scope Z_scope.
Local Open Scope c_scope.

(** The page numbers of the two bounds. *)
Abbreviation BOT := 0x100000000.
Abbreviation TOP := 0x500000000.

Section reserve.
  Context (k : Z) (s : vm) (m : gmap Z Z) (T : gmap Z node) (r : Z).
  Hypothesis Hinv : vm_inv k s m T.
  Hypothesis Hr : is_root T r.

(** The page [n] is mapped. *)
Definition busy (n : Z) : Prop := is_Some (pte s r (n * PAGE_SIZE)).

#[local] Instance busy_dec n : Decision (busy n) := decide (is_Some (pte s r (n * PAGE_SIZE))).

Lemma taken_spec a (Q : bool -> vm -> Prop) : Q (bool_decide (busy a)) s ->
  wp (vmm_walk_pte (r * PAGE_SIZE) (a * PAGE_SIZE)) (fun p => wp (if p =? 0 then mret false else e ← load p; mret (present e)) Q) s.
Proof using Hinv Hr.
  intros HQ. apply (walk_pte_spec k s m T Hinv r); [done| |].
  - intros E. rewrite Z.eqb_refl. wp_step. rewrite bool_decide_eq_false_2 in HQ; [done|]. unfold busy, pte. rewrite E. by intros [].
  - intros f E. pose proof (table_ram k s m T Hinv _ _ _ Hr E) as Hram.
    pose proof (pte_addr_nonzero k s m T Hinv f (pt_index (a * PAGE_SIZE)) Hram (pt_index_idx _)) as H0.
    destruct (Z.eqb_spec (elem (ptr s f) (pt_index (a * PAGE_SIZE))) 0); [done|].
    wp_step. exists s, (entry s f (pt_index (a * PAGE_SIZE))). split; [by eapply load_entry; auto with grahaos|]. cbv beta.
    wp_step. rewrite (bool_decide_ext _ (present (entry s f (pt_index (a * PAGE_SIZE))) = true)) in HQ.
    + by destruct (present _).
    + unfold busy, pte. rewrite E. cbv zeta. destruct (present _); [done|]. split; [by intros []|done].
Qed.

Lemma first_present_spec n : forall a, 0 <= a -> (a + Z.of_nat n) * PAGE_SIZE < 2 ^ 64 ->
  wp (first_present (r * PAGE_SIZE) (a * PAGE_SIZE) n) (fun o s' => s' = s /\
    match o with
    | None => forall b, a <= b < a + Z.of_nat n -> ~ busy b
    | Some v => exists b, v = b * PAGE_SIZE /\ a <= b < a + Z.of_nat n /\ busy b
    end) s.
Proof using Hinv Hr.
  induction n as [|n IH]; intros a Ha Hn; cbn [first_present].
  { wp_step. split; [done|]. lia. }
  wp_step. eapply wp_mono; [intros p s' Hp; wp_step; exact Hp|]. apply taken_spec. case_bool_decide as Eb.
  { wp_step. split; [done|]. exists a. split; [done|]. split; [lia|done]. }
  replace (u64 (a * PAGE_SIZE + PAGE_SIZE)) with ((a + 1) * PAGE_SIZE).
  2: { rewrite wrap_small by (unfold in_u; lia). lia. }
  eapply wp_mono; [|apply IH; lia]. intros [v|] s' [-> H]; split; try done.
  - destruct H as (b & -> & Hb & Hbusy). exists b. split; [done|]. split; [lia|done].
  - intros b Hb. destruct (decide (b = a)) as [->|]; [done|apply H; lia].
Qed.


(** The mapped pages from [a] to the end of the search. *)
Definition ahead (a : Z) : list Z := omap (fun n => pte s r (n * PAGE_SIZE)) (seqZ a (TOP - a)).

Lemma ahead_skip a b : a <= b < TOP -> busy b -> (length (ahead (b + 1)) < length (ahead a))%nat.
Proof using.
  intros Hb [e He]. unfold ahead.
  replace (seqZ a (TOP - a)) with (seqZ a (b - a) ++ b :: seqZ (b + 1) (TOP - (b + 1))).
  - rewrite omap_app, length_app. cbn [omap list_omap]. rewrite He. cbn. lia.
  - replace (TOP - a) with ((b - a) + (TOP - b)) by lia. rewrite seqZ_app by lia. f_equal.
    replace (a + (b - a)) with b by lia. rewrite (seqZ_cons b) by lia. do 2 f_equal; lia.
Qed.

Lemma reserve_loop_spec n fuel : forall a, 0 < n -> BOT <= a <= TOP -> n <= TOP - BOT -> (length (ahead a) < fuel)%nat ->
  (forall c, BOT <= c < a -> exists b, c <= b < c + n /\ busy b) ->
  wp (reserve_loop fuel (r * PAGE_SIZE) (a * PAGE_SIZE) ((TOP - n) * PAGE_SIZE) (Z.to_nat n)) (fun v s' => s' = s /\
    ((exists c, v = c * PAGE_SIZE /\ BOT <= c <= TOP - n /\ (forall b, c <= b < c + n -> ~ busy b) /\
       forall c', BOT <= c' < c -> exists b, c' <= b < c' + n /\ busy b) \/
     (v = 0 /\ forall c, BOT <= c <= TOP - n -> exists b, c <= b < c + n /\ busy b))) s.
Proof using Hinv Hr.
  induction fuel as [|fuel IH]; intros a Hn Ha Hlen Hfuel Hbefore; [lia|]. cbn [reserve_loop].
  destruct (Z.leb_spec (a * PAGE_SIZE) ((TOP - n) * PAGE_SIZE)) as [Hle|Hgt].
  - wp_step. eapply wp_mono; [|apply first_present_spec; lia]. intros o s' [-> Ho]. rewrite Z2Nat.id in Ho by lia.
    destruct o as [v|].
    + destruct Ho as (b & -> & Hb & Hbusy). replace (u64 (b * PAGE_SIZE + PAGE_SIZE)) with ((b + 1) * PAGE_SIZE).
      2: { rewrite wrap_small by (unfold in_u; lia). lia. }
      apply IH; [done|lia|done| |].
      * pose proof (ahead_skip a b ltac:(lia) Hbusy). lia.
      * intros c Hc. destruct (decide (c < a)); [apply Hbefore; lia|]. exists b. split; [lia|done].
    + wp_step. split; [done|]. left. exists a. split; [done|]. split; [lia|]. done.
  - wp_step. split; [done|]. right. split; [done|]. intros c Hc. apply Hbefore. lia.
Qed.
End reserve.

Lemma ahead_bound s r : (length (ahead s r BOT) <= length (user_ptes s r))%nat.
Proof.
  unfold ahead, user_ptes. replace (2 ^ 35) with (BOT + ((TOP - BOT) + (2 ^ 35 - TOP))) by lia.
  rewrite seqZ_app, seqZ_app, !omap_app, !length_app by lia. rewrite Z.add_0_l. lia.
Qed.

(** Reservation finds the lowest free range.  In a well-formed state, for a length that
    is a positive multiple of the page size and fits between the two bounds of the search,
    [vmm_reserve_va_by_cr3] returns (with more fuel than the space has mapped pages) and
    changes nothing.  It answers a page-aligned base such that no page of the range is
    mapped and such that every lower base has a mapped page in its range, or 0 when every
    base between the bounds has one. *)
Theorem reserve_first_fit (k : Z) (s : vm) (m : gmap Z Z) (T : gmap Z node) (r n : Z) (fuel : nat) :
  vm_inv k s m T -> is_root T r -> 0 < n <= TOP - BOT -> (length (user_ptes s r) < fuel)%nat ->
  exists v, vmm_reserve_va_by_cr3 fuel (r * PAGE_SIZE) (n * PAGE_SIZE) s = Some (s, v) /\
    ((exists c, v = c * PAGE_SIZE /\ BOT <= c <= TOP - n /\ (forall b, c <= b < c + n -> pte s r (b * PAGE_SIZE) = None) /\
       forall c', BOT <= c' < c -> exists b, c' <= b < c' + n /\ pte s r (b * PAGE_SIZE) <> None) \/
     (v = 0 /\ forall c, BOT <= c <= TOP - n -> exists b, c <= b < c + n /\ pte s r (b * PAGE_SIZE) <> None)).
Proof.
  intros Hinv Hr Hn Hfuel. pose proof (ahead_bound s r) as Hahead.
  destruct (reserve_loop_spec k s m T r Hinv Hr n fuel BOT) as (s' & v & E & -> & H); [lia..|].
  assert (forall b, busy s r b <-> pte s r (b * PAGE_SIZE) <> None) as Hb.
  { intros b. unfold busy. destruct (pte s r (b * PAGE_SIZE)); [|by split; [intros []|]]. by split. }
  exists v. split.
  - unfold vmm_reserve_va_by_cr3. destruct (Z.eqb_spec (n * PAGE_SIZE) 0); [lia|].
    replace (n * PAGE_SIZE &. (PAGE_SIZE - 1)) with 0.
    2: { change (PAGE_SIZE - 1) with (Z.ones 12). rewrite Z.land_ones by lia. change (2 ^ 12) with PAGE_SIZE. zlia. }
    cbn [Z.eqb negb orb]. replace (u64 (VMM_USER_SEARCH_TOP - n * PAGE_SIZE)) with ((TOP - n) * PAGE_SIZE).
    2: { rewrite wrap_small by (unfold in_u; lia). lia. }
    replace (n * PAGE_SIZE / PAGE_SIZE) with n by zlia. done.
  - destruct H as [(c & -> & Hc & Hfree & Hlow)|[-> Hall]]; [left|right].
    + exists c. split_and!; [done|lia|lia| |].
      * intros b Hbr. apply Hfree in Hbr. rewrite Hb in Hbr. by destruct (pte _ _ _); [destruct Hbr|].
      * intros c' Hc'. destruct (Hlow c' Hc') as (b & ? & ?%Hb). eauto.
    + split; [done|]. intros c Hc. destruct (Hall c Hc) as (b & ? & ?%Hb). eauto.
Qed.

Lemma user_ptes_none s r : (forall va, pte s r va = None) -> user_ptes s r = [].
Proof. intros H. unfold user_ptes. generalize (seqZ 0 (2 ^ 35)). intros l. induction l as [|n l IH]; cbn; [done|]. by rewrite H. Qed.

Lemma reserve_first_fit_witness : exists v, vmm_reserve_va_by_cr3 1 (2 * PAGE_SIZE) (3 * PAGE_SIZE) demo_vm = Some (demo_vm, v) /\
  ((exists c, v = c * PAGE_SIZE /\ BOT <= c <= TOP - 3 /\ (forall b, c <= b < c + 3 -> pte demo_vm 2 (b * PAGE_SIZE) = None) /\
     forall c', BOT <= c' < c -> exists b, c' <= b < c' + 3 /\ pte demo_vm 2 (b * PAGE_SIZE) <> None) \/
   (v = 0 /\ forall c, BOT <= c <= TOP - 3 -> exists b, c <= b < c + 3 /\ pte demo_vm 2 (b * PAGE_SIZE) <> None)).
Proof.
  destruct demo_inv as (k & Hinv). eapply (reserve_first_fit k demo_vm _ _ 2 3 1 Hinv); [by rewrite lookup_singleton_eq|lia|].
  rewrite user_ptes_none by exact demo_pte. cbn. lia.
Defined.
