(* ===== verification/VmmClone.v ===== *)
(** * Cloning the lower half of an address space

    [vmm_clone_user_pml4] copies the tables of a space, not its pages.  The proof follows the
    walk: [done] lists the subtrees that are copied, [open] is the path of the table at work.
    A clone translates every address as its parent; when memory runs out, the tables built so
    far are given back and nothing has changed. *)
From S2P Require Import Prelude Bytes Pmm StateM Vmm VmmInv VmmMap VmmSpace VmmInit.
Local Open Scope Z_scope.
Local Open Scope c_scope.

(** ** A page table is overwritten *)
Section overwrite.
  Context (k : Z) (s : vm) (m : gmap Z Z) (T : gmap Z node) (x c : Z) (q : list Z) (pg : list Z).
  Hypothesis Hinv : vm_inv k s m T.
  Hypothesis Hx : T !! x = Some (c, q).
  Hypothesis Hq : length q = 3%nat.
  Hypothesis Hpg : page_ok pg.
Let s1 := set_frame s x pg.

Lemma overwrite_inner g r p j : T !! g = Some (r, p) -> (length p < 3)%nat -> 0 <= j < 512 -> entry s1 g j = entry s g j.
Proof using Hx Hq.
  intros Hg Hp Hj. unfold entry, s1, set_frame; cbn [ram]. rewrite lookup_insert_ne; [done|]. intros <-.
  rewrite Hx in Hg. injection Hg as _ <-. lia.
Qed.

Lemma overwrite_inv : vm_inv k s1 m T.
Proof using Hinv Hx Hq Hpg.
  destruct (vi_node _ _ _ _ Hinv _ _ _ Hx) as (Hram & _).
  apply (inv_agree k s m T s1 Hinv overwrite_inner); [done| |by apply data_dom].
  intros g pg'. unfold s1, set_frame; cbn [ram]. destruct (decide (g = x)) as [->|].
  - rewrite lookup_insert_eq. by intros [= <-].
  - rewrite lookup_insert_ne by done. intros E. by apply (vi_frame _ _ _ _ Hinv) in E as [_ E].
Qed.

Lemma overwrite_pte r va : is_root T r ->
  pte s1 r va = if bool_decide (node_at s r (table_path va) = Some x) then kept (entry s1 x (pt_index va)) else pte s r va.
Proof using Hinv Hx Hq.
  intros Hr. unfold pte. rewrite (node_at_agree k s m T s1 Hinv overwrite_inner (table_path va) r r []) by auto with grahaos.
  destruct (node_at s r (table_path va)) as [g|]; [|by rewrite bool_decide_eq_false_2 by naive_solver].
  case_bool_decide as E; [by injection E as ->|]. assert (entry s1 g (pt_index va) = entry s g (pt_index va)) as ->; [|done].
  unfold entry, s1, set_frame; cbn [ram]. rewrite lookup_insert_ne; [done|]. intros <-. done.
Qed.

Lemma overwrite_ext : vm_ext s s1 m m T T.
Proof using Hinv Hx.
  destruct (vi_node _ _ _ _ Hinv _ _ _ Hx) as (Hram & _). split; try done.
  - intros f _ Hf. split; [done|]. cbn. rewrite lookup_insert_ne; [done|]. intros <-. congruence.
  - intros f. by apply data_dom.
Qed.
End overwrite.

(** ** Links under the other mask *)
Lemma clone_mask_low d x : 0 <= d < 2 ^ 40 -> 0 <= x < 4096 -> (d * PAGE_SIZE + x) &. VMM_CLONE_PHYS_ADDR_MASK = d * PAGE_SIZE.
Proof.
  intros Hd Hx. rewrite <- lor_low, Z.land_lor_distr_l by done.
  assert (x &. VMM_CLONE_PHYS_ADDR_MASK = 0) as ->.
  { change VMM_CLONE_PHYS_ADDR_MASK with (Z.ones 40 <<. 12). apply Z.bits_inj'. intros i Hi.
    rewrite Z.land_spec, Z.shiftl_spec, Z.bits_0 by lia. destruct (Z.lt_ge_cases i 12).
    - by rewrite (Z.testbit_neg_r _ (i - 12)), andb_false_r by lia.
    - by rewrite (testbit_high 12 x) by (done || lia). }
  rewrite Z.lor_0_r. change VMM_CLONE_PHYS_ADDR_MASK with (Z.ones 40 <<. 12). change PAGE_SIZE with (2 ^ 12).
  by rewrite <- Z.shiftl_mul_pow2, <- Z.shiftl_land, Z.land_ones, Z.mod_small by lia.
Qed.

Lemma clone_mask_flags d : 0 <= d < 2 ^ 40 -> (d * PAGE_SIZE + 7) &. (0xFFFFFFFFFFFFFFFF - VMM_CLONE_PHYS_ADDR_MASK) = 7.
Proof.
  intros Hd. set (e := d * PAGE_SIZE + 7). set (N := 0xFFFFFFFFFFFFFFFF - VMM_CLONE_PHYS_ADDR_MASK).
  enough ((e &. VMM_CLONE_PHYS_ADDR_MASK) + (e &. N) = e) as E by (unfold e in E at 1 3; rewrite clone_mask_low in E by lia; lia).
  rewrite Z.add_nocarry_lxor, Z.lxor_lor, <- Z.land_lor_distr_r.
  - change (VMM_CLONE_PHYS_ADDR_MASK |. N) with (Z.ones 64). rewrite Z.land_ones, Z.mod_small by (unfold e; lia). done.
  - rewrite <- Z.land_assoc, (Z.land_comm _ (e &. N)), <- Z.land_assoc. change (N &. VMM_CLONE_PHYS_ADDR_MASK) with 0. by rewrite !Z.land_0_r.
  - rewrite <- Z.land_assoc, (Z.land_comm _ (e &. N)), <- Z.land_assoc. change (N &. VMM_CLONE_PHYS_ADDR_MASK) with 0. by rewrite !Z.land_0_r.
Qed.

Lemma clone_word x d : 0 <= x < 2 ^ 40 -> 0 <= d < 2 ^ 40 ->
  (x * PAGE_SIZE &. VMM_CLONE_PHYS_ADDR_MASK) |. ((d * PAGE_SIZE + 7) &. (0xFFFFFFFFFFFFFFFF - VMM_CLONE_PHYS_ADDR_MASK)) = x * PAGE_SIZE + 7.
Proof.
  intros Hx Hd. rewrite clone_mask_flags by done. replace (x * PAGE_SIZE) with (x * PAGE_SIZE + 0) at 1 by lia.
  rewrite clone_mask_low by (done || lia). apply lor_low. lia.
Qed.

(** ** The state of the walk *)
Definition covered (dn : list (list Z)) (p : list Z) : Prop := Exists (fun q => q `prefix_of` p) dn.
#[export] Instance covered_dec dn p : Decision (covered dn p) := _.

Lemma covered_snoc dn q p : covered (dn ++ [q]) p <-> covered dn p \/ q `prefix_of` p.
Proof. unfold covered. rewrite Exists_app, Exists_cons, Exists_nil. naive_solver. Qed.

Lemma prefix_of_snoc (p q : list Z) l : p `prefix_of` q ++ [l] -> p `prefix_of` q \/ p = q ++ [l].
Proof.
  intros [t Et]. destruct t as [|z t _] using rev_ind; [right; by rewrite app_nil_r in Et|].
  rewrite app_assoc in Et. apply app_inj_tail in Et as [-> _]. left. by apply prefix_app_r.
Qed.

Lemma prefix_of_full (p q : list Z) : p `prefix_of` q -> length p = length q -> p = q.
Proof. intros [t ->] E. rewrite length_app in E. destruct t; [by rewrite app_nil_r|cbn in E; lia]. Qed.

Section clone.
  Context (k : Z) (s1 : vm) (m1 : gmap Z Z) (T1 : gmap Z node) (r c : Z).
  Hypothesis Hinv1 : vm_inv k s1 m1 T1.
  Hypothesis Hr : is_root T1 r.
  Hypothesis Hc : is_root T1 c.
  Hypothesis Hrc : r <> c.
  Hypothesis HcK : c <> kernel_root s1.
  Hypothesis Honly : forall f p, T1 !! f = Some (c, p) -> p = [].

(** What holds in the middle: the tables of the clone are the only difference. *)
Record partial (m : gmap Z Z) (T : gmap Z node) (s : vm) : Prop := {
  pa_inv : vm_inv k s m T;
  pa_ext : vm_ext s1 s m1 m T1 T;
  pa_ram : forall f n, T1 !! f = Some n -> f <> c -> ram s !! f = ram s1 !! f;
  pa_used : forall f, m !! f <> m1 !! f -> exists p, T !! f = Some (c, p);
  pa_new : forall f n, T !! f = Some n -> T1 !! f = None -> n.1 = c;
  pa_same : forall r' va, is_root T1 r' -> r' <> c -> pte s r' va = pte s1 r' va;
  pa_upper : forall va, 256 <= pml4_index va -> pte s c va = pte s1 c va;
  pa_parent : forall f p, T !! f = Some (c, p) -> exists g, T1 !! g = Some (r, p)
}.

Record cloning (dn : list (list Z)) (open : list Z) (m : gmap Z Z) (T : gmap Z node) (s : vm) : Prop := {
  cl_partial : partial m T s;
  cl_nodes : forall f p, T !! f = Some (c, p) -> p `prefix_of` open \/ covered dn p;
  cl_pte : forall va, pml4_index va < 256 -> pte s c va = if decide (covered dn (table_path va)) then pte s1 r va else None
}.

(** The table of the parent at a path of the lower half. *)
Definition lower (q : list Z) : Prop := match q with [] => True | i :: _ => i < 256 end.

Lemma parent_ne f q : T1 !! f = Some (r, q) -> f <> c.
Proof using Hc Hrc. intros Hf ->. rewrite Hc in Hf. congruence. Qed.

Lemma home_lower K r' q : lower q -> home K r' q = r'.
Proof using. destruct q as [|i q]; [done|]. cbn. intros Hi. by destruct (Z.leb_spec 256 i); [lia|]. Qed.

Lemma parent_entry m T s f q j : partial m T s -> T1 !! f = Some (r, q) -> entry s f j = entry s1 f j.
Proof using Hc Hrc. intros Hp Hf. unfold entry. by rewrite (pa_ram _ _ _ Hp _ _ Hf (parent_ne _ _ Hf)). Qed.

(** An absent entry of the parent needs no work. *)
Lemma clone_skip dn q m T s f j : cloning dn q m T s -> T1 !! f = Some (r, q) -> present (entry s1 f j) = false ->
  cloning (dn ++ [q ++ [j]]) q m T s.
Proof using Hinv1.
  intros [Hp Hn Hpte] Hf E. split; [done| |].
  - intros g p Hg. rewrite covered_snoc. destruct (Hn g p Hg); auto.
  - intros va Hva. rewrite Hpte by done. destruct (decide (covered dn (table_path va))) as [Hcv|Hcv].
    + rewrite decide_True; [done|]. rewrite covered_snoc. by left.
    + case_decide as Hcv'; [|done]. rewrite covered_snoc in Hcv'. destruct Hcv' as [|[t Et]]; [done|]. symmetry.
      apply (absent_ptes k s1 m1 T1 r Hinv1 f q j t va Hf E). by rewrite Et, <- app_assoc.
Qed.

Lemma clone_absent dn q m T s x j : cloning dn q m T s -> T !! x = Some (c, q) -> (length q < 3)%nat -> 0 <= j < 512 ->
  lower (q ++ [j]) -> ~ covered dn (q ++ [j]) -> present (entry s x j) = false.
Proof using.
  intros [Hp Hn _] Hx Hq Hj Hlow Hcv. destruct (present _) eqn:E; [|done].
  destruct (vi_down _ _ _ _ (pa_inv _ _ _ Hp) _ _ _ _ Hx Hq Hj E) as (d & _ & Hd). rewrite home_lower in Hd by done.
  destruct (Hn _ _ Hd) as [Hpre|]; [|done]. apply prefix_length in Hpre. rewrite length_app in Hpre. cbn in Hpre. lia.
Qed.

Lemma link_cloning dn q m T s x j y d pm : cloning dn q m T s -> T !! x = Some (c, q) -> T1 !! d = Some (r, q ++ [j]) -> (length q < 3)%nat -> 0 <= j < 512 ->
  lower (q ++ [j]) -> ~ covered dn (q ++ [j]) -> m !! y = None -> 0 < y < total_pages (phys_pages s) ->
  pmm_rep k pm (<[y := 1]> m) -> total_pages pm = total_pages (phys_pages s) ->
  cloning dn (q ++ [j]) (<[y := 1]> m) (<[y := (c, q ++ [j])]> T) (set_entry (set_frame (set_pmm s pm) y zero_page) x j (y * PAGE_SIZE + 7)).
Proof using Hc Honly.
  intros Hcl Hx Hd Hq Hj Hlow Hcv Hy Hyr Hpm Ht. pose proof (clone_absent _ _ _ _ _ _ _ Hcl Hx Hq Hj Hlow Hcv) as Habs.
  pose proof (cl_partial _ _ _ _ _ Hcl) as Hp. pose proof (pa_inv _ _ _ Hp) as Hinv. pose proof (pa_ext _ _ _ Hp) as He.
  assert (home (kernel_root s) c (q ++ [j]) = c) as Hh by by apply home_lower.
  pose proof (table_fresh k s m T y Hinv Hy) as Hfresh.
  pose proof (link_pte k s m T x c q j y pm Hinv Hx Hq Hj Habs Hh Hy Hyr Hpm Ht) as Hpte.
  assert (forall r', is_root T1 r' -> is_root T r') as Hroot by (intros; by eapply lookup_weaken; [|apply He]).
  split; [split| |].
  - by apply linked_inv.
  - eapply vm_ext_trans; [done|]. by eapply link_ext.
  - intros g n Hg Hgc. rewrite <- (pa_ram _ _ _ Hp g n Hg Hgc). pose proof (lookup_weaken _ _ _ _ Hg (ve_tables _ _ _ _ _ _ He)) as Hg'.
    cbn. rewrite lookup_alter_ne, lookup_insert_ne; [done|by intros ->; congruence|]. intros ->. rewrite Hx in Hg'. injection Hg' as <-.
    rewrite (Honly _ _ Hg) in Hg. destruct (vi_node _ _ _ _ Hinv _ _ _ (lookup_weaken _ _ _ _ Hg (ve_tables _ _ _ _ _ _ He))) as (_ & _ & _ & _ & _ & _ & E).
    by rewrite E in Hgc.
  - intros g. destruct (decide (g = y)) as [->|]; [intros _; exists (q ++ [j]); by rewrite lookup_insert_eq|].
    rewrite !lookup_insert_ne by done. apply (pa_used _ _ _ Hp).
  - intros g n. destruct (decide (g = y)) as [->|]; [rewrite lookup_insert_eq; by intros [= <-]|]. rewrite lookup_insert_ne by done.
    apply (pa_new _ _ _ Hp).
  - intros r' va Hr' Hne. rewrite Hpte by auto. by apply (pa_same _ _ _ Hp).
  - intros va Hva. rewrite Hpte by auto. by apply (pa_upper _ _ _ Hp).
  - intros g p. destruct (decide (g = y)) as [->|]; [rewrite lookup_insert_eq; intros [= <-]; by exists d|].
    rewrite lookup_insert_ne by done. apply (pa_parent _ _ _ Hp).
  - intros g p. destruct (decide (g = y)) as [->|]; [rewrite lookup_insert_eq; intros [= <-]; by left|]. rewrite lookup_insert_ne by done.
    intros Hg. destruct (cl_nodes _ _ _ _ _ Hcl _ _ Hg) as [Hpre|]; [left|by right]. etrans; [done|by apply prefix_app_r].
  - intros va Hva. rewrite Hpte by auto. by apply (cl_pte _ _ _ _ _ Hcl).
Qed.

(** A failed allocation leaves what is there. *)
Lemma partial_set_pmm m T s pm : partial m T s -> pmm_rep k pm m -> total_pages pm = total_pages (phys_pages s) -> partial m T (set_pmm s pm).
Proof using.
  intros [Hinv He Hram Hused Hnew Hsame Hup Hpar] Hpm Ht. split; try done.
  - by apply inv_same_pmm.
  - destruct He. split; try done. cbn. congruence.
Qed.

Lemma clone_table_spec dn q m T s x j d : cloning dn q m T s -> T !! x = Some (c, q) -> T1 !! d = Some (r, q ++ [j]) -> (length q < 3)%nat -> 0 <= j < 512 ->
  lower (q ++ [j]) -> ~ covered dn (q ++ [j]) -> 0 <= d < 2 ^ 35 ->
  wp (clone_table (ptr s1 x) j (d * PAGE_SIZE + 7)) (fun o s' => exists m' T', T ⊆ T' /\
    match o with
    | Some (a, b) => exists y, a = ptr s1 y /\ b = ptr s1 d /\ T' !! y = Some (c, q ++ [j]) /\ cloning dn (q ++ [j]) m' T' s'
    | None => partial m' T' s' /\ exhausted s1 m'
    end) s.
Proof using Hc Honly.
  intros Hcl Hx Hpar Hq Hj Hlow Hcv Hd. pose proof (cl_partial _ _ _ _ _ Hcl) as Hp. pose proof (pa_inv _ _ _ Hp) as Hinv.
  pose proof (pa_ext _ _ _ Hp) as He. unfold clone_table. destruct (alloc_frame_spec k s m T Hinv) as (pm & a & Ea & Ht & Hcase).
  wp_step. exists (set_pmm s pm), a. split; [done|]. cbv beta. destruct Hcase as [(-> & Hpm & Hall)|(y & -> & Hyr & Hyn & Hpm)].
  { rewrite Z.eqb_refl. wp_step. exists m, T. split; [done|]. split; [by apply partial_set_pmm|].
    intros i Hi. apply Hall. by rewrite Ht, (ve_total _ _ _ _ _ _ He). }
  destruct (Z.eqb_spec (y * PAGE_SIZE) 0); [lia|]. rewrite Ht in Hyr. unfold hhdm. do 2 wp_step.
  change (u64 (y * PAGE_SIZE + g_hhdm_offset (set_pmm s pm))) with (ptr (set_pmm s pm) y).
  assert (is_Some (ram s !! y)) as Hram by (apply (vi_free _ _ _ _ Hinv); [lia|done]).
  wp_step. exists (set_frame (set_pmm s pm) y zero_page), tt.
  split; [apply clear_raw; [exact (vi_mem _ _ _ _ Hinv)|done]|]. cbv beta. pose proof (vi_total _ _ _ _ Hinv) as Htot.
  assert (mem_ok (set_frame (set_pmm s pm) y zero_page)) as Hmem
    by (apply mem_ok_set_frame; [exact (vi_mem _ _ _ _ Hinv)|lia|apply page_ok_zero]).
  wp_step. rewrite clone_word by lia. rewrite <- (vm_ext_ptr _ _ _ _ _ _ x He). eexists _, tt.
  split; [apply (store_raw (set_frame (set_pmm s pm) y zero_page) Hmem); [|done]|].
  { cbn. rewrite lookup_insert_ne; [by apply (vi_node _ _ _ _ Hinv) in Hx as [? _]|]. intros ->.
    rewrite (table_fresh k s m T x Hinv Hyn) in Hx. done. }
  cbv beta. do 3 wp_step. rewrite clone_mask_low by lia. exists (<[y := 1]> m), (<[y := (c, q ++ [j])]> T).
  split; [apply insert_subseteq; by eapply table_fresh|]. exists y. split_and!.
  - by rewrite <- (vm_ext_ptr _ _ _ _ _ _ y He).
  - by rewrite <- (vm_ext_ptr _ _ _ _ _ _ d He).
  - by rewrite lookup_insert_eq.
  - by apply (link_cloning dn q m T s x j y d).
Qed.

(** The page table at the end of a path of the clone. *)
Lemma clone_pt_spec dn q0 l m T s x f : let q := q0 ++ [l] in cloning dn q m T s -> T !! x = Some (c, q) -> T1 !! f = Some (r, q) ->
  length q = 3%nat -> lower q ->
  wp (clone_pt (ptr s1 x) (ptr s1 f)) (fun _ s' => cloning (dn ++ [q]) q0 m T s') s.
Proof using Hinv1 Hc Hrc Honly.
  intros q Hcl Hx Hf Hq Hlow. pose proof (cl_partial _ _ _ _ _ Hcl) as Hp. pose proof (pa_inv _ _ _ Hp) as Hinv.
  pose proof (pa_ext _ _ _ Hp) as He. rewrite <- (vm_ext_ptr _ _ _ _ _ _ x He), <- (vm_ext_ptr _ _ _ _ _ _ f He).
  assert (f <> x) as Hfx. { intros ->. rewrite (lookup_weaken _ _ _ _ Hf (ve_tables _ _ _ _ _ _ He)) in Hx. congruence. }
  assert (T !! f = Some (r, q)) as Hf' by by eapply lookup_weaken; [|apply He].
  eapply wp_mono; [|apply (copy_loop s x f 0 512); try lia; [exact (vi_mem _ _ _ _ Hinv)| |]].
  2: by apply (vi_node _ _ _ _ Hinv) in Hx as [? _].
  2: by apply (vi_node _ _ _ _ Hinv) in Hf' as [? _].
  intros u s' (pg & -> & Hpg & Hcopy).
  assert (forall r', is_root T1 r' -> is_root T r') as Hroot by (intros; by eapply lookup_weaken; [|apply He]).
  pose proof (overwrite_pte k s m T x c q pg Hinv Hx Hq) as Hpte.
  assert (forall r' va, is_root T1 r' -> (node_at s r' (table_path va) = Some x <-> r' = c /\ table_path va = q)) as Hat.
  { intros r' va Hr'. split.
    - intros Hn. pose proof (pte_table k s m T Hinv r' va x (Hroot _ Hr') Hn) as Ht. rewrite Hx in Ht.
      assert (q = table_path va) as Eq by congruence. split; [|done].
      assert (c = home (kernel_root s) r' (table_path va)) as Eh by congruence. rewrite <- Eq in Eh. by rewrite home_lower in Eh.
    - intros [-> ->]. by apply (node_at_root k s m T Hinv). }
  split; [split| |]; [by eapply overwrite_inv|eapply vm_ext_trans; [done|by eapply overwrite_ext]| |apply (pa_used _ _ _ Hp)|
    apply (pa_new _ _ _ Hp)| | |apply (pa_parent _ _ _ Hp)| |].
  - intros g n Hg Hgc. rewrite <- (pa_ram _ _ _ Hp g n Hg Hgc). cbn. rewrite lookup_insert_ne; [done|]. intros ->.
    rewrite (lookup_weaken _ _ _ _ Hg (ve_tables _ _ _ _ _ _ He)) in Hx. injection Hx as ->. apply Honly in Hg. by rewrite Hg in Hq.
  - intros r' va Hr' Hne. rewrite Hpte by auto. rewrite (bool_decide_ext _ _ (Hat r' va Hr')), bool_decide_eq_false_2 by naive_solver.
    by apply (pa_same _ _ _ Hp).
  - intros va Hva. rewrite Hpte by auto. rewrite (bool_decide_ext _ _ (Hat c va Hc)), bool_decide_eq_false_2.
    + by apply (pa_upper _ _ _ Hp).
    + intros [_ Eq]. rewrite <- Eq in Hlow. cbn in Hlow. lia.
  - intros g p Hg. rewrite covered_snoc. destruct (cl_nodes _ _ _ _ _ Hcl _ _ Hg) as [[|Eq]%prefix_of_snoc|]; [by left| |by auto].
    right. right. by rewrite Eq.
  - intros va Hva. rewrite Hpte by auto. rewrite (bool_decide_ext _ _ (Hat c va Hc)). case_bool_decide as Eb.
    + destruct Eb as [_ Eq]. rewrite decide_True by (rewrite covered_snoc, Eq; by right).
      rewrite Hcopy by auto with grahaos. pose proof (pt_index_idx va). replace ((0 <=? pt_index va) && (pt_index va <? 0 + 512)) with true by lia.
      rewrite (parent_entry m T s f q) by done. unfold pte. rewrite Eq.
      by destruct (node_at_root k s1 m1 T1 Hinv1 q f r Hf) as [_ ->].
    + rewrite (cl_pte _ _ _ _ _ Hcl) by done. apply decide_ext. rewrite covered_snoc. split; [by left|].
      intros [|Hpre]; [done|]. destruct Eb. split; [done|]. symmetry. apply prefix_of_full; [done|by rewrite Hq].
Qed.

(** ** One level of the walk *)

(** Nothing at or below [q] is done. *)
Definition clear (dn : list (list Z)) (q : list Z) : Prop := forall t, ~ covered dn (q ++ t).

Definition entries (q : list Z) (js : list Z) : list (list Z) := map (fun j => q ++ [j]) js.

Lemma clear_rest dn q js j : clear dn q -> j ∉ js -> clear (dn ++ entries q js) (q ++ [j]).
Proof using.
  intros Hcl Hj t Hcv. unfold covered in Hcv. apply Exists_app in Hcv as [Hcv|Hcv].
  - apply (Hcl (j :: t)). by rewrite <- app_assoc in Hcv.
  - apply Exists_exists in Hcv as (p & Hp & Hpre). apply list_elem_of_In, in_map_iff in Hp as (j' & <- & Hj').
    rewrite <- app_assoc in Hpre. apply prefix_app_inv in Hpre. apply prefix_cons_inv_1 in Hpre as ->. by apply Hj, list_elem_of_In.
Qed.

Lemma covered_below dn q p : covered (dn ++ entries q (seqZ 0 512)) p -> covered (dn ++ [q]) p.
Proof using.
  unfold covered. rewrite !Exists_app. intros [|Hcv]; [by left|right]. apply Exists_exists in Hcv as (p' & Hp & Hpre).
  apply list_elem_of_In, in_map_iff in Hp as (j & <- & _). constructor. etrans; [|done]. by apply prefix_app_r.
Qed.

(** A table whose entries are all done is done. *)
Lemma clone_close dn q0 l m T s : let q := q0 ++ [l] in (length q < 3)%nat ->
  cloning (dn ++ entries q (seqZ 0 512)) q m T s -> cloning (dn ++ [q]) q0 m T s.
Proof using.
  intros q Hq [Hp Hn Hpte]. split; [done| |].
  - intros f p Hf. destruct (Hn f p Hf) as [[|Eq]%prefix_of_snoc|Hcv]; [by left| |right; by apply covered_below].
    right. rewrite covered_snoc. right. by rewrite Eq.
  - intros va Hva. rewrite Hpte by done. apply decide_ext. split; [apply covered_below|].
    rewrite covered_snoc. intros [Hcv|[t Et]]; [apply Exists_app; by left|]. apply Exists_app. right.
    destruct t as [|j t]; [apply (f_equal length) in Et; rewrite app_nil_r in Et; cbn in Et; lia|].
    pose proof (table_path_idx va) as Hidx. rewrite Et in Hidx. apply Forall_app in Hidx as [_ [Hj _]%Forall_cons].
    apply Exists_exists. exists (q ++ [j]). split; [apply list_elem_of_In, in_map_iff; exists j; split; [done|]; apply list_elem_of_In, elem_of_seqZ; lia|].
    rewrite Et, (cons_middle j q t), app_assoc. by apply prefix_app_r.
Qed.

(** The loop over the entries of a table, with or without the test for large pages. *)
Definition clone_level (sub : Z -> Z -> M vm bool) (large : bool) (n clone parent : Z) : M vm bool :=
  for_all (seqZ 0 n) (fun j =>
    e ← load (elem parent j);
    if negb (present e) then mret true else
    if large && has_flag e PTE_LARGEPAGE then mret true else
    t ← clone_table clone j e;
    match t with
    | None => mret false
    | Some (clone_t, parent_t) => sub clone_t parent_t
    end).

(** What a walk that starts with the tables [T] leaves. *)
Definition walk_post (T : gmap Z node) dn q (ok : bool) (s' : vm) : Prop :=
  exists m' T', T ⊆ T' /\ if ok then cloning dn q m' T' s' else partial m' T' s' /\ exhausted s1 m'.

Lemma clone_level_spec sub large n q x f dn m T s : T1 !! f = Some (r, q) -> (length q < 3)%nat -> 0 <= n <= 512 -> (q = [] -> n <= 256) -> lower q ->
  (forall dn' j m' T' s' y d, 0 <= j < n -> clear dn' (q ++ [j]) -> cloning dn' (q ++ [j]) m' T' s' -> T' !! y = Some (c, q ++ [j]) ->
    T1 !! d = Some (r, q ++ [j]) -> wp (sub (ptr s1 y) (ptr s1 d)) (walk_post T' (dn' ++ [q ++ [j]]) q) s') ->
  cloning dn q m T s -> T !! x = Some (c, q) -> clear dn q ->
  wp (clone_level sub large n (ptr s1 x) (ptr s1 f)) (walk_post T (dn ++ entries q (seqZ 0 n)) q) s.
Proof using Hinv1 Hc Hrc Honly.
  intros Hf Hq Hn Hn' Hlow Hsub Hcl Hx Hclear. unfold clone_level.
  set (P := fun js s' => walk_post T (dn ++ entries q js) q true s').
  eapply wp_mono; [|apply (for_all_spec _ P (walk_post T (dn ++ entries q (seqZ 0 n)) q false) (seqZ 0 n) [] s)].
  - by intros [] s'.
  - intros js j post s' E (m' & T' & Hsub' & Hcl'). cbn [app] in E.
    assert (j ∈ seqZ 0 n) as Hj by (rewrite E; apply elem_of_app; right; by left). apply elem_of_seqZ in Hj.
    assert (j ∉ js) as Hjs.
    { pose proof (NoDup_seqZ 0 n) as Hnd. rewrite E in Hnd. apply NoDup_app in Hnd as (_ & Hd & _). intros Hin. apply (Hd j Hin). by left. }
    assert (lower (q ++ [j])) as Hlow' by (destruct q; [cbn; specialize (Hn' eq_refl); lia|done]).
    pose proof (cl_partial _ _ _ _ _ Hcl') as Hp. pose proof (pa_inv _ _ _ Hp) as Hinv. pose proof (pa_ext _ _ _ Hp) as He.
    assert (T' !! f = Some (r, q)) as Hf' by by eapply lookup_weaken; [|apply He].
    wp_step. rewrite <- (vm_ext_ptr _ _ _ _ _ _ f He). eexists _, _.
    split; [eapply (load_entry k s' m' T'); [done| |lia]; by apply (vi_node _ _ _ _ Hinv) in Hf' as [? _]|]. cbv beta.
    rewrite (parent_entry m' T' s' f q) by done. unfold P, entries. rewrite map_app, app_assoc. fold (entries q js).
    destruct (present (entry s1 f j)) eqn:Ep; cbn [negb].
    2: { wp_step. exists m', T'. split; [done|]. by eapply clone_skip. }
    destruct (vi_down _ _ _ _ Hinv1 _ _ _ j Hf Hq ltac:(lia) Ep) as (d & Ed & Hd). rewrite home_lower in Hd by done.
    pose proof (node_frame _ _ _ _ Hinv1 _ _ _ Hd). rewrite Ed, link_not_large, andb_false_r.
    pose proof (clear_rest dn q js j Hclear Hjs) as Hclear'.
    wp_step. eapply wp_mono; [|apply (clone_table_spec (dn ++ entries q js) q m' T' s' x j d); try done; try lia].
    + intros [[a b]|] s'' (m2 & T2 & Hsub2 & Ho).
      * destruct Ho as (y & -> & -> & Hy & Hcl2). eapply wp_mono; [|apply (Hsub (dn ++ entries q js) j m2 T2); try done; lia].
        intros [] s3 (m3 & T3 & Hsub3 & H3); exists m3, T3; (split; [by do 2 (etrans; [done|])|done]).
      * wp_step. exists m2, T2. split; [by etrans|done].
    + by eapply lookup_weaken.
    + intros Hcv. apply (Hclear' []). by rewrite app_nil_r.
  - exists m, T. split; [done|]. unfold entries. cbn [map]. by rewrite app_nil_r.
Qed.

(** A table below the top: when all its entries are done, it is done. *)
Lemma clone_inner_spec sub q0 l x f dn m T s : let q := q0 ++ [l] in T1 !! f = Some (r, q) -> (length q < 3)%nat -> lower q ->
  (forall dn' j m' T' s' y d, 0 <= j < 512 -> clear dn' (q ++ [j]) -> cloning dn' (q ++ [j]) m' T' s' -> T' !! y = Some (c, q ++ [j]) ->
    T1 !! d = Some (r, q ++ [j]) -> wp (sub (ptr s1 y) (ptr s1 d)) (walk_post T' (dn' ++ [q ++ [j]]) q) s') ->
  cloning dn q m T s -> T !! x = Some (c, q) -> clear dn q ->
  wp (clone_level sub true 512 (ptr s1 x) (ptr s1 f)) (walk_post T (dn ++ [q]) q0) s.
Proof using Hinv1 Hc Hrc Honly.
  intros q Hf Hq Hlow Hsub Hcl Hx Hclear. eapply wp_mono; [|eapply (clone_level_spec sub true 512 q); try done].
  - intros [] s' (m' & T' & Hsub' & H'); exists m', T'; (split; [done|]); [|done]. by apply clone_close.
  - subst q. by destruct q0.
Qed.

Lemma lower_snoc q j : q <> [] -> lower q -> lower (q ++ [j]).
Proof using. by destruct q. Qed.

Lemma clone_pd_spec i j x f dn m T s : T1 !! f = Some (r, [i; j]) -> i < 256 ->
  cloning dn [i; j] m T s -> T !! x = Some (c, [i; j]) -> clear dn [i; j] ->
  wp (clone_pd (ptr s1 x) (ptr s1 f)) (walk_post T (dn ++ [[i; j]]) [i]) s.
Proof using Hinv1 Hc Hrc Honly.
  intros Hf Hi. apply (clone_inner_spec (fun a b => clone_pt a b;; mret true) [i] j x f dn m T s Hf); [cbn; lia|done|].
  intros dn' l m' T' s' y d _ _ Hcl Hy Hd. wp_step. eapply wp_mono; [|by apply (clone_pt_spec dn' [i; j] l m' T' s' y d Hcl Hy Hd)].
  intros u s2 H2. wp_step. by exists m', T'.
Qed.

Lemma clone_pdpt_spec i x f dn m T s : T1 !! f = Some (r, [i]) -> i < 256 ->
  cloning dn [i] m T s -> T !! x = Some (c, [i]) -> clear dn [i] ->
  wp (clone_pdpt (ptr s1 x) (ptr s1 f)) (walk_post T (dn ++ [[i]]) []) s.
Proof using Hinv1 Hc Hrc Honly.
  intros Hf Hi. apply (clone_inner_spec clone_pd [] i x f dn m T s Hf); [cbn; lia|done|].
  intros dn' j m' T' s' y d _ Hclear Hcl Hy Hd. by apply (clone_pd_spec i j y d dn' m').
Qed.

Lemma clone_pml4_spec m T s : T !! c = Some (c, []) -> cloning [] [] m T s ->
  wp (clone_pml4 (ptr s1 c) (ptr s1 r)) (walk_post T (entries [] (seqZ 0 256)) []) s.
Proof using Hinv1 Hr Hc Hrc Honly.
  intros Hx Hcl. apply (clone_level_spec clone_pdpt false 256 [] c r [] m T s Hr); try done; try lia; [cbn; lia| |].
  - intros dn' j m' T' s' y d Hj Hclear Hcl' Hy Hd. apply (clone_pdpt_spec j y d dn' m'); try done. lia.
  - intros t Hcv. by apply Exists_nil in Hcv.
Qed.

(** The whole lower half is covered at the end. *)
Lemma covered_all va : pml4_index va < 256 -> covered (entries [] (seqZ 0 256)) (table_path va).
Proof using.
  intros Hva. apply Exists_exists. exists [pml4_index va]. split.
  - apply list_elem_of_In, in_map_iff. exists (pml4_index va). split; [done|]. apply list_elem_of_In, elem_of_seqZ.
    pose proof (index_range va 39). unfold pml4_index in *. lia.
  - by exists [pdpt_index va; pd_index va].
Qed.

(** *** The start *)
Lemma cloning_start : (forall va, pml4_index va < 256 -> pte s1 c va = None) -> cloning [] [] m1 T1 s1.
Proof using Hinv1 Hr Honly.
  intros Hnone. split; [split; try done| |].
  - intros f n Hf Hf'. congruence.
  - intros f p Hf. rewrite (Honly _ _ Hf). by exists r.
  - intros f p Hf. left. by rewrite (Honly _ _ Hf).
  - intros va Hva. rewrite Hnone by done. rewrite decide_False; [done|]. intros Hcv. by apply Exists_nil in Hcv.
Qed.

(** *** Giving back *)
Lemma free_cloned_pd_frees m T s f r' p : vm_inv k s m T -> T !! f = Some (r', p) -> length p = 2%nat ->
  freeing s (free_cloned_pd (ptr s f)) (level_frees (fun _ => []) s f 512).
Proof using.
  intros Hinv Hf Hp. destruct (vi_node _ _ _ _ Hinv _ _ _ Hf) as (Hram & _). pose proof (vi_mem _ _ _ _ Hinv) as Hmem.
  apply freeing_each. intros i Hi%elem_of_seqZ. apply freeing_load; [done..|lia|]. cbv zeta.
  destruct (present _) eqn:E; cbn [negb]; [|apply freeing_ret].
  destruct (vi_down _ _ _ _ Hinv _ _ _ i Hf ltac:(lia) ltac:(lia) E) as (d & Ed & Hd). pose proof (node_frame _ _ _ _ Hinv _ _ _ Hd).
  rewrite Ed, link_not_large, clone_mask_low, link_mask by lia. apply freeing_free. lia.
Qed.

Lemma free_cloned_frees m T s : vm_inv k s m T -> is_root T c ->
  freeing s (vmm_free_cloned_pml4 (c * PAGE_SIZE)) (frees_with (fun _ => []) s c).
Proof using.
  intros Hinv Hc'. pose proof (node_frame _ _ _ _ Hinv _ _ _ Hc'). unfold vmm_free_cloned_pml4, frees_with.
  destruct (Z.eqb_spec (c * PAGE_SIZE) 0); [lia|]. apply freeing_hhdm. fold (ptr s c).
  apply freeing_seq; [|apply freeing_free; lia].
  apply (level_freeing k s m T Hinv free_cloned_pdpt _ c c [] 256 false VMM_CLONE_PHYS_ADDR_MASK); [intros; apply clone_mask_low; lia|done|cbn; lia|lia|].
  intros i g _ Hg.
  apply (level_freeing k s m T Hinv free_cloned_pd _ g (home (kernel_root s) c [i]) [i] 512 true VMM_CLONE_PHYS_ADDR_MASK); [intros; apply clone_mask_low; lia|done|cbn; lia|lia|].
  intros j h _ Hh. by eapply free_cloned_pd_frees.
Qed.

(** What the rollback frees are the tables of the clone. *)
Lemma rollback_named m T s f : vm_inv k s m T -> is_root T c -> c <> kernel_root s ->
  (0 < named f (frees_with (fun _ => []) s c))%nat <-> exists p, T !! f = Some (c, p).
Proof using.
  intros Hinv Hc' HcK'. rewrite named_pos. split.
  - intros (a & Ha & H0 & <-). destruct (freed_with k s m T Hinv c Hc' HcK' _ a Ha) as [(x & p & -> & Hx)|(d & i & j & l & _ & _ & Hd)].
    + exists p. by replace (x * PAGE_SIZE / PAGE_SIZE) with x by zlia.
    + by apply elem_of_nil in Hd.
  - intros [p Hp]. exists (f * PAGE_SIZE). split; [by eapply (tables_freed k s m T)|].
    pose proof (node_frame _ _ _ _ Hinv _ _ _ Hp). split; zlia.
Qed.

Lemma rollback_used m T s : partial m T s -> is_root T c -> m1 !! c = Some 1 -> drop_all m (frees_with (fun _ => []) s c) = delete c m1.
Proof using Hinv1 Hc HcK Honly.
  intros Hp Hc' Hm1. pose proof (pa_inv _ _ _ Hp) as Hinv. pose proof (pa_ext _ _ _ Hp) as He.
  assert (c <> kernel_root s) as HcK' by by rewrite (vm_ext_root _ _ _ _ _ _ He).
  apply map_eq. intros f. rewrite drop_all_lookup. pose proof (rollback_named m T s f Hinv Hc' HcK') as Hn.
  destruct (named f _) as [|n] eqn:En.
  - assert (m !! f = m1 !! f) as E.
    { destruct (decide (m !! f = m1 !! f)) as [|Hne]; [done|]. apply (pa_used _ _ _ Hp), Hn in Hne. lia. }
    rewrite lookup_delete_ne; [rewrite E; by destruct (m1 !! f)|]. intros <-. assert (0 < 0)%nat; [apply Hn; by exists []|lia].
  - destruct (proj1 Hn ltac:(lia)) as [p Hf]. destruct (vi_node _ _ _ _ Hinv _ _ _ Hf) as (_ & -> & _).
    assert (drop_n (Some 1) (S n) = None) as ->. { unfold drop_n. cbn [Nat.eqb]. by destruct (Z.leb_spec 1 (Z.of_nat (S n))); [|lia]. }
    destruct (decide (f = c)) as [->|Hne]; [by rewrite lookup_delete_eq|]. rewrite lookup_delete_ne by done.
    destruct (m1 !! f) eqn:Em; [|done]. destruct (T1 !! f) as [[r' q]|] eqn:Et.
    + pose proof (lookup_weaken _ _ _ _ Et (ve_tables _ _ _ _ _ _ He)) as Et'. rewrite Hf in Et'. injection Et' as <- <-.
      rewrite (Honly _ _ Et) in Hf. by rewrite (vi_inj _ _ _ _ Hinv _ _ _ Hf Hc') in Hne.
    + destruct (ve_data _ _ _ _ _ _ He f) as [E _]; [by rewrite Em|done|]. congruence.
Qed.

Lemma rollback_tables m T s : partial m T s -> without c T = without c T1.
Proof using.
  intros Hp. pose proof (pa_ext _ _ _ Hp) as He. apply map_eq. intros f. apply option_eq. intros n. rewrite !without_lookup.
  split; intros [Hf Hn]; (split; [|done]); [|by eapply lookup_weaken; [|apply He]].
  destruct (T1 !! f) as [n'|] eqn:E; [|by apply (pa_new _ _ _ Hp f n Hf) in E].
  rewrite <- Hf. symmetry. by eapply lookup_weaken; [|apply He].
Qed.
End clone.

(** ** The whole operation *)

(** What an operation that only builds the tables of [c] keeps. *)
Definition kept_all (s s' : vm) (m : gmap Z Z) (T : gmap Z node) : Prop :=
  address_space_pool s' = address_space_pool s /\ kernel_space s' = kernel_space s /\ g_hhdm_offset s' = g_hhdm_offset s /\
  total_pages (phys_pages s') = total_pages (phys_pages s) /\ same_ptes s s' T /\ forall f, is_Some (m !! f) -> ram s' !! f = ram s !! f.

(** The free frames are no more than the tables of the space [r]: they are assigned to
    different tables of it. *)
Definition too_few (s : vm) (m : gmap Z Z) (T : gmap Z node) (r : Z) : Prop := exists h : Z -> Z,
  (forall f, 0 <= f < total_pages (phys_pages s) -> m !! f = None -> exists p, T !! h f = Some (r, p)) /\
  forall f f', 0 <= f < total_pages (phys_pages s) -> 0 <= f' < total_pages (phys_pages s) -> m !! f = None -> m !! f' = None ->
    h f = h f' -> f = f'.

Definition clone_post (k : Z) (s : vm) (m : gmap Z Z) (T : gmap Z node) (r : Z) (o : option Z) (s' : vm) : Prop :=
  kept_all s s' m T /\
  match o with
  | Some a => exists c m' T', a = c * PAGE_SIZE /\ vm_inv k s' m' T' /\ m ⊆ m' /\ T ⊆ T' /\ m !! c = None /\ is_root T' c /\
      (forall va, pte s' c va = pte s r va) /\ (forall f, m' !! f <> m !! f -> exists p, T' !! f = Some (c, p)) /\
      (forall f n, T' !! f = Some n -> T !! f = Some n \/ n.1 = c)
  | None => vm_inv k s' m T /\ too_few s m T r
  end.

Section whole.
  Context (k : Z) (s : vm) (m : gmap Z Z) (T : gmap Z node) (r c : Z) (pm : pmm) (pg : list Z).
  Hypothesis Hinv : vm_inv k s m T.
  Hypothesis Hr : is_root T r.
  Hypothesis Hc : m !! c = None.
  Hypothesis Hcr : 0 < c < total_pages (phys_pages s).
  Hypothesis Hpm : pmm_rep k pm (<[c := 1]> m).
  Hypothesis Htot : total_pages pm = total_pages (phys_pages s).
  Hypothesis Hpg : page_ok pg.
Let s1 := set_frame (set_pmm s pm) c pg.
  Hypothesis Hcopy : forall j, 0 <= j < 512 -> entry s1 c j = if 256 <=? j then entry s r j else 0.
Let m1 := <[c := 1]> m.
Let T1 := <[c := (c, [])]> T.

Lemma whole_fresh f p : T !! f = Some (c, p) -> False.
Proof using Hinv Hc. intros [Hf _]%(node_at_root k s m T Hinv). by rewrite (root_fresh k s m T c Hinv Hc) in Hf. Qed.

Lemma whole_only f p : T1 !! f = Some (c, p) -> p = [].
Proof using Hinv Hc.
  unfold T1. destruct (decide (f = c)) as [->|]; [rewrite lookup_insert_eq; by intros [= <-]|]. rewrite lookup_insert_ne by done.
  by intros Hf%whole_fresh.
Qed.

Lemma whole_root r' : is_root T r' -> r' <> c /\ is_root T1 r'.
Proof using Hinv Hc.
  intros Hr'. assert (r' <> c) as Hne by (intros ->; by apply whole_fresh in Hr'). split; [done|]. unfold T1. by rewrite lookup_insert_ne.
Qed.

Lemma whole_kept m' T' s' : partial k s1 m1 T1 r c m' T' s' -> kept_all s s' m T.
Proof using Hinv Hc Hcr Hpm Htot.
  intros Hp. pose proof (pa_ext _ _ _ _ _ _ _ _ _ Hp) as He. split; [by rewrite (ve_pool _ _ _ _ _ _ He)|].
  split; [by rewrite (ve_kernel _ _ _ _ _ _ He)|]. split; [by rewrite (ve_hhdm _ _ _ _ _ _ He)|].
  split; [by rewrite (ve_total _ _ _ _ _ _ He)|]. split.
  - intros r' va Hr'. destruct (whole_root r' Hr'). rewrite (pa_same _ _ _ _ _ _ _ _ _ Hp) by done. by apply (root_pte_other k s m T).
  - intros f Hf. assert (f <> c) as Hne by (intros ->; rewrite Hc in Hf; by destruct Hf). trans (ram s1 !! f); [|cbn; by rewrite lookup_insert_ne].
    destruct (T1 !! f) as [n|] eqn:E; [by apply (pa_ram _ _ _ _ _ _ _ _ _ Hp f n)|].
    apply (ve_data _ _ _ _ _ _ He); [|done]. unfold m1. by rewrite lookup_insert_ne.
Qed.

Lemma whole_inv : vm_inv k s1 m1 T1.
Proof using Hinv Hr Hc Hcr Hpm Htot Hpg Hcopy. by apply (root_inv k s m T r c pm pg). Qed.

Lemma whole_c : is_root T1 c.
Proof using. unfold T1. by rewrite lookup_insert_eq. Qed.

Lemma whole_success m' T' s' : cloning k s1 m1 T1 r c (entries [] (seqZ 0 256)) [] m' T' s' ->
  clone_post k s m T r (Some (c * PAGE_SIZE)) s'.
Proof using Hinv Hr Hc Hcr Hpm Htot Hpg Hcopy.
  intros [Hp _ Hpte]. pose proof (pa_ext _ _ _ _ _ _ _ _ _ Hp) as He. split; [by eapply whole_kept|].
  assert (T ⊆ T1) as HT by (apply insert_subseteq; by eapply root_fresh).
  exists c, m', T'. split_and!; [done|apply Hp| | |done| | | |].
  - etrans; [|apply He]. by apply insert_subseteq.
  - etrans; [done|apply He].
  - eapply lookup_weaken; [apply whole_c|apply He].
  - intros va. destruct (Z.lt_ge_cases (pml4_index va) 256).
    + rewrite Hpte by done. rewrite decide_True by by apply covered_all. by apply (root_pte_other k s m T).
    + rewrite (pa_upper _ _ _ _ _ _ _ _ _ Hp) by done. unfold s1. rewrite (root_pte k s m T r c pm pg) by done.
      by destruct (Z.leb_spec 256 (pml4_index va)); [|lia].
  - intros f Hf. destruct (decide (f = c)) as [->|Hne]; [exists []; eapply lookup_weaken; [apply whole_c|apply He]|].
    apply (pa_used _ _ _ _ _ _ _ _ _ Hp). unfold m1. by rewrite lookup_insert_ne.
  - intros f n Hf. destruct (T1 !! f) as [n'|] eqn:E; [|right; by apply (pa_new _ _ _ _ _ _ _ _ _ Hp f n)].
    pose proof (lookup_weaken _ _ _ _ E (ve_tables _ _ _ _ _ _ He)) as E'. rewrite Hf in E'. injection E' as <-. unfold T1 in E.
    destruct (decide (f = c)) as [->|]; [rewrite lookup_insert_eq in E; injection E as <-; by right|].
    rewrite lookup_insert_ne in E by done. by left.
Qed.

Lemma whole_short m' T' s' : partial k s1 m1 T1 r c m' T' s' -> exhausted s1 m' -> too_few s m T r.
Proof using Hinv Hr Hc Hcr Hpm Htot Hpg Hcopy.
  intros Hp Hx. pose proof (pa_ext _ _ _ _ _ _ _ _ _ Hp) as He. pose proof (pa_inv _ _ _ _ _ _ _ _ _ Hp) as Hinv'.
  set (h := fun f => match T' !! f with Some (_, p) => default 0 (node_at s1 r p) | None => 0 end).
  assert (forall f, 0 <= f < total_pages (phys_pages s) -> m !! f = None -> exists p,
    T' !! f = Some (c, p) /\ T1 !! h f = Some (r, p)) as Hh.
  { intros f Hf Hn. assert (exists p, T' !! f = Some (c, p)) as [p Hp'].
    { destruct (decide (f = c)) as [->|]; [exists []; eapply lookup_weaken; [apply whole_c|apply He]|].
      apply (pa_used _ _ _ _ _ _ _ _ _ Hp). unfold m1. rewrite lookup_insert_ne, Hn by done.
      destruct (Hx f) as [? ->]; [|done]. change (total_pages (phys_pages s1)) with (total_pages pm). by rewrite Htot. }
    exists p. split; [done|]. destruct (pa_parent _ _ _ _ _ _ _ _ _ Hp f p Hp') as [g Hg].
    destruct (node_at_root k s1 m1 T1 whole_inv p g r Hg) as [_ E]. unfold h. by rewrite Hp', E. }
  exists h. split.
  - intros f Hf Hn. destruct (Hh f Hf Hn) as (p & _ & Hg). exists p. destruct (whole_root r Hr) as [Hrc _].
    unfold T1 in Hg. destruct (decide (h f = c)) as [E|]; [rewrite E, lookup_insert_eq in Hg; congruence|]. by rewrite lookup_insert_ne in Hg.
  - intros f f' Hf Hf' Hn Hn' E. destruct (Hh f Hf Hn) as (p & Hp1 & Hg). destruct (Hh f' Hf' Hn') as (p' & Hp2 & Hg').
    rewrite E, Hg' in Hg. injection Hg as ->. by apply (vi_inj _ _ _ _ Hinv' f f' (c, p)).
Qed.

Lemma whole_failure m' T' s' : c <> kernel_root s -> partial k s1 m1 T1 r c m' T' s' -> exhausted s1 m' ->
  wp (vmm_free_cloned_pml4 (c * PAGE_SIZE);; mret None) (clone_post k s m T r) s'.
Proof using Hinv Hr Hc Hcr Hpm Htot Hpg Hcopy.
  intros HcK Hp Hx. pose proof (pa_inv _ _ _ _ _ _ _ _ _ Hp) as Hinv'. pose proof (pa_ext _ _ _ _ _ _ _ _ _ Hp) as He.
  assert (is_root T' c) as Hc' by (eapply lookup_weaken; [apply whole_c|apply He]).
  assert (c <> kernel_root s') as HcK' by by rewrite (vm_ext_root _ _ _ _ _ _ He).
  wp_step. eapply wp_mono; [|exact (freeing_start s' _ _ k m' (free_cloned_frees k c m' T' s' Hinv' Hc') (vi_pmm _ _ _ _ Hinv'))].
  intros u s2 (p & -> & Hp2 & Ht2). wp_step. pose proof (whole_kept _ _ _ Hp) as Hk.
  split; [destruct Hk as (? & ? & ? & ? & ?); unfold kept_all; cbn [phys_pages set_pmm]; by rewrite Ht2|]. split; [|by eapply whole_short].
  assert (delete c m1 = m) as Em by (unfold m1; by rewrite delete_insert_id).
  pose proof (rollback_used k s1 m1 T1 r c whole_inv whole_c HcK whole_only m' T' s' Hp Hc' ltac:(unfold m1; by rewrite lookup_insert_eq)) as Eu.
  rewrite Em in Eu. assert (without c T' = T) as Et.
  { rewrite (rollback_tables _ _ _ _ _ _ _ _ _ Hp). apply map_eq. intros f. apply option_eq. intros n. rewrite without_lookup. unfold T1.
    destruct (decide (f = c)) as [->|]; [|rewrite lookup_insert_ne by done].
    - rewrite lookup_insert_eq, (root_fresh k s m T c Hinv Hc). naive_solver.
    - split; [tauto|]. intros Hf. split; [done|]. intros E. destruct n as [r' q]. cbn in E. subst r'. by apply whole_fresh in Hf. }
  rewrite <- Eu, <- Et. apply unroot_inv; try done.
  - intros j Hj. destruct Hk as (Epool & _ & Eh & _). rewrite Epool in Hj. pose proof (vi_total _ _ _ _ Hinv).
    apply (fresh_slot k s m T c j Hinv (root_fresh k s m T c Hinv Hc)); [lia|]. rewrite Hj. unfold ptr. by rewrite Eh.
  - intros f Hn _. apply (rollback_named k c m' T' s' f Hinv' Hc' HcK') in Hn as [q Hf].
    destruct (vi_node _ _ _ _ Hinv' _ _ _ Hf) as (? & _ & ? & _). split; [done|]. split; [done|]. intros r' p'. rewrite Hf. by intros [= <- _].
Qed.
End whole.

Lemma clone_spec k s m T r : vm_inv k s m T -> is_root T r ->
  wp (vmm_clone_user_pml4 (r * PAGE_SIZE)) (clone_post k s m T r) s.
Proof.
  intros Hinv Hr. unfold vmm_clone_user_pml4. destruct (alloc_frame_spec k s m T Hinv) as (pm & a & Ea & Ht & Hcase).
  wp_step. exists (set_pmm s pm), a. split; [done|]. cbv beta. destruct Hcase as [(-> & Hpm & Hall)|(c & -> & Hcr & Hcn & Hpm)].
  { rewrite Z.eqb_refl. wp_step. rewrite Ht in Hall. split; [done|]. split; [|exists id; split; [intros f Hf Hn|intros f f' Hf _ Hn]; by destruct (Hall f Hf) as [? E]; rewrite Hn in E].
    by apply inv_same_pmm. }
  destruct (Z.eqb_spec (c * PAGE_SIZE) 0); [lia|]. rewrite Ht in Hcr. unfold hhdm. do 2 wp_step.
  set (s0 := set_pmm s pm). fold (ptr s0 c). assert (is_Some (ram s !! c)) as Hramc by (apply (vi_free _ _ _ _ Hinv); [lia|done]).
  wp_step. exists (set_frame s0 c zero_page), tt. split; [apply clear_raw; [exact (vi_mem _ _ _ _ Hinv)|done]|]. cbv beta.
  do 3 wp_step. change (u64 (r * PAGE_SIZE + g_hhdm_offset (set_frame s0 c zero_page))) with (ptr s0 r).
  destruct (whole_root k s m T c Hinv Hcn r Hr) as [Hrc Hr1]. pose proof (vi_total _ _ _ _ Hinv) as Htot.
  eapply wp_mono; [|apply (upper_half s0 c r); [exact (vi_mem _ _ _ _ Hinv)|lia| |done]]; [|by apply (vi_node _ _ _ _ Hinv) in Hr as [? _]].
  intros u s1 (pg & -> & Hpg & Hcopy). destruct (vi_kernel _ _ _ _ Hinv) as [HK _]. apply (whole_root k s m T c Hinv Hcn) in HK as [HKc _].
  pose proof (whole_inv k s m T r c pm pg Hinv Hr Hcn Hcr Hpm Ht Hpg Hcopy) as Hinv1.
  pose proof (whole_c T c) as Hc1. pose proof (whole_only k s m T c Hinv Hcn) as Honly.
  wp_step. eapply wp_mono; [|apply (clone_pml4_spec k (set_frame s0 c pg) _ _ r c Hinv1 Hr1 Hc1 Hrc Honly (<[c := 1]> m) _ _ Hc1), cloning_start; try done].
  - intros [] s2 (m' & T' & _ & H2); cbv iota.
    + wp_step. by eapply whole_success.
    + destruct H2. by eapply whole_failure.
  - intros va Hva. rewrite (root_pte k s m T r c pm pg) by done. by destruct (Z.leb_spec 256 (pml4_index va)); [lia|].
Qed.

(** C10: cloning the lower half of a space either gives a new space that translates every
    address as its parent, whose tables are the only new pages in use, or fails, and then
    exactly the pages in use before and the tables of before remain: the rollback frees every
    table that was built and nothing else.  It fails only when the free pages are no more
    than the tables of the parent.  Both ways no other space
    changes its translations, no page in use changes its contents, and the pool of spaces and
    the kernel's space stay as they are. *)
Theorem clone_correct k s m T r : vm_inv k s m T -> is_root T r ->
  exists s' o, vmm_clone_user_pml4 (r * PAGE_SIZE) s = Some (s', o) /\ clone_post k s m T r o s'.
Proof. apply clone_spec. Qed.

Lemma clone_correct_witness : exists k s' o, vmm_clone_user_pml4 (2 * PAGE_SIZE) demo_vm = Some (s', o) /\
  clone_post k demo_vm (<[2 := 1]> demo_used) {[2 := (2, [])]} 2 o s'.
Proof.
  destruct demo_inv as (k & Hinv). exists k. apply (clone_correct k demo_vm _ _ 2 Hinv). by rewrite lookup_singleton_eq.
Defined.
