(* ===== verification/VmmRefine.v ===== *)
(** * What the virtual memory manager promises

    An address space is a finite map from page numbers of the lower half to page-table
    entries, and the manager keeps one such map for every top-level table.  [vm_spec] says
    what each operation does to these maps; [vm_refines] proves that the page-table code
    implements it for every client that names only spaces it has been given. *)
From S2P Require Import Prelude Bytes Pmm StateM Vmm VmmInv VmmMap VmmSpace VmmInit VmmClone.
Local Open Scope Z_scope.
Local Open Scope c_scope.

(** ** The interface *)

(** Spaces are named by the frame [r] of their top level, pages by their number. *)
Inductive vm_op :=
  | Create
  | Clone (r : Z)
  | Map (r n phys flags : Z)
  | Unmap (r n : Z)
  | Protect (r n flags : Z)
  | Get_pte (r n : Z)
  | Get_phys (r virt : Z).

Inductive vm_res :=
  | R_space (c : option Z)
  | R_ok (ok : bool)
  | R_val (v : Z)
  | R_unit.

Definition vm_exec (o : vm_op) : M vm vm_res :=
  match o with
  | Create =>
      sp ← vmm_create_address_space;
      match sp with
      | None => mret (R_space None)
      | Some sp => cr3 ← gets (fun s => vmm_get_pml4_phys s (Some sp)); mret (R_space (Some (cr3 / PAGE_SIZE)))
      end
  | Clone r => c ← vmm_clone_user_pml4 (r * PAGE_SIZE); mret (R_space (option_map (fun a => a / PAGE_SIZE) c))
  | Map r n phys flags => ok ← vmm_map_page_by_cr3 (r * PAGE_SIZE) (n * PAGE_SIZE) phys flags; mret (R_ok ok)
  | Unmap r n => vmm_unmap_page_by_cr3 (r * PAGE_SIZE) (n * PAGE_SIZE);; mret R_unit
  | Protect r n flags => ok ← vmm_protect_page_by_cr3 (r * PAGE_SIZE) (n * PAGE_SIZE) flags; mret (R_ok ok)
  | Get_pte r n => v ← vmm_get_pte (r * PAGE_SIZE) (n * PAGE_SIZE); mret (R_val v)
  | Get_phys r virt => v ← vmm_get_physical_address (r * PAGE_SIZE) virt; mret (R_val v)
  end.

(** A client chooses its next operation from the results so far. *)
Inductive client := Done | Do (o : vm_op) (next : vm_res -> client).

Fixpoint run_client (c : client) : M vm (list vm_res) :=
  match c with
  | Done => mret []
  | Do o next => r ← vm_exec o; l ← run_client (next r); mret (r :: l)
  end.

(** ** The specification *)
Record vm_abs := Vm_abs { used : gmap Z Z; spaces : gmap Z (gmap Z Z); slots : nat }.

Definition map_entry (mu : gmap Z Z) (n : Z) (e : option Z) : gmap Z Z :=
  match e with Some e => <[n := e]> mu | None => delete n mu end.

Definition op_ok (a : vm_abs) (o : vm_op) : Prop :=
  match o with
  | Create => (0 < slots a)%nat
  | Clone r => is_Some (spaces a !! r)
  | Map r n phys flags => is_Some (spaces a !! r) /\ 0 <= n < 2 ^ 35 /\ in_u 64 (phys |. flags)
  | Unmap r n | Protect r n _ | Get_pte r n => is_Some (spaces a !! r) /\ 0 <= n < 2 ^ 35
  | Get_phys r virt => is_Some (spaces a !! r) /\ 0 <= virt < 2 ^ 47
  end.

(** All [N] frames are in use. *)
Definition full (N : Z) (a : vm_abs) : Prop := forall i, 0 <= i < N -> is_Some (used a !! i).

(** The operations that need frames may use some and fail for want of more. *)
Inductive vm_spec (N : Z) : vm_abs -> vm_op -> vm_res -> vm_abs -> Prop :=
  | S_create a c : used a !! c = None -> spaces a !! c = None -> (0 < slots a)%nat ->
      vm_spec N a Create (R_space (Some c)) (Vm_abs (<[c := 1]> (used a)) (<[c := ∅]> (spaces a)) (pred (slots a)))
  | S_create_fail a : full N a -> vm_spec N a Create (R_space None) a
  | S_clone a r mu c m' : spaces a !! r = Some mu -> used a !! c = None -> spaces a !! c = None -> used a ⊆ m' ->
      vm_spec N a (Clone r) (R_space (Some c)) (Vm_abs m' (<[c := mu]> (spaces a)) (slots a))
  | S_clone_fail a r : vm_spec N a (Clone r) (R_space None) a
  | S_map a r mu n phys flags m' : spaces a !! r = Some mu -> used a ⊆ m' ->
      vm_spec N a (Map r n phys flags) (R_ok true)
        (Vm_abs m' (<[r := map_entry mu n (kept (phys |. flags))]> (spaces a)) (slots a))
  | S_map_fail a r n phys flags m' : used a ⊆ m' -> full N (Vm_abs m' (spaces a) (slots a)) ->
      vm_spec N a (Map r n phys flags) (R_ok false) (Vm_abs m' (spaces a) (slots a))
  | S_unmap a r mu n : spaces a !! r = Some mu ->
      vm_spec N a (Unmap r n) R_unit (Vm_abs (used a) (<[r := delete n mu]> (spaces a)) (slots a))
  | S_protect a r mu n fl e : spaces a !! r = Some mu -> mu !! n = Some e ->
      vm_spec N a (Protect r n fl) (R_ok true) (Vm_abs (used a) (<[r := <[n := protected e fl]> mu]> (spaces a)) (slots a))
  | S_protect_fail a r mu n fl : spaces a !! r = Some mu -> mu !! n = None -> vm_spec N a (Protect r n fl) (R_ok false) a
  | S_get_pte a r mu n : spaces a !! r = Some mu -> vm_spec N a (Get_pte r n) (R_val (default 0 (mu !! n))) a
  | S_get_phys a r mu virt : spaces a !! r = Some mu ->
      vm_spec N a (Get_phys r virt) (R_val match mu !! (virt / PAGE_SIZE) with
        | Some e => (e &. PAGE_MASK) |. (virt &. 0xFFF) | None => 0 end) a.

(** A client that names only spaces it has been given, whatever the manager answers. *)
Fixpoint client_ok (N : Z) (a : vm_abs) (c : client) : Prop :=
  match c with
  | Done => True
  | Do o next => op_ok a o /\ forall r a', vm_spec N a o r a' -> client_ok N a' (next r)
  end.

Inductive vm_trace (N : Z) : vm_abs -> client -> list vm_res -> vm_abs -> Prop :=
  | T_done a : vm_trace N a Done [] a
  | T_do a o next r a' l a'' : vm_spec N a o r a' -> vm_trace N a' (next r) l a'' -> vm_trace N a (Do o next) (r :: l) a''.

(** ** The refinement relation *)
Definition free_slots (pool : list Z) : nat := length (filter (fun t => t = 0) pool).

Lemma free_slot_exists pool : (0 < free_slots pool)%nat -> exists i, get pool i = Some 0.
Proof.
  unfold free_slots. destruct (filter _ pool) as [|t l] eqn:E; [cbn; lia|]. intros _.
  assert (t ∈ filter (fun t => t = 0) pool) as [-> [i Hi]%list_elem_of_lookup]%list_elem_of_filter by (rewrite E; by left).
  exists (Z.of_nat i). unfold get. destruct (Z.ltb_spec (Z.of_nat i) 0); [lia|]. by rewrite Nat2Z.id.
Qed.

Lemma free_slots_upd pool i t : get pool i = Some 0 -> t <> 0 -> free_slots (upd pool i t) = pred (free_slots pool).
Proof.
  unfold get, upd. destruct (Z.ltb_spec i 0); [done|]. intros Hi Ht. generalize dependent (Z.to_nat i). clear H i. intros i Hi.
  unfold free_slots. rewrite <- (take_drop_middle pool i 0 Hi) at 2. rewrite insert_take_drop by (by apply lookup_lt_Some in Hi).
  rewrite !filter_app, !length_app, !filter_cons, decide_False, decide_True by done. cbn. lia.
Qed.

(** The state [s] implements [a]; [U] is what all spaces share, the kernel's half. *)
Record vm_rep (k N : Z) (U : Z -> option Z) (s : vm) (a : vm_abs) (T : gmap Z node) : Prop := {
  vr_inv : vm_inv k s (used a) T;
  vr_total : total_pages (phys_pages s) = N;
  vr_slots : slots a = free_slots (address_space_pool s);
  vr_spaces : forall r, is_Some (spaces a !! r) <-> is_root T r /\ r <> kernel_root s;
  vr_pages : forall r mu n, spaces a !! r = Some mu -> 0 <= n < 2 ^ 35 -> pte s r (n * PAGE_SIZE) = mu !! n;
  vr_upper : forall r va, is_root T r -> 256 <= pml4_index va -> pte s r va = U (vpn va)
}.

Lemma vm_abs_eta a : Vm_abs (used a) (spaces a) (slots a) = a.
Proof. by destruct a. Qed.

Section refine.
  Context (k N : Z) (U : Z -> option Z) (s : vm) (a : vm_abs) (T : gmap Z node).
  Hypothesis Hrep : vm_rep k N U s a T.
Let K := kernel_root s.

Lemma rep_root r mu : spaces a !! r = Some mu -> is_root T r /\ r <> K.
Proof using Hrep. intros H. apply (vr_spaces _ _ _ _ _ _ Hrep). by rewrite H. Qed.

Lemma rep_own r n : 0 <= n < 2 ^ 35 -> own s r (n * PAGE_SIZE).
Proof using. intros Hn. right. by apply user_page_index. Qed.

(** A step that only extends the tables and sets one entry. *)
Lemma rep_maps s' m' T' r mu n v : vm_inv k s' m' T' -> vm_ext s s' (used a) m' T T' -> maps s s' T r (n * PAGE_SIZE) v ->
  spaces a !! r = Some mu -> 0 <= n < 2 ^ 35 -> vm_rep k N U s' (Vm_abs m' (<[r := map_entry mu n v]> (spaces a)) (slots a)) T'.
Proof using Hrep.
  intros Hinv He Hm Hr Hn. destruct (rep_root r mu Hr) as [Hroot HrK]. pose proof (user_page_index n Hn) as Hlow.
  pose proof (vm_ext_root _ _ _ _ _ _ He) as EK. split; cbn [used spaces slots]; [done| | | | |].
  - rewrite (ve_total _ _ _ _ _ _ He). apply Hrep.
  - rewrite (ve_pool _ _ _ _ _ _ He). apply Hrep.
  - intros r'. rewrite EK. destruct (decide (r' = r)) as [->|].
    + rewrite lookup_insert_eq. split; [|done]. intros _. split; [|done]. by eapply lookup_weaken; [|apply He].
    + rewrite lookup_insert_ne by done. rewrite (vr_spaces _ _ _ _ _ _ Hrep). split; intros [H1 H2]; (split; [|done]).
      * by eapply lookup_weaken; [|apply He].
      * by apply (ve_roots _ _ _ _ _ _ He).
  - intros r' mu' n' Hr' Hn'. assert (is_root T r') as Hroot'.
    { destruct (decide (r' = r)) as [->|]; [done|]. rewrite lookup_insert_ne in Hr' by done. by apply rep_root in Hr' as [? _]. }
    rewrite Hm by auto.
    rewrite !user_page_vpn by lia. destruct (decide (r' = r)) as [->|].
    + rewrite lookup_insert_eq in Hr'. injection Hr' as <-. rewrite (bool_decide_ext _ (n' = n)) by naive_solver.
      case_bool_decide as E; [subst n'; destruct v; cbn; by rewrite ?lookup_insert_eq, ?lookup_delete_eq|].
      rewrite (vr_pages _ _ _ _ _ _ Hrep r mu) by done. destruct v; cbn; by rewrite ?lookup_insert_ne, ?lookup_delete_ne by done.
    + rewrite lookup_insert_ne in Hr' by done. rewrite bool_decide_eq_false_2 by naive_solver. by apply (vr_pages _ _ _ _ _ _ Hrep).
  - intros r' va Hr' Hva. apply (ve_roots _ _ _ _ _ _ He) in Hr'. rewrite Hm by auto.
    rewrite bool_decide_eq_false_2; [by apply (vr_upper _ _ _ _ _ _ Hrep)|]. intros [_ [E _]%vpn_eq]. unfold table_path in E. injection E as E _ _. lia.
Qed.

(** A step that leaves every translation. *)
Lemma rep_same s' m' T' : vm_inv k s' m' T' -> vm_ext s s' (used a) m' T T' -> same_ptes s s' T ->
  vm_rep k N U s' (Vm_abs m' (spaces a) (slots a)) T'.
Proof using Hrep.
  intros Hinv He Hs. split; cbn [used spaces slots]; [done| | | | |].
  - rewrite (ve_total _ _ _ _ _ _ He). apply Hrep.
  - rewrite (ve_pool _ _ _ _ _ _ He). apply Hrep.
  - intros r. rewrite (vm_ext_root _ _ _ _ _ _ He), (vr_spaces _ _ _ _ _ _ Hrep). split; intros [H1 H2]; (split; [|done]).
    + by eapply lookup_weaken; [|apply He].
    + by apply (ve_roots _ _ _ _ _ _ He).
  - intros r mu n Hr Hn. destruct (rep_root r mu Hr) as [? _]. rewrite Hs by done. by apply (vr_pages _ _ _ _ _ _ Hrep).
  - intros r va Hr Hva. apply (ve_roots _ _ _ _ _ _ He) in Hr. rewrite Hs by done. by apply (vr_upper _ _ _ _ _ _ Hrep).
Qed.

(** A new space. *)
Lemma rep_new s' m' T' c mu sl : vm_inv k s' m' T' -> total_pages (phys_pages s') = total_pages (phys_pages s) ->
  kernel_root s' = K -> sl = free_slots (address_space_pool s') -> T ⊆ T' -> is_root T' c -> T !! c = None ->
  (forall r, is_root T' r -> is_root T r \/ r = c) -> same_ptes s s' T ->
  (forall n, 0 <= n < 2 ^ 35 -> pte s' c (n * PAGE_SIZE) = mu !! n) -> (forall va, 256 <= pml4_index va -> pte s' c va = U (vpn va)) ->
  vm_rep k N U s' (Vm_abs m' (<[c := mu]> (spaces a)) sl) T'.
Proof using Hrep.
  intros Hinv Ht EK Hsl Hsub Hc Hfresh Hroots Hs Hlow Hup. destruct (vi_kernel _ _ _ _ (vr_inv _ _ _ _ _ _ Hrep)) as [HK _].
  assert (c <> K) as HcK by (intros E; unfold K in E; rewrite E in Hfresh; congruence).
  split; cbn [used spaces slots]; [done|rewrite Ht; apply Hrep|done| | |].
  - intros r. rewrite EK. destruct (decide (r = c)) as [->|]; [rewrite lookup_insert_eq; by split|].
    rewrite lookup_insert_ne, (vr_spaces _ _ _ _ _ _ Hrep) by done. split; intros [H1 H2]; (split; [|done]).
    + by eapply lookup_weaken.
    + by destruct (Hroots r H1).
  - intros r mu' n Hr Hn. destruct (decide (r = c)) as [->|]; [rewrite lookup_insert_eq in Hr; injection Hr as <-; by apply Hlow|].
    rewrite lookup_insert_ne in Hr by done. destruct (rep_root r mu' Hr) as [? _]. rewrite Hs by done. by apply (vr_pages _ _ _ _ _ _ Hrep).
  - intros r va Hr Hva. destruct (Hroots r Hr) as [Hr'| ->]; [|by apply Hup]. rewrite Hs by done. by apply (vr_upper _ _ _ _ _ _ Hrep).
Qed.

Definition simulates (o : vm_op) (res : vm_res) (s' : vm) : Prop := exists a' T', vm_spec N a o res a' /\ vm_rep k N U s' a' T'.

Lemma create_simulates : op_ok a Create -> wp (vm_exec Create) (simulates Create) s.
Proof using Hrep.
  intros Hok. cbn [op_ok] in Hok. pose proof (vr_inv _ _ _ _ _ _ Hrep) as Hinv. rewrite (vr_slots _ _ _ _ _ _ Hrep) in Hok.
  cbn [vm_exec]. wp_step. eapply wp_mono; [|by apply (create_spec k s (used a) T Hinv), free_slot_exists]. intros [sp|] s' H'.
  - destruct H' as (i & c & -> & Hi & Hcm & HcT & Hinv' & EK & Eh & Et & Epool & _ & Hnew & Hsame). do 3 wp_step.
    assert (is_root (<[c := (c, [])]> T) c) as Hc by by rewrite lookup_insert_eq. pose proof (node_frame _ _ _ _ Hinv' _ _ _ Hc) as Hcf.
    assert (ptr s' c <> 0) as H0 by (apply (ptr_nonzero k s' _ _ c Hinv'); lia).
    assert (vmm_get_pml4_phys s' (Some (Pool_space i)) / PAGE_SIZE = c) as ->.
    { unfold vmm_get_pml4_phys, get_pml4_phys, top_level. rewrite Epool, get_upd_eq by by apply get_Some_bound in Hi.
      change (default 0 (Some (ptr s' c))) with (ptr s' c). destruct (Z.eqb_spec (ptr s' c) 0); [done|]. rewrite phys_ptr by lia. zlia. }
    eexists _, _. split; [apply S_create; [done| |by rewrite (vr_slots _ _ _ _ _ _ Hrep)]|].
    { apply eq_None_not_Some. rewrite (vr_spaces _ _ _ _ _ _ Hrep). rewrite HcT. by intros [? _]. }
    apply rep_new; try done.
    + by rewrite Epool, free_slots_upd, (vr_slots _ _ _ _ _ _ Hrep).
    + by apply insert_subseteq.
    + intros r Hr. destruct (decide (r = c)) as [->|]; [by right|left]. by rewrite lookup_insert_ne in Hr.
    + intros n Hn. rewrite Hnew, lookup_empty. pose proof (user_page_index n Hn). by destruct (Z.leb_spec 256 (pml4_index (n * PAGE_SIZE))); [lia|].
    + intros va Hva. rewrite Hnew. destruct (Z.leb_spec 256 (pml4_index va)); [|lia]. apply (vr_upper _ _ _ _ _ _ Hrep); [|done].
      by destruct (vi_kernel _ _ _ _ Hinv).
  - destruct H' as (Hinv' & Hx & E & Et). wp_step. exists a, T. split; [apply S_create_fail; by rewrite <- (vr_total _ _ _ _ _ _ Hrep)|].
    rewrite <- (vm_abs_eta a). apply (rep_same s' (used a) T Hinv'); rewrite E; [|intros r va _; by apply pte_ram].
    by split.
Qed.

Lemma clone_simulates r : op_ok a (Clone r) -> wp (vm_exec (Clone r)) (simulates (Clone r)) s.
Proof using Hrep.
  intros [mu Hmu]. destruct (rep_root r mu Hmu) as [Hr _]. pose proof (vr_inv _ _ _ _ _ _ Hrep) as Hinv.
  cbn [vm_exec]. wp_step. eapply wp_mono; [|by apply (clone_spec k s (used a) T r)].
  intros o s' [(Epool & EK & Eh & Et & Hsame & _) Ho]. wp_step.
  assert (kernel_root s' = kernel_root s) as Er by (unfold kernel_root; congruence). destruct o as [x|]; cbn [option_map].
  - destruct Ho as (c & m' & T' & -> & Hinv' & Hm & HT & Hcm & Hc & Hpte & _ & Hnew). replace (c * PAGE_SIZE / PAGE_SIZE) with c by zlia.
    assert (T !! c = None) as HcT by (by apply (table_fresh k s (used a) T c Hinv)).
    eexists _, _. split; [apply (S_clone _ _ _ mu _ m'); try done|].
    { apply eq_None_not_Some. rewrite (vr_spaces _ _ _ _ _ _ Hrep). rewrite HcT. by intros [? _]. }
    apply rep_new; try done.
    + by rewrite Epool, (vr_slots _ _ _ _ _ _ Hrep).
    + intros r' Hr'. by destruct (Hnew _ _ Hr'); [left|right].
    + intros n Hn. rewrite Hpte. by apply (vr_pages _ _ _ _ _ _ Hrep).
    + intros va Hva. rewrite Hpte. by apply (vr_upper _ _ _ _ _ _ Hrep).
  - destruct Ho as [Hinv' _]. exists a, T. split; [apply S_clone_fail|]. destruct Hrep. split; try congruence.
    + intros r'. rewrite Er. auto.
    + intros r' mu' n Hr' Hn. apply rep_root in Hr' as Hr''. rewrite Hsame by apply Hr''. auto.
    + intros r' va Hr' Hva. rewrite Hsame by done. auto.
Qed.

Lemma page_simulates o : op_ok a o -> match o with Create | Clone _ => False | _ => True end -> wp (vm_exec o) (simulates o) s.
Proof using Hrep.
  pose proof (vr_inv _ _ _ _ _ _ Hrep) as Hinv. pose proof (vr_pages _ _ _ _ _ _ Hrep) as Hpages. intros Hok Ho.
  destruct o as [|r|r n phys flags|r n|r n fl|r n|r virt]; try done; cbn [op_ok] in Hok; destruct Hok as [[mu Hmu] Hn];
    destruct (rep_root r mu Hmu) as [Hr _]; cbn [vm_exec]; wp_step.
  - destruct Hn as [Hn Hv]. eapply wp_mono; [|apply (map_page_by_cr3_spec k s (used a) T r); try done; by apply rep_own].
    intros ok s' (m' & T' & Hinv' & He & _ & H'). wp_step. destruct ok.
    + eexists _, _. split; [apply (S_map _ _ _ mu _ _ _ m'); [done|apply He]|]. by apply rep_maps.
    + destruct H' as [Hs Hx]. eexists _, _. split; [apply (S_map_fail _ _ _ _ _ _ m'); [apply He|]|by apply rep_same].
      intros i Hi. apply Hx. by rewrite (vr_total _ _ _ _ _ _ Hrep).
  - eapply wp_mono; [|apply (unmap_spec k s (used a) T Hinv r); [done|by apply rep_own]]. intros u s' (Hinv' & He & H'). wp_step.
    eexists _, _. split; [by apply (S_unmap _ _ _ mu)|]. by apply (rep_maps s' (used a) T r mu n None).
  - eapply wp_mono; [|apply (protect_spec k s (used a) T Hinv r); [done|by apply rep_own]]. intros ok s' (Hinv' & He & H'). wp_step.
    rewrite (Hpages r mu) in H' by done. destruct (mu !! n) as [e|] eqn:E; destruct H' as [-> H'].
    + eexists _, _. split; [by apply (S_protect _ _ _ mu)|]. by apply (rep_maps s' (used a) T r mu n (Some (protected e fl))).
    + subst s'. exists a, T. split; [by apply (S_protect_fail _ _ _ mu)|done].
  - apply (get_pte_spec k s (used a) T Hinv r); [done|]. wp_step. rewrite (Hpages r mu) by done. exists a, T. split; [by apply S_get_pte|done].
  - apply (get_physical_address_spec k s (used a) T Hinv r); [done|]. wp_step.
    assert (pte s r virt = mu !! (virt / PAGE_SIZE)) as ->.
    { rewrite <- (Hpages r mu) by (done || zlia). apply pte_vpn. unfold vpn. zlia. }
    exists a, T. split; [by apply S_get_phys|done].
Qed.

Lemma vm_simulation o : op_ok a o -> wp (vm_exec o) (simulates o) s.
Proof using Hrep.
  intros Hok. destruct o; [by apply create_simulates|by apply clone_simulates|by apply page_simulates..].
Qed.
End refine.

(** C8: the page tables implement the maps.  Take a state that implements some address
    spaces (for each a finite map from the pages of the lower half to their entries, the
    kernel's half shared by all) and any client that names only spaces it was given and
    pages of the lower half, creates a space only while the pool has a free slot, and
    chooses its operations by the results.  Then all its calls return, the results are those
    that the specification allows (with a free slot, creation and mapping fail only when
    every frame is in use; a change in one space is seen in no other one and not in the
    shared half), and the last state implements the last maps. *)
Theorem vm_refines (k N : Z) (U : Z -> option Z) (c : client) : forall (s : vm) (a : vm_abs) (T : gmap Z node),
  vm_rep k N U s a T -> client_ok N a c ->
  exists s' l a' T', run_client c s = Some (s', l) /\ vm_trace N a c l a' /\ vm_rep k N U s' a' T'.
Proof.
  enough (forall s a T, vm_rep k N U s a T -> client_ok N a c ->
    wp (run_client c) (fun l s' => exists a' T', vm_trace N a c l a' /\ vm_rep k N U s' a' T') s) as H.
  { intros s a T Hrep Hok. destruct (H s a T Hrep Hok) as (s' & l & E & a' & T' & H'). by exists s', l, a', T'. }
  induction c as [|o next IH]; intros s a T Hrep Hok; cbn [run_client].
  - wp_step. exists a, T. split; [constructor|done].
  - destruct Hok as [Hop Hnext]. wp_step. eapply wp_mono; [|by apply (vm_simulation k N U s a T)].
    intros r s1 (a1 & T1 & Hspec & Hrep1). wp_step. eapply wp_mono; [|by eapply IH; [|apply Hnext]].
    intros l s2 (a2 & T2 & Htr & Hrep2). wp_step. exists a2, T2. split; [by eapply T_do|done].
Qed.

(** A client that makes a space, maps a page in it and asks for it. *)
Definition demo_client : client :=
  Do Create (fun r =>
    match r with
    | R_space (Some c) => Do (Map c 1024 0xA000 7) (fun _ => Do (Get_phys c 0x400123) (fun _ => Done))
    | _ => Done
    end).

Definition demo_abs : vm_abs := Vm_abs (<[2 := 1]> demo_used) ∅ 32.

Lemma demo_client_ok N : client_ok N demo_abs demo_client.
Proof.
  split; [cbn; lia|]. intros r a' H. inversion H; subst; [|done]. split; [cbn [op_ok spaces]; split; [by rewrite lookup_insert_eq|split; [lia|by vm_compute]]|].
  intros r' a'' H'. inversion H'; subst; (split; [|done]); cbn; (split; [|lia]); cbn in *; by rewrite lookup_insert_eq.
Qed.

Lemma demo_vm_rep : exists k, vm_rep k 16 (fun _ => None) demo_vm demo_abs {[2 := (2, [])]}.
Proof.
  destruct demo_inv as (k & Hinv). exists k. split; [exact Hinv|by vm_compute|reflexivity| | |].
  - intros r. cbn [spaces demo_abs]. rewrite lookup_empty, lookup_singleton_Some, demo_root. split; [by intros []|]. intros [[<- _] []]. done.
  - intros r mu n. cbn [spaces demo_abs]. by rewrite lookup_empty.
  - intros r va [<- _]%lookup_singleton_Some _. apply demo_pte.
Qed.

Lemma vm_refines_witness : exists k s' l a' T', run_client demo_client demo_vm = Some (s', l) /\
  vm_trace 16 demo_abs demo_client l a' /\ vm_rep k 16 (fun _ => None) s' a' T'.
Proof.
  destruct demo_vm_rep as (k & Hrep). exists k. apply (vm_refines k 16 _ demo_client _ _ _ Hrep). apply demo_client_ok.
Defined.
