(* ===== verification/VmmDestroy.v ===== *)
(** * Destruction of an address space

    [vmm_destroy_address_space] gives back the tables of a space and drops one reference of
    each page that its lower half maps, but it takes the page number with the no-execute
    bit, so that pages without the right to execute are never given back.  A space is lost
    also when the pool is full. *)
From S2P Require Import Prelude Bytes Pmm StateM Vmm VmmInv VmmMap VmmSpace VmmInit.
Local Open Scope Z_scope.
Local Open Scope c_scope.

(** What is left: the tables of [r] are free, a page that is no table loses as many
    references as entries of the lower half name it (with bit 63 part of the name). *)
Definition destroyed (s : vm) (m : gmap Z Z) (T : gmap Z node) (r : Z) (m' : gmap Z Z) : Prop :=
  (forall x p, T !! x = Some (r, p) -> m' !! x = None) /\
  (forall x r' p, T !! x = Some (r', p) -> r' <> r -> m' !! x = m !! x) /\
  (forall x, T !! x = None -> x <> 0 -> m' !! x = drop_n (m !! x) (mapped x (user_ptes s r))).

Section destroyed.
  Context (k : Z) (s : vm) (m : gmap Z Z) (T : gmap Z node) (i r : Z).
  Hypothesis Hinv : vm_inv k s m T.
  Hypothesis Hslot : get (address_space_pool s) i = Some (ptr s r).
  Hypothesis Hr : is_root T r.
  Hypothesis HrK : r <> kernel_root s.
  Hypothesis Hclean : clean s m T r.

Lemma destroyed_used : destroyed s m T r (drop_all m (frees s r)).
Proof using Hinv Hr HrK Hclean.
  split; [|split].
  - intros x p Hx. rewrite drop_all_lookup. destruct (vi_node _ _ _ _ Hinv _ _ _ Hx) as (_ & -> & _).
    assert (0 < named x (frees s r))%nat as Hn.
    { apply named_pos. exists (x * PAGE_SIZE). pose proof (node_frame _ _ _ _ Hinv _ _ _ Hx). split; [|split; zlia].
      rewrite frees_frees_with. by eapply (tables_freed k s m T). }
    unfold drop_n. destruct (Nat.eqb_spec (named x (frees s r)) 0); [lia|]. by destruct (Z.leb_spec 1 (Z.of_nat (named x (frees s r)))); [|lia].
  - intros x r' p Hx Hne. rewrite (dropped_other k s m T r (frees s r) Hinv (freed_frame k s m T r Hinv Hr HrK Hclean) x r' p Hx Hne).
    by destruct (vi_node _ _ _ _ Hinv _ _ _ Hx) as (_ & -> & _).
  - intros x Hx H0. rewrite drop_all_lookup, (frees_named k s m T r x) by (done || congruence). done.
Qed.

Lemma destroy_whole : exists s' m', vmm_destroy_address_space (Some (Pool_space i)) s = Some (s', tt) /\
  vm_inv k s' m' (without r T) /\ address_space_pool s' = upd (address_space_pool s) i 0 /\ ram s' = ram s /\ destroyed s m T r m'.
Proof using Hinv Hslot Hr HrK Hclean.
  destruct (destroy_spec k s m T i r Hinv Hslot Hr HrK) as (s' & [] & E & p & -> & Hp & Ht).
  exists {| (set_pmm s p) with address_space_pool := upd (address_space_pool s) i 0 |}, (drop_all m (frees s r)).
  split; [done|]. split; [by apply destroyed_inv|]. split; [done|]. split; [done|]. apply destroyed_used.
Qed.

(** A page that is mapped only without the right to execute is not counted. *)
Lemma mapped_0 x l : (forall e, e ∈ l -> frame_of e <> x) -> mapped x l = 0%nat.
Proof using.
  intros H. unfold mapped. induction l as [|e l IH]; [done|]. cbn [List.filter].
  destruct (Z.eqb_spec (frame_of e) x) as [E|_]; [by apply H in E; [|left]|]. apply IH. intros e' He'. apply H. by right.
Qed.

Lemma pte_u64 va e : pte s r va = Some e -> in_u 64 e.
Proof using Hinv.
  unfold pte. destruct (node_at _ _ _) as [f|]; [|done]. cbv zeta. destruct (present _); [|done]. intros [= <-]. by eapply entry_u64.
Qed.

Lemma frame_of_low e x : in_u 64 e -> frame_of e = x -> x < 2 ^ 40 -> phys_frame e = x /\ Z.testbit e 63 = false.
Proof using.
  intros Hu Hf Hx. unfold frame_of in Hf. rewrite page_mask in Hf by done. assert (0 <= e < 2 ^ 52) as He by (unfold in_u in Hu; zlia).
  split; [|by apply (testbit_high 52)]. unfold phys_frame.
  change VMM_CLONE_PHYS_ADDR_MASK with (Z.ones 52 &. PAGE_MASK). rewrite Z.land_assoc, Z.land_ones, Z.mod_small by lia.
  by rewrite page_mask.
Qed.

Lemma user_ptes_in e : e ∈ user_ptes s r -> exists n, 0 <= n < 2 ^ 35 /\ pte s r (n * PAGE_SIZE) = Some e.
Proof using.
  unfold user_ptes. rewrite list_elem_of_omap. intros (n & Hn & He). rewrite elem_of_seqZ in Hn. exists n. split; [lia|done].
Qed.

Lemma nx_not_mapped x : x < 2 ^ 40 ->
  (forall va e, pml4_index va < 256 -> pte s r va = Some e -> phys_frame e = x -> Z.testbit e 63 = true) -> mapped x (user_ptes s r) = 0%nat.
Proof using Hinv.
  intros Hx Hnx. apply mapped_0. intros e He Hf. apply user_ptes_in in He as (n & Hn & He). destruct (frame_of_low e x (pte_u64 _ _ He) Hf Hx) as [Hp H63].
  rewrite (Hnx _ e (user_page_index n ltac:(lia)) He Hp) in H63. done.
Qed.
End destroyed.

(** C36: destruction gives back the tables of the space and one reference of every page it
    maps.  For a space of the pool whose lower half maps no table, the call returns, the slot
    is empty, the state is well formed without the tables of the space, all of which are
    free again, no other table is touched, memory keeps its contents, and every other page
    has lost as many references as present entries of the lower half have its number, and is
    free when these were all. *)
Theorem destroy_correct (k : Z) (s : vm) (m : gmap Z Z) (T : gmap Z node) (i r : Z) :
  vm_inv k s m T -> get (address_space_pool s) i = Some (ptr s r) -> is_root T r -> r <> kernel_root s -> clean s m T r ->
  exists s' m', vmm_destroy_address_space (Some (Pool_space i)) s = Some (s', tt) /\
    vm_inv k s' m' (without r T) /\ address_space_pool s' = upd (address_space_pool s) i 0 /\ ram s' = ram s /\ destroyed s m T r m'.
Proof. apply destroy_whole. Qed.

(** C38: pages without the right to execute are never given back.  A frame that the space
    maps only through entries with the no-execute bit has as many references after the
    destruction of the space as before it: the page of a data segment, a stack or a heap
    that only this space owned stays in use for ever. *)
Theorem destroy_leaks_nx (k : Z) (s : vm) (m : gmap Z Z) (T : gmap Z node) (i r x : Z) :
  vm_inv k s m T -> get (address_space_pool s) i = Some (ptr s r) -> is_root T r -> r <> kernel_root s -> clean s m T r ->
  T !! x = None -> 0 < x < total_pages (phys_pages s) ->
  (forall va e, pml4_index va < 256 -> pte s r va = Some e -> phys_frame e = x -> Z.testbit e 63 = true) ->
  exists s' m', vmm_destroy_address_space (Some (Pool_space i)) s = Some (s', tt) /\ pmm_rep k (phys_pages s') m' /\ m' !! x = m !! x.
Proof.
  intros Hinv Hslot Hr HrK Hclean Hx Hx0 Hnx. destruct (destroy_whole k s m T i r) as (s' & m' & E & Hinv' & _ & _ & _ & _ & Hm); [done..|].
  exists s', m'. split; [done|]. split; [apply Hinv'|]. rewrite Hm by (done || lia). pose proof (vi_total _ _ _ _ Hinv).
  rewrite (nx_not_mapped k s m T r Hinv x) by (done || lia). by destruct (m !! x).
Qed.

(** A full pool loses a space.  When no slot is free and memory is left, creation does
    not fail: it writes the new top level over a slot that holds a live space, whose owner
    has the new, empty space from then on. *)
Theorem full_pool_overwritten (k : Z) (s : vm) (m : gmap Z Z) (T : gmap Z node) :
  vm_inv k s m T -> (forall j, get (address_space_pool s) j <> Some 0) -> next_address_space_idx s < 32 -> ~ exhausted s m ->
  exists s' i r c, vmm_create_address_space s = Some (s', Some (Pool_space i)) /\
    top_level s (Pool_space i) = ptr s r /\ is_root T r /\ r <> kernel_root s /\
    top_level s' (Pool_space i) = ptr s c /\ c <> r /\ forall va, pml4_index va < 256 -> pte s' c va = None.
Proof.
  intros Hinv Hfull Hnext Hmem. pose proof (vi_next _ _ _ _ Hinv) as H0. set (i := next_address_space_idx s).
  destruct (get (address_space_pool s) i) as [t|] eqn:Ei; last first.
  { unfold get in Ei. destruct (Z.ltb_spec i 0); [lia|]. apply lookup_ge_None in Ei. rewrite (vi_pool _ _ _ _ Hinv) in Ei. lia. }
  destruct (vi_slot _ _ _ _ Hinv i t Ei) as (r & -> & Hr & HrK); [by intros ->; apply Hfull in Ei|].
  set (s1 := {| s with next_address_space_idx := i + 1 |}).
  assert (vm_inv k s1 m T) as Hinv1 by (destruct Hinv; split; try done; cbn; lia).
  destruct (fill_slot_spec k s1 m T i Hinv1) as (s' & o & E & pm & Ht & Ho). destruct o as [sp|]; [|by destruct Ho as (_ & _ & ?)].
  destruct Ho as (-> & c & pg & -> & Hcn & Hcr & Hpm & Hpg & Hcopy). destruct (vi_kernel _ _ _ _ Hinv1) as [HK _].
  exists (filled s1 i c pm pg), i, r, c. split.
  { unfold vmm_create_address_space, mbind, M_bind, pick_slot. destruct (find_index _ _) as [n|] eqn:En; [by apply find_slot, Hfull in En|].
    replace (next_address_space_idx s >=? MAX_ADDRESS_SPACES) with false by lia. done. }
  split; [unfold top_level; by rewrite Ei|]. split; [done|]. split; [done|]. split_and!.
  - unfold top_level, filled. cbn [address_space_pool]. change (address_space_pool s1) with (address_space_pool s).
    rewrite get_upd_eq by by apply get_Some_bound in Ei. done.
  - intros ->. by rewrite (table_fresh k s m T r Hinv Hcn) in Hr.
  - intros va Hva. unfold filled. rewrite (pte_ram (set_frame (set_pmm s1 pm) c pg)) by done.
    rewrite (root_pte k s1 m T (kernel_root s1) c pm pg) by done. by destruct (Z.leb_spec 256 (pml4_index va)); [lia|].
Qed.

(** ** A space with one page *)

(** Frame 3 is allocated for a page, frame 4 is the top level of the space in slot 0. *)
Definition demo_page_pmm : pmm := fst (pmm_alloc_page (phys_pages demo_vm)).
Definition demo_space : vm := filled (set_pmm demo_vm demo_page_pmm) 0 4 (fst (pmm_alloc_page demo_page_pmm)) zero_page.
Definition demo_space_used : gmap Z Z := <[4 := 1]> (<[3 := 1]> (<[2 := 1]> demo_used)).
Definition demo_space_tables : gmap Z node := <[4 := (4, [])]> {[2 := (2, [])]}.

Lemma demo_space_inv : exists k, vm_inv k demo_space demo_space_used demo_space_tables.
Proof.
  destruct demo_inv as (k & Hinv). exists k. set (m := <[2 := 1]> demo_used) in *.
  destruct (alloc_known k demo_vm m 3 (vi_pmm _ _ _ _ Hinv) (vi_zero _ _ _ _ Hinv)) as (Hn & Hc & Hpm & Ht); [by vm_compute|lia|].
  set (s1 := set_pmm demo_vm demo_page_pmm).
  assert (vm_inv k s1 (<[3 := 1]> m) {[2 := (2, [])]}) as Hinv1 by exact (root_pmm_inv k demo_vm m _ 3 _ Hinv Hn Hc Hpm Ht).
  destruct (alloc_known k s1 (<[3 := 1]> m) 4 (vi_pmm _ _ _ _ Hinv1) (vi_zero _ _ _ _ Hinv1)) as (Hn2 & Hc2 & Hpm2 & Ht2); [by vm_compute|lia|].
  assert (is_root ({[2 := (2, [])]} : gmap Z node) 2) as HK by by rewrite lookup_singleton_eq.
  assert (vm_inv k (set_frame (set_pmm s1 (fst (pmm_alloc_page demo_page_pmm))) 4 zero_page) demo_space_used demo_space_tables) as Hroot.
  { apply (root_inv k s1 _ _ 2 4 _ zero_page Hinv1 HK Hn2 Hc2 Hpm2 Ht2 page_ok_zero). intros j Hj.
    change (entry s1 2 j) with (entry demo_vm 2 j). unfold demo_vm. rewrite boot_entry by done.
    unfold entry, set_frame. cbn [ram]. rewrite lookup_insert_eq, field_zero_page by lia. by destruct (256 <=? j). }
  apply (slot_inv k _ _ _ 0 4 Hroot); [reflexivity|reflexivity| |].
  - intros E. change (4 = kernel_root demo_vm) in E. by rewrite demo_root in E.
  - intros j. apply (fresh_slot k s1 _ _ 4 j Hinv1); [reflexivity|lia].
Qed.

Lemma demo_space_pte va : pte demo_space 4 va = None.
Proof.
  unfold pte, table_path. cbn [node_at]. assert (entry demo_space 4 (pml4_index va) = 0) as ->; [|done].
  unfold entry, demo_space, filled, set_frame. cbn [ram]. rewrite lookup_insert_eq. pose proof (index_range va 39). apply field_zero_page.
  unfold pml4_index. lia.
Qed.

(** The page is mapped for data: present, writable, for the user, not for execution. *)
Definition demo_nx_flags : Z := PTE_PRESENT |. PTE_WRITABLE |. PTE_USER |. PTE_NX.

Lemma demo_nx : exists k s m T, vm_inv k s m T /\ get (address_space_pool s) 0 = Some (ptr s 4) /\ is_root T 4 /\ 4 <> kernel_root s /\
  T !! 3 = None /\ m !! 3 = Some 1 /\ total_pages (phys_pages s) = 16 /\
  forall va, pml4_index va < 256 -> pte s 4 va = if bool_decide (vpn va = 0x400) then Some (3 * PAGE_SIZE |. demo_nx_flags) else None.
Proof.
  destruct demo_space_inv as (k & Hinv).
  assert (get (address_space_pool demo_space) 0 = Some (ptr demo_space 4)) as Hslot by reflexivity.
  assert (is_root demo_space_tables 4) as Hr by apply lookup_insert_eq.
  destruct (map_space_spec k demo_space _ _ (Pool_space 0) 4 0x400000 (3 * PAGE_SIZE) demo_nx_flags Hinv) as (s & ok & E & m & T & Hinv' & He & _ & Hok);
    [reflexivity|done|right; by vm_compute|by vm_compute|].
  assert (ok = true) as ->.
  { enough (option_map snd (vmm_map_page (Some (Pool_space 0)) 0x400000 (3 * PAGE_SIZE) demo_nx_flags demo_space) = Some true) as H.
    - rewrite E in H. by injection H.
    - by vm_compute. }
  assert (demo_space_used !! 3 = Some 1) as H3. { unfold demo_space_used. by rewrite lookup_insert_ne, lookup_insert_eq. }
  exists k, s, m, T. split; [done|]. split; [by rewrite (ve_pool _ _ _ _ _ _ He), Hslot, (vm_ext_ptr _ _ _ _ _ _ 4 He)|].
  split; [exact (lookup_weaken _ _ _ _ Hr (ve_tables _ _ _ _ _ _ He))|]. split; [rewrite (vm_ext_root _ _ _ _ _ _ He); by vm_compute|].
  split; [apply (ve_data _ _ _ _ _ _ He 3); [rewrite H3; by exists 1|reflexivity]|].
  split; [exact (lookup_weaken _ _ _ _ H3 (ve_used _ _ _ _ _ _ He))|].
  split; [rewrite (ve_total _ _ _ _ _ _ He); by vm_compute|]. intros va Hva. rewrite (Hok 4 va Hr) by auto.
  assert (vpn 0x400000 = 0x400) as -> by by vm_compute. rewrite demo_space_pte.
  assert (4 = 4 /\ vpn va = 0x400 <-> vpn va = 0x400) as Hiff by tauto. by rewrite (bool_decide_ext _ _ Hiff).
Qed.

Lemma demo_nx_clean k s m T : vm_inv k s m T -> total_pages (phys_pages s) = 16 ->
  (forall va, pml4_index va < 256 -> pte s 4 va = if bool_decide (vpn va = 0x400) then Some (3 * PAGE_SIZE |. demo_nx_flags) else None) ->
  clean s m T 4.
Proof.
  intros Hinv Ht Hpte va e Hva. rewrite Hpte by done. case_bool_decide; [|done]. intros [= <-]. left.
  destruct (m !! _) eqn:E; [|done]. apply (rp_range _ _ _ (vi_pmm _ _ _ _ Hinv)) in E as [E _]. rewrite Ht in E.
  change (frame_of (3 * PAGE_SIZE |. demo_nx_flags)) with 2251799813685251 in E. lia.
Qed.

Lemma destroy_correct_witness : exists k s m T s' m', vmm_destroy_address_space (Some (Pool_space 0)) s = Some (s', tt) /\
  vm_inv k s' m' (without 4 T) /\ address_space_pool s' = upd (address_space_pool s) 0 0 /\ ram s' = ram s /\ destroyed s m T 4 m'.
Proof.
  destruct demo_nx as (k & s & m & T & Hinv & Hslot & Hr & HrK & _ & _ & Ht & Hpte). exists k, s, m, T.
  apply (destroy_correct k s m T 0 4); [exact Hinv|exact Hslot|exact Hr|exact HrK|by eapply demo_nx_clean].
Defined.

Lemma destroy_leaks_nx_witness : exists k s (m : gmap Z Z) (T : gmap Z node) s' (m' : gmap Z Z), m !! 3 = Some 1 /\ is_root T 4 /\
  vmm_destroy_address_space (Some (Pool_space 0)) s = Some (s', tt) /\ pmm_rep k (phys_pages s') m' /\ m' !! 3 = m !! 3.
Proof.
  destruct demo_nx as (k & s & m & T & Hinv & Hslot & Hr & HrK & HT & Hm & Ht & Hpte). exists k, s, m, T.
  destruct (destroy_leaks_nx k s m T 0 4 3) as (s' & m' & H).
  - exact Hinv.
  - exact Hslot.
  - exact Hr.
  - exact HrK.
  - by eapply demo_nx_clean.
  - exact HT.
  - lia.
  - intros va e Hva He _. rewrite Hpte in He by done. case_bool_decide; [|done]. injection He as <-. by vm_compute.
  - exists s', m'. split; [exact Hm|]. split; [exact Hr|exact H].
Defined.
