(* ===== verification/Elf.v ===== *)
(** * The program loader (kernel/elf.c)

    A program file is the list of its bytes.  The loader does not know the length of the
    file: a read behind its end is a fault of the model ([diverge]).  Output on the screen
    and in the log is left out.  [ElfLoad] proves what the loader builds. *)
From S2P Require Import Prelude Bytes Pmm StateM Vmm.
Local Open Scope Z_scope.
Local Open Scope c_scope.

Abbreviation ELFCLASS64 := 2.
Abbreviation ELFDATA2LSB := 1.
Abbreviation ET_EXEC := 2.
Abbreviation EM_X86_64 := 62.
Abbreviation PT_LOAD := 1.
Abbreviation PF_X := 0x1.
Abbreviation PF_W := 0x2.

Record Elf64_Ehdr := Ehdr { e_ident : list Z; e_type : Z; e_machine : Z; e_entry : Z; e_phoff : Z; e_phnum : Z }.
Record Elf64_Phdr := Phdr { p_type : Z; p_flags : Z; p_offset : Z; p_vaddr : Z; p_filesz : Z; p_memsz : Z }.

(** The structures at an offset of the file; [None] when they end behind it. *)
Definition ehdr_of (file : list Z) : option Elf64_Ehdr :=
  if 64 <=? Z.of_nat (length file)
  then Some (Ehdr (take 16 file) (field file 16 2) (field file 18 2) (field file 24 8) (field file 32 8) (field file 56 2))
  else None.

Definition phdr_of (file : list Z) (off : Z) : option Elf64_Phdr :=
  if off + 56 <=? Z.of_nat (length file) then
    let o := Z.to_nat off in
    Some (Phdr (field file o 4) (field file (o + 4) 4) (field file (o + 8) 8) (field file (o + 16) 8)
               (field file (o + 32) 8) (field file (o + 40) 8))
  else None.

Definition ident (h : Elf64_Ehdr) (i : Z) : Z := default 0 (get (e_ident h) i).

Definition magic_ok (h : Elf64_Ehdr) : bool :=
  (ident h 0 =? 0x7F) && (ident h 1 =? 0x45) && (ident h 2 =? 0x4C) && (ident h 3 =? 0x46).

Definition elf_validate_header (h : Elf64_Ehdr) : bool :=
  if negb (magic_ok h) then false else
  if negb (ident h 4 =? ELFCLASS64) then false else
  if negb (ident h 5 =? ELFDATA2LSB) then false else
  if negb (e_type h =? ET_EXEC) then false else
  if negb (e_machine h =? EM_X86_64) then false else
  if e_entry h =? 0 then false else true.

Definition known {A} (o : option A) : M vm A := match o with Some a => mret a | None => diverge end.

(** ** One page of a segment *)
Definition start_page (ph : Elf64_Phdr) : Z := p_vaddr ph &. PAGE_MASK.
Definition end_page (ph : Elf64_Phdr) : Z := u64 (p_vaddr ph + p_memsz ph + PAGE_SIZE - 1) &. PAGE_MASK.
Definition num_pages (ph : Elf64_Phdr) : Z := u64 (end_page ph - start_page ph) / PAGE_SIZE.

(** What is copied to the page at [page_vaddr]: the offset in the page, the number of bytes
    and the offset in the file. *)
Definition copy_start (ph : Elf64_Phdr) (page_vaddr : Z) : Z :=
  if page_vaddr <? p_vaddr ph then u64 (p_vaddr ph - page_vaddr) else 0.

Definition copy_size (ph : Elf64_Phdr) (page_vaddr : Z) : Z :=
  let copy_size := u64 (PAGE_SIZE - copy_start ph page_vaddr) in
  let file_end := u64 (p_vaddr ph + p_filesz ph) in
  if u64 (page_vaddr + copy_size) >? file_end then u64 (file_end - page_vaddr) else copy_size.

Definition file_offset (ph : Elf64_Phdr) (page_vaddr : Z) : Z :=
  if page_vaddr <? p_vaddr ph then p_offset ph else u64 (p_offset ph + (page_vaddr - p_vaddr ph)).

(** [n] bytes of the file; [None] when they end behind it. *)
Definition file_bytes (file : list Z) (off n : Z) : option (list Z) :=
  if off + n <=? Z.of_nat (length file) then Some (take (Z.to_nat n) (drop (Z.to_nat off) file)) else None.

Definition pte_flags (ph : Elf64_Phdr) : Z :=
  let flags := PTE_PRESENT |. PTE_USER in
  let flags := if has_flag (p_flags ph) PF_W then flags |. PTE_WRITABLE else flags in
  if negb (has_flag (p_flags ph) PF_X) then flags |. PTE_NX else flags.

Definition load_page (file : list Z) (sp : address_space) (ph : Elf64_Phdr) (j : Z) : M vm bool :=
  page_phys ← alloc_frame;
  if page_phys =? 0 then mret false else
  page_virt ← hhdm page_phys;
  vmm_memset page_virt 0 (Z.to_nat PAGE_SIZE);;
  let page_vaddr := u64 (start_page ph + j * PAGE_SIZE) in
  (if page_vaddr <? u64 (p_vaddr ph + p_filesz ph) then
     if copy_size ph page_vaddr >? 0 then
       src ← known (file_bytes file (file_offset ph page_vaddr) (copy_size ph page_vaddr));
       store_bytes (u64 (page_virt + copy_start ph page_vaddr)) src
     else mret tt
   else mret tt);;
  vmm_map_page (Some sp) page_vaddr page_phys (pte_flags ph).

(** ** The loader *)
Definition load_segment (file : list Z) (sp : address_space) (ph : Elf64_Phdr) : M vm bool :=
  if negb (p_type ph =? PT_LOAD) then mret true else
  for_all (seqZ 0 (num_pages ph)) (load_page file sp ph).

Definition load_segments (file : list Z) (sp : address_space) (h : Elf64_Ehdr) : M vm bool :=
  for_all (seqZ 0 (e_phnum h)) (fun i =>
    ph ← known (phdr_of file (u64 (e_phoff h + i * 56)));
    load_segment file sp ph).

(** The entry point and the top-level table, or [None] for false; [outs] says that the two
    result pointers are not NULL. *)
Definition elf_load (file_data : option (list Z)) (outs : bool) : M vm (option (Z * Z)) :=
  match file_data with
  | None => mret None
  | Some file =>
      if negb outs then mret None else
      h ← known (ehdr_of file);
      if negb (magic_ok h) then mret None else
      if negb (ident h 4 =? ELFCLASS64) then mret None else
      if negb (e_type h =? ET_EXEC) then mret None else
      space ← vmm_create_address_space;
      match space with
      | None => mret None
      | Some sp =>
          ok ← load_segments file sp h;
          if negb ok then mret None else
          cr3 ← gets (fun s => vmm_get_pml4_phys s (Some sp));
          mret (Some (e_entry h, cr3))
      end
  end.
