(* ===== verification/ElfLoad.v ===== *)
(** * What the program loader builds

    For a program whose loadable segments begin on page boundaries and lie on different
    pages of the lower half, [elf_load] makes a new address space in which every page of a
    segment is a fresh frame of its own with the bytes of the file, followed by zeros. *)
From S2P Require Import Prelude Bytes Pmm StateM Vmm VmmInv VmmMap VmmSpace VmmInit Elf.
Local Open Scope Z_scope.
Local Open Scope c_scope.

(** ** Segments *)
Record seg_ok (file : list Z) (ph : Elf64_Phdr) : Prop := {
  so_page : p_vaddr ph mod PAGE_SIZE = 0;
  so_vaddr : 0 <= p_vaddr ph;
  so_offset : 0 <= p_offset ph;
  so_size : 0 <= p_filesz ph <= p_memsz ph;
  so_half : p_vaddr ph + p_memsz ph <= 2 ^ 47;
  so_file : p_offset ph + p_filesz ph <= Z.of_nat (length file) < 2 ^ 64
}.

(** The page number of page [j], and the number of pages. *)
Definition page_no (ph : Elf64_Phdr) (j : Z) : Z := p_vaddr ph / PAGE_SIZE + j.
Definition seg_pages (ph : Elf64_Phdr) : Z := (p_memsz ph + PAGE_SIZE - 1) / PAGE_SIZE.

(** The byte at an offset of the segment: from the file, or zero behind its part there. *)
Definition seg_byte (file : list Z) (ph : Elf64_Phdr) (o : Z) : Z :=
  if o <? p_filesz ph then default 0 (get file (p_offset ph + o)) else 0.

Definition page_is (file : list Z) (ph : Elf64_Phdr) (j : Z) (pg : list Z) : Prop :=
  page_ok pg /\ forall b, 0 <= b < PAGE_SIZE -> get pg b = Some (seg_byte file ph (j * PAGE_SIZE + b)).

Section segment.
  Context (file : list Z) (ph : Elf64_Phdr).
  Hypothesis Hseg : seg_ok file ph.

Lemma seg_start : start_page ph = p_vaddr ph.
Proof using Hseg. destruct Hseg. unfold start_page. rewrite page_mask by (unfold in_u; lia). zlia. Qed.

Lemma seg_num : num_pages ph = seg_pages ph.
Proof using Hseg.
  unfold num_pages. rewrite seg_start. unfold end_page, seg_pages. destruct Hseg.
  rewrite (wrap_small 64 (p_vaddr ph + p_memsz ph + PAGE_SIZE - 1)) by (unfold in_u; lia). rewrite page_mask by (unfold in_u; lia).
  rewrite wrap_small by (unfold in_u; zlia). zlia.
Qed.

  Context (j : Z).
  Hypothesis Hj : 0 <= j < seg_pages ph.

Lemma seg_page_bound : 0 <= page_no ph j < 2 ^ 35 /\ j * PAGE_SIZE < p_memsz ph.
Proof using Hseg Hj. destruct Hseg. unfold page_no, seg_pages in *. zlia. Qed.

Lemma seg_vaddr : u64 (start_page ph + j * PAGE_SIZE) = page_no ph j * PAGE_SIZE.
Proof using Hseg Hj.
  rewrite seg_start. pose proof seg_page_bound. destruct Hseg. rewrite wrap_small by (unfold in_u, page_no in *; zlia).
  unfold page_no. zlia.
Qed.

Lemma seg_copy : page_no ph j * PAGE_SIZE < u64 (p_vaddr ph + p_filesz ph) ->
  copy_start ph (page_no ph j * PAGE_SIZE) = 0 /\
  copy_size ph (page_no ph j * PAGE_SIZE) = Z.min PAGE_SIZE (p_filesz ph - j * PAGE_SIZE) /\
  file_offset ph (page_no ph j * PAGE_SIZE) = p_offset ph + j * PAGE_SIZE /\ j * PAGE_SIZE < p_filesz ph.
Proof using Hseg Hj.
  pose proof seg_page_bound as [Hb1 Hb2]. destruct Hseg. rewrite (wrap_small 64 (p_vaddr ph + p_filesz ph)) by (unfold in_u; lia).
  assert (page_no ph j * PAGE_SIZE = p_vaddr ph + j * PAGE_SIZE) as E by (unfold page_no; zlia). intros Hlt.
  unfold copy_size, copy_start, file_offset. rewrite E in *.
  destruct (Z.ltb_spec (p_vaddr ph + j * PAGE_SIZE) (p_vaddr ph)); [lia|].
  rewrite (wrap_small 64 (p_vaddr ph + p_filesz ph)) by (unfold in_u; lia). change (u64 (PAGE_SIZE - 0)) with PAGE_SIZE.
  rewrite (wrap_small 64 (p_vaddr ph + j * PAGE_SIZE + PAGE_SIZE)) by (unfold in_u; lia).
  rewrite (wrap_small 64 (p_offset ph + _)) by (unfold in_u; lia).
  split; [done|]. split; [|split; lia].
  destruct (Z.gtb_spec (p_vaddr ph + j * PAGE_SIZE + PAGE_SIZE) (p_vaddr ph + p_filesz ph)); [|lia].
  rewrite wrap_small by (unfold in_u; lia). lia.
Qed.

(** The page after the copy, and a page behind the part in the file. *)
Lemma copied_page : wf_bytes file -> j * PAGE_SIZE < p_filesz ph ->
  let n := Z.min PAGE_SIZE (p_filesz ph - j * PAGE_SIZE) in
  exists src, file_bytes file (p_offset ph + j * PAGE_SIZE) n = Some src /\ Z.of_nat (length src) = n /\
    page_is file ph j (splice zero_page 0 src).
Proof using Hseg Hj.
  intros Hw Hlt n. assert (n = Z.min PAGE_SIZE (p_filesz ph - j * PAGE_SIZE)) as En by done. clearbody n.
  destruct Hseg. unfold file_bytes. destruct (Z.leb_spec (p_offset ph + j * PAGE_SIZE + n) (Z.of_nat (length file))); [|lia].
  eexists. split; [done|]. set (src := take _ _).
  assert (length src = Z.to_nat n) as Hl by (unfold src; rewrite length_take, length_drop; lia). split; [lia|].
  split.
  - apply page_ok_splice; [apply page_ok_zero|by apply Forall_take, Forall_drop|lia].
  - intros b Hb. unfold splice, get, seg_byte. destruct (Z.ltb_spec b 0); [lia|]. rewrite take_0, app_nil_l, Nat.add_0_l.
    destruct (Z.ltb_spec (j * PAGE_SIZE + b) (p_filesz ph)) as [Hin|Hout].
    + rewrite lookup_app_l by lia. unfold src. rewrite lookup_take_lt, lookup_drop by lia. unfold get.
      destruct (Z.ltb_spec (p_offset ph + (j * PAGE_SIZE + b)) 0); [lia|].
      replace (Z.to_nat (p_offset ph + j * PAGE_SIZE) + Z.to_nat b)%nat with (Z.to_nat (p_offset ph + (j * PAGE_SIZE + b))) by lia.
      destruct (lookup_lt_is_Some_2 file (Z.to_nat (p_offset ph + (j * PAGE_SIZE + b)))) as [x ->]; [lia|done].
    + rewrite lookup_app_r by lia. unfold zero_page. rewrite drop_replicate, lookup_replicate_2 by lia. done.
Qed.

Lemma zero_page_is : p_filesz ph <= j * PAGE_SIZE -> page_is file ph j zero_page.
Proof using.
  intros H. split; [apply page_ok_zero|]. intros b Hb. unfold get, seg_byte, zero_page. destruct (Z.ltb_spec b 0); [lia|].
  destruct (Z.ltb_spec (j * PAGE_SIZE + b) (p_filesz ph)); [lia|]. by rewrite lookup_replicate_2 by lia.
Qed.
End segment.

(** ** One page *)
Lemma pte_flags_u64 ph : in_u 64 (pte_flags ph).
Proof. unfold pte_flags. by destruct (has_flag _ PF_W), (negb _). Qed.

Lemma pte_flags_present x ph : present (x |. pte_flags ph) = true.
Proof.
  rewrite present_odd, <- Z.bit0_odd, Z.lor_spec. apply orb_true_intro. right. unfold pte_flags.
  by destruct (has_flag _ PF_W), (negb _).
Qed.

Lemma fresh_ext k s m T x pm pg : vm_inv k s m T -> m !! x = None -> 0 < x < total_pages (phys_pages s) ->
  total_pages pm = total_pages (phys_pages s) -> vm_ext s (set_frame (set_pmm s pm) x pg) m (<[x := 1]> m) T T.
Proof.
  intros Hinv Hx Hxr Ht. split; try done.
  - by apply insert_subseteq.
  - intros f [c Hf] HT. split; [done|]. cbn. rewrite lookup_insert_ne; [done|]. intros <-. congruence.
  - intros f. cbn. destruct (decide (f = x)) as [->|]; [|by rewrite lookup_insert_ne]. rewrite lookup_insert_eq.
    split; [|done]. intros _. apply (vi_free _ _ _ _ Hinv); [lia|done].
Qed.

Section page.
  Context (file : list Z) (k i r : Z).
  Hypothesis Hw : wf_bytes file.

(** A state in which the space of slot [i] has the top-level frame [r]. *)
Definition loading (s : vm) (m : gmap Z Z) (T : gmap Z node) : Prop :=
  vm_inv k s m T /\ top_level s (Pool_space i) = ptr s r /\ is_root T r.

Lemma loading_ext s s' m m' T T' : loading s m T -> vm_inv k s' m' T' -> vm_ext s s' m m' T T' -> loading s' m' T'.
Proof using.
  intros (_ & Ht & Hr) Hinv He. split; [done|]. split.
  - rewrite (vm_ext_ptr _ _ _ _ _ _ r He), <- Ht. unfold top_level. by rewrite (ve_pool _ _ _ _ _ _ He).
  - by eapply lookup_weaken; [|apply He].
Qed.

(** The copy into a cleared frame. *)
Lemma copy_page_spec s x ph j : mem_ok s -> 0 <= x < 2 ^ 35 -> seg_ok file ph -> 0 <= j < seg_pages ph ->
  let page_vaddr := page_no ph j * PAGE_SIZE in
  wp (if page_vaddr <? u64 (p_vaddr ph + p_filesz ph) then
     if copy_size ph page_vaddr >? 0 then
       src ← known (file_bytes file (file_offset ph page_vaddr) (copy_size ph page_vaddr));
       store_bytes (u64 (ptr s x + copy_start ph page_vaddr)) src
     else mret tt
   else mret tt) (fun _ s' => exists pg, page_is file ph j pg /\ s' = set_frame s x pg) (set_frame s x zero_page).
Proof using Hw.
  intros Hmem Hx Hseg Hj. cbv zeta.
  destruct (Z.ltb_spec (page_no ph j * PAGE_SIZE) (u64 (p_vaddr ph + p_filesz ph))) as [Hlt|Hge]; last first.
  { wp_step. exists zero_page. split; [|done]. apply zero_page_is. destruct (seg_page_bound file ph Hseg j Hj). destruct Hseg.
    rewrite wrap_small in Hge by (unfold in_u; lia). unfold page_no in Hge. zlia. }
  destruct (seg_copy file ph Hseg j Hj Hlt) as (-> & -> & -> & Hin).
  destruct (Z.gtb_spec (Z.min PAGE_SIZE (p_filesz ph - j * PAGE_SIZE)) 0); [|lia].
  destruct (copied_page file ph Hseg j Hj Hw Hin) as (src & Esrc & Hl & Hpg). rewrite Esrc. cbn [known]. do 2 wp_step.
  change (ptr s x) with (ptr (set_frame s x zero_page) x).
  assert (mem_ok (set_frame s x zero_page)) as Hmem' by (apply mem_ok_set_frame; [done|lia|apply page_ok_zero]).
  eexists _, tt. split; [apply (store_bytes_raw _ Hmem' x zero_page); [cbn; by rewrite lookup_insert_eq|lia..]|]. cbv beta.
  exists (splice zero_page 0 src). split; [done|]. unfold set_frame; cbn. by rewrite insert_insert_eq.
Qed.

Lemma load_page_spec s m T ph j : loading s m T -> seg_ok file ph -> 0 <= j < seg_pages ph ->
  wp (load_page file (Pool_space i) ph j) (fun ok s' => exists m' T', loading s' m' T' /\ vm_ext s s' m m' T T' /\
    if (ok : bool) then exists x pg, m !! x = None /\ is_Some (m' !! x) /\ T' !! x = None /\ 0 < x < 2 ^ 35 /\
      ram s' !! x = Some pg /\ page_is file ph j pg /\
      maps s s' T r (page_no ph j * PAGE_SIZE) (Some (x * PAGE_SIZE |. pte_flags ph))
    else same_ptes s s' T /\ exhausted s m') s.
Proof using Hw.
  intros Hload Hseg Hj. pose proof Hload as (Hinv & Htop & Hr). unfold load_page.
  destruct (alloc_frame_spec k s m T Hinv) as (pm & a & Ea & Ht & Hcase).
  wp_step. exists (set_pmm s pm), a. split; [done|]. cbv beta. destruct Hcase as [(-> & Hpm & Hall)|(x & -> & Hxr & Hxn & Hpm)].
  { rewrite Z.eqb_refl. wp_step. exists m, T. assert (vm_ext s (set_pmm s pm) m m T T) as He by by split.
    split; [|split; [done|]].
    - eapply loading_ext; [done| |done]. by apply inv_same_pmm.
    - split; [intros r' va _; by apply pte_ram|]. intros n Hn. apply Hall. by rewrite Ht. }
  destruct (Z.eqb_spec (x * PAGE_SIZE) 0); [lia|]. rewrite Ht in Hxr. unfold hhdm. do 2 wp_step.
  change (u64 (x * PAGE_SIZE + g_hhdm_offset (set_pmm s pm))) with (ptr (set_pmm s pm) x).
  pose proof (table_fresh k s m T x Hinv Hxn) as Hfresh.
  assert (is_Some (ram s !! x)) as Hram by (apply (vi_free _ _ _ _ Hinv); [lia|done]).
  wp_step. exists (set_frame (set_pmm s pm) x zero_page), tt.
  split; [apply clear_raw; [exact (vi_mem _ _ _ _ Hinv)|done]|]. cbv beta zeta. rewrite (seg_vaddr file ph Hseg j Hj).
  wp_step. apply wp_mono with (P := fun _ s' => exists pg, page_is file ph j pg /\ s' = set_frame (set_pmm s pm) x pg).
  - intros u s' (pg & Hpg & ->). pose proof (proj1 Hpg) as Hok.
    pose proof (root_data_inv k s m T x pm pg Hinv Hxn Hxr Hpm Ht Hok) as Hinv2.
    pose proof (fresh_ext k s m T x pm pg Hinv Hxn Hxr Ht) as He2. pose proof (vi_total _ _ _ _ Hinv).
    assert (own (set_frame (set_pmm s pm) x pg) r (page_no ph j * PAGE_SIZE)) as Hown.
    { right. destruct (seg_page_bound file ph Hseg j Hj) as [Hb _]. by apply user_page_index. }
    eapply wp_mono; [|apply (map_space_spec k _ (<[x := 1]> m) T _ r); [done|done|done|done|]].
    2: { apply in_u_lor; [lia|unfold in_u; lia|apply pte_flags_u64]. }
    intros ok s3 (m3 & T3 & Hinv3 & He3 & _ & Hok3). exists m3, T3. pose proof (vm_ext_trans _ _ _ _ _ _ _ _ _ He2 He3) as He.
    split; [by eapply loading_ext|]. split; [done|].
    assert (same_ptes s (set_frame (set_pmm s pm) x pg) T) as Hsame.
    { intros r' va Hr'. rewrite (data_pte k (set_pmm s pm) _ T x pg (root_pmm_inv k s m T x pm Hinv Hxn Hxr Hpm Ht)) by done. by apply pte_ram. }
    destruct ok; last first.
    { destruct Hok3 as [Hs3 Hx3]. split; [by eapply same_ptes_trans|]. intros q Hq. apply Hx3. cbn. by rewrite Ht. }
    exists x, pg. destruct (ve_data _ _ _ _ _ _ He3 x) as [HT3 Hr3]; [by rewrite lookup_insert_eq|done|].
    split_and!; try done; try lia.
    + eapply lookup_weaken_is_Some; [|apply He3]. by rewrite lookup_insert_eq.
    + rewrite Hr3. cbn. by rewrite lookup_insert_eq.
    + intros r' va Hr' Hside. rewrite (Hok3 r' va Hr' Hside). unfold kept. rewrite pte_flags_present.
      case_bool_decide; [done|]. by apply Hsame.
  - apply (copy_page_spec (set_pmm s pm)); [exact (vi_mem _ _ _ _ Hinv)|pose proof (vi_total _ _ _ _ Hinv); lia|done|done].
Qed.
End page.

(** ** The image of a program *)
(** [I] sends the page numbers of the image to their frame, contents and flags; [m0] are the
    pages in use before. *)
Record image (s : vm) (m : gmap Z Z) (T : gmap Z node) (r : Z) (m0 : gmap Z Z) (I : gmap Z (Z * list Z * Z)) : Prop := {
  im_page : forall n x pg fl, I !! n = Some (x, pg, fl) -> 0 <= n < 2 ^ 35 /\ pte s r (n * PAGE_SIZE) = Some (x * PAGE_SIZE |. fl) /\
    ram s !! x = Some pg /\ m0 !! x = None /\ is_Some (m !! x) /\ T !! x = None /\ 0 < x < 2 ^ 35;
  im_none : forall n, 0 <= n < 2 ^ 35 -> I !! n = None -> pte s r (n * PAGE_SIZE) = None;
  im_inj : forall n n' x pg fl pg' fl', I !! n = Some (x, pg, fl) -> I !! n' = Some (x, pg', fl') -> n = n'
}.

Lemma image_step s m T s' m' T' r m0 I n x pg fl : image s m T r m0 I -> vm_ext s s' m m' T T' -> is_root T r -> m0 ⊆ m ->
  I !! n = None -> 0 <= n < 2 ^ 35 -> m !! x = None -> is_Some (m' !! x) -> T' !! x = None -> 0 < x < 2 ^ 35 -> ram s' !! x = Some pg ->
  maps s s' T r (n * PAGE_SIZE) (Some (x * PAGE_SIZE |. fl)) -> image s' m' T' r m0 (<[n := (x, pg, fl)]> I).
Proof.
  intros [Hpage Hnone Hinj] He Hr Hsub Hn Hnr Hx Hx' HTx Hxr Hram Hmaps.
  assert (forall n', 0 <= n' < 2 ^ 35 -> pte s' r (n' * PAGE_SIZE) = if bool_decide (n' = n) then Some (x * PAGE_SIZE |. fl) else pte s r (n' * PAGE_SIZE)) as Hpte.
  { intros n' Hn'. rewrite (Hmaps r (n' * PAGE_SIZE) Hr) by by left. rewrite !user_page_vpn by lia.
    rewrite (bool_decide_ext _ (n' = n)) by naive_solver. done. }
  assert (forall n' x' pg' fl', I !! n' = Some (x', pg', fl') -> x' <> x) as Hfresh.
  { intros n' x' pg' fl' E ->. destruct (Hpage _ _ _ _ E) as (_ & _ & _ & _ & [? H] & _). congruence. }
  split.
  - intros n' x' pg' fl'. destruct (decide (n' = n)) as [->|Hne]; [rewrite lookup_insert_eq|rewrite lookup_insert_ne by done].
    + intros [= <- <- <-]. rewrite Hpte, bool_decide_eq_true_2 by done. split_and!; try done; try lia.
      destruct (m0 !! x) eqn:E; [|done]. apply (lookup_weaken _ m) in E; [congruence|done].
    + intros E. destruct (Hpage _ _ _ _ E) as (Hr' & Hp & Hram' & Hm0 & Hm & HT & Hxr'). rewrite Hpte, bool_decide_eq_false_2 by done.
      destruct (ve_data _ _ _ _ _ _ He x' Hm HT) as [HT' Er]. rewrite Er. split_and!; try done; try lia.
      eapply lookup_weaken_is_Some; [done|apply He].
  - intros n' Hn' E. rewrite lookup_insert_None in E. destruct E as [E Hne]. rewrite Hpte, bool_decide_eq_false_2 by (done || congruence).
    by apply Hnone.
  - intros n1 n2 x0 pg1 fl1 pg2 fl2. destruct (decide (n1 = n)) as [->|], (decide (n2 = n)) as [->|];
      rewrite ?lookup_insert_eq, ?lookup_insert_ne by done; [done| | |apply Hinj].
    + intros [= <- _ _] E. by apply Hfresh in E.
    + intros E [= <- _ _]. by apply Hfresh in E.
Qed.

(** The pages of a program header, and an image that holds exactly the pages of a list. *)
Definition pages_of (ph : Elf64_Phdr) : list (Elf64_Phdr * Z) :=
  if p_type ph =? PT_LOAD then map (pair ph) (seqZ 0 (seg_pages ph)) else [].
Definition number (pj : Elf64_Phdr * Z) : Z := page_no pj.1 pj.2.

Definition built file s m T r m0 (l : list (Elf64_Phdr * Z)) : Prop := exists I, image s m T r m0 I /\
  (forall pj, pj ∈ l -> exists x pg, I !! number pj = Some (x, pg, pte_flags pj.1) /\ page_is file pj.1 pj.2 pg) /\
  (forall n, is_Some (I !! n) -> n ∈ map number l).

Lemma built_step file s m T s' m' T' r m0 l ph j x pg : built file s m T r m0 l -> vm_ext s s' m m' T T' -> is_root T r -> m0 ⊆ m ->
  seg_ok file ph -> 0 <= j < seg_pages ph -> page_no ph j ∉ map number l ->
  m !! x = None -> is_Some (m' !! x) -> T' !! x = None -> 0 < x < 2 ^ 35 -> ram s' !! x = Some pg -> page_is file ph j pg ->
  maps s s' T r (page_no ph j * PAGE_SIZE) (Some (x * PAGE_SIZE |. pte_flags ph)) -> built file s' m' T' r m0 (l ++ [(ph, j)]).
Proof.
  intros (I & Him & Hin & Hdom) He Hr Hsub Hseg Hj Hnew Hx Hx' HT Hxr Hram Hpg Hmaps.
  exists (<[page_no ph j := (x, pg, pte_flags ph)]> I). split_and!.
  - eapply image_step; try done; [|by apply (seg_page_bound file ph Hseg)].
    destruct (I !! page_no ph j) eqn:E; [|done]. destruct Hnew. apply Hdom. by rewrite E.
  - intros pj [Hpj| ->%list_elem_of_singleton]%elem_of_app; [|exists x, pg; by rewrite lookup_insert_eq].
    rewrite lookup_insert_ne; [by apply Hin|]. intros E. destruct Hnew. rewrite E. apply list_elem_of_In, in_map, list_elem_of_In. done.
  - intros n Hn. rewrite map_app. apply elem_of_app. destruct (decide (n = page_no ph j)) as [->|].
    + right. by left.
    + left. apply Hdom. by rewrite lookup_insert_ne in Hn.
Qed.

(** ** The loops *)
Section loops.
  Context (file : list Z) (k i r : Z) (s0 : vm) (m0 m1 : gmap Z Z) (T1 : gmap Z node).
  Hypothesis Hw : wf_bytes file.
  Hypothesis Hm : m0 ⊆ m1.

(** After the pages [l]; and after a failure. *)
Definition progress (l : list (Elf64_Phdr * Z)) (s : vm) : Prop := exists m T, loading k i r s m T /\
  vm_ext s0 s m1 m T1 T /\ (forall r', is_root T1 r' -> r' <> r -> forall va, pte s r' va = pte s0 r' va) /\
  (forall va, 256 <= pml4_index va -> pte s r va = pte s0 r va) /\ built file s m T r m0 l.
Definition out_of_memory (s : vm) : Prop := exists m T, loading k i r s m T /\
  vm_ext s0 s m1 m T1 T /\ (forall r', is_root T1 r' -> r' <> r -> forall va, pte s r' va = pte s0 r' va) /\ exhausted s0 m.

Lemma progress_start : loading k i r s0 m1 T1 -> (forall n, 0 <= n < 2 ^ 35 -> pte s0 r (n * PAGE_SIZE) = None) -> progress [] s0.
Proof using.
  intros Hload Hnone. exists m1, T1. split; [done|]. split; [apply vm_ext_refl|]. split; [done|]. split; [done|].
  exists ∅. split; [|split; [by intros pj Hpj%elem_of_nil|by intros n [? Hn]; rewrite lookup_empty in Hn]].
  split; [intros *; by rewrite lookup_empty| |intros *; by rewrite lookup_empty]. intros n Hn _. by apply Hnone.
Qed.

Lemma load_page_progress l s ph j : is_root T1 r -> progress l s -> seg_ok file ph -> 0 <= j < seg_pages ph -> page_no ph j ∉ map number l ->
  wp (load_page file (Pool_space i) ph j) (fun ok s' => if (ok : bool) then progress (l ++ [(ph, j)]) s' else out_of_memory s') s.
Proof using Hw Hm.
  intros Hr1 (m & T & Hload & He & Hsame & Hupper & Hbuilt) Hseg Hj Hnew.
  eapply wp_mono; [|by apply (load_page_spec file k i r Hw s m T)]. intros ok s' (m' & T' & Hload' & He' & Hok).
  pose proof (vm_ext_trans _ _ _ _ _ _ _ _ _ He He') as Hee. pose proof Hload as (_ & _ & Hr). destruct ok.
  - destruct Hok as (x & pg & Hx & Hx' & HT & Hxr & Hram & Hpg & Hmaps). exists m', T'.
    pose proof (user_page_index _ (proj1 (seg_page_bound file ph Hseg j Hj))) as Hlow.
    split_and!; try done.
    + intros r' Hr' Hne va. rewrite <- Hsame by done. rewrite (Hmaps r' va); [|by eapply lookup_weaken; [|apply He]|auto].
      by rewrite bool_decide_eq_false_2 by naive_solver.
    + intros va Hva. rewrite <- Hupper by done. rewrite (Hmaps r va Hr) by by left. rewrite bool_decide_eq_false_2; [done|].
      intros [_ [E _]%vpn_eq]. unfold table_path in E. injection E as E _ _. lia.
    + eapply built_step; try done. etrans; [done|apply He].
  - destruct Hok as [Hs Hx]. exists m', T'. split_and!; try done.
    + intros r' Hr' Hne va. rewrite <- Hsame by done. apply Hs. by eapply lookup_weaken; [|apply He].
    + intros n Hn. apply Hx. by rewrite (ve_total _ _ _ _ _ _ He).
Qed.

Lemma load_segment_progress l s ph : is_root T1 r -> progress l s -> (p_type ph = PT_LOAD -> seg_ok file ph) ->
  NoDup (map number (l ++ pages_of ph)) ->
  wp (load_segment file (Pool_space i) ph) (fun ok s' => if (ok : bool) then progress (l ++ pages_of ph) s' else out_of_memory s') s.
Proof using Hw Hm.
  intros Hr1 Hprog Hok Hnd. unfold load_segment, pages_of in *. destruct (Z.eqb_spec (p_type ph) PT_LOAD) as [Et|_]; cbn [negb].
  2: { wp_step. by rewrite app_nil_r. }
  specialize (Hok Et). rewrite (seg_num file ph Hok).
  eapply wp_mono; [|apply (for_all_spec _ (fun js => progress (l ++ map (pair ph) js)) out_of_memory (seqZ 0 (seg_pages ph)) [] s)].
  - by intros [] s'.
  - intros js j post s' E HP. cbn [app] in E. rewrite map_app, app_assoc. apply load_page_progress; try done.
    + assert (j ∈ seqZ 0 (seg_pages ph)) as Hj by (rewrite E; apply elem_of_app; right; by left). apply elem_of_seqZ in Hj. lia.
    + rewrite E, (map_app (pair ph)), app_assoc, map_app in Hnd. cbn [map] in Hnd. apply NoDup_app in Hnd as (_ & Hd & _).
      intros Hin. apply (Hd _ Hin). by left.
  - cbn [map]. by rewrite app_nil_r.
Qed.

Lemma load_segments_progress s h phs : is_root T1 r -> progress [] s -> Z.of_nat (length phs) = e_phnum h ->
  (forall n ph, phs !! n = Some ph -> phdr_of file (u64 (e_phoff h + Z.of_nat n * 56)) = Some ph) ->
  Forall (fun ph => p_type ph = PT_LOAD -> seg_ok file ph) phs -> NoDup (map number (flat_map pages_of phs)) ->
  wp (load_segments file (Pool_space i) h) (fun ok s' => if (ok : bool) then progress (flat_map pages_of phs) s' else out_of_memory s') s.
Proof using Hw Hm.
  intros Hr1 Hprog Hlen Hph Hok Hnd. unfold load_segments. rewrite <- Hlen.
  set (P := fun (js : list Z) s' => progress (flat_map pages_of (take (length js) phs)) s').
  eapply wp_mono; [|apply (for_all_spec _ P out_of_memory (seqZ 0 (Z.of_nat (length phs))) [] s)].
  - intros [] s'; [|done]. unfold P. cbn [app]. rewrite length_seqZ, Nat2Z.id, take_ge by done. done.
  - intros js n post s' E HP. cbn [app] in E. assert (seqZ 0 (Z.of_nat (length phs)) !! length js = Some n) as En
      by (rewrite E; by apply list_lookup_middle).
    apply lookup_seqZ in En as [-> Hlt]. rewrite Z.add_0_l.
    destruct (lookup_lt_is_Some_2 phs (length js)) as [ph Eph]; [lia|]. rewrite (Hph _ _ Eph). cbn [known]. do 2 wp_step.
    unfold P. rewrite length_app. cbn [length]. rewrite Nat.add_1_r, (take_S_r _ _ ph) by done. rewrite flat_map_app. cbn [flat_map].
    rewrite app_nil_r. apply load_segment_progress; try done.
    + by apply (Forall_lookup_1 _ _ _ _ Hok Eph).
    + rewrite <- (take_drop_middle phs (length js) ph Eph), flat_map_app in Hnd. cbn [flat_map] in Hnd.
      rewrite app_assoc, map_app in Hnd. by apply NoDup_app in Hnd as (Hnd & _).
  - done.
Qed.
End loops.

(** ** The loaded program *)

Lemma phys_frame_entry x ph : 0 <= x < 2 ^ 35 -> phys_frame (x * PAGE_SIZE |. pte_flags ph) = x.
Proof.
  intros Hx. unfold phys_frame. rewrite Z.land_lor_distr_l.
  assert (pte_flags ph &. VMM_CLONE_PHYS_ADDR_MASK = 0) as -> by (unfold pte_flags; by destruct (has_flag _ PF_W), (negb _)).
  rewrite Z.lor_0_r. change VMM_CLONE_PHYS_ADDR_MASK with (Z.ones 40 <<. 12). change PAGE_SIZE with (2 ^ 12).
  rewrite <- Z.shiftl_mul_pow2, <- Z.shiftl_land, Z.land_ones, Z.mod_small, Z.shiftl_mul_pow2 by lia. by apply Z.div_mul.
Qed.

(** The lower half of the space [r] holds the program: the bytes of its segments in frames
    that were free in [m0], nothing else, and no frame at two pages. *)
Record program (file : list Z) (phs : list Elf64_Phdr) (s : vm) (r : Z) (m0 : gmap Z Z) : Prop := {
  pr_bytes : forall ph o, ph ∈ phs -> p_type ph = PT_LOAD -> 0 <= o < p_memsz ph -> exists x pg,
    pte s r (p_vaddr ph + o) = Some (x * PAGE_SIZE |. pte_flags ph) /\ m0 !! x = None /\ ram s !! x = Some pg /\
    get pg ((p_vaddr ph + o) mod PAGE_SIZE) = Some (seg_byte file ph o);
  pr_only : forall va e, pml4_index va < 256 -> pte s r va = Some e -> exists ph j,
    ph ∈ phs /\ p_type ph = PT_LOAD /\ 0 <= j < seg_pages ph /\ vpn va = page_no ph j;
  pr_frames : forall va vb e e', pml4_index va < 256 -> pml4_index vb < 256 -> pte s r va = Some e -> pte s r vb = Some e' ->
    phys_frame e = phys_frame e' -> vpn va = vpn vb
}.

Lemma user_vpn va : pml4_index va < 256 -> 0 <= vpn va < 2 ^ 35.
Proof.
  intros H. rewrite vpn_indices. pose proof (index_range va 39). pose proof (index_range va 30). pose proof (index_range va 21).
  pose proof (index_range va 12). fold (pml4_index va) (pdpt_index va) (pd_index va) (pt_index va) in *. lia.
Qed.

Lemma pages_of_in phs pj : pj ∈ flat_map pages_of phs <->
  pj.1 ∈ phs /\ p_type pj.1 = PT_LOAD /\ 0 <= pj.2 < seg_pages pj.1.
Proof.
  rewrite list_elem_of_In, in_flat_map. split.
  - intros (ph & Hph & Hin). unfold pages_of in Hin. destruct (Z.eqb_spec (p_type ph) PT_LOAD); [|done].
    apply in_map_iff in Hin as (j & <- & Hj). apply list_elem_of_In, elem_of_seqZ in Hj. cbn. split; [by apply list_elem_of_In|]. split; [done|lia].
  - intros (Hph & Et & Hj). exists pj.1. split; [by apply list_elem_of_In|]. unfold pages_of. rewrite Et, Z.eqb_refl.
    apply in_map_iff. exists pj.2. split; [by destruct pj|]. apply list_elem_of_In, elem_of_seqZ. lia.
Qed.

Lemma built_program file s m T r m0 phs : Forall (fun ph => p_type ph = PT_LOAD -> seg_ok file ph) phs ->
  built file s m T r m0 (flat_map pages_of phs) -> program file phs s r m0.
Proof.
  intros Hok (I & [Hpage Hnone Hinj] & Hin & Hdom).
  assert (forall va e, pml4_index va < 256 -> pte s r va = Some e -> exists pj x pg, pj ∈ flat_map pages_of phs /\
    I !! vpn va = Some (x, pg, pte_flags pj.1) /\ vpn va = number pj /\ e = x * PAGE_SIZE |. pte_flags pj.1 /\ 0 < x < 2 ^ 35) as Hsome.
  { intros va e Hva He. pose proof (user_vpn va Hva) as Hv. rewrite (pte_vpn s r va (vpn va * PAGE_SIZE)) in He by by rewrite user_page_vpn by lia.
    destruct (I !! vpn va) as [[[x pg] fl]|] eqn:E; [|by rewrite Hnone in He].
    destruct (Hpage _ _ _ _ E) as (_ & He' & _ & _ & _ & _ & Hx). rewrite He in He'. injection He' as ->.
    assert (vpn va ∈ map number (flat_map pages_of phs)) as Hm by (apply Hdom; by rewrite E).
    apply list_elem_of_In, in_map_iff in Hm as (pj & En & Hpj). apply list_elem_of_In in Hpj.
    destruct (Hin pj Hpj) as (x' & pg' & E' & _). rewrite En, E in E'. injection E' as -> -> ->. by exists pj, x', pg'. }
  split.
  - intros ph o Hph Et Ho. pose proof (proj1 (Forall_forall _ _) Hok ph Hph Et) as Hseg. pose proof Hseg as [H1 H2 H3 H4 H5 H6].
    assert (0 <= o / PAGE_SIZE < seg_pages ph) as Hj by (unfold seg_pages; zlia).
    destruct (Hin (ph, o / PAGE_SIZE)) as (x & pg & EI & Hpg & Hbytes); [by apply pages_of_in|]. cbn [fst snd] in *.
    destruct (Hpage _ _ _ _ EI) as (Hn & Hpte & Hram & Hm & _). unfold number in *. cbn [fst snd] in *. exists x, pg.
    assert (vpn (p_vaddr ph + o) = page_no ph (o / PAGE_SIZE)) as Ev.
    { unfold vpn. rewrite Z.mod_small; unfold page_no in *; zlia. }
    split_and!; try done.
    + rewrite <- Hpte. apply pte_vpn. rewrite user_page_vpn by lia. done.
    + replace ((p_vaddr ph + o) mod PAGE_SIZE) with (o mod PAGE_SIZE) by zlia. rewrite Hbytes by zlia. do 2 f_equal. zlia.
  - intros va e Hva He. destruct (Hsome va e Hva He) as ([ph j] & x & pg & Hpj & _ & Ev & _).
    apply pages_of_in in Hpj as (? & ? & ?). by exists ph, j.
  - intros va vb e e' Hva Hvb He He' Ef. destruct (Hsome va e Hva He) as (pj & x & pg & _ & E & _ & -> & Hx).
    destruct (Hsome vb e' Hvb He') as (pj' & x' & pg' & _ & E' & _ & -> & Hx'). rewrite !phys_frame_entry in Ef by lia. subst x'.
    by eapply Hinj.
Qed.

(** A file the theorem is about: its header, its program headers, segments on page boundaries
    and on different pages. *)
Record elf_file (file : list Z) (h : Elf64_Ehdr) (phs : list Elf64_Phdr) : Prop := {
  ef_bytes : wf_bytes file;
  ef_header : ehdr_of file = Some h;
  ef_magic : magic_ok h = true;
  ef_class : ident h 4 = ELFCLASS64;
  ef_type : e_type h = ET_EXEC;
  ef_count : Z.of_nat (length phs) = e_phnum h;
  ef_phdrs : forall n ph, phs !! n = Some ph -> phdr_of file (u64 (e_phoff h + Z.of_nat n * 56)) = Some ph;
  ef_segments : Forall (fun ph => p_type ph = PT_LOAD -> seg_ok file ph) phs;
  ef_disjoint : NoDup (map number (flat_map pages_of phs))
}.

(** C9: the loader builds the program.  In a well-formed state with a free slot in the pool,
    load a file whose header and program headers are in order and whose loadable segments
    start on page boundaries, lie in the lower half and within the file, and share no page.
    The call returns, keeps the state well formed and leaves the translations of every
    existing address space as they are.  When it succeeds, the answer
    is the entry point of the file and the top-level table of a new space, whose upper half
    is the kernel's, and whose lower half maps exactly the pages of the loadable segments,
    with the permissions of the segment, each to a frame of its own that was free before and
    that holds the bytes of the file followed by zeros.  When it fails, every frame of the
    machine was in use. *)
Theorem elf_load_correct (k : Z) (s : vm) (m : gmap Z Z) (T : gmap Z node) (file : list Z) (h : Elf64_Ehdr) (phs : list Elf64_Phdr) :
  vm_inv k s m T -> (exists i, get (address_space_pool s) i = Some 0) -> elf_file file h phs ->
  exists s' res m' T', elf_load (Some file) true s = Some (s', res) /\ vm_inv k s' m' T' /\ same_ptes s s' T /\
    match res with
    | Some (entry_point, cr3) => exists r, entry_point = e_entry h /\ cr3 = r * PAGE_SIZE /\ T !! r = None /\ is_root T' r /\
        (forall va, 256 <= pml4_index va -> pte s' r va = pte s (kernel_root s) va) /\ program file phs s' r m
    | None => exhausted s m'
    end.
Proof.
  intros Hinv Hfree [Hw Eh Emagic Eclass Etype Ecount Hph Hseg Hnd].
  enough (wp (elf_load (Some file) true) (fun res s' => exists m' T', vm_inv k s' m' T' /\ same_ptes s s' T /\
    match res with
    | Some (entry_point, cr3) => exists r, entry_point = e_entry h /\ cr3 = r * PAGE_SIZE /\ T !! r = None /\ is_root T' r /\
        (forall va, 256 <= pml4_index va -> pte s' r va = pte s (kernel_root s) va) /\ program file phs s' r m
    | None => exhausted s m'
    end) s) as (s' & res & E & m' & T' & H) by by exists s', res, m', T'.
  cbn [elf_load negb]. rewrite Eh. cbn [known]. do 2 wp_step. rewrite Emagic, Eclass, Etype. cbn [negb Z.eqb Pos.eqb].
  wp_step. eapply wp_mono; [|by apply (create_spec k s m T)]. intros [sp|] s1 H1.
  2: { destruct H1 as (Hinv1 & Hx & E1 & _). wp_step. exists m, T. split; [done|]. split; [|done].
       intros r va _. rewrite E1. by apply pte_ram. }
  destruct H1 as (i & c & -> & Hi & Hcm & HcT & Hinv1 & EK & Eh1 & Et & Epool & Hram & Hnew & Hsame).
  assert (is_root (<[c := (c, [])]> T) c) as Hroot by by rewrite lookup_insert_eq.
  assert (forall r, is_root T r -> is_root (<[c := (c, [])]> T) r /\ r <> c) as Hold.
  { intros r Hr. assert (r <> c) by (intros ->; congruence). by rewrite lookup_insert_ne. }
  assert (progress file k i c s1 m (<[c := 1]> m) (<[c := (c, [])]> T) [] s1) as Hp.
  { apply progress_start.
    - split; [done|]. split; [|done]. unfold top_level. rewrite Epool, get_upd_eq; [done|]. by apply get_Some_bound in Hi.
    - intros n Hn. rewrite Hnew. pose proof (user_page_index n Hn). by destruct (Z.leb_spec 256 (pml4_index (n * PAGE_SIZE))); [lia|]. }
  wp_step. eapply wp_mono; [|apply (load_segments_progress file k i c s1 m (<[c := 1]> m) (<[c := (c, [])]> T) Hw); try done].
  2: { by apply insert_subseteq. }
  intros ok s2 H2. destruct ok; cbn [negb].
  - destruct H2 as (m2 & T2 & (Hinv2 & Htop & Hr2) & He & Hs & Hup & Hb). do 3 wp_step. exists m2, T2. split; [done|]. split.
    + intros r va Hr. destruct (Hold r Hr). rewrite Hs by done. by apply Hsame.
    + exists c. split; [done|]. split.
      { unfold vmm_get_pml4_phys, get_pml4_phys. rewrite Htop. pose proof (node_frame _ _ _ _ Hinv2 _ _ _ Hr2).
        destruct (Z.eqb_spec (ptr s2 c) 0) as [E|_]; [by apply (ptr_nonzero k s2 m2 T2) in E; [|done|lia]|]. by rewrite phys_ptr by lia. }
      split_and!; try done; [|by eapply built_program]. intros va Hva. rewrite Hup, Hnew by done.
      by destruct (Z.leb_spec 256 (pml4_index va)); [|lia].
  - destruct H2 as (m2 & T2 & (Hinv2 & _) & He & Hs & Hx). wp_step. exists m2, T2. split; [done|]. split.
    + intros r va Hr. destruct (Hold r Hr). rewrite Hs by done. by apply Hsame.
    + intros n Hn. apply Hx. by rewrite Et.
Qed.

(** ** A program with a text and a data segment *)
Definition demo_ident : list Z := [0x7F; 0x45; 0x4C; 0x46; 2; 1; 1; 0; 0; 0; 0; 0; 0; 0; 0; 0].
Definition demo_header (entry_point phnum : Z) : list Z :=
  demo_ident ++ le 2 ET_EXEC ++ le 2 EM_X86_64 ++ le 4 1 ++ le 8 entry_point ++ le 8 64 ++ le 8 0 ++ le 4 0 ++ le 2 64 ++ le 2 56 ++ le 2 phnum ++
  le 2 0 ++ le 2 0 ++ le 2 0.
Definition demo_phdr (ph : Elf64_Phdr) : list Z :=
  le 4 (p_type ph) ++ le 4 (p_flags ph) ++ le 8 (p_offset ph) ++ le 8 (p_vaddr ph) ++ le 8 0 ++ le 8 (p_filesz ph) ++ le 8 (p_memsz ph) ++
  le 8 PAGE_SIZE.

Definition demo_text : Elf64_Phdr := Phdr PT_LOAD 5 176 0x400000 5 5.
Definition demo_data : Elf64_Phdr := Phdr PT_LOAD 6 181 0x401000 3 5000.
Definition demo_elf : list Z :=
  demo_header 0x400000 2 ++ demo_phdr demo_text ++ demo_phdr demo_data ++ [0x90; 0x90; 0x90; 0x90; 0xC3] ++ [1; 2; 3].

Lemma demo_elf_file : exists h, elf_file demo_elf h [demo_text; demo_data].
Proof.
  eexists. split; [|vm_compute; reflexivity|by vm_compute..| | |].
  - unfold demo_elf, demo_header, demo_phdr, demo_ident. rewrite !Forall_app. split_and!; try apply le_bytes; repeat constructor; unfold in_u; lia.
  - intros [|[|n]] ph; cbn [lookup list_lookup]; [intros [= <-]; by vm_compute..|done].
  - apply Forall_cons. split; [|apply Forall_cons; split; [|done]]; intros _; (split; [by vm_compute..|split; by vm_compute|by vm_compute|split; by vm_compute]).
  - refine (bool_decide_unpack _ _). by vm_compute.
Qed.

Lemma elf_load_correct_witness : exists k h s' res m' T', elf_load (Some demo_elf) true demo_vm = Some (s', res) /\ vm_inv k s' m' T' /\
  same_ptes demo_vm s' {[2 := (2, [])]} /\
  match res with
  | Some (entry_point, cr3) => exists r, entry_point = e_entry h /\ cr3 = r * PAGE_SIZE /\ ({[2 := (2, [])]} : gmap Z node) !! r = None /\ is_root T' r /\
      (forall va, 256 <= pml4_index va -> pte s' r va = pte demo_vm (kernel_root demo_vm) va) /\
      program demo_elf [demo_text; demo_data] s' r (<[2 := 1]> demo_used)
  | None => exhausted demo_vm m'
  end.
Proof.
  destruct demo_inv as (k & Hinv), demo_elf_file as (h & Hf). exists k, h.
  apply (elf_load_correct k demo_vm (<[2 := 1]> demo_used) {[2 := (2, [])]} demo_elf h [demo_text; demo_data] Hinv); [by exists 0|exact Hf].
Defined.

(** ** Outside the contract *)

(** When a segment does not begin on a page boundary and ends early in its first page, as
    many bytes too many are copied as lie before it in the page: what follows the segment's
    part of the file lands where zeros belong. *)
Theorem unaligned_copies_more (ph : Elf64_Phdr) (a d : Z) : 0 <= a -> 0 < d -> p_vaddr ph = a * PAGE_SIZE + d ->
  p_vaddr ph < 2 ^ 63 -> 0 <= p_filesz ph -> p_filesz ph + 2 * d < PAGE_SIZE ->
  start_page ph = a * PAGE_SIZE /\ copy_start ph (start_page ph) = d /\ copy_size ph (start_page ph) = p_filesz ph + d.
Proof.
  intros Ha Hd Ev Hv Hf Hfit. assert (start_page ph = a * PAGE_SIZE) as Es.
  { unfold start_page. rewrite page_mask by (unfold in_u; lia). rewrite Ev. zlia. }
  rewrite Es. split; [done|]. assert (copy_start ph (a * PAGE_SIZE) = d) as Ec.
  { unfold copy_start. destruct (Z.ltb_spec (a * PAGE_SIZE) (p_vaddr ph)); [|lia]. rewrite wrap_small by (unfold in_u; lia). lia. }
  split; [done|]. unfold copy_size. rewrite Ec. cbv zeta. rewrite (wrap_small 64 (PAGE_SIZE - d)) by (unfold in_u; lia).
  rewrite (wrap_small 64 (a * PAGE_SIZE + _)), (wrap_small 64 (p_vaddr ph + _)) by (unfold in_u; lia).
  destruct (Z.gtb_spec (a * PAGE_SIZE + (PAGE_SIZE - d)) (p_vaddr ph + p_filesz ph)); [|lia]. rewrite wrap_small by (unfold in_u; lia). lia.
Qed.

(** The loader does not look where a segment goes: one in the kernel's half replaces a page
    of the kernel in the tables that all spaces share, and the user may access it. *)
Definition demo_kernel_va : Z := 0xFFFF800000000000.
Definition demo_rogue : list Z := demo_header demo_kernel_va 1 ++ demo_phdr (Phdr PT_LOAD 5 120 demo_kernel_va 1 1) ++ [0xC3].

Definition demo_load_rogue : M vm (Z * option (Z * Z) * Z) :=
  _ ← vmm_map_page_by_cr3 (2 * PAGE_SIZE) demo_kernel_va 0xF000 (PTE_PRESENT |. PTE_WRITABLE |. PTE_NX);
  before ← vmm_get_pte (2 * PAGE_SIZE) demo_kernel_va;
  res ← elf_load (Some demo_rogue) true;
  after ← vmm_get_pte (2 * PAGE_SIZE) demo_kernel_va;
  mret (before, res, after).

Theorem kernel_page_replaced : option_map snd (demo_load_rogue demo_vm) =
  Some (0xF000 |. PTE_PRESENT |. PTE_WRITABLE |. PTE_NX, Some (demo_kernel_va, 0x6000), 0x7000 |. PTE_PRESENT |. PTE_USER).
Proof. by vm_compute. Qed.
