(* ===== verification/Crc32.v ===== *)
(** * CRC-32 (kernel/lib/crc32.c, kernel/lib/crc32.h)

    The table-driven checksum of the file system: the table of 256 entries, the update
    loop and the one-shot form.  The table is filled on the first call and never
    changes, so it is the constant [g_crc32_table].  The theorems relate the routine to
    the division of the message by the generator one bit at a time and show that it
    detects every change confined to four consecutive bytes. *)
From S2P Require Import Prelude Bytes.
Local Open Scope Z_scope.
Local Open Scope c_scope.

(** One turn of the inner loop of [crc32_init_table]. *)
Definition crc_shift (c : Z) : Z :=
  if has_flag c 1 then 0xEDB88320 ^. (c >>. 1) else c >>. 1.

Definition crc32_init_table : list Z :=
  map (fun i => Nat.iter 8 crc_shift (Z.of_nat i)) (seq 0 256).

Definition g_crc32_table : list Z := Eval vm_compute in crc32_init_table.

Definition crc32_init : Z := 0xFFFFFFFF.
Definition crc32_final (running : Z) : Z := running ^. 0xFFFFFFFF.

Definition crc32_update (running : Z) (data : list Z) : Z :=
  fold_left (fun c b => default 0 (get g_crc32_table ((c ^. b) &. 0xFF)) ^. (c >>. 8)) data running.

Definition crc32_buf (data : list Z) : Z := crc32_final (crc32_update crc32_init data).

#[global] Arguments crc32_update : simpl never.
#[global] Arguments crc32_buf : simpl never.
#[global] Arguments crc_shift : simpl never.

(** ** Reference: the division one message bit at a time, least significant first; the
    generator of IEEE 802.3 with its bits reversed is 0xEDB88320 *)
Definition byte_bits (b : Z) : list bool := map (fun i => Z.testbit b (Z.of_nat i)) (seq 0 8).

Definition crc_bit (c : Z) (m : bool) : Z :=
  if xorb (Z.odd c) m then (c / 2) ^. 0xEDB88320 else c / 2.

Definition crc_bits (c : Z) (data : list Z) : Z := fold_left crc_bit (concat (map byte_bits data)) c.

(** ** Linearity *)
Lemma has_flag_1 c : has_flag c 1 = Z.testbit c 0.
Proof. apply (has_flag_pow2 c 0). lia. Qed.

Lemma crc_shift_lxor x y : crc_shift (x ^. y) = crc_shift x ^. crc_shift y.
Proof.
  unfold crc_shift. rewrite !has_flag_1, Z.lxor_spec, Z.shiftr_lxor.
  destruct (Z.testbit x 0), (Z.testbit y 0); cbn [xorb].
  - rewrite (Z.lxor_comm _ (x >>. 1)), <- Z.lxor_assoc, (Z.lxor_assoc (x >>. 1)), Z.lxor_nilpotent.
    by rewrite Z.lxor_0_r.
  - symmetry. apply Z.lxor_assoc.
  - by rewrite <- !Z.lxor_assoc, (Z.lxor_comm (x >>. 1)).
  - done.
Qed.

Lemma crc_bit_shift c m : crc_bit c m = crc_shift (c ^. Z.b2z m).
Proof.
  unfold crc_bit, crc_shift. rewrite has_flag_1, Z.lxor_spec, Z.bit0_odd, Z.shiftr_lxor. change (c / 2) with (c / 2 ^ 1). rewrite <- Z.shiftr_div_pow2 by lia.
  destruct m; cbn; rewrite Z.lxor_0_r; destruct (Z.odd c); cbn [xorb]; try done; apply Z.lxor_comm.
Qed.

#[local] Arguments Nat.iter : simpl never.
Lemma iter_S n c : Nat.iter (S n) crc_shift c = crc_shift (Nat.iter n crc_shift c).
Proof. done. Qed.

Lemma crc_iter_lxor n x y :
  Nat.iter n crc_shift (x ^. y) = Nat.iter n crc_shift x ^. Nat.iter n crc_shift y.
Proof. induction n as [|n IH]; [done|]. by rewrite !iter_S, IH, crc_shift_lxor. Qed.

Lemma iter_add n k c : Nat.iter (n + k) crc_shift c = Nat.iter n crc_shift (Nat.iter k crc_shift c).
Proof. induction n as [|n IH]; [done|]. cbn [Nat.add]. by rewrite !iter_S, IH. Qed.

(** Shifting by [n] positions undoes a left shift by [n]: no generator is added. *)
Lemma crc_iter_shiftl n y : Nat.iter n crc_shift (y <<. Z.of_nat n) = y.
Proof.
  induction n as [|n IH]; [by rewrite Z.shiftl_0_r|].
  replace (S n) with (n + 1)%nat by lia. rewrite iter_add.
  replace (Nat.iter 1 crc_shift (y <<. Z.of_nat (n + 1))) with (y <<. Z.of_nat n); [done|].
  change (y <<. Z.of_nat n = crc_shift (y <<. Z.of_nat (n + 1))).
  unfold crc_shift. rewrite has_flag_1, Z.shiftl_spec_low by lia.
  rewrite Z.shiftr_shiftl_l by lia. f_equal. lia.
Qed.

(** ** The table step is eight bit steps *)
Lemma table_get i : 0 <= i < 256 -> get g_crc32_table i = Some (Nat.iter 8 crc_shift i).
Proof.
  intros Hi. change g_crc32_table with crc32_init_table. unfold get, crc32_init_table.
  destruct (Z.ltb_spec i 0); [lia|]. rewrite list_lookup_fmap, lookup_seq_lt by lia.
  change (Some (Nat.iter 8 crc_shift (Z.of_nat (0 + Z.to_nat i))) = Some (Nat.iter 8 crc_shift i)).
  do 2 f_equal. lia.
Qed.

Lemma split_low_byte x : 0 <= x -> x = (x &. 0xFF) ^. ((x >>. 8) <<. 8).
Proof.
  intros Hx. change 0xFF with (Z.ones 8). rewrite <- wrap_land_ones by lia. apply Z.bits_inj'. intros i Hi.
  rewrite Z.lxor_spec, testbit_wrap, Z.shiftl_spec by lia. destruct (Z.ltb_spec i 8).
  - rewrite (Z.testbit_neg_r _ (i - 8)) by lia. by rewrite xorb_false_r.
  - rewrite Z.shiftr_spec by lia. cbn [andb xorb]. f_equal. lia.
Qed.

Lemma crc_byte c b : 0 <= c -> in_u 8 b ->
  default 0 (get g_crc32_table ((c ^. b) &. 0xFF)) ^. (c >>. 8) = Nat.iter 8 crc_shift (c ^. b).
Proof.
  intros Hc Hb. assert (0 <= c ^. b) by (apply Z.lxor_nonneg; unfold in_u in Hb; lia).
  assert (0 <= (c ^. b) &. 0xFF < 256) as Hi.
  { change 0xFF with (Z.ones 8). rewrite <- wrap_land_ones by lia. by apply (wrap_bound 8). }
  rewrite (table_get _ Hi). rewrite (split_low_byte (c ^. b)) at 2 by done.
  rewrite crc_iter_lxor, (crc_iter_shiftl 8), Z.shiftr_lxor. cbn [default]. f_equal.
  rewrite (Z.shiftr_div_pow2 b 8) by lia. unfold in_u in Hb. by rewrite (Z.div_small b), Z.lxor_0_r.
Qed.

Lemma crc_shift_bound c : in_u 32 c -> in_u 32 (crc_shift c).
Proof.
  intros Hc. assert (in_u 31 (c >>. 1)) as Hs.
  { rewrite Z.shiftr_div_pow2 by lia. unfold in_u in *. split; [apply Z.div_pos; lia|].
    apply Z.div_lt_upper_bound; lia. }
  unfold crc_shift. destruct (has_flag c 1); [|by apply (in_u_mono 31)].
  apply testbit_in_u; [lia| |].
  - apply Z.lxor_nonneg. unfold in_u in Hs. lia.
  - intros i Hi. rewrite Z.lxor_spec, (testbit_high 31 _ i Hs), (testbit_high 32) by (try done; lia). done.
Qed.

Lemma crc_iter_bound n c : in_u 32 c -> in_u 32 (Nat.iter n crc_shift c).
Proof. intros Hc. induction n as [|n IH]; [done|]. by apply crc_shift_bound. Qed.

Lemma in_u_lxor w x y : 0 <= w -> in_u w x -> in_u w y -> in_u w (x ^. y).
Proof.
  intros Hw Hx Hy. apply testbit_in_u; [done| |].
  - apply Z.lxor_nonneg. unfold in_u in *. lia.
  - intros. by rewrite Z.lxor_spec, !(testbit_high w) by (done || lia).
Qed.

(** The table loop, byte by byte. *)
Lemma crc32_update_bytes data : forall running, in_u 32 running -> wf_bytes data ->
  crc32_update running data = fold_left (fun c b => Nat.iter 8 crc_shift (c ^. b)) data running.
Proof.
  induction data as [|b data IH]; intros c Hc Hd; [done|]. apply Forall_cons in Hd as [Hb Hd].
  unfold crc32_update in *. cbn [fold_left]. unfold in_u in Hc. rewrite crc_byte by (done || lia).
  apply IH; [|done]. apply crc_iter_bound, in_u_lxor; [lia|done|]. by apply (in_u_mono 8).
Qed.

Lemma crc32_update_bound data : forall running, in_u 32 running -> wf_bytes data ->
  in_u 32 (crc32_update running data).
Proof.
  intros c Hc Hd. rewrite crc32_update_bytes by done. revert c Hc.
  induction Hd as [|b data Hb Hd IH]; intros c Hc; [done|]. cbn [fold_left]. apply IH, crc_iter_bound, in_u_lxor;
    [lia|done|]. by apply (in_u_mono 8).
Qed.

(** Eight message bits are one message byte. *)
Lemma crc_bits_byte c b : in_u 8 b -> fold_left crc_bit (byte_bits b) c = Nat.iter 8 crc_shift (c ^. b).
Proof.
  intros Hb. rewrite crc_iter_lxor. unfold byte_bits. cbn [seq map fold_left]. rewrite !crc_bit_shift.
  rewrite !crc_shift_lxor. change (Nat.iter 8 crc_shift c) with
    (crc_shift (crc_shift (crc_shift (crc_shift (crc_shift (crc_shift (crc_shift (crc_shift c)))))))).
  rewrite !Z.lxor_assoc. f_equal. clear c.
  assert (0 <= b < 256) as Hr by exact Hb. clear Hb.
  enough (forallb (fun n => let b := Z.of_nat n in
    fold_left crc_bit (byte_bits b) 0 =? Nat.iter 8 crc_shift b) (seq 0 256) = true) as E.
  { rewrite forallb_forall in E. specialize (E (Z.to_nat b)). rewrite in_seq in E. specialize (E ltac:(lia)).
    cbn zeta in E. rewrite Z2Nat.id in E by lia. apply Z.eqb_eq in E. rewrite <- E.
    unfold byte_bits. cbn [seq map fold_left]. rewrite !crc_bit_shift, Z.lxor_0_l, !crc_shift_lxor, !Z.lxor_assoc. done. }
  by vm_compute.
Qed.

Lemma crc32_update_bits running data : in_u 32 running -> wf_bytes data ->
  crc32_update running data = crc_bits running data.
Proof.
  intros Hc Hd. rewrite crc32_update_bytes by done. unfold crc_bits. clear Hc. revert running.
  induction Hd as [|b data Hb _ IH]; intros c; [done|].
  cbn [map concat fold_left]. by rewrite fold_left_app, crc_bits_byte, IH.
Qed.

Lemma crc32_update_app c a b : crc32_update c (a ++ b) = crc32_update (crc32_update c a) b.
Proof. apply fold_left_app. Qed.

(** ** Injectivity *)
Lemma crc_shift_0 c : in_u 32 c -> crc_shift c = 0 -> c = 0.
Proof.
  unfold crc_shift, in_u. rewrite has_flag_1, Z.shiftr_div_pow2, Z.bit0_odd by lia. intros Hc.
  pose proof (Z.div_mod c 2) as Hd. rewrite Zmod_odd in Hd. change (2 ^ 1) with 2. destruct (Z.odd c).
  - intros E%Z.lxor_eq. lia.
  - lia.
Qed.

Lemma crc_iter_0 n c : in_u 32 c -> Nat.iter n crc_shift c = 0 -> c = 0.
Proof.
  intros Hc. induction n as [|n IH]; [done|]. rewrite iter_S. intros E. apply IH, crc_shift_0; [|done].
  by apply crc_iter_bound.
Qed.

Lemma crc_iter_inj n x y : in_u 32 x -> in_u 32 y -> Nat.iter n crc_shift x = Nat.iter n crc_shift y -> x = y.
Proof.
  intros Hx Hy E. apply Z.lxor_eq, (crc_iter_0 n); [by apply in_u_lxor|].
  by rewrite crc_iter_lxor, E, Z.lxor_nilpotent.
Qed.

Lemma lxor_cancel c x y : c ^. x = c ^. y -> x = y.
Proof.
  intros E. rewrite <- (Z.lxor_0_l x), <- (Z.lxor_0_l y), <- (Z.lxor_nilpotent c), !Z.lxor_assoc. by f_equal.
Qed.

(** A short message is one word, taken in at once. *)
Lemma crc32_update_word data : forall c, in_u 32 c -> wf_bytes data ->
  crc32_update c data = Nat.iter (8 * length data) crc_shift (c ^. of_le data).
Proof.
  intros c Hc Hd. rewrite crc32_update_bytes by done. clear Hc. revert c.
  induction Hd as [|b data Hb Hd IH]; intros c; [by rewrite Z.lxor_0_r|].
  cbn [fold_left length of_le]. rewrite IH. replace (8 * S (length data))%nat with (8 * length data + 8)%nat by lia.
  rewrite iter_add. f_equal. replace (b + 256 * of_le data) with (b ^. (of_le data <<. 8)).
  - by rewrite <- Z.lxor_assoc, (crc_iter_lxor 8 (c ^. b)), (crc_iter_shiftl 8).
  - rewrite <- Z.add_nocarry_lxor.
    + rewrite Z.shiftl_mul_pow2 by lia. change (2 ^ 8) with 256. lia.
    + apply Z.bits_inj'. intros i Hi. rewrite Z.land_spec, Z.shiftl_spec, Z.bits_0 by lia.
      destruct (Z.ltb_spec i 8); [by rewrite (Z.testbit_neg_r _ (i - 8)), andb_false_r by lia|].
      by rewrite (testbit_high 8) by (done || lia).
Qed.

Lemma of_le_bound l : wf_bytes l -> in_u (8 * Z.of_nat (length l)) (of_le l).
Proof.
  induction 1 as [|b l Hb _ IH]; [by apply wrap_bound with (x := 0)|]. unfold in_u in *. cbn [of_le length].
  replace (8 * Z.of_nat (S (length l))) with (8 + 8 * Z.of_nat (length l)) by lia.
  rewrite Z.pow_add_r by lia. change (2 ^ 8) with 256 in *. lia.
Qed.

Lemma of_le_inj l : forall l', wf_bytes l -> wf_bytes l' -> length l = length l' -> of_le l = of_le l' -> l = l'.
Proof.
  induction l as [|b l IH]; intros [|b' l'] Hl Hl' Hlen E; try done.
  apply Forall_cons in Hl as [Hb Hl], Hl' as [Hb' Hl']. cbn [of_le length] in *. unfold in_u in Hb, Hb'.
  assert (b = b') as -> by lia. f_equal. apply IH; try done; lia.
Qed.

Lemma crc32_update_inj data c c' : in_u 32 c -> in_u 32 c' -> wf_bytes data ->
  crc32_update c data = crc32_update c' data -> c = c'.
Proof.
  intros Hc Hc' Hd E. rewrite !crc32_update_word in E by done.
  rewrite !(crc_iter_lxor _ c), !(crc_iter_lxor _ c') in E.
  rewrite !(Z.lxor_comm _ (Nat.iter _ _ (of_le data))) in E. apply lxor_cancel in E.
  by apply crc_iter_inj in E.
Qed.

(** C33: the table-driven checksum equals long division of the message by the generator
    polynomial 0xEDB88320, one message bit at a time with the least significant bit of
    each byte first; it does not matter how the message is cut into the parts given to
    successive updates. *)
Theorem crc32_bitwise (running : Z) (parts : list (list Z)) :
  in_u 32 running -> Forall wf_bytes parts ->
  fold_left crc32_update parts running = crc_bits running (concat parts).
Proof.
  intros Hc Hp. revert running Hc. induction Hp as [|p parts Hb _ IH]; intros c Hc; [done|].
  cbn [fold_left concat]. rewrite IH by by apply crc32_update_bound.
  rewrite crc32_update_bits by done. unfold crc_bits. by rewrite map_app, concat_app, fold_left_app.
Qed.

Lemma crc32_bitwise_witness :
  crc32_final (fold_left crc32_update [[49; 50; 51; 52]; [53; 54; 55; 56; 57]] crc32_init) = 0xCBF43926 /\
  fold_left crc32_update [[49; 50; 51; 52]; [53; 54; 55; 56; 57]] crc32_init =
    crc_bits crc32_init (concat [[49; 50; 51; 52]; [53; 54; 55; 56; 57]]).
Proof.
  split; [by vm_compute|]. apply crc32_bitwise; [by vm_compute|].
  repeat constructor; by vm_compute.
Defined.

(** Two messages that differ only inside a window of at most four consecutive bytes
    have different checksums. *)
Theorem crc32_detects_burst (before w w' after : list Z) :
  wf_bytes before -> wf_bytes w -> wf_bytes w' -> wf_bytes after ->
  length w = length w' -> (length w <= 4)%nat -> w <> w' ->
  crc32_buf (before ++ w ++ after) <> crc32_buf (before ++ w' ++ after).
Proof.
  intros Hb Hw Hw' Ha Hl H4 Hne E. apply Hne. unfold crc32_buf, crc32_final in E.
  rewrite !(Z.lxor_comm _ 0xFFFFFFFF) in E. apply lxor_cancel in E. rewrite !crc32_update_app in E.
  assert (in_u 32 crc32_init) as Hi by done. pose proof (crc32_update_bound _ _ Hi Hb) as H0.
  set (c := crc32_update crc32_init before) in *.
  apply crc32_update_inj in E; [|by apply crc32_update_bound..|done].
  rewrite !crc32_update_word, <- Hl in E by done.
  assert (forall v, wf_bytes v -> length v = length w -> in_u 32 (of_le v)) as Hv.
  { intros v Hv Hlv. apply (in_u_mono (8 * Z.of_nat (length v))); [lia|]. by apply of_le_bound. }
  apply crc_iter_inj in E; [|apply in_u_lxor; auto; lia..].
  apply lxor_cancel in E. by apply of_le_inj.
Qed.

Lemma crc32_detects_burst_witness :
  crc32_buf ([49; 50] ++ [51; 52] ++ [53]) <> crc32_buf ([49; 50] ++ [52; 51] ++ [53]).
Proof. apply crc32_detects_burst; try done; repeat constructor; by vm_compute. Defined.
