(* ===== verification/SimHash.v ===== *)
(** * SimHash (kernel/fs/simhash.c)

    Similarity hashes of file contents: FNV-1a, the text and byte-frequency SimHashes and
    the Hamming distance with its parallel population count.  Counters are 32-bit signed
    integers and hashes 64-bit unsigned ones.  The theorems show that the population count
    counts bits, so that the distance is a metric, and that each bit of a text hash is the
    majority vote of the shingles. *)
From S2P Require Import Prelude Bytes.
Local Open Scope Z_scope.
Local Open Scope c_scope.

Abbreviation FNV1A_OFFSET_BASIS := 0xCBF29CE484222325.
Abbreviation FNV1A_PRIME := 0x00000100000001B3.
Abbreviation SIMHASH_SHINGLE_SIZE := 3.

Definition fnv1a_hash64 (data : list Z) : Z :=
  fold_left (fun hash b => u64 ((hash ^. b) * FNV1A_PRIME)) data FNV1A_OFFSET_BASIS.

Definition popcount64 (x : Z) : Z :=
  let x := u64 (x - ((x >>. 1) &. 0x5555555555555555)) in
  let x := u64 ((x &. 0x3333333333333333) + ((x >>. 2) &. 0x3333333333333333)) in
  let x := u64 (x + (x >>. 4)) &. 0x0F0F0F0F0F0F0F0F in
  u64 (x * 0x0101010101010101) >>. 56.

(** Adding a feature of the given hash and weight to the 64 counters. *)
Definition vote (v : list Z) (h weight : Z) : list Z :=
  imap (fun bit c => if has_flag h (1 <<. Z.of_nat bit) then i32 (c + weight) else i32 (c - weight)) v.

Definition simhash_of (v : list Z) : Z :=
  fold_left (fun acc '(bit, c) => if c >? 0 then acc |. (1 <<. Z.of_nat bit) else acc)
    (zip (seq 0 64) v) 0.

Definition shingles (data : list Z) : list (list Z) :=
  map (fun s => take (Z.to_nat SIMHASH_SHINGLE_SIZE) (drop s data)) (seq 0 (length data - Z.to_nat SIMHASH_SHINGLE_SIZE + 1)).

Definition simhash_text (data : list Z) : Z :=
  if Z.of_nat (length data) <? SIMHASH_SHINGLE_SIZE then fnv1a_hash64 data else
  simhash_of (fold_left (fun v sh => vote v (fnv1a_hash64 sh) 1) (shingles data) (replicate 64 0)).

(** Occurrences of the byte [b]. *)
Definition freq (data : list Z) (b : nat) : Z := u32 (Z.of_nat (length (List.filter (fun x => x =? Z.of_nat b) data))).

Definition bfd_feature (b : nat) (f : Z) : list Z :=
  [u8 (Z.of_nat b); u8 (Z.of_nat b >>. 4); u8 (f &. 0xFF); u8 ((f >>. 8) &. 0xFF); u8 ((f >>. 16) &. 0xFF); u8 ((f >>. 24) &. 0xFF)].

Definition simhash_bfd (data : list Z) : Z :=
  simhash_of (fold_left (fun v b =>
    let f := freq data b in
    if f =? 0 then v else vote v (fnv1a_hash64 (bfd_feature b f)) (if f >? 1000 then 1000 else f))
    (seq 0 256) (replicate 64 0)).

Definition non_printable (b : Z) : bool := (b <? 0x09) || ((b >? 0x0D) && (b <? 0x20)) || (b >? 0x7E).

Definition simhash_auto (data : list Z) : Z :=
  if decide (data = []) then 0 else
  let sample := if Z.of_nat (length data) >? 1024 then 1024 else Z.of_nat (length data) in
  let n := Z.of_nat (length (List.filter non_printable (take (Z.to_nat sample) data))) in
  if n * 5 >? sample then simhash_bfd data else simhash_text data.

Definition simhash_hamming_distance (a b : Z) : Z := popcount64 (a ^. b).

(** ** Reference: number of set bits *)
Fixpoint bit_count (n : nat) (x : Z) : Z :=
  match n with O => 0 | S n => Z.b2z (Z.testbit x (Z.of_nat n)) + bit_count n x end.

(** ** Numbers as lists of nibbles *)
Fixpoint val4 (l : list Z) : Z := match l with [] => 0 | d :: l => d + 16 * val4 l end.

Abbreviation nibbles := (Forall (fun d => 0 <= d < 16)).

Lemma testbit_nibble d x i : 0 <= d < 16 -> 0 <= i -> Z.testbit (d + 16 * x) i = if i <? 4 then Z.testbit d i else Z.testbit x (i - 4).
Proof.
  intros Hd Hi. change 16 with (2 ^ 4). rewrite (Z.mul_comm (2 ^ 4)), <- Z.shiftl_mul_pow2 by lia.
  assert (d &. (x <<. 4) = 0) as E.
  { apply Z.bits_inj'. intros j Hj. rewrite Z.land_spec, Z.shiftl_spec, Z.bits_0 by lia.
    destruct (Z.ltb_spec j 4); [by rewrite (Z.testbit_neg_r x), andb_false_r by lia|].
    by rewrite (testbit_high 4) by (done || lia). }
  rewrite Z.add_nocarry_lxor, Z.lxor_spec, Z.shiftl_spec by done. destruct (Z.ltb_spec i 4).
  - by rewrite (Z.testbit_neg_r x), xorb_false_r by lia.
  - by rewrite (testbit_high 4 d) by (done || lia).
Qed.

Lemma land_nibble d x m y : 0 <= d < 16 -> 0 <= m < 16 -> (d + 16 * x) &. (m + 16 * y) = (d &. m) + 16 * (x &. y).
Proof.
  intros Hd Hm. assert (0 <= d &. m < 16) by (apply (in_u_land_l 4); [lia|exact Hd]).
  apply Z.bits_inj'. intros i Hi. rewrite Z.land_spec, !testbit_nibble by done.
  destruct (i <? 4); by rewrite Z.land_spec.
Qed.

Lemma land_val4 l : forall ms, nibbles l -> nibbles ms -> length l = length ms ->
  val4 l &. val4 ms = val4 (zip_with Z.land l ms).
Proof.
  induction l as [|d l IH]; intros [|m ms] Hl Hm E; try done.
  apply Forall_cons in Hl as [Hd Hl], Hm as [Hm Hms]. cbn [val4 zip_with]. rewrite land_nibble by done. rewrite IH; auto.
Qed.

Lemma shiftr_val4 s l : 0 <= s <= 4 -> nibbles l -> Forall (fun d => d mod 2 ^ s = 0) l ->
  val4 l >>. s = val4 (map (fun d => d >>. s) l).
Proof.
  intros Hs Hl Hm. assert (0 < 2 ^ s) by lia. assert (16 = 2 ^ (4 - s) * 2 ^ s) as E16.
  { rewrite <- Z.pow_add_r by lia. by replace (4 - s + s) with 4 by lia. }
  rewrite Z.shiftr_div_pow2 by lia. induction Hl as [|d l Hd Hl IH]; [cbn; by rewrite Z.div_0_l by lia|].
  apply Forall_cons in Hm as [Hdm Hm]. cbn [val4 map]. rewrite <- IH by done. rewrite Z.shiftr_div_pow2 by lia.
  assert (val4 l mod 2 ^ s = 0) as Hv.
  { clear IH Hd. induction Hl as [|e l He Hl IH]; [done|]. apply Forall_cons in Hm as [Hem Hm]. cbn [val4].
    rewrite E16. replace (e + 2 ^ (4 - s) * 2 ^ s * val4 l) with (e + 2 ^ (4 - s) * val4 l * 2 ^ s) by lia.
    by rewrite Z.mod_add by lia. }
  apply Z.div_exact in Hv; [|lia]. apply Z.div_exact in Hdm; [|lia].
  rewrite Hv at 1. rewrite Hdm at 1.
  replace (2 ^ s * (d / 2 ^ s) + 16 * (2 ^ s * (val4 l / 2 ^ s))) with ((d / 2 ^ s + 16 * (val4 l / 2 ^ s)) * 2 ^ s) by lia.
  by rewrite Z.div_mul by lia.
Qed.

(** Shifting and masking works nibble by nibble when the mask leaves no bit from outside. *)
Lemma shift_mask s m l : 0 <= s <= 4 -> 0 <= m < 2 ^ (4 - s) -> nibbles l ->
  (val4 l >>. s) &. val4 (replicate (length l) m) = val4 (map (fun d => (d >>. s) &. m) l).
Proof.
  intros Hs Hm Hl. assert (16 = 2 ^ (4 - s) * 2 ^ s) as E16.
  { rewrite <- Z.pow_add_r by lia. by replace (4 - s + s) with 4 by lia. }
  assert (0 < 2 ^ s /\ 0 < 2 ^ (4 - s)) as [Hp Hp'] by lia.
  assert (0 <= m <<. s < 16) as Hms by (rewrite Z.shiftl_mul_pow2 by lia; nia).
  assert (val4 (replicate (length l) m) <<. s = val4 (replicate (length l) (m <<. s))) as E.
  { rewrite Z.shiftl_mul_pow2 by lia. induction (length l) as [|n IH]; [done|]. cbn [replicate val4].
    rewrite <- IH, Z.shiftl_mul_pow2 by lia. lia. }
  assert ((val4 l >>. s) &. val4 (replicate (length l) m) = (val4 l &. (val4 (replicate (length l) m) <<. s)) >>. s) as ->.
  { rewrite Z.shiftr_land, Z.shiftr_shiftl_l, Z.sub_diag, Z.shiftl_0_r by lia. done. }
  rewrite E, land_val4 by (rewrite ?length_replicate; auto using Forall_replicate).
  assert (zip_with Z.land l (replicate (length l) (m <<. s)) = map (fun d => d &. (m <<. s)) l) as ->.
  { clear. induction l as [|d l IH]; [done|]. cbn. by rewrite IH. }
  rewrite shiftr_val4; [rewrite map_map|done| |].
  - f_equal. apply map_ext. intros d. by rewrite Z.shiftr_land, Z.shiftr_shiftl_l, Z.sub_diag, Z.shiftl_0_r by lia.
  - apply Forall_fmap. eapply Forall_impl; [exact Hl|]. intros d Hd. apply (in_u_land_l 4); [lia|exact Hd].
  - apply Forall_fmap. eapply Forall_impl; [exact Hl|]. intros d Hd. cbn beta. change (wrap s (d &. m <<. s) = 0).
    apply Z.bits_inj'. intros i Hi. rewrite testbit_wrap, Z.land_spec, Z.bits_0 by lia.
    destruct (Z.ltb_spec i s); [|done]. by rewrite Z.shiftl_spec_low, andb_false_r by lia.
Qed.

Lemma val4_map_add (f g : Z -> Z) l : val4 (map f l) + val4 (map g l) = val4 (map (fun d => f d + g d) l).
Proof. induction l as [|d l IH]; [done|]. cbn [map val4]. lia. Qed.

Lemma val4_map_sub (f : Z -> Z) l : val4 l - val4 (map f l) = val4 (map (fun d => d - f d) l).
Proof. induction l as [|d l IH]; [done|]. cbn [map val4]. lia. Qed.

Lemma val4_bound l : nibbles l -> 0 <= val4 l < 16 ^ Z.of_nat (length l).
Proof.
  induction 1 as [|d l Hd _ IH]; [done|]. cbn [val4 length]. rewrite Nat2Z.inj_succ, Z.pow_succ_r by lia. lia.
Qed.

Lemma nibbles_of n : forall x, 0 <= x < 16 ^ Z.of_nat n -> exists l, length l = n /\ nibbles l /\ val4 l = x.
Proof.
  induction n as [|n IH]; intros x Hx; [exists []; cbn in *; split_and!; [done|constructor|lia]|].
  rewrite Nat2Z.inj_succ, Z.pow_succ_r in Hx by lia. destruct (IH (x / 16)) as (l & El & Hl & Ev).
  { split; [apply Z.div_pos; lia|apply Z.div_lt_upper_bound; lia]. }
  exists (x mod 16 :: l). split_and!; [cbn; lia|constructor; [zlia|done]|]. cbn [val4]. rewrite Ev. zlia.
Qed.

Lemma bit_count_S n x : bit_count (S n) x = Z.b2z (Z.testbit x (Z.of_nat n)) + bit_count n x.
Proof. done. Qed.

Lemma bit_count_ext n x y : (forall i, 0 <= i < Z.of_nat n -> Z.testbit x i = Z.testbit y i) -> bit_count n x = bit_count n y.
Proof. induction n as [|n IH]; intros H; [done|]. cbn [bit_count]. rewrite H, IH by (intros; try apply H; lia). done. Qed.

Lemma bit_count_shift n d x : 0 <= d < 16 -> bit_count (4 + n) (d + 16 * x) = bit_count 4 d + bit_count n x.
Proof.
  intros Hd. induction n as [|n IH].
  - rewrite Nat.add_0_r. change (bit_count 0 x) with 0. rewrite Z.add_0_r. apply bit_count_ext. intros i Hi.
    rewrite testbit_nibble by lia. destruct (Z.ltb_spec i 4); [done|lia].
  - replace (4 + S n)%nat with (S (4 + n)) by lia. rewrite (bit_count_S (4 + n)), (bit_count_S n), IH, testbit_nibble by lia.
    destruct (Z.ltb_spec (Z.of_nat (4 + n)) 4); [lia|]. replace (Z.of_nat (4 + n) - 4) with (Z.of_nat n) by lia. lia.
Qed.

Lemma bit_count_val4 l : nibbles l -> bit_count (4 * length l) (val4 l) = fold_right (fun d s => bit_count 4 d + s) 0 l.
Proof.
  induction 1 as [|d l Hd _ IH]; [done|]. cbn [length val4 fold_right]. replace (4 * S (length l))%nat with (4 + 4 * length l)%nat by lia.
  by rewrite bit_count_shift, IH.
Qed.

(** ** The population count *)
Definition step1 (d : Z) : Z := d - ((d >>. 1) &. 5).
Definition step2 (d : Z) : Z := (d &. 3) + ((d >>. 2) &. 3).

(** All nibbles satisfy a decidable property that sixteen checks establish. *)
Lemma nibble_cases (P : Z -> bool) : forallb (fun n => P (Z.of_nat n)) (seq 0 16) = true -> forall d, 0 <= d < 16 -> P d = true.
Proof.
  intros H d Hd. rewrite forallb_forall in H. specialize (H (Z.to_nat d)). rewrite in_seq in H.
  rewrite Z2Nat.id in H by lia. apply H. lia.
Qed.

Lemma step_nibble d : 0 <= d < 16 ->
  0 <= step1 d < 16 /\ 0 <= step2 (step1 d) <= 4 /\ step2 (step1 d) = bit_count 4 d.
Proof.
  intros Hd. pose proof (nibble_cases (fun d => (0 <=? step1 d) && (step1 d <? 16) && (0 <=? step2 (step1 d)) &&
    (step2 (step1 d) <=? 4) && (step2 (step1 d) =? bit_count 4 d)) ltac:(by vm_compute) d Hd). lia.
Qed.

(** Steps one and two leave the bit count of every nibble in it. *)
Lemma popcount_nibbles l : length l = 16%nat -> nibbles l ->
  let x := u64 (val4 l - ((val4 l >>. 1) &. 0x5555555555555555)) in
  u64 ((x &. 0x3333333333333333) + ((x >>. 2) &. 0x3333333333333333)) = val4 (map (bit_count 4) l).
Proof.
  intros Hn Hl x.
  assert (x = val4 (map step1 l)) as ->.
  { unfold x. change 0x5555555555555555 with (val4 (replicate 16 5)). rewrite <- Hn, shift_mask by (done || lia).
    rewrite val4_map_sub. change (fun d => d - (d >>. 1 &. 5)) with step1. apply wrap_small.
    assert (nibbles (map step1 l)) as H1 by (apply Forall_fmap; eapply Forall_impl; [exact Hl|]; intros d Hd; apply step_nibble, Hd).
    apply val4_bound in H1. rewrite length_map, Hn in H1. exact H1. }
  assert (nibbles (map step1 l)) as H1 by (apply Forall_fmap; eapply Forall_impl; [exact Hl|]; intros d Hd; apply step_nibble, Hd).
  assert (length (map step1 l) = 16%nat) as Hn1 by by rewrite length_map.
  change 0x3333333333333333 with (val4 (replicate 16 3)). rewrite <- Hn1, shift_mask by (done || lia).
  assert (val4 (map step1 l) &. val4 (replicate (length (map step1 l)) 3) = val4 (map (fun d => d &. 3) (map step1 l))) as ->.
  { rewrite <- (Z.shiftr_0_r (val4 (map step1 l))) at 1. rewrite shift_mask by (done || lia). done. }
  rewrite val4_map_add, map_map. change (fun x0 => (step1 x0 &. 3) + (step1 x0 >>. 2 &. 3)) with (fun d => step2 (step1 d)).
  assert (map (fun d => step2 (step1 d)) l = map (bit_count 4) l) as ->.
  { apply map_ext_in. intros d Hd%list_elem_of_In. apply step_nibble. by apply (proj1 (Forall_forall _ _) Hl). }
  apply wrap_small. assert (nibbles (map (bit_count 4) l)) as H2.
  { apply Forall_fmap. eapply Forall_impl; [exact Hl|]. intros d Hd.
    destruct (step_nibble d Hd) as (_ & H & E). change (0 <= bit_count 4 d < 16). rewrite <- E. lia. }
  apply val4_bound in H2. rewrite length_map, Hn in H2. exact H2.
Qed.

(** The multiplication by 0x0101... adds eight small bytes into the top one. *)
Lemma horizontal_sum c0 c1 c2 c3 c4 c5 c6 c7 :
  0 <= c0 <= 8 -> 0 <= c1 <= 8 -> 0 <= c2 <= 8 -> 0 <= c3 <= 8 -> 0 <= c4 <= 8 -> 0 <= c5 <= 8 -> 0 <= c6 <= 8 -> 0 <= c7 <= 8 ->
  u64 (val4 [c0; 0; c1; 0; c2; 0; c3; 0; c4; 0; c5; 0; c6; 0; c7; 0] * 0x0101010101010101) >>. 56 =
  c0 + c1 + c2 + c3 + c4 + c5 + c6 + c7.
Proof.
  intros. cbn [val4]. unfold wrap. rewrite Z.shiftr_div_pow2 by lia.
  change (2 ^ 64) with 18446744073709551616. change (2 ^ 56) with 72057594037927936.
  set (low := c0 + 256 * (c0 + c1) + 65536 * (c0 + c1 + c2) + 16777216 * (c0 + c1 + c2 + c3) +
    4294967296 * (c0 + c1 + c2 + c3 + c4) + 1099511627776 * (c0 + c1 + c2 + c3 + c4 + c5) +
    281474976710656 * (c0 + c1 + c2 + c3 + c4 + c5 + c6)).
  set (high := (c1 + c2 + c3 + c4 + c5 + c6 + c7) + 256 * (c2 + c3 + c4 + c5 + c6 + c7) + 65536 * (c3 + c4 + c5 + c6 + c7) +
    16777216 * (c4 + c5 + c6 + c7) + 4294967296 * (c5 + c6 + c7) + 1099511627776 * (c6 + c7) + 281474976710656 * c7).
  set (sum := c0 + c1 + c2 + c3 + c4 + c5 + c6 + c7).
  assert (0 <= low < 72057594037927936) as Hlow by (unfold low; lia).
  assert (0 <= sum <= 64) as Hsum by (unfold sum; lia).
  match goal with |- ?a mod _ / _ = _ => replace a with (low + sum * 72057594037927936 + high * 18446744073709551616)
    by (unfold low, high, sum; lia) end.
  rewrite Z.mod_add, Z.mod_small by lia. rewrite Z.div_add, Z.div_small by lia. lia.
Qed.

(** Adding neighbouring nibbles, and the horizontal sum of the multiplication. *)
Lemma popcount_sum l : length l = 16%nat -> Forall (fun d => 0 <= d <= 4) l ->
  u64 ((u64 (val4 l + (val4 l >>. 4)) &. 0x0F0F0F0F0F0F0F0F) * 0x0101010101010101) >>. 56 = fold_right Z.add 0 l.
Proof.
  intros Hn Hl. do 16 (destruct l as [|? l]; [done|]). destruct l; [|done]. clear Hn.
  repeat match goal with H : Forall _ (_ :: _) |- _ => apply Forall_cons in H as [? H] end. clear Hl.
  match goal with |- context [val4 (?a :: ?l)] => set (d0 := a) in *; set (t := l) in * end.
  assert (val4 (d0 :: t) >>. 4 = val4 t) as ->.
  { rewrite Z.shiftr_div_pow2 by lia. cbn [val4]. change (2 ^ 4) with 16. zlia. }
  subst d0 t.
  match goal with |- context [u64 (val4 [?a; ?b; ?c; ?d; ?e; ?f; ?g; ?h; ?i; ?j; ?k; ?l; ?m; ?n; ?o; ?p] + _)] =>
    assert (u64 (val4 [a; b; c; d; e; f; g; h; i; j; k; l; m; n; o; p] + val4 [b; c; d; e; f; g; h; i; j; k; l; m; n; o; p]) =
      val4 [a + b; b + c; c + d; d + e; e + f; f + g; g + h; h + i; i + j; j + k; k + l; l + m; m + n; n + o; o + p; p]) as ->
      by (rewrite wrap_small; [|unfold in_u; change (2 ^ 64) with 18446744073709551616]; cbn [val4]; lia)
  end.
  change 0x0F0F0F0F0F0F0F0F with (val4 [15; 0; 15; 0; 15; 0; 15; 0; 15; 0; 15; 0; 15; 0; 15; 0]).
  rewrite land_val4; [|repeat constructor; lia|repeat constructor; lia|done]. cbn [zip_with]. rewrite !Z.land_0_r.
  rewrite !(Z.land_ones _ 4) by lia. change (2 ^ 4) with 16. rewrite !Z.mod_small by lia.
  rewrite horizontal_sum by lia. cbn [fold_right]. lia.
Qed.

Lemma popcount_bits x : in_u 64 x -> popcount64 x = bit_count 64 x.
Proof.
  intros Hx. destruct (nibbles_of 16 x Hx) as (l & Hn & Hl & <-). unfold popcount64. cbv zeta.
  rewrite (popcount_nibbles l Hn Hl). rewrite popcount_sum; [|by rewrite length_map|].
  - replace 64%nat with (4 * length l)%nat by lia. rewrite bit_count_val4 by done. clear.
    induction l as [|d l IH]; [done|]. cbn [map fold_right]. by rewrite IH.
  - apply Forall_fmap. eapply Forall_impl; [exact Hl|]. intros d Hd.
    destruct (step_nibble d Hd) as (_ & H & E). change (0 <= bit_count 4 d <= 4). by rewrite <- E.
Qed.

(** ** The distance *)
Lemma bit_count_range n x : 0 <= bit_count n x <= Z.of_nat n.
Proof. induction n as [|n IH]; [done|]. rewrite bit_count_S. destruct (Z.testbit x (Z.of_nat n)); cbn [Z.b2z]; lia. Qed.

Lemma bit_count_zero n x : bit_count n x = 0 -> forall i, 0 <= i < Z.of_nat n -> Z.testbit x i = false.
Proof.
  induction n as [|n IH]; intros E i Hi; [lia|]. rewrite bit_count_S in E. pose proof (bit_count_range n x).
  destruct (Z.testbit x (Z.of_nat n)) eqn:Eb; cbn [Z.b2z] in E; [lia|].
  destruct (Z.eq_dec i (Z.of_nat n)) as [->|]; [done|]. apply IH; lia.
Qed.

Lemma bit_count_lxor n x y z : bit_count n (x ^. z) <= bit_count n (x ^. y) + bit_count n (y ^. z).
Proof.
  induction n as [|n IH]; [done|]. rewrite !bit_count_S, !Z.lxor_spec.
  destruct (Z.testbit x _), (Z.testbit y _), (Z.testbit z _); cbn [xorb Z.b2z]; lia.
Qed.

Lemma in_u_lxor_64 a b : in_u 64 a -> in_u 64 b -> in_u 64 (a ^. b).
Proof.
  intros Ha Hb. apply testbit_in_u; [lia| |].
  - apply Z.lxor_nonneg. unfold in_u in *. lia.
  - intros i Hi. by rewrite Z.lxor_spec, !(testbit_high 64) by (done || lia).
Qed.

(** The distance, computed by the parallel population count, equals counting the bits
    in which the two values differ one by one; it is a metric with values from 0 to 64. *)
Theorem hamming_metric (a b c : Z) : in_u 64 a -> in_u 64 b -> in_u 64 c ->
  simhash_hamming_distance a b = bit_count 64 (a ^. b) /\
  0 <= simhash_hamming_distance a b <= 64 /\
  (simhash_hamming_distance a b = 0 <-> a = b) /\
  simhash_hamming_distance a b = simhash_hamming_distance b a /\
  simhash_hamming_distance a c <= simhash_hamming_distance a b + simhash_hamming_distance b c.
Proof.
  intros Ha Hb Hc. unfold simhash_hamming_distance. rewrite !popcount_bits by by apply in_u_lxor_64.
  split; [done|]. split; [apply (bit_count_range 64)|]. split; [|split; [by rewrite Z.lxor_comm|apply bit_count_lxor]].
  split; [|intros ->; by rewrite Z.lxor_nilpotent]. intros E. apply Z.lxor_eq, Z.bits_inj'. intros i Hi.
  rewrite Z.bits_0. destruct (Z.lt_ge_cases i 64) as [Hlt|Hge].
  - apply (bit_count_zero 64 _ E). lia.
  - by apply (testbit_high 64); [apply in_u_lxor_64|lia].
Qed.

Lemma hamming_metric_witness :
  simhash_hamming_distance 5 6 = bit_count 64 (5 ^. 6) /\
  0 <= simhash_hamming_distance 5 6 <= 64 /\
  (simhash_hamming_distance 5 6 = 0 <-> 5 = 6) /\
  simhash_hamming_distance 5 6 = simhash_hamming_distance 6 5 /\
  simhash_hamming_distance 5 255 <= simhash_hamming_distance 5 6 + simhash_hamming_distance 6 255.
Proof. apply hamming_metric; by vm_compute. Defined.

(** ** Votes *)
Lemma vote_lookup v h w i c : v !! i = Some c ->
  vote v h w !! i = Some (i32 (if Z.testbit h (Z.of_nat i) then c + w else c - w)).
Proof.
  intros Hi. unfold vote. rewrite list_lookup_imap, Hi. cbn. rewrite Z.shiftl_1_l, has_flag_pow2 by lia.
  by destruct (Z.testbit h (Z.of_nat i)).
Qed.

Lemma length_vote v h w : length (vote v h w) = length v.
Proof. apply length_imap. Qed.

Definition count_bit (hs : list Z) (i : nat) : Z := Z.of_nat (length (List.filter (fun h => Z.testbit h (Z.of_nat i)) hs)).

(** Without overflow a counter is the number of votes for minus the number against. *)
Lemma votes_counter hs i : forall v c, v !! i = Some c -> Z.abs c + Z.of_nat (length hs) < 2 ^ 31 ->
  fold_left (fun v h => vote v h 1) hs v !! i = Some (c + 2 * count_bit hs i - Z.of_nat (length hs)).
Proof.
  induction hs as [|h hs IH]; intros v c Hi Hb; cbn [fold_left length].
  - rewrite Hi. f_equal. unfold count_bit. cbn. lia.
  - cbn [length] in Hb. erewrite IH; [|apply (vote_lookup v h 1 i c Hi)|].
    + f_equal. unfold count_bit. cbn [List.filter].
      rewrite swrap_small by (unfold in_s; destruct (Z.testbit h (Z.of_nat i)); lia).
      destruct (Z.testbit h (Z.of_nat i)); cbn [length]; lia.
    + rewrite swrap_small by (unfold in_s; destruct (Z.testbit h (Z.of_nat i)); lia). destruct (Z.testbit h (Z.of_nat i)); lia.
Qed.

Lemma votes_length hs : forall v, length (fold_left (fun v h => vote v h 1) hs v) = length v.
Proof. induction hs as [|h hs IH]; intros v; [done|]. cbn [fold_left]. by rewrite IH, length_vote. Qed.

(** The assembled word has bit [i] set iff counter [i] is positive. *)
Lemma assemble_bits v : forall k acc j, 0 <= j ->
  Z.testbit (fold_left (fun acc '(bit, c) => if c >? 0 then acc |. (1 <<. Z.of_nat bit) else acc) (zip (seq k (length v)) v) acc) j =
  Z.testbit acc j || ((Z.of_nat k <=? j) && match v !! Z.to_nat (j - Z.of_nat k) with Some c => c >? 0 | None => false end).
Proof.
  induction v as [|c v IH]; intros k acc j Hj; cbn [length seq zip zip_with fold_left].
  { by rewrite lookup_nil, andb_false_r, orb_false_r. }
  rewrite IH by done.
  assert (Z.testbit (if c >? 0 then acc |. (1 <<. Z.of_nat k) else acc) j = Z.testbit acc j || ((j =? Z.of_nat k) && (c >? 0))) as ->.
  { destruct (c >? 0); [|by rewrite andb_false_r, orb_false_r].
    rewrite Z.lor_spec, Z.shiftl_1_l, Z.pow2_bits_eqb, Z.eqb_sym, andb_true_r by lia. done. }
  rewrite <- orb_assoc. f_equal. destruct (Z.eqb_spec j (Z.of_nat k)) as [->|Hne].
  - rewrite Z.sub_diag, Z.leb_refl. cbn [Z.to_nat lookup list_lookup andb]. replace (Z.of_nat (S k) <=? Z.of_nat k) with false by lia.
    by rewrite orb_false_r.
  - cbn [andb orb]. destruct (Z.leb_spec (Z.of_nat (S k)) j).
    + replace (Z.of_nat k <=? j) with true by lia. replace (Z.to_nat (j - Z.of_nat k)) with (S (Z.to_nat (j - Z.of_nat (S k)))) by lia. done.
    + by replace (Z.of_nat k <=? j) with false by lia.
Qed.

Lemma simhash_of_bit v i : length v = 64%nat -> (i < 64)%nat ->
  Z.testbit (simhash_of v) (Z.of_nat i) = match v !! i with Some c => c >? 0 | None => false end.
Proof.
  intros Hv Hi. unfold simhash_of. rewrite <- Hv, assemble_bits, Z.bits_0, Z.sub_0_r, Nat2Z.id by lia. cbn [orb].
  by replace (Z.of_nat 0 <=? Z.of_nat i) with true by lia.
Qed.

(** Each bit of the hash of a text is the majority vote of its three-byte shingles:
    it is set iff the FNV-1a hashes of more than half of them have it set. *)
Theorem simhash_majority (data : list Z) (i : nat) :
  3 <= Z.of_nat (length data) < 2 ^ 31 -> (i < 64)%nat ->
  Z.testbit (simhash_text data) (Z.of_nat i) =
    (2 * count_bit (map fnv1a_hash64 (shingles data)) i >? Z.of_nat (length (shingles data))).
Proof.
  intros Hl Hi. unfold simhash_text. destruct (Z.ltb_spec (Z.of_nat (length data)) SIMHASH_SHINGLE_SIZE); [lia|].
  assert (Z.of_nat (length (shingles data)) < 2 ^ 31) as Hs.
  { unfold shingles. rewrite length_map, length_seq. change (Z.to_nat SIMHASH_SHINGLE_SIZE) with 3%nat. lia. }
  assert (fold_left (fun v sh => vote v (fnv1a_hash64 sh) 1) (shingles data) (replicate 64 0) =
    fold_left (fun v h => vote v h 1) (map fnv1a_hash64 (shingles data)) (replicate 64 0)) as ->.
  { generalize (replicate 64 0). induction (shingles data) as [|sh l IH]; intros v; [done|]. apply IH. cbn [length] in Hs. lia. }
  rewrite simhash_of_bit by (rewrite ?votes_length; done).
  rewrite (votes_counter _ i _ 0); [|by apply lookup_replicate_2|rewrite length_map; lia].
  rewrite length_map. lia.
Qed.

Lemma simhash_majority_witness :
  Z.testbit (simhash_text [104; 101; 108; 108; 111]) 3 =
    (2 * count_bit (map fnv1a_hash64 (shingles [104; 101; 108; 108; 111])) 3 >? 3).
Proof. apply (simhash_majority [104; 101; 108; 108; 111] 3); [cbn; lia|lia]. Defined.
