(* ===== verification/Cluster.v ===== *)
(** * Leader clustering of files (kernel/fs/cluster.c)

    The in-memory table of at most 32 clusters of at most 64 files, grouped by the
    distance of their SimHash to the leader's.  Operations run under [cluster_lock].  The
    member array with its count is the list of its used entries; names are byte strings
    without their terminator.  The theorem describes every outcome of an assignment and
    that the table stays well formed. *)
From S2P Require Import Prelude SimHash.
Local Open Scope Z_scope.

Abbreviation CLUSTER_MAX := 32.
Abbreviation CLUSTER_MAX_MEMBERS := 64.
Abbreviation CLUSTER_THRESHOLD := 10.

Record cluster_member := Cluster_member { inode_num : Z; member_name : list Z; member_simhash : Z }.

Record cluster := Cluster {
  cluster_id : Z; leader_hash : Z; leader_inode : Z; leader_name : list Z; members : list cluster_member }.

Record cluster_table := Cluster_table {
  g_clusters : list cluster; g_cluster_count : Z; g_next_cluster_id : Z }.

Definition empty_cluster : cluster := Cluster 0 0 0 [] [].

Definition member_count (c : cluster) : Z := Z.of_nat (length (members c)).

(** Copies at most [n - 1] characters and terminates. *)
Definition cl_strncpy (src : list Z) (n : nat) : list Z := take (n - 1) src.

Definition cluster_init : cluster_table := Cluster_table (replicate (Z.to_nat CLUSTER_MAX) empty_cluster) 0 1.

(** Best leader so far: index and distance, starting above the threshold. *)
Definition nearest_step (h : Z) (best : option nat * Z) (ic : nat * cluster) : option nat * Z :=
  let '(i, c) := ic in
  if cluster_id c =? 0 then best else
  let dist := simhash_hamming_distance h (leader_hash c) in
  if dist <? snd best then (Some i, dist) else best.

Definition nearest (h : Z) (cs : list cluster) : option nat * Z :=
  fold_left (nearest_step h) (zip (seq 0 (length cs)) cs) (None, CLUSTER_THRESHOLD + 1).

Definition has_inode (ino : Z) (c : cluster) : bool :=
  negb (cluster_id c =? 0) && existsb (fun m => inode_num m =? ino) (members c).

Definition update_hash (ino h : Z) (c : cluster) : cluster :=
  match find_index (fun m => inode_num m =? ino) (members c) with
  | Some k => {| c with members := alter (fun m => Cluster_member (inode_num m) (member_name m) h) k (members c) |}
  | None => c
  end.

Definition new_cluster (id ino h : Z) (name : list Z) : cluster :=
  Cluster id h ino (cl_strncpy name 28) [Cluster_member ino (cl_strncpy name 28) h].

Definition add_member (c : cluster) (ino h : Z) (name : list Z) : cluster :=
  {| c with members := members c ++ [Cluster_member ino (cl_strncpy name 28) h] |}.

Definition is_empty (c : cluster) : bool := cluster_id c =? 0.

(** The last part of [cluster_assign]: a new cluster in the first empty slot. *)
Definition create (t : cluster_table) (ino h : Z) (name : list Z) : cluster_table * Z :=
  if g_cluster_count t >=? CLUSTER_MAX then (t, 0) else
  match find_index is_empty (g_clusters t) with
  | None => (t, 0)
  | Some slot =>
      let new_id := g_next_cluster_id t in
      (Cluster_table (<[slot := new_cluster new_id ino h name]> (g_clusters t)) (g_cluster_count t + 1) (u32 (new_id + 1)), new_id)
  end.

Definition cluster_assign (t : cluster_table) (ino h : Z) (name : list Z) : cluster_table * Z :=
  let cs := g_clusters t in
  let '(best_idx, best_dist) := nearest h cs in
  match find_index (has_inode ino) cs with
  | Some i =>
      ({| t with g_clusters := alter (update_hash ino h) i cs |}, default 0 (cluster_id <$> cs !! i))
  | None =>
      match best_idx ≫= fun b => cs !! b with
      | Some c =>
          if (best_dist <=? CLUSTER_THRESHOLD) && (member_count c <? CLUSTER_MAX_MEMBERS) then
            ({| t with g_clusters := alter (fun c => add_member c ino h name) (default 0%nat best_idx) cs |}, cluster_id c)
          else create t ino h name
      | None => create t ino h name
      end
  end.

(** A file whose cluster is known from its inode. *)
Definition cluster_rebuild_add (t : cluster_table) (ino id h : Z) (name : list Z) : cluster_table :=
  if id =? 0 then t else
  let cs := g_clusters t in
  let t :=
    match find_index (fun c => cluster_id c =? id) cs with
    | Some found =>
        match cs !! found with
        | Some c => if member_count c <? CLUSTER_MAX_MEMBERS
                    then {| t with g_clusters := <[found := add_member c ino h name]> cs |} else t
        | None => t
        end
    | None =>
        match find_index is_empty cs with
        | Some slot => {| t with g_clusters := <[slot := new_cluster id ino h name]> cs; g_cluster_count := g_cluster_count t + 1 |}
        | None => t
        end
    end in
  if id >=? g_next_cluster_id t then {| t with g_next_cluster_id := u32 (id + 1) |} else t.

Definition active (cs : list cluster) : list cluster := List.filter (fun c => negb (is_empty c)) cs.

Definition cluster_rebuild_finalize (t : cluster_table) : cluster_table :=
  {| t with g_cluster_count := Z.of_nat (length (active (g_clusters t))) |}.

(** Id, name, member count and leader hash of the clusters in use. *)
Definition cluster_get_list (t : cluster_table) : list (Z * list Z * Z * Z) :=
  map (fun c => (cluster_id c, cl_strncpy (leader_name c) 28, member_count c, leader_hash c)) (active (g_clusters t)).

(** Inode, name and distance from the leader of the members. *)
Definition cluster_get_members (t : cluster_table) (id : Z) : option (list (Z * list Z * Z)) :=
  if id =? 0 then None else
  match find_index (fun c => cluster_id c =? id) (g_clusters t) ≫= fun i => g_clusters t !! i with
  | Some c => Some (map (fun m => (inode_num m, cl_strncpy (member_name m) 28,
                      simhash_hamming_distance (leader_hash c) (member_simhash m))) (members c))
  | None => None
  end.

Definition cluster_get_count (t : cluster_table) : Z := g_cluster_count t.

(** ** The nearest leader *)
Definition distance (h : Z) (c : cluster) : Z := simhash_hamming_distance h (leader_hash c).

(** [best] is right for the clusters before position [k]. *)
Definition best_so_far (h : Z) (cs : list cluster) (k : nat) (best : option nat * Z) : Prop :=
  (forall j c, (j < k)%nat -> cs !! j = Some c -> cluster_id c <> 0 -> snd best <= distance h c) /\
  snd best <= CLUSTER_THRESHOLD + 1 /\
  match fst best with
  | Some i => exists c, cs !! i = Some c /\ cluster_id c <> 0 /\ snd best = distance h c /\ snd best <= CLUSTER_THRESHOLD
  | None => snd best = CLUSTER_THRESHOLD + 1
  end.

Lemma nearest_from h cs rest : forall k best, drop k cs = rest -> best_so_far h cs k best ->
  best_so_far h cs (k + length rest) (fold_left (nearest_step h) (zip (seq k (length rest)) rest) best).
Proof.
  induction rest as [|c rest IH]; intros k best Hd Hb; cbn [length seq zip zip_with fold_left]; [by rewrite Nat.add_0_r|].
  assert (cs !! k = Some c) as Hk by (by rewrite <- (Nat.add_0_r k), <- lookup_drop, Hd).
  replace (k + S (length rest))%nat with (S k + length rest)%nat by lia.
  apply IH; [replace (S k) with (k + 1)%nat by lia; by rewrite <- drop_drop, Hd|]. destruct Hb as (H1 & H2 & H3).
  assert (forall j c', (j < S k)%nat -> cs !! j = Some c' -> cluster_id c' <> 0 ->
    (j < k)%nat \/ c' = c /\ cluster_id c <> 0) as Hj.
  { intros j c' Hj Hc' Hid. destruct (decide (j = k)) as [->|]; [|left; lia]. right. rewrite Hk in Hc'. by injection Hc' as <-. }
  unfold nearest_step. destruct (Z.eqb_spec (cluster_id c) 0) as [E|Hne].
  { split_and!; [|done..]. intros j c' Hjk Hc' Hid. destruct (Hj j c' Hjk Hc' Hid) as [|[-> ?]]; [by apply (H1 j)|done]. }
  fold (distance h c). destruct (Z.ltb_spec (distance h c) (snd best)); cbn [fst snd].
  - split; [|split; [cbn; lia|cbn; exists c; split_and!; [done..|lia]]]. intros j c' Hjk Hc' Hid. cbn.
    destruct (Hj j c' Hjk Hc' Hid) as [Hlt|[-> ?]]; [|lia]. specialize (H1 j c' Hlt Hc' Hid). lia.
  - split_and!; [|done..]. intros j c' Hjk Hc' Hid. destruct (Hj j c' Hjk Hc' Hid) as [|[-> ?]]; [by apply (H1 j)|done].
Qed.

Lemma nearest_spec h cs : best_so_far h cs (length cs) (nearest h cs).
Proof.
  apply (nearest_from h cs cs 0); [done|]. split_and!; [|done..]. intros j c Hj. lia.
Qed.

(** ** Well-formed tables *)
Definition in_use (t : cluster_table) (i : nat) (c : cluster) : Prop := g_clusters t !! i = Some c /\ cluster_id c <> 0.

Definition listed (t : cluster_table) (i k : nat) (m : cluster_member) : Prop :=
  exists c, in_use t i c /\ members c !! k = Some m.

Record wf_table (t : cluster_table) : Prop := {
  wt_length : length (g_clusters t) = Z.to_nat CLUSTER_MAX;
  wt_count : g_cluster_count t = Z.of_nat (length (active (g_clusters t)));
  wt_next : 1 <= g_next_cluster_id t;
  wt_ids : forall i c, in_use t i c -> 1 <= cluster_id c < g_next_cluster_id t;
  wt_unique : forall i i' c c', in_use t i c -> in_use t i' c' -> cluster_id c = cluster_id c' -> i = i';
  wt_members : forall i c, in_use t i c -> 1 <= member_count c <= CLUSTER_MAX_MEMBERS;
  (** no file is in two places *)
  wt_files : forall i i' k k' m m', listed t i k m -> listed t i' k' m' -> inode_num m = inode_num m' -> i = i' /\ k = k'
}.

(** The outcomes of an assignment. *)
Definition unlisted (t : cluster_table) (ino : Z) : Prop := forall i k m, listed t i k m -> inode_num m <> ino.

Definition is_nearest (t : cluster_table) (h : Z) (i : nat) (c : cluster) : Prop :=
  in_use t i c /\ distance h c <= CLUSTER_THRESHOLD /\ forall j c', in_use t j c' -> distance h c <= distance h c'.

(** No leader is near enough, or the nearest one chosen has a full cluster. *)
Definition no_room (t : cluster_table) (h : Z) : Prop :=
  (forall i c, in_use t i c -> CLUSTER_THRESHOLD < distance h c) \/
  (exists i c, is_nearest t h i c /\ member_count c = CLUSTER_MAX_MEMBERS).

Inductive assigned (t : cluster_table) (ino h : Z) (name : list Z) : cluster_table -> Z -> Prop :=
| Known i k c m : in_use t i c -> members c !! k = Some m -> inode_num m = ino ->
    assigned t ino h name
      {| t with g_clusters := <[i := {| c with members := <[k := Cluster_member ino (member_name m) h]> (members c) |}]> (g_clusters t) |}
      (cluster_id c)
| Joined i c : unlisted t ino -> is_nearest t h i c -> member_count c < CLUSTER_MAX_MEMBERS ->
    assigned t ino h name {| t with g_clusters := <[i := add_member c ino h name]> (g_clusters t) |} (cluster_id c)
| Founded slot c : unlisted t ino -> no_room t h -> g_clusters t !! slot = Some c -> cluster_id c = 0 ->
    assigned t ino h name
      (Cluster_table (<[slot := new_cluster (g_next_cluster_id t) ino h name]> (g_clusters t)) (g_cluster_count t + 1)
         (g_next_cluster_id t + 1)) (g_next_cluster_id t)
| Refused : unlisted t ino -> no_room t h -> (forall i c, g_clusters t !! i = Some c -> cluster_id c <> 0) ->
    assigned t ino h name t 0.

Lemma alter_insert {A} (f : A -> A) (i : nat) (l : list A) x : l !! i = Some x -> alter f i l = <[i := f x]> l.
Proof.
  revert i. induction l as [|y l IH]; intros [|i] H; try done; cbn in *; [by injection H as ->|].
  f_equal. by apply IH.
Qed.

Lemma full_active cs i c : (length cs <= length (active cs))%nat -> cs !! i = Some c -> cluster_id c <> 0.
Proof.
  intros Hl Hi. unfold active in Hl. revert i Hi. induction cs as [|x cs IH]; intros i Hi; [done|]. cbn in Hl.
  pose proof (List.filter_length_le (fun c => negb (is_empty c)) cs). unfold is_empty in *.
  destruct (Z.eqb_spec (cluster_id x) 0); cbn in Hl; [lia|]. destruct i as [|i]; cbn in Hi; [by injection Hi as <-|].
  apply (IH ltac:(lia) i Hi).
Qed.

Lemma create_assigned t ino h name :
  wf_table t -> g_next_cluster_id t + 1 < 2 ^ 32 -> unlisted t ino -> no_room t h ->
  assigned t ino h name (fst (create t ino h name)) (snd (create t ino h name)).
Proof.
  intros Hw Hn Hu Hr. unfold create. pose proof (wt_next _ Hw).
  destruct (Z.geb_spec (g_cluster_count t) CLUSTER_MAX) as [Hge|].
  - apply Refused; [done..|]. intros i c Hi. apply (full_active (g_clusters t) i); [|exact Hi].
    pose proof (wt_length _ Hw). rewrite (wt_count _ Hw) in Hge. lia.
  - destruct (find_index is_empty (g_clusters t)) as [slot|] eqn:E; cbn [fst snd].
    + apply find_index_Some in E as (c & Hc & Ec). rewrite wrap_small by (unfold in_u; lia).
      eapply Founded; [done..|exact Hc|]. unfold is_empty in Ec. lia.
    + apply Refused; [done..|]. intros i c Hi. eapply find_index_None in E; [|exact Hi]. unfold is_empty in E. lia.
Qed.

Lemma assign_outcome t ino h name : wf_table t -> g_next_cluster_id t + 1 < 2 ^ 32 ->
  assigned t ino h name (fst (cluster_assign t ino h name)) (snd (cluster_assign t ino h name)).
Proof.
  intros Hw Hn. unfold cluster_assign. pose proof (nearest_spec h (g_clusters t)) as (Hb1 & Hb2 & Hb3).
  destruct (nearest h (g_clusters t)) as [best_idx best_dist]. cbn [fst snd] in *.
  destruct (find_index (has_inode ino) (g_clusters t)) as [i|] eqn:Ei.
  { apply find_index_Some in Ei as (c & Hc & Hi). rewrite Hc. cbn [fst snd fmap option_fmap option_map default].
    unfold has_inode in Hi. apply andb_true_iff in Hi as [Hid Hex]. rewrite (alter_insert _ _ _ _ Hc). unfold update_hash.
    destruct (find_index (fun m => inode_num m =? ino) (members c)) as [k|] eqn:Ek.
    - apply find_index_Some in Ek as (m & Hm & Em). rewrite (alter_insert _ _ _ _ Hm). apply Z.eqb_eq in Em. rewrite Em.
      eapply Known; [|done|done]. split; [done|]. lia.
    - exfalso. apply existsb_exists in Hex as (m & Hin & Em). apply list_elem_of_In, list_elem_of_lookup in Hin as [k Hk].
      eapply find_index_None in Ek; [|exact Hk]. congruence. }
  assert (unlisted t ino) as Hu.
  { intros i k m (c & [Hc Hid] & Hm) <-. eapply find_index_None in Ei; [|exact Hc]. unfold has_inode in Ei.
    apply andb_false_iff in Ei as [Ei|Ei]; [lia|].
    assert (existsb (fun m' => inode_num m' =? inode_num m) (members c) = true); [|congruence].
    apply existsb_exists. exists m. split; [|lia]. apply list_elem_of_In. by eapply list_elem_of_lookup_2. }
  assert (forall j c', in_use t j c' -> best_dist <= distance h c') as Hmin.
  { intros j c' [Hj Hid]. apply (Hb1 j); [|done|done]. by apply lookup_lt_Some in Hj. }
  destruct best_idx as [b|]; cbn [mbind option_bind]; last first.
  { apply create_assigned; [done..|]. left. intros i c Hc. specialize (Hmin i c Hc). lia. }
  destruct Hb3 as (c & Hc & Hid & -> & Hle). rewrite Hc.
  assert (is_nearest t h b c) as Hnear by (split; [done|split; [done|exact Hmin]]).
  destruct (Z.leb_spec (distance h c) CLUSTER_THRESHOLD); [|lia]. cbn [andb default].
  destruct (Z.ltb_spec (member_count c) CLUSTER_MAX_MEMBERS).
  - rewrite (alter_insert _ _ _ _ Hc). by apply Joined.
  - apply create_assigned; [done..|]. right. exists b, c. split; [done|].
    pose proof (wt_members _ Hw b c (conj Hc Hid)). lia.
Qed.

#[global] Arguments is_empty : simpl never.
#[global] Arguments active : simpl never.
Lemma active_insert cs i c c' : cs !! i = Some c ->
  (length (active (<[i := c']> cs)) + (if is_empty c then 0 else 1) = length (active cs) + (if is_empty c' then 0 else 1))%nat.
Proof.
  unfold active. revert i. induction cs as [|x cs IH]; intros [|i] H; try done; cbn in H.
  - injection H as ->. cbn. destruct (is_empty c), (is_empty c'); cbn; lia.
  - specialize (IH i H). change (<[S i := c']> (x :: cs)) with (x :: <[i := c']> cs). cbn [List.filter].
    destruct (is_empty x); cbn [negb length]; lia.
Qed.

(** ** Preservation

    Slot [i] gets the cluster [c'], whose members are old ones of slot [i] in their places
    or the new file behind them. *)
Section replace.
  Context (t t' : cluster_table) (i : nat) (c c' : cluster) (n : nat) (ino : Z).
  Hypothesis Hw : wf_table t.
  Hypothesis Hc : g_clusters t !! i = Some c.
  Hypothesis Hcs : g_clusters t' = <[i := c']> (g_clusters t).
  Hypothesis Hid : cluster_id c' <> 0.
  Hypothesis Hm : forall k m, members c' !! k = Some m ->
    (exists m0, listed t i k m0 /\ inode_num m0 = inode_num m) \/ (k = n /\ inode_num m = ino /\ unlisted t ino).

Lemma replace_in_use j d : in_use t' j d -> (j = i /\ d = c') \/ (j <> i /\ in_use t j d).
Proof.
  intros [Hj Hd]. rewrite Hcs in Hj. destruct (decide (j = i)) as [->|].
  - rewrite list_lookup_insert_eq in Hj by by apply lookup_lt_Some in Hc. injection Hj as <-. by left.
  - rewrite list_lookup_insert_ne in Hj by done. by right.
Qed.

Lemma replace_listed j k m : listed t' j k m ->
  (exists m0, listed t j k m0 /\ inode_num m0 = inode_num m) \/ (j = i /\ k = n /\ inode_num m = ino /\ unlisted t ino).
Proof.
  intros (d & Hd & Hk). destruct (replace_in_use j d Hd) as [[-> ->]|[Hne Hu]].
  - destruct (Hm k m Hk) as [|(-> & -> & ?)]; auto.
  - left. exists m. split; [|done]. by exists d.
Qed.

Lemma replace_files j j' k k' m m' : listed t' j k m -> listed t' j' k' m' -> inode_num m = inode_num m' -> j = j' /\ k = k'.
Proof.
  intros H H' E. destruct (replace_listed _ _ _ H) as [(m0 & Hl & E0)|(-> & -> & E0 & Hu)],
    (replace_listed _ _ _ H') as [(m0' & Hl' & E0')|(-> & -> & E0' & Hu')].
  - eapply (wt_files _ Hw); [done|done|congruence].
  - destruct (Hu' _ _ _ Hl). congruence.
  - destruct (Hu _ _ _ Hl'). congruence.
  - done.
Qed.

Lemma replace_ids : (forall j d, in_use t' j d -> 1 <= cluster_id d < g_next_cluster_id t') ->
  (forall j d, in_use t j d -> j <> i -> cluster_id d <> cluster_id c') ->
  1 <= member_count c' <= CLUSTER_MAX_MEMBERS -> 1 <= g_next_cluster_id t' ->
  g_cluster_count t' = Z.of_nat (length (active (g_clusters t'))) -> wf_table t'.
Proof.
  intros Hids Hother Hmc Hnext Hcount. split.
  - rewrite Hcs, length_insert. apply (wt_length _ Hw).
  - done.
  - done.
  - done.
  - intros j j' d d' Hd Hd' Ed. destruct (replace_in_use j d Hd) as [[-> ->]|[Hj Hd1]],
      (replace_in_use j' d' Hd') as [[-> ->]|[Hj' Hd1']]; [done| | |by eapply (wt_unique _ Hw)].
    + by destruct (Hother j' d' Hd1' Hj').
    + by destruct (Hother j d Hd1 Hj).
  - intros j d Hd. destruct (replace_in_use j d Hd) as [[-> ->]|[_ Hd']]; [done|by apply (wt_members _ Hw j)].
  - apply replace_files.
Qed.
End replace.

(** A cluster in use changes its members only. *)
Lemma wf_replace t i c c' n ino : wf_table t -> in_use t i c -> cluster_id c' = cluster_id c ->
  1 <= member_count c' <= CLUSTER_MAX_MEMBERS ->
  (forall k m, members c' !! k = Some m ->
    (exists m0, listed t i k m0 /\ inode_num m0 = inode_num m) \/ (k = n /\ inode_num m = ino /\ unlisted t ino)) ->
  wf_table {| t with g_clusters := <[i := c']> (g_clusters t) |}.
Proof.
  intros Hw [Hc Hid] E Hmc Hm. set (t1 := {| t with g_clusters := _ |}).
  apply (replace_ids t t1 i c c' n ino); try done; try congruence.
  - intros j d Hd. destruct (replace_in_use t t1 i c c' Hc eq_refl j d Hd) as [[-> ->]|[_ Hd']].
    + rewrite E. by apply (wt_ids _ Hw i).
    + by apply (wt_ids _ Hw j).
  - intros j d Hd Hj Ed. apply Hj. eapply (wt_unique _ Hw); [exact Hd|by split|congruence].
  - apply (wt_next _ Hw).
  - cbn. rewrite (wt_count _ Hw). pose proof (active_insert (g_clusters t) i c c' Hc) as Ha. unfold is_empty in Ha.
    rewrite E in Ha. destruct (cluster_id c =? 0); lia.
Qed.

Lemma wf_found t slot c ino h name : wf_table t -> g_clusters t !! slot = Some c -> cluster_id c = 0 -> unlisted t ino ->
  wf_table (Cluster_table (<[slot := new_cluster (g_next_cluster_id t) ino h name]> (g_clusters t)) (g_cluster_count t + 1)
    (g_next_cluster_id t + 1)).
Proof.
  intros Hw Hc Hid Hu. pose proof (wt_next _ Hw). set (c' := new_cluster _ _ _ _). set (t1 := Cluster_table _ _ _).
  assert (cluster_id c' <> 0) as Hid' by (cbn; lia).
  apply (replace_ids t t1 slot c c' 0%nat ino); try done; try lia.
  - intros k m Hk. right. apply list_lookup_singleton_Some in Hk as [<- <-]. done.
  - intros j d Hd. destruct (replace_in_use t t1 slot c c' Hc eq_refl j d Hd) as [[-> ->]|[_ Hd']]; cbn; [lia|].
    apply (wt_ids _ Hw) in Hd'. lia.
  - intros j d Hd _. apply (wt_ids _ Hw) in Hd. cbn. lia.
  - cbn. lia.
  - cbn. rewrite (wt_count _ Hw). pose proof (active_insert (g_clusters t) slot c c' Hc) as Ha. unfold is_empty in Ha.
    rewrite Hid in Ha. destruct (Z.eqb_spec (cluster_id c') 0); [done|]. cbn in Ha. lia.
Qed.

Lemma assigned_wf t ino h name t' r : wf_table t -> assigned t ino h name t' r -> wf_table t'.
Proof.
  intros Hw Ha. destruct Ha as [i k c m Hc Hk Hi|i c Hu Hn Hlt|slot c Hu Hr Hc Hid|]; [| | |done].
  - pose proof (wt_members _ Hw i c Hc) as Hmc. eapply wf_replace with (n := 0%nat) (ino := ino); [done|exact Hc|done| |].
    + unfold member_count in *. cbn. by rewrite length_insert.
    + cbn. intros k' m' Hk'. left. destruct (decide (k' = k)) as [->|].
      * rewrite list_lookup_insert_eq in Hk' by by apply lookup_lt_Some in Hk. injection Hk' as <-.
        exists m. split; [by exists c|done].
      * rewrite list_lookup_insert_ne in Hk' by done. exists m'. split; [by exists c|done].
  - destruct Hn as [Hc _]. pose proof (wt_members _ Hw i c Hc) as Hmc.
    eapply wf_replace with (n := length (members c)) (ino := ino); [done|exact Hc|done| |].
    + unfold member_count in *. cbn. rewrite length_app. cbn. lia.
    + cbn. intros k m Hk. apply lookup_app_Some in Hk as [Hk|[Hlen Hk]]; [left; exists m; split; [by exists c|done]|].
      right. apply list_lookup_singleton_Some in Hk as [Hk <-]. split; [lia|done].
  - by eapply wf_found.
Qed.

(** Assignment.  On a well-formed table the call has exactly one of four effects: a
    file already listed keeps its cluster and gets the new hash; otherwise it joins the
    cluster of the nearest leader if that is within the threshold and has room; otherwise
    it founds a cluster with the next id in an empty slot; otherwise, with all slots in
    use, nothing changes and the result is 0.  The table stays well formed: ids are
    distinct, counts are right and no file is listed twice. *)
Theorem cluster_assign_correct (t : cluster_table) (ino h : Z) (name : list Z) :
  wf_table t -> g_next_cluster_id t + 1 < 2 ^ 32 ->
  let '(t', r) := cluster_assign t ino h name in
  assigned t ino h name t' r /\ wf_table t' /\ (r <> 0 -> exists i k c m, in_use t' i c /\ cluster_id c = r /\
    members c !! k = Some m /\ inode_num m = ino /\ member_simhash m = h).
Proof.
  intros Hw Hn. pose proof (assign_outcome t ino h name Hw Hn) as Ha. pose proof (wt_next _ Hw).
  destruct (cluster_assign t ino h name) as [t' r]. cbn [fst snd] in Ha. split; [done|].
  split; [by eapply assigned_wf|]. intros Hr.
  destruct Ha as [i k c m [Hc Hid] Hk Hi|i c Hu [[Hc Hid] _] Hlt|slot c Hu Hnr Hc Hid|]; [| | |done].
  - eexists i, k, _, _. split; [split; [apply list_lookup_insert_eq; by apply lookup_lt_Some in Hc|done]|].
    split; [done|]. split; [apply list_lookup_insert_eq; by apply lookup_lt_Some in Hk|done].
  - eexists i, (length (members c)), _, _. split; [split; [apply list_lookup_insert_eq; by apply lookup_lt_Some in Hc|done]|].
    split; [done|]. split; [by apply list_lookup_middle|done].
  - eexists slot, 0%nat, _, _. split; [split; [apply list_lookup_insert_eq; by apply lookup_lt_Some in Hc|cbn; lia]|].
    done.
Qed.

Lemma cluster_init_wf : wf_table cluster_init.
Proof.
  assert (forall i c, ~ in_use cluster_init i c) as Hno.
  { intros i c [Hi Hid]. apply lookup_replicate in Hi as [-> _]. done. }
  split; try done.
  - intros i c Hc. by destruct (Hno i c).
  - intros i i' c c' Hc. by destruct (Hno i c).
  - intros i c Hc. by destruct (Hno i c).
  - intros i i' k k' m m' (c & Hc & _). by destruct (Hno i c).
Qed.

Lemma cluster_assign_correct_witness :
  snd (cluster_assign cluster_init 7 0xFF [97]) = 1 /\
  let '(t', r) := cluster_assign cluster_init 7 0xFF [97] in
  assigned cluster_init 7 0xFF [97] t' r /\ wf_table t' /\ (r <> 0 -> exists i k c m, in_use t' i c /\ cluster_id c = r /\
    members c !! k = Some m /\ inode_num m = 7 /\ member_simhash m = 0xFF).
Proof. split; [by vm_compute|]. apply (cluster_assign_correct cluster_init 7 0xFF [97]); [apply cluster_init_wf|by vm_compute]. Defined.
