(* ===== verification/BlockDev.v ===== *)
(** * Block device with a volatile write cache

    What the file system sees below [grahafs_v2_block_read], [grahafs_v2_block_write]
    and [grahafs_block_flush] (kernel/fs/blk_client.c): 4096-byte blocks named by
    number, writes that first reach a cache, a flush that makes the cached writes
    durable, and a failure of any request.  The disk daemon behind it is not modelled;
    [answers] is the stream of its replies, one per request, success when the stream
    has ended.  A failed request has no effect.  Since the callers stop at the first
    failure of a write or flush, a power loss before some request is the same stream
    cut off by failures from there on: quantifying over [answers] covers every point at
    which power can be lost.

    On power loss each block keeps its durable contents or takes the contents of any
    one of the cached writes to it, independently of the other blocks. *)
From S2P Require Import Prelude Bytes.
Local Open Scope Z_scope.

Abbreviation block := (list Z).
Abbreviation disk := (gmap Z (list Z)).

Record device := Device { durable : disk; cache : list (Z * block); answers : list bool }.

Definition blk (m : disk) (lba : Z) : block := default zero_page (m !! lba).

Definition apply_writes (ws : list (Z * block)) (m : disk) : disk :=
  fold_left (fun m w => <[fst w := snd w]> m) ws m.

(** What a read returns: the cache is coherent. *)
Definition view (d : device) : disk := apply_writes (cache d) (durable d).

Definition answer (d : device) : bool := match answers d with [] => true | a :: _ => a end.
Definition answered (d : device) : device := Device (durable d) (cache d) (tl (answers d)).

Definition dev_read (d : device) (lba : Z) : device * option block :=
  (answered d, if answer d then Some (blk (view d) lba) else None).

Definition dev_write (d : device) (lba : Z) (b : block) : device * bool :=
  if answer d then (Device (durable d) (cache d ++ [(lba, b)]) (tl (answers d)), true)
  else (answered d, false).

Definition dev_flush (d : device) : device * bool :=
  if answer d then (Device (view d) [] (tl (answers d)), true) else (answered d, false).

(** A possible disk after a power loss. *)
Definition crash_image (d : device) (img : disk) : Prop :=
  forall lba, blk img lba = blk (durable d) lba \/ (lba, blk img lba) ∈ cache d.

(** A run of writes that stops at the first failure. *)
Fixpoint write_list (d : device) (ws : list (Z * block)) : device * bool :=
  match ws with
  | [] => (d, true)
  | (lba, b) :: ws =>
      let '(d, ok) := dev_write d lba b in
      if ok then write_list d ws else (d, false)
  end.

(** ** Lemmas *)
Lemma blk_insert_eq m l b : blk (<[l := b]> m) l = b.
Proof. unfold blk. by rewrite lookup_insert_eq. Qed.

Lemma blk_insert_ne m l l' b : l <> l' -> blk (<[l := b]> m) l' = blk m l'.
Proof. intros. unfold blk. by rewrite lookup_insert_ne. Qed.

Lemma apply_writes_app ws ws' m : apply_writes (ws ++ ws') m = apply_writes ws' (apply_writes ws m).
Proof. apply fold_left_app. Qed.

Lemma apply_writes_snoc ws l b m : apply_writes (ws ++ [(l, b)]) m = <[l := b]> (apply_writes ws m).
Proof. by rewrite apply_writes_app. Qed.

(** A block after a run of writes is as before or the last one written there. *)
Lemma apply_writes_notin ws m l : (forall b, (l, b) ∉ ws) -> blk (apply_writes ws m) l = blk m l.
Proof.
  induction ws as [|[l' b] ws IH] using rev_ind; intros H; [done|].
  rewrite apply_writes_snoc, blk_insert_ne.
  - apply IH. intros b' Hin. apply (H b'). apply elem_of_app. by left.
  - intros ->. apply (H b). apply elem_of_app. right. by apply list_elem_of_singleton.
Qed.

Lemma apply_writes_cases ws m l :
  blk (apply_writes ws m) l = blk m l \/ (l, blk (apply_writes ws m) l) ∈ ws.
Proof.
  induction ws as [|[l' b] ws IH] using rev_ind; [by left|]. rewrite apply_writes_snoc.
  destruct (decide (l' = l)) as [->|Hne].
  - rewrite blk_insert_eq. right. apply elem_of_app. right. by apply list_elem_of_singleton.
  - rewrite blk_insert_ne by done. destruct IH as [|Hin]; [by left|]. right. apply elem_of_app. by left.
Qed.

(** The last write to a block decides, whatever was there before. *)
Lemma apply_writes_in ws m m' l b : (l, b) ∈ ws -> blk (apply_writes ws m) l = blk (apply_writes ws m') l.
Proof.
  revert m m'. induction ws as [|[l' b'] ws IH] using rev_ind; intros m m' Hin; [by apply elem_of_nil in Hin|].
  rewrite !apply_writes_snoc. destruct (decide (l' = l)) as [->|Hne]; [by rewrite !blk_insert_eq|].
  rewrite !blk_insert_ne by done. apply IH. apply elem_of_app in Hin as [|Hin]; [done|].
  apply list_elem_of_singleton in Hin. congruence.
Qed.

Lemma apply_writes_ext ws m m' l : blk m l = blk m' l -> blk (apply_writes ws m) l = blk (apply_writes ws m') l.
Proof.
  intros E. induction ws as [|[l' b'] ws IH] using rev_ind; [done|].
  rewrite !apply_writes_snoc. destruct (decide (l' = l)) as [->|Hne]; [by rewrite !blk_insert_eq|].
  by rewrite !blk_insert_ne.
Qed.

(** Blocks that are old or any of the writes end up the same when all writes follow. *)
Lemma apply_writes_mixed ws m m' l :
  blk m' l = blk m l \/ (l, blk m' l) ∈ ws -> blk (apply_writes ws m') l = blk (apply_writes ws m) l.
Proof. intros [E|Hin]; [by apply apply_writes_ext|]. by eapply apply_writes_in. Qed.

Lemma write_list_spec ws : forall d d' ok, write_list d ws = (d', ok) ->
  durable d' = durable d /\
  if ok then cache d' = cache d ++ ws else exists k, cache d' = cache d ++ take k ws.
Proof.
  induction ws as [|[l b] ws IH]; intros d d' ok; cbn [write_list].
  { intros [= <- <-]. by rewrite app_nil_r. }
  unfold dev_write. destruct (answer d).
  - intros [E1 E2]%IH. split; [done|]. destruct ok; cbn in E2; [by rewrite <- app_assoc in E2|].
    destruct E2 as [k ->]. exists (S k). cbn. by rewrite <- app_assoc.
  - intros [= <- <-]. split; [done|]. exists 0%nat. by rewrite app_nil_r.
Qed.

(** Without failures every write of a run is done. *)
Lemma write_list_ok ws : forall d, answers d = [] ->
  write_list d ws = (Device (durable d) (cache d ++ ws) [], true).
Proof.
  induction ws as [|[l b] ws IH]; intros [m c a] H; cbn in H; subst a.
  - cbn. by rewrite app_nil_r.
  - cbn [write_list]. unfold dev_write, answer. cbn. rewrite IH by done. cbn. by rewrite <- app_assoc.
Qed.

Lemma apply_writes_unique ws m l b :
  (l, b) ∈ ws -> (forall b', (l, b') ∈ ws -> b' = b) -> blk (apply_writes ws m) l = b.
Proof.
  intros Hin Hu. destruct (apply_writes_cases ws (<[l := b]> m) l) as [E|E].
  - rewrite (apply_writes_in ws m (<[l := b]> m) l b Hin), E. apply blk_insert_eq.
  - rewrite (apply_writes_in ws m (<[l := b]> m) l b Hin). by apply Hu.
Qed.
