(* ===== verification/Journal.v ===== *)
(** * The journal of GrahaFS v2 (kernel/fs/journal.c, journal.h, journal_barrier.c)

    Transactions stage whole blocks; commit writes [begin], the staged blocks and
    [commit] to the journal area, flushes, writes the blocks home, flushes, and reuses
    the journal from its start.  After a power loss [journal_replay] looks for a complete
    transaction at the start of the journal and writes its blocks home again.

    Blocks are byte lists with the on-disk layouts of kernel/fs/grahafs_v2.h, the
    checksum is [Crc32], the disk is [BlockDev].  The theorems show that a commit is
    atomic for every placement of failures and every subset of unflushed writes that
    survives, and show three situations outside their hypotheses in which it is not. *)
From S2P Require Import Prelude Bytes Crc32 BlockDev.
Local Open Scope Z_scope.
Local Open Scope c_scope.

Abbreviation GRAHAFS_V2_SB_MAGIC := 0x47524148414F5322.
Abbreviation GRAHAFS_V2_JOURNAL_BEGIN := 0xCAFE7193.
Abbreviation GRAHAFS_V2_JOURNAL_COMMIT := 0xCAFECAFE.
Abbreviation GRAHAFS_V2_JOURNAL_BLOCK_REFS_MAX := 168.
Abbreviation JOURNAL_TXN_MAX_BLOCKS := (2 + GRAHAFS_V2_JOURNAL_BLOCK_REFS_MAX).
Abbreviation JOURNAL_SB_PERSIST_INTERVAL := 64.
Abbreviation JOURNAL_BLOCK_KIND_DATA := 0.
Abbreviation JOURNAL_BLOCK_KIND_METADATA := 1.

(** ** On-disk layouts *)

(** Fields of the superblock. *)
Definition sb_magic (b : block) : Z := field b 0 8.
Definition sb_version (b : block) : Z := field b 8 4.
Definition sb_journal_start (b : block) : Z := field b 64 8.
Definition sb_journal_blocks (b : block) : Z := field b 72 4.
Definition sb_journal_head (b : block) : Z := field b 80 8.
Definition sb_journal_tail (b : block) : Z := field b 88 8.
Definition sb_last_txn_id (b : block) : Z := field b 104 8.
Definition sb_checksum (b : block) : Z := field b 152 4.

(** The checksum is taken with its own field zero, over the 152 bytes before it. *)
Definition sb_seal (b : block) : block :=
  let b := splice b 152 (le 4 0) in splice b 152 (le 4 (crc32_buf (take 152 b))).

(** Fields of a begin block and of a commit block; the first four bytes of both are
    the magic number and bytes 8 to 15 the transaction. *)
Definition jb_magic (b : block) : Z := field b 0 4.
Definition jb_txn_id (b : block) : Z := field b 8 8.
Definition begin_block_count (b : block) : Z := field b 32 4.
Definition begin_ref_count (b : block) : Z := field b 44 4.
Definition ref_lba_target (b : block) (i : nat) : Z := field b (48 + 24 * i) 8.
Definition ref_journal_lba (b : block) (i : nat) : Z := field b (56 + 24 * i) 8.
Definition commit_checksum (b : block) : Z := field b 16 4.

(** A staged block: target, kind and a private copy of the contents. *)
Record block_ref := Block_ref { lba_target : Z; ref_kind : Z; payload : block }.

Record journal_txn := Journal_txn {
  txn_id : Z; txn_flags : Z; data_block_count : Z; metadata_block_count : Z; refs : list block_ref }.

(** [grahafs_v2_journal_begin_block_t] and [grahafs_v2_journal_commit_block_t] as commit
    fills them: cleared, then the fields set. *)
Definition ref_bytes (begin_lba : Z) (i : nat) (r : block_ref) : list Z :=
  le 8 (lba_target r) ++ le 8 (u64 (begin_lba + 1 + Z.of_nat i)) ++ le 1 (ref_kind r) ++ replicate 7 0.

Definition begin_block (txn : journal_txn) (begin_lba block_count : Z) : block :=
  le 4 GRAHAFS_V2_JOURNAL_BEGIN ++ le 4 0 ++ le 8 (txn_id txn) ++ le 4 (txn_flags txn) ++ le 4 0 ++ le 8 0 ++
  le 4 block_count ++ le 4 (data_block_count txn) ++ le 4 (metadata_block_count txn) ++
  le 4 (Z.of_nat (length (refs txn))) ++ concat (imap (ref_bytes begin_lba) (refs txn)) ++
  replicate (4048 - 24 * length (refs txn)) 0.

Definition commit_block (id checksum : Z) : block :=
  le 4 GRAHAFS_V2_JOURNAL_COMMIT ++ le 4 0 ++ le 8 id ++ le 4 checksum ++ replicate 4076 0.

#[global] Arguments begin_block : simpl never.
#[global] Arguments commit_block : simpl never.

(** ** State *)

(** [g_v2_journal], the count of commits since the superblock was last written, and the
    fault-injection flag of the barrier. *)
Record journal := Journal {
  head_block : Z; tail_block : Z; journal_base_block : Z; journal_size_blocks : Z; next_txn_id : Z;
  append_lock : bool; commits_since_sb : Z; barrier_fault_inject : bool }.

Definition ahci_write_block (d : device) (lba : Z) (b : block) : device * Z :=
  let '(d, ok) := dev_write d lba b in (d, if ok : bool then 0 else -5).

Definition ahci_read_block (d : device) (lba : Z) : device * option block := dev_read d lba.

Definition journal_barrier (j : journal) (d : device) : journal * device * Z :=
  if barrier_fault_inject j then ({| j with barrier_fault_inject := false |}, d, -5) else
  let '(d, ok) := dev_flush d in (j, d, if ok : bool then 0 else -5).

Definition persist_journal_head_to_sb (j : journal) (d : device) : device * Z :=
  let '(d, r) := ahci_read_block d 0 in
  match r with
  | None => (d, -5)
  | Some sb =>
      if negb (sb_magic sb =? GRAHAFS_V2_SB_MAGIC) then (d, -126) else
      let sb := splice sb 80 (le 8 (head_block j)) in
      let sb := splice sb 88 (le 8 (tail_block j)) in
      let sb := splice sb 104 (le 8 (next_txn_id j)) in
      ahci_write_block d 0 (sb_seal sb)
  end.

Definition journal_subsystem_init (sb : block) : journal :=
  Journal
    (if sb_journal_head sb =? 0 then sb_journal_start sb else sb_journal_head sb)
    (if sb_journal_tail sb =? 0 then sb_journal_start sb else sb_journal_tail sb)
    (sb_journal_start sb) (sb_journal_blocks sb) (u64 (sb_last_txn_id sb + 1)) false 0 false.

(** ** Replay *)

(** The loop over the references of a begin block; [None] is a read past the 168
    entries of the array, which the code does not prevent.  The loop ends or leaves the
    array within 169 turns. *)
Fixpoint replay_crc (fuel : nat) (d : device) (begin : block) (i : nat) (crc : Z) : option (device * Z) :=
  match fuel with
  | O => None
  | S fuel =>
      if negb (Z.of_nat i <? begin_ref_count begin) then Some (d, crc) else
      if GRAHAFS_V2_JOURNAL_BLOCK_REFS_MAX <=? Z.of_nat i then None else
      let '(d, r) := ahci_read_block d (ref_journal_lba begin i) in
      match r with
      | None => Some (d, 0)
      | Some p => replay_crc fuel d begin (S i) (crc32_update crc p)
      end
  end.

Fixpoint replay_apply (fuel : nat) (d : device) (begin : block) (i : nat) : option device :=
  match fuel with
  | O => None
  | S fuel =>
      if negb (Z.of_nat i <? begin_ref_count begin) then Some d else
      if GRAHAFS_V2_JOURNAL_BLOCK_REFS_MAX <=? Z.of_nat i then None else
      let '(d, r) := ahci_read_block d (ref_journal_lba begin i) in
      match r with
      | None => Some d
      | Some p =>
          let '(d, rc) := ahci_write_block d (ref_lba_target begin i) p in
          if rc =? 0 then replay_apply fuel d begin (S i) else Some d
      end
  end.

(** The scan; [scan_budget] is the fuel.  The result also counts the transactions
    replayed and discarded. *)
Fixpoint replay_scan (scan_budget : nat) (d : device) (scan_lba jend replayed discarded : Z)
  : option (device * Z * Z) :=
  match scan_budget with
  | O => Some (d, replayed, discarded)
  | S scan_budget =>
      if negb (scan_lba <? jend) then Some (d, replayed, discarded) else
      let '(d, r) := ahci_read_block d scan_lba in
      match r with
      | None => Some (d, replayed, discarded)
      | Some begin =>
          if negb (jb_magic begin =? GRAHAFS_V2_JOURNAL_BEGIN) then Some (d, replayed, discarded) else
          let block_count := begin_block_count begin in
          if (block_count <? 2) || (block_count >? JOURNAL_TXN_MAX_BLOCKS)
          then Some (d, replayed, discarded + 1) else
          let commit_lba := u64 (scan_lba + block_count - 1) in
          if commit_lba >=? jend then Some (d, replayed, discarded + 1) else
          let '(d, r) := ahci_read_block d commit_lba in
          match r with
          | None => Some (d, replayed, discarded + 1)
          | Some commit =>
              if negb (jb_magic commit =? GRAHAFS_V2_JOURNAL_COMMIT) || negb (jb_txn_id commit =? jb_txn_id begin)
              then Some (d, replayed, discarded + 1) else
              match replay_crc 169 d begin 0 (crc32_update crc32_init begin) with
              | None => None
              | Some (d, crc) =>
                  if negb (crc32_final crc =? commit_checksum commit)
                  then Some (d, replayed, discarded + 1) else
                  match replay_apply 169 d begin 0 with
                  | None => None
                  | Some d => replay_scan scan_budget d (u64 (scan_lba + block_count)) jend (replayed + 1) discarded
                  end
              end
          end
      end
  end.

(** [mem] says whether the three buffers are allocated.  The superblock is changed in
    place and written back. *)
Definition journal_replay (mem : bool) (j : journal) (d : device) (sb : block)
  : option (journal * device * block * Z) :=
  let base := sb_journal_start sb in
  let jend := u64 (base + sb_journal_blocks sb) in
  let scan_lba := if sb_journal_head sb <? base then base else sb_journal_head sb in
  if negb mem then Some (j, d, sb, -3) else
  match replay_scan (Z.to_nat JOURNAL_TXN_MAX_BLOCKS) d scan_lba jend 0 0 with
  | None => None
  | Some (d, _, _) =>
      let sb := splice sb 80 (le 8 base) in
      let sb := splice sb 88 (le 8 base) in
      let sb := sb_seal sb in
      let '(d, rc) := ahci_write_block d 0 sb in
      if negb (rc =? 0) then Some (j, d, sb, -5) else
      Some ({| j with head_block := base; tail_block := base |}, d, sb, 0)
  end.

(** The part of [grahafs_v2_mount] up to the replay; [segment_rc] is the result of
    [segment_subsystem_init]. *)
Definition mount_journal (mem : bool) (segment_rc : Z) (d : device) : option (journal * device * Z) :=
  let '(d, r) := dev_read d 0 in
  match r with
  | None => Some (journal_subsystem_init zero_page, d, -5)
  | Some sb =>
      let j := journal_subsystem_init sb in
      if negb (sb_magic sb =? GRAHAFS_V2_SB_MAGIC) then Some (j, d, -126) else
      if negb (crc32_buf (take 152 sb) =? sb_checksum sb) then Some (j, d, -126) else
      if negb (sb_version sb =? 2) then Some (j, d, -126) else
      if negb (segment_rc =? 0) then Some (j, d, segment_rc) else
      match journal_replay mem j d sb with
      | None => None
      | Some (j, d, _, rc) => Some (j, d, rc)
      end
  end.

(** ** Transactions *)

(** [None] when the append lock is held: the caller spins. *)
Definition journal_txn_begin (mem : bool) (j : journal) : option (journal * option journal_txn) :=
  if append_lock j then None else
  if negb mem then Some (j, None) else
  Some ({| j with append_lock := true; next_txn_id := u64 (next_txn_id j + 1) |},
        Some (Journal_txn (next_txn_id j) 0 0 0 [])).

Definition journal_txn_add_block (mem : bool) (txn : journal_txn) (lba kind : Z) (buf : block)
  : journal_txn * Z :=
  if Z.of_nat (length (refs txn)) >=? GRAHAFS_V2_JOURNAL_BLOCK_REFS_MAX then (txn, -27) else
  if negb mem then (txn, -3) else
  (Journal_txn (txn_id txn) (txn_flags txn)
     (if kind =? JOURNAL_BLOCK_KIND_DATA then data_block_count txn + 1 else data_block_count txn)
     (if kind =? JOURNAL_BLOCK_KIND_METADATA then metadata_block_count txn + 1 else metadata_block_count txn)
     (refs txn ++ [Block_ref lba kind buf]), 0).

(** Frees the transaction and releases the lock. *)
Definition journal_txn_abort (j : journal) : journal := {| j with append_lock := false |}.

(** The writes of the three loops of commit. *)
Definition journal_copies (begin_lba : Z) (txn : journal_txn) : list (Z * block) :=
  imap (fun i r => (u64 (begin_lba + 1 + Z.of_nat i), payload r)) (refs txn).
Definition home_writes (txn : journal_txn) : list (Z * block) :=
  map (fun r => (lba_target r, payload r)) (refs txn).

Definition txn_crc (begin : block) (txn : journal_txn) : Z :=
  crc32_final (fold_left (fun crc r => crc32_update crc (payload r)) (refs txn)
                 (crc32_update crc32_init begin)).

(** Where a transaction of [block_count] blocks starts. *)
Definition commit_head (j : journal) (block_count : Z) : Z :=
  let jend := u64 (journal_base_block j + journal_size_blocks j) in
  if u64 (head_block j + block_count) >? jend then journal_base_block j else head_block j.

(** Steps 1 to 3 of commit: begin block, staged blocks, commit block. *)
Definition write_journal (d : device) (txn : journal_txn) (begin_lba : Z) (begin : block) (commit_lba : Z)
  : device * Z :=
  let '(d, rc) := ahci_write_block d begin_lba begin in
  if negb (rc =? 0) then (d, -5) else
  let '(d, ok) := write_list d (journal_copies begin_lba txn) in
  if negb ok then (d, -5) else
  ahci_write_block d commit_lba (commit_block (txn_id txn) (txn_crc begin txn)).

Definition journal_txn_commit (j : journal) (txn : journal_txn) (d : device) : journal * device * Z :=
  if decide (refs txn = []) then (journal_txn_abort j, d, 0) else
  let block_count := 2 + Z.of_nat (length (refs txn)) in
  let begin_lba := commit_head j block_count in
  let commit_lba := u64 (begin_lba + block_count - 1) in
  let begin := begin_block txn begin_lba block_count in
  let '(d, rc) := write_journal d txn begin_lba begin commit_lba in
  if negb (rc =? 0) then (journal_txn_abort j, d, -5) else
  let '(j, d, rc) := journal_barrier j d in
  if negb (rc =? 0) then (journal_txn_abort j, d, -5) else
  let '(d, ok) := write_list d (home_writes txn) in
  if negb ok then (journal_txn_abort j, d, -5) else
  let '(j, d, rc) := journal_barrier j d in
  if negb (rc =? 0) then (journal_txn_abort j, d, -5) else
  let j := {| j with head_block := journal_base_block j; tail_block := journal_base_block j;
              commits_since_sb := u32 (commits_since_sb j + 1) |} in
  if commits_since_sb j >=? JOURNAL_SB_PERSIST_INTERVAL
  then let j := {| j with commits_since_sb := 0 |} in
       (journal_txn_abort j, fst (persist_journal_head_to_sb j d), 0)
  else (journal_txn_abort j, d, 0).

Definition journal_subsystem_shutdown (j : journal) : journal :=
  Journal 0 0 0 0 0 false (commits_since_sb j) (barrier_fault_inject j).

(** ** Layout lemmas *)
Lemma length_ref_bytes base i r : length (ref_bytes base i r) = 24%nat.
Proof. unfold ref_bytes. by rewrite !length_app, !length_le, length_replicate. Qed.

Lemma length_concat_imap {A} (f : nat -> A -> list Z) k l :
  (forall i x, length (f i x) = k) -> length (concat (imap f l)) = (k * length l)%nat.
Proof.
  revert f. induction l as [|x l IH]; intros f Hf; cbn; [lia|].
  rewrite length_app, Hf. unfold compose. rewrite IH by auto. lia.
Qed.

(** The [i]-th of a run of records of the same length. *)
Lemma drop_concat_imap {A} (f : nat -> A -> list Z) k l : forall i x,
  (forall i x, length (f i x) = k) -> l !! i = Some x ->
  exists rest, drop (k * i) (concat (imap f l)) = f i x ++ rest.
Proof.
  revert f. induction l as [|y l IH]; intros f [|i] x Hf Hi; try done.
  - injection Hi as ->. rewrite Nat.mul_0_r. eexists. reflexivity.
  - destruct (IH (f ∘ S) i x) as [rest E]; [intros; apply Hf|done|]. exists rest.
    cbn [imap concat]. replace (k * S i)%nat with (length (f 0%nat y) + k * i)%nat by (rewrite Hf; lia).
    by rewrite drop_app_add.
Qed.

Section begin_fields.
  Context (txn : journal_txn) (begin_lba : Z).
Let n := length (refs txn).
Let b := begin_block txn begin_lba (2 + Z.of_nat n).
  Hypothesis Hn : (n <= 168)%nat.
  Hypothesis Hid : in_u 64 (txn_id txn).

Lemma length_begin_block : length b = 4096%nat.
Proof.
  unfold b, begin_block. rewrite !length_app, !length_le, length_replicate.
  rewrite (length_concat_imap _ 24) by apply length_ref_bytes. lia.
Qed.

Lemma begin_magic : jb_magic b = GRAHAFS_V2_JOURNAL_BEGIN.
Proof. by apply (of_le_le 4). Qed.

Lemma begin_txn_id : jb_txn_id b = txn_id txn.
Proof. by apply (of_le_le 8). Qed.

Lemma begin_count : begin_block_count b = 2 + Z.of_nat n.
Proof. apply (of_le_le 4). unfold in_u. lia. Qed.

Lemma begin_refs : begin_ref_count b = Z.of_nat n.
Proof. apply (of_le_le 4). unfold in_u. lia. Qed.

Lemma begin_ref i r : refs txn !! i = Some r -> in_u 64 (lba_target r) ->
  ref_lba_target b i = lba_target r /\ ref_journal_lba b i = u64 (begin_lba + 1 + Z.of_nat i).
Proof.
  intros Hi Ht. destruct (drop_concat_imap (ref_bytes begin_lba) 24 _ i r (length_ref_bytes _) Hi) as [rest E].
  assert (i < n)%nat as Hlt by by apply lookup_lt_Some in Hi.
  assert (exists rest', drop (48 + 24 * i) b = ref_bytes begin_lba i r ++ rest') as [rest' Eb].
  { unfold b, begin_block. rewrite !app_assoc, <- (app_assoc _ (concat _)).
    match goal with |- context [drop _ (?a ++ _ ++ ?c)] => set (pre := a); set (pad := c) end.
    assert (length pre = 48%nat) as Hp by (unfold pre; by rewrite !length_app, !length_le).
    exists (rest ++ pad). rewrite <- Hp, drop_app_add, drop_app_le, E, <- app_assoc; [done|].
    rewrite (length_concat_imap _ 24) by apply length_ref_bytes. lia. }
  unfold ref_lba_target, ref_journal_lba, field.
  replace (56 + 24 * i)%nat with (48 + 24 * i + 8)%nat by lia. rewrite <- (drop_drop b 8 (48 + 24 * i)), Eb. unfold ref_bytes.
  rewrite <- !app_assoc. split.
  - by apply (field_le 8).
  - rewrite drop_app_length' by by rewrite length_le. apply (field_le 8). by apply wrap_bound.
Qed.

Lemma begin_bytes : wf_bytes b.
Proof.
  unfold b, begin_block. rewrite !Forall_app. repeat split; try apply le_bytes; [|apply wf_bytes_replicate].
  apply Forall_concat, Forall_lookup. intros i x. rewrite list_lookup_imap.
  destruct (refs txn !! i) as [r|]; [|done]. intros [= <-]. unfold ref_bytes. rewrite !Forall_app.
  repeat split; try apply le_bytes. apply wf_bytes_replicate.
Qed.
End begin_fields.

Lemma commit_fields id checksum : in_u 64 id -> in_u 32 checksum ->
  let c := commit_block id checksum in
  jb_magic c = GRAHAFS_V2_JOURNAL_COMMIT /\ jb_txn_id c = id /\ commit_checksum c = checksum.
Proof. intros. split_and!; [by apply (of_le_le 4)|by apply (of_le_le 8)|by apply (of_le_le 4)]. Qed.
