(* ===== verification/JournalCrash.v ===== *)
(** * Atomicity of the journal

    The invariant of a mounted journal between transactions ([settled]), what replay does
    with the journal area it finds, and the theorem that a commit is all or nothing
    through power loss and I/O failure. *)
From S2P Require Import Prelude Bytes Crc32 BlockDev Journal.
Local Open Scope Z_scope.
Local Open Scope c_scope.

(** [n] blocks from [lba]. *)
Definition span (m : disk) (lba : Z) (n : nat) : list block :=
  map (fun i => blk m (lba + Z.of_nat i)) (seq 0 n).

Definition crc_span (m : disk) (lba : Z) (n : nat) : Z :=
  crc32_final (fold_left crc32_update (span m lba n) crc32_init).

(** The home writes described by the begin block at [base]. *)
Definition found_writes (m : disk) (base : Z) (n : nat) : list (Z * block) :=
  map (fun i => (ref_lba_target (blk m base) i, blk m (base + 1 + Z.of_nat i))) (seq 0 n).

(** Blocks outside the journal and other than the superblock. *)
Definition is_home (base jend l : Z) : Prop := l <> 0 /\ ~ (base <= l < jend).

Definition home_eq (base jend : Z) (m m' : disk) : Prop :=
  forall l, is_home base jend l -> blk m l = blk m' l.

(** A begin block for [n] references, staged behind it in order. *)
Record shaped (base jend : Z) (b : block) (n : nat) : Prop := {
  sh_magic : jb_magic b = GRAHAFS_V2_JOURNAL_BEGIN;
  sh_count : begin_block_count b = 2 + Z.of_nat n;
  sh_refs : begin_ref_count b = Z.of_nat n;
  sh_max : (n <= 168)%nat;
  sh_fits : base + Z.of_nat n + 1 < jend;
  sh_ref : forall i, (i < n)%nat -> ref_journal_lba b i = base + 1 + Z.of_nat i /\ is_home base jend (ref_lba_target b i)
}.

(** The commit block closes the transaction and its checksum is right. *)
Definition valid (m : disk) (base : Z) (n : nat) : bool :=
  let c := blk m (base + Z.of_nat n + 1) in
  (jb_magic c =? GRAHAFS_V2_JOURNAL_COMMIT) && (jb_txn_id c =? jb_txn_id (blk m base)) &&
  (crc_span m base (S n) =? commit_checksum c).

(** ** Replay *)
Lemma seq_map_shift {A} (f : nat -> A) i n : map f (seq i (S n)) = f i :: map f (seq (S i) n).
Proof. done. Qed.

Lemma fold_left_cons {A B} (f : A -> B -> A) x l a : fold_left f (x :: l) a = fold_left f l (f a x).
Proof. done. Qed.

Lemma fold_left_map {A B C} (f : A -> B -> A) (g : C -> B) l : forall a,
  fold_left f (map g l) a = fold_left (fun a x => f a (g x)) l a.
Proof. induction l as [|x l IH]; intros a; [done|]. apply IH. Qed.

Lemma read_ok m c lba : ahci_read_block (Device m c []) lba = (Device m c [], Some (blk (apply_writes c m) lba)).
Proof. done. Qed.

Section replay.
  Context (base jend : Z) (b : block) (n : nat).
  Hypothesis Hs : shaped base jend b n.

Lemma replay_crc_ok m c : forall k i fuel crc, (k + i = n)%nat -> (k < fuel)%nat ->
  replay_crc fuel (Device m c []) b i crc =
  Some (Device m c [], fold_left crc32_update (map (fun i => blk (apply_writes c m) (base + 1 + Z.of_nat i)) (seq i k)) crc).
Proof.
  induction k as [|k IH]; intros i [|fuel] crc Hk Hf; try lia; cbn [replay_crc]; rewrite (sh_refs _ _ _ _ Hs).
  - destruct (Z.ltb_spec (Z.of_nat i) (Z.of_nat n)); [lia|]. done.
  - destruct (Z.ltb_spec (Z.of_nat i) (Z.of_nat n)); [|lia]. cbn [negb].
    pose proof (sh_max _ _ _ _ Hs). destruct (Z.leb_spec 168 (Z.of_nat i)); [lia|].
    destruct (sh_ref _ _ _ _ Hs i ltac:(lia)) as [-> _]. rewrite read_ok, IH by lia. done.
Qed.

Lemma replay_apply_ok m : forall k i fuel c, (k + i = n)%nat -> (k < fuel)%nat ->
  replay_apply fuel (Device m c []) b i =
  Some (Device m (c ++ map (fun i => (ref_lba_target b i, blk (apply_writes c m) (base + 1 + Z.of_nat i))) (seq i k)) []).
Proof.
  induction k as [|k IH]; intros i [|fuel] c Hk Hf; try lia; cbn [replay_apply]; rewrite (sh_refs _ _ _ _ Hs).
  - destruct (Z.ltb_spec (Z.of_nat i) (Z.of_nat n)); [lia|]. cbn. by rewrite app_nil_r.
  - destruct (Z.ltb_spec (Z.of_nat i) (Z.of_nat n)); [|lia]. cbn [negb].
    pose proof (sh_max _ _ _ _ Hs). destruct (Z.leb_spec 168 (Z.of_nat i)); [lia|].
    destruct (sh_ref _ _ _ _ Hs i ltac:(lia)) as [-> Ht]. rewrite read_ok.
    unfold ahci_write_block, dev_write; cbn [answer answers durable cache tl]. rewrite Z.eqb_refl, IH by lia.
    rewrite seq_map_shift, <- app_assoc. cbn [app]. do 4 f_equal. apply map_ext_in. intros i' [Hi1 Hi2]%in_seq.
    f_equal. rewrite apply_writes_snoc, blk_insert_ne; [done|]. intros E. apply Ht. rewrite E.
    pose proof (sh_fits _ _ _ _ Hs). lia.
Qed.
End replay.

Lemma span_cons m lba n : span m lba (S n) = blk m lba :: map (fun i => blk m (lba + 1 + Z.of_nat i)) (seq 0 n).
Proof.
  unfold span. rewrite seq_map_shift. f_equal; [by rewrite Z.add_0_r|].
  rewrite <- seq_shift, map_map. apply map_ext. intros i. f_equal. lia.
Qed.

Lemma span_ext base m m' k : (forall l, base <= l < base + Z.of_nat k -> blk m l = blk m' l) -> span m base k = span m' base k.
Proof. intros H. unfold span. apply map_ext_in. intros i [_ Hi]%in_seq. apply H. lia. Qed.

Lemma valid_ext base m m' k :
  (forall l, base <= l <= base + Z.of_nat k + 1 -> blk m l = blk m' l) -> valid m base k = valid m' base k.
Proof.
  intros H. unfold valid, crc_span. rewrite (span_ext base m m' (S k)) by (intros; apply H; lia). by rewrite !H by lia.
Qed.

Lemma found_ext base m m' k :
  (forall l, base <= l <= base + Z.of_nat k -> blk m l = blk m' l) -> found_writes m base k = found_writes m' base k.
Proof. intros H. unfold found_writes. apply map_ext_in. intros i [_ Hi]%in_seq. by rewrite !H by lia. Qed.

Lemma found_span base m m' k : span m base (S k) = span m' base (S k) -> found_writes m base k = found_writes m' base k.
Proof.
  rewrite !span_cons. intros [= Eb E]. unfold found_writes. rewrite Eb. apply map_ext_in. intros i Hi. f_equal.
  by apply (ext_in_map E).
Qed.

(** Nothing at the start of the journal. *)
Lemma replay_scan_none m c base jend budget r k :
  (base < jend -> jb_magic (blk (apply_writes c m) base) <> GRAHAFS_V2_JOURNAL_BEGIN) ->
  replay_scan budget (Device m c []) base jend r k = Some (Device m c [], r, k).
Proof.
  intros Hm. destruct budget; [done|]. cbn [replay_scan]. destruct (Z.ltb_spec base jend) as [Hl|]; [|done].
  specialize (Hm Hl). cbn [negb]. rewrite read_ok.
  by destruct (Z.eqb_spec (jb_magic (blk (apply_writes c m) base)) GRAHAFS_V2_JOURNAL_BEGIN).
Qed.

(** A transaction is replayed if it is valid and skipped if it is not; the scan ends behind it. *)
Lemma replay_scan_shaped m base jend n budget :
  0 < base -> jend < 2 ^ 64 -> shaped base jend (blk m base) n ->
  (base + Z.of_nat n + 2 < jend -> jb_magic (blk m (base + Z.of_nat n + 2)) <> GRAHAFS_V2_JOURNAL_BEGIN) ->
  exists r k, replay_scan (S (S budget)) (Device m [] []) base jend 0 0 =
    Some (Device m (if valid m base n then found_writes m base n else []) [], r, k).
Proof.
  intros Hb He Hs Hnext. pose proof (sh_fits _ _ _ _ Hs). pose proof (sh_max _ _ _ _ Hs). remember (S budget) as bud.
  cbn [replay_scan]. destruct (Z.ltb_spec base jend); [|lia]. cbn [negb]. rewrite read_ok. cbn [apply_writes fold_left].
  rewrite (sh_magic _ _ _ _ Hs), (sh_count _ _ _ _ Hs), Z.eqb_refl. cbn [negb].
  destruct (Z.ltb_spec (2 + Z.of_nat n) 2); [lia|].
  destruct (Z.gtb_spec (2 + Z.of_nat n) JOURNAL_TXN_MAX_BLOCKS); [lia|]. cbn [orb].
  rewrite wrap_small by (unfold in_u; lia). replace (base + (2 + Z.of_nat n) - 1) with (base + Z.of_nat n + 1) by lia.
  destruct (Z.geb_spec (base + Z.of_nat n + 1) jend); [lia|]. rewrite read_ok. cbn [apply_writes fold_left].
  unfold valid. set (cb := blk m (base + Z.of_nat n + 1)).
  destruct (jb_magic cb =? _); [|by eexists _, _]. destruct (jb_txn_id cb =? _); [|by eexists _, _]. cbn [negb orb andb].
  rewrite (replay_crc_ok base jend _ n Hs m [] n) by lia. cbn [apply_writes fold_left].
  unfold crc_span. rewrite span_cons. cbn [fold_left].
  destruct (crc32_final _ =? commit_checksum cb); [|by eexists _, _]. cbn [negb].
  rewrite (replay_apply_ok base jend _ n Hs m n) by lia. cbn [app apply_writes fold_left].
  fold (found_writes m base n). exists 1, 0. subst bud. cbn [Z.add].
  rewrite wrap_small by (unfold in_u; lia).
  replace (base + (2 + Z.of_nat n)) with (base + Z.of_nat n + 2) by lia.
  rewrite replay_scan_none; [done|]. intros Hl. rewrite apply_writes_notin; [by apply Hnext|].
  intros x Hin. apply list_elem_of_In, in_map_iff in Hin as (i & [= E _] & [_ Hi]%in_seq).
  destruct (sh_ref _ _ _ _ Hs i Hi) as [_ [_ Ht]]. rewrite E in Ht. lia.
Qed.

(** ** The superblock *)
Record sb_fields (base size : Z) (b : block) : Prop := {
  sf_length : length b = 4096%nat;
  sf_bytes : wf_bytes b;
  sf_magic : sb_magic b = GRAHAFS_V2_SB_MAGIC;
  sf_version : sb_version b = 2;
  sf_start : sb_journal_start b = base;
  sf_blocks : sb_journal_blocks b = size;
  sf_head : sb_journal_head b <= base
}.

Definition sb_good (base size : Z) (b : block) : Prop :=
  sb_fields base size b /\ crc32_buf (take 152 b) = sb_checksum b.

(** Overwriting a field other than those read at mount. *)
Lemma sb_fields_splice base size b off s :
  sb_fields base size b -> wf_bytes s -> (88 <= off)%nat -> (off + length s <= 4096)%nat ->
  sb_fields base size (splice b off s).
Proof.
  intros [Hl Hb H1 H2 H3 H4 H5] Hs Ho He.
  unfold sb_magic, sb_version, sb_journal_start, sb_journal_blocks, sb_journal_head in *.
  split; unfold sb_magic, sb_version, sb_journal_start, sb_journal_blocks, sb_journal_head;
    rewrite ?field_splice_ne by lia; auto with grahaos.
  rewrite length_splice; lia.
Qed.

Lemma sb_fields_head base size b :
  sb_fields base size b -> in_u 64 base -> sb_fields base size (splice b 80 (le 8 base)).
Proof.
  intros [Hl Hb H1 H2 H3 H4 H5] Hu. assert (length (le 8 base) = 8%nat) by apply length_le.
  unfold sb_magic, sb_version, sb_journal_start, sb_journal_blocks, sb_journal_head in *.
  split; unfold sb_magic, sb_version, sb_journal_start, sb_journal_blocks, sb_journal_head;
    rewrite ?field_splice_ne by lia; auto with grahaos.
  - rewrite length_splice; lia.
  - rewrite field_splice_eq by (done || lia). lia.
Qed.

Lemma crc32_buf_bound b : wf_bytes b -> in_u 32 (crc32_buf b).
Proof. intros Hb. apply in_u_lxor; [lia| |done]. by apply crc32_update_bound. Qed.

Lemma take_splice_before (b s : list Z) k off :
  (k <= off)%nat -> (off <= length b)%nat -> take k (splice b off s) = take k b.
Proof. intros. unfold splice. rewrite take_app_le, take_take by (rewrite length_take; lia). f_equal. lia. Qed.

Lemma sb_seal_good base size b : sb_fields base size b -> sb_good base size (sb_seal b).
Proof.
  intros H. unfold sb_seal. set (b0 := splice b 152 (le 4 0)).
  assert (sb_fields base size b0) as H0 by (apply sb_fields_splice; [done|apply le_bytes|lia|cbn; lia]).
  split; [apply sb_fields_splice; [done|apply le_bytes|lia|cbn; lia]|].
  rewrite take_splice_before by (rewrite ?(sf_length _ _ _ H0); lia). symmetry. unfold sb_checksum.
  apply field_splice_eq; [|rewrite (sf_length _ _ _ H0); lia].
  apply crc32_buf_bound, Forall_take, (sf_bytes _ _ _ H0).
Qed.

(** Mounting runs the scan from the start of the journal. *)
Lemma mount_scan m base size ws r k :
  0 < base -> 0 <= size -> base + size < 2 ^ 64 -> sb_good base size (blk m 0) ->
  replay_scan 170 (Device m [] []) base (base + size) 0 0 = Some (Device m ws [], r, k) ->
  exists j sb, mount_journal true 0 (Device m [] []) = Some (j, Device m (ws ++ [(0, sb)]) [], 0) /\ sb_good base size sb.
Proof.
  intros Hb Hz He [Hf Hc] Hscan. unfold mount_journal, dev_read; cbn [answer answers].
  change (blk (view (Device m [] [])) 0) with (blk m 0). set (sb := blk m 0) in *.
  rewrite (sf_magic _ _ _ Hf), Hc, (sf_version _ _ _ Hf), !Z.eqb_refl. cbn [negb].
  unfold journal_replay. rewrite (sf_start _ _ _ Hf), (sf_blocks _ _ _ Hf). cbn [negb].
  rewrite (wrap_small 64 (base + size)) by (unfold in_u; lia).
  pose proof (sf_head _ _ _ Hf).
  replace (if sb_journal_head sb <? base then base else sb_journal_head sb) with base
    by (destruct (Z.ltb_spec (sb_journal_head sb) base); lia).
  change (answered (Device m [] [])) with (Device m [] []).
  change (Z.to_nat JOURNAL_TXN_MAX_BLOCKS) with 170%nat. rewrite Hscan.
  unfold ahci_write_block, dev_write; cbn [answer answers durable cache tl]. rewrite Z.eqb_refl. cbn [negb].
  eexists _, _. split; [reflexivity|]. apply sb_seal_good, sb_fields_splice; [|apply le_bytes|lia|cbn; lia].
  apply sb_fields_head; [done|]. unfold in_u. lia.
Qed.

(** The file system area after mounting a disk, if the mount succeeds. *)
Definition recovers (base jend : Z) (img m : disk) : Prop :=
  exists j d, mount_journal true 0 (Device img [] []) = Some (j, d, 0) /\ home_eq base jend (view d) m.

Lemma recovers_scan m base size ws r k m' :
  0 < base -> 0 <= size -> base + size < 2 ^ 64 -> sb_good base size (blk m 0) ->
  replay_scan 170 (Device m [] []) base (base + size) 0 0 = Some (Device m ws [], r, k) ->
  home_eq base (base + size) (apply_writes ws m) m' -> recovers base (base + size) m m'.
Proof.
  intros Hb Hz He Hsb Hscan Hh. destruct (mount_scan m base size ws r k) as (j & sb & E & _); [done..|].
  exists j, (Device m (ws ++ [(0, sb)]) []). split; [done|]. intros l Hl. unfold view; cbn [cache durable].
  rewrite apply_writes_snoc, blk_insert_ne; [by apply Hh|]. destruct Hl. congruence.
Qed.

(** ** Recovery from a journal area *)
Section recovery.
  Context (base size : Z) (img : disk).
  Hypothesis Hbase : 0 < base.
  Hypothesis Hsize : 170 <= size.
  Hypothesis Hend : base + size < 2 ^ 64.
  Hypothesis Hsb : sb_good base size (blk img 0).

(** Replay of a journal with a well-shaped begin block. *)
Lemma recover_shaped k :
  shaped base (base + size) (blk img base) k ->
  (forall l, base < l < base + size -> jb_magic (blk img l) <> GRAHAFS_V2_JOURNAL_BEGIN) ->
  recovers base (base + size) img (if valid img base k then apply_writes (found_writes img base k) img else img).
Proof.
  intros Hs Hn. destruct (replay_scan_shaped img base (base + size) k 168) as (r & c & E); [done..| |].
  { intros. apply Hn. lia. }
  eapply recovers_scan; [lia|lia|done|done|exact E|]. intros l _. by destruct (valid img base k).
Qed.

Lemma recover_none :
  jb_magic (blk img base) <> GRAHAFS_V2_JOURNAL_BEGIN ->
  recovers base (base + size) img img.
Proof.
  intros Hm. eapply recovers_scan; [lia|lia|done|done| |].
  - by apply replay_scan_none.
  - done.
Qed.

Lemma recovers_eq m m' : recovers base (base + size) img m -> home_eq base (base + size) m m' ->
  recovers base (base + size) img m'.
Proof. intros (j & d & E & H) H'. exists j, d. split; [done|]. intros l Hl. by rewrite H, H'. Qed.
End recovery.

(** ** What a commit does to the device *)
Lemma dev_write_spec d l b d' ok : dev_write d l b = (d', ok) ->
  durable d' = durable d /\ cache d' = cache d ++ if ok then [(l, b)] else [].
Proof. unfold dev_write. destruct (answer d); intros [= <- <-]; [done|]. cbn. by rewrite app_nil_r. Qed.

Lemma write_list_subset d ws d' ok : write_list d ws = (d', ok) ->
  durable d' = durable d /\ exists pre, cache d' = cache d ++ pre /\ pre ⊆ ws /\ (ok = true -> pre = ws).
Proof.
  intros [E1 E2]%write_list_spec. split; [done|]. destruct ok; [by exists ws|].
  destruct E2 as [k E2]. exists (take k ws). split_and!; [done| |done].
  intros x (i & Hi & _)%elem_of_take. by eapply list_elem_of_lookup_2.
Qed.

Lemma barrier_spec j d j' d' rc : journal_barrier j d = (j', d', rc) ->
  (rc = 0 /\ durable d' = view d /\ cache d' = [] \/ rc = -5 /\ durable d' = durable d /\ cache d' = cache d) /\
  exists f, j' = {| j with barrier_fault_inject := f |}.
Proof.
  unfold journal_barrier, dev_flush. destruct j as [? ? ? ? ? ? ? fi]; cbn. destruct fi.
  - intros [= <- <- <-]. split; [by right|]. by eexists.
  - destruct (answer d); intros [= <- <- <-]; (split; [auto|by eexists]).
Qed.

(** The journal writes of a transaction that starts at [base]. *)
Definition journal_writes (base : Z) (txn : journal_txn) : list (Z * block) :=
  let n := Z.of_nat (length (refs txn)) in
  let begin := begin_block txn base (2 + n) in
  (base, begin) :: journal_copies base txn ++ [(base + n + 1, commit_block (txn_id txn) (txn_crc begin txn))].

(** The superblock as commit now and then writes it. *)
Definition persisted_sb (j : journal) (sb : block) : block :=
  sb_seal (splice (splice (splice sb 80 (le 8 (head_block j))) 88 (le 8 (tail_block j))) 104 (le 8 (next_txn_id j))).

Lemma persist_spec j d :
  let d' := fst (persist_journal_head_to_sb j d) in
  durable d' = durable d /\
  (cache d' = cache d \/ cache d' = cache d ++ [(0, persisted_sb j (blk (view d) 0))]).
Proof.
  unfold persist_journal_head_to_sb, ahci_read_block, dev_read. destruct (answer d); [|by cbn; auto].
  destruct (negb _); [by cbn; auto|]. unfold ahci_write_block.
  destruct (dev_write _ 0 _) as [d' ok] eqn:E. apply dev_write_spec in E as [E1 E2]. cbn in *.
  split; [done|]. destruct ok; [by right|]. left. by rewrite app_nil_r in E2.
Qed.

(** The three places where a commit can be when power is lost or it returns. *)
Inductive outcome (j : journal) (base : Z) (txn : journal_txn) (d d' : device) : journal -> Z -> Prop :=
| In_journal j' pre : durable d' = durable d -> cache d' = cache d ++ pre -> pre ⊆ journal_writes base txn ->
    outcome j base txn d d' j' (-5)
| In_checkpoint j' : durable d' = apply_writes (journal_writes base txn) (view d) -> cache d' ⊆ home_writes txn ->
    outcome j base txn d d' j' (-5)
| Done j' : durable d' = apply_writes (home_writes txn) (apply_writes (journal_writes base txn) (view d)) ->
    (cache d' = [] \/ exists jp, cache d' = [(0, persisted_sb jp (blk (durable d') 0))] /\
       head_block jp = base /\ tail_block jp = base /\ next_txn_id jp = next_txn_id j) ->
    head_block j' = base -> journal_base_block j' = base -> journal_size_blocks j' = journal_size_blocks j ->
    next_txn_id j' = next_txn_id j -> append_lock j' = false ->
    outcome j base txn d d' j' 0.

Lemma write_journal_spec d txn base d' rc :
  let n := Z.of_nat (length (refs txn)) in
  write_journal d txn base (begin_block txn base (2 + n)) (base + n + 1) = (d', rc) ->
  durable d' = durable d /\ exists pre, cache d' = cache d ++ pre /\ pre ⊆ journal_writes base txn /\
    (rc = 0 /\ pre = journal_writes base txn \/ rc = -5).
Proof.
  intros n. unfold write_journal, journal_writes, ahci_write_block. fold n. set (bg := begin_block txn base (2 + n)).
  set (cm := commit_block (txn_id txn) (txn_crc bg txn)).
  destruct (dev_write d base bg) as [d1 ok1] eqn:E1. apply dev_write_spec in E1 as [D1 C1].
  destruct ok1; cbn [negb Z.eqb]; last first.
  { intros [= <- <-]. split; [done|]. exists []. split_and!; [done|set_solver|by right]. }
  destruct (write_list d1 (journal_copies base txn)) as [d2 ok2] eqn:E2.
  apply write_list_subset in E2 as [D2 (pre & C2 & Hpre & Hall)].
  rewrite C1, <- app_assoc in C2. destruct ok2; cbn [negb]; last first.
  { intros [= <- <-]. split; [congruence|]. exists ([(base, bg)] ++ pre). split_and!; [done|set_solver|by right]. }
  specialize (Hall eq_refl) as ->.
  destruct (dev_write d2 (base + n + 1) cm) as [d3 ok3] eqn:E3. apply dev_write_spec in E3 as [D3 C3].
  rewrite C2, <- app_assoc in C3. intros [= <- <-]. split; [congruence|].
  eexists. split; [exact C3|]. destruct ok3; (split; [set_solver|]); [|by right]. left. by rewrite <- app_assoc.
Qed.

Lemma commit_outcome j base txn d j' d' rc :
  refs txn <> [] -> Z.of_nat (length (refs txn)) <= 168 ->
  head_block j = base -> journal_base_block j = base -> 0 < base -> base + 170 < 2 ^ 64 ->
  journal_txn_commit j txn d = (j', d', rc) -> outcome j base txn d d' j' rc.
Proof.
  intros Hne Hn Hh Hb H0 Hu. unfold journal_txn_commit. rewrite decide_False by done.
  assert (commit_head j (2 + Z.of_nat (length (refs txn))) = base) as -> by (unfold commit_head; split_ifs; congruence).
  rewrite wrap_small by (unfold in_u; lia).
  replace (base + (2 + Z.of_nat (length (refs txn))) - 1) with (base + Z.of_nat (length (refs txn)) + 1) by lia.
  destruct (write_journal _ _ _ _ _) as [d1 rc1] eqn:E1. apply write_journal_spec in E1 as [D1 (pre & C1 & Hsub & Hrc)].
  destruct Hrc as [[-> ->] | ->]; cbn [negb Z.eqb Pos.eqb]; last first.
  { intros [= <- <- <-]. by eapply In_journal. }
  destruct (journal_barrier j d1) as [[j2 d2] rc2] eqn:E2. apply barrier_spec in E2 as [[(-> & D2 & C2)|(-> & D2 & C2)] [f2 Ej2]];
    cbn [negb Z.eqb Pos.eqb]; last first.
  { intros [= <- <- <-]. eapply In_journal; [congruence|by rewrite C2|done]. }
  assert (durable d2 = apply_writes (journal_writes base txn) (view d)) as D2'
    by (rewrite D2; unfold view; by rewrite C1, D1, apply_writes_app).
  destruct (write_list d2 (home_writes txn)) as [d3 ok3] eqn:E3.
  apply write_list_subset in E3 as [D3 (pre3 & C3 & Hsub3 & Hall3)]. rewrite C2 in C3. cbn [app] in C3.
  destruct ok3; cbn [negb]; last first.
  { intros [= <- <- <-]. apply In_checkpoint; [congruence|by rewrite C3]. }
  specialize (Hall3 eq_refl) as ->.
  destruct (journal_barrier j2 d3) as [[j4 d4] rc4] eqn:E4. apply barrier_spec in E4 as [[(-> & D4 & C4)|(-> & D4 & C4)] [f4 Ej4]];
    cbn [negb Z.eqb Pos.eqb]; last first.
  { intros [= <- <- <-]. apply In_checkpoint; [congruence|by rewrite C4, C3]. }
  assert (durable d4 = apply_writes (home_writes txn) (apply_writes (journal_writes base txn) (view d))) as D4'
    by (rewrite D4; unfold view at 1; rewrite C3, D3; by f_equal).
  subst j2 j4. destruct j as [jh jt jb js jn jl jc jf]; cbn in Hh, Hb; subst jh jb. cbn -[persist_journal_head_to_sb].
  match goal with |- context [if ?b then _ else _] => destruct b end; intros [= <- <- <-]; last first.
  { by apply Done; auto. }
  match goal with |- context [persist_journal_head_to_sb ?jp _] =>
    destruct (persist_spec jp d4) as [D5 C5]; set (d5 := fst _) in *; rewrite C4 in C5; apply Done; try done; [congruence|];
    destruct C5 as [C5|C5]; [by left|]; right; exists jp end.
  rewrite C5, D5. unfold view. by rewrite C4.
Qed.

(** ** Invariant between transactions *)
Record settled (base size : Z) (j : journal) (d : device) (next : Z) : Prop := {
  se_head : head_block j = base;
  se_base : journal_base_block j = base;
  se_size : journal_size_blocks j = size;
  se_next : in_u 64 (next_txn_id j);
  (** only superblock writes are unflushed *)
  se_cache : forall l b, (l, b) ∈ cache d -> l = 0 /\ sb_good base size b;
  se_sb : sb_good base size (blk (durable d) 0);
  (** transactions begin only at the start of the journal, and their numbers are below [next] *)
  se_begin : forall l, base < l < base + size -> jb_magic (blk (durable d) l) <> GRAHAFS_V2_JOURNAL_BEGIN;
  se_commit : forall l, base <= l < base + size -> jb_magic (blk (durable d) l) = GRAHAFS_V2_JOURNAL_COMMIT ->
    jb_txn_id (blk (durable d) l) < next;
  (** a transaction left in the journal is complete and its blocks are at home *)
  se_last : jb_magic (blk (durable d) base) = GRAHAFS_V2_JOURNAL_BEGIN ->
    jb_txn_id (blk (durable d) base) < next /\
    exists n, shaped base (base + size) (blk (durable d) base) n /\ valid (durable d) base n = true /\
      home_eq base (base + size) (apply_writes (found_writes (durable d) base n) (durable d)) (durable d)
}.

(** A staged block goes to a block outside the journal and does not look like a journal record. *)
Record ref_ok (base jend : Z) (r : block_ref) : Prop := {
  ro_target : in_u 64 (lba_target r);
  ro_home : is_home base jend (lba_target r);
  ro_bytes : wf_bytes (payload r);
  ro_begin : jb_magic (payload r) <> GRAHAFS_V2_JOURNAL_BEGIN;
  ro_commit : jb_magic (payload r) <> GRAHAFS_V2_JOURNAL_COMMIT
}.

Record txn_ok (base jend : Z) (txn : journal_txn) : Prop := {
  to_some : refs txn <> [];
  to_max : (length (refs txn) <= 168)%nat;
  to_id : in_u 64 (txn_id txn);
  to_refs : Forall (ref_ok base jend) (refs txn)
}.

(** The checksum tells a mixture of old and new journal blocks from the old and from
    the new journal. *)
Definition no_collision (base jend : Z) (m : disk) (txn : journal_txn) : Prop :=
  forall img, (forall l, base <= l < jend -> blk img l = blk m l \/ (l, blk img l) ∈ journal_writes base txn) ->
  (forall n, shaped base jend (blk m base) n ->
     crc_span img base (S n) = crc_span m base (S n) -> span img base (S n) = span m base (S n)) /\
  (let new := apply_writes (journal_writes base txn) m in let n := length (refs txn) in
   crc_span img base (S n) = crc_span new base (S n) -> span img base (S n) = span new base (S n)).

Section commit.
  Context (base size : Z) (txn : journal_txn).
  Hypothesis Hbase : 0 < base.
  Hypothesis Hsize : 170 <= size.
  Hypothesis Hend : base + size < 2 ^ 64.
  Hypothesis Htxn : txn_ok base (base + size) txn.
Let n := length (refs txn).
Let bg := begin_block txn base (2 + Z.of_nat n).
Let cm := commit_block (txn_id txn) (txn_crc bg txn).
Let W := journal_writes base txn.

Lemma journal_writes_in l b : (l, b) ∈ W <->
  (l = base /\ b = bg) \/ (exists i r, refs txn !! i = Some r /\ l = base + 1 + Z.of_nat i /\ b = payload r) \/
  (l = base + Z.of_nat n + 1 /\ b = cm).
Proof.
  pose proof (to_max _ _ _ Htxn). unfold W, journal_writes. rewrite elem_of_cons, elem_of_app, list_elem_of_singleton.
  fold n bg cm. split.
  - intros [[= -> ->]|[Hin|[= -> ->]]]; auto. right. left. unfold journal_copies in Hin.
    apply list_elem_of_lookup in Hin as [i Hi]. rewrite list_lookup_imap in Hi.
    destruct (refs txn !! i) as [r|] eqn:Er; [|done]. injection Hi as <- <-. exists i, r.
    apply lookup_lt_Some in Er as Hlt. rewrite wrap_small by (unfold in_u; lia). auto.
  - intros [[-> ->]|[(i & r & Er & -> & ->)|[-> ->]]]; auto. right. left. apply list_elem_of_lookup. exists i.
    unfold journal_copies. rewrite list_lookup_imap, Er. cbn. apply lookup_lt_Some in Er.
    by rewrite wrap_small by (unfold in_u; lia).
Qed.

Lemma journal_writes_fun l b b' : (l, b) ∈ W -> (l, b') ∈ W -> b = b'.
Proof.
  rewrite !journal_writes_in.
  intros [[-> ->]|[(i & r & Er & -> & ->)|[-> ->]]] [[? ->]|[(i' & r' & Er' & E & ->)|[? ->]]]; try done;
    try apply lookup_lt_Some in Er as ?; try apply lookup_lt_Some in Er' as ?; try lia.
  assert (i = i') by lia. congruence.
Qed.

Lemma journal_writes_range l b : (l, b) ∈ W -> base <= l < base + size.
Proof.
  pose proof (to_max _ _ _ Htxn). rewrite journal_writes_in.
  intros [[-> ->]|[(i & r & Er & -> & ->)|[-> ->]]]; try apply lookup_lt_Some in Er; lia.
Qed.

(** Only the first of the blocks written is a begin block, only the last a commit block. *)
Lemma journal_writes_magic l b : (l, b) ∈ W ->
  (base < l -> jb_magic b <> GRAHAFS_V2_JOURNAL_BEGIN) /\
  (jb_magic b = GRAHAFS_V2_JOURNAL_COMMIT -> b = cm /\ l = base + Z.of_nat n + 1 /\ jb_txn_id b = txn_id txn).
Proof.
  assert (jb_magic bg = GRAHAFS_V2_JOURNAL_BEGIN) as Hbm by by apply begin_magic.
  assert (jb_magic cm = GRAHAFS_V2_JOURNAL_COMMIT) as Hcm by by apply (of_le_le 4).
  assert (jb_txn_id cm = txn_id txn) as Hci by apply (of_le_le 8), (to_id _ _ _ Htxn).
  rewrite journal_writes_in. intros [[-> ->]|[(i & r & Er & -> & ->)|[-> ->]]].
  - split; [lia|]. by rewrite Hbm.
  - pose proof (proj1 (Forall_lookup _ _) (to_refs _ _ _ Htxn) _ _ Er) as Hr.
    split; [intros _; by apply (ro_begin _ _ _ Hr)|]. intros E. by destruct (ro_commit _ _ _ Hr).
  - split; [by rewrite Hcm|]. auto.
Qed.

(** *** The journal after all writes *)
Lemma new_at m l b : (l, b) ∈ W -> blk (apply_writes W m) l = b.
Proof. intros Hin. apply apply_writes_unique; [done|]. intros b' Hb'. by eapply journal_writes_fun. Qed.

Lemma new_begin m : blk (apply_writes W m) base = bg.
Proof. apply new_at, journal_writes_in. auto. Qed.

Lemma new_commit m : blk (apply_writes W m) (base + Z.of_nat n + 1) = cm.
Proof. apply new_at, journal_writes_in. auto. Qed.

Lemma new_payload m i r : refs txn !! i = Some r -> blk (apply_writes W m) (base + 1 + Z.of_nat i) = payload r.
Proof. intros Hr. apply new_at, journal_writes_in. right. left. eauto. Qed.

Lemma bg_shaped : shaped base (base + size) bg n.
Proof.
  pose proof (to_max _ _ _ Htxn) as Hmax. fold n in Hmax. split; try lia.
  - by apply begin_magic.
  - by apply begin_count.
  - by apply begin_refs.
  - intros i Hi. destruct (lookup_lt_is_Some_2 (refs txn) i Hi) as [r Hr].
    pose proof (proj1 (Forall_lookup _ _) (to_refs _ _ _ Htxn) _ _ Hr) as Hok.
    destruct (begin_ref txn base Hmax i r Hr (ro_target _ _ _ Hok)) as [E1 E2]. fold n bg in E1, E2.
    rewrite E1, E2. rewrite wrap_small by (unfold in_u; lia). split; [done|]. by apply (ro_home _ _ _ Hok).
Qed.

Lemma map_refs {A} (f : nat -> A) (g : block_ref -> A) :
  (forall i r, refs txn !! i = Some r -> f i = g r) -> map f (seq 0 n) = map g (refs txn).
Proof.
  intros H. apply list_eq. intros i. rewrite !list_lookup_fmap. destruct (decide (i < n)%nat) as [Hi|Hi].
  - rewrite lookup_seq_lt by done. destruct (lookup_lt_is_Some_2 (refs txn) i Hi) as [r Hr]. rewrite Hr. cbn.
    by rewrite (H i r).
  - rewrite lookup_seq_ge, lookup_ge_None_2 by lia. done.
Qed.

Lemma new_span m : span (apply_writes W m) base (S n) = bg :: map payload (refs txn).
Proof. rewrite span_cons, new_begin. f_equal. apply map_refs. intros. by apply new_payload. Qed.

Lemma new_found m : found_writes (apply_writes W m) base n = home_writes txn.
Proof.
  unfold found_writes, home_writes. apply map_refs. intros i r Hr. rewrite new_begin, (new_payload m i r Hr). f_equal.
  pose proof (proj1 (Forall_lookup _ _) (to_refs _ _ _ Htxn) _ _ Hr) as Hok.
  by apply (begin_ref txn base (to_max _ _ _ Htxn) i r Hr (ro_target _ _ _ Hok)).
Qed.

Lemma new_crc m : crc_span (apply_writes W m) base (S n) = txn_crc bg txn.
Proof.
  unfold crc_span, txn_crc. rewrite new_span, fold_left_cons. by rewrite fold_left_map.
Qed.

Lemma txn_crc_bound : in_u 32 (txn_crc bg txn).
Proof.
  apply in_u_lxor; [lia| |done]. assert (in_u 32 (crc32_update crc32_init bg)) as Hc.
  { apply crc32_update_bound; [done|]. apply begin_bytes. }
  revert Hc. generalize (crc32_update crc32_init bg). pose proof (to_refs _ _ _ Htxn) as Hr.
  induction Hr as [|r l Hr _ IH]; intros c Hc; [done|]. cbn [fold_left]. apply IH, crc32_update_bound; [done|].
  apply (ro_bytes _ _ _ Hr).
Qed.

Lemma cm_fields : jb_magic cm = GRAHAFS_V2_JOURNAL_COMMIT /\ jb_txn_id cm = txn_id txn /\ commit_checksum cm = txn_crc bg txn.
Proof. apply commit_fields; [apply (to_id _ _ _ Htxn)|apply txn_crc_bound]. Qed.

Lemma bg_txn_id : jb_txn_id bg = txn_id txn.
Proof. apply begin_txn_id, (to_id _ _ _ Htxn). Qed.

(** A complete transaction: same begin and staged blocks as written, and the commit block. *)
Lemma valid_new m : valid (apply_writes W m) base n = true.
Proof.
  unfold valid. destruct cm_fields as (Em & Ei & Ec).
  by rewrite new_commit, new_begin, new_crc, Em, Ei, Ec, bg_txn_id, !Z.eqb_refl.
Qed.

(** *** Recovery *)
Lemma new_not_begin m l :
  (forall l, base < l < base + size -> jb_magic (blk m l) <> GRAHAFS_V2_JOURNAL_BEGIN) -> base < l < base + size ->
  jb_magic (blk (apply_writes W m) l) <> GRAHAFS_V2_JOURNAL_BEGIN.
Proof.
  intros Hm Hl. destruct (apply_writes_cases W m l) as [E|Hin]; [rewrite E; by apply Hm|].
  apply (journal_writes_magic _ _ Hin). lia.
Qed.

Lemma recover_complete m img :
  sb_good base size (blk img 0) ->
  (forall l, base < l < base + size -> jb_magic (blk m l) <> GRAHAFS_V2_JOURNAL_BEGIN) ->
  (forall l, base <= l < base + size -> blk img l = blk (apply_writes W m) l) ->
  (forall l, is_home base (base + size) l -> blk img l = blk m l \/ (l, blk img l) ∈ home_writes txn) ->
  recovers base (base + size) img (apply_writes (home_writes txn) m).
Proof.
  intros Hsb Hm Hj Hh. pose proof (to_max _ _ _ Htxn) as Hmax. fold n in Hmax.
  eapply recovers_eq; [apply (recover_shaped base size img Hbase Hsize Hend Hsb n)|].
  - rewrite Hj, new_begin by lia. apply bg_shaped.
  - intros l Hl. rewrite Hj by lia. by apply new_not_begin.
  - rewrite (valid_ext base img (apply_writes W m)), valid_new by (intros; apply Hj; lia).
    rewrite (found_ext base img (apply_writes W m)), new_found by (intros; apply Hj; lia).
    intros l Hl. apply apply_writes_mixed. by apply Hh.
Qed.

(** *** Power loss before the first flush *)
Section partial.
  Context (j : journal) (d : device) (img : disk).
  Hypothesis Hd : settled base size j d (txn_id txn).
  Hypothesis Hc : no_collision base (base + size) (durable d) txn.
  Hypothesis Himg : forall l, blk img l = blk (durable d) l \/ (l, blk img l) ∈ cache d \/ (l, blk img l) ∈ W.

Lemma partial_sb : sb_good base size (blk img 0).
Proof.
  destruct (Himg 0) as [->|[Hin|Hin]]; [apply (se_sb _ _ _ _ _ Hd)|by apply (se_cache _ _ _ _ _ Hd) in Hin as [_ ?]|].
  apply journal_writes_range in Hin. lia.
Qed.

Lemma partial_journal l : base <= l < base + size -> blk img l = blk (durable d) l \/ (l, blk img l) ∈ W.
Proof.
  intros Hl. destruct (Himg l) as [|[Hin|]]; auto. apply (se_cache _ _ _ _ _ Hd) in Hin as [-> _]. lia.
Qed.

Lemma partial_home : home_eq base (base + size) img (durable d).
Proof.
  intros l [H0 Hl]. destruct (Himg l) as [|[Hin|Hin]]; [done| |].
  - by apply (se_cache _ _ _ _ _ Hd) in Hin as [-> _].
  - by apply journal_writes_range in Hin.
Qed.

Lemma partial_begin l : base < l < base + size -> jb_magic (blk img l) <> GRAHAFS_V2_JOURNAL_BEGIN.
Proof.
  intros Hl. destruct (partial_journal l) as [->|Hin]; [lia|by apply (se_begin _ _ _ _ _ Hd)|].
  apply (journal_writes_magic _ _ Hin). lia.
Qed.

Lemma partial_base : blk img base = blk (durable d) base \/ blk img base = bg.
Proof.
  destruct (partial_journal base) as [|Hin]; [lia|by left|]. right. eapply journal_writes_fun; [exact Hin|].
  apply journal_writes_in. auto.
Qed.

(** The new begin block got through: replayed only if everything did. *)
Lemma partial_new : blk img base = bg ->
  recovers base (base + size) img (durable d) \/
  recovers base (base + size) img (apply_writes (home_writes txn) (durable d)).
Proof.
  intros Eb. pose proof (to_max _ _ _ Htxn) as Hmax. fold n in Hmax. destruct cm_fields as (Em & Ei & Ec).
  pose proof (recover_shaped base size img Hbase Hsize Hend partial_sb n ltac:(rewrite Eb; apply bg_shaped) partial_begin) as Hr.
  destruct (valid img base n) eqn:Ev; [|left; eapply recovers_eq; [exact Hr|apply partial_home]].
  unfold valid in Ev. rewrite !andb_true_iff, !Z.eqb_eq, Eb, bg_txn_id in Ev. destruct Ev as [[E1 E2] E3].
  destruct (partial_journal (base + Z.of_nat n + 1)) as [Eo|Hin]; [lia| |].
  { rewrite Eo in E1, E2. apply (se_commit _ _ _ _ _ Hd) in E1; lia. }
  destruct (journal_writes_magic _ _ Hin) as [_ Hm]. destruct (Hm E1) as (Ecm & _ & _). rewrite Ecm, Ec in E3.
  destruct (Hc img) as [_ Hnew]; [intros; by apply partial_journal|]. cbv zeta in Hnew.
  fold W n in Hnew. rewrite new_crc in Hnew. specialize (Hnew E3). right. eapply recovers_eq; [exact Hr|].
  assert (found_writes img base n = home_writes txn) as ->.
  { rewrite <- (new_found (durable d)). by apply found_span. }
  intros l Hl. by apply apply_writes_ext, partial_home.
Qed.

(** The old begin block is still there: at most the old transaction is replayed again. *)
Lemma partial_old : blk img base = blk (durable d) base -> recovers base (base + size) img (durable d).
Proof.
  intros Eb. destruct (decide (jb_magic (blk (durable d) base) = GRAHAFS_V2_JOURNAL_BEGIN)) as [Hm|Hm]; last first.
  { eapply recovers_eq; [apply recover_none; [done..|apply partial_sb|by rewrite Eb]|apply partial_home]. }
  destruct (se_last _ _ _ _ _ Hd Hm) as (Hid & k & Hs & Hv & Hhome). pose proof (sh_fits _ _ _ _ Hs).
  pose proof (recover_shaped base size img Hbase Hsize Hend partial_sb k ltac:(by rewrite Eb) partial_begin) as Hr.
  eapply recovers_eq; [exact Hr|]. destruct (valid img base k) eqn:Ev; [|apply partial_home].
  unfold valid in Ev, Hv. rewrite !andb_true_iff, !Z.eqb_eq in Ev, Hv. destruct Ev as [[E1 E2] E3], Hv as [[H1 H2] H3].
  destruct (partial_journal (base + Z.of_nat k + 1)) as [Eo|Hin]; [lia| |].
  - rewrite Eo, <- H3 in E3. destruct (Hc img) as [Hold _]; [intros; by apply partial_journal|].
    specialize (Hold k Hs E3). assert (found_writes img base k = found_writes (durable d) base k) as ->.
    { by apply found_span. }
    intros l Hl. rewrite <- Hhome by done. by apply apply_writes_ext, partial_home.
  - destruct (journal_writes_magic _ _ Hin) as [_ Hw]. destruct (Hw E1) as (_ & _ & Ei). rewrite Eb in E2. lia.
Qed.
End partial.
End commit.

(** ** Between commits *)
Section settle.
  Context (base size : Z) (j : journal) (d : device) (next : Z).
  Hypothesis Hbase : 0 < base.
  Hypothesis Hd : settled base size j d next.

Lemma view_away l : l <> 0 -> blk (view d) l = blk (durable d) l.
Proof. intros Hl. apply apply_writes_notin. intros b Hin. by apply (se_cache _ _ _ _ _ Hd) in Hin as [-> _]. Qed.

Lemma view_sb : sb_good base size (blk (view d) 0).
Proof.
  unfold view. destruct (apply_writes_cases (cache d) (durable d) 0) as [->|Hin]; [apply (se_sb _ _ _ _ _ Hd)|].
  by apply (se_cache _ _ _ _ _ Hd) in Hin as [_ ?].
Qed.
End settle.

Lemma persisted_sb_good base size j sb :
  sb_good base size sb -> in_u 64 base -> head_block j = base -> sb_good base size (persisted_sb j sb).
Proof.
  intros [Hf _] Hu Hh. unfold persisted_sb. rewrite Hh.
  apply sb_seal_good. repeat (apply sb_fields_splice; [|apply le_bytes|lia|rewrite length_le; lia]).
  by apply sb_fields_head.
Qed.

Section done.
  Context (base size : Z) (txn : journal_txn) (j : journal) (d : device).
  Hypothesis Hbase : 0 < base.
  Hypothesis Hsize : 170 <= size.
  Hypothesis Hend : base + size < 2 ^ 64.
  Hypothesis Htxn : txn_ok base (base + size) txn.
  Hypothesis Hd : settled base size j d (txn_id txn).
Let W := journal_writes base txn.
Let H := home_writes txn.
Let m := apply_writes H (apply_writes W (view d)).

Lemma home_writes_home l b : (l, b) ∈ H -> is_home base (base + size) l.
Proof.
  unfold H, home_writes. intros Hin. apply list_elem_of_In, in_map_iff in Hin as (r & [= <- <-] & Hr).
  apply list_elem_of_In in Hr. apply (proj1 (Forall_forall _ _) (to_refs _ _ _ Htxn)) in Hr. apply (ro_home _ _ _ Hr).
Qed.

Lemma done_journal l : base <= l < base + size -> blk m l = blk (apply_writes W (durable d)) l.
Proof.
  intros Hl. unfold m. rewrite apply_writes_notin by (intros b Hin; apply home_writes_home in Hin as [_ []]; lia).
  apply apply_writes_ext, (view_away _ _ _ _ _ Hd). lia.
Qed.

Lemma done_home l : is_home base (base + size) l -> blk m l = blk (apply_writes H (durable d)) l.
Proof.
  intros [H0 Hl]. unfold m. apply apply_writes_ext.
  rewrite apply_writes_notin by (intros b Hin; by apply (journal_writes_range base size) in Hin).
  by apply (view_away _ _ _ _ _ Hd).
Qed.

Lemma done_sb : sb_good base size (blk m 0).
Proof.
  unfold m. rewrite apply_writes_notin by (intros b Hin; by apply home_writes_home in Hin as []).
  rewrite apply_writes_notin by (intros b Hin; apply (journal_writes_range base size) in Hin; [lia|done..]).
  by apply (view_sb base size j d (txn_id txn)).
Qed.

Lemma done_settled j' d' :
  durable d' = m ->
  (cache d' = [] \/ exists jp, cache d' = [(0, persisted_sb jp (blk (durable d') 0))] /\ head_block jp = base) ->
  head_block j' = base -> journal_base_block j' = base -> journal_size_blocks j' = journal_size_blocks j ->
  next_txn_id j' = next_txn_id j -> settled base size j' d' (txn_id txn + 1).
Proof.
  intros Ed Ec E1 E2 E3 E4. pose proof (to_max _ _ _ Htxn) as Hmax.
  split; rewrite ?Ed, ?E1, ?E2, ?E3, ?E4; try done; try apply (se_size _ _ _ _ _ Hd); try apply (se_next _ _ _ _ _ Hd).
  - intros l b Hin. destruct Ec as [Ec|(jp & Ec & Ejp)]; rewrite Ec in Hin; [by apply elem_of_nil in Hin|].
    apply list_elem_of_singleton in Hin as [= -> ->]. split; [done|].
    apply persisted_sb_good; [rewrite Ed; apply done_sb|unfold in_u; lia|done].
  - apply done_sb.
  - intros l Hl. rewrite done_journal by lia. eapply new_not_begin; eauto. apply (se_begin _ _ _ _ _ Hd).
  - intros l Hl. rewrite done_journal by lia. destruct (apply_writes_cases W (durable d) l) as [E|Hin].
    + rewrite E. intros Hm. apply (se_commit _ _ _ _ _ Hd) in Hm; [lia|done].
    + intros Hm. eapply journal_writes_magic in Hin as [_ Hin]; eauto. destruct (Hin Hm) as (_ & _ & ->). lia.
  - intros _. rewrite done_journal by lia. unfold W. rewrite (new_begin base size) by done.
    rewrite begin_txn_id by apply (to_id _ _ _ Htxn). split; [lia|]. exists (length (refs txn)).
    split; [by apply bg_shaped|]. split.
    + rewrite (valid_ext base m (apply_writes W (durable d))); [by apply (valid_new base size)|].
      intros. apply done_journal. lia.
    + rewrite (found_ext base m (apply_writes W (durable d))) by (intros; apply done_journal; lia).
      unfold W. rewrite (new_found base size) by done. intros l Hl.
      unfold m. destruct (apply_writes_cases H (apply_writes W (view d)) l) as [E|Hin].
      * rewrite (apply_writes_ext _ _ _ _ E). done.
      * by eapply apply_writes_in.
Qed.

(** Power loss after the first flush. *)
Lemma recover_checkpoint img :
  (forall l, blk img l = blk (apply_writes W (view d)) l \/ (l, blk img l) ∈ H \/ l = 0 /\ sb_good base size (blk img l)) ->
  recovers base (base + size) img (apply_writes H (durable d)).
Proof.
  intros Hi. apply (recover_complete base size); try done.
  - destruct (Hi 0) as [->|[Hin|[_ ?]]]; [|by apply home_writes_home in Hin as []|done].
    rewrite apply_writes_notin by (intros b Hin; apply (journal_writes_range base size) in Hin; [lia|done..]).
    by apply (view_sb base size j d (txn_id txn)).
  - apply (se_begin _ _ _ _ _ Hd).
  - intros l Hl. destruct (Hi l) as [->|[Hin|[-> _]]]; [|by apply home_writes_home in Hin as []|lia].
    apply apply_writes_ext, (view_away _ _ _ _ _ Hd). lia.
  - intros l [H0 Hl]. destruct (Hi l) as [->|[Hin|[-> _]]]; [left|by right|done].
    rewrite apply_writes_notin by (intros b Hin; by apply (journal_writes_range base size) in Hin).
    by apply (view_away _ _ _ _ _ Hd).
Qed.
End done.

(** The step of the theorems below. *)
Lemma commit_step base size j d txn j' d' rc :
  0 < base -> 170 <= size -> base + size < 2 ^ 64 ->
  settled base size j d (txn_id txn) -> txn_ok base (base + size) txn ->
  no_collision base (base + size) (durable d) txn -> journal_txn_commit j txn d = (j', d', rc) ->
  (forall img, crash_image d' img ->
     recovers base (base + size) img (apply_writes (home_writes txn) (durable d)) \/
     rc <> 0 /\ recovers base (base + size) img (durable d)) /\
  (rc = 0 -> settled base size j' d' (txn_id txn + 1) /\ next_txn_id j' = next_txn_id j /\ append_lock j' = false /\
     home_eq base (base + size) (durable d') (apply_writes (home_writes txn) (durable d))).
Proof.
  intros Hb Hs He Hd Ht Hc E. pose proof (to_max _ _ _ Ht).
  eapply commit_outcome in E; [|by apply (to_some _ _ _ Ht)|lia|apply (se_head _ _ _ _ _ Hd)|
    apply (se_base _ _ _ _ _ Hd)|lia|lia].
  destruct E as [j' pre Ed Ec Hpre|j' Ed Ec|j' Ed Ec E1 E2 E3 E4 E5]; (split; [intros img Himg|done || intros _]).
  - assert (forall l, blk img l = blk (durable d) l \/ (l, blk img l) ∈ cache d \/
      (l, blk img l) ∈ journal_writes base txn) as Hi.
    { intros l. destruct (Himg l) as [->|Hin]; [left; by rewrite Ed|]. rewrite Ec, elem_of_app in Hin. set_solver. }
    destruct (partial_base base size txn Hb Hs He Ht j d img Hd Hi) as [E|E].
    + right. split; [done|]. by eapply partial_old.
    + eapply partial_new in E; eauto. destruct E; auto.
  - left. eapply recover_checkpoint; eauto. intros l. rewrite <- Ed. destruct (Himg l); auto.
  - left. eapply recover_checkpoint; eauto. intros l. destruct (Himg l) as [->|Hin].
    + rewrite Ed. destruct (apply_writes_cases (home_writes txn) (apply_writes (journal_writes base txn) (view d)) l); auto.
    + right. right. destruct Ec as [Ec|(jp & Ec & Ej & _)]; rewrite Ec in Hin; [by apply elem_of_nil in Hin|].
      apply list_elem_of_singleton in Hin as [= -> ->]. split; [done|].
      apply persisted_sb_good; [rewrite Ed; by eapply done_sb|unfold in_u; lia|done].
  - split_and!; [|done..|intros l Hl; rewrite Ed; by eapply done_home]. eapply done_settled; eauto.
    destruct Ec as [Ec|(jp & Ec & Ej & _)]; eauto.
Qed.

(** ** Runs of transactions *)

(** A transaction as the file system makes it: begin, stage (target, kind, contents), commit. *)
Definition stage (txn : journal_txn) (bs : list (Z * Z * block)) : journal_txn :=
  fold_left (fun txn '(lba, kind, b) => fst (journal_txn_add_block true txn lba kind b)) bs txn.

Definition staged (j : journal) (bs : list (Z * Z * block)) : journal_txn :=
  stage (Journal_txn (next_txn_id j) 0 0 0 []) bs.

Definition run_txn (j : journal) (d : device) (bs : list (Z * Z * block)) : journal * device * Z :=
  match journal_txn_begin true j with
  | Some (j', Some txn) => journal_txn_commit j' (stage txn bs) d
  | _ => (j, d, -3)
  end.

(** Transactions until one fails; counts those that succeed. *)
Fixpoint run_txns (j : journal) (d : device) (txs : list (list (Z * Z * block))) : journal * device * nat :=
  match txs with
  | [] => (j, d, 0%nat)
  | bs :: txs =>
      let '(j, d, rc) := run_txn j d bs in
      if rc =? 0 then let '(j, d, k) := run_txns j d txs in (j, d, S k) else (j, d, 0%nat)
  end.

(** The effect the transactions should have. *)
Definition block_writes (bs : list (Z * Z * block)) : list (Z * block) := map (fun '(lba, _, b) => (lba, b)) bs.

Definition apply_txns (txs : list (list (Z * Z * block))) (m : disk) : disk :=
  fold_left (fun m bs => apply_writes (block_writes bs) m) txs m.

(** What the run relies on: the form of the transactions and the absence of checksum collisions. *)
Fixpoint run_ok (base jend : Z) (j : journal) (d : device) (txs : list (list (Z * Z * block))) : Prop :=
  match txs with
  | [] => True
  | bs :: txs =>
      bs <> [] /\ (length bs <= 168)%nat /\
      Forall (fun '(lba, kind, b) => ref_ok base jend (Block_ref lba kind b)) bs /\
      no_collision base jend (durable d) (staged j bs) /\
      let '(j', d', rc) := run_txn j d bs in rc = 0 -> run_ok base jend j' d' txs
  end.

Lemma stage_refs bs : forall txn, (length (refs txn) + length bs <= 168)%nat ->
  txn_id (stage txn bs) = txn_id txn /\
  refs (stage txn bs) = refs txn ++ map (fun '(lba, kind, b) => Block_ref lba kind b) bs.
Proof.
  induction bs as [|[[lba kind] b] bs IH]; intros txn Hl; cbn [length] in Hl; [by rewrite app_nil_r|].
  unfold stage in *. cbn [fold_left map]. unfold journal_txn_add_block at 2 4.
  destruct (Z.geb_spec (Z.of_nat (length (refs txn))) 168); [lia|]. cbn [negb fst].
  destruct (IH (fst (journal_txn_add_block true txn lba kind b))) as [E1 E2];
    unfold journal_txn_add_block in *; destruct (Z.geb_spec (Z.of_nat (length (refs txn))) 168); try lia; cbn in *.
  - rewrite length_app. cbn. lia.
  - rewrite E1, E2, <- app_assoc. done.
Qed.

Lemma settled_ext base size j j' d next :
  head_block j' = head_block j -> journal_base_block j' = journal_base_block j ->
  journal_size_blocks j' = journal_size_blocks j -> in_u 64 (next_txn_id j') ->
  settled base size j d next -> settled base size j' d next.
Proof. intros E1 E2 E3 Hn []. split; try done; congruence. Qed.

Lemma run_txn_step base size j d bs j' d' rc :
  0 < base -> 170 <= size -> base + size < 2 ^ 64 ->
  settled base size j d (next_txn_id j) -> append_lock j = false -> next_txn_id j + 1 < 2 ^ 64 ->
  bs <> [] -> (length bs <= 168)%nat ->
  Forall (fun '(lba, kind, b) => ref_ok base (base + size) (Block_ref lba kind b)) bs ->
  no_collision base (base + size) (durable d) (staged j bs) -> run_txn j d bs = (j', d', rc) ->
  (forall img, crash_image d' img ->
     recovers base (base + size) img (apply_writes (block_writes bs) (durable d)) \/
     rc <> 0 /\ recovers base (base + size) img (durable d)) /\
  (rc = 0 -> settled base size j' d' (next_txn_id j') /\ next_txn_id j' = next_txn_id j + 1 /\ append_lock j' = false /\
     home_eq base (base + size) (durable d') (apply_writes (block_writes bs) (durable d))).
Proof.
  intros Hb Hs He Hd Hlock Hnext Hne Hlen Hrefs Hc. unfold run_txn, journal_txn_begin. rewrite Hlock. cbn [negb].
  destruct (stage_refs bs (Journal_txn (next_txn_id j) 0 0 0 []) Hlen) as [Ei Er].
  fold (staged j bs) in Ei, Er |- *. cbn [txn_id refs app] in Ei, Er. pose proof (se_next _ _ _ _ _ Hd) as Hu. unfold in_u in Hu.
  rewrite wrap_small by (unfold in_u; lia). intros E.
  assert (home_writes (staged j bs) = block_writes bs) as Hw.
  { unfold home_writes, block_writes. rewrite Er, map_map. apply map_ext. by intros [[] ]. }
  rewrite <- Hw. match type of E with journal_txn_commit ?jl _ _ = _ =>
    destruct (commit_step base size jl d (staged j bs) j' d' rc Hb Hs He) as [H1 H2] end; [| |done|done|].
  - rewrite Ei. eapply settled_ext; [..|exact Hd]; try done. unfold in_u; cbn; lia.
  - split; rewrite ?Er, ?Ei; [by destruct bs|by rewrite length_map|unfold in_u; lia|].
    apply Forall_fmap. eapply Forall_impl; [exact Hrefs|]. by intros [[] ].
  - split; [exact H1|]. intros Hrc. destruct (H2 Hrc) as (S1 & S2 & S3 & S4). cbn in S2.
    rewrite Ei in S1. by rewrite S2.
Qed.

(** Nothing in progress. *)
Lemma settled_recovers base size j d next img :
  0 < base -> 170 <= size -> base + size < 2 ^ 64 -> settled base size j d next -> crash_image d img ->
  recovers base (base + size) img (durable d).
Proof.
  intros Hb Hs He Hd Himg. assert (forall l, l <> 0 -> blk img l = blk (durable d) l) as Hi.
  { intros l Hl. destruct (Himg l) as [|Hin]; [done|]. by apply (se_cache _ _ _ _ _ Hd) in Hin as [-> _]. }
  assert (sb_good base size (blk img 0)) as Hsb.
  { destruct (Himg 0) as [->|Hin]; [apply (se_sb _ _ _ _ _ Hd)|]. by apply (se_cache _ _ _ _ _ Hd) in Hin as [_ ?]. }
  destruct (decide (jb_magic (blk (durable d) base) = GRAHAFS_V2_JOURNAL_BEGIN)) as [Hm|Hm].
  - destruct (se_last _ _ _ _ _ Hd Hm) as (_ & k & Hsh & Hv & Hh). pose proof (sh_fits _ _ _ _ Hsh).
    eapply recovers_eq; [apply (recover_shaped base size img Hb Hs He Hsb k)|].
    + rewrite Hi by lia. done.
    + intros l Hl. rewrite Hi by lia. by apply (se_begin _ _ _ _ _ Hd).
    + rewrite (valid_ext base img (durable d)), Hv by (intros; apply Hi; lia).
      rewrite (found_ext base img (durable d)) by (intros; apply Hi; lia). intros l [H0 Hl].
      rewrite <- Hh by done. apply apply_writes_ext. by apply Hi.
  - eapply recovers_eq; [apply (recover_none base size img Hb Hs He Hsb); rewrite Hi by lia; done|].
    intros l [H0 _]. by apply Hi.
Qed.

Lemma apply_txns_ext base jend txs : forall m m',
  home_eq base jend m m' -> home_eq base jend (apply_txns txs m) (apply_txns txs m').
Proof.
  induction txs as [|bs txs IH]; intros m m' H; [done|]. apply IH. intros l Hl. by apply apply_writes_ext, H.
Qed.

(** C3: journal atomicity, up to the first failure.  Take a sequence of transactions of 1 to
    168 blocks each on a settled journal, run until one of them fails; the staged blocks
    lie outside the journal and do not imitate journal records, and the checksum separates
    mixtures of the old and the new journal.  For every pattern of device failures, if
    power is lost at any moment of the run, every disk that can result mounts, and the file
    system area is exactly that after the transactions that returned success, or after
    those and the one in progress; no transaction of the run is ever half applied.  (What
    follows a failed transaction, and what the conditions exclude, is the subject of
    [JournalFaults].) *)
Theorem journal_atomic (base size : Z) (txs : list (list (Z * Z * block))) :
  forall (j : journal) (d : device),
  0 < base -> 170 <= size -> base + size < 2 ^ 64 ->
  settled base size j d (next_txn_id j) -> append_lock j = false ->
  next_txn_id j + Z.of_nat (length txs) < 2 ^ 64 -> run_ok base (base + size) j d txs ->
  let '(_, d', k) := run_txns j d txs in
  forall img, crash_image d' img ->
  exists s, (s = k \/ s = S k) /\ (s <= length txs)%nat /\
    recovers base (base + size) img (apply_txns (take s txs) (durable d)).
Proof.
  induction txs as [|bs txs IH]; intros j d Hb Hs He Hd Hlock Hnext Hok; cbn [run_txns].
  { intros img Himg. exists 0%nat. split_and!; [by left|done|]. by eapply settled_recovers. }
  destruct Hok as (Hne & Hlen & Hrefs & Hc & Hok). cbn [length] in Hnext.
  destruct (run_txn j d bs) as [[j1 d1] rc] eqn:E.
  eapply run_txn_step in E as [Hcrash Hdone]; [|done..|lia|done|done|done|done].
  destruct (Z.eqb_spec rc 0) as [->|Hrc].
  - destruct (Hdone eq_refl) as (Hd1 & En & Hl1 & Hh). specialize (IH j1 d1 Hb Hs He Hd1 Hl1 ltac:(lia) (Hok eq_refl)).
    destruct (run_txns j1 d1 txs) as [[j2 d2] k]. intros img Himg. destruct (IH img Himg) as (s & Hsk & Hsl & Hr).
    exists (S s). split_and!; [lia|cbn; lia|]. eapply recovers_eq; [exact Hr|]. by apply (apply_txns_ext _ _ (take s txs)).
  - intros img Himg. destruct (Hcrash img Himg) as [Hr|[_ Hr]].
    + exists 1%nat. split_and!; [by right|cbn; lia|done].
    + exists 0%nat. split_and!; [by left|lia|done].
Qed.

(** ** A small disk *)
Definition demo_base : Z := 100.
Definition demo_size : Z := 170.
Definition demo_sb : block :=
  let b := splice zero_page 0 (le 8 GRAHAFS_V2_SB_MAGIC) in
  let b := splice b 8 (le 4 2) in
  let b := splice b 64 (le 8 demo_base) in
  let b := splice b 72 (le 4 demo_size) in
  sb_seal b.
Definition demo_disk : disk := {[ 0 := demo_sb ]}.
Definition demo_device : device := Device demo_disk [] [].
Definition demo_journal : journal := journal_subsystem_init demo_sb.
Definition demo_block (x : Z) : block := x :: replicate 4095 0.
Definition demo_tx : list (Z * Z * block) := [(5, 0, demo_block 1)].
#[global] Arguments demo_sb : simpl never.
#[global] Arguments demo_block : simpl never.

Lemma blk_demo l : l <> 0 -> blk demo_disk l = zero_page.
Proof. intros. unfold blk, demo_disk. by rewrite lookup_singleton_ne. Qed.

Lemma forallb_bytes b : forallb (fun x => (0 <=? x) && (x <? 256)) b = true -> wf_bytes b.
Proof. intros H. apply Forall_forall. intros x Hx%list_elem_of_In. apply (proj1 (forallb_forall _ _) H) in Hx. unfold in_u. lia. Qed.

Lemma demo_settled : settled demo_base demo_size demo_journal demo_device (next_txn_id demo_journal).
Proof.
  split; try by vm_compute.
  - intros l b Hin. by apply elem_of_nil in Hin.
  - assert (blk (durable demo_device) 0 = demo_sb) as -> by done. split; [split|]; try by vm_compute.
    apply forallb_bytes. by vm_compute.
  - intros l Hl. unfold demo_base in *. cbn [durable demo_device]. rewrite blk_demo by lia. by vm_compute.
  - intros l Hl. unfold demo_base in *. cbn [durable demo_device]. rewrite blk_demo by lia. by vm_compute.
Qed.

Lemma span_2 m l : span m l 2 = [blk m l; blk m (l + 1)].
Proof. unfold span. cbn. by rewrite Z.add_0_r. Qed.

Definition demo_txn : journal_txn := staged demo_journal demo_tx.

Lemma demo_txn_ok : txn_ok demo_base (demo_base + demo_size) demo_txn.
Proof.
  split; [done|change (1 <= 168)%nat; lia|by vm_compute|]. change (refs demo_txn) with [Block_ref 5 0 (demo_block 1)].
  apply list.Forall_singleton. split; try by vm_compute.
  - unfold is_home, demo_base; cbn. lia.
  - apply forallb_bytes. by vm_compute.
Qed.

Lemma demo_no_collision : no_collision demo_base (demo_base + demo_size) (durable demo_device) demo_txn.
Proof.
  intros img Himg. split.
  { intros n Hs. pose proof (sh_magic _ _ _ _ Hs) as Hm. cbn [durable demo_device] in Hm. rewrite blk_demo in Hm by done.
    exfalso. vm_compute in Hm. discriminate Hm. }
  cbv zeta. unfold crc_span. rewrite (new_span demo_base demo_size) by (try apply demo_txn_ok; done).
  change (length (refs demo_txn)) with 1%nat. rewrite span_2. set (bg := begin_block _ _ _).
  assert (blk img 100 = zero_page \/ blk img 100 = bg) as H0.
  { destruct (Himg 100) as [E|Hin]; [done|left; by rewrite E, blk_demo|right].
    apply (journal_writes_in demo_base demo_size) in Hin as [[_ E]|[(i & r & _ & E & _)|[E _]]];
      try apply demo_txn_ok; try done; unfold demo_base in *; lia. }
  assert (blk img 101 = zero_page \/ blk img 101 = demo_block 1) as H1.
  { destruct (Himg 101) as [E|Hin]; [done|left; by rewrite E, blk_demo|right].
    apply (journal_writes_in demo_base demo_size) in Hin as [[E _]|[(i & r & Er & E & ->)|[E _]]];
      try apply demo_txn_ok; try done; unfold demo_base in *.
    assert (i = 0%nat) as -> by lia. by injection Er as <-. }
  change demo_base with 100 in *. change (100 + 1) with 101. change (map payload (refs demo_txn)) with [demo_block 1].
  destruct H0 as [->| ->], H1 as [->| ->]; intros E; [..|reflexivity]; exfalso; vm_compute in E; discriminate E.
Qed.

Lemma journal_atomic_witness :
  let '(_, d', k) := run_txns demo_journal demo_device [demo_tx] in
  forall img, crash_image d' img ->
  exists s, (s = k \/ s = S k) /\ (s <= 1)%nat /\
    recovers demo_base (demo_base + demo_size) img (apply_txns (take s [demo_tx]) demo_disk).
Proof.
  apply (journal_atomic demo_base demo_size [demo_tx]); try by vm_compute.
  - apply demo_settled.
  - split_and!; [done|cbn; lia| |apply demo_no_collision|].
    + apply Forall_singleton. pose proof (to_refs _ _ _ demo_txn_ok) as H. by apply Forall_cons in H as [? _].
    + by destruct (run_txn _ _ _) as [[] ].
Defined.
