(* ===== verification/JournalFaults.v ===== *)
(** * Where the journal is not atomic

    Concrete runs outside the hypotheses of [JournalCrash]: power loss after a mount that
    replayed, staged blocks that imitate journal records, and transaction numbers that
    are used again after a power loss. *)
From S2P Require Import Prelude Bytes Crc32 BlockDev Journal JournalCrash.
Local Open Scope Z_scope.

(** The device after a mount of [m], with the given replies to what follows. *)
Definition mounted (m : disk) (replies : list bool) : journal * device :=
  match mount_journal true 0 (Device m [] []) with
  | Some (j, d, _) => (j, Device (durable d) (cache d) replies)
  | None => (demo_journal, Device m [] replies)
  end.

(** The block at [lba] as read after mounting [m], and the result of the mount. *)
Definition block_after_mount (m : disk) (lba : Z) : option (block * Z) :=
  match mount_journal true 0 (Device m [] []) with
  | Some (_, d, rc) => Some (blk (view d) lba, rc)
  | None => None
  end.

Definition same_block (a b : block) : bool := bool_decide (a = b).

(** ** Replay does not flush

    A transaction writes blocks 5 and 6; power is lost when its journal records are
    durable and nothing is at home.  The next mount replays it into the cache.  Then the
    next transaction starts: its begin block overwrites the journal, and power is lost
    again when that write and the one of block 5 are durable. *)
Definition tear_tx : list (Z * Z * block) := [(5, 0, demo_block 1); (6, 0, demo_block 2)].

(** Five requests succeed: four journal writes, the flush, no home write. *)
Definition torn_first : device :=
  let '(_, d, _) := run_txn demo_journal (Device demo_disk [] (replicate 5 true ++ replicate 9 false)) tear_tx in d.

(** Mounted again; of the next transaction only the begin block is accepted. *)
Definition torn_second : device :=
  let jd := mounted (durable torn_first) (true :: replicate 9 false) in
  snd (fst (run_txn (fst jd) (snd jd) [(7, 0, demo_block 3)])).

Definition second_begin : block := default zero_page (snd <$> cache torn_second !! 3%nat).
Definition torn_image : disk := <[5 := demo_block 1]> (<[100 := second_begin]> (durable torn_second)).

Lemma same_block_eq a b : same_block a b = true -> a = b.
Proof. apply bool_decide_eq_true_1. Qed.

Lemma blk_eq m l b : same_block (blk m l) b = true -> blk m l = b.
Proof. apply same_block_eq. Qed.

(** Equality of an optional block with a known one, by evaluating the comparison only. *)
Definition is_block (o : option (block * Z)) (b : block) : bool :=
  match o with Some (a, rc) => same_block a b && (rc =? 0) | None => false end.

Lemma is_block_eq o b : is_block o b = true -> o = Some (b, 0).
Proof. destruct o as [[a rc]|]; [|done]. cbn. intros [E%same_block_eq E'%Z.eqb_eq]%andb_true_iff. congruence. Qed.

(** The write at place [i] of the cache. *)
Definition cached (d : device) (i : nat) (l : Z) (b : block) : bool :=
  match cache d !! i with Some (l', b') => (l' =? l) && same_block b' b | None => false end.

Lemma cached_in d i l b : cached d i l b = true -> (l, b) ∈ cache d.
Proof.
  unfold cached. destruct (cache d !! i) as [[l' b']|] eqn:E; [|done].
  intros [<-%Z.eqb_eq <-%same_block_eq]%andb_true_iff. by eapply list_elem_of_lookup_2.
Qed.

Lemma torn_image_possible : crash_image torn_second torn_image.
Proof.
  intros l. unfold torn_image. destruct (decide (l = 5)) as [->|H5].
  { right. rewrite blk_insert_eq. apply (cached_in _ 0). by vm_compute. }
  rewrite blk_insert_ne by done. destruct (decide (l = 100)) as [->|H0].
  { right. rewrite blk_insert_eq. apply (cached_in _ 3). by vm_compute. }
  left. by rewrite blk_insert_ne.
Qed.

(** The mount that replays a transaction does not flush, so a second power loss can
    tear it.  A transaction that writes blocks 5 and 6 is complete in the journal, and
    mounting the disk shows both; yet if the next transaction starts after that mount
    and power is lost, a possible disk has block 5 and not block 6, and mounting it
    succeeds and leaves it so. *)
Theorem replay_not_flushed :
  block_after_mount (durable torn_first) 5 = Some (demo_block 1, 0) /\
  block_after_mount (durable torn_first) 6 = Some (demo_block 2, 0) /\
  crash_image torn_second torn_image /\
  block_after_mount torn_image 5 = Some (demo_block 1, 0) /\
  block_after_mount torn_image 6 = Some (zero_page, 0).
Proof.
  split_and!; try (apply is_block_eq; by vm_compute). apply torn_image_possible.
Qed.

(** ** Staged blocks that look like records

    A file is written whose third, fourth and fifth blocks are a begin block for block 7,
    its staged block and a commit block.  After one more, shorter, transaction the scan
    of the next mount steps over that one and lands on the first of them. *)
Definition forged_txn : journal_txn := Journal_txn 77 0 0 0 [Block_ref 7 0 (demo_block 66)].
Definition forged_begin : block := begin_block forged_txn 103 3.
Definition forged_tx : list (Z * Z * block) :=
  [(20, 0, demo_block 1); (21, 0, demo_block 2); (22, 0, forged_begin); (23, 0, demo_block 66);
   (24, 0, commit_block 77 (txn_crc forged_begin forged_txn))].
Definition small_tx : list (Z * Z * block) := [(25, 0, demo_block 3)].
Definition forged_run : device * nat :=
  let '(_, d, k) := run_txns demo_journal demo_device [forged_tx; small_tx] in (d, k).

(** File contents can be replayed as a transaction.  Two ordinary transactions, one of
    which writes file blocks 20 to 24 with chosen contents and none of which writes block
    7, both succeed and everything is flushed; the next mount overwrites block 7 with a
    block chosen by the file. *)
Theorem file_data_replayed :
  snd forged_run = 2%nat /\ map fst (cache (fst forged_run)) = [] /\
  same_block (blk (durable (fst forged_run)) 7) zero_page = true /\
  block_after_mount (durable (fst forged_run)) 7 = Some (demo_block 66, 0).
Proof. split_and!; try (apply is_block_eq); by vm_compute. Qed.

(** ** Transaction numbers used again

    The superblock is written every 64 commits, so the mount after a power loss gives out
    numbers again.  Transaction 1 writes three blocks and transaction 2 one; power is
    lost.  After the mount transaction 1 is given out again, for the same three blocks,
    with a new third one, and power is lost when its begin block and its first two
    blocks are in the journal: the old commit block closes it over the old third block. *)
Definition reuse_old : list (Z * Z * block) := [(5, 0, demo_block 1); (6, 0, demo_block 2); (7, 0, demo_block 3)].
Definition reuse_new : list (Z * Z * block) := [(5, 0, demo_block 1); (6, 0, demo_block 2); (7, 0, demo_block 4)].
Definition reuse_between : list (list (Z * Z * block)) := [[(5, 0, demo_block 8)]].
Definition reuse_first : device * nat :=
  let '(_, d, k) := run_txns demo_journal demo_device (reuse_old :: reuse_between) in (d, k).
(** A mount, a flush, and three journal writes of the new transaction, which are then durable. *)
Definition reuse_second : device :=
  let jd := mounted (durable (fst reuse_first)) [] in
  snd (fst (run_txn (fst jd) (Device (view (snd jd)) [] (replicate 3 true ++ replicate 9 false)) reuse_new)).
Definition reuse_image : disk := view reuse_second.

Lemma view_possible d : crash_image d (view d).
Proof. intros l. apply apply_writes_cases. Qed.

(** The comment in [journal_txn_commit] calls the reuse of numbers benign.  Here block 5
    holds 8 and block 7 holds 3 before the last transaction, which writes 1 and 4 there;
    after the power loss the mount leaves 1 and 3: neither the old nor the new state. *)
Theorem reused_number_mixes :
  snd reuse_first = 2%nat /\
  block_after_mount (durable (fst reuse_first)) 5 = Some (demo_block 8, 0) /\
  block_after_mount (durable (fst reuse_first)) 7 = Some (demo_block 3, 0) /\
  crash_image reuse_second reuse_image /\
  block_after_mount reuse_image 5 = Some (demo_block 1, 0) /\
  block_after_mount reuse_image 7 = Some (demo_block 3, 0).
Proof.
  split_and!; try (apply is_block_eq; by vm_compute); [by vm_compute|]. apply view_possible.
Qed.
