(* ===== verification/GrahaFs.v ===== *)
(** * GrahaFS v2: inodes, block tree, allocation, files and directories
    (kernel/fs/grahafs_v2.c)

    The globals are one record threaded by [StateM]: the in-memory superblock, the inode
    cache, the cluster table, the journal, the disk.  The append lock admits one
    transaction at a time, so the open transaction is a field of the state.  Operations
    are run one after another; the spinlocks around the fields they share are not
    visible then.  Inodes, directory blocks and bitmap blocks are byte lists with the
    layout of kernel/fs/grahafs_v2.h.

    Disk failures come from [BlockDev], and [mem] answers the requests for memory: both
    are arbitrary streams.  A pointer to a cache entry is its index; node pointers are
    not null.  Loops whose bound is a byte count carry fuel, and [complete] in FsSafety
    shows that it never runs out. *)
From S2P Require Import Prelude Bytes Crc32 Cluster BlockDev Journal StateM.
Local Open Scope Z_scope.
Local Open Scope c_scope.

Abbreviation GRAHAFS_V2_BLOCK_SIZE := 4096.
Abbreviation GRAHAFS_V2_INODE_SIZE := 512.
Abbreviation GRAHAFS_V2_INODES_PER_BLOCK := 8.
Abbreviation GRAHAFS_V2_INODE_MAGIC := 0x1203A1FE.
Abbreviation GRAHAFS_V2_TYPE_FILE := 1.
Abbreviation GRAHAFS_V2_TYPE_DIRECTORY := 2.
Abbreviation GRAHAFS_V2_DIRECT_BLOCKS := 12.
Abbreviation GRAHAFS_V2_INDIRECT_PTRS := 1024.
Abbreviation INODE_CACHE_SLOTS := 256.
Abbreviation V2_DIRENTS_PER_BLOCK := 128.
Abbreviation CLUSTER_REBUILD_EMPTY_RUN := 128.
Abbreviation VFS_FILE := 1.
Abbreviation VFS_DIRECTORY := 2.
Abbreviation VFS_MAX_NAME := 256.

(** ** Layouts *)

(** Superblock fields besides those of [Journal]. *)
Definition sb_total_blocks (b : block) : Z := field b 16 4.
Definition sb_bitmap_start (b : block) : Z := field b 20 4.
Definition sb_bitmap_blocks (b : block) : Z := field b 24 4.
Definition sb_inode_table_start (b : block) : Z := field b 28 4.
Definition sb_inode_count_max (b : block) : Z := field b 36 4.
Definition sb_data_start (b : block) : Z := field b 40 4.
Definition sb_free_blocks (b : block) : Z := field b 96 4.
Definition sb_free_inodes (b : block) : Z := field b 100 4.

(** An inode is the list of its 512 bytes. *)
Abbreviation inode := (list Z).
Definition i_magic (i : inode) : Z := field i 0 4.
Definition i_type (i : inode) : Z := field i 4 2.
Definition i_size (i : inode) : Z := field i 24 8.
Definition i_blocks_allocated (i : inode) : Z := field i 32 8.
Definition i_modification_time (i : inode) : Z := field i 48 8.
Definition i_direct (i : inode) (k : nat) : Z := field i (64 + 4 * k) 4.
Definition i_indirect (i : inode) : Z := field i 112 4.
Definition i_double (i : inode) : Z := field i 116 4.
Definition i_tags (i : inode) : list Z := take 27 (drop 168 i).
Definition i_simhash (i : inode) : Z := field i 264 8.
Definition i_cluster_id (i : inode) : Z := field i 328 4.
Definition i_checksum (i : inode) : Z := field i 368 4.

Definition set_size (i : inode) (x : Z) : inode := splice i 24 (le 8 x).
Definition set_blocks_allocated (i : inode) (x : Z) : inode := splice i 32 (le 8 x).
Definition set_direct (i : inode) (k : nat) (lba : Z) : inode := splice i (64 + 4 * k) (le 4 lba).
Definition set_indirect (i : inode) (lba : Z) : inode := splice i 112 (le 4 lba).
Definition set_double (i : inode) (lba : Z) : inode := splice i 116 (le 4 lba).
Definition one_more_block (i : inode) : inode := set_blocks_allocated i (u64 (i_blocks_allocated i + 1)).
Definition modified (i : inode) : inode := splice i 48 (le 8 (u64 (i_modification_time i + 1))).

Definition inode_checksum (i : inode) : Z := crc32_buf (take 368 i).

(** [checksum_inode = 0; checksum_inode = inode_checksum(...)]. *)
Definition seal_inode (i : inode) : inode :=
  let i := splice i 368 (le 4 0) in splice i 368 (le 4 (inode_checksum i)).

(** Entry [k] of a block of 32-bit block numbers. *)
Definition slot (b : block) (k : nat) : Z := field b (4 * k) 4.
Definition set_slot (b : block) (k : nat) (lba : Z) : block := splice b (4 * k) (le 4 lba).

(** ** State *)
Record inode_cache := Inode_cache {
  ic_live : bool; ic_inode_num : Z; ic_disk : inode; ic_dirty : bool; pinned_readers : Z }.

Definition no_entry : inode_cache := Inode_cache false 0 (replicate 512 0) false 0.
Definition empty_cache : list inode_cache := replicate (Z.to_nat INODE_CACHE_SLOTS) no_entry.
#[global] Arguments empty_cache : simpl never.

Record fs := Fs {
  g_v2_mounted : bool; g_v2_sb : block; g_inode_cache : list inode_cache; g_inode_cache_used : Z;
  clusters : cluster_table; jnl : journal; txn : journal_txn; dev : device; mem : list bool }.

(** The node a caller holds. *)
Record vfs_node := Vfs_node { node_name : list Z; node_type : Z; node_inode : Z; node_size : Z }.

Definition set_sb (sb : block) (s : fs) : fs := {| s with g_v2_sb := sb |}.
Definition set_cache (c : list inode_cache) (s : fs) : fs := {| s with g_inode_cache := c |}.

(** ** Memory, disk and journal *)
Definition kmalloc : M fs bool := fun s =>
  Some ({| s with mem := tl (mem s) |}, default true (head (mem s))).

Definition grahafs_v2_block_read (lba : Z) : M fs (option block) := fun s =>
  let '(d, r) := dev_read (dev s) lba in Some ({| s with dev := d |}, r).

Definition grahafs_v2_block_write (lba : Z) (b : block) : M fs bool := fun s =>
  let '(d, ok) := dev_write (dev s) lba b in Some ({| s with dev := d |}, ok).

Definition grahafs_block_flush : M fs bool := fun s =>
  let '(d, ok) := dev_flush (dev s) in Some ({| s with dev := d |}, ok).

(** Whether a transaction was begun; waits for ever if the lock is held. *)
Definition txn_begin_with (ok : bool) : M fs bool := fun s =>
  match journal_txn_begin ok (jnl s) with
  | None => None
  | Some (j, None) => Some ({| s with jnl := j |}, false)
  | Some (j, Some t) => Some ({| s with jnl := j; txn := t |}, true)
  end.
Definition fs_txn_begin : M fs bool := ok ← kmalloc; txn_begin_with ok.

Definition txn_add_with (lba kind : Z) (b : block) (ok : bool) : M fs Z := fun s =>
  let '(t, rc) := journal_txn_add_block ok (txn s) lba kind b in Some ({| s with txn := t |}, rc).
Definition txn_add_block (lba kind : Z) (b : block) : M fs Z := ok ← kmalloc; txn_add_with lba kind b ok.

Definition fs_txn_abort : M fs unit := modify (fun s => {| s with jnl := journal_txn_abort (jnl s) |}).

Definition fs_txn_commit : M fs Z := fun s =>
  let '(j, d, rc) := journal_txn_commit (jnl s) (txn s) (dev s) in Some ({| s with jnl := j; dev := d |}, rc).

(** ** Inode cache *)
Definition inode_locate (sb : block) (inode_num : Z) : Z * nat :=
  let p := u32 (inode_num * GRAHAFS_V2_INODE_SIZE) in
  (u32 (sb_inode_table_start sb + p / GRAHAFS_V2_BLOCK_SIZE), Z.to_nat (p mod GRAHAFS_V2_BLOCK_SIZE)).

Definition holds (inode_num : Z) (e : inode_cache) : bool := ic_live e && (ic_inode_num e =? inode_num).

Definition pin (k : nat) : M fs unit := modify (fun s =>
  set_cache (alter (fun e => {| e with pinned_readers := u32 (pinned_readers e + 1) |}) k (g_inode_cache s)) s).

Definition install (k : nat) (inode_num : Z) (disk : inode) : M fs unit := modify (fun s =>
  {| s with g_inode_cache := <[k := Inode_cache true inode_num disk false 1]> (g_inode_cache s);
     g_inode_cache_used := u32 (g_inode_cache_used s + 1) |}).

Definition inode_cache_get (inode_num : Z) : M fs (option nat) :=
  s ← gets id;
  if negb (g_v2_mounted s) then mret None else
  match find_index (holds inode_num) (g_inode_cache s) with
  | Some k => pin k;; mret (Some k)
  | None =>
      let '(lba, off) := inode_locate (g_v2_sb s) inode_num in
      ok ← kmalloc;
      if negb ok then mret None else
      r ← grahafs_v2_block_read lba;
      match r with
      | None => mret None
      | Some b =>
          let disk := take 512 (drop off b) in
          if negb (i_magic disk =? GRAHAFS_V2_INODE_MAGIC) then mret None else
          if negb (inode_checksum disk =? i_checksum disk) then mret None else
          c ← gets g_inode_cache;
          match find_index (holds inode_num) c with
          | Some k => pin k;; mret (Some k)
          | None =>
              match find_index (fun e => negb (ic_live e)) c with
              | None => mret None
              | Some k => install k inode_num disk;; mret (Some k)
              end
          end
      end
  end.

Definition inode_cache_put (k : nat) : M fs unit := modify (fun s =>
  set_cache (alter (fun e => if pinned_readers e >? 0 then {| e with pinned_readers := pinned_readers e - 1 |} else e)
               k (g_inode_cache s)) s).

Definition entry (s : fs) (k : nat) : inode_cache := default no_entry (g_inode_cache s !! k).

(** [ce->disk = work], and with [dirty] also [ce->dirty = false]. *)
Definition store_inode (k : nat) (work : inode) (clean : bool) : M fs unit := modify (fun s =>
  set_cache (alter (fun e => {| e with ic_disk := work; ic_dirty := if clean then false else ic_dirty e |})
               k (g_inode_cache s)) s).

(** Copy of an inode, pinned only while it is taken. *)
Definition snapshot (inode_num : Z) : M fs (option inode) :=
  r ← inode_cache_get inode_num;
  match r with
  | None => mret None
  | Some k => e ← gets (fun s => entry s k); inode_cache_put k;; mret (Some (ic_disk e))
  end.

Definition inode_cache_flush_dirty (k : nat) : M fs Z :=
  s ← gets id;
  let e := entry s k in
  if negb (ic_dirty e) then mret 0 else
  let '(lba, off) := inode_locate (g_v2_sb s) (ic_inode_num e) in
  r ← grahafs_v2_block_read lba;
  match r with
  | None => mret (-5)
  | Some b =>
      let disk := seal_inode (ic_disk e) in
      store_inode k disk false;;
      ok ← fs_txn_begin;
      if negb ok then mret (-3) else
      rc ← txn_add_block lba JOURNAL_BLOCK_KIND_METADATA (splice b off disk);
      if negb (rc =? 0) then fs_txn_abort;; mret rc else
      rc ← fs_txn_commit;
      if negb (rc =? 0) then mret rc else
      store_inode k disk true;; mret 0
  end.

(** ** Block tree *)
Definition v2_indirect_lookup (indirect_lba : Z) (inner_idx : nat) : M fs Z :=
  if indirect_lba =? 0 then mret 0 else
  r ← grahafs_v2_block_read indirect_lba;
  mret (match r with Some b => slot b inner_idx | None => 0 end).

Definition v2_block_index_to_lba (ino : inode) (logical_block : Z) : M fs Z :=
  if logical_block <? GRAHAFS_V2_DIRECT_BLOCKS then mret (i_direct ino (Z.to_nat logical_block)) else
  let adj := logical_block - GRAHAFS_V2_DIRECT_BLOCKS in
  if adj <? GRAHAFS_V2_INDIRECT_PTRS then v2_indirect_lookup (i_indirect ino) (Z.to_nat adj) else
  let adj := adj - GRAHAFS_V2_INDIRECT_PTRS in
  if adj <? GRAHAFS_V2_INDIRECT_PTRS * GRAHAFS_V2_INDIRECT_PTRS then
    mid_lba ← v2_indirect_lookup (i_double ino) (Z.to_nat (adj / GRAHAFS_V2_INDIRECT_PTRS));
    v2_indirect_lookup mid_lba (Z.to_nat (adj mod GRAHAFS_V2_INDIRECT_PTRS))
  else mret 0.

(** ** Block bitmap *)
Definition bitmap_block_lba (sb : block) (block_num : Z) : option (Z * Z) :=
  if block_num >=? sb_total_blocks sb then None else
  let block_off := block_num / (8 * GRAHAFS_V2_BLOCK_SIZE) in
  if block_off >=? sb_bitmap_blocks sb then None else
  Some (sb_bitmap_start sb + block_off, block_num mod (8 * GRAHAFS_V2_BLOCK_SIZE)).

Definition bitmap_test (buf : block) (bit : Z) : bool :=
  has_flag (default 0 (get buf (bit / 8))) (1 <<. (bit mod 8)).

Definition bitmap_mark (buf : block) (bit : Z) (set : bool) : block :=
  let old := default 0 (get buf (bit / 8)) in
  upd buf (bit / 8) (u8 (if set then old |. (1 <<. (bit mod 8)) else old &. Z.lnot (1 <<. (bit mod 8)))).

Definition take_free_block (sb : block) : block :=
  if sb_free_blocks sb >? 0 then splice sb 96 (le 4 (sb_free_blocks sb - 1)) else sb.

(** The block of the bitmap is read again only when its number changes. *)
Definition bitmap_cached (cached : option (Z * block)) (lba : Z) : M fs (option block) :=
  match cached with
  | Some (cached_lba, buf) => if cached_lba =? lba then mret (Some buf) else grahafs_v2_block_read lba
  | None => grahafs_v2_block_read lba
  end.

(** [with_txn]: the transaction pointer is not null. *)
Definition bitmap_store (with_txn : bool) (lba : Z) (buf : block) : M fs bool :=
  if with_txn then rc ← txn_add_block lba JOURNAL_BLOCK_KIND_METADATA buf; mret (rc =? 0)
  else grahafs_v2_block_write lba buf.

(** The loop over block numbers from [i]; [n] are left. *)
Fixpoint allocate_loop (with_txn : bool) (n : nat) (i : Z) (cached : option (Z * block)) : M fs Z :=
  match n with
  | O => mret 0
  | S n =>
      sb ← gets g_v2_sb;
      match bitmap_block_lba sb i with
      | None => allocate_loop with_txn n (i + 1) cached
      | Some (lba, bit) =>
          r ← bitmap_cached cached lba;
          match r with
          | None => mret 0
          | Some buf =>
              if bitmap_test buf bit then allocate_loop with_txn n (i + 1) (Some (lba, buf)) else
              ok ← bitmap_store with_txn lba (bitmap_mark buf bit true);
              if negb ok then mret 0 else
              modify (fun s => set_sb (take_free_block (g_v2_sb s)) s);; mret i
          end
      end
  end.

Definition v2_bitmap_allocate_block (with_txn : bool) : M fs Z :=
  s ← gets id;
  let sb := g_v2_sb s in
  if negb (g_v2_mounted s) then mret 0 else
  let start := sb_data_start sb in
  if (start =? 0) || (start >=? sb_total_blocks sb) then mret 0 else
  allocate_loop with_txn (Z.to_nat (sb_total_blocks sb - start)) start None.

Definition v2_bitmap_free_block (block_num : Z) : M fs Z :=
  sb ← gets g_v2_sb;
  if (block_num <? sb_data_start sb) || (block_num >=? sb_total_blocks sb) then mret (-22) else
  match bitmap_block_lba sb block_num with
  | None => mret (-22)
  | Some (lba, bit) =>
      r ← grahafs_v2_block_read lba;
      match r with
      | None => mret (-5)
      | Some buf =>
          ok ← grahafs_v2_block_write lba (bitmap_mark buf bit false);
          if negb ok then mret (-5) else
          modify (fun s => set_sb (splice (g_v2_sb s) 96 (le 4 (u32 (sb_free_blocks (g_v2_sb s) + 1)))) s);; mret 0
      end
  end.

(** ** Inode allocation and superblock *)
Fixpoint allocate_inode_loop (n : nat) (i : Z) : M fs Z :=
  match n with
  | O => mret 0
  | S n =>
      sb ← gets g_v2_sb;
      let '(lba, off) := inode_locate sb i in
      r ← grahafs_v2_block_read lba;
      match r with
      | None => allocate_inode_loop n (i + 1)
      | Some buf =>
          let ino := drop off buf in
          if (i_magic ino =? 0) && (i_type ino =? 0) then
            modify (fun s => if sb_free_inodes (g_v2_sb s) >? 0
              then set_sb (splice (g_v2_sb s) 100 (le 4 (sb_free_inodes (g_v2_sb s) - 1))) s else s);;
            mret i
          else allocate_inode_loop n (i + 1)
      end
  end.

Definition v2_allocate_inode : M fs Z :=
  s ← gets id;
  if negb (g_v2_mounted s) then mret 0 else
  allocate_inode_loop (Z.to_nat (sb_inode_count_max (g_v2_sb s) - 2)) 2.

Definition v2_write_superblock : M fs Z :=
  sb ← gets g_v2_sb;
  ok ← grahafs_v2_block_write 0 (sb_seal sb);
  mret (if ok : bool then 0 else -5).

(** ** Reading a file

    [acc] is the part of the buffer that is filled; the results are the buffer and the
    value returned. *)
Fixpoint read_loop (fuel : nat) (snap : inode) (to_read : Z) (acc : list Z) (block_index block_offset : Z)
  : M fs (list Z * Z) :=
  match fuel with
  | O => diverge
  | S fuel =>
      let bytes_read := Z.of_nat (length acc) in
      if negb (bytes_read <? to_read) then mret (acc, bytes_read) else
      lba ← v2_block_index_to_lba snap block_index;
      let chunk := Z.to_nat (Z.min (GRAHAFS_V2_BLOCK_SIZE - block_offset) (to_read - bytes_read)) in
      if lba =? 0 then read_loop fuel snap to_read (acc ++ replicate chunk 0) (u32 (block_index + 1)) 0 else
      r ← grahafs_v2_block_read lba;
      match r with
      | None => mret (acc, if bytes_read >? 0 then bytes_read else -5)
      | Some b =>
          read_loop fuel snap to_read (acc ++ take chunk (drop (Z.to_nat block_offset) b)) (u32 (block_index + 1)) 0
      end
  end.

(** Blocks touched by [n] bytes, rounded up. *)
Definition loop_fuel (n : Z) : nat := Z.to_nat (n / GRAHAFS_V2_BLOCK_SIZE + 3).

Definition is_file_or_dir (i : inode) : bool :=
  (i_type i =? GRAHAFS_V2_TYPE_FILE) || (i_type i =? GRAHAFS_V2_TYPE_DIRECTORY).

Definition grahafs_v2_read (node : vfs_node) (offset size : Z) : M fs (list Z * Z) :=
  mounted ← gets g_v2_mounted;
  if negb mounted then mret ([], -5) else
  if size =? 0 then mret ([], 0) else
  r ← snapshot (node_inode node);
  match r with
  | None => mret ([], -5)
  | Some snap =>
      if negb (is_file_or_dir snap) then mret ([], -22) else
      if offset >=? i_size snap then mret ([], 0) else
      let to_read := if u64 (offset + size) >? i_size snap then i_size snap - offset else size in
      read_loop (loop_fuel to_read) snap to_read [] (u32 (offset / GRAHAFS_V2_BLOCK_SIZE)) (offset mod GRAHAFS_V2_BLOCK_SIZE)
  end.

(** ** Writing a file *)

(** Allocates a block and stages it zeroed; 0 on failure. *)
Definition alloc_zeroed (kind : Z) : M fs Z :=
  b ← v2_bitmap_allocate_block true;
  if b =? 0 then mret 0 else
  txn_add_block b kind zero_page;; mret b.

(** Slot [k] of a staged pointer block at [lba]: allocates and stages the block with the
    slot set if it is empty.  Gives the number in the slot, 0 on failure, and whether a
    block was allocated. *)
Definition slot_alloc (lba : Z) (k : nat) (kind : Z) : M fs (Z * bool) :=
  r ← grahafs_v2_block_read lba;
  match r with
  | None => mret (0, false)
  | Some page =>
      if negb (slot page k =? 0) then mret (slot page k, false) else
      b ← alloc_zeroed kind;
      if b =? 0 then mret (0, false) else
      txn_add_block lba JOURNAL_BLOCK_KIND_METADATA (set_slot page k b);; mret (b, true)
  end.

Definition count_if (allocated : bool) (ino : inode) : inode := if allocated then one_more_block ino else ino.

(** The inode is a local copy of the caller; it is returned as changed. *)
Definition v2_block_index_to_lba_alloc (ino : inode) (logical_block : Z) : M fs (inode * Z) :=
  if logical_block <? GRAHAFS_V2_DIRECT_BLOCKS then
    let k := Z.to_nat logical_block in
    if i_direct ino k =? 0 then
      b ← alloc_zeroed JOURNAL_BLOCK_KIND_DATA;
      if b =? 0 then mret (ino, 0) else
      mret (one_more_block (set_direct ino k b), b)
    else mret (ino, i_direct ino k)
  else
  let adj := logical_block - GRAHAFS_V2_DIRECT_BLOCKS in
  if adj <? GRAHAFS_V2_INDIRECT_PTRS then
    ib ← (if i_indirect ino =? 0 then alloc_zeroed JOURNAL_BLOCK_KIND_METADATA else mret (i_indirect ino));
    if ib =? 0 then mret (ino, 0) else
    let ino := if i_indirect ino =? 0 then one_more_block (set_indirect ino ib) else ino in
    r ← slot_alloc ib (Z.to_nat adj) JOURNAL_BLOCK_KIND_DATA;
    mret (count_if (snd r) ino, fst r)
  else
  let adj := adj - GRAHAFS_V2_INDIRECT_PTRS in
  if adj <? GRAHAFS_V2_INDIRECT_PTRS * GRAHAFS_V2_INDIRECT_PTRS then
    outer_lba ← (if i_double ino =? 0 then alloc_zeroed JOURNAL_BLOCK_KIND_METADATA else mret (i_double ino));
    if outer_lba =? 0 then mret (ino, 0) else
    let ino := if i_double ino =? 0 then one_more_block (set_double ino outer_lba) else ino in
    mid ← slot_alloc outer_lba (Z.to_nat (adj / GRAHAFS_V2_INDIRECT_PTRS)) JOURNAL_BLOCK_KIND_METADATA;
    let ino := count_if (snd mid) ino in
    if fst mid =? 0 then mret (ino, 0) else
    r ← slot_alloc (fst mid) (Z.to_nat (adj mod GRAHAFS_V2_INDIRECT_PTRS)) JOURNAL_BLOCK_KIND_DATA;
    mret (count_if (snd r) ino, fst r)
  else mret (ino, 0).

(** Overlays the inode on the pending block if its table block is already staged. *)
Definition restage (refs : list block_ref) (lba : Z) (off : nat) (disk_copy : inode) : option (list block_ref) :=
  match find_index (fun r => lba_target r =? lba) refs with
  | Some k => Some (alter (fun r => {| r with payload := splice (payload r) off disk_copy |}) k refs)
  | None => None
  end.

Definition journal_stage_inode (inode_num : Z) (disk_copy : inode) : M fs Z :=
  s ← gets id;
  let '(lba, off) := inode_locate (g_v2_sb s) inode_num in
  match restage (refs (txn s)) lba off disk_copy with
  | Some rs => modify (fun s => let t := txn s in {| s with txn := {| t with refs := rs |} |});; mret 0
  | None =>
      r ← grahafs_v2_block_read lba;
      match r with
      | None => mret (-5)
      | Some blk => txn_add_block lba JOURNAL_BLOCK_KIND_METADATA (splice blk off disk_copy)
      end
  end.

(** The bytes [c] at an offset of a block: read if the block is not written whole, and
    staged. *)
Definition stage_chunk (lba block_offset : Z) (c : list Z) : M fs Z :=
  old ← (if negb (block_offset =? 0) || negb (Z.of_nat (length c) =? GRAHAFS_V2_BLOCK_SIZE)
         then grahafs_v2_block_read lba else mret (Some zero_page));
  match old with
  | None => mret (-5)
  | Some blk => txn_add_block lba JOURNAL_BLOCK_KIND_DATA (splice blk (Z.to_nat block_offset) c)
  end.

(** The loop of [grahafs_v2_write] over the blocks, with the bytes still to write.  On
    failure it gives the value to return, after which the transaction is aborted. *)
Fixpoint write_loop (fuel : nat) (work : inode) (data : list Z) (bytes_written : Z) (block_index block_offset : Z)
  : M fs (inode + Z) :=
  match fuel with
  | O => diverge
  | S fuel =>
      if decide (data = []) then mret (inl work) else
      r ← v2_block_index_to_lba_alloc work block_index;
      let '(work, lba) := r in
      if lba =? 0 then mret (inr (if bytes_written >? 0 then bytes_written else -28)) else
      let chunk := Nat.min (Z.to_nat (GRAHAFS_V2_BLOCK_SIZE - block_offset)) (length data) in
      rc ← stage_chunk lba block_offset (take chunk data);
      if negb (rc =? 0) then mret (inr rc) else
      write_loop fuel work (drop chunk data) (bytes_written + Z.of_nat chunk) (u32 (block_index + 1)) 0
  end.

(** Size, time and checksum after writing up to [new_size]. *)
Definition finish_inode (work : inode) (new_size : Z) : inode :=
  seal_inode (modified (if new_size >? i_size work then set_size work new_size else work)).

Definition grahafs_v2_write (node : vfs_node) (offset : Z) (buffer : list Z) : M fs (vfs_node * Z) :=
  mounted ← gets g_v2_mounted;
  if negb mounted then mret (node, -5) else
  let size := Z.of_nat (length buffer) in
  if size =? 0 then mret (node, 0) else
  r ← inode_cache_get (node_inode node);
  match r with
  | None => mret (node, -5)
  | Some ce =>
      e ← gets (fun s => entry s ce);
      let work := ic_disk e in
      if negb (is_file_or_dir work) then inode_cache_put ce;; mret (node, -22) else
      ok ← fs_txn_begin;
      if negb ok then inode_cache_put ce;; mret (node, -3) else
      w ← write_loop (loop_fuel size) work buffer 0 (u32 (offset / GRAHAFS_V2_BLOCK_SIZE)) (offset mod GRAHAFS_V2_BLOCK_SIZE);
      match w with
      | inr rc => fs_txn_abort;; inode_cache_put ce;; mret (node, rc)
      | inl work =>
          let new_size := u64 (offset + size) in
          let work := finish_inode work new_size in
          rc ← journal_stage_inode (node_inode node) work;
          if negb (rc =? 0) then fs_txn_abort;; inode_cache_put ce;; mret (node, rc) else
          rc ← fs_txn_commit;
          if negb (rc =? 0) then inode_cache_put ce;; mret (node, rc) else
          store_inode ce work true;;
          v2_write_superblock;;
          inode_cache_put ce;;
          mret ({| node with node_size := Z.max (node_size node) new_size |}, size)
      end
  end.

(** ** Directories *)
Fixpoint v2_strcmp (a b : list Z) : Z :=
  match a, b with
  | [], [] => 0
  | [], y :: _ => - y
  | x :: _, [] => x
  | x :: a, y :: b => if x =? y then v2_strcmp a b else x - y
  end.

(** The 28 bytes of a name, zero-padded. *)
Definition v2_strcpy (src : list Z) (dstsz : nat) : list Z :=
  let s := take (dstsz - 1) src in s ++ replicate (dstsz - length s) 0.

Definition dirent_inode (b : block) (i : nat) : Z := field b (32 * i) 4.
Definition dirent_name (b : block) (i : nat) : list Z := cstr (drop (32 * i + 4) b).
Definition set_dirent (b : block) (i : nat) (inode_num : Z) (name : list Z) : block :=
  splice b (32 * i) (le 4 inode_num ++ v2_strcpy name 28).

Definition dirents : list nat := seq 0 (Z.to_nat V2_DIRENTS_PER_BLOCK).
Definition free_dirent (b : block) : option nat := find_index (fun i => dirent_inode b i =? 0) dirents.
Definition find_dirent (b : block) (name : list Z) : option nat :=
  find_index (fun i => negb (dirent_inode b i =? 0) && (v2_strcmp (dirent_name b i) name =? 0)) dirents.

(** The directory's first block, allocated if there is none: the inode and the block
    number, 0 on failure. *)
Definition dir_block (dir : inode) : M fs (inode * Z) :=
  if i_direct dir 0 =? 0 then
    b ← alloc_zeroed JOURNAL_BLOCK_KIND_METADATA;
    mret (if b =? 0 then dir else one_more_block (set_direct dir 0 b), b)
  else mret (dir, i_direct dir 0).

(** The last steps of both changes to a directory: stage its block and its inode, and
    update the cache. *)
Definition dir_commit (ce : nat) (parent_inode : Z) (lba : Z) (blk : block) (dir : inode) : M fs Z :=
  rc ← txn_add_block lba JOURNAL_BLOCK_KIND_METADATA blk;
  if negb (rc =? 0) then inode_cache_put ce;; mret rc else
  rc ← journal_stage_inode parent_inode (seal_inode dir);
  if negb (rc =? 0) then inode_cache_put ce;; mret rc else
  store_inode ce (seal_inode dir) false;; inode_cache_put ce;; mret 0.

Definition v2_dir_add_entry (parent_inode : Z) (name : list Z) (child_inode : Z) : M fs Z :=
  r ← inode_cache_get parent_inode;
  match r with
  | None => mret (-5)
  | Some ce =>
      e ← gets (fun s => entry s ce);
      let dir := ic_disk e in
      if negb (i_type dir =? GRAHAFS_V2_TYPE_DIRECTORY) then inode_cache_put ce;; mret (-20) else
      db ← dir_block dir;
      let '(dir, lba) := db in
      if lba =? 0 then inode_cache_put ce;; mret (-28) else
      r ← grahafs_v2_block_read lba;
      match r with
      | None => inode_cache_put ce;; mret (-5)
      | Some blk =>
          match free_dirent blk with
          | None => inode_cache_put ce;; mret (-28)
          | Some k => dir_commit ce parent_inode lba (set_dirent blk k child_inode name) (set_size dir ((Z.of_nat k + 1) * 32))
          end
      end
  end.

(** Also gives the inode removed. *)
Definition v2_dir_remove_entry (parent_inode : Z) (name : list Z) : M fs (Z * Z) :=
  r ← inode_cache_get parent_inode;
  match r with
  | None => mret (-5, 0)
  | Some ce =>
      e ← gets (fun s => entry s ce);
      let dir := ic_disk e in
      if negb (i_type dir =? GRAHAFS_V2_TYPE_DIRECTORY) || (i_direct dir 0 =? 0)
      then inode_cache_put ce;; mret (-2, 0) else
      r ← grahafs_v2_block_read (i_direct dir 0);
      match r with
      | None => inode_cache_put ce;; mret (-5, 0)
      | Some blk =>
          match find_dirent blk name with
          | None => inode_cache_put ce;; mret (-2, 0)
          | Some k =>
              rc ← dir_commit ce parent_inode (i_direct dir 0) (set_dirent blk k 0 []) (modified dir);
              mret (rc, dirent_inode blk k)
          end
      end
  end.

(** The node made for entry [k] of a directory block; the memory for it may be missing. *)
Definition dirent_node (blk : block) (k : nat) : M fs (option vfs_node) :=
  r ← snapshot (dirent_inode blk k);
  match r with
  | None => mret None
  | Some found =>
      ok ← kmalloc;
      mret (if ok : bool then
              Some (Vfs_node (take (Z.to_nat (VFS_MAX_NAME - 1)) (dirent_name blk k))
                 (if i_type found =? GRAHAFS_V2_TYPE_DIRECTORY then VFS_DIRECTORY else VFS_FILE)
                 (dirent_inode blk k) (i_size found))
            else None)
  end.

(** The directory block of a node, if it is a directory with one. *)
Definition node_block (node : vfs_node) : M fs (option block) :=
  mounted ← gets g_v2_mounted;
  if negb mounted then mret None else
  r ← snapshot (node_inode node);
  match r with
  | None => mret None
  | Some dir =>
      if negb (i_type dir =? GRAHAFS_V2_TYPE_DIRECTORY) || (i_direct dir 0 =? 0) then mret None
      else grahafs_v2_block_read (i_direct dir 0)
  end.

Definition grahafs_v2_finddir (node : vfs_node) (name : list Z) : M fs (option vfs_node) :=
  r ← node_block node;
  match r ≫= fun blk => (blk,.) <$> find_dirent blk name with
  | Some (blk, k) => dirent_node blk k
  | None => mret None
  end.

Definition grahafs_v2_readdir (node : vfs_node) (index : Z) : M fs (option vfs_node) :=
  r ← node_block node;
  match r ≫= fun blk => (blk,.) <$> get (List.filter (fun i => negb (dirent_inode blk i =? 0)) dirents) index with
  | Some (blk, k) => dirent_node blk k
  | None => mret None
  end.

(** ** Creating, truncating, removing *)
Definition fresh_inode (type : Z) : inode :=
  let dir := type =? VFS_DIRECTORY in
  le 4 GRAHAFS_V2_INODE_MAGIC ++ le 2 (if dir then GRAHAFS_V2_TYPE_DIRECTORY else GRAHAFS_V2_TYPE_FILE) ++
  le 2 (if dir then 2 else 1) ++ le 4 0 ++ le 4 0 ++ le 4 (if dir then 493 else 420) ++ replicate 492 0.

(** The block of a new directory with its two entries, and the inode with it; [inr] is
    the value to return. *)
Definition new_directory (new_ino parent_inode : Z) (fresh : inode) : M fs (inode + Z) :=
  b ← v2_bitmap_allocate_block true;
  if b =? 0 then mret (inr (-28)) else
  rc ← txn_add_block b JOURNAL_BLOCK_KIND_METADATA
         (set_dirent (set_dirent zero_page 0 new_ino [46]) 1 parent_inode [46; 46]);
  if negb (rc =? 0) then mret (inr rc) else
  mret (inl (set_size (set_blocks_allocated (set_direct fresh 0 b) 1) 64)).

Definition grahafs_v2_create (parent : vfs_node) (name : list Z) (type : Z) : M fs Z :=
  mounted ← gets g_v2_mounted;
  if negb mounted then mret (-22) else
  if (length name =? 0)%nat || (28 <=? length name)%nat then mret (-22) else
  if negb (type =? VFS_FILE) && negb (type =? VFS_DIRECTORY) then mret (-22) else
  new_ino ← v2_allocate_inode;
  if new_ino =? 0 then mret (-28) else
  ok ← fs_txn_begin;
  if negb ok then mret (-3) else
  r ← (if type =? VFS_DIRECTORY then new_directory new_ino (node_inode parent) (fresh_inode type)
       else mret (inl (fresh_inode type)));
  match r with
  | inr rc => fs_txn_abort;; mret rc
  | inl fresh =>
      rc ← journal_stage_inode new_ino (seal_inode fresh);
      if negb (rc =? 0) then fs_txn_abort;; mret rc else
      rc ← v2_dir_add_entry (node_inode parent) name new_ino;
      if negb (rc =? 0) then fs_txn_abort;; mret rc else
      rc ← fs_txn_commit;
      if negb (rc =? 0) then mret rc else
      v2_write_superblock;; grahafs_block_flush;; mret 0
  end.

(** Free each block that is not 0; the results are ignored. *)
Fixpoint free_blocks (lbas : list Z) : M fs unit :=
  match lbas with
  | [] => mret tt
  | lba :: lbas => if lba =? 0 then free_blocks lbas else v2_bitmap_free_block lba;; free_blocks lbas
  end.

Definition direct_blocks (ino : inode) : list Z := map (i_direct ino) (seq 0 12).
Definition slots (b : block) : list Z := map (slot b) (seq 0 1024).

(** An indirect block: the blocks it lists, then itself. *)
Definition free_indirect (lba : Z) : M fs unit :=
  if lba =? 0 then mret tt else
  r ← grahafs_v2_block_read lba;
  match r with Some b => free_blocks (slots b) | None => mret tt end;;
  v2_bitmap_free_block lba;; mret tt.

Fixpoint free_indirects (lbas : list Z) : M fs unit :=
  match lbas with [] => mret tt | lba :: lbas => free_indirect lba;; free_indirects lbas end.

Definition free_double (lba : Z) : M fs unit :=
  if lba =? 0 then mret tt else
  r ← grahafs_v2_block_read lba;
  match r with Some b => free_indirects (slots b) | None => mret tt end;;
  v2_bitmap_free_block lba;; mret tt.

(** The inode without blocks. *)
Definition emptied (ino : inode) : inode :=
  seal_inode (modified (set_blocks_allocated (set_size (set_double (set_indirect (splice ino 64 (replicate 48 0)) 0) 0) 0) 0)).

Definition grahafs_v2_truncate_inode (inode_num : Z) : M fs Z :=
  mounted ← gets g_v2_mounted;
  if negb mounted then mret (-22) else
  r ← inode_cache_get inode_num;
  match r with
  | None => mret (-5)
  | Some ce =>
      e ← gets (fun s => entry s ce);
      let work := ic_disk e in
      if negb (i_type work =? GRAHAFS_V2_TYPE_FILE) then inode_cache_put ce;; mret (-22) else
      ok ← fs_txn_begin;
      if negb ok then inode_cache_put ce;; mret (-3) else
      free_blocks (direct_blocks work);;
      free_indirect (i_indirect work);;
      free_double (i_double work);;
      let work := emptied work in
      rc ← journal_stage_inode inode_num work;
      if negb (rc =? 0) then fs_txn_abort;; inode_cache_put ce;; mret rc else
      rc ← fs_txn_commit;
      if negb (rc =? 0) then inode_cache_put ce;; mret rc else
      store_inode ce work false;; inode_cache_put ce;; v2_write_superblock;; mret 0
  end.

(** [memset(&child->disk, 0, ...); child->magic = 0]. *)
Definition evict (k : nat) : M fs unit := modify (fun s =>
  set_cache (alter (fun e => {| e with ic_live := false; ic_disk := replicate 512 0 |}) k (g_inode_cache s)) s).

(** The part of unlink that clears the inode of the entry removed. *)
Definition clear_child (removed : Z) : M fs unit :=
  r ← inode_cache_get removed;
  match r with
  | None => mret tt
  | Some child =>
      journal_stage_inode removed (replicate 512 0);;
      e ← gets (fun s => entry s child);
      free_blocks (direct_blocks (ic_disk e));;
      evict child;; inode_cache_put child;;
      modify (fun s => set_sb (splice (g_v2_sb s) 100 (le 4 (u32 (sb_free_inodes (g_v2_sb s) + 1)))) s)
  end.

Definition grahafs_v2_unlink (parent : vfs_node) (name : list Z) : M fs Z :=
  mounted ← gets g_v2_mounted;
  if negb mounted then mret (-22) else
  ok ← fs_txn_begin;
  if negb ok then mret (-3) else
  r ← v2_dir_remove_entry (node_inode parent) name;
  if negb (fst r =? 0) then fs_txn_abort;; mret (fst r) else
  clear_child (snd r);;
  rc ← fs_txn_commit;
  if negb (rc =? 0) then mret rc else
  v2_write_superblock;; mret 0.

Definition grahafs_v2_fsync (node : vfs_node) : M fs Z :=
  mounted ← gets g_v2_mounted;
  if negb mounted then mret (-22) else
  r ← inode_cache_get (node_inode node);
  match r with
  | None => mret (-5)
  | Some ce =>
      e ← gets (fun s => entry s ce);
      rc ← (if ic_dirty e then inode_cache_flush_dirty ce else mret 0);
      inode_cache_put ce;; grahafs_block_flush;; mret rc
  end.

(** ** Mounting

    The rebuild of the cluster table from the inode table: the inodes of one block, then
    the blocks until 128 in a row hold no inode. *)
Fixpoint rebuild_block (sb b : block) (n : nat) (i : Z) (ino : Z) (t : cluster_table) (any_alloc : bool)
  : cluster_table * bool :=
  match n with
  | O => (t, any_alloc)
  | S n =>
      if ino <? 2 then rebuild_block sb b n (i + 1) (u32 (ino + 1)) t any_alloc else
      if ino >=? sb_inode_count_max sb then (t, any_alloc) else
      let disk := take 512 (drop (Z.to_nat (i * GRAHAFS_V2_INODE_SIZE)) b) in
      if negb (i_magic disk =? GRAHAFS_V2_INODE_MAGIC) then rebuild_block sb b n (i + 1) (u32 (ino + 1)) t any_alloc else
      if (i_simhash disk =? 0) || (i_cluster_id disk =? 0)
      then rebuild_block sb b n (i + 1) (u32 (ino + 1)) t true else
      rebuild_block sb b n (i + 1) (u32 (ino + 1))
        (cluster_rebuild_add t ino (i_cluster_id disk) (i_simhash disk) (cstr (i_tags disk))) true
  end.

Fixpoint rebuild_clusters (sb : block) (n : nat) (blk_no : Z) (t : cluster_table) (empty_run : Z) : M fs cluster_table :=
  match n with
  | O => mret t
  | S n =>
      r ← grahafs_v2_block_read (sb_inode_table_start sb + blk_no);
      match r with
      | None => mret t
      | Some b =>
          let '(t, any_alloc) := rebuild_block sb b 8 0 (u32 (blk_no * GRAHAFS_V2_INODES_PER_BLOCK)) t false in
          if any_alloc then rebuild_clusters sb n (blk_no + 1) t 0 else
          if empty_run + 1 >=? CLUSTER_REBUILD_EMPTY_RUN then mret t else
          rebuild_clusters sb n (blk_no + 1) t (empty_run + 1)
      end
  end.

(** Replay with the state's journal, disk and superblock; reading past the references
    of a corrupt begin block has no result. *)
Definition replay_step (mem : bool) : M fs Z := fun s =>
  match journal_replay mem (jnl s) (dev s) (g_v2_sb s) with
  | None => None
  | Some (j, d, sb, rc) => Some ({| s with jnl := j; dev := d; g_v2_sb := sb |}, rc)
  end.

(** [segment_rc] is the result of [segment_subsystem_init]. *)
Definition grahafs_v2_mount (segment_rc : Z) : M fs Z :=
  r ← grahafs_v2_block_read 0;
  match r with
  | None => mret (-5)
  | Some sb =>
      if negb (sb_magic sb =? GRAHAFS_V2_SB_MAGIC) then mret (-126) else
      if negb (crc32_buf (take 152 sb) =? sb_checksum sb) then mret (-126) else
      if negb (sb_version sb =? 2) then mret (-126) else
      modify (fun s => {| s with g_v2_sb := sb; g_inode_cache := empty_cache; g_inode_cache_used := 0;
                          jnl := journal_subsystem_init sb |});;
      if negb (segment_rc =? 0) then mret segment_rc else
      ok ← kmalloc;
      rc ← replay_step ok;
      if negb (rc =? 0) then mret rc else
      modify (fun s => {| s with g_v2_mounted := true; clusters := cluster_init |});;
      ok ← kmalloc;
      sb ← gets g_v2_sb;
      t ← (if ok : bool then rebuild_clusters sb
             (Z.to_nat (u32 (sb_inode_count_max sb + GRAHAFS_V2_INODES_PER_BLOCK - 1) / GRAHAFS_V2_INODES_PER_BLOCK)) 0 cluster_init 0
           else mret cluster_init);
      modify (fun s => {| s with clusters := cluster_rebuild_finalize t |});;
      mret 0
  end.

(** [grahafs_v2_journal_replay]: again, on the mounted file system. *)
Definition grahafs_v2_journal_replay : M fs Z :=
  mounted ← gets g_v2_mounted;
  if negb mounted then mret (-19) else
  ok ← kmalloc; replay_step ok.
