(* ===== verification/FsDemo.v ===== *)
(** * A small GrahaFS v2 disk

    Blocks 1: bitmap, 2 and 3: sixteen inodes, 10 to 99: data, 100 to 269: journal.  The
    root directory is inode 1 with its entries in block 10. *)
From S2P Require Import Prelude Bytes Crc32 Cluster BlockDev Journal StateM GrahaFs.
Local Open Scope Z_scope.

Definition small_sb : block :=
  let b := splice zero_page 0 (le 8 GRAHAFS_V2_SB_MAGIC) in
  let b := splice b 8 (le 4 2) in
  let b := splice b 16 (le 4 100 ++ le 4 1 ++ le 4 1 ++ le 4 2 ++ le 4 2 ++ le 4 16 ++ le 4 10 ++ le 4 1) in
  let b := splice b 64 (le 8 100 ++ le 4 170) in
  let b := splice b 96 (le 4 89 ++ le 4 14) in
  sb_seal b.

Definition small_root : inode :=
  seal_inode (set_size (set_blocks_allocated (set_direct (fresh_inode VFS_DIRECTORY) 0 10) 1) 64).

Definition small_disk : disk :=
  {[ 0 := small_sb;
     1 := bitmap_mark zero_page 10 true;
     2 := splice zero_page 512 small_root;
     10 := set_dirent (set_dirent zero_page 0 1 [46]) 1 1 [46; 46] ]}.

Definition root_node : vfs_node := Vfs_node [47] VFS_DIRECTORY 1 64.

(** The globals before the mount; [d] is the disk and [m] the answers of the allocator. *)
Definition fs_boot (d : device) (m : list bool) : fs :=
  Fs false zero_page empty_cache 0 cluster_init (Journal 0 0 0 0 0 false 0 false) (Journal_txn 0 0 0 0 []) d m.

(** The state after a run, or the state itself. *)
Definition after {A} (m : M fs A) (s : fs) : fs := match m s with Some (s', _) => s' | None => s end.
Definition result {A} (m : M fs A) (s : fs) : option A := snd <$> m s.

Definition small_fs : fs := after (grahafs_v2_mount 0) (fs_boot (Device small_disk [] []) []).

Definition f_name : list Z := [102].
Definition f_node : vfs_node := Vfs_node f_name VFS_FILE 2 0.

(** A file system with one empty file, in inode 2. *)
Definition small_fs_f : fs := after (grahafs_v2_create root_node f_name VFS_FILE) small_fs.
