(* ===== verification/FsSafety.v ===== *)
(** * GrahaFS v2: every operation returns and keeps the state well formed

    Whatever the disk and the memory allocator answer, each file system operation comes
    to an end, releases the append lock and its pins on the inode cache, and keeps the
    types of what is stored: blocks of 4096 bytes, inodes of 512, one cache entry per
    inode. *)
From S2P Require Import Prelude Bytes Crc32 Cluster BlockDev Journal StateM GrahaFs FsDemo.
Local Open Scope Z_scope.

(** ** Byte arrays of a given size *)
Definition is_bytes (n : Z) (b : list Z) : Prop := Z.of_nat (length b) = n /\ wf_bytes b.
Abbreviation is_block := (is_bytes 4096).
Abbreviation is_inode := (is_bytes 512).

Lemma is_bytes_splice n b off s : is_bytes n b -> Z.of_nat (off + length s) <= n -> wf_bytes s -> is_bytes n (splice b off s).
Proof. intros [<- Hb] Hl Hs. split; [rewrite length_splice by lia; done|by apply wf_bytes_splice]. Qed.

Lemma is_bytes_splice_le n b off k x : is_bytes n b -> Z.of_nat (off + k) <= n -> is_bytes n (splice b off (le k x)).
Proof. intros Hb Hl. apply is_bytes_splice; [done|by rewrite length_le|apply le_bytes]. Qed.

Lemma is_bytes_zero n : is_bytes (Z.of_nat n) (replicate n 0).
Proof. split; [by rewrite length_replicate|apply wf_bytes_replicate]. Qed.

Lemma is_bytes_sub n k off b : is_bytes n b -> Z.of_nat (off + k) <= n -> is_bytes (Z.of_nat k) (take k (drop off b)).
Proof.
  intros [<- Hb] Hl. split; [rewrite length_take, length_drop; lia|]. by apply Forall_take, Forall_drop.
Qed.

Lemma wf_bytes_upd b i x : wf_bytes b -> wf_bytes (upd b i (u8 x)).
Proof. intros Hb. apply Forall_insert; [done|]. by apply wrap_bound. Qed.

Lemma is_block_mark b bit set : is_block b -> is_block (bitmap_mark b bit set).
Proof. intros [Hl Hb]. split; [unfold bitmap_mark; by rewrite length_upd|by apply wf_bytes_upd]. Qed.

Lemma is_block_slot b k lba : is_block b -> (k < 1024)%nat -> is_block (set_slot b k lba).
Proof. intros. apply is_bytes_splice_le; [done|lia]. Qed.

Lemma is_block_sb_seal b : is_block b -> is_block (sb_seal b).
Proof. intros. by do 2 (apply is_bytes_splice_le; [|lia]). Qed.

Lemma is_block_zero : is_block zero_page.
Proof. apply (is_bytes_zero 4096). Qed.

Lemma is_inode_seal i : is_inode i -> is_inode (seal_inode i).
Proof. intros. by do 2 (apply is_bytes_splice_le; [|lia]). Qed.

Lemma is_inode_direct i k lba : is_inode i -> (k < 12)%nat -> is_inode (set_direct i k lba).
Proof. intros. apply is_bytes_splice_le; [done|lia]. Qed.

Lemma length_strcpy s n : (0 < n)%nat -> length (v2_strcpy s n) = n.
Proof. intros. unfold v2_strcpy. rewrite length_app, length_replicate, length_take. lia. Qed.

Lemma is_block_dirent b k n name : is_block b -> (k < 128)%nat -> wf_bytes name -> is_block (set_dirent b k n name).
Proof.
  intros Hb Hk Hn. apply is_bytes_splice; [done|rewrite length_app, length_le, length_strcpy by lia; lia|].
  apply Forall_app. split; [apply le_bytes|]. apply Forall_app. split; [by apply Forall_take|apply wf_bytes_replicate].
Qed.

Create HintDb bytes.
#[export] Hint Resolve is_block_mark is_block_slot is_block_sb_seal is_block_zero is_inode_seal is_inode_direct is_block_dirent : bytes.
#[export] Hint Extern 2 (is_bytes _ (splice _ _ (le _ _))) => (apply is_bytes_splice_le; [|lia]) : bytes.
#[export] Hint Extern 1 (is_bytes _ (set_size _ _)) => (apply is_bytes_splice_le; [|lia]) : bytes.
#[export] Hint Extern 1 (is_bytes _ (set_blocks_allocated _ _)) => (apply is_bytes_splice_le; [|lia]) : bytes.
#[export] Hint Extern 1 (is_bytes _ (set_indirect _ _)) => (apply is_bytes_splice_le; [|lia]) : bytes.
#[export] Hint Extern 1 (is_bytes _ (set_double _ _)) => (apply is_bytes_splice_le; [|lia]) : bytes.
#[export] Hint Extern 1 (is_bytes _ (one_more_block _)) => (apply is_bytes_splice_le; [|lia]) : bytes.
#[export] Hint Extern 1 (is_bytes _ (modified _)) => (apply is_bytes_splice_le; [|lia]) : bytes.

Lemma locate_off sb n : Z.of_nat (snd (inode_locate sb n)) + 512 <= 4096.
Proof.
  unfold inode_locate. cbn [snd]. assert (u32 (n * 512) mod 512 = 0) as E.
  { unfold wrap. rewrite (Z.mod_eq (n * 512) (2 ^ 32)) by lia. change (2 ^ 32) with (512 * 8388608).
    replace (n * 512 - 512 * 8388608 * (n * 512 / (512 * 8388608))) with
      ((n - 8388608 * (n * 512 / (512 * 8388608))) * 512) by lia. by apply Z.mod_mul. }
  pose proof (wrap_bound 32 (n * 512) ltac:(lia)) as Hu. unfold in_u in Hu. zlia.
Qed.

(** ** The disk *)
Definition wf_dev (d : device) : Prop :=
  (forall l b, (l, b) ∈ cache d -> is_block b) /\ (forall l b, durable d !! l = Some b -> is_block b).

Lemma view_block d l : wf_dev d -> is_block (blk (view d) l).
Proof.
  intros [Hc Hm]. destruct (apply_writes_cases (cache d) (durable d) l) as [E|E]; unfold view.
  - rewrite E. unfold blk. destruct (durable d !! l) as [b|] eqn:Eb; cbn; [by eapply Hm|apply is_block_zero].
  - by eapply Hc.
Qed.

Lemma read_wf d l d' r : wf_dev d -> dev_read d l = (d', r) -> wf_dev d' /\ forall b, r = Some b -> is_block b.
Proof.
  intros Hd [= <- <-]. split; [done|]. destruct (answer d); [|done]. intros b [= <-]. by apply view_block.
Qed.

Lemma write_wf d l b d' ok : wf_dev d -> is_block b -> dev_write d l b = (d', ok) -> wf_dev d'.
Proof.
  intros [Hc Hm] Hb. unfold dev_write. destruct (answer d); intros [= <- <-]; [|done].
  split; [|done]. cbn. intros l' b' [H|H]%elem_of_app; [by eapply Hc|].
  apply list_elem_of_singleton in H as [= -> ->]. done.
Qed.

Lemma flush_wf d d' ok : wf_dev d -> dev_flush d = (d', ok) -> wf_dev d'.
Proof.
  intros Hd. unfold dev_flush. destruct (answer d); intros [= <- <-]; [|done].
  split; cbn; [intros l b H; by apply elem_of_nil in H|]. intros l b H.
  enough (b = blk (view d) l) as -> by by apply view_block. unfold blk. by rewrite H.
Qed.

Lemma write_list_wf ws : forall d d' ok, wf_dev d -> Forall (fun w => is_block (snd w)) ws ->
  write_list d ws = (d', ok) -> wf_dev d'.
Proof.
  induction ws as [|[l b] ws IH]; intros d d' ok Hd Hws; cbn [write_list]; [by intros [= <- <-]|].
  inversion_clear Hws. destruct (dev_write d l b) as [d1 ok1] eqn:E. apply write_wf in E; [|done..].
  destruct ok1; [by apply IH|]. by intros [= <- <-].
Qed.

(** ** Transactions *)
Definition wf_txn (t : journal_txn) : Prop :=
  (length (refs t) <= 168)%nat /\ Forall (fun r => is_block (payload r)) (refs t).

Lemma commit_block_wf id c : is_block (commit_block id c).
Proof.
  unfold commit_block. split; [by rewrite !length_app, !length_le, length_replicate|].
  rewrite !Forall_app. repeat split; try apply le_bytes. apply wf_bytes_replicate.
Qed.

Lemma persist_wf j d : wf_dev d -> wf_dev (fst (persist_journal_head_to_sb j d)).
Proof.
  intros Hd. unfold persist_journal_head_to_sb, ahci_read_block, ahci_write_block.
  destruct (dev_read d 0) as [d1 r] eqn:E. apply read_wf in E as [Hd1 Hr]; [|done].
  destruct r as [sb|]; [|done]. destruct (negb _); [done|].
  destruct (dev_write d1 0 _) as [d2 ok] eqn:E. apply write_wf in E; [by destruct ok|done|].
  specialize (Hr sb eq_refl). auto 10 with bytes.
Qed.

Lemma barrier_wf j d j' d' rc : wf_dev d -> journal_barrier j d = (j', d', rc) -> wf_dev d'.
Proof.
  intros Hd. unfold journal_barrier. destruct (barrier_fault_inject j); [by intros [= <- <- <-]|].
  destruct (dev_flush d) as [d1 ok] eqn:E. apply flush_wf in E; [|done]. by intros [= <- <- <-].
Qed.

Lemma write_journal_wf d t b0 l0 l1 d' rc : wf_dev d -> wf_txn t -> is_block b0 ->
  write_journal d t l0 b0 l1 = (d', rc) -> wf_dev d'.
Proof.
  intros Hd [_ Ht] Hb. unfold write_journal, ahci_write_block.
  destruct (dev_write d l0 b0) as [d1 ok1] eqn:E1. apply write_wf in E1; [|done..].
  destruct ok1; cbn [Z.eqb negb]; [|by intros [= <- <-]].
  destruct (write_list d1 _) as [d2 ok2] eqn:E2. apply write_list_wf in E2; [|done|].
  - destruct ok2; cbn [negb]; [|by intros [= <- <-]]. destruct (dev_write d2 l1 _) as [d3 ok3] eqn:E3.
    apply write_wf in E3; [|done|apply commit_block_wf]. by intros [= <- <-].
  - unfold journal_copies. apply Forall_lookup. intros i x. rewrite list_lookup_imap.
    destruct (refs t !! i) as [r|] eqn:Er; [|done]. intros [= <-]. cbn. by eapply Forall_lookup_1 in Ht.
Qed.

(** Commit ends with the lock free. *)
Lemma commit_wf j t d j' d' rc : wf_dev d -> wf_txn t -> journal_txn_commit j t d = (j', d', rc) ->
  wf_dev d' /\ append_lock j' = false.
Proof.
  intros Hd Ht. unfold journal_txn_commit. destruct (decide (refs t = [])) as [|_]; [by intros [= <- <- <-]|].
  set (n := 2 + Z.of_nat (length (refs t))). set (l0 := commit_head j n).
  destruct (write_journal _ _ _ _ _) as [d1 rc1] eqn:E1. apply write_journal_wf in E1; [|done|done|].
  2: { split; [rewrite length_begin_block by apply Ht; done|apply begin_bytes]. }
  destruct (negb (rc1 =? 0)); [by intros [= <- <- <-]|].
  destruct (journal_barrier j d1) as [[j2 d2] rc2] eqn:E2. apply barrier_wf in E2; [|done].
  destruct (negb (rc2 =? 0)); [by intros [= <- <- <-]|].
  destruct (write_list d2 _) as [d3 ok3] eqn:E3. apply write_list_wf in E3; [|done|].
  2: { apply Forall_map. destruct Ht as [_ Ht]. eapply Forall_impl; [exact Ht|]. done. }
  destruct ok3; cbn [negb]; [|by intros [= <- <- <-]].
  destruct (journal_barrier j2 d3) as [[j4 d4] rc4] eqn:E4. apply barrier_wf in E4; [|done].
  destruct (negb (rc4 =? 0)); [by intros [= <- <- <-]|]. destruct (_ >=? _); intros [= <- <- <-]; [|done].
  split; [by apply persist_wf|done].
Qed.

Lemma add_block_wf ok t lba kind b t' rc : wf_txn t -> is_block b ->
  journal_txn_add_block ok t lba kind b = (t', rc) -> wf_txn t'.
Proof.
  intros [Hl Ht] Hb. unfold journal_txn_add_block.
  destruct (Z.geb_spec (Z.of_nat (length (refs t))) 168); [by intros [= <- <-]|].
  destruct ok; cbn; intros [= <- <-]; [|done]. split; cbn; [rewrite length_app; cbn; lia|].
  apply Forall_app. split; [done|]. by apply Forall_singleton.
Qed.

(** ** The invariant

    [lock] is the append lock, [P] the cache entries pinned, with repetitions. *)
Definition pins (P : list nat) (k : nat) : Z := Z.of_nat (count_occ Nat.eq_dec P k).

Record inv (lock : bool) (P : list nat) (s : fs) : Prop := {
  in_lock : append_lock (jnl s) = lock;
  in_dev : wf_dev (dev s);
  in_txn : wf_txn (txn s);
  in_sb : is_block (g_v2_sb s);
  in_len : length (g_inode_cache s) = 256%nat;
  in_disk : forall k e, g_inode_cache s !! k = Some e -> is_inode (ic_disk e);
  in_pins : forall k e, g_inode_cache s !! k = Some e -> pinned_readers e = pins P k;
  in_live : forall k, k ∈ P -> exists e, g_inode_cache s !! k = Some e /\ ic_live e = true;
  in_unique : forall k k' e e', g_inode_cache s !! k = Some e -> g_inode_cache s !! k' = Some e' ->
    ic_live e = true -> ic_live e' = true -> ic_inode_num e = ic_inode_num e' -> k = k'
}.

(** A change outside the cache. *)
Lemma inv_ext lock P lock' s s' : inv lock P s -> g_inode_cache s' = g_inode_cache s -> append_lock (jnl s') = lock' ->
  wf_dev (dev s') -> wf_txn (txn s') -> is_block (g_v2_sb s') -> inv lock' P s'.
Proof. intros [] E. split; rewrite ?E; done. Qed.

Section triples.
  Context (lock : bool) (P : list nat).
Let I := inv lock P.

Lemma kmalloc_triple : triple I kmalloc (fun _ => I).
Proof. intros s Hs. eexists _, _. split; [done|]. destruct Hs. by eapply inv_ext. Qed.

Lemma read_triple lba : triple I (grahafs_v2_block_read lba) (fun r s => I s /\ forall b, r = Some b -> is_block b).
Proof.
  intros s Hs. unfold wp, grahafs_v2_block_read. destruct (dev_read (dev s) lba) as [d r] eqn:E.
  apply read_wf in E as [Hd Hr]; [|apply Hs]. eexists _, _. split; [done|]. split; [|done]. by eapply inv_ext; try apply Hs.
Qed.

Lemma write_triple lba b : is_block b -> triple I (grahafs_v2_block_write lba b) (fun _ => I).
Proof.
  intros Hb s Hs. unfold wp, grahafs_v2_block_write. destruct (dev_write (dev s) lba b) as [d r] eqn:E.
  apply write_wf in E; [|apply Hs|done]. eexists _, _. split; [done|]. by eapply inv_ext; try apply Hs.
Qed.

Lemma flush_triple : triple I grahafs_block_flush (fun _ => I).
Proof.
  intros s Hs. unfold wp, grahafs_block_flush. destruct (dev_flush (dev s)) as [d r] eqn:E.
  apply flush_wf in E; [|apply Hs]. eexists _, _. split; [done|]. by eapply inv_ext; try apply Hs.
Qed.

Lemma add_triple lba kind b : is_block b -> triple I (txn_add_block lba kind b) (fun _ => I).
Proof.
  intros Hb. eapply triple_bind; [apply kmalloc_triple|]. intros ok s Hs. unfold wp, txn_add_with.
  destruct (journal_txn_add_block ok (txn s) lba kind b) as [t rc] eqn:E. apply add_block_wf in E; [|apply Hs|done].
  eexists _, _. split; [done|]. by eapply inv_ext; try apply Hs.
Qed.

Lemma set_sb_triple (f : fs -> block) : (forall s, I s -> is_block (f s)) -> triple I (modify (fun s => set_sb (f s) s)) (fun _ => I).
Proof. intros Hf. apply triple_modify. intros s Hs. eapply inv_ext; try apply Hs; try done. by apply Hf. Qed.

Lemma abort_triple : triple I fs_txn_abort (fun _ => inv false P).
Proof. apply triple_modify. intros s Hs. by eapply inv_ext; try apply Hs. Qed.

Lemma commit_triple : triple I fs_txn_commit (fun _ => inv false P).
Proof.
  intros s Hs. unfold wp, fs_txn_commit. destruct (journal_txn_commit (jnl s) (txn s) (dev s)) as [[j d] rc] eqn:E.
  apply commit_wf in E as [Hd Hl]; [|apply Hs..]. eexists _, _. split; [done|]. by eapply inv_ext; try apply Hs.
Qed.

End triples.

(** A change to one entry that keeps its inode. *)
Lemma inv_alter lock P P' s k f : inv lock P s ->
  (forall e, ic_live (f e) = ic_live e /\ ic_inode_num (f e) = ic_inode_num e /\
    (is_inode (ic_disk e) -> is_inode (ic_disk (f e)))) ->
  (forall e, g_inode_cache s !! k = Some e -> pinned_readers (f e) = pins P' k) ->
  (forall k', k' <> k -> pins P' k' = pins P k') ->
  (forall k', k' ∈ P' -> exists e, g_inode_cache s !! k' = Some e /\ ic_live e = true) ->
  inv lock P' (set_cache (alter f k (g_inode_cache s)) s).
Proof.
  intros [? ? ? ? Hlen Hdisk Hpins Hlive Huniq] Hf Hp Hne Hl'.
  assert (forall k' e', alter f k (g_inode_cache s) !! k' = Some e' -> exists e, g_inode_cache s !! k' = Some e /\
    ic_live e' = ic_live e /\ ic_inode_num e' = ic_inode_num e /\ is_inode (ic_disk e') /\ pinned_readers e' = pins P' k') as Ha.
  { intros k' e' H. destruct (decide (k' = k)) as [->|Hk].
    - rewrite list_lookup_alter_eq in H. destruct (g_inode_cache s !! k) as [e|] eqn:E; [|done]. injection H as <-.
      exists e. destruct (Hf e) as (? & ? & Hd). split_and!; [done..|eauto|by apply Hp].
    - rewrite list_lookup_alter_ne in H by done. exists e'. split_and!; [done..|by eapply Hdisk|]. rewrite Hne by done. by apply Hpins. }
  split; cbn; try done.
  - by rewrite length_alter.
  - intros k' e' H. by apply Ha in H as (e & _ & _ & _ & ? & _).
  - intros k' e' H. by apply Ha in H as (e & _ & _ & _ & _ & ?).
  - intros k' Hk'. destruct (Hl' k' Hk') as (e & He & Hl). destruct (decide (k' = k)) as [->|].
    + rewrite list_lookup_alter_eq, He. eexists. split; [done|]. by rewrite (proj1 (Hf e)).
    + exists e. by rewrite list_lookup_alter_ne.
  - intros k1 k2 e1 e2 H1 H2 L1 L2 En. apply Ha in H1 as (f1 & H1 & El1 & En1 & _), H2 as (f2 & H2 & El2 & En2 & _).
    eapply Huniq; eauto; congruence.
Qed.

Lemma pins_cons P k : pins (k :: P) k = pins P k + 1.
Proof. unfold pins. rewrite count_occ_cons_eq by done. lia. Qed.
Lemma pins_cons_ne P k k' : k' <> k -> pins (k :: P) k' = pins P k'.
Proof. intros. unfold pins. by rewrite count_occ_cons_neq. Qed.
Lemma pins_bound P k : 0 <= pins P k <= Z.of_nat (length P).
Proof. unfold pins. pose proof (count_occ_bound Nat.eq_dec k P). lia. Qed.

Lemma put_triple lock P k : triple (inv lock (k :: P)) (inode_cache_put k) (fun _ => inv lock P).
Proof.
  apply triple_modify. intros s Hs. eapply inv_alter; [exact Hs| | | |].
  - intros e. by destruct (_ >? _).
  - intros e He. pose proof (in_pins _ _ _ Hs k e He) as Hp. rewrite pins_cons in Hp. pose proof (pins_bound P k).
    destruct (Z.gtb_spec (pinned_readers e) 0); cbn; lia.
  - intros k' Hk'. by rewrite pins_cons_ne.
  - intros k' Hk'. apply (in_live _ _ _ Hs). by right.
Qed.

Lemma store_triple lock P k work clean : is_inode work -> triple (inv lock P) (store_inode k work clean) (fun _ => inv lock P).
Proof.
  intros Hw. apply triple_modify. intros s Hs. eapply inv_alter; [exact Hs|done| |done|].
  - intros e He. exact (in_pins _ _ _ Hs k e He).
  - intros k' Hk'. by apply (in_live _ _ _ Hs).
Qed.

(** More pins than fit the counter cannot be. *)
Abbreviation few P := (Z.of_nat (length P) + 1 < 2 ^ 32).

Lemma pin_inv lock P s k e : few P -> inv lock P s -> g_inode_cache s !! k = Some e -> ic_live e = true ->
  inv lock (k :: P) (set_cache (alter (fun e => {| e with pinned_readers := u32 (pinned_readers e + 1) |}) k (g_inode_cache s)) s).
Proof.
  intros HP Hs He Hl. eapply inv_alter; [exact Hs|done| | |].
  - intros e' He'. cbn. rewrite (in_pins _ _ _ Hs k e' He'), pins_cons. pose proof (pins_bound P k).
    apply wrap_small. unfold in_u. lia.
  - intros k' Hk'. by rewrite pins_cons_ne.
  - intros k' [->|Hk']%elem_of_cons; [by exists e|]. by apply (in_live _ _ _ Hs).
Qed.

Lemma install_inv lock P s k n disk : inv lock P s ->
  find_index (holds n) (g_inode_cache s) = None -> find_index (fun e => negb (ic_live e)) (g_inode_cache s) = Some k ->
  is_inode disk ->
  inv lock (k :: P) {| s with g_inode_cache := <[k := Inode_cache true n disk false 1]> (g_inode_cache s);
     g_inode_cache_used := u32 (g_inode_cache_used s + 1) |}.
Proof.
  intros [? ? ? ? Hlen Hdisk Hpins Hlive Huniq] Hno Hk Hd. apply find_index_Some in Hk as (e0 & Hk & Hl0).
  assert (k < length (g_inode_cache s))%nat as Hlt by by apply lookup_lt_Some in Hk.
  assert (k ∉ P) as HkP by (intros (e & He & Hl)%Hlive; rewrite Hk in He; injection He as ->; by rewrite Hl in Hl0).
  assert (pins P k = 0) as Hp0 by (unfold pins; rewrite (proj1 (count_occ_not_In Nat.eq_dec P k)); [done|by rewrite <- list_elem_of_In]).
  assert (forall k' e, g_inode_cache s !! k' = Some e -> ic_live e = true -> ic_inode_num e <> n) as Hn.
  { intros k' e He Hl En. eapply find_index_None in Hno; [|exact He]. unfold holds in Hno. rewrite Hl, En, Z.eqb_refl in Hno. done. }
  set (c := <[k := _]> _).
  assert (forall k' e, c !! k' = Some e -> (k' = k /\ e = Inode_cache true n disk false 1) \/ (k' <> k /\ g_inode_cache s !! k' = Some e)) as Hc.
  { intros k' e H. unfold c in H. destruct (decide (k' = k)) as [->|]; [|rewrite list_lookup_insert_ne in H by done; by right].
    rewrite list_lookup_insert_eq in H by done. injection H as <-. by left. }
  split; cbn; try done.
  - unfold c. by rewrite length_insert.
  - intros k' e [[-> ->]|[_ H]]%Hc; [done|by eapply Hdisk].
  - intros k' e [[-> ->]|[Hne H]]%Hc; [by rewrite pins_cons, Hp0|]. rewrite pins_cons_ne by done. by apply Hpins.
  - intros k' [->|Hk']%elem_of_cons; [eexists; split; [by apply list_lookup_insert_eq|done]|].
    destruct (Hlive k' Hk') as (e & He & Hl). exists e. unfold c. by rewrite list_lookup_insert_ne by congruence.
  - intros k1 k2 e1 e2 [[-> ->]|[_ H1]]%Hc [[-> ->]|[_ H2]]%Hc L1 L2 En; [done| | |by eapply Huniq]; cbn in En; exfalso; eapply Hn; eauto.
Qed.

(** ** Operations *)
Lemma gets_triple {A B} (R : A -> Prop) I (f : fs -> A) (k : A -> M fs B) Q :
  (forall s, I s -> R (f s)) -> (forall a, R a -> triple I (k a) Q) -> triple I (gets f ≫= k) Q.
Proof. intros HR Hk s Hs. apply wp_bind, wp_gets. by apply Hk; [apply HR|]. Qed.

Lemma gets_any {A B} I (f : fs -> A) (k : A -> M fs B) Q :
  (forall a, triple I (k a) Q) -> triple I (gets f ≫= k) Q.
Proof. intros Hk. by apply (gets_triple (fun _ => True)). Qed.

Lemma entry_triple {B} lock P n (k : inode_cache -> M fs B) Q :
  (forall e, is_inode (ic_disk e) -> triple (inv lock P) (k e) Q) -> triple (inv lock P) (gets (fun s => entry s n) ≫= k) Q.
Proof.
  intros Hk. apply (gets_triple (fun e => is_inode (ic_disk e))); [|done]. intros s Hs. unfold entry.
  destruct (g_inode_cache s !! n) as [e|] eqn:E; cbn; [by eapply (in_disk _ _ _ Hs)|apply (is_bytes_zero 512)].
Qed.

Lemma begin_triple P : triple (inv false P) fs_txn_begin (fun ok => inv ok P).
Proof.
  eapply triple_bind; [apply kmalloc_triple|]. intros ok s Hs. unfold wp, txn_begin_with, journal_txn_begin.
  rewrite (in_lock _ _ _ Hs). destruct ok; cbn; (eexists _, _; split; [done|]); eapply inv_ext; try apply Hs; try done.
  split; cbn; [lia|constructor].
Qed.

(** A pinned entry, or nothing. *)
Definition pinned (lock : bool) (P : list nat) (r : option nat) : fs -> Prop :=
  match r with Some k => inv lock (k :: P) | None => inv lock P end.

Lemma get_triple lock P n : few P -> triple (inv lock P) (inode_cache_get n) (pinned lock P).
Proof.
  intros HP s Hs. apply wp_bind, wp_gets. cbn [id]. destruct (g_v2_mounted s); cbn [negb]; [|by apply wp_ret].
  assert (forall s', inv lock P s' -> forall k, find_index (holds n) (g_inode_cache s') = Some k ->
    wp (pin k;; mret (Some k)) (pinned lock P) s') as Hpin.
  { intros s' Hs' k Hk. apply find_index_Some in Hk as (e & He & Hl). apply andb_true_iff in Hl as [Hl _].
    apply wp_bind, wp_modify, wp_ret. by eapply pin_inv. }
  destruct (find_index (holds n) (g_inode_cache s)) as [k|] eqn:Ek; [by apply Hpin|].
  pose proof (locate_off (g_v2_sb s) n) as Hoff. destruct (inode_locate (g_v2_sb s) n) as [lba off]. cbn [snd] in Hoff.
  match goal with |- wp ?m ?Q _ => enough (triple (inv lock P) m Q) as H by by apply H end. clear s Hs Ek.
  eapply triple_bind; [apply kmalloc_triple|].
  intros []; cbn [negb]; [|by apply triple_ret]. eapply triple_bind; [apply read_triple|]. intros [b|]; apply triple_pure; intros Hb; [|by apply triple_ret].
  destruct (negb _); [by apply triple_ret|]. destruct (negb _); [by apply triple_ret|].
  intros s Hs. apply wp_bind, wp_gets. destruct (find_index (holds n) (g_inode_cache s)) as [k|] eqn:Ek; [by apply Hpin|].
  destruct (find_index _ _) as [k|] eqn:Ek' in |- *; [|by apply wp_ret].
  apply wp_bind, wp_modify, wp_ret. eapply install_inv; [done..|].
  apply (is_bytes_sub 4096 512); [by apply Hb|lia].
Qed.

Lemma snapshot_triple lock P n : few P ->
  triple (inv lock P) (snapshot n) (fun r s => inv lock P s /\ forall i, r = Some i -> is_inode i).
Proof.
  intros HP. eapply triple_bind; [by apply get_triple|]. intros [k|]; cbn [pinned]; [|by apply triple_ret].
  apply entry_triple. intros e He. eapply triple_bind; [apply put_triple|]. intros ?. apply triple_ret. intros s Hs.
  split; [done|]. by intros i [= <-].
Qed.

#[export] Hint Resolve kmalloc_triple read_triple write_triple flush_triple add_triple abort_triple commit_triple
  put_triple store_triple begin_triple get_triple snapshot_triple : triple.

(** Follows the program: reads of the state, calls with a known specification, tests. *)
Ltac op_step :=
  lazymatch goal with
  | |- triple _ (mret _) _ => apply triple_ret; intros; try solve [intuition first [solve [eauto with bytes]|congruence]]
  | |- triple _ (mbind _ (gets (fun s => entry s _))) _ => apply entry_triple; intros
  | |- triple _ (mbind _ (gets _)) _ => apply gets_any; intros
  | |- triple (fun _ => _ /\ _) _ _ => apply triple_pure; intros
  | |- triple (inv ?b _) (if negb ?b then _ else _) _ => destruct b; cbn [negb]
  | |- triple _ (if ?b then _ else _) _ => let E := fresh "E" in destruct b eqn:E
  | |- triple (pinned _ _ ?r) (match ?r with _ => _ end) _ => destruct r; cbn [pinned]
  | |- triple _ (match ?x with _ => _ end) _ => let E := fresh "E" in destruct x eqn:E
  | |- triple _ (mbind _ _) _ => eapply triple_bind; [solve [eauto with triple bytes]|intros ?; cbv beta]
  | |- triple _ _ _ => eapply triple_mono; [solve [eauto with triple bytes]| |]; cbv beta; intros; try solve [intuition first [solve [eauto with bytes]|congruence]]
  end.
Ltac ops := repeat op_step.

Section neutral.
  Context (lock : bool) (P : list nat).
  Hypothesis HP : few P.
Let I := inv lock P.


Lemma indirect_triple lba k : triple I (v2_indirect_lookup lba k) (fun _ => I).
Proof. unfold v2_indirect_lookup, I. ops. Qed.
Local Hint Resolve indirect_triple : triple.

Lemma to_lba_triple ino n : triple I (v2_block_index_to_lba ino n) (fun _ => I).
Proof. unfold v2_block_index_to_lba, I. ops. Qed.

Lemma cached_triple c lba : (forall l b, c = Some (l, b) -> is_block b) ->
  triple I (bitmap_cached c lba) (fun r s => I s /\ forall b, r = Some b -> is_block b).
Proof.
  intros Hc. unfold bitmap_cached. destruct c as [[l b]|]; [destruct (l =? lba)|]; [|apply read_triple..].
  apply triple_ret. intros s Hs. split; [done|]. intros b' [= <-]. by eapply Hc.
Qed.

Lemma bitmap_store_triple w lba b : is_block b -> triple I (bitmap_store w lba b) (fun _ => I).
Proof. intros Hb. unfold bitmap_store, I. ops. Qed.

Lemma set_sb_le_triple off (f : fs -> Z) : (off <= 4092)%Z -> 0 <= off ->
  triple I (modify (fun s => set_sb (splice (g_v2_sb s) (Z.to_nat off) (le 4 (f s))) s)) (fun _ => I).
Proof. intros. apply set_sb_triple. intros s Hs. apply is_bytes_splice_le; [apply Hs|lia]. Qed.

Lemma allocate_loop_triple w n : forall i c, (forall l b, c = Some (l, b) -> is_block b) ->
  triple I (allocate_loop w n i c) (fun _ => I).
Proof.
  induction n as [|n IH]; intros i c Hc; cbn [allocate_loop]; [by apply triple_ret|].
  apply gets_any. intros sb. destruct (bitmap_block_lba sb i) as [[lba bit]|]; [|by apply IH].
  eapply triple_bind; [by apply cached_triple|]. intros r. apply triple_pure. intros Hr.
  destruct r as [buf|]; [|by apply triple_ret]. specialize (Hr buf eq_refl).
  destruct (bitmap_test buf bit); [apply IH; by intros l b [= <- <-]|].
  eapply triple_bind; [by apply bitmap_store_triple, is_block_mark|]. intros []; cbn [negb]; [|by apply triple_ret].
  eapply triple_bind; [apply set_sb_triple|intros ?; by apply triple_ret].
  intros s Hs. unfold take_free_block. destruct (_ >? 0); [apply is_bytes_splice_le; [apply Hs|lia]|apply Hs].
Qed.

Lemma allocate_triple w : triple I (v2_bitmap_allocate_block w) (fun _ => I).
Proof.
  unfold v2_bitmap_allocate_block. apply gets_any. intros s. destruct (negb _); [by apply triple_ret|].
  destruct (_ || _); [by apply triple_ret|]. by apply allocate_loop_triple.
Qed.

Lemma free_triple n : triple I (v2_bitmap_free_block n) (fun _ => I).
Proof.
  unfold v2_bitmap_free_block, I. ops. eapply triple_bind; [by apply (set_sb_le_triple 96)|intros ?; by apply triple_ret].
Qed.
Local Hint Resolve to_lba_triple allocate_triple free_triple : triple.

Lemma allocate_inode_triple : triple I v2_allocate_inode (fun _ => I).
Proof.
  unfold v2_allocate_inode. apply gets_any. intros s. destruct (negb _); [by apply triple_ret|].
  generalize 2 at 2. induction (Z.to_nat _) as [|n IH]; intros i; cbn [allocate_inode_loop]; [by apply triple_ret|].
  apply gets_any. intros sb. destruct (inode_locate sb i) as [lba off].
  eapply triple_bind; [apply read_triple|]. intros r. apply triple_pure. intros Hr. destruct r as [buf|]; [|apply IH].
  destruct (_ && _); [|apply IH]. apply (triple_bind _ _ I (fun _ => I)); [|intros ?; by apply triple_ret]. apply triple_modify.
  intros s' Hs. destruct (_ >? 0); [|done]. eapply inv_ext; try apply Hs; try done. apply is_bytes_splice_le; [apply Hs|lia].
Qed.

Lemma write_sb_triple : triple I v2_write_superblock (fun _ => I).
Proof.
  unfold v2_write_superblock. apply (gets_triple is_block); [intros s Hs; apply Hs|]. intros sb Hsb.
  eapply triple_bind; [by apply write_triple, is_block_sb_seal|intros ?; by apply triple_ret].
Qed.

Lemma alloc_zeroed_triple kind : triple I (alloc_zeroed kind) (fun _ => I).
Proof. unfold alloc_zeroed, I. ops. Qed.
Local Hint Resolve alloc_zeroed_triple : triple.

Lemma slot_alloc_triple lba k kind : (k < 1024)%nat -> triple I (slot_alloc lba k kind) (fun _ => I).
Proof. intros Hk. unfold slot_alloc, I. ops. Qed.

Lemma tree_alloc_triple ino n : is_inode ino -> 0 <= n ->
  triple I (v2_block_index_to_lba_alloc ino n) (fun r s => I s /\ is_inode (fst r)).
Proof.
  intros Hi Hn. unfold v2_block_index_to_lba_alloc, count_if. fold I.
  destruct (Z.ltb_spec n 12).
  { ops. split; [done|]. cbn [fst]. apply is_bytes_splice_le; [apply is_inode_direct; [done|lia]|lia]. }
  destruct (Z.ltb_spec (n - 12) 1024).
  { apply (triple_bind _ _ I (fun _ => I)); [|intros ib; destruct (ib =? 0); [by apply triple_ret|]].
    - unfold I. ops.
    - eapply triple_bind; [apply slot_alloc_triple; lia|]. intros [b []]; apply triple_ret; intros s Hs; (split; [done|]); cbn [fst snd];
        destruct (i_indirect ino =? 0); auto 10 with bytes. }
  destruct (Z.ltb_spec (n - 12 - 1024) (1024 * 1024)); [|by apply triple_ret].
  apply (triple_bind _ _ I (fun _ => I)); [|intros ib; destruct (ib =? 0); [by apply triple_ret|]].
  - unfold I. ops.
  - eapply triple_bind; [apply slot_alloc_triple; zlia|]. intros [mid a1]. cbn [fst snd].
    set (i1 := if a1 then _ else _). assert (is_inode i1) as Hi1 by (unfold i1; destruct a1, (i_double ino =? 0); auto 10 with bytes).
    clearbody i1. destruct (mid =? 0); [by apply triple_ret|]. eapply triple_bind; [apply slot_alloc_triple; zlia|].
    intros [b []]; apply triple_ret; intros s Hs; (split; [done|]); cbn [fst snd]; auto with bytes.
Qed.
End neutral.
#[export] Hint Resolve to_lba_triple allocate_triple free_triple allocate_inode_triple write_sb_triple alloc_zeroed_triple
  slot_alloc_triple tree_alloc_triple : triple.

Lemma restage_wf t lba off i rs : wf_txn t -> is_inode i -> Z.of_nat off + 512 <= 4096 -> restage (refs t) lba off i = Some rs ->
  wf_txn {| t with refs := rs |}.
Proof.
  intros [Hl Ht] Hi Ho. unfold restage. destruct (find_index _ _) as [k|]; [|done]. intros [= <-].
  split; cbn; [by rewrite length_alter|]. apply Forall_lookup. intros k' r H. destruct (decide (k' = k)) as [->|].
  - rewrite list_lookup_alter_eq in H. destruct (refs t !! k) as [r0|] eqn:E; [|done]. injection H as <-. cbn.
    apply is_bytes_splice; [by eapply Forall_lookup_1 in Ht| |apply Hi]. destruct Hi. lia.
  - rewrite list_lookup_alter_ne in H by done. by eapply Forall_lookup_1 in Ht.
Qed.

Lemma stage_inode_triple lock P n i : is_inode i -> triple (inv lock P) (journal_stage_inode n i) (fun _ => inv lock P).
Proof.
  intros Hi s Hs. unfold journal_stage_inode. apply wp_bind, wp_gets. cbn [id].
  pose proof (locate_off (g_v2_sb s) n) as Hoff. destruct (inode_locate (g_v2_sb s) n) as [lba off]. cbn [snd] in Hoff.
  destruct (restage (refs (txn s)) lba off i) as [rs|] eqn:E.
  - apply wp_bind, wp_modify, wp_ret. eapply inv_ext; try apply Hs; try done. cbn.
    apply (restage_wf (txn s) lba off i rs); [apply Hs|done|done|done].
  - revert s Hs E. intros s Hs _. revert s Hs.
    change (triple (inv lock P) (grahafs_v2_block_read lba ≫= fun r => match r with
      | None => mret (-5) | Some blk => txn_add_block lba JOURNAL_BLOCK_KIND_METADATA (splice blk off i) end) (fun _ => inv lock P)).
    ops. apply add_triple, is_bytes_splice; [eauto|destruct Hi; lia|apply Hi].
Qed.

(** The loops end: each turn handles the rest of a block. *)
Definition enough_fuel (fuel : nat) (off left : Z) : Prop :=
  0 <= off < 4096 /\ 0 <= left /\ (left + off + 4095) / 4096 < Z.of_nat fuel.

Lemma enough_pos fuel off left : enough_fuel fuel off left -> exists n, fuel = S n.
Proof. unfold enough_fuel. intros (? & ? & ?). destruct fuel; [zlia|eauto]. Qed.

Lemma enough_next fuel off left : enough_fuel (S fuel) off left -> 0 < left ->
  enough_fuel fuel 0 (left - Z.min (4096 - off) left).
Proof. unfold enough_fuel. intros (? & ? & ?) ?. split_and!; [lia|lia|lia|]. zlia. Qed.

Lemma enough_loop n off : 0 <= n -> 0 <= off < 4096 -> enough_fuel (loop_fuel n) off n.
Proof. unfold enough_fuel, loop_fuel. intros. split_and!; [lia..|]. zlia. Qed.

Lemma read_loop_triple lock P snap to_read : forall fuel acc bi off,
  enough_fuel fuel off (to_read - Z.of_nat (length acc)) ->
  triple (inv lock P) (read_loop fuel snap to_read acc bi off) (fun _ => inv lock P).
Proof.
  induction fuel as [|fuel IH]; intros acc bi off Hf; [by apply enough_pos in Hf as [? ?]|]. cbn [read_loop].
  destruct (Z.ltb_spec (Z.of_nat (length acc)) to_read); cbn [negb]; [|by apply triple_ret].
  eapply triple_bind; [apply to_lba_triple|]. intros lba. set (chunk := Z.to_nat _).
  assert (forall l, length l = chunk -> enough_fuel fuel 0 (to_read - Z.of_nat (length (acc ++ l)))) as Hnext.
  { intros l Hl. pose proof (proj1 Hf). apply enough_next in Hf; [|lia]. rewrite length_app, Hl. unfold chunk in *.
    match goal with H : enough_fuel _ _ ?a |- enough_fuel _ _ ?b => replace b with a by lia end. done. }
  destruct (lba =? 0); [apply IH, Hnext, length_replicate|].
  eapply triple_bind; [apply read_triple|]. intros r. apply triple_pure. intros Hr. destruct r as [b|]; [|by apply triple_ret].
  apply IH, Hnext. destruct (Hr b eq_refl) as [Hl _]. destruct Hf as (? & ? & _).
  rewrite length_take, length_drop. unfold chunk. lia.
Qed.

Lemma stage_chunk_triple lock P lba off c : wf_bytes c -> 0 <= off -> off + Z.of_nat (length c) <= 4096 ->
  triple (inv lock P) (stage_chunk lba off c) (fun _ => inv lock P).
Proof.
  intros Hc Ho Hl. unfold stage_chunk. apply (triple_bind _ _ _ (fun r s => inv lock P s /\ forall b, r = Some b -> is_block b)).
  - destruct (_ || _); [apply read_triple|]. apply triple_ret. intros s Hs. split; [done|]. intros b [= <-]. apply is_block_zero.
  - intros r. apply triple_pure. intros Hr. destruct r as [blk|]; [|by apply triple_ret].
    apply add_triple, is_bytes_splice; [by apply Hr|lia|done].
Qed.

Lemma write_loop_triple lock P : forall fuel work data done bi off,
  is_inode work -> wf_bytes data -> 0 <= bi -> enough_fuel fuel off (Z.of_nat (length data)) ->
  triple (inv lock P) (write_loop fuel work data done bi off)
    (fun r s => inv lock P s /\ forall w, r = inl w -> is_inode w).
Proof.
  induction fuel as [|fuel IH]; intros work data done bi off Hw Hdata Hbi Hf; [by apply enough_pos in Hf as [? ?]|]. cbn [write_loop].
  destruct (decide (data = [])) as [|Hne]; [apply triple_ret; intros s Hs; split; [done|]; by intros w [= <-]|].
  eapply triple_bind; [by apply tree_alloc_triple|]. intros [work' lba]. apply triple_pure. cbn [fst]. intros Hw'.
  destruct (lba =? 0); [by apply triple_ret|]. set (chunk := Nat.min _ _).
  assert (0 < length data)%nat by (destruct data; cbn; [done|lia]). pose proof (proj1 Hf).
  eapply triple_bind; [apply stage_chunk_triple; [by apply Forall_take|lia|rewrite length_take; unfold chunk; lia]|].
  intros rc. destruct (negb (rc =? 0)); [by apply triple_ret|]. apply IH; [done|by apply Forall_drop|apply wrap_bound; lia|].
  apply enough_next in Hf; [|lia]. rewrite length_drop. unfold chunk.
  match goal with H : enough_fuel _ _ ?a |- enough_fuel _ _ ?b => replace b with a by lia end. done.
Qed.
#[export] Hint Resolve stage_inode_triple : triple.
#[export] Hint Extern 1 (Z.of_nat (length _) + 1 < 2 ^ 32) => (cbn [length]; lia) : triple.

Lemma is_inode_finish w n : is_inode w -> is_inode (finish_inode w n).
Proof. intros. unfold finish_inode. destruct (_ >? _); auto 10 with bytes. Qed.

Lemma is_inode_emptied w : is_inode w -> is_inode (emptied w).
Proof.
  intros. unfold emptied. apply is_inode_seal. do 5 (apply is_bytes_splice_le; [|lia]).
  apply is_bytes_splice; [done|rewrite length_replicate; lia|apply wf_bytes_replicate].
Qed.

Lemma is_inode_fresh t : is_inode (fresh_inode t).
Proof.
  unfold fresh_inode. split; [by rewrite !length_app, !length_le, length_replicate|].
  rewrite !Forall_app. repeat split; try apply le_bytes. apply wf_bytes_replicate.
Qed.

Lemma is_inode_zero : is_inode (replicate 512 0).
Proof. apply (is_bytes_zero 512). Qed.
#[export] Hint Resolve is_inode_finish is_inode_emptied is_inode_fresh is_inode_zero : bytes.

Lemma fs_read_triple node off size : 0 <= off -> 0 <= size ->
  triple (inv false []) (grahafs_v2_read node off size) (fun _ => inv false []).
Proof.
  intros Ho Hs. unfold grahafs_v2_read. apply gets_any. intros m. ops. apply read_loop_triple. cbn [length]. rewrite Z.sub_0_r. apply enough_loop; [|zlia].
  destruct (_ >? _); lia.
Qed.

Lemma fs_write_triple node off data : 0 <= off -> wf_bytes data ->
  triple (inv false []) (grahafs_v2_write node off data) (fun _ => inv false []).
Proof.
  intros Ho Hd. unfold grahafs_v2_write. ops.
  eapply triple_bind; [apply write_loop_triple; [done..|apply wrap_bound; lia|apply enough_loop; zlia]|].
  intros r. apply triple_pure. intros Hr. destruct r as [w|]; ops.
Qed.

Lemma free_dirent_bound b k : free_dirent b = Some k -> (k < 128)%nat.
Proof. intros (i & Hi & _)%find_index_Some. apply lookup_lt_Some in Hi. done. Qed.

Lemma find_dirent_bound b name k : find_dirent b name = Some k -> (k < 128)%nat.
Proof. intros (i & Hi & _)%find_index_Some. apply lookup_lt_Some in Hi. done. Qed.

Lemma dir_block_triple lock P dir : is_inode dir ->
  triple (inv lock P) (dir_block dir) (fun r s => inv lock P s /\ is_inode (fst r)).
Proof.
  intros Hd. unfold dir_block. ops. split; [done|]. cbn [fst]. destruct (a =? 0); [done|].
  apply is_bytes_splice_le; [|lia]. apply is_inode_direct; [done|lia].
Qed.

Lemma dir_commit_triple lock P k n lba b dir : is_block b -> is_inode dir ->
  triple (inv lock (k :: P)) (dir_commit k n lba b dir) (fun _ => inv lock P).
Proof. intros. unfold dir_commit. ops. Qed.

Lemma add_entry_triple lock P n name child : few P -> wf_bytes name ->
  triple (inv lock P) (v2_dir_add_entry n name child) (fun _ => inv lock P).
Proof.
  intros HP Hn. unfold v2_dir_add_entry. ops. eapply triple_bind; [by apply dir_block_triple|].
  intros [dir lba]. apply triple_pure. cbn [fst]. intros Hd. ops.
  eauto 8 using free_dirent_bound, dir_commit_triple with bytes.
Qed.

Lemma remove_entry_triple lock P n name : few P ->
  triple (inv lock P) (v2_dir_remove_entry n name) (fun _ => inv lock P).
Proof.
  intros HP. unfold v2_dir_remove_entry. ops.
  eapply triple_bind; [apply dir_commit_triple|intros ?; by apply triple_ret]; [|auto with bytes].
  eauto using find_dirent_bound with bytes.
Qed.

Lemma dirent_node_triple lock P b k : few P -> triple (inv lock P) (dirent_node b k) (fun _ => inv lock P).
Proof. intros. unfold dirent_node. ops. Qed.

Lemma node_block_triple lock P node : few P -> triple (inv lock P) (node_block node) (fun _ => inv lock P).
Proof. intros. unfold node_block. ops. Qed.
#[export] Hint Resolve add_entry_triple remove_entry_triple dirent_node_triple node_block_triple : triple.

Lemma finddir_triple node name : triple (inv false []) (grahafs_v2_finddir node name) (fun _ => inv false []).
Proof.
  unfold grahafs_v2_finddir. eapply triple_bind; [by apply node_block_triple|]. intros r.
  destruct (r ≫= _) as [[b k]|]; [by apply dirent_node_triple|by apply triple_ret].
Qed.

Lemma readdir_triple node i : triple (inv false []) (grahafs_v2_readdir node i) (fun _ => inv false []).
Proof.
  unfold grahafs_v2_readdir. eapply triple_bind; [by apply node_block_triple|]. intros r.
  destruct (r ≫= _) as [[b k]|]; [by apply dirent_node_triple|by apply triple_ret].
Qed.

Lemma is_block_dots n p : is_block (set_dirent (set_dirent zero_page 0 n [46]) 1 p [46; 46]).
Proof. repeat apply is_block_dirent; try lia; try apply is_block_zero; repeat constructor; by vm_compute. Qed.
#[export] Hint Resolve is_block_dots : bytes.

Lemma new_directory_triple lock P n p fresh : is_inode fresh ->
  triple (inv lock P) (new_directory n p fresh) (fun r s => inv lock P s /\ forall i, r = inl i -> is_inode i).
Proof.
  intros Hf. unfold new_directory. ops. split; [done|]. intros i [= <-].
  apply is_bytes_splice_le; [|lia]. apply is_bytes_splice_le; [|lia]. apply is_inode_direct; [done|lia].
Qed.

Lemma create_triple node name type : wf_bytes name ->
  triple (inv false []) (grahafs_v2_create node name type) (fun _ => inv false []).
Proof.
  intros Hn. unfold grahafs_v2_create. ops.
  eapply (triple_bind _ _ _ (fun r s => inv true [] s /\ forall i, r = inl i -> is_inode i)).
  - destruct (type =? 2); [apply new_directory_triple, is_inode_fresh|]. apply triple_ret. intros s Hs. split; [done|].
    intros i [= <-]. apply is_inode_fresh.
  - intros [i|rc]; ops.
Qed.

Lemma free_blocks_triple lock P ls : triple (inv lock P) (free_blocks ls) (fun _ => inv lock P).
Proof. induction ls as [|l ls IH]; cbn [free_blocks]; ops. Qed.
#[export] Hint Resolve free_blocks_triple : triple.

Lemma free_indirect_triple lock P l : triple (inv lock P) (free_indirect l) (fun _ => inv lock P).
Proof.
  unfold free_indirect. ops. apply (triple_bind _ _ _ (fun _ => inv lock P)); [ops|]. intros ?. ops.
Qed.

Lemma free_double_triple lock P l : triple (inv lock P) (free_double l) (fun _ => inv lock P).
Proof.
  unfold free_double. ops. apply (triple_bind _ _ _ (fun _ => inv lock P)); [ops|intros ?; ops].
  generalize (slots l0). intros ls. induction ls as [|x ls IH]; cbn [free_indirects]; [by apply triple_ret|].
  eapply triple_bind; [apply free_indirect_triple|done].
Qed.
#[export] Hint Resolve free_indirect_triple free_double_triple : triple.

Lemma truncate_triple n : triple (inv false []) (grahafs_v2_truncate_inode n) (fun _ => inv false []).
Proof. unfold grahafs_v2_truncate_inode. ops. Qed.

(** Eviction leaves a free slot without pins. *)
Lemma evict_put_triple lock k : triple (inv lock [k]) (evict k;; inode_cache_put k) (fun _ => inv lock []).
Proof.
  intros s Hs. apply wp_bind, wp_modify, wp_modify. pose proof (in_pins _ _ _ Hs) as Hpins.
  unfold set_cache. cbn [g_inode_cache]. set (f := fun e => {| e with ic_live := false; ic_disk := replicate 512 0 |}).
  set (g := fun e : inode_cache => if pinned_readers e >? 0 then {| e with pinned_readers := pinned_readers e - 1 |} else e).
  assert (forall k' e', alter g k (alter f k (g_inode_cache s)) !! k' = Some e' -> pinned_readers e' = 0 /\
    is_inode (ic_disk e') /\ (ic_live e' = true -> k' <> k /\ g_inode_cache s !! k' = Some e')) as Ha.
  { intros k' e' H. destruct (decide (k' = k)) as [->|Hne].
    - rewrite !list_lookup_alter_eq in H. destruct (g_inode_cache s !! k) as [e|] eqn:E; [|done]. injection H as <-.
      pose proof (Hpins k e E) as Hp. rewrite pins_cons in Hp. unfold pins in Hp. cbn in Hp. unfold g, f. cbn.
      rewrite Hp. cbn. split_and!; [done|apply is_inode_zero|done].
    - rewrite !list_lookup_alter_ne in H by done. split_and!; [|by eapply (in_disk _ _ _ Hs)|done].
      rewrite (Hpins k' e' H), pins_cons_ne by done. done. }
  destruct Hs as [? ? ? ? Hlen _ _ _ Huniq]. split; cbn; try done.
  - by rewrite !length_alter.
  - intros k' e' H. by apply Ha in H as (_ & ? & _).
  - intros k' e' H. by apply Ha in H as (? & _).
  - intros k' H. by apply elem_of_nil in H.
  - intros k1 k2 e1 e2 H1 H2 L1 L2 En. apply Ha in H1 as (_ & _ & H1), H2 as (_ & _ & H2).
    destruct (H1 L1) as [_ ?], (H2 L2) as [_ ?]. by eapply Huniq.
Qed.

Lemma clear_child_triple n : triple (inv true []) (clear_child n) (fun _ => inv true []).
Proof.
  unfold clear_child. ops.
  intros s Hs. pose proof (evict_put_triple true n0 s Hs) as (s1 & [] & E1 & H1).
  unfold mbind at 1, M_bind at 1 in E1. unfold wp, mbind, M_bind. destruct (evict n0 s) as [[s0 []]|]; [|done]. rewrite E1.
  eexists _, _. split; [done|]. by eapply inv_ext; try apply H1; try done; apply is_bytes_splice_le; [apply H1|lia].
Qed.
#[export] Hint Resolve clear_child_triple : triple.

Lemma unlink_triple node name : triple (inv false []) (grahafs_v2_unlink node name) (fun _ => inv false []).
Proof. unfold grahafs_v2_unlink. ops. Qed.

Lemma flush_dirty_triple P k : triple (inv false P) (inode_cache_flush_dirty k) (fun _ => inv false P).
Proof.
  unfold inode_cache_flush_dirty. apply (gets_triple (fun s => inv false P s)); [done|]. intros s0 Hs0. cbv zeta.
  assert (is_inode (ic_disk (entry s0 k))) as He.
  { unfold entry. destruct (g_inode_cache s0 !! k) as [e|] eqn:E; cbn; [by eapply (in_disk _ _ _ Hs0)|apply is_inode_zero]. }
  destruct (negb _); [by apply triple_ret|].
  pose proof (locate_off (g_v2_sb s0) (ic_inode_num (entry s0 k))) as Hoff.
  destruct (inode_locate _ _) as [lba off]. cbn [snd] in Hoff. apply is_inode_seal in He.
  ops. eapply triple_bind; [apply add_triple, is_bytes_splice; [eauto|destruct He; lia|apply He]|intros ?; ops].
Qed.
#[export] Hint Resolve flush_dirty_triple : triple.

Lemma fsync_triple node : triple (inv false []) (grahafs_v2_fsync node) (fun _ => inv false []).
Proof.
  unfold grahafs_v2_fsync. ops. apply (triple_bind _ _ _ (fun _ => inv false [n])); [ops|]. intros ?; ops.
Qed.

(** ** Mounting *)
Lemma replay_crc_wf fuel : forall d b i c d' c', wf_dev d -> replay_crc fuel d b i c = Some (d', c') -> wf_dev d'.
Proof.
  induction fuel as [|fuel IH]; intros d b i c d' c' Hd; [done|]. cbn [replay_crc]. destruct (negb _); [by intros [= <- <-]|].
  destruct (_ <=? _); [done|]. unfold ahci_read_block. destruct (dev_read d _) as [d1 r] eqn:E.
  apply read_wf in E as [Hd1 _]; [|done]. destruct r; [by apply IH|]. by intros [= <- <-].
Qed.

Lemma replay_apply_wf fuel : forall d b i d', wf_dev d -> replay_apply fuel d b i = Some d' -> wf_dev d'.
Proof.
  induction fuel as [|fuel IH]; intros d b i d' Hd; [done|]. cbn [replay_apply]. destruct (negb _); [by intros [= <-]|].
  destruct (_ <=? _); [done|]. unfold ahci_read_block, ahci_write_block. destruct (dev_read d _) as [d1 r] eqn:E.
  apply read_wf in E as [Hd1 Hr]; [|done]. destruct r as [p|]; [|by intros [= <-]].
  destruct (dev_write d1 _ p) as [d2 ok] eqn:E. apply write_wf in E; [|done|by apply Hr].
  destruct ok; cbn [Z.eqb]; [by apply IH|by intros [= <-]].
Qed.

Lemma replay_scan_wf n : forall d l jend r k d' r' k', wf_dev d -> replay_scan n d l jend r k = Some (d', r', k') -> wf_dev d'.
Proof.
  induction n as [|n IH]; intros d l jend r k d' r' k' Hd; cbn [replay_scan]; [by intros [= <- _ _]|].
  destruct (negb _); [by intros [= <- _ _]|]. unfold ahci_read_block. destruct (dev_read d l) as [d1 rb] eqn:E.
  apply read_wf in E as [Hd1 _]; [|done]. destruct rb as [b|]; [|by intros [= <- _ _]].
  destruct (negb _); [by intros [= <- _ _]|]. destruct (_ || _); [by intros [= <- _ _]|].
  destruct (_ >=? _); [by intros [= <- _ _]|]. destruct (dev_read d1 _) as [d2 rc] eqn:E.
  apply read_wf in E as [Hd2 _]; [|done]. destruct rc as [c|]; [|by intros [= <- _ _]].
  destruct (_ || _); [by intros [= <- _ _]|]. destruct (replay_crc _ _ _ _ _) as [[d3 crc]|] eqn:E; [|done].
  apply replay_crc_wf in E; [|done]. destruct (negb _); [by intros [= <- _ _]|].
  destruct (replay_apply _ _ _ _) as [d4|] eqn:E'; [|done]. apply replay_apply_wf in E'; [|done]. by apply IH.
Qed.

Lemma replay_wf m j d sb j' d' sb' rc : wf_dev d -> is_block sb -> journal_replay m j d sb = Some (j', d', sb', rc) ->
  wf_dev d' /\ is_block sb' /\ append_lock j' = append_lock j.
Proof.
  intros Hd Hsb. unfold journal_replay. destruct m; cbn [negb]; [|by intros [= <- <- <- <-]].
  destruct (replay_scan _ _ _ _ _ _) as [[[d1 r] k]|] eqn:E; [|done]. apply replay_scan_wf in E; [|done]. unfold ahci_write_block.
  set (sb1 := sb_seal _). assert (is_block sb1) as Hs by (apply is_block_sb_seal; do 2 (apply is_bytes_splice_le; [|lia]); done).
  clearbody sb1. destruct (dev_write d1 0 sb1) as [d2 ok] eqn:E'. apply write_wf in E'; [|done..].
  destruct ok; cbn; by intros [= <- <- <- <-].
Qed.

Lemma rebuild_wf sb n : forall k t run s s' t', inv false [] s -> rebuild_clusters sb n k t run s = Some (s', t') -> inv false [] s'.
Proof.
  intros k t run s s' t' Hs E. enough (triple (inv false []) (rebuild_clusters sb n k t run) (fun _ => inv false [])) as H.
  { by eapply wp_elim in E; [|by apply H]. }
  clear. revert k t run. induction n as [|n IH]; intros k t run; cbn [rebuild_clusters]; [by apply triple_ret|].
  eapply triple_bind; [apply read_triple|]. intros r. apply triple_pure. intros _. destruct r as [b|]; [|by apply triple_ret].
  destruct (rebuild_block _ _ _ _ _ _ _) as [t1 []]; [apply IH|]. destruct (_ >=? _); [by apply triple_ret|apply IH].
Qed.

(** A mount that succeeds establishes the invariant. *)
Lemma mount_inv seg d m s : wf_dev d -> grahafs_v2_mount seg (fs_boot d m) = Some (s, 0) -> inv false [] s.
Proof.
  intros Hd H. unfold grahafs_v2_mount in H. apply bind_Some in H as (s1 & r & E & H).
  unfold grahafs_v2_block_read in E. destruct (dev_read _ 0) as [d1 r1] eqn:Er. apply read_wf in Er as [Hd1 Hr]; [|done].
  injection E as <- <-. destruct r1 as [sb|]; [|done]. specialize (Hr sb eq_refl).
  do 3 (destruct (negb _); [done|]). apply bind_Some in H as (s2 & ? & [= <- <-] & H).
  destruct (Z.eqb_spec seg 0); cbn [negb] in H; [|by injection H].
  apply bind_Some in H as (s3 & ok & [= <- <-] & H). apply bind_Some in H as (s4 & rc & E & H). unfold replay_step in E. cbn in E.
  destruct (journal_replay _ _ _ _) as [[[[j2 d2] sb2] rc2]|] eqn:Erep; [|done]. apply replay_wf in Erep as (Hd2 & Hsb2 & Hl2); [|done..].
  injection E as <- <-. destruct (Z.eqb_spec rc2 0); cbn [negb] in H; [|by injection H].
  apply bind_Some in H as (s5 & ? & [= <- <-] & H). apply bind_Some in H as (s6 & ok' & [= <- <-] & H).
  apply bind_Some in H as (s7 & sb' & [= <- <-] & H). apply bind_Some in H as (s8 & t & E & H).
  assert (inv false [] s8) as H8.
  { match type of E with (if _ then _ else _) ?s0 = _ => assert (inv false [] s0) as H0 end.
    2: { destruct (default _ _); [by eapply rebuild_wf|]. by injection E as <- <-. }
    split; cbn [jnl dev txn g_v2_sb g_inode_cache append_lock]; try done.
    - split; cbn; [lia|constructor].
    - intros k x He. apply lookup_replicate in He as [-> _]. apply is_inode_zero.
    - intros k x He. by apply lookup_replicate in He as [-> _].
    - intros k Hk. by apply elem_of_nil in Hk.
    - intros k k2 x x2 He _ Hl. apply lookup_replicate in He as [-> _]. done. }
  apply bind_Some in H as (s9 & ? & [= <- <-] & H). injection H as <-. by eapply inv_ext; try apply H8.
Qed.

(** ** Runs of operations *)
Inductive fs_op :=
| OpRead (node : vfs_node) (offset size : Z)
| OpWrite (node : vfs_node) (offset : Z) (data : list Z)
| OpCreate (parent : vfs_node) (name : list Z) (type : Z)
| OpTruncate (inode_num : Z)
| OpUnlink (parent : vfs_node) (name : list Z)
| OpFinddir (node : vfs_node) (name : list Z)
| OpReaddir (node : vfs_node) (index : Z)
| OpFsync (node : vfs_node).

(** What the caller passes has the C types. *)
Definition op_typed (op : fs_op) : Prop :=
  match op with
  | OpRead _ offset size => 0 <= offset /\ 0 <= size
  | OpWrite _ offset data => 0 <= offset /\ wf_bytes data
  | OpCreate _ name _ => wf_bytes name
  | _ => True
  end.

(** The value returned; 0 or 1 for a node. *)
Definition fs_exec (op : fs_op) : M fs Z :=
  match op with
  | OpRead node offset size => r ← grahafs_v2_read node offset size; mret (snd r)
  | OpWrite node offset data => r ← grahafs_v2_write node offset data; mret (snd r)
  | OpCreate parent name type => grahafs_v2_create parent name type
  | OpTruncate n => grahafs_v2_truncate_inode n
  | OpUnlink parent name => grahafs_v2_unlink parent name
  | OpFinddir node name => r ← grahafs_v2_finddir node name; mret (match r with Some _ => 1 | None => 0 end)
  | OpReaddir node i => r ← grahafs_v2_readdir node i; mret (match r with Some _ => 1 | None => 0 end)
  | OpFsync node => grahafs_v2_fsync node
  end.

Fixpoint fs_run (ops : list fs_op) : M fs (list Z) :=
  match ops with
  | [] => mret []
  | op :: ops => rc ← fs_exec op; rcs ← fs_run ops; mret (rc :: rcs)
  end.

Lemma exec_triple op : op_typed op -> triple (inv false []) (fs_exec op) (fun _ => inv false []).
Proof.
  destruct op; cbn [op_typed fs_exec]; intros Ht;
    try (apply (triple_bind _ _ _ (fun _ => inv false [])); [|intros ?; by apply triple_ret]).
  - destruct Ht. by apply fs_read_triple.
  - destruct Ht. by apply fs_write_triple.
  - by apply create_triple.
  - apply truncate_triple.
  - apply unlink_triple.
  - apply finddir_triple.
  - apply readdir_triple.
  - apply fsync_triple.
Qed.

(** C4: every operation returns.  After a successful mount, for all answers of the disk
    and of the memory allocator, any sequence of reads, writes, creations, truncations,
    removals, look-ups and syncs comes to an end, without waiting for a lock that is not
    released and with the fuel of the loops; then the journal's append lock is free, no
    inode is left pinned, no inode is cached twice, and everything stored has its type:
    blocks of 4096 bytes, inodes of 512. *)
Theorem fs_operations_complete (seg : Z) (d : device) (mem : list bool) (s : fs) (ops : list fs_op) :
  wf_dev d -> grahafs_v2_mount seg (fs_boot d mem) = Some (s, 0) -> Forall op_typed ops ->
  exists s' rcs, fs_run ops s = Some (s', rcs) /\ length rcs = length ops /\ inv false [] s'.
Proof.
  intros Hd Hm%mount_inv Hops; [|done].
  enough (triple (inv false []) (fs_run ops) (fun rcs s => inv false [] s /\ length rcs = length ops)) as H.
  { destruct (H s Hm) as (s' & rcs & ? & ? & ?). eauto 10. }
  clear Hm. induction Hops as [|op ops Hop _ IH]; cbn [fs_run]; [by apply triple_ret|].
  eapply triple_bind; [by apply exec_triple|]. intros rc. eapply triple_bind; [apply IH|]. intros rcs.
  apply triple_ret. intros s' [Hs Hl]. cbn. auto.
Qed.

Definition demo_fs_ops : list fs_op :=
  [OpCreate root_node f_name VFS_FILE; OpWrite f_node 0 [1; 2; 3]; OpRead f_node 0 10; OpUnlink root_node f_name;
   OpFinddir root_node f_name].

Lemma small_disk_wf : wf_dev (Device small_disk [] []).
Proof.
  assert (forall b, forallb (fun x => (0 <=? x) && (x <? 256)) b = true -> Z.of_nat (length b) = 4096 -> is_block b) as H.
  { intros b Hb Hl. split; [done|]. apply Forall_forall. intros x Hx%list_elem_of_In. eapply forallb_forall in Hb; [|exact Hx].
    unfold in_u. lia. }
  split; cbn; [intros l b Hb; by apply elem_of_nil in Hb|]. intros l b. unfold small_disk.
  rewrite !lookup_insert_Some, lookup_singleton_Some. intros [[_ <-]|[_ [[_ <-]|[_ [[_ <-]|[_ [_ <-]]]]]]]; apply H; by vm_compute.
Qed.

Lemma after_inv {A} (m : M fs A) s : triple (inv false []) m (fun _ => inv false []) -> inv false [] s -> inv false [] (after m s).
Proof. intros Hm Hs. destruct (Hm s Hs) as (s' & a & E & H). unfold after. by rewrite E. Qed.

Lemma after_result {A} (m : M fs A) s r : result m s = Some r -> m s = Some (after m s, r).
Proof. unfold result, after. destruct (m s) as [[s' r']|]; [|done]. by intros [= ->]. Qed.

Lemma small_mounted : grahafs_v2_mount 0 (fs_boot (Device small_disk [] []) []) = Some (small_fs, 0).
Proof. unfold small_fs. apply (after_result (grahafs_v2_mount 0) (fs_boot _ _) 0). by vm_compute. Qed.

Lemma small_fs_inv : inv false [] small_fs.
Proof. eapply mount_inv; [apply small_disk_wf|apply small_mounted]. Qed.

Lemma small_fs_f_inv : inv false [] small_fs_f.
Proof. apply after_inv; [apply create_triple; repeat constructor; by vm_compute|apply small_fs_inv]. Qed.

Lemma fs_operations_complete_witness :
  exists s' rcs, fs_run demo_fs_ops small_fs = Some (s', rcs) /\ length rcs = length demo_fs_ops /\ inv false [] s'.
Proof.
  apply (fs_operations_complete 0 (Device small_disk [] []) [] small_fs demo_fs_ops); [apply small_disk_wf|apply small_mounted|].
  repeat constructor; cbn; try lia; by vm_compute.
Defined.
