(* ===== verification/FsRead.v ===== *)
(** * GrahaFS v2: what a read returns

    The contents of a file are defined from the disk and the inode: byte [k] is found
    through the block tree, and a hole is zero.  A read gives exactly these bytes, up to
    the end of the file; after a disk failure it gives a prefix of them or an error. *)
From S2P Require Import Prelude Bytes Crc32 Cluster BlockDev Journal StateM GrahaFs FsDemo FsSafety.
Local Open Scope Z_scope.

(** ** File contents *)
Definition tree_slot (m : disk) (lba : Z) (k : Z) : Z := if lba =? 0 then 0 else slot (blk m lba) (Z.to_nat k).

Definition tree_lba (m : disk) (ino : inode) (n : Z) : Z :=
  if n <? 12 then i_direct ino (Z.to_nat n) else
  if n - 12 <? 1024 then tree_slot m (i_indirect ino) (n - 12) else
  if n - 1036 <? 1024 * 1024 then tree_slot m (tree_slot m (i_double ino) ((n - 1036) / 1024)) ((n - 1036) mod 1024)
  else 0.

Definition block_byte (b : block) (k : Z) : Z := default 0 (b !! Z.to_nat k).

Definition file_byte (m : disk) (ino : inode) (k : Z) : Z :=
  let lba := tree_lba m ino (k / 4096) in if lba =? 0 then 0 else block_byte (blk m lba) (k mod 4096).

Definition file_bytes (m : disk) (ino : inode) (off : Z) (n : nat) : list Z :=
  map (fun i => file_byte m ino (off + Z.of_nat i)) (seq 0 n).

Lemma length_file_bytes m ino off n : length (file_bytes m ino off n) = n.
Proof. unfold file_bytes. by rewrite length_map, length_seq. Qed.

Lemma file_bytes_app m ino off a b : file_bytes m ino off (a + b) = file_bytes m ino off a ++ file_bytes m ino (off + Z.of_nat a) b.
Proof.
  unfold file_bytes. rewrite seq_app, map_app. f_equal. replace (0 + a)%nat with (a + 0)%nat by lia.
  rewrite <- (fmap_add_seq a 0 b). change (Nat.add a <$> seq 0 b) with (map (Nat.add a) (seq 0 b)). rewrite map_map.
  apply map_ext. intros i. f_equal. lia.
Qed.

Lemma lookup_file_bytes m ino off n i : (i < n)%nat -> file_bytes m ino off n !! i = Some (file_byte m ino (off + Z.of_nat i)).
Proof. intros Hi. unfold file_bytes. by rewrite list_lookup_fmap, lookup_seq_lt. Qed.

(** One block's part of the contents. *)
Lemma file_bytes_block m ino off chunk b : 0 <= off -> Z.of_nat chunk <= 4096 - off mod 4096 ->
  (forall k, 0 <= k < Z.of_nat chunk -> file_byte m ino (off + k) = block_byte b (off mod 4096 + k)) ->
  Z.of_nat (length b) = 4096 ->
  file_bytes m ino off chunk = take chunk (drop (Z.to_nat (off mod 4096)) b).
Proof.
  intros Ho Hc Hb Hl. apply list_eq_same_length with chunk; [rewrite length_take, length_drop; zlia|apply length_file_bytes|].
  intros i x y Hi. rewrite lookup_file_bytes by done. rewrite lookup_take_lt, lookup_drop by done. intros [= <-] Hy.
  rewrite Hb by lia. unfold block_byte. replace (Z.to_nat (off mod 4096 + Z.of_nat i)) with (Z.to_nat (off mod 4096) + i)%nat by zlia.
  by rewrite Hy.
Qed.

(** ** Operations that only read

    Nothing changes but the answers consumed. *)
Definition quiet (s s' : fs) : Prop :=
  s' = (let d := dev s in {| s with dev := {| d with answers := answers (dev s') |} |}) /\
  (answers (dev s) = [] -> answers (dev s') = []).

#[export] Instance quiet_preorder : PreOrder quiet.
Proof.
  split.
  - intros [? ? ? ? ? ? ? [] ?]. done.
  - intros s1 s2 s3 [E1 H1] [E2 H2]. rewrite E1 in E2. cbn in E2. split; [done|auto].
Qed.

Lemma quiet_view s s' : quiet s s' -> view (dev s') = view (dev s).
Proof. intros [-> _]. done. Qed.

Lemma quiet_eq s s' : quiet s s' -> answers (dev s) = [] -> s' = s.
Proof. intros [E H] Ha. rewrite E, (H Ha). rewrite <- Ha. by destruct s as [? ? ? ? ? ? ? [] ?]. Qed.

Lemma block_read_spec s l : exists s' r, grahafs_v2_block_read l s = Some (s', r) /\ quiet s s' /\
  (r = Some (blk (view (dev s)) l) \/ r = None /\ answers (dev s) <> []).
Proof.
  unfold grahafs_v2_block_read, dev_read, answer, answered. eexists _, _. split; [done|]. split.
  - split; [done|]. cbn. by intros ->.
  - destruct (answers (dev s)) as [|[] ?]; auto.
Qed.

Lemma to_lba_spec s ino n : 0 <= n -> n < 12 \/ answers (dev s) = [] ->
  exists s', v2_block_index_to_lba ino n s = Some (s', tree_lba (view (dev s)) ino n) /\ quiet s s'.
Proof.
  intros Hn Hor. unfold v2_block_index_to_lba, tree_lba. destruct (Z.ltb_spec n 12); [by exists s|].
  destruct Hor as [|Ha]; [lia|]. exists s. split; [|done].
  assert (forall l k, v2_indirect_lookup l k s = Some (s, if l =? 0 then 0 else slot (blk (view (dev s)) l) k)) as Hl.
  { intros l k. unfold v2_indirect_lookup. destruct (l =? 0); [done|]. destruct (block_read_spec s l) as (s' & r & E & Hq & Hr).
    apply quiet_eq in Hq; [subst s'|done]. unfold mbind, M_bind. rewrite E. destruct Hr as [->|[_ ?]]; done. }
  destruct (n - 12 <? 1024); [apply Hl|]. replace (n - 12 - 1024) with (n - 1036) by lia.
  destruct (n - 1036 <? 1024 * 1024); [|done]. unfold mbind, M_bind. rewrite Hl. apply Hl.
Qed.

(** How a read ends: a prefix of the contents, complete if the disk answers. *)
Definition read_result (m : disk) (ino : inode) (off to_read : Z) (s s' : fs) (buf : list Z) (r : Z) : Prop :=
  quiet s s' /\ buf = file_bytes m ino off (length buf) /\ (r = Z.of_nat (length buf) \/ r = -5 /\ buf = []) /\
  (answers (dev s) = [] -> r = to_read).

Lemma read_result_quiet m ino off n s s1 s2 buf r : quiet s s1 -> read_result m ino off n s1 s2 buf r -> read_result m ino off n s s2 buf r.
Proof. intros Hq (H1 & H2 & H3 & H4). split; [by etrans|]. destruct Hq. auto. Qed.

Lemma take_drop_chunk m ino pos chunk lba : 0 <= pos -> Z.of_nat chunk <= 4096 - pos mod 4096 ->
  (forall l, Z.of_nat (length (blk m l)) = 4096) -> tree_lba m ino (pos / 4096) = lba ->
  file_bytes m ino pos chunk =
    if lba =? 0 then replicate chunk 0 else take chunk (drop (Z.to_nat (pos mod 4096)) (blk m lba)).
Proof.
  intros Hp Hc Hm <-.
  assert (forall k, 0 <= k < Z.of_nat chunk -> (pos + k) / 4096 = pos / 4096 /\ (pos + k) mod 4096 = pos mod 4096 + k) as Hk
    by (intros; zlia).
  destruct (tree_lba m ino (pos / 4096) =? 0) eqn:E.
  - apply list_eq_same_length with chunk; [apply length_replicate|apply length_file_bytes|].
    intros i x y Hi. rewrite lookup_file_bytes, lookup_replicate_2 by done. intros [= <-] [= <-].
    unfold file_byte. rewrite (proj1 (Hk (Z.of_nat i) ltac:(lia))), E. done.
  - apply file_bytes_block; [done|done| |done]. intros k Hk'. unfold file_byte.
    destruct (Hk k Hk') as [-> ->]. by rewrite E.
Qed.

(** The loop extends a prefix of the contents. *)
Lemma read_loop_spec m ino off to_read : (forall l, Z.of_nat (length (blk m l)) = 4096) ->
  0 <= off -> (off + to_read) / 4096 < 2 ^ 32 - 1 -> forall fuel s acc bi bo,
  view (dev s) = m -> off + to_read <= 12 * 4096 \/ answers (dev s) = [] ->
  acc = file_bytes m ino off (length acc) -> Z.of_nat (length acc) <= to_read ->
  let pos := off + Z.of_nat (length acc) in
  Z.of_nat (length acc) = to_read \/ bi = pos / 4096 /\ bo = pos mod 4096 ->
  enough_fuel fuel bo (to_read - Z.of_nat (length acc)) ->
  exists s' buf r, read_loop fuel ino to_read acc bi bo s = Some (s', (buf, r)) /\ read_result m ino off to_read s s' buf r.
Proof.
  intros Hm Hoff Hend. induction fuel as [|fuel IH]; intros s acc bi bo Hv Hor Hacc Hlen pos Hpos Hf; [by apply enough_pos in Hf as [? ?]|].
  cbn [read_loop]. destruct (Z.ltb_spec (Z.of_nat (length acc)) to_read) as [Hlt|]; cbn [negb].
  2: { exists s, acc, (Z.of_nat (length acc)). split; [done|]. split_and!; [done|done|by left|lia]. }
  destruct Hpos as [|[-> ->]]; [lia|]. assert (0 <= pos) as Hp by lia.
  destruct (to_lba_spec s ino (pos / 4096)) as (s1 & E1 & Hq1); [zlia|destruct Hor as [Hor|]; [left; zlia|by right]|].
  unfold mbind at 1, M_bind at 1. rewrite E1, Hv. set (lba := tree_lba m ino (pos / 4096)). set (chunk := Z.to_nat _).
  assert (Z.of_nat chunk = Z.min (4096 - pos mod 4096) (to_read - Z.of_nat (length acc))) as Hch by (unfold chunk; zlia).
  pose proof (take_drop_chunk m ino pos chunk lba Hp ltac:(lia) Hm eq_refl) as Hl.
  assert (forall s2 l, quiet s s2 -> l = file_bytes m ino pos chunk -> exists s' buf r,
    read_loop fuel ino to_read (acc ++ l) (u32 (pos / 4096 + 1)) 0 s2 = Some (s', (buf, r)) /\
    read_result m ino off to_read s s' buf r) as Hgo.
  { intros s2 l Hq2 ->. pose proof (length_file_bytes m ino pos chunk) as Hlc.
    destruct (IH s2 (acc ++ file_bytes m ino pos chunk) (u32 (pos / 4096 + 1)) 0) as (s' & buf & r & E & Hr);
      rewrite ?length_app, ?Hlc, ?Nat2Z.inj_add.
    - by rewrite (quiet_view _ _ Hq2).
    - destruct Hor as [|Ha]; [by left|right]. by apply Hq2.
    - rewrite file_bytes_app, <- Hacc. done.
    - lia.
    - destruct (decide (Z.of_nat (length acc) + Z.of_nat chunk = to_read)); [by left|right].
      rewrite wrap_small by (unfold in_u; zlia). zlia.
    - apply enough_next in Hf; [|lia].
      match goal with H : enough_fuel _ _ ?a |- enough_fuel _ _ ?b => replace b with a by lia end. done.
    - exists s', buf, r. split; [done|]. by eapply read_result_quiet. }
  destruct (lba =? 0); [by apply Hgo|].
  destruct (block_read_spec s1 lba) as (s2 & r & E2 & Hq2 & Hr). unfold mbind, M_bind. rewrite E2.
  assert (quiet s s2) as Hq by by etrans. rewrite (quiet_view _ _ Hq1), Hv in Hr. destruct Hr as [->|[-> Hne]]; [by apply Hgo|].
  eexists _, _, _. split; [done|]. split_and!; [done|done| |].
  - destruct (Z.gtb_spec (Z.of_nat (length acc)) 0); [by left|]. right. split; [done|]. destruct acc; [done|]. cbn in *. lia.
  - intros Ha. destruct Hne. by apply Hq1.
Qed.

(** ** Reading a file whose inode is cached *)
Definition cached (s : fs) (n : Z) (ino : inode) : Prop :=
  exists k e, find_index (holds n) (g_inode_cache s) = Some k /\ g_inode_cache s !! k = Some e /\ ic_disk e = ino.

Lemma alter_twice {A} (f g : A -> A) (k : nat) (l : list A) : (forall x, l !! k = Some x -> g (f x) = x) -> alter g k (alter f k l) = l.
Proof.
  intros H. apply list_eq. intros i. destruct (decide (i = k)) as [->|]; [|by rewrite !list_lookup_alter_ne].
  rewrite !list_lookup_alter_eq. destruct (l !! k) as [x|] eqn:E; cbn; [by rewrite H|done].
Qed.

(** Pinning and unpinning again leaves the cache as it was. *)
Lemma unpin_pin s k lock P : inv lock P s -> few P ->
  alter (fun e : inode_cache => if pinned_readers e >? 0 then {| e with pinned_readers := pinned_readers e - 1 |} else e) k
    (alter (fun e : inode_cache => {| e with pinned_readers := u32 (pinned_readers e + 1) |}) k (g_inode_cache s)) = g_inode_cache s.
Proof.
  intros Hs HP. apply alter_twice. intros e He. pose proof (in_pins _ _ _ Hs k e He) as Hp. pose proof (pins_bound P k).
  cbn. rewrite wrap_small by (unfold in_u; lia). destruct (Z.gtb_spec (pinned_readers e + 1) 0); [|lia].
  destruct e. cbn in *. f_equal. lia.
Qed.

Lemma get_cached s n k : g_v2_mounted s = true -> find_index (holds n) (g_inode_cache s) = Some k ->
  inode_cache_get n s =
  Some (set_cache (alter (fun e => {| e with pinned_readers := u32 (pinned_readers e + 1) |}) k (g_inode_cache s)) s, Some k).
Proof.
  intros Hm Hk. unfold inode_cache_get. unfold mbind, M_bind, gets. cbn [id]. rewrite Hm, Hk. done.
Qed.

Lemma snapshot_cached s n ino lock P : inv lock P s -> few P -> g_v2_mounted s = true -> cached s n ino ->
  snapshot n s = Some (s, Some ino).
Proof.
  intros Hs HP Hm (k & e & Hk & He & <-). unfold snapshot. unfold mbind at 1, M_bind at 1. rewrite (get_cached s n k Hm Hk).
  unfold mbind, M_bind, gets, inode_cache_put, modify, entry. cbn [g_inode_cache set_cache].
  rewrite (unpin_pin s k lock P Hs HP), list_lookup_alter_eq, He. cbn. by destruct s.
Qed.

Lemma view_len d : wf_dev d -> forall l, Z.of_nat (length (blk (view d) l)) = 4096.
Proof. intros Hd l. apply (view_block d l Hd). Qed.

(** C23: reading.  A read of a file or directory whose inode is in the cache, at any offset
    and of any length, fills the buffer with bytes of the file from that offset: the blocks
    are found through direct, indirect and double-indirect pointers, holes read as zeros.
    If the disk answers, exactly the part of the range before the end of the file is
    returned.  If the disk may fail, the range must lie in the 12 direct blocks (beyond
    them a failed read of a pointer block yields zeros); then what is returned is a prefix
    of the contents, or -5 with nothing read.  Nothing else changes. *)
Theorem read_correct (s : fs) (node : vfs_node) (off size : Z) (ino : inode) :
  inv false [] s -> g_v2_mounted s = true -> cached s (node_inode node) ino -> is_file_or_dir ino = true ->
  0 <= off -> 0 < size -> off + size < (2 ^ 32 - 1) * 4096 ->
  let n := Z.max 0 (Z.min size (i_size ino - off)) in
  off + n <= 12 * 4096 \/ answers (dev s) = [] ->
  exists s' buf r, grahafs_v2_read node off size s = Some (s', (buf, r)) /\
    read_result (view (dev s)) ino off n s s' buf r.
Proof.
  intros Hs Hm Hc Ht Ho Hsz Hmax n Hor. unfold grahafs_v2_read. unfold mbind at 1, M_bind at 1, gets at 1. rewrite Hm. cbn [negb].
  destruct (Z.eqb_spec size 0); [lia|]. unfold mbind, M_bind. rewrite (snapshot_cached s _ ino false []) by (done || lia).
  rewrite Ht. cbn [negb]. destruct (Z.geb_spec off (i_size ino)) as [Hge|Hlt].
  - exists s, [], 0. split; [done|]. split_and!; [done|done|by left|lia].
  - rewrite wrap_small by (unfold in_u; lia). 
    match goal with |- context [read_loop _ _ ?x] =>
      replace x with n by (unfold n; destruct (Z.gtb_spec (off + size) (i_size ino)); lia) end.
    rewrite wrap_small by (unfold in_u; zlia).
    apply read_loop_spec; [apply view_len, Hs|done|zlia|done|done|done|cbn; lia| |].
    + right. cbn. by rewrite Z.add_0_r.
    + cbn [length]. rewrite Z.sub_0_r. apply enough_loop; [lia|zlia].
Qed.

(** The file of [small_fs_f] with three bytes written. *)
Definition small_fs_w : fs := after (grahafs_v2_write f_node 0 [1; 2; 3]) small_fs_f.
Definition f_inode : inode := ic_disk (entry small_fs_w 1).

Lemma read_correct_witness :
  (exists s' buf r, grahafs_v2_read f_node 1 10 small_fs_w = Some (s', (buf, r)) /\
    read_result (view (dev small_fs_w)) f_inode 1 2 small_fs_w s' buf r) /\
  result (grahafs_v2_read f_node 1 10) small_fs_w = Some ([2; 3], 2).
Proof.
  split; [|by vm_compute].
  apply (read_correct small_fs_w f_node 1 10 f_inode); [| |exists 1%nat, (entry small_fs_w 1); split_and!; by vm_compute| |done|done|done|].
  - apply after_inv; [apply fs_write_triple; [done|repeat constructor; by vm_compute]|apply small_fs_f_inv].
  - by vm_compute.
  - by vm_compute.
  - right. by vm_compute.
Defined.
