(* ===== verification/FsWrite.v ===== *)
(** * GrahaFS v2: a write is atomic and does what it says

    Writing to a range whose blocks are allocated: the blocks a write stages are computed
    from the disk alone; together with the crash theorem of the journal this makes the
    write all or nothing across power loss, and the contents of the file after it are the
    old ones with the range replaced. *)
From S2P Require Import Prelude Bytes Crc32 Cluster BlockDev Journal JournalCrash StateM GrahaFs FsDemo FsSafety FsRead.
Local Open Scope Z_scope.

(** ** The blocks a write stages *)

(** Parts of the data by block: number, offset in the block, bytes. *)
Fixpoint pieces (fuel : nat) (n off : Z) (data : list Z) : list (Z * Z * list Z) :=
  match fuel with
  | O => []
  | S fuel =>
      if decide (data = []) then [] else
      let chunk := Nat.min (Z.to_nat (4096 - off)) (length data) in
      (n, off, take chunk data) :: pieces fuel (n + 1) 0 (drop chunk data)
  end.

Definition pieces_of (off : Z) (data : list Z) : list (Z * Z * list Z) :=
  pieces (loop_fuel (Z.of_nat (length data))) (off / 4096) (off mod 4096) data.

Definition piece_write (m : disk) (ino : inode) (p : Z * Z * list Z) : Z * Z * block :=
  let '(n, off, c) := p in
  (tree_lba m ino n, JOURNAL_BLOCK_KIND_DATA, splice (blk m (tree_lba m ino n)) (Z.to_nat off) c).

Definition inode_write (m : disk) (sb : block) (n : Z) (ino : inode) : Z * Z * block :=
  let '(lba, off) := inode_locate sb n in (lba, JOURNAL_BLOCK_KIND_METADATA, splice (blk m lba) off ino).

(** All of a write: the data, then the inode. *)
Definition write_blocks (m : disk) (sb : block) (n : Z) (ino : inode) (off : Z) (data : list Z) : list (Z * Z * block) :=
  map (piece_write m ino) (pieces_of off data) ++
  [inode_write m sb n (finish_inode ino (u64 (off + Z.of_nat (length data))))].

(** ** Staging

    A part of an operation that stages [bs] and otherwise only reads. *)
Definition stages (s s' : fs) (bs : list (Z * Z * block)) : Prop :=
  s' = (let d := dev s in {| s with dev := {| d with answers := answers (dev s') |}; mem := mem s'; txn := stage (txn s) bs |}) /\
  (answers (dev s) = [] -> answers (dev s') = []) /\ (mem s = [] -> mem s' = []).

Lemma stages_nil s : stages s s [].
Proof. destruct s as [? ? ? ? ? ? ? [] ?]. split; done. Qed.

Lemma stages_trans s1 s2 s3 bs bs' : stages s1 s2 bs -> stages s2 s3 bs' -> stages s1 s3 (bs ++ bs').
Proof.
  intros [E1 H1] [E2 H2]. split; [|destruct H1, H2; auto]. rewrite E2, E1. cbn. f_equal. unfold stage. by rewrite fold_left_app.
Qed.

Lemma quiet_stages s s' : quiet s s' -> stages s s' [].
Proof. intros [E H]. split; [|split; [done|by rewrite E]]. rewrite E at 1. cbn. by rewrite E. Qed.

Lemma stages_view s s' bs : stages s s' bs -> view (dev s') = view (dev s).
Proof. intros [-> _]. done. Qed.

Lemma length_stage bs : forall t, (length (refs t) + length bs <= 168)%nat -> length (refs (stage t bs)) = (length (refs t) + length bs)%nat.
Proof. intros t H. destruct (stage_refs bs t H) as [_ ->]. by rewrite length_app, length_map. Qed.

(** Nothing failed: the disk and the allocator always answer. *)
Definition reliable (s : fs) : Prop := answers (dev s) = [] /\ mem s = [].

(** Nor is a barrier made to fail. *)
Definition healthy (s : fs) : Prop := reliable s /\ barrier_fault_inject (jnl s) = false.

Lemma add_block_spec s lba kind b : (length (refs (txn s)) < 168)%nat -> exists s' rc bs,
  txn_add_block lba kind b s = Some (s', rc) /\ stages s s' bs /\
  (rc = 0 /\ bs = [(lba, kind, b)] \/ rc = -3 /\ bs = [] /\ mem s <> []).
Proof.
  intros Hl. unfold txn_add_block, kmalloc, txn_add_with. unfold mbind, M_bind. unfold journal_txn_add_block. cbn [txn].
  destruct (Z.geb_spec (Z.of_nat (length (refs (txn s)))) 168); [lia|].
  destruct (mem s) as [|[] ms] eqn:Em; cbn [head default tl negb].
  - eexists _, _, [(lba, kind, b)]. split; [done|]. split; [|by left]. split; [|split; [done|by cbn]].
    unfold stage. cbn. unfold journal_txn_add_block. destruct (Z.geb_spec (Z.of_nat (length (refs (txn s)))) 168); [lia|].
    by destruct s as [? ? ? ? ? ? ? [] ?].
  - eexists _, _, [(lba, kind, b)]. split; [done|]. split; [|by left]. split; [|split; [done|by cbn; rewrite Em]].
    unfold stage. cbn. unfold journal_txn_add_block. destruct (Z.geb_spec (Z.of_nat (length (refs (txn s)))) 168); [lia|].
    by destruct s as [? ? ? ? ? ? ? [] ?].
  - eexists _, _, []. split; [done|]. split; [|right; done]. split; [|split; [done|by cbn; rewrite Em]].
    by destruct s as [? ? ? ? ? ? ? [] ?].
Qed.

(** Looking up an allocated block in the allocating walk. *)
Lemma slot_alloc_spec s lba k kind : slot (blk (view (dev s)) lba) k <> 0 -> exists s' x,
  slot_alloc lba k kind s = Some (s', (x, false)) /\ quiet s s' /\
  (x = slot (blk (view (dev s)) lba) k \/ x = 0 /\ answers (dev s) <> []).
Proof.
  intros Hne. unfold slot_alloc. destruct (block_read_spec s lba) as (s1 & r & E & Hq & Hr). unfold mbind, M_bind. rewrite E.
  destruct Hr as [->|[-> Ha]]; [|exists s1, 0; split_and!; auto]. apply Z.eqb_neq in Hne. rewrite Hne. cbn [negb].
  exists s1. eexists. split_and!; [done|done|by left].
Qed.

Lemma tree_alloc_spec s ino n : 0 <= n -> tree_lba (view (dev s)) ino n <> 0 -> exists s' lba,
  v2_block_index_to_lba_alloc ino n s = Some (s', (ino, lba)) /\ quiet s s' /\
  (lba = tree_lba (view (dev s)) ino n \/ lba = 0 /\ answers (dev s) <> []).
Proof.
  intros Hn. unfold v2_block_index_to_lba_alloc, tree_lba, tree_slot. destruct (n <? 12).
  { intros Hne. apply Z.eqb_neq in Hne. rewrite Hne. apply Z.eqb_neq in Hne. exists s. eexists. split_and!; [done|done|by left]. }
  destruct (n - 12 <? 1024).
  { destruct (i_indirect ino =? 0) eqn:E0; [done|]. intros Hne. unfold mbind at 1, M_bind at 1. cbn. rewrite E0.
    destruct (slot_alloc_spec s (i_indirect ino) (Z.to_nat (n - 12)) 0 Hne) as (s1 & x & E & Hq & Hx).
    unfold mbind, M_bind. rewrite E. exists s1, x. split_and!; [done|done|]. destruct Hx; auto. }
  replace (n - 12 - 1024) with (n - 1036) by lia. destruct (n - 1036 <? 1024 * 1024); [|done].
  destruct (i_double ino =? 0) eqn:E0; [done|]. set (mid := slot (blk _ (i_double ino)) _). destruct (mid =? 0) eqn:Em; [done|].
  intros Hne. unfold mbind at 1, M_bind at 1. cbn. rewrite E0.
  destruct (slot_alloc_spec s (i_double ino) (Z.to_nat ((n - 1036) / 1024)) 1) as (s1 & x & E & Hq & Hx); [by apply Z.eqb_neq|].
  unfold mbind at 1, M_bind at 1. rewrite E. cbn [fst snd count_if]. fold mid in Hx. destruct Hx as [->|[-> Ha]].
  - rewrite Em. rewrite <- (quiet_view _ _ Hq) in Hne.
    destruct (slot_alloc_spec s1 mid (Z.to_nat ((n - 1036) mod 1024)) 0 Hne) as (s2 & x & E2 & Hq2 & Hx2).
    unfold mbind, M_bind. rewrite E2. exists s2, x. split_and!; [done|by etrans|]. rewrite (quiet_view _ _ Hq) in Hx2.
    destruct Hx2 as [|[-> H]]; [by left|right]. split; [done|]. intros Ha. by apply H, Hq.
  - exists s1, 0. split_and!; [done|done|by right].
Qed.

(** A partial block is read, a whole one is not: the same block results. *)
Lemma stage_chunk_spec s lba off c : wf_dev (dev s) -> (length (refs (txn s)) < 168)%nat -> exists s' rc bs,
  stage_chunk lba off c s = Some (s', rc) /\ stages s s' bs /\
  (rc = 0 /\ bs = [(lba, JOURNAL_BLOCK_KIND_DATA, splice (blk (view (dev s)) lba) (Z.to_nat off) c)] \/ rc < 0 /\ ~ reliable s).
Proof.
  intros Hd Hl. unfold stage_chunk. match goal with |- context [mbind _ ?g] => set (get_old := g) end.
  assert (exists s1 old, get_old s = Some (s1, old) /\ quiet s s1 /\ (old = None /\ answers (dev s) <> [] \/
    exists b, old = Some b /\ splice b (Z.to_nat off) c = splice (blk (view (dev s)) lba) (Z.to_nat off) c)) as (s1 & old & E1 & Hq & Hold).
  { unfold get_old. destruct (negb (off =? 0) || negb (Z.of_nat (length c) =? 4096)) eqn:E.
    - destruct (block_read_spec s lba) as (s1 & r & E1 & Hq & Hr). exists s1, r. split_and!; [done|done|].
      destruct Hr as [->|]; [right; eauto|by left].
    - apply orb_false_iff in E as [E1 E2]. apply negb_false_iff, Z.eqb_eq in E1, E2. subst off.
      exists s, (Some zero_page). split_and!; [done|done|]. right. eexists. split; [done|].
      unfold splice. cbn [Z.to_nat Nat.add]. rewrite !take_0. do 2 f_equal.
      rewrite !drop_ge; [done|pose proof (view_len _ Hd lba); lia|]. unfold zero_page. rewrite length_replicate. lia. }
  unfold mbind, M_bind. rewrite E1. destruct Hold as [[-> Ha]|(b & -> & Hb)].
  { exists s1, (-5), []. split_and!; [done|by apply quiet_stages|]. right. split; [done|]. by intros [? _]. }
  assert (txn s1 = txn s /\ mem s1 = mem s) as [Et Em] by (destruct Hq as [-> _]; done). rewrite Hb.
  destruct (add_block_spec s1 lba 0 (splice (blk (view (dev s)) lba) (Z.to_nat off) c)) as (s2 & rc & bs & E2 & Hs2 & Hrc); [by rewrite Et|].
  exists s2, rc, bs. split_and!; [done|by apply (stages_trans _ _ _ [] bs (quiet_stages _ _ Hq))|].
  destruct Hrc as [[-> ->]|(-> & -> & Hm)]; [by left|right]. split; [done|]. intros [_ ?]. congruence.
Qed.

Lemma write_loop_spec m ino : forall fuel s data written n off bi,
  0 <= written -> view (dev s) = m -> wf_dev (dev s) -> enough_fuel fuel off (Z.of_nat (length data)) ->
  0 <= n -> n + (Z.of_nat (length data) + off + 4095) / 4096 < 2 ^ 32 -> (data <> [] -> bi = n) ->
  let ps := pieces fuel n off data in
  Forall (fun p => tree_lba m ino (fst (fst p)) <> 0) ps ->
  (length (refs (txn s)) + length ps <= 168)%nat ->
  exists s' r bs, write_loop fuel ino data written bi off s = Some (s', r) /\ stages s s' bs /\
    (r = inl ino /\ bs = map (piece_write m ino) ps \/ (exists rc, r = inr rc /\ rc < written + Z.of_nat (length data)) /\ ~ reliable s).
Proof.
  induction fuel as [|fuel IH]; intros s data written n off bi Hw Hv Hd Hf Hn Hmax Hbi ps Hps Hlen; [by apply enough_pos in Hf as [? ?]|].
  cbn [write_loop]. unfold ps in *. cbn [pieces] in *. destruct (decide (data = [])) as [|Hne].
  { exists s, (inl ino), []. split_and!; [done|apply stages_nil|by left]. }
  assert (0 < length data)%nat by (destruct data; cbn; [done|lia]). specialize (Hbi Hne). subst bi. set (chunk := Nat.min _ _) in *. inversion_clear Hps as [|? ? Hp Hps']. cbn [fst] in Hp.
  rewrite <- Hv in Hp. destruct (tree_alloc_spec s ino n Hn Hp) as (s1 & lba & E1 & Hq1 & Hlba). rewrite Hv in Hlba, Hp.
  unfold mbind at 1, M_bind at 1. rewrite E1. destruct Hlba as [->|[-> Ha]].
  2: { exists s1. eexists _, []. split_and!; [done|by apply quiet_stages|]. right.
       split; [eexists; split; [done|]; destruct (Z.gtb_spec written 0); lia|]. by intros [? _]. }
  apply Z.eqb_neq in Hp. rewrite Hp. cbn [length] in Hlen.
  assert (txn s1 = txn s /\ mem s1 = mem s /\ wf_dev (dev s1)) as (Et & Em & Hd1) by (destruct Hq1 as [-> _]; done).
  destruct (stage_chunk_spec s1 (tree_lba m ino n) off (take chunk data)) as (s2 & rc & bs & E2 & Hs2 & Hrc); [done|rewrite Et; lia|].
  unfold mbind, M_bind. rewrite E2. assert (stages s s2 bs) as Hs by (by apply (stages_trans _ _ _ [] bs (quiet_stages _ _ Hq1))).
  rewrite (quiet_view _ _ Hq1), Hv in Hrc. destruct Hrc as [[-> ->]|(Hrc & Hrel)]; cbn [negb Z.eqb].
  2: { destruct (Z.eqb_spec rc 0); [lia|]. cbn [negb]. exists s2. eexists _, _. split_and!; [done|exact Hs|]. right.
       split; [exists rc; split; [done|lia]|]. intros [? ?]. apply Hrel. split; [by apply Hq1|congruence]. }
  destruct (proj1 Hf).
  destruct (IH s2 (drop chunk data) (written + Z.of_nat chunk) (n + 1) 0 (u32 (n + 1))) as (s3 & r & bs & E3 & Hs3 & Hr);
    rewrite ?length_drop.
  - lia.
  - by rewrite (stages_view _ _ _ Hs).
  - by destruct Hs as [-> _].
  - apply enough_next in Hf; [|lia]. unfold chunk.
    match goal with H : enough_fuel _ _ ?a |- enough_fuel _ _ ?b => replace b with a by lia end. done.
  - lia.
  - unfold chunk. zlia.
  - intros _. apply wrap_small. unfold in_u. zlia.
  - done.
  - destruct Hs as [-> _]. cbn [txn]. rewrite length_stage; cbn [length]; lia.
  - exists s3, r. eexists. split_and!; [exact E3|by eapply stages_trans|].
    destruct Hr as [[-> ->]|[(rc & -> & Hrc) Hrel]]; [by left|right]. split.
    + exists rc. split; [done|]. rewrite length_drop in Hrc. unfold chunk in *. lia.
    + intros [? ?]. apply Hrel. destruct Hs as (_ & ? & ?). split; auto.
Qed.

Lemma find_index_none {A} (f : A -> bool) l : Forall (fun x => f x = false) l -> find_index f l = None.
Proof. induction 1 as [|x l Hx _ IH]; [done|]. cbn. by rewrite Hx, IH. Qed.

Lemma stage_inode_spec s n ino :
  Forall (fun r => lba_target r <> fst (inode_locate (g_v2_sb s) n)) (refs (txn s)) -> (length (refs (txn s)) < 168)%nat ->
  exists s' rc bs, journal_stage_inode n ino s = Some (s', rc) /\ stages s s' bs /\
    (rc = 0 /\ bs = [inode_write (view (dev s)) (g_v2_sb s) n ino] \/ rc < 0 /\ ~ reliable s).
Proof.
  intros Hr Hl. unfold journal_stage_inode, inode_write. unfold mbind at 1, M_bind at 1, gets. cbn [id].
  destruct (inode_locate (g_v2_sb s) n) as [lba off]. cbn [fst] in Hr. unfold restage. rewrite find_index_none.
  2: { eapply Forall_impl; [exact Hr|]. intros r. apply Z.eqb_neq. }
  destruct (block_read_spec s lba) as (s1 & r & E1 & Hq & Hb). unfold mbind, M_bind. rewrite E1.
  destruct Hb as [->|[-> Ha]]; [|exists s1, (-5), []; split_and!; [done|by apply quiet_stages|]; right; split; [done|]; by intros [? _]].
  assert (txn s1 = txn s /\ mem s1 = mem s) as [Et Em] by (destruct Hq as [-> _]; done).
  destruct (add_block_spec s1 lba 1 (splice (blk (view (dev s)) lba) off ino)) as (s2 & rc & bs & E2 & Hs2 & Hrc); [by rewrite Et|].
  exists s2, rc, bs. split_and!; [done|by apply (stages_trans _ _ _ [] bs (quiet_stages _ _ Hq))|].
  destruct Hrc as [[-> ->]|(-> & -> & Hm)]; [by left|right]. split; [done|]. intros [_ ?]. congruence.
Qed.

(** ** The whole write

    What the caller has to provide: an open file, data, and a range whose blocks are
    allocated, apart from the file's inode and at most as many as a transaction holds. *)
Record write_ready (s : fs) (n : Z) (ino : inode) (off : Z) (data : list Z) : Prop := {
  wr_inv : inv false [] s;
  wr_mounted : g_v2_mounted s = true;
  wr_cached : cached s n ino;
  wr_type : is_file_or_dir ino = true;
  wr_off : 0 <= off;
  wr_data : data <> [];
  wr_end : off + Z.of_nat (length data) < (2 ^ 32 - 1) * 4096;
  wr_fits : (length (write_blocks (view (dev s)) (g_v2_sb s) n ino off data) <= 168)%nat;
  wr_alloc : Forall (fun p => tree_lba (view (dev s)) ino (fst (fst p)) <> 0 /\
    tree_lba (view (dev s)) ino (fst (fst p)) <> fst (inode_locate (g_v2_sb s) n)) (pieces_of off data)
}.

(** The new inode, the disk with fewer answers left, the result of writing the superblock. *)
Abbreviation new_inode ino off data := (finish_inode ino (u64 (off + Z.of_nat (length data)))).
Definition same_disk (d d' : device) : Prop := durable d' = durable d /\ cache d' = cache d.

Inductive write_outcome (s : fs) (n : Z) (ino : inode) (off : Z) (data : list Z) : fs -> Z -> Prop :=
| Write_stopped s' r : ~ reliable s -> r <> Z.of_nat (length data) -> same_disk (dev s) (dev s') ->
    write_outcome s n ino off data s' r
| Write_failed s' d j rc : ~ healthy s -> same_disk (dev s) d -> rc < 0 ->
    run_txn (jnl s) d (write_blocks (view (dev s)) (g_v2_sb s) n ino off data) = (j, dev s', rc) ->
    write_outcome s n ino off data s' rc
| Write_done s' d d' : same_disk (dev s) d ->
    run_txn (jnl s) d (write_blocks (view (dev s)) (g_v2_sb s) n ino off data) = (jnl s', d', 0) ->
    (same_disk d' (dev s') \/ durable (dev s') = durable d' /\ cache (dev s') = cache d' ++ [(0, sb_seal (g_v2_sb s))]) ->
    g_v2_sb s' = g_v2_sb s -> g_v2_mounted s' = true -> cached s' n (new_inode ino off data) ->
    write_outcome s n ino off data s' (Z.of_nat (length data)).

Lemma begin_spec s : append_lock (jnl s) = false -> exists s' ok, fs_txn_begin s = Some (s', ok) /\
  (ok = false /\ mem s <> [] /\ s' = {| s with mem := tl (mem s) |} \/
   ok = true /\ exists j t, journal_txn_begin true (jnl s) = Some (j, Some t) /\ refs t = [] /\
     s' = {| s with mem := tl (mem s); jnl := j; txn := t |}).
Proof.
  intros Hl. unfold fs_txn_begin, kmalloc, txn_begin_with, mbind, M_bind. unfold journal_txn_begin. cbn [jnl]. rewrite Hl.
  destruct (mem s) as [|[] ms]; cbn [head default tl negb]; eexists _, _; (split; [done|]).
  - right. split; [done|]. eexists _, _. split_and!; done.
  - right. split; [done|]. eexists _, _. split_and!; done.
  - by left.
Qed.

Lemma commit_rc j t d j' d' rc : journal_txn_commit j t d = (j', d', rc) -> rc = 0 \/ rc = -5.
Proof.
  unfold journal_txn_commit. destruct (decide _); [intros [= <- <- <-]; auto|]. destruct (write_journal _ _ _ _ _) as [d1 rc1].
  destruct (negb _); [intros [= <- <- <-]; auto|]. destruct (journal_barrier j d1) as [[j2 d2] rc2].
  destruct (negb _); [intros [= <- <- <-]; auto|]. destruct (write_list d2 _) as [d3 ok3].
  destruct ok3; cbn [negb]; [|intros [= <- <- <-]; auto]. destruct (journal_barrier j2 d3) as [[j4 d4] rc4].
  destruct (negb _); [intros [= <- <- <-]; auto|]. destruct (_ >=? _); intros [= <- <- <-]; auto.
Qed.

(** A commit on a disk that answers succeeds. *)
Lemma commit_healthy j t d : answers d = [] -> barrier_fault_inject j = false -> exists j' d', journal_txn_commit j t d = (j', d', 0).
Proof.
  intros Ha Hf. unfold journal_txn_commit, write_journal, journal_barrier, ahci_write_block, dev_write, dev_flush, answer. rewrite Ha, Hf.
  destruct (decide _); [by eauto|]. cbn [negb Z.eqb tl]. rewrite write_list_ok by done. cbn [negb Z.eqb answers answer tl]. rewrite Hf.
  cbn [negb Z.eqb]. rewrite write_list_ok by done. cbn [negb Z.eqb answers]. rewrite Hf. cbn [negb Z.eqb]. destruct (_ >=? _); eauto.
Qed.

Lemma write_sb_spec s : exists s' rc, v2_write_superblock s = Some (s', rc) /\
  s' = {| s with dev := dev s' |} /\
  (same_disk (dev s) (dev s') \/ durable (dev s') = durable (dev s) /\ cache (dev s') = cache (dev s) ++ [(0, sb_seal (g_v2_sb s))]).
Proof.
  unfold v2_write_superblock, mbind, M_bind, gets, grahafs_v2_block_write, dev_write. destruct (answer (dev s)); cbn;
    eexists _, _; (split; [done|]); cbn; (split; [done|]); [by right|by left].
Qed.

(** Staging the data and the inode, from the moment the transaction is open. *)
Lemma stage_write_spec s n ino off data : refs (txn s) = [] ->
  0 <= off -> data <> [] -> off + Z.of_nat (length data) < (2 ^ 32 - 1) * 4096 -> wf_dev (dev s) ->
  let m := view (dev s) in
  (length (write_blocks m (g_v2_sb s) n ino off data) <= 168)%nat ->
  Forall (fun p => tree_lba m ino (fst (fst p)) <> 0 /\ tree_lba m ino (fst (fst p)) <> fst (inode_locate (g_v2_sb s) n)) (pieces_of off data) ->
  exists s1 r bs1, write_loop (loop_fuel (Z.of_nat (length data))) ino data 0 (u32 (off / 4096)) (off mod 4096) s = Some (s1, r) /\
    stages s s1 bs1 /\ (~ reliable s /\ (exists rc, r = inr rc /\ rc < Z.of_nat (length data)) \/
      r = inl ino /\ exists s2 rc bs2, journal_stage_inode n (new_inode ino off data) s1 = Some (s2, rc) /\ stages s s2 bs2 /\
        (rc < 0 /\ ~ reliable s \/ rc = 0 /\ bs2 = write_blocks m (g_v2_sb s) n ino off data)).
Proof.
  intros Ht Ho Hne Hend Hd m Hlen Hp. unfold write_blocks in *. rewrite length_app, length_map in Hlen. cbn [length] in Hlen.
  assert (0 <= Z.of_nat (length data)) as Hl0 by lia. rewrite wrap_small by (unfold in_u; zlia).
  destruct (write_loop_spec m ino (loop_fuel (Z.of_nat (length data))) s data 0 (off / 4096) (off mod 4096) (off / 4096))
    as (s1 & r & bs1 & E1 & Hs1 & Hr); [done|done|done|apply enough_loop; [lia|zlia]|zlia|zlia|done| | |].
  - eapply Forall_impl; [exact Hp|]. by intros p [? _].
  - rewrite Ht. cbn [length]. unfold pieces_of in Hlen. lia.
  - exists s1, r, bs1. split; [done|]. split; [done|]. destruct Hr as [[-> ->]|[Hrc Hrel]]; [right|by left]. split; [done|].
    fold (pieces_of off data) in Hs1. pose proof Hs1 as (E & _ & _).
    assert (refs (txn s1) = map (fun '(lba, kind, b) => Block_ref lba kind b) (map (piece_write m ino) (pieces_of off data))) as Er.
    { rewrite E. cbn [txn]. destruct (stage_refs (map (piece_write m ino) (pieces_of off data)) (txn s)) as [_ ->]; rewrite Ht; cbn; [|done].
      rewrite length_map. lia. }
    destruct (stage_inode_spec s1 n (new_inode ino off data)) as (s2 & rc & bs & E2 & Hs2 & Hrc).
    + assert (g_v2_sb s1 = g_v2_sb s) as -> by by rewrite E. rewrite Er, map_map. apply List.Forall_map.
      eapply Forall_impl; [exact Hp|]. intros [[k o] c] [_ H]. exact H.
    + rewrite Er, !length_map. lia.
    + exists s2, rc. eexists. split; [done|]. split; [by eapply stages_trans|].
      assert (g_v2_sb s1 = g_v2_sb s) as Esb by by rewrite E. rewrite Esb, (stages_view _ _ _ Hs1) in Hrc. fold m in Hrc.
      destruct Hrc as [[-> ->]|[Hrc Hrel]]; [right; done|left]. split; [done|]. intros [? ?]. apply Hrel. destruct Hs1 as (_ & ? & ?). split; auto.
Qed.

Lemma find_index_alter {A} (p : A -> bool) f (k : nat) : (forall x, p (f x) = p x) -> forall l : list A, find_index p (alter f k l) = find_index p l.
Proof.
  intros Hf. induction k as [|k IH]; intros [|x l]; try done; cbn; [by rewrite Hf|].
  destruct (p x); [done|]. f_equal. apply IH.
Qed.

(** The end of a write whose transaction commits: the cache entry, the superblock, the pin. *)
Lemma finish_spec s k n w : find_index (holds n) (g_inode_cache s) = Some k -> g_v2_mounted s = true ->
  exists s', (store_inode k w true;; v2_write_superblock;; inode_cache_put k) s = Some (s', tt) /\ jnl s' = jnl s /\
    (same_disk (dev s) (dev s') \/ durable (dev s') = durable (dev s) /\ cache (dev s') = cache (dev s) ++ [(0, sb_seal (g_v2_sb s))]) /\
    g_v2_sb s' = g_v2_sb s /\ g_v2_mounted s' = true /\ cached s' n w.
Proof.
  intros Hk Hm. unfold mbind at 1, M_bind at 1, store_inode, modify. set (s1 := set_cache _ s).
  destruct (write_sb_spec s1) as (s2 & rc & E2 & Es2 & Hd2). unfold mbind, M_bind. rewrite E2. unfold inode_cache_put, modify.
  eexists. split; [done|]. cbn [jnl dev g_v2_sb g_v2_mounted set_cache]. rewrite Es2. cbn [jnl dev g_v2_sb g_v2_mounted g_inode_cache].
  split_and!; try done. apply find_index_Some in Hk as Hk'. destruct Hk' as (e & He & _). unfold cached. cbn [g_inode_cache set_cache].
  exists k. rewrite list_lookup_alter_eq. unfold s1. cbn [g_inode_cache set_cache]. rewrite list_lookup_alter_eq, He. eexists. split_and!; [|done|].
  - rewrite !find_index_alter; [done| |]; intros x; unfold holds; [done|]. by destruct (_ >? _).
  - cbn. by destruct (_ >? _).
Qed.

Lemma write_spec s node ino off data : write_ready s (node_inode node) ino off data ->
  exists s' node' r, grahafs_v2_write node off data s = Some (s', (node', r)) /\
    write_outcome s (node_inode node) ino off data s' r.
Proof.
  intros [Hinv Hm (k & e & Hk & He & <-) Ht Ho Hne Hend Hfits Hp]. set (n := node_inode node) in *. unfold grahafs_v2_write.
  unfold mbind at 1, M_bind at 1, gets at 1. rewrite Hm. cbn [negb].
  assert (0 < length data)%nat as Hl by (destruct data; cbn; [done|lia]). destruct (Z.eqb_spec (Z.of_nat (length data)) 0); [lia|].
  unfold mbind at 1, M_bind at 1. fold n. rewrite (get_cached s n k Hm Hk). set (s1 := set_cache _ s).
  unfold mbind at 1, M_bind at 1, gets at 1. assert (ic_disk (entry s1 k) = ic_disk e) as ->.
  { unfold entry, s1. cbn [g_inode_cache set_cache]. by rewrite list_lookup_alter_eq, He. }
  assert (find_index (holds n) (g_inode_cache s1) = Some k) as Hk1 by (cbn; by rewrite find_index_alter).
  rewrite Ht. cbn [negb]. destruct (begin_spec s1) as (s2 & ok & E2 & Hb); [apply Hinv|].
  unfold mbind at 1, M_bind at 1. rewrite E2. destruct Hb as [(-> & Hmem & ->)|(-> & j & t & Ej & Hrefs & ->)]; cbn [negb].
  { eexists _, _, _. split; [done|]. apply Write_stopped; [by intros [_ ?]|lia|done]. }
  set (s2 := {| s1 with mem := _; jnl := _; txn := _ |}) in *. change (jnl s1) with (jnl s) in Ej.
  assert (~ reliable s2 -> ~ reliable s) as Hrel by (intros H [H1 H2]; apply H; split; cbn; [done|by rewrite H2]).
  destruct (stage_write_spec s2 n (ic_disk e) off data) as (s3 & r & bs & E3 & Hs3 & Hr); [done|done|done|done|apply Hinv|done|done|].
  unfold mbind at 1, M_bind at 1. rewrite E3. destruct Hr as [(Hr & rc & -> & Hrc)|(-> & s4 & rc & bs4 & E4 & Hs4 & Hrc)].
  { eexists _, _, _. split; [done|]. destruct Hs3 as [-> _]. apply Write_stopped; [auto|lia|done]. }
  unfold mbind at 1, M_bind at 1. rewrite E4. destruct Hs4 as (Es4 & Hrel4 & _). destruct Hrc as [[Hrc Hr]|[-> ->]].
  { destruct (Z.eqb_spec rc 0); [lia|]. eexists _, _, _. split; [done|]. rewrite Es4. apply Write_stopped; [auto|lia|done]. }
  cbn [negb Z.eqb]. unfold mbind at 1, M_bind at 1, fs_txn_commit.
  destruct (journal_txn_commit (jnl s4) (txn s4) (dev s4)) as [[j' d'] rc] eqn:Ec. pose proof (commit_rc _ _ _ _ _ _ Ec) as Hrc.
  assert (run_txn (jnl s) (dev s4) (write_blocks (view (dev s)) (g_v2_sb s) n (ic_disk e) off data) = (j', d', rc)) as Erun.
  { unfold run_txn. rewrite Ej, <- Ec. f_equal; by rewrite Es4. }
  assert (same_disk (dev s) (dev s4)) as Hd4 by (rewrite Es4; done).
  destruct (Z.eqb_spec rc 0) as [->|Hne0]; cbn [negb].
  2: { eexists _, _, _. split; [done|]. eapply Write_failed; [|exact Hd4|lia|exact Erun]. intros [[Ha _] Hfi].
       destruct (commit_healthy (jnl s4) (txn s4) (dev s4)) as (? & ? & E); [by apply Hrel4| |congruence].
       assert (jnl s4 = j) as -> by by rewrite Es4. rewrite <- Hfi. unfold journal_txn_begin in Ej. destruct (append_lock _); [done|].
       cbn in Ej. by injection Ej as <- _. }
  set (s5 := {| s4 with jnl := _; dev := _ |}).
  destruct (finish_spec s5 k n (new_inode (ic_disk e) off data)) as (s6 & E6 & Ej6 & Hd6 & Esb & Hm6 & Hc6);
    [by cbn; rewrite Es4|by cbn; rewrite Es4|].
  exists s6. eexists _, _. split.
  - unfold mbind, M_bind in E6 |- *. destruct (store_inode _ _ _ s5) as [[s7 []]|]; [|done].
    destruct (v2_write_superblock s7) as [[s8 rc8]|]; [|done]. by rewrite E6.
  - eapply Write_done; [exact Hd4|by rewrite Ej6| | |done|done].
    + cbn in Hd6. assert (g_v2_sb s4 = g_v2_sb s) as E by by rewrite Es4. by rewrite E in Hd6.
    + rewrite Esb. cbn. by rewrite Es4.
Qed.

(** ** The contents after a write *)
(** The pieces are the data, cut at block boundaries. *)
Definition piece_ok (data : list Z) (start : Z) (p : Z * Z * list Z) : Prop :=
  let '(b, o, c) := p in
  0 <= o /\ o + Z.of_nat (length c) <= 4096 /\ start <= b * 4096 + o /\
  forall i, (i < length c)%nat -> c !! i = data !! Z.to_nat (b * 4096 + o + Z.of_nat i - start).

Lemma pieces_from fuel : forall n off data, enough_fuel fuel off (Z.of_nat (length data)) ->
  Forall (piece_ok data (n * 4096 + off)) (pieces fuel n off data) /\
  (forall k, 0 <= k < Z.of_nat (length data) -> exists o c, ((n * 4096 + off + k) / 4096, o, c) ∈ pieces fuel n off data /\
    o <= (n * 4096 + off + k) mod 4096 < o + Z.of_nat (length c)) /\
  (forall p, p ∈ pieces fuel n off data -> n <= fst (fst p)) /\
  (forall p q, p ∈ pieces fuel n off data -> q ∈ pieces fuel n off data -> fst (fst p) = fst (fst q) -> p = q).
Proof.
  induction fuel as [|fuel IH]; intros n off data Hf; [by apply enough_pos in Hf as [? ?]|]. cbn [pieces].
  destruct (decide (data = [])) as [->|Hne].
  { split; [constructor|]. split; [cbn; lia|]. split; [intros p H|intros p q H]; by apply elem_of_nil in H. }
  assert (0 < length data)%nat as Hl by (destruct data; cbn; [done|lia]). destruct (proj1 Hf) as [Ho1 Ho2].
  set (chunk := Nat.min _ _). assert (enough_fuel fuel 0 (Z.of_nat (length (drop chunk data)))) as Hf'.
  { apply enough_next in Hf; [|lia]. rewrite length_drop. unfold chunk.
    match goal with H : enough_fuel _ _ ?a |- enough_fuel _ _ ?b => replace b with a by lia end. done. }
  destruct (IH (n + 1) 0 (drop chunk data) Hf') as (I1 & I2 & I3 & I4). split_and!.
  - constructor.
    + cbn. rewrite length_take. split_and!; [lia|unfold chunk; lia|lia|]. intros i Hi. rewrite lookup_take_lt by lia. f_equal. lia.
    + eapply Forall_impl; [exact I1|]. intros [[b o] c] (H1 & H2 & H3 & H4). split_and!; [done|done|lia|]. intros i Hi.
      rewrite H4, lookup_drop by done. f_equal. enough (Z.of_nat chunk = 4096 - off) by lia.
      apply lookup_lt_is_Some_2 in Hi. rewrite H4 in Hi by (by apply lookup_lt_is_Some_1 in Hi). apply lookup_lt_is_Some_1 in Hi.
      rewrite length_drop in Hi. unfold chunk in *. lia.
  - intros k Hk. destruct (Z_lt_ge_dec k (Z.of_nat chunk)) as [Hlt|Hge].
    + exists off, (take chunk data). rewrite length_take. split; [|unfold chunk in *; zlia].
      replace ((n * 4096 + off + k) / 4096) with n by (unfold chunk in *; zlia). by left.
    + assert (Z.of_nat chunk = 4096 - off) as Hc by (unfold chunk in *; lia).
      destruct (I2 (k - Z.of_nat chunk)) as (o & c & Hin & Hr); [rewrite length_drop; lia|].
      replace ((n + 1) * 4096 + 0 + (k - Z.of_nat chunk)) with (n * 4096 + off + k) in Hin, Hr by lia.
      exists o, c. split; [by right|done].
  - intros p [->|Hp]%elem_of_cons; cbn; [lia|]. apply I3 in Hp. lia.
  - intros p q [->|Hp]%elem_of_cons [->|Hq]%elem_of_cons; cbn; intros E; [done| | |by apply I4].
    + apply I3 in Hq. lia.
    + apply I3 in Hp. lia.
Qed.

Lemma pieces_of_spec off data : 0 <= off ->
  (forall p, p ∈ pieces_of off data -> piece_ok data off p /\ 0 <= fst (fst p)) /\
  (forall k, off <= k < off + Z.of_nat (length data) -> exists o c, (k / 4096, o, c) ∈ pieces_of off data /\
    o <= k mod 4096 < o + Z.of_nat (length c)) /\
  (forall p q, p ∈ pieces_of off data -> q ∈ pieces_of off data -> fst (fst p) = fst (fst q) -> p = q).
Proof.
  intros Ho. unfold pieces_of. destruct (pieces_from (loop_fuel (Z.of_nat (length data))) (off / 4096) (off mod 4096) data) as (H1 & H2 & H3 & H4).
  { apply enough_loop; [lia|zlia]. }
  replace (off / 4096 * 4096 + off mod 4096) with off in * by zlia. split_and!; [|intros k Hk|done].
  - intros p Hp. split; [by eapply Forall_forall in H1|]. apply H3 in Hp. zlia.
  - specialize (H2 (k - off) ltac:(lia)). by replace (off + (k - off)) with k in H2 by lia.
Qed.

(** The blocks of a file: no data block is shared, or is a pointer block, or holds the
    inode. *)
Record file_apart (m : disk) (ilba : Z) (ino : inode) : Prop := {
  fa_inj : forall a b, 0 <= a -> 0 <= b -> tree_lba m ino a <> 0 -> tree_lba m ino a = tree_lba m ino b -> a = b;
  fa_data : forall a, 0 <= a -> tree_lba m ino a <> 0 -> tree_lba m ino a <> i_indirect ino /\ tree_lba m ino a <> i_double ino /\
    (forall j, 0 <= j < 1024 -> tree_lba m ino a <> tree_slot m (i_double ino) j) /\ tree_lba m ino a <> ilba;
  fa_inode : ilba <> i_indirect ino /\ ilba <> i_double ino /\ forall j, 0 <= j < 1024 -> ilba <> tree_slot m (i_double ino) j
}.

Definition patched (m : disk) (ino : inode) (off : Z) (data : list Z) (k : Z) : Z :=
  if (off <=? k) && (k <? off + Z.of_nat (length data)) then default 0 (data !! Z.to_nat (k - off)) else file_byte m ino k.

(** The inode of a number on disk. *)
Definition disk_inode (m : disk) (sb : block) (n : Z) : inode :=
  let '(lba, off) := inode_locate sb n in take 512 (drop off (blk m lba)).

(** Updating sizes and times leaves the pointers alone. *)
Lemma seal_field w a b : is_inode w -> (a + b <= 368)%nat -> field (seal_inode w) a b = field w a b.
Proof.
  intros [Hl Hw] H. unfold seal_inode. rewrite !field_splice_ne; try done; rewrite ?length_splice; rewrite ?length_le; lia.
Qed.

Lemma finish_field w x a b : is_inode w -> (56 <= a)%nat -> (a + b <= 368)%nat -> field (finish_inode w x) a b = field w a b.
Proof.
  intros Hw Ha Hb. assert (forall v, is_inode v -> field (seal_inode (modified v)) a b = field v a b) as H.
  { intros v [Hl Hv]. rewrite seal_field; [|by apply is_bytes_splice_le; [|lia]|lia]. unfold modified.
    apply field_splice_ne; rewrite ?length_le; lia. }
  unfold finish_inode. destruct (_ >? _); [rewrite H by auto with bytes|by rewrite H]. unfold set_size. destruct Hw.
  apply field_splice_ne; rewrite ?length_le; lia.
Qed.

Lemma finish_size w x : is_inode w -> in_u 64 x -> i_size (finish_inode w x) = Z.max (i_size w) x.
Proof.
  intros Hw Hx. assert (forall v, is_inode v -> i_size (seal_inode (modified v)) = i_size v) as H.
  { intros v [Hl Hv]. unfold i_size. rewrite seal_field; [|by apply is_bytes_splice_le; [|lia]|lia]. unfold modified.
    apply field_splice_ne; rewrite ?length_le; lia. }
  unfold finish_inode. destruct (Z.gtb_spec x (i_size w)); [rewrite H by auto with bytes|rewrite H by done; lia].
  destruct Hw. unfold i_size, set_size. rewrite field_splice_eq; [|done|lia]. fold (i_size w). lia.
Qed.

Lemma finish_pointers w x : is_inode w ->
  (forall k, (k < 12)%nat -> i_direct (finish_inode w x) k = i_direct w k) /\
  i_indirect (finish_inode w x) = i_indirect w /\ i_double (finish_inode w x) = i_double w.
Proof. intros Hw. split_and!; [intros k Hk| |]; apply finish_field; (done || lia). Qed.

Lemma tree_slot_ext m m' lba k : (lba <> 0 -> blk m' lba = blk m lba) -> tree_slot m' lba k = tree_slot m lba k.
Proof. unfold tree_slot. destruct (Z.eqb_spec lba 0) as [|Hne]; [done|]. intros H. by rewrite H. Qed.

Lemma tree_lba_ext m m' ino ino' a : 0 <= a ->
  (forall k, (k < 12)%nat -> i_direct ino' k = i_direct ino k) -> i_indirect ino' = i_indirect ino -> i_double ino' = i_double ino ->
  (i_indirect ino <> 0 -> blk m' (i_indirect ino) = blk m (i_indirect ino)) ->
  (i_double ino <> 0 -> blk m' (i_double ino) = blk m (i_double ino)) ->
  (forall j, 0 <= j < 1024 -> let l := tree_slot m (i_double ino) j in l <> 0 -> blk m' l = blk m l) ->
  tree_lba m' ino' a = tree_lba m ino a.
Proof.
  intros Ha Hd Ei Edd Hi Hdd Hmid. unfold tree_lba. rewrite Ei, Edd. destruct (Z.ltb_spec a 12); [apply Hd; lia|].
  destruct (Z.ltb_spec (a - 12) 1024); [by apply tree_slot_ext|]. destruct (Z.ltb_spec (a - 1036) (1024 * 1024)); [|done].
  rewrite (tree_slot_ext m m' (i_double ino)) by done. apply tree_slot_ext. apply Hmid. zlia.
Qed.

Lemma block_byte_splice b o c k : (Z.to_nat o + length c <= length b)%nat -> 0 <= o -> 0 <= k ->
  block_byte (splice b (Z.to_nat o) c) k =
    if (o <=? k) && (k <? o + Z.of_nat (length c)) then default 0 (c !! Z.to_nat (k - o)) else block_byte b k.
Proof.
  intros Hl Ho Hk. unfold block_byte, splice. destruct (Z.leb_spec o k), (Z.ltb_spec k (o + Z.of_nat (length c))); cbn [andb].
  - rewrite lookup_app_r, lookup_app_l; rewrite length_take; [|lia|lia]. do 2 f_equal. lia.
  - rewrite lookup_app_r, lookup_app_r, lookup_drop; rewrite ?length_take; [|lia|lia]. do 2 f_equal. lia.
  - rewrite lookup_app_l, lookup_take_lt; rewrite ?length_take; [done|lia|lia].
  - lia.
Qed.

Section after_write.
  Context (m : disk) (sb : block) (n : Z) (ino : inode) (off : Z) (data : list Z).
  Hypothesis Hm : forall l, Z.of_nat (length (blk m l)) = 4096.
  Hypothesis Hino : is_inode ino.
  Hypothesis Hoff : 0 <= off.
  Hypothesis Hend : off + Z.of_nat (length data) < 2 ^ 64.
  Hypothesis Halloc : Forall (fun p => tree_lba m ino (fst (fst p)) <> 0) (pieces_of off data).
Let ilba := fst (inode_locate sb n).
  Hypothesis Hapart : file_apart m ilba ino.
Let ino' := new_inode ino off data.
Let ws := block_writes (write_blocks m sb n ino off data).
Let m' := apply_writes ws m.

Lemma write_targets l b : (l, b) ∈ ws <->
  (exists n o c, (n, o, c) ∈ pieces_of off data /\ l = tree_lba m ino n /\ b = splice (blk m l) (Z.to_nat o) c) \/
  l = ilba /\ b = splice (blk m ilba) (snd (inode_locate sb n)) ino'.
Proof.
  unfold ws, block_writes, write_blocks. rewrite map_app, elem_of_app, map_map. unfold inode_write, ilba.
  destruct (inode_locate sb n) as [li oi]. cbn [map fst snd]. rewrite list_elem_of_singleton.
  assert (forall P Q R : Prop, (P <-> Q) -> (P \/ R <-> Q \/ R)) as Hor by tauto.
  etrans; [apply Hor|apply or_iff_compat_l; split; [by intros [= -> ->]|by intros [-> ->]]].
  rewrite list_elem_of_In, in_map_iff. split.
  - intros ([[a o] c] & [= <- <-] & Hin%list_elem_of_In). eauto 10.
  - intros (a & o & c & Hin%list_elem_of_In & -> & ->). by exists (a, o, c).
Qed.

Lemma piece_number a o c : (a, o, c) ∈ pieces_of off data -> 0 <= a /\ tree_lba m ino a <> 0.
Proof.
  intros Hin. split; [by apply (pieces_of_spec off data Hoff) in Hin as [_ ?]|]. by eapply Forall_forall in Halloc; [|exact Hin].
Qed.

Lemma untouched l : (forall a, 0 <= a -> tree_lba m ino a <> 0 -> l <> tree_lba m ino a) -> l <> ilba -> blk m' l = blk m l.
Proof.
  intros Hl Hi. unfold m'. apply apply_writes_notin. intros b [(a & o & c & Hin & -> & _)|[-> _]]%write_targets; [|done].
  destruct (piece_number a o c Hin). by apply (Hl a).
Qed.

Lemma after_piece a o c : (a, o, c) ∈ pieces_of off data -> blk m' (tree_lba m ino a) = splice (blk m (tree_lba m ino a)) (Z.to_nat o) c.
Proof.
  intros Hin. destruct (piece_number a o c Hin) as [Ha1 Ha2]. apply apply_writes_unique.
  - apply write_targets. left. eauto 10.
  - intros b' [(a' & o' & c' & Hin' & El & ->)|[El _]]%write_targets.
    + destruct (piece_number a' o' c' Hin') as [Ha1' Ha2']. apply (fa_inj _ _ _ Hapart) in El; [|done..]. subst a'.
      destruct (pieces_of_spec off data Hoff) as (_ & _ & H3). specialize (H3 _ _ Hin Hin' eq_refl). by injection H3 as <- <-.
    + destruct (fa_data _ _ _ Hapart a Ha1 Ha2) as (_ & _ & _ & ?). done.
Qed.

Lemma after_inode : blk m' ilba = splice (blk m ilba) (snd (inode_locate sb n)) ino'.
Proof.
  apply apply_writes_unique; [apply write_targets; by right|].
  intros b' [(a & o & c & Hin & El & _)|[_ ->]]%write_targets; [|done]. exfalso.
  destruct (piece_number a o c Hin) as [Ha1 Ha2]. by destruct (fa_data _ _ _ Hapart a Ha1 Ha2) as (_ & _ & _ & ?).
Qed.

Lemma after_tree a : 0 <= a -> tree_lba m' ino' a = tree_lba m ino a.
Proof.
  intros Ha. destruct (finish_pointers ino (u64 (off + Z.of_nat (length data))) Hino) as (H1 & H2 & H3).
  destruct (fa_inode _ _ _ Hapart) as (I1 & I2 & I3). pose proof (fa_data _ _ _ Hapart) as Hd.
  apply tree_lba_ext; [done|done|done|done|intros ?|intros ?|cbv zeta; intros j Hj ?]; (apply untouched; [intros b Hb Hne|first [congruence|by apply not_eq_sym, I3]]);
    destruct (Hd b Hb Hne) as (? & ? & ? & ?); apply not_eq_sym; auto.
Qed.

(** A block no piece of which is written. *)
Lemma after_other a : 0 <= a -> tree_lba m ino a <> 0 -> (forall o c, (a, o, c) ∉ pieces_of off data) ->
  blk m' (tree_lba m ino a) = blk m (tree_lba m ino a).
Proof.
  intros Ha Hne Hno. apply apply_writes_notin. intros b [(a' & o & c & Hin & El & _)|[El _]]%write_targets.
  - apply (fa_inj _ _ _ Hapart) in El; [|done|by apply (piece_number _ _ _ Hin)|done]. subst a'. by apply (Hno o c).
  - by destruct (fa_data _ _ _ Hapart a Ha Hne) as (_ & _ & _ & ?).
Qed.

Lemma after_bytes k : 0 <= k -> file_byte m' ino' k = patched m ino off data k.
Proof.
  intros Hk. unfold file_byte. rewrite after_tree by zlia. destruct (pieces_of_spec off data Hoff) as (H1 & H2 & H3).
  pose proof (Hm (tree_lba m ino (k / 4096))) as Hlen. unfold patched.
  destruct ((off <=? k) && (k <? off + Z.of_nat (length data))) eqn:E.
  - destruct (H2 k ltac:(lia)) as (o & c & Hin & Hr). destruct (piece_number _ _ _ Hin) as [_ Hne]. apply Z.eqb_neq in Hne. rewrite Hne.
    rewrite (after_piece _ _ _ Hin). destruct (H1 _ Hin) as [(P1 & P2 & P3 & P4) _].
    rewrite block_byte_splice by (zlia || lia). destruct (Z.leb_spec o (k mod 4096)), (Z.ltb_spec (k mod 4096) (o + Z.of_nat (length c))); try lia.
    cbn [andb]. rewrite P4 by lia. do 2 f_equal. zlia.
  - unfold file_byte. destruct (Z.eqb_spec (tree_lba m ino (k / 4096)) 0) as [|Hne]; [done|].
    destruct (decide (Exists (fun p => fst (fst p) = k / 4096) (pieces_of off data))) as [([[a o] c] & Hin & Ea)%Exists_exists|Hno].
    + cbn in Ea. subst a. rewrite (after_piece _ _ _ Hin). destruct (H1 _ Hin) as [(P1 & P2 & P3 & P4) _].
      rewrite block_byte_splice by (zlia || lia).
      destruct (Z.leb_spec o (k mod 4096)), (Z.ltb_spec (k mod 4096) (o + Z.of_nat (length c))); try done. exfalso. cbn in P3.
      assert (Z.to_nat (k mod 4096 - o) < length c)%nat as Hi by lia. pose proof (P4 _ Hi) as Hp.
      apply lookup_lt_is_Some_2 in Hi. rewrite Hp in Hi. apply lookup_lt_is_Some_1 in Hi. zlia.
    + rewrite after_other; [done|zlia|done|]. intros o c Hin. apply Hno, Exists_exists. eexists. split; [exact Hin|done].
Qed.

Lemma after_disk_inode : disk_inode m' sb n = ino'.
Proof.
  unfold disk_inode. pose proof after_inode as Hi. pose proof (locate_off sb n) as Hoff'. unfold ilba in Hi.
  destruct (inode_locate sb n) as [li oi]. cbn [fst snd] in *. rewrite Hi. unfold splice. pose proof (Hm li).
  assert (is_inode ino') as [Hl _] by by apply is_inode_finish.
  rewrite drop_app_length' by (rewrite length_take; lia). by rewrite take_app_length' by lia.
Qed.
End after_write.

(** ** Crash safety *)

(** The file with number [n] on a disk. *)
Definition holds_file (m : disk) (sb : block) (n : Z) (ino : inode) (contents : Z -> Z) : Prop :=
  disk_inode m sb n = ino /\ forall k, 0 <= k -> file_byte m ino k = contents k.

(** All blocks of the file lie in the file system area. *)
Record file_home (base jend : Z) (m : disk) (ilba : Z) (ino : inode) : Prop := {
  fh_inode : is_home base jend ilba;
  fh_indirect : i_indirect ino <> 0 -> is_home base jend (i_indirect ino);
  fh_double : i_double ino <> 0 -> is_home base jend (i_double ino);
  fh_mid : forall j, 0 <= j < 1024 -> let l := tree_slot m (i_double ino) j in l <> 0 -> is_home base jend l;
  fh_data : forall a, 0 <= a -> let l := tree_lba m ino a in l <> 0 -> is_home base jend l
}.

Lemma holds_file_ext base jend m m' sb n ino contents : home_eq base jend m' m ->
  file_home base jend m (fst (inode_locate sb n)) ino -> holds_file m sb n ino contents -> holds_file m' sb n ino contents.
Proof.
  intros He [H1 H2 H3 H4 H5] [Hi Hb]. split.
  - rewrite <- Hi. unfold disk_inode. destruct (inode_locate sb n) as [li oi]. cbn [fst] in H1. by rewrite He.
  - intros k Hk. rewrite <- Hb by done. unfold file_byte.
    rewrite (tree_lba_ext m m' ino ino); [|zlia|done..|by intros ?; apply He, H2|by intros ?; apply He, H3|by cbv zeta; intros j Hj ?; apply He, H4].
    destruct (Z.eqb_spec (tree_lba m ino (k / 4096)) 0); [done|]. rewrite He; [done|]. apply H5; [zlia|done].
Qed.

(** A power loss leaves a disk that mounts with the file as given. *)
Definition recovers_file (base jend : Z) (img : disk) (sb : block) (n : Z) (ino : inode) (contents : Z -> Z) : Prop :=
  exists j d, mount_journal true 0 (Device img [] []) = Some (j, d, 0) /\ holds_file (view d) sb n ino contents.

Lemma recovers_to_file base jend img m sb n ino contents : recovers base jend img m ->
  file_home base jend m (fst (inode_locate sb n)) ino -> holds_file m sb n ino contents ->
  recovers_file base jend img sb n ino contents.
Proof. intros (j & d & E & Hh) Hf Hm. exists j, d. split; [done|]. by eapply holds_file_ext. Qed.

Lemma settled_same base size j d d' next : same_disk d d' -> settled base size j d next -> settled base size j d' next.
Proof. intros [E1 E2] []. split; rewrite ?E1, ?E2; done. Qed.

(** A good superblock in the cache does no harm. *)
Lemma settled_sb base size j d d' next b : durable d' = durable d -> cache d' = cache d ++ [(0, b)] -> sb_good base size b ->
  settled base size j d next -> settled base size j d' next.
Proof.
  intros E1 E2 Hb []. split; rewrite ?E1; try done. rewrite E2. intros l b' [H|H]%elem_of_app; [by apply se_cache|].
  apply list_elem_of_singleton in H as [= -> ->]. done.
Qed.

(** What the theorem asks for: the journal and the superblock are in order, the cached
    inode is the one on disk, the file's blocks do not overlap, the staged blocks do not
    imitate journal records and the checksum separates mixtures. *)
Record write_safe (base size : Z) (s : fs) (n : Z) (ino : inode) (off : Z) (data : list Z) : Prop := {
  ws_base : 0 < base; ws_size : 170 <= size; ws_end : base + size < 2 ^ 64;
  ws_ready : write_ready s n ino off data;
  ws_settled : settled base size (jnl s) (dev s) (next_txn_id (jnl s));
  ws_next : next_txn_id (jnl s) + 1 < 2 ^ 64;
  ws_sb : sb_fields base size (g_v2_sb s);
  ws_disk : disk_inode (view (dev s)) (g_v2_sb s) n = ino;
  ws_apart : file_apart (view (dev s)) (fst (inode_locate (g_v2_sb s) n)) ino;
  ws_home : file_home base (base + size) (view (dev s)) (fst (inode_locate (g_v2_sb s) n)) ino;
  ws_refs : Forall (fun '(lba, kind, b) => ref_ok base (base + size) (Block_ref lba kind b))
    (write_blocks (view (dev s)) (g_v2_sb s) n ino off data);
  ws_collision : no_collision base (base + size) (durable (dev s))
    (staged (jnl s) (write_blocks (view (dev s)) (g_v2_sb s) n ino off data))
}.

Lemma cached_inode s n ino lock P : inv lock P s -> cached s n ino -> is_inode ino.
Proof. intros Hs (k & e & _ & He & <-). by eapply (in_disk _ _ _ Hs). Qed.

(** The new file on the disk with the staged blocks in place. *)
Lemma new_file base size s n ino off data : write_safe base size s n ino off data ->
  let m' := apply_writes (block_writes (write_blocks (view (dev s)) (g_v2_sb s) n ino off data)) (view (dev s)) in
  holds_file m' (g_v2_sb s) n (new_inode ino off data) (patched (view (dev s)) ino off data) /\
  file_home base (base + size) m' (fst (inode_locate (g_v2_sb s) n)) (new_inode ino off data).
Proof.
  intros [Hb Hsz He [Hinv Hmt Hc Ht Ho Hne Hend Hfits Hp] _ _ _ Hdisk Hap Hh _ _] m'.
  pose proof (view_len _ (in_dev _ _ _ Hinv)) as Hm. pose proof (cached_inode _ _ _ _ _ Hinv Hc) as Hi.
  assert (Forall (fun p => tree_lba (view (dev s)) ino (fst (fst p)) <> 0) (pieces_of off data)) as Ha.
  { eapply Forall_impl; [exact Hp|]. by intros p [? _]. }
  split; [split|].
  - by apply after_disk_inode.
  - intros k Hk. by apply after_bytes.
  - destruct (finish_pointers ino (u64 (off + Z.of_nat (length data))) Hi) as (_ & E1 & E2). destruct Hh as [H1 H2 H3 H4 H5].
    destruct (fa_inode _ _ _ Hap) as (I1 & I2 & I3). pose proof (fa_data _ _ _ Hap) as Hd.
    split; cbv zeta; rewrite ?E1, ?E2; try done.
    + intros j Hj. rewrite (tree_slot_ext (view (dev s)) m'); [by apply H4|]. intros Hn0. apply untouched; try done.
      intros a Ha0 Hn. apply not_eq_sym. by destruct (Hd a Ha0 Hn) as (_ & ? & _).
    + intros a Ha0. unfold m'. rewrite after_tree by done. by apply H5.
Qed.

(** Recovering the old disk gives the old file, recovering the staged blocks gives the
    new one. *)
Lemma recovered_file base size s n ino off data : write_safe base size s n ino off data ->
  let bs := write_blocks (view (dev s)) (g_v2_sb s) n ino off data in
  (forall img, recovers base (base + size) img (durable (dev s)) ->
     recovers_file base (base + size) img (g_v2_sb s) n ino (file_byte (view (dev s)) ino)) /\
  (forall img, recovers base (base + size) img (apply_writes (block_writes bs) (durable (dev s))) ->
     recovers_file base (base + size) img (g_v2_sb s) n (new_inode ino off data) (patched (view (dev s)) ino off data)) /\
  (forall m, home_eq base (base + size) m (apply_writes (block_writes bs) (durable (dev s))) ->
     holds_file m (g_v2_sb s) n (new_inode ino off data) (patched (view (dev s)) ino off data)).
Proof.
  intros Hsafe bs. pose proof (new_file _ _ _ _ _ _ _ Hsafe) as [Hnew Hhome]. cbv zeta in Hnew, Hhome. fold bs in Hnew, Hhome.
  destruct Hsafe as [Hb Hsz He Hready Hset Hnext Hsb Hdisk Hap Hh Hrefs Hcol].
  pose proof (view_away base size (jnl s) (dev s) _ Hset) as Hview.
  assert (home_eq base (base + size) (durable (dev s)) (view (dev s))) as Hve by (intros l [Hl _]; by rewrite Hview).
  assert (home_eq base (base + size) (apply_writes (block_writes bs) (durable (dev s))) (apply_writes (block_writes bs) (view (dev s)))) as Hne.
  { intros l Hl. by apply apply_writes_ext, Hve. }
  split_and!.
  - intros img Hr. eapply recovers_to_file; [by eapply recovers_eq|done|]. by split.
  - intros img Hr. eapply recovers_to_file; [by eapply recovers_eq|exact Hhome|exact Hnew].
  - intros m Hm. eapply holds_file_ext; [|exact Hhome|exact Hnew]. intros l Hl. by rewrite Hm, Hne.
Qed.

(** Committing the staged blocks. *)
Lemma commit_written base size s n ino off data d j' d' rc : write_safe base size s n ino off data -> same_disk (dev s) d ->
  let bs := write_blocks (view (dev s)) (g_v2_sb s) n ino off data in run_txn (jnl s) d bs = (j', d', rc) ->
  (forall img, crash_image d' img -> recovers base (base + size) img (apply_writes (block_writes bs) (durable (dev s))) \/
     rc <> 0 /\ recovers base (base + size) img (durable (dev s))) /\
  (rc = 0 -> settled base size j' d' (next_txn_id j') /\
     home_eq base (base + size) (durable d') (apply_writes (block_writes bs) (durable (dev s)))).
Proof.
  intros [Hb Hsz He [Hinv _ _ _ _ _ _ Hfits _] Hset Hnext _ _ _ _ Hrefs Hcol] Hd bs E. pose proof Hd as [Ed _].
  destruct (run_txn_step base size (jnl s) d bs j' d' rc) as [Hcrash Hdone]; try done.
  - by eapply settled_same.
  - apply Hinv.
  - unfold bs, write_blocks. by destruct (map _ _).
  - by rewrite Ed.
  - rewrite Ed in Hcrash, Hdone. split; [done|]. intros Hrc. by destruct (Hdone Hrc) as (? & _ & _ & ?).
Qed.


(** ** A small disk with a file of three bytes: inode 2, block 11 *)
Definition three_inode : inode :=
  seal_inode (set_size (set_blocks_allocated (set_direct (fresh_inode VFS_FILE) 0 11) 1) 3).
Definition three_disk : disk :=
  <[2 := splice (splice zero_page 512 small_root) 1024 three_inode]> (<[11 := splice zero_page 0 [1; 2; 3]]> small_disk).
Definition three_mounted : fs := after (grahafs_v2_mount 0) (fs_boot (Device three_disk [] []) []).
Definition three_fs : fs := after (grahafs_v2_read f_node 0 1) three_mounted.
Definition three_blocks : list (Z * Z * block) := write_blocks (view (dev three_fs)) (g_v2_sb three_fs) 2 three_inode 1 [7; 8; 9].

Lemma forallb_block b : forallb (fun x => (0 <=? x) && (x <? 256)) b = true -> Z.of_nat (length b) = 4096 -> is_block b.
Proof. intros Hb Hl. split; [done|]. by apply forallb_bytes. Qed.

Lemma three_disk_wf : wf_dev (Device three_disk [] []).
Proof.
  destruct small_disk_wf as [_ H]. cbn [durable] in H.
  split; cbn; [intros l b Hb; by apply elem_of_nil in Hb|]. intros l b. unfold three_disk.
  intros [[_ <-]|[_ [[_ <-]|[_ Hb]]%lookup_insert_Some]]%lookup_insert_Some; [..|by eapply H]; apply forallb_block; by vm_compute.
Qed.

Lemma three_inv : inv false [] three_fs.
Proof.
  apply after_inv; [by apply fs_read_triple|]. eapply mount_inv; [apply three_disk_wf|apply (after_result (grahafs_v2_mount 0) (fs_boot _ _) 0); by vm_compute].
Qed.

Lemma three_durable : durable (dev three_fs) = three_disk.
Proof. by vm_compute. Qed.

Lemma three_away l : 100 <= l < 270 -> blk three_disk l = zero_page.
Proof. intros H. unfold blk, three_disk, small_disk. rewrite !lookup_insert_ne by lia. by rewrite lookup_singleton_ne by lia. Qed.

Definition three_sb : block := blk (view (dev three_fs)) 0.

Lemma three_sb_good b : b = three_sb \/ b = small_sb -> sb_good 100 170 b.
Proof. intros [-> | ->]; (split; [split|]; try by vm_compute); apply forallb_bytes; by vm_compute. Qed.

Lemma three_settled : settled 100 170 (jnl three_fs) (dev three_fs) (next_txn_id (jnl three_fs)).
Proof.
  split; rewrite ?three_durable; try by vm_compute.
  - assert (Forall (fun w => fst w = 0 /\ snd w = three_sb) (cache (dev three_fs))) as H.
    { assert (cache (dev three_fs) = [(0, three_sb)]) as -> by by vm_compute. by repeat constructor. }
    intros l b Hin. rewrite Forall_forall in H. destruct (H _ Hin) as [E1 E2]. cbn in E1, E2. split; [done|]. apply three_sb_good. by left.
  - apply three_sb_good. right. by vm_compute.
  - intros l Hl. rewrite three_away by lia. by vm_compute.
  - intros l Hl. rewrite three_away by lia. by vm_compute.
Qed.

Lemma three_tree a : 0 <= a -> tree_lba (view (dev three_fs)) three_inode a <> 0 -> a = 0.
Proof.
  intros Ha. unfold tree_lba. assert (i_indirect three_inode = 0) as -> by by vm_compute. assert (i_double three_inode = 0) as -> by by vm_compute.
  cbn [tree_slot Z.eqb]. destruct (Z.ltb_spec a 12); [|by repeat destruct (_ <? _)]. intros Hd.
  assert (Forall (fun k => i_direct three_inode k = 0) (seq 1 11)) as H0 by (repeat constructor; by vm_compute).
  destruct (decide (a = 0)) as [|Hne]; [done|]. rewrite Forall_forall in H0. exfalso. apply Hd, H0. apply elem_of_seq. lia.
Qed.

Definition three_data : block := splice zero_page 0 [1; 7; 8; 9].
Definition three_node : block := splice (blk three_disk 2) 1024 (new_inode three_inode 1 [7; 8; 9]).

Lemma three_blocks_eq : three_blocks = [(11, JOURNAL_BLOCK_KIND_DATA, three_data); (2, JOURNAL_BLOCK_KIND_METADATA, three_node)].
Proof. by vm_compute. Qed.

Lemma three_ref_ok lba kind b : 0 < lba < 100 -> b = three_data \/ b = three_node -> ref_ok 100 270 (Block_ref lba kind b).
Proof.
  intros Hl Hb. split; cbn [lba_target payload]; [unfold in_u; lia|unfold is_home; lia| | |]; destruct Hb as [-> | ->];
    try (apply forallb_bytes); by vm_compute.
Qed.

Definition three_txn : journal_txn := staged (jnl three_fs) three_blocks.

Lemma three_txn_refs : refs three_txn = [Block_ref 11 JOURNAL_BLOCK_KIND_DATA three_data; Block_ref 2 JOURNAL_BLOCK_KIND_METADATA three_node].
Proof. by vm_compute. Qed.

Lemma three_txn_ok : txn_ok 100 270 three_txn.
Proof.
  split; rewrite ?three_txn_refs; [done|cbn; lia|by vm_compute|].
  apply Forall_cons. split; [|apply list.Forall_singleton]; apply three_ref_ok; auto; lia.
Qed.

(** A block of the journal is still empty or as the transaction writes it. *)
Lemma three_mixed img : (forall l, 100 <= l < 270 -> blk img l = blk three_disk l \/ (l, blk img l) ∈ journal_writes 100 three_txn) ->
  exists b0 b1 b2, span img 100 3 = [b0; b1; b2] /\ (b0 = zero_page \/ b0 = begin_block three_txn 100 4) /\
    (b1 = zero_page \/ b1 = three_data) /\ (b2 = zero_page \/ b2 = three_node).
Proof.
  intros Himg. exists (blk img 100), (blk img 101), (blk img 102). split; [done|].
  split_and!; [destruct (Himg 100) as [E|Hin]|destruct (Himg 101) as [E|Hin]|destruct (Himg 102) as [E|Hin]]; try done;
    try (left; by rewrite E, three_away); right;
    apply (journal_writes_in 100 170) in Hin as [[E0 E]|[(i & r & Hr & E0 & ->)|[E0 _]]]; try apply three_txn_ok; try done; try lia;
    rewrite three_txn_refs in Hr.
  - assert (i = 0%nat) as -> by lia. by injection Hr as <-.
  - assert (i = 1%nat) as -> by lia. by injection Hr as <-.
Qed.

Lemma three_begin : begin_block three_txn 100 (2 + Z.of_nat (length (refs three_txn))) = begin_block three_txn 100 4.
Proof. by rewrite three_txn_refs. Qed.

Lemma three_crc b0 b1 b2 : b0 = zero_page \/ b0 = begin_block three_txn 100 4 -> b1 = zero_page \/ b1 = three_data ->
  b2 = zero_page \/ b2 = three_node ->
  crc32_final (fold_left crc32_update [b0; b1; b2] crc32_init) =
  crc32_final (fold_left crc32_update [begin_block three_txn 100 4; three_data; three_node] crc32_init) ->
  [b0; b1; b2] = [begin_block three_txn 100 4; three_data; three_node].
Proof.
  intros [->| ->] [->| ->] [->| ->] Hc; [..|reflexivity]; exfalso; revert Hc; apply Z.eqb_neq; by vm_compute.
Qed.

Lemma three_new_span : span (apply_writes (journal_writes 100 three_txn) three_disk) 100 (S (length (refs three_txn))) =
  [begin_block three_txn 100 4; three_data; three_node].
Proof. rewrite (new_span 100 170 three_txn); [|lia|lia|lia|apply three_txn_ok]. by rewrite three_begin, three_txn_refs. Qed.

Lemma three_no_collision : no_collision 100 270 three_disk three_txn.
Proof.
  intros img Himg. split.
  - intros n Hs. pose proof (sh_magic _ _ _ _ Hs) as Hm. rewrite three_away in Hm by lia. exfalso. vm_compute in Hm. discriminate Hm.
  - cbv zeta. unfold crc_span. rewrite three_new_span. 
    destruct (three_mixed img Himg) as (b0 & b1 & b2 & E & H0 & H1 & H2). rewrite three_txn_refs. cbn [length]. rewrite E.
    by apply three_crc.
Qed.

Lemma three_ready : write_ready three_fs 2 three_inode 1 [7; 8; 9].
Proof.
  split; [apply three_inv|by vm_compute|exists 0%nat, (entry three_fs 0); split_and!; by vm_compute|by vm_compute|lia|done|cbn; lia| |].
  - fold three_blocks. rewrite three_blocks_eq. cbn. lia.
  - assert (pieces_of 1 [7; 8; 9] = [(0, 1, [7; 8; 9])]) as -> by by vm_compute. apply list.Forall_singleton. by vm_compute.
Qed.

Lemma three_safe : write_safe 100 170 three_fs 2 three_inode 1 [7; 8; 9].
Proof.
  assert (tree_lba (view (dev three_fs)) three_inode 0 = 11) as E0 by by vm_compute.
  assert (fst (inode_locate (g_v2_sb three_fs) 2) = 2) as El by by vm_compute.
  assert (forall m j, tree_slot m 0 j = 0) as E1 by done.
  assert (i_indirect three_inode = 0) as Ei by by vm_compute. assert (i_double three_inode = 0) as Ed by by vm_compute.
  split; [lia|lia|lia|apply three_ready|apply three_settled|by vm_compute| |by vm_compute| | | |rewrite three_durable; apply three_no_collision].
  - apply three_sb_good. left. by vm_compute.
  - rewrite El. split; rewrite ?Ei, ?Ed.
    + intros a b Ha Hb Hn E. rewrite (three_tree a Ha Hn). rewrite E in Hn. by rewrite (three_tree b Hb Hn).
    + intros a Ha Hn. rewrite (three_tree a Ha Hn), E0. split_and!; [lia|lia|intros; rewrite E1; lia|lia].
    + split_and!; [lia|lia|intros; rewrite E1; lia].
  - rewrite El. split; rewrite ?Ei, ?Ed; unfold is_home; cbv zeta; [lia|lia|lia|intros j Hj; rewrite E1; lia|].
    intros a Ha Hn. rewrite (three_tree a Ha Hn), E0. lia.
  - fold three_blocks. rewrite three_blocks_eq. apply Forall_cons. split; [|apply list.Forall_singleton]; apply three_ref_ok; auto; lia.
Qed.

