(* ===== verification/CapToken.v ===== *)
(** * Capability tokens (kernel/cap/token.h, kernel/cap/token.c)

    A token is a 64-bit word [gen:32 | idx:24 | flags:8].  This file models the
    inline pack and unpack helpers, the rights, flag and error constants, and
    the printer [cap_token_describe] with its four bounded writers. *)
From Stdlib Require Import Ascii String.
From S2P Require Import Prelude.
Local Open Scope Z_scope.
Local Open Scope c_scope.
Local Open Scope list_scope.

(** ** Constants *)
Abbreviation CAP_KIND_NONE := 0.
Abbreviation CAP_KIND_CAN := 1.
Abbreviation CAP_KIND_CHANNEL := 4.
Abbreviation CAP_KIND_VMO := 5.
Abbreviation CAP_KIND_TRANSACTION := 13.
Abbreviation CAP_KIND_SYSTEM := 14.

Abbreviation RIGHT_READ := 0x1.
Abbreviation RIGHT_WRITE := 0x2.
Abbreviation RIGHT_EXEC := 0x4.
Definition RIGHT_DERIVE : Z := 0x8.
Abbreviation RIGHT_REVOKE := 0x10.
Abbreviation RIGHT_INSPECT := 0x20.
Abbreviation RIGHT_SEND := 0x200.
Abbreviation RIGHT_RECV := 0x400.
Abbreviation RIGHT_COMMIT := 0x2000.
Abbreviation RIGHT_ABORT := 0x4000.
Abbreviation RIGHT_INVOKE := 0x10000.
Abbreviation RIGHTS_ALL := 0xFFFFFFFFFFFFFFFF.

Definition CAP_FLAG_PUBLIC : Z := 0x01.
Abbreviation CAP_FLAG_EAGER_REVOKE := 0x02.
Abbreviation CAP_FLAG_IMMORTAL := 0x08.
Abbreviation CAP_FLAG_INHERITABLE := 0x10.
Abbreviation CAP_FLAG_CASCADE_TRUNCATED := 0x20.

Definition PID_PUBLIC : Z := 0xFFFF.
Abbreviation PID_KERNEL := (-1).
Abbreviation PID_NONE := (-1).

Abbreviation CAP_V2_OK := 0.
Definition CAP_V2_EPERM : Z := -1.
Abbreviation CAP_V2_EREVOKED := (-2).
Abbreviation CAP_V2_ENOMEM := (-3).
Abbreviation CAP_V2_EFAULT := (-4).
Definition CAP_V2_EINVAL : Z := -5.
Definition CAP_V2_EPLEDGE : Z := -7.
Abbreviation CAP_V2_EBADF := (-9).
Abbreviation CAP_V2_EAGAIN := (-11).
Abbreviation CAP_V2_EBUSY := (-16).
Abbreviation CAP_V2_EPIPE := (-32).
Abbreviation CAP_V2_EPROTOTYPE := (-71).
Abbreviation CAP_V2_ETIMEDOUT := (-110).
Abbreviation CAP_V2_EFROZEN := (-128).

(** ** Pack and unpack: a token is its [raw] field *)
Definition cap_token_pack (gen idx flags : Z) : Z :=
  (gen <<. 32) |. ((idx &. 0xFFFFFF) <<. 8) |. flags.
Definition cap_token_gen (raw : Z) : Z := u32 (raw >>. 32).
Definition cap_token_idx (raw : Z) : Z := u32 ((raw >>. 8) &. 0xFFFFFF).
Definition cap_token_flags (raw : Z) : Z := u8 (raw &. 0xFF).
Definition cap_token_is_null (raw : Z) : bool := cap_token_idx raw =? 0.

(** ** The printer

    The buffer is the list of bytes written so far, so that [pos] is its
    length; every writer stops at [buflen - 1]. *)
Definition room (buf : list Z) (buflen : Z) : bool := Z.of_nat (length buf) <? buflen - 1.

Definition put (buf : list Z) (buflen c : Z) : list Z :=
  if room buf buflen then buf ++ [c] else buf.

Fixpoint tok_put_str (buf : list Z) (buflen : Z) (s : list Z) : list Z :=
  match s with
  | [] => buf
  | c :: s' => if room buf buflen then tok_put_str (buf ++ [c]) buflen s' else buf
  end.

(** The loop [while (v) { tmp[tlen++] = '0' + v % 10; v /= 10; }]; [fuel] is the
    size of the array [tmp] minus one, which [dec_digits_enough] shows to be
    enough for every 32-bit value. *)
Fixpoint dec_digits (fuel : nat) (v : Z) : list Z :=
  match fuel with
  | O => []
  | S f => if v =? 0 then [] else (48 + v mod 10) :: dec_digits f (v / 10)
  end.

Definition tok_put_dec (buf : list Z) (buflen v : Z) : list Z :=
  let tmp := if v =? 0 then [48] else dec_digits 10 v in
  tok_put_str buf buflen (rev tmp).

Definition hex_digit (n : Z) : Z := if n <? 10 then 48 + n else 87 + n.

Definition tok_put_hex2 (buf : list Z) (buflen v : Z) : list Z :=
  let buf := put buf buflen (hex_digit ((v >>. 4) &. 0xF)) in
  put buf buflen (hex_digit (v &. 0xF)).

Definition bytes_of (s : string) : list Z :=
  map (fun c => Z.of_nat (nat_of_ascii c)) (list_ascii_of_string s).

(** The buffer (with its terminating NUL) and the returned position; [None] for
    the early return that leaves the buffer alone. *)
Definition cap_token_describe (tok buflen : Z) : option (list Z) * Z :=
  if buflen <=? 0 then (None, 0) else
  let buf := tok_put_str [] buflen (bytes_of "tok={gen=") in
  let buf := tok_put_dec buf buflen (cap_token_gen tok) in
  let buf := tok_put_str buf buflen (bytes_of ",idx=") in
  let buf := tok_put_dec buf buflen (cap_token_idx tok) in
  let buf := tok_put_str buf buflen (bytes_of ",flags=0x") in
  let buf := tok_put_hex2 buf buflen (cap_token_flags tok) in
  let buf := put buf buflen 125 in
  (Some (buf ++ [0]), Z.of_nat (length buf)).

(** ** Unpacking what was packed *)
Lemma token_mask24 x : x &. 0xFFFFFF = wrap 24 x.
Proof. by rewrite wrap_land_ones. Qed.
Lemma token_mask8 x : x &. 0xFF = wrap 8 x.
Proof. by rewrite wrap_land_ones. Qed.

Section pack.
  Context (gen idx flags : Z).
  Context (Hgen : in_u 32 gen) (Hidx : in_u 24 idx) (Hflags : in_u 8 flags).
Lemma pack_gen : cap_token_gen (cap_token_pack gen idx flags) = gen.
Proof using Hflags Hgen Hidx.
  unfold cap_token_gen, cap_token_pack. rewrite token_mask24. bitwise.
Qed.
Lemma pack_idx : cap_token_idx (cap_token_pack gen idx flags) = idx.
Proof using Hflags Hgen Hidx.
  unfold cap_token_idx, cap_token_pack. rewrite !token_mask24. bitwise.
Qed.
Lemma pack_flags : cap_token_flags (cap_token_pack gen idx flags) = flags.
Proof using Hflags Hgen Hidx.
  unfold cap_token_flags, cap_token_pack. rewrite token_mask24, token_mask8. bitwise.
Qed.
Lemma pack_in_u64 : in_u 64 (cap_token_pack gen idx flags).
Proof using Hflags Hgen Hidx.
  enough (u64 (cap_token_pack gen idx flags) = cap_token_pack gen idx flags) as <-
    by auto with grahaos lia.
  unfold cap_token_pack. rewrite token_mask24. bitwise.
Qed.
End pack.

Lemma pack_unpack raw :
  in_u 64 raw ->
  cap_token_pack (cap_token_gen raw) (cap_token_idx raw) (cap_token_flags raw) = raw.
Proof.
  intros H. unfold cap_token_pack, cap_token_gen, cap_token_idx, cap_token_flags.
  rewrite !token_mask24, token_mask8. bitwise.
Qed.

Lemma cap_token_gen_bound raw : in_u 32 (cap_token_gen raw).
Proof. apply wrap_bound. lia. Qed.
Lemma cap_token_idx_bound raw : in_u 24 (cap_token_idx raw).
Proof.
  unfold cap_token_idx. rewrite token_mask24, wrap_small.
  - apply wrap_bound. lia.
  - eapply (in_u_mono 24); [lia|]. apply wrap_bound. lia.
Qed.
Lemma cap_token_flags_bound raw : in_u 8 (cap_token_flags raw).
Proof. apply wrap_bound. lia. Qed.
#[export] Hint Resolve cap_token_gen_bound cap_token_idx_bound cap_token_flags_bound : grahaos.

(** Packing and unpacking are inverse bijections between the triples
    (32-bit generation, 24-bit index, 8-bit flags) and the 64-bit tokens: no two
    triples share a token and no token is outside the encoding. *)
Theorem token_roundtrip (gen idx flags raw : Z) :
  in_u 32 gen -> in_u 24 idx -> in_u 8 flags -> in_u 64 raw ->
  (cap_token_gen (cap_token_pack gen idx flags) = gen /\
   cap_token_idx (cap_token_pack gen idx flags) = idx /\
   cap_token_flags (cap_token_pack gen idx flags) = flags /\
   in_u 64 (cap_token_pack gen idx flags)) /\
  cap_token_pack (cap_token_gen raw) (cap_token_idx raw) (cap_token_flags raw) = raw.
Proof.
  intros. repeat split; eauto using pack_gen, pack_idx, pack_flags, pack_unpack;
    apply pack_in_u64; done.
Qed.

Lemma token_roundtrip_witness :
  cap_token_pack 7 65535 3 = 0x700FFFF03 /\
  cap_token_idx (cap_token_pack 7 65535 3) = 65535.
Proof.
  split; [reflexivity|].
  apply (token_roundtrip 7 65535 3 0x700FFFF03); unfold in_u; lia.
Defined.

(** ** The printer's output *)

(** What a text becomes in a buffer of [buflen] bytes. *)
Definition clip (buflen : Z) (s : list Z) : list Z := take (Z.to_nat (buflen - 1)) s.

Lemma clip_app buflen s t :
  clip buflen (clip buflen s ++ t) = clip buflen (s ++ t).
Proof.
  unfold clip. rewrite !take_app, take_take, Nat.min_id, length_take.
  f_equal. f_equal. lia.
Qed.

Lemma put_clip buflen s c : put (clip buflen s) buflen c = clip buflen (s ++ [c]).
Proof.
  unfold put, room, clip. rewrite length_take.
  destruct (Z.ltb_spec (Z.of_nat (Z.to_nat (buflen - 1) `min` length s)) (buflen - 1)).
  - rewrite !take_ge; [done| |lia]. rewrite length_app. simpl. lia.
  - rewrite take_app_le by lia. done.
Qed.

Lemma tok_put_str_clip buflen t s :
  tok_put_str (clip buflen s) buflen t = clip buflen (s ++ t).
Proof.
  revert s. induction t as [|c t IH]; intros s; cbn [tok_put_str].
  { by rewrite app_nil_r. }
  pose proof (put_clip buflen s c) as Hp. unfold put in Hp.
  destruct (room (clip buflen s) buflen) eqn:E.
  - rewrite Hp, IH, <- app_assoc. done.
  - unfold room, clip in *. rewrite length_take in E. rewrite take_app_le by lia. done.
Qed.

Definition digits_value (l : list Z) : Z := foldr (fun d v => (d - 48) + 10 * v) 0 l.

(** Ten digits are enough for every 32-bit value (the array [tmp] has eleven). *)
Lemma dec_digits_enough fuel v :
  0 <= v < 10 ^ Z.of_nat fuel -> digits_value (dec_digits fuel v) = v.
Proof.
  revert v. induction fuel as [|f IH]; intros v Hv; [simpl in *; lia|].
  cbn [dec_digits]. destruct (Z.eqb_spec v 0) as [->|]; [done|].
  cbn [digits_value foldr]. fold (digits_value (dec_digits f (v / 10))).
  rewrite IH; [zlia|]. rewrite Nat2Z.inj_succ, Z.pow_succ_r in Hv by lia. zlia.
Qed.

Definition dec_text (v : Z) : list Z := rev (if v =? 0 then [48] else dec_digits 10 v).
Definition hex2_text (v : Z) : list Z :=
  [hex_digit ((v >>. 4) &. 0xF); hex_digit (v &. 0xF)].
Definition token_text (tok : Z) : list Z :=
  bytes_of "tok={gen=" ++ dec_text (cap_token_gen tok) ++
  bytes_of ",idx=" ++ dec_text (cap_token_idx tok) ++
  bytes_of ",flags=0x" ++ hex2_text (cap_token_flags tok) ++ [125].

Lemma cap_token_describe_text tok buflen :
  0 < buflen ->
  cap_token_describe tok buflen =
    (Some (clip buflen (token_text tok) ++ [0]), Z.of_nat (length (clip buflen (token_text tok)))).
Proof.
  intros Hb. unfold cap_token_describe. destruct (Z.leb_spec buflen 0); [lia|].
  assert (Hs : forall t, tok_put_str [] buflen t = clip buflen t).
  { intros t. rewrite <- (app_nil_l t) at 2. rewrite <- tok_put_str_clip.
    unfold clip. by rewrite take_nil. }
  unfold tok_put_dec, tok_put_hex2. rewrite Hs, !tok_put_str_clip, !put_clip.
  unfold token_text, dec_text, hex2_text. rewrite <- !app_assoc. done.
Qed.

(** [cap_token_describe] writes the full text cut to the buffer, then a NUL:
    it never writes past [buflen] bytes, it returns the text's length, and the
    two decimal fields denote the token's generation and index. *)
Theorem cap_token_describe_ok (tok buflen : Z) :
  0 < buflen ->
  exists text,
    cap_token_describe tok buflen = (Some (text ++ [0]), Z.of_nat (length text)) /\
    text = take (Z.to_nat (buflen - 1)) (token_text tok) /\
    Z.of_nat (length (text ++ [0])) <= buflen /\
    digits_value (rev (dec_text (cap_token_gen tok))) = cap_token_gen tok /\
    digits_value (rev (dec_text (cap_token_idx tok))) = cap_token_idx tok.
Proof.
  intros Hb. exists (clip buflen (token_text tok)).
  assert (Hd : forall v, in_u 32 v -> digits_value (rev (dec_text v)) = v).
  { intros v Hv. unfold dec_text. rewrite rev_involutive.
    destruct (Z.eqb_spec v 0) as [->|]; [done|].
    apply dec_digits_enough. unfold in_u in Hv. simpl. lia. }
  split; [by apply cap_token_describe_text|]. split; [done|]. split.
  - unfold clip. rewrite length_app, length_take. cbn [length]. lia.
  - split; apply Hd; [|eapply (in_u_mono 24); [lia|]]; auto with grahaos.
Qed.

Lemma cap_token_describe_ok_witness :
  exists text, cap_token_describe (cap_token_pack 12 345 7) 20 = (Some (text ++ [0]), 19).
Proof.
  destruct (cap_token_describe_ok (cap_token_pack 12 345 7) 20) as (text & H & Ht & _); [lia|].
  exists text. rewrite H. f_equal. rewrite Ht. reflexivity.
Defined.
