(* ===== verification/CapObject.v ===== *)
(** * The capability object registry (kernel/cap/object.h, kernel/cap/object.c)

    The registry [g_cap_object_ptrs] is a finite map from slot index to object
    (an absent key is a NULL pointer).  Each operation takes the registry and
    returns the new one with the C return value; the regions under
    [g_cap_object_lock] are atomic.  The slab allocator's answer is the argument
    [alloc_ok]; the audit log and the kind-specific deactivation hooks that
    [cap_object_destroy] calls are traces kept in the state.  Revocation is in
    CapRevoke.v. *)
From S2P Require Import Prelude CapToken.
Local Open Scope Z_scope.
Local Open Scope c_scope.

Definition CAP_OBJECT_CAPACITY : Z := 65536.
Definition CAP_OBJECT_IDX_NONE : Z := 0xFFFFFFFF.
Definition CAP_AUDIENCE_MAX : Z := 8.
Abbreviation CAP_WATCH_MAX := 4.

(** ** State *)
Record cap_object := Cap_object {
  kind : Z;
  deleted : bool;
  generation : Z;
  rights_bitmap : Z;
  kind_data : Z;
  audience_set : list Z;
  audience_count : Z;
  flags : Z;
  parent_idx : Z;
  owner_pid : Z;
  first_child_idx : Z;
  next_sibling_idx : Z;
  watch_list : list Z;
  watch_count : Z
}.

#[export] Instance cap_object_eq_dec : EqDecision cap_object.
Proof. solve_decision. Defined.

Inductive audit_event :=
| AuditCapDerive (caller parent child rights : Z)
| AuditCapRevoke (idx count : Z).

Inductive hook :=
| ChanEndpointDeactivate (o : cap_object)
| VmoCapDeactivate (o : cap_object)
| StreamEndpointDeactivate (o : cap_object).

Record registry := Registry {
  cache_ready : bool;                 (* cap_object_cache != NULL *)
  g_cap_object_ptrs : gmap Z cap_object;
  g_cap_object_count : Z;             (* high-water mark *)
  audit_log : list audit_event;
  hooks : list hook
}.

Definition registry_boot : registry := Registry false ∅ 0 [] [].

Definition set_ptrs (s : registry) (m : gmap Z cap_object) : registry :=
  {| s with g_cap_object_ptrs := m |}.
Definition audit (s : registry) (e : audit_event) : registry :=
  {| s with audit_log := audit_log s ++ [e] |}.

(** ** Audiences *)

(** A [const int32_t *] audience argument: [None] is NULL; the entries before
    the first PID_NONE, at most CAP_AUDIENCE_MAX of them, are the ones read. *)
Fixpoint scan_audience (room : nat) (src : list Z) : list Z :=
  match room, src with
  | S r, p :: src' => if p =? PID_NONE then [] else p :: scan_audience r src'
  | _, _ => []
  end.

Definition pad_none (n : nat) (l : list Z) : list Z := l ++ replicate (n - length l) PID_NONE.

Definition cap_object_copy_audience (src : option (list Z)) (fallback_pid : Z) : list Z * Z :=
  match src with
  | None => (pad_none 8 [fallback_pid], 1)
  | Some src => let l := scan_audience 8 src in (pad_none 8 l, Z.of_nat (length l))
  end.

(** The entries the bounded loops [i < audience_count && i < CAP_AUDIENCE_MAX] visit. *)
Definition audience (o : cap_object) : list Z :=
  take (Z.to_nat (Z.min (audience_count o) CAP_AUDIENCE_MAX)) (audience_set o).

Definition cap_token_validate_audience (obj : option cap_object) (pid : Z) : bool :=
  match obj with
  | None => false
  | Some o =>
      if has_flag (flags o) CAP_FLAG_PUBLIC then true
      else existsb (fun p => p =? pid) (audience o)
  end.

Definition audience_is_subset (parent : cap_object) (subset : option (list Z)) : bool :=
  if has_flag (flags parent) CAP_FLAG_PUBLIC then true
  else match subset with
  | None => true
  | Some l =>
      forallb (fun p => negb (p =? PID_PUBLIC) && existsb (fun q => q =? p) (audience parent))
              (scan_audience 8 l)
  end.

(** ** Registry operations *)
Definition cap_object_get (s : registry) (idx : Z) : option cap_object :=
  if idx >=? CAP_OBJECT_CAPACITY then None else g_cap_object_ptrs s !! idx.

Fixpoint find_free_from (m : gmap Z cap_object) (n : nat) (i : Z) : Z :=
  match n with
  | O => CAP_OBJECT_IDX_NONE
  | S n' => match m !! i with None => i | Some _ => find_free_from m n' (i + 1) end
  end.

Definition cap_object_find_free_slot_locked (s : registry) : Z :=
  find_free_from (g_cap_object_ptrs s) (Z.to_nat (CAP_OBJECT_CAPACITY - 1)) 1.

Definition sentinel : cap_object := {|
  kind := CAP_KIND_NONE; deleted := false; generation := 1;
  rights_bitmap := RIGHTS_ALL; kind_data := 0;
  audience_set := pad_none 8 [PID_PUBLIC]; audience_count := 1;
  flags := CAP_FLAG_IMMORTAL |. CAP_FLAG_PUBLIC;
  parent_idx := CAP_OBJECT_IDX_NONE; owner_pid := PID_KERNEL;
  first_child_idx := CAP_OBJECT_IDX_NONE; next_sibling_idx := CAP_OBJECT_IDX_NONE;
  watch_list := replicate 4 PID_NONE; watch_count := 0 |}.

(** The two allocations panic when they fail; the machine is then halted. *)
Definition cap_object_init (s : registry) : registry :=
  if cache_ready s then s else
  {| s with cache_ready := true;
            g_cap_object_ptrs := <[0 := sentinel]> (g_cap_object_ptrs s);
            g_cap_object_count := 1 |}.

Definition cap_token_resolve (s : registry) (calling_pid tok required_rights : Z)
    : option cap_object :=
  if cap_token_is_null tok then None else
  let idx := cap_token_idx tok in
  if (idx =? 0) || (idx >=? CAP_OBJECT_CAPACITY) then None else
  match g_cap_object_ptrs s !! idx with
  | None => None
  | Some obj =>
      if deleted obj then None
      else if negb (generation obj =? cap_token_gen tok) then None
      else if negb (has_flag (flags obj) CAP_FLAG_PUBLIC) &&
              negb (existsb (fun p => p =? calling_pid) (audience obj)) then None
      else if negb (has_all (rights_bitmap obj) required_rights) then None
      else Some obj
  end.

Definition cap_object_link_child (s : registry) (parent_i child_i : Z) : registry :=
  if (parent_i =? CAP_OBJECT_IDX_NONE) || (parent_i >=? CAP_OBJECT_CAPACITY) then s else
  if (child_i =? 0) || (child_i >=? CAP_OBJECT_CAPACITY) then s else
  match g_cap_object_ptrs s !! parent_i, g_cap_object_ptrs s !! child_i with
  | Some parent, Some child =>
      let m := <[child_i := {| child with next_sibling_idx := first_child_idx parent |}]>
                 (g_cap_object_ptrs s) in
      (* parent and child may be the same slot: the second store reads through the first *)
      match m !! parent_i with
      | Some parent' => set_ptrs s (<[parent_i := {| parent' with first_child_idx := child_i |}]> m)
      | None => s
      end
  | _, _ => s
  end.

Definition new_object (k rights : Z) (aud : option (list Z)) (fl kd owner parent : Z) : cap_object :=
  let '(set, count) := cap_object_copy_audience aud owner in
  {| kind := k; deleted := false; generation := 1;
     rights_bitmap := rights; kind_data := kd;
     audience_set := set; audience_count := count;
     flags := if existsb (fun p => u32 p =? PID_PUBLIC) (take (Z.to_nat count) set)
              then fl |. CAP_FLAG_PUBLIC else fl;
     parent_idx := parent; owner_pid := owner;
     first_child_idx := CAP_OBJECT_IDX_NONE; next_sibling_idx := CAP_OBJECT_IDX_NONE;
     watch_list := replicate 4 PID_NONE; watch_count := 0 |}.

(** [g_cap_object_ptrs[slot] = obj] and the high-water mark. *)
Definition publish_slot (s : registry) (slot : Z) (obj : cap_object) : registry :=
  {| s with g_cap_object_ptrs := <[slot := obj]> (g_cap_object_ptrs s);
            g_cap_object_count := if slot >=? g_cap_object_count s then slot + 1
                                  else g_cap_object_count s |}.

Definition cap_object_create (alloc_ok : bool) (s : registry) (k rights : Z)
    (aud : option (list Z)) (fl kd owner parent : Z) : registry * Z :=
  if negb (cache_ready s) then (s, CAP_V2_EINVAL) else
  if negb alloc_ok then (s, CAP_V2_ENOMEM) else
  let obj := new_object k rights aud fl kd owner parent in
  let slot := cap_object_find_free_slot_locked s in
  if slot =? CAP_OBJECT_IDX_NONE then (s, CAP_V2_ENOMEM) else
  let s := publish_slot s slot obj in
  let s := if negb (parent =? CAP_OBJECT_IDX_NONE) && (parent <? CAP_OBJECT_CAPACITY)
           then cap_object_link_child s parent slot else s in
  (s, slot).

Definition PRIVILEGED_FLAGS : Z := 0x01 |. 0x08.
Definition KERNEL_MANAGED_FLAGS : Z := 0x04 |. 0x20.

Definition cap_object_derive_inner (alloc_ok : bool) (s : registry) (parent_i caller_pid
    rights_subset : Z) (audience_subset : option (list Z)) (flags_subset : Z)
    (quiet allow_audience_expand : bool) : registry * Z :=
  if (parent_i =? 0) || (parent_i >=? CAP_OBJECT_CAPACITY) then (s, CAP_V2_EINVAL) else
  match g_cap_object_ptrs s !! parent_i with
  | None => (s, CAP_V2_EINVAL)
  | Some parent =>
      if deleted parent then (s, CAP_V2_EREVOKED) else
      if negb (cap_token_validate_audience (Some parent) caller_pid) then (s, CAP_V2_EPERM) else
      if rights_bitmap parent &. RIGHT_DERIVE =? 0 then (s, CAP_V2_EPERM) else
      if negb (has_all (rights_bitmap parent) rights_subset) then (s, CAP_V2_EPERM) else
      let priv_sub := flags_subset &. PRIVILEGED_FLAGS in
      if negb (has_all (flags parent) priv_sub) then (s, CAP_V2_EPERM) else
      if has_flag flags_subset KERNEL_MANAGED_FLAGS then (s, CAP_V2_EPERM) else
      if negb allow_audience_expand && negb (audience_is_subset parent audience_subset)
      then (s, CAP_V2_EPERM) else
      let aud := match audience_subset with
                 | None => pad_none 8 [caller_pid] | Some l => l end in
      let '(s, new_idx) := cap_object_create alloc_ok s (kind parent) rights_subset (Some aud)
                             flags_subset (kind_data parent) caller_pid parent_i in
      if (0 <=? new_idx) && negb quiet
      then (audit s (AuditCapDerive caller_pid parent_i new_idx rights_subset), new_idx)
      else (s, new_idx)
  end.

Definition cap_object_derive (alloc_ok : bool) (s : registry) (parent_i caller_pid rights_subset : Z)
    (audience_subset : option (list Z)) (flags_subset : Z) : registry * Z :=
  cap_object_derive_inner alloc_ok s parent_i caller_pid rights_subset audience_subset
    flags_subset false false.

Definition cap_object_derive_quiet (alloc_ok : bool) (s : registry)
    (parent_i caller_pid rights_subset : Z) (audience_subset : option (list Z))
    (flags_subset : Z) : registry * Z :=
  cap_object_derive_inner alloc_ok s parent_i caller_pid rights_subset audience_subset
    flags_subset true false.

Definition cap_object_derive_inherited (alloc_ok : bool) (s : registry)
    (parent_i caller_pid rights_subset : Z) (audience_subset : option (list Z))
    (flags_subset : Z) : registry * Z :=
  cap_object_derive_inner alloc_ok s parent_i caller_pid rights_subset audience_subset
    flags_subset true true.

Abbreviation CAP_KIND_STREAM := 8.

Definition deactivate_hook (o : cap_object) : list hook :=
  if kind o =? CAP_KIND_CHANNEL then [ChanEndpointDeactivate o]
  else if kind o =? CAP_KIND_VMO then [VmoCapDeactivate o]
  else if kind o =? CAP_KIND_STREAM then [StreamEndpointDeactivate o]
  else [].

Definition cap_object_destroy (s : registry) (idx : Z) : registry :=
  if (idx =? 0) || (idx >=? CAP_OBJECT_CAPACITY) then s else
  match g_cap_object_ptrs s !! idx with
  | None => s
  | Some obj =>
      {| s with g_cap_object_ptrs := delete idx (g_cap_object_ptrs s);
                hooks := hooks s ++ deactivate_hook obj |}
  end.

Record cap_inspect_result := Cap_inspect_result {
  ir_kind : Z; ir_flags : Z; ir_generation : Z; ir_rights_bitmap : Z;
  ir_audience_pids : list Z; ir_parent_token : Z; ir_owner_pid : Z
}.

(** [out_null] is the test [!out]; the result is filled only when 0 is returned. *)
Definition cap_object_inspect (s : registry) (idx caller_pid : Z) (out_null : bool)
    : option cap_inspect_result * Z :=
  if out_null then (None, CAP_V2_EFAULT) else
  if (idx =? 0) || (idx >=? CAP_OBJECT_CAPACITY) then (None, CAP_V2_EINVAL) else
  match g_cap_object_ptrs s !! idx with
  | None => (None, CAP_V2_EINVAL)
  | Some obj =>
      if deleted obj then (None, CAP_V2_EREVOKED) else
      if negb (cap_token_validate_audience (Some obj) caller_pid) then (None, CAP_V2_EPERM) else
      (Some {| ir_kind := kind obj; ir_flags := flags obj; ir_generation := generation obj;
               ir_rights_bitmap := rights_bitmap obj;
               ir_audience_pids :=
                 pad_none 8 (List.filter (fun p => (p =? caller_pid) || (u32 p =? PID_PUBLIC))
                               (audience obj));
               ir_parent_token := 0; ir_owner_pid := owner_pid obj |}, CAP_V2_OK)
  end.

(** ** Lemmas on audiences *)
Lemma length_scan_audience room l : (length (scan_audience room l) <= room)%nat.
Proof.
  revert l. induction room as [|r IH]; intros [|p l]; simpl; try lia.
  destruct (p =? PID_NONE); simpl; [lia|]. specialize (IH l). lia.
Qed.

#[global] Arguments scan_audience : simpl never.

Lemma length_pad_none n l : (length l <= n)%nat -> length (pad_none n l) = n.
Proof. intros. unfold pad_none. rewrite length_app, length_replicate. lia. Qed.

Lemma take_pad_none n l : take (length l) (pad_none n l) = l.
Proof. unfold pad_none. by rewrite take_app_length. Qed.

Lemma existsb_eqb pid l : existsb (fun p => p =? pid) l = true <-> pid ∈ l.
Proof.
  rewrite existsb_exists, list_elem_of_In. split.
  - intros (x & Hx & ->%Z.eqb_eq). done.
  - intros. exists pid. split; [done|]. apply Z.eqb_refl.
Qed.

Lemma audience_new k rights aud fl kd owner parent :
  audience (new_object k rights aud fl kd owner parent) =
  match aud with None => [owner] | Some l => scan_audience 8 l end.
Proof.
  unfold audience, new_object. destruct aud as [l|]; [|done].
  cbn [audience_set audience_count cap_object_copy_audience].
  pose proof (length_scan_audience 8 l). unfold CAP_AUDIENCE_MAX.
  rewrite Z.min_l, Nat2Z.id by lia. apply take_pad_none.
Qed.

Lemma flags_new k rights aud fl kd owner parent :
  flags (new_object k rights aud fl kd owner parent) =
  if existsb (fun p => u32 p =? PID_PUBLIC)
       (audience (new_object k rights aud fl kd owner parent))
  then fl |. CAP_FLAG_PUBLIC else fl.
Proof.
  rewrite audience_new. unfold new_object. destruct aud as [l|]; [|done].
  cbn [flags cap_object_copy_audience]. by rewrite Nat2Z.id, take_pad_none.
Qed.

Lemma has_flag_lor_r x m : m <> 0 -> has_flag (x |. m) m = true.
Proof.
  intros Hm. unfold has_flag. rewrite Z.land_lor_distr_l, Z.land_diag.
  apply negb_true_iff, Z.eqb_neq. intros [_ H]%Z.lor_eq_0_iff. done.
Qed.

Lemma has_flag_lor_disjoint x m n : m &. n = 0 -> has_flag (x |. m) n = has_flag x n.
Proof. intros H. unfold has_flag. by rewrite Z.land_lor_distr_l, H, Z.lor_0_r. Qed.

(** ** The registry invariant *)
Definition link_ok (c : Z) : Prop := c = CAP_OBJECT_IDX_NONE \/ 0 < c < CAP_OBJECT_CAPACITY.

Record wf_object (o : cap_object) : Prop := {
  wf_aud_len : length (audience_set o) = 8%nat;
  wf_aud_count : 0 <= audience_count o <= CAP_AUDIENCE_MAX;
  wf_public : existsb (fun p => u32 p =? PID_PUBLIC) (audience o) = true ->
              has_flag (flags o) CAP_FLAG_PUBLIC = true;
  wf_gen : in_u 32 (generation o);
  wf_child : link_ok (first_child_idx o);
  wf_sibling : link_ok (next_sibling_idx o)
}.

Record wf_registry (s : registry) : Prop := {
  wf_slots : forall i o, g_cap_object_ptrs s !! i = Some o ->
             0 <= i < g_cap_object_count s /\ wf_object o;
  wf_count : 0 <= g_cap_object_count s <= CAP_OBJECT_CAPACITY;
  wf_boot : cache_ready s = false -> g_cap_object_ptrs s = ∅;
  wf_slot0 : cache_ready s = true ->
             exists o, g_cap_object_ptrs s !! 0 = Some o /\
                       has_flag (flags o) CAP_FLAG_IMMORTAL = true
}.

(** How an object may change in place: the authority it carries (kind, rights,
    payload, audience, PUBLIC flag) is fixed, and while it is live so is its
    generation; only its links, its bookkeeping flags and [deleted] move. *)
Record evolves (o o' : cap_object) : Prop := {
  ev_kind : kind o' = kind o;
  ev_rights : rights_bitmap o' = rights_bitmap o;
  ev_data : kind_data o' = kind_data o;
  ev_set : audience_set o' = audience_set o;
  ev_acount : audience_count o' = audience_count o;
  ev_owner : owner_pid o' = owner_pid o;
  ev_public : has_flag (flags o') CAP_FLAG_PUBLIC = has_flag (flags o) CAP_FLAG_PUBLIC;
  ev_immortal : has_flag (flags o') CAP_FLAG_IMMORTAL = has_flag (flags o) CAP_FLAG_IMMORTAL;
  ev_live : deleted o' = false -> deleted o = false /\ generation o' = generation o
}.

#[export] Instance evolves_preorder : PreOrder evolves.
Proof.
  split; [by intros o; constructor|].
  intros a b c [] []. constructor; try congruence.
  intros Hc. destruct (ev_live1 Hc) as [Hb Hg]. destruct (ev_live0 Hb). split; congruence.
Qed.

Definition evolve_map (m m' : gmap Z cap_object) : Prop :=
  forall i o', m' !! i = Some o' -> exists o, m !! i = Some o /\ evolves o o'.

#[export] Instance evolve_map_preorder : PreOrder evolve_map.
Proof.
  split; [intros m i o' H; by exists o'|].
  intros a b c Hab Hbc i o' H. apply Hbc in H as (o1 & H1 & ?).
  apply Hab in H1 as (o2 & H2 & ?). exists o2. split; [done|]. by transitivity o1.
Qed.

Lemma evolve_map_insert m i o o' :
  m !! i = Some o -> evolves o o' -> evolve_map m (<[i := o']> m).
Proof.
  intros Hi He j oj Hj. destruct (decide (j = i)) as [->|].
  - simplify_map_eq. eauto.
  - simplify_map_eq. exists oj. split; [done|reflexivity].
Qed.

Lemma evolve_map_delete m i : evolve_map m (delete i m).
Proof. intros j o Hj. apply lookup_delete_Some in Hj as [??]. exists o. split; [done|reflexivity]. Qed.

#[export] Hint Resolve evolve_map_delete : grahaos.

Lemma evolves_audience o o' : evolves o o' -> audience o' = audience o.
Proof. intros []. unfold audience. congruence. Qed.

Lemma evolves_validate o o' pid :
  evolves o o' ->
  cap_token_validate_audience (Some o') pid = cap_token_validate_audience (Some o) pid.
Proof.
  intros H. unfold cap_token_validate_audience.
  by rewrite (ev_public _ _ H), (evolves_audience _ _ H).
Qed.

Lemma evolves_links o a b :
  evolves o {| o with next_sibling_idx := a; first_child_idx := b |}.
Proof. by constructor. Qed.

(** The two stores of [cap_object_link_child] change only the two links. *)
Lemma link_child_evolve s p c :
  evolve_map (g_cap_object_ptrs s) (g_cap_object_ptrs (cap_object_link_child s p c)).
Proof.
  unfold cap_object_link_child. split_ifs; try reflexivity.
  destruct (g_cap_object_ptrs s !! p) as [op|] eqn:Ep; [|reflexivity].
  destruct (g_cap_object_ptrs s !! c) as [oc|] eqn:Ec; [|reflexivity].
  set (m := <[c:=_]> _). destruct (m !! p) as [op'|] eqn:Ep'; [|reflexivity].
  transitivity m; [eapply evolve_map_insert; [exact Ec|by constructor]|].
  eapply evolve_map_insert; [exact Ep'|by constructor].
Qed.

Lemma link_child_frame s p c :
  cache_ready (cap_object_link_child s p c) = cache_ready s /\
  g_cap_object_count (cap_object_link_child s p c) = g_cap_object_count s /\
  audit_log (cap_object_link_child s p c) = audit_log s.
Proof. unfold cap_object_link_child. split_ifs; repeat case_match; done. Qed.

Lemma link_child_wf_object s p c i o' :
  (forall j o, g_cap_object_ptrs s !! j = Some o -> 0 <= j /\ wf_object o) ->
  g_cap_object_ptrs (cap_object_link_child s p c) !! i = Some o' -> wf_object o'.
Proof.
  intros Hwf. unfold cap_object_link_child. split_ifs; try by intros []%Hwf.
  destruct (g_cap_object_ptrs s !! p) as [op|] eqn:Ep; [|by intros []%Hwf].
  destruct (g_cap_object_ptrs s !! c) as [oc|] eqn:Ec; [|by intros []%Hwf].
  destruct (Hwf _ _ Ep) as [? []], (Hwf _ _ Ec) as [? []].
  assert (link_ok c). { right. lia. }
  cbn. destruct (decide (p = c)) as [->|].
  - simplify_map_eq. destruct (decide (i = c)) as [->|]; intros; simplify_map_eq;
      [by constructor|by eapply Hwf].
  - simplify_map_eq. intros Hi.
    destruct (decide (i = p)) as [->|]; simplify_map_eq; [by constructor|].
    destruct (decide (i = c)) as [->|]; simplify_map_eq; [by constructor|]. by eapply Hwf.
Qed.

(** ** Free slots *)
Lemma find_free_from_spec m n i :
  let r := find_free_from m n i in
  (r = CAP_OBJECT_IDX_NONE /\ forall j, i <= j < i + Z.of_nat n -> is_Some (m !! j)) \/
  (i <= r < i + Z.of_nat n /\ m !! r = None /\ forall j, i <= j < r -> is_Some (m !! j)).
Proof.
  revert i. induction n as [|n IH]; intros i; cbn [find_free_from].
  - left. split; [done|lia].
  - destruct (m !! i) as [o|] eqn:Ei.
    + destruct (IH (i + 1)) as [[Hr Hj]|(Hr & Hn & Hj)]; [left|right].
      * split; [done|]. intros j Hb. destruct (decide (j = i)) as [->|]; [eauto|]. apply Hj. lia.
      * split; [lia|]. split; [done|]. intros j Hb.
        destruct (decide (j = i)) as [->|]; [eauto|]. apply Hj. lia.
    + right. split; [lia|]. split; [done|]. lia.
Qed.

(** The scan returns the first free slot, and fails only when there is none. *)
Lemma find_free_slot_spec s :
  let r := cap_object_find_free_slot_locked s in
  (r = CAP_OBJECT_IDX_NONE /\
   forall j, 1 <= j < CAP_OBJECT_CAPACITY -> is_Some (g_cap_object_ptrs s !! j)) \/
  (1 <= r < CAP_OBJECT_CAPACITY /\ g_cap_object_ptrs s !! r = None /\
   forall j, 1 <= j < r -> is_Some (g_cap_object_ptrs s !! j)).
Proof.
  unfold cap_object_find_free_slot_locked.
  assert (1 + Z.of_nat (Z.to_nat (CAP_OBJECT_CAPACITY - 1)) = CAP_OBJECT_CAPACITY) as E by done.
  pose proof (find_free_from_spec (g_cap_object_ptrs s) (Z.to_nat (CAP_OBJECT_CAPACITY - 1)) 1) as H.
  rewrite E in H. exact H.
Qed.

(** ** Creation *)
Lemma wf_new_object k rights aud fl kd owner parent :
  wf_object (new_object k rights aud fl kd owner parent).
Proof.
  constructor.
  - unfold new_object. destruct aud as [l|]; [|done].
    apply length_pad_none, length_scan_audience.
  - unfold new_object. destruct aud as [l|]; [|done].
    cbn [cap_object_copy_audience audience_count].
    pose proof (length_scan_audience 8 l). unfold CAP_AUDIENCE_MAX. lia.
  - rewrite flags_new. intros ->. by apply has_flag_lor_r.
  - unfold new_object. destruct aud; unfold in_u; simpl; lia.
  - left. unfold new_object. by destruct aud.
  - left. unfold new_object. by destruct aud.
Qed.

(** What [cap_object_create] does on each branch. *)
Inductive create_spec (s : registry) (o : cap_object) : registry * Z -> Prop :=
| Create_err e : -128 <= e < 0 -> create_spec s o (s, e)
| Create_ok s' slot :
    cache_ready s = true ->
    1 <= slot < CAP_OBJECT_CAPACITY ->
    g_cap_object_ptrs s !! slot = None ->
    evolve_map (<[slot := o]> (g_cap_object_ptrs s)) (g_cap_object_ptrs s') ->
    (forall i, i <> slot -> is_Some (g_cap_object_ptrs s !! i) -> is_Some (g_cap_object_ptrs s' !! i)) ->
    (exists o', g_cap_object_ptrs s' !! slot = Some o' /\ evolves o o' /\
                deleted o' = false /\ generation o' = 1) ->
    g_cap_object_count s' = Z.max (g_cap_object_count s) (slot + 1) ->
    cache_ready s' = cache_ready s ->
    audit_log s' = audit_log s ->
    ((forall j o1, g_cap_object_ptrs s !! j = Some o1 -> 0 <= j /\ wf_object o1) ->
     forall i o1, g_cap_object_ptrs s' !! i = Some o1 -> wf_object o1) ->
    create_spec s o (s', slot).

Lemma link_child_keeps s p c i o :
  g_cap_object_ptrs s !! i = Some o ->
  exists o', g_cap_object_ptrs (cap_object_link_child s p c) !! i = Some o' /\
             evolves o o' /\ deleted o' = deleted o /\ generation o' = generation o.
Proof.
  intros Hi. assert (forall o, evolves o o) as Hr by (intros; reflexivity).
  unfold cap_object_link_child. split_ifs; eauto.
  destruct (g_cap_object_ptrs s !! p) as [op|] eqn:Ep; [|eauto].
  destruct (g_cap_object_ptrs s !! c) as [oc|] eqn:Ec; [|eauto].
  cbn. destruct (decide (p = c)) as [->|]; simplify_map_eq; cbn.
  - destruct (decide (i = c)) as [->|]; simplify_map_eq; eauto.
    eexists; split; [done|]. split; [by constructor|done].
  - destruct (decide (i = p)) as [->|]; simplify_map_eq.
    { eexists; split; [done|]. split; [by constructor|done]. }
    destruct (decide (i = c)) as [->|]; simplify_map_eq; eauto.
    eexists; split; [done|]. split; [by constructor|done].
Qed.

Lemma cap_object_create_spec ok s k rights aud fl kd owner parent :
  create_spec s (new_object k rights aud fl kd owner parent)
    (cap_object_create ok s k rights aud fl kd owner parent).
Proof.
  unfold cap_object_create. set (o := new_object _ _ _ _ _ _ _).
  destruct (cache_ready s) eqn:Ec; cbn [negb]; [|by constructor].
  destruct ok; cbn [negb]; [|by constructor].
  destruct (find_free_slot_spec s) as [[-> _]|(Hr & Hn & _)]; [by constructor|].
  set (slot := cap_object_find_free_slot_locked s) in *. clearbody slot.
  destruct (Z.eqb_spec slot CAP_OBJECT_IDX_NONE) as [->|_]; [by constructor|].
  set (s1 := publish_slot s slot o).
  assert (Hcnt : g_cap_object_count s1 = Z.max (g_cap_object_count s) (slot + 1)).
  { unfold s1. simpl. split_ifs; lia. }
  assert (Hs1 : g_cap_object_ptrs s1 !! slot = Some o) by (unfold s1; simpl; by simplify_map_eq).
  destruct (negb (parent =? _) && _).
  - destruct (link_child_frame s1 parent slot) as (? & ? & ?).
    apply Create_ok; try done; try congruence.
    + apply (link_child_evolve s1).
    + intros i Hi [oi Hoi].
      edestruct (link_child_keeps s1 parent slot i oi) as (? & ? & _); [|eauto].
      unfold s1; simpl; by simplify_map_eq.
    + destruct (link_child_keeps s1 parent slot slot o Hs1) as (o' & ? & ? & Hd & Hg).
      exists o'. split; [done|]. split; [done|]. rewrite Hd, Hg. unfold o, new_object. by destruct aud.
    + intros Hwf i o1. apply link_child_wf_object. intros j oj Hj. unfold s1 in Hj. simpl in Hj.
      destruct (decide (j = slot)) as [->|]; simplify_map_eq; [split; [lia|apply wf_new_object]|eauto].
  - apply Create_ok; try done.
    + intros i Hi [oi Hoi]. unfold s1; simpl; simplify_map_eq. eauto.
    + exists o. split; [done|]. split; [reflexivity|]. unfold o, new_object. by destruct aud.
    + intros Hwf i o1 Hi. unfold s1 in Hi. simpl in Hi.
      destruct (decide (i = slot)) as [->|]; simplify_map_eq; [apply wf_new_object|by eapply Hwf].
Qed.

Lemma create_wf s o r :
  create_spec s o r -> wf_registry s -> wf_registry r.1.
Proof.
  intros Hc Hwf. destruct Hc as [|s' slot Hr Hb Hn Hev Hkeep Hnew Hcnt Hready _ Hobj]; [done|].
  destruct Hwf as [Hs Hc Hboot H0]. cbn [fst]. constructor.
  - intros i o1 Hi. split; [|eapply Hobj; [|exact Hi]].
    + rewrite Hcnt. apply Hev in Hi as (o2 & Hi & _).
      destruct (decide (i = slot)) as [->|]; simplify_map_eq; [lia|]. apply Hs in Hi. lia.
    + intros j oj Hj%Hs. split; [lia|apply Hj].
  - rewrite Hcnt. lia.
  - congruence.
  - intros _. destruct (H0 Hr) as (o0 & Ho0 & Him).
    destruct (Hkeep 0) as [o0' Ho0']; [lia|eauto|]. exists o0'. split; [done|].
    apply Hev in Ho0' as (o1 & Ho1 & Hv). rewrite lookup_insert_ne in Ho1 by lia.
    rewrite (ev_immortal _ _ Hv). congruence.
Qed.

Lemma audit_wf s e : wf_registry s -> wf_registry (audit s e).
Proof. by intros []. Qed.

Lemma cap_object_init_wf s : wf_registry s -> wf_registry (cap_object_init s).
Proof.
  intros Hwf. unfold cap_object_init. destruct (cache_ready s) eqn:E; [done|].
  destruct Hwf as [_ _ Hboot _]. rewrite (Hboot E). constructor; cbn; try done.
  - intros i o [[<- <-]|[_ ?]]%lookup_insert_Some; [|done]. split; [lia|].
    constructor; try done; by left.
  - intros _. exists sentinel. by rewrite lookup_insert_eq.
Qed.

Lemma registry_boot_wf : wf_registry registry_boot.
Proof. constructor; cbn; intros; try done. Qed.

(** ** Derivation *)

(** [o] carries no more authority than [parent]. *)
Record attenuates (parent o : cap_object) : Prop := {
  at_kind : kind o = kind parent;
  at_data : kind_data o = kind_data parent;
  at_rights : has_all (rights_bitmap parent) (rights_bitmap o) = true;
  at_audience : forall pid, cap_token_validate_audience (Some o) pid = true ->
                            cap_token_validate_audience (Some parent) pid = true
}.

Lemma has_flag_land_pow2 x m k :
  0 <= k -> Z.testbit m k = true -> has_flag (x &. m) (2 ^ k) = has_flag x (2 ^ k).
Proof. intros. rewrite !has_flag_pow2, Z.land_spec by done. by rewrite H0, andb_true_r. Qed.

Lemma privileged_flag parent_flags fl k :
  0 <= k -> Z.testbit PRIVILEGED_FLAGS k = true ->
  has_all parent_flags (fl &. PRIVILEGED_FLAGS) = true ->
  has_flag fl (2 ^ k) = true -> has_flag parent_flags (2 ^ k) = true.
Proof.
  intros Hk Hm Hall Hf. rewrite has_flag_pow2 in * by done.
  eapply has_all_spec in Hall; [exact Hall|done|]. by rewrite Z.land_spec, Hf, Hm.
Qed.

Lemma scan_pad_single p : scan_audience 8 (pad_none 8 [p]) = if p =? PID_NONE then [] else [p].
Proof. unfold pad_none, scan_audience. simpl. by destruct (p =? PID_NONE). Qed.

(** The audience a derived object gets is within the parent's. *)
Lemma derived_audience parent caller sub p :
  has_flag (flags parent) CAP_FLAG_PUBLIC = false ->
  cap_token_validate_audience (Some parent) caller = true ->
  audience_is_subset parent sub = true ->
  p ∈ scan_audience 8 (match sub with None => pad_none 8 [caller] | Some l => l end) ->
  p ∈ audience parent.
Proof.
  intros Hp Hv Hs Hin. unfold cap_token_validate_audience in Hv.
  unfold audience_is_subset in Hs. rewrite Hp in Hv, Hs. destruct sub as [l|].
  - rewrite forallb_forall in Hs. apply list_elem_of_In, Hs, andb_true_iff in Hin as [_ H].
    by apply existsb_eqb.
  - rewrite scan_pad_single in Hin. apply existsb_eqb in Hv.
    destruct (caller =? PID_NONE); [by apply not_elem_of_nil in Hin|].
    by apply list_elem_of_singleton in Hin as ->.
Qed.

Lemma derived_attenuates parent caller rights sub fl pi :
  wf_object parent ->
  cap_token_validate_audience (Some parent) caller = true ->
  has_all (rights_bitmap parent) rights = true ->
  has_all (flags parent) (fl &. PRIVILEGED_FLAGS) = true ->
  audience_is_subset parent sub = true ->
  attenuates parent
    (new_object (kind parent) rights
       (Some (match sub with None => pad_none 8 [caller] | Some l => l end))
       fl (kind_data parent) caller pi).
Proof.
  intros Hwf Hv Hr Hf Hs. constructor; try done. intros pid.
  destruct (has_flag (flags parent) CAP_FLAG_PUBLIC) eqn:Hp.
  { intros _. unfold cap_token_validate_audience. by rewrite Hp. }
  unfold cap_token_validate_audience at 1. rewrite flags_new, audience_new.
  assert (Hin := fun p => derived_audience parent caller sub p Hp Hv Hs).
  assert (existsb (fun p => u32 p =? PID_PUBLIC)
            (scan_audience 8 match sub with None => pad_none 8 [caller] | Some l => l end) = false) as ->.
  { apply not_true_is_false. intros (p & Hpi%list_elem_of_In%Hin & Hpp)%existsb_exists.
    rewrite (wf_public _ Hwf) in Hp; [done|].
    apply existsb_exists. exists p. by rewrite <- list_elem_of_In. }
  destruct (has_flag fl CAP_FLAG_PUBLIC) eqn:Hfl.
  { exfalso. apply (privileged_flag _ _ 0) in Hf; [|done..]. change (has_flag (flags parent) CAP_FLAG_PUBLIC = true) in Hf. congruence. }
  intros H%existsb_eqb%Hin. unfold cap_token_validate_audience. rewrite Hp. by apply existsb_eqb.
Qed.

(** What [cap_object_derive_inner] does on each branch. *)
Inductive derive_spec (s : registry) (parent_i caller rights : Z) (sub : option (list Z)) (fl : Z)
    (quiet expand : bool)
    : registry * Z -> Prop :=
| Derive_err e : -128 <= e < 0 -> derive_spec s parent_i caller rights sub fl quiet expand (s, e)
| Derive_ok parent o s1 slot :
    0 <> parent_i -> parent_i < CAP_OBJECT_CAPACITY ->
    g_cap_object_ptrs s !! parent_i = Some parent ->
    deleted parent = false ->
    cap_token_validate_audience (Some parent) caller = true ->
    has_flag (rights_bitmap parent) RIGHT_DERIVE = true ->
    has_all (flags parent) (fl &. PRIVILEGED_FLAGS) = true ->
    has_flag fl KERNEL_MANAGED_FLAGS = false ->
    rights_bitmap o = rights -> owner_pid o = caller ->
    kind o = kind parent -> kind_data o = kind_data parent ->
    audience o = scan_audience 8 (match sub with None => pad_none 8 [caller] | Some l => l end) ->
    (has_flag (flags o) CAP_FLAG_IMMORTAL = has_flag fl CAP_FLAG_IMMORTAL) ->
    (expand = false -> wf_object parent -> attenuates parent o) ->
    create_spec s o (s1, slot) -> 0 <= slot ->
    derive_spec s parent_i caller rights sub fl quiet expand
      (if quiet then s1 else audit s1 (AuditCapDerive caller parent_i slot rights), slot).

Lemma new_object_immortal k rights aud fl kd owner parent :
  has_flag (flags (new_object k rights aud fl kd owner parent)) CAP_FLAG_IMMORTAL =
  has_flag fl CAP_FLAG_IMMORTAL.
Proof. rewrite flags_new. split_ifs; [|done]. by apply has_flag_lor_disjoint. Qed.

Lemma cap_object_derive_spec ok s pi caller rights sub fl quiet expand :
  derive_spec s pi caller rights sub fl quiet expand
    (cap_object_derive_inner ok s pi caller rights sub fl quiet expand).
Proof.
  unfold cap_object_derive_inner.
  destruct ((pi =? 0) || _) eqn:E1; [by constructor|].
  destruct (g_cap_object_ptrs s !! pi) as [parent|] eqn:Ep; [|by constructor].
  destruct (deleted parent) eqn:Ed; [by constructor|].
  destruct (cap_token_validate_audience _ _) eqn:Ev; [cbn [negb]|by constructor].
  destruct (rights_bitmap parent &. RIGHT_DERIVE =? 0) eqn:Eder; [by constructor|].
  destruct (has_all (rights_bitmap _) _) eqn:Er; [cbn [negb]|by constructor].
  destruct (has_all (flags _) _) eqn:Ef; [cbn [negb]|by constructor].
  destruct (has_flag fl _) eqn:Ek; [by constructor|].
  destruct (negb expand && _) eqn:Es; [by constructor|].
  set (aud := match sub with None => _ | Some l => l end).
  pose proof (cap_object_create_spec ok s (kind parent) rights (Some aud) fl
                (kind_data parent) caller pi) as Hc.
  destruct (cap_object_create _ _ _ _ _ _ _ _ _) as [s1 slot].
  destruct (Z_le_gt_dec 0 slot) as [Hsl|Hsl].
  - assert (((0 <=? slot) && negb quiet) = negb quiet) as -> by (destruct quiet; lia).
    replace (if negb quiet then _ else _)
      with (if quiet then s1 else audit s1 (AuditCapDerive caller pi slot rights), slot)
      by (by destruct quiet).
    eapply (Derive_ok _ _ _ _ _ _ _ _ parent
      (new_object (kind parent) rights (Some aud) fl (kind_data parent) caller pi));
      [lia|lia|exact Ep|exact Ed|exact Ev| |exact Ef|exact Ek|reflexivity|reflexivity|reflexivity
      |reflexivity| | | |exact Hc|exact Hsl].
    + unfold has_flag. by rewrite Eder.
    + apply audience_new.
    + apply new_object_immortal.
    + intros -> Hwf. apply derived_attenuates; try done. by destruct (audience_is_subset _ _).
  - destruct (Z.leb_spec 0 slot); [lia|]. inversion Hc; subst; [by constructor|lia].
Qed.

(** ** Resolution *)
Lemma cap_token_resolve_iff s pid tok r o :
  cap_token_resolve s pid tok r = Some o <->
  0 < cap_token_idx tok < CAP_OBJECT_CAPACITY /\
  g_cap_object_ptrs s !! cap_token_idx tok = Some o /\
  deleted o = false /\ generation o = cap_token_gen tok /\
  cap_token_validate_audience (Some o) pid = true /\
  has_all (rights_bitmap o) r = true.
Proof.
  pose proof (cap_token_idx_bound tok) as Hb. unfold in_u in Hb.
  unfold cap_token_resolve, cap_token_is_null, cap_token_validate_audience.
  set (i := cap_token_idx tok) in *. split.
  - destruct (Z.eqb_spec i 0) as [->|]; [done|]. cbn [orb].
    destruct (i >=? CAP_OBJECT_CAPACITY) eqn:E2; [done|].
    destruct (g_cap_object_ptrs s !! i) as [o'|]; [|done].
    destruct (deleted o') eqn:Ed; [done|].
    destruct (Z.eqb_spec (generation o') (cap_token_gen tok)); [|done]. cbn [negb].
    destruct (has_flag (flags o') CAP_FLAG_PUBLIC) eqn:Ef, (existsb _ _) eqn:Ee; try done;
      cbn [negb andb]; (destruct (has_all _ r) eqn:Er; [|done]); intros [= ->];
      rewrite ?Ef; (split; [lia|done]).
  - intros (Hi & Ho & Hd & Hg & Hv & Hr). rewrite Ho, Hd, Hg, Hr, Z.eqb_refl.
    destruct (Z.eqb_spec i 0); [lia|]. destruct (i >=? CAP_OBJECT_CAPACITY) eqn:E; [lia|].
    cbn [orb negb]. destruct (has_flag (flags o) CAP_FLAG_PUBLIC); [done|]. by rewrite Hv.
Qed.

(** [pid] can obtain, with some token, an object of kind [k] and payload [d]
    that grants every right in [r]. *)
Definition can_resolve (s : registry) (pid k d r : Z) : Prop :=
  exists tok o, cap_token_resolve s pid tok r = Some o /\ kind o = k /\ kind_data o = d.

Lemma can_resolve_iff s pid k d r :
  wf_registry s ->
  can_resolve s pid k d r <->
  exists i o, 0 < i < CAP_OBJECT_CAPACITY /\ g_cap_object_ptrs s !! i = Some o /\
    deleted o = false /\ cap_token_validate_audience (Some o) pid = true /\
    has_all (rights_bitmap o) r = true /\ kind o = k /\ kind_data o = d.
Proof.
  intros Hwf. split.
  - intros (tok & o & (Hi & Ho & Hd & _ & Hv & Hr)%cap_token_resolve_iff & Hk & Hkd). eauto 10.
  - intros (i & o & Hi & Ho & Hd & Hv & Hr & Hk & Hkd).
    destruct (wf_slots _ Hwf _ _ Ho) as [_ Hwo].
    assert (in_u 24 i). { unfold in_u, CAP_OBJECT_CAPACITY in *. lia. }
    assert (in_u 8 0) by done. pose proof (wf_gen _ Hwo).
    exists (cap_token_pack (generation o) i 0), o.
    rewrite cap_token_resolve_iff, pack_idx, pack_gen by done. done.
Qed.
