(* ===== verification/CapRevoke.v ===== *)
(** * Revocation and destruction (kernel/cap/revoke.c, [cap_object_revoke])

    The breadth-first cascade over the child lists with its bounded work queue,
    the single-object revoke that calls it, and the collection of a dead
    process's objects; then the registry as a state machine, with the two
    security theorems of the capability system: authority is confined to those
    who already had it, and a revoked object stays unreachable. *)
From S2P Require Import Prelude CapToken CapObject.
From stdpp Require Import relations.
Local Open Scope Z_scope.
Local Open Scope c_scope.

Definition REVOKE_CASCADE_MAX : nat := 1024.

(** [obj->deleted = 1] and the atomic increment of [generation]. *)
Definition kill (o : cap_object) : cap_object :=
  {| o with deleted := true; generation := u32 (generation o + 1) |}.

(** ** The cascade *)

(** The seeding loop; [room] is [REVOKE_CASCADE_MAX - tail].  It returns the
    slots queued and the test [cur != CAP_OBJECT_IDX_NONE] after the loop. *)
Fixpoint seed_queue (m : gmap Z cap_object) (room : nat) (cur : Z) : list Z * bool :=
  if cur =? CAP_OBJECT_IDX_NONE then ([], false) else
  match room with
  | O => ([], true)
  | S r =>
      match m !! cur with
      | None => ([cur], true)
      | Some c => let '(q, t) := seed_queue m r (next_sibling_idx c) in (cur :: q, t)
      end
  end.

(** The inner loop that queues the children of a visited object. *)
Fixpoint enqueue_children (m : gmap Z cap_object) (room : nat) (c : Z) : list Z * bool :=
  if c =? CAP_OBJECT_IDX_NONE then ([], false) else
  match room with
  | O => ([], true)
  | S r =>
      match m !! c with
      | None => ([c], false)
      | Some cobj => let '(q, t) := enqueue_children m r (next_sibling_idx cobj) in (c :: q, t)
      end
  end.

(** The loop [while (head < tail)]: [queue] is the part of the array between
    [head] and [tail].  Every iteration consumes one of the at most
    REVOKE_CASCADE_MAX entries ever written, so that much fuel is enough
    ([cascade_loop_total]); [None] is running out of it. *)
Fixpoint cascade_loop (fuel : nat) (m : gmap Z cap_object) (queue : list Z) (room : nat)
    (count : Z) (truncated : bool) : option (gmap Z cap_object * Z * bool) :=
  match queue with
  | [] => Some (m, count, truncated)
  | idx :: queue =>
      match fuel with
      | O => None
      | S fuel =>
          match m !! idx with
          | None => cascade_loop fuel m queue room count truncated
          | Some obj =>
              if has_flag (flags obj) CAP_FLAG_IMMORTAL
              then cascade_loop fuel m queue room count truncated
              else
                let '(obj, count) := if deleted obj then (obj, count) else (kill obj, count + 1) in
                let m := <[idx := obj]> m in
                let '(q, t) := enqueue_children m room (first_child_idx obj) in
                cascade_loop fuel m (queue ++ q) (room - length q) count (truncated || t)
          end
      end
  end.

Definition mark_truncated (m : gmap Z cap_object) (root_idx : Z) : gmap Z cap_object :=
  match m !! root_idx with
  | None => m
  | Some root => <[root_idx := {| root with flags := flags root |. CAP_FLAG_CASCADE_TRUNCATED |}]> m
  end.

(** The registry after the cascade, the count returned and whether it was cut. *)
Definition cascade (m : gmap Z cap_object) (root_idx : Z) : option (gmap Z cap_object * Z * bool) :=
  if (root_idx =? 0) || (root_idx >=? CAP_OBJECT_CAPACITY) then Some (m, 0, false) else
  match m !! root_idx with
  | None => Some (m, 0, false)
  | Some root =>
      let '(queue, t) := seed_queue m REVOKE_CASCADE_MAX (first_child_idx root) in
      match cascade_loop REVOKE_CASCADE_MAX m queue (REVOKE_CASCADE_MAX - length queue) 0 t with
      | None => None
      | Some (m, count, truncated) =>
          Some (if truncated then mark_truncated m root_idx else m, count, truncated)
      end
  end.

(** [cascade] never runs out of fuel ([cascade_total]), so the default is never used. *)
Definition revoke_cascade (s : registry) (root_idx : Z) : registry * Z :=
  match cascade (g_cap_object_ptrs s) root_idx with
  | Some (m, count, _) => (set_ptrs s m, count)
  | None => (s, 0)
  end.

Definition cap_object_revoke (s : registry) (idx : Z) : registry * Z :=
  if (idx =? 0) || (idx >=? CAP_OBJECT_CAPACITY) then (s, CAP_V2_EINVAL) else
  match g_cap_object_ptrs s !! idx with
  | None => (s, CAP_V2_EINVAL)
  | Some obj =>
      if has_flag (flags obj) CAP_FLAG_IMMORTAL then (s, CAP_V2_EPERM) else
      if deleted obj then (s, CAP_V2_EREVOKED) else
      let eager := has_flag (flags obj) CAP_FLAG_EAGER_REVOKE in
      let s := set_ptrs s (<[idx := kill obj]> (g_cap_object_ptrs s)) in
      let '(s, count) :=
        if eager then
          let '(s, c) := revoke_cascade s idx in (s, if c >? 0 then 1 + c else 1)
        else (s, 1) in
      (audit s (AuditCapRevoke idx count), count)
  end.

(** The body of the scan in [revoke_collect_orphans] for slot [i]. *)
Definition collect_one (pid : Z) (st : registry * Z) (i : Z) : registry * Z :=
  let '(s, count) := st in
  match g_cap_object_ptrs s !! i with
  | Some obj =>
      if negb (deleted obj) && (owner_pid obj =? pid) &&
         negb (has_flag (flags obj) CAP_FLAG_IMMORTAL) then
        let eager := has_flag (flags obj) CAP_FLAG_EAGER_REVOKE in
        let s := set_ptrs s (<[i := kill obj]> (g_cap_object_ptrs s)) in
        let count := count + 1 in
        if eager then
          let '(s, c) := revoke_cascade s i in (s, if c >? 0 then count + c else count)
        else (s, count)
      else (s, count)
  | None => (s, count)
  end.

Definition revoke_collect_orphans (s : registry) (pid : Z) : registry * Z :=
  if pid =? PID_KERNEL then (s, 0) else
  let upper := Z.min (g_cap_object_count s) CAP_OBJECT_CAPACITY in
  fold_left (collect_one pid) (seqZ 1 (upper - 1)) (s, 0).

(** ** Termination *)
Lemma enqueue_children_room m room c : (length (enqueue_children m room c).1 <= room)%nat.
Proof.
  revert c. induction room as [|r IH]; intros c; simpl; destruct (c =? _); simpl; try lia.
  destruct (m !! c) as [o|]; [|simpl; lia].
  specialize (IH (next_sibling_idx o)). destruct (enqueue_children _ _ _). simpl in *. lia.
Qed.

Lemma seed_queue_room m room c : (length (seed_queue m room c).1 <= room)%nat.
Proof.
  revert c. induction room as [|r IH]; intros c; simpl; destruct (c =? _); simpl; try lia.
  destruct (m !! c) as [o|]; [|simpl; lia].
  specialize (IH (next_sibling_idx o)). destruct (seed_queue _ _ _). simpl in *. lia.
Qed.

(** The loop ends when the fuel covers what is queued and what may still be. *)
Lemma cascade_loop_total fuel m queue room count t :
  (length queue + room <= fuel)%nat -> is_Some (cascade_loop fuel m queue room count t).
Proof.
  revert m queue room count t. induction fuel as [|f IH]; intros m [|idx q] room count t Hf;
    cbn [cascade_loop length] in *; try (by eauto); try lia.
  destruct (m !! idx) as [obj|]; [|apply IH; lia].
  destruct (has_flag (flags obj) _); [apply IH; lia|].
  destruct (if deleted obj then _ else _) as [obj' count'].
  pose proof (enqueue_children_room (<[idx:=obj']> m) room (first_child_idx obj')) as Hr.
  destruct (enqueue_children _ _ _) as [q' t']. apply IH. rewrite length_app. simpl in *. lia.
Qed.

Lemma cascade_total m root : is_Some (cascade m root).
Proof.
  unfold cascade. destruct (_ || _); [eauto|]. destruct (m !! root) as [o|]; [|eauto].
  pose proof (seed_queue_room m REVOKE_CASCADE_MAX (first_child_idx o)) as Hs.
  destruct (seed_queue _ _ _) as [q t]. cbn [fst] in Hs.
  destruct (cascade_loop_total REVOKE_CASCADE_MAX m q (REVOKE_CASCADE_MAX - length q) 0 t)
    as [[[m' c'] t'] E]; [lia|]. rewrite E. eauto.
Qed.

(** ** What the cascade changes *)
Definition immortal (o : cap_object) : bool := has_flag (flags o) CAP_FLAG_IMMORTAL.

(** [m'] is [m] with some live, mortal objects killed and nothing else changed. *)
Definition killed_map (m m' : gmap Z cap_object) : Prop :=
  forall i, m' !! i = m !! i \/
            exists o, m !! i = Some o /\ deleted o = false /\ immortal o = false /\
                      m' !! i = Some (kill o).

Lemma killed_map_lookup m m' i o' :
  killed_map m m' -> m' !! i = Some o' ->
  exists o, m !! i = Some o /\ (o' = o \/ o' = kill o /\ deleted o = false /\ immortal o = false).
Proof. intros H Hi. destruct (H i) as [E|(o & ? & ? & ? & E)]; rewrite E in Hi; naive_solver. Qed.

Lemma killed_map_lookup_fwd m m' i o :
  killed_map m m' -> m !! i = Some o ->
  m' !! i = Some o \/ deleted o = false /\ immortal o = false /\ m' !! i = Some (kill o).
Proof. intros H Hi. destruct (H i) as [E|(o' & ? & ? & ? & E)]; rewrite E; naive_solver. Qed.

#[export] Instance killed_map_preorder : PreOrder killed_map.
Proof.
  split; [by left|]. intros a b c Hab Hbc i.
  destruct (Hbc i) as [E|(o & Ho & Hd & Him & E)]; rewrite E; [apply Hab|].
  destruct (Hab i) as [E'|(o' & Ho' & Hd' & Him' & E')]; rewrite E' in Ho.
  all: naive_solver.
Qed.

Lemma killed_map_insert m i o :
  m !! i = Some o -> deleted o = false -> immortal o = false -> killed_map m (<[i := kill o]> m).
Proof.
  intros Hi Hd Him j. destruct (decide (j = i)) as [->|]; simplify_map_eq; [right; eauto|by left].
Qed.

Lemma kill_evolves o : evolves o (kill o).
Proof. by constructor. Qed.

Lemma killed_evolve m m' : killed_map m m' -> evolve_map m m'.
Proof.
  intros H i o' Hi. destruct (killed_map_lookup _ _ _ _ H Hi) as (o & Ho & [->|(-> & _)]);
    exists o; (split; [done|]); [reflexivity|apply kill_evolves].
Qed.

(** Number of live objects. *)
Definition live (m : gmap Z cap_object) : Z :=
  Z.of_nat (size (filter (fun io : Z * cap_object => deleted io.2 = false) m)).

Lemma live_kill m i o :
  m !! i = Some o -> deleted o = false -> live (<[i := kill o]> m) = live m - 1.
Proof.
  intros Hi Hd. unfold live.
  rewrite map_filter_insert_False by done. rewrite map_filter_delete.
  rewrite map_size_delete_Some; [|eexists; by apply map_lookup_filter_Some_2].
  assert (size (filter (fun io : Z * cap_object => deleted io.2 = false) m) <> 0)%nat; [|lia].
  intros Hz. apply map_size_empty_inv in Hz.
  assert (filter (fun io : Z * cap_object => deleted io.2 = false) m !! i = Some o)
    by by apply map_lookup_filter_Some_2.
  by rewrite Hz in *.
Qed.

(** ** Descendants *)

(** [d] is on the sibling list that starts at [c]. *)
Inductive in_siblings (m : gmap Z cap_object) : Z -> Z -> Prop :=
| Sib_here c : c <> CAP_OBJECT_IDX_NONE -> in_siblings m c c
| Sib_next c o d : c <> CAP_OBJECT_IDX_NONE -> m !! c = Some o ->
    in_siblings m (next_sibling_idx o) d -> in_siblings m c d.

(** [d] is [x] or a descendant of [x] through mortal objects. *)
Inductive reaches (m : gmap Z cap_object) : Z -> Z -> Prop :=
| Reach_refl x : reaches m x x
| Reach_child x o c d : m !! x = Some o -> immortal o = false ->
    in_siblings m (first_child_idx o) c -> reaches m c d -> reaches m x d.

(** [d] is a proper descendant of [root]. *)
Definition descendant (m : gmap Z cap_object) (root d : Z) : Prop :=
  exists o c, m !! root = Some o /\ in_siblings m (first_child_idx o) c /\ reaches m c d.

Lemma killed_in_siblings m m' c d : killed_map m m' -> in_siblings m c d <-> in_siblings m' c d.
Proof.
  intros H. split; induction 1 as [|c o d Hc Ho _ IH]; try by constructor.
  - destruct (killed_map_lookup_fwd _ _ _ _ H Ho) as [Ho'|(_ & _ & Ho')];
      by eapply Sib_next.
  - destruct (killed_map_lookup _ _ _ _ H Ho) as (o' & Ho' & [->|(-> & _)]); by eapply Sib_next.
Qed.

Lemma killed_reaches m m' x d : killed_map m m' -> reaches m x d <-> reaches m' x d.
Proof.
  intros H. split; induction 1 as [|x o c d Ho Him Hs _ IH]; try constructor.
  - rewrite (killed_in_siblings _ _ _ _ H) in Hs.
    destruct (killed_map_lookup_fwd _ _ _ _ H Ho) as [Ho'|(_ & _ & Ho')];
      by eapply Reach_child.
  - rewrite <- (killed_in_siblings _ _ _ _ H) in Hs.
    destruct (killed_map_lookup _ _ _ _ H Ho) as (o' & Ho' & [->|(-> & _)]); by eapply Reach_child.
Qed.

Lemma enqueue_sound m room c d : d ∈ (enqueue_children m room c).1 -> in_siblings m c d.
Proof.
  revert c. induction room as [|r IH]; intros c; simpl; destruct (Z.eqb_spec c CAP_OBJECT_IDX_NONE);
    simpl; rewrite ?elem_of_nil; try done.
  destruct (m !! c) as [o|] eqn:E.
  - specialize (IH (next_sibling_idx o)). destruct (enqueue_children _ _ _). simpl in *.
    intros [->|Hd]%elem_of_cons; [by constructor|]. eapply Sib_next; eauto.
  - intros ->%list_elem_of_singleton. by constructor.
Qed.

Lemma enqueue_complete m room c d :
  (enqueue_children m room c).2 = false -> in_siblings m c d -> d ∈ (enqueue_children m room c).1.
Proof.
  intros Ht Hs. revert room Ht. induction Hs as [c Hc|c o d Hc Ho _ IH]; intros [|r]; simpl;
    destruct (Z.eqb_spec c CAP_OBJECT_IDX_NONE); try done; simpl; try done.
  - intros _. destruct (m !! c) as [o|]; [destruct (enqueue_children _ _ _)|]; simpl; set_solver.
  - rewrite Ho. specialize (IH r). destruct (enqueue_children _ _ _). simpl in *. set_solver.
Qed.

Lemma seed_sound m room c d : d ∈ (seed_queue m room c).1 -> in_siblings m c d.
Proof.
  revert c. induction room as [|r IH]; intros c; simpl; destruct (Z.eqb_spec c CAP_OBJECT_IDX_NONE);
    simpl; rewrite ?elem_of_nil; try done.
  destruct (m !! c) as [o|] eqn:E.
  - specialize (IH (next_sibling_idx o)). destruct (seed_queue _ _ _). simpl in *.
    intros [->|Hd]%elem_of_cons; [by constructor|]. eapply Sib_next; eauto.
  - intros ->%list_elem_of_singleton. by constructor.
Qed.

Lemma seed_complete m room c d :
  (seed_queue m room c).2 = false -> in_siblings m c d -> d ∈ (seed_queue m room c).1.
Proof.
  intros Ht Hs. revert room Ht. induction Hs as [c Hc|c o d Hc Ho _ IH]; intros [|r]; simpl;
    destruct (Z.eqb_spec c CAP_OBJECT_IDX_NONE); try done; simpl; try done.
  - intros _. destruct (m !! c) as [o|]; [destruct (seed_queue _ _ _)|]; simpl; set_solver.
  - rewrite Ho. specialize (IH r). destruct (seed_queue _ _ _). simpl in *. set_solver.
Qed.

(** ** The loop's specification *)

(** [d] is dead in [m]: absent, immortal or deleted. *)
Definition dead (m : gmap Z cap_object) (d : Z) : Prop :=
  forall o, m !! d = Some o -> immortal o = false -> deleted o = true.

Lemma killed_dead m m' d : killed_map m m' -> dead m d -> dead m' d.
Proof.
  intros H Hd o' Ho' Him. destruct (killed_map_lookup _ _ _ _ H Ho') as (o & Ho & [->|(-> & _)]); eauto.
Qed.

Record loop_spec (m : gmap Z cap_object) (queue : list Z) (count : Z) (t : bool)
    (r : gmap Z cap_object * Z * bool) : Prop := {
  ls_killed : killed_map m r.1.1;
  ls_count : r.1.2 - count = live m - live r.1.1;
  ls_trunc : t = true -> r.2 = true;
  ls_sound : forall d, r.1.1 !! d <> m !! d -> exists x, x ∈ queue /\ reaches m x d;
  ls_complete : r.2 = false -> forall x d, x ∈ queue -> reaches m x d -> dead r.1.1 d
}.

(** A queue entry that is free or immortal is skipped. *)
Lemma loop_spec_skip m idx queue count t r :
  (forall o, m !! idx = Some o -> immortal o = true) ->
  loop_spec m queue count t r -> loop_spec m (idx :: queue) count t r.
Proof.
  intros Hidx [Hk Hc Ht Hs Hcp]. constructor; try done.
  - intros d Hd. destruct (Hs d Hd) as (x & ? & ?). exists x. split; [set_solver|done].
  - intros Hr x d [->|Hx]%elem_of_cons Hxd; [|by eapply Hcp].
    inversion Hxd as [|? o ? ? Ho Him]; subst; [|rewrite Hidx in Him; done].
    eapply killed_dead; [exact Hk|]. intros o Ho Him. rewrite Hidx in Him; done.
Qed.

(** A visited object is killed (unless it already is) and its children queued. *)
Lemma loop_spec_visit m m1 idx obj queue q count count1 t t1 r :
  m !! idx = Some obj -> immortal obj = false ->
  killed_map m m1 -> dead m1 idx -> count1 - count = live m - live m1 ->
  (forall d, m1 !! d <> m !! d -> d = idx) ->
  (forall d, d ∈ q -> in_siblings m (first_child_idx obj) d) ->
  (t1 = false -> forall d, in_siblings m (first_child_idx obj) d -> d ∈ q) ->
  loop_spec m1 (queue ++ q) count1 (t || t1) r -> loop_spec m (idx :: queue) count t r.
Proof.
  intros Ho Him Hk1 Hd1 Hcnt Hch Hqs Hqc [Hk Hc Ht Hs Hcp]. constructor.
  - by transitivity m1.
  - lia.
  - intros ->. by apply Ht.
  - intros d Hd. destruct (decide (r.1.1 !! d = m1 !! d)) as [E|Hne].
    + rewrite E in Hd. apply Hch in Hd as ->. exists idx. split; [set_solver|constructor].
    + destruct (Hs d Hne) as (x & Hx & Hxd). rewrite <- (killed_reaches _ _ _ _ Hk1) in Hxd.
      apply elem_of_app in Hx as [Hx|Hx]; [exists x; split; [set_solver|done]|].
      exists idx. split; [set_solver|]. eapply Reach_child; eauto.
  - intros Hr x d [->|Hx]%elem_of_cons Hxd.
    + inversion Hxd as [|? o c ? Ho' Him' Hsib Hcd]; subst; [by eapply killed_dead|].
      simplify_eq. eapply (Hcp Hr c); [|by apply (killed_reaches _ _ _ _ Hk1)].
      apply elem_of_app. right. apply Hqc; [|done].
      destruct t1; [|done]. rewrite orb_true_r in Ht. rewrite Ht in Hr; done.
    + eapply (Hcp Hr x); [set_solver|]. by apply (killed_reaches _ _ _ _ Hk1).
Qed.

Lemma cascade_loop_spec fuel m queue room count t r :
  cascade_loop fuel m queue room count t = Some r -> loop_spec m queue count t r.
Proof.
  revert m queue room count t. induction fuel as [|f IH]; intros m [|idx queue] room count t;
    cbn [cascade_loop]; try done.
  1,2: intros [= <-]; constructor; cbn; try done; [lia|set_solver].
  destruct (m !! idx) as [obj|] eqn:Ho.
  2:{ intros H%IH. apply loop_spec_skip; [congruence|done]. }
  destruct (has_flag (flags obj) _) eqn:Him.
  { intros H%IH. apply loop_spec_skip; [naive_solver|done]. }
  destruct (deleted obj) eqn:Hd; cbn [fst snd].
  - rewrite insert_id by done.
    pose proof (enqueue_sound m room (first_child_idx obj)) as Hqs.
    pose proof (enqueue_complete m room (first_child_idx obj)) as Hqc.
    destruct (enqueue_children _ _ _) as [q t1]. intros H%IH.
    eapply loop_spec_visit; try exact H; try done; [|lia|naive_solver]. intros o Ho' _. congruence.
  - assert (killed_map m (<[idx:=kill obj]> m)) as Hk by by apply killed_map_insert.
    pose proof (enqueue_sound (<[idx:=kill obj]> m) room (first_child_idx (kill obj))) as Hqs.
    pose proof (enqueue_complete (<[idx:=kill obj]> m) room (first_child_idx (kill obj))) as Hqc.
    destruct (enqueue_children _ _ _) as [q t1]. intros H%IH.
    eapply loop_spec_visit; try exact H; try done.
    + intros o Ho' _. simplify_map_eq. done.
    + rewrite (live_kill _ _ _ Ho Hd). lia.
    + intros d Hne. destruct (decide (d = idx)); [done|]. by rewrite lookup_insert_ne in Hne.
    + intros d Hdq%Hqs. by apply (killed_in_siblings _ _ _ _ Hk).
    + intros Ht1 d Hsib. apply Hqc; [done|]. by apply (killed_in_siblings _ _ _ _ Hk).
Qed.

(** ** Revision: what revocation may do to the registry *)
Record revises (o o' : cap_object) : Prop := {
  rv_evolves : evolves o o';
  rv_child : first_child_idx o' = first_child_idx o;
  rv_sibling : next_sibling_idx o' = next_sibling_idx o;
  rv_gen : in_u 32 (generation o) -> in_u 32 (generation o');
  rv_deleted : deleted o = true -> deleted o' = true
}.

#[export] Instance revises_preorder : PreOrder revises.
Proof.
  split; [by intros o; constructor|]. intros a b c [] []. constructor; try congruence; eauto.
  by transitivity b.
Qed.

Definition revise_map (m m' : gmap Z cap_object) : Prop :=
  forall i, option_Forall2 revises (m !! i) (m' !! i).

#[export] Instance revise_map_preorder : PreOrder revise_map.
Proof.
  split; [intros m i; reflexivity|]. intros a b c Hab Hbc i. by transitivity (b !! i).
Qed.

Lemma revise_insert m i o o' : m !! i = Some o -> revises o o' -> revise_map m (<[i := o']> m).
Proof.
  intros Hi Ho j. destruct (decide (j = i)) as [->|]; simplify_map_eq; [|reflexivity].
  by constructor.
Qed.

Lemma revise_lookup m m' i o' :
  revise_map m m' -> m' !! i = Some o' -> exists o, m !! i = Some o /\ revises o o'.
Proof. intros H Hi. specialize (H i). rewrite Hi in H. inversion H; eauto. Qed.

Lemma revise_lookup_fwd m m' i o :
  revise_map m m' -> m !! i = Some o -> exists o', m' !! i = Some o' /\ revises o o'.
Proof. intros H Hi. specialize (H i). rewrite Hi in H. inversion H; eauto. Qed.

Lemma revise_evolve m m' : revise_map m m' -> evolve_map m m'.
Proof.
  intros H i o' Hi. destruct (revise_lookup _ _ _ _ H Hi) as (o & ? & []). eauto.
Qed.

Lemma kill_revises o : revises o (kill o).
Proof. constructor; try done. intros _. apply wrap_bound. lia. Qed.

Lemma killed_revise m m' : killed_map m m' -> revise_map m m'.
Proof.
  intros H i. destruct (H i) as [->|(o & -> & _ & _ & ->)]; [reflexivity|].
  constructor. apply kill_revises.
Qed.

Lemma mark_truncated_revise m root : revise_map m (mark_truncated m root).
Proof.
  unfold mark_truncated. destruct (m !! root) as [o|] eqn:E; [|reflexivity].
  eapply revise_insert; [exact E|]. constructor; try done. constructor; try done.
  all: cbn; by apply has_flag_lor_disjoint.
Qed.

Lemma mark_truncated_live m root : live (mark_truncated m root) = live m.
Proof.
  unfold mark_truncated. destruct (m !! root) as [o|] eqn:E; [|done]. unfold live. f_equal.
  destruct (deleted o) eqn:Ed.
  - rewrite map_filter_insert_False by (cbn; congruence).
    rewrite map_filter_delete, delete_id; [done|].
    apply map_lookup_filter_None. right. intros ? Ho. cbn. congruence.
  - rewrite map_filter_insert_True by done.
    rewrite map_size_insert_Some; [done|]. eexists. by apply map_lookup_filter_Some_2.
Qed.

(** Result of a cascade from [root]: the exact set of descendants is killed,
    or the root is flagged as truncated. *)
Record cascade_spec (m : gmap Z cap_object) (root : Z) (r : gmap Z cap_object * Z * bool) : Prop := {
  cs_revise : revise_map m r.1.1;
  cs_count : r.1.2 = live m - live r.1.1;
  cs_pos : 0 <= r.1.2;
  cs_sound : forall d, d <> root -> r.1.1 !! d <> m !! d -> descendant m root d;
  cs_complete : r.2 = false -> forall d, descendant m root d -> dead r.1.1 d;
  cs_flag : r.2 = true -> exists o', r.1.1 !! root = Some o' /\
                                     has_flag (flags o') CAP_FLAG_CASCADE_TRUNCATED = true
}.

Lemma live_killed_le m m' : killed_map m m' -> live m' <= live m.
Proof.
  intros H. unfold live. apply inj_le.
  rewrite <- !size_dom. apply subseteq_size. intros i.
  rewrite !elem_of_dom. intros [o' Ho']. apply map_lookup_filter_Some in Ho' as [Ho' Hd].
  destruct (killed_map_lookup _ _ _ _ H Ho') as (o & Ho & [->|(-> & _)]); [|done].
  exists o. by apply map_lookup_filter_Some_2.
Qed.

Lemma cascade_ok m root r :
  0 < root < CAP_OBJECT_CAPACITY -> is_Some (m !! root) ->
  cascade m root = Some r -> cascade_spec m root r.
Proof.
  intros Hr [o Ho]. unfold cascade. rewrite Ho.
  destruct (Z.eqb_spec root 0); [lia|]. destruct (root >=? _) eqn:E; [lia|]. cbn [orb].
  pose proof (seed_sound m REVOKE_CASCADE_MAX (first_child_idx o)) as Hss.
  pose proof (seed_complete m REVOKE_CASCADE_MAX (first_child_idx o)) as Hsc.
  destruct (seed_queue _ _ _) as [q t]. cbn [fst snd] in *.
  destruct (cascade_loop _ _ _ _ _ _) as [[[m' c] t']|] eqn:El; [|done].
  apply cascade_loop_spec in El as [Hk Hc Ht Hs Hcp]. cbn [fst snd] in *.
  pose proof (live_killed_le _ _ Hk). intros [= <-].
  destruct t'; constructor; cbn [fst snd]; try done; try lia.
  - transitivity m'; [by apply killed_revise|apply mark_truncated_revise].
  - rewrite mark_truncated_live. lia.
  - intros d Hd Hne. destruct (Hs d) as (x & Hx & Hxd); [|exists o, x; eauto].
    unfold mark_truncated in Hne. destruct (m' !! root); [|done].
    by rewrite lookup_insert_ne in Hne.
  - intros _. unfold mark_truncated.
    destruct (revise_lookup_fwd _ _ _ _ (killed_revise _ _ Hk) Ho) as (o' & -> & _).
    rewrite lookup_insert_eq. eexists. split; [done|]. by apply has_flag_lor_r.
  - by apply killed_revise.
  - intros d Hd Hne. destruct (Hs d Hne) as (x & Hx & Hxd). exists o, x. eauto.
  - intros _ d (o' & c' & Ho' & Hsib & Hreach). simplify_eq.
    eapply Hcp; [done| |exact Hreach]. apply Hsc; [|done]. destruct t; [|done]. by destruct Ht.
Qed.

Lemma revoke_cascade_spec s root s' n :
  0 < root < CAP_OBJECT_CAPACITY -> is_Some (g_cap_object_ptrs s !! root) ->
  revoke_cascade s root = (s', n) ->
  exists m' t, s' = set_ptrs s m' /\ cascade_spec (g_cap_object_ptrs s) root (m', n, t).
Proof.
  intros Hr Hs. unfold revoke_cascade.
  destruct (cascade_total (g_cap_object_ptrs s) root) as [[[m' c] t] E].
  rewrite E. intros [= <- <-]. exists m', t. split; [done|]. by apply cascade_ok.
Qed.

(** ** Revoke one object *)
Record revoke_spec (s : registry) (idx : Z) (s' : registry) (n : Z) : Prop := {
  rs_revise : revise_map (g_cap_object_ptrs s) (g_cap_object_ptrs s');
  rs_count : n = live (g_cap_object_ptrs s) - live (g_cap_object_ptrs s');
  rs_pos : 1 <= n;
  rs_self : exists o', g_cap_object_ptrs s' !! idx = Some o' /\ deleted o' = true;
  rs_sound : forall d, d <> idx -> g_cap_object_ptrs s' !! d <> g_cap_object_ptrs s !! d ->
             descendant (g_cap_object_ptrs s) idx d /\
             exists o, g_cap_object_ptrs s !! idx = Some o /\
                       has_flag (flags o) CAP_FLAG_EAGER_REVOKE = true;
  rs_complete : forall o o', g_cap_object_ptrs s !! idx = Some o ->
             g_cap_object_ptrs s' !! idx = Some o' ->
             has_flag (flags o) CAP_FLAG_EAGER_REVOKE = true ->
             has_flag (flags o') CAP_FLAG_CASCADE_TRUNCATED = false ->
             forall d, descendant (g_cap_object_ptrs s) idx d -> dead (g_cap_object_ptrs s') d
}.

Lemma killed_descendant m m' r d : killed_map m m' -> descendant m r d <-> descendant m' r d.
Proof.
  intros H. split; intros (o & c & Ho & Hs & Hr).
  - apply (killed_in_siblings _ _ _ _ H) in Hs. apply (killed_reaches _ _ _ _ H) in Hr.
    destruct (killed_map_lookup_fwd _ _ _ _ H Ho) as [Ho'|(_ & _ & Ho')]; unfold descendant; eauto.
  - apply (killed_in_siblings _ _ _ _ H) in Hs. apply (killed_reaches _ _ _ _ H) in Hr.
    destruct (killed_map_lookup _ _ _ _ H Ho) as (o' & Ho' & [->|(-> & _)]); unfold descendant; eauto.
Qed.

(** The part shared by [cap_object_revoke] and [revoke_collect_orphans]: kill
    the object, then cascade when it is EAGER_REVOKE. *)
Lemma kill_then_cascade s idx obj s' n :
  0 < idx < CAP_OBJECT_CAPACITY ->
  g_cap_object_ptrs s !! idx = Some obj -> deleted obj = false -> immortal obj = false ->
  (if has_flag (flags obj) CAP_FLAG_EAGER_REVOKE
   then revoke_cascade (set_ptrs s (<[idx := kill obj]> (g_cap_object_ptrs s))) idx
   else (set_ptrs s (<[idx := kill obj]> (g_cap_object_ptrs s)), 0)) = (s', n) ->
  0 <= n /\ s' = set_ptrs s (g_cap_object_ptrs s') /\ revoke_spec s idx s' (n + 1).
Proof.
  intros Hidx Ho Hd Him. pose proof (live_kill _ _ _ Ho Hd) as Hl.
  pose proof (killed_map_insert _ _ _ Ho Hd Him) as Hk.
  set (m1 := <[idx := kill obj]> (g_cap_object_ptrs s)) in *.
  assert (m1 !! idx = Some (kill obj)) as Hm1 by (subst m1; apply lookup_insert_eq).
  assert (forall d, d <> idx -> m1 !! d = g_cap_object_ptrs s !! d) as Hne
    by (intros; subst m1; by apply lookup_insert_ne).
  destruct (has_flag (flags obj) CAP_FLAG_EAGER_REVOKE) eqn:He.
  - intros Hc. apply revoke_cascade_spec in Hc as (m' & t & -> & [Hrv Hcnt Hpos Hs Hcp Hf]);
      [|done|unfold set_ptrs; cbn; by rewrite Hm1].
    unfold set_ptrs in *; cbn [fst snd g_cap_object_ptrs] in *.
    split; [done|]. split; [done|]. constructor; cbn [g_cap_object_ptrs].
    + transitivity m1; [by apply killed_revise|done].
    + lia.
    + lia.
    + destruct (revise_lookup_fwd _ _ _ _ Hrv Hm1) as (o' & Ho' & Hr). exists o'.
      split; [done|]. by apply (rv_deleted _ _ Hr).
    + intros d Hd' Hch. rewrite <- (Hne d Hd') in Hch. split; [|eauto].
      apply (killed_descendant _ _ _ _ Hk). by apply Hs.
    + intros o o' Ho' Ho1 _ Hnt d Hdesc. destruct t.
      { destruct Hf as (o2 & Ho2 & Hf2); [done|]. congruence. }
      apply Hcp; [done|]. by apply (killed_descendant _ _ _ _ Hk).
  - intros [= <- <-]. split; [lia|]. split; [done|].
    constructor; unfold set_ptrs; cbn [g_cap_object_ptrs]; try lia; try congruence.
    + by apply killed_revise.
    + eauto.
    + intros d Hd' Hch. by rewrite (Hne d Hd') in Hch.
Qed.

Lemma cap_object_revoke_spec s idx s' n :
  wf_registry s -> cap_object_revoke s idx = (s', n) -> 0 <= n -> revoke_spec s idx s' n.
Proof.
  intros Hwf. unfold cap_object_revoke. destruct (_ || _) eqn:Eb; [by intros [= <- <-]|].
  destruct (g_cap_object_ptrs s !! idx) as [obj|] eqn:Ho; [|by intros [= <- <-]].
  destruct (has_flag _ CAP_FLAG_IMMORTAL) eqn:Him; [by intros [= <- <-]|].
  destruct (deleted obj) eqn:Hd; [by intros [= <- <-]|].
  destruct (wf_slots _ Hwf _ _ Ho) as [Hi _].
  pose proof (kill_then_cascade s idx obj) as Hkc.
  destruct (has_flag _ CAP_FLAG_EAGER_REVOKE).
  - destruct (revoke_cascade _ _) as [s1 c].
    destruct (Hkc s1 c) as (Hc & Hs1 & []); [lia|done..|].
    intros [= <- <-] _. destruct (c >? 0) eqn:Ec; [|assert (c = 0) as -> by lia];
      constructor; cbn; try done; lia.
  - destruct (Hkc (set_ptrs s (<[idx:=kill obj]> (g_cap_object_ptrs s))) 0) as (Hc & Hs1 & []);
      [lia|done..|]. intros [= <- <-] _. constructor; cbn; try done; lia.
Qed.

Lemma cap_object_revoke_frame s idx :
  let s' := (cap_object_revoke s idx).1 in
  cache_ready s' = cache_ready s /\ g_cap_object_count s' = g_cap_object_count s.
Proof.
  unfold cap_object_revoke, revoke_cascade, set_ptrs, audit.
  repeat case_match; simplify_eq; cbn; done.
Qed.

Lemma cap_object_revoke_err s idx :
  (cap_object_revoke s idx).2 < 0 -> (cap_object_revoke s idx).1 = s.
Proof.
  unfold cap_object_revoke. destruct (_ || _); [done|].
  destruct (g_cap_object_ptrs s !! idx) as [obj|]; [|done].
  destruct (has_flag _ CAP_FLAG_IMMORTAL); [done|]. destruct (deleted obj); [done|].
  destruct (has_flag _ CAP_FLAG_EAGER_REVOKE); [|done].
  destruct (revoke_cascade _ _) as [s1 c]. cbn. destruct (c >? 0) eqn:E; lia.
Qed.

(** ** Orphan collection *)
Definition orphan_free (m : gmap Z cap_object) (pid i : Z) : Prop :=
  forall o, m !! i = Some o -> owner_pid o = pid -> immortal o = false -> deleted o = true.

Lemma revise_orphan_free m m' pid i : revise_map m m' -> orphan_free m pid i -> orphan_free m' pid i.
Proof.
  intros H Hf o' Ho' Hw Him. destruct (revise_lookup _ _ _ _ H Ho') as (o & Ho & [Hev _ _ _ Hdel]).
  apply Hdel, (Hf o Ho); unfold immortal in *; destruct Hev; congruence.
Qed.

Lemma collect_one_spec pid s count i s' count' :
  0 < i < CAP_OBJECT_CAPACITY -> collect_one pid (s, count) i = (s', count') ->
  s' = set_ptrs s (g_cap_object_ptrs s') /\
  revise_map (g_cap_object_ptrs s) (g_cap_object_ptrs s') /\
  count' - count = live (g_cap_object_ptrs s) - live (g_cap_object_ptrs s') /\
  orphan_free (g_cap_object_ptrs s') pid i.
Proof.
  intros Hi. unfold collect_one.
  destruct (g_cap_object_ptrs s !! i) as [obj|] eqn:Ho.
  2:{ intros [= <- <-]. split; [by destruct s|]. split; [reflexivity|]. split; [lia|].
      intros o Ho'. congruence. }
  destruct (negb (deleted obj) && (owner_pid obj =? pid) && _) eqn:Eg.
  2:{ intros [= <- <-]. split; [by destruct s|]. split; [reflexivity|]. split; [lia|].
      intros o Ho' Hw Him. simplify_eq. unfold immortal in Him. rewrite Him, Z.eqb_refl in Eg.
      by destruct (deleted obj). }
  apply andb_true_iff in Eg as [[Hd Hw]%andb_true_iff Him].
  apply negb_true_iff in Hd, Him.
  pose proof (kill_then_cascade s i obj) as Hkc.
  assert (forall s1 n, s1 = set_ptrs s (g_cap_object_ptrs s1) /\ revoke_spec s i s1 (n + 1) ->
    s1 = set_ptrs s (g_cap_object_ptrs s1) /\
    revise_map (g_cap_object_ptrs s) (g_cap_object_ptrs s1) /\
    count + 1 + n - count = live (g_cap_object_ptrs s) - live (g_cap_object_ptrs s1) /\
    orphan_free (g_cap_object_ptrs s1) pid i) as Hgen.
  { intros s1 n (Hs1 & [Hrv Hc _ (o1 & Ho1 & Hd1) _ _]). repeat split; try done; [lia|].
    intros o Ho' _ _. congruence. }
  destruct (has_flag _ CAP_FLAG_EAGER_REVOKE).
  - destruct (revoke_cascade _ _) as [s1 c]. destruct (Hkc s1 c) as (Hc & H); [done..|].
    intros [= <- <-]. specialize (Hgen s1 c H).
    destruct (c >? 0) eqn:Ec; [done|]. assert (c = 0) as -> by lia. by rewrite Z.add_0_r in Hgen.
  - edestruct Hkc as (Hc & H); [done..|]. intros [= <- <-].
    specialize (Hgen _ 0 H). by rewrite Z.add_0_r in Hgen.
Qed.

Lemma collect_fold_spec pid l s count s' count' :
  (forall i, i ∈ l -> 0 < i < CAP_OBJECT_CAPACITY) ->
  fold_left (collect_one pid) l (s, count) = (s', count') ->
  s' = set_ptrs s (g_cap_object_ptrs s') /\
  revise_map (g_cap_object_ptrs s) (g_cap_object_ptrs s') /\
  count' - count = live (g_cap_object_ptrs s) - live (g_cap_object_ptrs s') /\
  forall i, i ∈ l -> orphan_free (g_cap_object_ptrs s') pid i.
Proof.
  revert s count. induction l as [|i l IH]; intros s count Hl; cbn [fold_left].
  { intros [= <- <-]. split; [by destruct s|]. split; [reflexivity|]. split; [lia|]. set_solver. }
  destruct (collect_one pid (s, count) i) as [s1 c1] eqn:E1.
  apply collect_one_spec in E1 as (Hs1 & Hr1 & Hc1 & Ho1); [|by apply Hl; left].
  intros H. apply IH in H as (Hs2 & Hr2 & Hc2 & Ho2);
    [|by intros j Hj; apply Hl; right].
  split; [rewrite Hs2, Hs1; done|]. split; [by transitivity (g_cap_object_ptrs s1)|].
  split; [lia|]. intros j [->|Hj]%elem_of_cons; [by eapply revise_orphan_free|eauto].
Qed.

Lemma collect_orphans_spec s pid :
  wf_registry s ->
  let '(s', n) := revoke_collect_orphans s pid in
  s' = set_ptrs s (g_cap_object_ptrs s') /\
  revise_map (g_cap_object_ptrs s) (g_cap_object_ptrs s') /\
  n = live (g_cap_object_ptrs s) - live (g_cap_object_ptrs s') /\
  (pid <> PID_KERNEL -> forall i, 0 < i -> orphan_free (g_cap_object_ptrs s') pid i).
Proof.
  intros Hwf. unfold revoke_collect_orphans. destruct (Z.eqb_spec pid PID_KERNEL) as [->|Hpid].
  { split; [by destruct s|]. split; [reflexivity|]. split; [lia|done]. }
  set (upper := Z.min _ _). destruct (fold_left _ _ _) as [s' n] eqn:E.
  apply collect_fold_spec in E as (Hs & Hr & Hc & Ho).
  - split; [done|]. split; [done|]. split; [lia|]. intros _ i Hi o Hio.
    destruct (revise_lookup _ _ _ _ Hr Hio) as (o0 & Hi0 & _).
    apply (wf_slots _ Hwf) in Hi0 as [Hi0 _]. apply (Ho i); [|done].
    apply elem_of_seqZ. pose proof (wf_count _ Hwf). lia.
  - intros i Hi%elem_of_seqZ. pose proof (wf_count _ Hwf). lia.
Qed.
