(* ===== verification/CapSecurity.v ===== *)
(** * Security of the capability registry

    The registry as a machine driven by a list of operations (the entry points
    of kernel/cap/object.c and revoke.c), the invariant of every reachable
    registry, and the theorems that make it a capability system: attenuation,
    confinement, revocation and the collection of a dead process's objects. *)
From S2P Require Import Prelude CapToken CapObject CapRevoke.
Local Open Scope Z_scope.
Local Open Scope c_scope.

Inductive cap_op :=
| OpInit
| OpCreate (alloc_ok : bool) (k rights : Z) (aud : option (list Z)) (fl kd owner parent : Z)
| OpDerive (alloc_ok : bool) (parent caller rights : Z) (aud : option (list Z)) (fl : Z)
| OpDeriveQuiet (alloc_ok : bool) (parent caller rights : Z) (aud : option (list Z)) (fl : Z)
| OpDeriveInherited (alloc_ok : bool) (parent caller rights : Z) (aud : option (list Z)) (fl : Z)
| OpRevoke (idx : Z)
| OpDestroy (idx : Z)
| OpCollectOrphans (pid : Z).

Definition apply_op (s : registry) (op : cap_op) : registry :=
  match op with
  | OpInit => cap_object_init s
  | OpCreate ok k r a f kd w p => (cap_object_create ok s k r a f kd w p).1
  | OpDerive ok p c r a f => (cap_object_derive ok s p c r a f).1
  | OpDeriveQuiet ok p c r a f => (cap_object_derive_quiet ok s p c r a f).1
  | OpDeriveInherited ok p c r a f => (cap_object_derive_inherited ok s p c r a f).1
  | OpRevoke i => (cap_object_revoke s i).1
  | OpDestroy i => cap_object_destroy s i
  | OpCollectOrphans p => (revoke_collect_orphans s p).1
  end.

Definition run (s : registry) (ops : list cap_op) : registry := fold_left apply_op ops s.

(** The operations that a process can cause: no fresh root objects and no
    kernel-internal audience expansion. *)
Definition user_op (op : cap_op) : bool :=
  match op with
  | OpDerive _ _ _ _ _ _ | OpDeriveQuiet _ _ _ _ _ _
  | OpRevoke _ | OpDestroy _ | OpCollectOrphans _ => true
  | OpInit | OpCreate _ _ _ _ _ _ _ _ | OpDeriveInherited _ _ _ _ _ _ => false
  end.

(** ** What an operation does, by kind *)
Inductive op_effect (s : registry) : cap_op -> registry -> Prop :=
| Eff_init : op_effect s OpInit (cap_object_init s)
| Eff_same op : op_effect s op s
| Eff_create op o s1 s' slot :
    create_spec s o (s1, slot) -> 0 <= slot ->
    (user_op op = true -> wf_registry s ->
       exists i p, g_cap_object_ptrs s !! i = Some p /\ 0 < i /\ deleted p = false /\ attenuates p o) ->
    g_cap_object_ptrs s' = g_cap_object_ptrs s1 -> cache_ready s' = cache_ready s1 ->
    g_cap_object_count s' = g_cap_object_count s1 ->
    op_effect s op s'
| Eff_revise op s' :
    revise_map (g_cap_object_ptrs s) (g_cap_object_ptrs s') -> cache_ready s' = cache_ready s ->
    g_cap_object_count s' = g_cap_object_count s ->
    op_effect s op s'
| Eff_destroy idx : op_effect s (OpDestroy idx) (cap_object_destroy s idx).

Lemma derive_effect s op pi caller rights sub fl quiet expand r :
  derive_spec s pi caller rights sub fl quiet expand r ->
  (expand = true -> user_op op = false) -> op_effect s op r.1.
Proof.
  intros [e He|parent o s1 slot H0 Hb Hp Hd _ _ _ _ _ _ _ _ _ _ Hat Hc Hs] Hu; [by apply Eff_same|].
  eapply Eff_create; [exact Hc|exact Hs| | | | ].
  - intros Huser Hwf. destruct (wf_slots _ Hwf _ _ Hp) as [Hi Hwo].
    exists pi, parent. split; [done|]. split; [lia|]. split; [done|].
    apply Hat; [|done]. destruct expand; [|done]. by rewrite Hu in Huser.
  - by destruct quiet.
  - by destruct quiet.
  - by destruct quiet.
Qed.

Lemma apply_op_effect s op : wf_registry s -> op_effect s op (apply_op s op).
Proof.
  intros Hwf. destruct op; cbn [apply_op].
  - constructor.
  - pose proof (cap_object_create_spec alloc_ok s k rights aud fl kd owner parent) as Hc.
    destruct (cap_object_create _ _ _ _ _ _ _ _ _) as [s1 slot]. cbn [fst].
    destruct (Z_lt_le_dec slot 0); inversion Hc; subst; try lia; try apply Eff_same.
    eapply Eff_create; [exact Hc|done..].
  - eapply derive_effect; [apply cap_object_derive_spec|done].
  - eapply derive_effect; [apply cap_object_derive_spec|done].
  - eapply derive_effect; [apply cap_object_derive_spec|done].
  - destruct (Z_lt_le_dec (cap_object_revoke s idx).2 0) as [He|Hn].
    + rewrite cap_object_revoke_err by done. apply Eff_same.
    + destruct (cap_object_revoke_frame s idx).
      apply Eff_revise; [|done..]. destruct (cap_object_revoke s idx) as [s' n] eqn:E.
      apply (cap_object_revoke_spec _ _ _ _ Hwf E Hn).
  - apply Eff_destroy.
  - pose proof (collect_orphans_spec s pid Hwf) as H.
    destruct (revoke_collect_orphans s pid) as [s' n]. destruct H as (-> & Hr & _). by apply Eff_revise.
Qed.

(** ** The invariant *)
Lemma wf_object_revises o o' : revises o o' -> wf_object o -> wf_object o'.
Proof.
  intros [Hev Hc Hs Hg _] []. pose proof (evolves_audience _ _ Hev) as Ha. destruct Hev.
  constructor; try congruence; [|eauto]. rewrite Ha, ev_public. done.
Qed.

Lemma wf_revise s s' :
  revise_map (g_cap_object_ptrs s) (g_cap_object_ptrs s') -> cache_ready s' = cache_ready s ->
  g_cap_object_count s' = g_cap_object_count s -> wf_registry s -> wf_registry s'.
Proof.
  intros Hr Hc Hn [Hs Hcount Hboot H0]. constructor; rewrite ?Hc, ?Hn; try done.
  - intros i o' Hi. destruct (revise_lookup _ _ _ _ Hr Hi) as (o & Ho & Hrv).
    destruct (Hs _ _ Ho). split; [done|]. by eapply wf_object_revises.
  - intros Hcr. apply map_empty. intros i. specialize (Hr i). rewrite Hboot, lookup_empty in Hr by done.
    by inversion Hr.
  - intros Hcr. destruct (H0 Hcr) as (o & Ho & Him).
    destruct (revise_lookup_fwd _ _ _ _ Hr Ho) as (o' & Ho' & [Hev _ _ _ _]).
    exists o'. split; [done|]. by rewrite (ev_immortal _ _ Hev).
Qed.

Lemma wf_destroy s idx : wf_registry s -> wf_registry (cap_object_destroy s idx).
Proof.
  intros Hwf. unfold cap_object_destroy. destruct (_ || _) eqn:E; [done|].
  destruct (g_cap_object_ptrs s !! idx) as [o|] eqn:Ho; [|done].
  destruct Hwf as [Hs Hcount Hboot H0]. constructor; cbn; try done.
  - intros i o' [_ Hi]%lookup_delete_Some. eauto.
  - intros Hc. rewrite Hboot in Ho by done. done.
  - intros Hc. destruct (H0 Hc) as (o0 & ? & ?). exists o0.
    rewrite lookup_delete_ne by lia. done.
Qed.

Lemma wf_apply_op s op : wf_registry s -> wf_registry (apply_op s op).
Proof.
  intros Hwf. destruct (apply_op_effect s op Hwf) as [|? |? ? ? ? ? Hc ? _ Hp Hr Hn| |].
  - by apply cap_object_init_wf.
  - done.
  - apply (create_wf _ _ _ Hc) in Hwf as []. constructor; rewrite ?Hp, ?Hr, ?Hn; done.
  - by eapply wf_revise.
  - by apply wf_destroy.
Qed.

Lemma wf_run s ops : wf_registry s -> wf_registry (run s ops).
Proof. revert s. induction ops as [|op ops IH]; intros s Hs; [done|]. by apply IH, wf_apply_op. Qed.

(** C15: every registry that the kernel can reach, by any sequence of the
    registry's operations from boot, is well formed: slots lie below the
    high-water mark, audiences are bounded, an audience with PID_PUBLIC has the
    PUBLIC flag, links are slots or the end marker, slot 0 stays an immortal
    sentinel. *)
Theorem registry_invariant (ops : list cap_op) : wf_registry (run registry_boot ops).
Proof. apply wf_run, registry_boot_wf. Qed.

(** A successful [cap_object_derive] only ever attenuates: the caller was in
    the parent's audience and the parent has RIGHT_DERIVE, the child is a fresh
    live object of the same kind and payload, with no right the parent lacks,
    resolvable by nobody who could not resolve the parent, immortal only if the
    parent is; a failed one changes nothing. *)
Theorem derive_attenuates (alloc_ok : bool) (s : registry) (parent_i caller rights fl : Z)
    (aud : option (list Z)) (s' : registry) (n : Z) :
  wf_registry s ->
  cap_object_derive alloc_ok s parent_i caller rights aud fl = (s', n) ->
  (n < 0 /\ s' = s) \/
  (exists parent child,
     g_cap_object_ptrs s !! parent_i = Some parent /\ deleted parent = false /\
     cap_token_validate_audience (Some parent) caller = true /\
     has_flag (rights_bitmap parent) RIGHT_DERIVE = true /\
     g_cap_object_ptrs s !! n = None /\
     g_cap_object_ptrs s' !! n = Some child /\ deleted child = false /\ generation child = 1 /\
     rights_bitmap child = rights /\ owner_pid child = caller /\ attenuates parent child /\
     (has_flag (flags child) CAP_FLAG_IMMORTAL = true ->
      has_flag (flags parent) CAP_FLAG_IMMORTAL = true) /\
     audit_log s' = audit_log s ++ [AuditCapDerive caller parent_i n rights]).
Proof.
  intros Hwf Hd. unfold cap_object_derive in Hd.
  pose proof (cap_object_derive_spec alloc_ok s parent_i caller rights aud fl false false) as Hsp.
  rewrite Hd in Hsp.
  inversion Hsp as [e He|parent o s1 slot H0 Hb Hp Hdel Hv Hder Hfl Hk Hro Hown _ _ _ Him Hat Hc Hn];
    subst; [left; split; [lia|done]|right].
  destruct (wf_slots _ Hwf _ _ Hp) as [_ Hwo]. specialize (Hat eq_refl Hwo).
  inversion Hc as [|? ? Hready Hsl Hnone Hev _ (child & Hch & Hevo & Hcd & Hcg) _ _ Haud _]; subst; [lia|].
  exists parent, child. cbn [g_cap_object_ptrs audit audit_log]. repeat (split; [done|]).
  destruct Hat as [Hak Had Har Haa]. pose proof Hevo as [].
  repeat (split; [congruence|]). split; [constructor; try congruence|].
  - intros pid Hpid. apply Haa. by rewrite <- (evolves_validate _ _ pid Hevo).
  - split; [|by rewrite <- Haud].
    rewrite ev_immortal, Him. apply (privileged_flag _ _ 3); done.
Qed.

(** A concrete system: an object of payload 77 owned by process 5 with the rights
    READ, WRITE and DERIVE, audience {5, 6}, eagerly revoked, and a child that
    process 5 derived from it. *)
Definition demo_ops : list cap_op :=
  [ OpInit;
    OpCreate true CAP_KIND_CAN 0xB (Some [5; 6; PID_NONE]) CAP_FLAG_EAGER_REVOKE 77 5
      CAP_OBJECT_IDX_NONE;
    OpDerive true 1 5 0x1 (Some [6; PID_NONE]) 0 ].
Definition demo : registry := run registry_boot demo_ops.

Lemma derive_attenuates_witness :
  exists s', cap_object_derive true demo 1 6 0x9 None 0 = (s', 3) /\
             exists child, g_cap_object_ptrs s' !! 3 = Some child /\ audience child = [6].
Proof.
  destruct (cap_object_derive true demo 1 6 0x9 None 0) as [s' n] eqn:E.
  destruct (derive_attenuates true demo 1 6 0x9 0 None s' n) as [[Hn _]|(p & c & H)].
  - apply wf_run, registry_boot_wf.
  - exact E.
  - apply (f_equal snd) in E. vm_compute in E. subst n. discriminate Hn.
  - exists s'. assert (n = 3) as -> by (apply (f_equal snd) in E; vm_compute in E; congruence).
    split; [reflexivity|]. destruct H as (_ & _ & _ & _ & _ & Hc & _). exists c. split; [exact Hc|].
    apply (f_equal fst) in E. cbn [fst] in E. subst s'. vm_compute in Hc. injection Hc as <-.
    reflexivity.
Defined.

(** ** Confinement *)
Lemma wf_slot_bound s i o :
  wf_registry s -> g_cap_object_ptrs s !! i = Some o -> 0 < i -> 0 < i < CAP_OBJECT_CAPACITY.
Proof. intros Hwf Hi. apply (wf_slots _ Hwf) in Hi as [? _]. pose proof (wf_count _ Hwf). lia. Qed.

Lemma evolve_can_resolve s s' pid k d r :
  wf_registry s -> wf_registry s' -> evolve_map (g_cap_object_ptrs s) (g_cap_object_ptrs s') ->
  can_resolve s' pid k d r -> can_resolve s pid k d r.
Proof.
  intros Hwf Hwf' Hev. rewrite !can_resolve_iff by done.
  intros (i & o' & Hi & Ho' & Hd & Hv & Hr & Hk & Hkd).
  destruct (Hev _ _ Ho') as (o & Ho & He). exists i, o.
  rewrite <- (evolves_validate _ _ pid He). destruct He. destruct ev_live; [done|].
  split; [exact Hi|]. split; [exact Ho|]. split; [done|]. split; [exact Hv|].
  split; [|split]; congruence.
Qed.

Lemma user_op_confined s op pid k d r :
  wf_registry s -> user_op op = true ->
  can_resolve (apply_op s op) pid k d r -> can_resolve s pid k d r.
Proof.
  intros Hwf Hu. pose proof (wf_apply_op s op Hwf) as Hwf'.
  destruct (apply_op_effect s op Hwf) as [|op|op o s1 s' slot Hc Hsl Hat Hp _ _|op s' Hr _ _|idx];
    [done|done| | |].
  - rewrite !can_resolve_iff by done. intros (i & o' & Hi & Ho' & Hd & Hv & Hr & Hk & Hkd).
    rewrite Hp in Ho'. inversion Hc as [|? ? _ _ _ Hev]; subst; [lia|].
    destruct (Hev _ _ Ho') as (o1 & Ho1 & He).
    rewrite (evolves_validate _ _ pid He) in Hv. destruct He. destruct ev_live; [done|].
    destruct (decide (i = slot)) as [->|]; simplify_map_eq.
    + destruct (Hat Hu Hwf) as (j & p & Hj & Hj0 & Hpd & [Hak Had Har Haa]).
      exists j, p. rewrite ev_rights in Hr. split; [exact (wf_slot_bound s j p Hwf Hj Hj0)|].
      split; [exact Hj|]. split; [exact Hpd|].
      split; [by apply Haa|]. split; [by eapply has_all_trans|]. split; congruence.
    + exists i, o1. split; [exact Hi|]. split; [done|]. split; [done|]. split; [exact Hv|].
      split; [|split]; congruence.
  - apply evolve_can_resolve; try done. by apply revise_evolve.
  - apply evolve_can_resolve; try done. unfold cap_object_destroy.
    destruct (_ || _); [reflexivity|]. destruct (_ !! _); [|reflexivity]. apply evolve_map_delete.
Qed.

(** C1: confinement.  Whatever the processes do (derive, revoke, destroy, die),
    in any number and order, a process can resolve an object of some kind and
    payload with some rights only if it could already do so at the start:
    rights are never amplified and never leak to a process outside the audience. *)
Theorem authority_confined (s : registry) (ops : list cap_op) (pid k d r : Z) :
  wf_registry s -> forallb user_op ops = true ->
  can_resolve (run s ops) pid k d r -> can_resolve s pid k d r.
Proof.
  revert s. induction ops as [|op ops IH]; intros s Hwf Hu; [done|].
  cbn in Hu. apply andb_true_iff in Hu as [Hu Hus]. intros H.
  eapply user_op_confined; [done|exact Hu|]. apply IH; [by apply wf_apply_op|done|done].
Qed.

Lemma authority_confined_witness :
  can_resolve (run demo [OpDerive true 1 5 0x3 None 0; OpRevoke 2]) 5 CAP_KIND_CAN 77 0x3 /\
  can_resolve demo 5 CAP_KIND_CAN 77 0x3.
Proof.
  assert (can_resolve (run demo [OpDerive true 1 5 0x3 None 0; OpRevoke 2]) 5 CAP_KIND_CAN 77 0x3) as H.
  { exists (cap_token_pack 1 3 0). vm_compute. eexists. repeat split. }
  split; [exact H|].
  apply (authority_confined demo [OpDerive true 1 5 0x3 None 0; OpRevoke 2]);
    [apply wf_run, registry_boot_wf|reflexivity|exact H].
Defined.

(** ** Revocation *)
Lemma dead_no_resolve s pid tok r :
  (forall o, g_cap_object_ptrs s !! cap_token_idx tok = Some o -> deleted o = true) ->
  cap_token_resolve s pid tok r = None.
Proof.
  intros H. destruct (cap_token_resolve s pid tok r) as [o|] eqn:E; [|done].
  apply cap_token_resolve_iff in E as (_ & Ho & Hd & _). rewrite H in Hd; done.
Qed.

Lemma revoke_err_reason s idx o :
  wf_registry s -> g_cap_object_ptrs s !! idx = Some o -> (cap_object_revoke s idx).2 < 0 ->
  idx = 0 \/ immortal o = true \/ deleted o = true.
Proof.
  intros Hwf Ho. destruct (wf_slots _ Hwf _ _ Ho) as [Hi _]. pose proof (wf_count _ Hwf).
  unfold cap_object_revoke, immortal. destruct (_ || _) eqn:Eb; [left; lia|]. rewrite Ho.
  destruct (has_flag _ CAP_FLAG_IMMORTAL); [auto|]. destruct (deleted o); [auto|].
  destruct (has_flag (flags o) _); [|cbn; lia].
  destruct (revoke_cascade _ _) as [s2 c']. cbn. destruct (c' >? 0) eqn:Ec; lia.
Qed.


Lemma demo_slot1 : exists o, g_cap_object_ptrs demo !! 1 = Some o.
Proof. vm_compute. eexists. reflexivity. Defined.


(** A slot that holds a deleted object keeps it until the slot is destroyed. *)
Definition dead_slot (s : registry) (idx : Z) : Prop :=
  exists o, g_cap_object_ptrs s !! idx = Some o /\ deleted o = true.

Lemma create_keeps_slot s o s1 slot i o1 :
  create_spec s o (s1, slot) -> 0 <= slot -> g_cap_object_ptrs s !! i = Some o1 -> deleted o1 = true ->
  dead_slot s1 i.
Proof.
  intros Hc Hs Hi Hd. inversion Hc as [|? ? _ _ Hn Hev Hkeep]; subst; [lia|].
  assert (i <> slot) as Hne by congruence.
  destruct (Hkeep i Hne) as [o2 Ho2]; [eauto|]. exists o2. split; [done|].
  destruct (Hev _ _ Ho2) as (o3 & Ho3 & He). rewrite lookup_insert_ne in Ho3 by done. simplify_eq.
  destruct (deleted o2) eqn:E2; [done|]. destruct (ev_live _ _ He E2). congruence.
Qed.

Lemma dead_slot_step s op idx :
  wf_registry s -> op <> OpDestroy idx -> idx <> 0 -> dead_slot s idx -> dead_slot (apply_op s op) idx.
Proof.
  intros Hwf Hop H0 (o & Ho & Hd).
  destruct (apply_op_effect s op Hwf) as [|op|op o1 s1 s' slot Hc Hsl _ Hp _ _|op s' Hr _ _|i].
  - unfold cap_object_init. destruct (cache_ready s) eqn:Ec; [by exists o|].
    rewrite (wf_boot _ Hwf Ec) in Ho. done.
  - by exists o.
  - destruct (create_keeps_slot _ _ _ _ _ _ Hc Hsl Ho Hd) as (o2 & ? & ?). exists o2. by rewrite Hp.
  - destruct (revise_lookup_fwd _ _ _ _ Hr Ho) as (o' & Ho' & [_ _ _ _ Hdel]). exists o'. auto.
  - unfold cap_object_destroy. destruct (_ || _); [by exists o|].
    destruct (g_cap_object_ptrs s !! i); [|by exists o]. exists o. cbn.
    rewrite lookup_delete_ne by congruence. done.
Qed.

(** C27: revocation is permanent while the slot is not destroyed: after any
    further operations of kernel and processes, except the destruction of that
    very slot, no token of the slot resolves for anybody. *)
Theorem revoked_stays_dead (s : registry) (idx : Z) (ops : list cap_op) :
  wf_registry s -> idx <> 0 -> dead_slot s idx -> OpDestroy idx ∉ ops ->
  forall pid tok r, cap_token_idx tok = idx -> cap_token_resolve (run s ops) pid tok r = None.
Proof.
  intros Hwf H0 Hd Hops pid tok r <-.
  assert (dead_slot (run s ops) (cap_token_idx tok)) as (o & Ho & Hdel).
  { revert s Hwf Hd. induction ops as [|op ops IH]; intros s Hwf Hd; [done|].
    apply not_elem_of_cons in Hops as [Hop Hops]. apply IH; [done|by apply wf_apply_op|].
    apply dead_slot_step; congruence. }
  apply dead_no_resolve. congruence.
Qed.

Lemma revoked_stays_dead_witness :
  cap_token_resolve (run (run demo [OpRevoke 1])
    [OpCreate true CAP_KIND_CAN 1 None 0 9 5 CAP_OBJECT_IDX_NONE; OpDestroy 2]) 5
    (cap_token_pack 1 1 0) 1 = None.
Proof.
  apply (revoked_stays_dead (run demo [OpRevoke 1]) 1).
  - apply wf_run, wf_run, registry_boot_wf.
  - lia.
  - vm_compute. eexists. repeat split.
  - apply not_elem_of_cons. split; [discriminate|]. apply not_elem_of_cons. split; [congruence|].
    apply not_elem_of_nil.
  - reflexivity.
Defined.

(** When a process has been collected, nothing it owns is left alive: every
    mortal object whose owner is [pid] is deleted, and the returned count is the
    number of objects invalidated. *)
Theorem orphans_collected (s : registry) (pid : Z) :
  wf_registry s -> pid <> PID_KERNEL ->
  let '(s', n) := revoke_collect_orphans s pid in
  n = live (g_cap_object_ptrs s) - live (g_cap_object_ptrs s') /\
  forall i o, i <> 0 -> g_cap_object_ptrs s' !! i = Some o ->
    owner_pid o = pid -> immortal o = false -> deleted o = true.
Proof.
  intros Hwf Hp. pose proof (collect_orphans_spec s pid Hwf) as H.
  destruct (revoke_collect_orphans s pid) as [s' n]. destruct H as (_ & Hr & Hn & Hof).
  split; [done|]. intros i o Hi Ho. apply (Hof Hp i); [|done].
  destruct (revise_lookup _ _ _ _ Hr Ho) as (o0 & Ho0 & _).
  apply (wf_slots _ Hwf) in Ho0. lia.
Qed.

Lemma orphans_collected_witness :
  exists s', revoke_collect_orphans demo 5 = (s', 2) /\
             (forall i o, i <> 0 -> g_cap_object_ptrs s' !! i = Some o ->
                owner_pid o = 5 -> immortal o = false -> deleted o = true).
Proof.
  assert (wf_registry demo) as Hwf by apply wf_run, registry_boot_wf.
  assert (5 <> PID_KERNEL) as Hp by discriminate.
  pose proof (orphans_collected demo 5 Hwf Hp) as H.
  destruct (revoke_collect_orphans demo 5) as [s' n] eqn:E.
  assert (n = 2) as -> by (apply (f_equal snd) in E; vm_compute in E; congruence).
  exists s'. split; [reflexivity|]. apply H.
Defined.

(** the generation does not protect a slot across destruction.  A new object
    starts at generation 1 again, so a token for an object that was destroyed
    resolves, for a process in the audience of the new occupant, to that
    unrelated object. *)
Theorem stale_token_resolves_after_reuse :
  let tok := cap_token_pack 1 1 0 in
  let s0 := run registry_boot
    [OpInit; OpCreate true CAP_KIND_CAN 1 (Some [5]) 0 77 5 CAP_OBJECT_IDX_NONE] in
  let s1 := run s0 [OpDestroy 1; OpCreate true CAP_KIND_VMO 1 (Some [5]) 0 88 6 CAP_OBJECT_IDX_NONE] in
  option_map kind_data (cap_token_resolve s0 5 tok 1) = Some 77 /\
  option_map kind_data (cap_token_resolve s1 5 tok 1) = Some 88.
Proof. split; vm_compute; reflexivity. Qed.

(** [cap_object_destroy] leaves the slot on its parent's child list.  When
    the slot is reused by an unrelated root object, an eager revoke of the old
    parent kills that object too. *)
Theorem destroyed_child_still_linked :
  let s := run demo
    [OpDestroy 2; OpCreate true CAP_KIND_VMO 1 (Some [9]) 0 88 9 CAP_OBJECT_IDX_NONE] in
  let s' := run s [OpRevoke 1] in
  option_map (fun o => (kind_data o, parent_idx o)) (g_cap_object_ptrs s !! 2)
    = Some (88, CAP_OBJECT_IDX_NONE) /\
  option_map kind_data (cap_token_resolve s 9 (cap_token_pack 1 2 0) 1) = Some 88 /\
  cap_token_resolve s' 9 (cap_token_pack 1 2 0) 1 = None.
Proof. repeat split; vm_compute; reflexivity. Qed.
