(* ===== verification/HandleTable.v ===== *)
(** * Per-process capability handle tables (kernel/cap/handle_table.c)

    The table is an array of entries whose free slots are threaded on a list
    through [next_free].  The array is a Rocq list; an array access outside it
    is [None], so that a theorem that an operation returns [Some] is memory
    safety.  The refinement theorem relates the table to a finite map from
    handle to (object, flags), the generations of its handles and the room for them. *)
From S2P Require Import Prelude CapToken CapObject.
Local Open Scope Z_scope.

Abbreviation CAP_HANDLE_INITIAL_CAPACITY := 16.
Definition CAP_HANDLE_MAX : Z := 1024.
Definition CAP_HANDLE_SLOT_NONE : Z := 0xFFFFFFFF.

Record cap_handle_entry := Cap_handle_entry {
  object_idx : Z;
  local_generation : Z;
  token_flags : Z;
  entry_next_free : Z
}.

(** [entries == NULL] is the empty array, which the code pairs with capacity 0. *)
Record cap_handle_table := Cap_handle_table {
  entries : list cap_handle_entry;
  capacity : Z;
  count : Z;
  next_free : Z
}.

(** ** Operations *)

(** The loop [for (i = end; i-- > start; )], [n] iterations to go. *)
Fixpoint rebuild_free_list_in_range (n : nat) (start : Z) (es : list cap_handle_entry) (head : Z)
    : list cap_handle_entry * Z :=
  match n with
  | O => (es, head)
  | S n' =>
      let i := start + Z.of_nat n' in
      rebuild_free_list_in_range n' start
        (upd es i (Cap_handle_entry CAP_OBJECT_IDX_NONE 1 0 head)) i
  end.

(** What [kmalloc] hands out, before it is written. *)
Definition uninit : cap_handle_entry := Cap_handle_entry 0 0 0 0.

Definition cap_handle_table_init (kmalloc_ok : bool) : cap_handle_table * Z :=
  if negb kmalloc_ok then (Cap_handle_table [] 0 0 CAP_HANDLE_SLOT_NONE, CAP_V2_ENOMEM) else
  let '(es, head) := rebuild_free_list_in_range (Z.to_nat CAP_HANDLE_INITIAL_CAPACITY) 0
                       (replicate (Z.to_nat CAP_HANDLE_INITIAL_CAPACITY) uninit)
                       CAP_HANDLE_SLOT_NONE in
  (Cap_handle_table es CAP_HANDLE_INITIAL_CAPACITY 0 head, CAP_V2_OK).

Definition cap_handle_table_free (t : cap_handle_table) : cap_handle_table :=
  Cap_handle_table [] 0 0 CAP_HANDLE_SLOT_NONE.

Definition cap_handle_grow (kmalloc_ok : bool) (t : cap_handle_table) : cap_handle_table * Z :=
  if capacity t >=? CAP_HANDLE_MAX then (t, CAP_V2_ENOMEM) else
  let new_cap := u32 (capacity t * 2) in
  let new_cap := if new_cap >? CAP_HANDLE_MAX then CAP_HANDLE_MAX else new_cap in
  if negb kmalloc_ok then (t, CAP_V2_ENOMEM) else
  let n := Z.to_nat (new_cap - capacity t) in
  let '(es, head) := rebuild_free_list_in_range n (capacity t)
                       (entries t ++ replicate n uninit) (next_free t) in
  (Cap_handle_table es new_cap (count t) head, CAP_V2_OK).

(** The second half of [cap_handle_insert]: unlink the head of the free list and
    fill it; [None] is an access outside the array. *)
Definition pop_slot (t : cap_handle_table) (obj flags : Z) : option (cap_handle_table * Z * Z) :=
  let slot := next_free t in
  match get (entries t) slot with
  | None => None
  | Some e =>
      let t := {| t with next_free := entry_next_free e;
                         entries := upd (entries t) slot
                           {| e with object_idx := obj; token_flags := flags;
                                     entry_next_free := CAP_HANDLE_SLOT_NONE |};
                         count := u32 (count t + 1) |} in
      Some (t, slot, i32 (local_generation e))
  end.

(** The table, [*slot_out] (meaningful when the result is not negative) and the
    return value. *)
Definition cap_handle_insert (kmalloc_ok : bool) (t : cap_handle_table) (obj flags : Z)
    : option (cap_handle_table * Z * Z) :=
  if obj =? CAP_OBJECT_IDX_NONE then Some (t, 0, CAP_V2_EINVAL) else
  let '(t, r) := if next_free t =? CAP_HANDLE_SLOT_NONE then cap_handle_grow kmalloc_ok t
                 else (t, CAP_V2_OK) in
  if negb (r =? CAP_V2_OK) then Some (t, 0, r) else
  pop_slot t obj flags.

Definition cap_handle_lookup (t : cap_handle_table) (slot : Z) : option cap_handle_entry :=
  if slot >=? capacity t then None else
  match get (entries t) slot with
  | None => None
  | Some e => if object_idx e =? CAP_OBJECT_IDX_NONE then None else Some e
  end.

Definition cap_handle_remove (t : cap_handle_table) (slot : Z) : option (cap_handle_table * Z) :=
  if slot >=? capacity t then Some (t, CAP_V2_EINVAL) else
  match get (entries t) slot with
  | None => None
  | Some e =>
      if object_idx e =? CAP_OBJECT_IDX_NONE then Some (t, CAP_V2_EINVAL) else
      Some ({| t with entries := upd (entries t) slot
                        {| object_idx := CAP_OBJECT_IDX_NONE;
                           local_generation := u32 (local_generation e + 1);
                           token_flags := 0; entry_next_free := next_free t |};
                      next_free := slot; count := u32 (count t - 1) |}, CAP_V2_OK)
  end.

(** ** The free list *)

(** [fl] is the list of slots threaded from [h]. *)
Fixpoint chain (es : list cap_handle_entry) (h : Z) (fl : list Z) : Prop :=
  match fl with
  | [] => h = CAP_HANDLE_SLOT_NONE
  | s :: fl' => h = s /\ exists e, get es s = Some e /\ object_idx e = CAP_OBJECT_IDX_NONE /\
                                   chain es (entry_next_free e) fl'
  end.

Record wf_table (t : cap_handle_table) (fl : list Z) : Prop := {
  wt_len : Z.of_nat (length (entries t)) = capacity t;
  wt_cap : 0 < capacity t <= CAP_HANDLE_MAX;
  wt_chain : chain (entries t) (next_free t) fl;
  wt_nodup : NoDup fl;
  wt_complete : forall s e, get (entries t) s = Some e -> object_idx e = CAP_OBJECT_IDX_NONE -> s ∈ fl;
  wt_count : count t = capacity t - Z.of_nat (length fl)
}.

Lemma chain_free es h fl s :
  chain es h fl -> s ∈ fl -> exists e, get es s = Some e /\ object_idx e = CAP_OBJECT_IDX_NONE.
Proof.
  revert h. induction fl as [|s' fl IH]; intros h; [by intros _ ?%not_elem_of_nil|].
  intros (-> & e & He & Ho & Hc) [->|Hs]%elem_of_cons; eauto.
Qed.

Lemma chain_upd es h fl s e : chain es h fl -> 0 <= s -> s ∉ fl -> chain (upd es s e) h fl.
Proof.
  revert h. induction fl as [|s' fl IH]; intros h; [done|].
  intros (-> & e' & He & Ho & Hc) H0 [Hne Hn]%not_elem_of_cons. split; [done|].
  exists e'. rewrite get_upd_ne by congruence. eauto.
Qed.

Lemma chain_app es es' h fl : chain es h fl -> chain (es ++ es') h fl.
Proof.
  revert h. induction fl as [|s fl IH]; intros h; [done|].
  intros (-> & e & He & Ho & Hc). split; [done|]. exists e. split; [|eauto].
  unfold get in *. destruct (s <? 0); [done|]. by apply lookup_app_l_Some.
Qed.

(** Threading [n] slots in front of a chain that does not use them. *)
Lemma rebuild_spec n start es head fl :
  0 <= start -> start + Z.of_nat n <= Z.of_nat (length es) ->
  chain es head fl -> (forall s, s ∈ fl -> s < start \/ start + Z.of_nat n <= s) ->
  let '(es', head') := rebuild_free_list_in_range n start es head in
  chain es' head' (seqZ start (Z.of_nat n) ++ fl) /\ length es' = length es /\
  (forall s, s < start \/ start + Z.of_nat n <= s -> get es' s = get es s) /\
  (forall s, start <= s < start + Z.of_nat n -> local_generation <$> get es' s = Some 1).
Proof.
  intros Hs. revert es head fl. induction n as [|n IH]; intros es head fl Hl Hc Hlt.
  { cbn. split; [done|]. split; [done|]. split; [done|]. intros s Hr. lia. }
  cbn [rebuild_free_list_in_range]. set (i := start + Z.of_nat n). set (es1 := upd es i _).
  specialize (IH es1 i (i :: fl)). destruct (rebuild_free_list_in_range _ _ _ _) as [es' head'].
  destruct IH as (Hc' & Hlen & Hget & Hnew).
  - unfold es1. rewrite length_upd. lia.
  - split; [done|]. eexists. split; [apply get_upd_eq; lia|]. split; [done|].
    apply chain_upd; [done|lia|]. intros Hin%Hlt. lia.
  - intros s [->|Hin%Hlt]%elem_of_cons; lia.
  - split; [|split; [|split]].
    + replace (Z.of_nat (S n)) with (Z.of_nat n + 1) by lia.
      rewrite seqZ_app by lia. rewrite <- app_assoc. exact Hc'.
    + rewrite Hlen. unfold es1. by rewrite length_upd.
    + intros s Hr. rewrite Hget by lia. unfold es1. apply get_upd_ne; lia.
    + intros s Hr. destruct (decide (s = i)) as [->|]; [|apply Hnew; lia].
      rewrite Hget by lia. unfold es1. by rewrite get_upd_eq by lia.
Qed.

Lemma NoDup_seqZ_app start n fl :
  NoDup fl -> (forall s, s ∈ fl -> s < start) -> NoDup (seqZ start n ++ fl).
Proof.
  intros Hn Hlt. apply NoDup_app. split; [apply NoDup_seqZ|]. split; [|done].
  intros s Hs%elem_of_seqZ Hin%Hlt. lia.
Qed.

Lemma chain_bound es h fl s : chain es h fl -> s ∈ fl -> 0 <= s < Z.of_nat (length es).
Proof. intros Hc Hs. destruct (chain_free _ _ _ _ Hc Hs) as (e & He & _). by eapply get_Some_bound. Qed.

Lemma length_seqZ' start n : 0 <= n -> Z.of_nat (length (seqZ start n)) = n.
Proof. intros. rewrite length_seqZ. lia. Qed.

(** ** Initialisation and growth *)
Lemma init_wf : exists fl, wf_table (cap_handle_table_init true).1 fl.
Proof.
  exists (seqZ 0 16). constructor; try done.
  - vm_compute. repeat (split; [done|]; eexists; split; [reflexivity|]; split; [reflexivity|]). done.
  - apply NoDup_seqZ.
  - intros s e Hs _. apply get_Some_bound in Hs. apply elem_of_seqZ. vm_compute in Hs |- *.
    destruct Hs. split; [done|]. by vm_compute.
Qed.

Definition view (e : cap_handle_entry) : Z * Z := (object_idx e, token_flags e).

(** The table as a partial function from handle to (object, flags). *)
Definition handle (t : cap_handle_table) (s : Z) : option (Z * Z) :=
  view <$> cap_handle_lookup t s.

(** The generation counter of a slot. *)
Definition slot_gen (t : cap_handle_table) (s : Z) : option Z :=
  local_generation <$> get (entries t) s.

Lemma wf_free_length t fl : wf_table t fl -> Z.of_nat (length fl) <= capacity t.
Proof.
  intros [Hl Hcap Hc Hn _ _]. rewrite <- (length_seqZ' 0 (capacity t)) by lia.
  apply inj_le, submseteq_length, NoDup_submseteq; [done|].
  intros s Hs. pose proof (chain_bound _ _ _ _ Hc Hs). apply elem_of_seqZ. lia.
Qed.

Lemma handle_get t fl s :
  wf_table t fl ->
  handle t s = match get (entries t) s with
               | Some e => if object_idx e =? CAP_OBJECT_IDX_NONE then None else Some (view e)
               | None => None
               end.
Proof.
  intros []. unfold handle, cap_handle_lookup. destruct (get (entries t) s) as [e|] eqn:E.
  - pose proof (get_Some_bound _ _ _ E). destruct (s >=? capacity t) eqn:Es; [lia|].
    by destruct (object_idx e =? _).
  - by destruct (s >=? capacity t).
Qed.

(** Slots keep their generation; the new ones up to [cap] begin with 1. *)
Definition gen_after (t : cap_handle_table) (cap s : Z) : option Z :=
  match slot_gen t s with
  | Some g => Some g
  | None => if bool_decide (0 <= s < cap) then Some 1 else None
  end.

Lemma grow_spec t fl :
  wf_table t fl -> capacity t < CAP_HANDLE_MAX ->
  let '(t', r) := cap_handle_grow true t in
  r = CAP_V2_OK /\ (exists fl', wf_table t' (fl' ++ fl) /\ fl' <> []) /\
  (forall s, handle t' s = handle t s) /\
  capacity t' = Z.min (capacity t * 2) CAP_HANDLE_MAX /\
  (forall s, slot_gen t' s = gen_after t (capacity t') s).
Proof.
  intros Hwf Hlt. pose proof Hwf as [Hl Hcap Hc Hn Hco Hcnt]. unfold cap_handle_grow.
  destruct (capacity t >=? CAP_HANDLE_MAX) eqn:E; [lia|]. cbn [negb].
  assert (u32 (capacity t * 2) = capacity t * 2) as ->.
  { apply wrap_small. unfold in_u, CAP_HANDLE_MAX in *. lia. }
  set (nc := if capacity t * 2 >? CAP_HANDLE_MAX then CAP_HANDLE_MAX else capacity t * 2).
  assert (nc = Z.min (capacity t * 2) CAP_HANDLE_MAX) as Enc
    by (unfold nc; destruct (capacity t * 2 >? CAP_HANDLE_MAX) eqn:?; lia).
  assert (capacity t < nc <= CAP_HANDLE_MAX) as Hnc by lia. clearbody nc. set (n := Z.to_nat (nc - capacity t)).
  assert (Z.of_nat n = nc - capacity t) as Hnn by lia.
  assert (forall s, s ∈ fl -> s < capacity t) as Hfl.
  { intros s Hs. pose proof (chain_bound _ _ _ _ Hc Hs). lia. }
  pose proof (rebuild_spec n (capacity t) (entries t ++ replicate n uninit) (next_free t) fl) as Hr.
  destruct (rebuild_free_list_in_range _ _ _ _) as [es head].
  rewrite length_app, length_replicate in Hr.
  destruct Hr as (Hc' & Hlen & Hget & Hnew); [lia|lia|by apply chain_app|by intros s Hs; left; apply Hfl|].
  assert (forall s, s < capacity t -> get es s = get (entries t) s) as Hlow.
  { intros s Hs. rewrite Hget by lia. unfold get. destruct (Z.ltb_spec s 0); [done|].
    apply lookup_app_l. lia. }
  assert (wf_table (Cap_handle_table es nc (count t) head) (seqZ (capacity t) (Z.of_nat n) ++ fl)) as Hwf'.
  { constructor; cbn; try lia; [done|by apply NoDup_seqZ_app| |].
    - intros s e Hs Ho. apply elem_of_app. destruct (Z_lt_le_dec s (capacity t)).
      + right. apply (Hco s e); [|done]. by rewrite <- Hlow.
      + left. apply elem_of_seqZ. pose proof (get_Some_bound _ _ _ Hs). lia.
    - rewrite length_app, Nat2Z.inj_add, length_seqZ' by lia. lia. }
  split; [done|]. split; [|split; [|split]].
  - eexists. split; [exact Hwf'|]. intros E'%(f_equal length). rewrite length_seqZ in E'. cbn in E'. lia.
  - intros s. rewrite (handle_get _ _ _ Hwf'), (handle_get _ _ _ Hwf). cbn [entries].
    destruct (Z_lt_le_dec s (capacity t)); [by rewrite Hlow|].
    destruct (get (entries t) s) as [e|] eqn:Es; [apply get_Some_bound in Es; lia|].
    destruct (get es s) as [e|] eqn:Ee; [|done].
    destruct (Z.eqb_spec (object_idx e) CAP_OBJECT_IDX_NONE); [done|]. exfalso.
    pose proof (get_Some_bound _ _ _ Ee).
    destruct (chain_free _ _ _ s Hc') as (e' & He' & Ho'); [|congruence].
    apply elem_of_app. left. apply elem_of_seqZ. lia.
  - done.
  - intros s. unfold gen_after, slot_gen. cbn [entries capacity]. destruct (get (entries t) s) as [e|] eqn:Es.
    + rewrite Hlow, Es; [done|]. apply get_Some_bound in Es. lia.
    + destruct (Z_lt_le_dec s (capacity t)) as [Hb|Hb].
      * destruct (Z_lt_le_dec s 0); [|destruct (get_bound_Some (entries t) s); [lia|congruence]].
        rewrite Hlow, Es by done. cbn. by rewrite bool_decide_eq_false_2 by lia.
      * destruct (Z_lt_le_dec s nc); [rewrite bool_decide_eq_true_2 by lia; apply Hnew; lia|].
        rewrite bool_decide_eq_false_2 by lia. destruct (get es s) eqn:Ee; [|done]. apply get_Some_bound in Ee. lia.
Qed.

Lemma next_free_none t fl : wf_table t fl -> next_free t = CAP_HANDLE_SLOT_NONE <-> fl = [].
Proof.
  intros [Hl Hcap Hc _ _ _]. destruct fl as [|s fl]; cbn in Hc.
  - done.
  - split; [|done]. destruct Hc as (-> & e & He & _). apply get_Some_bound in He.
    unfold CAP_HANDLE_MAX, CAP_HANDLE_SLOT_NONE in *. lia.
Qed.

(** Taking the head of the free list. *)
Lemma pop_slot_spec t s fl obj flags :
  wf_table t (s :: fl) -> obj <> CAP_OBJECT_IDX_NONE ->
  exists t' g, pop_slot t obj flags = Some (t', s, i32 g) /\
  wf_table t' fl /\ handle t s = None /\
  (forall i, handle t' i = if i =? s then Some (obj, flags) else handle t i) /\
  slot_gen t s = Some g /\ (forall i, slot_gen t' i = slot_gen t i) /\ capacity t' = capacity t.
Proof.
  intros Hwf Hobj. pose proof Hwf as [Hl Hcap Hc Hn Hco Hcnt].
  destruct Hc as (Hnf & e & He & Ho & Hc).
  unfold pop_slot. rewrite Hnf, He. eexists _, (local_generation e). split; [reflexivity|].
  set (t' := Cap_handle_table _ _ _ _).
  apply NoDup_cons in Hn as [Hns Hn]. pose proof (get_Some_bound _ _ _ He) as Hsb.
  assert (wf_table t' fl) as Hwf'.
  { constructor; cbn [t' entries capacity next_free count]; rewrite ?length_upd; try done.
    - apply chain_upd; [done|lia|done].
    - intros i ei Hi Hoi. destruct (decide (i = s)) as [->|Hne].
      + by rewrite get_upd_eq in Hi by lia; simplify_eq.
      + rewrite get_upd_ne in Hi by (done || lia). apply Hco in Hi; [|done].
        by apply elem_of_cons in Hi as [?|?].
    - rewrite Hcnt. cbn [length]. pose proof (wf_free_length _ _ Hwf). cbn [length] in *.
      rewrite wrap_small; [lia|]. unfold in_u, CAP_HANDLE_MAX in *. lia. }
  split; [done|]. split; [|split].
  - rewrite (handle_get _ _ _ Hwf), He. by rewrite Ho.
  - intros i. rewrite (handle_get _ _ _ Hwf'), (handle_get _ _ _ Hwf). cbn [t' entries].
    destruct (Z.eqb_spec i s) as [->|Hne].
    + rewrite get_upd_eq by lia. cbn. by destruct (Z.eqb_spec obj CAP_OBJECT_IDX_NONE).
    + by rewrite get_upd_ne by (done || lia).
  - split; [unfold slot_gen; by rewrite He|].
    split; [|done]. intros i. unfold slot_gen. cbn [t' entries]. destruct (decide (i = s)) as [->|Hne].
    + rewrite get_upd_eq by lia. by rewrite He.
    + by rewrite get_upd_ne by (done || lia).
Qed.

(** ** The specification: a finite map of handles *)
Definition represents (t : cap_handle_table) (m : gmap Z (Z * Z)) : Prop :=
  (exists fl, wf_table t fl) /\ forall s, m !! s = handle t s.

(** The handles in use are the slots that are not on the free list. *)
Lemma wf_size t fl (m : gmap Z (Z * Z)) : wf_table t fl -> (forall s, m !! s = handle t s) ->
  Z.of_nat (size m) + Z.of_nat (length fl) = capacity t.
Proof.
  intros Hwf Hm. pose proof Hwf as [Hl Hcap Hc Hn Hco Hcnt].
  assert (dom m ∪ list_to_set fl = list_to_set (C := gset Z) (seqZ 0 (capacity t))) as E.
  { apply set_eq. intros s. rewrite elem_of_union, elem_of_dom, !elem_of_list_to_set, elem_of_seqZ, Hm, (handle_get _ _ _ Hwf). split.
    - intros [[v Hv]|Hs]; [|pose proof (chain_bound _ _ _ _ Hc Hs); lia].
      destruct (get (entries t) s) eqn:E; [|done]. apply get_Some_bound in E. lia.
    - intros Hs. destruct (get_bound_Some (entries t) s) as [e He]; [lia|]. rewrite He.
      destruct (Z.eqb_spec (object_idx e) CAP_OBJECT_IDX_NONE) as [Ho|]; [right|left; eauto]. by eapply Hco. }
  assert (dom m ## list_to_set (C := gset Z) fl) as Hd.
  { intros s [v Hv]%elem_of_dom Hs%elem_of_list_to_set. rewrite Hm, (handle_get _ _ _ Hwf) in Hv.
    destruct (chain_free _ _ _ _ Hc Hs) as (e & He & Ho). by rewrite He, Ho in Hv. }
  apply (f_equal size) in E. rewrite size_union, size_dom, !size_list_to_set in E by (done || apply NoDup_seqZ).
  rewrite length_seqZ in E. lia.
Qed.

Lemma pop_refines t (m : gmap Z (Z * Z)) s fl obj flags :
  wf_table t (s :: fl) -> (forall i, m !! i = handle t i) -> obj <> CAP_OBJECT_IDX_NONE ->
  exists t' g, pop_slot t obj flags = Some (t', s, i32 g) /\
    m !! s = None /\ represents t' (<[s := (obj, flags)]> m) /\ slot_gen t' s = Some g /\
    (forall i, slot_gen t' i = slot_gen t i) /\ capacity t' = capacity t.
Proof.
  intros Hwf Hm Hobj.
  destruct (pop_slot_spec t s fl obj flags Hwf Hobj) as (t' & g & E & Hw & Hh & Hu & Hg & Hgs & Hcap).
  exists t', g. split; [done|]. split; [by rewrite Hm|]. split; [|by rewrite Hgs].
  split; [by eexists|]. intros i. rewrite Hu. destruct (Z.eqb_spec i s) as [->|].
  - apply lookup_insert_eq.
  - rewrite lookup_insert_ne by done. apply Hm.
Qed.

(** The capacity for one more handle: the old one while a slot is free, else doubled, up to
    the limit and if memory is granted. *)
Inductive grown (ok : bool) (used cap : Z) : Z -> Prop :=
| Grown_room : used < cap -> grown ok used cap cap
| Grown_double : used = cap -> cap < CAP_HANDLE_MAX -> ok = true -> grown ok used cap (Z.min (cap * 2) CAP_HANDLE_MAX).

Lemma insert_refines ok t m obj flags :
  represents t m -> obj <> CAP_OBJECT_IDX_NONE ->
  exists t' slot r, cap_handle_insert ok t obj flags = Some (t', slot, r) /\
    ((r = CAP_V2_ENOMEM /\ t' = t /\ Z.of_nat (size m) = capacity t /\ (capacity t = CAP_HANDLE_MAX \/ ok = false)) \/
     (exists g, m !! slot = None /\ represents t' (<[slot := (obj, flags)]> m) /\
                slot_gen t' slot = Some g /\ r = i32 g /\
                grown ok (Z.of_nat (size m)) (capacity t) (capacity t') /\ forall i, slot_gen t' i = gen_after t (capacity t') i)).
Proof.
  intros [[fl Hwf] Hm] Hobj. unfold cap_handle_insert. pose proof (wf_size _ _ _ Hwf Hm) as Hsz. pose proof (wt_cap _ _ Hwf).
  destruct (Z.eqb_spec obj CAP_OBJECT_IDX_NONE); [done|].
  destruct (Z.eqb_spec (next_free t) CAP_HANDLE_SLOT_NONE) as [Hnf|Hnf].
  - pose proof Hnf as Hnf'. rewrite (next_free_none _ _ Hwf) in Hnf'. subst fl. cbn in Hsz.
    destruct (Z_lt_le_dec (capacity t) CAP_HANDLE_MAX) as [Hlt|Hge].
    + destruct ok.
      * pose proof (grow_spec t [] Hwf Hlt) as Hg. destruct (cap_handle_grow true t) as [t1 r1].
        destruct Hg as (-> & (fl' & Hw1 & Hne) & Hh & Hcap & Hgen). cbn.
        destruct fl' as [|s fl']; [done|]. cbn in Hw1.
        destruct (pop_refines t1 m s _ obj flags Hw1) as (t' & g & He & H1 & H2 & H3 & H4 & H5); [intros i; by rewrite Hh|done|].
        exists t', s, (i32 g). split; [exact He|]. right. exists g. do 4 (split; [done|]). rewrite H5, Hcap. split; [apply Grown_double; [lia|lia|done]|].
        intros i. by rewrite H4, Hgen, Hcap.
      * unfold cap_handle_grow. destruct (capacity t >=? CAP_HANDLE_MAX); cbn;
          do 3 eexists; (split; [done|]); left; (split; [done|]; split; [done|]); (split; [lia|by right]).
    + unfold cap_handle_grow. destruct (capacity t >=? CAP_HANDLE_MAX) eqn:?; [|lia]. cbn.
      do 3 eexists. split; [done|]. left. split; [done|]. split; [done|]. split; [lia|left; lia].
  - cbn. destruct fl as [|s fl]; [by destruct Hnf; apply (next_free_none _ _ Hwf)|]. cbn in Hsz.
    destruct (pop_refines t m s fl obj flags Hwf Hm Hobj) as (t' & g & He & H1 & H2 & H3 & H4 & H5).
    exists t', s, (i32 g). split; [exact He|].
    right. exists g. do 4 (split; [done|]). rewrite H5. split; [constructor; lia|].
    intros i. rewrite H4. unfold gen_after. destruct (slot_gen t i) eqn:Ei; [done|].
    rewrite bool_decide_eq_false_2; [done|]. intros Hb. unfold slot_gen in Ei.
    destruct (get_bound_Some (entries t) i) as [e Ee]; [by rewrite (wt_len _ _ Hwf)|]. by rewrite Ee in Ei.
Qed.

(** A free list as long as the table holds every slot. *)
Lemma full_free_list t fl slot :
  wf_table t fl -> Z.of_nat (length fl) = capacity t -> 0 <= slot < capacity t -> slot ∈ fl.
Proof.
  intros [Hl Hcap Hc Hn _ _] Hf Hs.
  assert (fl ≡ₚ seqZ 0 (capacity t)) as ->.
  { apply submseteq_length_Permutation.
    - apply NoDup_submseteq; [done|]. intros s Hin. pose proof (chain_bound _ _ _ _ Hc Hin).
      apply elem_of_seqZ. lia.
    - rewrite length_seqZ. lia. }
  apply elem_of_seqZ. lia.
Qed.

Lemma remove_refines t m slot :
  represents t m -> 0 <= slot ->
  exists t' r, cap_handle_remove t slot = Some (t', r) /\
    ((r = CAP_V2_EINVAL /\ t' = t /\ m !! slot = None) \/
     (exists g, r = CAP_V2_OK /\ is_Some (m !! slot) /\ represents t' (delete slot m) /\
                slot_gen t slot = Some g /\ slot_gen t' slot = Some (u32 (g + 1)) /\ capacity t' = capacity t /\
                forall i, i <> slot -> slot_gen t' i = slot_gen t i)).
Proof.
  intros [[fl Hwf] Hm] H0. pose proof Hwf as [Hl Hcap Hc Hn Hco Hcnt]. unfold cap_handle_remove.
  pose proof (handle_get _ _ slot Hwf) as Hh. rewrite <- Hm in Hh.
  destruct (slot >=? capacity t) eqn:Eb.
  { eexists _, _. split; [done|]. left. split; [done|]. split; [done|]. rewrite Hh.
    destruct (get (entries t) slot) eqn:E; [|done]. apply get_Some_bound in E. lia. }
  destruct (get_bound_Some (entries t) slot) as [e He]; [lia|]. rewrite He in Hh |- *.
  destruct (Z.eqb_spec (object_idx e) CAP_OBJECT_IDX_NONE) as [Ho|Ho].
  { eexists _, _. split; [done|]. by left. }
  assert (slot ∉ fl) as Hni.
  { intros (e' & He' & Ho')%(chain_free _ _ _ _ Hc). congruence. }
  eexists _, _. split; [reflexivity|]. right. exists (local_generation e).
  split; [done|]. split; [rewrite Hh; eauto|]. set (t' := Cap_handle_table _ _ _ _).
  assert (wf_table t' (slot :: fl)) as Hwf'.
  { constructor; cbn [t' entries capacity next_free count]; rewrite ?length_upd; try done.
    - split; [done|]. eexists. split; [apply get_upd_eq; lia|]. split; [done|]. by apply chain_upd.
    - by apply NoDup_cons.
    - intros i ei Hi Hoi. destruct (decide (i = slot)) as [->|Hne]; [by left|right].
      rewrite get_upd_ne in Hi by (done || lia). by eapply Hco.
    - pose proof (wf_free_length _ _ Hwf). cbn [length]. rewrite Hcnt.
      assert (Z.of_nat (length fl) < capacity t).
      { enough (Z.of_nat (length fl) <> capacity t) by lia. intros E.
        assert (slot ∈ fl) by (by eapply (full_free_list t fl slot); [|lia|lia]). done. }
      rewrite wrap_small; [lia|]. unfold in_u, CAP_HANDLE_MAX in *. lia. }
  split; [split; [by eexists|]|].
  - intros i. rewrite (handle_get _ _ _ Hwf'). cbn [t' entries].
    destruct (decide (i = slot)) as [->|Hne].
    + rewrite get_upd_eq by lia. apply lookup_delete_eq.
    + rewrite get_upd_ne, lookup_delete_ne, Hm by (done || lia). apply (handle_get _ _ _ Hwf).
  - unfold slot_gen. cbn [t' entries]. rewrite He. split; [done|].
    rewrite get_upd_eq by lia. split; [done|]. split; [done|]. intros i Hi. by rewrite get_upd_ne by (done || lia).
Qed.

(** ** Runs *)
Inductive handle_op :=
| HInsert (kmalloc_ok : bool) (obj flags : Z)
| HRemove (slot : Z).

(** The result of an operation: [*slot_out] (or the slot given) and the return value. *)
Definition exec_op (t : cap_handle_table) (op : handle_op) : option (cap_handle_table * (Z * Z)) :=
  match op with
  | HInsert ok obj flags =>
      '(t', slot, r) ← cap_handle_insert ok t obj flags; Some (t', (slot, r))
  | HRemove slot => '(t', r) ← cap_handle_remove t slot; Some (t', (slot, r))
  end.

Fixpoint exec (t : cap_handle_table) (ops : list handle_op)
    : option (cap_handle_table * list (Z * Z)) :=
  match ops with
  | [] => Some (t, [])
  | op :: ops =>
      '(t1, r) ← exec_op t op; '(t2, rs) ← exec t1 ops; Some (t2, r :: rs)
  end.

(** What a handle table promises: a finite map from handles to objects, with a generation
    for every handle and the room that is there for handles. *)
Record handle_map := Handle_map { hm_handles : gmap Z (Z * Z); hm_gen : Z -> Z; hm_room : Z }.

Definition no_handles : handle_map := Handle_map ∅ (fun _ => 1) CAP_HANDLE_INITIAL_CAPACITY.

(** The number of handles in use. *)
Definition hm_used (a : handle_map) : Z := Z.of_nat (size (hm_handles a)).

(** An insert takes any handle that is not in use and answers its generation.  It fails when
    the object is none, or when all handles are in use and the room cannot be doubled,
    because it is at the limit or there is no memory. *)
Inductive spec_step (a : handle_map) : handle_op -> Z * Z -> handle_map -> Prop :=
| Spec_insert ok obj flags slot room :
    obj <> CAP_OBJECT_IDX_NONE -> grown ok (hm_used a) (hm_room a) room -> 0 <= slot < room -> hm_handles a !! slot = None ->
    spec_step a (HInsert ok obj flags) (slot, i32 (hm_gen a slot)) (Handle_map (<[slot := (obj, flags)]> (hm_handles a)) (hm_gen a) room)
| Spec_insert_none ok flags slot :
    spec_step a (HInsert ok CAP_OBJECT_IDX_NONE flags) (slot, CAP_V2_EINVAL) a
| Spec_insert_full ok obj flags slot :
    obj <> CAP_OBJECT_IDX_NONE -> hm_used a = hm_room a -> hm_room a = CAP_HANDLE_MAX \/ ok = false ->
    spec_step a (HInsert ok obj flags) (slot, CAP_V2_ENOMEM) a
| Spec_remove slot : is_Some (hm_handles a !! slot) ->
    spec_step a (HRemove slot) (slot, CAP_V2_OK)
      (Handle_map (delete slot (hm_handles a)) (fun i => if decide (i = slot) then u32 (hm_gen a i + 1) else hm_gen a i) (hm_room a))
| Spec_remove_none slot : hm_handles a !! slot = None -> spec_step a (HRemove slot) (slot, CAP_V2_EINVAL) a.

Inductive spec_run (a : handle_map) : list handle_op -> list (Z * Z) -> handle_map -> Prop :=
| Spec_nil : spec_run a [] [] a
| Spec_cons op ops r rs a1 a2 :
    spec_step a op r a1 -> spec_run a1 ops rs a2 -> spec_run a (op :: ops) (r :: rs) a2.

(** The table implements the map; handles without a slot yet have generation 1. *)
Record implements (t : cap_handle_table) (a : handle_map) : Prop := {
  im_handles : represents t (hm_handles a);
  im_room : capacity t = hm_room a;
  im_gen : forall s g, slot_gen t s = Some g -> g = hm_gen a s;
  im_new : forall s, slot_gen t s = None -> hm_gen a s = 1 }.

(** Slots are [uint32_t]. *)
Definition op_ok (op : handle_op) : Prop :=
  match op with HRemove slot => 0 <= slot | HInsert _ _ _ => True end.

(** The number of times [slot] was closed in a run. *)
Fixpoint closes (slot : Z) (ops : list handle_op) (rs : list (Z * Z)) : Z :=
  match ops, rs with
  | HRemove s :: ops, (_, r) :: rs =>
      (if (s =? slot) && (r =? CAP_V2_OK) then 1 else 0) + closes slot ops rs
  | _ :: ops, _ :: rs => closes slot ops rs
  | _, _ => 0
  end.

Lemma represents_bound t m s : represents t m -> is_Some (slot_gen t s) <-> 0 <= s < capacity t.
Proof.
  intros [[fl Hwf] _]. rewrite <- (wt_len _ _ Hwf). unfold slot_gen. split.
  - intros [g Hg]. destruct (get (entries t) s) eqn:E; [|done]. by eapply get_Some_bound.
  - intros [e ->]%get_bound_Some. by eexists.
Qed.

Lemma exec_op_simulation t a op : implements t a -> op_ok op ->
  exists t' r a', exec_op t op = Some (t', r) /\ spec_step a op r a' /\ implements t' a' /\
    forall slot g, slot_gen t slot = Some g -> in_u 32 g -> slot_gen t' slot = Some (u32 (g + closes slot [op] [r])).
Proof.
  intros Hi Hok. pose proof Hi as [Hr Hroom Hgen Hnew].
  assert (forall g, in_u 32 g -> Some g = Some (u32 (g + 0))) as Hid by (intros g Hg; by rewrite Z.add_0_r, wrap_small).
  destruct op as [ok obj flags|slot]; cbn [exec_op closes].
  - destruct (decide (obj = CAP_OBJECT_IDX_NONE)) as [->|Hobj].
    { cbn. eexists _, _, a. split; [done|]. split; [constructor|]. split; [done|]. intros slot g -> Hg. by apply Hid. }
    destruct (insert_refines ok t _ obj flags Hr Hobj) as (t' & s & r & -> & [(-> & -> & Hu & Hf)|(g & Hn & Hr' & Hg & -> & Hgr & Hgs)]); cbn.
    + eexists _, _, a. rewrite Hroom in Hu, Hf. split; [done|]. split; [by constructor|]. split; [done|]. intros slot g -> Hg. by apply Hid.
    + assert (g = hm_gen a s) as ->.
      { rewrite Hgs in Hg. unfold gen_after in Hg. destruct (slot_gen t s) eqn:Es; [injection Hg as <-; by apply Hgen|].
        rewrite Hnew by done. by case_bool_decide; simplify_eq. }
      eexists _, _, _. split; [done|]. split; [|split].
      * rewrite Hroom in Hgr. apply Spec_insert with (room := capacity t'); try done. by apply (represents_bound _ _ _ Hr'); eexists.
      * split; cbn; [done|done| |]; intros i; rewrite Hgs; unfold gen_after; destruct (slot_gen t i) eqn:Ei; try done.
        -- intros g' [= <-]. by apply Hgen.
        -- rewrite (Hnew i Ei). case_bool_decide; [|done]. by intros g' [= <-].
        -- intros _. by apply Hnew.
      * intros i g' Hg' Hb. rewrite Hgs. unfold gen_after. rewrite Hg'. by apply Hid.
  - destruct (remove_refines t _ slot Hr Hok) as (t' & r & -> & [(-> & -> & Hn)|(g & -> & Hs & Hr' & Hg & Hg' & Hcap & Hgs)]); cbn.
    + eexists _, _, a. split; [done|]. split; [by constructor|]. split; [done|]. intros s g -> Hg. rewrite andb_false_r. by apply Hid.
    + eexists _, _, _. split; [done|]. split; [by constructor|]. split; [split; cbn; [done|congruence| |]|].
      * intros i g1. destruct (decide (i = slot)) as [->|]; [rewrite Hg'; intros [= <-]; by rewrite (Hgen _ _ Hg)|]. rewrite Hgs by done. apply Hgen.
      * intros i. destruct (decide (i = slot)) as [->|]; [by rewrite Hg'|]. rewrite Hgs by done. apply Hnew.
      * intros s g' Hs' Hb. destruct (Z.eqb_spec slot s) as [->|]; cbn; [assert (g' = g) as -> by congruence; by rewrite Hg'|].
        rewrite Hgs, Hs' by done. by apply Hid.
Qed.

Lemma exec_simulation ops t a : implements t a -> Forall op_ok ops ->
  exists t' rs a', exec t ops = Some (t', rs) /\ spec_run a ops rs a' /\ implements t' a' /\
    forall slot g, slot_gen t slot = Some g -> in_u 32 g -> slot_gen t' slot = Some (u32 (g + closes slot ops rs)).
Proof.
  revert t a. induction ops as [|op ops IH]; intros t a Hr Hok.
  { eexists _, _, a. split; [done|]. split; [constructor|]. split; [done|].
    intros slot g -> Hg. cbn. by rewrite Z.add_0_r, wrap_small. }
  apply Forall_cons in Hok as [Hop Hok].
  destruct (exec_op_simulation t a op Hr Hop) as (t1 & r & a1 & E1 & S1 & R1 & G1).
  destruct (IH t1 a1 R1 Hok) as (t2 & rs & a2 & E2 & S2 & R2 & G2).
  cbn [exec]. rewrite E1. cbn. rewrite E2. cbn. eexists _, _, a2. split; [done|].
  split; [by econstructor|]. split; [done|]. intros slot g Hg Hb.
  rewrite (G2 _ _ (G1 _ _ Hg Hb)) by (apply wrap_bound; lia). f_equal.
  unfold wrap. rewrite Zplus_mod_idemp_l. f_equal.
  destruct op as [|s]; destruct r; cbn [closes]; lia.
Qed.

Lemma init_represents : represents (cap_handle_table_init true).1 ∅.
Proof.
  destruct init_wf as [fl Hwf]. split; [by eexists|]. intros s. rewrite (handle_get _ _ _ Hwf).
  destruct (get _ s) as [e|] eqn:E; [|done].
  pose proof (get_Some_bound _ _ _ E) as Hb. vm_compute in Hb.
  unfold get in E. destruct (s <? 0); [done|].
  assert (Forall (fun e => object_idx e = CAP_OBJECT_IDX_NONE)
            (entries (cap_handle_table_init true).1)) as Hall by (repeat constructor).
  rewrite Forall_lookup in Hall. by rewrite (Hall _ _ E).
Qed.

Lemma init_implements : implements (cap_handle_table_init true).1 no_handles.
Proof.
  split; [apply init_represents|done| |done]. intros s g Hg. unfold slot_gen, get in Hg. destruct (s <? 0); [done|].
  assert (Forall (fun e => local_generation e = 1) (entries (cap_handle_table_init true).1)) as Hall by (repeat constructor).
  rewrite Forall_lookup in Hall. destruct (_ !! _) as [e|] eqn:E; [|done]. cbn in Hg |- *. specialize (Hall _ _ E). congruence.
Qed.

(** C5: a handle table implements a finite map.  From a freshly initialised table, any
    sequence of inserts and removes runs without touching memory outside the array, and its
    answers are those of the specification: an insert takes a handle that was not in use,
    below the room for handles, and answers its generation, which counts from 1 how often the
    handle was closed; it fails with -ENOMEM exactly when all the room is used and is at
    CAP_HANDLE_MAX or memory is refused, and with -EINVAL for no object.  The room doubles
    only when it is used up.  A remove succeeds exactly on handles in use.  There are never
    more than CAP_HANDLE_MAX handles, and [cap_handle_lookup] reads the map. *)
Theorem handle_table_refines (ops : list handle_op) :
  Forall op_ok ops ->
  exists t' rs a', exec (cap_handle_table_init true).1 ops = Some (t', rs) /\
    spec_run no_handles ops rs a' /\ hm_used a' <= hm_room a' <= CAP_HANDLE_MAX /\
    forall slot, (view <$> cap_handle_lookup t' slot) = hm_handles a' !! slot.
Proof.
  intros Hok. destruct (exec_simulation ops _ _ init_implements Hok) as (t' & rs & a' & E & S & [[[fl Hwf] Hm] Hroom _ _] & _).
  exists t', rs, a'. split; [done|]. split; [done|]. split; [|intros slot; by rewrite Hm].
  pose proof (wf_size _ _ _ Hwf Hm). pose proof (wt_cap _ _ Hwf). unfold hm_used. lia.
Qed.

Definition handle_demo_ops : list handle_op :=
  [HInsert true 7 0; HInsert true 8 1; HRemove 0; HInsert true 9 0].

Lemma handle_demo_ok : Forall op_ok handle_demo_ops.
Proof. unfold handle_demo_ops. by repeat apply Forall_cons_2. Qed.

Lemma handle_table_refines_witness :
  exists t' a', exec (cap_handle_table_init true).1 handle_demo_ops = Some (t', [(0, 1); (1, 1); (0, 0); (0, 2)]) /\
    spec_run no_handles handle_demo_ops [(0, 1); (1, 1); (0, 0); (0, 2)] a' /\ hm_handles a' !! 0 = Some (9, 0).
Proof.
  destruct (handle_table_refines handle_demo_ops) as (t' & rs & a' & E & S & _ & Hm).
  - exact handle_demo_ok.
  - assert (rs = [(0, 1); (1, 1); (0, 0); (0, 2)]) as -> by (vm_compute in E; by injection E as _ <-).
    exists t', a'. split; [exact E|]. split; [exact S|]. rewrite <- Hm.
    vm_compute in E. injection E as <-. vm_compute. reflexivity.
Defined.

(** A slot's generation counts its closes.  After any run the generation of
    a slot is its old value plus the number of successful removes of that slot,
    modulo 2^32; so a handle reopened after fewer than 2^32 closes never carries
    the generation it had before. *)
Theorem generation_counts_closes (ops : list handle_op) (t : cap_handle_table)
    (a : handle_map) (slot g : Z) :
  implements t a -> Forall op_ok ops -> slot_gen t slot = Some g -> in_u 32 g ->
  exists t' rs g', exec t ops = Some (t', rs) /\ slot_gen t' slot = Some g' /\
    g' = u32 (g + closes slot ops rs) /\
    (0 < closes slot ops rs < 2 ^ 32 -> g' <> g).
Proof.
  intros Hr Hok Hg Hb. destruct (exec_simulation ops t a Hr Hok) as (t' & rs & a' & E & _ & _ & G).
  exists t', rs, (u32 (g + closes slot ops rs)). split; [done|]. split; [by apply G|].
  split; [done|]. unfold wrap, in_u in *. zlia.
Qed.

Lemma generation_counts_closes_witness :
  exists t' rs, exec (cap_handle_table_init true).1 handle_demo_ops = Some (t', rs) /\
                slot_gen t' 0 = Some 2.
Proof.
  destruct (generation_counts_closes handle_demo_ops (cap_handle_table_init true).1 no_handles 0 1)
    as (t' & rs & g' & E & Hg & _).
  - exact init_implements.
  - exact handle_demo_ok.
  - reflexivity.
  - unfold in_u. lia.
  - exists t', rs. split; [exact E|]. vm_compute in E. injection E as <- <-. reflexivity.
Defined.

(** A table whose initialisation failed, or that was freed, is not usable:
    [cap_handle_grow] doubles the capacity 0, [kmalloc] of zero bytes succeeds,
    and [cap_handle_insert] then indexes the array with the end-of-list marker. *)
Theorem insert_into_empty_table_out_of_bounds (t : cap_handle_table) (obj flags : Z) :
  obj <> CAP_OBJECT_IDX_NONE ->
  cap_handle_insert true (cap_handle_table_init false).1 obj flags = None /\
  cap_handle_insert true (cap_handle_table_free t) obj flags = None.
Proof.
  intros Hobj. unfold cap_handle_insert. destruct (Z.eqb_spec obj CAP_OBJECT_IDX_NONE); [done|].
  by split.
Qed.

Lemma insert_into_empty_table_witness :
  cap_handle_insert true (cap_handle_table_init false).1 7 0 = None.
Proof.
  apply (insert_into_empty_table_out_of_bounds (cap_handle_table_init true).1 7 0). discriminate.
Defined.
