(* ===== verification/Pledge.v ===== *)
(** * Pledge masks (kernel/cap/pledge.h, kernel/cap/pledge.c)

    The 16-bit per-task mask of syscall classes, its only mutator
    [pledge_narrow], the hot-path test, and the printer.  Audit records are a
    trace returned with the result. *)
From Stdlib Require Import Ascii String.
From S2P Require Import Prelude CapToken.
Local Open Scope Z_scope.
Local Open Scope c_scope.
Local Open Scope list_scope.

Abbreviation PLEDGE_CLASS_SYS_QUERY := 7.
Definition PLEDGE_CLASS_SYS_CONTROL : Z := 8.
Abbreviation PLEDGE_RESERVED_MASK := 0xC000.
Definition PLEDGE_ALL : Z := 0x3FFF.

Inductive pledge_event :=
| PledgeViolation (id old new : Z)
| PledgeNarrow (id old new : Z).

Definition pledge_init (initial : Z) : Z := initial.

Definition pledge_mask_allows (mask class_bit : Z) : bool :=
  has_flag mask (u16 (1 <<. class_bit)).

(** The task's new mask, the return value and the audit record. *)
Definition pledge_narrow (id mask new_mask : Z) : Z * Z * pledge_event :=
  if new_mask =? 0 then (mask, CAP_V2_EINVAL, PledgeViolation id mask new_mask) else
  if has_flag new_mask PLEDGE_RESERVED_MASK
  then (mask, CAP_V2_EINVAL, PledgeViolation id mask new_mask) else
  if negb (has_all mask new_mask) then (mask, CAP_V2_EPERM, PledgeViolation id mask new_mask)
  else (new_mask, 0, PledgeNarrow id mask new_mask).

(** ** The printer *)
Definition k_class_names : list (list Z) :=
  map bytes_of
    [ "fs_read"; "fs_write"; "net_client"; "net_server"; "spawn"; "ipc_send"; "ipc_recv";
      "sys_query"; "sys_control"; "ai_call"; "compute"; "time"; "storage_server";
      "input_server" ]%string.

(** The loop over the classes from [i] on; [buf] is what has been written and
    [break] ends the scan at the first name that does not fit. *)
Fixpoint describe_loop (mask buflen i : Z) (names : list (list Z)) (buf : list Z) (first : bool)
    : list Z :=
  match names with
  | [] => buf
  | name :: names =>
      if mask &. (1 <<. i) =? 0 then describe_loop mask buflen (i + 1) names buf first else
      let needed := (if first then 0 else 1) + Z.of_nat (length name) in
      if Z.of_nat (length buf) + needed + 1 >? buflen then buf else
      describe_loop mask buflen (i + 1) names
        ((if first then buf else buf ++ [44]) ++ name) false
  end.

Definition pledge_mask_describe (mask buflen : Z) : option (list Z) * Z :=
  if buflen <=? 0 then (None, 0) else
  let buf := describe_loop mask buflen 0 k_class_names [] true in
  (Some (buf ++ [0]), Z.of_nat (length buf)).

(** ** Lemmas *)
Definition valid_mask (m : Z) : Prop := in_u 16 m /\ m <> 0 /\ m &. PLEDGE_RESERVED_MASK = 0.

Lemma pledge_narrow_spec id mask new_mask :
  let '(mask', r, _) := pledge_narrow id mask new_mask in
  (r < 0 /\ mask' = mask) \/
  (r = 0 /\ mask' = new_mask /\ has_all mask new_mask = true /\ new_mask <> 0 /\
   new_mask &. PLEDGE_RESERVED_MASK = 0).
Proof.
  unfold pledge_narrow. destruct (Z.eqb_spec new_mask 0); [by left|].
  destruct (has_flag new_mask _) eqn:E; [by left|].
  destruct (has_all mask new_mask) eqn:E2; [|by left]. right.
  apply negb_false_iff, Z.eqb_eq in E. done.
Qed.

Definition narrow_all (id mask : Z) (reqs : list Z) : Z :=
  fold_left (fun m r => (pledge_narrow id m r).1.1) reqs mask.

Lemma narrow_all_subset id mask reqs : has_all mask (narrow_all id mask reqs) = true.
Proof.
  revert mask. induction reqs as [|r reqs IH]; intros mask; cbn; [apply has_all_refl|].
  eapply has_all_trans; [|apply IH]. pose proof (pledge_narrow_spec id mask r) as H.
  destruct (pledge_narrow id mask r) as [[m' c] e]. cbn.
  destruct H as [(_ & ->)|(_ & -> & ? & _)]; [apply has_all_refl|done].
Qed.

(** Pledges only ever narrow.  After any sequence of [pledge_narrow] calls,
    whatever masks are asked for, the task's mask is a subset of the one it
    started with, is still non-zero without reserved bits, and a syscall class
    that was denied at the start is denied at the end. *)
Theorem pledge_monotone (id mask : Z) (reqs : list Z) :
  valid_mask mask ->
  let mask' := narrow_all id mask reqs in
  has_all mask mask' = true /\ mask' <> 0 /\ mask' &. PLEDGE_RESERVED_MASK = 0 /\
  forall c, 0 <= c < 16 -> pledge_mask_allows mask c = false -> pledge_mask_allows mask' c = false.
Proof.
  intros (Hb & Hnz & Hr) mask'. pose proof (narrow_all_subset id mask reqs) as Hs.
  split; [done|]. split; [|split].
  - subst mask'. clear Hs Hb Hr. revert mask Hnz. induction reqs as [|r reqs IH]; intros mask Hnz; [done|].
    cbn. apply IH. pose proof (pledge_narrow_spec id mask r) as H.
    destruct (pledge_narrow id mask r) as [[m' c] e]. cbn.
    by destruct H as [(_ & ->)|(_ & -> & _ & ? & _)].
  - fold mask' in Hs. apply Z.bits_inj'. intros i Hi. rewrite Z.land_spec, Z.bits_0.
    destruct (Z.testbit mask' i) eqn:E; [|done]. eapply has_all_spec in Hs; [|done|exact E].
    apply (f_equal (fun z => Z.testbit z i)) in Hr. by rewrite Z.land_spec, Hs, Z.bits_0 in Hr.
  - intros c Hc. unfold pledge_mask_allows. rewrite Z.shiftl_1_l.
    assert (u16 (2 ^ c) = 2 ^ c) as ->.
    { apply wrap_small. split; [apply Z.pow_nonneg; lia|apply Z.pow_lt_mono_r; lia]. }
    rewrite !has_flag_pow2 by lia. fold mask' in Hs. intros Hm.
    destruct (Z.testbit mask' c) eqn:E; [|done].
    rewrite (proj1 (has_all_spec _ _) Hs c ltac:(lia) E) in Hm. done.
Qed.

Lemma pledge_monotone_witness :
  narrow_all 7 PLEDGE_ALL [0xC00; 0x3FFF; 0] = 0xC00 /\ has_all PLEDGE_ALL 0xC00 = true.
Proof.
  split; [reflexivity|].
  apply (pledge_monotone 7 PLEDGE_ALL [0xC00; 0x3FFF; 0]).
  repeat split; unfold PLEDGE_ALL; lia.
Defined.

Lemma describe_loop_fits mask buflen i names buf first :
  Z.of_nat (length buf) + 1 <= buflen ->
  Z.of_nat (length (describe_loop mask buflen i names buf first)) + 1 <= buflen.
Proof.
  revert i buf first. induction names as [|name names IH]; intros i buf first Hb; cbn [describe_loop]; [done|].
  destruct (mask &. (1 <<. i) =? 0); [by apply IH|].
  destruct (_ >? buflen) eqn:E; [done|]. apply IH.
  destruct first; rewrite !length_app; cbn [length]; lia.
Qed.

(** The text and its NUL fit in the buffer. *)
Lemma pledge_mask_describe_fits mask buflen :
  0 < buflen ->
  exists text, pledge_mask_describe mask buflen = (Some (text ++ [0]), Z.of_nat (length text)) /\
               Z.of_nat (length (text ++ [0])) <= buflen.
Proof.
  intros Hb. unfold pledge_mask_describe. destruct (Z.leb_spec buflen 0); [lia|].
  eexists. split; [reflexivity|]. rewrite length_app. cbn [length].
  pose proof (describe_loop_fits mask buflen 0 k_class_names [] true). cbn [length] in *. lia.
Qed.
