(* ===== verification/CapSystem.v ===== *)
(** * The capability syscalls and the system capability

    The composition of the registry, the handle tables and the pledge masks: the
    handlers SYS_CAP_DERIVE, SYS_CAP_REVOKE_V2, SYS_CAP_GRANT and SYS_CAP_INSPECT
    of arch/x86_64/cpu/syscall/syscall.c and the CAP_KIND_SYSTEM bootcap of
    kernel/cap/system.c.  Results are [None] when a handle table is indexed
    outside its array. *)
From S2P Require Import Prelude CapToken CapObject CapRevoke CapSecurity HandleTable Pledge.
Local Open Scope Z_scope.
Local Open Scope c_scope.

Record task := Task {
  cap_handles : cap_handle_table;
  pledge_mask : Z;
  zombie : bool
}.

Inductive sys_event :=
| EvPledgeDenied (pid : Z)
| EvRevokeDenied (pid idx : Z)
| EvGrant (caller target idx : Z).

Record world := World {
  reg : registry;
  tasks : gmap Z task;                 (* task_ptrs *)
  g_cap_system_bootcap_idx : Z;
  sys_events : list sys_event
}.

Definition log_event (w : world) (e : sys_event) : world :=
  {| w with sys_events := sys_events w ++ [e] |}.
Definition set_reg (w : world) (s : registry) : world := {| w with reg := s |}.
Definition set_handles (w : world) (pid : Z) (t : task) (h : cap_handle_table) : world :=
  {| w with tasks := <[pid := {| t with cap_handles := h |}]> (tasks w) |}.

#[global] Arguments set_reg : simpl never.
#[global] Arguments set_handles : simpl never.
#[global] Arguments log_event : simpl never.

Definition sched_get_task_any (w : world) (id : Z) : option task := tasks w !! id.
Definition sched_get_task (w : world) (id : Z) : option task :=
  t ← tasks w !! id; if zombie t then None else Some t.

(** [pid] is the current task. *)
Definition pledge_check_and_audit (w : world) (pid class_bit : Z) : bool * world :=
  match tasks w !! pid with
  | None => (true, w)
  | Some t => if pledge_mask_allows (pledge_mask t) class_bit then (true, w)
              else (false, log_event w (EvPledgeDenied pid))
  end.

(** The user pointer to an audience array: NULL, rejected, or eight pids. *)
Inductive user_audience := UNull | UBad | UPids (l : list Z).

Definition caller_pid_of (w : world) (pid : Z) : Z :=
  match tasks w !! pid with Some _ => pid | None => -1 end.

(** From "Resolve parent for caller" on: derive, install the handle, build the token. *)
Definition derive_and_install (slab_ok kmalloc_ok : bool) (w : world) (pid : Z) (cur : task)
    (parent_tok rights_subset : Z) (audience_in : option (list Z)) (flags_subset : Z)
    : option (world * Z) :=
  match cap_token_resolve (reg w) pid parent_tok RIGHT_DERIVE with
  | None => Some (w, u64 CAP_V2_EPERM)
  | Some _ =>
      let '(s, new_idx) := cap_object_derive slab_ok (reg w) (cap_token_idx parent_tok) pid
                             rights_subset audience_in flags_subset in
      let w := set_reg w s in
      if new_idx <? 0 then Some (w, u64 new_idx) else
      '(h, slot, gen_or_err) ←
        cap_handle_insert kmalloc_ok (cap_handles cur) new_idx flags_subset;
      let w := set_handles w pid cur h in
      if gen_or_err <? 0
      then Some (set_reg w (cap_object_destroy (reg w) new_idx), u64 CAP_V2_ENOMEM)
      else
        let obj_gen := match cap_object_get (reg w) new_idx with
                       | Some o => generation o | None => 1 end in
        Some (w, cap_token_pack obj_gen new_idx flags_subset)
  end.

Definition sys_cap_derive (slab_ok kmalloc_ok : bool) (w : world) (pid parent_tok rights_subset : Z)
    (aud : user_audience) (r10 : Z) : option (world * Z) :=
  let '(ok, w) := pledge_check_and_audit w pid PLEDGE_CLASS_SYS_CONTROL in
  if negb ok then Some (w, u64 CAP_V2_EPLEDGE) else
  let flags_subset := u8 (r10 &. 0xFF) in
  match tasks w !! pid with
  | None => Some (w, u64 CAP_V2_EPERM)
  | Some cur =>
      match aud with
      | UBad => Some (w, u64 CAP_V2_EFAULT)
      | UNull => derive_and_install slab_ok kmalloc_ok w pid cur parent_tok rights_subset None flags_subset
      | UPids l =>
          derive_and_install slab_ok kmalloc_ok w pid cur parent_tok rights_subset (Some l) flags_subset
      end
  end.

Definition sys_cap_revoke_v2 (w : world) (pid tok : Z) : world * Z :=
  let '(ok, w) := pledge_check_and_audit w pid PLEDGE_CLASS_SYS_CONTROL in
  if negb ok then (w, u64 CAP_V2_EPLEDGE) else
  let caller_pid := caller_pid_of w pid in
  match cap_token_resolve (reg w) caller_pid tok RIGHT_REVOKE with
  | None => (log_event w (EvRevokeDenied caller_pid (cap_token_idx tok)), u64 CAP_V2_EPERM)
  | Some _ =>
      let '(s, count) := cap_object_revoke (reg w) (cap_token_idx tok) in
      (set_reg w s, u64 count)
  end.

Abbreviation CAP_V2_ENOSYS := (-6).

Definition sys_cap_grant (kmalloc_ok : bool) (w : world) (pid tok rsi : Z) : option (world * Z) :=
  let '(ok, w) := pledge_check_and_audit w pid PLEDGE_CLASS_SYS_CONTROL in
  if negb ok then Some (w, u64 CAP_V2_EPLEDGE) else
  let target_pid := i32 rsi in
  let caller_pid := caller_pid_of w pid in
  match cap_token_resolve (reg w) caller_pid tok 0 with
  | None => Some (w, u64 CAP_V2_EPERM)
  | Some obj =>
      if negb (cap_token_validate_audience (Some obj) target_pid) then Some (w, u64 CAP_V2_ENOSYS) else
      match sched_get_task w target_pid with
      | None => Some (w, u64 CAP_V2_EPERM)
      | Some target =>
          '(h, slot, r) ←
            cap_handle_insert kmalloc_ok (cap_handles target) (cap_token_idx tok) (cap_token_flags tok);
          let w := set_handles w target_pid target h in
          if r <? 0 then Some (w, u64 r) else
          Some (log_event w (EvGrant caller_pid target_pid (cap_token_idx tok)), slot)
      end
  end.

(** [out_ok] is the outcome of the checks on the user's result pointer. *)
Definition sys_cap_inspect (w : world) (pid tok : Z) (out_ok : bool)
    : world * Z * option cap_inspect_result :=
  let '(ok, w) := pledge_check_and_audit w pid PLEDGE_CLASS_SYS_QUERY in
  if negb ok then (w, u64 CAP_V2_EPLEDGE, None) else
  if negb out_ok then (w, u64 CAP_V2_EFAULT, None) else
  let caller_pid := caller_pid_of w pid in
  match cap_token_resolve (reg w) caller_pid tok RIGHT_INSPECT with
  | None =>
      match cap_token_resolve (reg w) caller_pid tok 0 with
      | Some _ => (w, u64 CAP_V2_EPERM, None)
      | None => (w, u64 CAP_V2_EREVOKED, None)
      end
  | Some _ =>
      let '(kres, r) := cap_object_inspect (reg w) (cap_token_idx tok) caller_pid false in
      if r <? 0 then (w, u64 r, None) else (w, 0, kres)
  end.

(** ** The system capability *)
Definition CAP_SYSTEM_INIT_RIGHTS : Z :=
  RIGHT_INSPECT |. RIGHT_REVOKE |. RIGHT_DERIVE |. RIGHT_INVOKE.

Definition cap_system_init (slab_ok : bool) (w : world) : world :=
  if negb (g_cap_system_bootcap_idx w =? 0) then w else
  let '(s, idx) := cap_object_create slab_ok (reg w) CAP_KIND_SYSTEM CAP_SYSTEM_INIT_RIGHTS
                     (Some [PID_KERNEL; PID_NONE]) (CAP_FLAG_EAGER_REVOKE |. CAP_FLAG_PUBLIC)
                     0 PID_KERNEL CAP_OBJECT_IDX_NONE in
  let w := set_reg w s in
  if idx <? 1 then w else {| w with g_cap_system_bootcap_idx := u32 idx |}.

Definition cap_system_bootcap_idx (w : world) : Z := g_cap_system_bootcap_idx w.

Definition cap_system_install_to_pid (slab_ok kmalloc_ok : bool) (w : world) (pid rights_subset : Z)
    : option (world * Z) :=
  if g_cap_system_bootcap_idx w =? 0 then Some (w, CAP_V2_EINVAL) else
  if rights_subset =? 0 then Some (w, CAP_V2_EINVAL) else
  if negb (Z.ldiff rights_subset CAP_SYSTEM_INIT_RIGHTS =? 0) then Some (w, CAP_V2_EPERM) else
  match sched_get_task_any w pid with
  | None => Some (w, CAP_V2_EINVAL)
  | Some t =>
      let '(s, new_idx) := cap_object_derive slab_ok (reg w) (g_cap_system_bootcap_idx w) PID_KERNEL
                             rights_subset (Some [pid; PID_NONE]) CAP_FLAG_INHERITABLE in
      let w := set_reg w s in
      if new_idx <? 1 then Some (w, new_idx) else
      '(h, slot, gen) ← cap_handle_insert kmalloc_ok (cap_handles t) new_idx 0;
      let w := set_handles w pid t h in
      if gen <? 0 then Some (set_reg w (cap_object_revoke (reg w) new_idx).1, gen)
      else Some (w, 0)
  end.

(** The test of one entry of the walk in [cap_system_resolve]. *)
Definition system_entry_matches (s : registry) (required_rights : Z) (e : cap_handle_entry) : bool :=
  negb (object_idx e =? CAP_OBJECT_IDX_NONE) &&
  match cap_object_get s (object_idx e) with
  | None => false
  | Some obj => (kind obj =? CAP_KIND_SYSTEM) && negb (deleted obj) &&
                has_all (rights_bitmap obj) required_rights
  end.

(** The walk over slots [i .. capacity): [None] is an access outside the array. *)
Fixpoint system_walk (n : nat) (i : Z) (s : registry) (required_rights : Z)
    (es : list cap_handle_entry) : option Z :=
  match n with
  | O => Some CAP_V2_EPERM
  | S n' => e ← get es i;
            if system_entry_matches s required_rights e then Some 0
            else system_walk n' (i + 1) s required_rights es
  end.

Definition cap_system_resolve (w : world) (caller_pid required_rights : Z) : option Z :=
  if g_cap_system_bootcap_idx w =? 0 then Some CAP_V2_EPERM else
  if required_rights =? 0 then Some CAP_V2_EINVAL else
  match sched_get_task_any w caller_pid with
  | None => Some CAP_V2_EPERM
  | Some caller =>
      let t := cap_handles caller in
      system_walk (Z.to_nat (capacity t)) 0 (reg w) required_rights (entries t)
  end.

(** ** The world's invariant *)
Record wf_world (w : world) : Prop := {
  ww_reg : wf_registry (reg w);
  ww_tables : forall pid t, tasks w !! pid = Some t -> exists m, represents (cap_handles t) m;
  ww_boot : g_cap_system_bootcap_idx w = 0 \/
            0 < g_cap_system_bootcap_idx w < CAP_OBJECT_CAPACITY
}.

(** A pledge check does not touch the objects. *)
Lemma pledge_reg w pid c : reg (pledge_check_and_audit w pid c).2 = reg w.
Proof. unfold pledge_check_and_audit. destruct (tasks w !! pid) as [t|]; [|done]. by destruct (pledge_mask_allows (pledge_mask t) c). Qed.

Lemma wf_derive ok s p c r a f : wf_registry s -> wf_registry (cap_object_derive ok s p c r a f).1.
Proof. intros H. exact (wf_apply_op s (OpDerive ok p c r a f) H). Qed.
Lemma wf_revoke s i : wf_registry s -> wf_registry (cap_object_revoke s i).1.
Proof. intros H. exact (wf_apply_op s (OpRevoke i) H). Qed.
Lemma wf_create ok s k r a f kd o p :
  wf_registry s -> wf_registry (cap_object_create ok s k r a f kd o p).1.
Proof. intros H. exact (wf_apply_op s (OpCreate ok k r a f kd o p) H). Qed.
#[export] Hint Resolve wf_derive wf_revoke wf_create wf_destroy : grahaos.

Lemma wf_set_reg w s : wf_world w -> wf_registry s -> wf_world (set_reg w s).
Proof. by intros []. Qed.

Lemma wf_log w e : wf_world w -> wf_world (log_event w e).
Proof. by intros []. Qed.

Lemma wf_set_handles w pid t h m :
  wf_world w -> represents h m -> wf_world (set_handles w pid t h).
Proof.
  intros [Hr Ht Hb] Hh. constructor; [done| |done]. unfold set_handles. cbn [tasks]. intros pid' t'.
  destruct (decide (pid' = pid)) as [->|].
  - rewrite lookup_insert_eq. intros [= <-]. by exists m.
  - rewrite lookup_insert_ne by done. eauto.
Qed.
#[export] Hint Resolve wf_set_reg wf_log : grahaos.

Lemma pledge_check_world w pid c :
  wf_world w -> wf_world (pledge_check_and_audit w pid c).2 /\
  reg (pledge_check_and_audit w pid c).2 = reg w /\
  tasks (pledge_check_and_audit w pid c).2 = tasks w.
Proof.
  intros Hw. unfold pledge_check_and_audit. destruct (tasks w !! pid); [|done].
  destruct (pledge_mask_allows _ _); [done|]. split; [by apply wf_log|done].
Qed.

(** An insert on a well-formed table never leaves the array and keeps it well formed. *)
Lemma insert_total ok h m obj fl :
  represents h m -> exists h' slot r m', cap_handle_insert ok h obj fl = Some (h', slot, r) /\
                                         represents h' m'.
Proof.
  intros Hr. destruct (decide (obj = CAP_OBJECT_IDX_NONE)) as [->|Hne].
  - eexists _, _, _, m. split; [reflexivity|done].
  - destruct (insert_refines ok h m obj fl Hr Hne)
      as (h' & slot & r & E & [(-> & -> & _)|(g & _ & Hr' & _)]); eauto 10.
Qed.

(** ** Safety of the syscalls *)
Lemma derive_and_install_safe ok1 ok2 w pid cur m tok rights a f :
  wf_world w -> represents (cap_handles cur) m ->
  exists w' rax, derive_and_install ok1 ok2 w pid cur tok rights a f = Some (w', rax) /\ wf_world w'.
Proof.
  intros Hw Hm. unfold derive_and_install. destruct (cap_token_resolve _ _ _ _); [|eauto].
  pose proof (wf_derive ok1 (reg w) (cap_token_idx tok) pid rights a f (ww_reg _ Hw)).
  destruct (cap_object_derive _ _ _ _ _ _ _) as [s n]. cbn [fst] in *.
  destruct (n <? 0); [eauto with grahaos|].
  destruct (insert_total ok2 (cap_handles cur) m n f Hm) as (h & slot & r & m' & -> & Hm').
  assert (wf_world (set_handles (set_reg w s) pid cur h)) as Hw2
    by (eapply wf_set_handles; eauto with grahaos).
  cbn. destruct (r <? 0); eexists _, _; (split; [reflexivity|]); [|done].
  apply wf_set_reg; [done|]. apply wf_destroy, (ww_reg _ Hw2).
Qed.

Lemma sys_cap_derive_safe ok1 ok2 w pid tok rights aud r10 :
  wf_world w -> exists w' rax, sys_cap_derive ok1 ok2 w pid tok rights aud r10 = Some (w', rax) /\
                               wf_world w'.
Proof.
  intros Hw. unfold sys_cap_derive.
  destruct (pledge_check_world w pid PLEDGE_CLASS_SYS_CONTROL Hw) as (Hw1 & _ & _).
  destruct (pledge_check_and_audit _ _ _) as [okp w1]. cbn [fst snd] in *.
  destruct okp; cbn [negb]; [|eauto]. destruct (tasks w1 !! pid) as [cur|] eqn:Ec; [|eauto].
  destruct (ww_tables _ Hw1 _ _ Ec) as [m Hm].
  destruct aud; [|eauto|]; by eapply derive_and_install_safe.
Qed.

Lemma sys_cap_grant_safe ok w pid tok rsi :
  wf_world w -> exists w' rax, sys_cap_grant ok w pid tok rsi = Some (w', rax) /\ wf_world w'.
Proof.
  intros Hw. unfold sys_cap_grant.
  destruct (pledge_check_world w pid PLEDGE_CLASS_SYS_CONTROL Hw) as (Hw1 & _ & _).
  destruct (pledge_check_and_audit _ _ _) as [okp w1]. cbn [fst snd] in *.
  destruct okp; cbn [negb]; [|eauto]. destruct (cap_token_resolve _ _ _ _) as [obj|]; [|eauto].
  destruct (cap_token_validate_audience _ _); cbn [negb]; [|eauto].
  unfold sched_get_task. destruct (tasks w1 !! i32 rsi) as [t|] eqn:Et; cbn; [|eauto].
  destruct (zombie t); [eauto|]. destruct (ww_tables _ Hw1 _ _ Et) as [m Hm].
  destruct (insert_total ok (cap_handles t) m (cap_token_idx tok) (cap_token_flags tok) Hm)
    as (h & slot & r & m' & -> & Hm'). cbn.
  assert (wf_world (set_handles w1 (i32 rsi) t h)) by (by eapply wf_set_handles).
  destruct (r <? 0); eauto with grahaos.
Qed.

Lemma sys_cap_revoke_safe w pid tok : wf_world w -> wf_world (sys_cap_revoke_v2 w pid tok).1.
Proof.
  intros Hw. unfold sys_cap_revoke_v2.
  destruct (pledge_check_world w pid PLEDGE_CLASS_SYS_CONTROL Hw) as (Hw1 & _ & _).
  destruct (pledge_check_and_audit _ _ _) as [okp w1]. cbn [fst snd] in *.
  destruct okp; cbn [negb]; [|done]. destruct (cap_token_resolve _ _ _ _); [|by apply wf_log].
  pose proof (wf_revoke (reg w1) (cap_token_idx tok) (ww_reg _ Hw1)).
  destruct (cap_object_revoke _ _). by apply wf_set_reg.
Qed.

Lemma install_safe ok1 ok2 w pid rights :
  wf_world w -> exists w' r, cap_system_install_to_pid ok1 ok2 w pid rights = Some (w', r) /\ wf_world w'.
Proof.
  intros Hw. unfold cap_system_install_to_pid, sched_get_task_any.
  destruct (_ =? 0); [eauto|]. destruct (rights =? 0); [eauto|]. destruct (negb _); [eauto|].
  destruct (tasks w !! pid) as [t|] eqn:Et; [|eauto].
  pose proof (wf_derive ok1 (reg w) (g_cap_system_bootcap_idx w) PID_KERNEL rights
                (Some [pid; PID_NONE]) CAP_FLAG_INHERITABLE (ww_reg _ Hw)).
  destruct (cap_object_derive _ _ _ _ _ _ _) as [s n]. cbn [fst] in *.
  destruct (n <? 1); [eauto with grahaos|]. destruct (ww_tables _ Hw _ _ Et) as [m Hm].
  destruct (insert_total ok2 (cap_handles t) m n 0 Hm) as (h & slot & r & m' & -> & Hm'). cbn.
  assert (wf_world (set_handles (set_reg w s) pid t h)) as Hw2
    by (eapply wf_set_handles; eauto with grahaos).
  destruct (r <? 0); eexists _, _; (split; [reflexivity|]); [|done].
  apply wf_set_reg; [done|]. apply wf_revoke, (ww_reg _ Hw2).
Qed.

Lemma cap_system_init_safe ok w : wf_world w -> wf_world (cap_system_init ok w).
Proof.
  intros Hw. unfold cap_system_init. destruct (negb _); [done|].
  pose proof (cap_object_create_spec ok (reg w) CAP_KIND_SYSTEM CAP_SYSTEM_INIT_RIGHTS
                (Some [PID_KERNEL; PID_NONE]) (CAP_FLAG_EAGER_REVOKE |. CAP_FLAG_PUBLIC)
                0 PID_KERNEL CAP_OBJECT_IDX_NONE) as Hc.
  destruct (cap_object_create _ _ _ _ _ _ _ _ _) as [s n].
  pose proof (create_wf _ _ _ Hc (ww_reg _ Hw)) as Hs. cbn [fst] in Hs.
  pose proof (wf_set_reg _ _ Hw Hs) as Hw'.
  destruct (Z.ltb_spec n 1); [done|]. destruct Hw' as [Hr Ht Hb]. constructor; [done..|]. cbn. right.
  inversion Hc as [|? ? _ Hn]; subst; [lia|].
  rewrite wrap_small; [lia|]. unfold in_u, CAP_OBJECT_CAPACITY in *. lia.
Qed.

(** The capability system calls and kernel entry points, as one machine. *)
Inductive sys_op :=
| SysDerive (slab_ok kmalloc_ok : bool) (pid tok rights : Z) (aud : user_audience) (r10 : Z)
| SysRevoke (pid tok : Z)
| SysGrant (kmalloc_ok : bool) (pid tok rsi : Z)
| SysInspect (pid tok : Z) (out_ok : bool)
| SystemInit (slab_ok : bool)
| SystemInstall (slab_ok kmalloc_ok : bool) (pid rights : Z).

Definition sys_apply (w : world) (op : sys_op) : option (world * Z) :=
  match op with
  | SysDerive ok1 ok2 pid tok rights aud r10 => sys_cap_derive ok1 ok2 w pid tok rights aud r10
  | SysRevoke pid tok => Some (sys_cap_revoke_v2 w pid tok)
  | SysGrant ok pid tok rsi => sys_cap_grant ok w pid tok rsi
  | SysInspect pid tok out_ok => Some (sys_cap_inspect w pid tok out_ok).1
  | SystemInit ok => Some (cap_system_init ok w, 0)
  | SystemInstall ok1 ok2 pid rights => cap_system_install_to_pid ok1 ok2 w pid rights
  end.

Fixpoint sys_run (w : world) (ops : list sys_op) : option (world * list Z) :=
  match ops with
  | [] => Some (w, [])
  | op :: ops => '(w1, r) ← sys_apply w op; '(w2, rs) ← sys_run w1 ops; Some (w2, r :: rs)
  end.

Lemma sys_inspect_world w pid tok ok :
  wf_world w -> wf_world (sys_cap_inspect w pid tok ok).1.1.
Proof.
  intros Hw. unfold sys_cap_inspect.
  destruct (pledge_check_world w pid PLEDGE_CLASS_SYS_QUERY Hw) as (Hw1 & _ & _).
  destruct (pledge_check_and_audit _ _ _) as [okp w1]. cbn [fst snd] in *.
  destruct okp; cbn [negb]; [|done]. destruct ok; cbn [negb]; [|done].
  destruct (cap_token_resolve _ _ _ RIGHT_INSPECT).
  - destruct (cap_object_inspect _ _ _ _) as [k r]. by destruct (r <? 0).
  - by destruct (cap_token_resolve _ _ _ 0).
Qed.

Lemma sys_apply_safe w op : wf_world w -> exists w' r, sys_apply w op = Some (w', r) /\ wf_world w'.
Proof.
  intros Hw. destruct op; cbn [sys_apply].
  - by apply sys_cap_derive_safe.
  - pose proof (sys_cap_revoke_safe w pid tok Hw). destruct (sys_cap_revoke_v2 _ _ _). eauto.
  - by apply sys_cap_grant_safe.
  - pose proof (sys_inspect_world w pid tok out_ok Hw). destruct (sys_cap_inspect _ _ _ _) as [[]]. eauto.
  - eexists _, _. split; [reflexivity|]. by apply cap_system_init_safe.
  - by apply install_safe.
Qed.

Lemma sys_run_safe w ops : wf_world w -> exists w' rs, sys_run w ops = Some (w', rs) /\ wf_world w'.
Proof.
  revert w. induction ops as [|op ops IH]; intros w Hw; [by eexists _, _|].
  destruct (sys_apply_safe w op Hw) as (w1 & r & E1 & Hw1).
  destruct (IH w1 Hw1) as (w2 & rs & E2 & Hw2).
  cbn. rewrite E1. cbn. rewrite E2. by eexists _, _.
Qed.

(** C28: the capability syscalls are memory safe and keep the system well formed.
    From a well-formed world, every sequence of the syscalls and of the system
    capability's entry points, with any arguments and any allocation failures,
    runs to the end without an access outside a handle table, and leaves the
    registry and every handle table well formed. *)
Theorem cap_syscalls_safe (w : world) (ops : list sys_op) :
  wf_world w -> exists w' rs, sys_run w ops = Some (w', rs) /\ wf_world w'.
Proof. apply sys_run_safe. Qed.

(** Two tasks, 5 and 6, with fresh handle tables; 5 has every pledge, 6 none of
    the system ones. *)
Definition demo_world : world :=
  World demo (<[5 := Task (cap_handle_table_init true).1 PLEDGE_ALL false]>
             (<[6 := Task (cap_handle_table_init true).1 0xC00 false]> ∅)) 0 [].

Lemma demo_world_wf : wf_world demo_world.
Proof.
  constructor; [apply wf_run, registry_boot_wf| |by left]. intros pid t Ht. exists ∅.
  cbn in Ht. apply lookup_insert_Some in Ht as [[_ <-]|[_ Ht]]; [apply init_represents|].
  apply lookup_insert_Some in Ht as [[_ <-]|[_ Ht]]; [apply init_represents|done].
Qed.

Definition demo_sys_ops : list sys_op :=
  [ SystemInit true; SystemInstall true true 5 RIGHT_INVOKE;
    SysDerive true true 5 (cap_token_pack 1 1 0) 0x1 UNull 0; SysGrant true 5 (cap_token_pack 1 1 0) 6;
    SysRevoke 6 (cap_token_pack 1 1 0) ].

Lemma cap_syscalls_safe_witness :
  exists w' rs, sys_run demo_world demo_sys_ops = Some (w', rs) /\ wf_world w'.
Proof. apply (cap_syscalls_safe demo_world demo_sys_ops). exact demo_world_wf. Defined.

(** ** What the calls achieve *)

(** The object a successful derive creates, as the next token for it sees it. *)
Lemma derive_creates ok s pi caller rights sub fl s' n :
  wf_registry s -> cap_object_derive ok s pi caller rights sub fl = (s', n) -> 0 <= n ->
  exists parent child,
    1 <= n < CAP_OBJECT_CAPACITY /\ g_cap_object_ptrs s !! pi = Some parent /\
    g_cap_object_ptrs s' !! n = Some child /\ deleted child = false /\ generation child = 1 /\
    rights_bitmap child = rights /\ kind child = kind parent /\
    forall p, p ∈ scan_audience 8 (match sub with None => pad_none 8 [caller] | Some l => l end) ->
      cap_token_validate_audience (Some child) p = true.
Proof.
  intros Hwf E Hn. unfold cap_object_derive in E.
  pose proof (cap_object_derive_spec ok s pi caller rights sub fl false false) as Hs. rewrite E in Hs.
  inversion Hs as [|parent o s1 slot _ _ Hp _ _ _ _ _ Hro _ Hk _ Ha _ _ Hc _]; subst; [lia|].
  inversion Hc as [|? ? _ Hb _ _ _ (child & Hch & Hev & Hd & Hg) _ _ _ _]; subst; [lia|].
  exists parent, child. pose proof (evolves_audience _ _ Hev) as Hca. destruct Hev.
  repeat (split; [done || congruence|]). intros p Hin. unfold cap_token_validate_audience.
  rewrite Hca, Ha. destruct (has_flag _ _); [done|]. by apply existsb_eqb.
Qed.

Lemma u64_error e : -128 <= e < 0 -> 2 ^ 63 <= u64 e.
Proof. intros. unfold wrap. zlia. Qed.

Lemma derive_error_range ok s pi caller rights sub fl :
  (cap_object_derive ok s pi caller rights sub fl).2 < 0 ->
  -128 <= (cap_object_derive ok s pi caller rights sub fl).2 < 0.
Proof.
  unfold cap_object_derive.
  pose proof (cap_object_derive_spec ok s pi caller rights sub fl false false) as Hs.
  destruct (cap_object_derive_inner _ _ _ _ _ _ _ _ _) as [s' n].
  inversion Hs; subst; cbn; lia.
Qed.

(** SYS_CAP_DERIVE hands out working tokens.  When the syscall with the
    default audience does not return an error (a value that is negative as a
    signed word), the word it returns resolves, for the caller, to a live object
    with exactly the rights that were asked for and the parent's kind. *)
Theorem derived_token_resolves (ok1 ok2 : bool) (w w' : world) (pid tok rights r10 rax : Z) :
  wf_world w -> pid <> PID_NONE -> in_u 64 tok ->
  sys_cap_derive ok1 ok2 w pid tok rights UNull r10 = Some (w', rax) -> rax < 2 ^ 63 ->
  exists parent child,
    cap_token_resolve (reg w) pid tok RIGHT_DERIVE = Some parent /\
    cap_token_resolve (reg w') pid rax rights = Some child /\
    rights_bitmap child = rights /\ kind child = kind parent.
Proof.
  intros Hw Hpid Htok. unfold sys_cap_derive.
  destruct (pledge_check_world w pid PLEDGE_CLASS_SYS_CONTROL Hw) as (Hw1 & Hreg & _).
  destruct (pledge_check_and_audit _ _ _) as [okp w1]. cbn [fst snd] in *. rewrite <- Hreg.
  destruct okp; cbn [negb]; [|by intros [= <- <-]].
  destruct (tasks w1 !! pid) as [cur|]; [|by intros [= <- <-]].
  unfold derive_and_install. destruct (cap_token_resolve _ _ tok _) as [p|] eqn:Ep; [|by intros [= <- <-]].
  pose proof (derive_error_range ok1 (reg w1) (cap_token_idx tok) pid rights None (u8 (r10 &. 0xFF))) as Her.
  destruct (cap_object_derive _ _ _ _ _ _ _) as [s n] eqn:Ed. cbn [snd] in Her.
  destruct (Z.ltb_spec n 0) as [Hn|Hn].
  { intros [= <- <-]. specialize (u64_error n (Her Hn)). lia. }
  destruct (derive_creates _ _ _ _ _ _ _ _ _ (ww_reg _ Hw1) Ed Hn)
    as (parent & child & Hb & Hp & Hch & Hd & Hg & Hr & Hk & Ha).
  destruct (cap_handle_insert _ _ _ _) as [[[h slot] r]|]; [|done]. cbn.
  destruct (r <? 0); intros [= <- <-]; [by intros|]. intros _. exists p, child.
  apply cap_token_resolve_iff in Ep as Hpr. destruct Hpr as (_ & Hp' & _). assert (parent = p) as -> by congruence.
  unfold set_handles, set_reg, cap_object_get; cbn [reg].
  destruct (n >=? CAP_OBJECT_CAPACITY) eqn:?; [lia|]. rewrite Hch, Hg. split; [done|]. split; [|done].
  assert (in_u 24 n) by (unfold in_u, CAP_OBJECT_CAPACITY in *; lia).
  assert (in_u 8 (u8 (r10 &. 0xFF))) by (apply wrap_bound; lia).
  assert (in_u 32 1) by (unfold in_u; lia).
  apply cap_token_resolve_iff. rewrite pack_idx, pack_gen by done.
  split; [lia|]. do 3 (split; [done|]). split; [|rewrite Hr; apply has_all_refl].
  apply Ha. rewrite scan_pad_single. destruct (Z.eqb_spec pid PID_NONE); [done|]. by left.
Qed.

Lemma derived_token_resolves_witness :
  exists w', sys_cap_derive true true demo_world 5 (cap_token_pack 1 1 0) 0x1 UNull 0
             = Some (w', cap_token_pack 1 3 0) /\
             exists o, cap_token_resolve (reg w') 5 (cap_token_pack 1 3 0) 0x1 = Some o.
Proof.
  destruct (sys_cap_derive true true demo_world 5 (cap_token_pack 1 1 0) 0x1 UNull 0) as [[w' rax]|] eqn:E;
    [|vm_compute in E; discriminate E].
  assert (rax = cap_token_pack 1 3 0) as -> by (vm_compute in E; injection E as _ <-; reflexivity).
  exists w'. split; [reflexivity|].
  destruct (derived_token_resolves true true demo_world w' 5 (cap_token_pack 1 1 0) 0x1 0
              (cap_token_pack 1 3 0)) as (p & c & _ & Hc & _).
  - exact demo_world_wf.
  - discriminate.
  - split; [discriminate|reflexivity].
  - exact E.
  - reflexivity.
  - exists c. exact Hc.
Defined.

Lemma system_walk_spec n i s r es :
  0 <= i -> i + Z.of_nat n <= Z.of_nat (length es) ->
  exists v, system_walk n i s r es = Some v /\ (v = 0 \/ v = CAP_V2_EPERM) /\
    (v = 0 <-> exists j e, i <= j < i + Z.of_nat n /\ get es j = Some e /\
                           system_entry_matches s r e = true).
Proof.
  revert i. induction n as [|n IH]; intros i Hi Hl; cbn [system_walk].
  { exists CAP_V2_EPERM. split; [done|]. split; [by right|]. split; [done|]. intros (j & e & Hj & _). lia. }
  destruct (get_bound_Some es i) as [e He]; [lia|]. rewrite He. cbn.
  destruct (system_entry_matches s r e) eqn:Em.
  { exists 0. split; [done|]. split; [by left|]. split; [|done]. intros _. exists i, e. split; [lia|done]. }
  destruct (IH (i + 1)) as (v & Ev & Hv & Hiff); [lia|lia|]. exists v. split; [done|]. split; [done|].
  rewrite Hiff. split; intros (j & e' & Hj & He' & Hm).
  - exists j, e'. split; [lia|done].
  - exists j, e'. split; [|done]. enough (j <> i) by lia. intros ->. congruence.
Qed.

Lemma system_entry_matches_iff s r e :
  system_entry_matches s r e = true <->
  object_idx e <> CAP_OBJECT_IDX_NONE /\
  exists o, cap_object_get s (object_idx e) = Some o /\ kind o = CAP_KIND_SYSTEM /\
            deleted o = false /\ has_all (rights_bitmap o) r = true.
Proof.
  unfold system_entry_matches. destruct (Z.eqb_spec (object_idx e) CAP_OBJECT_IDX_NONE) as [->|Hne].
  - split; [done|]. by intros [? _].
  - cbn [negb andb]. destruct (cap_object_get s (object_idx e)) as [o|]; [|split; [done|]; by intros (_ & o & ? & _)].
    rewrite !andb_true_iff, negb_true_iff, Z.eqb_eq. split.
    + intros [[??]?]. split; [done|]. by exists o.
    + intros (_ & o' & [= <-] & ? & ? & ?). done.
Qed.

Lemma cap_system_resolve_iff (w : world) (pid rights : Z) (t : task) :
  wf_world w -> g_cap_system_bootcap_idx w <> 0 -> rights <> 0 -> tasks w !! pid = Some t ->
  exists v, cap_system_resolve w pid rights = Some v /\ (v = 0 \/ v = CAP_V2_EPERM) /\
    (v = 0 <->
     exists slot obj_i fl o, handle (cap_handles t) slot = Some (obj_i, fl) /\
       cap_object_get (reg w) obj_i = Some o /\ kind o = CAP_KIND_SYSTEM /\
       deleted o = false /\ has_all (rights_bitmap o) rights = true).
Proof.
  intros Hw Hb Hr Ht. destruct (ww_tables _ Hw _ _ Ht) as [m [[fl Hwf] _]].
  unfold cap_system_resolve, sched_get_task_any. rewrite Ht.
  destruct (Z.eqb_spec (g_cap_system_bootcap_idx w) 0); [done|]. destruct (Z.eqb_spec rights 0); [done|].
  pose proof Hwf as [Hl Hcap _ _ _ _].
  destruct (system_walk_spec (Z.to_nat (capacity (cap_handles t))) 0 (reg w) rights (entries (cap_handles t)))
    as (v & Ev & Hv & Hiff); [lia|lia|].
  exists v. split; [done|]. split; [done|]. rewrite Hiff. split.
  - intros (j & e & Hj & He & (Hne & o & Ho)%system_entry_matches_iff).
    exists j, (object_idx e), (token_flags e), o. split; [|done]. rewrite (handle_get _ _ _ Hwf), He.
    by destruct (Z.eqb_spec (object_idx e) CAP_OBJECT_IDX_NONE).
  - intros (j & oi & f & o & Hh & Ho). rewrite (handle_get _ _ _ Hwf) in Hh.
    destruct (get (entries (cap_handles t)) j) as [e|] eqn:He; [|done].
    destruct (Z.eqb_spec (object_idx e) CAP_OBJECT_IDX_NONE); [done|]. injection Hh as <- <-.
    exists j, e. pose proof (get_Some_bound _ _ _ He). split; [lia|]. split; [done|].
    apply system_entry_matches_iff. eauto.
Qed.

Lemma gate_opens w pid rights t slot obj_i fl o :
  wf_world w -> g_cap_system_bootcap_idx w <> 0 -> rights <> 0 -> tasks w !! pid = Some t ->
  handle (cap_handles t) slot = Some (obj_i, fl) -> cap_object_get (reg w) obj_i = Some o ->
  kind o = CAP_KIND_SYSTEM -> deleted o = false -> has_all (rights_bitmap o) rights = true ->
  cap_system_resolve w pid rights = Some 0.
Proof.
  intros. destruct (cap_system_resolve_iff w pid rights t) as (v & -> & _ & Hiff); try done.
  f_equal. apply Hiff. by exists slot, obj_i, fl, o.
Qed.

(** [cap_system_resolve] is the exact gate for system-privileged operations:
    it reads every slot inside the table, and returns 0 precisely when one of the
    caller's handles refers to a live CAP_KIND_SYSTEM object that has all the
    required rights. *)
Theorem cap_system_resolve_exact (w : world) (pid rights : Z) (t : task) :
  wf_world w -> g_cap_system_bootcap_idx w <> 0 -> rights <> 0 -> tasks w !! pid = Some t ->
  exists v, cap_system_resolve w pid rights = Some v /\ (v = 0 \/ v = CAP_V2_EPERM) /\
    (v = 0 <->
     exists slot obj_i fl o, handle (cap_handles t) slot = Some (obj_i, fl) /\
       cap_object_get (reg w) obj_i = Some o /\ kind o = CAP_KIND_SYSTEM /\
       deleted o = false /\ has_all (rights_bitmap o) rights = true).
Proof. apply cap_system_resolve_iff. Qed.

Definition demo_sys_world : world :=
  match sys_run demo_world demo_sys_ops with Some (w, _) => w | None => demo_world end.

Lemma demo_sys_world_wf : wf_world demo_sys_world.
Proof.
  unfold demo_sys_world. destruct (sys_run_safe demo_world demo_sys_ops demo_world_wf) as (w & rs & -> & Hw).
  exact Hw.
Qed.

Lemma demo_sys_task5 : exists t, tasks demo_sys_world !! 5 = Some t.
Proof. vm_compute. eexists. reflexivity. Defined.

Lemma cap_system_resolve_exact_witness :
  cap_system_resolve demo_sys_world 5 RIGHT_INVOKE = Some 0 /\
  exists t slot obj_i fl, tasks demo_sys_world !! 5 = Some t /\
    handle (cap_handles t) slot = Some (obj_i, fl).
Proof.
  destruct demo_sys_task5 as [t Ht].
  destruct (cap_system_resolve_exact demo_sys_world 5 RIGHT_INVOKE t) as (v & Hv & _ & Hiff).
  - exact demo_sys_world_wf.
  - vm_compute. discriminate.
  - vm_compute. discriminate.
  - exact Ht.
  - assert (v = 0) as -> by (vm_compute in Hv; congruence).
    split; [vm_compute; reflexivity|]. destruct (proj1 Hiff eq_refl) as (slot & i & fl & o & Hh & _).
    exists t, slot, i, fl. split; [exact Ht|exact Hh].
Defined.

(** Installing the system capability works.  When [cap_system_install_to_pid]
    returns 0, on a system whose bootcap slot still holds the bootcap, the target
    passes the gate [cap_system_resolve] for the rights it was given. *)
Theorem install_grants_system (ok1 ok2 : bool) (w w' : world) (pid rights : Z) (boot : cap_object) :
  wf_world w ->
  g_cap_object_ptrs (reg w) !! g_cap_system_bootcap_idx w = Some boot -> kind boot = CAP_KIND_SYSTEM ->
  cap_system_install_to_pid ok1 ok2 w pid rights = Some (w', 0) ->
  cap_system_resolve w' pid rights = Some 0.
Proof.
  intros Hw Hboot Hk E. destruct (install_safe ok1 ok2 w pid rights Hw) as (w1 & r1 & E1 & Hw').
  assert (w1 = w') as -> by congruence. clear E1.
  unfold cap_system_install_to_pid, sched_get_task_any in E.
  destruct (Z.eqb_spec (g_cap_system_bootcap_idx w) 0) as [|Hb]; [done|].
  destruct (Z.eqb_spec rights 0) as [|Hr]; [done|]. destruct (negb _); [done|].
  destruct (tasks w !! pid) as [t|] eqn:Et; [|done].
  destruct (cap_object_derive _ _ _ _ _ _ _) as [s n] eqn:Ed.
  assert (0 <= n) as Hn0 by (destruct (Z.ltb_spec n 1); [simplify_eq; lia|lia]).
  destruct (derive_creates _ _ _ _ _ _ _ _ _ (ww_reg _ Hw) Ed Hn0)
    as (parent & child & Hnb & Hp & Hch & Hd & _ & Hro & Hkc & _).
  destruct (Z.ltb_spec n 1); [lia|].
  destruct (ww_tables _ Hw _ _ Et) as [m Hm].
  destruct (insert_refines ok2 (cap_handles t) m n 0 Hm) as (h & slot & r & Ei & Hcase).
  { unfold CAP_OBJECT_CAPACITY, CAP_OBJECT_IDX_NONE in *. lia. }
  rewrite Ei in E. cbn in E. destruct Hcase as [(-> & -> & _)|(g & _ & [_ Hrep] & _)]; [done|].
  destruct (r <? 0) eqn:Er; [simplify_eq; lia|]. injection E as <-.
  eapply (gate_opens _ _ _ {| t with cap_handles := h |} slot n 0 child); try done.
  - unfold set_handles. cbn. apply lookup_insert_eq.
  - cbn. rewrite <- Hrep. apply lookup_insert_eq.
  - unfold cap_object_get, set_handles, set_reg. cbn. by destruct (n >=? CAP_OBJECT_CAPACITY) eqn:?; [lia|].
  - congruence.
  - rewrite Hro. apply has_all_refl.
Qed.

Lemma install_grants_system_witness :
  exists w', cap_system_install_to_pid true true (cap_system_init true demo_world) 6 RIGHT_INVOKE
             = Some (w', 0) /\ cap_system_resolve w' 6 RIGHT_INVOKE = Some 0.
Proof.
  destruct (cap_system_install_to_pid true true (cap_system_init true demo_world) 6 RIGHT_INVOKE)
    as [[w' r]|] eqn:E; [|vm_compute in E; discriminate E].
  assert (r = 0) as -> by (vm_compute in E; injection E as _ <-; reflexivity).
  exists w'. split; [reflexivity|].
  eapply (install_grants_system true true (cap_system_init true demo_world) w' 6 RIGHT_INVOKE).
  - apply cap_system_init_safe, demo_world_wf.
  - vm_compute. reflexivity.
  - reflexivity.
  - exact E.
Defined.

(** The bootcap: a live public object of generation 1 with all system rights. *)
Definition is_bootcap (o : cap_object) : Prop :=
  kind o = CAP_KIND_SYSTEM /\ deleted o = false /\ generation o = 1 /\ rights_bitmap o = CAP_SYSTEM_INIT_RIGHTS /\
  has_flag (flags o) CAP_FLAG_PUBLIC = true.

Lemma system_init_bootcap ok w : wf_world w -> g_cap_system_bootcap_idx w = 0 ->
  g_cap_system_bootcap_idx (cap_system_init ok w) <> 0 ->
  exists o, g_cap_object_ptrs (reg (cap_system_init ok w)) !! g_cap_system_bootcap_idx (cap_system_init ok w) = Some o /\ is_bootcap o /\
    cache_ready (reg (cap_system_init ok w)) = true /\ tasks (cap_system_init ok w) = tasks w.
Proof.
  intros Hw H0. unfold cap_system_init. rewrite H0. cbn [Z.eqb negb].
  pose proof (cap_object_create_spec ok (reg w) CAP_KIND_SYSTEM CAP_SYSTEM_INIT_RIGHTS
    (Some [PID_KERNEL; PID_NONE]) (CAP_FLAG_EAGER_REVOKE |. CAP_FLAG_PUBLIC) 0 PID_KERNEL CAP_OBJECT_IDX_NONE) as Hc.
  destruct (cap_object_create _ _ _ _ _ _ _ _ _) as [s n]. destruct (Z.ltb_spec n 1) as [|Hn]; [by intros []|]. intros _.
  inversion Hc as [e He|? ? Hready Hb _ _ _ (o & Ho & Hev & Hd & Hg) _ Hcr _ _]; subst; [lia|]. cbn. unfold set_reg. cbn.
  rewrite wrap_small by (unfold in_u, CAP_OBJECT_CAPACITY in *; lia). exists o. split; [done|]. split; [|split; [congruence|done]].
  unfold is_bootcap. rewrite (ev_kind _ _ Hev), (ev_rights _ _ Hev), (ev_public _ _ Hev). by vm_compute.
Qed.

(** A derivation from the bootcap is refused only for lack of memory. *)
Lemma derive_from_bootcap ok s i o pid rights : 0 < i < CAP_OBJECT_CAPACITY -> g_cap_object_ptrs s !! i = Some o -> is_bootcap o ->
  cache_ready s = true -> has_all CAP_SYSTEM_INIT_RIGHTS rights = true ->
  (cap_object_derive ok s i pid rights None 0).2 = CAP_V2_ENOMEM \/ 0 <= (cap_object_derive ok s i pid rights None 0).2.
Proof.
  intros Hi Ho (Hk & Hd & Hg & Hr & Hp) Hready Hra. unfold cap_object_derive, cap_object_derive_inner.
  destruct (Z.eqb_spec i 0); [lia|]. destruct (i >=? CAP_OBJECT_CAPACITY) eqn:E; [lia|]. cbn [orb]. rewrite Ho, Hd.
  unfold cap_token_validate_audience, audience_is_subset. rewrite Hp, Hr, Hra. cbn [negb]. change (CAP_SYSTEM_INIT_RIGHTS &. RIGHT_DERIVE =? 0) with false.
  change (0 &. PRIVILEGED_FLAGS) with 0. change (has_flag 0 KERNEL_MANAGED_FLAGS) with false.
  assert (has_all (flags o) 0 = true) as -> by (unfold has_all; by rewrite Z.land_0_r). cbn [negb andb].
  unfold cap_object_create. rewrite Hready. cbn [negb]. destruct ok; cbn [negb]; [|by left].
  destruct (find_free_slot_spec s) as [[-> _]|(Hf & _)]; [by left|]. right. set (slot := cap_object_find_free_slot_locked s) in *. clearbody slot.
  destruct (Z.eqb_spec slot CAP_OBJECT_IDX_NONE); [unfold CAP_OBJECT_IDX_NONE, CAP_OBJECT_CAPACITY in *; lia|].
  destruct (0 <=? slot) eqn:?; cbn; lia.
Qed.

(** C29: the system capability is not confined to those it was installed for.  The bootcap
    carries CAP_FLAG_PUBLIC, tokens are plain numbers, and a fresh object always has
    generation 1.  So in every well-formed world, after a [cap_system_init] that made the
    bootcap, every process that has the SYS_CONTROL pledge and asks SYS_CAP_DERIVE for any
    of the system rights with the forged token of the bootcap either is told that memory is
    out (no object or no handle), or passes the gate [cap_system_resolve] for these rights
    afterwards, without any install. *)
Theorem system_capability_forgeable (ok ok1 ok2 : bool) (w0 : world) (pid rights : Z) (t : task) :
  wf_world w0 -> g_cap_system_bootcap_idx w0 = 0 -> tasks w0 !! pid = Some t ->
  pledge_mask_allows (pledge_mask t) PLEDGE_CLASS_SYS_CONTROL = true ->
  rights <> 0 -> has_all CAP_SYSTEM_INIT_RIGHTS rights = true ->
  let w := cap_system_init ok w0 in let forged := cap_token_pack 1 (g_cap_system_bootcap_idx w) 0 in
  g_cap_system_bootcap_idx w <> 0 ->
  exists w' rax, sys_cap_derive ok1 ok2 w pid forged rights UNull 0 = Some (w', rax) /\
    (rax = u64 CAP_V2_ENOMEM \/ cap_system_resolve w' pid rights = Some 0).
Proof.
  intros Hw0 H0 Ht Hpl Hr Hra w forged Hb. destruct (system_init_bootcap ok w0 Hw0 H0 Hb) as (o & Ho & Hbc & Hready & Htasks). fold w in Ho, Hready, Htasks.
  assert (wf_world w) as Hw by (by apply cap_system_init_safe). rewrite <- Htasks in Ht.
  assert (0 < g_cap_system_bootcap_idx w < CAP_OBJECT_CAPACITY) as Hi by (destruct (ww_boot _ Hw); [done|lia]).
  assert (cap_token_idx forged = g_cap_system_bootcap_idx w /\ cap_token_gen forged = 1) as [Eidx Egen].
  { unfold forged. unfold CAP_OBJECT_CAPACITY in Hi. rewrite pack_idx, pack_gen by (unfold in_u; lia). done. }
  unfold sys_cap_derive, pledge_check_and_audit. rewrite Ht, Hpl. cbn [negb]. rewrite Ht. unfold derive_and_install.
  assert (cap_token_resolve (reg w) pid forged RIGHT_DERIVE = Some o) as ->.
  { apply cap_token_resolve_iff. destruct Hbc as (Hk & Hd & Hg & Hro & Hp). rewrite Eidx, Egen, Hro. split_and!; try done; try lia.
    unfold cap_token_validate_audience. by rewrite Hp. }
  rewrite Eidx. change (u8 (0 &. 255)) with 0. pose proof (derive_from_bootcap ok1 (reg w) _ o pid rights Hi Ho Hbc Hready Hra) as Hd.
  destruct (cap_object_derive _ _ _ _ _ _ _) as [s n] eqn:Ed. cbn [snd] in Hd.
  destruct (Z.ltb_spec n 0) as [Hn|Hn]; [eexists _, _; split; [done|]; left; destruct Hd as [->|]; [done|lia]|].
  destruct (derive_creates _ _ _ _ _ _ _ _ _ (ww_reg _ Hw) Ed Hn) as (parent & child & Hnb & Hp & Hch & Hdc & _ & Hrc & Hkc & _).
  destruct (ww_tables _ Hw _ _ Ht) as [m Hm].
  destruct (insert_refines ok2 (cap_handles t) m n 0 Hm) as (h & slot & r & -> & Hcase); [unfold CAP_OBJECT_CAPACITY, CAP_OBJECT_IDX_NONE in *; lia|].
  cbn. destruct (Z.ltb_spec r 0) as [|Hr0]; [eexists _, _; split; [done|]; by left|]. eexists _, _. split; [done|]. right.
  destruct Hcase as [(-> & _)|(g & _ & Hrep & _)]; [done|].
  pose proof (wf_derive ok1 (reg w) (g_cap_system_bootcap_idx w) pid rights None 0 (ww_reg _ Hw)) as Hwf. rewrite Ed in Hwf.
  apply (gate_opens _ pid rights {| t with cap_handles := h |} slot n 0 child); try done.
  - by apply (wf_set_handles _ _ _ _ _ (wf_set_reg _ _ Hw Hwf) Hrep).
  - unfold set_handles. cbn. apply lookup_insert_eq.
  - cbn. destruct Hrep as [_ Hrep]. rewrite <- Hrep. apply lookup_insert_eq.
  - unfold cap_object_get, set_handles, set_reg. cbn. by destruct (n >=? CAP_OBJECT_CAPACITY) eqn:?; [lia|].
  - destruct Hbc as [Hk _]. congruence.
  - rewrite Hrc. apply has_all_refl.
Qed.

(** Process 5 fails the gate before the call and passes it afterwards. *)
Lemma system_capability_forgeable_witness :
  let w := cap_system_init true demo_world in
  cap_system_resolve w 5 RIGHT_INVOKE = Some CAP_V2_EPERM /\
  exists w' rax, sys_cap_derive true true w 5 (cap_token_pack 1 (g_cap_system_bootcap_idx w) 0) RIGHT_INVOKE UNull 0 = Some (w', rax) /\
    rax <> u64 CAP_V2_ENOMEM /\ cap_system_resolve w' 5 RIGHT_INVOKE = Some 0.
Proof.
  cbv zeta. split; [by vm_compute|].
  destruct (system_capability_forgeable true true true demo_world 5 RIGHT_INVOKE (Task (cap_handle_table_init true).1 PLEDGE_ALL false))
    as (w' & rax & E & Hres); [exact demo_world_wf|done|done|done|done|done|by vm_compute|].
  assert (rax <> u64 CAP_V2_ENOMEM) as Hne by (vm_compute in E; injection E as _ <-; by vm_compute).
  exists w', rax. split; [exact E|]. split; [exact Hne|]. by destruct Hres.
Defined.
