(* ===== verification/Can.v ===== *)
(** * The capability activation network (kernel/cap/can.c)

    Components of the system (hardware, drivers, services, applications) are switches
    with declared dependencies.  Registration runs six passes over the name and the
    dependencies; activation switches the dependencies on first, recursively;
    deactivation switches the dependents off first.  Each entry is paired with a
    capability object, through which the system calls reach it.

    The registry is the array [g_can_entry_ptrs] up to [g_cap_count]; a slot is [None]
    after its entry has been freed.  Following such a pointer is [None] (the kernel
    faults).  Callbacks return a number and do not touch the registry: their results are
    the stream [callbacks], zero when it has ended.  Notifications, audit records and
    warnings are a trace.  Names are byte strings without their terminator. *)
From Stdlib Require Import String.
From S2P Require Import Prelude Bytes StateM CapToken CapObject HandleTable Pledge CapSystem.
Local Open Scope string_scope.
Local Open Scope list_scope.
Local Open Scope Z_scope.

Abbreviation CAP_HARDWARE := 0.
Abbreviation CAP_DRIVER := 1.
Abbreviation CAP_SERVICE := 2.
Abbreviation CAP_APPLICATION := 3.
Abbreviation CAP_FEATURE := 4.
Abbreviation CAP_COMPOSITE := 5.
Abbreviation CAP_STATE_OFF := 0.
Abbreviation CAP_STATE_STARTING := 1.
Abbreviation CAP_STATE_ON := 2.
Abbreviation CAP_STATE_ERROR := 3.
Abbreviation MAX_CAPABILITIES := 64.
Abbreviation MAX_CAP_DEPS := 8.
Abbreviation CAP_NAME_LEN := 32.
Abbreviation MAX_CAP_OPS := 8.
Abbreviation CAP_OP_NAME_LEN := 24.
Abbreviation CAP_OK := 0.
Abbreviation CAP_ERR_NAME_EMPTY := (-1).
Abbreviation CAP_ERR_NAME_DUPLICATE := (-2).
Abbreviation CAP_ERR_DEP_UNRESOLVED := (-3).
Abbreviation CAP_ERR_DEP_SELF := (-4).
Abbreviation CAP_ERR_LAYER_VIOLATION := (-5).
Abbreviation CAP_ERR_REGISTRY_FULL := (-6).
Abbreviation CAP_ERR_HW_HAS_DEPS := (-7).
Abbreviation CAP_ERR_NOT_FOUND := (-8).
Abbreviation CAP_ERR_ACTIVATE_FAIL := (-9).
Abbreviation CAP_ERR_DEP_FAILED := (-10).
Abbreviation CAP_ERR_CYCLE := (-11).
Abbreviation CAP_ERR_KERNEL_OWNED := (-12).
Abbreviation CAP_ERR_DELETED := (-14).
Abbreviation CAP_ERR_WATCH_FULL := (-15).
Abbreviation CAP_ERR_ALREADY_WATCH := (-16).
Abbreviation CAP_ERR_NOT_WATCHING := (-17).
Abbreviation CAP_ERR_BUSY := (-18).
Abbreviation RIGHT_ACTIVATE := 0x40.
Abbreviation RIGHT_DEACTIVATE := 0x80.

(** ** Data *)
Record cap_op := Cap_op { op_name : list Z; op_param_count : Z; op_flags : Z }.

(** [c_deps] is the used part of [dep_indices]; a callback field says whether the
    function pointer is set. *)
Record can_entry := Can_entry {
  c_name : list Z;
  c_type : Z;
  c_state : Z;
  c_owner_pid : Z;
  c_deps : list Z;
  c_dep_names : list (list Z);
  c_activate_fn : bool;
  c_deactivate_fn : bool;
  c_refuse_fn : bool;
  c_get_stats_fn : bool;
  c_op_count : Z;
  c_ops : list cap_op;
  c_activation_count : Z;
  c_error_dep : Z;
  c_subtype : Z;
  c_deleted : bool;
  c_watchers : list Z;
  c_object_idx : Z
}.

Inductive can_event :=
| Cap_event (pid cap_id old_state new_state : Z)
| Called_activate (cap_id : Z)
| Called_deactivate (cap_id : Z)
| Called_refuse (cap_id : Z)
| Audit_activate (caller obj rc : Z)
| Audit_deactivate (caller obj rc : Z)
| Audit_register (obj : Z) (name : list Z)
| Audit_unregister (obj : Z) (name : list Z)
| Audit_violation (caller obj rc : Z)
| Warn_no_hardware (name : list Z)
| Warn_redundant (name dep via : list Z).

(** [can_caller] is the running task, -1 if there is none. *)
Record can := Can {
  g_can_entry_ptrs : list (option can_entry);
  can_world : world;
  can_caller : Z;
  callbacks : list Z;
  can_trace : list can_event
}.

Definition g_cap_count (s : can) : Z := Z.of_nat (length (g_can_entry_ptrs s)).
Definition set_entries (l : list (option can_entry)) (s : can) : can := {| s with g_can_entry_ptrs := l |}.
Definition can_emit (e : list can_event) : M can unit := modify (fun s => {| s with can_trace := can_trace s ++ e |}).

(** A pointer followed; a freed slot faults. *)
Definition deref (i : Z) : M can can_entry := fun s =>
  match get (g_can_entry_ptrs s) i with Some (Some e) => Some (s, e) | _ => None end.

Definition update (i : Z) (f : can_entry -> can_entry) : M can unit := fun s =>
  match get (g_can_entry_ptrs s) i with
  | Some (Some e) => Some (set_entries (upd (g_can_entry_ptrs s) i (Some (f e))) s, tt)
  | _ => None
  end.

Definition set_cap_state (st : Z) (e : can_entry) : can_entry := {| e with c_state := st |}.

Definition callback (ev : can_event) : M can Z :=
  can_emit [ev];;
  r ← gets (fun s => default 0 (head (callbacks s)));
  modify (fun s => {| s with callbacks := tl (callbacks s) |});;
  mret r.

Definition out_of_range (s : can) (cap_id : Z) : bool := (cap_id <? 0) || (cap_id >=? g_cap_count s).

(** ** Strings *)
Fixpoint cap_strcmp (a b : list Z) : Z :=
  match a, b with
  | x :: a', y :: b' => if x =? y then cap_strcmp a' b' else x - y
  | x :: _, [] => x
  | [], y :: _ => - y
  | [], [] => 0
  end.

Definition cap_strcpy (src : list Z) (max : Z) : list Z := take (Z.to_nat (max - 1)) src.

(** ** Watchers *)
Definition cap_notify_watchers (cap_id old_state new_state : Z) : M can unit :=
  n ← gets (fun s => out_of_range s cap_id);
  if n : bool then mret tt else
  cap ← deref cap_id;
  if negb ((new_state =? CAP_STATE_ON) || (new_state =? CAP_STATE_OFF) || (new_state =? CAP_STATE_ERROR)) then mret tt else
  can_emit (map (fun pid => Cap_event pid cap_id old_state new_state) (c_watchers cap)).

Definition cap_watch (cap_id pid : Z) : M can Z :=
  n ← gets (fun s => out_of_range s cap_id);
  if n : bool then mret CAP_ERR_NOT_FOUND else
  cap ← deref cap_id;
  if c_deleted cap then mret CAP_ERR_DELETED else
  if bool_decide (pid ∈ c_watchers cap) then mret CAP_ERR_ALREADY_WATCH else
  if Z.of_nat (length (c_watchers cap)) >=? 8 then mret CAP_ERR_WATCH_FULL else
  update cap_id (fun e => {| e with c_watchers := c_watchers e ++ [pid] |});;
  mret CAP_OK.

(** The first occurrence goes, the rest move down. *)
Definition drop_watcher (pid : Z) (e : can_entry) : can_entry :=
  {| e with c_watchers := match find_index (fun p => p =? pid) (c_watchers e) with
                          | Some i => delete i (c_watchers e)
                          | None => c_watchers e
                          end |}.

Definition cap_unwatch (cap_id pid : Z) : M can Z :=
  n ← gets (fun s => out_of_range s cap_id);
  if n : bool then mret CAP_ERR_NOT_FOUND else
  cap ← deref cap_id;
  if c_deleted cap then mret CAP_ERR_DELETED else
  if bool_decide (pid ∈ c_watchers cap) then update cap_id (drop_watcher pid);; mret CAP_OK
  else mret CAP_ERR_NOT_WATCHING.

Definition cap_unwatch_all_for_pid (pid : Z) : M can unit :=
  modify (fun s => set_entries
    (map (fun p : option can_entry => (fun e => if c_deleted e then e else drop_watcher pid e) <$> p) (g_can_entry_ptrs s)) s).

(** ** Registration *)
Definition layer_allows_dep (my_type dep_type : Z) : bool :=
  if my_type =? CAP_DRIVER then (dep_type =? CAP_HARDWARE) || (dep_type =? CAP_DRIVER) else
  if my_type =? CAP_SERVICE then dep_type <=? CAP_SERVICE else
  if (CAP_APPLICATION <=? my_type) && (my_type <=? CAP_COMPOSITE) then dep_type <? my_type else
  false.

(** Marks what is reachable through the dependencies. *)
Fixpoint dfs_walk (fuel : nat) (entries : list (option can_entry)) (start_id : Z) (visited : list bool) : option (list bool) :=
  match fuel with
  | O => None
  | S fuel =>
      if start_id >=? Z.of_nat (length entries) then Some visited else
      match get entries start_id with
      | Some (Some e) =>
          if c_deleted e || default false (get visited start_id) then Some visited
          else foldl (fun v d => v ≫= dfs_walk fuel entries d) (Some (upd visited start_id true)) (c_deps e)
      | _ => None
      end
  end.

Definition dfs_walks (entries : list (option can_entry)) (deps : list Z) : option (list bool) :=
  foldl (fun v d => v ≫= dfs_walk (S (Z.to_nat MAX_CAPABILITIES)) entries d) (Some (replicate (Z.to_nat MAX_CAPABILITIES) false)) deps.

Definition visits (visited : list bool) (i : nat) : bool := default false (visited !! i).

Definition named (name : list Z) (p : option can_entry) : bool :=
  match p with Some e => negb (c_deleted e) && (cap_strcmp (c_name e) name =? 0) | None => false end.

(** Pass 2 follows every pointer up to the entry it looks for. *)
Fixpoint resolve_name (entries : list (option can_entry)) (j : Z) (name : list Z) : option (option Z) :=
  match entries with
  | [] => Some None
  | None :: _ => None
  | Some e :: entries => if named name (Some e) then Some (Some j) else resolve_name entries (j + 1) name
  end.

Fixpoint resolve_deps (entries : list (option can_entry)) (name : list Z) (dep_names : option (list (option (list Z))))
    (n : nat) (i : Z) : option (Z + list Z) :=
  match n with
  | O => Some (inr [])
  | S n =>
      match dep_names with
      | None => Some (inl CAP_ERR_DEP_UNRESOLVED)
      | Some names =>
          match get names i with
          | None => None
          | Some None => Some (inl CAP_ERR_DEP_UNRESOLVED)
          | Some (Some dep) =>
              if bool_decide (dep = []) then Some (inl CAP_ERR_DEP_UNRESOLVED) else
              if cap_strcmp dep name =? 0 then Some (inl CAP_ERR_DEP_SELF) else
              found ← resolve_name entries 0 dep;
              match found with
              | None => Some (inl CAP_ERR_DEP_UNRESOLVED)
              | Some j =>
                  rest ← resolve_deps entries name dep_names n (i + 1);
                  Some (match rest with inl e => inl e | inr js => inr (j :: js) end)
              end
          end
      end
  end.

Definition entry_at (entries : list (option can_entry)) (i : Z) : option can_entry := mjoin (get entries i).

Definition layers_ok (entries : list (option can_entry)) (type : Z) (deps : list Z) : option bool :=
  forallb (fun dep_type => layer_allows_dep type dep_type) <$> mapM (fun d => c_type <$> entry_at entries d) deps.

(** Pass 6: the first dependency that makes dependency [i] redundant. *)
Fixpoint redundant_via (entries : list (option can_entry)) (deps : list Z) (i : nat) (n : nat) (j : nat) : option (option nat) :=
  match n with
  | O => Some None
  | S n =>
      if decide (i = j) then redundant_via entries deps i n (S j) else
      ej ← deps !! j ≫= entry_at entries;
      visited ← dfs_walks entries (c_deps ej);
      di ← deps !! i;
      if default false (get visited di) : bool then Some (Some j) else redundant_via entries deps i n (S j)
  end.

Definition pass4 (entries : list (option can_entry)) (name : list Z) (deps : list Z) : option bool :=
  if bool_decide (deps = []) then Some true else
  visited ← dfs_walks entries deps;
  Some (forallb (fun '(i, p) => negb (visits visited i && named name p)) (imap pair entries)).

Definition pass5 (entries : list (option can_entry)) (name : list Z) (type : Z) (deps : list Z) : option (list can_event) :=
  if (type =? CAP_HARDWARE) || bool_decide (deps = []) then Some [] else
  visited ← dfs_walks entries deps;
  let has_hw := existsb (fun '(i, p) => visits visited i &&
                   match p with Some e => (c_type e =? CAP_HARDWARE) && negb (c_deleted e) | None => false end) (imap pair entries) in
  Some (if has_hw : bool then [] else [Warn_no_hardware name]).

Definition pass6 (entries : list (option can_entry)) (name : list Z) (dep_names : list (list Z)) (deps : list Z)
    : option (list can_event) :=
  if Z.of_nat (length deps) <=? 1 then Some [] else
  ws ← mapM (fun i =>
    via ← redundant_via entries deps i (length deps) 0;
    Some (match via with
          | Some j => [Warn_redundant name (default [] (dep_names !! i)) (default [] (dep_names !! j))]
          | None => []
          end)) (seq 0 (length deps));
  Some (concat ws).

(** The passes: an error, or the resolved dependencies and the warnings. *)
Definition cap_compile (entries : list (option can_entry)) (name : option (list Z)) (type : Z)
    (dep_names : option (list (option (list Z)))) (dep_count : Z) : option (Z + list Z * list can_event) :=
  match name with
  | None | Some [] => Some (inl CAP_ERR_NAME_EMPTY)
  | Some name =>
      if existsb (named name) entries then Some (inl CAP_ERR_NAME_DUPLICATE) else
      if Z.of_nat (length entries) >=? MAX_CAPABILITIES then Some (inl CAP_ERR_REGISTRY_FULL) else
      let dep_count := Z.min (Z.max dep_count 0) MAX_CAP_DEPS in
      if (type =? CAP_HARDWARE) && (dep_count >? 0) then Some (inl CAP_ERR_HW_HAS_DEPS) else
      deps ← resolve_deps entries name dep_names (Z.to_nat dep_count) 0;
      match deps with
      | inl e => Some (inl e)
      | inr deps =>
          ok ← layers_ok entries type deps;
          if negb ok then Some (inl CAP_ERR_LAYER_VIOLATION) else
          acyclic ← pass4 entries name deps;
          if negb acyclic then Some (inl CAP_ERR_CYCLE) else
          w5 ← pass5 entries name type deps;
          w6 ← pass6 entries name (map (default []) (default [] dep_names)) deps;
          Some (inr (deps, w5 ++ w6))
      end
  end.

(** The array holds eight operations; a count above it runs past it. *)
Definition copy_ops (ops : option (list cap_op)) (op_count : Z) : option (Z * list cap_op) :=
  let n := if op_count >? MAX_CAP_OPS then MAX_CAP_OPS else u32 op_count in
  match ops with
  | None => Some (n, [])
  | Some l =>
      if (n >? MAX_CAP_OPS) || (n >? Z.of_nat (length l)) then None
      else Some (n, map (fun o => {| o with op_name := cap_strcpy (op_name o) CAP_OP_NAME_LEN |}) (take (Z.to_nat n) l))
  end.

Definition new_entry (name : list Z) (type subtype owner : Z) (deps : list Z) (dep_names : list (list Z))
    (activate_fn deactivate_fn get_stats : bool) (op_count : Z) (ops : list cap_op) : can_entry := {|
  c_name := cap_strcpy name CAP_NAME_LEN; c_type := type;
  c_state := if type =? CAP_HARDWARE then CAP_STATE_ON else CAP_STATE_OFF;
  c_owner_pid := owner; c_deps := deps;
  c_dep_names := map (fun d => cap_strcpy d CAP_NAME_LEN) (take (length deps) dep_names);
  c_activate_fn := activate_fn; c_deactivate_fn := deactivate_fn; c_refuse_fn := false; c_get_stats_fn := get_stats;
  c_op_count := op_count; c_ops := ops; c_activation_count := if type =? CAP_HARDWARE then 1 else 0;
  c_error_dep := 0; c_subtype := subtype; c_deleted := false; c_watchers := []; c_object_idx := CAP_OBJECT_IDX_NONE |}.

Definition public_audience : list Z := PID_PUBLIC :: replicate 7 PID_NONE.

(** The object's [kind_data] is the address of the entry, here its number. *)
Definition pair_object (obj_ok : bool) (id : Z) : M can unit := fun s =>
  let w := can_world s in
  let '(r, obj_idx) := cap_object_create obj_ok (reg w) CAP_KIND_CAN RIGHTS_ALL (Some public_audience)
                         (CAP_FLAG_IMMORTAL |. CAP_FLAG_PUBLIC) id PID_KERNEL CAP_OBJECT_IDX_NONE in
  let s := {| s with can_world := set_reg w r |} in
  if obj_idx <? 0 then Some (s, tt) else update id (fun e => {| e with c_object_idx := obj_idx |}) s.

Definition cap_register (slab_ok obj_ok : bool) (name : option (list Z)) (type subtype owner : Z)
    (dep_names : option (list (option (list Z)))) (dep_count : Z) (activate_fn deactivate_fn : bool)
    (ops : option (list cap_op)) (op_count : Z) (get_stats : bool) : M can Z := fun s =>
  r ← cap_compile (g_can_entry_ptrs s) name type dep_names dep_count;
  match r with
  | inl e => Some (s, e)
  | inr (deps, warnings) =>
      let s := {| s with can_trace := can_trace s ++ warnings |} in
      if negb slab_ok then Some (s, CAP_ERR_REGISTRY_FULL) else
      '(n, ops) ← copy_ops ops op_count;
      let id := g_cap_count s in
      let cap := new_entry (default [] name) type subtype owner deps (map (default []) (default [] dep_names))
                   activate_fn deactivate_fn get_stats n ops in
      (pair_object obj_ok id;;
       cap ← deref id;
       can_emit [Audit_register (c_object_idx cap) (default [] name)];;
       mret id) (set_entries (g_can_entry_ptrs s ++ [Some cap]) s)
  end.

(** ** Activation *)
Definition notify_if_watched (cap_id old_state new_state : Z) : M can unit :=
  cap ← deref cap_id;
  if Z.of_nat (length (c_watchers cap)) >? 0 then cap_notify_watchers cap_id old_state new_state else mret tt.

Definition audit_activate (cap_id rc : Z) : M can unit :=
  cap ← deref cap_id;
  caller ← gets can_caller;
  can_emit [Audit_activate caller (c_object_idx cap) rc].

Definition audit_deactivate (cap_id rc : Z) : M can unit :=
  cap ← deref cap_id;
  caller ← gets can_caller;
  can_emit [Audit_deactivate caller (c_object_idx cap) rc].

(** The dependencies in order, up to the first that fails. *)
Fixpoint activate_deps (activate : Z -> M can Z) (deps : list Z) : M can (option Z) :=
  match deps with
  | [] => mret None
  | d :: deps => r ← activate (swrap 32 d); if r =? CAP_OK then activate_deps activate deps else mret (Some d)
  end.

Definition activate_failed (cap_id rc : Z) (error_dep : option Z) : M can Z :=
  update cap_id (fun e => {| e with c_state := CAP_STATE_ERROR; c_error_dep := default (c_error_dep e) error_dep |});;
  notify_if_watched cap_id CAP_STATE_STARTING CAP_STATE_ERROR;;
  audit_activate cap_id rc;;
  mret rc.

Definition activate_done (cap_id : Z) : M can Z :=
  update cap_id (fun e => {| e with c_state := CAP_STATE_ON; c_activation_count := u64 (c_activation_count e + 1) |});;
  notify_if_watched cap_id CAP_STATE_STARTING CAP_STATE_ON;;
  caller ← gets can_caller;
  (if negb (caller =? -1) then audit_activate cap_id 0 else mret tt);;
  mret CAP_OK.

Fixpoint cap_activate (fuel : nat) (cap_id : Z) : M can Z :=
  match fuel with
  | O => diverge
  | S fuel =>
      out ← gets (fun s => out_of_range s cap_id);
      if out : bool then mret CAP_ERR_NOT_FOUND else
      cap ← deref cap_id;
      if c_deleted cap then mret CAP_ERR_DELETED else
      if c_state cap =? CAP_STATE_ON then mret CAP_OK else
      if c_state cap =? CAP_STATE_STARTING then mret CAP_ERR_CYCLE else
      update cap_id (set_cap_state CAP_STATE_STARTING);;
      failed ← activate_deps (cap_activate fuel) (c_deps cap);
      match failed with
      | Some d =>
          (* the log line names the dependency *)
          deref (swrap 32 d);;
          activate_failed cap_id CAP_ERR_DEP_FAILED (Some d)
      | None =>
          r ← (if c_activate_fn cap then callback (Called_activate cap_id) else mret 0);
          if negb (r =? 0) then activate_failed cap_id CAP_ERR_ACTIVATE_FAIL None
          else activate_done cap_id
      end
  end.

(** Deep enough for any chain of dependencies in the registry. *)
Definition can_fuel : nat := S (Z.to_nat MAX_CAPABILITIES).

(** The boot loop of kernel/main.c. *)
Fixpoint activate_all (n : nat) (i : Z) : M can unit :=
  match n with O => mret tt | S n => cap_activate can_fuel i;; activate_all n (i + 1) end.

(** ** Deactivation *)
Definition depends_on (cap_id : Z) (e : can_entry) : bool :=
  negb (c_deleted e) && ((c_state e =? CAP_STATE_ON) || (c_state e =? CAP_STATE_STARTING)) &&
  existsb (fun d => d =? cap_id) (c_deps e).

(** The registry is walked once; each live dependent is switched off. *)
Fixpoint deactivate_dependents (deactivate : Z -> Z -> M can (Z * Z)) (cap_id : Z) (n : nat) (i : Z) (count : Z) : M can (Z * Z) :=
  match n with
  | O => mret (CAP_OK, count)
  | S n =>
      p ← gets (fun s => entry_at (g_can_entry_ptrs s) i);
      if (match p with Some e => depends_on cap_id e | None => false end) : bool then
        rc ← deactivate i count;
        if fst rc =? CAP_OK then deactivate_dependents deactivate cap_id n (i + 1) (snd rc) else mret rc
      else deactivate_dependents deactivate cap_id n (i + 1) count
  end.

Definition deactivate_failed (cap_id rc count : Z) : M can (Z * Z) := audit_deactivate cap_id rc;; mret (rc, count).

Definition deactivate_done (cap_id count : Z) : M can (Z * Z) :=
  cap ← deref cap_id;
  update cap_id (set_cap_state CAP_STATE_OFF);;
  notify_if_watched cap_id (c_state cap) CAP_STATE_OFF;;
  caller ← gets can_caller;
  (if negb (caller =? -1) then audit_deactivate cap_id 0 else mret tt);;
  mret (CAP_OK, u32 (count + 1)).

Fixpoint cap_deactivate_inner (fuel : nat) (cap_id count : Z) : M can (Z * Z) :=
  match fuel with
  | O => diverge
  | S fuel =>
      out ← gets (fun s => out_of_range s cap_id);
      if out : bool then mret (CAP_ERR_NOT_FOUND, count) else
      p ← gets (fun s => entry_at (g_can_entry_ptrs s) cap_id);
      match p with
      | None => mret (CAP_ERR_NOT_FOUND, count)
      | Some cap =>
          if c_deleted cap then mret (CAP_ERR_DELETED, count) else
          if c_state cap =? CAP_STATE_OFF then mret (CAP_OK, count) else
          refuse ← (if c_refuse_fn cap then callback (Called_refuse cap_id) else mret 0);
          if negb (refuse =? 0) then deactivate_failed cap_id CAP_ERR_BUSY count else
          n ← gets (fun s => length (g_can_entry_ptrs s));
          r ← deactivate_dependents (cap_deactivate_inner fuel) cap_id n 0 count;
          if negb (fst r =? CAP_OK) then deactivate_failed cap_id (fst r) (snd r) else
          rc ← (if c_deactivate_fn cap then callback (Called_deactivate cap_id) else mret 0);
          if negb (rc =? 0) then deactivate_failed cap_id rc (snd r)
          else deactivate_done cap_id (snd r)
      end
  end.

Definition cap_deactivate_count (cap_id : Z) : M can (Z * Z) :=
  out ← gets (fun s => out_of_range s cap_id);
  if out : bool then mret (CAP_ERR_NOT_FOUND, 0) else cap_deactivate_inner can_fuel cap_id 0.

Definition cap_deactivate (cap_id : Z) : M can Z := r ← cap_deactivate_count cap_id; mret (fst r).

Definition cap_set_refuse_hook (cap_id : Z) (fn : bool) : M can Z :=
  out ← gets (fun s => out_of_range s cap_id);
  if out : bool then mret CAP_ERR_NOT_FOUND else
  p ← gets (fun s => entry_at (g_can_entry_ptrs s) cap_id);
  match p with
  | None => mret CAP_ERR_NOT_FOUND
  | Some e => if c_deleted e then mret CAP_ERR_DELETED
              else update cap_id (fun e => {| e with c_refuse_fn := fn |});; mret CAP_OK
  end.

(** ** Unregistration *)
Definition free_slot (cap_id : Z) (s : can) : can := set_entries (upd (g_can_entry_ptrs s) cap_id None) s.

Definition cap_unregister (cap_id : Z) : M can Z :=
  out ← gets (fun s => out_of_range s cap_id);
  if out : bool then mret CAP_ERR_NOT_FOUND else
  cap ← deref cap_id;
  if c_deleted cap then mret CAP_ERR_DELETED else
  if c_type cap <? CAP_APPLICATION then mret CAP_ERR_KERNEL_OWNED else
  (if (c_state cap =? CAP_STATE_ON) || (c_state cap =? CAP_STATE_STARTING) then cap_deactivate cap_id;; mret tt else mret tt);;
  cap ← deref cap_id;
  modify (free_slot cap_id);;
  (if negb (c_object_idx cap =? CAP_OBJECT_IDX_NONE)
   then modify (fun s => let w := can_world s in {| s with can_world := set_reg w (cap_object_destroy (reg w) (c_object_idx cap)) |})
   else mret tt);;
  can_emit [Audit_unregister (c_object_idx cap) (c_name cap)];;
  mret CAP_OK.

Fixpoint unregister_owned (owner_pid : Z) (n : nat) (i : Z) : M can unit :=
  match n with
  | O => mret tt
  | S n =>
      p ← gets (fun s => entry_at (g_can_entry_ptrs s) i);
      (match p with
       | Some e => if negb (c_deleted e) && (c_owner_pid e =? owner_pid) then cap_unregister i;; mret tt else mret tt
       | None => mret tt
       end);;
      unregister_owned owner_pid n (i + 1)
  end.

Definition cap_unregister_by_owner (owner_pid : Z) : M can unit :=
  n ← gets (fun s => length (g_can_entry_ptrs s)); unregister_owned owner_pid n 0.

(** ** Queries *)
Definition cap_can_by_object_idx (s : can) (obj_idx : Z) : Z :=
  if obj_idx =? CAP_OBJECT_IDX_NONE then CAP_ERR_NOT_FOUND else
  match find_index (fun p : option can_entry =>
          match p with Some e => negb (c_deleted e) && (c_object_idx e =? obj_idx) | None => false end) (g_can_entry_ptrs s) with
  | Some i => Z.of_nat i
  | None => CAP_ERR_NOT_FOUND
  end.

Definition cap_get_object_idx (s : can) (can_id : Z) : Z :=
  if out_of_range s can_id then CAP_OBJECT_IDX_NONE else
  match entry_at (g_can_entry_ptrs s) can_id with
  | Some e => if c_deleted e then CAP_OBJECT_IDX_NONE else c_object_idx e
  | None => CAP_OBJECT_IDX_NONE
  end.

Definition cap_get_owner (cap_id : Z) : M can Z :=
  out ← gets (fun s => out_of_range s cap_id);
  if out : bool then mret (-1) else
  cap ← deref cap_id;
  mret (if c_deleted cap then -1 else c_owner_pid cap).

Definition cap_find (s : can) (name : option (list Z)) : Z :=
  match name with
  | None | Some [] => CAP_ERR_NOT_FOUND
  | Some name =>
      match find_index (named name) (g_can_entry_ptrs s) with
      | Some i => Z.of_nat i
      | None => CAP_ERR_NOT_FOUND
      end
  end.

Definition cap_get_state (cap_id : Z) : M can Z :=
  out ← gets (fun s => out_of_range s cap_id);
  if out : bool then mret (-1) else cap ← deref cap_id; mret (c_state cap).

(** The reason why an entry is not on, written into a buffer of the given length, if there
    is one; the result is the code and the text. *)
Definition put_text (buf : list Z) (buflen : Z) (text : list Z) : list Z :=
  buf ++ take (Z.to_nat (buflen - 1 - Z.of_nat (length buf))) text.

Definition blame (buflen : option Z) (name : list Z) (st : list Z * bool) : list Z * bool :=
  let '(buf, found_issue) := st in
  match buflen with
  | None => st
  | Some n =>
      if Z.of_nat (length buf) <? n - 1 then
        let buf := if found_issue && (Z.of_nat (length buf) <? n - 3) then buf ++ bytes_of ", " else buf in
        let buf := if found_issue then buf else put_text buf n (bytes_of "dep OFF: ") in
        (put_text buf n name, true)
      else st
  end.

Fixpoint why_deps (buflen : option Z) (deps : list Z) (st : list Z * bool) : M can (list Z * bool) :=
  match deps with
  | [] => mret st
  | d :: deps =>
      n ← gets g_cap_count;
      if d >=? n then why_deps buflen deps st else
      dep ← deref d;
      why_deps buflen deps (if c_deleted dep || negb (c_state dep =? CAP_STATE_ON) then blame buflen (c_name dep) st else st)
  end.

Definition say (buflen : option Z) (text : list Z) : list Z :=
  match buflen with Some n => if n >? 0 then cap_strcpy text n else [] | None => [] end.

Definition cap_why_not (cap_id : Z) (buflen : option Z) : M can (Z * list Z) :=
  out ← gets (fun s => out_of_range s cap_id);
  if out : bool then mret (CAP_ERR_NOT_FOUND, say buflen (bytes_of "not found")) else
  cap ← deref cap_id;
  if c_deleted cap then mret (CAP_ERR_DELETED, say buflen (bytes_of "deleted")) else
  if c_state cap =? CAP_STATE_ON then mret (CAP_OK, say buflen (bytes_of "already active")) else
  st ← why_deps buflen (c_deps cap) ([], false);
  if snd st : bool then mret (CAP_ERR_DEP_FAILED, fst st) else
  if c_state cap =? CAP_STATE_ERROR then
    n ← gets g_cap_count;
    if (match buflen with Some b => b >? 0 | None => false end) && (c_error_dep cap <? n) then
      dep ← deref (c_error_dep cap);
      let text := say buflen (bytes_of "dep failed: ") in
      mret (CAP_ERR_ACTIVATE_FAIL, text ++ cap_strcpy (c_name dep) (default 0 buflen - Z.of_nat (length text)))
    else mret (CAP_ERR_ACTIVATE_FAIL, say buflen (bytes_of "activation callback failed"))
  else mret (CAP_OK, say buflen (bytes_of "ready to activate")).

Record state_cap_entry := State_cap_entry {
  sc_name : list Z; sc_type : Z; sc_state : Z; sc_owner_pid : Z; sc_deps : list Z; sc_op_count : Z;
  sc_activation_count : Z; sc_subtype : Z; sc_deleted : bool
}.

(** Freed slots are reported as deleted entries, so that positions are numbers. *)
Definition cap_query_entry (p : option can_entry) : state_cap_entry :=
  match p with
  | None => State_cap_entry [] 0 0 0 [] 0 0 0 true
  | Some e => State_cap_entry (cap_strcpy (c_name e) CAP_NAME_LEN) (c_type e) (c_state e) (c_owner_pid e) (take 8 (c_deps e)) (c_op_count e)
                (c_activation_count e) (c_subtype e) (c_deleted e)
  end.

Definition cap_query_all (s : can) (max : Z) : list state_cap_entry :=
  if max <=? 0 then [] else map cap_query_entry (take (Z.to_nat max) (g_can_entry_ptrs s)).

(** ** System calls *)

Definition resolve_can (tok right : Z) : M can (option Z) :=
  s ← gets id;
  let caller := can_caller s in
  match cap_token_resolve (reg (can_world s)) caller tok right with
  | None => can_emit [Audit_violation caller (cap_token_idx tok) CAP_V2_EPERM];; mret None
  | Some obj =>
      if negb (kind obj =? CAP_KIND_CAN)
      then can_emit [Audit_violation caller (cap_token_idx tok) CAP_V2_EPERM];; mret None
      else mret (Some (cap_can_by_object_idx s (cap_token_idx tok)))
  end.

Definition pledged : M can bool := fun s =>
  let '(ok, w) := pledge_check_and_audit (can_world s) (can_caller s) PLEDGE_CLASS_SYS_CONTROL in
  Some ({| s with can_world := w |}, ok).

Definition sys_can_activate_t (tok : Z) : M can Z :=
  ok ← pledged;
  if negb ok then mret (u64 CAP_V2_EPLEDGE) else
  r ← resolve_can tok RIGHT_ACTIVATE;
  match r with
  | None => mret (u64 CAP_V2_EPERM)
  | Some can_id =>
      if can_id <? 0 then mret (u64 CAP_V2_EINVAL) else
      rc ← cap_activate can_fuel can_id;
      mret (u64 rc)
  end.

Definition sys_can_deactivate_t (tok : Z) : M can Z :=
  ok ← pledged;
  if negb ok then mret (u64 CAP_V2_EPLEDGE) else
  r ← resolve_can tok RIGHT_DEACTIVATE;
  match r with
  | None => mret (u64 CAP_V2_EPERM)
  | Some can_id =>
      if can_id <? 0 then mret (u64 CAP_V2_EINVAL) else
      rc ← cap_deactivate_count can_id;
      mret (if negb (fst rc =? CAP_OK) then u64 (fst rc) else snd rc)
  end.

(** [user_name] is the memory at the user's pointer, [None] if the pointer is rejected. *)
Definition sys_can_lookup (s : can) (user_name : option (list Z)) (name_len : Z) : Z :=
  if (name_len =? 0) || (name_len >? 64) then 0 else
  match user_name with
  | None => 0
  | Some mem =>
      let can_id := cap_find s (Some (cstr (take (Z.to_nat name_len) mem))) in
      if can_id <? 0 then 0 else
      let obj_idx := cap_get_object_idx s can_id in
      if obj_idx =? CAP_OBJECT_IDX_NONE then 0 else
      match cap_object_get (reg (can_world s)) obj_idx with
      | None => 0
      | Some obj => cap_token_pack (generation obj) obj_idx (u8 (flags obj &. 0xFF))
      end
  end.
