(* ===== verification/CanGraph.v ===== *)
(** * The activation network: the graph and its invariant

    Dependencies point to earlier entries, so the graph is acyclic; [wf_can] says this of
    every entry together with the limits of the arrays.  [coherent] is what activation is
    for: whatever is on has all its dependencies on.  The lemmas give the effect of each
    primitive step on the array of entries. *)
From S2P Require Import Prelude Bytes StateM CapToken CapObject HandleTable Pledge CapSystem Can.
Local Open Scope Z_scope.

Abbreviation slots := (list (option can_entry)).

(** ** Slots *)
Lemma entry_at_Some (l : slots) i e : entry_at l i = Some e <-> 0 <= i /\ l !! Z.to_nat i = Some (Some e).
Proof.
  unfold entry_at, get, mjoin. destruct (Z.ltb_spec i 0); cbn; [split; [done|lia]|].
  destruct (l !! Z.to_nat i) as [[e'|]|]; cbn; split; [intros [= ->]| | | | |]; try done; try (by intros [_ ?]); intros [_ [= ->]]; done.
Qed.

Lemma entry_at_bound (l : slots) i e : entry_at l i = Some e -> 0 <= i < Z.of_nat (length l).
Proof. intros [Hi H%lookup_lt_Some]%entry_at_Some. lia. Qed.

Lemma entry_at_get (l : slots) i e : entry_at l i = Some e -> get l i = Some (Some e).
Proof. intros [Hi H]%entry_at_Some. unfold get. destruct (Z.ltb_spec i 0); [lia|done]. Qed.

Lemma entry_at_upd (l : slots) i p k : 0 <= i < Z.of_nat (length l) ->
  entry_at (upd l i p) k = if k =? i then p else entry_at l k.
Proof.
  intros Hi. unfold entry_at. destruct (Z.eqb_spec k i) as [->|Hne]; [by rewrite get_upd_eq|]. by rewrite get_upd_ne by lia.
Qed.

Lemma entry_at_app (l : slots) p k : entry_at (l ++ [p]) k = if k =? Z.of_nat (length l) then p else entry_at l k.
Proof.
  unfold entry_at, get. destruct (Z.ltb_spec k 0), (Z.eqb_spec k (Z.of_nat (length l))); try lia; try done.
  - subst. rewrite Nat2Z.id, list_lookup_middle; done.
  - destruct (decide (Z.to_nat k < length l)%nat); [by rewrite lookup_app_l|].
    rewrite (lookup_ge_None_2 (l ++ _)), (lookup_ge_None_2 l); [done|lia|rewrite length_app; cbn; lia].
Qed.

(** ** The graph *)
Definition dep_of (l : slots) (i d : Z) : Prop := exists e, entry_at l i = Some e /\ d ∈ c_deps e.
Abbreviation needs l := (rtc (dep_of l)).

(** Two arrays with the same entries up to their states, counters and error marks. *)
Definition plain (e : can_entry) : can_entry := {| e with c_state := 0; c_activation_count := 0; c_error_dep := 0 |}.
Definition plain_slot (p : option can_entry) : option can_entry := plain <$> p.
Definition same_graph (l l' : slots) : Prop := plain_slot <$> l = plain_slot <$> l'.

#[export] Instance same_graph_equiv : Equivalence same_graph.
Proof. split; [done|by intros ?? H|intros ??? H1 H2; unfold same_graph in *; congruence]. Qed.

Lemma same_graph_entry l l' i e' : same_graph l l' -> entry_at l' i = Some e' -> exists e, entry_at l i = Some e /\ plain e = plain e'.
Proof.
  intros Hg [Hi He]%entry_at_Some. assert ((plain_slot <$> l) !! Z.to_nat i = Some (Some (plain e'))) as H.
  { unfold same_graph in Hg; rewrite Hg, list_lookup_fmap, He. done. }
  rewrite list_lookup_fmap in H. destruct (l !! Z.to_nat i) as [[e|]|] eqn:E; [|done|done].
  exists e. split; [by apply entry_at_Some|]. by apply (inj Some), (inj Some) in H.
Qed.

Lemma same_graph_length l l' : same_graph l l' -> length l = length l'.
Proof. intros H%(f_equal length). by rewrite !length_fmap in H. Qed.

Lemma plain_deps e e' : plain e = plain e' -> c_deps e = c_deps e'.
Proof. by intros [= ]. Qed.

Lemma same_graph_dep l l' i d : same_graph l l' -> dep_of l' i d -> dep_of l i d.
Proof.
  intros Hg (e' & He & Hd). destruct (same_graph_entry _ _ _ _ Hg He) as (e & ? & E). exists e. split; [done|].
  by rewrite (plain_deps _ _ E).
Qed.

Lemma same_graph_needs l l' i d : same_graph l l' -> needs l' i d -> needs l i d.
Proof. intros Hg. apply rtc_subrel. intros x y. by apply same_graph_dep. Qed.

Lemma same_graph_upd l i e e' : entry_at l i = Some e -> plain e' = plain e -> same_graph l (upd l i (Some e')).
Proof.
  intros [Hi He]%entry_at_Some E. unfold same_graph, upd. rewrite list_fmap_insert. cbn. rewrite E.
  symmetry. apply list_insert_id. rewrite list_lookup_fmap, He. done.
Qed.

(** ** The invariant *)
Record wf_entry (l : slots) (i : Z) (e : can_entry) : Prop := {
  we_deps : forall d, d ∈ c_deps e -> 0 <= d < i;
  we_layer : forall d e', d ∈ c_deps e -> entry_at l d = Some e' -> layer_allows_dep (c_type e) (c_type e') = true;
  we_count : (length (c_deps e) <= Z.to_nat MAX_CAP_DEPS)%nat;
  we_name : (0 < length (c_name e) < Z.to_nat CAP_NAME_LEN)%nat;
  we_live : c_deleted e = false;
  we_watch : NoDup (c_watchers e) /\ (length (c_watchers e) <= 8)%nat
}.

Definition wf_can (l : slots) : Prop :=
  Z.of_nat (length l) <= MAX_CAPABILITIES /\ forall i e, entry_at l i = Some e -> wf_entry l i e.

(** No entry depends on a freed slot. *)
Definition closed (l : slots) : Prop := forall i d, dep_of l i d -> is_Some (entry_at l d).

Definition is_on (l : slots) (i : Z) : Prop := exists e, entry_at l i = Some e /\ c_state e = CAP_STATE_ON.
Definition coherent (l : slots) : Prop := forall i d, is_on l i -> dep_of l i d -> is_on l d.
Definition starting (l : slots) (i : Z) : Prop := exists e, entry_at l i = Some e /\ c_state e = CAP_STATE_STARTING.

Lemma dep_lt l i d : wf_can l -> dep_of l i d -> 0 <= d < i.
Proof. intros [_ H] (e & He & Hd). by apply (we_deps _ _ _ (H _ _ He)). Qed.

Lemma needs_le l i d : wf_can l -> needs l i d -> d <= i.
Proof. intros Hw. induction 1 as [|i j d Hd _ IH]; [lia|]. apply dep_lt in Hd; [lia|done]. Qed.

(** Everything something that is on needs is on. *)
Lemma needs_on l i d : coherent l -> is_on l i -> needs l i d -> is_on l d.
Proof. intros Hc Hi Hn. revert Hi. induction Hn as [|i j d Hd _ IH]; [done|]. intros Hi. by apply IH, (Hc i). Qed.

Lemma wf_same_graph l l' : wf_can l -> same_graph l l' -> wf_can l'.
Proof.
  intros [Hl H] Hg. split; [by rewrite <- (same_graph_length _ _ Hg)|]. intros i e' He'.
  destruct (same_graph_entry _ _ _ _ Hg He') as (e & He & E). destruct (H _ _ He) as [H1 H2 H3 H4 H5 H6]. injection E. intros.
  split; repeat match goal with E : ?f e = ?f e' |- _ => rewrite <- E; clear E end; try done.
  intros d e1 Hd He1. destruct (same_graph_entry _ _ _ _ Hg He1) as (e2 & He2 & E2). injection E2. intros.
  match goal with E : c_type e2 = c_type e1 |- _ => rewrite <- E end. eauto.
Qed.

Lemma closed_same_graph l l' : closed l -> same_graph l l' -> closed l'.
Proof.
  intros Hc Hg i d Hd. destruct (Hc i d) as [e He]; [by eapply same_graph_dep|].
  destruct (same_graph_entry l' l d e) as (e' & ? & _); [done|done|by exists e'].
Qed.
