(* ===== verification/CanRegister.v ===== *)
(** * The activation network: registration

    The walk over the dependencies marks exactly what is reachable; the passes of the
    registration reject what would break the invariant, so a registered entry keeps it. *)
From S2P Require Import Prelude Bytes StateM CapToken CapObject HandleTable Pledge CapSystem Can CanGraph.
Local Open Scope Z_scope.

(** ** Depth-first search *)
Section dfs.
  Context (l : slots).
  Hypothesis Hwf : wf_can l.
  Hypothesis Hclosed : closed l.

Definition marked (v : list bool) (k : Z) : Prop := get v k = Some true.

(** Everything marked up to [i] has its dependencies marked. *)
Definition closed_below (v : list bool) (i : Z) : Prop := forall k d, k <= i -> marked v k -> dep_of l k d -> marked v d.

Definition marks (v v' : list bool) (T : Z -> Prop) : Prop := length v' = length v /\ forall k, marked v' k <-> marked v k \/ T k.

Lemma needs_marked v i k : closed_below v i -> marked v i -> needs l i k -> marked v k.
Proof.
  intros Hv Hi Hn. revert Hv Hi. induction Hn as [|i j k Hd Hn IH]; [done|]. intros Hv Hi. pose proof (dep_lt _ _ _ Hwf Hd).
  apply IH; [|eapply Hv; [|exact Hi|exact Hd]; lia]. intros x d Hx. apply Hv. lia.
Qed.

Lemma marked_upd v i k : 0 <= i < Z.of_nat (length v) -> marked (upd v i true) k <-> marked v k \/ k = i.
Proof.
  intros Hi. unfold marked. destruct (decide (k = i)) as [->|Hne]; [rewrite get_upd_eq by done; tauto|].
  rewrite get_upd_ne by lia. tauto.
Qed.

Lemma needs_unfold i e k : entry_at l i = Some e -> needs l i k <-> k = i \/ exists d, d ∈ c_deps e /\ needs l d k.
Proof.
  intros He. split.
  - intros Hn. apply rtc_inv in Hn as [->|(d & (e' & He' & Hd) & Hn)]; [by left|right]. rewrite He in He'. injection He' as <-. eauto.
  - intros [->|(d & Hd & Hn)]; [done|]. eapply rtc_l; [by exists e|done].
Qed.

Lemma closed_marks v v' (T : Z -> Prop) i : marks v v' T -> closed_below v i -> (forall k d, T k -> dep_of l k d -> T d) -> closed_below v' i.
Proof. intros [_ Hm] Hv HT k d Hk Hkm Hd. apply Hm in Hkm as [Hkm|Hkm]; apply Hm; [left; by eapply Hv|right; by eapply HT]. Qed.

Lemma walk_list_spec (walk : Z -> list bool -> option (list bool)) deps i :
  (forall d v, d ∈ deps -> length v = 64%nat -> closed_below v d -> exists v', walk d v = Some v' /\ marks v v' (needs l d)) ->
  (forall d, d ∈ deps -> d <= i) -> forall v, length v = 64%nat -> closed_below v i ->
  exists v', foldl (fun v d => v ≫= walk d) (Some v) deps = Some v' /\ marks v v' (fun k => exists d, d ∈ deps /\ needs l d k).
Proof.
  induction deps as [|d deps IH]; intros Hw Hle v Hl Hv; cbn [foldl].
  { exists v. split; [done|]. split; [done|]. intros k. split; [auto|]. intros [|(d & Hd & _)]; [done|by apply elem_of_nil in Hd]. }
  assert (d <= i) as Hdi by (apply Hle; left).
  destruct (Hw d v) as (v1 & E1 & M1); [left|done|intros k x Hk; apply Hv; lia|]. cbn [mbind option_bind]. rewrite E1.
  destruct (IH ltac:(intros; apply Hw; [by right|done|done]) ltac:(intros; apply Hle; by right) v1) as (v2 & E2 & M2).
  - by rewrite (proj1 M1).
  - eapply closed_marks; [exact M1|done|]. intros k x Hk Hx. eapply rtc_r; [exact Hk|exact Hx].
  - exists v2. split; [done|]. split; [by rewrite (proj1 M2), (proj1 M1)|]. intros k. rewrite (proj2 M2), (proj2 M1). split.
    + intros [[|]|(x & Hx & ?)]; [auto|right; exists d; split; [left|done]|right; exists x; split; [by right|done]].
    + intros [|(x & [->|Hx]%elem_of_cons & ?)]; [auto|auto|right; eauto].
Qed.

Lemma dfs_walk_spec fuel : forall i v, i < Z.of_nat fuel -> is_Some (entry_at l i) -> length v = 64%nat -> closed_below v i ->
  exists v', dfs_walk fuel l i v = Some v' /\ marks v v' (needs l i).
Proof.
  induction fuel as [|fuel IH]; intros i v Hi [e He] Hl Hv; pose proof (entry_at_bound _ _ _ He) as Hb; [lia|].
  destruct Hwf as [Hlen Hwe]. pose proof (Hwe _ _ He) as Hw. cbn [dfs_walk].
  destruct (Z.geb_spec i (Z.of_nat (length l))); [lia|]. rewrite (entry_at_get _ _ _ He), (we_live _ _ _ Hw). cbn [orb].
  destruct (get v i) as [[|]|] eqn:Ev; cbn [default].
  - exists v. split; [done|]. split; [done|]. intros k. split; [auto|]. intros [|Hn]; [done|]. by eapply needs_marked.
  - destruct (walk_list_spec (dfs_walk fuel l) (c_deps e) (i - 1)) with (v := upd v i true) as (v' & E & [M1 M2]).
    + intros d v' Hd Hl' Hv'. pose proof (we_deps _ _ _ Hw d Hd). apply IH; [lia| |done|done]. apply (Hclosed i). by exists e.
    + intros d Hd. apply (we_deps _ _ _ Hw) in Hd. lia.
    + by rewrite length_upd.
    + intros k d Hk Hm Hd. apply marked_upd in Hm as [Hm|]; [|lia|lia]. apply marked_upd; [lia|]. left. eapply Hv; [|exact Hm|exact Hd]. lia.
    + exists v'. split; [done|]. split; [by rewrite M1, length_upd|]. intros k. rewrite M2, marked_upd, (needs_unfold _ _ _ He) by lia. tauto.
  - destruct (get_bound_Some v i) as [x Hx]; [lia|congruence].
Qed.

(** From nothing marked: exactly what the given entries need, directly or not. *)
Lemma dfs_walks_spec (deps : list Z) : (forall d, d ∈ deps -> is_Some (entry_at l d)) ->
  exists v, dfs_walks l deps = Some v /\ forall k, visits v k = true <-> exists d, d ∈ deps /\ needs l d (Z.of_nat k).
Proof.
  intros Hd. destruct (walk_list_spec (dfs_walk 65 l) deps 64) with (v := replicate 64 false) as (v & E & _ & M).
  - intros d v Hdd Hl Hv. apply dfs_walk_spec; [|by apply Hd|done|done]. destruct (Hd d Hdd) as [e He%entry_at_bound]. destruct Hwf. lia.
  - intros d Hdd. destruct (Hd d Hdd) as [e He%entry_at_bound]. destruct Hwf. lia.
  - done.
  - intros k d _ Hm. unfold marked, get in Hm. destruct (k <? 0); [done|]. apply lookup_replicate_1 in Hm as [? _]. done.
  - exists v. split; [exact E|]. intros k. specialize (M (Z.of_nat k)). unfold marked, get in M. destruct (Z.ltb_spec (Z.of_nat k) 0); [lia|].
    rewrite Nat2Z.id in M. unfold visits. rewrite lookup_replicate in M.
    transitivity (v !! k = Some true); [by destruct (v !! k) as [[]|]|]. rewrite M. split; [intros [[? _]|]; done|auto].
Qed.

(** ** The advisory passes *)
Definition reaches_hardware (deps : list Z) : Prop :=
  exists d k e, d ∈ deps /\ needs l d k /\ entry_at l k = Some e /\ c_type e = CAP_HARDWARE.

Lemma existsb_slots (f : nat * option can_entry -> bool) :
  existsb f (imap pair l) = true <-> exists i p, l !! i = Some p /\ f (i, p) = true.
Proof.
  rewrite existsb_exists. split.
  - intros ([i p] & H%list_elem_of_In & Hf). apply list_elem_of_lookup in H as [j Hj]. rewrite list_lookup_imap in Hj.
    destruct (l !! j) as [q|] eqn:Eq; [|done]. cbn in Hj. injection Hj as <- <-. eauto.
  - intros (i & p & H & Hf). exists (i, p). split; [|done]. apply list_elem_of_In, list_elem_of_lookup. exists i. by rewrite list_lookup_imap, H.
Qed.

Lemma pass5_spec name type deps : (forall d, d ∈ deps -> is_Some (entry_at l d)) ->
  exists w, pass5 l name type deps = Some w /\ (w = [] \/ w = [Warn_no_hardware name]) /\
    (w <> [] <-> type <> CAP_HARDWARE /\ deps <> [] /\ ~ reaches_hardware deps).
Proof.
  intros Hd. unfold pass5. destruct (Z.eqb_spec type CAP_HARDWARE); cbn [orb]; [exists []; naive_solver|].
  case_bool_decide; [exists []; naive_solver|]. destruct (dfs_walks_spec deps Hd) as (v & E & Hv). rewrite E. cbn [mbind option_bind].
  eexists. split; [reflexivity|]. set (b := existsb _ _). assert (b = true <-> reaches_hardware deps) as Hb.
  { unfold b. rewrite existsb_slots. split.
    - intros (i & [e|] & Hi & Hf); [|by rewrite andb_false_r in Hf]. apply andb_prop in Hf as [Hf1%Hv Hf2%andb_prop].
      destruct Hf1 as (d & Hdd & Hn), Hf2 as [Hf2%Z.eqb_eq _]. exists d, (Z.of_nat i), e. split_and!; try done.
      apply entry_at_Some. rewrite Nat2Z.id. split; [lia|done].
    - intros (d & k & e & Hdd & Hn & He & Ht). exists (Z.to_nat k), (Some e). pose proof (we_live _ _ _ (proj2 Hwf _ _ He)) as Hl.
      apply entry_at_Some in He as [Hk He]. split; [done|]. apply andb_true_intro. split; [apply Hv; exists d; by rewrite Z2Nat.id|].
      rewrite Hl, Ht. done. }
  destruct b; [split; [by left|]|split; [by right|]]; naive_solver.
Qed.

Lemma redundant_via_spec deps i di : (forall d, d ∈ deps -> is_Some (entry_at l d)) -> deps !! i = Some di ->
  forall n j, (j + n = length deps)%nat -> exists via, redundant_via l deps i n j = Some via /\
    (via <> None <-> exists x dx, (j <= x)%nat /\ x <> i /\ deps !! x = Some dx /\ tc (dep_of l) dx di).
Proof.
  intros Hd Hi. induction n as [|n IH]; intros j Hj; cbn [redundant_via].
  { exists None. split; [done|]. split; [done|]. intros (x & dx & Hx & _ & Hlt%lookup_lt_Some & _). lia. }
  destruct (IH (S j) ltac:(lia)) as (via & E & Hvia). destruct (decide (i = j)) as [->|Hne].
  { exists via. split; [done|]. rewrite Hvia. split; intros (x & dx & ? & ? & ? & ?); exists x, dx; split_and!; try done; lia. }
  destruct (lookup_lt_is_Some_2 deps j) as [dj Hdj]; [lia|]. destruct (Hd dj) as [ej Hej]; [by eapply list_elem_of_lookup_2|].
  rewrite Hdj. cbn [mbind option_bind]. rewrite Hej. cbn [mbind option_bind].
  destruct (dfs_walks_spec (c_deps ej)) as (v & Ev & Hv); [intros d Hdd; apply (Hclosed dj); by exists ej|]. rewrite Ev, Hi. cbn [mbind option_bind].
  destruct (Hd di) as [ei Hei]; [by eapply list_elem_of_lookup_2|]. apply entry_at_bound in Hei as Hib.
  assert (default false (get v di) = true <-> tc (dep_of l) dj di) as Htc.
  { unfold get. destruct (Z.ltb_spec di 0); [lia|]. fold (visits v (Z.to_nat di)). rewrite Hv, Z2Nat.id by lia. split.
    - intros (d & Hdd & Hn). eapply tc_rtc_r; [apply tc_once; by exists ej|done].
    - intros Ht. assert (exists d, dep_of l dj d /\ needs l d di) as (d & (e & He & Hdd) & Hn).
      { destruct Ht as [x y Hx|x y z Hx Ht]; [by exists y|exists y; split; [done|by apply tc_rtc]]. }
      rewrite Hej in He. injection He as <-. eauto. }
  destruct (default false (get v di)).
  - exists (Some j). split; [done|]. split; [intros _|done]. exists j, dj. split_and!; [lia|done|done|by apply Htc].
  - exists via. split; [done|]. rewrite Hvia. split; intros (x & dx & Hx & Hxi & Hdx & Ht).
    + exists x, dx. split_and!; try done; lia.
    + exists x, dx. split_and!; try done. destruct (decide (x = j)) as [->|]; [|lia]. rewrite Hdj in Hdx. injection Hdx as <-. by apply Htc in Ht.
Qed.

Lemma pass6_total name dep_names deps : (forall d, d ∈ deps -> is_Some (entry_at l d)) -> is_Some (pass6 l name dep_names deps).
Proof.
  intros Hd. unfold pass6. destruct (_ <=? 1); [done|].
  match goal with |- context [mapM ?f ?xs] => assert (is_Some (mapM f xs)) as [ws ->]; [|done] end.
  apply mapM_is_Some_2, Forall_forall. intros i Hi%elem_of_seq. destruct (lookup_lt_is_Some_2 deps i) as [di Hdi]; [lia|].
  destruct (redundant_via_spec deps i di Hd Hdi (length deps) 0 eq_refl) as (via & E & _). unfold compose. by rewrite E.
Qed.

Lemma pass4_total name deps : (forall d, d ∈ deps -> is_Some (entry_at l d)) -> is_Some (pass4 l name deps).
Proof.
  intros Hd. unfold pass4. case_bool_decide; [done|]. destruct (dfs_walks_spec deps Hd) as (v & -> & _). done.
Qed.

End dfs.

(** ** Names and dependencies *)
Lemma resolve_name_spec l name : forall j, Forall is_Some l ->
  exists r, resolve_name l j name = Some r /\
    match r with
    | Some k => j <= k /\ exists e, l !! Z.to_nat (k - j) = Some (Some e) /\ named name (Some e) = true
    | None => existsb (named name) l = false
    end.
Proof.
  induction l as [|[e|] l IH]; intros j Hl; cbn [resolve_name existsb]; [by exists None| |].
  - apply Forall_cons in Hl as [_ Hl]. destruct (named name (Some e)) eqn:En.
    + exists (Some j). split; [done|]. split; [lia|]. exists e. by rewrite Z.sub_diag.
    + destruct (IH (j + 1) Hl) as (r & -> & Hr). exists r. split; [done|]. destruct r as [k|]; [|done]. destruct Hr as (Hk & e' & He' & Hn).
      split; [lia|]. exists e'. split; [|done]. replace (Z.to_nat (k - j)) with (S (Z.to_nat (k - (j + 1)))) by lia. done.
  - by apply Forall_cons in Hl as [[? ?] _].
Qed.

Definition resolves (l : slots) (j : Z) (d : option (list Z)) : Prop :=
  exists e nm, d = Some nm /\ entry_at l j = Some e /\ named nm (Some e) = true.

Lemma resolve_deps_spec l name names n : Forall is_Some l -> forall i, (forall ns, names = Some ns -> (i + n <= length ns)%nat) ->
  exists r, resolve_deps l name names n (Z.of_nat i) = Some r /\
    match r with
    | inl e => e = CAP_ERR_DEP_UNRESOLVED \/ e = CAP_ERR_DEP_SELF
    | inr js => Forall2 (resolves l) js (take n (drop i (default [] names)))
    end.
Proof.
  intros Hl. induction n as [|n IH]; intros i Hn; cbn [resolve_deps]; [exists (inr []); by rewrite take_0|].
  destruct names as [ns|]; [|exists (inl CAP_ERR_DEP_UNRESOLVED); auto]. specialize (Hn ns eq_refl) as Hn'.
  destruct (lookup_lt_is_Some_2 ns i) as [p Hp]; [lia|]. unfold get. destruct (Z.ltb_spec (Z.of_nat i) 0); [lia|]. rewrite Nat2Z.id, Hp.
  destruct p as [d|]; [|exists (inl CAP_ERR_DEP_UNRESOLVED); auto]. case_bool_decide; [exists (inl CAP_ERR_DEP_UNRESOLVED); auto|].
  destruct (cap_strcmp d name =? 0); [exists (inl CAP_ERR_DEP_SELF); auto|].
  destruct (resolve_name_spec l d 0 Hl) as (r & -> & Hr). cbn [mbind option_bind]. destruct r as [j|]; [|exists (inl CAP_ERR_DEP_UNRESOLVED); auto].
  destruct (IH (S i)) as (r & E & Hrest); [intros ns' [= <-]; lia|]. replace (Z.of_nat i + 1) with (Z.of_nat (S i)) by lia. rewrite E. cbn [mbind option_bind].
  destruct r as [e|js]; [by exists (inl e)|]. exists (inr (j :: js)). split; [done|]. change (default [] (Some ns)) with ns in *.
  rewrite (drop_S ns _ i Hp). constructor; [|done]. destruct Hr as (Hj & e & He & Hnm). exists e, d. split; [done|]. split; [|done].
  apply entry_at_Some. split; [lia|]. by rewrite Z.sub_0_r in He.
Qed.

Lemma layers_ok_spec l type deps : (forall d, d ∈ deps -> is_Some (entry_at l d)) -> exists b, layers_ok l type deps = Some b /\
  (b = true <-> forall d e, d ∈ deps -> entry_at l d = Some e -> layer_allows_dep type (c_type e) = true).
Proof.
  intros Hd. unfold layers_ok. assert (is_Some (mapM (fun d => c_type <$> entry_at l d) deps)) as [ts Ets].
  { apply mapM_is_Some_2, Forall_forall. intros d Hdd. unfold compose. by destruct (Hd d Hdd) as [e ->]. }
  rewrite Ets. eexists. split; [done|]. apply mapM_Some in Ets. rewrite forallb_forall. split.
  - intros H d e Hdd He. apply list_elem_of_lookup in Hdd as [i Hi]. destruct (Forall2_lookup_l _ _ _ _ _ Ets Hi) as (t & Ht & E).
    rewrite He in E. injection E as <-. by apply H, list_elem_of_In, list_elem_of_lookup_2 with i.
  - intros H t Ht%list_elem_of_In. apply list_elem_of_lookup in Ht as [i Hi]. destruct (Forall2_lookup_r _ _ _ _ _ Ets Hi) as (d & Hdd & E).
    destruct (entry_at l d) as [e|] eqn:He; [|done]. injection E as <-. eapply H; [by eapply list_elem_of_lookup_2|done].
Qed.

(** ** The passes together *)
Definition clamp (dep_count : Z) : Z := Z.min (Z.max dep_count 0) MAX_CAP_DEPS.

(** What the caller owes: arrays as long as the counts it gives. *)
Definition arrays_ok (dep_names : option (list (option (list Z)))) (dep_count : Z) (ops : option (list cap_op)) (op_count : Z) : Prop :=
  (forall ns, dep_names = Some ns -> clamp dep_count <= Z.of_nat (length ns)) /\
  (forall os, ops = Some os -> 0 <= op_count /\ Z.min op_count MAX_CAP_OPS <= Z.of_nat (length os)).

Record compiled (l : slots) (name : list Z) (type : Z) (names : list (option (list Z))) (dep_count : Z) (deps : list Z) : Prop := {
  cp_name : name <> [] /\ existsb (named name) l = false;
  cp_room : Z.of_nat (length l) < MAX_CAPABILITIES;
  cp_deps : Forall2 (resolves l) deps (take (Z.to_nat (clamp dep_count)) names);
  cp_layers : forall d e, d ∈ deps -> entry_at l d = Some e -> layer_allows_dep type (c_type e) = true;
  cp_hardware : type = CAP_HARDWARE -> deps = []
}.

Lemma resolves_live l deps names : Forall2 (resolves l) deps names -> forall d, d ∈ deps -> is_Some (entry_at l d).
Proof. intros H d [i Hi]%list_elem_of_lookup. destruct (Forall2_lookup_l _ _ _ _ _ H Hi) as (nm & _ & e & ? & _ & ? & _). by exists e. Qed.

Lemma cap_compile_spec l name type names dep_count : wf_can l -> closed l -> Forall is_Some l ->
  (forall ns, names = Some ns -> clamp dep_count <= Z.of_nat (length ns)) ->
  exists r, cap_compile l name type names dep_count = Some r /\
    match r with
    | inl e => e < 0
    | inr (deps, _) => exists nm, name = Some nm /\ compiled l nm type (default [] names) dep_count deps
    end.
Proof.
  intros Hw Hc Hl Hn. unfold cap_compile. destruct name as [[|c nm]|]; [by exists (inl CAP_ERR_NAME_EMPTY)| |by exists (inl CAP_ERR_NAME_EMPTY)].
  set (nm' := c :: nm). destruct (existsb (named nm') l) eqn:Ed; [by exists (inl CAP_ERR_NAME_DUPLICATE)|].
  destruct (Z.geb_spec (Z.of_nat (length l)) MAX_CAPABILITIES); [by exists (inl CAP_ERR_REGISTRY_FULL)|].
  fold (clamp dep_count). assert (0 <= clamp dep_count <= 8) as Hcl by (unfold clamp; lia).
  destruct ((type =? CAP_HARDWARE) && (clamp dep_count >? 0)) eqn:Eh; [by exists (inl CAP_ERR_HW_HAS_DEPS)|].
  destruct (resolve_deps_spec l nm' names (Z.to_nat (clamp dep_count)) Hl 0) as (r & E & Hr); [intros ns Hns; specialize (Hn ns Hns); lia|].
  change (Z.of_nat 0) with 0 in E. rewrite E. cbn [mbind option_bind]. destruct r as [e|deps]; [exists (inl e); split; [done|lia]|].
  rewrite drop_0 in Hr. pose proof (resolves_live _ _ _ Hr) as Hd. destruct (layers_ok_spec l type deps Hd) as (b & Eb & Hb). rewrite Eb. cbn [mbind option_bind].
  destruct b; cbn [negb]; [|by exists (inl CAP_ERR_LAYER_VIOLATION)].
  destruct (pass4_total l Hw Hc nm' deps Hd) as [b4 E4]. rewrite E4. cbn [mbind option_bind]. destruct b4; cbn [negb]; [|by exists (inl CAP_ERR_CYCLE)].
  destruct (pass5_spec l Hw Hc nm' type deps Hd) as (w5 & E5 & _). rewrite E5. cbn [mbind option_bind].
  destruct (pass6_total l Hw Hc nm' (map (default []) (default [] names)) deps Hd) as [w6 E6]. rewrite E6. cbn [mbind option_bind].
  eexists. split; [reflexivity|]. exists nm'. split; [done|]. split; try done; [by apply Hb|]. intros ->. cbn [Z.eqb andb] in Eh.
  assert (clamp dep_count = 0) as E0 by lia. rewrite E0 in Hr. by apply Forall2_length in Hr; destruct deps.
Qed.

(** ** The paired object *)
Definition can_object (id : Z) : cap_object :=
  new_object CAP_KIND_CAN RIGHTS_ALL (Some public_audience) (CAP_FLAG_IMMORTAL |. CAP_FLAG_PUBLIC) id PID_KERNEL CAP_OBJECT_IDX_NONE.

(** Each entry is unpaired or has its own object in the registry. *)
Definition paired (s : can) : Prop := forall i e, entry_at (g_can_entry_ptrs s) i = Some e ->
  c_object_idx e = CAP_OBJECT_IDX_NONE \/
  1 <= c_object_idx e < CAP_OBJECT_CAPACITY /\ g_cap_object_ptrs (reg (can_world s)) !! c_object_idx e = Some (can_object i).

Lemma create_can_object ok s id : exists s' r,
  cap_object_create ok s CAP_KIND_CAN RIGHTS_ALL (Some public_audience) (CAP_FLAG_IMMORTAL |. CAP_FLAG_PUBLIC) id PID_KERNEL CAP_OBJECT_IDX_NONE
    = (s', r) /\
  (r < 0 /\ s' = s \/ 1 <= r < CAP_OBJECT_CAPACITY /\ g_cap_object_ptrs s !! r = None /\ s' = publish_slot s r (can_object id)).
Proof.
  unfold cap_object_create. destruct (cache_ready s); cbn [negb]; [|eexists _, _; split; [done|by left]].
  destruct ok; cbn [negb]; [|eexists _, _; split; [done|by left]].
  destruct (find_free_slot_spec s) as [[-> _]|(Hr & Hn & _)]; [eexists _, _; split; [done|by left]|].
  set (r := cap_object_find_free_slot_locked s) in *. clearbody r. destruct (Z.eqb_spec r CAP_OBJECT_IDX_NONE) as [->|_]; [unfold CAP_OBJECT_IDX_NONE, CAP_OBJECT_CAPACITY in Hr; lia|].
  eexists _, _. split; [reflexivity|]. right. done.
Qed.

(** ** A registered entry *)
Record registered (s : can) (name : list Z) (type subtype owner : Z) (names : list (option (list Z))) (dep_count : Z) (s' : can) (cap : can_entry) : Prop := {
  rg_slots : g_can_entry_ptrs s' = g_can_entry_ptrs s ++ [Some cap];
  rg_compiled : compiled (g_can_entry_ptrs s) name type names dep_count (c_deps cap);
  rg_fields : c_name cap = cap_strcpy name CAP_NAME_LEN /\ c_type cap = type /\ c_subtype cap = subtype /\ c_owner_pid cap = owner /\
    c_deleted cap = false /\ c_watchers cap = [] /\ c_refuse_fn cap = false;
  rg_state : c_state cap = if type =? CAP_HARDWARE then CAP_STATE_ON else CAP_STATE_OFF;
  rg_rest : can_caller s' = can_caller s /\ callbacks s' = callbacks s;
  rg_object : can_world s' = can_world s /\ c_object_idx cap = CAP_OBJECT_IDX_NONE \/
    1 <= c_object_idx cap < CAP_OBJECT_CAPACITY /\ g_cap_object_ptrs (reg (can_world s)) !! c_object_idx cap = None /\
    can_world s' = set_reg (can_world s) (publish_slot (reg (can_world s)) (c_object_idx cap) (can_object (Z.of_nat (length (g_can_entry_ptrs s)))))
}.

Lemma upd_last (l : slots) p q : upd (l ++ [p]) (Z.of_nat (length l)) q = l ++ [q].
Proof. unfold upd. rewrite Nat2Z.id, <- (Nat.add_0_r (length l)). by rewrite insert_app_r. Qed.

Lemma pair_object_spec ok s l cap : g_can_entry_ptrs s = l ++ [Some cap] -> exists s' cap', pair_object ok (Z.of_nat (length l)) s = Some (s', tt) /\
  g_can_entry_ptrs s' = l ++ [Some cap'] /\ can_caller s' = can_caller s /\ callbacks s' = callbacks s /\
  (cap' = cap /\ can_world s' = can_world s \/
   exists r, cap' = {| cap with c_object_idx := r |} /\ 1 <= r < CAP_OBJECT_CAPACITY /\ g_cap_object_ptrs (reg (can_world s)) !! r = None /\
     can_world s' = set_reg (can_world s) (publish_slot (reg (can_world s)) r (can_object (Z.of_nat (length l))))).
Proof.
  intros El. unfold pair_object. destruct (create_can_object ok (reg (can_world s)) (Z.of_nat (length l))) as (s1 & r & -> & [[Hr ->]|(Hr & Hn & ->)]).
  - destruct (Z.ltb_spec r 0); [|lia]. eexists _, cap. split; [done|]. cbn. split_and!; try done. left. split; [done|]. by destruct (can_world s).
  - destruct (Z.ltb_spec r 0); [lia|]. unfold update. cbn [g_can_entry_ptrs]. rewrite El.
    assert (get (l ++ [Some cap]) (Z.of_nat (length l)) = Some (Some cap)) as ->.
    { apply entry_at_get. by rewrite entry_at_app, Z.eqb_refl. }
    rewrite upd_last. eexists _, _. split; [done|]. cbn. split_and!; try done. right. by exists r.
Qed.

Lemma copy_ops_total dep_names dep_count ops op_count : arrays_ok dep_names dep_count ops op_count -> is_Some (copy_ops ops op_count).
Proof.
  intros [_ H]. unfold copy_ops. destruct ops as [os|]; [|done]. destruct (H os eq_refl) as [H0 H1].
  set (n := if op_count >? MAX_CAP_OPS then _ else _). assert (n <= MAX_CAP_OPS /\ n <= Z.of_nat (length os)) as [Hn1 Hn2].
  { unfold n. destruct (Z.gtb_spec op_count MAX_CAP_OPS); [lia|]. rewrite wrap_small by (unfold in_u; lia). lia. }
  destruct (Z.gtb_spec n MAX_CAP_OPS); [lia|]. destruct (Z.gtb_spec n (Z.of_nat (length os))); [lia|]. done.
Qed.

Lemma cap_register_spec slab obj s name type subtype owner names dep_count act deact ops op_count stats :
  wf_can (g_can_entry_ptrs s) -> closed (g_can_entry_ptrs s) -> Forall is_Some (g_can_entry_ptrs s) -> arrays_ok names dep_count ops op_count ->
  exists s' r, cap_register slab obj name type subtype owner names dep_count act deact ops op_count stats s = Some (s', r) /\
    (r < 0 /\ g_can_entry_ptrs s' = g_can_entry_ptrs s /\ can_world s' = can_world s /\ can_caller s' = can_caller s /\ callbacks s' = callbacks s \/
     r = g_cap_count s /\ exists nm cap, name = Some nm /\ registered s nm type subtype owner (default [] names) dep_count s' cap).
Proof.
  intros Hw Hc Hl Ha. unfold cap_register. destruct (cap_compile_spec (g_can_entry_ptrs s) name type names dep_count Hw Hc Hl (proj1 Ha)) as (r & Er & Hr).
  rewrite Er. cbn [mbind option_bind]. destruct r as [e|[deps ws]]; [eexists _, _; split; [done|by left]|]. destruct Hr as (nm & -> & Hcomp).
  destruct slab; cbn [negb]; [|eexists _, _; split; [done|by left]]. destruct (copy_ops_total _ _ _ _ Ha) as [[n os] Eo]. rewrite Eo. cbn [mbind option_bind].
  change (default [] (Some nm)) with nm. set (cap := new_entry nm _ _ _ _ _ _ _ _ _ _). set (s1 := set_entries _ _).
  destruct (pair_object_spec obj s1 (g_can_entry_ptrs s) cap eq_refl) as (s2 & cap' & E2 & L2 & C2 & B2 & Hobj).
  unfold mbind at 1, M_bind at 1. change (g_cap_count _) with (Z.of_nat (length (g_can_entry_ptrs s))). rewrite E2.
  assert (entry_at (g_can_entry_ptrs s2) (Z.of_nat (length (g_can_entry_ptrs s))) = Some cap') as He by (by rewrite L2, entry_at_app, Z.eqb_refl).
  unfold mbind, M_bind, deref. rewrite (entry_at_get _ _ _ He). eexists _, _. split; [reflexivity|]. right. split; [done|]. exists nm, cap'.
  split; [done|]. destruct Hobj as [[-> Hworld]|(r & -> & Hr1 & Hr2 & Hr3)]; (split; cbn; try done); [by left|by right].
Qed.

(** ** The invariant after a registration *)
Lemma dep_of_app l cap i d : dep_of (l ++ [Some cap]) i d -> dep_of l i d \/ i = Z.of_nat (length l) /\ d ∈ c_deps cap.
Proof.
  intros (e & He & Hd). rewrite entry_at_app in He. destruct (Z.eqb_spec i (Z.of_nat (length l))); [injection He as ->; auto|]. left. by exists e.
Qed.

Lemma entry_at_old (l : slots) p k e : entry_at l k = Some e -> entry_at (l ++ [p]) k = Some e.
Proof. intros He. rewrite entry_at_app. apply entry_at_bound in He as Hb. destruct (Z.eqb_spec k (Z.of_nat (length l))); [lia|done]. Qed.

Lemma compiled_live l nm type names dc deps : compiled l nm type names dc deps -> forall d, d ∈ deps -> is_Some (entry_at l d) /\ 0 <= d < Z.of_nat (length l).
Proof. intros H d Hd. destruct (resolves_live _ _ _ (cp_deps _ _ _ _ _ _ H) d Hd) as [e He]. split; [by exists e|by eapply entry_at_bound]. Qed.

Lemma registered_wf s nm type subtype owner names dc s' cap : registered s nm type subtype owner names dc s' cap ->
  wf_can (g_can_entry_ptrs s) -> wf_can (g_can_entry_ptrs s').
Proof.
  intros [-> Hcp (Hn & Ht & _ & _ & Hdel & Hwt & _) _ _ _] [Hlen Hw]. set (l := g_can_entry_ptrs s) in *. pose proof (compiled_live _ _ _ _ _ _ Hcp) as Hd.
  split; [rewrite length_app; cbn; pose proof (cp_room _ _ _ _ _ _ Hcp); lia|]. intros i e He. rewrite entry_at_app in He. destruct (Z.eqb_spec i (Z.of_nat (length l))) as [->|Hne].
  - injection He as ->. split.
    + intros d Hdd. by apply Hd.
    + intros d e' Hdd He'. rewrite Ht. apply (cp_layers _ _ _ _ _ _ Hcp d); [done|]. destruct (Hd d Hdd) as [[e2 He2] _]. by rewrite (entry_at_old _ _ _ _ He2) in He'; rewrite <- He'.
    + rewrite (Forall2_length _ _ _ (cp_deps _ _ _ _ _ _ Hcp)), length_take. unfold clamp. lia.
    + rewrite Hn. unfold cap_strcpy. rewrite length_take. pose proof (proj1 (cp_name _ _ _ _ _ _ Hcp)). destruct nm; [done|]. cbn [length]. lia.
    + done.
    + rewrite Hwt. split; [constructor|cbn; lia].
  - destruct (Hw i e He) as [H1 H2 H3 H4 H5 H6]. split; try done. intros d e' Hdd He'. apply (H2 d); [done|]. rewrite entry_at_app in He'.
    destruct (Z.eqb_spec d (Z.of_nat (length l))); [|done]. specialize (H1 d Hdd). apply entry_at_bound in He. lia.
Qed.

Lemma registered_closed s nm type subtype owner names dc s' cap : registered s nm type subtype owner names dc s' cap ->
  closed (g_can_entry_ptrs s) -> closed (g_can_entry_ptrs s').
Proof.
  intros [-> Hcp _ _ _ _] Hc i d [Hd|[-> Hd]]%dep_of_app.
  - destruct (Hc i d Hd) as [e He]. exists e. by apply entry_at_old.
  - destruct (compiled_live _ _ _ _ _ _ Hcp d Hd) as [[e He] _]. exists e. by apply entry_at_old.
Qed.

Lemma registered_coherent s nm type subtype owner names dc s' cap : registered s nm type subtype owner names dc s' cap ->
  coherent (g_can_entry_ptrs s) -> coherent (g_can_entry_ptrs s').
Proof.
  intros [-> Hcp (_ & Ht & _) Hst _ _] Hc i d (e & He & Hon) Hd. rewrite entry_at_app in He.
  apply dep_of_app in Hd as [Hd|[-> Hd]].
  - destruct (Z.eqb_spec i (Z.of_nat (length (g_can_entry_ptrs s)))) as [->|].
    + destruct Hd as (e' & He'%entry_at_bound & _). lia.
    + destruct (Hc i d) as (ed & Hed & Hs); [by exists e|done|]. exists ed. split; [by apply entry_at_old|done].
  - rewrite Z.eqb_refl in He. injection He as <-. rewrite Hst in Hon. destruct (Z.eqb_spec type CAP_HARDWARE); [|done].
    rewrite (cp_hardware _ _ _ _ _ _ Hcp) in Hd by done. by apply elem_of_nil in Hd.
Qed.

Lemma registered_starting s nm type subtype owner names dc s' cap k : registered s nm type subtype owner names dc s' cap ->
  starting (g_can_entry_ptrs s') k -> starting (g_can_entry_ptrs s) k.
Proof.
  intros [-> _ _ Hst _ _] (e & He & Hs). rewrite entry_at_app in He.
  destruct (Z.eqb_spec k (Z.of_nat (length (g_can_entry_ptrs s)))); [|by exists e].
  injection He as ->. rewrite Hst in Hs. by destruct (type =? CAP_HARDWARE).
Qed.

Lemma registered_paired s nm type subtype owner names dc s' cap : registered s nm type subtype owner names dc s' cap ->
  paired s -> paired s'.
Proof.
  intros [El _ _ _ _ Hobj] Hp i e He. rewrite El, entry_at_app in He. destruct (Z.eqb_spec i (Z.of_nat (length (g_can_entry_ptrs s)))) as [->|].
  - injection He as ->. destruct Hobj as [[_ ?]|(Hr & _ & ->)]; [by left|right]. split; [done|]. unfold set_reg, publish_slot. cbn [reg g_cap_object_ptrs]. by rewrite lookup_insert_eq.
  - destruct (Hp i e He) as [|[Hr Ho]]; [by left|right]. split; [done|]. destruct Hobj as [[-> _]|(_ & Hn & ->)]; [done|]. unfold set_reg, publish_slot. cbn [reg g_cap_object_ptrs].
    rewrite lookup_insert_ne; [done|]. intros E. rewrite E in Hn. congruence.
Qed.

Lemma registered_live s nm type subtype owner names dc s' cap : registered s nm type subtype owner names dc s' cap ->
  Forall is_Some (g_can_entry_ptrs s) -> Forall is_Some (g_can_entry_ptrs s').
Proof. intros [-> _ _ _ _ _] H. apply Forall_app. split; [done|]. by apply list.Forall_singleton. Qed.
