(* ===== verification/CanActivate.v ===== *)
(** * The activation network: activation

    Activation terminates because dependencies point to earlier entries.  It switches on
    what the entry needs and nothing else, keeps the network coherent whatever the
    callbacks return, and fails only if one of them does. *)
From S2P Require Import Prelude Bytes StateM CapToken CapObject HandleTable Pledge CapSystem Can CanGraph.
Local Open Scope Z_scope.

(** ** Single steps *)
Definition same_rest (s s' : can) : Prop :=
  can_world s' = can_world s /\ can_caller s' = can_caller s /\ callbacks s' = callbacks s.
Definition quiet (s s' : can) : Prop := g_can_entry_ptrs s' = g_can_entry_ptrs s /\ same_rest s s'.

#[export] Instance quiet_preorder : PreOrder quiet.
Proof. split; [done|]. intros s1 s2 s3 (E1 & E2 & E3 & E4) (F1 & F2 & F3 & F4). split; [congruence|]. split; [congruence|]. split; congruence. Qed.

Lemma deref_eq s i e : entry_at (g_can_entry_ptrs s) i = Some e -> deref i s = Some (s, e).
Proof. intros H%entry_at_get. unfold deref. by rewrite H. Qed.

Lemma update_eq s i e f : entry_at (g_can_entry_ptrs s) i = Some e ->
  update i f s = Some (set_entries (upd (g_can_entry_ptrs s) i (Some (f e))) s, tt).
Proof. intros H%entry_at_get. unfold update. by rewrite H. Qed.

Lemma in_range s i e : entry_at (g_can_entry_ptrs s) i = Some e -> out_of_range s i = false.
Proof. intros H%entry_at_bound. unfold out_of_range, g_cap_count. lia. Qed.

Lemma emit_quiet s ev : exists s', can_emit ev s = Some (s', tt) /\ quiet s s'.
Proof. eexists. split; [done|]. done. Qed.

Lemma notify_quiet s i a b e : entry_at (g_can_entry_ptrs s) i = Some e ->
  exists s', notify_if_watched i a b s = Some (s', tt) /\ quiet s s'.
Proof.
  intros He. unfold notify_if_watched, mbind, M_bind. rewrite (deref_eq _ _ _ He). destruct (_ >? 0); [|by eexists].
  unfold cap_notify_watchers, mbind, M_bind, gets. rewrite (in_range _ _ _ He), (deref_eq _ _ _ He).
  destruct (negb _); [by eexists|]. apply emit_quiet.
Qed.

Lemma audit_activate_quiet s i rc e : entry_at (g_can_entry_ptrs s) i = Some e ->
  exists s', audit_activate i rc s = Some (s', tt) /\ quiet s s'.
Proof. intros He. unfold audit_activate, mbind, M_bind. rewrite (deref_eq _ _ _ He). apply emit_quiet. Qed.

Lemma audit_deactivate_quiet s i rc e : entry_at (g_can_entry_ptrs s) i = Some e ->
  exists s', audit_deactivate i rc s = Some (s', tt) /\ quiet s s'.
Proof. intros He. unfold audit_deactivate, mbind, M_bind. rewrite (deref_eq _ _ _ He). apply emit_quiet. Qed.

(** A callback that may be absent. *)
Lemma callback_eq (b : bool) ev s : exists s' r, (if b then callback ev else mret 0) s = Some (s', r) /\
  g_can_entry_ptrs s' = g_can_entry_ptrs s /\ can_world s' = can_world s /\ can_caller s' = can_caller s /\
  (Forall (eq 0) (callbacks s) -> r = 0 /\ Forall (eq 0) (callbacks s')).
Proof.
  destruct b; [|by eexists _, _]. eexists _, _. split; [reflexivity|]. cbn. split_and!; try done.
  intros H. destruct (callbacks s) as [|x xs]; [done|]. by apply Forall_cons in H as [<- ?].
Qed.

(** Writing an entry, then only reporting. *)
Definition wrote (s : can) (i : Z) (e : can_entry) (s' : can) : Prop :=
  g_can_entry_ptrs s' = upd (g_can_entry_ptrs s) i (Some e) /\ same_rest s s'.

Lemma wrote_quiet s i e s1 s2 : wrote s i e s1 -> quiet s1 s2 -> wrote s i e s2.
Proof. intros [E (? & ? & ?)] [E' (? & ? & ?)]. split; [congruence|]. split; [congruence|]. split; congruence. Qed.

Lemma wrote_at s i e0 e s' : entry_at (g_can_entry_ptrs s) i = Some e0 -> wrote s i e s' -> entry_at (g_can_entry_ptrs s') i = Some e.
Proof. intros H%entry_at_bound [-> _]. by rewrite entry_at_upd, Z.eqb_refl. Qed.

Lemma activate_failed_spec s i e rc d : entry_at (g_can_entry_ptrs s) i = Some e ->
  exists s' e', activate_failed i rc d s = Some (s', rc) /\ wrote s i e' s' /\ plain e' = plain e /\ c_state e' = CAP_STATE_ERROR.
Proof.
  intros He. unfold activate_failed. unfold mbind at 1, M_bind at 1. rewrite (update_eq _ _ _ _ He). set (e' := {| e with c_state := _; c_error_dep := _ |}).
  set (s1 := set_entries _ s). assert (wrote s i e' s1) as Hw by done. pose proof (wrote_at _ _ _ _ _ He Hw) as He1.
  destruct (notify_quiet s1 i CAP_STATE_STARTING CAP_STATE_ERROR e' He1) as (s2 & E2 & Q2).
  destruct (audit_activate_quiet s2 i rc e') as (s3 & E3 & Q3); [by destruct Q2 as [-> _]|].
  exists s3, e'. split; [unfold mbind, M_bind; by rewrite E2, E3|]. split; [|done]. by do 2 (eapply wrote_quiet; [|done]).
Qed.

Lemma activate_done_spec s i e : entry_at (g_can_entry_ptrs s) i = Some e ->
  exists s' e', activate_done i s = Some (s', CAP_OK) /\ wrote s i e' s' /\ plain e' = plain e /\ c_state e' = CAP_STATE_ON.
Proof.
  intros He. unfold activate_done. unfold mbind at 1, M_bind at 1. rewrite (update_eq _ _ _ _ He). set (e' := {| e with c_state := _; c_activation_count := _ |}).
  set (s1 := set_entries _ s). assert (wrote s i e' s1) as Hw by done. pose proof (wrote_at _ _ _ _ _ He Hw) as He1.
  destruct (notify_quiet s1 i CAP_STATE_STARTING CAP_STATE_ON e' He1) as (s2 & E2 & Q2).
  destruct (audit_activate_quiet s2 i 0 e') as (s3 & E3 & Q3); [by destruct Q2 as [-> _]|].
  unfold mbind, M_bind. rewrite E2. unfold gets. destruct (negb _).
  - rewrite E3. exists s3, e'. split; [done|]. split; [|done]. by do 2 (eapply wrote_quiet; [|done]).
  - exists s2, e'. split; [done|]. split; [|done]. by eapply wrote_quiet.
Qed.

(** ** What activation may change *)
Record progress (T : Z -> Prop) (s s' : can) : Prop := {
  pr_graph : same_graph (g_can_entry_ptrs s) (g_can_entry_ptrs s');
  pr_world : can_world s' = can_world s;
  pr_caller : can_caller s' = can_caller s;
  pr_kept : forall k e, entry_at (g_can_entry_ptrs s) k = Some e -> ~ T k \/ c_state e = CAP_STATE_ON ->
    entry_at (g_can_entry_ptrs s') k = Some e;
  pr_new : forall k e, entry_at (g_can_entry_ptrs s') k = Some e ->
    entry_at (g_can_entry_ptrs s) k = Some e \/ c_state e = CAP_STATE_ON \/ c_state e = CAP_STATE_ERROR;
  pr_coherent : coherent (g_can_entry_ptrs s) -> coherent (g_can_entry_ptrs s');
  pr_zero : Forall (eq 0) (callbacks s) -> Forall (eq 0) (callbacks s')
}.

Lemma progress_refl T s : progress T s s.
Proof. split; try done. by left. Qed.

Lemma progress_trans T s1 s2 s3 : progress T s1 s2 -> progress T s2 s3 -> progress T s1 s3.
Proof.
  intros [G1 W1 C1 K1 N1 H1 Z1] [G2 W2 C2 K2 N2 H2 Z2]. split; [by etrans|congruence|congruence| | |auto|auto].
  - intros k e He Hk. apply K2; [by apply K1|done].
  - intros k e He. destruct (N2 k e He) as [|]; [by apply N1|by right].
Qed.

Lemma progress_mono (T T' : Z -> Prop) s s' : (forall k, T k -> T' k) -> progress T s s' -> progress T' s s'.
Proof. intros HT [G W C K N H Z]. split; try done. intros k e He [Hk|Hk]; apply K; auto. Qed.

Lemma progress_on T s s' i : progress T s s' -> is_on (g_can_entry_ptrs s) i -> is_on (g_can_entry_ptrs s') i.
Proof. intros Hp (e & He & Hs). exists e. split; [|done]. apply (pr_kept _ _ _ Hp); auto. Qed.

Lemma progress_starting T s s' i : progress T s s' -> starting (g_can_entry_ptrs s') i -> starting (g_can_entry_ptrs s) i.
Proof. intros Hp (e & He & Hs). destruct (pr_new _ _ _ Hp _ _ He) as [|[|]]; [by exists e|congruence|congruence]. Qed.

(** Changing the state of an entry that is not on. *)
Lemma coherent_upd l i e e' : coherent l -> entry_at l i = Some e -> c_state e <> CAP_STATE_ON -> plain e' = plain e ->
  (c_state e' = CAP_STATE_ON -> forall d, d ∈ c_deps e -> is_on l d) -> coherent (upd l i (Some e')).
Proof.
  intros Hc He Hs Hp Hon k d (ek & Hk & Hks) (ek' & Hk' & Hd). rewrite Hk in Hk'. injection Hk' as <-.
  pose proof (entry_at_bound _ _ _ He) as Hb. assert (forall x, is_on l x -> is_on (upd l i (Some e')) x) as Hup.
  { intros x (ex & Hx & Hxs). exists ex. split; [|done]. rewrite entry_at_upd by done. destruct (Z.eqb_spec x i) as [->|]; [congruence|done]. }
  apply Hup. rewrite entry_at_upd in Hk by done. destruct (Z.eqb_spec k i) as [->|].
  - injection Hk as ->. apply Hon; [done|]. by rewrite <- (plain_deps _ _ Hp).
  - eapply Hc; [by exists ek|by exists ek].
Qed.

(** The ready states: what the recursion needs of a call for entry [i]. *)
Record ready (s : can) (i : Z) : Prop := {
  rd_wf : wf_can (g_can_entry_ptrs s);
  rd_closed : closed (g_can_entry_ptrs s);
  rd_coherent : coherent (g_can_entry_ptrs s);
  rd_live : is_Some (entry_at (g_can_entry_ptrs s) i);
  rd_starting : forall k, starting (g_can_entry_ptrs s) k -> i < k
}.

Lemma ready_progress T s s' i : progress T s s' -> ready s i -> ready s' i.
Proof.
  intros Hp [H1 H2 H3 [e H4] H5]. pose proof (pr_graph _ _ _ Hp) as Hg. split; [by eapply wf_same_graph|by eapply closed_same_graph|by apply Hp| |].
  - destruct (same_graph_entry _ _ _ _ (symmetry Hg) H4) as (e' & ? & _). by exists e'.
  - intros k Hk. by apply H5, (progress_starting _ _ _ _ Hp).
Qed.

Definition activation_result (s' : can) (i r : Z) : Prop :=
  r = CAP_OK /\ is_on (g_can_entry_ptrs s') i \/
  (r = CAP_ERR_DEP_FAILED \/ r = CAP_ERR_ACTIVATE_FAIL) /\
  exists e, entry_at (g_can_entry_ptrs s') i = Some e /\ c_state e = CAP_STATE_ERROR.

Definition activates (activate : Z -> M can Z) (i : Z) : Prop := forall s, ready s i ->
  exists s' r, activate i s = Some (s', r) /\ progress (needs (g_can_entry_ptrs s) i) s s' /\ activation_result s' i r /\
    (Forall (eq 0) (callbacks s) -> r = CAP_OK).

Lemma activate_deps_spec activate deps : (forall d, d ∈ deps -> in_s 32 d /\ activates activate d) ->
  forall s, (forall d, d ∈ deps -> ready s d) ->
  exists s' r, activate_deps activate deps s = Some (s', r) /\
    progress (fun k => exists d, d ∈ deps /\ needs (g_can_entry_ptrs s) d k) s s' /\
    (r = None -> forall d, d ∈ deps -> is_on (g_can_entry_ptrs s') d) /\ (forall d, r = Some d -> d ∈ deps) /\
    (Forall (eq 0) (callbacks s) -> r = None).
Proof.
  induction deps as [|d deps IH]; intros Hact s Hr; cbn [activate_deps].
  { exists s, None. split; [done|]. split; [apply progress_refl|]. split; [|done]. intros _ d Hd. by apply elem_of_nil in Hd. }
  destruct (Hact d ltac:(left)) as [Hd32 Hd]. destruct (Hd s) as (s1 & r1 & E1 & P1 & R1 & Z1); [apply Hr; left|].
  unfold mbind, M_bind. rewrite swrap_small, E1 by done.
  assert (progress (fun k => exists d0, d0 ∈ d :: deps /\ needs (g_can_entry_ptrs s) d0 k) s s1) as P1'.
  { eapply progress_mono; [|exact P1]. intros k Hk. exists d. split; [left|done]. }
  destruct R1 as [[-> Hon]|[Hr1 Herr]]; cbn [Z.eqb].
  2: { destruct (Z.eqb_spec r1 CAP_OK); [lia|]. exists s1, (Some d). split; [done|]. split; [done|]. split; [done|].
       split; [intros ? [= <-]; left|]. intros Hz. by apply Z1 in Hz. }
  destruct (IH ltac:(intros; apply Hact; by right) s1) as (s2 & r2 & E2 & P2 & H2 & H3 & H4).
  { intros d' Hd'. eapply ready_progress; [exact P1|]. apply Hr. by right. }
  exists s2, r2. split; [done|]. split; [|split; [|split]].
  - eapply progress_trans; [exact P1'|]. eapply progress_mono; [|exact P2]. intros k (d' & Hd' & Hk). exists d'. split; [by right|].
    eapply same_graph_needs; [apply P1|done].
  - intros Hn d' [->|Hd']%elem_of_cons; [by eapply progress_on|auto].
  - intros d' Hd'. right. auto.
  - intros Hz. by apply H4, P1.
Qed.

(** From the moment the entry is marked as starting to its final state. *)
Lemma progress_finish s i e s1 e1 s2 s3 e3 : ready s i -> entry_at (g_can_entry_ptrs s) i = Some e -> c_state e <> CAP_STATE_ON ->
  wrote s i e1 s1 -> plain e1 = plain e -> c_state e1 = CAP_STATE_STARTING ->
  progress (fun k => exists d, d ∈ c_deps e /\ needs (g_can_entry_ptrs s1) d k) s1 s2 ->
  wrote s2 i e3 s3 -> plain e3 = plain e1 -> c_state e3 = CAP_STATE_ON \/ c_state e3 = CAP_STATE_ERROR ->
  (c_state e3 = CAP_STATE_ON -> forall d, d ∈ c_deps e -> is_on (g_can_entry_ptrs s2) d) ->
  progress (needs (g_can_entry_ptrs s) i) s s3.
Proof.
  intros Hr He Hs [E1 (W1 & C1 & B1)] Hp1 Hs1 P [E3 (W3 & C3 & B3)] Hp3 Hs3 Hon. pose proof (entry_at_bound _ _ _ He) as Hb.
  assert (same_graph (g_can_entry_ptrs s) (g_can_entry_ptrs s1)) as G1 by (rewrite E1; by eapply same_graph_upd).
  assert (entry_at (g_can_entry_ptrs s1) i = Some e1) as He1 by (rewrite E1, entry_at_upd, Z.eqb_refl; done).
  assert (entry_at (g_can_entry_ptrs s2) i = Some e1) as He2.
  { apply (pr_kept _ _ _ P); [done|]. left. intros (d & Hd & Hn). apply (needs_le _ _ _ (wf_same_graph _ _ (rd_wf _ _ Hr) G1)) in Hn.
    apply (we_deps _ _ _ (proj2 (rd_wf _ _ Hr) _ _ He)) in Hd. lia. }
  pose proof (entry_at_bound _ _ _ He2) as Hb2. split.
  - etrans; [exact G1|]. etrans; [apply P|]. rewrite E3. by eapply same_graph_upd.
  - rewrite W3, (pr_world _ _ _ P). done.
  - rewrite C3, (pr_caller _ _ _ P). done.
  - intros k ek Hk Hkeep. assert (k <> i) as Hki by (intros ->; destruct Hkeep as [H|H]; [by apply H|congruence]).
    rewrite E3, entry_at_upd by done. destruct (Z.eqb_spec k i); [done|]. apply (pr_kept _ _ _ P).
    + rewrite E1, entry_at_upd by done. by destruct (Z.eqb_spec k i).
    + destruct Hkeep as [H|]; [left|by right]. intros (d & Hd & Hn). apply H. apply (rtc_l _ _ d); [by exists e|].
      by eapply same_graph_needs.
  - intros k ek Hk. rewrite E3, entry_at_upd in Hk by done. destruct (Z.eqb_spec k i); [injection Hk as <-; auto|].
    destruct (pr_new _ _ _ P _ _ Hk) as [Hk1|]; [|by right]. left. rewrite E1, entry_at_upd in Hk1 by done. by destruct (Z.eqb_spec k i).
  - intros Hc. rewrite E3. eapply coherent_upd; [|exact He2|congruence|done|by rewrite (plain_deps _ _ Hp1)].
    apply P. rewrite E1. eapply coherent_upd; [done|exact He|done|done|congruence].
  - rewrite B3, <- B1. apply P.
Qed.

Lemma wrote_ready s i e s1 e1 d : ready s i -> entry_at (g_can_entry_ptrs s) i = Some e -> c_state e <> CAP_STATE_ON ->
  wrote s i e1 s1 -> plain e1 = plain e -> c_state e1 = CAP_STATE_STARTING -> d ∈ c_deps e -> ready s1 d.
Proof.
  intros [R1 R2 R3 R4 R5] He Hs [E1 _] Hp1 Hs1 Hd. pose proof (entry_at_bound _ _ _ He) as Hb. pose proof (we_deps _ _ _ (proj2 R1 _ _ He) d Hd) as Hlt.
  assert (same_graph (g_can_entry_ptrs s) (g_can_entry_ptrs s1)) as G1 by (rewrite E1; by eapply same_graph_upd).
  split; [by eapply wf_same_graph|by eapply closed_same_graph| | |].
  - rewrite E1. eapply coherent_upd; [done|exact He|done|done|congruence].
  - eapply closed_same_graph; [exact R2|exact G1|]. exists e1. split; [by rewrite E1, entry_at_upd, Z.eqb_refl|by rewrite (plain_deps _ _ Hp1)].
  - intros k (ek & Hk & Hks). rewrite E1, entry_at_upd in Hk by done. destruct (Z.eqb_spec k i); [lia|].
    assert (i < k) by (apply R5; by exists ek). lia.
Qed.

(** A step that leaves the entries alone. *)
Lemma progress_same T s s1 s2 : progress T s s1 -> g_can_entry_ptrs s2 = g_can_entry_ptrs s1 -> can_world s2 = can_world s1 ->
  can_caller s2 = can_caller s1 -> (Forall (eq 0) (callbacks s1) -> Forall (eq 0) (callbacks s2)) -> progress T s s2.
Proof. intros [G W C K N H Z] E1 E2 E3 E4. split; rewrite ?E1, ?E2, ?E3; auto. Qed.

(** After the dependencies: the callback and the final state. *)
Definition activate_rest (i : Z) (cap : can_entry) (failed : option Z) : M can Z :=
  match failed with
  | Some d => deref (swrap 32 d);; activate_failed i CAP_ERR_DEP_FAILED (Some d)
  | None =>
      r ← (if c_activate_fn cap then callback (Called_activate i) else mret 0);
      if negb (r =? 0) then activate_failed i CAP_ERR_ACTIVATE_FAIL None else activate_done i
  end.

Lemma activate_rest_spec s1 s2 T i e failed : progress T s1 s2 -> entry_at (g_can_entry_ptrs s2) i = Some e ->
  (forall d, failed = Some d -> in_s 32 d /\ is_Some (entry_at (g_can_entry_ptrs s2) d)) ->
  exists s2' s3 e3 r, activate_rest i e failed s2 = Some (s3, r) /\ progress T s1 s2' /\ g_can_entry_ptrs s2' = g_can_entry_ptrs s2 /\
    wrote s2' i e3 s3 /\ plain e3 = plain e /\
    (r = CAP_OK /\ c_state e3 = CAP_STATE_ON /\ failed = None \/
     (r = CAP_ERR_DEP_FAILED \/ r = CAP_ERR_ACTIVATE_FAIL) /\ c_state e3 = CAP_STATE_ERROR) /\
    (Forall (eq 0) (callbacks s2) -> failed = None -> r = CAP_OK).
Proof.
  intros P He Hd. unfold activate_rest. destruct failed as [d|].
  - destruct (Hd d eq_refl) as [Hd32 [ed Hed]]. unfold mbind at 1, M_bind at 1. rewrite swrap_small, (deref_eq _ _ _ Hed) by done.
    destruct (activate_failed_spec s2 i e CAP_ERR_DEP_FAILED (Some d) He) as (s3 & e3 & E3 & W3 & Hp3 & Hs3).
    exists s2, s3, e3, CAP_ERR_DEP_FAILED. split_and!; auto. done.
  - destruct (callback_eq (c_activate_fn e) (Called_activate i) s2) as (s2' & r & Er & F1 & F2 & F3 & F4).
    assert (progress T s1 s2') as P' by (eapply progress_same; [exact P|done..|]; intros H; by apply F4).
    unfold mbind at 1, M_bind at 1. rewrite Er. rewrite <- F1 in He. destruct (Z.eqb_spec r 0) as [->|Hr]; cbn [negb].
    + destruct (activate_done_spec s2' i e He) as (s3 & e3 & E3 & W3 & Hp3 & Hs3). exists s2', s3, e3, CAP_OK. split_and!; auto.
    + destruct (activate_failed_spec s2' i e CAP_ERR_ACTIVATE_FAIL None He) as (s3 & e3 & E3 & W3 & Hp3 & Hs3).
      exists s2', s3, e3, CAP_ERR_ACTIVATE_FAIL. split_and!; auto. intros H _. by destruct (F4 H).
Qed.

Lemma cap_activate_spec fuel : forall i, i < Z.of_nat fuel -> activates (cap_activate fuel) i.
Proof.
  induction fuel as [|fuel IH]; intros i Hi s Hr; destruct (rd_live _ _ Hr) as [e He]; pose proof (entry_at_bound _ _ _ He) as Hb; [lia|].
  pose proof (proj2 (rd_wf _ _ Hr) _ _ He) as Hw. cbn [cap_activate]. unfold mbind at 1, M_bind at 1, gets. rewrite (in_range _ _ _ He).
  unfold mbind at 1, M_bind at 1. rewrite (deref_eq _ _ _ He), (we_live _ _ _ Hw).
  destruct (Z.eqb_spec (c_state e) CAP_STATE_ON) as [Hon|Hon].
  { exists s, CAP_OK. split; [done|]. split; [apply progress_refl|]. split; [left; split; [done|by exists e]|done]. }
  destruct (Z.eqb_spec (c_state e) CAP_STATE_STARTING) as [Hst|Hst].
  { assert (i < i) by (apply (rd_starting _ _ Hr); by exists e). lia. }
  unfold mbind at 1, M_bind at 1. rewrite (update_eq _ _ _ _ He). set (e1 := set_cap_state _ e). set (s1 := set_entries _ s).
  assert (wrote s i e1 s1) as Hw1 by done.
  assert (forall d, d ∈ c_deps e -> in_s 32 d /\ 0 <= d < i /\ ready s1 d) as Hr1.
  { intros d Hd. pose proof (we_deps _ _ _ Hw d Hd). destruct (rd_wf _ _ Hr) as [Hlen _]. split; [unfold in_s; lia|]. split; [lia|by eapply wrote_ready]. }
  destruct (activate_deps_spec (cap_activate fuel) (c_deps e)) with (s := s1) as (s2 & r2 & E2 & P2 & H2 & H3 & H4).
  { intros d Hd. destruct (Hr1 d Hd) as (? & ? & ?). split; [done|apply IH; lia]. }
  { intros d Hd. by apply Hr1. }
  assert (entry_at (g_can_entry_ptrs s2) i = Some e1) as He2.
  { apply (pr_kept _ _ _ P2); [by eapply wrote_at|]. left. intros (d & Hd & Hn). destruct (Hr1 d Hd) as (_ & ? & Hrd).
    apply (needs_le _ _ _ (rd_wf _ _ Hrd)) in Hn. lia. }
  destruct (activate_rest_spec s1 s2 _ i e1 r2 P2 He2) as (s2' & s3 & e3 & r & E3 & P2' & F & W3 & Hp3 & Hcase & Hz).
  { intros d ->. destruct (Hr1 d (H3 d eq_refl)) as (? & _ & Hrd). split; [done|]. apply (ready_progress _ _ _ _ P2 Hrd). }
  unfold mbind at 1, M_bind at 1. rewrite E2. exists s3, r. split; [exact E3|]. rewrite <- F in He2. split; [|split].
  - eapply progress_finish; try done; [naive_solver|]. intros Hs3. destruct Hcase as [(_ & _ & ->)|[_ ?]]; [|congruence]. rewrite F. by apply H2.
  - pose proof (wrote_at _ _ _ _ _ He2 W3). destruct Hcase as [(-> & ? & _)|[? ?]]; [left|right]; (split; [done|by exists e3]).
  - intros Hz0. apply Hz; [by apply P2|by apply H4].
Qed.
