(* ===== verification/CanDeactivate.v ===== *)
(** * The activation network: deactivation

    Dependents are later entries, so the cascade terminates.  It switches off only the
    entry and what needs it, never leaves something on above something off, and counts
    what it switched. *)
From S2P Require Import Prelude Bytes StateM CapToken CapObject HandleTable Pledge CapSystem Can CanGraph CanActivate.
Local Open Scope Z_scope.

Definition is_off (p : option can_entry) : bool := match p with Some e => c_state e =? CAP_STATE_OFF | None => false end.
Definition offs (l : slots) : Z := Z.of_nat (length (List.filter is_off l)).

Lemma offs_upd l i e e' : entry_at l i = Some e -> c_state e <> CAP_STATE_OFF -> c_state e' = CAP_STATE_OFF ->
  offs (upd l i (Some e')) = offs l + 1.
Proof.
  intros [Hi He]%entry_at_Some Hs Hs'. unfold offs, upd. rewrite (insert_take_drop _ _ _ (lookup_lt_Some _ _ _ He)).
  rewrite <- (take_drop_middle _ _ _ He) at 3. rewrite !List.filter_app, !length_app. cbn [List.filter is_off].
  destruct (Z.eqb_spec (c_state e) CAP_STATE_OFF), (Z.eqb_spec (c_state e') CAP_STATE_OFF); try done. cbn [length]. lia.
Qed.

Lemma offs_bound l : 0 <= offs l <= Z.of_nat (length l).
Proof. unfold offs. pose proof (filter_length_le is_off l). lia. Qed.

(** ** What deactivation may change *)
Record quenches (T : Z -> Prop) (s s' : can) : Prop := {
  qn_graph : same_graph (g_can_entry_ptrs s) (g_can_entry_ptrs s');
  qn_world : can_world s' = can_world s;
  qn_caller : can_caller s' = can_caller s;
  qn_kept : forall k e, entry_at (g_can_entry_ptrs s) k = Some e -> ~ T k -> entry_at (g_can_entry_ptrs s') k = Some e;
  qn_new : forall k e', entry_at (g_can_entry_ptrs s') k = Some e' -> exists e, entry_at (g_can_entry_ptrs s) k = Some e /\
    (e' = e \/ e' = set_cap_state CAP_STATE_OFF e);
  qn_zero : Forall (eq 0) (callbacks s) -> Forall (eq 0) (callbacks s')
}.

Lemma quenches_refl T s : quenches T s s.
Proof. split; try done. eauto. Qed.

Lemma quenches_trans T s1 s2 s3 : quenches T s1 s2 -> quenches T s2 s3 -> quenches T s1 s3.
Proof.
  intros [G1 W1 C1 K1 N1 Z1] [G2 W2 C2 K2 N2 Z2]. split; [by etrans|congruence|congruence|auto| |auto].
  intros k e3 H3. destruct (N2 k e3 H3) as (e2 & H2 & E2). destruct (N1 k e2 H2) as (e1 & H1 & E1). exists e1. split; [done|].
  destruct E2 as [->| ->], E1 as [->| ->]; auto.
Qed.

Lemma quenches_mono (T T' : Z -> Prop) s s' : (forall k, T k -> T' k) -> quenches T s s' -> quenches T' s s'.
Proof. intros HT [G W C K N Z]. split; try done. intros k e He Hk. apply K; auto. Qed.

Lemma quenches_same T s s1 s2 : quenches T s s1 -> g_can_entry_ptrs s2 = g_can_entry_ptrs s1 -> can_world s2 = can_world s1 ->
  can_caller s2 = can_caller s1 -> (Forall (eq 0) (callbacks s1) -> Forall (eq 0) (callbacks s2)) -> quenches T s s2.
Proof. intros [G W C K N Z] E1 E2 E3 E4. split; rewrite ?E1, ?E2, ?E3; auto. Qed.

Lemma quenches_quiet T s s1 s2 : quenches T s s1 -> quiet s1 s2 -> quenches T s s2.
Proof. intros H (E1 & E2 & E3 & E4). eapply quenches_same; [exact H|done..|]. by rewrite E4. Qed.

Lemma depends_off i e : depends_on i (set_cap_state CAP_STATE_OFF e) = false.
Proof. unfold depends_on. cbn. by rewrite andb_false_r. Qed.

(** A dependent that is active was active before. *)
Lemma quenches_depends T s s' i k e' : quenches T s s' -> entry_at (g_can_entry_ptrs s') k = Some e' -> depends_on i e' = true ->
  entry_at (g_can_entry_ptrs s) k = Some e'.
Proof. intros H He Hd. destruct (qn_new _ _ _ H _ _ He) as (e & ? & [->| ->]); [done|]. by rewrite depends_off in Hd. Qed.

Lemma depends_dep l i k e : entry_at l k = Some e -> depends_on i e = true -> dep_of l k i.
Proof.
  intros He Hd. exists e. split; [done|]. unfold depends_on in Hd. apply andb_prop in Hd as [_ Hd].
  apply existsb_exists in Hd as (d & Hd%list_elem_of_In & E%Z.eqb_eq). by subst.
Qed.

(** ** Final steps *)
Lemma deactivate_done_spec s i e count : entry_at (g_can_entry_ptrs s) i = Some e ->
  exists s', deactivate_done i count s = Some (s', (CAP_OK, u32 (count + 1))) /\ wrote s i (set_cap_state CAP_STATE_OFF e) s'.
Proof.
  intros He. unfold deactivate_done. unfold mbind at 1, M_bind at 1. rewrite (deref_eq _ _ _ He).
  unfold mbind at 1, M_bind at 1. rewrite (update_eq _ _ _ _ He). set (e' := set_cap_state _ e). set (s1 := set_entries _ s).
  assert (wrote s i e' s1) as Hw by done. pose proof (wrote_at _ _ _ _ _ He Hw) as He1.
  destruct (notify_quiet s1 i (c_state e) CAP_STATE_OFF e' He1) as (s2 & E2 & Q2).
  destruct (audit_deactivate_quiet s2 i 0 e') as (s3 & E3 & Q3); [by destruct Q2 as [-> _]|].
  unfold mbind, M_bind. rewrite E2. unfold gets. destruct (negb _).
  - rewrite E3. exists s3. split; [done|]. by do 2 (eapply wrote_quiet; [|done]).
  - exists s2. split; [done|]. by eapply wrote_quiet.
Qed.

Lemma deactivate_failed_spec s i e rc count : entry_at (g_can_entry_ptrs s) i = Some e ->
  exists s', deactivate_failed i rc count s = Some (s', (rc, count)) /\ quiet s s'.
Proof.
  intros He. unfold deactivate_failed, mbind, M_bind. destruct (audit_deactivate_quiet s i rc e He) as (s' & -> & Q). by exists s'.
Qed.

(** ** The cascade *)
Definition no_dependents (l : slots) (i : Z) : Prop := forall k e, entry_at l k = Some e -> depends_on i e = false.

Record deactivation (s : can) (i count : Z) (s' : can) (r count' : Z) : Prop := {
  da_change : quenches (fun k => needs (g_can_entry_ptrs s) k i) s s';
  da_count : count <= count' /\ count' = count + (offs (g_can_entry_ptrs s') - offs (g_can_entry_ptrs s));
  da_ok : r = CAP_OK -> is_off (entry_at (g_can_entry_ptrs s') i) = true;
  da_fail : r <> CAP_OK -> entry_at (g_can_entry_ptrs s') i = entry_at (g_can_entry_ptrs s) i;
  da_coherent : coherent (g_can_entry_ptrs s) -> coherent (g_can_entry_ptrs s');
  da_zero : Forall (eq 0) (callbacks s) -> r = CAP_OK
}.

Definition deactivates (deactivate : Z -> Z -> M can (Z * Z)) (i : Z) : Prop := forall s count,
  wf_can (g_can_entry_ptrs s) -> is_Some (entry_at (g_can_entry_ptrs s) i) -> 0 <= count <= offs (g_can_entry_ptrs s) ->
  exists s' r count', deactivate i count s = Some (s', (r, count')) /\ deactivation s i count s' r count'.

Lemma dependents_spec deactivate i : (forall j, i < j -> deactivates deactivate j) ->
  forall n j s count, 0 <= j -> wf_can (g_can_entry_ptrs s) -> 0 <= count <= offs (g_can_entry_ptrs s) ->
  exists s' r count', deactivate_dependents deactivate i n j count s = Some (s', (r, count')) /\
    quenches (fun k => i < k /\ needs (g_can_entry_ptrs s) k i) s s' /\
    (count <= count' /\ count' = count + (offs (g_can_entry_ptrs s') - offs (g_can_entry_ptrs s))) /\
    (r = CAP_OK -> forall k e, j <= k < j + Z.of_nat n -> entry_at (g_can_entry_ptrs s') k = Some e -> depends_on i e = false) /\
    (coherent (g_can_entry_ptrs s) -> coherent (g_can_entry_ptrs s')) /\ (Forall (eq 0) (callbacks s) -> r = CAP_OK).
Proof.
  intros Hde. induction n as [|n IH]; intros j s count Hj Hw Hc; cbn [deactivate_dependents].
  { exists s, CAP_OK, count. split; [done|]. split; [apply quenches_refl|]. split; [lia|]. split; [intros _ k e Hk; lia|done]. }
  unfold mbind at 1, M_bind at 1, gets. destruct (entry_at (g_can_entry_ptrs s) j) as [e|] eqn:He; [destruct (depends_on i e) eqn:Hd|].
  - pose proof (depends_dep _ _ _ _ He Hd) as Hdep. pose proof (dep_lt _ _ _ Hw Hdep) as Hlt.
    destruct (Hde j ltac:(lia) s count Hw ltac:(by exists e) Hc) as (s1 & r1 & c1 & E1 & D1). unfold mbind at 1, M_bind at 1. rewrite E1. cbn [fst snd].
    pose proof (da_change _ _ _ _ _ _ D1) as Q1. assert (quenches (fun k => i < k /\ needs (g_can_entry_ptrs s) k i) s s1) as Q1'.
    { eapply quenches_mono; [|exact Q1]. intros k Hk. split; [apply (needs_le _ _ _ Hw) in Hk; lia|]. eapply rtc_r; [exact Hk|exact Hdep]. }
    destruct (Z.eqb_spec r1 CAP_OK) as [->|Hr1].
    2: { exists s1, r1, c1. split; [done|]. split; [done|]. split; [apply D1|]. split; [done|]. split; [apply (da_coherent _ _ _ _ _ _ D1)|apply (da_zero _ _ _ _ _ _ D1)]. }
    destruct (IH (j + 1) s1 c1) as (s2 & r2 & c2 & E2 & Q2 & C2 & H2 & H3 & H4); [lia|eapply wf_same_graph; [exact Hw|apply Q1]| |].
    { destruct (da_count _ _ _ _ _ _ D1). lia. }
    exists s2, r2, c2. split; [done|]. split; [|split; [|split; [|split]]].
    + eapply quenches_trans; [exact Q1'|]. eapply quenches_mono; [|exact Q2]. intros k [? Hk]. split; [done|]. eapply same_graph_needs; [apply Q1|done].
    + destruct (da_count _ _ _ _ _ _ D1). lia.
    + intros Hr k ek Hk Hek. destruct (decide (k = j)) as [->|]; [|eapply H2; [done| |exact Hek]; lia].
      destruct (depends_on i ek) eqn:Hdk; [|done]. apply (quenches_depends _ _ _ _ _ _ Q2 Hek) in Hdk as Hk1.
      pose proof (da_ok _ _ _ _ _ _ D1 eq_refl) as Hoff. rewrite Hk1 in Hoff. cbn in Hoff. unfold depends_on in Hdk.
      apply Z.eqb_eq in Hoff. rewrite Hoff, andb_false_r in Hdk. done.
    + intros Hco. by apply H3, (da_coherent _ _ _ _ _ _ D1).
    + intros Hz. by apply H4, Q1.
  - destruct (IH (j + 1) s count) as (s2 & r2 & c2 & E2 & Q2 & C2 & H2 & H3 & H4); [lia|done|done|].
    exists s2, r2, c2. split; [done|]. split; [done|]. split; [done|]. split; [|done]. intros Hr k ek Hk Hek.
    destruct (decide (k = j)) as [->|]; [|eapply H2; [done| |exact Hek]; lia]. destruct (depends_on i ek) eqn:Hdk; [|done].
    apply (quenches_depends _ _ _ _ _ _ Q2 Hek) in Hdk as Hk1. congruence.
  - destruct (IH (j + 1) s count) as (s2 & r2 & c2 & E2 & Q2 & C2 & H2 & H3 & H4); [lia|done|done|].
    exists s2, r2, c2. split; [done|]. split; [done|]. split; [done|]. split; [|done]. intros Hr k ek Hk Hek.
    destruct (decide (k = j)) as [->|]; [|eapply H2; [done| |exact Hek]; lia]. destruct (qn_new _ _ _ Q2 _ _ Hek) as (? & ? & _). congruence.
Qed.

Lemma coherent_off l i e : wf_can l -> coherent l -> entry_at l i = Some e -> no_dependents l i ->
  coherent (upd l i (Some (set_cap_state CAP_STATE_OFF e))).
Proof.
  intros Hw Hc He Hn k d (ek & Hk & Hon) (ek' & Hk' & Hd). rewrite Hk in Hk'. injection Hk' as <-. pose proof (entry_at_bound _ _ _ He) as Hb.
  rewrite entry_at_upd in Hk by done. destruct (Z.eqb_spec k i) as [->|]; [injection Hk as <-; done|].
  destruct (Hc k d) as (ed & Hed & Hs); [by exists ek|by exists ek|]. exists ed. split; [|done]. rewrite entry_at_upd by done.
  destruct (Z.eqb_spec d i) as [->|]; [|done]. exfalso. specialize (Hn k ek Hk). unfold depends_on in Hn.
  rewrite (we_live _ _ _ (proj2 Hw _ _ Hk)), Hon in Hn. cbn [negb andb orb Z.eqb Pos.eqb] in Hn.
  assert (existsb (fun d => d =? i) (c_deps ek) = true) as E; [|congruence]. apply existsb_exists. exists i. split; [by apply list_elem_of_In|apply Z.eqb_refl].
Qed.

Lemma quenches_wrote s i e s' : entry_at (g_can_entry_ptrs s) i = Some e -> wrote s i (set_cap_state CAP_STATE_OFF e) s' ->
  quenches (fun k => k = i) s s'.
Proof.
  intros He [E (E1 & E2 & E3)]. pose proof (entry_at_bound _ _ _ He) as Hb. split; rewrite ?E, ?E1, ?E2, ?E3; try done.
  - by eapply same_graph_upd.
  - intros k ek Hk Hne. rewrite entry_at_upd by done. by destruct (Z.eqb_spec k i).
  - intros k ek Hk. rewrite entry_at_upd in Hk by done. destruct (Z.eqb_spec k i) as [->|]; [injection Hk as <-|]; eauto.
Qed.

(** Stopping with nothing changed below the dependents. *)
Lemma deactivation_stop s i e count s1 s2 rc count' : wf_can (g_can_entry_ptrs s) -> entry_at (g_can_entry_ptrs s) i = Some e ->
  quenches (fun k => i < k /\ needs (g_can_entry_ptrs s) k i) s s1 -> quiet s1 s2 -> rc <> CAP_OK ->
  count <= count' /\ count' = count + (offs (g_can_entry_ptrs s1) - offs (g_can_entry_ptrs s)) ->
  (coherent (g_can_entry_ptrs s) -> coherent (g_can_entry_ptrs s1)) -> (Forall (eq 0) (callbacks s) -> rc = CAP_OK) ->
  deactivation s i count s2 rc count'.
Proof.
  intros Hw He Q1 Q2 Hrc Hc Hco Hz. pose proof Q2 as (E & _). split; rewrite ?E; try done.
  - eapply quenches_quiet; [|exact Q2]. eapply quenches_mono; [|exact Q1]. naive_solver.
  - intros _. rewrite He. apply (qn_kept _ _ _ Q1); [done|]. lia.
Qed.

(** Switching the entry off once its dependents are. *)
Lemma deactivation_finish s i e count s1 s2 c1 : wf_can (g_can_entry_ptrs s) -> entry_at (g_can_entry_ptrs s) i = Some e -> c_state e <> CAP_STATE_OFF ->
  quenches (fun k => i < k /\ needs (g_can_entry_ptrs s) k i) s s1 -> 0 <= count <= offs (g_can_entry_ptrs s) ->
  count <= c1 /\ c1 = count + (offs (g_can_entry_ptrs s1) - offs (g_can_entry_ptrs s)) ->
  no_dependents (g_can_entry_ptrs s1) i -> (coherent (g_can_entry_ptrs s) -> coherent (g_can_entry_ptrs s1)) ->
  wrote s1 i (set_cap_state CAP_STATE_OFF e) s2 -> deactivation s i count s2 CAP_OK (u32 (c1 + 1)).
Proof.
  intros Hw He Hoff Q1 Hc0 [Hc1 Hc2] Hn Hco W. assert (entry_at (g_can_entry_ptrs s1) i = Some e) as He1 by (apply (qn_kept _ _ _ Q1); [done|lia]).
  pose proof (wf_same_graph _ _ Hw (qn_graph _ _ _ Q1)) as Hw1. pose proof (quenches_wrote _ _ _ _ He1 W) as Q2. pose proof W as [E _].
  pose proof (offs_upd _ _ _ (set_cap_state CAP_STATE_OFF e) He1 Hoff eq_refl) as Ho. rewrite <- E in Ho.
  pose proof (offs_bound (g_can_entry_ptrs s2)) as Hb. pose proof (entry_at_bound _ _ _ He) as Hi. split; try done.
  - eapply quenches_trans; [eapply quenches_mono; [|exact Q1]; naive_solver|]. eapply quenches_mono; [|exact Q2]. by intros k ->.
  - rewrite wrap_small; [lia|]. unfold in_u. assert (length (g_can_entry_ptrs s2) = length (g_can_entry_ptrs s1)) by (by rewrite E, length_upd). destruct Hw1. lia.
  - intros _. rewrite (wrote_at _ _ _ _ _ He1 W). done.
  - intros H. rewrite E. by apply coherent_off; auto.
Qed.

Lemma cap_deactivate_spec fuel : forall i, MAX_CAPABILITIES - i < Z.of_nat fuel -> deactivates (cap_deactivate_inner fuel) i.
Proof.
  induction fuel as [|fuel IH]; intros i Hi s count Hw [e He] Hc; pose proof (entry_at_bound _ _ _ He) as Hb; [destruct Hw; lia|].
  cbn [cap_deactivate_inner]. unfold mbind at 1, M_bind at 1, gets. rewrite (in_range _ _ _ He). unfold mbind at 1, M_bind at 1. rewrite He.
  rewrite (we_live _ _ _ (proj2 Hw _ _ He)). destruct (Z.eqb_spec (c_state e) CAP_STATE_OFF) as [Hoff|Hoff].
  { exists s, CAP_OK, count. split; [done|]. split; try done; [apply quenches_refl|lia|]. intros _. rewrite He. cbn. by apply Z.eqb_eq. }
  destruct (callback_eq (c_refuse_fn e) (Called_refuse i) s) as (s1 & rf & E1 & L1 & W1 & C1 & Z1). unfold mbind at 1, M_bind at 1. rewrite E1.
  assert (forall T, quenches T s s1) as Q1 by (intros T; eapply quenches_same; [apply quenches_refl|done..|]; intros H; by apply Z1).
  destruct (Z.eqb_spec rf 0) as [->|Hrf]; cbn [negb].
  2: { rewrite <- L1 in He. destruct (deactivate_failed_spec s1 i e CAP_ERR_BUSY count He) as (s2 & -> & Q2). rewrite L1 in He. exists s2, CAP_ERR_BUSY, count. split; [done|].
       eapply deactivation_stop; [done|exact He|apply Q1|done|done|rewrite L1; lia|by rewrite L1|]. intros H. by destruct (Z1 H). }
  unfold mbind at 1, M_bind at 1. destruct (dependents_spec (cap_deactivate_inner fuel) i) with (n := length (g_can_entry_ptrs s1)) (j := 0) (s := s1) (count := count)
    as (s2 & r2 & c2 & E2 & Q2 & C2 & D2 & Co2 & Z2); [intros j Hj; apply IH; lia|lia|by rewrite L1|by rewrite L1|].
  unfold mbind at 1, M_bind at 1. rewrite E2. rewrite L1 in Q2, C2, Co2. pose proof (quenches_trans _ _ _ _ (Q1 _) Q2) as Q2'.
  assert (entry_at (g_can_entry_ptrs s2) i = Some e) as He2 by (apply (qn_kept _ _ _ Q2'); [done|lia]). cbn [fst snd].
  destruct (Z.eqb_spec r2 CAP_OK) as [->|Hr2]; cbn [negb].
  2: { destruct (deactivate_failed_spec s2 i e r2 c2 He2) as (s3 & -> & Q3). exists s3, r2, c2. split; [done|].
       eapply deactivation_stop; [done|exact He|exact Q2'|done|done|done|done|]. intros H. apply Z2. by apply Z1. }
  destruct (callback_eq (c_deactivate_fn e) (Called_deactivate i) s2) as (s3 & rc & E3 & L3 & W3 & C3 & Z3). unfold mbind at 1, M_bind at 1. rewrite E3.
  assert (quenches (fun k => i < k /\ needs (g_can_entry_ptrs s) k i) s s3) as Q3 by (eapply quenches_same; [exact Q2'|done..|]; intros H; by apply Z3).
  rewrite <- L3 in He2, C2, Co2, D2. destruct (Z.eqb_spec rc 0) as [->|Hrc]; cbn [negb].
  2: { destruct (deactivate_failed_spec s3 i e rc c2 He2) as (s4 & -> & Q4). exists s4, rc, c2. split; [done|].
       eapply deactivation_stop; [done|exact He|exact Q3|done|done|done|done|]. intros H. apply Z3, Q2'. done. }
  destruct (deactivate_done_spec s3 i e c2 He2) as (s4 & -> & W4). exists s4, CAP_OK, (u32 (c2 + 1)). split; [done|].
  eapply deactivation_finish; try done. intros k ek Hk. eapply (D2 eq_refl); [|exact Hk].
  apply entry_at_bound in Hk. rewrite L1. rewrite <- (same_graph_length _ _ (qn_graph _ _ _ Q3)) in Hk. lia.
Qed.
