(* ===== verification/CanNetwork.v ===== *)
(** * The activation network as a whole

    The invariant of the network under every operation but unregistration, what
    activation and deactivation achieve, the system calls over the paired objects, and
    what unregistration breaks. *)
From Stdlib Require Import String.
From S2P Require Import Prelude Bytes StateM CapToken CapObject HandleTable Pledge CapSystem Can CanGraph CanRegister CanActivate CanDeactivate.
Local Open Scope string_scope.
Local Open Scope list_scope.
Local Open Scope Z_scope.

Record can_inv (s : can) : Prop := {
  ci_wf : wf_can (g_can_entry_ptrs s);
  ci_closed : closed (g_can_entry_ptrs s);
  ci_coherent : coherent (g_can_entry_ptrs s);
  ci_settled : forall k, ~ starting (g_can_entry_ptrs s) k;
  ci_live : Forall is_Some (g_can_entry_ptrs s);
  ci_paired : paired s
}.

Definition can_boot (w : world) (caller : Z) (cbs : list Z) : can := Can [] w caller cbs [].

Lemma boot_inv w caller cbs : can_inv (can_boot w caller cbs).
Proof.
  assert (forall i e, entry_at [] i = Some e -> False) as H by (intros i e [_ ?]%entry_at_Some; done).
  split; cbn [can_boot g_can_entry_ptrs].
  - split; [cbn; lia|]. intros i e He. by apply H in He.
  - intros i d (e & He & _). by apply H in He.
  - intros i d (e & He & _). by apply H in He.
  - intros k (e & He & _). by apply H in He.
  - done.
  - intros i e He. by apply H in He.
Qed.

Lemma live_entry l i : Forall is_Some l -> 0 <= i < Z.of_nat (length l) -> is_Some (entry_at l i).
Proof.
  intros Hl Hi. destruct (lookup_lt_is_Some_2 l (Z.to_nat i)) as [p Hp]; [lia|]. destruct (proj1 (Forall_lookup _ _) Hl _ _ Hp) as [e ->].
  exists e. apply entry_at_Some. split; [lia|done].
Qed.

(** A run that keeps the graph and the world. *)
Lemma inv_same_graph s s' : can_inv s -> same_graph (g_can_entry_ptrs s) (g_can_entry_ptrs s') -> can_world s' = can_world s ->
  coherent (g_can_entry_ptrs s') -> (forall k, ~ starting (g_can_entry_ptrs s') k) -> can_inv s'.
Proof.
  intros [H1 H2 H3 H4 H5 H6] Hg Hw Hc Hs. split; [by eapply wf_same_graph|by eapply closed_same_graph|done|done| |].
  - apply Forall_lookup. intros i p Hp. destruct (live_entry (g_can_entry_ptrs s) (Z.of_nat i) H5) as [e He].
    { rewrite (same_graph_length _ _ Hg). apply lookup_lt_Some in Hp. lia. }
    destruct (same_graph_entry _ _ _ _ (symmetry Hg) He) as (e' & [_ He']%entry_at_Some & _). rewrite Nat2Z.id, Hp in He'. injection He' as ->. done.
  - intros i e' He'. destruct (same_graph_entry _ _ _ _ Hg He') as (e & He & E). rewrite Hw. assert (c_object_idx e' = c_object_idx e) as -> by (injection E; done).
    by apply (H6 i).
Qed.

(** Changing fields outside the graph. *)
Record steady (e e' : can_entry) : Prop := {
  st_fields : c_deps e' = c_deps e /\ c_type e' = c_type e /\ c_name e' = c_name e /\ c_deleted e' = c_deleted e /\
    c_state e' = c_state e /\ c_object_idx e' = c_object_idx e;
  st_watch : NoDup (c_watchers e') /\ (length (c_watchers e') <= 8)%nat
}.

Definition steadies (l l' : slots) : Prop := length l' = length l /\
  forall k, (forall e, entry_at l k = Some e -> exists e', entry_at l' k = Some e' /\ steady e e') /\
            (forall e', entry_at l' k = Some e' -> exists e, entry_at l k = Some e /\ steady e e').

Lemma inv_steady s s' : can_inv s -> steadies (g_can_entry_ptrs s) (g_can_entry_ptrs s') -> can_world s' = can_world s -> can_inv s'.
Proof.
  intros [[H0 H1] H2 H3 H4 H5 H6] [Hlen Hs] Hw. set (l := g_can_entry_ptrs s) in *. set (l' := g_can_entry_ptrs s') in *.
  assert (forall i d, dep_of l' i d -> dep_of l i d) as Hdep.
  { intros i d (e' & He' & Hd). apply Hs in He' as (e & He & [(E & _) _]). exists e. split; [done|]. by rewrite <- E. }
  assert (forall i, is_on l' i -> is_on l i) as Hon.
  { intros i (e' & He' & Hst). apply Hs in He' as (e & He & [(_ & _ & _ & _ & E & _) _]). exists e. split; [done|congruence]. }
  split; fold l'.
  - split; [by rewrite Hlen|]. intros i e' He'. apply Hs in He' as (e & He & [(E1 & E2 & E3 & E4 & _) Hwt]). destruct (H1 _ _ He) as [W1 W2 W3 W4 W5 W6].
    split; rewrite ?E1, ?E2, ?E3, ?E4; try done. intros d ed' Hd Hed'. apply Hs in Hed' as (ed & Hed & [(_ & Et & _) _]). rewrite Et. eauto.
  - intros i d Hd. destruct (H2 i d (Hdep _ _ Hd)) as [e He]. apply Hs in He as (e' & ? & _). by exists e'.
  - intros i d Hi Hd. destruct (H3 i d (Hon _ Hi) (Hdep _ _ Hd)) as (e & He & Hst). apply Hs in He as (e' & He' & [(_ & _ & _ & _ & E & _) _]).
    exists e'. split; [done|congruence].
  - intros k (e' & He' & Hst). apply Hs in He' as (e & He & [(_ & _ & _ & _ & E & _) _]). apply (H4 k). exists e. split; [done|congruence].
  - apply Forall_lookup. intros i p Hp. destruct (live_entry l (Z.of_nat i) H5) as [e He]; [rewrite <- Hlen; apply lookup_lt_Some in Hp; lia|].
    apply Hs in He as (e' & [_ He']%entry_at_Some & _). rewrite Nat2Z.id in He'. rewrite Hp in He'. injection He' as ->. done.
  - intros i e' He'. apply Hs in He' as (e & He & [(_ & _ & _ & _ & _ & E) _]). rewrite Hw, E. by apply (H6 i).
Qed.

Lemma steadies_upd l i e e' : entry_at l i = Some e -> wf_can l -> steady e e' -> steadies l (upd l i (Some e')).
Proof.
  intros He [_ Hw] Hst. pose proof (entry_at_bound _ _ _ He) as Hb. split; [apply length_upd|]. intros k. rewrite entry_at_upd by done.
  assert (forall e, entry_at l k = Some e -> steady e e) as Hr by (intros x Hx; split; [done|apply (we_watch _ _ _ (Hw _ _ Hx))]).
  destruct (Z.eqb_spec k i) as [->|]; split; intros x Hx; eauto; simplify_eq; eauto.
Qed.

(** ** Operations *)
Inductive can_op :=
| Op_register (slab_ok obj_ok : bool) (name : option (list Z)) (type subtype owner : Z) (dep_names : option (list (option (list Z))))
    (dep_count : Z) (activate_fn deactivate_fn : bool) (ops : option (list cap_op)) (op_count : Z) (get_stats : bool)
| Op_activate (cap_id : Z)
| Op_deactivate (cap_id : Z)
| Op_watch (cap_id pid : Z)
| Op_unwatch (cap_id pid : Z)
| Op_unwatch_all (pid : Z)
| Op_refuse_hook (cap_id : Z) (fn : bool)
| Op_sys_activate (tok : Z)
| Op_sys_deactivate (tok : Z).

Definition can_exec (op : can_op) : M can Z :=
  match op with
  | Op_register slab obj name type subtype owner names dc act deact ops opc stats =>
      cap_register slab obj name type subtype owner names dc act deact ops opc stats
  | Op_activate i => cap_activate can_fuel i
  | Op_deactivate i => cap_deactivate i
  | Op_watch i pid => cap_watch i pid
  | Op_unwatch i pid => cap_unwatch i pid
  | Op_unwatch_all pid => cap_unwatch_all_for_pid pid;; mret 0
  | Op_refuse_hook i fn => cap_set_refuse_hook i fn
  | Op_sys_activate tok => sys_can_activate_t tok
  | Op_sys_deactivate tok => sys_can_deactivate_t tok
  end.

Definition can_op_ok (op : can_op) : Prop :=
  match op with Op_register _ _ _ _ _ _ names dc _ _ ops opc _ => arrays_ok names dc ops opc | _ => True end.

Fixpoint can_run (ops : list can_op) : M can (list Z) :=
  match ops with [] => mret [] | op :: ops => r ← can_exec op; rs ← can_run ops; mret (r :: rs) end.

(** ** Activation and deactivation *)
Lemma inv_ready s i : can_inv s -> 0 <= i < g_cap_count s -> ready s i.
Proof. intros [H1 H2 H3 H4 H5 H6] Hi. split; [done|done|done|by apply live_entry|]. intros k Hk. by apply H4 in Hk. Qed.

Lemma count_bound s i : can_inv s -> i < g_cap_count s -> i < Z.of_nat can_fuel.
Proof. intros H Hi. destruct (ci_wf _ H) as [Hl _]. unfold g_cap_count, can_fuel in *. lia. Qed.

Lemma inv_progress T s s' : can_inv s -> progress T s s' -> can_inv s'.
Proof.
  intros Hi Hp. eapply inv_same_graph; [done|apply Hp|apply Hp|apply Hp, Hi|]. intros k Hk. apply (ci_settled _ Hi k), (progress_starting _ _ _ _ Hp), Hk.
Qed.

Lemma inv_deactivation s i c s' r c' : can_inv s -> deactivation s i c s' r c' -> can_inv s'.
Proof.
  intros Hi [Hq _ _ _ Hc _]. eapply inv_same_graph; [done|apply Hq|apply Hq|apply Hc, Hi|]. intros k (e' & He' & Hs).
  apply (qn_new _ _ _ Hq) in He' as (e & He & [->| ->]); [|done]. apply (ci_settled _ Hi k). by exists e.
Qed.

(** C26: switching an entry on.  In a network that satisfies the invariant, activation of a
    registered entry always returns.  It reports success exactly with the entry and
    everything it needs, directly or not, on; otherwise the entry is in the error state.
    Entries that are not needed, or that were on before, are not touched; the graph and the
    invariant are kept; and if no callback fails the result is success. *)
Theorem activate_correct s i : can_inv s -> 0 <= i < g_cap_count s ->
  exists s' r, cap_activate can_fuel i s = Some (s', r) /\ can_inv s' /\ same_graph (g_can_entry_ptrs s) (g_can_entry_ptrs s') /\
    (r = CAP_OK /\ (forall k, needs (g_can_entry_ptrs s) i k -> is_on (g_can_entry_ptrs s') k) \/
     (r = CAP_ERR_DEP_FAILED \/ r = CAP_ERR_ACTIVATE_FAIL) /\ c_state <$> entry_at (g_can_entry_ptrs s') i = Some CAP_STATE_ERROR) /\
    (forall k e, entry_at (g_can_entry_ptrs s) k = Some e -> ~ needs (g_can_entry_ptrs s) i k \/ c_state e = CAP_STATE_ON ->
       entry_at (g_can_entry_ptrs s') k = Some e) /\
    (Forall (eq 0) (callbacks s) -> r = CAP_OK).
Proof.
  intros Hinv Hi. destruct (cap_activate_spec can_fuel i (count_bound _ _ Hinv (proj2 Hi)) s (inv_ready _ _ Hinv Hi)) as (s' & r & E & Hp & Hr & Hz).
  assert (can_inv s') as Hinv' by by eapply inv_progress. exists s', r. split; [done|]. split; [done|]. split; [apply Hp|]. split; [|split; [apply Hp|done]].
  destruct Hr as [[-> Hon]|[Hr (e & He & Hs)]]; [left|right; split; [done|by rewrite He; cbn; rewrite Hs]]. split; [done|]. intros k Hk.
  eapply needs_on; [apply Hinv'|done|]. eapply same_graph_needs; [|done]. symmetry. apply Hp.
Qed.

(** C25: switching an entry off.  In a network that satisfies the invariant, deactivation of
    a registered entry always returns.  After success the entry is off and nothing that
    needs it, directly or not, is on; after a failure its own record is as before.  The
    count is the number of entries that went off, entries that do not need it are not
    touched, the graph and the invariant are kept, and if no callback objects the result is
    success. *)
Theorem deactivate_correct s i : can_inv s -> 0 <= i < g_cap_count s ->
  exists s' r n, cap_deactivate_count i s = Some (s', (r, n)) /\ can_inv s' /\ same_graph (g_can_entry_ptrs s) (g_can_entry_ptrs s') /\
    (r = CAP_OK -> is_off (entry_at (g_can_entry_ptrs s') i) = true /\
       forall k, needs (g_can_entry_ptrs s) k i -> ~ is_on (g_can_entry_ptrs s') k) /\
    (r <> CAP_OK -> entry_at (g_can_entry_ptrs s') i = entry_at (g_can_entry_ptrs s) i) /\
    n = offs (g_can_entry_ptrs s') - offs (g_can_entry_ptrs s) /\
    (forall k e, entry_at (g_can_entry_ptrs s) k = Some e -> ~ needs (g_can_entry_ptrs s) k i -> entry_at (g_can_entry_ptrs s') k = Some e) /\
    (Forall (eq 0) (callbacks s) -> r = CAP_OK).
Proof.
  intros Hinv Hi. pose proof (offs_bound (g_can_entry_ptrs s)). assert (out_of_range s i = false) as Hr by (unfold out_of_range; lia).
  assert (MAX_CAPABILITIES - i < Z.of_nat can_fuel) as Hf by (unfold can_fuel; lia).
  destruct (cap_deactivate_spec can_fuel i Hf s 0) as (s' & r & n & E & Hd); [apply Hinv|by apply live_entry; [apply Hinv|]|lia|].
  exists s', r, n. pose proof (inv_deactivation _ _ _ _ _ _ Hinv Hd) as Hinv'. split; [|split; [done|]].
  { unfold cap_deactivate_count, mbind, M_bind, gets. by rewrite Hr. }
  destruct Hd as [Hq [_ Hc] Hok Hfail _ Hz]. split; [apply Hq|]. split.
  { intros ->. specialize (Hok eq_refl). split; [done|]. intros k Hk Hon. destruct (needs_on _ k i (ci_coherent _ Hinv') Hon) as (e & He & Hs).
    - eapply same_graph_needs; [|done]. symmetry. apply Hq.
    - rewrite He in Hok. unfold is_off in Hok. rewrite Hs in Hok. done. }
  split; [done|]. split; [lia|]. split; [apply Hq|done].
Qed.

(** ** Every operation keeps the invariant *)
Definition keeps {A} (m : M can A) : Prop := triple can_inv m (fun _ => can_inv).

Lemma keeps_ret {A} (a : A) : keeps (mret a).
Proof. by apply triple_ret. Qed.

Lemma keeps_bind {A B} (m : M can A) (k : A -> M can B) : keeps m -> (forall a, keeps (k a)) -> keeps (m ≫= k).
Proof. intros Hm Hk. by eapply triple_bind. Qed.

Lemma keeps_gets {A} (f : can -> A) : keeps (gets f).
Proof. by apply triple_gets. Qed.

Create HintDb can_keeps.
#[export] Hint Resolve keeps_ret keeps_bind keeps_gets : can_keeps.

Lemma register_keeps slab obj name type subtype owner names dc act deact ops opc stats : arrays_ok names dc ops opc ->
  keeps (cap_register slab obj name type subtype owner names dc act deact ops opc stats).
Proof.
  intros Ha s Hinv. destruct (cap_register_spec slab obj s name type subtype owner names dc act deact ops opc stats) as (s' & r & E & H);
    [apply Hinv|apply Hinv|apply Hinv|done|].
  exists s', r. split; [done|]. destruct Hinv as [H1 H2 H3 H4 H5 H6]. destruct H as [(_ & Hl & Hw & _ & _)|(_ & nm & cap & _ & H)].
  - split; unfold paired; rewrite ?Hl, ?Hw; done.
  - split; [by eapply registered_wf|by eapply registered_closed|by eapply registered_coherent| |by eapply registered_live|by eapply registered_paired].
    intros k Hk. by apply (H4 k), (registered_starting _ _ _ _ _ _ _ _ _ _ H).
Qed.

Lemma emit_keeps ev : keeps (can_emit ev).
Proof. apply triple_modify. intros s [H1 H2 H3 H4 H5 H6]. by split. Qed.

Lemma activate_keeps i : keeps (cap_activate can_fuel i).
Proof.
  intros s Hinv. destruct (out_of_range s i) eqn:E.
  - exists s, CAP_ERR_NOT_FOUND. split; [|done]. cbn. unfold mbind, M_bind, gets. by rewrite E.
  - assert (0 <= i < g_cap_count s) as Hi by (unfold out_of_range in E; lia).
    destruct (cap_activate_spec can_fuel i (count_bound _ _ Hinv (proj2 Hi)) s (inv_ready _ _ Hinv Hi)) as (s' & r & E' & Hp & _).
    exists s', r. split; [done|]. by eapply inv_progress.
Qed.

Lemma deactivate_keeps i : keeps (cap_deactivate_count i).
Proof.
  intros s Hinv. unfold cap_deactivate_count. apply wp_bind, wp_gets. destruct (out_of_range s i) eqn:E; [by apply wp_ret|].
  assert (0 <= i < g_cap_count s) as Hi by (unfold out_of_range in E; lia). pose proof (offs_bound (g_can_entry_ptrs s)).
  assert (MAX_CAPABILITIES - i < Z.of_nat can_fuel) as Hf by (unfold can_fuel; lia).
  destruct (cap_deactivate_spec can_fuel i Hf s 0) as (s' & r & n & E' & Hd); [apply Hinv|by apply live_entry; [apply Hinv|]|lia|].
  exists s', (r, n). split; [done|]. by eapply inv_deactivation.
Qed.

(** A write to fields outside the graph. *)
Lemma update_keeps s i e f : can_inv s -> entry_at (g_can_entry_ptrs s) i = Some e -> steady e (f e) -> wp (update i f) (fun _ => can_inv) s.
Proof.
  intros Hinv He Hst. eexists _, _. split; [by apply update_eq|]. eapply inv_steady; [done| |done]. eapply steadies_upd; [done|apply Hinv|done].
Qed.

Lemma in_range_entry s i : can_inv s -> out_of_range s i = false -> exists e, entry_at (g_can_entry_ptrs s) i = Some e /\ wf_entry (g_can_entry_ptrs s) i e.
Proof.
  intros Hinv E. destruct (live_entry (g_can_entry_ptrs s) i) as [e He]; [apply Hinv|unfold out_of_range, g_cap_count in E; lia|].
  exists e. split; [done|]. by apply (proj2 (ci_wf _ Hinv)).
Qed.

Lemma drop_steady pid e : NoDup (c_watchers e) -> (length (c_watchers e) <= 8)%nat -> steady e (drop_watcher pid e).
Proof.
  intros H1 H2. split; [done|]. unfold drop_watcher; cbn. destruct (find_index _ _) as [k|]; [|done].
  pose proof (sublist_delete (c_watchers e) k) as Hs. pose proof (sublist_length _ _ Hs). split; [by eapply sublist_NoDup|lia].
Qed.

Lemma watch_keeps i pid : keeps (cap_watch i pid).
Proof.
  intros s Hinv. unfold cap_watch. apply wp_bind, wp_gets. destruct (out_of_range s i) eqn:E; [by apply wp_ret|].
  destruct (in_range_entry _ _ Hinv E) as (e & He & [_ _ _ _ Hd [Hw1 Hw2]]). apply wp_bind. eexists _, _. split; [by apply deref_eq|]. rewrite Hd.
  case_bool_decide as Hin; [by apply wp_ret|]. destruct (_ >=? 8) eqn:Hlen; [by apply wp_ret|]. apply wp_bind.
  eapply wp_mono; [|eapply (update_keeps s i e); [done|done|]]; [intros ? s' Hs'; by apply wp_ret|]. split; [done|]. cbn.
  rewrite length_app. cbn. split; [|lia]. apply NoDup_app. split; [done|]. split; [|apply NoDup_singleton]. intros x Hx ->%list_elem_of_singleton. done.
Qed.

Lemma unwatch_keeps i pid : keeps (cap_unwatch i pid).
Proof.
  intros s Hinv. unfold cap_unwatch. apply wp_bind, wp_gets. destruct (out_of_range s i) eqn:E; [by apply wp_ret|].
  destruct (in_range_entry _ _ Hinv E) as (e & He & [_ _ _ _ Hd [Hw1 Hw2]]). apply wp_bind. eexists _, _. split; [by apply deref_eq|]. rewrite Hd.
  case_bool_decide as Hin; [|by apply wp_ret]. apply wp_bind.
  eapply wp_mono; [|eapply (update_keeps s i e); [done|done|by apply drop_steady]]. intros ? s' Hs'. by apply wp_ret.
Qed.

Lemma refuse_keeps i fn : keeps (cap_set_refuse_hook i fn).
Proof.
  intros s Hinv. unfold cap_set_refuse_hook. apply wp_bind, wp_gets. destruct (out_of_range s i) eqn:E; [by apply wp_ret|].
  destruct (in_range_entry _ _ Hinv E) as (e & He & [_ _ _ _ Hd Hw]). apply wp_bind, wp_gets. rewrite He, Hd. apply wp_bind.
  eapply wp_mono; [|eapply (update_keeps s i e); [done|done|by split]]. intros ? s' Hs'. by apply wp_ret.
Qed.

Lemma unwatch_all_keeps pid : keeps (cap_unwatch_all_for_pid pid).
Proof.
  apply triple_modify. intros s Hinv. eapply inv_steady; [done| |done]. destruct (ci_wf _ Hinv) as [_ Hw]. cbn [set_entries g_can_entry_ptrs].
  set (l := g_can_entry_ptrs s) in *. set (f := fun e => if c_deleted e then e else drop_watcher pid e).
  assert (forall k, entry_at (map (fun p : option can_entry => f <$> p) l) k = f <$> entry_at l k) as Hm.
  { intros k. unfold entry_at, get. destruct (k <? 0); [done|]. change (map (fun p : option can_entry => f <$> p) l) with (fmap (fun p : option can_entry => f <$> p) l). rewrite list_lookup_fmap. by destruct (l !! _). }
  assert (forall k e, entry_at l k = Some e -> steady e (f e)) as Hs.
  { intros k e He. destruct (Hw _ _ He) as [_ _ _ _ Hd [Hw1 Hw2]]. unfold f. rewrite Hd. by apply drop_steady. }
  split; [apply length_map|]. intros k. rewrite Hm. split.
  - intros e He. rewrite He. exists (f e). split; [done|]. by apply (Hs k).
  - intros e' He'. destruct (entry_at l k) as [e|] eqn:He; [|done]. injection He' as <-. exists e. split; [done|]. by apply (Hs k).
Qed.

Lemma pledged_eq s : pledged s =
  Some ({| s with can_world := (pledge_check_and_audit (can_world s) (can_caller s) PLEDGE_CLASS_SYS_CONTROL).2 |},
        (pledge_check_and_audit (can_world s) (can_caller s) PLEDGE_CLASS_SYS_CONTROL).1).
Proof. unfold pledged. by destruct (pledge_check_and_audit _ _ _). Qed.

Lemma pledged_keeps : keeps pledged.
Proof.
  intros s [H1 H2 H3 H4 H5 H6]. eexists _, _. split; [apply pledged_eq|]. split; try done. intros i e He. cbn [can_world]. rewrite pledge_reg. by apply H6.
Qed.

#[export] Hint Resolve register_keeps activate_keeps deactivate_keeps watch_keeps unwatch_keeps refuse_keeps unwatch_all_keeps pledged_keeps emit_keeps : can_keeps.

Lemma resolve_keeps tok right : keeps (resolve_can tok right).
Proof.
  unfold resolve_can. apply keeps_bind; [auto with can_keeps|]. intros s. destruct (cap_token_resolve _ _ _ _) as [o|]; [destruct (negb _)|]; auto with can_keeps.
Qed.

Lemma sys_activate_keeps tok : keeps (sys_can_activate_t tok).
Proof.
  unfold sys_can_activate_t. apply keeps_bind; [auto with can_keeps|]. intros [|]; cbn [negb]; [|auto with can_keeps].
  apply keeps_bind; [apply resolve_keeps|]. intros [i|]; [destruct (i <? 0)|]; auto with can_keeps.
Qed.

Lemma sys_deactivate_keeps tok : keeps (sys_can_deactivate_t tok).
Proof.
  unfold sys_can_deactivate_t. apply keeps_bind; [auto with can_keeps|]. intros [|]; cbn [negb]; [|auto with can_keeps].
  apply keeps_bind; [apply resolve_keeps|]. intros [i|]; [destruct (i <? 0)|]; auto with can_keeps.
Qed.

Lemma exec_keeps op : can_op_ok op -> keeps (can_exec op).
Proof.
  destruct op; unfold can_exec, cap_deactivate; cbn [can_op_ok]; intros H; auto using sys_activate_keeps, sys_deactivate_keeps with can_keeps.
Qed.

Lemma run_keeps ops : Forall can_op_ok ops -> keeps (can_run ops).
Proof. induction 1 as [|op ops Hop _ IH]; cbn; auto using exec_keeps with can_keeps. Qed.

(** C17: the network is safe under every use but unregistration.  From the empty registry,
    any sequence of registrations, activations, deactivations, watches, refusal hooks and
    system calls, with any callbacks' results and any process as the caller, runs without
    following a freed pointer and without unbounded recursion, and leaves a network in
    which dependencies point to earlier live entries of an allowed layer, everything that
    is on has all its dependencies on, nothing is left starting, and each paired object
    belongs to its entry. *)
Theorem network_safe w caller cbs ops : Forall can_op_ok ops ->
  exists s rs, can_run ops (can_boot w caller cbs) = Some (s, rs) /\ length rs = length ops /\ can_inv s.
Proof.
  intros Hops. destruct (run_keeps ops Hops (can_boot w caller cbs) (boot_inv _ _ _)) as (s & rs & E & H). exists s, rs. split; [done|]. split; [|done].
  clear H Hops. revert s rs E. generalize (can_boot w caller cbs). induction ops as [|op ops IH]; intros s0 s rs; cbn [can_run]; [by intros [= <- <-]|].
  intros (s1 & r & _ & (s2 & rs' & E & E')%bind_Some)%bind_Some. injection E' as <- <-. cbn. f_equal. by eapply IH.
Qed.

(** ** The boot loop *)
Lemma activate_all_spec n : forall i s, can_inv s -> Forall (eq 0) (callbacks s) -> 0 <= i -> i + Z.of_nat n <= g_cap_count s ->
  exists s', activate_all n i s = Some (s', tt) /\ can_inv s' /\ g_cap_count s' = g_cap_count s /\
    (forall k, is_on (g_can_entry_ptrs s) k -> is_on (g_can_entry_ptrs s') k) /\
    forall k, i <= k < i + Z.of_nat n -> is_on (g_can_entry_ptrs s') k.
Proof.
  induction n as [|n IH]; intros i s Hinv Hz Hi Hn; [exists s; split; [done|]; split; [done|]; split; [done|]; split; [done|]; lia|].
  assert (0 <= i < g_cap_count s) as Hr by lia.
  destruct (cap_activate_spec can_fuel i (count_bound _ _ Hinv (proj2 Hr)) s (inv_ready _ _ Hinv Hr)) as (s1 & r & E & Hp & Hres & Hok).
  assert (g_cap_count s1 = g_cap_count s) as Hc by (unfold g_cap_count; by rewrite (same_graph_length _ _ (pr_graph _ _ _ Hp))).
  destruct (IH (i + 1) s1) as (s' & E' & Hinv' & Hc' & Hk & Ha); [by eapply inv_progress|by apply Hp|lia|lia|].
  exists s'. cbn [activate_all]. unfold mbind, M_bind. rewrite E, E'. split; [done|]. split; [done|]. split; [congruence|]. split.
  - intros k Hon. apply Hk. by eapply progress_on.
  - intros k Hki. destruct (decide (k = i)) as [->|]; [|apply Ha; lia]. apply Hk. destruct Hres as [[_ Hon]|[[->| ->] _]]; [done| |]; specialize (Hok Hz); done.
Qed.

(** The boot loop brings the system up.  If no activation callback fails, activating
    the entries in order of registration leaves every entry of the registry on. *)
Theorem boot_brings_up s : can_inv s -> Forall (eq 0) (callbacks s) ->
  exists s', activate_all (length (g_can_entry_ptrs s)) 0 s = Some (s', tt) /\ can_inv s' /\
    forall i, 0 <= i < g_cap_count s -> is_on (g_can_entry_ptrs s') i.
Proof.
  intros Hinv Hz. destruct (activate_all_spec (length (g_can_entry_ptrs s)) 0 s Hinv Hz) as (s' & E & Hinv' & _ & _ & H); [lia|done|].
  exists s'. split; [done|]. split; [done|]. intros i Hi. apply H. unfold g_cap_count in Hi. lia.
Qed.

(** The advisory passes of the registration are exact.  They warn that a component
    cannot reach hardware precisely when no hardware entry is needed, directly or not, by
    its dependencies, and report a dependency as redundant precisely when another one
    needs it. *)
Theorem warnings_exact s (name : list Z) (type : Z) (deps : list Z) : let l := g_can_entry_ptrs s in
  can_inv s -> (forall d, d ∈ deps -> is_Some (entry_at l d)) ->
  (exists w, pass5 l name type deps = Some w /\ (w <> [] <-> type <> CAP_HARDWARE /\ deps <> [] /\ ~ reaches_hardware l deps)) /\
  forall i di, deps !! i = Some di -> exists via, redundant_via l deps i (length deps) 0 = Some via /\
    (via <> None <-> exists j dj, j <> i /\ deps !! j = Some dj /\ tc (dep_of l) dj di).
Proof.
  intros l [Hw Hc _ _ _ _] Hd. split; [destruct (pass5_spec l Hw Hc name type deps Hd) as (w & ? & _ & ?); eauto|].
  intros i di Hi. destruct (redundant_via_spec l Hw Hc deps i di Hd Hi (length deps) 0 eq_refl) as (via & E & Hvia).
  exists via. split; [done|]. rewrite Hvia. split; intros (x & dx & H); exists x, dx; naive_solver lia.
Qed.

(** ** Explanations *)
Lemma put_text_length buf n text : Z.of_nat (length buf) <= n - 1 -> Z.of_nat (length (put_text buf n text)) <= n - 1.
Proof. intros H. unfold put_text. rewrite length_app, length_take. lia. Qed.

Lemma blame_spec n name st : 2 <= n -> Z.of_nat (length st.1) <= n - 1 -> (st.2 = false -> st.1 = []) ->
  Z.of_nat (length (blame (Some n) name st).1) <= n - 1 /\ (blame (Some n) name st).2 = true.
Proof.
  destruct st as [buf found]. cbn [fst snd]. intros Hn Hl Hf. unfold blame. destruct (Z.ltb_spec (Z.of_nat (length buf)) (n - 1)).
  - split; [|done]. cbn [fst]. apply put_text_length. destruct found; cbn [andb]; [|by apply put_text_length].
    destruct (Z.ltb_spec (Z.of_nat (length buf)) (n - 3)); [|done]. rewrite length_app. change (length (bytes_of _)) with 2%nat. lia.
  - destruct found; [done|]. specialize (Hf eq_refl). subst. cbn in H. lia.
Qed.

Lemma why_deps_spec s n deps : can_inv s -> 2 <= n -> (forall d, d ∈ deps -> is_Some (entry_at (g_can_entry_ptrs s) d)) ->
  forall st, Z.of_nat (length st.1) <= n - 1 -> (st.2 = false -> st.1 = []) ->
  exists st', why_deps (Some n) deps st s = Some (s, st') /\ Z.of_nat (length st'.1) <= n - 1 /\
    (st'.2 = true <-> st.2 = true \/ exists d, d ∈ deps /\ ~ is_on (g_can_entry_ptrs s) d).
Proof.
  intros Hinv Hn. induction deps as [|d deps IH]; intros Hd st Hl Hf; cbn [why_deps].
  { exists st. split; [done|]. split; [done|]. split; [by left|]. intros [|(d & Hx & _)]; [done|by apply elem_of_nil in Hx]. }
  destruct (Hd d ltac:(left)) as [e He]. pose proof (entry_at_bound _ _ _ He) as Hb. unfold mbind, M_bind, gets. unfold g_cap_count.
  destruct (Z.geb_spec d (Z.of_nat (length (g_can_entry_ptrs s)))); [lia|]. rewrite (deref_eq _ _ _ He), (we_live _ _ _ (proj2 (ci_wf _ Hinv) _ _ He)). cbn [orb].
  assert (forall d', d' ∈ deps -> is_Some (entry_at (g_can_entry_ptrs s) d')) as Hd' by (intros d' ?; apply Hd; by right).
  destruct (Z.eqb_spec (c_state e) CAP_STATE_ON) as [Es|Es]; cbn [negb].
  - destruct (IH Hd' st Hl Hf) as (st' & E & Hl' & Hiff). exists st'. split; [done|]. split; [done|]. rewrite Hiff. split; (intros [|(x & Hx & Hon)]; [by left|right]).
    + exists x. split; [by right|done].
    + apply elem_of_cons in Hx as [->|Hx]; [|by exists x]. destruct Hon. by exists e.
  - destruct (blame_spec n (c_name e) st Hn Hl Hf) as [Hl1 Hb1]. destruct (IH Hd' _ Hl1) as (st' & E & Hl' & Hiff); [by rewrite Hb1|].
    exists st'. split; [done|]. split; [done|]. rewrite Hiff, Hb1. split; [|by left]. intros _. right. exists d. split; [left|]. intros (e' & He' & ?). congruence.
Qed.

(** An explanation is exact and fits its buffer.  For a registered entry and a buffer
    of at least two bytes, the call returns without changing the network, its text leaves
    room for the terminator, a failed dependency is reported exactly when the entry is not
    on and some dependency is not on, and success exactly when the entry is on or is ready
    to be activated. *)
Theorem why_not_exact s i e n : can_inv s -> entry_at (g_can_entry_ptrs s) i = Some e -> in_u 32 (c_error_dep e) -> 2 <= n ->
  exists r text, cap_why_not i (Some n) s = Some (s, (r, text)) /\ Z.of_nat (length text) < n /\
    (r = CAP_ERR_DEP_FAILED <-> c_state e <> CAP_STATE_ON /\ exists d, d ∈ c_deps e /\ ~ is_on (g_can_entry_ptrs s) d) /\
    (r = CAP_OK <-> c_state e = CAP_STATE_ON \/ c_state e <> CAP_STATE_ERROR /\ ~ exists d, d ∈ c_deps e /\ ~ is_on (g_can_entry_ptrs s) d).
Proof.
  intros Hinv He Hu Hn. pose proof (proj2 (ci_wf _ Hinv) _ _ He) as Hw. assert (forall text, Z.of_nat (length (say (Some n) text)) < n) as Hsay.
  { intros text. unfold say, cap_strcpy. destruct (Z.gtb_spec n 0); [rewrite length_take|cbn]; lia. }
  unfold cap_why_not, mbind, M_bind. unfold gets at 1. rewrite (in_range _ _ _ He), (deref_eq _ _ _ He), (we_live _ _ _ Hw).
  destruct (Z.eqb_spec (c_state e) CAP_STATE_ON) as [Eon|Eon]; [eexists _, _; split; [reflexivity|]; split; [apply Hsay|]; split; split; naive_solver|].
  assert (forall d, d ∈ c_deps e -> is_Some (entry_at (g_can_entry_ptrs s) d)) as Hd by (intros d Hd; apply (ci_closed _ Hinv i d); by exists e).
  destruct (why_deps_spec s n (c_deps e) Hinv Hn Hd ([], false)) as (st & -> & Hl & Hiff); [cbn; lia|done|].
  destruct st as [buf [|]]; cbn [fst snd] in *.
  { apply proj1 in Hiff. specialize (Hiff eq_refl) as [|Hiff]; [done|]. eexists _, _. split; [reflexivity|]. split; [lia|]. split; [done|]. split; [done|]. naive_solver. }
  assert (~ exists d, d ∈ c_deps e /\ ~ is_on (g_can_entry_ptrs s) d) as Hno by (intros H; apply proj2 in Hiff; specialize (Hiff (or_intror H)); done).
  destruct (Z.eqb_spec (c_state e) CAP_STATE_ERROR) as [Eerr|Eerr];
    [|eexists _, _; split; [reflexivity|]; split; [apply Hsay|]; split; split; naive_solver].
  destruct (Z.gtb_spec n 0); [|lia]. unfold gets. cbn [andb]. destruct (Z.ltb_spec (c_error_dep e) (g_cap_count s)).
  - destruct (live_entry (g_can_entry_ptrs s) (c_error_dep e)) as [e' He']; [apply Hinv|unfold in_u, g_cap_count in *; lia|].
    rewrite (deref_eq _ _ _ He'). eexists _, _. split; [reflexivity|]. change (default 0 (Some n)) with n. specialize (Hsay (bytes_of "dep failed: ")).
    split; [rewrite length_app; unfold cap_strcpy at 1; rewrite length_take; lia|]. split; split; naive_solver.
  - eexists _, _. split; [reflexivity|]. split; [apply Hsay|]. split; split; naive_solver.
Qed.

(** ** Tokens from the lookup call *)
Lemma can_object_fields i : kind (can_object i) = CAP_KIND_CAN /\ deleted (can_object i) = false /\ generation (can_object i) = 1 /\
  rights_bitmap (can_object i) = RIGHTS_ALL /\ flags (can_object i) = CAP_FLAG_IMMORTAL |. CAP_FLAG_PUBLIC /\ kind_data (can_object i) = i.
Proof. split; [done|]. repeat split; vm_compute; done. Qed.

(** The object leads back to its entry, and to no other. *)
Lemma by_object_idx s i e : can_inv s -> entry_at (g_can_entry_ptrs s) i = Some e -> c_object_idx e <> CAP_OBJECT_IDX_NONE ->
  cap_can_by_object_idx s (c_object_idx e) = i.
Proof.
  intros Hinv He Hne. destruct (ci_wf _ Hinv) as [_ Hw]. unfold cap_can_by_object_idx. destruct (Z.eqb_spec (c_object_idx e) CAP_OBJECT_IDX_NONE); [done|].
  pose proof (proj1 (entry_at_Some _ _ _) He) as [Hi Hl]. destruct (find_index _ _) as [k|] eqn:Ek.
  - apply find_index_Some in Ek as ([ek|] & Hk & Hb); [|done]. apply andb_true_iff in Hb as [_ Hb%Z.eqb_eq].
    assert (entry_at (g_can_entry_ptrs s) (Z.of_nat k) = Some ek) as Hek by (apply entry_at_Some; rewrite Nat2Z.id; split; [lia|done]).
    destruct (ci_paired _ Hinv _ _ He) as [|[_ H1]]; [done|]. destruct (ci_paired _ Hinv _ _ Hek) as [|[_ H2]]; [congruence|].
    rewrite Hb, H1 in H2. by injection H2.
  - eapply find_index_None in Ek; [|exact Hl]. cbn in Ek. rewrite (we_live _ _ _ (Hw _ _ He)), Z.eqb_refl in Ek. done.
Qed.

Lemma can_token_resolves r i pid right idx : g_cap_object_ptrs r !! idx = Some (can_object i) -> 1 <= idx < CAP_OBJECT_CAPACITY ->
  has_all RIGHTS_ALL right = true ->
  let tok := cap_token_pack 1 idx (u8 ((CAP_FLAG_IMMORTAL |. CAP_FLAG_PUBLIC) &. 0xFF)) in
  cap_token_idx tok = idx /\ cap_token_resolve r pid tok right = Some (can_object i).
Proof.
  intros Ho Hidx Hr. change (u8 _) with 9. intros tok. assert (in_u 32 1 /\ in_u 24 idx /\ in_u 8 9) as (H1 & H2 & H3) by (unfold in_u, CAP_OBJECT_CAPACITY in *; lia).
  pose proof (pack_idx 1 idx 9 H1 H2 H3 : cap_token_idx tok = idx) as Ei. pose proof (pack_gen 1 idx 9 H1 H2 H3 : cap_token_gen tok = 1) as Eg.
  split; [done|]. unfold cap_token_resolve, cap_token_is_null. rewrite Ei. destruct (Z.eqb_spec idx 0); [lia|]. cbn [orb].
  destruct (Z.geb_spec idx CAP_OBJECT_CAPACITY); [lia|]. rewrite Ho. destruct (can_object_fields i) as (_ & -> & -> & -> & -> & _). rewrite Eg. cbn [negb].
  rewrite Hr. done.
Qed.

Lemma lookup_token s mem len i e : can_inv s -> 0 < len <= 64 -> cap_find s (Some (cstr (take (Z.to_nat len) mem))) = i ->
  entry_at (g_can_entry_ptrs s) i = Some e -> c_object_idx e <> CAP_OBJECT_IDX_NONE ->
  sys_can_lookup s (Some mem) len = cap_token_pack 1 (c_object_idx e) (u8 ((CAP_FLAG_IMMORTAL |. CAP_FLAG_PUBLIC) &. 0xFF)) /\
  1 <= c_object_idx e < CAP_OBJECT_CAPACITY /\ g_cap_object_ptrs (reg (can_world s)) !! c_object_idx e = Some (can_object i).
Proof.
  intros Hinv Hlen Hf He Hne. destruct (ci_paired _ Hinv _ _ He) as [|[Hr Ho]]; [done|]. split; [|done]. unfold sys_can_lookup.
  pose proof (entry_at_bound _ _ _ He) as Hb. destruct (Z.eqb_spec len 0), (Z.gtb_spec len 64); try lia. cbn [orb]. rewrite Hf.
  destruct (Z.ltb_spec i 0); [lia|]. unfold cap_get_object_idx. rewrite (in_range _ _ _ He), He, (we_live _ _ _ (proj2 (ci_wf _ Hinv) _ _ He)).
  destruct (Z.eqb_spec (c_object_idx e) CAP_OBJECT_IDX_NONE); [done|]. unfold cap_object_get. destruct (Z.geb_spec (c_object_idx e) CAP_OBJECT_CAPACITY); [lia|].
  rewrite Ho. destruct (can_object_fields i) as (_ & _ & -> & _ & -> & _). done.
Qed.

Lemma resolve_can_eq s i e tok right : can_inv s -> entry_at (g_can_entry_ptrs s) i = Some e -> c_object_idx e <> CAP_OBJECT_IDX_NONE ->
  cap_token_idx tok = c_object_idx e -> cap_token_resolve (reg (can_world s)) (can_caller s) tok right = Some (can_object i) ->
  resolve_can tok right s = Some (s, Some i).
Proof.
  intros Hinv He Hne Ei Er. unfold resolve_can, mbind, M_bind, gets. cbn [id]. unfold id. rewrite Er, Ei, (by_object_idx s i e Hinv He Hne). done.
Qed.

Lemma pledged_ok s : (pledge_check_and_audit (can_world s) (can_caller s) PLEDGE_CLASS_SYS_CONTROL).1 = true -> pledged s = Some (s, true).
Proof.
  intros Hp. rewrite pledged_eq, Hp. do 2 f_equal. unfold pledge_check_and_audit in *. destruct (tasks (can_world s) !! can_caller s) as [t|]; [|by destruct s].
  destruct (pledge_mask_allows (pledge_mask t) PLEDGE_CLASS_SYS_CONTROL); [by destruct s|done].
Qed.

(** Names, objects and tokens fit together.  For the first live entry with the name a
    process asks for, the lookup call yields a token, never zero, with which a process
    that keeps the control pledge switches exactly that entry: the activation and
    deactivation calls on the token are the kernel's own operations on the entry. *)
Theorem lookup_then_act s mem len i e : can_inv s ->
  (pledge_check_and_audit (can_world s) (can_caller s) PLEDGE_CLASS_SYS_CONTROL).1 = true ->
  0 < len <= 64 -> cap_find s (Some (cstr (take (Z.to_nat len) mem))) = i -> entry_at (g_can_entry_ptrs s) i = Some e ->
  c_object_idx e <> CAP_OBJECT_IDX_NONE ->
  sys_can_lookup s (Some mem) len <> 0 /\
  sys_can_activate_t (sys_can_lookup s (Some mem) len) s = (rc ← cap_activate can_fuel i; mret (u64 rc)) s /\
  sys_can_deactivate_t (sys_can_lookup s (Some mem) len) s =
    (rc ← cap_deactivate_count i; mret (if negb (fst rc =? CAP_OK) then u64 (fst rc) else snd rc)) s.
Proof.
  intros Hinv Hp Hlen Hf He Hne. destruct (lookup_token s mem len i e Hinv Hlen Hf He Hne) as (-> & Hr & Ho). set (tok := cap_token_pack _ _ _).
  pose proof (fun right H => can_token_resolves (reg (can_world s)) i (can_caller s) right (c_object_idx e) Ho Hr H) as Hres. cbv zeta in Hres. fold tok in Hres.
  assert (i <? 0 = false) as Hi by (apply entry_at_bound in He; lia). split; [|split].
  - intros Ez. destruct (Hres 0 eq_refl) as [E _]. rewrite Ez in E. change (cap_token_idx 0) with 0 in E. lia.
  - destruct (Hres RIGHT_ACTIVATE eq_refl) as [Ei Er]. unfold sys_can_activate_t, mbind at 1, M_bind at 1. rewrite (pledged_ok s Hp). cbn [negb].
    unfold mbind at 1, M_bind at 1. rewrite (resolve_can_eq s i e tok _ Hinv He Hne Ei Er), Hi. done.
  - destruct (Hres RIGHT_DEACTIVATE eq_refl) as [Ei Er]. unfold sys_can_deactivate_t, mbind at 1, M_bind at 1. rewrite (pledged_ok s Hp). cbn [negb].
    unfold mbind at 1, M_bind at 1. rewrite (resolve_can_eq s i e tok _ Hinv He Hne Ei Er), Hi. done.
Qed.

(** ** Unregistration *)
Lemma cap_deactivate_live s i e : can_inv s -> entry_at (g_can_entry_ptrs s) i = Some e -> exists s1 r e1, cap_deactivate i s = Some (s1, r) /\
  entry_at (g_can_entry_ptrs s1) i = Some e1 /\ length (g_can_entry_ptrs s1) = length (g_can_entry_ptrs s).
Proof.
  intros Hinv He. pose proof (offs_bound (g_can_entry_ptrs s)) as Ho. pose proof (entry_at_bound _ _ _ He) as Hb.
  assert (MAX_CAPABILITIES - i < Z.of_nat can_fuel) as Hf by (unfold can_fuel; lia).
  destruct (cap_deactivate_spec can_fuel i Hf s 0) as (s1 & r & n & E & [Hq _ _ _ _ _]); [apply Hinv|by exists e|lia|].
  pose proof (qn_graph _ _ _ Hq) as Hg. destruct (same_graph_entry _ _ _ _ (symmetry Hg) He) as (e1 & He1 & _). exists s1, r, e1.
  split; [|split; [done|by rewrite <- (same_graph_length _ _ Hg)]].
  unfold cap_deactivate, cap_deactivate_count, mbind, M_bind, gets. rewrite (in_range _ _ _ He), E. done.
Qed.

(** Unregistration leaves a hole the other operations fall into.  Unregistering any
    application or feature succeeds, whatever its dependents answer; afterwards its number
    is still in range while the slot is freed, and activating, watching or querying it
    follows the freed pointer. *)
Theorem unregister_leaves_hole s i e : can_inv s -> entry_at (g_can_entry_ptrs s) i = Some e -> CAP_APPLICATION <= c_type e ->
  exists s', cap_unregister i s = Some (s', CAP_OK) /\ out_of_range s' i = false /\ entry_at (g_can_entry_ptrs s') i = None /\
    cap_activate can_fuel i s' = None /\ (forall pid, cap_watch i pid s' = None) /\ cap_get_state i s' = None /\ cap_get_owner i s' = None.
Proof.
  intros Hinv He Ht. pose proof (entry_at_bound _ _ _ He) as Hb.
  assert (exists s1 e1, (if (c_state e =? CAP_STATE_ON) || (c_state e =? CAP_STATE_STARTING) then cap_deactivate i;; mret tt else mret tt) s = Some (s1, tt) /\
    entry_at (g_can_entry_ptrs s1) i = Some e1 /\ length (g_can_entry_ptrs s1) = length (g_can_entry_ptrs s)) as (s1 & e1 & E1 & He1 & Hl).
  { destruct (_ || _); [|by exists s, e]. destruct (cap_deactivate_live s i e Hinv He) as (s1 & r & e1 & E & ? & ?). exists s1, e1.
    split; [|done]. unfold mbind, M_bind. by rewrite E. }
  assert (exists s', cap_unregister i s = Some (s', CAP_OK) /\ g_can_entry_ptrs s' = upd (g_can_entry_ptrs s1) i None) as (s' & E & Hs').
  { unfold cap_unregister, mbind at 1, M_bind at 1, gets at 1. rewrite (in_range _ _ _ He). unfold mbind at 1, M_bind at 1. rewrite (deref_eq _ _ _ He).
    rewrite (we_live _ _ _ (proj2 (ci_wf _ Hinv) _ _ He)). destruct (Z.ltb_spec (c_type e) CAP_APPLICATION); [lia|].
    unfold mbind at 1, M_bind at 1. rewrite E1. unfold mbind at 1, M_bind at 1. rewrite (deref_eq _ _ _ He1). unfold mbind, M_bind, modify.
    destruct (negb _); eexists; split; reflexivity. }
  exists s'. split; [done|]. assert (out_of_range s' i = false) as Ho by (unfold out_of_range, g_cap_count; rewrite Hs', length_upd, Hl; lia).
  assert (entry_at (g_can_entry_ptrs s') i = None) as Hn by (rewrite Hs', entry_at_upd, Z.eqb_refl by lia; done).
  assert (deref i s' = None) as Hd by (unfold deref; unfold entry_at in Hn; destruct (get (g_can_entry_ptrs s') i) as [[?|]|]; done).
  split; [done|]. split; [done|]. unfold can_fuel, cap_watch, cap_get_state, cap_get_owner. cbn [cap_activate]. unfold mbind, M_bind, gets. rewrite Ho, Hd. done.
Qed.

(** ** An example: hardware, a driver, a service and an application *)
Definition demo_part (name : list Z) (type : Z) (deps : list (list Z)) : can_op :=
  Op_register true true (Some name) type 0 0 (Some (map Some deps)) (Z.of_nat (length deps)) true true None 0 false.

Definition demo_parts : list can_op :=
  [ demo_part [99; 112; 117] CAP_HARDWARE []; demo_part [107; 98; 100] CAP_DRIVER [[99; 112; 117]];
    demo_part [102; 115] CAP_SERVICE [[107; 98; 100]]; demo_part [115; 104] CAP_APPLICATION [[102; 115]; [107; 98; 100]] ].

Definition demo_can_world : world := World (cap_object_init registry_boot) ∅ 0 [].
Definition demo_network (cbs : list Z) : can :=
  match can_run demo_parts (can_boot demo_can_world 5 cbs) with Some (s, _) => s | None => can_boot demo_can_world 5 cbs end.

Lemma demo_part_ok name type deps : (length deps <= 8)%nat -> can_op_ok (demo_part name type deps).
Proof. intros Hd. split; [|done]. intros ns [= <-]. rewrite length_map. unfold clamp. lia. Qed.

Lemma demo_parts_ok : Forall can_op_ok demo_parts.
Proof. unfold demo_parts. repeat (apply Forall_cons; split; [apply demo_part_ok; cbn; lia|]). apply Forall_nil_2. Qed.

Lemma demo_network_inv cbs : can_inv (demo_network cbs).
Proof. unfold demo_network. by destruct (run_keeps _ demo_parts_ok _ (boot_inv demo_can_world 5 cbs)) as (s & rs & -> & H). Qed.

Lemma network_safe_witness : exists s rs, can_run (demo_parts ++ [Op_activate 3; Op_deactivate 1]) (can_boot demo_can_world 5 [0; 1]) = Some (s, rs) /\
  length rs = 6%nat /\ can_inv s.
Proof.
  apply (network_safe demo_can_world 5 [0; 1] (demo_parts ++ [Op_activate 3; Op_deactivate 1])). apply Forall_app. split; [exact demo_parts_ok|].
  apply Forall_cons. split; [exact I|]. apply Forall_cons. split; [exact I|apply Forall_nil_2].
Defined.

(** The driver's callback fails: the service and the application report it. *)
Lemma activate_correct_witness : (exists s, cap_activate can_fuel 3 (demo_network [7]) = Some (s, CAP_ERR_DEP_FAILED)) /\
  exists s' r, cap_activate can_fuel 3 (demo_network []) = Some (s', r) /\ r = CAP_OK.
Proof.
  split; [eexists; vm_compute; reflexivity|]. destruct (activate_correct (demo_network []) 3) as (s' & r & E & _ & _ & _ & _ & H).
  - apply demo_network_inv.
  - vm_compute. split; [discriminate|reflexivity].
  - exists s', r. split; [exact E|]. apply H. vm_compute. constructor.
Defined.

Definition demo_running : can := match activate_all 4 0 (demo_network []) with Some (s, _) => s | None => demo_network [] end.

Lemma demo_running_inv : can_inv demo_running.
Proof.
  unfold demo_running. destruct (activate_all_spec 4 0 (demo_network []) (demo_network_inv [])) as (s & E & H & _); [vm_compute; constructor|lia|vm_compute; done|].
  by rewrite E.
Qed.

Lemma deactivate_correct_witness : exists s' n, cap_deactivate_count 1 demo_running = Some (s', (CAP_OK, n)) /\ n = 3 /\ ~ is_on (g_can_entry_ptrs s') 3.
Proof.
  assert (exists s, cap_deactivate_count 1 demo_running = Some (s, (CAP_OK, 3))) as [s1 E1] by (eexists; vm_compute; reflexivity).
  destruct (deactivate_correct demo_running 1) as (s' & r & n & E & _ & _ & H & _ & _ & _ & _).
  - apply demo_running_inv.
  - vm_compute. split; [discriminate|reflexivity].
  - exists s', n. rewrite E1 in E. injection E as <- <- <-. split; [exact E1|]. split; [reflexivity|]. apply (H eq_refl).
    apply rtc_once. eexists. split; [vm_compute; reflexivity|]. vm_compute. right. left.
Defined.

Lemma boot_brings_up_witness : exists s', activate_all 4 0 (demo_network []) = Some (s', tt) /\ is_on (g_can_entry_ptrs s') 3.
Proof.
  destruct (boot_brings_up (demo_network [])) as (s' & E & _ & H).
  - apply demo_network_inv.
  - vm_compute. constructor.
  - exists s'. split; [exact E|]. apply H. vm_compute. split; [discriminate|reflexivity].
Defined.

(** The application's dependency on the driver is redundant: the service needs it. *)
Lemma warnings_exact_witness : exists via, redundant_via (g_can_entry_ptrs (demo_network [])) [2; 1] 1 2 0 = Some via /\ via <> None.
Proof.
  destruct (warnings_exact (demo_network []) [115; 104] CAP_APPLICATION [2; 1]) as [_ H].
  - apply demo_network_inv.
  - intros d Hd. apply elem_of_cons in Hd as [->|Hd]; [eexists; vm_compute; reflexivity|]. apply list_elem_of_singleton in Hd as ->. eexists; vm_compute; reflexivity.
  - destruct (H 1%nat 1 eq_refl) as (via & E & Hv). exists via. split; [exact E|]. apply Hv. exists 0%nat, 2. split; [discriminate|]. split; [reflexivity|].
    apply tc_once. eexists. split; [vm_compute; reflexivity|]. vm_compute. left.
Defined.

Lemma lookup_then_act_witness : sys_can_lookup (demo_network []) (Some [107; 98; 100; 0; 9]) 5 <> 0 /\
  exists s', sys_can_activate_t (sys_can_lookup (demo_network []) (Some [107; 98; 100; 0; 9]) 5) (demo_network []) = Some (s', 0).
Proof.
  destruct (lookup_then_act (demo_network []) [107; 98; 100; 0; 9] 5 1
    (default (new_entry [] 0 0 0 [] [] false false false 0 []) (entry_at (g_can_entry_ptrs (demo_network [])) 1))) as (H1 & H2 & _).
  - apply demo_network_inv.
  - vm_compute. reflexivity.
  - lia.
  - vm_compute. reflexivity.
  - vm_compute. reflexivity.
  - vm_compute. discriminate.
  - split; [exact H1|]. rewrite H2. eexists. vm_compute. reflexivity.
Defined.

Lemma unregister_leaves_hole_witness : exists s', cap_unregister 3 demo_running = Some (s', CAP_OK) /\ cap_get_state 3 s' = None.
Proof.
  destruct (unregister_leaves_hole demo_running 3
    (default (new_entry [] 0 0 0 [] [] false false false 0 []) (entry_at (g_can_entry_ptrs demo_running) 3))) as (s' & E & _ & _ & _ & _ & H & _).
  - apply demo_running_inv.
  - vm_compute. reflexivity.
  - vm_compute. discriminate.
  - exists s'. split; [exact E|exact H].
Defined.

Lemma why_not_exact_witness : exists r text, cap_why_not 3 (Some 64) (demo_network []) = Some (demo_network [], (r, text)) /\
  Z.of_nat (length text) < 64 /\ (r = CAP_ERR_DEP_FAILED <->
    CAP_STATE_OFF <> CAP_STATE_ON /\ exists d, d ∈ [2; 1] /\ ~ is_on (g_can_entry_ptrs (demo_network [])) d).
Proof.
  destruct (why_not_exact (demo_network []) 3
    (default (new_entry [] 0 0 0 [] [] false false false 0 []) (entry_at (g_can_entry_ptrs (demo_network [])) 3)) 64) as (r & text & E & Hl & H & _).
  - apply demo_network_inv.
  - vm_compute. reflexivity.
  - vm_compute. split; [discriminate|reflexivity].
  - lia.
  - exists r, text. split; [exact E|]. split; [exact Hl|exact H].
Defined.

(** The index of the failed dependency starts as zero, so a failed callback is blamed on
    the first entry of the registry. *)
Lemma why_not_blames_first_entry : exists s, can_run [Op_activate 1] (demo_network [7]) = Some (s, [CAP_ERR_ACTIVATE_FAIL]) /\
  cap_why_not 1 (Some 64) s = Some (s, (CAP_ERR_ACTIVATE_FAIL, bytes_of "dep failed: cpu")).
Proof. eexists. split; vm_compute; reflexivity. Qed.

(** A registration with a dependency that comes after the hole, or nowhere, faults too. *)
Lemma register_past_hole : exists s', cap_unregister 3 (demo_network []) = Some (s', CAP_OK) /\
  can_exec (demo_part [120] CAP_FEATURE [[121]]) s' = None /\ is_Some (can_exec (demo_part [120] CAP_FEATURE [[102; 115]]) s').
Proof. eexists. split; [vm_compute; reflexivity|]. split; [vm_compute; reflexivity|]. eexists. vm_compute. reflexivity. Qed.

(** The stored name is cut to 31 bytes but compared in full: the same long name can be
    registered twice and is never found. *)
Lemma long_name_registered_twice : let name := replicate 32 97 in
  exists s, can_run [demo_part name CAP_HARDWARE []; demo_part name CAP_HARDWARE []] (can_boot demo_can_world 5 []) = Some (s, [0; 1]) /\
    cap_find s (Some name) = CAP_ERR_NOT_FOUND.
Proof. eexists. split; [vm_compute; reflexivity|]. vm_compute. reflexivity. Qed.
