(* ===== verification/NetBytes.v ===== *)
(** * Bytes on the wire and the Internet checksum (user/netd.h, user/netd_ipv4.c)

    A buffer is the list of its bytes.  A read outside it is [None], so a parser
    that returns [Some] has stayed inside its input.  A builder returns the list
    of the bytes it writes.  The checksum of RFC 1071 is modelled with its 32-bit
    accumulator; the lemmas reduce it to arithmetic modulo 65535 and show that
    patching it into an even offset makes the buffer verify. *)
From S2P Require Import Prelude.
Local Open Scope Z_scope.
Local Open Scope c_scope.

Definition byte (b : Z) : Prop := in_u 8 b.
Definition bytes (l : list Z) : Prop := Forall byte l.

(** ** Byte order *)
Definition netd_htons (v : Z) : Z := u16 ((v <<. 8) |. (v >>. 8)).
Definition netd_ntohs (v : Z) : Z := netd_htons v.

Definition netd_write_be16 (v : Z) : list Z := [u8 (v >>. 8); u8 v].
Definition netd_write_be32 (v : Z) : list Z := [u8 (v >>. 24); u8 (v >>. 16); u8 (v >>. 8); u8 v].

Definition netd_read_be16 (buf : list Z) (i : Z) : option Z :=
  a ← get buf i; b ← get buf (i + 1); Some ((a <<. 8) |. b).
Definition netd_read_be32 (buf : list Z) (i : Z) : option Z :=
  a ← get buf i; b ← get buf (i + 1); c ← get buf (i + 2); d ← get buf (i + 3);
  Some ((a <<. 24) |. (b <<. 16) |. (c <<. 8) |. d).

(** ** The checksum *)

(** The two loops that add the 16-bit words and the odd byte. *)
Fixpoint add_words (sum : Z) (buf : list Z) : Z :=
  match buf with
  | a :: b :: buf' => add_words (u32 (sum + ((a <<. 8) |. b))) buf'
  | [a] => u32 (sum + (a <<. 8))
  | [] => sum
  end.

(** [while (sum >> 16) sum = (sum & 0xFFFF) + (sum >> 16)]; three rounds are
    enough for every 32-bit sum ([fold_carry_done]). *)
Fixpoint fold_carry (fuel : nat) (sum : Z) : Z :=
  match fuel with
  | O => sum
  | S f => if sum >>. 16 =? 0 then sum else fold_carry f (u32 ((sum &. 0xFFFF) + (sum >>. 16)))
  end.

Definition netd_inet_checksum (buf : list Z) (initial : Z) : Z :=
  let sum := fold_carry 3 (add_words initial buf) in
  netd_htons (u16 (Z.lnot sum &. 0xFFFF)).

(** The two stores that patch a checksum at offset [i]. *)
Definition store_checksum (buf : list Z) (i csum_be : Z) : list Z :=
  upd (upd buf i (u8 (netd_ntohs csum_be >>. 8))) (i + 1) (u8 (netd_ntohs csum_be &. 0xFF)).

(** ** Lemmas on bytes *)
Lemma land_FFFF x : x &. 0xFFFF = x mod 2 ^ 16.
Proof. by rewrite <- Z.land_ones. Qed.
Lemma land_FF x : x &. 0xFF = x mod 2 ^ 8.
Proof. by rewrite <- Z.land_ones. Qed.

Lemma shiftl_8 x : x <<. 8 = x * 256.
Proof. by rewrite Z.shiftl_mul_pow2 by lia. Qed.
Lemma shiftr_k x k : 0 <= k -> x >>. k = x / 2 ^ k.
Proof. intros. by rewrite Z.shiftr_div_pow2. Qed.

Lemma lor_add a b k : 0 <= k -> 0 <= b < 2 ^ k -> (a <<. k) |. b = a * 2 ^ k + b.
Proof.
  intros Hk Hb. rewrite <- Z.shiftl_mul_pow2 by done. symmetry.
  assert ((a <<. k) &. b = 0) as E.
  { apply Z.bits_inj'. intros i Hi. rewrite Z.land_spec, Z.bits_0, Z.shiftl_spec by done.
    destruct (Z_lt_le_dec i k).
    - rewrite Z.testbit_neg_r by lia. done.
    - rewrite (testbit_high k b i Hb) by lia. by rewrite andb_false_r. }
  by apply Z.add_nocarry_lor.
Qed.

Lemma word_of_bytes a b : byte b -> (a <<. 8) |. b = a * 256 + b.
Proof. intros Hb. apply (lor_add a b 8); [lia|]. exact Hb. Qed.

Lemma u16_split v : in_u 16 v -> u8 (v >>. 8) * 256 + u8 v = v.
Proof. intros Hv. rewrite shiftr_k by lia. unfold wrap, in_u in *. zlia. Qed.

Lemma get_app_r {A} (l1 l2 : list A) k :
  0 <= k -> get (l1 ++ l2) (Z.of_nat (length l1) + k) = get l2 k.
Proof.
  intros Hk. unfold get. destruct (Z.ltb_spec (Z.of_nat (length l1) + k) 0); [lia|].
  destruct (Z.ltb_spec k 0); [lia|]. rewrite lookup_app_r by lia. f_equal. lia.
Qed.

Lemma get_app_0 {A} (l1 l2 : list A) : get (l1 ++ l2) (Z.of_nat (length l1)) = get l2 0.
Proof. rewrite <- (get_app_r l1 l2 0) by lia. f_equal. lia. Qed.

Lemma get_app_l {A} (l1 l2 : list A) k :
  k < Z.of_nat (length l1) -> get (l1 ++ l2) k = get l1 k.
Proof.
  intros Hk. unfold get. destruct (Z.ltb_spec k 0); [done|]. apply lookup_app_l. lia.
Qed.

Lemma read_be16_app l1 v l2 :
  in_u 16 v -> netd_read_be16 (l1 ++ netd_write_be16 v ++ l2) (Z.of_nat (length l1)) = Some v.
Proof.
  intros Hv. unfold netd_read_be16. rewrite get_app_0, get_app_r by lia.
  unfold netd_write_be16. cbn [app]. get_simpl. rewrite word_of_bytes by (apply wrap_bound; lia).
  by rewrite u16_split.
Qed.

Lemma u32_split v : in_u 32 v ->
  ((u8 (v >>. 24) * 256 + u8 (v >>. 16)) * 256 + u8 (v >>. 8)) * 256 + u8 v = v.
Proof. intros Hv. rewrite !shiftr_k by lia. unfold wrap, in_u in *. zlia. Qed.

Lemma be32_value a b c d : byte a -> byte b -> byte c -> byte d ->
  (a <<. 24) |. (b <<. 16) |. (c <<. 8) |. d = ((a * 256 + b) * 256 + c) * 256 + d.
Proof.
  unfold byte, in_u. intros.
  replace ((a <<. 24) |. (b <<. 16) |. (c <<. 8) |. d)
    with (((((((a <<. 8) |. b) <<. 8) |. c) <<. 8)) |. d).
  - rewrite !(lor_add _ _ 8) by lia. lia.
  - rewrite !Z.shiftl_lor, !Z.shiftl_shiftl by lia. done.
Qed.

Lemma read_be32_app l1 v l2 :
  in_u 32 v -> netd_read_be32 (l1 ++ netd_write_be32 v ++ l2) (Z.of_nat (length l1)) = Some v.
Proof.
  intros Hv. unfold netd_read_be32. rewrite get_app_0, !get_app_r by lia.
  unfold netd_write_be32. cbn [app]. get_simpl. rewrite be32_value by (apply wrap_bound; lia).
  by rewrite u32_split.
Qed.

Lemma bytes_be16 v : bytes (netd_write_be16 v).
Proof. repeat constructor; apply wrap_bound; lia. Qed.
Lemma bytes_be32 v : bytes (netd_write_be32 v).
Proof. repeat constructor; apply wrap_bound; lia. Qed.
Lemma bytes_app l1 l2 : bytes (l1 ++ l2) <-> bytes l1 /\ bytes l2.
Proof. apply Forall_app. Qed.
#[export] Hint Resolve bytes_be16 bytes_be32 : grahaos.

(** Goals [bytes l] for lists made of literals, encoded words and known lists. *)
Ltac solve_bytes :=
  unfold bytes;
  repeat match goal with
  | H : bytes ?l |- Forall byte ?l => exact H
  | |- Forall byte (netd_write_be16 _) => apply bytes_be16
  | |- Forall byte (netd_write_be32 _) => apply bytes_be32
  | |- Forall byte (_ ++ _) => apply Forall_app_2
  | |- Forall byte (_ :: _) => apply Forall_cons_2
  | |- Forall byte [] => apply Forall_nil_2
  | |- byte (wrap 8 _) => apply wrap_bound; lia
  end;
  try (unfold byte, in_u in *; lia).

Lemma get_in_range (buf : list Z) i :
  0 <= i < Z.of_nat (length buf) -> exists b, get buf i = Some b.
Proof. intros H. by apply get_bound_Some in H as [b Hb]; exists b. Qed.

Lemma get_byte buf i b : bytes buf -> get buf i = Some b -> byte b.
Proof.
  intros Hb Hg. unfold get in Hg. destruct (i <? 0); [done|]. by eapply Forall_lookup_1 in Hb.
Qed.

Lemma read_be16_total buf i :
  bytes buf -> 0 <= i -> i + 2 <= Z.of_nat (length buf) ->
  exists v, netd_read_be16 buf i = Some v /\ in_u 16 v.
Proof.
  intros Hb Hi Hl. unfold netd_read_be16.
  destruct (get_in_range buf i) as [a Ha]; [lia|]. destruct (get_in_range buf (i + 1)) as [b Hb']; [lia|].
  rewrite Ha, Hb'. cbn. eexists. split; [done|].
  pose proof (get_byte _ _ _ Hb Ha). pose proof (get_byte _ _ _ Hb Hb').
  rewrite word_of_bytes by done. unfold byte, in_u in *. lia.
Qed.

Lemma read_be32_total buf i :
  bytes buf -> 0 <= i -> i + 4 <= Z.of_nat (length buf) ->
  exists v, netd_read_be32 buf i = Some v /\ in_u 32 v.
Proof.
  intros Hb Hi Hl. unfold netd_read_be32.
  destruct (get_in_range buf i) as [a Ha]; [lia|]. destruct (get_in_range buf (i + 1)) as [b Hb1]; [lia|].
  destruct (get_in_range buf (i + 2)) as [c Hc]; [lia|]. destruct (get_in_range buf (i + 3)) as [d Hd]; [lia|].
  rewrite Ha, Hb1, Hc, Hd. cbn. eexists. split; [done|].
  pose proof (get_byte _ _ _ Hb Ha). pose proof (get_byte _ _ _ Hb Hb1).
  pose proof (get_byte _ _ _ Hb Hc). pose proof (get_byte _ _ _ Hb Hd).
  rewrite be32_value by done. unfold byte, in_u in *. lia.
Qed.

(** ** The checksum as arithmetic modulo 65535 *)
Fixpoint wsum (l : list Z) : Z :=
  match l with
  | a :: b :: l' => a * 256 + b + wsum l'
  | [a] => a * 256
  | [] => 0
  end.

Lemma list_pair_ind (P : list Z -> Prop) :
  P [] -> (forall a, P [a]) -> (forall a b l, P l -> P (a :: b :: l)) -> forall l, P l.
Proof.
  intros H0 H1 H2 l. enough (P l /\ forall a, P (a :: l)) as [H _] by exact H.
  induction l as [|b l [IH1 IH2]]; [by split|]. split; [apply IH2|]. intros a. by apply H2.
Qed.

Lemma wsum_bound l : bytes l -> 0 <= 2 * wsum l <= 65535 * (Z.of_nat (length l) + 1).
Proof.
  induction l as [|a|a b l IH] using list_pair_ind; intros H.
  - cbn. lia.
  - apply Forall_cons in H as [Ha _]. unfold byte, in_u in Ha. cbn. lia.
  - apply Forall_cons in H as [Ha [Hb H]%Forall_cons]. specialize (IH H).
    unfold byte, in_u in Ha, Hb. cbn [wsum length]. lia.
Qed.

Lemma wsum_app l1 l2 : Nat.Even (length l1) -> wsum (l1 ++ l2) = wsum l1 + wsum l2.
Proof.
  induction l1 as [|a|a b l1 IH] using list_pair_ind; intros He.
  - done.
  - by destruct He as [n Hn]; cbn in Hn; lia.
  - cbn [wsum app]. rewrite IH; [lia|]. destruct He as [n Hn]. exists (n - 1)%nat. cbn in Hn. lia.
Qed.

Lemma add_words_wsum l s :
  bytes l -> 0 <= s -> s + wsum l < 2 ^ 32 -> add_words s l = s + wsum l.
Proof.
  revert s. induction l as [|a|a b l IH] using list_pair_ind; intros s H Hs Hb.
  - cbn. lia.
  - apply Forall_cons in H as [Ha _]. cbn in *. rewrite shiftl_8. apply wrap_small.
    unfold byte, in_u in *. lia.
  - apply Forall_cons in H as [Ha [Hb' H]%Forall_cons]. cbn [wsum add_words] in *.
    pose proof (wsum_bound l H). rewrite word_of_bytes by done.
    unfold byte, in_u in Ha, Hb'. rewrite wrap_small by (unfold in_u; lia).
    rewrite IH; [lia|done|lia|lia].
Qed.

(** One's-complement reduction: the representative in 1..65535, or 0 for 0. *)
Definition ones_reduce (s : Z) : Z := if s =? 0 then 0 else (s - 1) mod 65535 + 1.

Lemma fold_step s : 2 ^ 16 <= s -> ones_reduce ((s &. 0xFFFF) + (s >>. 16)) = ones_reduce s.
Proof.
  intros Hs. rewrite land_FFFF, shiftr_k by lia.
  unfold ones_reduce. assert (1 <= s / 2 ^ 16) by (apply Z.div_le_lower_bound; lia).
  pose proof (Z.mod_pos_bound s (2 ^ 16)). destruct (Z.eqb_spec (s mod 2 ^ 16 + s / 2 ^ 16) 0); [lia|].
  destruct (Z.eqb_spec s 0); [lia|]. f_equal.
  replace (s - 1) with (s mod 2 ^ 16 + s / 2 ^ 16 - 1 + (s / 2 ^ 16) * 65535) by zlia.
  by rewrite Z.mod_add by lia.
Qed.

Lemma fold_carry_small f s : 0 <= s < 2 ^ 16 -> fold_carry f s = s.
Proof.
  intros Hs. destruct f; [done|]. cbn [fold_carry]. rewrite shiftr_k by lia.
  by rewrite Z.div_small by lia.
Qed.

Lemma fold_carry_big f s :
  2 ^ 16 <= s < 2 ^ 32 -> fold_carry (S f) s = fold_carry f ((s &. 0xFFFF) + (s >>. 16)).
Proof.
  intros Hs. cbn [fold_carry]. rewrite shiftr_k by lia.
  assert (1 <= s / 2 ^ 16 < 2 ^ 16) by (split; [apply Z.div_le_lower_bound|apply Z.div_lt_upper_bound]; lia).
  destruct (Z.eqb_spec (s / 2 ^ 16) 0); [lia|]. f_equal. apply wrap_small.
  rewrite land_FFFF.
  pose proof (Z.mod_pos_bound s (2 ^ 16)). unfold in_u. lia.
Qed.

Lemma ones_reduce_small s : 0 <= s < 2 ^ 16 -> ones_reduce s = s.
Proof. intros. unfold ones_reduce. destruct (Z.eqb_spec s 0); [done|]. zlia. Qed.

(** Three rounds fold every 32-bit sum to 16 bits. *)
Lemma fold_carry_done s : 0 <= s < 2 ^ 32 -> fold_carry 3 s = ones_reduce s.
Proof.
  intros Hs. destruct (Z_lt_le_dec s (2 ^ 16)) as [H1|H1].
  { by rewrite fold_carry_small, ones_reduce_small by lia. }
  rewrite fold_carry_big by lia. rewrite <- (fold_step s) by lia.
  assert (0 <= (s &. 0xFFFF) + (s >>. 16) <= 2 ^ 17 - 2) as Hb.
  { rewrite land_FFFF, shiftr_k by lia. zlia. }
  revert Hb. generalize ((s &. 0xFFFF) + (s >>. 16)). clear s Hs H1. intros s Hs.
  destruct (Z_lt_le_dec s (2 ^ 16)) as [H1|H1].
  { by rewrite fold_carry_small, ones_reduce_small by lia. }
  rewrite fold_carry_big by lia. rewrite <- (fold_step s) by lia.
  assert (0 <= (s &. 0xFFFF) + (s >>. 16) < 2 ^ 16) as Hb.
  { rewrite land_FFFF, shiftr_k by lia. zlia. }
  by rewrite fold_carry_small, ones_reduce_small by lia.
Qed.

Lemma ones_reduce_bound s : 0 <= s -> 0 <= ones_reduce s < 2 ^ 16.
Proof. intros. unfold ones_reduce. destruct (s =? 0); zlia. Qed.

Lemma htons_involutive v : in_u 16 v -> netd_htons (netd_htons v) = v.
Proof.
  intros Hv. unfold netd_htons. bitwise.
Qed.

Lemma htons_bound v : in_u 16 (netd_htons v).
Proof. apply wrap_bound. lia. Qed.

Lemma htons_0 v : in_u 16 v -> netd_htons v = 0 <-> v = 0.
Proof.
  intros Hv. split; [|by intros ->]. intros H. by rewrite <- (htons_involutive v Hv), H.
Qed.

(** The stored checksum, as a number. *)
Lemma inet_checksum_value l :
  bytes l -> Z.of_nat (length l) <= 65535 ->
  netd_ntohs (netd_inet_checksum l 0) = 65535 - ones_reduce (wsum l).
Proof.
  intros Hb Hl. pose proof (wsum_bound l Hb). unfold netd_inet_checksum, netd_ntohs.
  rewrite add_words_wsum by (done || lia). rewrite Z.add_0_l, fold_carry_done by lia.
  pose proof (ones_reduce_bound (wsum l) ltac:(lia)).
  rewrite htons_involutive by (apply wrap_bound; lia).
  rewrite land_FFFF. unfold wrap, Z.lnot. zlia.
Qed.

Lemma inet_checksum_zero l :
  bytes l -> Z.of_nat (length l) <= 65535 ->
  netd_inet_checksum l 0 = 0 <-> wsum l <> 0 /\ wsum l mod 65535 = 0.
Proof.
  intros Hb Hl. pose proof (wsum_bound l Hb).
  rewrite <- htons_0 by (apply wrap_bound; lia). fold (netd_ntohs (netd_inet_checksum l 0)).
  rewrite inet_checksum_value by done. unfold ones_reduce.
  destruct (Z.eqb_spec (wsum l) 0) as [->|]; [split; [done|]; by intros [? _]|].
  split; [intros; split; [done|]; zlia|]. intros [_ ?]. zlia.
Qed.

Lemma store_checksum_app l1 l2 c :
  in_u 16 (netd_ntohs c) ->
  store_checksum (l1 ++ [0; 0] ++ l2) (Z.of_nat (length l1)) c =
  l1 ++ netd_write_be16 (netd_ntohs c) ++ l2.
Proof.
  intros Hc. unfold store_checksum, upd.
  replace (Z.to_nat (Z.of_nat (length l1))) with (length l1 + 0)%nat by lia.
  replace (Z.to_nat (Z.of_nat (length l1) + 1)) with (length l1 + 1)%nat by lia.
  rewrite !insert_app_r. cbn. unfold netd_write_be16.
  assert (u8 (netd_ntohs c &. 255) = u8 (netd_ntohs c)) as ->; [|done].
  rewrite land_FF. unfold wrap. by rewrite Z.mod_mod.
Qed.

(** The heart of the matter: a checksum stored at an even offset over a zero
    field makes the whole buffer verify. *)
Lemma checksum_verifies l1 l2 c :
  bytes l1 -> bytes l2 -> Nat.Even (length l1) ->
  Z.of_nat (length l1 + length l2) <= 65000 ->
  let s := wsum l1 + wsum l2 in
  in_u 16 c -> (s + c) mod 65535 = 0 -> s + c <> 0 ->
  netd_inet_checksum (l1 ++ netd_write_be16 c ++ l2) 0 = 0.
Proof.
  intros H1 H2 He Hl s Hc Hm Hn. apply inet_checksum_zero.
  - rewrite !bytes_app. auto with grahaos.
  - rewrite !length_app. cbn [length netd_write_be16]. lia.
  - rewrite wsum_app by done. unfold netd_write_be16. cbn [app wsum].
    rewrite u16_split by done. subst s. split; [lia|]. rewrite <- Hm. f_equal. lia.
Qed.

Lemma patched_checksum_verifies l1 l2 :
  bytes l1 -> bytes l2 -> Nat.Even (length l1) ->
  Z.of_nat (length l1 + length l2) <= 65000 ->
  let buf := l1 ++ [0; 0] ++ l2 in
  netd_inet_checksum (store_checksum buf (Z.of_nat (length l1)) (netd_inet_checksum buf 0)) 0 = 0 /\
  store_checksum buf (Z.of_nat (length l1)) (netd_inet_checksum buf 0) =
    l1 ++ netd_write_be16 (netd_ntohs (netd_inet_checksum buf 0)) ++ l2.
Proof.
  intros H1 H2 He Hl buf.
  assert (Hs : store_checksum buf (Z.of_nat (length l1)) (netd_inet_checksum buf 0) =
    l1 ++ netd_write_be16 (netd_ntohs (netd_inet_checksum buf 0)) ++ l2).
  { apply store_checksum_app. apply htons_bound. }
  split; [|done]. rewrite Hs.
  assert (bytes [0; 0]) as H00 by (repeat constructor; done).
  assert (wsum buf = wsum l1 + wsum l2) as Hw.
  { unfold buf. rewrite wsum_app by done. cbn [app wsum]. lia. }
  rewrite (inet_checksum_value buf); [|unfold buf; by rewrite !bytes_app|unfold buf; rewrite !length_app; cbn [length]; lia].
  rewrite Hw. pose proof (wsum_bound l1 H1). pose proof (wsum_bound l2 H2).
  pose proof (ones_reduce_bound (wsum l1 + wsum l2) ltac:(lia)).
  apply checksum_verifies; try done.
  - unfold in_u. lia.
  - unfold ones_reduce in *. destruct (Z.eqb_spec (wsum l1 + wsum l2) 0) as [E|E]; [rewrite E; done|]. zlia.
  - unfold ones_reduce in *. destruct (Z.eqb_spec (wsum l1 + wsum l2) 0); zlia.
Qed.
