(* ===== verification/NetWire.v ===== *)
(** * Ethernet, IPv4, ICMP and UDP wire formats
    (user/netd_eth.c, netd_ipv4.c, netd_icmp.c, netd_udp.c)

    Builders return the bytes they write, parsers take the whole buffer and give
    [None] for a read outside it, [inl e] for the negative return code [e] and
    [inr p] for success.  The theorems: parsers are memory safe on every input,
    what is built parses back to what was built, and an echo request is answered
    by the matching echo reply. *)
From S2P Require Import Prelude NetBytes.
Local Open Scope Z_scope.
Local Open Scope c_scope.

Abbreviation parse_result A := (option (Z + A)).
Definition fail {A} (e : Z) : parse_result A := Some (inl e).
Definition ok {A} (a : A) : parse_result A := Some (inr a).

(** ** Ethernet *)
Abbreviation ETH_ALEN := 6.
Definition ETH_HDR_LEN : Z := 14.
Abbreviation ETH_TYPE_IPV4 := 0x0800.
Abbreviation ETH_TYPE_ARP := 0x0806.

Definition netd_eth_bcast : list Z := replicate 6 0xFF.
Definition netd_eth_zero : list Z := replicate 6 0.

Definition netd_mac_eq (a b : list Z) : bool := bool_decide (take 6 a = take 6 b).

Definition netd_eth_build (dst_mac src_mac : list Z) (ethertype : Z) : list Z :=
  take 6 dst_mac ++ take 6 src_mac ++ netd_write_be16 ethertype.

Definition netd_eth_parse (frame : list Z) : parse_result (list Z * list Z * Z) :=
  if Z.of_nat (length frame) <? ETH_HDR_LEN then fail (-1) else
  ethertype ← netd_read_be16 frame 12;
  ok (take 6 frame, take 6 (drop 6 frame), ethertype).

(** ** IPv4 *)
Definition IPV4_HDR_LEN_MIN : Z := 20.
Abbreviation IPV4_VERSION := 4.
Abbreviation IPV4_DEFAULT_TTL := 64.
Abbreviation IPPROTO_ICMP := 1.
Definition IPPROTO_TCP : Z := 6.
Definition IPPROTO_UDP : Z := 17.

Record ipv4_parsed := Ipv4_parsed {
  ip_src : Z; ip_dst : Z; ip_proto : Z; ip_ttl : Z; ip_total_len : Z; ip_id : Z;
  ip_flags_frag : Z; ip_payload : list Z
}.

Definition netd_ipv4_build_header (src dst proto id payload_len ttl : Z) : list Z :=
  let total_len := u16 (IPV4_HDR_LEN_MIN + payload_len) in
  let hdr := [u8 ((IPV4_VERSION <<. 4) |. 5); 0] ++ netd_write_be16 total_len ++
             netd_write_be16 id ++ netd_write_be16 0 ++ [ttl; proto] ++ netd_write_be16 0 ++
             netd_write_be32 src ++ netd_write_be32 dst in
  let csum_be := netd_inet_checksum hdr 0 in
  store_checksum hdr 10 csum_be.

Definition netd_ipv4_parse (buf : list Z) : parse_result ipv4_parsed :=
  let buf_len := Z.of_nat (length buf) in
  if buf_len <? IPV4_HDR_LEN_MIN then fail (-1) else
  vhl ← get buf 0;
  let version := u8 (vhl >>. 4) in
  let ihl := u8 (vhl &. 0x0F) in
  if negb (version =? IPV4_VERSION) then fail (-2) else
  if negb (ihl =? 5) then fail (-2) else
  total_len ← netd_read_be16 buf 2;
  id ← netd_read_be16 buf 4;
  flags_frag ← netd_read_be16 buf 6;
  ttl ← get buf 8;
  proto ← get buf 9;
  src ← netd_read_be32 buf 12;
  dst ← netd_read_be32 buf 16;
  if total_len <? IPV4_HDR_LEN_MIN then fail (-3) else
  if total_len >? buf_len then fail (-3) else
  if has_flag flags_frag 0x2000 || has_flag flags_frag 0x1FFF then fail (-4) else
  if negb (netd_inet_checksum (take 20 buf) 0 =? 0) then fail (-5) else
  ok (Ipv4_parsed src dst proto ttl total_len id flags_frag
        (take (Z.to_nat (total_len - IPV4_HDR_LEN_MIN)) (drop 20 buf))).

Definition netd_ipv4_build_pseudo_header (src dst proto l4_len : Z) : list Z :=
  netd_write_be32 src ++ netd_write_be32 dst ++ [0; proto] ++ netd_write_be16 l4_len.

(** The dotted-quad scanner: [s] is the string without its NUL.  [None] is the
    return value -1. *)
Fixpoint dotted_loop (s : list Z) (ip octet : Z) (has_digit : bool) (octet_idx : Z) : option Z :=
  let finish :=
    if negb has_digit then None else if octet_idx >=? 4 then None
    else Some (u32 ((ip <<. 8) |. (octet &. 0xFF))) in
  match s with
  | [] => ip' ← finish; if octet_idx + 1 =? 4 then Some ip' else None
  | c :: s' =>
      if (48 <=? c) && (c <=? 57) then
        let octet := octet * 10 + (c - 48) in
        if octet >? 255 then None else dotted_loop s' ip octet true octet_idx
      else if c =? 46 then ip' ← finish; dotted_loop s' ip' 0 false (octet_idx + 1)
      else None
  end.
Definition netd_ipv4_parse_dotted (s : list Z) : option Z := dotted_loop s 0 0 false 0.

(** ** ICMP *)
Definition ICMP_TYPE_ECHO_REPLY : Z := 0.
Abbreviation ICMP_TYPE_ECHO_REQUEST := 8.

Record icmp_echo := Icmp_echo {
  ic_type : Z; ic_code : Z; ic_id : Z; ic_seq : Z; ic_payload : list Z
}.

Definition netd_icmp_build_echo (type code id seq : Z) (payload : list Z) : list Z :=
  let out := [type; code] ++ netd_write_be16 0 ++ netd_write_be16 id ++ netd_write_be16 seq ++ payload in
  let csum_be := netd_inet_checksum out 0 in
  store_checksum out 2 csum_be.

Definition netd_icmp_parse_echo (buf : list Z) : parse_result icmp_echo :=
  if Z.of_nat (length buf) <? 8 then fail (-1) else
  if negb (netd_inet_checksum buf 0 =? 0) then fail (-2) else
  type ← get buf 0;
  code ← get buf 1;
  id ← netd_read_be16 buf 4;
  seq ← netd_read_be16 buf 6;
  ok (Icmp_echo type code id seq (drop 8 buf)).

(** The return code and the reply ([] when [*reply_len] is 0). *)
Definition netd_icmp_handle_incoming (ip : ipv4_parsed) (my_ip reply_buf_cap : Z)
    : option (Z * list Z) :=
  if negb (ip_proto ip =? IPPROTO_ICMP) then Some (0, []) else
  if negb (my_ip =? 0) && negb (ip_dst ip =? my_ip) then Some (0, []) else
  if Z.of_nat (length (ip_payload ip)) <? 8 then Some (-1, []) else
  r ← netd_icmp_parse_echo (ip_payload ip);
  match r with
  | inl rc => Some (rc, [])
  | inr e =>
      if negb (ic_type e =? ICMP_TYPE_ECHO_REQUEST) || negb (ic_code e =? 0) then Some (0, []) else
      let icmp_len := 8 + Z.of_nat (length (ic_payload e)) in
      let total := IPV4_HDR_LEN_MIN + icmp_len in
      if reply_buf_cap <? total then Some (-3, []) else
      let reply_src := if negb (my_ip =? 0) then my_ip else ip_dst ip in
      let reply_id := u16 (ip_id ip + 1) in
      Some (0, netd_ipv4_build_header reply_src (ip_src ip) IPPROTO_ICMP reply_id (u16 icmp_len)
                 IPV4_DEFAULT_TTL ++
               netd_icmp_build_echo ICMP_TYPE_ECHO_REPLY 0 (ic_id e) (ic_seq e) (ic_payload e))
  end.

(** ** UDP *)
Definition UDP_HDR_LEN : Z := 8.

(** [None] is the return value 0 for a datagram over 1500 bytes. *)
Definition netd_udp_build (src_ip dst_ip src_port dst_port : Z) (payload : list Z) : option (list Z) :=
  let total := UDP_HDR_LEN + Z.of_nat (length payload) in
  let out := netd_write_be16 src_port ++ netd_write_be16 dst_port ++ netd_write_be16 (u16 total) ++
             netd_write_be16 0 ++ payload in
  let pseudo := netd_ipv4_build_pseudo_header src_ip dst_ip IPPROTO_UDP (u16 total) in
  if total >? 1500 then None else
  let csum_be := netd_inet_checksum (pseudo ++ out) 0 in
  let csum_be := if csum_be =? 0 then 0xFFFF else csum_be in
  Some (store_checksum out 6 csum_be).

Definition netd_udp_parse (buf : list Z) (src_ip dst_ip : Z) : parse_result (Z * Z * list Z) :=
  let buf_len := Z.of_nat (length buf) in
  if buf_len <? UDP_HDR_LEN then fail (-1) else
  src_port ← netd_read_be16 buf 0;
  dst_port ← netd_read_be16 buf 2;
  len ← netd_read_be16 buf 4;
  checksum ← netd_read_be16 buf 6;
  if len <? UDP_HDR_LEN then fail (-2) else
  if len >? buf_len then fail (-2) else
  let done := ok (src_port, dst_port, take (Z.to_nat (len - UDP_HDR_LEN)) (drop 8 buf)) in
  if negb (checksum =? 0) then
    if len >? 1500 then fail (-3) else
    let scratch := netd_ipv4_build_pseudo_header src_ip dst_ip IPPROTO_UDP len ++
                   take (Z.to_nat len) buf in
    if negb (netd_inet_checksum scratch 0 =? 0) then fail (-4) else done
  else done.

(** ** Memory safety of the parsers *)
Ltac read_ok :=
  repeat match goal with
  | |- context [get ?buf ?i] =>
      let b := fresh "b" in let E := fresh "E" in
      destruct (get_in_range buf i) as [b E]; [lia|]; rewrite E; cbn [mbind option_bind]
  | Hb : bytes ?buf |- context [netd_read_be16 ?buf ?i] =>
      let v := fresh "v" in let E := fresh "E" in let Hv := fresh "Hv" in
      destruct (read_be16_total buf i Hb) as (v & E & Hv); [lia|lia|]; rewrite E; cbn [mbind option_bind]
  | Hb : bytes ?buf |- context [netd_read_be32 ?buf ?i] =>
      let v := fresh "v" in let E := fresh "E" in let Hv := fresh "Hv" in
      destruct (read_be32_total buf i Hb) as (v & E & Hv); [lia|lia|]; rewrite E; cbn [mbind option_bind]
  | |- context [if ?c then _ else _] => let E := fresh "E" in destruct c eqn:E
  | |- is_Some (fail _) => by eexists
  | |- is_Some (ok _) => by eexists
  end.

Lemma eth_parse_safe frame : bytes frame -> is_Some (netd_eth_parse frame).
Proof. intros Hb. unfold netd_eth_parse, ETH_HDR_LEN. read_ok. Qed.

Lemma ipv4_parse_safe buf : bytes buf -> is_Some (netd_ipv4_parse buf).
Proof. intros Hb. unfold netd_ipv4_parse, IPV4_HDR_LEN_MIN. read_ok. Qed.

Lemma icmp_parse_safe buf : bytes buf -> is_Some (netd_icmp_parse_echo buf).
Proof. intros Hb. unfold netd_icmp_parse_echo. read_ok. Qed.

Lemma udp_parse_safe buf src dst : bytes buf -> is_Some (netd_udp_parse buf src dst).
Proof. intros Hb. unfold netd_udp_parse, UDP_HDR_LEN. cbv zeta. read_ok. Qed.

(** ** What is built verifies and parses back *)
Lemma even_length_10 (l : list Z) : length l = 10%nat -> Nat.Even (length l).
Proof. intros ->. by exists 5%nat. Qed.

Definition ipv4_front (total id ttl proto : Z) : list Z :=
  [0x45; 0] ++ netd_write_be16 total ++ netd_write_be16 id ++ netd_write_be16 0 ++ [ttl; proto].
Definition ipv4_back (src dst : Z) : list Z := netd_write_be32 src ++ netd_write_be32 dst.

Lemma ipv4_build_shape src dst proto id plen ttl :
  byte ttl -> byte proto ->
  exists c, in_u 16 c /\
    netd_ipv4_build_header src dst proto id plen ttl =
      ipv4_front (u16 (20 + plen)) id ttl proto ++ netd_write_be16 c ++ ipv4_back src dst /\
    netd_inet_checksum (netd_ipv4_build_header src dst proto id plen ttl) 0 = 0.
Proof.
  intros Ht Hp. set (l1 := ipv4_front (u16 (20 + plen)) id ttl proto). set (l2 := ipv4_back src dst).
  assert (bytes l1) as H1.
  { subst l1. unfold ipv4_front. solve_bytes. }
  assert (bytes l2) as H2 by (subst l2; unfold ipv4_back; solve_bytes).
  destruct (patched_checksum_verifies l1 l2 H1 H2) as [Hz Hs]; [by exists 5%nat|cbn; lia|].
  exists (netd_ntohs (netd_inet_checksum (l1 ++ [0; 0] ++ l2) 0)). split; [apply htons_bound|].
  split; [exact Hs|exact Hz].
Qed.

Lemma be16_read_back v : in_u 16 v -> (u8 (v >>. 8) <<. 8) |. u8 v = v.
Proof. intros. rewrite word_of_bytes by (apply wrap_bound; lia). by apply u16_split. Qed.
Lemma be32_read_back v : in_u 32 v ->
  (u8 (v >>. 24) <<. 24) |. (u8 (v >>. 16) <<. 16) |. (u8 (v >>. 8) <<. 8) |. u8 v = v.
Proof. intros. rewrite be32_value by (apply wrap_bound; lia). by apply u32_split. Qed.

(** Read a field of a literal header. *)
Ltac read_lit :=
  unfold netd_read_be16, netd_read_be32, netd_write_be16, netd_write_be32; cbn [app]; get_simpl;
  rewrite ?be16_read_back, ?be32_read_back by assumption; reflexivity.

Lemma length_be16 v : length (netd_write_be16 v) = 2%nat.
Proof. done. Qed.
Lemma length_be32 v : length (netd_write_be32 v) = 4%nat.
Proof. done. Qed.

Lemma ipv4_parse_build src dst proto id ttl payload pad :
  in_u 32 src -> in_u 32 dst -> byte proto -> in_u 16 id -> byte ttl ->
  Z.of_nat (length payload) <= 65515 ->
  netd_ipv4_parse (netd_ipv4_build_header src dst proto id (Z.of_nat (length payload)) ttl ++
                   payload ++ pad) =
  ok (Ipv4_parsed src dst proto ttl (20 + Z.of_nat (length payload)) id 0 payload).
Proof.
  intros Hs Hd Hp Hi Ht Hl.
  destruct (ipv4_build_shape src dst proto id (Z.of_nat (length payload)) ttl Ht Hp) as (c & Hc & Hb & Hz).
  assert (in_u 16 (20 + Z.of_nat (length payload))) as Htot by (unfold in_u; lia).
  rewrite (wrap_small 16) in Hb by done. rewrite Hb in Hz |- *.
  set (hdr := ipv4_front _ _ _ _ ++ _ ++ _) in *.
  assert (length hdr = 20%nat) as Hlen by done.
  unfold netd_ipv4_parse. rewrite !length_app, Hlen.
  assert (take 20 (hdr ++ payload ++ pad) = hdr) as -> by (rewrite <- Hlen; apply take_app_length).
  assert (drop 20 (hdr ++ payload ++ pad) = payload ++ pad) as -> by (rewrite <- Hlen; apply drop_app_length).
  rewrite Hz. unfold IPV4_HDR_LEN_MIN. subst hdr. unfold ipv4_front, ipv4_back.
  set (buf := (_ ++ _ ++ _) ++ payload ++ pad).
  assert (get buf 0 = Some 0x45) as -> by read_lit.
  assert (netd_read_be16 buf 2 = Some (20 + Z.of_nat (length payload))) as -> by (subst buf; read_lit).
  assert (netd_read_be16 buf 4 = Some id) as -> by (subst buf; read_lit).
  assert (netd_read_be16 buf 6 = Some 0) as -> by (subst buf; read_lit).
  assert (get buf 8 = Some ttl) as -> by read_lit.
  assert (get buf 9 = Some proto) as -> by read_lit.
  assert (netd_read_be32 buf 12 = Some src) as -> by (subst buf; read_lit).
  assert (netd_read_be32 buf 16 = Some dst) as -> by (subst buf; read_lit).
  clear buf. cbn [mbind option_bind].
  destruct (Z.ltb_spec (Z.of_nat (20 + (length payload + length pad))) 20); [lia|].
  change (negb (u8 (0x45 >>. 4) =? IPV4_VERSION)) with false.
  change (negb (u8 (0x45 &. 0x0F) =? 5)) with false. cbv iota.
  destruct (Z.ltb_spec (20 + Z.of_nat (length payload)) 20); [lia|].
  destruct (20 + Z.of_nat (length payload) >? Z.of_nat (20 + (length payload + length pad))) eqn:E; [lia|].
  change (has_flag 0 0x2000 || has_flag 0 0x1FFF) with false. cbv iota.
  rewrite take_app_le, take_ge by lia. done.
Qed.

Lemma icmp_build_shape type code id seq payload :
  byte type -> byte code -> bytes payload -> Z.of_nat (length payload) <= 60000 ->
  exists c, in_u 16 c /\
    netd_icmp_build_echo type code id seq payload =
      [type; code] ++ netd_write_be16 c ++ netd_write_be16 id ++ netd_write_be16 seq ++ payload /\
    netd_inet_checksum (netd_icmp_build_echo type code id seq payload) 0 = 0.
Proof.
  intros Ht Hc Hp Hl. set (l2 := netd_write_be16 id ++ netd_write_be16 seq ++ payload).
  assert (bytes [type; code]) as H1 by solve_bytes.
  assert (bytes l2) as H2 by (subst l2; solve_bytes).
  destruct (patched_checksum_verifies [type; code] l2 H1 H2) as [Hz Hs].
  - by exists 1%nat.
  - subst l2. rewrite !length_app, !length_be16. cbn [length]. lia.
  - exists (netd_ntohs (netd_inet_checksum ([type; code] ++ [0; 0] ++ l2) 0)).
    split; [apply htons_bound|]. split; [exact Hs|exact Hz].
Qed.

Lemma icmp_parse_build type code id seq payload :
  byte type -> byte code -> in_u 16 id -> in_u 16 seq -> bytes payload ->
  Z.of_nat (length payload) <= 60000 ->
  netd_icmp_parse_echo (netd_icmp_build_echo type code id seq payload) =
  ok (Icmp_echo type code id seq payload).
Proof.
  intros Ht Hc Hi Hs Hp Hl.
  destruct (icmp_build_shape type code id seq payload Ht Hc Hp Hl) as (c & Hc' & Hb & Hz).
  unfold netd_icmp_parse_echo. rewrite Hz, Hb.
  destruct (Z.ltb_spec (Z.of_nat (length ([type; code] ++ netd_write_be16 c ++ netd_write_be16 id ++
    netd_write_be16 seq ++ payload))) 8) as [Hlt|_].
  { rewrite !length_app, !length_be16 in Hlt. cbn [length] in Hlt. lia. }
  set (buf := [type; code] ++ _).
  assert (get buf 0 = Some type) as -> by read_lit. assert (get buf 1 = Some code) as -> by read_lit.
  assert (netd_read_be16 buf 4 = Some id) as -> by (subst buf; read_lit).
  assert (netd_read_be16 buf 6 = Some seq) as -> by (subst buf; read_lit). done.
Qed.

Lemma icmp_build_bytes type code id seq payload :
  byte type -> byte code -> bytes payload -> Z.of_nat (length payload) <= 60000 ->
  bytes (netd_icmp_build_echo type code id seq payload) /\
  length (netd_icmp_build_echo type code id seq payload) = (8 + length payload)%nat.
Proof.
  intros Ht Hc Hp Hl. destruct (icmp_build_shape type code id seq payload Ht Hc Hp Hl) as (c & _ & -> & _).
  split; [solve_bytes|]. rewrite !length_app, !length_be16. done.
Qed.

Lemma icmp_parse_inv buf e :
  bytes buf -> netd_icmp_parse_echo buf = ok e ->
  8 <= Z.of_nat (length buf) /\ in_u 16 (ic_id e) /\ in_u 16 (ic_seq e) /\ bytes (ic_payload e) /\
  8 + Z.of_nat (length (ic_payload e)) = Z.of_nat (length buf).
Proof.
  intros Hb. unfold netd_icmp_parse_echo.
  destruct (Z.ltb_spec (Z.of_nat (length buf)) 8); [done|]. destruct (negb _); [done|].
  read_ok. intros [= <-]. cbn. split; [lia|]. split; [done|]. split; [done|].
  split; [by apply Forall_drop|]. rewrite length_drop. lia.
Qed.

Lemma length_ipv4_build src dst proto id plen ttl :
  length (netd_ipv4_build_header src dst proto id plen ttl) = 20%nat.
Proof. unfold netd_ipv4_build_header, store_checksum. by rewrite !length_upd. Qed.

(** An echo request is answered by the matching echo reply.  When the
    handler accepts a datagram that parses as an ECHO REQUEST for us and the
    reply fits the buffer, the reply it writes is a datagram that itself parses:
    from us to the requester, ICMP, and its payload parses as an ECHO REPLY with
    the same identifier, sequence number and data. *)
Theorem icmp_echo_reply (ip : ipv4_parsed) (e : icmp_echo) (my_ip cap : Z) :
  in_u 32 my_ip -> my_ip <> 0 -> ip_dst ip = my_ip -> in_u 32 (ip_src ip) ->
  ip_proto ip = IPPROTO_ICMP -> bytes (ip_payload ip) ->
  netd_icmp_parse_echo (ip_payload ip) = ok e ->
  ic_type e = ICMP_TYPE_ECHO_REQUEST -> ic_code e = 0 ->
  Z.of_nat (length (ip_payload ip)) <= 60000 ->
  IPV4_HDR_LEN_MIN + 8 + Z.of_nat (length (ic_payload e)) <= cap ->
  exists reply icmp,
    netd_icmp_handle_incoming ip my_ip cap = Some (0, reply) /\
    netd_ipv4_parse reply =
      ok (Ipv4_parsed my_ip (ip_src ip) IPPROTO_ICMP IPV4_DEFAULT_TTL
            (Z.of_nat (length reply)) (u16 (ip_id ip + 1)) 0 icmp) /\
    netd_icmp_parse_echo icmp =
      ok (Icmp_echo ICMP_TYPE_ECHO_REPLY 0 (ic_id e) (ic_seq e) (ic_payload e)).
Proof.
  intros Hmy Hmy0 Hdst Hsrc Hproto Hpay Hparse Htype Hcode Hlen Hcap.
  destruct (icmp_parse_inv _ _ Hpay Hparse) as (Hl8 & Hid & Hseq & Hbp & Hel).
  unfold netd_icmp_handle_incoming. rewrite Hproto, Hdst, Hparse.
  unfold ok at 1. cbn [mbind option_bind]. rewrite Htype, Hcode.
  destruct (Z.eqb_spec my_ip 0); [done|]. rewrite !Z.eqb_refl. cbn [negb andb orb].
  destruct (Z.ltb_spec (Z.of_nat (length (ip_payload ip))) 8); [lia|].
  set (icmp := netd_icmp_build_echo _ _ _ _ _).
  assert (byte ICMP_TYPE_ECHO_REPLY /\ byte 0) as [Hb1 Hb2] by (unfold byte, in_u, ICMP_TYPE_ECHO_REPLY; lia).
  destruct (icmp_build_bytes ICMP_TYPE_ECHO_REPLY 0 (ic_id e) (ic_seq e) (ic_payload e)) as [Hib Hil];
    [done|done|done|lia|]. fold icmp in Hib, Hil.
  destruct (Z.ltb_spec cap (IPV4_HDR_LEN_MIN + (8 + Z.of_nat (length (ic_payload e))))); [lia|].
  eexists _, icmp. split; [reflexivity|].
  rewrite (wrap_small 16 (8 + _)) by (unfold in_u; lia).
  replace (8 + Z.of_nat (length (ic_payload e))) with (Z.of_nat (length icmp)) by lia.
  rewrite <- (app_nil_r icmp) at 2. split.
  - rewrite ipv4_parse_build; try done; try lia.
    + unfold ok. do 3 f_equal. rewrite !length_app, length_ipv4_build. cbn [length]. lia.
    + apply wrap_bound. lia.
  - subst icmp. apply icmp_parse_build; try done; lia.
Qed.

Definition demo_ping : ipv4_parsed :=
  Ipv4_parsed 0x0A000202 0x0A00020F IPPROTO_ICMP 64 31 7 0
    (netd_icmp_build_echo ICMP_TYPE_ECHO_REQUEST 0 0x1234 1 [97; 98; 99]).

Lemma icmp_echo_reply_witness :
  exists reply, netd_icmp_handle_incoming demo_ping 0x0A00020F 1500 = Some (0, reply) /\
                Z.of_nat (length reply) = 31.
Proof.
  destruct (icmp_echo_reply demo_ping (Icmp_echo 8 0 0x1234 1 [97; 98; 99]) 0x0A00020F 1500)
    as (reply & icmp & H & _).
  - split; [discriminate|reflexivity].
  - discriminate.
  - reflexivity.
  - split; [discriminate|reflexivity].
  - reflexivity.
  - repeat apply Forall_cons_2; try apply Forall_nil_2; split; (discriminate || reflexivity).
  - vm_compute. reflexivity.
  - reflexivity.
  - reflexivity.
  - discriminate.
  - discriminate.
  - exists reply. split; [exact H|]. vm_compute in H. injection H as <-. reflexivity.
Defined.

(** ** UDP *)
Definition udp_front (src_port dst_port len : Z) : list Z :=
  netd_write_be16 src_port ++ netd_write_be16 dst_port ++ netd_write_be16 len.

Lemma length_pseudo src dst proto len : length (netd_ipv4_build_pseudo_header src dst proto len) = 12%nat.
Proof. done. Qed.

Lemma bytes_pseudo src dst proto len :
  byte proto -> bytes (netd_ipv4_build_pseudo_header src dst proto len).
Proof. intros. unfold netd_ipv4_build_pseudo_header. solve_bytes. Qed.

(** The checksum that [netd_udp_build] stores, 0xFFFF in place of 0, makes
    pseudo-header and datagram verify. *)
Lemma udp_checksum_verifies l1 l2 :
  bytes l1 -> bytes l2 -> Nat.Even (length l1) -> Z.of_nat (length l1 + length l2) <= 65000 ->
  let buf := l1 ++ [0; 0] ++ l2 in
  let be := netd_inet_checksum buf 0 in
  let c := netd_ntohs (if be =? 0 then 0xFFFF else be) in
  in_u 16 c /\ c <> 0 /\ netd_inet_checksum (l1 ++ netd_write_be16 c ++ l2) 0 = 0.
Proof.
  intros H1 H2 He Hl buf be c.
  assert (wsum buf = wsum l1 + wsum l2) as Hw.
  { unfold buf. rewrite wsum_app by done. cbn [app wsum]. lia. }
  assert (bytes buf) as Hb by (subst buf; solve_bytes).
  assert (Z.of_nat (length buf) <= 65535) as Hlen by (subst buf; rewrite !length_app; cbn [length]; lia).
  pose proof (inet_checksum_value buf Hb Hlen) as Hv. rewrite Hw in Hv.
  pose proof (wsum_bound l1 H1). pose proof (wsum_bound l2 H2).
  pose proof (ones_reduce_bound (wsum l1 + wsum l2) ltac:(lia)) as Hob.
  assert (in_u 16 be) as Hbe by apply htons_bound.
  assert (in_u 16 c /\ c <> 0 /\ (wsum l1 + wsum l2 + c) mod 65535 = 0) as (Hc & Hc0 & Hm).
  { unfold c, be. destruct (Z.eqb_spec (netd_inet_checksum buf 0) 0) as [E|E].
    - rewrite E in Hv. change (netd_ntohs 0) with 0 in Hv. change (netd_ntohs 0xFFFF) with 0xFFFF.
      split; [split; [discriminate|reflexivity]|]. split; [discriminate|].
      unfold ones_reduce in Hv. destruct (Z.eqb_spec (wsum l1 + wsum l2) 0); [lia|]. zlia.
    - rewrite Hv. split; [unfold in_u; lia|]. split.
      + intros Hz0. apply E. apply (htons_0 be Hbe). change (netd_ntohs (netd_inet_checksum buf 0) = 0). lia.
      + unfold ones_reduce in *. destruct (Z.eqb_spec (wsum l1 + wsum l2) 0) as [E0|]; [rewrite E0; done|]. zlia. }
  split; [done|]. split; [done|]. apply checksum_verifies; try done. unfold in_u in Hc. lia.
Qed.

Lemma udp_build_shape src dst sp dp payload :
  bytes payload -> 8 + Z.of_nat (length payload) <= 1500 ->
  let total := 8 + Z.of_nat (length payload) in
  exists c, in_u 16 c /\ c <> 0 /\
    netd_udp_build src dst sp dp payload = Some (udp_front sp dp total ++ netd_write_be16 c ++ payload) /\
    netd_inet_checksum (netd_ipv4_build_pseudo_header src dst IPPROTO_UDP total ++
                        udp_front sp dp total ++ netd_write_be16 c ++ payload) 0 = 0.
Proof.
  intros Hp Hl total. unfold netd_udp_build, UDP_HDR_LEN. fold total.
  rewrite (wrap_small 16 total) by (unfold in_u; lia).
  destruct (total >? 1500) eqn:E; [lia|].
  set (pseudo := netd_ipv4_build_pseudo_header src dst IPPROTO_UDP total).
  set (l1 := pseudo ++ udp_front sp dp total).
  assert (bytes l1) as H1.
  { subst l1 pseudo. unfold udp_front. apply bytes_app. split; [apply bytes_pseudo; done|solve_bytes]. }
  destruct (udp_checksum_verifies l1 payload H1 Hp) as (Hc & Hc0 & Hz).
  { by exists 9%nat. }
  { subst l1. rewrite length_app. unfold pseudo. rewrite length_pseudo. cbn [length udp_front netd_write_be16 app]. lia. }
  assert (pseudo ++ netd_write_be16 sp ++ netd_write_be16 dp ++ netd_write_be16 total ++
          netd_write_be16 0 ++ payload = l1 ++ [0; 0] ++ payload) as Hassoc.
  { subst l1. unfold udp_front. by rewrite <- !app_assoc. }
  rewrite Hassoc. set (be := netd_inet_checksum _ 0) in *.
  exists (netd_ntohs (if be =? 0 then 0xFFFF else be)). split; [done|]. split; [done|]. split.
  - f_equal. apply (store_checksum_app (udp_front sp dp total) payload). apply htons_bound.
  - subst l1. rewrite <- app_assoc in Hz. exact Hz.
Qed.

(** A UDP datagram that [netd_udp_build] writes is accepted by
    [netd_udp_parse] between the same addresses, with padding after it or not,
    and yields the ports and the payload that were sent; the stored checksum is
    never the value that disables verification. *)
Theorem udp_roundtrip (src dst sp dp : Z) (payload pad : list Z) :
  in_u 16 sp -> in_u 16 dp -> bytes payload -> bytes pad ->
  8 + Z.of_nat (length payload) <= 1500 ->
  exists dgram, netd_udp_build src dst sp dp payload = Some dgram /\
    (exists c, netd_read_be16 dgram 6 = Some c /\ c <> 0) /\
    netd_udp_parse (dgram ++ pad) src dst = ok (sp, dp, payload).
Proof.
  intros Hsp Hdp Hp Hpad Hl.
  destruct (udp_build_shape src dst sp dp payload Hp Hl) as (c & Hc & Hc0 & Hb & Hz).
  set (total := 8 + Z.of_nat (length payload)) in *.
  assert (in_u 16 total) as Ht by (unfold in_u; lia).
  eexists. split; [exact Hb|]. split.
  { exists c. split; [|done]. unfold udp_front. read_lit. }
  set (dgram := udp_front sp dp total ++ netd_write_be16 c ++ payload) in *.
  assert (Z.of_nat (length dgram) = total) as Hdl.
  { subst dgram. unfold udp_front. rewrite !length_app, !length_be16. lia. }
  unfold netd_udp_parse, UDP_HDR_LEN. cbv zeta. rewrite length_app.
  assert (take (Z.to_nat total) (dgram ++ pad) = dgram) as Htk.
  { replace (Z.to_nat total) with (length dgram) by lia. apply take_app_length. }
  assert (netd_read_be16 (dgram ++ pad) 0 = Some sp) as -> by (subst dgram; unfold udp_front; read_lit).
  assert (netd_read_be16 (dgram ++ pad) 2 = Some dp) as -> by (subst dgram; unfold udp_front; read_lit).
  assert (netd_read_be16 (dgram ++ pad) 4 = Some total) as -> by (subst dgram; unfold udp_front; read_lit).
  assert (netd_read_be16 (dgram ++ pad) 6 = Some c) as -> by (subst dgram; unfold udp_front; read_lit).
  assert (drop 8 (dgram ++ pad) = payload ++ pad) as Hdr by (subst dgram; done).
  cbn [mbind option_bind]. rewrite Htk, Hz, Hdr.
  destruct (Z.ltb_spec (Z.of_nat (length dgram + length pad)) 8); [lia|].
  destruct (Z.ltb_spec total 8); [lia|].
  destruct (total >? Z.of_nat (length dgram + length pad)) eqn:E1; [lia|].
  destruct (Z.eqb_spec c 0); [done|]. cbn [negb]. destruct (total >? 1500) eqn:E2; [lia|].
  change (negb (0 =? 0)) with false. cbv iota.
  replace (Z.to_nat (total - 8)) with (length payload) by lia. by rewrite take_app_length.
Qed.

Lemma udp_roundtrip_witness :
  exists dgram, netd_udp_build 0x0A00020F 0x0A000203 5353 53 [1; 2; 3] = Some dgram /\
    netd_udp_parse (dgram ++ [0; 0]) 0x0A00020F 0x0A000203 = ok (5353, 53, [1; 2; 3]).
Proof.
  destruct (udp_roundtrip 0x0A00020F 0x0A000203 5353 53 [1; 2; 3] [0; 0]) as (d & Hd & _ & Hp).
  - split; [discriminate|reflexivity].
  - split; [discriminate|reflexivity].
  - repeat apply Forall_cons_2; try apply Forall_nil_2; split; (discriminate || reflexivity).
  - repeat apply Forall_cons_2; try apply Forall_nil_2; split; (discriminate || reflexivity).
  - discriminate.
  - exists d. split; [exact Hd|exact Hp].
Defined.
