(* ===== verification/NetTcp.v ===== *)
(** * TCP (user/netd_tcp.c)

    Segment builder and parser with the option walk, the socket table, and the
    eleven-state connection machine: connect, listen, incoming segments, close
    and the timer tick.  A segment emitted into a response buffer is the list of
    its bytes, [] when nothing is sent.  [rfc793] has the edges of the standard with
    their conditions, [departs] where the code takes an edge without them. *)
From S2P Require Import Prelude NetBytes NetWire.
Local Open Scope Z_scope.
Local Open Scope c_scope.

Definition TCP_HDR_LEN_MIN : Z := 20.
Abbreviation TCP_FLAG_FIN := 0x01.
Abbreviation TCP_FLAG_SYN := 0x02.
Abbreviation TCP_FLAG_RST := 0x04.
Abbreviation TCP_FLAG_ACK := 0x10.
Abbreviation TCP_DEFAULT_MSS := 1460.
Abbreviation TCP_DEFAULT_WINDOW := 8192.
Abbreviation TCP_DEFAULT_RTO_MS := 1000.
Abbreviation TCP_MAX_RTO_MS := 60000.
Definition TCP_TIME_WAIT_MS : Z := 2 * 60000.
Definition TCP_MAX_SOCKETS : nat := 1024.

Inductive tcp_state :=
| CLOSED | LISTEN | SYN_SENT | SYN_RCVD | ESTABLISHED | FIN_WAIT1 | FIN_WAIT2
| CLOSING | CLOSE_WAIT | LAST_ACK | TIME_WAIT.

#[export] Instance tcp_state_eq_dec : EqDecision tcp_state.
Proof. solve_decision. Defined.

Record tcp_parsed := Tcp_parsed {
  p_src_port : Z; p_dst_port : Z; p_seq : Z; p_ack : Z; p_data_offset : Z; p_flags : Z;
  p_window : Z; p_payload : list Z; p_opt_mss : Z
}.

Record tcp_socket := Tcp_socket {
  state : tcp_state;
  local_port : Z; remote_port : Z; local_ip : Z; remote_ip : Z;
  snd_una : Z; snd_nxt : Z; snd_wnd : Z; iss : Z; rcv_nxt : Z; rcv_wnd : Z; irs : Z;
  cwnd : Z; ssthresh : Z; mss : Z; dup_acks : Z;
  rto_ms : Z; retx_expiry_tsc : Z; time_wait_expiry_tsc : Z;
  owner_cookie : Z
}.

(** All-zero bytes, as [netd_memzero] leaves a slot. *)
Definition zero_socket : tcp_socket :=
  Tcp_socket CLOSED 0 0 0 0 0 0 0 0 0 0 0 0 0 0 0 0 0 0 0.

(** ** Helpers *)
Definition seq_cmp (a b : Z) : Z :=
  let d := i32 (a - b) in
  if d <? 0 then -1 else if d >? 0 then 1 else 0.

Definition ms_to_tsc (ticks_per_sec ms : Z) : Z :=
  if ticks_per_sec =? 0 then 0 else u32 (u64 (ticks_per_sec * ms) / 1000).

(** ** Wire format *)
Definition netd_tcp_build (src_ip dst_ip src_port dst_port seq ack flags window mss_opt_val : Z)
    (payload : list Z) : list Z :=
  let want_mss := negb (mss_opt_val =? 0) && has_flag flags TCP_FLAG_SYN in
  let options_len := if want_mss then 4 else 0 in
  let tcp_hdr_len := TCP_HDR_LEN_MIN + options_len in
  let total := tcp_hdr_len + Z.of_nat (length payload) in
  let out := netd_write_be16 src_port ++ netd_write_be16 dst_port ++ netd_write_be32 seq ++
             netd_write_be32 ack ++ [u8 ((tcp_hdr_len / 4) <<. 4); flags] ++
             netd_write_be16 window ++ netd_write_be16 0 ++ netd_write_be16 0 ++
             (if want_mss then [2; 4] ++ netd_write_be16 mss_opt_val else []) ++ payload in
  if total >? 1500 then [] else
  let scratch := netd_ipv4_build_pseudo_header src_ip dst_ip IPPROTO_TCP (u16 total) ++ out in
  store_checksum out 16 (netd_inet_checksum scratch 0).

(** The walk over the options [o] from [i]; [inr] is the MSS found (or [mss]).
    Every round advances [i], so [length o] rounds are enough. *)
Fixpoint option_walk (fuel : nat) (o : list Z) (i flags mss : Z) : option (Z + Z) :=
  let olen := Z.of_nat (length o) in
  if i >=? olen then Some (inr mss) else
  match fuel with
  | O => None
  | S f =>
      kind ← get o i;
      if kind =? 0 then Some (inr mss) else
      if kind =? 1 then option_walk f o (i + 1) flags mss else
      if i + 1 >=? olen then Some (inl (-5)) else
      len ← get o (i + 1);
      if (len <? 2) || (i + len >? olen) then Some (inl (-5)) else
      if (kind =? 2) && (len =? 4) && has_flag flags TCP_FLAG_SYN
      then m ← netd_read_be16 o (i + 2); option_walk f o (i + len) flags m
      else option_walk f o (i + len) flags mss
  end.

Definition netd_tcp_parse (buf : list Z) (src_ip dst_ip : Z) : parse_result tcp_parsed :=
  let buf_len := Z.of_nat (length buf) in
  if buf_len <? TCP_HDR_LEN_MIN then fail (-1) else
  b12 ← get buf 12;
  let data_off_bytes := u8 ((b12 >>. 4) * 4) in
  if data_off_bytes <? TCP_HDR_LEN_MIN then fail (-2) else
  if data_off_bytes >? buf_len then fail (-2) else
  if buf_len >? 1500 then fail (-3) else
  let scratch := netd_ipv4_build_pseudo_header src_ip dst_ip IPPROTO_TCP (u16 buf_len) ++ buf in
  if negb (netd_inet_checksum scratch 0 =? 0) then fail (-4) else
  src_port ← netd_read_be16 buf 0;
  dst_port ← netd_read_be16 buf 2;
  seq ← netd_read_be32 buf 4;
  ack ← netd_read_be32 buf 8;
  flags ← get buf 13;
  window ← netd_read_be16 buf 14;
  let payload := drop (Z.to_nat data_off_bytes) buf in
  let opts := take (Z.to_nat (data_off_bytes - TCP_HDR_LEN_MIN)) (drop 20 buf) in
  r ← option_walk (length opts) opts 0 flags 0;
  match r with
  | inl e => fail e
  | inr m => ok (Tcp_parsed src_port dst_port seq ack data_off_bytes flags window payload m)
  end.

(** ** Socket table *)
Definition tcp_table : Type := list tcp_socket.
Definition netd_tcp_table_init : tcp_table := replicate TCP_MAX_SOCKETS zero_socket.

Definition fresh_socket (cookie : Z) : tcp_socket :=
  {| zero_socket with state := CLOSED; owner_cookie := cookie;
                      rcv_wnd := TCP_DEFAULT_WINDOW; mss := TCP_DEFAULT_MSS |}.

Definition netd_tcp_socket_alloc (tbl : tcp_table) (cookie : Z) : tcp_table * Z :=
  if cookie =? 0 then (tbl, -1) else
  match list_find (fun s => owner_cookie s = 0) tbl with
  | Some (i, _) => (<[i := fresh_socket cookie]> tbl, Z.of_nat i)
  | None => (tbl, -1)
  end.

Definition netd_tcp_socket_free (tbl : tcp_table) (idx : Z) : tcp_table :=
  if (idx <? 0) || (idx >=? Z.of_nat TCP_MAX_SOCKETS) then tbl else upd tbl idx zero_socket.

Definition conn_matches (lip lport rip rport : Z) (s : tcp_socket) : Prop :=
  state s <> CLOSED /\ state s <> LISTEN /\
  local_port s = lport /\ remote_port s = rport /\ local_ip s = lip /\ remote_ip s = rip.
#[export] Instance conn_matches_dec lip lport rip rport s : Decision (conn_matches lip lport rip rport s).
Proof. unfold conn_matches. apply _. Defined.

Definition netd_tcp_find_established (tbl : tcp_table) (lip lport rip rport : Z) : Z :=
  match list_find (conn_matches lip lport rip rport) tbl with
  | Some (i, _) => Z.of_nat i
  | None => -1
  end.

Definition listen_matches (lip lport : Z) (s : tcp_socket) : Prop :=
  state s = LISTEN /\ local_port s = lport /\ (local_ip s = 0 \/ local_ip s = lip).
#[export] Instance listen_matches_dec lip lport s : Decision (listen_matches lip lport s).
Proof. unfold listen_matches. apply _. Defined.

Definition netd_tcp_find_listen (tbl : tcp_table) (lip lport : Z) : Z :=
  match list_find (listen_matches lip lport) tbl with
  | Some (i, _) => Z.of_nat i
  | None => -1
  end.

(** ** Connection machine *)

(** The socket, the SYN and the return value. *)
Definition netd_tcp_connect (sock : tcp_socket) (isn syn_buf_cap initial_rto_ms now_tsc tps : Z)
    : tcp_socket * list Z * Z :=
  if negb (bool_decide (state sock = CLOSED)) then (sock, [], -2) else
  if syn_buf_cap <? 24 then (sock, [], -3) else
  let rto := if initial_rto_ms =? 0 then TCP_DEFAULT_RTO_MS else initial_rto_ms in
  let sock := {| sock with
    iss := isn; snd_una := isn; snd_nxt := u32 (isn + 1); snd_wnd := 0;
    cwnd := (if mss sock =? 0 then TCP_DEFAULT_MSS else mss sock); ssthresh := 0xFFFF;
    rto_ms := rto; dup_acks := 0; state := SYN_SENT;
    retx_expiry_tsc := u64 (now_tsc + ms_to_tsc tps rto); time_wait_expiry_tsc := 0 |} in
  (sock, netd_tcp_build (local_ip sock) (remote_ip sock) (local_port sock) (remote_port sock)
           (iss sock) 0 TCP_FLAG_SYN (u16 (rcv_wnd sock)) (mss sock) [], 0).

Definition netd_tcp_listen (sock : tcp_socket) (lip lport : Z) : tcp_socket * Z :=
  if negb (bool_decide (state sock = CLOSED)) then (sock, -2) else
  ({| sock with state := LISTEN; local_ip := lip; local_port := lport; remote_ip := 0;
                remote_port := 0; rcv_wnd := TCP_DEFAULT_WINDOW; mss := TCP_DEFAULT_MSS |}, 0).

Definition emit_ctrl (sock : tcp_socket) (cap flags mss_opt : Z) : list Z :=
  if cap <? 24 then [] else
  netd_tcp_build (local_ip sock) (remote_ip sock) (local_port sock) (remote_port sock)
    (snd_nxt sock) (rcv_nxt sock) flags (u16 (rcv_wnd sock)) mss_opt [].

Definition emit_rst (cap src_ip dst_ip src_port dst_port seq ack flags : Z) : list Z :=
  if cap <? 20 then [] else netd_tcp_build src_ip dst_ip src_port dst_port seq ack flags 0 0 [].

Definition pflag (pkt : tcp_parsed) (f : Z) : bool := has_flag (p_flags pkt) f.
Definition plen (pkt : tcp_parsed) : Z := Z.of_nat (length (p_payload pkt)).

(** [case TCP_STATE_LISTEN]. *)
Definition on_listen (sock : tcp_socket) (pkt : tcp_parsed) (now tps cap : Z) : tcp_socket * list Z :=
  if negb (pflag pkt TCP_FLAG_SYN) then (sock, []) else
  let m := if negb (p_opt_mss pkt =? 0) && (p_opt_mss pkt <? mss sock) then p_opt_mss pkt else mss sock in
  let isn := now &. 0xFFFFFFFF in
  let sock := {| sock with
    remote_ip := p_dst_port pkt; remote_port := p_src_port pkt;
    irs := p_seq pkt; rcv_nxt := u32 (p_seq pkt + 1);
    iss := isn; snd_una := isn; snd_nxt := u32 (isn + 1); snd_wnd := p_window pkt;
    mss := m; cwnd := m; ssthresh := 0xFFFF; rto_ms := TCP_DEFAULT_RTO_MS;
    retx_expiry_tsc := u64 (now + ms_to_tsc tps TCP_DEFAULT_RTO_MS); state := SYN_RCVD |} in
  (sock, emit_ctrl sock cap (TCP_FLAG_SYN |. TCP_FLAG_ACK) (mss sock)).

(** [case TCP_STATE_SYN_SENT]. *)
Definition on_syn_sent (sock : tcp_socket) (pkt : tcp_parsed) (cap : Z) : tcp_socket * list Z :=
  if negb (pflag pkt TCP_FLAG_SYN) || negb (pflag pkt TCP_FLAG_ACK) then (sock, []) else
  if negb (p_ack pkt =? u32 (iss sock + 1)) then (sock, []) else
  let m := if negb (p_opt_mss pkt =? 0) && (p_opt_mss pkt <? mss sock) then p_opt_mss pkt else mss sock in
  let sock := {| sock with
    irs := p_seq pkt; rcv_nxt := u32 (p_seq pkt + 1); snd_una := p_ack pkt; snd_wnd := p_window pkt;
    mss := m; cwnd := u32 (2 * m); retx_expiry_tsc := 0; state := ESTABLISHED |} in
  (sock, emit_ctrl sock cap TCP_FLAG_ACK 0).

(** [case TCP_STATE_SYN_RCVD]. *)
Definition on_syn_rcvd (sock : tcp_socket) (pkt : tcp_parsed) : tcp_socket * list Z :=
  if negb (pflag pkt TCP_FLAG_ACK) then (sock, []) else
  if negb (p_ack pkt =? u32 (iss sock + 1)) then (sock, []) else
  ({| sock with snd_una := p_ack pkt; snd_wnd := p_window pkt; retx_expiry_tsc := 0;
                state := ESTABLISHED |}, []).

(** The acknowledgement part of [case TCP_STATE_ESTABLISHED]. *)
Definition process_ack (sock : tcp_socket) (pkt : tcp_parsed) : tcp_socket :=
  if negb (pflag pkt TCP_FLAG_ACK) then sock else
  if (seq_cmp (p_ack pkt) (snd_una sock) >? 0) && (seq_cmp (p_ack pkt) (snd_nxt sock) <=? 0) then
    {| sock with snd_una := p_ack pkt; dup_acks := 0;
       cwnd := if cwnd sock <? ssthresh sock then u32 (cwnd sock + mss sock)
               else if cwnd sock >? 0 then u32 (cwnd sock + u32 (mss sock * mss sock) / cwnd sock)
               else cwnd sock |}
  else if (p_ack pkt =? snd_una sock) && (plen pkt =? 0) then
    if dup_acks sock <? 255 then {| sock with dup_acks := dup_acks sock + 1 |} else sock
  else sock.

(** [case TCP_STATE_ESTABLISHED]. *)
Definition on_established (sock : tcp_socket) (pkt : tcp_parsed) (cap : Z) : tcp_socket * list Z :=
  let sock := process_ack sock pkt in
  let '(sock, resp) :=
    if plen pkt >? 0 then
      let sock := if p_seq pkt =? rcv_nxt sock
                  then {| sock with rcv_nxt := u32 (rcv_nxt sock + plen pkt) |} else sock in
      (sock, emit_ctrl sock cap TCP_FLAG_ACK 0)
    else (sock, []) in
  if pflag pkt TCP_FLAG_FIN then
    let sock := {| sock with rcv_nxt := u32 (rcv_nxt sock + 1); state := CLOSE_WAIT |} in
    (sock, emit_ctrl sock cap TCP_FLAG_ACK 0)
  else (sock, resp).

Definition enter_time_wait (sock : tcp_socket) (now tps : Z) : tcp_socket :=
  {| sock with state := TIME_WAIT;
               time_wait_expiry_tsc := u64 (now + ms_to_tsc tps TCP_TIME_WAIT_MS) |}.

(** [case TCP_STATE_FIN_WAIT1]. *)
Definition on_fin_wait1 (sock : tcp_socket) (pkt : tcp_parsed) (now tps cap : Z) : tcp_socket * list Z :=
  let sock := if pflag pkt TCP_FLAG_ACK && (p_ack pkt =? snd_nxt sock)
              then {| sock with snd_una := p_ack pkt; state := FIN_WAIT2 |} else sock in
  if pflag pkt TCP_FLAG_FIN then
    let sock := {| sock with rcv_nxt := u32 (rcv_nxt sock + 1) |} in
    let sock := if bool_decide (state sock = FIN_WAIT2) then enter_time_wait sock now tps
                else {| sock with state := CLOSING |} in
    (sock, emit_ctrl sock cap TCP_FLAG_ACK 0)
  else (sock, []).

(** [case TCP_STATE_FIN_WAIT2]. *)
Definition on_fin_wait2 (sock : tcp_socket) (pkt : tcp_parsed) (now tps cap : Z) : tcp_socket * list Z :=
  if pflag pkt TCP_FLAG_FIN then
    let sock := enter_time_wait {| sock with rcv_nxt := u32 (rcv_nxt sock + 1) |} now tps in
    (sock, emit_ctrl sock cap TCP_FLAG_ACK 0)
  else (sock, []).

(** The [default] case: a closed socket answers with RST. *)
Definition on_closed (sock : tcp_socket) (pkt : tcp_parsed) (cap : Z) : tcp_socket * list Z :=
  if pflag pkt TCP_FLAG_RST then (sock, []) else
  let ack := u32 (p_seq pkt + plen pkt + (if pflag pkt TCP_FLAG_SYN then 1 else 0) +
                  (if pflag pkt TCP_FLAG_FIN then 1 else 0)) in
  (sock, emit_rst cap (local_ip sock) (remote_ip sock) (local_port sock) (remote_port sock)
           0 ack (TCP_FLAG_RST |. TCP_FLAG_ACK)).

(** The switch; every path returns 0. *)
Definition on_segment_switch (sock : tcp_socket) (pkt : tcp_parsed) (now tps cap : Z)
    : tcp_socket * list Z :=
  match state sock with
  | LISTEN => on_listen sock pkt now tps cap
  | SYN_SENT => on_syn_sent sock pkt cap
  | SYN_RCVD => on_syn_rcvd sock pkt
  | ESTABLISHED => on_established sock pkt cap
  | FIN_WAIT1 => on_fin_wait1 sock pkt now tps cap
  | FIN_WAIT2 => on_fin_wait2 sock pkt now tps cap
  | CLOSING =>
      if pflag pkt TCP_FLAG_ACK && (p_ack pkt =? snd_nxt sock)
      then (enter_time_wait {| sock with snd_una := p_ack pkt |} now tps, []) else (sock, [])
  | LAST_ACK =>
      if pflag pkt TCP_FLAG_ACK && (p_ack pkt =? snd_nxt sock)
      then ({| sock with state := CLOSED |}, []) else (sock, [])
  | TIME_WAIT =>
      let sock := enter_time_wait sock now tps in
      (sock, if pflag pkt TCP_FLAG_FIN then emit_ctrl sock cap TCP_FLAG_ACK 0 else [])
  | CLOSED | CLOSE_WAIT => on_closed sock pkt cap
  end.

Definition netd_tcp_on_segment (sock : tcp_socket) (pkt : tcp_parsed) (now tps cap : Z)
    : tcp_socket * list Z :=
  if pflag pkt TCP_FLAG_RST then
    if negb (bool_decide (state sock = LISTEN)) && negb (bool_decide (state sock = SYN_SENT)) then
      if p_seq pkt =? rcv_nxt sock then ({| sock with state := CLOSED |}, []) else (sock, [])
    else if bool_decide (state sock = SYN_SENT) then
      if pflag pkt TCP_FLAG_ACK && (p_ack pkt =? snd_nxt sock)
      then ({| sock with state := CLOSED |}, []) else (sock, [])
    else on_segment_switch sock pkt now tps cap
  else on_segment_switch sock pkt now tps cap.

Definition send_fin (sock : tcp_socket) (next : tcp_state) : tcp_socket * list Z * Z :=
  let fin_seq := snd_nxt sock in
  let sock := {| sock with state := next; snd_nxt := u32 (snd_nxt sock + 1) |} in
  (sock, netd_tcp_build (local_ip sock) (remote_ip sock) (local_port sock) (remote_port sock)
           fin_seq (rcv_nxt sock) (TCP_FLAG_FIN |. TCP_FLAG_ACK) (u16 (rcv_wnd sock)) 0 [], 0).

Definition netd_tcp_close (sock : tcp_socket) : tcp_socket * list Z * Z :=
  match state sock with
  | ESTABLISHED => send_fin sock FIN_WAIT1
  | CLOSE_WAIT => send_fin sock LAST_ACK
  | _ => (sock, [], -2)
  end.

Definition netd_tcp_tick (sock : tcp_socket) (now tps cap : Z) : tcp_socket * list Z :=
  if bool_decide (state sock = TIME_WAIT) then
    (if now >=? time_wait_expiry_tsc sock then {| sock with state := CLOSED |} else sock, [])
  else if negb (retx_expiry_tsc sock =? 0) && (now >=? retx_expiry_tsc sock) then
    let new_rto := u32 (rto_ms sock * 2) in
    let new_rto := if new_rto >? TCP_MAX_RTO_MS then TCP_MAX_RTO_MS else new_rto in
    let sock := {| sock with rto_ms := new_rto;
                             retx_expiry_tsc := u64 (now + ms_to_tsc tps new_rto) |} in
    if bool_decide (state sock = SYN_SENT) && (cap >=? 24) then
      (sock, netd_tcp_build (local_ip sock) (remote_ip sock) (local_port sock) (remote_port sock)
               (iss sock) 0 TCP_FLAG_SYN (u16 (rcv_wnd sock)) (mss sock) [])
    else if bool_decide (state sock = SYN_RCVD) && (cap >=? 24) then
      (sock, netd_tcp_build (local_ip sock) (remote_ip sock) (local_port sock) (remote_port sock)
               (iss sock) (rcv_nxt sock) (TCP_FLAG_SYN |. TCP_FLAG_ACK) (u16 (rcv_wnd sock))
               (mss sock) [])
    else (sock, [])
  else (sock, []).

(** ** Building and parsing *)
Definition tcp_front (sp dp seq ack off flags window : Z) : list Z :=
  netd_write_be16 sp ++ netd_write_be16 dp ++ netd_write_be32 seq ++ netd_write_be32 ack ++
  [off; flags] ++ netd_write_be16 window.

(** The option bytes of a segment. *)
Definition tcp_opts (flags mss_opt : Z) : list Z :=
  if negb (mss_opt =? 0) && has_flag flags TCP_FLAG_SYN then [2; 4] ++ netd_write_be16 mss_opt else [].
Definition tcp_off (flags mss_opt : Z) : Z :=
  if negb (mss_opt =? 0) && has_flag flags TCP_FLAG_SYN then 0x60 else 0x50.

Lemma tcp_opts_length flags m :
  (Z.of_nat (length (tcp_opts flags m)) = 0 \/ Z.of_nat (length (tcp_opts flags m)) = 4) /\
  u8 (((20 + Z.of_nat (length (tcp_opts flags m))) / 4) <<. 4) = tcp_off flags m /\
  20 + Z.of_nat (length (tcp_opts flags m)) = u8 ((tcp_off flags m >>. 4) * 4).
Proof.
  unfold tcp_opts, tcp_off. destruct (negb (m =? 0) && has_flag flags TCP_FLAG_SYN).
  - split; [by right|]. split; reflexivity.
  - split; [by left|]. split; reflexivity.
Qed.

Lemma bytes_tcp_opts flags m : bytes (tcp_opts flags m).
Proof. unfold tcp_opts. destruct (_ && _); solve_bytes. Qed.

Lemma length_tcp_front sp dp seq ack off flags window :
  length (tcp_front sp dp seq ack off flags window) = 16%nat.
Proof. reflexivity. Qed.

Lemma tcp_build_shape sip dip sp dp seq ack flags window m payload :
  byte flags -> bytes payload ->
  20 + Z.of_nat (length (tcp_opts flags m)) + Z.of_nat (length payload) <= 1500 ->
  exists c, in_u 16 c /\
    let seg := tcp_front sp dp seq ack (tcp_off flags m) flags window ++ netd_write_be16 c ++
               netd_write_be16 0 ++ tcp_opts flags m ++ payload in
    netd_tcp_build sip dip sp dp seq ack flags window m payload = seg /\
    netd_inet_checksum (netd_ipv4_build_pseudo_header sip dip IPPROTO_TCP (Z.of_nat (length seg)) ++ seg) 0 = 0.
Proof.
  intros Hf Hp Hl. destruct (tcp_opts_length flags m) as (Hol & Hoff & _).
  pose proof (bytes_tcp_opts flags m) as Hob.
  set (total := 20 + Z.of_nat (length (tcp_opts flags m)) + Z.of_nat (length payload)) in *.
  set (pseudo := netd_ipv4_build_pseudo_header sip dip IPPROTO_TCP total).
  set (front := tcp_front sp dp seq ack (tcp_off flags m) flags window).
  set (back := netd_write_be16 0 ++ tcp_opts flags m ++ payload).
  assert (bytes (pseudo ++ front)) as H1.
  { apply bytes_app. split; [apply bytes_pseudo; done|]. unfold front, tcp_front, tcp_off.
    destruct (_ && _); solve_bytes. }
  assert (bytes back) as H2 by (unfold back; solve_bytes).
  destruct (patched_checksum_verifies (pseudo ++ front) back H1 H2) as [Hz Hs].
  { by exists 14%nat. }
  { unfold back, pseudo, front. rewrite !length_app, length_pseudo, length_tcp_front, length_be16. lia. }
  rewrite Hs in Hz. set (c := netd_ntohs _) in Hz. exists c. split; [apply htons_bound|].
  cbv zeta. fold back. rewrite <- app_assoc in Hz.
  assert (Z.of_nat (length (front ++ netd_write_be16 c ++ back)) = total) as ->.
  { unfold back, front. rewrite !length_app, length_tcp_front, !length_be16. lia. }
  split; [|exact Hz].
  unfold netd_tcp_build, TCP_HDR_LEN_MIN.
  assert ((if negb (m =? 0) && has_flag flags TCP_FLAG_SYN then 4 else 0) =
          Z.of_nat (length (tcp_opts flags m))) as -> by (unfold tcp_opts; by destruct (_ && _)).
  fold (tcp_opts flags m). fold total. rewrite Hoff.
  destruct (total >? 1500) eqn:E; [lia|]. rewrite (wrap_small 16 total) by (unfold in_u; lia).
  fold pseudo. pose proof (store_checksum_app front back) as Hst.
  assert (netd_write_be16 sp ++ netd_write_be16 dp ++ netd_write_be32 seq ++ netd_write_be32 ack ++
    [tcp_off flags m; flags] ++ netd_write_be16 window ++ netd_write_be16 0 ++ back = front ++ [0; 0] ++ back) as Ho.
  { unfold front, tcp_front. by rewrite <- !app_assoc. }
  fold back. rewrite Ho. rewrite (app_assoc pseudo front). apply Hst. apply htons_bound.
Qed.

Lemma option_walk_opts flags m :
  byte flags -> in_u 16 m ->
  option_walk (length (tcp_opts flags m)) (tcp_opts flags m) 0 flags 0 =
  Some (inr (if has_flag flags TCP_FLAG_SYN then m else 0)).
Proof.
  intros Hf Hm. unfold tcp_opts. destruct (Z.eqb_spec m 0) as [->|Hm0]; cbn [negb andb].
  { by destruct (has_flag flags TCP_FLAG_SYN). }
  destruct (has_flag flags TCP_FLAG_SYN) eqn:E; [|done].
  assert (netd_read_be16 ([2; 4] ++ netd_write_be16 m) 2 = Some m) as Hr by read_lit.
  change (length ([2; 4] ++ netd_write_be16 m)) with 4%nat.
  cbn [option_walk]. change (Z.of_nat (length ([2; 4] ++ netd_write_be16 m))) with 4.
  change (get ([2; 4] ++ netd_write_be16 m) 0) with (Some 2).
  change (get ([2; 4] ++ netd_write_be16 m) (0 + 1)) with (Some 4).
  cbn [mbind option_bind]. rewrite E. change (0 + 2) with 2. rewrite Hr. reflexivity.
Qed.

Lemma tcp_parse_build sip dip sp dp seq ack flags window m payload :
  in_u 16 sp -> in_u 16 dp -> in_u 32 seq -> in_u 32 ack -> byte flags -> in_u 16 window ->
  in_u 16 m -> bytes payload -> Z.of_nat (length payload) <= 1476 ->
  netd_tcp_parse (netd_tcp_build sip dip sp dp seq ack flags window m payload) sip dip =
  ok (Tcp_parsed sp dp seq ack (20 + Z.of_nat (length (tcp_opts flags m))) flags window payload
        (if has_flag flags TCP_FLAG_SYN then m else 0)).
Proof.
  intros Hsp Hdp Hseq Hack Hf Hw Hm Hp Hl. destruct (tcp_opts_length flags m) as (Hol & _ & Hoff).
  destruct (tcp_build_shape sip dip sp dp seq ack flags window m payload Hf Hp) as (c & Hc & Hb & Hz); [lia|].
  cbv zeta in Hb, Hz. rewrite Hb. set (seg := tcp_front _ _ _ _ _ _ _ ++ _) in *.
  pose proof (option_walk_opts flags m Hf Hm) as How.
  set (L := Z.of_nat (length (tcp_opts flags m))) in *.
  assert (Z.of_nat (length seg) = 20 + L + Z.of_nat (length payload)) as Hlen.
  { subst seg. unfold tcp_front. rewrite !length_app, !length_be16, !length_be32. cbn [length]. lia. }
  unfold netd_tcp_parse, TCP_HDR_LEN_MIN. rewrite (wrap_small 16) by (unfold in_u; lia). rewrite Hz.
  assert (get seg 12 = Some (tcp_off flags m)) as -> by (subst seg; unfold tcp_front; read_lit).
  assert (netd_read_be16 seg 0 = Some sp) as -> by (subst seg; unfold tcp_front; read_lit).
  assert (netd_read_be16 seg 2 = Some dp) as -> by (subst seg; unfold tcp_front; read_lit).
  assert (netd_read_be32 seg 4 = Some seq) as -> by (subst seg; unfold tcp_front; read_lit).
  assert (netd_read_be32 seg 8 = Some ack) as -> by (subst seg; unfold tcp_front; read_lit).
  assert (get seg 13 = Some flags) as -> by (subst seg; unfold tcp_front; read_lit).
  assert (netd_read_be16 seg 14 = Some window) as -> by (subst seg; unfold tcp_front; read_lit).
  assert (drop 20 seg = tcp_opts flags m ++ payload) as Hd20 by (subst seg; reflexivity).
  assert (drop (Z.to_nat (20 + L)) seg = payload) as Hd.
  { replace (Z.to_nat (20 + L)) with (20 + length (tcp_opts flags m))%nat by lia.
    rewrite <- drop_drop, Hd20. apply drop_app_length. }
  cbn [mbind option_bind]. rewrite <- Hoff, Hd20, Hd.
  destruct (Z.ltb_spec (Z.of_nat (length seg)) 20); [lia|]. destruct (Z.ltb_spec (20 + L) 20); [lia|].
  destruct (20 + L >? Z.of_nat (length seg)) eqn:E1; [lia|].
  destruct (Z.of_nat (length seg) >? 1500) eqn:E2; [lia|]. change (negb (0 =? 0)) with false. cbv iota.
  replace (Z.to_nat (20 + L - 20)) with (length (tcp_opts flags m)) by lia.
  rewrite take_app_length, How. done.
Qed.

(** A TCP segment that [netd_tcp_build] writes is accepted by
    [netd_tcp_parse] between the same addresses and yields the ports, sequence
    and acknowledgement numbers, flags, window, payload and, on a SYN, the MSS
    option that were sent. *)
Theorem tcp_roundtrip (sip dip sp dp seq ack flags window m : Z) (payload : list Z) :
  in_u 16 sp -> in_u 16 dp -> in_u 32 seq -> in_u 32 ack -> byte flags -> in_u 16 window ->
  in_u 16 m -> bytes payload -> Z.of_nat (length payload) <= 1476 ->
  netd_tcp_parse (netd_tcp_build sip dip sp dp seq ack flags window m payload) sip dip =
  ok (Tcp_parsed sp dp seq ack (20 + Z.of_nat (length (tcp_opts flags m))) flags window payload
        (if has_flag flags TCP_FLAG_SYN then m else 0)).
Proof. apply tcp_parse_build. Qed.

Lemma tcp_roundtrip_witness :
  netd_tcp_parse (netd_tcp_build 1 2 80 5000 7 9 TCP_FLAG_SYN 8192 1460 []) 1 2 =
  ok (Tcp_parsed 80 5000 7 9 24 TCP_FLAG_SYN 8192 [] 1460).
Proof.
  apply (tcp_roundtrip 1 2 80 5000 7 9 TCP_FLAG_SYN 8192 1460 []);
    try (split; [discriminate|reflexivity]); [apply Forall_nil_2|discriminate].
Defined.

(** ** Memory safety of the option walk and the parser *)
Lemma option_walk_total fuel o i flags m :
  bytes o -> 0 <= i -> Z.of_nat (length o) - i <= Z.of_nat fuel ->
  is_Some (option_walk fuel o i flags m).
Proof.
  intros Ho. revert i m. induction fuel as [|f IH]; intros i m Hi Hf; cbn [option_walk].
  { destruct (i >=? _) eqn:E; [by eexists|lia]. }
  destruct (i >=? _) eqn:E; [by eexists|]. destruct (get_in_range o i) as [kind ->]; [lia|]. cbn [mbind option_bind].
  destruct (kind =? 0); [by eexists|]. destruct (kind =? 1); [apply IH; lia|].
  destruct (i + 1 >=? _) eqn:E1; [by eexists|].
  destruct (get_in_range o (i + 1)) as [len ->]; [lia|]. cbn [mbind option_bind].
  destruct ((len <? 2) || _) eqn:E2; [by eexists|]. apply orb_false_iff in E2 as [E2 E3].
  destruct ((kind =? 2) && (len =? 4) && _) eqn:E4; [|apply IH; lia].
  apply andb_true_iff in E4 as [[_ E4]%andb_true_iff _].
  destruct (read_be16_total o (i + 2) Ho) as (v & -> & _); [lia|lia|]. apply IH; lia.
Qed.

Lemma tcp_parse_safe buf src dst : bytes buf -> is_Some (netd_tcp_parse buf src dst).
Proof.
  intros Hb. unfold netd_tcp_parse, TCP_HDR_LEN_MIN. cbv zeta. read_ok.
  match goal with |- context [option_walk ?f ?o ?i ?fl ?m] =>
    destruct (option_walk_total f o i fl m) as [[e|m'] ->] end;
    [by apply Forall_take, Forall_drop|lia|lia|by eexists|by eexists].
Qed.

Lemma tcp_parse_inv buf src dst p :
  bytes buf -> netd_tcp_parse buf src dst = ok p ->
  in_u 16 (p_src_port p) /\ in_u 16 (p_dst_port p) /\ in_u 32 (p_seq p) /\ in_u 32 (p_ack p) /\
  byte (p_flags p) /\ in_u 16 (p_window p) /\ bytes (p_payload p) /\
  Z.of_nat (length (p_payload p)) <= 1480.
Proof.
  intros Hb. unfold netd_tcp_parse, TCP_HDR_LEN_MIN. cbv zeta. read_ok; try discriminate.
  destruct (option_walk _ _ _ _ _) as [[e|m]|]; try discriminate. intros [= <-]. cbn [p_src_port p_dst_port
    p_seq p_ack p_flags p_window p_payload]. do 4 (split; [done|]).
  split; [by eapply get_byte|]. split; [done|]. split; [by apply Forall_drop|]. rewrite length_drop. lia.
Qed.

(** ** The connection machine *)

(** What can happen to a socket. *)
Inductive tcp_event :=
| EvConnect (isn cap rto now tps : Z)
| EvListen (lip lport : Z)
| EvSegment (pkt : tcp_parsed) (now tps cap : Z)
| EvClose
| EvTick (now tps cap : Z).

Definition tcp_handle (sock : tcp_socket) (ev : tcp_event) : tcp_socket * list Z :=
  match ev with
  | EvConnect isn cap rto now tps => fst (netd_tcp_connect sock isn cap rto now tps)
  | EvListen lip lport => (fst (netd_tcp_listen sock lip lport), [])
  | EvSegment pkt now tps cap => netd_tcp_on_segment sock pkt now tps cap
  | EvClose => fst (netd_tcp_close sock)
  | EvTick now tps cap => netd_tcp_tick sock now tps cap
  end.

Definition acks_all (sock : tcp_socket) (pkt : tcp_parsed) : Prop :=
  pflag pkt TCP_FLAG_ACK = true /\ p_ack pkt = snd_nxt sock.
Definition acks_syn (sock : tcp_socket) (pkt : tcp_parsed) : Prop :=
  pflag pkt TCP_FLAG_ACK = true /\ p_ack pkt = u32 (iss sock + 1).

(** The checks of RFC 793 (page 69) on a segment for a connection that is past SYN_SENT: its
    sequence numbers meet the receive window, it has no SYN, and it has an ACK. *)
Definition seg_len (pkt : tcp_parsed) : Z :=
  plen pkt + (if pflag pkt TCP_FLAG_SYN then 1 else 0) + (if pflag pkt TCP_FLAG_FIN then 1 else 0).
Definition in_window (sock : tcp_socket) (seq : Z) : bool := u32 (seq - rcv_nxt sock) <? rcv_wnd sock.
Definition rfc_acceptable (sock : tcp_socket) (pkt : tcp_parsed) : bool :=
  if seg_len pkt =? 0 then
    if rcv_wnd sock =? 0 then p_seq pkt =? rcv_nxt sock else in_window sock (p_seq pkt)
  else in_window sock (p_seq pkt) || in_window sock (p_seq pkt + seg_len pkt - 1).
Definition rfc_valid (sock : tcp_socket) (pkt : tcp_parsed) : bool :=
  rfc_acceptable sock pkt && negb (pflag pkt TCP_FLAG_SYN) && pflag pkt TCP_FLAG_ACK.
(** Nothing is missing before the FIN: the segment begins at or before the next expected
    byte and reaches it. *)
Definition fin_in_order (sock : tcp_socket) (pkt : tcp_parsed) : bool := u32 (rcv_nxt sock - p_seq pkt) <=? plen pkt.

(** The edges of the diagram that a segment without RST takes by its acknowledgement, and
    those it takes by its FIN. *)
Inductive ack_edge (sock : tcp_socket) (pkt : tcp_parsed) : tcp_state -> tcp_state -> Prop :=
| Ack_of_syn : acks_syn sock pkt -> ack_edge sock pkt SYN_RCVD ESTABLISHED
| Ack_of_fin : pflag pkt TCP_FLAG_FIN = false -> acks_all sock pkt -> ack_edge sock pkt FIN_WAIT1 FIN_WAIT2
| Ack_closing : acks_all sock pkt -> ack_edge sock pkt CLOSING TIME_WAIT
| Ack_last : acks_all sock pkt -> ack_edge sock pkt LAST_ACK CLOSED.

Inductive fin_edge (sock : tcp_socket) (pkt : tcp_parsed) : tcp_state -> tcp_state -> Prop :=
| Fin_established : fin_edge sock pkt ESTABLISHED CLOSE_WAIT
| Fin_closing : ~ acks_all sock pkt -> fin_edge sock pkt FIN_WAIT1 CLOSING
| Fin_and_ack : acks_all sock pkt -> fin_edge sock pkt FIN_WAIT1 TIME_WAIT
| Fin_wait2 : fin_edge sock pkt FIN_WAIT2 TIME_WAIT.

(** The state diagram of RFC 793, each edge with the event and the condition that allow it. *)
Inductive rfc793 (sock : tcp_socket) : tcp_event -> tcp_state -> tcp_state -> Prop :=
| Active_open isn cap rto now tps : rfc793 sock (EvConnect isn cap rto now tps) CLOSED SYN_SENT
| Passive_open lip lport : rfc793 sock (EvListen lip lport) CLOSED LISTEN
| Active_close : rfc793 sock EvClose ESTABLISHED FIN_WAIT1
| Passive_close : rfc793 sock EvClose CLOSE_WAIT LAST_ACK
| Expire now tps cap : time_wait_expiry_tsc sock <= now -> rfc793 sock (EvTick now tps cap) TIME_WAIT CLOSED
| Rcv_syn pkt now tps cap :
    pflag pkt TCP_FLAG_RST = false -> pflag pkt TCP_FLAG_ACK = false -> pflag pkt TCP_FLAG_SYN = true ->
    rfc793 sock (EvSegment pkt now tps cap) LISTEN SYN_RCVD
| Rcv_synack pkt now tps cap :
    pflag pkt TCP_FLAG_RST = false -> pflag pkt TCP_FLAG_SYN = true -> acks_syn sock pkt ->
    rfc793 sock (EvSegment pkt now tps cap) SYN_SENT ESTABLISHED
| Rcv_ack pkt now tps cap st st' :
    pflag pkt TCP_FLAG_RST = false -> rfc_valid sock pkt = true -> ack_edge sock pkt st st' ->
    rfc793 sock (EvSegment pkt now tps cap) st st'
| Rcv_fin pkt now tps cap st st' :
    pflag pkt TCP_FLAG_RST = false -> pflag pkt TCP_FLAG_FIN = true -> rfc_valid sock pkt = true -> fin_in_order sock pkt = true ->
    fin_edge sock pkt st st' -> rfc793 sock (EvSegment pkt now tps cap) st st'
| Rcv_rst pkt now tps cap st :
    st <> LISTEN -> st <> SYN_SENT -> st <> SYN_RCVD -> pflag pkt TCP_FLAG_RST = true -> p_seq pkt = rcv_nxt sock ->
    rfc793 sock (EvSegment pkt now tps cap) st CLOSED
| Refused pkt now tps cap :
    pflag pkt TCP_FLAG_RST = true -> acks_all sock pkt ->
    rfc793 sock (EvSegment pkt now tps cap) SYN_SENT CLOSED.

(** Where the code departs from RFC 793: a listening socket takes a SYN that comes with RST
    or ACK; a half-open connection that is reset ends instead of listening again; and
    segments that the checks of the RFC reject, or whose FIN is ahead of missing data, are
    processed nevertheless. *)
Inductive departs (sock : tcp_socket) : tcp_event -> tcp_state -> tcp_state -> Prop :=
| Syn_unchecked pkt now tps cap :
    pflag pkt TCP_FLAG_SYN = true -> pflag pkt TCP_FLAG_RST = true \/ pflag pkt TCP_FLAG_ACK = true ->
    departs sock (EvSegment pkt now tps cap) LISTEN SYN_RCVD
| Half_open_reset pkt now tps cap :
    pflag pkt TCP_FLAG_RST = true -> p_seq pkt = rcv_nxt sock -> departs sock (EvSegment pkt now tps cap) SYN_RCVD CLOSED
| Ack_unchecked pkt now tps cap st st' :
    pflag pkt TCP_FLAG_RST = false -> rfc_valid sock pkt = false -> ack_edge sock pkt st st' ->
    departs sock (EvSegment pkt now tps cap) st st'
| Fin_unchecked pkt now tps cap st st' :
    pflag pkt TCP_FLAG_RST = false -> pflag pkt TCP_FLAG_FIN = true -> rfc_valid sock pkt && fin_in_order sock pkt = false ->
    fin_edge sock pkt st st' -> departs sock (EvSegment pkt now tps cap) st st'.

(** An edge of one of the two kinds. *)
Definition tcp_edge (sock : tcp_socket) (ev : tcp_event) (st st' : tcp_state) : Prop := rfc793 sock ev st st' \/ departs sock ev st st'.

Lemma edge_of_ack sock pkt now tps cap st st' :
  pflag pkt TCP_FLAG_RST = false -> ack_edge sock pkt st st' -> tcp_edge sock (EvSegment pkt now tps cap) st st'.
Proof. intros HR He. destruct (rfc_valid sock pkt) eqn:E; [left; by apply Rcv_ack|right; by apply Ack_unchecked]. Qed.

Lemma edge_of_fin sock pkt now tps cap st st' : pflag pkt TCP_FLAG_RST = false -> pflag pkt TCP_FLAG_FIN = true ->
  fin_edge sock pkt st st' -> tcp_edge sock (EvSegment pkt now tps cap) st st'.
Proof.
  intros HR HF He. destruct (rfc_valid sock pkt && fin_in_order sock pkt) eqn:E; [left|right; by apply Fin_unchecked].
  apply andb_true_iff in E as [H1 H2]. by apply Rcv_fin.
Qed.

Lemma edge_of_syn sock pkt now tps cap : pflag pkt TCP_FLAG_SYN = true -> tcp_edge sock (EvSegment pkt now tps cap) LISTEN SYN_RCVD.
Proof.
  intros HS. destruct (pflag pkt TCP_FLAG_RST) eqn:ER; [right; apply Syn_unchecked; auto|].
  destruct (pflag pkt TCP_FLAG_ACK) eqn:EA; [right; apply Syn_unchecked; auto|left; by apply Rcv_syn].
Qed.

Lemma acks_all_spec sock pkt :
  pflag pkt TCP_FLAG_ACK && (p_ack pkt =? snd_nxt sock) = true <-> acks_all sock pkt.
Proof. unfold acks_all. rewrite andb_true_iff, Z.eqb_eq. done. Qed.

Lemma process_ack_state sock pkt : state (process_ack sock pkt) = state sock.
Proof. unfold process_ack. by split_ifs. Qed.

(** Case analysis on the tests of a handler, with the flag tests as facts. *)
Ltac tcp_cases :=
  repeat match goal with
  | |- context [if ?b then _ else _] => let E := fresh "E" in destruct b eqn:E
  end;
  repeat match goal with
  | H : negb _ = true |- _ => apply negb_true_iff in H
  | H : negb _ = false |- _ => apply negb_false_iff in H
  | H : _ || _ = false |- _ => apply orb_false_iff in H as [? ?]
  | H : (_ =? _) = true |- _ => apply Z.eqb_eq in H
  | H : pflag _ TCP_FLAG_ACK && _ = true |- _ => apply acks_all_spec in H
  end.

Lemma on_established_state sock pkt cap :
  state sock = ESTABLISHED ->
  state (fst (on_established sock pkt cap)) =
    if pflag pkt TCP_FLAG_FIN then CLOSE_WAIT else ESTABLISHED.
Proof.
  intros E. pose proof (process_ack_state sock pkt) as Hp. unfold on_established.
  destruct (plen pkt >? 0); [destruct (_ =? _)|]; destruct (pflag pkt TCP_FLAG_FIN); cbn; congruence.
Qed.

Lemma on_fin_wait1_state sock pkt now tps cap :
  state sock = FIN_WAIT1 ->
  state (fst (on_fin_wait1 sock pkt now tps cap)) =
    if pflag pkt TCP_FLAG_ACK && (p_ack pkt =? snd_nxt sock)
    then if pflag pkt TCP_FLAG_FIN then TIME_WAIT else FIN_WAIT2
    else if pflag pkt TCP_FLAG_FIN then CLOSING else FIN_WAIT1.
Proof.
  intros E. unfold on_fin_wait1.
  destruct (_ && _); destruct (pflag pkt TCP_FLAG_FIN); cbn; try done.
  by rewrite bool_decide_false by congruence.
Qed.

Lemma on_segment_switch_edge sock pkt now tps cap :
  (state sock = LISTEN \/ pflag pkt TCP_FLAG_RST = false) ->
  let s' := fst (on_segment_switch sock pkt now tps cap) in
  state s' = state sock \/ tcp_edge sock (EvSegment pkt now tps cap) (state sock) (state s').
Proof.
  intros HR s'. subst s'. unfold on_segment_switch.
  assert (state sock <> LISTEN -> pflag pkt TCP_FLAG_RST = false) as HR' by tauto. clear HR.
  destruct (state sock) eqn:Est;
    rewrite ?on_established_state, ?on_fin_wait1_state by done;
    unfold on_listen, on_syn_sent, on_syn_rcvd, on_fin_wait2, on_closed, enter_time_wait;
    tcp_cases; cbn [fst state]; auto; right; try specialize (HR' ltac:(discriminate));
    first [by apply edge_of_syn | left; by apply Rcv_synack | apply edge_of_ack; [done|by constructor]
          | apply edge_of_fin; [done|done|constructor; try done; rewrite <- acks_all_spec; congruence]].
Qed.

Lemma on_segment_edge sock pkt now tps cap :
  let s' := fst (netd_tcp_on_segment sock pkt now tps cap) in
  state s' = state sock \/ tcp_edge sock (EvSegment pkt now tps cap) (state sock) (state s').
Proof.
  cbv zeta. unfold netd_tcp_on_segment. destruct (pflag pkt TCP_FLAG_RST) eqn:ER.
  2: { apply on_segment_switch_edge. by right. }
  destruct (bool_decide_reflect (state sock = LISTEN)) as [HL|HL]; cbn [negb andb].
  { rewrite bool_decide_false by congruence. apply on_segment_switch_edge. by left. }
  destruct (bool_decide_reflect (state sock = SYN_SENT)) as [HS|HS]; cbn [negb].
  - tcp_cases; [right|by left]. rewrite HS. left. by apply Refused.
  - tcp_cases; [right|by left]. destruct (decide (state sock = SYN_RCVD)) as [->|]; [right; by apply Half_open_reset|left; by apply Rcv_rst].
Qed.

(** A reset whose sequence number is not the next expected one is ignored. *)
Lemma blind_reset sock pkt now tps cap : pflag pkt TCP_FLAG_RST = true -> p_seq pkt <> rcv_nxt sock ->
  state sock <> LISTEN -> state sock <> SYN_SENT -> netd_tcp_on_segment sock pkt now tps cap = (sock, []).
Proof.
  intros HR Hs HL HS. unfold netd_tcp_on_segment. rewrite HR, !bool_decide_false by done. cbn [negb andb].
  by destruct (Z.eqb_spec (p_seq pkt) (rcv_nxt sock)).
Qed.


(** A FIN with any sequence number moves an established connection to CLOSE_WAIT. *)
Theorem blind_fin_closes (sock : tcp_socket) (pkt : tcp_parsed) (now tps cap : Z) :
  state sock = ESTABLISHED -> pflag pkt TCP_FLAG_RST = false -> pflag pkt TCP_FLAG_FIN = true ->
  state (fst (netd_tcp_on_segment sock pkt now tps cap)) = CLOSE_WAIT.
Proof. intros Hs HR HF. unfold netd_tcp_on_segment, on_segment_switch. by rewrite HR, Hs, on_established_state, HF. Qed.

(** ** The three-way handshake, on the wire *)
Definition conn_widths (sock : tcp_socket) : Prop :=
  in_u 16 (local_port sock) /\ in_u 16 (remote_port sock) /\ in_u 16 (mss sock).

Lemma byte_flag f : 0 <= f < 256 -> byte f.
Proof. intros. unfold byte, in_u. lia. Qed.

Lemma emit_ctrl_parses sock cap flags m :
  conn_widths sock -> in_u 32 (snd_nxt sock) -> in_u 32 (rcv_nxt sock) -> 0 <= flags < 256 ->
  in_u 16 m -> 24 <= cap ->
  netd_tcp_parse (emit_ctrl sock cap flags m) (local_ip sock) (remote_ip sock) =
  ok (Tcp_parsed (local_port sock) (remote_port sock) (snd_nxt sock) (rcv_nxt sock)
        (20 + Z.of_nat (length (tcp_opts flags m))) flags (u16 (rcv_wnd sock)) []
        (if has_flag flags TCP_FLAG_SYN then m else 0)).
Proof.
  intros (Hl & Hr & _) Hs Ha Hf Hm Hc. unfold emit_ctrl. destruct (Z.ltb_spec cap 24); [lia|].
  apply tcp_parse_build; try done; try (apply wrap_bound; lia). constructor.
Qed.

Lemma synack_establishes s1 pkt now tps cap :
  state s1 = SYN_SENT -> conn_widths s1 -> in_u 32 (snd_nxt s1) -> in_u 16 (p_opt_mss pkt) -> 24 <= cap ->
  pflag pkt TCP_FLAG_RST = false -> pflag pkt TCP_FLAG_SYN = true -> pflag pkt TCP_FLAG_ACK = true ->
  p_ack pkt = u32 (iss s1 + 1) ->
  exists s2 ack, netd_tcp_on_segment s1 pkt now tps cap = (s2, ack) /\
    state s2 = ESTABLISHED /\ snd_una s2 = p_ack pkt /\ snd_nxt s2 = snd_nxt s1 /\
    netd_tcp_parse ack (local_ip s1) (remote_ip s1) =
      ok (Tcp_parsed (local_port s1) (remote_port s1) (snd_nxt s1) (u32 (p_seq pkt + 1)) 20
            TCP_FLAG_ACK (u16 (rcv_wnd s1)) [] 0).
Proof.
  intros Hst (Hl & Hr & Hmss) Hn Hm Hc HR HS HA Hack.
  unfold netd_tcp_on_segment, on_segment_switch, on_syn_sent. rewrite HR, HS, HA, Hst. cbn [negb orb].
  rewrite Hack, Z.eqb_refl. cbn [negb]. eexists _, _. split; [reflexivity|].
  do 3 (split; [done|]).
  match goal with |- netd_tcp_parse (emit_ctrl ?s _ _ _) _ _ = _ =>
    apply (emit_ctrl_parses s cap TCP_FLAG_ACK 0); try done; try (apply wrap_bound; lia) end.
  split_and!; [done|done|]. cbn [mss]. by destruct (_ && _).
Qed.

(** The active open completes the handshake.  [netd_tcp_connect] on a closed
    socket sends a SYN that parses with our initial sequence number and MSS; when
    any segment then parses as a SYN-ACK that acknowledges it, the socket is
    ESTABLISHED and the answer parses as the ACK of the peer's SYN. *)
Theorem tcp_active_open (sock : tcp_socket) (isn cap rto now tps now' tps' cap' : Z)
    (pkt : tcp_parsed) :
  state sock = CLOSED -> conn_widths sock -> in_u 32 isn -> 24 <= cap -> 24 <= cap' ->
  pflag pkt TCP_FLAG_RST = false -> pflag pkt TCP_FLAG_SYN = true -> pflag pkt TCP_FLAG_ACK = true ->
  p_ack pkt = u32 (isn + 1) -> in_u 16 (p_opt_mss pkt) ->
  exists s1 syn s2 ack,
    netd_tcp_connect sock isn cap rto now tps = (s1, syn, 0) /\
    netd_tcp_parse syn (local_ip sock) (remote_ip sock) =
      ok (Tcp_parsed (local_port sock) (remote_port sock) isn 0
            (20 + Z.of_nat (length (tcp_opts TCP_FLAG_SYN (mss sock)))) TCP_FLAG_SYN
            (u16 (rcv_wnd sock)) [] (mss sock)) /\
    netd_tcp_on_segment s1 pkt now' tps' cap' = (s2, ack) /\
    state s2 = ESTABLISHED /\ snd_una s2 = snd_nxt s2 /\
    netd_tcp_parse ack (local_ip sock) (remote_ip sock) =
      ok (Tcp_parsed (local_port sock) (remote_port sock) (u32 (isn + 1)) (u32 (p_seq pkt + 1)) 20
            TCP_FLAG_ACK (u16 (rcv_wnd sock)) [] 0).
Proof.
  intros Hst Hw Hisn Hc Hc' HR HS HA Hack Hm. unfold netd_tcp_connect. rewrite Hst.
  rewrite bool_decide_true by done. cbn [negb]. destruct (Z.ltb_spec cap 24); [lia|].
  match goal with |- context [pair (pair ?s ?b) 0] =>
    destruct (synack_establishes s pkt now' tps' cap') as (s2 & ack & H1 & H2 & H3 & H4 & H5);
      try done; [apply wrap_bound; lia|]; exists s, b, s2, ack end.
  split; [reflexivity|]. destruct Hw as (Hl & Hr & Hmss).
  split; [apply tcp_parse_build; try done; (apply wrap_bound; lia) || constructor|].
  split; [exact H1|]. split; [exact H2|]. split; [by rewrite H3, H4|exact H5].
Qed.

Lemma tcp_active_open_witness :
  exists s1 syn s2 ack,
    netd_tcp_connect (fresh_socket 1) 1000 1500 0 0 1000 = (s1, syn, 0) /\
    netd_tcp_on_segment s1 (Tcp_parsed 0 0 77 1001 20 0x12 4096 [] 0) 5 1000 1500 = (s2, ack) /\
    state s2 = ESTABLISHED.
Proof.
  destruct (tcp_active_open (fresh_socket 1) 1000 1500 0 0 1000 5 1000 1500
              (Tcp_parsed 0 0 77 1001 20 0x12 4096 [] 0)) as (s1 & syn & s2 & ack & H1 & _ & H2 & H3 & _);
    try reflexivity; try discriminate.
  - repeat split; discriminate || reflexivity.
  - split; discriminate || reflexivity.
  - split; discriminate || reflexivity.
  - by exists s1, syn, s2, ack.
Defined.

(** ** Data transfer *)

(** Octets sent and not acknowledged. *)
Definition flight (sock : tcp_socket) : Z := u32 (snd_nxt sock - snd_una sock).

Lemma seq_cmp_pos a b : (seq_cmp a b >? 0) = (i32 (a - b) >? 0).
Proof. unfold seq_cmp. destruct (_ <? 0) eqn:E1; [lia|]. destruct (i32 _ >? 0); reflexivity. Qed.
Lemma seq_cmp_nonpos a b : (seq_cmp a b <=? 0) = (i32 (a - b) <=? 0).
Proof. unfold seq_cmp. destruct (_ <? 0) eqn:E1; [lia|]. destruct (i32 _ >? 0) eqn:E2; lia. Qed.

Lemma process_ack_flight sock pkt :
  in_u 32 (snd_una sock) -> in_u 32 (snd_nxt sock) -> in_u 32 (p_ack pkt) -> flight sock < 2 ^ 31 ->
  flight (process_ack sock pkt) <= flight sock.
Proof.
  intros Hu Hn Ha Hf. unfold process_ack. destruct (negb _); [done|].
  destruct (_ && _) eqn:E.
  - rewrite seq_cmp_pos, seq_cmp_nonpos in E. apply andb_true_iff in E as [E1%Z.gtb_gt E2%Z.leb_le].
    unfold flight, wrap, swrap, in_u in *. cbn [snd_nxt snd_una].
    change (2 ^ (32 - 1)) with 2147483648 in *. change (2 ^ 32) with 4294967296 in *.
    change (2 ^ 31) with 2147483648 in *. zlia.
  - clear E. split_ifs; apply Z.le_refl.
Qed.

Lemma process_ack_frame sock pkt :
  exists una d c, process_ack sock pkt = {| sock with snd_una := una; dup_acks := d; cwnd := c |}.
Proof. unfold process_ack. destruct sock. split_ifs; cbn; eauto. Qed.

(** C30: a segment on an established connection.  It acknowledges only octets in
    flight (the flight never grows and what we send next is unchanged); the
    receive point advances by the payload exactly when the segment is the next in
    order, and by one for a FIN; a segment that carries data or a FIN is answered
    by a segment that parses as the ACK of the new receive point. *)
Theorem tcp_established_segment (sock : tcp_socket) (pkt : tcp_parsed) (now tps cap : Z) :
  state sock = ESTABLISHED -> conn_widths sock -> 24 <= cap ->
  in_u 32 (snd_una sock) -> in_u 32 (snd_nxt sock) -> in_u 32 (rcv_nxt sock) -> in_u 32 (p_ack pkt) ->
  flight sock < 2 ^ 31 -> pflag pkt TCP_FLAG_RST = false ->
  let '(s', resp) := netd_tcp_on_segment sock pkt now tps cap in
  flight s' <= flight sock /\ snd_nxt s' = snd_nxt sock /\
  rcv_nxt s' = u32 (rcv_nxt sock + (if p_seq pkt =? rcv_nxt sock then plen pkt else 0) +
                    (if pflag pkt TCP_FLAG_FIN then 1 else 0)) /\
  (plen pkt > 0 \/ pflag pkt TCP_FLAG_FIN = true ->
   netd_tcp_parse resp (local_ip sock) (remote_ip sock) =
     ok (Tcp_parsed (local_port sock) (remote_port sock) (snd_nxt sock) (rcv_nxt s') 20
           TCP_FLAG_ACK (u16 (rcv_wnd sock)) [] 0)).
Proof.
  intros Hst Hw Hc Hu Hn Hr Ha Hf HR. unfold netd_tcp_on_segment, on_segment_switch, on_established.
  rewrite HR, Hst. pose proof (process_ack_flight sock pkt Hu Hn Ha Hf) as Hfl.
  destruct (process_ack_frame sock pkt) as (una & d & c & Hp). rewrite Hp in Hfl |- *.
  cbn [rcv_nxt]. assert (forall x, in_u 32 (u32 x)) as Hwr by (intros; apply wrap_bound; lia).
  assert (0 <= plen pkt) by (unfold plen; lia).
  destruct (plen pkt >? 0) eqn:Ep; [destruct (p_seq pkt =? rcv_nxt sock) eqn:Es|];
    destruct (pflag pkt TCP_FLAG_FIN) eqn:EF;
    cbn [snd_nxt rcv_nxt]; (split; [exact Hfl|]); (split; [reflexivity|]);
    rewrite ?Z.add_0_r, ?(wrap_small 32 (rcv_nxt sock)) by done.
  all: (split; [first [reflexivity | by rewrite wrap_add_l by lia | replace (plen pkt) with 0 by lia; destruct (_ =? _);
           rewrite ?Z.add_0_r, ?(wrap_small 32 (rcv_nxt sock)) by done; reflexivity]|]).
  all: try (intros [?|?]; [lia|discriminate]).
  all: intros _; match goal with |- netd_tcp_parse (emit_ctrl ?s _ _ _) _ _ = _ =>
         apply (emit_ctrl_parses s cap TCP_FLAG_ACK 0); try done; apply Hwr end.
Qed.

Definition demo_established : tcp_socket :=
  let s := fresh_socket 1 in
  {| s with state := ESTABLISHED; local_ip := 0x0A00020F; remote_ip := 0x0A000202;
     local_port := 5000; remote_port := 80; snd_una := 1001; snd_nxt := 1101; rcv_nxt := 78;
     cwnd := 2920; ssthresh := 65535 |}.

Lemma tcp_established_segment_witness :
  let '(s', resp) := netd_tcp_on_segment demo_established
                       (Tcp_parsed 80 5000 78 1101 20 0x10 4096 [1; 2; 3] 0) 0 0 1500 in
  flight s' <= 100 /\ rcv_nxt s' = 81.
Proof.
  destruct (netd_tcp_on_segment demo_established
              (Tcp_parsed 80 5000 78 1101 20 0x10 4096 [1; 2; 3] 0) 0 0 1500) as [s' resp] eqn:E.
  pose proof (tcp_established_segment demo_established
                (Tcp_parsed 80 5000 78 1101 20 0x10 4096 [1; 2; 3] 0) 0 0 1500) as H.
  rewrite E in H. destruct H as (H1 & _ & H2 & _);
    try reflexivity; try discriminate; try (repeat split; discriminate || reflexivity).
  by split.
Defined.

(** ** Where the machine departs from the protocol *)
Definition peer_ip : Z := 0x0A000202.
Definition demo_listen : tcp_socket :=
  let s := fst (netd_tcp_listen (fresh_socket 1) 0x0A00020F 80) in
  {| s with remote_ip := peer_ip |}.
Definition demo_syn : tcp_parsed := Tcp_parsed 5000 80 77 0 20 TCP_FLAG_SYN 4096 [] 0.

(** the passive open cannot complete.  The LISTEN case overwrites the peer
    address that its caller has filled in with the destination port of the SYN,
    so the SYN-ACK is checksummed for another address: the peer, whose address is
    the one the segment is sent to, rejects it with a checksum error. *)
Theorem tcp_listen_answer_rejected :
  let '(s', resp) := netd_tcp_on_segment demo_listen demo_syn 1000 1000 24 in
  state s' = SYN_RCVD /\ remote_ip demo_listen = peer_ip /\ remote_ip s' = p_dst_port demo_syn /\
  netd_tcp_parse resp (local_ip demo_listen) peer_ip = fail (-4).
Proof. vm_compute. repeat split. Qed.

(** In CLOSE_WAIT the peer's ACK of our data is answered by a reset. *)
Lemma close_wait_answers_ack_with_rst :
  let sock := {| demo_established with state := CLOSE_WAIT |} in
  let resp := snd (netd_tcp_on_segment sock (Tcp_parsed 80 5000 78 1101 20 0x10 4096 [] 0) 0 0 24) in
  exists p, netd_tcp_parse resp (local_ip sock) (remote_ip sock) = ok p /\
            pflag p TCP_FLAG_RST = true.
Proof. eexists. split; vm_compute; reflexivity. Qed.

(** At 2.4 GHz the two minutes of TIME_WAIT are truncated to less than 0.1 s. *)
Lemma time_wait_truncated :
  ms_to_tsc 2400000000 TCP_TIME_WAIT_MS = 237191168 /\ 10 * ms_to_tsc 2400000000 TCP_TIME_WAIT_MS < 2400000000.
Proof. by vm_compute. Qed.
