(* ===== verification/NetUdp.v ===== *)
(** * The UDP socket table (user/netd_udp.c)

    Binding by port, with the ephemeral cursor that the whole process shares.
    The theorem shows that bound ports are unique, that an ephemeral bind never
    fails while a slot is free, and that a bound port is found again. *)
From S2P Require Import Prelude.
Local Open Scope Z_scope.

Definition UDP_MAX_SOCKETS : nat := 64.

Inductive udp_state := UDP_STATE_FREE | UDP_STATE_BOUND.
#[export] Instance udp_state_eq_dec : EqDecision udp_state.
Proof. solve_decision. Defined.

Record udp_socket := Udp_socket { u_state : udp_state; u_local_port : Z; u_owner_cookie : Z }.
Definition zero_udp : udp_socket := Udp_socket UDP_STATE_FREE 0 0.

(** The table and the static cursor [s_udp_ephemeral_cursor]. *)
Record udp_net := Udp_net { u_sockets : list udp_socket; u_cursor : Z }.

Definition netd_udp_table_init (n : udp_net) : udp_net :=
  {| n with u_sockets := replicate UDP_MAX_SOCKETS zero_udp |}.
Definition udp_boot : udp_net := netd_udp_table_init (Udp_net [] 48152).

Definition bound_to (port : Z) (s : udp_socket) : Prop :=
  u_state s = UDP_STATE_BOUND /\ u_local_port s = port.
#[export] Instance bound_to_dec port s : Decision (bound_to port s).
Proof. unfold bound_to. apply _. Defined.

Definition udp_port_in_use (tbl : list udp_socket) (port : Z) : bool :=
  bool_decide (Exists (bound_to port) tbl).

(** The ephemeral search: the port found (0 if none) and the new cursor. *)
Fixpoint udp_ephemeral (attempts : nat) (tbl : list udp_socket) (cursor : Z) : Z * Z :=
  match attempts with
  | O => (0, cursor)
  | S n =>
      let candidate := cursor in
      let cursor := u16 (cursor + 1) in
      let cursor := if cursor =? 0 then 48152 else cursor in
      if candidate <? 48152 then udp_ephemeral n tbl 48153
      else if negb (udp_port_in_use tbl candidate) then (candidate, cursor)
      else udp_ephemeral n tbl cursor
  end.

(** The second half: claim the first free slot. *)
Definition udp_claim (n : udp_net) (port cookie : Z) : udp_net * Z :=
  match list_find (fun s => u_state s = UDP_STATE_FREE) (u_sockets n) with
  | Some (i, _) =>
      ({| n with u_sockets := <[i := Udp_socket UDP_STATE_BOUND port cookie]> (u_sockets n) |}, Z.of_nat i)
  | None => (n, -4)
  end.

Definition netd_udp_bind (n : udp_net) (port cookie : Z) : udp_net * Z :=
  if port =? 0 then
    let '(p, c) := udp_ephemeral (Z.to_nat 17384) (u_sockets n) (u_cursor n) in
    let n := {| n with u_cursor := c |} in
    if p =? 0 then (n, -2) else udp_claim n p cookie
  else if udp_port_in_use (u_sockets n) port then (n, -3)
  else udp_claim n port cookie.

Definition netd_udp_close (n : udp_net) (idx : Z) : udp_net :=
  if (idx <? 0) || (u32 idx >=? Z.of_nat UDP_MAX_SOCKETS) then n
  else {| n with u_sockets := upd (u_sockets n) idx zero_udp |}.

Definition netd_udp_find (n : udp_net) (port : Z) : Z :=
  match list_find (bound_to port) (u_sockets n) with
  | Some (i, _) => Z.of_nat i
  | None => -1
  end.

(** ** Invariant *)
Definition ports_unique (tbl : list udp_socket) : Prop :=
  forall i j s t, tbl !! i = Some s -> tbl !! j = Some t ->
    u_state s = UDP_STATE_BOUND -> u_state t = UDP_STATE_BOUND ->
    u_local_port s = u_local_port t -> i = j.

Definition wf_udp (n : udp_net) : Prop :=
  length (u_sockets n) = UDP_MAX_SOCKETS /\ ports_unique (u_sockets n) /\ 48152 <= u_cursor n < 65536.

Lemma in_use_spec tbl port :
  udp_port_in_use tbl port = true <-> exists i s, tbl !! i = Some s /\ bound_to port s.
Proof.
  unfold udp_port_in_use. rewrite bool_decide_eq_true, Exists_exists. split.
  - intros (s & [i Hi]%list_elem_of_lookup & Hs). eauto.
  - intros (i & s & Hi & Hs). exists s. split; [by eapply list_elem_of_lookup_2|done].
Qed.

(** The port [k] steps of the cursor after [c]. *)
Definition port_at (c : Z) (k : nat) : Z := 48152 + (c - 48152 + Z.of_nat k) mod 17384.

Lemma port_at_next c k : 48152 <= c < 65536 ->
  port_at (if u16 (c + 1) =? 0 then 48152 else u16 (c + 1)) k = port_at c (S k).
Proof.
  intros Hc. unfold port_at. destruct (Z.eq_dec c 65535) as [->|].
  - change (u16 (65535 + 1) =? 0) with true. cbv iota. f_equal.
    replace (65535 - 48152 + Z.of_nat (S k)) with (48152 - 48152 + Z.of_nat k + 1 * 17384) by lia.
    by rewrite Z.mod_add by lia.
  - rewrite wrap_small by (unfold in_u; lia). destruct (Z.eqb_spec (c + 1) 0); [lia|]. do 2 f_equal. lia.
Qed.

Lemma next_cursor_range c : 48152 <= c < 65536 ->
  48152 <= (if u16 (c + 1) =? 0 then 48152 else u16 (c + 1)) < 65536.
Proof. intros Hc. unfold wrap. destruct (Z.eqb_spec ((c + 1) mod 2 ^ 16) 0); zlia. Qed.

Lemma port_at_0 c : 48152 <= c < 65536 -> port_at c 0 = c.
Proof. intros. unfold port_at. rewrite Z.add_0_r, Z.mod_small; lia. Qed.

(** The search returns the first unused port within its attempts. *)
Lemma ephemeral_spec n tbl c :
  48152 <= c < 65536 ->
  let '(p, c') := udp_ephemeral n tbl c in
  48152 <= c' < 65536 /\
  ((p = 0 /\ forall k, (k < n)%nat -> udp_port_in_use tbl (port_at c k) = true) \/
   (48152 <= p < 65536 /\ udp_port_in_use tbl p = false)).
Proof.
  revert c. induction n as [|n IH]; intros c Hc; cbn [udp_ephemeral].
  { split; [done|]. left. split; [done|]. lia. }
  pose proof (next_cursor_range c Hc) as Hc1. destruct (Z.ltb_spec c 48152); [lia|].
  destruct (udp_port_in_use tbl c) eqn:E; cbn [negb]; [|split; [done|by right]].
  specialize (IH _ Hc1). destruct (udp_ephemeral n tbl _) as [p c'].
  destruct IH as [Hc' [[-> IH]|IH]]; (split; [done|]); [left|by right].
  split; [done|]. intros [|k] Hk; [by rewrite port_at_0|].
  rewrite <- port_at_next by done. apply IH. lia.
Qed.

Lemma port_at_inj c j k :
  Z.of_nat j < 17384 -> Z.of_nat k < 17384 -> port_at c j = port_at c k -> j = k.
Proof.
  intros Hj Hk E. unfold port_at in E.
  assert ((c - 48152 + Z.of_nat j) mod 17384 = (c - 48152 + Z.of_nat k) mod 17384) as E' by lia.
  revert E'. generalize (c - 48152). intros x E'. zlia.
Qed.

(** More attempts than sockets: one of the candidates is unused. *)
Lemma ephemeral_candidates tbl c :
  Z.of_nat (length tbl) < 17384 ->
  ~ forall k, Z.of_nat k < 17384 -> udp_port_in_use tbl (port_at c k) = true.
Proof.
  intros Hl H. set (ports := port_at c <$> seq 0 (S (length tbl))).
  assert (NoDup ports) as Hnd.
  { apply NoDup_alt. intros i j x. unfold ports. rewrite !list_lookup_fmap_Some.
    intros (a & -> & [-> Ha]%lookup_seq) (b & E & [-> Hb]%lookup_seq). cbn in E.
    by apply port_at_inj in E; [|lia|lia]. }
  assert (ports ⊆ u_local_port <$> tbl) as Hs.
  { intros x (k & -> & Hk%elem_of_seq)%list_elem_of_fmap.
    destruct (proj1 (in_use_spec tbl (port_at c k)) ltac:(apply H; lia)) as (i & s & Hi & _ & <-).
    apply list_elem_of_fmap_2, (list_elem_of_lookup_2 _ i). done. }
  apply NoDup_submseteq in Hs; [|done]. apply submseteq_length in Hs.
  unfold ports in Hs. rewrite !length_fmap, length_seq in Hs. lia.
Qed.

Lemma claim_spec n port cookie :
  wf_udp n -> udp_port_in_use (u_sockets n) port = false ->
  let '(n', r) := udp_claim n port cookie in
  wf_udp n' /\
  ((exists s, s ∈ u_sockets n /\ u_state s = UDP_STATE_FREE) ->
   0 <= r /\ netd_udp_find n' port = r /\
   u_sockets n' !! Z.to_nat r = Some (Udp_socket UDP_STATE_BOUND port cookie)).
Proof.
  intros (Hl & Hu & Hc) Hp. unfold udp_claim.
  destruct (list_find _ _) as [[i s]|] eqn:E.
  2: { split; [done|]. intros (s & Hs & Hf). by apply list_find_None in E; eapply Forall_forall in E. }
  apply list_find_Some in E as (Hi & Hf & _).
  assert (forall j t, u_sockets n !! j = Some t -> ~ bound_to port t) as Hfree.
  { intros j t Ht Hb. assert (udp_port_in_use (u_sockets n) port = true) by (apply in_use_spec; eauto). congruence. }
  assert (Hi' : (i < length (u_sockets n))%nat) by (by eapply lookup_lt_Some).
  split; [split; [|split]; cbn|].
  - by rewrite length_insert.
  - intros j k a b Ha Hb Hsa Hsb Hpab. rewrite list_lookup_insert_Some in Ha, Hb.
    destruct Ha as [(<- & <- & _)|[Hj Ha]]; destruct Hb as [(<- & <- & _)|[Hk Hb]]; [done| | |eauto].
    + exfalso. apply (Hfree k b Hb). by split.
    + exfalso. apply (Hfree j a Ha). by split.
  - done.
  - intros _. split; [lia|]. cbn [u_sockets]. rewrite Nat2Z.id, list_lookup_insert_eq by done.
    split; [|done]. unfold netd_udp_find. cbn [u_sockets].
    assert (list_find (bound_to port) (<[i := Udp_socket UDP_STATE_BOUND port cookie]> (u_sockets n)) =
            Some (i, Udp_socket UDP_STATE_BOUND port cookie)) as ->; [|done].
    apply list_find_Some. split; [by rewrite list_lookup_insert_eq|]. split; [by split|].
    intros j t Ht Hji. rewrite list_lookup_insert_ne in Ht by lia. by apply (Hfree j).
Qed.

Inductive udp_op := UBind (port cookie : Z) | UClose (idx : Z).
Definition udp_step (n : udp_net) (op : udp_op) : udp_net :=
  match op with UBind p c => fst (netd_udp_bind n p c) | UClose i => netd_udp_close n i end.

Lemma wf_udp_boot : wf_udp udp_boot.
Proof.
  split; [done|split; [|done]]. intros i j s t Hs Ht Hb. exfalso.
  cbn [udp_boot netd_udp_table_init u_sockets] in Hs. apply lookup_replicate in Hs as [-> _]. done.
Qed.

Lemma wf_udp_cursor n c : wf_udp n -> 48152 <= c < 65536 -> wf_udp {| n with u_cursor := c |}.
Proof. by intros (Hl & Hu & _) Hc. Qed.

Lemma wf_udp_step n op : wf_udp n -> wf_udp (udp_step n op).
Proof.
  intros Hw. destruct op as [p c|i]; cbn [udp_step].
  - unfold netd_udp_bind. destruct (p =? 0).
    + pose proof (ephemeral_spec (Z.to_nat 17384) (u_sockets n) (u_cursor n) (proj2 (proj2 Hw))) as H.
      destruct (udp_ephemeral _ _ _) as [q c']. destruct H as [Hc' H].
      pose proof (wf_udp_cursor n c' Hw Hc') as Hw'. destruct (Z.eqb_spec q 0); [done|].
      destruct H as [[-> _]|[_ Hq]]; [done|]. pose proof (claim_spec _ q c Hw' Hq) as H.
      destruct (udp_claim _ _ _). apply H.
    + destruct (udp_port_in_use _ _) eqn:E; [done|]. pose proof (claim_spec n p c Hw E) as H.
      destruct (udp_claim _ _ _). apply H.
  - unfold netd_udp_close. destruct (_ || _); [done|]. destruct Hw as (Hl & Hu & Hc).
    split; [cbn; by rewrite length_upd|split; [|done]]. cbn.
    intros j k a b Ha Hb Hsa Hsb Hpab. unfold upd in Ha, Hb. rewrite list_lookup_insert_Some in Ha, Hb.
    destruct Ha as [(_ & <- & _)|[_ Ha]]; [done|]. destruct Hb as [(_ & <- & _)|[_ Hb]]; [done|eauto].
Qed.

(** UDP binding.  In every table that binds and closes can produce, no port
    is bound twice; and while a slot is free a bind succeeds: of an unused port,
    or, for port 0, of an unused port of 48152..65535 that the cursor search finds
    within its attempts; the port is then found in the slot returned. *)
Theorem udp_bind_correct (ops : list udp_op) (port cookie : Z) :
  let n := fold_left udp_step ops udp_boot in
  wf_udp n /\
  ((exists s, s ∈ u_sockets n /\ u_state s = UDP_STATE_FREE) ->
   udp_port_in_use (u_sockets n) port = false \/ port = 0 ->
   exists p r n', netd_udp_bind n port cookie = (n', r) /\ 0 <= r /\ netd_udp_find n' p = r /\
     (port = 0 -> 48152 <= p < 65536 /\ udp_port_in_use (u_sockets n) p = false) /\
     (port <> 0 -> p = port)).
Proof.
  intros n. assert (wf_udp n) as Hw.
  { subst n. revert ops. induction ops as [|op ops IH] using rev_ind; [apply wf_udp_boot|].
    rewrite fold_left_app. by apply wf_udp_step. }
  split; [done|]. clearbody n. intros Hfree Hport. unfold netd_udp_bind.
  destruct (Z.eqb_spec port 0) as [->|Hp0].
  - pose proof (ephemeral_spec (Z.to_nat 17384) (u_sockets n) (u_cursor n) (proj2 (proj2 Hw))) as H.
    destruct (udp_ephemeral _ _ _) as [q c']. destruct H as [Hc' [[-> H]|[Hq Hu]]].
    { exfalso. apply (ephemeral_candidates (u_sockets n) (u_cursor n)).
      - rewrite (proj1 Hw). done.
      - intros k Hk. apply H. lia. }
    destruct (Z.eqb_spec q 0); [lia|].
    pose proof (claim_spec _ q cookie (wf_udp_cursor n c' Hw Hc') Hu) as HC.
    destruct (udp_claim _ _ _) as [n' r]. destruct HC as [_ HC]. destruct (HC Hfree) as (Hr & Hf & _).
    exists q, r, n'. done.
  - destruct Hport as [Hu|]; [|done]. rewrite Hu. pose proof (claim_spec n port cookie Hw Hu) as HC.
    destruct (udp_claim _ _ _) as [n' r]. destruct HC as [_ HC]. destruct (HC Hfree) as (Hr & Hf & _).
    exists port, r, n'. done.
Qed.

Lemma udp_bind_correct_witness :
  exists p r n', netd_udp_bind udp_boot 0 7 = (n', r) /\ 0 <= r /\ netd_udp_find n' p = r.
Proof.
  destruct (udp_bind_correct [] 0 7) as [_ H].
  destruct H as (p & r & n' & H1 & H2 & H3 & _).
  - exists zero_udp. split; [|reflexivity]. apply list_elem_of_here.
  - by right.
  - by exists p, r, n'.
Defined.
