(* ===== verification/NetArp.v ===== *)
(** * ARP (user/netd_arp.c)

    The 64-slot cache with round-robin eviction, the frame builders and parser,
    the incoming handler and outbound resolution.  A hardware address is a list
    of six bytes.  The theorems: an address is cached at most once, an incoming
    packet teaches exactly its sender, a request for us is answered by a frame
    that parses as the matching reply, and requests are not repeated while one is
    pending. *)
From S2P Require Import Prelude NetBytes NetWire.
Local Open Scope Z_scope.
Local Open Scope c_scope.

Abbreviation ARP_HTYPE_ETH := 1.
Abbreviation ARP_PTYPE_IPV4 := 0x0800.
Abbreviation ARP_HLEN_ETH := 6.
Abbreviation ARP_PLEN_IPV4 := 4.
Abbreviation ARP_OP_REQUEST := 1.
Abbreviation ARP_OP_REPLY := 2.
Abbreviation ARP_FRAME_LEN := 42.
Definition ARP_PAYLOAD_LEN : Z := 28.
Definition ARP_TABLE_SLOTS : nat := 64.

Inductive arp_state := ARP_STATE_FREE | ARP_STATE_RESOLVED | ARP_STATE_PENDING.
#[export] Instance arp_state_eq_dec : EqDecision arp_state.
Proof. solve_decision. Defined.

Record arp_packet := Arp_packet {
  a_htype : Z; a_ptype : Z; a_hlen : Z; a_plen : Z; a_op : Z;
  a_sender_mac : list Z; a_sender_ip : Z; a_target_mac : list Z; a_target_ip : Z
}.

Record arp_entry := Arp_entry { e_ip : Z; e_mac : list Z; e_state : arp_state; e_expiry_tsc : Z }.
Definition zero_entry : arp_entry := Arp_entry 0 (replicate 6 0) ARP_STATE_FREE 0.

Record arp_table := Arp_table { entries : list arp_entry; next_slot : Z }.

Definition netd_arp_init : arp_table := Arp_table (replicate ARP_TABLE_SLOTS zero_entry) 0.

(** ** The cache *)
Definition is_resolved (ip : Z) (e : arp_entry) : Prop := e_state e = ARP_STATE_RESOLVED /\ e_ip e = ip.
#[export] Instance is_resolved_dec ip e : Decision (is_resolved ip e).
Proof. unfold is_resolved. apply _. Defined.
Definition is_used (ip : Z) (e : arp_entry) : Prop := e_state e <> ARP_STATE_FREE /\ e_ip e = ip.
#[export] Instance is_used_dec ip e : Decision (is_used ip e).
Proof. unfold is_used. apply _. Defined.

Definition netd_arp_lookup (tbl : arp_table) (ip : Z) : option (list Z) :=
  match list_find (is_resolved ip) (entries tbl) with
  | Some (_, e) => Some (e_mac e)
  | None => None
  end.

(** The slot and the new [next_slot]. *)
Definition netd_arp_choose_slot (tbl : arp_table) (ip : Z) : nat * Z :=
  match list_find (is_used ip) (entries tbl) with
  | Some (i, _) => (i, next_slot tbl)
  | None =>
      match list_find (fun e => e_state e = ARP_STATE_FREE) (entries tbl) with
      | Some (i, _) => (i, next_slot tbl)
      | None =>
          let slot := next_slot tbl mod Z.of_nat ARP_TABLE_SLOTS in
          (Z.to_nat slot, (slot + 1) mod Z.of_nat ARP_TABLE_SLOTS)
      end
  end.

Definition netd_arp_insert (tbl : arp_table) (ip : Z) (mac : list Z) (st : arp_state)
    (now_tsc ttl_tsc : Z) : arp_table :=
  if negb (bool_decide (st = ARP_STATE_RESOLVED)) && negb (bool_decide (st = ARP_STATE_PENDING)) then tbl else
  let '(slot, nxt) := netd_arp_choose_slot tbl ip in
  Arp_table (<[slot := Arp_entry ip (take 6 mac) st (u64 (now_tsc + ttl_tsc))]> (entries tbl)) nxt.

Definition is_aged (now_tsc : Z) (e : arp_entry) : bool :=
  bool_decide (e_state e = ARP_STATE_RESOLVED) && (now_tsc >=? e_expiry_tsc e).

Definition netd_arp_gc (tbl : arp_table) (now_tsc : Z) : arp_table * Z :=
  ({| tbl with entries := (fun e => if is_aged now_tsc e then zero_entry else e) <$> entries tbl |},
   Z.of_nat (length (List.filter (is_aged now_tsc) (entries tbl)))).

Definition netd_arp_count (tbl : arp_table) : Z :=
  Z.of_nat (length (List.filter (fun e => bool_decide (e_state e = ARP_STATE_RESOLVED)) (entries tbl))).

(** ** Frames *)
Definition netd_arp_fill_pdu (op : Z) (sender_mac : list Z) (sender_ip : Z) (target_mac : list Z)
    (target_ip : Z) : list Z :=
  netd_write_be16 ARP_HTYPE_ETH ++ netd_write_be16 ARP_PTYPE_IPV4 ++ [ARP_HLEN_ETH; ARP_PLEN_IPV4] ++
  netd_write_be16 op ++ take 6 sender_mac ++ netd_write_be32 sender_ip ++ take 6 target_mac ++
  netd_write_be32 target_ip.

Definition netd_arp_build_request (my_mac : list Z) (my_ip target_ip : Z) : list Z :=
  netd_eth_build netd_eth_bcast my_mac ETH_TYPE_ARP ++
  netd_arp_fill_pdu ARP_OP_REQUEST my_mac my_ip netd_eth_zero target_ip.

Definition netd_arp_build_reply (my_mac : list Z) (my_ip : Z) (requester_mac : list Z)
    (requester_ip : Z) : list Z :=
  netd_eth_build requester_mac my_mac ETH_TYPE_ARP ++
  netd_arp_fill_pdu ARP_OP_REPLY my_mac my_ip requester_mac requester_ip.

(** Six bytes at [i]. *)
Definition read_mac (buf : list Z) (i : Z) : option (list Z) :=
  a ← get buf i; b ← get buf (i + 1); c ← get buf (i + 2);
  d ← get buf (i + 3); e ← get buf (i + 4); f ← get buf (i + 5);
  Some [a; b; c; d; e; f].

Definition netd_arp_parse (arp_buf : list Z) : parse_result arp_packet :=
  if Z.of_nat (length arp_buf) <? ARP_PAYLOAD_LEN then fail (-1) else
  htype ← netd_read_be16 arp_buf 0;
  ptype ← netd_read_be16 arp_buf 2;
  hlen ← get arp_buf 4;
  plen ← get arp_buf 5;
  op ← netd_read_be16 arp_buf 6;
  smac ← read_mac arp_buf 8;
  sip ← netd_read_be32 arp_buf 14;
  tmac ← read_mac arp_buf 18;
  tip ← netd_read_be32 arp_buf 24;
  if negb (htype =? ARP_HTYPE_ETH) then fail (-2) else
  if negb (ptype =? ARP_PTYPE_IPV4) then fail (-2) else
  if negb (hlen =? ARP_HLEN_ETH) then fail (-2) else
  if negb (plen =? ARP_PLEN_IPV4) then fail (-2) else
  if negb (op =? ARP_OP_REQUEST) && negb (op =? ARP_OP_REPLY) then fail (-2) else
  ok (Arp_packet htype ptype hlen plen op smac sip tmac tip).

(** The table, the return code and the reply ([] when [*reply_len] is 0). *)
Definition netd_arp_handle_incoming (tbl : arp_table) (arp_buf my_mac : list Z)
    (my_ip now_tsc ttl_tsc reply_buf_cap : Z) : option (arp_table * Z * list Z) :=
  r ← netd_arp_parse arp_buf;
  match r with
  | inl rc => Some (tbl, rc, [])
  | inr pkt =>
      let tbl := netd_arp_insert tbl (a_sender_ip pkt) (a_sender_mac pkt) ARP_STATE_RESOLVED
                   now_tsc ttl_tsc in
      let reply :=
        if (a_op pkt =? ARP_OP_REQUEST) && negb (my_ip =? 0) && (a_target_ip pkt =? my_ip) &&
           (reply_buf_cap >=? ARP_FRAME_LEN)
        then netd_arp_build_reply my_mac my_ip (a_sender_mac pkt) (a_sender_ip pkt) else [] in
      Some (tbl, 0, reply)
  end.

Definition is_pending (ip now : Z) (e : arp_entry) : Prop :=
  e_state e = ARP_STATE_PENDING /\ e_ip e = ip /\ now < e_expiry_tsc e.
#[export] Instance is_pending_dec ip now e : Decision (is_pending ip now e).
Proof. unfold is_pending. apply _. Defined.

(** The table, the return code, the address on a hit, and the request frame. *)
Definition netd_arp_resolve (tbl : arp_table) (my_mac : list Z)
    (my_ip target_ip now_tsc pending_ttl_tsc req_buf_cap : Z)
    : arp_table * Z * option (list Z) * list Z :=
  match netd_arp_lookup tbl target_ip with
  | Some mac => (tbl, 1, Some mac, [])
  | None =>
      if bool_decide (Exists (is_pending target_ip now_tsc) (entries tbl)) then (tbl, 0, None, []) else
      let tbl := netd_arp_insert tbl target_ip netd_eth_zero ARP_STATE_PENDING now_tsc pending_ttl_tsc in
      (tbl, 0, None,
       if req_buf_cap >=? ARP_FRAME_LEN then netd_arp_build_request my_mac my_ip target_ip else [])
  end.

(** ** Invariant of the cache *)
Definition ips_unique (l : list arp_entry) : Prop :=
  forall i j e f, l !! i = Some e -> l !! j = Some f ->
    e_state e <> ARP_STATE_FREE -> e_state f <> ARP_STATE_FREE -> e_ip e = e_ip f -> i = j.

Definition wf_arp (tbl : arp_table) : Prop :=
  length (entries tbl) = ARP_TABLE_SLOTS /\ ips_unique (entries tbl).

Lemma wf_arp_init : wf_arp netd_arp_init.
Proof.
  split; [done|]. intros i j e f He _ Hs. exfalso.
  cbn [netd_arp_init entries] in He. by apply lookup_replicate in He as [-> _].
Qed.

Lemma arp_lookup_iff tbl ip m :
  ips_unique (entries tbl) ->
  netd_arp_lookup tbl ip = Some m <->
  exists i e, entries tbl !! i = Some e /\ is_resolved ip e /\ e_mac e = m.
Proof.
  intros Hu. unfold netd_arp_lookup. split.
  - destruct (list_find _ _) as [[i e]|] eqn:E; [|done]. intros [= <-].
    apply list_find_Some in E as (Hi & Hr & _). eauto.
  - intros (i & e & Hi & Hr & <-). destruct (list_find _ _) as [[j f]|] eqn:E.
    + apply list_find_Some in E as (Hj & Hf & _). destruct Hr as [Hr1 Hr2], Hf as [Hf1 Hf2].
      assert (i = j) as -> by (apply (Hu i j e f); congruence). congruence.
    + apply list_find_None in E. exfalso. eapply Forall_lookup_1 in E; [|done]. by apply E.
Qed.

(** Where an insertion for [ip] goes: over the entry of [ip], over a free slot,
    or, when there is neither, over the slot the cursor names. *)
Lemma choose_slot_spec tbl ip :
  wf_arp tbl -> let '(i, _) := netd_arp_choose_slot tbl ip in
  exists e, entries tbl !! i = Some e /\
    (is_used ip e \/
     (Forall (fun f => ~ is_used ip f) (entries tbl) /\
      (e_state e = ARP_STATE_FREE \/ Forall (fun f => e_state f <> ARP_STATE_FREE) (entries tbl)))).
Proof.
  intros [Hl _]. unfold netd_arp_choose_slot.
  destruct (list_find (is_used ip) _) as [[i e]|] eqn:E1.
  { apply list_find_Some in E1 as (Hi & Hu & _). exists e. split; [done|by left]. }
  apply list_find_None in E1. destruct (list_find _ _) as [[i e]|] eqn:E2.
  { apply list_find_Some in E2 as (Hi & Hu & _). exists e. split; [done|]. right. split; [done|by left]. }
  apply list_find_None in E2.
  destruct (lookup_lt_is_Some_2 (entries tbl) (Z.to_nat (next_slot tbl mod Z.of_nat ARP_TABLE_SLOTS))) as [e He].
  { rewrite Hl. pose proof (Z.mod_pos_bound (next_slot tbl) (Z.of_nat ARP_TABLE_SLOTS)).
    unfold ARP_TABLE_SLOTS in *. lia. }
  exists e. split; [done|]. right. split; [done|]. by right.
Qed.

Lemma arp_insert_spec tbl ip mac st now ttl :
  wf_arp tbl -> st <> ARP_STATE_FREE ->
  let tbl' := netd_arp_insert tbl ip mac st now ttl in
  wf_arp tbl' /\
  exists i, entries tbl' !! i = Some (Arp_entry ip (take 6 mac) st (u64 (now + ttl))) /\
    forall j, j <> i -> entries tbl' !! j = entries tbl !! j.
Proof.
  intros Hw Hst. pose proof (choose_slot_spec tbl ip Hw) as Hc. destruct Hw as [Hl Hu]. cbv zeta.
  unfold netd_arp_insert.
  assert (negb (bool_decide (st = ARP_STATE_RESOLVED)) && negb (bool_decide (st = ARP_STATE_PENDING)) = false)
    as -> by (by destruct st).
  destruct (netd_arp_choose_slot tbl ip) as [i nxt]. destruct Hc as (e0 & He0 & Hc).
  assert (i < length (entries tbl))%nat by (by eapply lookup_lt_Some).
  split; [split|]; cbn [entries].
  - by rewrite length_insert.
  - assert (forall k g, entries tbl !! k = Some g -> k <> i -> e_state g <> ARP_STATE_FREE ->
              e_ip g = ip -> False) as Hno.
    { intros k g Hg Hk Hs Hip. destruct Hc as [[Hs0 Hip0]|[Hall _]].
      - apply Hk. apply (Hu k i g e0); congruence.
      - eapply Forall_lookup_1 in Hall; [|exact Hg]. by apply Hall. }
    intros j k e f Ha Hb Hsa Hsb Hpab. rewrite list_lookup_insert_Some in Ha, Hb.
    destruct Ha as [(<- & <- & _)|[Hj Ha]]; destruct Hb as [(<- & <- & _)|[Hk Hb]];
      [done|exfalso; eauto|exfalso; eauto|eauto].
  - exists i. split; [by rewrite list_lookup_insert_eq|]. intros j Hj. by rewrite list_lookup_insert_ne.
Qed.

Lemma arp_insert_lookup tbl ip mac now ttl :
  wf_arp tbl -> netd_arp_lookup (netd_arp_insert tbl ip mac ARP_STATE_RESOLVED now ttl) ip = Some (take 6 mac).
Proof.
  intros Hw. destruct (arp_insert_spec tbl ip mac ARP_STATE_RESOLVED now ttl Hw) as ([_ Hu] & i & Hi & _); [done|].
  apply arp_lookup_iff; [done|]. by eexists i, _.
Qed.

(** No other address is learnt: what the cache answers for it was there before. *)
Lemma arp_insert_other tbl ip ip' mac st now ttl m :
  wf_arp tbl -> st <> ARP_STATE_FREE -> ip' <> ip ->
  netd_arp_lookup (netd_arp_insert tbl ip mac st now ttl) ip' = Some m -> netd_arp_lookup tbl ip' = Some m.
Proof.
  intros Hw Hst Hne. destruct (arp_insert_spec tbl ip mac st now ttl Hw Hst) as ([_ Hu] & i & Hi & Hj).
  rewrite !arp_lookup_iff by (apply Hw || done). intros (j & e & He & Hr & Hm). exists j, e.
  destruct (decide (j = i)) as [->|Hji]; [|by rewrite <- Hj].
  rewrite Hi in He. injection He as <-. by destruct Hr.
Qed.

(** An entry is lost only when the cache is full. *)
Lemma arp_insert_keeps tbl ip ip' mac st now ttl :
  wf_arp tbl -> ip' <> ip ->
  (exists e, e ∈ entries tbl /\ e_state e = ARP_STATE_FREE) ->
  netd_arp_lookup (netd_arp_insert tbl ip mac st now ttl) ip' = netd_arp_lookup tbl ip'.
Proof.
  intros Hw Hne (e & Hin & Hfree). destruct (decide (st = ARP_STATE_FREE)) as [->|Hst]; [done|].
  apply option_eq. intros m. split; [by apply arp_insert_other|].
  pose proof (choose_slot_spec tbl ip Hw) as Hc.
  destruct (arp_insert_spec tbl ip mac st now ttl Hw Hst) as ([_ Hu] & _).
  rewrite !arp_lookup_iff by (apply Hw || done). intros (j & f & Hf & Hr & Hm). exists j, f.
  split; [|done]. unfold netd_arp_insert in *.
  destruct (_ && _); [done|]. destruct (netd_arp_choose_slot tbl ip) as [i nxt].
  destruct Hc as (e0 & He0 & Hc). cbn [entries]. rewrite list_lookup_insert_ne; [done|].
  intros ->. rewrite He0 in Hf. injection Hf as ->. destruct Hr as [Hr1 Hr2].
  destruct Hc as [[_ Hip]|[_ [Hs|Hall]]]; [congruence|congruence|].
  rewrite Forall_forall in Hall. by apply (Hall e Hin).
Qed.

Lemma wf_arp_gc tbl now : wf_arp tbl -> wf_arp (fst (netd_arp_gc tbl now)).
Proof.
  intros [Hl Hu]. split; cbn [netd_arp_gc fst entries]; [by rewrite length_fmap|].
  intros i j e f. rewrite !list_lookup_fmap_Some. intros (e0 & He & He0) (f0 & Hf & Hf0).
  destruct (is_aged now e0), (is_aged now f0); subst; try done. by apply Hu.
Qed.

(** ** Frames *)
Lemma length_6 {A} (l : list A) : length l = 6%nat -> exists a b c d e f, l = [a; b; c; d; e; f].
Proof. destruct l as [|a [|b [|c [|d [|e [|f [|]]]]]]]; try discriminate. intros _. by exists a, b, c, d, e, f. Qed.

Lemma arp_parse_pdu op smac sip tmac tip pad :
  op = ARP_OP_REQUEST \/ op = ARP_OP_REPLY -> length smac = 6%nat -> length tmac = 6%nat ->
  in_u 32 sip -> in_u 32 tip ->
  netd_arp_parse (netd_arp_fill_pdu op smac sip tmac tip ++ pad) =
  ok (Arp_packet ARP_HTYPE_ETH ARP_PTYPE_IPV4 ARP_HLEN_ETH ARP_PLEN_IPV4 op smac sip tmac tip).
Proof.
  intros Hop (a & b & c & d & e & f & ->)%length_6 (a' & b' & c' & d' & e' & f' & ->)%length_6 Hs Ht.
  set (pdu := netd_arp_fill_pdu _ _ _ _ _).
  assert (length pdu = 28%nat) as Hl by reflexivity.
  unfold netd_arp_parse. rewrite length_app, Hl.
  assert ((Z.of_nat (28 + length pad) <? ARP_PAYLOAD_LEN) = false) as -> by (unfold ARP_PAYLOAD_LEN; lia).
  subst pdu. unfold netd_arp_fill_pdu. cbn [take firstn app].
  assert (in_u 16 ARP_HTYPE_ETH /\ in_u 16 ARP_PTYPE_IPV4 /\ in_u 16 op) as (H1 & H2 & H3).
  { destruct Hop as [-> | ->]; done. }
  match goal with |- context [netd_read_be16 ?x 0] => set (whole := x) end.
  assert (netd_read_be16 whole 0 = Some ARP_HTYPE_ETH) as -> by (subst whole; read_lit).
  assert (netd_read_be16 whole 2 = Some ARP_PTYPE_IPV4) as -> by (subst whole; read_lit).
  assert (get whole 4 = Some ARP_HLEN_ETH) as -> by (subst whole; read_lit).
  assert (get whole 5 = Some ARP_PLEN_IPV4) as -> by (subst whole; read_lit).
  assert (netd_read_be16 whole 6 = Some op) as -> by (subst whole; read_lit).
  assert (read_mac whole 8 = Some [a; b; c; d; e; f]) as -> by (subst whole; unfold read_mac; read_lit).
  assert (netd_read_be32 whole 14 = Some sip) as -> by (subst whole; read_lit).
  assert (read_mac whole 18 = Some [a'; b'; c'; d'; e'; f']) as -> by (subst whole; unfold read_mac; read_lit).
  assert (netd_read_be32 whole 24 = Some tip) as -> by (subst whole; read_lit).
  cbn [mbind option_bind]. by destruct Hop as [-> | ->].
Qed.

Lemma eth_parse_build dst src ty rest :
  length dst = 6%nat -> length src = 6%nat -> in_u 16 ty ->
  netd_eth_parse (netd_eth_build dst src ty ++ rest) = ok (dst, src, ty) /\
  drop 14 (netd_eth_build dst src ty ++ rest) = rest.
Proof.
  intros (a & b & c & d & e & f & ->)%length_6 (a' & b' & c' & d' & e' & f' & ->)%length_6 Ht.
  split; [|reflexivity]. unfold netd_eth_parse, netd_eth_build. cbn [take firstn].
  rewrite length_app. cbn [app length netd_write_be16].
  assert (forall n, (Z.of_nat (14 + n) <? ETH_HDR_LEN) = false) as -> by (unfold ETH_HDR_LEN; lia).
  match goal with |- context [netd_read_be16 ?x 12] => set (whole := x) end.
  assert (netd_read_be16 whole 12 = Some ty) as -> by (subst whole; read_lit).
  reflexivity.
Qed.

Lemma read_mac_total buf i :
  bytes buf -> 0 <= i -> i + 6 <= Z.of_nat (length buf) ->
  exists m, read_mac buf i = Some m /\ length m = 6%nat.
Proof.
  intros Hb Hi Hl. unfold read_mac.
  destruct (get_in_range buf i) as [? ->]; [lia|]. destruct (get_in_range buf (i + 1)) as [? ->]; [lia|].
  destruct (get_in_range buf (i + 2)) as [? ->]; [lia|]. destruct (get_in_range buf (i + 3)) as [? ->]; [lia|].
  destruct (get_in_range buf (i + 4)) as [? ->]; [lia|]. destruct (get_in_range buf (i + 5)) as [? ->]; [lia|].
  by eexists.
Qed.

(** The parser is memory safe, and what it accepts has the widths of the fields. *)
Lemma arp_parse_total buf :
  bytes buf ->
  exists r, netd_arp_parse buf = Some r /\
    match r with
    | inl rc => rc < 0
    | inr p => length (a_sender_mac p) = 6%nat /\ in_u 32 (a_sender_ip p) /\ length (a_target_mac p) = 6%nat
    end.
Proof.
  intros Hb. unfold netd_arp_parse, ARP_PAYLOAD_LEN.
  destruct (Z.ltb_spec (Z.of_nat (length buf)) 28); [by eexists|].
  destruct (read_mac_total buf 8 Hb) as (m1 & Em1 & L1); [lia|lia|].
  destruct (read_mac_total buf 18 Hb) as (m2 & Em2 & L2); [lia|lia|].
  destruct (read_be32_total buf 14 Hb) as (v & Ev & Hv); [lia|lia|]. rewrite Ev, Em1, Em2.
  read_ok; eexists; (split; [reflexivity|]); done.
Qed.

(** An incoming ARP packet.  Whatever its bytes, the handler stays inside
    them and keeps every address cached at most once.  A rejected packet changes
    nothing.  An accepted one teaches exactly its sender: the sender's address is
    then cached, every other answer of the cache was there before, and none is
    lost while a slot is free.  A request for our address is answered by a frame
    from us to the requester that parses as the matching reply. *)
Theorem arp_incoming_correct (tbl : arp_table) (buf my_mac : list Z) (my_ip now ttl cap : Z) :
  wf_arp tbl -> bytes buf -> length my_mac = 6%nat -> in_u 32 my_ip -> ARP_FRAME_LEN <= cap ->
  exists tbl' rc reply,
    netd_arp_handle_incoming tbl buf my_mac my_ip now ttl cap = Some (tbl', rc, reply) /\ wf_arp tbl' /\
    (rc <> 0 -> tbl' = tbl /\ reply = []) /\
    (rc = 0 -> exists p, netd_arp_parse buf = ok p /\
      netd_arp_lookup tbl' (a_sender_ip p) = Some (a_sender_mac p) /\
      (forall ip m, ip <> a_sender_ip p ->
         netd_arp_lookup tbl' ip = Some m -> netd_arp_lookup tbl ip = Some m) /\
      (forall ip, ip <> a_sender_ip p -> (exists e, e ∈ entries tbl /\ e_state e = ARP_STATE_FREE) ->
         netd_arp_lookup tbl' ip = netd_arp_lookup tbl ip) /\
      (a_op p = ARP_OP_REQUEST -> my_ip <> 0 -> a_target_ip p = my_ip ->
         netd_eth_parse reply = ok (a_sender_mac p, my_mac, ETH_TYPE_ARP) /\
         netd_arp_parse (drop 14 reply) =
           ok (Arp_packet ARP_HTYPE_ETH ARP_PTYPE_IPV4 ARP_HLEN_ETH ARP_PLEN_IPV4 ARP_OP_REPLY
                 my_mac my_ip (a_sender_mac p) (a_sender_ip p)))).
Proof.
  intros Hw Hb Hm Hip Hcap. unfold netd_arp_handle_incoming.
  destruct (arp_parse_total buf Hb) as ([rc|p] & Ep & Hp); rewrite Ep; cbn [mbind option_bind].
  { exists tbl, rc, []. repeat (split; [done|]). lia. }
  destruct Hp as (Hsm & Hsi & _).
  eexists _, 0, _. split; [reflexivity|]. split; [by apply arp_insert_spec|]. split; [done|].
  intros _. exists p. split; [done|]. split.
  { rewrite arp_insert_lookup by done. by rewrite take_ge by lia. }
  split; [intros ip m Hne; by apply arp_insert_other|]. split; [intros ip Hne; by apply arp_insert_keeps|].
  intros Hop Hmy Htip. rewrite Hop, Htip, !Z.eqb_refl.
  destruct (Z.eqb_spec my_ip 0); [done|]. destruct (cap >=? ARP_FRAME_LEN) eqn:Ec; [|lia]. cbn [negb andb].
  unfold netd_arp_build_reply.
  destruct (eth_parse_build (a_sender_mac p) my_mac ETH_TYPE_ARP
    (netd_arp_fill_pdu ARP_OP_REPLY my_mac my_ip (a_sender_mac p) (a_sender_ip p))) as [-> ->]; try done.
  split; [done|]. rewrite <- (app_nil_r (netd_arp_fill_pdu _ _ _ _ _)). apply arp_parse_pdu; auto.
Qed.

Definition demo_mac (b : Z) : list Z := [2; 0; 0; 0; 0; b].

Lemma arp_incoming_correct_witness :
  exists tbl' reply,
    netd_arp_handle_incoming netd_arp_init
      (netd_arp_fill_pdu ARP_OP_REQUEST (demo_mac 9) 0x0A000202 netd_eth_zero 0x0A00020F)
      (demo_mac 1) 0x0A00020F 5 60 1500 = Some (tbl', 0, reply) /\
    netd_arp_lookup tbl' 0x0A000202 = Some (demo_mac 9).
Proof.
  destruct (arp_incoming_correct netd_arp_init
    (netd_arp_fill_pdu ARP_OP_REQUEST (demo_mac 9) 0x0A000202 netd_eth_zero 0x0A00020F)
    (demo_mac 1) 0x0A00020F 5 60 1500) as (tbl' & rc & reply & H & _).
  - apply wf_arp_init.
  - repeat apply Forall_cons_2; try apply Forall_nil_2; split; (discriminate || reflexivity).
  - reflexivity.
  - split; (discriminate || reflexivity).
  - discriminate.
  - exists tbl', reply. vm_compute in H. injection H as <- <- <-. split; vm_compute; reflexivity.
Defined.

Lemma arp_insert_pending tbl ip mac now ttl :
  wf_arp tbl -> netd_arp_lookup (netd_arp_insert tbl ip mac ARP_STATE_PENDING now ttl) ip = None /\
  exists e, e ∈ entries (netd_arp_insert tbl ip mac ARP_STATE_PENDING now ttl) /\
    e_state e = ARP_STATE_PENDING /\ e_ip e = ip /\ e_expiry_tsc e = u64 (now + ttl).
Proof.
  intros Hw. destruct (arp_insert_spec tbl ip mac ARP_STATE_PENDING now ttl Hw) as ([_ Hu] & i & Hi & _); [done|].
  split.
  - destruct (netd_arp_lookup _ ip) as [m|] eqn:E; [|done]. exfalso.
    apply arp_lookup_iff in E as (j & e & He & [Hr1 Hr2] & _); [|done].
    pose proof (Hu i j _ _ Hi He) as Hij. cbn in Hij. rewrite Hij in Hi by (done || congruence). rewrite Hi in He. by injection He as <-.
  - eexists. split; [by eapply list_elem_of_lookup_2|done].
Qed.

(** Address resolution.  A query for an address that is not cached and not
    pending sends one request frame, which parses as a broadcast request for it
    from us; repeating the query before the entry expires sends nothing and
    changes nothing; once an accepted packet comes from that address, the query
    returns 1 and the sender's hardware address. *)
Theorem arp_resolution (tbl : arp_table) (my_mac : list Z) (my_ip ip now ttl cap : Z) :
  wf_arp tbl -> length my_mac = 6%nat -> in_u 32 my_ip -> in_u 32 ip -> ARP_FRAME_LEN <= cap ->
  netd_arp_lookup tbl ip = None -> ~ Exists (is_pending ip now) (entries tbl) ->
  exists tbl1 req,
    netd_arp_resolve tbl my_mac my_ip ip now ttl cap = (tbl1, 0, None, req) /\
    netd_eth_parse req = ok (netd_eth_bcast, my_mac, ETH_TYPE_ARP) /\
    netd_arp_parse (drop 14 req) =
      ok (Arp_packet ARP_HTYPE_ETH ARP_PTYPE_IPV4 ARP_HLEN_ETH ARP_PLEN_IPV4 ARP_OP_REQUEST
            my_mac my_ip netd_eth_zero ip) /\
    (forall now', now' < u64 (now + ttl) ->
       netd_arp_resolve tbl1 my_mac my_ip ip now' ttl cap = (tbl1, 0, None, [])) /\
    (forall buf p now' ttl', bytes buf -> netd_arp_parse buf = ok p -> a_sender_ip p = ip ->
       exists tbl2 reply,
         netd_arp_handle_incoming tbl1 buf my_mac my_ip now' ttl' cap = Some (tbl2, 0, reply) /\
         netd_arp_resolve tbl2 my_mac my_ip ip now' ttl' cap = (tbl2, 1, Some (a_sender_mac p), [])).
Proof.
  intros Hw Hm Hmy Hip Hcap Hl Hp. unfold netd_arp_resolve at 1. rewrite Hl, bool_decide_false by done.
  destruct (cap >=? ARP_FRAME_LEN) eqn:Ec; [|lia]. eexists _, _. split; [reflexivity|].
  destruct (arp_insert_spec tbl ip netd_eth_zero ARP_STATE_PENDING now ttl Hw) as [Hw1 _]; [done|].
  destruct (arp_insert_pending tbl ip netd_eth_zero now ttl Hw) as [Hl1 (e & He & Hs & Hei & Hx)].
  set (tbl1 := netd_arp_insert _ _ _ _ _ _) in *. unfold netd_arp_build_request.
  destruct (eth_parse_build netd_eth_bcast my_mac ETH_TYPE_ARP
    (netd_arp_fill_pdu ARP_OP_REQUEST my_mac my_ip netd_eth_zero ip)) as [-> ->]; try done.
  split; [done|]. split.
  { rewrite <- (app_nil_r (netd_arp_fill_pdu _ _ _ _ _)). apply arp_parse_pdu; auto. }
  split.
  - intros now' Hn. unfold netd_arp_resolve. rewrite Hl1, bool_decide_true; [done|].
    apply Exists_exists. exists e. split; [done|]. split; [done|]. split; [done|lia].
  - intros buf p now' ttl' Hb Hpar Hsip. unfold netd_arp_handle_incoming. rewrite Hpar.
    destruct (arp_parse_total buf Hb) as (r & Er & Hr). rewrite Hpar in Er. injection Er as <-.
    cbn [mbind option_bind]. eexists _, _. split; [reflexivity|].
    unfold netd_arp_resolve. rewrite <- Hsip, arp_insert_lookup by done.
    by rewrite take_ge by (destruct Hr; lia).
Qed.

Lemma arp_resolution_witness :
  exists tbl1 req, netd_arp_resolve netd_arp_init (demo_mac 1) 0x0A00020F 0x0A000202 5 100 1500 =
    (tbl1, 0, None, req) /\
    netd_arp_resolve tbl1 (demo_mac 1) 0x0A00020F 0x0A000202 6 100 1500 = (tbl1, 0, None, []).
Proof.
  destruct (arp_resolution netd_arp_init (demo_mac 1) 0x0A00020F 0x0A000202 5 100 1500)
    as (tbl1 & req & H1 & _ & _ & H2 & _).
  - apply wf_arp_init.
  - reflexivity.
  - split; (discriminate || reflexivity).
  - split; (discriminate || reflexivity).
  - discriminate.
  - vm_compute. reflexivity.
  - apply (bool_decide_unpack _). vm_compute. exact I.
  - exists tbl1, req. split; [exact H1|]. apply H2. reflexivity.
Defined.
