(* ===== verification/NetDns.v ===== *)
(** * The DNS resolver's wire helpers (user/netd_dns.c)

    The query builder and the response parser, whose name walk follows
    compression pointers with at most sixteen hops.  The theorems: the parser
    terminates inside its input for every byte string, and the answer to a query
    we build is understood. *)
From S2P Require Import Prelude NetBytes NetWire.
Local Open Scope Z_scope.
Local Open Scope c_scope.

Abbreviation DNS_MAX_NAME_BYTES := 255.
Definition DNS_QTYPE_A : Z := 1.
Definition DNS_QCLASS_IN : Z := 1.
Abbreviation DNS_FLAG_QR := 0x8000.
Abbreviation DNS_FLAG_RD := 0x0100.
Abbreviation DNS_FLAG_RCODE_MASK := 0x000F.
Definition DNS_RCODE_NOERROR : Z := 0.
Abbreviation DNS_MAX_ANSWERS := 4.

(** ** Queries *)
Definition put_label (out label : list Z) (cap : Z) : option (list Z) :=
  let label_len := Z.of_nat (length label) in
  if (label_len =? 0) || (label_len >? 63) then None else
  if Z.of_nat (length out) + 1 + label_len + 1 >? cap then None else
  Some (out ++ [u8 label_len] ++ label).

(** The loop over the name: [label] is the text since [label_start]. *)
Fixpoint encode_loop (name label out : list Z) (cap : Z) : option (list Z) :=
  match name with
  | [] => put_label out label cap
  | c :: name' =>
      if c =? 46 then out' ← put_label out label cap; encode_loop name' [] out' cap
      else encode_loop name' (label ++ [c]) out cap
  end.

(** [None] is the return value -1. *)
Definition dns_encode_name (name : list Z) (cap : Z) : option (list Z) :=
  let name_len := Z.of_nat (length name) in
  if (name_len =? 0) || (name_len >? DNS_MAX_NAME_BYTES - 2) then None else
  out ← encode_loop name [] [] cap;
  if Z.of_nat (length out) >=? cap then None else Some (out ++ [0]).

Definition netd_dns_build_query (cap xid : Z) (hostname : list Z) : option (list Z) :=
  if cap <? 12 + 6 then None else
  let hdr := netd_write_be16 xid ++ netd_write_be16 DNS_FLAG_RD ++ netd_write_be16 1 ++
             netd_write_be16 0 ++ netd_write_be16 0 ++ netd_write_be16 0 in
  name ← dns_encode_name hostname (cap - 12);
  let w := 12 + Z.of_nat (length name) in
  if w + 4 >? cap then None else
  Some (hdr ++ name ++ netd_write_be16 DNS_QTYPE_A ++ netd_write_be16 DNS_QCLASS_IN).

(** ** Names *)

(** [Some (-1)] is the malformed name; [None] is a read outside the buffer or
    missing fuel, which [dns_skip_name_total] excludes. *)
Fixpoint skip_loop (fuel : nat) (buf : list Z) (cur hops final_offset : Z) : option Z :=
  let len := Z.of_nat (length buf) in
  if negb ((cur >=? 0) && (cur <? len)) then Some (-1) else
  match fuel with
  | O => None
  | S f =>
      b ← get buf cur;
      if b =? 0 then Some (if final_offset <? 0 then cur + 1 else final_offset) else
      if b &. 0xC0 =? 0xC0 then
        if cur + 1 >=? len then Some (-1) else
        let final_offset := if final_offset <? 0 then cur + 2 else final_offset in
        b1 ← get buf (cur + 1);
        let ptr := ((b &. 0x3F) <<. 8) |. b1 in
        let hops := hops + 1 in
        if hops >? 16 then Some (-1) else skip_loop f buf ptr hops final_offset
      else if negb (b &. 0xC0 =? 0) then Some (-1)
      else if cur + 1 + b >=? len then Some (-1)
      else skip_loop f buf (cur + 1 + b) hops final_offset
  end.

(** Between two hops the offset only grows, so a hop costs at most [len] rounds. *)
Definition dns_skip_name (buf : list Z) (offset : Z) : option Z :=
  skip_loop (17 * S (length buf)) buf offset 0 (-1).

(** ** Responses *)
Record dns_query_result := Dns_result {
  r_xid : Z; r_ips : list Z; r_ttl_seconds : Z; r_rcode : Z
}.

(** The offset after the question section; [inl (-1)] when malformed. *)
Fixpoint skip_questions (n : nat) (buf : list Z) (off : Z) : parse_result Z :=
  match n with
  | O => ok off
  | S n' =>
      after ← dns_skip_name buf off;
      if after <? 0 then fail (-1) else
      let off := after + 4 in
      if off >? Z.of_nat (length buf) then fail (-1) else skip_questions n' buf off
  end.

Fixpoint read_answers (n : nat) (buf : list Z) (off : Z) (res : dns_query_result)
    : parse_result dns_query_result :=
  let len := Z.of_nat (length buf) in
  match n with
  | O => ok res
  | S n' =>
      after ← dns_skip_name buf off;
      if after <? 0 then fail (-1) else
      let off := after in
      if off + 10 >? len then fail (-1) else
      rr_type ← netd_read_be16 buf off;
      rr_class ← netd_read_be16 buf (off + 2);
      rr_ttl ← netd_read_be32 buf (off + 4);
      rdlen ← netd_read_be16 buf (off + 8);
      let off := off + 10 in
      if off + rdlen >? len then fail (-1) else
      if (rr_type =? DNS_QTYPE_A) && (rr_class =? DNS_QCLASS_IN) && (rdlen =? 4) &&
         (Z.of_nat (length (r_ips res)) <? DNS_MAX_ANSWERS)
      then
        a ← netd_read_be32 buf off;
        let res := {| res with r_ips := r_ips res ++ [a];
                      r_ttl_seconds := if r_ttl_seconds res =? 0 then rr_ttl else r_ttl_seconds res |} in
        read_answers n' buf (off + rdlen) res
      else read_answers n' buf (off + rdlen) res
  end.

Definition netd_dns_parse_response (buf : list Z) (expected_xid : Z) : parse_result dns_query_result :=
  if Z.of_nat (length buf) <? 12 then fail (-1) else
  xid ← netd_read_be16 buf 0;
  flags ← netd_read_be16 buf 2;
  qdcount ← netd_read_be16 buf 4;
  ancount ← netd_read_be16 buf 6;
  if negb (xid =? expected_xid) then fail (-1) else
  if flags &. DNS_FLAG_QR =? 0 then fail (-1) else
  let rcode := flags &. DNS_FLAG_RCODE_MASK in
  let result := Dns_result xid [] 0 rcode in
  q ← skip_questions (Z.to_nat qdcount) buf 12;
  match q with
  | inl e => fail e
  | inr off =>
      if negb (rcode =? DNS_RCODE_NOERROR) || (ancount =? 0) then ok result
      else read_answers (Z.to_nat ancount) buf off result
  end.

(** ** Termination and memory safety *)
Lemma skip_loop_total fuel buf cur hops fo :
  bytes buf -> 0 <= cur -> 0 <= hops <= 16 ->
  (16 - hops) * (Z.of_nat (length buf) + 1) + (Z.of_nat (length buf) - cur) <= Z.of_nat fuel ->
  (fo < 0 \/ 0 <= fo <= Z.of_nat (length buf)) ->
  exists r, skip_loop fuel buf cur hops fo = Some r /\ -1 <= r <= Z.of_nat (length buf).
Proof.
  intros Hb. set (len := Z.of_nat (length buf)). assert (0 <= len) by lia.
  revert cur hops fo. induction fuel as [|f IH]; intros cur hops fo Hc Hh Hf Hfo; cbn [skip_loop]; fold len.
  { destruct ((cur >=? 0) && (cur <? len)) eqn:E; cbn [negb]; [|exists (-1); split; [done|lia]].
    nia. }
  destruct ((cur >=? 0) && (cur <? len)) eqn:E; cbn [negb]; [|exists (-1); split; [done|lia]].
  assert (cur < len) by lia.
  destruct (get_in_range buf cur) as [b Hg]; [lia|]. rewrite Hg. cbn [mbind option_bind].
  pose proof (get_byte _ _ _ Hb Hg) as Hbb. unfold byte, in_u in Hbb.
  destruct (b =? 0).
  { eexists. split; [done|]. destruct (fo <? 0) eqn:Ef; lia. }
  destruct (b &. 0xC0 =? 0xC0).
  - destruct (cur + 1 >=? len) eqn:E1; [exists (-1); split; [done|lia]|].
    destruct (get_in_range buf (cur + 1)) as [b1 Hg1]; [lia|]. rewrite Hg1. cbn [mbind option_bind].
    pose proof (get_byte _ _ _ Hb Hg1) as Hbb1. unfold byte, in_u in Hbb1.
    destruct (hops + 1 >? 16) eqn:E2; [exists (-1); split; [done|lia]|].
    assert (0 <= ((b &. 0x3F) <<. 8) |. b1) as Hp.
    { apply Z.lor_nonneg. split; [|lia]. apply Z.shiftl_nonneg, Z.land_nonneg. lia. }
    apply IH; [done|lia| |destruct (fo <? 0) eqn:Ef; lia].
    replace (16 - (hops + 1)) with (16 - hops - 1) by lia. nia.
  - destruct (negb _); [exists (-1); split; [done|lia]|].
    destruct (cur + 1 + b >=? len) eqn:E1; [exists (-1); split; [done|lia]|]. apply IH; lia.
Qed.

Lemma dns_skip_name_total buf off :
  bytes buf -> 0 <= off ->
  exists r, dns_skip_name buf off = Some r /\ -1 <= r <= Z.of_nat (length buf).
Proof. intros Hb Ho. apply skip_loop_total; try done; try lia. Qed.

Lemma skip_questions_total n buf off :
  bytes buf -> 0 <= off <= Z.of_nat (length buf) ->
  exists r, skip_questions n buf off = Some r /\
    match r with inl e => e = -1 | inr o => 0 <= o <= Z.of_nat (length buf) end.
Proof.
  intros Hb. revert off. induction n as [|n IH]; intros off Ho; cbn [skip_questions]; [by eexists|].
  destruct (dns_skip_name_total buf off Hb) as (r & -> & Hr); [lia|]. cbn [mbind option_bind].
  destruct (r <? 0) eqn:E; [by eexists|]. destruct (r + 4 >? _) eqn:E1; [by eexists|]. apply IH. lia.
Qed.

Lemma read_answers_total n buf off res :
  bytes buf -> 0 <= off <= Z.of_nat (length buf) -> Z.of_nat (length (r_ips res)) <= DNS_MAX_ANSWERS ->
  exists r, read_answers n buf off res = Some r /\
    match r with
    | inl e => e = -1
    | inr x => Z.of_nat (length (r_ips x)) <= DNS_MAX_ANSWERS /\ r_xid x = r_xid res /\ r_rcode x = r_rcode res
    end.
Proof.
  intros Hb. revert off res. induction n as [|n IH]; intros off res Ho Hn; cbn [read_answers]; [by eexists|].
  destruct (dns_skip_name_total buf off Hb) as (r & -> & Hr); [lia|]. cbn [mbind option_bind].
  destruct (r <? 0) eqn:E; [by eexists|]. destruct (r + 10 >? _) eqn:E1; [by eexists|].
  destruct (read_be16_total buf r Hb) as (v1 & -> & _); [lia|lia|].
  destruct (read_be16_total buf (r + 2) Hb) as (v2 & -> & _); [lia|lia|].
  destruct (read_be32_total buf (r + 4) Hb) as (v3 & -> & _); [lia|lia|].
  destruct (read_be16_total buf (r + 8) Hb) as (v4 & -> & Hv4); [lia|lia|]. cbn [mbind option_bind].
  unfold in_u in Hv4. destruct (r + 10 + v4 >? _) eqn:E2; [by eexists|].
  destruct (_ && _) eqn:E3; [|apply IH; [lia|done]].
  destruct (read_be32_total buf (r + 10) Hb) as (v5 & -> & _); [lia|lia|]. cbn [mbind option_bind].
  apply andb_true_iff in E3 as [_ E3]. destruct (IH (r + 10 + v4) {| res with r_ips := r_ips res ++ [v5];
    r_ttl_seconds := if r_ttl_seconds res =? 0 then v3 else r_ttl_seconds res |}) as (x & Hx & HH);
    [lia|cbn; rewrite length_app; cbn [length]; lia|]. by exists x.
Qed.

(** The DNS response parser is safe on hostile input.  For every byte string
    it terminates, reads only inside the buffer (compression loops included), and
    either returns -1 or a result that echoes the expected transaction id and
    holds at most [DNS_MAX_ANSWERS] addresses. *)
Theorem dns_parse_safe (buf : list Z) (xid : Z) :
  bytes buf ->
  netd_dns_parse_response buf xid = fail (-1) \/
  exists r, netd_dns_parse_response buf xid = ok r /\
    r_xid r = xid /\ Z.of_nat (length (r_ips r)) <= DNS_MAX_ANSWERS.
Proof.
  intros Hb. unfold netd_dns_parse_response.
  destruct (Z.ltb_spec (Z.of_nat (length buf)) 12); [by left|].
  destruct (read_be16_total buf 0 Hb) as (v1 & -> & _); [lia|lia|].
  destruct (read_be16_total buf 2 Hb) as (v2 & -> & _); [lia|lia|].
  destruct (read_be16_total buf 4 Hb) as (v3 & -> & _); [lia|lia|].
  destruct (read_be16_total buf 6 Hb) as (v4 & -> & _); [lia|lia|]. cbn [mbind option_bind].
  destruct (Z.eqb_spec v1 xid) as [->|]; [|by left]. cbn [negb]. destruct (_ =? 0); [by left|].
  destruct (skip_questions_total (Z.to_nat v3) buf 12 Hb) as ([e|off] & -> & Hq); [lia| |]; cbn [mbind option_bind].
  { left. by rewrite Hq. }
  destruct (_ || _); [right; by eexists|].
  destruct (read_answers_total (Z.to_nat v4) buf off (Dns_result xid [] 0 (v2 &. DNS_FLAG_RCODE_MASK)) Hb Hq)
    as ([e|x] & -> & Hx); [done|left; by rewrite Hx|]. right. exists x. split; [done|]. split; apply Hx.
Qed.

Lemma dns_parse_safe_witness :
  netd_dns_parse_response ([0; 7; 0x80; 0; 0; 1; 0; 1; 0; 0; 0; 0] ++ [0xC0; 12]) 7 = fail (-1).
Proof.
  destruct (dns_parse_safe ([0; 7; 0x80; 0; 0; 1; 0; 1; 0; 0; 0; 0] ++ [0xC0; 12]) 7) as [H|(r & H & _)].
  - repeat apply Forall_cons_2; try apply Forall_nil_2; split; (discriminate || reflexivity).
  - exact H.
  - vm_compute in H. discriminate.
Defined.

(** ** The answer to our own query *)

(** A name as its labels. *)
Definition wf_label (l : list Z) : Prop := 1 <= Z.of_nat (length l) <= 63.
Definition enc_label (l : list Z) : list Z := Z.of_nat (length l) :: l.

Lemma put_label_Some out label cap out' :
  put_label out label cap = Some out' -> wf_label label /\ out' = out ++ enc_label label.
Proof.
  unfold put_label, wf_label, enc_label. destruct (_ || _) eqn:E; [done|]. destruct (_ >? cap); [done|].
  intros [= <-]. split; [lia|]. rewrite wrap_small by (unfold in_u; lia). done.
Qed.

Lemma encode_loop_shape name label out cap out' :
  encode_loop name label out cap = Some out' ->
  exists labels, Forall wf_label labels /\ out' = out ++ concat (enc_label <$> labels).
Proof.
  revert label out. induction name as [|c name IH]; intros label out; cbn [encode_loop].
  - intros [Hw ->]%put_label_Some. exists [label]. split; [by apply Forall_singleton|].
    cbn. by rewrite app_nil_r.
  - destruct (c =? 46); [|apply IH]. destruct (put_label out label cap) as [o|] eqn:E; [|done].
    apply put_label_Some in E as [Hw ->]. cbn. intros (ls & Hls & ->)%IH. exists (label :: ls).
    split; [by apply Forall_cons|]. cbn. by rewrite <- app_assoc.
Qed.

Lemma small_label_bits b : 0 <= b < 64 -> b &. 0xC0 = 0.
Proof.
  intros Hb. apply Z.bits_inj'. intros i Hi. rewrite Z.land_spec, Z.bits_0.
  destruct (Z_lt_le_dec i 6) as [H|H].
  - assert (i = 0 \/ i = 1 \/ i = 2 \/ i = 3 \/ i = 4 \/ i = 5) as Hc by lia.
    destruct Hc as [->|[->|[->|[->|[->| ->]]]]]; apply andb_false_r.
  - rewrite (testbit_high 6 b i Hb) by lia. done.
Qed.

(** The walk over encoded labels reaches the byte after the terminator. *)
Lemma skip_labels labels pre rest fuel hops fo buf :
  Forall wf_label labels -> (length labels < fuel)%nat ->
  buf = pre ++ concat (enc_label <$> labels) ++ [0] ++ rest ->
  skip_loop fuel buf (Z.of_nat (length pre)) hops fo =
  Some (if fo <? 0 then Z.of_nat (length pre + length (concat (enc_label <$> labels))) + 1 else fo).
Proof.
  intros Hw. revert pre fuel. induction Hw as [|l ls Hl Hls IH]; intros pre fuel Hf Hbuf.
  - destruct fuel as [|f]; [lia|]. cbn [skip_loop].
    assert (Z.of_nat (length pre) < Z.of_nat (length buf)) by (rewrite Hbuf, !length_app; cbn; lia).
    destruct ((_ >=? 0) && _) eqn:E; [|lia]. cbn [negb].
    assert (get buf (Z.of_nat (length pre)) = Some 0) as -> by (rewrite Hbuf, get_app_0; done).
    cbn [mbind option_bind Z.eqb]. f_equal. cbn [fmap list_fmap concat length]. by rewrite Nat.add_0_r.
  - destruct fuel as [|f]; [cbn in Hf; lia|]. cbn [skip_loop]. unfold wf_label in Hl.
    assert (buf = (pre ++ enc_label l) ++ concat (enc_label <$> ls) ++ [0] ++ rest) as Hbuf'.
    { rewrite Hbuf. cbn [fmap list_fmap concat]. by rewrite <- !app_assoc. }
    assert (Z.of_nat (length pre) + 1 + Z.of_nat (length l) < Z.of_nat (length buf)).
    { rewrite Hbuf', !length_app. cbn [enc_label length]. lia. }
    destruct ((_ >=? 0) && _) eqn:E; [|lia]. cbn [negb].
    assert (get buf (Z.of_nat (length pre)) = Some (Z.of_nat (length l))) as ->.
    { rewrite Hbuf, get_app_0. reflexivity. }
    cbn [mbind option_bind]. destruct (Z.eqb_spec (Z.of_nat (length l)) 0); [lia|].
    rewrite small_label_bits by lia. cbn [Z.eqb negb].
    destruct (_ + 1 + _ >=? _) eqn:E1; [lia|].
    replace (Z.of_nat (length pre) + 1 + Z.of_nat (length l)) with (Z.of_nat (length (pre ++ enc_label l)))
      by (rewrite length_app; cbn [enc_label length]; lia).
    rewrite IH; [|cbn in Hf; lia|done]. cbn [fmap list_fmap concat].
    rewrite !length_app. f_equal. destruct (fo <? 0); lia.
Qed.

Lemma labels_length labels : (length labels <= length (concat (enc_label <$> labels)))%nat.
Proof.
  induction labels as [|l ls IH]; [done|]. cbn [fmap list_fmap concat length]. rewrite length_app.
  cbn [enc_label length]. fold (fmap (M := list) enc_label ls). lia.
Qed.

Lemma skip_name_at labels pre rest buf :
  Forall wf_label labels -> buf = pre ++ concat (enc_label <$> labels) ++ [0] ++ rest ->
  dns_skip_name buf (Z.of_nat (length pre)) =
  Some (Z.of_nat (length pre + length (concat (enc_label <$> labels))) + 1).
Proof.
  intros Hw Hb. unfold dns_skip_name. rewrite (skip_labels labels pre rest); [done|done| |done].
  pose proof (labels_length labels). rewrite Hb, !length_app. lia.
Qed.

(** A compression pointer back to a name skips just its own two bytes. *)
Lemma skip_name_pointer labels pre rest buf pre' rest' :
  Forall wf_label labels -> Z.of_nat (length pre) < 256 ->
  buf = pre ++ concat (enc_label <$> labels) ++ [0] ++ rest ->
  buf = pre' ++ [0xC0; Z.of_nat (length pre)] ++ rest' ->
  dns_skip_name buf (Z.of_nat (length pre')) = Some (Z.of_nat (length pre') + 2).
Proof.
  intros Hw Hp Hb Hb'. unfold dns_skip_name.
  assert (exists f, (17 * S (length buf))%nat = S f /\ (length labels < f)%nat) as (f & -> & Hf).
  { pose proof (labels_length labels). exists (17 * S (length buf) - 1)%nat. rewrite Hb, !length_app. cbn [length]. lia. }
  assert (Z.of_nat (length pre') + 1 < Z.of_nat (length buf)) by (rewrite Hb', !length_app; cbn [length]; lia).
  cbn [skip_loop]. destruct ((_ >=? 0) && _) eqn:E; [|lia]. cbn [negb].
  assert (get buf (Z.of_nat (length pre')) = Some 0xC0) as -> by (rewrite Hb', get_app_0; done).
  assert (get buf (Z.of_nat (length pre') + 1) = Some (Z.of_nat (length pre))) as ->.
  { rewrite Hb', get_app_r by lia. done. }
  cbn [mbind option_bind]. change (0xC0 =? 0) with false. change (0xC0 &. 0xC0 =? 0xC0) with true. cbv iota.
  destruct (_ + 1 >=? _) eqn:E1; [lia|]. change (0 + 1 >? 16) with false. cbv iota.
  change ((0xC0 &. 0x3F) <<. 8) with 0. rewrite Z.lor_0_l. change (-1 <? 0) with true. cbv iota.
  rewrite (skip_labels labels pre rest); [|done|done|done].
  destruct (Z.of_nat (length pre') + 2 <? 0) eqn:E2; [lia|done].
Qed.

(** The message a server sends back: our question, one A record that points to
    the name of the question. *)
Definition dns_answer (xid flags : Z) (question : list Z) (ttl ip : Z) : list Z :=
  (netd_write_be16 xid ++ netd_write_be16 flags ++ netd_write_be16 1 ++ netd_write_be16 1 ++
   netd_write_be16 0 ++ netd_write_be16 0) ++ question ++
  [0xC0; 12] ++ netd_write_be16 DNS_QTYPE_A ++ netd_write_be16 DNS_QCLASS_IN ++
  netd_write_be32 ttl ++ netd_write_be16 4 ++ netd_write_be32 ip.

Lemma build_query_shape cap xid host q :
  netd_dns_build_query cap xid host = Some q ->
  exists labels, Forall wf_label labels /\
    drop 12 q = concat (enc_label <$> labels) ++ [0] ++ netd_write_be16 DNS_QTYPE_A ++ netd_write_be16 DNS_QCLASS_IN.
Proof.
  unfold netd_dns_build_query, dns_encode_name. destruct (_ <? 12 + 6); [done|]. destruct (_ || _); [done|].
  destruct (encode_loop host [] [] (cap - 12)) as [out|] eqn:E; [|done]. cbn [mbind option_bind].
  destruct (_ >=? _); [done|]. cbn [mbind option_bind]. destruct (_ >? cap); [done|]. intros [= <-].
  apply encode_loop_shape in E as (labels & Hw & ->). exists labels. split; [done|].
  cbn [app drop netd_write_be16]. by rewrite <- !app_assoc.
Qed.

Lemma read_answer_A buf off pre ttl ip res :
  in_u 32 ttl -> in_u 32 ip -> r_ips res = [] -> r_ttl_seconds res = 0 ->
  dns_skip_name buf off = Some (Z.of_nat (length pre)) ->
  buf = pre ++ netd_write_be16 DNS_QTYPE_A ++ netd_write_be16 DNS_QCLASS_IN ++
        netd_write_be32 ttl ++ netd_write_be16 4 ++ netd_write_be32 ip ->
  read_answers 1 buf off res = ok {| res with r_ips := [ip]; r_ttl_seconds := ttl |}.
Proof.
  intros Ht Hi Hr1 Hr2 Hs Hb. cbn [read_answers]. rewrite Hs. cbn [mbind option_bind].
  assert (Z.of_nat (length buf) = Z.of_nat (length pre) + 14) as Hl by (rewrite Hb, !length_app; cbn; lia).
  destruct (_ <? 0) eqn:E0; [lia|]. destruct (_ + 10 >? _) eqn:E1; [lia|].
  assert (in_u 16 1 /\ in_u 16 4) as [H1 H4] by done.
  set (L := Z.of_nat (length pre)) in *.
  assert (netd_read_be16 buf L = Some 1) as -> by (subst buf; by apply read_be16_app).
  assert (netd_read_be16 buf (L + 2) = Some 1) as ->.
  { rewrite Hb, app_assoc. replace (L + 2) with (Z.of_nat (length (pre ++ netd_write_be16 DNS_QTYPE_A)))
      by (rewrite length_app; cbn; lia). by apply read_be16_app. }
  assert (netd_read_be32 buf (L + 4) = Some ttl) as ->.
  { rewrite Hb, 2!app_assoc. replace (L + 4) with (Z.of_nat (length ((pre ++ netd_write_be16 DNS_QTYPE_A) ++
      netd_write_be16 DNS_QCLASS_IN))) by (rewrite !length_app; cbn; lia). by apply read_be32_app. }
  assert (netd_read_be16 buf (L + 8) = Some 4) as ->.
  { rewrite Hb, 3!app_assoc. replace (L + 8) with (Z.of_nat (length (((pre ++ netd_write_be16 DNS_QTYPE_A) ++
      netd_write_be16 DNS_QCLASS_IN) ++ netd_write_be32 ttl))) by (rewrite !length_app; cbn; lia).
    by apply read_be16_app. }
  cbn [mbind option_bind]. destruct (_ + 10 + 4 >? _) eqn:E2; [lia|]. rewrite Hr1, Hr2.
  change ((1 =? DNS_QTYPE_A) && (1 =? DNS_QCLASS_IN) && (4 =? 4) && (Z.of_nat (length (@nil Z)) <? DNS_MAX_ANSWERS)) with true.
  cbv iota. assert (netd_read_be32 buf (L + 10) = Some ip) as ->; [|done].
  rewrite Hb, 4!app_assoc, <- (app_nil_r (netd_write_be32 ip)).
  replace (L + 10) with (Z.of_nat (length ((((pre ++ netd_write_be16 DNS_QTYPE_A) ++
    netd_write_be16 DNS_QCLASS_IN) ++ netd_write_be32 ttl) ++ netd_write_be16 4))) by (rewrite !length_app; cbn; lia).
  by apply read_be32_app.
Qed.

(** A query is understood when it is answered.  For every hostname that
    [netd_dns_build_query] accepts, the response that repeats the question and
    adds one A record whose name is a compression pointer to it parses to
    exactly that address and time to live. *)
Theorem dns_query_answered (cap xid flags ttl ip : Z) (host q : list Z) :
  netd_dns_build_query cap xid host = Some q ->
  in_u 16 xid -> in_u 16 flags -> flags &. DNS_FLAG_QR <> 0 -> flags &. DNS_FLAG_RCODE_MASK = 0 ->
  in_u 32 ttl -> in_u 32 ip ->
  netd_dns_parse_response (dns_answer xid flags (drop 12 q) ttl ip) xid = ok (Dns_result xid [ip] ttl 0).
Proof.
  intros Hq Hx Hf HQR HRC Ht Hi. destruct (build_query_shape _ _ _ _ Hq) as (labels & Hw & Hd). rewrite Hd.
  set (enc := concat (enc_label <$> labels)) in *. set (buf := dns_answer _ _ _ _ _).
  set (hdr := netd_write_be16 xid ++ netd_write_be16 flags ++ netd_write_be16 1 ++ netd_write_be16 1 ++
              netd_write_be16 0 ++ netd_write_be16 0).
  set (tl := netd_write_be16 DNS_QTYPE_A ++ netd_write_be16 DNS_QCLASS_IN ++ netd_write_be32 ttl ++
             netd_write_be16 4 ++ netd_write_be32 ip).
  assert (exists rest, buf = hdr ++ enc ++ [0] ++ rest) as [rest Hb1].
  { unfold buf, dns_answer. fold hdr. rewrite <- !app_assoc. by eexists. }
  set (pre2 := hdr ++ enc ++ [0] ++ netd_write_be16 DNS_QTYPE_A ++ netd_write_be16 DNS_QCLASS_IN).
  assert (buf = pre2 ++ [0xC0; Z.of_nat (length hdr)] ++ tl) as Hb2.
  { unfold buf, dns_answer, pre2. fold hdr. by rewrite <- !app_assoc. }
  assert (Z.of_nat (length pre2) = 12 + Z.of_nat (length enc) + 5) as Hlp.
  { unfold pre2. rewrite !length_app. change (length hdr) with 12%nat. cbn [length netd_write_be16]. lia. }
  assert (Z.of_nat (length pre2) <= Z.of_nat (length buf)) as Hlb by (rewrite Hb2, length_app; lia).
  unfold netd_dns_parse_response. destruct (Z.ltb_spec (Z.of_nat (length buf)) 12); [lia|].
  assert (in_u 16 1) as H1 by done. unfold hdr in Hb1.
  assert (netd_read_be16 buf 0 = Some xid) as -> by (rewrite Hb1; read_lit).
  assert (netd_read_be16 buf 2 = Some flags) as -> by (rewrite Hb1; read_lit).
  assert (netd_read_be16 buf 4 = Some 1) as -> by (rewrite Hb1; read_lit).
  assert (netd_read_be16 buf 6 = Some 1) as -> by (rewrite Hb1; read_lit).
  fold hdr in Hb1. cbn [mbind option_bind]. rewrite Z.eqb_refl, HRC. cbn [negb].
  destruct (Z.eqb_spec (flags &. DNS_FLAG_QR) 0); [done|]. change (Z.to_nat 1) with 1%nat. cbn [skip_questions].
  change 12 with (Z.of_nat (length hdr)) at 1. rewrite (skip_name_at labels hdr rest buf Hw Hb1). fold enc.
  change (length hdr) with 12%nat. cbn [mbind option_bind].
  destruct (_ <? 0) eqn:E1; [lia|]. destruct (_ + 4 >? _) eqn:E2; [lia|].
  unfold ok at 1. cbn [mbind option_bind]. change (negb (0 =? DNS_RCODE_NOERROR) || (1 =? 0)) with false. cbv iota.
  replace (Z.of_nat (12 + length enc) + 1 + 4) with (Z.of_nat (length pre2)) by lia.
  apply (read_answer_A buf _ (pre2 ++ [0xC0; Z.of_nat (length hdr)])); try done.
  - rewrite (skip_name_pointer labels hdr rest buf pre2 tl Hw); try done. f_equal. rewrite length_app. cbn [length]. lia.
  - rewrite Hb2. fold tl. by rewrite <- app_assoc.
Qed.

Lemma dns_query_answered_witness :
  exists q, netd_dns_build_query 512 7 [97; 46; 98; 99] = Some q /\
    netd_dns_parse_response (dns_answer 7 0x8180 (drop 12 q) 300 0x01020304) 7 =
      ok (Dns_result 7 [0x01020304] 300 0).
Proof.
  eexists. split; [vm_compute; reflexivity|].
  apply (dns_query_answered 512 7 0x8180 300 0x01020304 [97; 46; 98; 99]); try done.
Defined.
