(* ===== verification/NetDhcp.v ===== *)
(** * The DHCP client (user/netd_dhcp.c)

    Packet builders, the option walk and the client state machine
    INIT -> SELECTING -> REQUESTING -> BOUND.  The theorems: the option walk is
    memory safe, the client changes state only along the machine's edges (a lease
    comes from an ACK of the RFC 2131 format to our request, and from every one), the back-off stays within its bounds,
    and the REQUEST we send names the server and the address of the offer. *)
From S2P Require Import Prelude NetBytes NetWire.
Local Open Scope Z_scope.
Local Open Scope c_scope.

Definition DHCP_PKT_FIXED_LEN : Z := 240.
Abbreviation DHCP_OP_BOOTREQUEST := 1.
Abbreviation DHCP_OP_BOOTREPLY := 2.
Abbreviation DHCP_HTYPE_ETH := 1.
Abbreviation DHCP_HLEN_ETH := 6.
Abbreviation DHCP_MAGIC := 0x63825363.
Abbreviation DHCP_MT_DISCOVER := 1.
Abbreviation DHCP_MT_OFFER := 2.
Abbreviation DHCP_MT_REQUEST := 3.
Abbreviation DHCP_MT_ACK := 5.
Abbreviation DHCP_MT_NAK := 6.
Abbreviation DHCP_OPT_PAD := 0.
Abbreviation DHCP_OPT_SUBNET_MASK := 1.
Abbreviation DHCP_OPT_ROUTER := 3.
Abbreviation DHCP_OPT_DNS_SERVER := 6.
Abbreviation DHCP_OPT_REQUESTED_IP := 50.
Abbreviation DHCP_OPT_LEASE_TIME := 51.
Abbreviation DHCP_OPT_MSG_TYPE := 53.
Abbreviation DHCP_OPT_SERVER_ID := 54.
Abbreviation DHCP_OPT_PARAM_REQUEST_LIST := 55.
Abbreviation DHCP_OPT_END := 255.

Inductive dhcp_state :=
| DHCP_STATE_INIT | DHCP_STATE_SELECTING | DHCP_STATE_REQUESTING | DHCP_STATE_BOUND
| DHCP_STATE_RENEWING | DHCP_STATE_FAILED.
#[export] Instance dhcp_state_eq_dec : EqDecision dhcp_state.
Proof. solve_decision. Defined.

Record dhcp_client := Dhcp_client {
  c_state : dhcp_state; c_xid : Z; c_mac : list Z;
  offered_ip : Z; server_id : Z; assigned_ip : Z; subnet_mask : Z; router : Z; dns : Z;
  lease_seconds : Z; next_retry_tsc : Z; retry_backoff_ms : Z; retry_count : Z
}.

Definition dhcp_reset_retry (c : dhcp_client) : dhcp_client :=
  {| c with retry_count := 0; retry_backoff_ms := 5000; next_retry_tsc := 0 |}.

(** The transaction id hashes the clock and the hardware address. *)
Definition xid_hash (my_mac : list Z) (now_tsc : Z) : Z :=
  fold_left (fun h b => (u32 (h * 0x1000193)) ^. b) (take 6 my_mac) (u32 (now_tsc ^. (now_tsc >>. 32))).

Definition netd_dhcp_init (my_mac : list Z) (now_tsc : Z) : dhcp_client :=
  dhcp_reset_retry
    (Dhcp_client DHCP_STATE_INIT (xid_hash my_mac now_tsc) (take 6 my_mac) 0 0 0 0 0 0 0 0 0 0).

(** ** Builders *)
Definition dhcp_fill_header (c : dhcp_client) (ciaddr : Z) : list Z :=
  [DHCP_OP_BOOTREQUEST; DHCP_HTYPE_ETH; DHCP_HLEN_ETH; 0] ++ netd_write_be32 (c_xid c) ++
  netd_write_be16 0 ++ netd_write_be16 0x8000 ++ netd_write_be32 ciaddr ++ replicate 12 0 ++
  take 6 (c_mac c) ++ replicate 202 0 ++ netd_write_be32 DHCP_MAGIC.

Definition dhcp_append_opt (code : Z) (data : list Z) : list Z :=
  [code; Z.of_nat (length data)] ++ data.

Definition dhcp_prl : list Z := [DHCP_OPT_SUBNET_MASK; DHCP_OPT_ROUTER; DHCP_OPT_DNS_SERVER].

(** The client and the payload; [] is the return value 0. *)
Definition netd_dhcp_build_discover (c : dhcp_client) (cap : Z) : dhcp_client * list Z :=
  if cap <? DHCP_PKT_FIXED_LEN + 16 then (c, []) else
  ({| c with c_state := DHCP_STATE_SELECTING |},
   dhcp_fill_header c 0 ++ dhcp_append_opt DHCP_OPT_MSG_TYPE [DHCP_MT_DISCOVER] ++
   dhcp_append_opt DHCP_OPT_PARAM_REQUEST_LIST dhcp_prl ++ [DHCP_OPT_END]).

Definition netd_dhcp_build_request (c : dhcp_client) (cap : Z) : dhcp_client * list Z :=
  if cap <? DHCP_PKT_FIXED_LEN + 24 then (c, []) else
  if negb (bool_decide (c_state c = DHCP_STATE_SELECTING)) then (c, []) else
  if (offered_ip c =? 0) || (server_id c =? 0) then (c, []) else
  ({| c with c_state := DHCP_STATE_REQUESTING |},
   dhcp_fill_header c 0 ++ dhcp_append_opt DHCP_OPT_MSG_TYPE [DHCP_MT_REQUEST] ++
   dhcp_append_opt DHCP_OPT_REQUESTED_IP (netd_write_be32 (offered_ip c)) ++
   dhcp_append_opt DHCP_OPT_SERVER_ID (netd_write_be32 (server_id c)) ++
   dhcp_append_opt DHCP_OPT_PARAM_REQUEST_LIST dhcp_prl ++ [DHCP_OPT_END]).

(** ** Options *)
Record dhcp_opts := Dhcp_opts {
  o_msg_type : Z; o_server_id : Z; o_subnet : Z; o_router : Z; o_dns : Z; o_lease : Z
}.
Definition no_opts : dhcp_opts := Dhcp_opts 0 0 0 0 0 0.

(** The switch on the option [code] whose data starts at [i]. *)
Definition read_opt (p : list Z) (code i olen : Z) (o : dhcp_opts) : option dhcp_opts :=
  if code =? DHCP_OPT_MSG_TYPE then
    if olen >=? 1 then v ← get p i; Some {| o with o_msg_type := v |} else Some o
  else if code =? DHCP_OPT_SERVER_ID then
    if olen =? 4 then v ← netd_read_be32 p i; Some {| o with o_server_id := v |} else Some o
  else if code =? DHCP_OPT_SUBNET_MASK then
    if olen =? 4 then v ← netd_read_be32 p i; Some {| o with o_subnet := v |} else Some o
  else if code =? DHCP_OPT_ROUTER then
    if olen >=? 4 then v ← netd_read_be32 p i; Some {| o with o_router := v |} else Some o
  else if code =? DHCP_OPT_DNS_SERVER then
    if olen >=? 4 then v ← netd_read_be32 p i; Some {| o with o_dns := v |} else Some o
  else if code =? DHCP_OPT_LEASE_TIME then
    if olen =? 4 then v ← netd_read_be32 p i; Some {| o with o_lease := v |} else Some o
  else Some o.

(** The walk from [i]; [Some None] is the early return 0.  Each round advances. *)
Fixpoint walk_opts (fuel : nat) (p : list Z) (i : Z) (o : dhcp_opts) : option (option dhcp_opts) :=
  let len := Z.of_nat (length p) in
  if i >=? len then Some (Some o) else
  match fuel with
  | O => None
  | S f =>
      code ← get p i;
      let i := i + 1 in
      if code =? DHCP_OPT_END then Some (Some o) else
      if code =? DHCP_OPT_PAD then walk_opts f p i o else
      if i >=? len then Some None else
      olen ← get p i;
      let i := i + 1 in
      if i + olen >? len then Some None else
      o ← read_opt p code i olen o;
      walk_opts f p (i + olen) o
  end.

(** ** The state machine *)
Definition dhcp_gate (c : dhcp_client) (yiaddr : Z) (o : dhcp_opts) : dhcp_client * Z :=
  if o_msg_type o =? 0 then (c, 0) else
  if o_msg_type o =? DHCP_MT_OFFER then
    if negb (bool_decide (c_state c = DHCP_STATE_SELECTING)) then (c, 0) else
    ({| c with offered_ip := yiaddr; server_id := o_server_id o; subnet_mask := o_subnet o;
               router := o_router o; dns := o_dns o |}, DHCP_MT_OFFER)
  else if o_msg_type o =? DHCP_MT_ACK then
    if negb (bool_decide (c_state c = DHCP_STATE_REQUESTING)) then (c, 0) else
    (dhcp_reset_retry
       {| c with assigned_ip := yiaddr; subnet_mask := o_subnet o; router := o_router o;
                 dns := o_dns o; lease_seconds := o_lease o; c_state := DHCP_STATE_BOUND |}, DHCP_MT_ACK)
  else if o_msg_type o =? DHCP_MT_NAK then
    let next := u32 (retry_backoff_ms c * 2) in
    let next := if next >? 30000 then 30000 else next in
    ({| c with c_state := DHCP_STATE_INIT; retry_count := u8 (retry_count c + 1);
               retry_backoff_ms := next |}, DHCP_MT_NAK)
  else (c, 0).

(** The checks before the option walk: the offered address, or [Some None]. *)
Definition dhcp_accept (c : dhcp_client) (p : list Z) : option (option Z) :=
  if Z.of_nat (length p) <? DHCP_PKT_FIXED_LEN then Some None else
  op ← get p 0;
  if negb (op =? DHCP_OP_BOOTREPLY) then Some None else
  magic ← netd_read_be32 p 236;
  if negb (magic =? DHCP_MAGIC) then Some None else
  xid ← netd_read_be32 p 4;
  if negb (xid =? c_xid c) then Some None else
  yiaddr ← netd_read_be32 p 16;
  Some (Some yiaddr).

Definition netd_dhcp_handle_incoming (c : dhcp_client) (p : list Z) : option (dhcp_client * Z) :=
  a ← dhcp_accept c p;
  match a with
  | None => Some (c, 0)
  | Some yiaddr =>
      w ← walk_opts (length p) p DHCP_PKT_FIXED_LEN no_opts;
      match w with
      | None => Some (c, 0)
      | Some o => Some (dhcp_gate c yiaddr o)
      end
  end.

(** ** Memory safety *)
Lemma read_opt_total p code i olen o :
  bytes p -> 0 <= i -> i + olen <= Z.of_nat (length p) -> is_Some (read_opt p code i olen o).
Proof.
  intros Hb Hi Hl. unfold read_opt.
  repeat match goal with
  | |- context [if ?b then _ else _] => let E := fresh "E" in destruct b eqn:E
  end; try (by eexists);
  first [ destruct (get_in_range p i) as [v ->]; [lia|]
        | destruct (read_be32_total p i Hb) as (v & -> & _); [lia|lia|] ]; by eexists.
Qed.

Lemma walk_opts_total fuel p i o :
  bytes p -> 0 <= i -> Z.of_nat (length p) - i <= Z.of_nat fuel -> is_Some (walk_opts fuel p i o).
Proof.
  intros Hb. revert i o. induction fuel as [|f IH]; intros i o Hi Hf; cbn [walk_opts].
  { destruct (i >=? _) eqn:E; [by eexists|lia]. }
  destruct (i >=? _) eqn:E; [by eexists|]. destruct (get_in_range p i) as [code ->]; [lia|]. cbn [mbind option_bind].
  destruct (code =? DHCP_OPT_END); [by eexists|]. destruct (code =? DHCP_OPT_PAD); [apply IH; lia|].
  destruct (i + 1 >=? _) eqn:E1; [by eexists|].
  destruct (get_in_range p (i + 1)) as [olen Hg]; [lia|]. rewrite Hg. cbn [mbind option_bind].
  pose proof (get_byte _ _ _ Hb Hg) as Ho. unfold byte, in_u in Ho.
  destruct (i + 1 + 1 + olen >? _) eqn:E2; [by eexists|].
  destruct (read_opt_total p code (i + 1 + 1) olen o Hb) as [o' ->]; [lia|lia|]. cbn [mbind option_bind].
  apply IH; lia.
Qed.

Lemma dhcp_accept_total c p : bytes p -> is_Some (dhcp_accept c p).
Proof. intros Hb. unfold dhcp_accept, DHCP_PKT_FIXED_LEN. read_ok; by eexists. Qed.

(** ** Transitions *)
Inductive dhcp_event := EvDiscover (cap : Z) | EvRequest (cap : Z) | EvIncoming (p : list Z).

Definition dhcp_handle (c : dhcp_client) (ev : dhcp_event) : option dhcp_client :=
  match ev with
  | EvDiscover cap => Some (fst (netd_dhcp_build_discover c cap))
  | EvRequest cap => Some (fst (netd_dhcp_build_request c cap))
  | EvIncoming p => r ← netd_dhcp_handle_incoming c p; Some (fst r)
  end.

(** ** The format of messages (RFC 2131, RFC 2132) *)

(** A 32-bit number in network order. *)
Definition be32 (v : Z) : list Z := [v / 2 ^ 24 mod 256; v / 2 ^ 16 mod 256; v / 2 ^ 8 mod 256; v mod 256].

(** The fixed part and the magic number, then the options [opts]. *)
Definition dhcp_message (op xid yiaddr : Z) (opts p : list Z) : Prop :=
  in_u 32 xid /\ in_u 32 yiaddr /\ exists a b d : list Z, length a = 3%nat /\ length b = 8%nat /\ length d = 216%nat /\
    p = [op] ++ a ++ be32 xid ++ b ++ be32 yiaddr ++ d ++ [99; 130; 83; 99] ++ opts.

(** A list of options, each with its length; pads are skipped, 255 or the end of the message
    ends the list. *)
Inductive dhcp_options : list Z -> list (Z * list Z) -> Prop :=
| Options_none : dhcp_options [] []
| Options_end l : dhcp_options (DHCP_OPT_END :: l) []
| Options_pad l os : dhcp_options l os -> dhcp_options (DHCP_OPT_PAD :: l) os
| Options_opt code data l os : code <> DHCP_OPT_PAD -> code <> DHCP_OPT_END -> dhcp_options l os ->
    dhcp_options (code :: Z.of_nat (length data) :: data ++ l) ((code, data) :: os).

(** The message type, from its last option. *)
Fixpoint dhcp_type (os : list (Z * list Z)) : option Z :=
  match os with
  | [] => None
  | (code, data) :: os =>
      match dhcp_type os with
      | Some t => Some t
      | None => if code =? DHCP_OPT_MSG_TYPE then head data else None
      end
  end.

(** [p] is a server's message with our transaction id that carries the address [y] and has
    the message type [mt]. *)
Definition is_reply (c : dhcp_client) (p : list Z) (y mt : Z) : Prop :=
  exists opts os, dhcp_message 2 (c_xid c) y opts p /\ dhcp_options opts os /\ dhcp_type os = Some mt.

Lemma be32_write v : be32 v = netd_write_be32 v.
Proof. unfold be32, netd_write_be32, wrap. by rewrite !shiftr_k by lia. Qed.

Lemma read_be32_take p i v : bytes p -> netd_read_be32 p i = Some v -> 0 <= i /\ in_u 32 v /\ take 4 (drop (Z.to_nat i) p) = be32 v.
Proof.
  unfold netd_read_be32. intros Hb H. destruct (get p i) as [a|] eqn:Ea; [|done]. destruct (get p (i + 1)) as [b|] eqn:Eb; [|done].
  destruct (get p (i + 2)) as [c|] eqn:Ec; [|done]. destruct (get p (i + 3)) as [d|] eqn:Ed; [|done]. cbn in H.
  pose proof (get_byte _ _ _ Hb Ea) as Ba. pose proof (get_byte _ _ _ Hb Eb) as Bb. pose proof (get_byte _ _ _ Hb Ec) as Bc. pose proof (get_byte _ _ _ Hb Ed) as Bd.
  rewrite be32_value in H by done. pose proof (get_Some_bound _ _ _ Ea) as Hi. split; [lia|]. unfold byte, in_u in *.
  assert (v = ((a * 256 + b) * 256 + c) * 256 + d) as -> by congruence. split; [lia|].
  unfold get in Ea, Eb, Ec, Ed. destruct (Z.ltb_spec i 0), (Z.ltb_spec (i + 1) 0), (Z.ltb_spec (i + 2) 0), (Z.ltb_spec (i + 3) 0); try lia.
  replace (Z.to_nat (i + 1)) with (S (Z.to_nat i)) in Eb by lia. replace (Z.to_nat (i + 2)) with (S (S (Z.to_nat i))) in Ec by lia.
  replace (Z.to_nat (i + 3)) with (S (S (S (Z.to_nat i)))) in Ed by lia.
  erewrite !drop_S by eassumption. cbn. rewrite take_0. unfold be32. repeat f_equal; zlia.
Qed.

Lemma read_be32_at l1 v l2 p i : in_u 32 v -> i = Z.of_nat (length l1) -> p = l1 ++ be32 v ++ l2 -> netd_read_be32 p i = Some v.
Proof. intros Hv -> ->. rewrite be32_write. by apply read_be32_app. Qed.

(** The message that is accepted is a reply to our transaction, and conversely. *)
Lemma dhcp_accept_iff c p y : bytes p -> dhcp_accept c p = Some (Some y) <-> dhcp_message 2 (c_xid c) y (drop 240 p) p.
Proof.
  intros Hb. unfold dhcp_accept, DHCP_PKT_FIXED_LEN. split.
  - destruct (Z.ltb_spec (Z.of_nat (length p)) 240) as [|Hl]; [done|]. destruct (get p 0) as [op|] eqn:E0; [|done]. cbn [mbind option_bind].
    destruct (Z.eqb_spec op 2) as [->|]; [|done]. cbn [negb]. destruct (netd_read_be32 p 236) as [mg|] eqn:Em; [|done]. cbn [mbind option_bind].
    destruct (Z.eqb_spec mg DHCP_MAGIC) as [->|]; [|done]. cbn [negb]. destruct (netd_read_be32 p 4) as [xid|] eqn:Ex; [|done]. cbn [mbind option_bind].
    destruct (Z.eqb_spec xid (c_xid c)) as [<-|]; [|done]. cbn [negb]. destruct (netd_read_be32 p 16) as [y'|] eqn:Ey; [|done]. cbn. intros [= ->].
    apply (read_be32_take _ _ _ Hb) in Em as (_ & _ & Em), Ex as (_ & Hx & Ex), Ey as (_ & Hy & Ey). split; [done|]. split; [done|].
    exists (take 3 (drop 1 p)), (take 8 (drop 8 p)), (take 216 (drop 20 p)). rewrite !length_take, !length_drop. do 3 (split; [lia|]).
    change [99; 130; 83; 99] with (be32 DHCP_MAGIC). rewrite <- Ex, <- Ey, <- Em. change (Z.to_nat 4) with 4%nat. change (Z.to_nat 16) with 16%nat. change (Z.to_nat 236) with 236%nat.
    assert (forall n k, drop n p = take k (drop n p) ++ drop (n + k) p) as Hsp by (intros n k; by rewrite <- drop_drop, take_drop).
    trans ([2] ++ drop 1 p); [destruct p; [done|]; by injection E0 as ->|]. f_equal.
    do 5 (etrans; [apply Hsp|f_equal]). apply Hsp.
  - intros (Hx & Hy & a & b & d & Ha & Hbl & Hd & E). set (o := drop 240 p) in E. clearbody o. change [99; 130; 83; 99] with (be32 DHCP_MAGIC) in E.
    assert (get p 0 = Some 2) as E0 by (by rewrite E). rewrite E0.
    assert (netd_read_be32 p 4 = Some (c_xid c)) as Ex.
    { apply (read_be32_at ([2] ++ a) _ (b ++ be32 y ++ d ++ be32 DHCP_MAGIC ++ o)); [done|rewrite !length_app, Ha; done|]. rewrite E. by rewrite <- !app_assoc. }
    assert (netd_read_be32 p 16 = Some y) as Ey.
    { apply (read_be32_at ([2] ++ a ++ be32 (c_xid c) ++ b) _ (d ++ be32 DHCP_MAGIC ++ o)); [done|rewrite !length_app, Ha, Hbl; done|]. rewrite E. by rewrite <- !app_assoc. }
    assert (netd_read_be32 p 236 = Some DHCP_MAGIC) as Em.
    { apply (read_be32_at ([2] ++ a ++ be32 (c_xid c) ++ b ++ be32 y ++ d) _ o); [by unfold in_u|rewrite !length_app, Ha, Hbl, Hd; done|]. rewrite E. by rewrite <- !app_assoc. }
    assert (240 <= Z.of_nat (length p)) by (rewrite E, !length_app, Ha, Hbl, Hd; cbn; lia).
    destruct (Z.ltb_spec (Z.of_nat (length p)) 240); [lia|]. cbn [mbind option_bind]. rewrite Em, Ex, Ey. cbn. by rewrite Z.eqb_refl.
Qed.

Lemma read_opt_type p code i olen o o' : read_opt p code i olen o = Some o' ->
  o_msg_type o' = if (code =? DHCP_OPT_MSG_TYPE) && (olen >=? 1) then default 0 (get p i) else o_msg_type o.
Proof.
  unfold read_opt. destruct (code =? DHCP_OPT_MSG_TYPE) eqn:Ec; cbn [andb].
  - destruct (olen >=? 1); [|by intros [= <-]]. destruct (get p i); [|done]. by intros [= <-].
  - repeat match goal with |- (if ?b then _ else _) = _ -> _ => destruct b end; try (by intros [= <-]);
      destruct (netd_read_be32 p i); try done; by intros [= <-].
Qed.

(** The option of [olen] bytes at [i], and what follows it. *)
Lemma option_split (p : list Z) (i olen code : Z) : 0 <= i -> get p i = Some code -> get p (i + 1) = Some olen ->
  0 <= olen -> i + 1 + 1 + olen <= Z.of_nat (length p) ->
  exists data, Z.of_nat (length data) = olen /\ (0 < olen -> head data = get p (i + 1 + 1)) /\
    drop (Z.to_nat i) p = code :: olen :: data ++ drop (Z.to_nat (i + 1 + 1 + olen)) p.
Proof.
  intros Hi Hc Ho H0 Hl. exists (take (Z.to_nat olen) (drop (Z.to_nat (i + 1 + 1)) p)).
  split; [rewrite length_take, length_drop; lia|]. unfold get in *.
  destruct (Z.ltb_spec i 0), (Z.ltb_spec (i + 1) 0), (Z.ltb_spec (i + 1 + 1) 0); try lia. split.
  - intros Hp. rewrite head_lookup, lookup_take_lt, lookup_drop by lia. f_equal. lia.
  - rewrite (drop_S _ _ _ Hc). f_equal. replace (S (Z.to_nat i)) with (Z.to_nat (i + 1)) by lia. rewrite (drop_S _ _ _ Ho). f_equal.
    replace (S (Z.to_nat (i + 1))) with (Z.to_nat (i + 1 + 1)) by lia.
    replace (Z.to_nat (i + 1 + 1 + olen)) with (Z.to_nat (i + 1 + 1) + Z.to_nat olen)%nat by lia. by rewrite <- drop_drop, take_drop.
Qed.

Lemma get_drop_cons (p : list Z) i x l : 0 <= i -> drop (Z.to_nat i) p = x :: l -> get p i = Some x /\ drop (Z.to_nat (i + 1)) p = l.
Proof.
  intros Hi E. unfold get. destruct (Z.ltb_spec i 0); [lia|]. split.
  - rewrite <- (Nat.add_0_r (Z.to_nat i)), <- lookup_drop, E. done.
  - replace (Z.to_nat (i + 1)) with (Z.to_nat i + 1)%nat by lia. by rewrite <- drop_drop, E.
Qed.

(** What the walk reads is a list of options. *)
Lemma walk_sound p fuel i o o' : bytes p -> 0 <= i -> walk_opts fuel p i o = Some (Some o') ->
  exists os, dhcp_options (drop (Z.to_nat i) p) os /\ o_msg_type o' = default (o_msg_type o) (dhcp_type os).
Proof.
  intros Hb. revert i o. induction fuel as [|f IH]; intros i o Hi; cbn [walk_opts].
  { destruct (i >=? _) eqn:E; [|done]. intros [= <-]. exists []. split; [|done]. rewrite drop_ge by lia. constructor. }
  destruct (i >=? _) eqn:E; [intros [= <-]; exists []; split; [|done]; rewrite drop_ge by lia; constructor|].
  destruct (get_in_range p i) as [code Ec]; [lia|]. rewrite Ec. cbn [mbind option_bind].
  assert (forall c, get p i = Some c -> drop (Z.to_nat i) p = c :: drop (Z.to_nat (i + 1)) p) as Hcons.
  { intros c Hc. unfold get in Hc. destruct (Z.ltb_spec i 0); [lia|]. rewrite (drop_S _ _ _ Hc). do 2 f_equal. lia. }
  destruct (Z.eqb_spec code DHCP_OPT_END) as [->|Hend]; [intros [= <-]; exists []; split; [|done]; rewrite (Hcons _ Ec); constructor|].
  destruct (Z.eqb_spec code DHCP_OPT_PAD) as [->|Hpad].
  { intros H. destruct (IH (i + 1) o ltac:(lia) H) as (os & Hos & Ht). exists os. split; [|done]. rewrite (Hcons _ Ec). by constructor. }
  destruct (i + 1 >=? _) eqn:E1; [done|]. destruct (get_in_range p (i + 1)) as [olen Eo]; [lia|]. rewrite Eo. cbn [mbind option_bind].
  pose proof (get_byte _ _ _ Hb Eo) as Ho. unfold byte, in_u in Ho. destruct (i + 1 + 1 + olen >? _) eqn:E2; [done|].
  destruct (read_opt p code (i + 1 + 1) olen o) as [o1|] eqn:Er; [|done]. cbn [mbind option_bind]. intros H.
  destruct (IH (i + 1 + 1 + olen) o1 ltac:(lia) H) as (os & Hos & Ht). destruct (option_split p i olen code Hi Ec Eo ltac:(lia) ltac:(lia)) as (data & Hlen & Hhead & ->).
  exists ((code, data) :: os). split; [rewrite <- Hlen at 1; by apply Options_opt|]. cbn [dhcp_type]. rewrite Ht, (read_opt_type _ _ _ _ _ _ Er).
  destruct (dhcp_type os); [done|]. cbn. destruct (code =? DHCP_OPT_MSG_TYPE); cbn [andb]; [|done]. destruct (olen >=? 1) eqn:E3.
  - rewrite Hhead by lia. destruct (get_in_range p (i + 1 + 1)) as [t ->]; [lia|]. done.
  - destruct data; [done|cbn in Hlen; lia].
Qed.

(** Every list of options is read. *)
Lemma walk_complete p os : bytes p -> forall l, dhcp_options l os -> forall fuel i o, 0 <= i -> drop (Z.to_nat i) p = l ->
  Z.of_nat (length p) - i <= Z.of_nat fuel -> exists o', walk_opts fuel p i o = Some (Some o').
Proof.
  intros Hb l Hos. induction Hos as [|l|l os _ IH|code data l os Hpad Hend _ IH]; intros fuel i o Hi El Hf.
  { assert (i >= Z.of_nat (length p)) by (apply (f_equal length) in El; rewrite length_drop in El; cbn in El; lia).
    exists o. by destruct fuel; cbn [walk_opts]; destruct (i >=? _) eqn:?; (done || lia). }
  all: assert (i < Z.of_nat (length p)) by (apply (f_equal length) in El; rewrite length_drop in El; cbn in El; lia).
  all: destruct fuel as [|f]; [lia|]; cbn [walk_opts]; destruct (i >=? _) eqn:?; [lia|].
  all: apply get_drop_cons in El as [Ec El]; [|done]; rewrite Ec; cbn [mbind option_bind].
  - by exists o.
  - destruct (IH f (i + 1) o ltac:(lia) El ltac:(lia)) as [o' Ho']. by exists o'.
  - destruct (Z.eqb_spec code DHCP_OPT_END); [done|]. destruct (Z.eqb_spec code DHCP_OPT_PAD); [done|].
    assert (i + 1 + 1 + Z.of_nat (length data) <= Z.of_nat (length p)) as Hl.
    { apply (f_equal length) in El. rewrite length_drop in El. cbn in El. rewrite length_app in El. lia. }
    apply get_drop_cons in El as [Eo El]; [|lia]. destruct (i + 1 >=? _) eqn:?; [lia|]. rewrite Eo. cbn [mbind option_bind].
    destruct (_ >? _) eqn:?; [lia|]. destruct (read_opt_total p code (i + 1 + 1) (Z.of_nat (length data)) o Hb) as [o1 ->]; [lia|lia|]. cbn [mbind option_bind].
    apply IH; [lia| |lia]. replace (Z.to_nat (i + 1 + 1 + Z.of_nat (length data))) with (Z.to_nat (i + 1 + 1) + length data)%nat by lia.
    by rewrite <- drop_drop, El, drop_app_length.
Qed.

Lemma dhcp_options_det l os os' : dhcp_options l os -> dhcp_options l os' -> os = os'.
Proof.
  intros H. revert os'. induction H as [|l|l os _ IH|code data l os Hpad Hend _ IH]; intros os' H'; inversion H' as [|?|? ? H1|code' data' l' os1 ? ? H1]; subst; try done; [by apply IH|].
  match goal with E : _ ++ _ = _ ++ _ |- _ => apply app_inj_1 in E as [-> ->]; [|lia] end. f_equal. by apply IH.
Qed.

(** What the client reads from an incoming packet is what the format says. *)
Lemma incoming_iff c p y mt : bytes p -> mt <> 0 -> is_reply c p y mt <->
  dhcp_accept c p = Some (Some y) /\ exists o, walk_opts (length p) p DHCP_PKT_FIXED_LEN no_opts = Some (Some o) /\ o_msg_type o = mt.
Proof.
  intros Hb Hmt. unfold is_reply. rewrite dhcp_accept_iff by done. split.
  - intros (opts & os & Hm & Hos & Ht). assert (opts = drop 240 p) as ->.
    { destruct Hm as (_ & _ & a & b & d & Ha & Hbl & Hd & ->). rewrite !drop_app, Ha, Hbl, Hd. cbn. by rewrite !drop_ge by (rewrite ?Ha, ?Hbl, ?Hd; lia). }
    split; [done|]. destruct (walk_complete p os Hb _ Hos (length p) DHCP_PKT_FIXED_LEN no_opts) as [o Ho]; [done|done|unfold DHCP_PKT_FIXED_LEN; lia|].
    exists o. split; [done|]. destruct (walk_sound p _ DHCP_PKT_FIXED_LEN _ _ Hb ltac:(done) Ho) as (os' & Hos' & Ht').
    rewrite Ht', (dhcp_options_det _ _ _ Hos' Hos), Ht. done.
  - intros (Hm & o & Hw & Ht). destruct (walk_sound p _ DHCP_PKT_FIXED_LEN _ _ Hb ltac:(done) Hw) as (os & Hos & Ht').
    exists (drop 240 p), os. split; [done|]. split; [done|]. cbn in Ht'. destruct (dhcp_type os); [cbn in Ht'; congruence|]. cbn in Ht'. congruence.
Qed.

Inductive dhcp_edge (c : dhcp_client) : dhcp_event -> dhcp_state -> dhcp_state -> Prop :=
| Edge_discover cap st : dhcp_edge c (EvDiscover cap) st DHCP_STATE_SELECTING
| Edge_request cap : offered_ip c <> 0 -> server_id c <> 0 ->
    dhcp_edge c (EvRequest cap) DHCP_STATE_SELECTING DHCP_STATE_REQUESTING
| Edge_ack p y : is_reply c p y DHCP_MT_ACK ->
    dhcp_edge c (EvIncoming p) DHCP_STATE_REQUESTING DHCP_STATE_BOUND
| Edge_nak p y st : is_reply c p y DHCP_MT_NAK -> dhcp_edge c (EvIncoming p) st DHCP_STATE_INIT.

Lemma dhcp_gate_spec c y o p : bytes p ->
  dhcp_accept c p = Some (Some y) ->
  walk_opts (length p) p DHCP_PKT_FIXED_LEN no_opts = Some (Some o) ->
  let c' := fst (dhcp_gate c y o) in
  (c_state c' = c_state c \/ dhcp_edge c (EvIncoming p) (c_state c) (c_state c')) /\
  (assigned_ip c' <> assigned_ip c ->
     assigned_ip c' = y /\ is_reply c p y DHCP_MT_ACK /\ c_state c = DHCP_STATE_REQUESTING) /\
  (5000 <= retry_backoff_ms c <= 30000 -> 5000 <= retry_backoff_ms c' <= 30000).
Proof.
  intros Hb Ha Hw c'. subst c'. unfold dhcp_gate.
  assert (forall mt, mt <> 0 -> o_msg_type o = mt -> is_reply c p y mt) as Hr by (intros mt H0 <-; apply incoming_iff; [done..|]; split; [done|by exists o]).
  destruct (o_msg_type o =? 0); [by split; [left|split]|].
  destruct (Z.eqb_spec (o_msg_type o) DHCP_MT_OFFER).
  { destruct (negb _); by split; [left|split]. }
  destruct (Z.eqb_spec (o_msg_type o) DHCP_MT_ACK) as [EA|].
  { destruct (bool_decide_reflect (c_state c = DHCP_STATE_REQUESTING)) as [ES|]; cbn [negb]; [|by split; [left|split]].
    split; [right; rewrite ES; by apply (Edge_ack c p y), Hr|]. split; [intros _|cbn; lia].
    split; [done|]. split; [by apply Hr|done]. }
  destruct (Z.eqb_spec (o_msg_type o) DHCP_MT_NAK) as [EN|]; [|by split; [left|split]].
  split; [right; by apply (Edge_nak c p y), Hr|]. split; [done|]. cbn [fst retry_backoff_ms]. intros Hbo.
  rewrite wrap_small by (unfold in_u; lia). destruct (_ >? 30000) eqn:E; lia.
Qed.

(** An ACK to our transaction is taken in REQUESTING. *)
Lemma dhcp_ack_taken c p y : bytes p -> c_state c = DHCP_STATE_REQUESTING -> is_reply c p y DHCP_MT_ACK ->
  exists c', dhcp_handle c (EvIncoming p) = Some c' /\ c_state c' = DHCP_STATE_BOUND /\ assigned_ip c' = y.
Proof.
  intros Hb Hs (Ha & o & Hw & Ht)%incoming_iff; [|done|done]. cbn [dhcp_handle]. unfold netd_dhcp_handle_incoming. rewrite Ha. cbn [mbind option_bind]. rewrite Hw.
  cbn [mbind option_bind]. eexists. split; [done|]. unfold dhcp_gate. rewrite Ht. cbn. by rewrite Hs.
Qed.

(** C31: the DHCP client's machine.  Whatever arrives, handling it is memory safe, and the
    state changes only so: building a DISCOVER gives SELECTING; building a REQUEST, in
    SELECTING with an address and a server from an offer, gives REQUESTING; an ACK in
    REQUESTING gives BOUND; a NAK, in any state, gives INIT.  ACK and NAK are messages of the
    format of RFC 2131 (operation 2, the magic number, a list of options whose last message
    type is ACK or NAK) with our transaction id.  The assigned address changes only by such
    an ACK in REQUESTING, to the address in it; conversely every such ACK in REQUESTING gives
    BOUND and its address.  The back-off stays within 5 to 30 s. *)
Theorem dhcp_machine (c : dhcp_client) (ev : dhcp_event) :
  match ev with EvIncoming p => bytes p | _ => True end ->
  exists c', dhcp_handle c ev = Some c' /\
    (c_state c' = c_state c \/ dhcp_edge c ev (c_state c) (c_state c')) /\
    (assigned_ip c' <> assigned_ip c ->
       exists p, ev = EvIncoming p /\ is_reply c p (assigned_ip c') DHCP_MT_ACK /\
         c_state c = DHCP_STATE_REQUESTING) /\
    (forall p y, ev = EvIncoming p -> is_reply c p y DHCP_MT_ACK -> c_state c = DHCP_STATE_REQUESTING ->
       c_state c' = DHCP_STATE_BOUND /\ assigned_ip c' = y) /\
    (5000 <= retry_backoff_ms c <= 30000 -> 5000 <= retry_backoff_ms c' <= 30000).
Proof.
  intros Hb. destruct ev as [cap|cap|p].
  - eexists. split; [reflexivity|]. unfold netd_dhcp_build_discover.
    destruct (_ <? _); [by split; [left|]|]. split; [right; apply Edge_discover|done].
  - eexists. split; [reflexivity|]. unfold netd_dhcp_build_request.
    destruct (_ <? _); [by split; [left|]|].
    destruct (bool_decide_reflect (c_state c = DHCP_STATE_SELECTING)) as [ES|]; cbn [negb]; [|by split; [left|]].
    destruct (_ || _) eqn:E; [by split; [left|]|]. split; [right; rewrite ES; apply Edge_request; lia|done].
  - enough (exists c', dhcp_handle c (EvIncoming p) = Some c' /\ (c_state c' = c_state c \/ dhcp_edge c (EvIncoming p) (c_state c) (c_state c')) /\
      (assigned_ip c' <> assigned_ip c -> exists p', EvIncoming p = EvIncoming p' /\ is_reply c p' (assigned_ip c') DHCP_MT_ACK /\ c_state c = DHCP_STATE_REQUESTING) /\
      (5000 <= retry_backoff_ms c <= 30000 -> 5000 <= retry_backoff_ms c' <= 30000)) as (c' & Hc & H1 & H2 & H3).
    { exists c'. split_and!; try done. intros p' y [= <-] Hr Hs. destruct (dhcp_ack_taken c p y Hb Hs Hr) as (c1 & Hc1 & H). by simplify_eq. }
    cbn [dhcp_handle]. unfold netd_dhcp_handle_incoming. destruct (dhcp_accept_total c p Hb) as [[y|] Ha]; rewrite Ha; cbn [mbind option_bind].
    2: { exists c. by split; [|split; [left|split]]. }
    destruct (walk_opts_total (length p) p DHCP_PKT_FIXED_LEN no_opts Hb) as [[o|] Hw];
      [unfold DHCP_PKT_FIXED_LEN; lia|unfold DHCP_PKT_FIXED_LEN; lia| |]; rewrite Hw; cbn [mbind option_bind].
    2: { exists c. by split; [|split; [left|split]]. }
    destruct (dhcp_gate_spec c y o p Hb Ha Hw) as (H1 & H2 & H3). eexists. split; [reflexivity|].
    split; [done|]. split; [|done]. intros Hne. destruct (H2 Hne) as (-> & ? & ?). by exists p.
Qed.

(** ** The request that answers an offer *)
(** The options of a REQUEST, as the walk reads them back: the message type and
    the server of the offer; the requested address is the offered one. *)
Lemma dhcp_request_options c cap :
  DHCP_PKT_FIXED_LEN + 24 <= cap -> c_state c = DHCP_STATE_SELECTING -> length (c_mac c) = 6%nat ->
  offered_ip c <> 0 -> server_id c <> 0 -> in_u 32 (offered_ip c) -> in_u 32 (server_id c) ->
  let p := snd (netd_dhcp_build_request c cap) in
  walk_opts (length p) p DHCP_PKT_FIXED_LEN no_opts =
    Some (Some (Dhcp_opts DHCP_MT_REQUEST (server_id c) 0 0 0 0)) /\
  netd_read_be32 p 245 = Some (offered_ip c).
Proof.
  intros Hc Hs Hm Ho Hsv Hou Hsu. unfold netd_dhcp_build_request. rewrite Hs, bool_decide_true by done.
  destruct (Z.ltb_spec cap (DHCP_PKT_FIXED_LEN + 24)); [lia|]. cbn [negb].
  destruct (_ || _) eqn:E; [lia|]. cbn [snd]. clear E Hs Hc.
  pose proof (be32_read_back _ Hou) as Eo. pose proof (be32_read_back _ Hsu) as Es.
  unfold dhcp_fill_header, netd_write_be32 at 1 3 4.
  destruct c as [st xid mac oip sid a1 a2 a3 a4 a5 a6 a7 a8]. cbn [c_mac offered_ip server_id c_xid] in *.
  destruct mac as [|m1 [|m2 [|m3 [|m4 [|m5 [|m6 [|]]]]]]]; try discriminate.
  revert Eo Es. unfold netd_write_be32.
  generalize (u8 (oip >>. 24)) (u8 (oip >>. 16)) (u8 (oip >>. 8)) (u8 oip). intros o1 o2 o3 o4.
  generalize (u8 (sid >>. 24)) (u8 (sid >>. 16)) (u8 (sid >>. 8)) (u8 sid). intros s1 s2 s3 s4.
  generalize (u8 (xid >>. 24)) (u8 (xid >>. 16)) (u8 (xid >>. 8)) (u8 xid). intros x1 x2 x3 x4 Eo Es.
  rewrite <- Es, <- Eo. split; lazy -[Z.lor Z.shiftl]; reflexivity.
Qed.

(** A packet whose options start with the given bytes, for the walk. *)
Definition demo_reply (mt : Z) : list Z :=
  [2; 1; 6; 0] ++ netd_write_be32 (xid_hash [2; 0; 0; 0; 0; 1] 99) ++ replicate 8 0 ++
  netd_write_be32 0x0A00020F ++ replicate 216 0 ++ netd_write_be32 DHCP_MAGIC ++
  [53; 1; mt; 54; 4; 10; 0; 2; 2; 255].

Lemma dhcp_machine_witness :
  let c := Dhcp_client DHCP_STATE_REQUESTING (xid_hash [2; 0; 0; 0; 0; 1] 99) [2; 0; 0; 0; 0; 1]
             0x0A00020F 0x0A000202 0 0 0 0 0 0 5000 0 in
  exists c', dhcp_handle c (EvIncoming (demo_reply DHCP_MT_ACK)) = Some c' /\
    c_state c' = DHCP_STATE_BOUND /\ assigned_ip c' = 0x0A00020F.
Proof.
  intros c. destruct (dhcp_machine c (EvIncoming (demo_reply DHCP_MT_ACK))) as (c' & H & _).
  - vm_compute. repeat apply Forall_cons_2; try apply Forall_nil_2; split; (discriminate || reflexivity).
  - exists c'. split; [exact H|]. vm_compute in H. injection H as <-. split; reflexivity.
Defined.
