(* ===== verification/Runq.v ===== *)
(** * Run queues and work stealing
    (arch/x86_64/cpu/sched/runq.c, arch/x86_64/cpu/sched/work_steal.c)

    Tasks are nodes of a heap, linked through [runq_next] and [runq_prev]; a
    pointer is [option Z].  Reading or writing through a pointer that is not a
    task of the heap is [None], so a result is also a proof of memory safety.
    The theorems say that the pointer code implements a FIFO and a stack: for
    every sequence of operations the queues hold exactly the tasks an abstract
    pair of lists holds, and stealing moves tasks without losing, duplicating or
    migrating pinned ones. *)
From S2P Require Import Prelude.
Local Open Scope Z_scope.

Abbreviation RUNQ_MAGIC := 0xCAFE2010.
Definition RUNQ_EPOCH_NEVER : Z := 2 ^ 64 - 1.
Definition WORK_STEAL_MAX_ATTEMPTS : nat := 4.

Inductive task_state :=
| TASK_STATE_ZOMBIE | TASK_STATE_READY | TASK_STATE_RUNNING | TASK_STATE_BLOCKED
| TASK_STATE_CHAN_WAIT | TASK_STATE_STARVED | TASK_STATE_BARRIER_WAIT.

(** The fields of [task_t] that the queues use. *)
Record task := Task {
  runq_next : option Z; runq_prev : option Z; tstate : task_state; cpu_pinned : Z
}.
Abbreviation heap := (gmap Z task).

Record runq := Runq {
  magic : Z; cpu_id : Z;
  ready_head : option Z; ready_tail : option Z; ready_count : Z;
  starved_head : option Z; current : option Z;
  steal_successes : Z; steal_failures : Z; context_switches : Z; last_epoch_tick_ticks : Z;
  idle_task : option Z
}.

(** A store through the pointer [t]. *)
Definition store (h : heap) (t : Z) (f : task -> task) : option heap :=
  n ← h !! t; Some (<[t := f n]> h).
Definition set_next (v : option Z) (n : task) : task := {| n with runq_next := v |}.
Definition set_prev (v : option Z) (n : task) : task := {| n with runq_prev := v |}.
Definition set_state (v : task_state) (n : task) : task := {| n with tstate := v |}.

(** [if (p) *p = ...; else ...] *)
Definition store_opt (h : heap) (p : option Z) (f : task -> task) : option heap :=
  match p with Some t => store h t f | None => Some h end.

Definition dec_count (c : Z) : Z := if c >? 0 then c - 1 else c.

(** ** runq.c *)
Definition runq_init (cpu : Z) : runq :=
  Runq RUNQ_MAGIC cpu None None 0 None None 0 0 0 RUNQ_EPOCH_NEVER None.

Definition runq_enqueue_ready (h : heap) (rq : runq) (t : Z) : option (heap * runq) :=
  h ← store h t (set_next None);
  h ← store h t (set_prev (ready_tail rq));
  h ← store_opt h (ready_tail rq) (set_next (Some t));
  let rq := match ready_tail rq with
            | Some _ => rq | None => {| rq with ready_head := Some t |} end in
  let rq := {| rq with ready_tail := Some t; ready_count := u32 (ready_count rq + 1) |} in
  h ← store h t (set_state TASK_STATE_READY);
  Some (h, rq).

Definition runq_dequeue_ready (h : heap) (rq : runq) : option (heap * runq * option Z) :=
  match ready_head rq with
  | None => Some (h, rq, None)
  | Some t =>
      n ← h !! t;
      let rq := {| rq with ready_head := runq_next n |} in
      h ← store_opt h (runq_next n) (set_prev None);
      let rq := match runq_next n with
                | Some _ => rq | None => {| rq with ready_tail := None |} end in
      h ← store h t (set_next None);
      h ← store h t (set_prev None);
      Some (h, {| rq with ready_count := dec_count (ready_count rq) |}, Some t)
  end.

(** The ready-list unlink that [runq_remove] and [runq_move_to_starved] share. *)
Definition unlink_ready (h : heap) (rq : runq) (t : Z) : option (heap * runq) :=
  n ← h !! t;
  h ← store_opt h (runq_prev n) (set_next (runq_next n));
  let rq := match runq_prev n with
            | Some _ => rq
            | None => if bool_decide (ready_head rq = Some t)
                      then {| rq with ready_head := runq_next n |} else rq
            end in
  h ← store_opt h (runq_next n) (set_prev (runq_prev n));
  let rq := match runq_next n with
            | Some _ => rq
            | None => if bool_decide (ready_tail rq = Some t)
                      then {| rq with ready_tail := runq_prev n |} else rq
            end in
  Some (h, rq).

(** [while (prev && prev->runq_next != task) prev = prev->runq_next]. *)
Fixpoint find_pred (fuel : nat) (h : heap) (prev : option Z) (t : Z) : option (option Z) :=
  match prev with
  | None => Some None
  | Some p =>
      n ← h !! p;
      if bool_decide (runq_next n = Some t) then Some (Some p)
      else match fuel with O => None | S f => find_pred f h (runq_next n) t end
  end.

Definition runq_remove (h : heap) (rq : runq) (t : Z) : option (heap * runq) :=
  '(h, rq) ← unlink_ready h rq t;
  n ← h !! t;
  r ← (if bool_decide (starved_head rq = Some t)
       then Some (h, {| rq with starved_head := runq_next n |})
       else
         p ← find_pred (size h) h (starved_head rq) t;
         h ← store_opt h p (set_next (runq_next n));
         Some (h, rq));
  let '(h, rq) := r in
  h ← store h t (set_next None);
  h ← store h t (set_prev None);
  Some (h, rq).

Definition runq_push_starved (h : heap) (rq : runq) (t : Z) : option (heap * runq) :=
  h ← store h t (set_prev None);
  h ← store h t (set_next (starved_head rq));
  let rq := {| rq with starved_head := Some t |} in
  h ← store h t (set_state TASK_STATE_STARVED);
  Some (h, rq).

Definition runq_move_to_starved (h : heap) (rq : runq) (t : Z) : option (heap * runq) :=
  '(h, rq) ← unlink_ready h rq t;
  let rq := {| rq with ready_count := dec_count (ready_count rq) |} in
  runq_push_starved h rq t.

(** The drain loop; each round moves one task, so the number of tasks is enough. *)
Fixpoint refill_loop (fuel : nat) (h : heap) (rq : runq) (s : option Z) (n : Z)
    : option (heap * runq * Z) :=
  match s with
  | None => Some (h, rq, n)
  | Some t =>
      match fuel with
      | O => None
      | S f =>
          nd ← h !! t;
          h ← store h t (set_prev None);
          h ← store h t (set_next None);
          '(h, rq) ← runq_enqueue_ready h rq t;
          refill_loop f h rq (runq_next nd) (u32 (n + 1))
      end
  end.

Definition runq_refill_starved (h : heap) (rq : runq) : option (heap * runq * Z) :=
  refill_loop (size h) h {| rq with starved_head := None |} (starved_head rq) 0.

(** ** work_steal.c *)

(** The snapshot scan over all queues; [None] is [(uint32_t)-1]. *)
Fixpoint pick_scan (rqs : list runq) (i : Z) (thief_cpu : Z) (best : option Z) (best_count : Z) : option Z :=
  match rqs with
  | [] => best
  | rq :: rqs' =>
      if i =? thief_cpu then pick_scan rqs' (i + 1) thief_cpu best best_count
      else if ready_count rq >? best_count then pick_scan rqs' (i + 1) thief_cpu (Some i) (ready_count rq)
      else pick_scan rqs' (i + 1) thief_cpu best best_count
  end.
Definition pick_busiest (rqs : list runq) (thief_cpu : Z) : option Z := pick_scan rqs 0 thief_cpu None 1.

Definition stealable (thief_cpu : Z) (n : task) : bool := (cpu_pinned n <? 0) || (cpu_pinned n =? thief_cpu).

(** One stolen task: unlink from the victim, prepend to the thief. *)
Definition steal_one (h : heap) (victim thief : runq) (c : Z) (n : task) : option (heap * runq * runq) :=
  h ← store_opt h (runq_prev n) (set_next (runq_next n));
  let victim := match runq_prev n with
                | Some _ => victim | None => {| victim with ready_head := runq_next n |} end in
  h ← store_opt h (runq_next n) (set_prev (runq_prev n));
  let victim := match runq_next n with
                | Some _ => victim | None => {| victim with ready_tail := runq_prev n |} end in
  let victim := {| victim with ready_count := dec_count (ready_count victim) |} in
  h ← store h c (set_prev None);
  h ← store h c (set_next (ready_head thief));
  h ← store_opt h (ready_head thief) (set_prev (Some c));
  let thief := match ready_head thief with
               | Some _ => thief | None => {| thief with ready_tail := Some c |} end in
  let thief := {| thief with ready_head := Some c; ready_count := u32 (ready_count thief + 1) |} in
  Some (h, victim, thief).

Fixpoint splice_loop (fuel : nat) (h : heap) (victim thief : runq) (cursor : option Z) (n stolen : Z)
    : option (heap * runq * runq * Z) :=
  match cursor with
  | None => Some (h, victim, thief, stolen)
  | Some c =>
      if negb (stolen <? n) then Some (h, victim, thief, stolen) else
      match fuel with
      | O => None
      | S f =>
          nd ← h !! c;
          if negb (stealable (swrap 32 (cpu_id thief)) nd)
          then splice_loop f h victim thief (runq_prev nd) n stolen
          else
            '(h, victim, thief) ← steal_one h victim thief c nd;
            splice_loop f h victim thief (runq_prev nd) n (stolen + 1)
      end
  end.

Definition splice_tail_to_thief (h : heap) (victim thief : runq) (n : Z)
    : option (heap * runq * runq * Z) :=
  if (n =? 0) || (ready_count victim =? 0) then Some (h, victim, thief, 0) else
  splice_loop (size h) h victim thief (ready_tail victim) n 0.

(** [trylock k] is the outcome of the [k]-th attempt's lock; [rqs] are the
    queues of all CPUs, [thief] the index of the stealing one. *)
Fixpoint steal_attempts (attempts : nat) (trylock : nat -> bool) (h : heap) (rqs : list runq) (thief : nat)
    : option (heap * list runq * Z) :=
  match attempts with
  | O => Some (h, rqs, 0)
  | S k =>
      trq ← rqs !! thief;
      match pick_busiest rqs (cpu_id trq) with
      | None => Some (h, rqs, 0)
      | Some v =>
          let failed := {| trq with steal_failures := u64 (steal_failures trq + 1) |} in
          if negb (trylock k) then steal_attempts k trylock h (<[thief := failed]> rqs) thief else
          vrq ← get rqs v;
          if ready_count vrq <=? 1 then steal_attempts k trylock h rqs thief else
          let n := ready_count vrq / 2 in
          let n := if n =? 0 then 1 else n in
          '(h, vrq, trq', stolen) ← splice_tail_to_thief h vrq trq n;
          let rqs := <[Z.to_nat v := vrq]> rqs in
          if stolen >? 0 then
            Some (h, <[thief := {| trq' with steal_successes := u64 (steal_successes trq' + 1) |}]> rqs, stolen)
          else
            steal_attempts k trylock h
              (<[thief := {| trq' with steal_failures := u64 (steal_failures trq' + 1) |}]> rqs) thief
      end
  end.

Definition sched_steal_from_busiest (trylock : nat -> bool) (h : heap) (rqs : list runq) (thief : nat) :=
  steal_attempts WORK_STEAL_MAX_ATTEMPTS trylock h rqs thief.

(** ** Links

    The links of every task, as a function; stores update it pointwise. *)
Definition links_map : Type := Z -> option (option Z * option Z).
Definition links (h : heap) : links_map := fun t => (fun n => (runq_next n, runq_prev n)) <$> h !! t.

Definition setn (t : Z) (v : option Z) (L : links_map) : links_map :=
  fun x => if decide (x = t) then (fun ab => (v, ab.2)) <$> L x else L x.
Definition setp (t : Z) (v : option Z) (L : links_map) : links_map :=
  fun x => if decide (x = t) then (fun ab => (ab.1, v)) <$> L x else L x.
Definition setn_opt (p v : option Z) (L : links_map) : links_map :=
  match p with Some t => setn t v L | None => L end.
Definition setp_opt (p v : option Z) (L : links_map) : links_map :=
  match p with Some t => setp t v L | None => L end.

(** Same tasks, same pinning: what no queue operation changes. *)
Definition keeps (h h' : heap) : Prop := forall x, cpu_pinned <$> h' !! x = cpu_pinned <$> h !! x.
#[export] Instance keeps_preorder : PreOrder keeps.
Proof. split; [by intros h x|]. intros a b c H1 H2 x. by rewrite H2. Qed.

Lemma keeps_is_Some h h' x : keeps h h' -> is_Some (h !! x) -> is_Some (h' !! x).
Proof. intros H [n E]. specialize (H x). rewrite E in H. destruct (h' !! x); [by eexists|done]. Qed.

Lemma keeps_size h h' : keeps h h' -> size h' = size h.
Proof.
  intros H. rewrite <- (size_dom (D := gset Z) h), <- (size_dom (D := gset Z) h'). f_equal. apply set_eq. intros x. rewrite !elem_of_dom.
  split; intros [n E]; specialize (H x); rewrite E in H; [destruct (h !! x)|destruct (h' !! x)]; done || by eexists.
Qed.

Lemma links_Some h t : is_Some (links h t) <-> is_Some (h !! t).
Proof. unfold links. by rewrite fmap_is_Some. Qed.

(** [h'] is [h] with its links changed to [L]. *)
Definition relinked (h h' : heap) (L : links_map) : Prop := (forall x, links h' x = L x) /\ keeps h h'.

Lemma store_next h t v : is_Some (h !! t) ->
  exists h', store h t (set_next v) = Some h' /\ relinked h h' (setn t v (links h)).
Proof.
  intros [n E]. exists (<[t := set_next v n]> h). unfold store. rewrite E. split; [done|].
  split; intros x; unfold links, setn; destruct (decide (x = t)) as [->|Hx];
    rewrite ?lookup_insert_eq, ?lookup_insert_ne by done; rewrite ?E; done.
Qed.

Lemma store_prev h t v : is_Some (h !! t) ->
  exists h', store h t (set_prev v) = Some h' /\ relinked h h' (setp t v (links h)).
Proof.
  intros [n E]. exists (<[t := set_prev v n]> h). unfold store. rewrite E. split; [done|].
  split; intros x; unfold links, setp; destruct (decide (x = t)) as [->|Hx];
    rewrite ?lookup_insert_eq, ?lookup_insert_ne by done; rewrite ?E; done.
Qed.

Lemma store_state h t v : is_Some (h !! t) ->
  exists h', store h t (set_state v) = Some h' /\ relinked h h' (links h).
Proof.
  intros [n E]. exists (<[t := set_state v n]> h). unfold store. rewrite E. split; [done|].
  split; intros x; unfold links; destruct (decide (x = t)) as [->|Hx];
    rewrite ?lookup_insert_eq, ?lookup_insert_ne by done; rewrite ?E; done.
Qed.

Lemma store_opt_next h p v : (forall t, p = Some t -> is_Some (h !! t)) ->
  exists h', store_opt h p (set_next v) = Some h' /\ relinked h h' (setn_opt p v (links h)).
Proof. destruct p as [t|]; [intros H; apply store_next; by apply H|]. intros _. by exists h. Qed.

Lemma store_opt_prev h p v : (forall t, p = Some t -> is_Some (h !! t)) ->
  exists h', store_opt h p (set_prev v) = Some h' /\ relinked h h' (setp_opt p v (links h)).
Proof. destruct p as [t|]; [intros H; apply store_prev; by apply H|]. intros _. by exists h. Qed.

(** ** Lists in the links *)
Definition before (l : list Z) (i : nat) : option Z := match i with O => None | S j => l !! j end.

Definition dll (L : links_map) (l : list Z) : Prop :=
  forall i t, l !! i = Some t -> L t = Some (l !! S i, before l i).
(** Singly linked, null back links. *)
Definition sll (L : links_map) (l : list Z) : Prop :=
  forall i t, l !! i = Some t -> L t = Some (l !! S i, None).

Lemma dll_ext L L' l : (forall x, x ∈ l -> L' x = L x) -> dll L l -> dll L' l.
Proof. intros H Hd i t Ht. rewrite H; [by apply Hd|by eapply list_elem_of_lookup_2]. Qed.
Lemma sll_ext L L' l : (forall x, x ∈ l -> L' x = L x) -> sll L l -> sll L' l.
Proof. intros H Hd i t Ht. rewrite H; [by apply Hd|by eapply list_elem_of_lookup_2]. Qed.

Lemma setn_eq t v L : setn t v L t = (fun ab => (v, ab.2)) <$> L t.
Proof. unfold setn. by rewrite decide_True. Qed.
Lemma setn_ne t v L x : x <> t -> setn t v L x = L x.
Proof. intros. unfold setn. by rewrite decide_False. Qed.
Lemma setp_eq t v L : setp t v L t = (fun ab => (ab.1, v)) <$> L t.
Proof. unfold setp. by rewrite decide_True. Qed.
Lemma setp_ne t v L x : x <> t -> setp t v L x = L x.
Proof. intros. unfold setp. by rewrite decide_False. Qed.
Lemma setn_opt_ne p v L x : p <> Some x -> setn_opt p v L x = L x.
Proof. destruct p as [t|]; [|done]. intros H. apply setn_ne. congruence. Qed.
Lemma setp_opt_ne p v L x : p <> Some x -> setp_opt p v L x = L x.
Proof. destruct p as [t|]; [|done]. intros H. apply setp_ne. congruence. Qed.

Lemma before_length l : before l (length l) = last l.
Proof. rewrite last_lookup. by destruct l. Qed.

Lemma before_app_l l l' i : (i <= length l)%nat -> before (l ++ l') i = before l i.
Proof. destruct i as [|i]; [done|]. intros. cbn. by rewrite lookup_app_l by lia. Qed.

Lemma before_app_r l l' i : before (l ++ l') (length l + S i) = l' !! i.
Proof. rewrite Nat.add_succ_r. cbn. rewrite lookup_app_r by lia. f_equal. lia. Qed.

Lemma last_not_in (l : list Z) x : x ∉ l -> last l <> Some x.
Proof. intros Hx E. apply Hx. rewrite last_lookup in E. by eapply list_elem_of_lookup_2. Qed.
Lemma head_not_in (l : list Z) x : x ∉ l -> head l <> Some x.
Proof. intros Hx E. apply Hx. rewrite head_lookup in E. by eapply list_elem_of_lookup_2. Qed.

Lemma last_only (l : list Z) i x : NoDup l -> l !! i = Some x -> last l = Some x -> S i = length l.
Proof.
  intros Hn Hi Hl. rewrite last_lookup in Hl. pose proof (NoDup_lookup l _ _ x Hn Hi Hl).
  apply lookup_lt_Some in Hi. lia.
Qed.

(** Linking a task behind the last one. *)
Lemma dll_snoc L l t :
  NoDup l -> dll L l -> t ∉ l -> is_Some (L t) ->
  dll (setn_opt (last l) (Some t) (setp t (last l) (setn t None L))) (l ++ [t]).
Proof.
  intros Hn Hd Ht [[a b] HL] i x Hx. apply lookup_app_Some in Hx as [Hx|[Hi Hx]].
  - pose proof (lookup_lt_Some _ _ _ Hx) as Hlt.
    assert (x ∈ l) as Hxl by (by eapply list_elem_of_lookup_2).
    assert (x <> t) as Hne by (intros ->; done). rewrite before_app_l by lia.
    destruct (decide (last l = Some x)) as [E|E].
    + pose proof (last_only l i x Hn Hx E) as Hi. rewrite E. cbn [setn_opt].
      rewrite setn_eq, setp_ne, setn_ne, (Hd i x Hx) by done. cbn. do 2 f_equal.
      by rewrite lookup_app_r, Hi, Nat.sub_diag by lia.
    + rewrite setn_opt_ne, setp_ne, setn_ne, (Hd i x Hx) by done. do 2 f_equal.
      rewrite lookup_app_l; [done|]. destruct (decide (S i = length l)) as [H|]; [|lia].
      exfalso. apply E. rewrite last_lookup, <- H. done.
  - destruct (i - length l)%nat as [|k] eqn:Ek; [|done]. injection Hx as <-.
    rewrite setn_opt_ne by (by apply last_not_in). rewrite setp_eq, setn_eq, HL. cbn.
    replace i with (length l) by lia. rewrite before_app_l, before_length by lia.
    by rewrite lookup_ge_None_2 by (rewrite length_app; cbn; lia).
Qed.

(** Linking a task before the first one. *)
Lemma dll_prepend L l t :
  NoDup l -> dll L l -> t ∉ l -> is_Some (L t) ->
  dll (setp_opt (head l) (Some t) (setn t (head l) (setp t None L))) (t :: l).
Proof.
  intros Hn Hd Ht [[a b] HL] [|i] x Hx.
  - injection Hx as <-. rewrite setp_opt_ne by (by apply head_not_in).
    rewrite setn_eq, setp_eq, HL. cbn. by rewrite head_lookup.
  - cbn in Hx. assert (x ∈ l) as Hxl by (by eapply list_elem_of_lookup_2).
    assert (x <> t) as Hne by (intros ->; done). destruct i as [|i].
    + assert (head l = Some x) as -> by (by rewrite head_lookup). cbn [setp_opt]. rewrite setp_eq, setn_ne, setp_ne, (Hd 0%nat x Hx) by done.
      cbn. done.
    + rewrite setp_opt_ne.
      * rewrite setn_ne, setp_ne, (Hd (S i) x Hx) by done. done.
      * rewrite head_lookup. intros E. by pose proof (NoDup_lookup l _ _ x Hn Hx E).
Qed.

Lemma sll_prepend L l t :
  sll L l -> t ∉ l -> is_Some (L t) -> sll (setn t (head l) (setp t None L)) (t :: l).
Proof.
  intros Hd Ht [[a b] HL] [|i] x Hx.
  - injection Hx as <-. rewrite setn_eq, setp_eq, HL. cbn. by rewrite head_lookup.
  - cbn in Hx. assert (x <> t) as Hne by (intros ->; apply Ht; by eapply list_elem_of_lookup_2).
    rewrite setn_ne, setp_ne, (Hd i x Hx) by done. done.
Qed.

(** Taking a task out. *)
Lemma dll_unlink L a c b :
  NoDup (a ++ c :: b) -> dll L (a ++ c :: b) ->
  dll (setp_opt (head b) (last a) (setn_opt (last a) (head b) L)) (a ++ b).
Proof.
  intros (Hna & Hab & [Hcb Hnb]%NoDup_cons)%NoDup_app Hd i x Hx.
  apply lookup_app_Some in Hx as [Hx|[Hi Hx]].
  - pose proof (lookup_lt_Some _ _ _ Hx) as Hlt.
    assert (x ∈ a) as Hxa by (by eapply list_elem_of_lookup_2).
    assert (x ∉ b) as Hxb by (specialize (Hab x Hxa); set_solver).
    rewrite setp_opt_ne by (by apply head_not_in). rewrite before_app_l by lia.
    assert (L x = Some ((a ++ c :: b) !! S i, before a i)) as HL.
    { rewrite (Hd i x) by (by rewrite lookup_app_l by lia). by rewrite before_app_l by lia. }
    destruct (decide (last a = Some x)) as [E|E].
    + pose proof (last_only a i x Hna Hx E) as Hi. rewrite E. cbn [setn_opt]. rewrite setn_eq, HL. cbn.
      rewrite lookup_app_r, Hi, Nat.sub_diag by lia. by rewrite head_lookup.
    + rewrite setn_opt_ne, HL by done. do 2 f_equal.
      destruct (decide (S i = length a)) as [H|]; [exfalso; apply E; by rewrite last_lookup, <- H|].
      by rewrite !lookup_app_l by lia.
  - assert (x ∈ b) as Hxb by (by eapply list_elem_of_lookup_2).
    assert (x ∉ a) as Hxa by (intros H; specialize (Hab x H); set_solver).
    assert (L x = Some (b !! S (i - length a), before (a ++ c :: b) (S i))) as HL.
    { rewrite (Hd (S i) x).
      - do 2 f_equal. rewrite lookup_app_r by lia.
        by replace (S (S i) - length a)%nat with (S (S (i - length a))) by lia.
      - rewrite lookup_app_r by lia. by replace (S i - length a)%nat with (S (i - length a)) by lia. }
    replace ((a ++ b) !! S i) with (b !! S (i - length a))
      by (rewrite lookup_app_r by lia; f_equal; lia).
    destruct (i - length a)%nat as [|j] eqn:Ej.
    + assert (head b = Some x) as -> by (by rewrite head_lookup). cbn [setp_opt]. rewrite setp_eq, setn_opt_ne, HL by (by apply last_not_in).
      cbn. replace i with (length a) by lia. by rewrite before_app_l, before_length by lia.
    + rewrite setp_opt_ne, setn_opt_ne, HL.
      * do 2 f_equal. cbn [before]. replace i with (length a + S j)%nat by lia.
        rewrite before_app_r, lookup_app_r by lia. by replace (length a + S j - length a)%nat with (S j) by lia.
      * by apply last_not_in.
      * rewrite head_lookup. intros E. by pose proof (NoDup_lookup b _ _ x Hnb Hx E).
Qed.

(** ** Chains of stores *)
Create Rewrite HintDb links.
Lemma setn_is_Some t v L x : is_Some (setn t v L x) <-> is_Some (L x).
Proof. unfold setn. destruct (decide _); [apply fmap_is_Some|done]. Qed.
Lemma setp_is_Some t v L x : is_Some (setp t v L x) <-> is_Some (L x).
Proof. unfold setp. destruct (decide _); [apply fmap_is_Some|done]. Qed.
Lemma setn_opt_is_Some p v L x : is_Some (setn_opt p v L x) <-> is_Some (L x).
Proof. destruct p; [apply setn_is_Some|done]. Qed.
Lemma setp_opt_is_Some p v L x : is_Some (setp_opt p v L x) <-> is_Some (L x).
Proof. destruct p; [apply setp_is_Some|done]. Qed.
#[export] Hint Rewrite setn_is_Some setp_is_Some setn_opt_is_Some setp_opt_is_Some : links.

Lemma relinked_refl h : relinked h h (links h).
Proof. split; [done|by intros x]. Qed.

Section Chain.
Context (h h1 : heap) (L : links_map) (R : relinked h h1 L).

Lemma relinked_alloc t : is_Some (L t) -> is_Some (h1 !! t).
Proof. destruct R as [HL _]. rewrite <- HL. apply links_Some. Qed.

Lemma relinked_step h2 F :
  (forall L1 L2 x, L1 x = L2 x -> F L1 x = F L2 x) -> relinked h1 h2 (F (links h1)) -> relinked h h2 (F L).
Proof.
  destruct R as [HL HK]. intros HF [H1 H2]. split; [|by etransitivity].
  intros x. rewrite H1. by apply HF.
Qed.

Lemma then_next t v : is_Some (L t) ->
  exists h2, store h1 t (set_next v) = Some h2 /\ relinked h h2 (setn t v L).
Proof.
  intros Ht. destruct (store_next h1 t v) as (h2 & E & H); [by apply relinked_alloc|].
  exists h2. split; [done|]. apply (relinked_step h2 (setn t v)); [|done].
  intros L1 L2 x Hx. unfold setn. by destruct (decide _); rewrite Hx.
Qed.

Lemma then_prev t v : is_Some (L t) ->
  exists h2, store h1 t (set_prev v) = Some h2 /\ relinked h h2 (setp t v L).
Proof.
  intros Ht. destruct (store_prev h1 t v) as (h2 & E & H); [by apply relinked_alloc|].
  exists h2. split; [done|]. apply (relinked_step h2 (setp t v)); [|done].
  intros L1 L2 x Hx. unfold setp. by destruct (decide _); rewrite Hx.
Qed.

Lemma then_state t v : is_Some (L t) ->
  exists h2, store h1 t (set_state v) = Some h2 /\ relinked h h2 L.
Proof.
  intros Ht. destruct (store_state h1 t v) as (h2 & E & H); [by apply relinked_alloc|].
  exists h2. split; [done|]. by apply (relinked_step h2 (fun L => L)).
Qed.

Lemma then_opt_next p v : (forall t, p = Some t -> is_Some (L t)) ->
  exists h2, store_opt h1 p (set_next v) = Some h2 /\ relinked h h2 (setn_opt p v L).
Proof. destruct p as [t|]; [intros H; by apply then_next, H|]. intros _. by exists h1. Qed.

Lemma then_opt_prev p v : (forall t, p = Some t -> is_Some (L t)) ->
  exists h2, store_opt h1 p (set_prev v) = Some h2 /\ relinked h h2 (setp_opt p v L).
Proof. destruct p as [t|]; [intros H; by apply then_prev, H|]. intros _. by exists h1. Qed.
End Chain.

(** Run the next store of the goal: [H] is the [relinked] fact so far. *)
Ltac run_store H :=
  let h2 := fresh "h" in let E := fresh "E" in let R := fresh "R" in
  match goal with
  | |- context [store ?h ?t (set_next ?v)] =>
      destruct (then_next _ _ _ H t v) as (h2 & E & R); [autorewrite with links|]
  | |- context [store ?h ?t (set_prev ?v)] =>
      destruct (then_prev _ _ _ H t v) as (h2 & E & R); [autorewrite with links|]
  | |- context [store ?h ?t (set_state ?v)] =>
      destruct (then_state _ _ _ H t v) as (h2 & E & R); [autorewrite with links|]
  | |- context [store_opt ?h ?p (set_next ?v)] =>
      destruct (then_opt_next _ _ _ H p v) as (h2 & E & R); [intros ??; autorewrite with links|]
  | |- context [store_opt ?h ?p (set_prev ?v)] =>
      destruct (then_opt_prev _ _ _ H p v) as (h2 & E & R); [intros ??; autorewrite with links|]
  end.

(** ** The queue as two lists *)
Definition rep (h : heap) (rq : runq) (l s : list Z) : Prop :=
  NoDup (l ++ s) /\ dll (links h) l /\ sll (links h) s /\
  ready_head rq = head l /\ ready_tail rq = last l /\ starved_head rq = head s.

(** Only the links of the tasks in [dirty] differ. *)
Definition frame (dirty : list Z) (h h' : heap) : Prop :=
  keeps h h' /\ forall x, x ∉ dirty -> links h' x = links h x.

Lemma dll_alloc L l t : dll L l -> t ∈ l -> is_Some (L t).
Proof. intros Hd [i Hi]%list_elem_of_lookup. rewrite (Hd i t Hi). by eexists. Qed.
Lemma sll_alloc L l t : sll L l -> t ∈ l -> is_Some (L t).
Proof. intros Hd [i Hi]%list_elem_of_lookup. rewrite (Hd i t Hi). by eexists. Qed.
Lemma last_in (l : list Z) t : last l = Some t -> t ∈ l.
Proof. rewrite last_lookup. apply list_elem_of_lookup_2. Qed.
Lemma head_in (l : list Z) t : head l = Some t -> t ∈ l.
Proof. rewrite head_lookup. apply list_elem_of_lookup_2. Qed.

(** Run every store of the goal. *)
Ltac run_all H :=
  run_store H;
  [try done
  |match goal with E : _ = Some _ |- _ => rewrite E; clear E; cbn [mbind option_bind] end;
   match goal with R : relinked _ _ _ |- _ =>
     lazymatch R with H => fail | _ => clear H; try run_all R end
   end].

Lemma enqueue_spec h rq l s t :
  rep h rq l s -> t ∉ l ++ s -> is_Some (h !! t) ->
  exists h' rq', runq_enqueue_ready h rq t = Some (h', rq') /\ rep h' rq' (l ++ [t]) s /\
    frame (l ++ [t]) h h' /\ ready_count rq' = u32 (ready_count rq + 1) /\ cpu_id rq' = cpu_id rq.
Proof.
  intros (Hn & Hd & Hs & Hh & Ht & Hst) Hnot Ha%links_Some. unfold runq_enqueue_ready. rewrite Ht.
  pose proof (relinked_refl h) as R0. run_all R0; [by eapply dll_alloc, last_in|].
  match goal with R : relinked _ _ _ |- _ => destruct R as [HL HK] end. apply not_elem_of_app in Hnot as [Htl Hts].
  apply NoDup_app in Hn as (Hnl & Hls & Hns).
  eexists _, _. split; [reflexivity|]. split; [|split; [split; [done|]|]].
  - split; [|split; [|split; [|split; [|split]]]].
    + rewrite <- app_assoc. apply NoDup_app. split; [done|]. split; [set_solver|]. by apply NoDup_cons.
    + eapply dll_ext; [intros x _; apply HL|]. by apply dll_snoc.
    + eapply sll_ext; [|exact Hs]. intros x Hx. rewrite HL.
      rewrite setn_opt_ne, setp_ne, setn_ne; [done| | |]; try set_solver.
      intros E%last_in. by apply (Hls x).
    + cbn. destruct l as [|a l]; [done|]. rewrite last_cons. by destruct (last l).
    + cbn. by rewrite last_snoc.
    + cbn. by destruct (last l).
  - intros x [Hx1 Hx2]%not_elem_of_app. rewrite HL.
    rewrite setn_opt_ne, setp_ne, setn_ne; [done| | |by apply last_not_in]; set_solver.
  - cbn. by destruct (last l).
Qed.

Lemma links_lookup h t a b : links h t = Some (a, b) ->
  exists n, h !! t = Some n /\ runq_next n = a /\ runq_prev n = b.
Proof. unfold links. intros (n & E & [= -> ->])%fmap_Some. eauto. Qed.

Lemma dll_at L a c b : dll L (a ++ c :: b) -> L c = Some (head b, last a).
Proof.
  intros Hd. rewrite (Hd (length a) c) by (by rewrite lookup_app_r, Nat.sub_diag by lia).
  rewrite before_app_l, before_length by lia. rewrite lookup_app_r by lia.
  replace (S (length a) - length a)%nat with 1%nat by lia. by rewrite head_lookup.
Qed.
Lemma sll_at L a c b : sll L (a ++ c :: b) -> L c = Some (head b, None).
Proof.
  intros Hd. rewrite (Hd (length a) c) by (by rewrite lookup_app_r, Nat.sub_diag by lia).
  rewrite lookup_app_r by lia. replace (S (length a) - length a)%nat with 1%nat by lia. by rewrite head_lookup.
Qed.

Lemma dequeue_spec h rq l s :
  rep h rq l s ->
  exists h' rq', runq_dequeue_ready h rq = Some (h', rq', head l) /\ rep h' rq' (tail l) s /\
    frame l h h' /\ cpu_id rq' = cpu_id rq /\
    ready_count rq' = (if head l is Some _ then dec_count (ready_count rq) else ready_count rq) /\
    (forall t, head l = Some t -> links h' t = Some (None, None)).
Proof.
  intros (Hn & Hd & Hs & Hh & Ht & Hst). unfold runq_dequeue_ready. rewrite Hh.
  destruct l as [|t l]; cbn [head].
  { eexists _, _. split; [reflexivity|]. split; [done|]. split; [split; [reflexivity|done]|]. done. }
  pose proof (dll_at (links h) [] t l Hd) as Hlt.
  destruct (links_lookup _ _ _ _ Hlt) as (n & Hnode & Hnx & Hpv). rewrite Hnode. cbn [mbind option_bind]. rewrite Hnx.
  assert (is_Some (links h t)) as Hal by (by rewrite Hlt). pose proof (relinked_refl h) as R0.
  run_all R0; [eapply dll_alloc; [exact Hd|]; apply list_elem_of_further; by apply head_in|].
  match goal with R : relinked _ _ _ |- _ => destruct R as [HL HK] end.
  pose proof (dll_unlink (links h) [] t l) as Hun. cbn [app last setn_opt] in Hun.
  assert (NoDup (t :: l)) as Hn1 by (by apply NoDup_app in Hn as (? & _ & _)).
  specialize (Hun Hn1 Hd). apply NoDup_cons in Hn1 as [Htl Hnl].
  cbn [app] in Hn. apply NoDup_cons in Hn as [[_ Hts]%not_elem_of_app Hn].
  pose proof Hn as (_ & Hls & _)%NoDup_app.
  eexists _, _. split; [reflexivity|]. cbn [tail]. split; [|split; [split; [done|]|]].
  - split; [exact Hn|]. split; [|split; [|split; [|split]]].
    + eapply dll_ext; [|exact Hun]. intros x Hx. rewrite HL, setp_ne, setn_ne by set_solver. done.
    + eapply sll_ext; [|exact Hs]. intros x Hx. rewrite HL, setp_ne, setn_ne by set_solver.
      apply setp_opt_ne. apply head_not_in. intros H. by apply (Hls x).
    + by destruct (head l).
    + cbn [ready_tail]. destruct l as [|b l]; [done|]. cbn [head]. cbn [ready_tail]. by rewrite Ht, last_cons_cons.
    + by destruct (head l).
  - intros x [Hx1 Hx2]%not_elem_of_cons. rewrite HL, setp_ne, setn_ne by done.
    apply setp_opt_ne. by apply head_not_in.
  - split; [by destruct (head l)|]. split; [by destruct (head l)|]. intros ? [= <-].
    rewrite HL, setp_eq, setn_eq, setp_opt_ne, Hlt by (by apply head_not_in). done.
Qed.

(** Unlinking a task of the ready list. *)
Lemma unlink_ready_spec h rq a t b s :
  rep h rq (a ++ t :: b) s ->
  exists h' rq', unlink_ready h rq t = Some (h', rq') /\
    relinked h h' (setp_opt (head b) (last a) (setn_opt (last a) (head b) (links h))) /\
    ready_head rq' = head (a ++ b) /\ ready_tail rq' = last (a ++ b) /\
    starved_head rq' = starved_head rq /\ ready_count rq' = ready_count rq /\ cpu_id rq' = cpu_id rq.
Proof.
  intros (Hn & Hd & Hs & Hh & Ht & Hst). unfold unlink_ready.
  pose proof (dll_at _ _ _ _ Hd) as Hlt.
  destruct (links_lookup _ _ _ _ Hlt) as (n & Hnode & Hnx & Hpv). rewrite Hnode. cbn [mbind option_bind].
  rewrite Hnx, Hpv. pose proof (relinked_refl h) as R0.
  run_all R0; [eapply dll_alloc; [exact Hd|]; apply elem_of_app; left; by apply last_in
    |eapply dll_alloc; [exact Hd|]; apply elem_of_app; right; apply list_elem_of_further; by apply head_in|].
  eexists _, _. split; [reflexivity|]. split; [done|].
  apply NoDup_app in Hn as ((Hna & Hab & [Htb Hnb]%NoDup_cons)%NoDup_app & _ & _).
  assert (t ∉ a) as Hta by (intros H; apply (Hab t H); set_solver).
  clear Hlt Hnx Hpv Hd Hs R0. destruct rq. cbn in Hh, Ht. subst.
  destruct a as [|x a _] using rev_ind; destruct b as [|y b]; rewrite ?last_snoc, ?app_nil_r; cbn.
  - rewrite (bool_decide_true (Some t = Some t)) by done. cbn. by rewrite bool_decide_true.
  - rewrite bool_decide_true by done. done.
  - rewrite last_snoc, bool_decide_true by done. by destruct a.
  - rewrite !last_app. cbn. destruct a; cbn; by destruct (last b).
Qed.

Lemma NoDup_mid (a b : list Z) t : NoDup (a ++ t :: b) -> NoDup (a ++ b) /\ t ∉ a /\ t ∉ b.
Proof.
  intros (Hna & Hab & [Htb Hnb]%NoDup_cons)%NoDup_app. split; [|split; [|done]].
  - apply NoDup_app. split; [done|]. split; [|done]. intros x Hx Hb. apply (Hab x Hx). by right.
  - intros H. apply (Hab t H). by left.
Qed.

Lemma unlink_rep h rq a t b s :
  rep h rq (a ++ t :: b) s ->
  exists h' rq', unlink_ready h rq t = Some (h', rq') /\ rep h' rq' (a ++ b) s /\
    frame (a ++ b) h h' /\ links h' t = Some (head b, last a) /\ t ∉ (a ++ b) ++ s /\
    ready_count rq' = ready_count rq /\ cpu_id rq' = cpu_id rq.
Proof.
  intros Hr. destruct (unlink_ready_spec h rq a t b s Hr) as (h' & rq' & E & [HL HK] & H1 & H2 & H3 & H4 & H5).
  destruct Hr as (Hn & Hd & Hs & Hh & Ht & Hst). pose proof Hn as (Hn1 & Hls & Hns)%NoDup_app.
  rewrite <- app_assoc in Hn. cbn in Hn. apply NoDup_mid in Hn as (Hn & Hta & Htbs). rewrite app_assoc in Hn.
  pose proof (NoDup_mid _ _ _ Hn1) as (_ & _ & Htb).
  assert (forall x, x ∉ a ++ b -> links h' x = links h x) as Hfr.
  { intros x [Hx1 Hx2]%not_elem_of_app. rewrite HL, setp_opt_ne, setn_opt_ne by (by apply last_not_in || apply head_not_in). done. }
  exists h', rq'. split; [done|]. split; [|split; [by split|split; [|split; [|done]]]].
  - split; [done|]. split; [|split; [|split; [done|split; [done|congruence]]]].
    + eapply dll_ext; [intros x _; apply HL|]. by apply dll_unlink in Hd.
    + eapply sll_ext; [|exact Hs]. intros x Hx. apply Hfr. intros H. apply (Hls x); [|done].
      rewrite elem_of_app in H. rewrite elem_of_app, elem_of_cons. tauto.
  - rewrite Hfr by (by rewrite not_elem_of_app). by apply dll_at.
  - rewrite <- app_assoc, not_elem_of_app. done.
Qed.

Lemma push_starved_spec h rq l s t :
  rep h rq l s -> t ∉ l ++ s -> is_Some (h !! t) ->
  exists h' rq', runq_push_starved h rq t = Some (h', rq') /\ rep h' rq' l (t :: s) /\
    frame [t] h h' /\ ready_count rq' = ready_count rq /\ cpu_id rq' = cpu_id rq.
Proof.
  intros (Hn & Hd & Hs & Hh & Ht & Hst) [Htl Hts]%not_elem_of_app Ha%links_Some.
  unfold runq_push_starved. rewrite Hst. pose proof (relinked_refl h) as R0. run_all R0.
  match goal with R : relinked _ _ _ |- _ => destruct R as [HL HK] end.
  apply NoDup_app in Hn as (Hnl & Hls & Hns).
  eexists _, _. split; [reflexivity|]. split; [|split; [split; [done|]|done]].
  - split; [|split; [|split; [|done]]].
    + apply NoDup_app. split; [done|]. split; [|by apply NoDup_cons]. set_solver.
    + eapply dll_ext; [|exact Hd]. intros x Hx. rewrite HL, setn_ne, setp_ne; [done| |]; intros ->; done.
    + eapply sll_ext; [intros x _; apply HL|]. by apply sll_prepend.
  - intros x Hx%not_elem_of_cons. rewrite HL, setn_ne, setp_ne by apply Hx. done.
Qed.

#[export] Instance frame_trans_app dirty : PreOrder (frame dirty).
Proof.
  split; [by intros h; split|]. intros a b c [K1 F1] [K2 F2]. split; [by etransitivity|].
  intros x Hx. by rewrite F2, F1.
Qed.
Lemma frame_weaken d d' h h' : d ⊆ d' -> frame d h h' -> frame d' h h'.
Proof. intros Hs [K F]. split; [done|]. intros x Hx. apply F. set_solver. Qed.

Lemma move_to_starved_spec h rq a t b s :
  rep h rq (a ++ t :: b) s ->
  exists h' rq', runq_move_to_starved h rq t = Some (h', rq') /\ rep h' rq' (a ++ b) (t :: s) /\
    frame (a ++ t :: b) h h' /\ ready_count rq' = dec_count (ready_count rq) /\ cpu_id rq' = cpu_id rq.
Proof.
  intros Hr. destruct (unlink_rep _ _ _ _ _ _ Hr) as (h1 & rq1 & E1 & Hr1 & F1 & Hl1 & Hnot & Hc1 & Hi1).
  unfold runq_move_to_starved. rewrite E1. cbn [mbind option_bind].
  set (rq2 := {| rq1 with ready_count := dec_count (ready_count rq1) |}).
  destruct (push_starved_spec h1 rq2 (a ++ b) s t) as (h2 & rq3 & E2 & Hr2 & F2 & Hc2 & Hi2); [done|done| |].
  { apply links_Some. by rewrite Hl1. }
  exists h2, rq3. split; [done|]. split; [done|]. split; [|split; [by rewrite Hc2; cbn; rewrite Hc1|by rewrite Hi2]].
  transitivity h1; [eapply frame_weaken; [|done]; set_solver|eapply frame_weaken; [|done]; set_solver].
Qed.

Lemma sll_tail L x l : sll L (x :: l) -> sll L l.
Proof. intros H i t Ht. by apply (H (S i) t). Qed.

Lemma list_size_le (h : heap) (s : list Z) :
  NoDup s -> (forall t, t ∈ s -> is_Some (h !! t)) -> (length s <= size h)%nat.
Proof.
  intros Hn Ha. rewrite <- (size_dom (D := gset Z) h), <- (size_list_to_set (C := gset Z) s Hn).
  apply subseteq_size. intros x Hx. apply elem_of_dom, Ha. by apply elem_of_list_to_set in Hx.
Qed.

(** The drain appends the starved tasks to the ready list, in list order. *)
Lemma refill_loop_spec s : forall fuel h rq l n,
  rep h rq l [] -> sll (links h) s -> NoDup (l ++ s) -> (length s <= fuel)%nat -> in_u 32 n ->
  exists h' rq', refill_loop fuel h rq (head s) n = Some (h', rq', u32 (n + Z.of_nat (length s))) /\
    rep h' rq' (l ++ s) [] /\ frame (l ++ s) h h' /\ cpu_id rq' = cpu_id rq /\
    (in_u 32 (ready_count rq) -> ready_count rq' = u32 (ready_count rq + Z.of_nat (length s))).
Proof.
  induction s as [|t s IH]; intros fuel h rq l n Hr Hs Hn Hf Hu.
  { exists h, rq. destruct fuel; cbn; rewrite Z.add_0_r, app_nil_r, wrap_small by done;
      (split; [done|]; split; [done|]; split; [done|]; split; [done|]); intros; by rewrite Z.add_0_r, wrap_small. }
  destruct fuel as [|f]; [cbn in Hf; lia|]. cbn [head refill_loop].
  pose proof (sll_at _ [] t s Hs) as Hlt.
  destruct (links_lookup _ _ _ _ Hlt) as (nd & Hnode & Hnx & _). rewrite Hnode. cbn [mbind option_bind].
  assert (is_Some (links h t)) as Hal by (by rewrite Hlt). pose proof (relinked_refl h) as R0.
  run_store R0; [done|]. rewrite E. cbn [mbind option_bind]. run_store R; [done|]. rewrite E0. cbn [mbind option_bind].
  destruct R1 as [HL HK]. pose proof (NoDup_mid _ _ _ Hn) as (Hn' & Htl & Hts).
  assert (forall x, x <> t -> links h1 x = links h x) as Hfr by (intros x Hx; by rewrite HL, setn_ne, setp_ne).
  assert (rep h1 rq l []) as Hr1.
  { destruct Hr as (H1 & H2 & H3 & H4 & H5 & H6). split; [done|]. split; [|by split].
    eapply dll_ext; [|exact H2]. intros x Hx. apply Hfr. by intros ->. }
  destruct (enqueue_spec h1 rq l [] t Hr1) as (h2 & rq2 & E2 & Hr2 & [K2 F2] & Hc2 & Hi2).
  { by rewrite app_nil_r. }
  { apply links_Some. rewrite HL. by autorewrite with links. }
  rewrite E2. cbn [mbind option_bind]. rewrite Hnx.
  destruct (IH f h2 rq2 (l ++ [t]) (u32 (n + 1)) Hr2) as (h' & rq' & EE & Hr' & [K3 F3] & Hi3 & Hc3).
  { eapply sll_ext; [|by eapply sll_tail]. intros x Hx. rewrite F2, Hfr; [done|by intros ->|].
    apply not_elem_of_app. split; [|by intros ->%list_elem_of_singleton].
    intros H. apply NoDup_app in Hn' as (_ & Hls & _). by apply (Hls x). }
  { by rewrite <- app_assoc. }
  { cbn in Hf. lia. }
  { apply wrap_bound. lia. }
  exists h', rq'. rewrite EE, wrap_add_l by lia. rewrite <- app_assoc in Hr', F3.
  split; [do 3 f_equal; cbn [length]; lia|]. split; [done|]. split; [|split; [congruence|]].
  - split; [by transitivity h1; [|transitivity h2]|]. intros x Hx. rewrite F3 by done.
    rewrite elem_of_app, elem_of_cons in Hx. rewrite F2; [apply Hfr; tauto|].
    rewrite elem_of_app, list_elem_of_singleton. tauto.
  - intros Hc. rewrite Hc3, Hc2 by (rewrite Hc2; apply wrap_bound; lia). rewrite wrap_add_l by lia.
    f_equal. cbn [length]. lia.
Qed.

Lemma refill_spec h rq l s :
  rep h rq l s ->
  exists h' rq', runq_refill_starved h rq = Some (h', rq', u32 (Z.of_nat (length s))) /\
    rep h' rq' (l ++ s) [] /\ frame (l ++ s) h h' /\ cpu_id rq' = cpu_id rq /\
    (in_u 32 (ready_count rq) -> ready_count rq' = u32 (ready_count rq + Z.of_nat (length s))).
Proof.
  intros (H1 & H2 & H3 & H4 & H5 & H6). unfold runq_refill_starved. rewrite H6.
  pose proof H1 as (Hn & _ & Hns)%NoDup_app.
  destruct (refill_loop_spec s (size h) h {| rq with starved_head := None |} l 0) as (h' & rq' & H); try done.
  - split; [by rewrite app_nil_r|]. done.
  - apply list_size_le; [done|]. intros t Ht. apply links_Some. by eapply sll_alloc.
  - exists h', rq'. exact H.
Qed.

(** ** Removal *)
Lemma find_pred_none s : forall fuel h t,
  sll (links h) s -> (length s <= fuel)%nat -> t ∉ tail s -> find_pred fuel h (head s) t = Some None.
Proof.
  induction s as [|x s IH]; intros fuel h t Hs Hf Ht; [by destruct fuel|]. cbn [head tail] in *.
  destruct (links_lookup _ _ _ _ (sll_at _ [] x s Hs)) as (n & Hnode & Hnx & _).
  assert (runq_next n <> Some t) as Hne by (rewrite Hnx; by apply head_not_in).
  destruct fuel as [|f]; cbn [find_pred]; rewrite Hnode; cbn [mbind option_bind];
    rewrite bool_decide_false by done; [cbn in Hf; lia|]. rewrite Hnx.
  apply IH; [by eapply sll_tail|cbn in Hf; lia|]. intros H. apply Ht. destruct s; [done|]. by right.
Qed.

Lemma find_pred_some a : forall fuel h p t b,
  sll (links h) (a ++ p :: t :: b) -> NoDup (a ++ p :: t :: b) -> (length a <= fuel)%nat ->
  find_pred fuel h (head (a ++ p :: t :: b)) t = Some (Some p).
Proof.
  induction a as [|x a IH]; intros fuel h p t b Hs Hn Hf.
  - cbn [app head]. destruct (links_lookup _ _ _ _ (sll_at _ [] p (t :: b) Hs)) as (n & Hnode & Hnx & _).
    destruct fuel; cbn [find_pred]; rewrite Hnode; cbn [mbind option_bind]; by rewrite bool_decide_true.
  - cbn [app head] in *. destruct (links_lookup _ _ _ _ (sll_at _ [] x _ Hs)) as (n & Hnode & Hnx & _).
    apply NoDup_cons in Hn as [Hx Hn]. destruct fuel as [|f]; [cbn in Hf; lia|]. cbn [find_pred].
    rewrite Hnode. cbn [mbind option_bind]. rewrite bool_decide_false.
    + rewrite Hnx. apply IH; [by eapply sll_tail|done|cbn in Hf; lia].
    + rewrite Hnx. destruct a as [|y a]; cbn [app head]; intros [= ->]; cbn [app] in Hn;
        apply NoDup_cons in Hn as [Hn _]; apply Hn; set_solver.
Qed.

Lemma sll_unlink L a c b :
  NoDup (a ++ c :: b) -> sll L (a ++ c :: b) -> sll (setn_opt (last a) (head b) L) (a ++ b).
Proof.
  intros Hn Hd i x Hx. pose proof (NoDup_mid _ _ _ Hn) as (Hn' & _ & _).
  apply NoDup_app in Hn' as (Hna & Hab & Hnb). apply lookup_app_Some in Hx as [Hx|[Hi Hx]].
  - pose proof (lookup_lt_Some _ _ _ Hx) as Hlt.
    pose proof (Hd i x ltac:(by rewrite lookup_app_l by lia)) as HL.
    destruct (decide (last a = Some x)) as [E|E].
    + pose proof (last_only a i x Hna Hx E) as Hi. rewrite E. cbn [setn_opt]. rewrite setn_eq, HL. cbn.
      rewrite lookup_app_r, Hi, Nat.sub_diag by lia. by rewrite head_lookup.
    + rewrite setn_opt_ne, HL by done. do 2 f_equal.
      destruct (decide (S i = length a)) as [H|]; [exfalso; apply E; by rewrite last_lookup, <- H|].
      by rewrite !lookup_app_l by lia.
  - rewrite setn_opt_ne.
    + rewrite (Hd (S i) x); [|rewrite lookup_app_r by lia; by replace (S i - length a)%nat with (S (i - length a)) by lia].
      do 2 f_equal. rewrite !lookup_app_r by lia.
      by replace (S (S i) - length a)%nat with (S (S i - length a)) by lia.
    + apply last_not_in. intros H. apply (Hab x H). by eapply list_elem_of_lookup_2.
Qed.

(** The two final stores of [runq_remove]. *)
Lemma detach_spec h t : is_Some (links h t) ->
  exists h1 h2, store h t (set_next None) = Some h1 /\ store h1 t (set_prev None) = Some h2 /\
    keeps h h2 /\ links h2 t = Some (None, None) /\ forall x, x <> t -> links h2 x = links h x.
Proof.
  intros Hal. destruct (then_next _ _ _ (relinked_refl h) t None Hal) as (h1 & E1 & R1).
  destruct (then_prev _ _ _ R1 t None) as (h2 & E2 & [HL HK]); [by autorewrite with links|].
  exists h1, h2. split; [done|]. split; [done|]. split; [done|]. split.
  - rewrite HL, setp_eq, setn_eq. destruct Hal as [ab Hab]. by rewrite Hab.
  - intros x Hx. by rewrite HL, setp_ne, setn_ne.
Qed.

Lemma rep_links_ext h h' rq l s :
  (forall x, x ∈ l ++ s -> links h' x = links h x) -> rep h rq l s -> rep h' rq l s.
Proof.
  intros Hx (H1 & H2 & H3 & H4). split; [done|]. split; [|split; [|done]].
  - eapply dll_ext; [|exact H2]. intros x ?. apply Hx. apply elem_of_app. by left.
  - eapply sll_ext; [|exact H3]. intros x ?. apply Hx. apply elem_of_app. by right.
Qed.

Lemma remove_ready_spec h rq a t b s :
  rep h rq (a ++ t :: b) s ->
  exists h' rq', runq_remove h rq t = Some (h', rq') /\ rep h' rq' (a ++ b) s /\
    frame (a ++ t :: b) h h' /\ links h' t = Some (None, None) /\
    ready_count rq' = ready_count rq /\ cpu_id rq' = cpu_id rq.
Proof.
  intros Hr. destruct (unlink_rep _ _ _ _ _ _ Hr) as (h1 & rq1 & E1 & Hr1 & [K1 F1] & Hl1 & Hnot & Hc1 & Hi1).
  unfold runq_remove. rewrite E1. cbn [mbind option_bind].
  destruct (links_lookup _ _ _ _ Hl1) as (n & Hnode & _ & _). rewrite Hnode. cbn [mbind option_bind].
  pose proof Hr1 as (Hn1 & _ & Hs1 & _ & _ & Hst1). rewrite Hst1.
  pose proof Hnot as [Hnab Hts]%not_elem_of_app. pose proof Hn1 as (_ & _ & Hns)%NoDup_app.
  rewrite bool_decide_false by (by apply head_not_in).
  rewrite find_pred_none; [|done| |destruct s; [done|]; cbn; set_solver].
  2: { apply list_size_le; [done|]. intros x Hx. apply links_Some. by eapply sll_alloc. }
  cbn [mbind option_bind store_opt].
  destruct (detach_spec h1 t) as (h2 & h3 & E2 & E3 & K3 & L3 & F3); [by rewrite Hl1|].
  rewrite E2. cbn [mbind option_bind]. rewrite E3. cbn [mbind option_bind].
  exists h3, rq1. split; [done|]. split; [|split; [|done]].
  - eapply rep_links_ext; [|exact Hr1]. intros x Hx. apply F3. by intros ->.
  - split; [by transitivity h1|]. intros x Hx. rewrite elem_of_app, elem_of_cons in Hx.
    rewrite F3 by tauto. apply F1. rewrite elem_of_app. tauto.
Qed.

(** A task that is not on the ready list and has a null back link is left alone by
    the ready-list unlink. *)
Lemma unlink_foreign h rq l s t q :
  rep h rq l s -> t ∉ l -> links h t = Some (q, None) ->
  (forall x, q = Some x -> exists y, links h x = Some (y, None)) ->
  exists h', unlink_ready h rq t = Some (h', rq) /\ keeps h h' /\ forall x, links h' x = links h x.
Proof.
  intros (Hn & Hd & Hs & Hh & Ht & Hst) Htl Hlt Hq. unfold unlink_ready.
  destruct (links_lookup _ _ _ _ Hlt) as (n & Hnode & Hnx & Hpv). rewrite Hnode. cbn [mbind option_bind].
  rewrite Hnx, Hpv, Hh. cbn [store_opt mbind option_bind].
  rewrite bool_decide_false by (by apply head_not_in). pose proof (relinked_refl h) as R0.
  run_store R0; [by destruct (Hq t0) as [y ->]|]. rewrite E. cbn [mbind option_bind]. destruct R as [HL HK].
  rewrite Ht. rewrite bool_decide_false by (by apply last_not_in). exists h0. split; [by destruct q|]. split; [done|].
  intros x. rewrite HL. destruct q as [y|]; [|done]. destruct (decide (x = y)) as [->|]; [|by apply setp_ne].
  cbn [setp_opt]. rewrite setp_eq. destruct (Hq y eq_refl) as [z ->]. done.
Qed.

Lemma remove_none_spec h rq l s t :
  rep h rq l s -> t ∉ l ++ s -> links h t = Some (None, None) ->
  exists h', runq_remove h rq t = Some (h', rq) /\ rep h' rq l s /\ frame [] h h'.
Proof.
  intros Hr [Htl Hts]%not_elem_of_app Hlt.
  destruct (unlink_foreign h rq l s t None Hr Htl Hlt) as (h1 & E1 & K1 & F1); [done|].
  unfold runq_remove. rewrite E1. cbn [mbind option_bind]. rewrite <- F1 in Hlt.
  destruct (links_lookup _ _ _ _ Hlt) as (n & Hnode & _ & _). rewrite Hnode. cbn [mbind option_bind].
  assert (rep h1 rq l s) as Hr1 by (eapply rep_links_ext; [|exact Hr]; intros; apply F1).
  pose proof Hr1 as (Hn1 & _ & Hs1 & _ & _ & Hst1). rewrite Hst1. pose proof Hn1 as (_ & _ & Hns)%NoDup_app.
  rewrite bool_decide_false by (by apply head_not_in).
  rewrite find_pred_none; [|done| |destruct s; [done|]; cbn; set_solver].
  2: { apply list_size_le; [done|]. intros x Hx. apply links_Some. by eapply sll_alloc. }
  cbn [mbind option_bind store_opt].
  destruct (detach_spec h1 t) as (h2 & h3 & E2 & E3 & K3 & L3 & F3); [by rewrite Hlt|].
  rewrite E2. cbn [mbind option_bind]. rewrite E3. cbn [mbind option_bind].
  assert (forall x, links h3 x = links h x) as HF.
  { intros x. rewrite <- F1. destruct (decide (x = t)) as [->|]; [by rewrite L3|by apply F3]. }
  exists h3. split; [done|]. split; [eapply rep_links_ext; [|exact Hr]; intros; apply HF|].
  split; [by transitivity h1|]. intros x _. apply HF.
Qed.

Lemma remove_starved_spec h rq l a t b :
  rep h rq l (a ++ t :: b) ->
  exists h' rq', runq_remove h rq t = Some (h', rq') /\ rep h' rq' l (a ++ b) /\
    frame (a ++ t :: b) h h' /\ links h' t = Some (None, None) /\
    ready_count rq' = ready_count rq /\ cpu_id rq' = cpu_id rq.
Proof.
  intros Hr. pose proof Hr as (Hn & Hd & Hs & Hh & Ht & Hst). pose proof Hn as (Hnl & Hls & Hns)%NoDup_app.
  pose proof (NoDup_mid _ _ _ Hns) as (Hns' & Hta & Htb). pose proof (sll_at _ _ _ _ Hs) as Hlt.
  assert (t ∉ l) as Htl by (intros H; apply (Hls t H); apply elem_of_app; right; by left).
  destruct (unlink_foreign h rq l _ t (head b) Hr Htl Hlt) as (h1 & E1 & K1 & F1).
  { intros x (b1 & b2 & ->)%head_in%list_elem_of_split. exists (head b2).
    apply (sll_at (links h) (a ++ t :: b1)). by rewrite <- app_assoc. }
  unfold runq_remove. rewrite E1. cbn [mbind option_bind]. rewrite <- F1 in Hlt.
  destruct (links_lookup _ _ _ _ Hlt) as (n & Hnode & Hnx & _). rewrite Hnode. cbn [mbind option_bind]. rewrite Hnx, Hst.
  assert (sll (links h1) (a ++ t :: b)) as Hs1 by (eapply sll_ext; [|exact Hs]; intros; apply F1).
  assert (exists h2 rq2,
    (if bool_decide (head (a ++ t :: b) = Some t) then Some (h1, {| rq with starved_head := head b |})
     else p ← find_pred (size h1) h1 (head (a ++ t :: b)) t;
          h ← store_opt h1 p (set_next (head b)); Some (h, rq)) = Some (h2, rq2) /\
    relinked h1 h2 (setn_opt (last a) (head b) (links h1)) /\
    rq2 = {| rq with starved_head := head (a ++ b) |}) as (h2 & rq2 & E2 & [HL2 K2] & Hrq2).
  { destruct a as [|p a _] using rev_ind.
    - rewrite bool_decide_true by done. eexists _, _. split; [reflexivity|]. split; [apply relinked_refl|done].
    - rewrite <- !app_assoc in *. cbn [app] in *. rewrite bool_decide_false.
      2: { destruct a; cbn [app head] in *; intros [= ->]; apply Hta; set_solver. }
      rewrite find_pred_some; [|done|done|].
      2: { etrans; [|apply (list_size_le h1 _ Hns)].
           - rewrite length_app. lia.
           - intros x Hx. apply links_Some. by eapply sll_alloc. }
      rewrite last_snoc. cbn [mbind option_bind store_opt setn_opt].
      destruct (then_next _ _ _ (relinked_refl h1) p (head b)) as (h2 & -> & R2); [eapply sll_alloc; [exact Hs1|set_solver]|].
      cbn [mbind option_bind]. exists h2, rq. split; [done|]. split; [done|].
      destruct rq. cbn in Hst |- *. rewrite Hst. by destruct a. }
  rewrite E2. cbn [mbind option_bind].
  destruct (detach_spec h2 t) as (h3 & h4 & E3 & E4 & K4 & L4 & F4).
  { rewrite HL2. autorewrite with links. by rewrite Hlt. }
  rewrite E3. cbn [mbind option_bind]. rewrite E4. cbn [mbind option_bind].
  exists h4, rq2. split; [done|]. subst rq2.
  assert (forall x, x ∉ a ++ t :: b -> links h4 x = links h x) as HF.
  { intros x [Hxa [Hxt Hxb]%not_elem_of_cons]%not_elem_of_app.
    rewrite F4, HL2, setn_opt_ne, F1 by (done || by apply last_not_in). done. }
  split; [|split; [split; [by transitivity h1; [|transitivity h2]|done]|done]].
  split; [apply NoDup_app; split; [done|]; split; [set_solver|done]|]. split; [|split; [|done]].
  - eapply dll_ext; [|exact Hd]. intros x Hx. apply HF. intros H. by apply (Hls x).
  - eapply sll_ext; [|exact (sll_unlink _ _ _ _ Hns Hs1)]. intros x Hx. rewrite F4, HL2; [done|].
    intros ->. rewrite elem_of_app in Hx. tauto.
Qed.

(** ** Refinement: the queue is a FIFO and a stack *)
Record aqueue := Aqueue { a_ready : list Z; a_starved : list Z; a_count : Z }.

Inductive runq_op :=
| OpEnqueue (t : Z) | OpDequeue | OpPushStarved (t : Z) | OpMoveToStarved (t : Z) | OpRefill | OpRemove (t : Z).

Inductive runq_res := RUnit | RTask (t : option Z) | RCount (n : Z).

Definition del (t : Z) (l : list Z) : list Z := filter (fun x => x <> t) l.

(** What each operation means on lists. *)
Definition spec_op (q : aqueue) (op : runq_op) : aqueue * runq_res :=
  let '(Aqueue l s c) := q in
  match op with
  | OpEnqueue t => (Aqueue (l ++ [t]) s (u32 (c + 1)), RUnit)
  | OpDequeue => (Aqueue (tail l) s (if head l is Some _ then dec_count c else c), RTask (head l))
  | OpPushStarved t => (Aqueue l (t :: s) c, RUnit)
  | OpMoveToStarved t => (Aqueue (del t l) (t :: s) (dec_count c), RUnit)
  | OpRefill => (Aqueue (l ++ s) [] (u32 (c + Z.of_nat (length s))), RCount (u32 (Z.of_nat (length s))))
  | OpRemove t => (Aqueue (del t l) (del t s) c, RUnit)
  end.

(** When the callers may use it: a task is queued once. *)
Definition op_allowed (h : heap) (q : aqueue) (op : runq_op) : Prop :=
  match op with
  | OpEnqueue t | OpPushStarved t => is_Some (h !! t) /\ t ∉ a_ready q ++ a_starved q
  | OpMoveToStarved t => t ∈ a_ready q
  | OpRemove t => is_Some (h !! t)
  | OpDequeue | OpRefill => True
  end.

Definition exec_runq (h : heap) (rq : runq) (op : runq_op) : option (heap * runq * runq_res) :=
  match op with
  | OpEnqueue t => '(h, rq) ← runq_enqueue_ready h rq t; Some (h, rq, RUnit)
  | OpDequeue => '(h, rq, r) ← runq_dequeue_ready h rq; Some (h, rq, RTask r)
  | OpPushStarved t => '(h, rq) ← runq_push_starved h rq t; Some (h, rq, RUnit)
  | OpMoveToStarved t => '(h, rq) ← runq_move_to_starved h rq t; Some (h, rq, RUnit)
  | OpRefill => '(h, rq, n) ← runq_refill_starved h rq; Some (h, rq, RCount n)
  | OpRemove t => '(h, rq) ← runq_remove h rq t; Some (h, rq, RUnit)
  end.

(** The queue stands for [q], and tasks on no list have null links. *)
Definition stands (h : heap) (rq : runq) (q : aqueue) : Prop :=
  rep h rq (a_ready q) (a_starved q) /\ ready_count rq = a_count q /\ in_u 32 (a_count q) /\
  forall t, is_Some (h !! t) -> t ∉ a_ready q ++ a_starved q -> links h t = Some (None, None).

Lemma del_none t l : t ∉ l -> del t l = l.
Proof.
  unfold del. induction l as [|x l IH]; [done|]. intros [Hx Hl]%not_elem_of_cons.
  rewrite filter_cons_True by congruence. by rewrite IH.
Qed.
Lemma del_mid a t b : NoDup (a ++ t :: b) -> del t (a ++ t :: b) = a ++ b.
Proof.
  intros (Hn & Ha & Hb)%NoDup_mid. unfold del. rewrite filter_app, filter_cons_False by tauto.
  fold (del t a) (del t b). by rewrite !del_none.
Qed.

Lemma dec_count_u32 c : in_u 32 c -> in_u 32 (dec_count c).
Proof. unfold in_u, dec_count. destruct (c >? 0) eqn:E; lia. Qed.

(** Tasks on no list stay detached. *)
Lemma detached_step h h' d (old new : list Z) :
  frame d h h' -> (forall x, x ∈ d -> x ∈ old \/ x ∈ new) ->
  (forall x, x ∈ old -> x ∉ new -> links h' x = Some (None, None)) ->
  (forall t, is_Some (h !! t) -> t ∉ old -> links h t = Some (None, None)) ->
  forall t, is_Some (h' !! t) -> t ∉ new -> links h' t = Some (None, None).
Proof.
  intros [HK HF] Hd Hold Hdet t Ht Hn. destruct (decide (t ∈ old)) as [Ho|Ho]; [by apply Hold|].
  rewrite HF by (intros H%Hd; tauto). apply Hdet; [|done].
  destruct Ht as [n Hn']. specialize (HK t). rewrite Hn' in HK. by destruct (h !! t).
Qed.

Lemma exec_runq_refines h rq q op :
  stands h rq q -> op_allowed h q op ->
  exists h' rq', exec_runq h rq op = Some (h', rq', snd (spec_op q op)) /\
    stands h' rq' (fst (spec_op q op)) /\ keeps h h'.
Proof.
  destruct q as [l s c]. intros (Hr & Hc & Hu & Hdet) Hok. cbn [a_ready a_starved a_count] in *.
  assert (forall x, in_u 32 (u32 x)) as Hwr by (intros; apply wrap_bound; lia). subst c.
  pose proof (dec_count_u32 _ Hu) as Hdc.
  destruct op as [t| |t|t| |t]; cbn [exec_runq spec_op fst snd op_allowed a_ready a_starved] in *.
  - destruct Hok as [Ha Hn]. destruct (enqueue_spec h rq l s t Hr Hn Ha) as (h' & rq' & -> & Hr' & HF & Hc' & _).
    exists h', rq'. split; [done|]. split; [|apply HF]. split; [done|]. split; [done|]. split; [apply Hwr|].
    eapply (detached_step h h' _ (l ++ s)); [exact HF| | |done]; cbn; set_solver.
  - destruct (dequeue_spec h rq l s Hr) as (h' & rq' & -> & Hr' & HF & _ & Hc' & Hd').
    exists h', rq'. split; [done|]. split; [|apply HF]. split; [done|]. split; [done|].
    split; [by destruct l|]. eapply (detached_step h h' _ (l ++ s)); [exact HF|set_solver| |done].
    intros x Hx Hnx. destruct l as [|y l]; [set_solver|]. apply Hd'. cbn in *. f_equal. set_solver.
  - destruct Hok as [Ha Hn]. destruct (push_starved_spec h rq l s t Hr Hn Ha) as (h' & rq' & -> & Hr' & HF & Hc' & _).
    exists h', rq'. split; [done|]. split; [|apply HF]. split; [done|]. split; [done|]. split; [done|].
    eapply (detached_step h h' _ (l ++ s)); [exact HF| | |done]; cbn; set_solver.
  - apply list_elem_of_split in Hok as (a & b & ->).
    destruct (move_to_starved_spec h rq a t b s Hr) as (h' & rq' & -> & Hr' & HF & Hc' & _).
    rewrite del_mid by (by destruct Hr as [(? & _ & _)%NoDup_app _]).
    exists h', rq'. split; [done|]. split; [|apply HF]. split; [done|]. split; [done|]. split; [done|].
    eapply (detached_step h h' _ ((a ++ t :: b) ++ s)); [exact HF| | |done]; cbn; set_solver.
  - destruct (refill_spec h rq l s Hr) as (h' & rq' & -> & Hr' & HF & _ & Hc').
    exists h', rq'. split; [done|]. split; [|apply HF]. split; [done|]. split; [by apply Hc'|]. split; [apply Hwr|].
    eapply (detached_step h h' _ (l ++ s)); [exact HF| | |done]; cbn; set_solver.
  - pose proof (proj1 Hr) as (Hnl & Hls & Hns)%NoDup_app. destruct (decide (t ∈ l)) as [Hin|Hnl'].
    { pose proof (Hls t Hin) as Hts. apply list_elem_of_split in Hin as (a & b & ->).
      destruct (remove_ready_spec h rq a t b s Hr) as (h' & rq' & -> & Hr' & HF & Hd' & Hc' & _).
      rewrite del_mid, del_none by done. exists h', rq'. split; [done|]. split; [|apply HF].
      split; [done|]. split; [done|]. split; [done|].
      eapply (detached_step h h' _ ((a ++ t :: b) ++ s)); [exact HF|set_solver| |done].
      intros x Hx Hnx. cbn in Hnx. assert (x = t) as -> by set_solver. done. }
    rewrite (del_none t l) by done. destruct (decide (t ∈ s)) as [Hin|Hns'].
    { apply list_elem_of_split in Hin as (a & b & ->).
      destruct (remove_starved_spec h rq l a t b Hr) as (h' & rq' & -> & Hr' & HF & Hd' & Hc' & _).
      rewrite del_mid by done. exists h', rq'. split; [done|]. split; [|apply HF].
      split; [done|]. split; [done|]. split; [done|].
      eapply (detached_step h h' _ (l ++ a ++ t :: b)); [exact HF|set_solver| |done].
      intros x Hx Hnx. cbn in Hnx. assert (x = t) as -> by set_solver. done. }
    assert (t ∉ l ++ s) as Hnot by (by rewrite not_elem_of_app).
    destruct (remove_none_spec h rq l s t Hr Hnot (Hdet t Hok Hnot)) as (h' & -> & Hr' & HF).
    rewrite del_none by done. exists h', rq. split; [done|]. split; [|apply HF]. split; [done|]. split; [done|]. split; [done|].
    eapply (detached_step h h' _ (l ++ s)); [exact HF| | |done]; cbn; set_solver.
Qed.

Fixpoint run_ops (h : heap) (rq : runq) (ops : list runq_op) : option (heap * runq * list runq_res) :=
  match ops with
  | [] => Some (h, rq, [])
  | op :: ops' =>
      '(h, rq, r) ← exec_runq h rq op;
      '(h, rq, rs) ← run_ops h rq ops';
      Some (h, rq, r :: rs)
  end.

Fixpoint spec_ops (q : aqueue) (ops : list runq_op) : aqueue * list runq_res :=
  match ops with
  | [] => (q, [])
  | op :: ops' => let '(q1, r) := spec_op q op in let '(q2, rs) := spec_ops q1 ops' in (q2, r :: rs)
  end.

Fixpoint ops_allowed (h : heap) (q : aqueue) (ops : list runq_op) : Prop :=
  match ops with
  | [] => True
  | op :: ops' => op_allowed h q op /\ ops_allowed h (fst (spec_op q op)) ops'
  end.

Definition empty_queue : aqueue := Aqueue [] [] 0.
Definition all_detached (h : heap) : Prop := forall t, is_Some (h !! t) -> links h t = Some (None, None).

Lemma ops_allowed_keeps ops : forall h h' q, keeps h h' -> ops_allowed h q ops -> ops_allowed h' q ops.
Proof.
  induction ops as [|op ops IH]; intros h h' q HK; cbn; [done|]. intros [H1 H2]. split; [|by eapply IH].
  destruct op; cbn in *; try done; [destruct H1; split; [by eapply keeps_is_Some|done]..|by eapply keeps_is_Some].
Qed.

Lemma run_ops_refines ops : forall h rq q,
  stands h rq q -> ops_allowed h q ops ->
  exists h' rq', run_ops h rq ops = Some (h', rq', snd (spec_ops q ops)) /\
    stands h' rq' (fst (spec_ops q ops)) /\ keeps h h'.
Proof.
  induction ops as [|op ops IH]; intros h rq q Hs Hok.
  { exists h, rq. split; [done|]. split; [done|reflexivity]. }
  destruct Hok as [Hok Hrest]. cbn [run_ops spec_ops].
  destruct (exec_runq_refines h rq q op Hs Hok) as (h1 & rq1 & -> & Hs1 & K1).
  destruct (spec_op q op) as [q1 r]. cbn [fst snd mbind option_bind] in *.
  destruct (IH h1 rq1 q1 Hs1) as (h2 & rq2 & -> & Hs2 & K2); [by eapply ops_allowed_keeps|].
  destruct (spec_ops q1 ops) as [q2 rs]. exists h2, rq2. split; [done|]. split; [done|by transitivity h1].
Qed.

(** Without [OpRemove] the count is the length of the ready list. *)
Definition counts (q : aqueue) : Prop := a_count q = u32 (Z.of_nat (length (a_ready q))).
Definition no_remove (op : runq_op) : Prop := match op with OpRemove _ => False | _ => True end.

Lemma length_del t l : NoDup l -> t ∈ l -> length l = S (length (del t l)).
Proof.
  intros Hn (a & b & ->)%list_elem_of_split. rewrite del_mid by done. rewrite !length_app. cbn. lia.
Qed.

Lemma spec_op_counts h q op :
  NoDup (a_ready q) -> op_allowed h q op -> no_remove op -> Z.of_nat (length (a_ready q)) < 2 ^ 32 ->
  counts q -> counts (fst (spec_op q op)).
Proof.
  destruct q as [l s c]. unfold counts. cbn [a_ready a_count]. intros Hn Hok Hnr Hl ->.
  rewrite (wrap_small 32 (Z.of_nat (length l))) in * by (unfold in_u; lia).
  destruct op as [t| |t|t| |t]; cbn [spec_op fst a_ready a_count op_allowed] in *; try done.
  - rewrite length_app. cbn [length]. f_equal. lia.
  - destruct l as [|x l]; [done|]. cbn [head tail length] in *. unfold dec_count.
    destruct (Z.of_nat (S (length l)) >? 0) eqn:E; [|lia]. rewrite wrap_small by (unfold in_u; lia). lia.
  - by rewrite wrap_small by (unfold in_u; lia).
  - pose proof (length_del t l Hn Hok). unfold dec_count.
    destruct (Z.of_nat (length l) >? 0) eqn:E; [|lia]. rewrite wrap_small by (unfold in_u; lia). lia.
  - rewrite length_app. f_equal. lia.
Qed.

Lemma stands_length h rq q : stands h rq q -> (length (a_ready q) <= size h)%nat.
Proof.
  intros ((Hn & Hd & _) & _). apply NoDup_app in Hn as (Hn & _ & _).
  apply list_size_le; [done|]. intros t Ht. apply links_Some. by eapply dll_alloc.
Qed.

Lemma spec_ops_counts ops : forall h rq q,
  stands h rq q -> ops_allowed h q ops -> Forall no_remove ops -> Z.of_nat (size h) < 2 ^ 32 ->
  counts q -> counts (fst (spec_ops q ops)).
Proof.
  induction ops as [|op ops IH]; intros h rq q Hs Hok Hnr Hsz Hc; [done|].
  destruct Hok as [Hok Hrest]. apply Forall_cons in Hnr as [Hn1 Hnr].
  pose proof (stands_length _ _ _ Hs) as Hl. pose proof (proj1 Hs) as ((Hnd & _ & _)%NoDup_app & _).
  destruct (exec_runq_refines h rq q op Hs Hok) as (h1 & rq1 & _ & Hs1 & K1).
  pose proof (spec_op_counts h q op Hnd Hok Hn1 ltac:(lia) Hc) as Hc1. cbn [spec_ops].
  destruct (spec_op q op) as [q1 r]. cbn [fst] in *.
  pose proof (IH h1 rq1 q1 Hs1) as H. destruct (spec_ops q1 ops) as [q2 rs]. cbn [fst] in *.
  apply H; [by eapply ops_allowed_keeps|done|by rewrite (keeps_size h h1)|done].
Qed.

(** C22: the run queue implements a FIFO and a stack.  For every sequence of queue
    operations whose callers queue a task at most once, starting from
    [runq_init], the pointer code touches only tasks of the heap, its drain and
    search loops terminate, and it returns the results of the list
    specification: enqueue appends, dequeue pops the head, a starved task is
    pushed on the stack, the epoch refill appends the stack to the ready list.
    Unless [runq_remove] was used, [ready_count] is the length of the ready list. *)
Theorem runq_refines (h : heap) (cpu : Z) (ops : list runq_op) :
  all_detached h -> Z.of_nat (size h) < 2 ^ 32 -> ops_allowed h empty_queue ops ->
  exists h' rq',
    run_ops h (runq_init cpu) ops = Some (h', rq', snd (spec_ops empty_queue ops)) /\
    rep h' rq' (a_ready (fst (spec_ops empty_queue ops))) (a_starved (fst (spec_ops empty_queue ops))) /\
    (Forall no_remove ops ->
     ready_count rq' = u32 (Z.of_nat (length (a_ready (fst (spec_ops empty_queue ops)))))).
Proof.
  intros Hd Hsz Hok. assert (stands h (runq_init cpu) empty_queue) as Hs.
  { split; [|split; [done|split; [done|]]].
    - split; [constructor|]. split; [by intros i t|]. split; [by intros i t|]. done.
    - intros t Ht _. by apply Hd. }
  destruct (run_ops_refines ops _ _ _ Hs Hok) as (h' & rq' & E & Hs' & _). exists h', rq'. split; [done|].
  destruct Hs' as (Hr & Hc & _). split; [done|]. intros Hnr. rewrite Hc.
  by apply (spec_ops_counts ops h (runq_init cpu)).
Qed.

Definition demo_heap : heap :=
  list_to_map ((fun t => (t, Task None None TASK_STATE_RUNNING (-1))) <$> [1; 2; 3]).
Definition demo_runq_ops : list runq_op :=
  [OpEnqueue 1; OpEnqueue 2; OpPushStarved 3; OpMoveToStarved 1; OpRefill; OpDequeue; OpDequeue].

Lemma runq_refines_witness :
  exists h' rq', run_ops demo_heap (runq_init 0) demo_runq_ops =
    Some (h', rq', [RUnit; RUnit; RUnit; RUnit; RCount 2; RTask (Some 2); RTask (Some 1)]) /\
    ready_count rq' = 1.
Proof.
  destruct (runq_refines demo_heap 0 demo_runq_ops) as (h' & rq' & H1 & _ & H2).
  - intros t [n Hn]. apply (elem_of_list_to_map_2 (M := gmap Z)) in Hn as Hin.
    apply list_elem_of_fmap in Hin as (y & [= -> ->] & _). unfold links. by rewrite Hn.
  - vm_compute. reflexivity.
  - cbn. split_and!; try done; try (by eexists); set_solver.
  - exists h', rq'. split; [rewrite H1; vm_compute; reflexivity|]. rewrite H2 by (repeat constructor).
    vm_compute. reflexivity.
Defined.

(** ** Work stealing *)
Definition apart (l s k u : list Z) : Prop := NoDup ((l ++ s) ++ (k ++ u)).

Lemma apart_move a c b s k u :
  apart (a ++ c :: b) s k u -> apart (a ++ b) s (c :: k) u.
Proof.
  unfold apart. intros H. eapply NoDup_Permutation_proper; [|exact H].
  rewrite <- !app_assoc. cbn. by rewrite <- !Permutation_middle.
Qed.

(** The ends of the victim's list after the unconditional unlink. *)
Lemma unlink_ends (a b : list Z) c :
  (if last a is Some _ then head (a ++ c :: b) else head b) = head (a ++ b) /\
  (if head b is Some _ then last (a ++ c :: b) else last a) = last (a ++ b).
Proof.
  destruct a as [|x a _] using rev_ind; destruct b as [|y b]; rewrite ?last_snoc, ?app_nil_r; cbn.
  - done.
  - done.
  - rewrite last_snoc. by destruct a.
  - rewrite !last_app. cbn. destruct a; cbn; by destruct (last b).
Qed.

Lemma steal_one_spec h victim thief a c b s k u :
  rep h victim (a ++ c :: b) s -> rep h thief k u -> apart (a ++ c :: b) s k u ->
  exists n h' victim' thief', h !! c = Some n /\ runq_prev n = last a /\
    steal_one h victim thief c n = Some (h', victim', thief') /\
    rep h' victim' (a ++ b) s /\ rep h' thief' (c :: k) u /\ keeps h h' /\
    ready_count victim' = dec_count (ready_count victim) /\ cpu_id thief' = cpu_id thief /\
    frame ((a ++ c :: b) ++ k) h h'.
Proof.
  intros Hv Ht Hap. pose proof Hv as (Hn & Hd & Hs & Hvh & Hvt & Hvs).
  pose proof Ht as (Hnk & Hdk & Hsu & Hth & Htt & Hts).
  pose proof (dll_at _ _ _ _ Hd) as Hlc. destruct (links_lookup _ _ _ _ Hlc) as (n & Hnode & Hnx & Hpv).
  exists n. unfold steal_one. rewrite Hnx, Hpv, Hth.
  assert (is_Some (links h c)) as Hal by (by rewrite Hlc). pose proof (relinked_refl h) as R0.
  run_all R0; [eapply dll_alloc; [exact Hd|]; apply elem_of_app; left; by apply last_in
    |eapply dll_alloc; [exact Hd|]; apply elem_of_app; right; right; by apply head_in
    |eapply dll_alloc; [exact Hdk|]; by apply head_in|].
  match goal with R : relinked _ _ _ |- _ => destruct R as [HL HK] end.
  apply NoDup_app in Hap as (_ & Hvk & _). pose proof Hn as (Hnv & Hvs' & _)%NoDup_app.
  pose proof (NoDup_mid _ _ _ Hnv) as (Hnab & Hca & Hcb). pose proof Hnk as (Hnk' & Hku & _)%NoDup_app.
  assert (forall x, x ∈ a ++ c :: b -> x ∉ k) as Hvk1 by set_solver.
  set (L1 := setp_opt (head b) (last a) (setn_opt (last a) (head b) (links h))) in *.
  assert (forall x, x ∉ a ++ b -> L1 x = links h x) as HL1.
  { intros x [? ?]%not_elem_of_app. unfold L1. by rewrite setp_opt_ne, setn_opt_ne by (by apply last_not_in || apply head_not_in). }
  match type of HL with forall x, links ?h' _ = _ => assert (forall x, x <> c -> x ∉ k -> links h' x = L1 x) as HF end.
  { intros x Hxc Hxk. rewrite HL, setp_opt_ne, setn_ne, setp_ne by (done || by apply head_not_in). done. }
  eexists _, _, _. split; [done|]. split; [done|]. split; [reflexivity|]. split; [|split; [|split; [done|split; [|split]]]].
  - split; [rewrite <- app_assoc in Hn; apply NoDup_mid in Hn as [Hn _]; by rewrite <- app_assoc|].
    split; [|split]; [| |].
    + eapply dll_ext; [|apply (dll_unlink _ a c b Hnv Hd)]. intros x Hx. apply HF; [by intros ->; set_solver|set_solver].
    + eapply sll_ext; [|exact Hs]. intros x Hx. rewrite HF, HL1; [done|set_solver|set_solver|set_solver].
    + pose proof (unlink_ends a b c) as [E1 E2]. rewrite <- E1, <- E2, <- Hvh, <- Hvt, <- Hvs.
      destruct victim. cbn. by destruct (last a), (head b).
  - split; [cbn; apply NoDup_cons; split; [set_solver|done]|]. split; [|split].
    + eapply dll_ext; [intros x _; apply HL|]. apply dll_prepend; [done| | |by rewrite HL1 by set_solver].
      * eapply dll_ext; [|exact Hdk]. intros x Hx. apply HL1. set_solver.
      * set_solver.
    + eapply sll_ext; [|exact Hsu]. intros x Hx. rewrite HF, HL1; [done| | |]; set_solver.
    + destruct thief. cbn in Htt, Hts |- *. destruct k as [|y k]; [done|]. rewrite last_cons_cons. done.
  - destruct victim. cbn. by destruct (last a), (head b).
  - by destruct thief, (head k).
  - split; [done|]. intros x Hx. rewrite elem_of_app in Hx. rewrite HF, HL1; [done| | |]; set_solver.
Qed.

Definition may_steal (h : heap) (cpu t : Z) : bool :=
  match h !! t with Some n => stealable cpu n | None => false end.

Lemma may_steal_keeps h h' cpu t : keeps h h' -> may_steal h' cpu t = may_steal h cpu t.
Proof.
  intros K. specialize (K t). unfold may_steal, stealable.
  destruct (h' !! t), (h !! t); try done. by injection K as ->.
Qed.

(** The scan from the tail: [rl] is the reversed list; kept and stolen tasks, in
    scan order. *)
Fixpoint steal_spec (can : Z -> bool) (m : nat) (rl : list Z) : list Z * list Z :=
  match rl, m with
  | [], _ => ([], [])
  | _, O => (rl, [])
  | c :: rl', S m' =>
      if can c then let '(k, st) := steal_spec can m' rl' in (k, c :: st)
      else let '(k, st) := steal_spec can m rl' in (c :: k, st)
  end.

Lemma steal_spec_facts can rl : forall m,
  let '(k, st) := steal_spec can m rl in
  k ++ st ≡ₚ rl /\ Forall (fun t => can t = true) st /\ (length st <= m)%nat /\ k `sublist_of` rl /\
  forall t, t ∈ rl -> can t = false -> t ∈ k.
Proof.
  induction rl as [|c rl IH]; intros m; [destruct m; cbn; (split; [done|]); (split; [constructor|]); (split; [lia|]); done|].
  destruct m as [|m]; cbn [steal_spec].
  { rewrite app_nil_r. split; [done|]. split; [constructor|]. split; [done|]. split; [done|]. done. }
  destruct (can c) eqn:E.
  - specialize (IH m). destruct (steal_spec can m rl) as [k st]. destruct IH as (H1 & H2 & H3 & H4 & H5).
    split; [by rewrite <- Permutation_middle, H1|]. split; [by constructor|]. split; [cbn; lia|].
    split; [by apply sublist_cons|]. intros t [->|Ht]%elem_of_cons Hc; [congruence|by apply H5].
  - specialize (IH (S m)). destruct (steal_spec can (S m) rl) as [k st]. destruct IH as (H1 & H2 & H3 & H4 & H5).
    split; [cbn; by rewrite H1|]. split; [done|]. split; [done|]. split; [by apply sublist_skip|].
    intros t [->|Ht]%elem_of_cons Hc; [by left|right; by apply H5].
Qed.

Lemma sublist_reversed (k l : list Z) : k `sublist_of` l -> reverse k `sublist_of` reverse l.
Proof.
  induction 1; rewrite ?reverse_cons; [done|by apply sublist_app|by apply sublist_inserts_r].
Qed.

Lemma head_reverse (l : list Z) : head (reverse l) = last l.
Proof. destruct l as [|x l _] using rev_ind; [done|]. by rewrite reverse_snoc, last_snoc. Qed.

Lemma splice_loop_spec rl : forall fuel h victim thief b s k u n stolen,
  rep h victim (reverse rl ++ b) s -> rep h thief k u -> apart (reverse rl ++ b) s k u ->
  (length rl <= fuel)%nat -> 0 <= stolen <= n ->
  let '(kept, st) := steal_spec (may_steal h (swrap 32 (cpu_id thief))) (Z.to_nat (n - stolen)) rl in
  exists h' victim' thief',
    splice_loop fuel h victim thief (head rl) n stolen =
      Some (h', victim', thief', stolen + Z.of_nat (length st)) /\
    rep h' victim' (reverse kept ++ b) s /\ rep h' thief' (reverse st ++ k) u /\ keeps h h'.
Proof.
  induction rl as [|c rl IH]; intros fuel h victim thief b s k u n stolen Hv Ht Hap Hf Hn.
  { cbn. exists h, victim, thief. rewrite Z.add_0_r. split; [by destruct fuel|]. by split; [|split]. }
  destruct fuel as [|f]; [cbn in Hf; lia|]. cbn [head splice_loop].
  destruct (Z.ltb_spec stolen n) as [Hlt|Hge]; cbn [negb].
  2: { replace (Z.to_nat (n - stolen)) with O by lia. cbn [steal_spec]. exists h, victim, thief.
       rewrite Z.add_0_r. split; [done|]. by split; [|split]. }
  replace (Z.to_nat (n - stolen)) with (S (Z.to_nat (n - (stolen + 1)))) by lia. cbn [steal_spec].
  rewrite reverse_cons in Hv, Hap. rewrite <- app_assoc in Hv, Hap. cbn [app] in Hv, Hap.
  destruct (steal_one_spec _ _ _ _ _ _ _ _ _ Hv Ht Hap)
    as (nd & h1 & v1 & t1 & Hnode & Hpv & E1 & Hv1 & Ht1 & K1 & _ & Hid & _).
  rewrite Hnode. cbn [mbind option_bind]. rewrite Hpv, <- head_reverse, reverse_involutive.
  assert (may_steal h (swrap 32 (cpu_id thief)) c = stealable (swrap 32 (cpu_id thief)) nd) as ->
    by (unfold may_steal; by rewrite Hnode).
  destruct (stealable (swrap 32 (cpu_id thief)) nd); cbn [negb].
  - rewrite E1. cbn [mbind option_bind].
    pose proof (IH f h1 v1 t1 b s (c :: k) u n (stolen + 1) Hv1 Ht1) as H.
    rewrite Hid in H.
    assert (steal_spec (may_steal h1 (swrap 32 (cpu_id thief))) (Z.to_nat (n - (stolen + 1))) rl =
            steal_spec (may_steal h (swrap 32 (cpu_id thief))) (Z.to_nat (n - (stolen + 1))) rl) as Es.
    { generalize (Z.to_nat (n - (stolen + 1))). clear -K1. induction rl as [|x rl IHr]; intros [|m]; cbn [steal_spec]; try done.
      rewrite (may_steal_keeps h h1) by done. by rewrite !IHr. }
    rewrite Es in H. destruct (steal_spec _ _ rl) as [kept st].
    destruct H as (h' & v' & t' & E & Hv' & Ht' & K'); [by apply apart_move|cbn in Hf; lia|lia|].
    exists h', v', t'. cbn [length]. rewrite reverse_cons. rewrite <- app_assoc. split; [rewrite E; do 2 f_equal; lia|].
    split; [done|]. split; [done|by transitivity h1].
  - pose proof (IH f h victim thief (c :: b) s k u n stolen Hv Ht Hap) as H.
    replace (Z.to_nat (n - stolen)) with (S (Z.to_nat (n - (stolen + 1)))) in H by lia.
    destruct (steal_spec _ _ rl) as [kept st]. destruct H as (h' & v' & t' & E & Hv' & Ht' & K'); [cbn in Hf; lia|lia|].
    exists h', v', t'. rewrite reverse_cons, <- app_assoc. split; [exact E|]. by split; [|split].
Qed.

(** Work stealing neither loses nor duplicates a task.  When a thief takes
    from the tail of a victim's queue, both remain well-formed queues; the stolen
    tasks are at most the number asked for, each of them may run on the thief's
    CPU, every task pinned elsewhere stays with the victim, the victim keeps its
    order, and the thief's new list is the stolen tasks followed by its own. *)
Theorem work_steal_conserves (h : heap) (victim thief : runq) (l s k u : list Z) (n : Z) :
  rep h victim l s -> rep h thief k u -> apart l s k u -> 0 < n -> ready_count victim <> 0 ->
  exists h' victim' thief' kept st,
    splice_tail_to_thief h victim thief n = Some (h', victim', thief', Z.of_nat (length st)) /\
    rep h' victim' kept s /\ rep h' thief' (st ++ k) u /\ kept ++ st ≡ₚ l /\ kept `sublist_of` l /\
    Z.of_nat (length st) <= n /\
    Forall (fun t => may_steal h (swrap 32 (cpu_id thief)) t = true) st /\
    (forall t, t ∈ l -> may_steal h (swrap 32 (cpu_id thief)) t = false -> t ∈ kept).
Proof.
  intros Hv Ht Hap Hn Hc. unfold splice_tail_to_thief.
  destruct (Z.eqb_spec n 0); [lia|]. destruct (Z.eqb_spec (ready_count victim) 0); [done|]. cbn [orb].
  pose proof Hv as ((Hnl & _ & _)%NoDup_app & Hd & _ & _ & Htail & _). rewrite Htail, <- head_reverse.
  pose proof (steal_spec_facts (may_steal h (swrap 32 (cpu_id thief))) (reverse l) (Z.to_nat (n - 0))) as Hfacts.
  pose proof (splice_loop_spec (reverse l) (size h) h victim thief [] s k u n 0) as H.
  rewrite reverse_involutive, app_nil_r in H. specialize (H Hv Ht Hap).
  destruct (steal_spec _ _ _) as [kept st]. destruct Hfacts as (H1 & H2 & H3 & H4 & H5).
  destruct H as (h' & v' & t' & E & Hv' & Ht' & K').
  { rewrite length_reverse. apply list_size_le; [done|]. intros t Hin. apply links_Some. by eapply dll_alloc. }
  { lia. }
  exists h', v', t', (reverse kept), (reverse st). rewrite app_nil_r in Hv'. rewrite E, length_reverse.
  split; [done|]. split; [done|]. split; [done|].
  split; [by rewrite !reverse_Permutation, H1, reverse_Permutation|].
  split; [apply sublist_reversed in H4; by rewrite reverse_involutive in H4|].
  split; [lia|]. split; [by apply Forall_reverse|].
  intros t Hin Hp. apply elem_of_reverse, H5; [by apply elem_of_reverse|done].
Qed.

Definition demo_two : heap :=
  <[1 := Task (Some 2) None TASK_STATE_READY (-1)]> (<[2 := Task (Some 3) (Some 1) TASK_STATE_READY 0]>
  (<[3 := Task None (Some 2) TASK_STATE_READY (-1)]> ∅)).
Definition demo_victim : runq := Runq RUNQ_MAGIC 0 (Some 1) (Some 3) 3 None None 0 0 0 0 None.

Lemma work_steal_conserves_witness :
  exists h' victim' thief',
    splice_tail_to_thief demo_two demo_victim (runq_init 1) 1 = Some (h', victim', thief', 1) /\
    ready_head thief' = Some 3 /\ ready_tail victim' = Some 2.
Proof.
  destruct (work_steal_conserves demo_two demo_victim (runq_init 1) [1; 2; 3] [] [] [] 1)
    as (h' & v' & t' & kept & st & H & _).
  - split; [apply (bool_decide_unpack _); vm_compute; exact I|].
    split; [|split; [by intros i t|done]].
    intros [|[|[|i]]] t Ht; try discriminate; injection Ht as <-; reflexivity.
  - split; [constructor|]. split; [by intros i t|]. split; [by intros i t|done].
  - apply (bool_decide_unpack _). vm_compute. exact I.
  - reflexivity.
  - discriminate.
  - vm_compute in H. injection H as <- <- <- _. eexists _, _, _. split; [vm_compute; reflexivity|done].
Defined.
