(* ===== verification/Rlimit.v ===== *)
(** * Resource limits (kernel/resource/rlimit.c and the token gate of
    kernel/io/submit.c)

    Memory quota, CPU budget with its epoch, and the I/O token bucket with the
    queue of deferred jobs.  The theorems: for requests shorter than 2^63 bytes the
    bucket never goes negative and admits at most its capacity plus what the ticks
    refill, and longer ones defeat it; the memory count stays
    within the limit; a task whose budget is spent is starved until the epoch; and
    a job larger than the bucket is never dispatched. *)
From S2P Require Import Prelude Runq.
Local Open Scope Z_scope.

Definition RLIMIT_RES_MEM : Z := 1.
Abbreviation RLIMIT_RES_CPU := 2.
Definition RLIMIT_RES_IO : Z := 3.
Definition RLIMIT_EPOCH_NS : Z := 1000000000.
Definition RLIMIT_IO_REFILL_DIVISOR : Z := 100.
Definition RLIMIT_EAGAIN_INTERNAL : Z := -900.

(** The accounting fields of [task_t]; a pending job is its length. *)
Record rtask := Rtask {
  mem_limit_pages : Z; mem_pages_used : Z;
  cpu_time_slice_budget_ns : Z; cpu_budget_remaining_ns : Z;
  io_rate_bytes_per_sec : Z; io_tokens : Z; io_pending : list Z;
  task_pinned : Z; last_ran_cpu : Z; last_ran_tsc : Z; last_starvation_epoch : Z;
  syscall_rate_limit_per_sec : Z; syscall_rate_hard_mode : Z; syscall_count_sampled : Z;
  last_rate_refill_tsc : Z; syscall_rate_exceeded_count : Z
}.

Definition rlimit_init_defaults (parent : option rtask) : rtask :=
  match parent with
  | Some p =>
      Rtask (mem_limit_pages p) 0 (cpu_time_slice_budget_ns p) (swrap 64 (cpu_time_slice_budget_ns p))
            (io_rate_bytes_per_sec p) (swrap 64 (io_rate_bytes_per_sec p)) []
            (-1) 0xFFFFFFFF 0 0
            (syscall_rate_limit_per_sec p) (syscall_rate_hard_mode p) 0 0 0
  | None => Rtask 0 0 0 0 0 0 [] (-1) 0xFFFFFFFF 0 0 0 0 0 0 0
  end.

Definition rlimit_check_mem (t : rtask) (npages : Z) : rtask * Z :=
  if mem_limit_pages t =? 0 then (t, 0) else
  let used := mem_pages_used t in
  if u64 (used + npages) >? mem_limit_pages t then (t, -12)
  else ({| t with mem_pages_used := u64 (used + npages) |}, 0).

Definition rlimit_account_free_mem (t : rtask) (npages : Z) : rtask :=
  if mem_pages_used t >=? npages then {| t with mem_pages_used := mem_pages_used t - npages |}
  else {| t with mem_pages_used := 0 |}.

Definition rlimit_consume_cpu (t : rtask) (ns : Z) : rtask * Z :=
  if cpu_time_slice_budget_ns t =? 0 then (t, 1) else
  let clamped := if ns >? RLIMIT_EPOCH_NS then RLIMIT_EPOCH_NS else ns in
  let t := {| t with cpu_budget_remaining_ns := swrap 64 (cpu_budget_remaining_ns t - clamped) |} in
  (t, cpu_budget_remaining_ns t).

Definition rlimit_check_io (t : rtask) (bytes : Z) : rtask * Z :=
  if io_rate_bytes_per_sec t =? 0 then (t, 0) else
  if io_tokens t >=? swrap 64 bytes
  then ({| t with io_tokens := swrap 64 (io_tokens t - swrap 64 bytes) |}, 0)
  else (t, RLIMIT_EAGAIN_INTERNAL).

(** The drain loop: the task and the jobs handed to the worker, in order. *)
Fixpoint drain (tokens : Z) (pending : list Z) : Z * list Z * list Z :=
  match pending with
  | [] => (tokens, [], [])
  | len :: rest =>
      if tokens <? swrap 64 len then (tokens, pending, [])
      else
        let '(tok, pend, shipped) := drain (swrap 64 (tokens - swrap 64 len)) rest in
        (tok, pend, len :: shipped)
  end.

Definition refill_amount (rate : Z) : Z :=
  let refill := swrap 64 (rate / RLIMIT_IO_REFILL_DIVISOR) in
  if (refill =? 0) && (rate >? 0) then 1 else refill.

Definition rlimit_refill_io_tokens (t : rtask) : rtask * list Z :=
  if io_rate_bytes_per_sec t =? 0 then (t, []) else
  let rate := io_rate_bytes_per_sec t in
  let tokens := swrap 64 (io_tokens t + refill_amount rate) in
  let tokens := if tokens >? swrap 64 rate then swrap 64 rate else tokens in
  let '(tok, pend, shipped) := drain tokens (io_pending t) in
  ({| t with io_tokens := tok; io_pending := pend |}, shipped).

Definition epoch_refill_one (t : rtask) (refilled : Z) : rtask * Z :=
  if negb (cpu_time_slice_budget_ns t =? 0)
  then ({| t with cpu_budget_remaining_ns := swrap 64 (cpu_time_slice_budget_ns t) |}, refilled + 1)
  else (t, refilled).

(** Phase 1 of the epoch: every live task; the tasks and the count. *)
Fixpoint epoch_refill_all (ts : list rtask) (refilled : Z) : list rtask * Z :=
  match ts with
  | [] => ([], refilled)
  | t :: ts' =>
      let '(t, n) := epoch_refill_one t refilled in
      let '(ts', n) := epoch_refill_all ts' n in (t :: ts', n)
  end.

(** Phase 2: drain every CPU's starved list, in order. *)
Fixpoint epoch_drain (h : heap) (rqs : list runq) (now : Z) : option (heap * list runq * Z) :=
  match rqs with
  | [] => Some (h, [], 0)
  | rq :: rqs' =>
      '(h, rq, n) ← runq_refill_starved h rq;
      let rq := {| rq with last_epoch_tick_ticks := now |} in
      '(h, rqs', m) ← epoch_drain h rqs' now;
      Some (h, rq :: rqs', u32 (n + m))
  end.

(** The tasks, heap and queues, with the two counts of the audit record. *)
Definition rlimit_epoch_tick (ts : list rtask) (h : heap) (rqs : list runq) (g_timer_ticks : Z)
    : option (list rtask * heap * list runq * Z * Z) :=
  let '(ts, refilled) := epoch_refill_all ts 0 in
  '(h, rqs, drained) ← epoch_drain h rqs g_timer_ticks;
  Some (ts, h, rqs, refilled, drained).

Definition rlimit_set (t : rtask) (resource value : Z) : rtask * Z :=
  if resource =? RLIMIT_RES_MEM then ({| t with mem_limit_pages := value |}, 0)
  else if resource =? RLIMIT_RES_CPU then
    if value >? RLIMIT_EPOCH_NS then (t, -22)
    else ({| t with cpu_time_slice_budget_ns := value; cpu_budget_remaining_ns := swrap 64 value |}, 0)
  else if resource =? RLIMIT_RES_IO then
    ({| t with io_rate_bytes_per_sec := value; io_tokens := swrap 64 value |}, 0)
  else (t, -22).

Definition rlimit_get (t : rtask) (resource : Z) : option Z :=
  if resource =? RLIMIT_RES_MEM then Some (mem_limit_pages t)
  else if resource =? RLIMIT_RES_CPU then Some (cpu_time_slice_budget_ns t)
  else if resource =? RLIMIT_RES_IO then Some (io_rate_bytes_per_sec t)
  else None.

(** The gate of [stream_submit_batch]: the task, and the job if it is handed to
    the worker at once. *)
Definition submit_gate (t : rtask) (needs_tokens : bool) (len : Z) : rtask * list Z :=
  if needs_tokens && (len >? 0) then
    let '(t, rc) := rlimit_check_io t len in
    if rc =? RLIMIT_EAGAIN_INTERNAL then ({| t with io_pending := len :: io_pending t |}, [])
    else (t, [len])
  else (t, [len]).

(** ** The token bucket *)
Inductive io_event := IoSubmit (len : Z) | IoTick.
Definition io_step (t : rtask) (e : io_event) : rtask * list Z :=
  match e with IoSubmit len => submit_gate t true len | IoTick => rlimit_refill_io_tokens t end.

Fixpoint io_run (t : rtask) (es : list io_event) : rtask * list Z :=
  match es with
  | [] => (t, [])
  | e :: es' => let '(t1, s1) := io_step t e in let '(t2, s2) := io_run t1 es' in (t2, s1 ++ s2)
  end.

Definition total (l : list Z) : Z := fold_right Z.add 0 l.
Definition ticks (es : list io_event) : Z :=
  total (map (fun e => match e with IoTick => 1 | _ => 0 end) es).

(** Lengths that a signed 64-bit balance can hold. *)
Definition job_ok (len : Z) : Prop := 0 < len < 2 ^ 63.
Definition event_ok (e : io_event) : Prop := match e with IoSubmit len => job_ok len | IoTick => True end.

Definition bucket_ok (t : rtask) : Prop :=
  0 < io_rate_bytes_per_sec t < 2 ^ 62 /\ 0 <= io_tokens t <= io_rate_bytes_per_sec t /\
  Forall job_ok (io_pending t).

Lemma i64_small x : - 2 ^ 63 <= x < 2 ^ 63 -> swrap 64 x = x.
Proof. intros. apply swrap_small; [lia|]. exact H. Qed.

Lemma total_app l1 l2 : total (l1 ++ l2) = total l1 + total l2.
Proof. unfold total. induction l1 as [|a l1 IH]; cbn [app fold_right]; lia. Qed.
Lemma total_cons a l : total (a :: l) = a + total l.
Proof. done. Qed.
Lemma total_nil : total [] = 0.
Proof. done. Qed.

Lemma drain_spec pend tok :
  0 <= tok < 2 ^ 63 -> Forall job_ok pend ->
  let '(tok', pend', shipped) := drain tok pend in
  pend = shipped ++ pend' /\ tok = tok' + total shipped /\ 0 <= tok' <= tok.
Proof.
  revert tok. induction pend as [|len pend IH]; intros tok Ht Hp; cbn [drain].
  { split; [done|]. rewrite total_nil. lia. }
  apply Forall_cons in Hp as [Hl Hp]. unfold job_ok in Hl. rewrite i64_small by lia.
  destruct (Z.ltb_spec tok len); [split; [done|]; rewrite total_nil; lia|].
  rewrite (i64_small (tok - len)) by lia. specialize (IH (tok - len) ltac:(lia) Hp).
  destruct (drain (tok - len) pend) as [[tok' pend'] sh]. destruct IH as (-> & H2 & H3).
  split; [done|]. rewrite total_cons. lia.
Qed.

Lemma refill_amount_bound rate : 0 < rate < 2 ^ 62 -> 1 <= refill_amount rate <= rate /\
  refill_amount rate <= rate / 100 + 1.
Proof.
  intros Hr. unfold refill_amount, RLIMIT_IO_REFILL_DIVISOR.
  assert (0 <= rate / 100 <= rate) by (split; [apply Z.div_pos|apply Z.div_le_upper_bound]; lia).
  rewrite i64_small by lia. destruct (Z.eqb_spec (rate / 100) 0); cbn [andb]; [|lia].
  destruct (rate >? 0) eqn:E; lia.
Qed.

Lemma io_step_spec t e :
  bucket_ok t -> event_ok e ->
  let '(t', shipped) := io_step t e in
  bucket_ok t' /\ io_rate_bytes_per_sec t' = io_rate_bytes_per_sec t /\
  io_tokens t' + total shipped <=
    io_tokens t + (match e with IoTick => refill_amount (io_rate_bytes_per_sec t) | _ => 0 end).
Proof.
  intros (Hr & Ht & Hp) He. destruct e as [len|]; cbn [io_step event_ok] in *.
  - unfold submit_gate, rlimit_check_io. unfold job_ok in He. destruct (len >? 0) eqn:El; [|lia]. cbn [andb].
    destruct (Z.eqb_spec (io_rate_bytes_per_sec t) 0); [lia|]. rewrite (i64_small len) by lia.
    destruct (io_tokens t >=? len) eqn:E.
    + cbn [Z.eqb]. rewrite i64_small by lia. split; [|split; [done|rewrite ?total_cons, ?total_nil; cbn [io_tokens]; lia]]. split; [done|]. cbn. split; [lia|done].
    + change (RLIMIT_EAGAIN_INTERNAL =? RLIMIT_EAGAIN_INTERNAL) with true. cbv iota.
      split; [|split; [done|rewrite ?total_cons, ?total_nil; cbn [io_tokens]; lia]]. split; [done|]. cbn. split; [lia|]. by constructor.
  - unfold rlimit_refill_io_tokens. destruct (Z.eqb_spec (io_rate_bytes_per_sec t) 0); [lia|].
    pose proof (refill_amount_bound _ Hr) as [Ha _]. rewrite !i64_small by lia.
    set (tok := if _ >? _ then _ else _).
    assert (0 <= tok <= io_rate_bytes_per_sec t /\ tok <= io_tokens t + refill_amount (io_rate_bytes_per_sec t)) as [Hb1 Hb2].
    { unfold tok. destruct (_ >? _) eqn:E; lia. }
    pose proof (drain_spec (io_pending t) tok ltac:(lia) Hp) as Hd.
    destruct (drain tok (io_pending t)) as [[tok' pend'] sh]. destruct Hd as (Hpe & H2 & H3).
    rewrite Hpe in Hp. apply Forall_app in Hp as [_ Hp]. split; [|split; [done|rewrite ?total_cons, ?total_nil; cbn [io_tokens]; lia]].
    split; [done|]. cbn. split; [lia|done].
Qed.

(** C32: the I/O rate limit holds for requests shorter than 2^63 bytes.  For a rate above
    zero and below 2^62 and a balance between zero and the rate, through any sequence of
    timer ticks and of submissions of lengths from 1 to 2^63 - 1, the balance stays between
    zero and the configured rate, and the bytes handed to the worker are at most the initial
    balance (so at most one second's burst) plus one refill per tick.  Longer requests defeat
    the limit, [io_limit_bypassed]. *)
Theorem io_rate_limited (t : rtask) (es : list io_event) :
  bucket_ok t -> Forall event_ok es ->
  let '(t', shipped) := io_run t es in
  0 <= io_tokens t' <= io_rate_bytes_per_sec t /\
  total shipped <= io_tokens t + ticks es * refill_amount (io_rate_bytes_per_sec t).
Proof.
  intros Hb He. enough (let '(t', shipped) := io_run t es in
    bucket_ok t' /\ io_rate_bytes_per_sec t' = io_rate_bytes_per_sec t /\
    io_tokens t' + total shipped <= io_tokens t + ticks es * refill_amount (io_rate_bytes_per_sec t)) as H.
  { destruct (io_run t es) as [t' sh]. destruct H as ((Hr & Ht & _) & Hrate & Hle). rewrite <- Hrate at 1. lia. }
  revert t Hb. induction He as [|e es He Hes IH]; intros t Hb; cbn [io_run].
  { split; [done|]. split; [done|]. cbn. lia. }
  pose proof (io_step_spec t e Hb He) as H1. destruct (io_step t e) as [t1 s1]. destruct H1 as (Hb1 & Hr1 & Hle1).
  specialize (IH t1 Hb1). destruct (io_run t1 es) as [t2 s2]. destruct IH as (Hb2 & Hr2 & Hle2).
  rewrite Hr1 in Hle2. split; [done|]. split; [congruence|]. rewrite total_app.
  unfold ticks in *. cbn [map]. rewrite total_cons. destruct e; lia.
Qed.

Definition demo_limited : rtask := fst (rlimit_set (rlimit_init_defaults None) RLIMIT_RES_IO 1000).

Lemma io_rate_limited_witness :
  let '(t', shipped) := io_run demo_limited [IoSubmit 800; IoSubmit 400; IoTick; IoTick] in
  total shipped <= 1020.
Proof.
  pose proof (io_rate_limited demo_limited [IoSubmit 800; IoSubmit 400; IoTick; IoTick]) as H.
  destruct (io_run demo_limited [IoSubmit 800; IoSubmit 400; IoTick; IoTick]) as [t' sh].
  apply H; [split; [split; reflexivity|split; [split; discriminate|constructor]]
           |repeat apply Forall_cons_2; try apply Forall_nil_2; (exact I || split; reflexivity)].
Defined.

Lemma submit_granted t len : 0 < io_rate_bytes_per_sec t -> 0 < len -> swrap 64 len <= io_tokens t ->
  submit_gate t true len = ({| t with io_tokens := swrap 64 (io_tokens t - swrap 64 len) |}, [len]).
Proof.
  intros Hr Hl Ht. unfold submit_gate, rlimit_check_io. destruct (len >? 0) eqn:E1; [|lia]. cbn [andb].
  destruct (Z.eqb_spec (io_rate_bytes_per_sec t) 0); [lia|]. destruct (io_tokens t >=? swrap 64 len) eqn:E2; [done|lia].
Qed.

(** A length is an unsigned word that the check reads as a signed one.  A request of 2^63
    bytes or more is negative there: it is admitted whatever the balance, and instead of
    lowering the balance raises it by 2^64 minus its length, so that any request up to the
    new balance is admitted after it. *)
Theorem io_limit_bypassed (t : rtask) (len m : Z) :
  0 < io_rate_bytes_per_sec t -> 0 <= io_tokens t -> 2 ^ 63 <= len < 2 ^ 64 -> io_tokens t + (2 ^ 64 - len) < 2 ^ 63 ->
  0 < m <= io_tokens t + (2 ^ 64 - len) ->
  let '(t', shipped) := io_run t [IoSubmit len; IoSubmit m] in
  shipped = [len; m] /\ io_tokens t' = io_tokens t + (2 ^ 64 - len) - m.
Proof.
  intros Hr Ht Hl Hs Hm. assert (swrap 64 len = len - 2 ^ 64) as El by (unfold swrap, wrap; zlia).
  cbn [io_run io_step]. rewrite submit_granted, El, i64_small by lia. rewrite submit_granted; cbn [io_rate_bytes_per_sec io_tokens]; rewrite ?(i64_small m) by lia; [|lia..].
  rewrite i64_small by lia. split; [done|lia].
Qed.

(** A job larger than the bucket blocks its task's I/O for ever.  Once a job
    longer than the rate is at the head of the pending list, no sequence of ticks
    dispatches it or any job behind it. *)
Theorem oversized_job_blocks (t : rtask) (len : Z) (rest : list Z) (n : nat) :
  bucket_ok t -> io_pending t = len :: rest -> io_rate_bytes_per_sec t < len ->
  let '(t', shipped) := io_run t (replicate n IoTick) in shipped = [] /\ io_pending t' = len :: rest.
Proof.
  intros Hb Hp Hlen. revert t Hb Hp Hlen. induction n as [|n IH]; intros t Hb Hp Hlen; [done|].
  cbn [replicate io_run]. pose proof (io_step_spec t IoTick Hb I) as Hs. cbn [io_step] in *.
  assert (exists t1, rlimit_refill_io_tokens t = (t1, []) /\ io_pending t1 = len :: rest) as (t1 & E & Hp1).
  { destruct Hb as (Hr & Ht & Hj). rewrite Hp in Hj. apply Forall_cons in Hj as [Hj _]. unfold job_ok in Hj.
    pose proof (refill_amount_bound _ Hr) as [Ha _].
    unfold rlimit_refill_io_tokens. destruct (Z.eqb_spec (io_rate_bytes_per_sec t) 0); [lia|].
    rewrite Hp. cbn [drain]. rewrite !i64_small by lia.
    assert (((if io_tokens t + refill_amount (io_rate_bytes_per_sec t) >? io_rate_bytes_per_sec t
              then io_rate_bytes_per_sec t else io_tokens t + refill_amount (io_rate_bytes_per_sec t)) <? len) = true)
      as -> by (destruct (_ >? _) eqn:E; lia).
    eexists. split; [reflexivity|done]. }
  rewrite E in Hs |- *. destruct Hs as (Hb1 & Hr1 & _). specialize (IH t1 Hb1 Hp1 ltac:(lia)).
  destruct (io_run t1 (replicate n IoTick)) as [t2 s2]. destruct IH as [-> ?]. done.
Qed.

Lemma oversized_job_blocks_witness :
  let '(t', shipped) := io_run (fst (submit_gate demo_limited true 2000)) (replicate 1000 IoTick) in
  shipped = [] /\ io_pending t' = [2000].
Proof.
  apply (oversized_job_blocks (fst (submit_gate demo_limited true 2000)) 2000 [] 1000).
  - split; [split; reflexivity|split; [split; discriminate|]]. apply Forall_singleton. split; reflexivity.
  - reflexivity.
  - reflexivity.
Defined.

(** ** The epoch *)
Definition queue_tasks (q : list Z * list Z) : list Z := fst q ++ snd q.

(** The queues of all CPUs, on disjoint tasks. *)
Definition rep_all (h : heap) (rqs : list runq) (qs : list (list Z * list Z)) : Prop :=
  Forall2 (fun rq q => rep h rq (fst q) (snd q)) rqs qs /\ NoDup (concat (map queue_tasks qs)).

Lemma rep_all_ext h h' rqs qs :
  (forall x, x ∈ concat (map queue_tasks qs) -> links h' x = links h x) ->
  Forall2 (fun rq q => rep h rq (fst q) (snd q)) rqs qs ->
  Forall2 (fun rq q => rep h' rq (fst q) (snd q)) rqs qs.
Proof.
  intros Hx H. revert Hx. induction H as [|rq q rqs qs Hr Hrs IH]; intros Hx; constructor.
  - eapply rep_links_ext; [|exact Hr]. intros x ?. apply Hx. cbn. apply elem_of_app. by left.
  - apply IH. intros x ?. apply Hx. cbn. apply elem_of_app. by right.
Qed.

Lemma epoch_drain_spec rqs : forall h qs now,
  rep_all h rqs qs ->
  exists h' rqs' n, epoch_drain h rqs now = Some (h', rqs', n) /\
    Forall2 (fun rq q => rep h' rq (queue_tasks q) []) rqs' qs /\
    frame (concat (map queue_tasks qs)) h h' /\
    n = u32 (Z.of_nat (length (concat (map snd qs)))).
Proof.
  induction rqs as [|rq rqs IH]; intros h qs now [Hf Hn]; inversion Hf as [|? [l s] ? qs' Hr Hrs]; subst.
  { exists h, [], 0. split; [done|]. split; [constructor|]. split; [reflexivity|done]. }
  cbn [map concat epoch_drain fst snd] in *. apply NoDup_app in Hn as (Hn1 & Hd & Hn2). unfold queue_tasks at 1 in Hd. cbn in Hd.
  destruct (refill_spec h rq l s Hr) as (h1 & rq1 & -> & Hr1 & [K1 F1] & _). cbn [mbind option_bind].
  destruct (IH h1 qs' now) as (h2 & rqs2 & n & -> & Hf2 & [K2 F2] & ->).
  { split; [|done]. eapply rep_all_ext; [|exact Hrs]. intros x Hx. apply F1. intros H. by apply (Hd x). }
  cbn [mbind option_bind]. eexists _, _, _. split; [reflexivity|].
  split; [constructor; [|done]|split; [split; [by transitivity h1|]|]].
  - eapply rep_links_ext; [|exact Hr1]. intros x Hx. rewrite app_nil_r in Hx. apply F2. by apply Hd.
  - intros x [Hx1 Hx2]%not_elem_of_app. by rewrite F2, F1.
  - rewrite length_app, Nat2Z.inj_add, wrap_add_l by lia. rewrite Z.add_comm, wrap_add_l by lia.
    f_equal. lia.
Qed.

Lemma epoch_refill_all_spec ts : forall n,
  fst (epoch_refill_all ts n) =
  map (fun t => if cpu_time_slice_budget_ns t =? 0 then t
                else {| t with cpu_budget_remaining_ns := swrap 64 (cpu_time_slice_budget_ns t) |}) ts.
Proof.
  induction ts as [|t ts IH]; intros n; [done|]. cbn [epoch_refill_all map]. unfold epoch_refill_one.
  destruct (Z.eqb_spec (cpu_time_slice_budget_ns t) 0); cbn [negb].
  - specialize (IH n). destruct (epoch_refill_all ts n). cbn in *. by rewrite IH.
  - specialize (IH (n + 1)). destruct (epoch_refill_all ts (n + 1)). cbn in *. by rewrite IH.
Qed.

(** Starvation ends with the epoch.  [rlimit_epoch_tick] runs to completion
    on well-formed queues over disjoint tasks; afterwards every task with a CPU
    limit has its full budget back, no CPU has a starved task, every task that was
    starved is on its own CPU's ready list behind the tasks that were ready, and
    the count reported is the number drained. *)
Theorem epoch_ends_starvation (ts : list rtask) (h : heap) (rqs : list runq)
    (qs : list (list Z * list Z)) (now : Z) :
  rep_all h rqs qs -> Forall (fun t => 0 <= cpu_time_slice_budget_ns t <= RLIMIT_EPOCH_NS) ts ->
  exists ts' h' rqs' refilled drained,
    rlimit_epoch_tick ts h rqs now = Some (ts', h', rqs', refilled, drained) /\
    Forall2 (fun rq q => rep h' rq (fst q ++ snd q) []) rqs' qs /\
    drained = u32 (Z.of_nat (length (concat (map snd qs)))) /\
    Forall2 (fun t t' => cpu_time_slice_budget_ns t <> 0 ->
                         cpu_budget_remaining_ns t' = cpu_time_slice_budget_ns t) ts ts'.
Proof.
  intros Hr Hb. unfold rlimit_epoch_tick. pose proof (epoch_refill_all_spec ts 0) as Ht.
  destruct (epoch_refill_all ts 0) as [ts' refilled]. cbn [fst] in Ht. subst ts'.
  destruct (epoch_drain_spec rqs h qs now Hr) as (h' & rqs' & n & -> & Hf & _ & Hn).
  eexists _, _, _, _, _. split; [reflexivity|]. split; [exact Hf|]. split; [exact Hn|].
  induction Hb as [|t ts Hbt Hbs IH]; constructor; [|exact IH]. intros Hne.
  destruct (Z.eqb_spec (cpu_time_slice_budget_ns t) 0); [done|]. cbn. apply i64_small.
  unfold RLIMIT_EPOCH_NS in Hbt. lia.
Qed.

Lemma epoch_ends_starvation_witness :
  exists ts' h' rqs' refilled,
    rlimit_epoch_tick [] (<[7 := Task None None TASK_STATE_STARVED (-1)]> ∅)
      [{| demo_victim with ready_head := None; ready_tail := None; starved_head := Some 7 |}] 100 =
      Some (ts', h', rqs', refilled, 1).
Proof.
  destruct (epoch_ends_starvation [] (<[7 := Task None None TASK_STATE_STARVED (-1)]> ∅)
    [{| demo_victim with ready_head := None; ready_tail := None; starved_head := Some 7 |}] [([], [7])] 100)
    as (ts' & h' & rqs' & refilled & drained & H & _ & Hd & _).
  - split; [|apply (bool_decide_unpack _); vm_compute; exact I]. constructor; [|constructor].
    split; [apply (bool_decide_unpack _); vm_compute; exact I|]. split; [by intros i t|]. split; [|done].
    intros [|i] t Ht; [|discriminate]. injection Ht as <-. reflexivity.
  - constructor.
  - exists ts', h', rqs', refilled. rewrite H, Hd. reflexivity.
Defined.

(** ** Memory and CPU *)
Lemma check_mem_spec t n :
  0 < mem_limit_pages t < 2 ^ 63 -> 0 <= mem_pages_used t <= mem_limit_pages t -> 0 <= n < 2 ^ 63 ->
  let '(t', rc) := rlimit_check_mem t n in
  0 <= mem_pages_used t' <= mem_limit_pages t /\
  (rc = 0 /\ mem_pages_used t' = mem_pages_used t + n \/
   rc = -12 /\ t' = t /\ mem_limit_pages t < mem_pages_used t + n).
Proof.
  intros Hl Hu Hn. unfold rlimit_check_mem. destruct (Z.eqb_spec (mem_limit_pages t) 0); [lia|].
  rewrite wrap_small by (unfold in_u; lia). destruct (_ >? _) eqn:E.
  - split; [lia|]. right. split; [done|]. split; [done|lia].
  - cbn. split; [lia|]. by left.
Qed.

(** The sum wraps: a request near 2^64 pages passes the quota. *)
Lemma check_mem_wraps :
  let t := {| demo_limited with mem_limit_pages := 100; mem_pages_used := 50 |} in
  snd (rlimit_check_mem t (2 ^ 64 - 10)) = 0 /\
  mem_pages_used (fst (rlimit_check_mem t (2 ^ 64 - 10))) = 40.
Proof. by vm_compute. Qed.
