(* ===== verification/Vmo.v ===== *)
(** * Memory objects (kernel/mm/vmo.c, kernel/mm/mmio_vmo.c)

    A memory object owns an array of page frames and can be mapped into the address spaces
    of tasks, shared, or cloned with copy on write.  The state composes the virtual memory
    manager of [Vmm] and the memory quota of [Rlimit] with the objects, which live at
    addresses (a freed one is absent, and following its pointer is a fault), and the table of
    mappings, in which a slot whose [vaddr] is 0 is absent.  The answers of the object cache
    and of [kmalloc] are a list in the state.  Locked regions are atomic, audit records are a
    trace.  [VmoInv] proves the accounting of pages, [VmoProps] states the results. *)
From S2P Require Import Prelude Bytes Pmm StateM Vmm Rlimit.
Local Open Scope Z_scope.
Local Open Scope c_scope.

Abbreviation VMO_ZEROED := 0x1.
Abbreviation VMO_ONDEMAND := 0x2.
Abbreviation VMO_PINNED := 0x4.
Abbreviation VMO_COW_CHILD := 0x8.
Abbreviation VMO_MMIO := 0x10.
Abbreviation VMO_CONTIGUOUS := 0x20.
Abbreviation VMO_MAX_SIZE := 268435456.
Abbreviation VMO_MAPPINGS_PER_TASK := 64.
Abbreviation VMO_MAX_TASKS := 256.
Abbreviation PROT_READ := 0x1.
Abbreviation PROT_WRITE := 0x2.
Abbreviation PROT_EXEC := 0x4.
Abbreviation PTE_WRITETHROUGH := 0x8.
Abbreviation PTE_CACHEDISABLE := 0x10.
Abbreviation CAP_V2_EINVAL := (-5).
Abbreviation VMO_PTE_PHYS_MASK := 0x000FFFFFFFFFF000.

(** ** State *)
Record vmo := Vmo {
  v_flags : Z; v_id : Z; size_bytes : Z; npages : Z; refcount : Z; pages : list Z; parent : Z;
  owner_pid : Z; v_cap_object_idx : Z }.

Record vmo_mapping := Vmo_mapping { vaddr : Z; m_vmo : Z; m_offset : Z; len_pages : Z; m_prot : Z }.

(** What this code uses of a task. *)
Record mtask := Mtask { t_cr3 : Z; t_limits : rtask }.

(** A write fault that is audited: task, object, address and whether it was satisfied. *)
Record vmo_fault := Vmo_fault { vf_task : Z; vf_object : Z; vf_va : Z; vf_ok : bool }.

Record mo := Mo {
  mem : vm; vmos : gmap Z vmo; next_vmo : Z; g_next_vmo_id : Z; g_vmo_task_maps : gmap (Z * Z) vmo_mapping;
  mtasks : gmap Z mtask; current_task : option Z; kmem_answers : list bool; vmo_faults : list vmo_fault }.

Definition on_mem {A} (p : M vm A) : M mo A := fun s =>
  match p (mem s) with Some (v, a) => Some ({| s with mem := v |}, a) | None => None end.

Definition on_pmm (f : pmm -> pmm) : M mo unit :=
  on_mem (modify (fun s => {| s with phys_pages := f (phys_pages s) |})).

(** Whether the next request to the object cache or the heap is granted. *)
Definition kmem_grants : M mo bool := fun s =>
  match kmem_answers s with
  | [] => Some (s, false)
  | b :: l => Some ({| s with kmem_answers := l |}, b)
  end.

Definition kmem_cache_alloc : M mo Z :=
  ok ← kmem_grants;
  if negb ok then mret 0 else
  v ← gets next_vmo;
  modify (fun s => {| s with next_vmo := v + 1 |});;
  mret v.

Definition next_vmo_id : M mo Z :=
  id ← gets g_next_vmo_id;
  modify (fun s => {| s with g_next_vmo_id := u64 (id + 1) |});;
  mret id.

Definition deref (v : Z) : M mo vmo := fun s => match vmos s !! v with Some x => Some (s, x) | None => None end.
Definition set_vmo (v : Z) (x : vmo) : M mo unit := modify (fun s => {| s with vmos := <[v := x]> (vmos s) |}).

(** A live object carries the magic number. *)
Definition vmo_check (v : Z) : M mo bool :=
  if v =? 0 then mret false else x ← deref v; mret (npages x >? 0).

Definition zero_frame (phys : Z) : M vm unit := kv ← hhdm phys; vmm_memset kv 0 (Z.to_nat PAGE_SIZE).

(** An element of the array of pages; outside the array is a fault. *)
Definition page_at (x : vmo) (i : Z) : M mo Z := match get (pages x) i with Some p => mret p | None => diverge end.

(** ** Creation *)

(** The references of the pages so far are dropped. *)
Definition unref_pages (l : list Z) : M mo unit :=
  on_mem (for_each l (fun p => if p =? 0 then mret tt else modify (fun s => {| s with phys_pages := pmm_page_unref (phys_pages s) p |}))).

Fixpoint alloc_eager (flags : Z) (n : nat) (done : list Z) : M mo (option (list Z)) :=
  match n with
  | O => mret (Some done)
  | S n =>
      pa ← on_mem alloc_frame;
      if pa =? 0 then unref_pages done;; mret None else
      (if has_flag flags VMO_ZEROED then on_mem (zero_frame pa) else mret tt);;
      alloc_eager flags n (done ++ [pa])
  end.

Definition alloc_contiguous (flags n : Z) : M mo (option (list Z)) :=
  if has_flag flags VMO_ONDEMAND then mret None else
  if n >? 64 then mret None else
  base ← on_mem (fun s => let '(p, r) := pmm_alloc_pages (phys_pages s) n in Some ({| s with phys_pages := p |}, r));
  if base =? 0 then mret None else
  let l := map (fun p => base + p * 4096) (seqZ 0 n) in
  on_mem (for_each l (fun p => if has_flag flags VMO_ZEROED then zero_frame p else mret tt));;
  mret (Some l).

(** The address of the object, 0 for NULL. *)
Definition vmo_create (size flags owner : Z) : M mo Z :=
  if (size =? 0) || negb (size &. 0xFFF =? 0) then mret 0 else
  if size >? VMO_MAX_SIZE then mret 0 else
  let n := size / 4096 in
  v ← kmem_cache_alloc;
  if v =? 0 then mret 0 else
  id ← next_vmo_id;
  ok ← kmem_grants;
  if negb ok then mret 0 else
  l ← (if has_flag flags VMO_CONTIGUOUS then alloc_contiguous flags n
       else if has_flag flags VMO_ONDEMAND then mret (Some (replicate (Z.to_nat n) 0))
       else alloc_eager flags (Z.to_nat n) []);
  match l with
  | None => mret 0
  | Some l => set_vmo v (Vmo flags id size n 1 l 0 owner 0);; mret v
  end.

Definition vmo_get_phys (v page_idx : Z) : M mo Z :=
  ok ← vmo_check v;
  if negb ok then mret 0 else
  x ← deref v;
  if page_idx >=? npages x then mret 0 else page_at x page_idx.

(** ** References *)

(** The pages of an object are given back, according to its kind. *)
Definition release_pages (x : vmo) : M mo unit :=
  if has_flag (v_flags x) VMO_MMIO then mret tt else
  if has_flag (v_flags x) VMO_CONTIGUOUS then
    p ← page_at x 0;
    if p =? 0 then mret tt else on_pmm (fun s => pmm_free_pages s p (npages x))
  else unref_pages (pages x).

Definition vmo_ref (v : Z) : M mo unit :=
  ok ← vmo_check v;
  if negb ok then mret tt else
  x ← deref v;
  set_vmo v {| x with refcount := u32 (refcount x + 1) |}.

(** vmo_unref and vmo_free call each other along the parents: [unref] is the call for the
    parent.  vmo_free reads the object again after it. *)
Definition free_with (unref : Z -> M mo unit) (v : Z) : M mo unit :=
  ok ← vmo_check v;
  if negb ok then mret tt else
  x ← deref v;
  (if parent x =? 0 then mret tt else
   unref (parent x);;
   x ← deref v;
   set_vmo v {| x with parent := 0 |});;
  x ← deref v;
  release_pages x;;
  modify (fun s => {| s with vmos := delete v (vmos s) |}).

Fixpoint unref_with (fuel : nat) (v : Z) : M mo unit :=
  match fuel with
  | O => diverge
  | S fuel =>
      ok ← vmo_check v;
      if negb ok then mret tt else
      x ← deref v;
      let r := u32 (refcount x - 1) in
      set_vmo v {| x with refcount := r |};;
      if r =? 0 then free_with (unref_with fuel) v else mret tt
  end.

(** A parent is older than its children. *)
Definition unref_fuel (s : mo) : nat := S (Z.to_nat (next_vmo s)).
Definition vmo_unref (v : Z) : M mo unit := fuel ← gets unref_fuel; unref_with fuel v.
Definition vmo_free (v : Z) : M mo unit := fuel ← gets unref_fuel; free_with (unref_with fuel) v.

Definition vmo_cap_deactivate (kind_data : Z) : M mo unit :=
  ok ← vmo_check kind_data;
  if negb ok then mret tt else vmo_unref kind_data.

(** ** Mapping slots *)
Definition slot_bad (task_id : Z) : bool := (task_id <? 0) || (task_id >=? VMO_MAX_TASKS).

(** The first slot of a task with a property, -1 when there is none. *)
Definition first_slot (s : mo) (task_id : Z) (f : option vmo_mapping -> bool) : Z :=
  if slot_bad task_id then -1 else
  default (-1) (List.find (fun i => f (g_vmo_task_maps s !! (task_id, i))) (seqZ 0 VMO_MAPPINGS_PER_TASK)).

Definition vmo_alloc_map_slot (s : mo) (task_id : Z) : Z :=
  first_slot s task_id (fun m => match m with None => true | Some _ => false end).

Definition vmo_find_map_slot (s : mo) (task_id va : Z) : Z :=
  first_slot s task_id (fun m => match m with None => false | Some m => vaddr m =? va end).

Definition vmo_find_map_slot_containing (s : mo) (task_id va : Z) : Z :=
  first_slot s task_id (fun m =>
    match m with
    | None => false
    | Some m => (va >=? vaddr m) && (va <? u64 (vaddr m + len_pages m * 4096))
    end).

Definition mapping_at (task_id slot : Z) : M mo vmo_mapping := fun s =>
  match g_vmo_task_maps s !! (task_id, slot) with Some m => Some (s, m) | None => None end.

Definition set_mapping (task_id slot : Z) (m : option vmo_mapping) : M mo unit :=
  modify (fun s => {| s with g_vmo_task_maps := partial_alter (fun _ => m) (task_id, slot) (g_vmo_task_maps s) |}).

Definition prot_to_pte_flags (prot : Z) : Z :=
  let f := PTE_PRESENT |. PTE_USER in
  let f := if has_flag prot PROT_WRITE then f |. PTE_WRITABLE else f in
  if negb (has_flag prot PROT_EXEC) then f |. PTE_NX else f.

(** The task with an id; following a pointer to a task that is gone is a fault. *)
Definition task_of (t : Z) : M mo mtask := fun s => match mtasks s !! t with Some x => Some (s, x) | None => None end.
Definition set_limits (t : Z) (f : rtask -> rtask) : M mo unit :=
  modify (fun s => {| s with mtasks := alter (fun x => {| x with t_limits := f (t_limits x) |}) t (mtasks s) |}).

Definition charge_mem (t : Z) : M mo Z :=
  x ← task_of t;
  let '(l, rc) := rlimit_check_mem (t_limits x) 1 in
  set_limits t (fun _ => l);;
  mret rc.
Definition refund_mem (t : Z) : M mo unit := set_limits t (fun l => rlimit_account_free_mem l 1).

Fixpoint each {A} (l : list A) (f : A -> M mo unit) : M mo unit :=
  match l with [] => mret tt | x :: l => f x;; each l f end.

(** The pages [0 .. n-1] of a partial mapping are taken back; [refund] says whether the quota
    is given back too, [unref] whether the pages are. *)
Definition roll_back (v t base start n : Z) (unref refund : bool) : M mo unit :=
  tk ← task_of t;
  each (seqZ 0 n) (fun q =>
    on_mem (vmm_unmap_page_by_cr3 (t_cr3 tk) (u64 (base + q * 4096)));;
    (if unref then
       x ← deref v;
       p ← page_at x (start + q);
       on_pmm (fun s => pmm_page_unref s p)
     else mret tt);;
    if refund then refund_mem t else mret tt).

(** One page of a mapping.  The frame of a page without one is allocated, the frame of
    another one gets a reference for the mapping. *)
Definition back_page (v t base start p : Z) (x : vmo) (phys : Z) : M mo (option Z) :=
  if phys =? 0 then
    mrc ← charge_mem t;
    if mrc <? 0 then roll_back v t base start p true true;; mret None else
    pa ← on_mem alloc_frame;
    if pa =? 0 then refund_mem t;; roll_back v t base start p true true;; mret None else
    set_vmo v {| x with pages := upd (pages x) (start + p) pa |};;
    (if has_flag (v_flags x) VMO_ZEROED then on_mem (zero_frame pa) else mret tt);;
    mret (Some pa)
  else on_pmm (fun s => pmm_page_ref s phys);; mret (Some phys).

Definition map_one (v t base start pte_flags p : Z) : M mo bool :=
  tk ← task_of t;
  x ← deref v;
  phys ← page_at x (start + p);
  if negb (phys =? 0) && has_flag (v_flags x) VMO_MMIO then
    ok ← on_mem (vmm_map_page_by_cr3 (t_cr3 tk) (u64 (base + p * 4096)) phys pte_flags);
    if (ok : bool) then mret true else roll_back v t base start p false false;; mret false
  else
    o ← back_page v t base start p x phys;
    match o with
    | None => mret false
    | Some phys =>
        ok ← on_mem (vmm_map_page_by_cr3 (t_cr3 tk) (u64 (base + p * 4096)) phys pte_flags);
        if (ok : bool) then mret true else roll_back v t base start (p + 1) true false;; mret false
    end.

Fixpoint map_pages (v t base start pte_flags : Z) (l : list Z) : M mo bool :=
  match l with
  | [] => mret true
  | p :: l => ok ← map_one v t base start pte_flags p; if (ok : bool) then map_pages v t base start pte_flags l else mret false
  end.

Definition map_flags (x : vmo) (prot : Z) : Z :=
  let f := prot_to_pte_flags prot in
  let f := if has_flag (v_flags x) VMO_COW_CHILD && has_flag prot PROT_WRITE then f &. (0xFFFFFFFFFFFFFFFF - PTE_WRITABLE) else f in
  if has_flag (v_flags x) VMO_MMIO then f |. PTE_CACHEDISABLE |. PTE_WRITETHROUGH else f.

(** The base of the mapping, 0 on failure; [fuel] is for the search of free addresses. *)
Definition vmo_map (fuel : nat) (v t addr_hint offset len prot : Z) : M mo Z :=
  ok ← vmo_check v;
  if negb ok then mret 0 else
  tk ← task_of t;
  x ← deref v;
  if negb (offset &. 0xFFF =? 0) || negb (len &. 0xFFF =? 0) || (len =? 0) then mret 0 else
  if u64 (offset + len) >? size_bytes x then mret 0 else
  if prot &. (PROT_READ |. PROT_WRITE |. PROT_EXEC) =? 0 then mret 0 else
  slot ← gets (fun s => vmo_alloc_map_slot s t);
  if slot <? 0 then mret 0 else
  base ← (if addr_hint =? 0 then on_mem (vmm_reserve_va_by_cr3 fuel (t_cr3 tk) len) else mret addr_hint);
  if base =? 0 then mret 0 else
  let n := len / 4096 in
  ok ← map_pages v t base (offset / 4096) (map_flags x prot) (seqZ 0 n);
  if negb ok then mret 0 else
  set_mapping t slot (Some (Vmo_mapping base v offset (u32 n) prot));;
  vmo_ref v;;
  mret base.

Definition vmo_unmap (t va len : Z) : M mo Z :=
  if (va =? 0) || negb (va &. 0xFFF =? 0) || negb (len &. 0xFFF =? 0) then mret CAP_V2_EINVAL else
  slot ← gets (fun s => vmo_find_map_slot s t va);
  if slot <? 0 then mret CAP_V2_EINVAL else
  m ← mapping_at t slot;
  if negb (len_pages m * 4096 =? len) then mret CAP_V2_EINVAL else
  tk ← task_of t;
  x ← deref (m_vmo m);
  each (seqZ 0 (len_pages m)) (fun p =>
    x ← deref (m_vmo m);
    phys ← page_at x (m_offset m / 4096 + p);
    on_mem (vmm_unmap_page_by_cr3 (t_cr3 tk) (u64 (vaddr m + p * 4096)));;
    if negb (phys =? 0) && negb (has_flag (v_flags x) VMO_MMIO)
    then on_pmm (fun s => pmm_page_unref s phys);; refund_mem t
    else mret tt);;
  set_mapping t slot None;;
  vmo_unref (m_vmo m);;
  mret 0.

(** ** Remapping *)

(** One page of a mapping is pointed to [new_pages]; the number of entries changed. *)
Definition remap_page (cr3 va : Z) (new_pages : list Z) (idx : Z) : M mo Z :=
  old_pte ← on_mem (vmm_get_pte cr3 va);
  if negb (has_flag old_pte 1) then mret 0 else
  let old_phys := old_pte &. VMO_PTE_PHYS_MASK in
  match get new_pages idx with
  | None => diverge
  | Some new_phys =>
      if (new_phys =? 0) || (new_phys =? old_phys) then mret 0 else
      on_mem (vmm_unmap_page_by_cr3 cr3 va);;
      on_pmm (fun s => pmm_page_ref s new_phys);;
      (if old_phys =? 0 then mret tt else on_pmm (fun s => pmm_page_unref s old_phys));;
      on_mem (vmm_map_page_by_cr3 cr3 va new_phys (old_pte &. (0xFFFFFFFFFFFFFFFF - VMO_PTE_PHYS_MASK)));;
      mret 1
  end.

Fixpoint remap_pages (cr3 : Z) (x : vmo) (m : vmo_mapping) (new_pages : list Z) (l : list Z) (updated : Z) : M mo Z :=
  match l with
  | [] => mret updated
  | p :: l =>
      let idx := m_offset m / 4096 + p in
      if idx >=? npages x then mret updated else
      n ← remap_page cr3 (u64 (vaddr m + p * 4096)) new_pages idx;
      remap_pages cr3 x m new_pages l (updated + n)
  end.

Fixpoint remap_slots (t v cr3 : Z) (x : vmo) (new_pages : list Z) (l : list Z) (updated : Z) : M mo Z :=
  match l with
  | [] => mret updated
  | i :: l =>
      o ← gets (fun s => g_vmo_task_maps s !! (t, i));
      updated ← match o with
                | Some m => if m_vmo m =? v then remap_pages cr3 x m new_pages (seqZ 0 (len_pages m)) updated else mret updated
                | None => mret updated
                end;
      remap_slots t v cr3 x new_pages l updated
  end.

Definition vmo_remap_pages_for_task (t v : Z) (new_pages : list Z) : M mo Z :=
  ok ← vmo_check v;
  if negb ok then mret CAP_V2_EINVAL else
  if slot_bad t then mret CAP_V2_EINVAL else
  x ← deref v;
  if has_flag (v_flags x) VMO_MMIO then mret 0 else
  tk ← task_of t;
  remap_slots t v (t_cr3 tk) x new_pages (seqZ 0 VMO_MAPPINGS_PER_TASK) 0.

(** ** Clones *)

(** The pages of [src] get a reference and a new object with other flags. *)
Definition clone_object (src : Z) (flags : Z -> Z) (owner : Z) : M mo Z :=
  ok ← vmo_check src;
  if negb ok then mret 0 else
  child ← kmem_cache_alloc;
  if child =? 0 then mret 0 else
  x ← deref src;
  id ← next_vmo_id;
  ok ← kmem_grants;
  if negb ok then mret 0 else
  on_mem (for_each (pages x) (fun p => if p =? 0 then mret tt else modify (fun s => {| s with phys_pages := pmm_page_ref (phys_pages s) p |})));;
  set_vmo child (Vmo (flags (v_flags x)) id (size_bytes x) (npages x) 1 (pages x) src owner 0);;
  x ← deref src;
  set_vmo src {| x with refcount := u32 (refcount x + 1) |};;
  mret child.

(** The mappings of [src] in one task become read-only. *)
Definition downgrade_task (src t : Z) : M mo unit :=
  each (seqZ 0 VMO_MAPPINGS_PER_TASK) (fun i =>
    o ← gets (fun s => g_vmo_task_maps s !! (t, i));
    match o with
    | None => mret tt
    | Some m =>
        if negb (m_vmo m =? src) then mret tt else
        tk ← gets (fun s => mtasks s !! t);
        let cr3 := match tk with Some x => t_cr3 x | None => 0 end in
        if cr3 =? 0 then mret tt else
        let flags_ro := prot_to_pte_flags (m_prot m) &. (0xFFFFFFFFFFFFFFFF - PTE_WRITABLE) in
        each (seqZ 0 (len_pages m)) (fun p =>
          on_mem (vmm_protect_page_by_cr3 cr3 (u64 (vaddr m + p * 4096)) flags_ro);; mret tt)
    end).

Definition vmo_clone_cow (src owner : Z) : M mo Z :=
  child ← clone_object src (fun f => (f |. VMO_COW_CHILD) &. (0xFFFFFFFF - VMO_ZEROED)) owner;
  if child =? 0 then mret 0 else
  each (seqZ 0 VMO_MAX_TASKS) (downgrade_task src);;
  mret child.

Definition vmo_clone_shared (src owner : Z) : M mo Z :=
  clone_object src (fun f => f &. (0xFFFFFFFF - (VMO_ZEROED |. VMO_COW_CHILD))) owner.

(** ** Faults *)
Definition audit_write_vmo_fault (t obj va : Z) (ok : bool) : M mo unit :=
  modify (fun s => {| s with vmo_faults := vmo_faults s ++ [Vmo_fault t obj va ok] |}).

(** memcpy of a whole frame to another one, through the direct map. *)
Definition copy_frame (dst src : Z) : M vm unit := fun s =>
  let p := u64 (u64 (src + g_hhdm_offset s) - g_hhdm_offset s) in
  pg ← ram s !! (p / PAGE_SIZE);
  if p mod PAGE_SIZE =? 0 then store_bytes (u64 (dst + g_hhdm_offset s)) pg s else None.

(** The private copy of a page: frame, entry and array. *)
Definition cow_page (t v page_va page_idx old_phys flags : Z) : M mo bool :=
  new_pa ← on_mem alloc_frame;
  if new_pa =? 0 then mret false else
  on_mem (copy_frame new_pa old_phys);;
  tk ← task_of t;
  on_mem (vmm_unmap_page_by_cr3 (t_cr3 tk) page_va);;
  on_pmm (fun s => pmm_page_unref s old_phys);;
  on_mem (vmm_map_page_by_cr3 (t_cr3 tk) page_va new_pa flags);;
  x ← deref v;
  set_vmo v {| x with pages := upd (pages x) page_idx new_pa |};;
  mret true.

Definition cow_fault (t fault_va : Z) (m : vmo_mapping) (x : vmo) : M mo Z :=
  let page_va := fault_va &. (0xFFFFFFFFFFFFFFFF - 0xFFF) in
  let page_idx := u32 (u64 (m_offset m + u64 (page_va - vaddr m)) / 4096) in
  if page_idx >=? npages x then mret (-1) else
  old_phys ← page_at x page_idx;
  if old_phys =? 0 then mret (-1) else
  mrc ← charge_mem t;
  if mrc <? 0 then audit_write_vmo_fault t (v_cap_object_idx x) fault_va false;; mret (-1) else
  ok ← cow_page t (m_vmo m) page_va page_idx old_phys (prot_to_pte_flags (m_prot m));
  if negb ok then refund_mem t;; audit_write_vmo_fault t (v_cap_object_idx x) fault_va false;; mret (-1) else
  audit_write_vmo_fault t (v_cap_object_idx x) fault_va true;;
  mret 0.

Definition vmo_pf_dispatch (fault_va error_code : Z) : M mo Z :=
  if negb (has_flag error_code 0x4) || negb (has_flag error_code 0x2) || negb (has_flag error_code 0x1) then mret (-1) else
  cur ← gets current_task;
  match cur with
  | None => mret (-1)
  | Some t =>
      slot ← gets (fun s => vmo_find_map_slot_containing s t (fault_va &. (0xFFFFFFFFFFFFFFFF - 0xFFF)));
      if slot <? 0 then mret (-1) else
      m ← mapping_at t slot;
      if negb (has_flag (m_prot m) PROT_WRITE) then
        obj ← (if m_vmo m =? 0 then mret 0 else x ← deref (m_vmo m); mret (v_cap_object_idx x));
        audit_write_vmo_fault t obj fault_va false;;
        mret (-1)
      else
        ok ← vmo_check (m_vmo m);
        if negb ok then mret (-1) else
        x ← deref (m_vmo m);
        if negb (has_flag (v_flags x) VMO_COW_CHILD) then mret (-1) else
        cow_fault t fault_va m x
  end.

(** ** Exit of a task *)
Definition cleanup_slot (t i : Z) : M mo unit :=
  o ← gets (fun s => g_vmo_task_maps s !! (t, i));
  match o with
  | None => mret tt
  | Some m =>
      each (seqZ 0 (len_pages m)) (fun p =>
        if m_vmo m =? 0 then mret tt else
        x ← deref (m_vmo m);
        phys ← page_at x (m_offset m / 4096 + p);
        if phys =? 0 then mret tt else on_pmm (fun s => pmm_page_unref s phys));;
      set_mapping t i None;;
      if m_vmo m =? 0 then mret tt else vmo_unref (m_vmo m)
  end.

Definition vmo_cleanup_task (t : Z) : M mo unit :=
  if slot_bad t then mret tt else each (seqZ 0 VMO_MAPPINGS_PER_TASK) (cleanup_slot t).

(** ** Start; the handler is the address [pf] *)
Definition vmo_init (pf : Z) : M mo unit :=
  ok ← kmem_grants;
  if negb ok then mret tt else
  modify (fun s => {| s with g_vmo_task_maps := ∅ |});;
  on_mem (vmm_install_pf_handler pf).

(** ** Device memory (mmio_vmo.c): the table of devices with their base address registers *)
Definition pci_entry : Type := list (Z * Z).

Definition bar_contains (phys size : Z) (bar : Z * Z) : bool :=
  let '(bar_base, bar_size) := bar in
  if bar_size =? 0 then false else (phys >=? bar_base) && (u64 (phys + size) <=? u64 (bar_base + bar_size)).

Definition mmio_vmo_validate_range (g_pci_table : list pci_entry) (phys size : Z) : bool :=
  if size =? 0 then false else existsb (fun e => existsb (bar_contains phys size) e) g_pci_table.

Definition mmio_vmo_create (g_pci_table : list pci_entry) (phys size owner : Z) : M mo Z :=
  if negb (phys &. 0xFFF =? 0) || negb (size &. 0xFFF =? 0) || (size =? 0) then mret 0 else
  if size >? VMO_MAX_SIZE then mret 0 else
  if negb (mmio_vmo_validate_range g_pci_table phys size) then mret 0 else
  v ← vmo_create size VMO_ONDEMAND owner;
  if v =? 0 then mret 0 else
  x ← deref v;
  set_vmo v {| x with pages := map (fun p => u64 (phys + p * 4096)) (seqZ 0 (size / 4096)); v_flags := VMO_MMIO |. VMO_PINNED |};;
  mret v.
