(* ===== verification/VmoPages.v ===== *)
(** * The references of page frames

    [E] gives the references of the frames that others hold, [H] counts those of the memory
    objects.  [acct] says that the reference count of every frame that is not a page table
    is the sum of the two.  Each step of the memory object code on the memory changes [H]
    in a known way and leaves the bytes of the frames in a set [D] alone. *)
From S2P Require Import Prelude Bytes Pmm StateM Vmm VmmInv VmmMap VmmSpace.
Local Open Scope Z_scope.
Local Open Scope c_scope.

(** ** Counting *)
Definition plus (o : option Z) (n : nat) : option Z :=
  match o, n with None, O => None | _, _ => Some (default 0 o + Z.of_nat n) end.

(** How often a list of page addresses names a frame. *)
Fixpoint cnt (f : Z) (l : list Z) : nat :=
  match l with [] => O | p :: l => Nat.add (if decide (p = f * PAGE_SIZE) then 1%nat else 0%nat) (cnt f l) end.

Lemma cnt_app f l1 l2 : cnt f (l1 ++ l2) = (cnt f l1 + cnt f l2)%nat.
Proof. induction l1 as [|p l1 IH]; cbn [cnt app]; [done|]. rewrite IH. lia. Qed.

Lemma cnt_pos f l : (0 < cnt f l)%nat <-> f * PAGE_SIZE ∈ l.
Proof.
  induction l as [|p l IH]; cbn [cnt]; [split; [lia|by intros ?%not_elem_of_nil]|]. rewrite elem_of_cons, <- IH.
  destruct (decide _); [split; [intros _; by left|lia]|]. split; [by right|]. intros [|]; [done|lia].
Qed.

Lemma cnt_one f g : cnt g [f * PAGE_SIZE] = if decide (g = f) then 1%nat else 0%nat.
Proof. cbn [cnt]. destruct (decide (f * PAGE_SIZE = g * PAGE_SIZE)), (decide (g = f)); lia. Qed.

Lemma cnt_page f g l : cnt g (f * PAGE_SIZE :: l) = Nat.add (if decide (g = f) then 1%nat else 0%nat) (cnt g l).
Proof. change (f * PAGE_SIZE :: l) with ([f * PAGE_SIZE] ++ l). by rewrite cnt_app, cnt_one. Qed.

(** ** Accounts *)
Record acct (k : Z) (E : Z -> option Z) (H : Z -> nat) (s : vm) (T : gmap Z node) : Prop := {
  ac_inv : exists m, vm_inv k s m T /\ forall f, T !! f = None -> m !! f = plus (E f) (H f);
  ac_frame : forall f, (0 < H f)%nat -> 0 < f /\ T !! f = None /\ is_Some (ram s !! f) /\ (forall c, E f = Some c -> 0 < c) }.

Lemma acct_ext k E H H' s T : (forall f, H' f = H f) -> acct k E H s T -> acct k E H' s T.
Proof.
  intros Heq [(m & Hinv & Hm) Hf]. split.
  - exists m. split; [done|]. intros f HT. by rewrite Heq, Hm.
  - intros f. rewrite Heq. apply Hf.
Qed.

Lemma plus_plus o a b : plus (plus o a) b = plus o (a + b).
Proof. unfold plus. destruct o, a, b; cbn; try done; f_equal; lia. Qed.

Lemma plus_pos o n : (forall c, o = Some c -> 0 < c) -> forall c, plus o n = Some c -> 0 < c.
Proof. intros Ho c. unfold plus. destruct o as [c'|], n; cbn; intros [= <-]; try specialize (Ho c' eq_refl); lia. Qed.

(** Part of the references counts as those of others, and back. *)
Lemma acct_lend k E H s T l : acct k E (fun f => (H f + cnt f l)%nat) s T -> acct k (fun f => plus (E f) (cnt f l)) H s T.
Proof.
  intros [(m & Hinv & Hm) Hf]. split.
  - exists m. split; [done|]. intros f HT. rewrite Hm, plus_plus by done. f_equal. lia.
  - intros f Hp. destruct (Hf f) as (? & ? & ? & ?); [lia|]. split_and!; try done. by apply plus_pos.
Qed.

Lemma acct_return k E H0 H s0 s T l : acct k E (fun f => (H0 f + cnt f l)%nat) s0 T -> ram s = ram s0 ->
  (forall f, (0 < H f)%nat -> (0 < H0 f)%nat) ->
  acct k (fun f => plus (E f) (cnt f l)) H s T -> acct k E (fun f => (H f + cnt f l)%nat) s T.
Proof.
  intros Ha0 Hram HH [(m & Hinv & Hm) Hf]. split.
  - exists m. split; [done|]. intros f HT. rewrite Hm, plus_plus by done. f_equal. lia.
  - intros f Hp. rewrite Hram. apply (ac_frame _ _ _ _ _ Ha0). specialize (HH f). lia.
Qed.

(** Nothing but tables, and bytes outside [D], changes. *)
Record grows (D : Z -> Prop) (s s' : vm) (T T' : gmap Z node) : Prop := {
  gr_kernel : kernel_root s' = kernel_root s;
  gr_total : total_pages (phys_pages s') = total_pages (phys_pages s);
  gr_tables : T ⊆ T';
  gr_roots : forall r, is_root T' r -> is_root T r;
  gr_data : forall f, D f -> T !! f = None -> T' !! f = None /\ ram s' !! f = ram s !! f }.

Lemma grows_refl D s T : grows D s s T T.
Proof. by split. Qed.

Lemma grows_trans D s1 s2 s3 T1 T2 T3 : grows D s1 s2 T1 T2 -> grows D s2 s3 T2 T3 -> grows D s1 s3 T1 T3.
Proof.
  intros [] []. split; try congruence; [by etrans|eauto|].
  intros f Hf HT. destruct (gr_data0 f Hf HT) as [E1 E2]. destruct (gr_data1 f Hf E1) as [E3 E4]. split; congruence.
Qed.

Lemma grows_pmm D s p T : total_pages p = total_pages (phys_pages s) -> grows D s (set_pmm s p) T T.
Proof. by split. Qed.

(** Every frame has a user. *)
Definition all_used (E : Z -> option Z) (H : Z -> nat) (s : vm) (T : gmap Z node) : Prop := forall f, 0 <= f < total_pages (phys_pages s) ->
  is_Some (E f) \/ (0 < H f)%nat \/ is_Some (T !! f).

Section steps.
  Context (k : Z) (E : Z -> option Z) (D : Z -> Prop) (H : Z -> nat) (s : vm) (T : gmap Z node).
  Hypothesis Ha : acct k E H s T.

Lemma acct_used m : vm_inv k s m T -> (forall f, T !! f = None -> m !! f = plus (E f) (H f)) -> exhausted s m -> all_used E H s T.
Proof using.
  intros Hinv Hm Hall f Hf. destruct (T !! f) eqn:ET; [by right; right|]. specialize (Hall f Hf). rewrite Hm in Hall by done.
  unfold plus in Hall. destruct (E f); [by left|]. right; left. destruct (H f); [by destruct Hall|lia].
Qed.

(** The manager changes: the new counts. *)
Lemma acct_pmm m p m' H' : vm_inv k s m T -> pmm_rep k p m' -> total_pages p = total_pages (phys_pages s) ->
  (forall f, T !! f <> None -> m' !! f = m !! f) -> (forall f, T !! f = None -> m' !! f = plus (E f) (H' f)) ->
  (forall f, (0 < H' f)%nat -> 0 < f /\ T !! f = None /\ is_Some (ram s !! f) /\ (forall c, E f = Some c -> 0 < c)) ->
  (forall f, T !! f = None -> is_Some (m !! f) -> m' !! f = None -> (0 < H f)%nat) ->
  acct k E H' (set_pmm s p) T.
Proof using Ha.
  intros Hinv Hp Ht HT Hm Hf Hfree. split; [|exact Hf]. exists m'. split; [|exact Hm].
  assert (H 0 = 0%nat) as H0. { destruct (H 0) eqn:E0; [done|]. destruct (ac_frame _ _ _ _ _ Ha 0) as [? _]; lia. }
  assert (T !! 0 = None) as HT0. { destruct (T !! 0) as [[r q]|] eqn:E0; [|done]. by apply (vi_node _ _ _ _ Hinv) in E0 as (_ & _ & ? & _). }
  apply (inv_set_pmm k s m T p m' Hinv Hp Ht).
  - intros f r q Hq. rewrite HT by (by rewrite Hq). by apply (vi_node _ _ _ _ Hinv) in Hq as (_ & ? & _).
  - intros f Hr Hn. destruct (m !! f) eqn:Em; [|apply (vi_free _ _ _ _ Hinv); by rewrite <- ?Ht].
    destruct (T !! f) as [[r q]|] eqn:ET; [by apply (vi_node _ _ _ _ Hinv) in ET as (? & _)|].
    apply (ac_frame _ _ _ _ _ Ha), Hfree; [done|by rewrite Em|done].
  - destruct (m' !! 0) eqn:E0; [done|]. pose proof (vi_zero _ _ _ _ Hinv) as Hz.
    pose proof (Hfree 0 HT0 Hz E0). lia.
Qed.

Lemma acct_alloc : wp alloc_frame (fun a s' => same_ptes s s' T /\ grows D s s' T T /\ ram s' = ram s /\
    if a =? 0 then acct k E H s' T /\ all_used E H s T else
    exists f, a = f * PAGE_SIZE /\ E f = None /\ H f = 0%nat /\ T !! f = None /\
      acct k E (fun g => (if decide (g = f) then 1 else H g)%nat) s' T) s.
Proof using Ha.
  destruct Ha as [(m & Hinv & Hm) Hfr]. destruct (alloc_frame_spec k s m T Hinv) as (p & a & Ea & Ht & Hcase).
  exists (set_pmm s p), a. split; [done|]. split; [intros r va _; by apply pte_ram|]. split; [by apply grows_pmm|]. split; [done|].
  destruct Hcase as [(-> & Hp & Hall)|(c & -> & Hc & Hn & Hp)].
  - cbn. split; [|apply (acct_used m Hinv Hm); by intros i Hi; apply Hall; rewrite Ht].
    apply (acct_pmm m p m); try done. intros f _ [? ?]. congruence.
  - destruct (Z.eqb_spec (c * PAGE_SIZE) 0); [lia|]. exists c. rewrite Ht in Hc. pose proof (table_fresh k s m T c Hinv Hn) as HT.
    pose proof (Hm c HT) as Ec. rewrite Hn in Ec. unfold plus in Ec. destruct (E c) eqn:EE; [done|]. destruct (H c) eqn:EH; [|done].
    split_and!; try done. apply (acct_pmm m p (<[c := 1]> m)); try done.
    + intros f Hf. rewrite lookup_insert_ne; [done|]. by intros <-.
    + intros f Hf. destruct (decide (f = c)) as [->|]; [by rewrite lookup_insert_eq, EE|by rewrite lookup_insert_ne, Hm].
    + intros f. destruct (decide (f = c)) as [->|]; [|apply Hfr]. intros _. split; [lia|]. split; [done|].
      split; [apply (vi_free _ _ _ _ Hinv); [lia|done]|]. by rewrite EE.
    + intros f _ [? ?] [? _]%lookup_insert_None. congruence.
Qed.

Lemma acct_ref f : (0 < H f)%nat -> default 0 (E f) + Z.of_nat (H f) < 255 ->
  acct k E (fun g => (if decide (g = f) then S (H g) else H g)%nat) (set_pmm s (pmm_page_ref (phys_pages s) (f * PAGE_SIZE))) T.
Proof using Ha.
  intros Hf Hroom. destruct Ha as [(m & Hinv & Hm) Hfr]. destruct (Hfr f Hf) as (Hf0 & HT & Hram & Hpos).
  pose proof (Hm f HT) as Ef. assert (plus (E f) (H f) = Some (default 0 (E f) + Z.of_nat (H f))) as Ep.
  { unfold plus. destruct (H f); [lia|]. by destruct (E f). }
  apply (acct_pmm m _ (add_ref m f)); try done.
  - rewrite <- (Z.div_mul f PAGE_SIZE) at 2 by lia. apply rep_ref; [apply (vi_pmm _ _ _ _ Hinv)|lia].
  - apply (pmm_exec_keeps (phys_pages s) (Page_ref (f * PAGE_SIZE))).
  - intros g Hg. unfold add_ref. rewrite Ef, Ep. rewrite lookup_insert_ne; [done|]. intros <-. done.
  - intros g Hg. unfold add_ref. rewrite Ef, Ep, Z.min_r by lia. destruct (decide (g = f)) as [->|].
    + rewrite lookup_insert_eq. unfold plus. destruct (E f); cbn; f_equal; lia.
    + by rewrite lookup_insert_ne, Hm.
  - intros g. destruct (decide (g = f)) as [->|]; [|apply Hfr]. intros _. by apply Hfr.
  - intros g Hg [c Hc]. unfold add_ref. rewrite Ef, Ep. intros [? _]%lookup_insert_None. congruence.
Qed.

(** A manager in which the frame [f] has one reference less. *)
Lemma acct_drop f p : (0 < H f)%nat -> total_pages p = total_pages (phys_pages s) ->
  (forall m, pmm_rep k (phys_pages s) m -> pmm_rep k p (drop_ref m f)) ->
  acct k E (fun g => (if decide (g = f) then pred (H g) else H g)%nat) (set_pmm s p) T.
Proof using Ha.
  intros Hf Ht Hp. destruct Ha as [(m & Hinv & Hm) Hfr]. destruct (Hfr f Hf) as (Hf0 & HT & Hram & Hpos).
  assert (forall g, drop_ref m f !! g = if decide (g = f) then plus (E g) (pred (H g)) else m !! g) as Hdrop.
  { intros g. unfold drop_ref. rewrite (Hm f HT). unfold plus. destruct (H f) as [|n] eqn:EH; [lia|].
    destruct (E f) as [c|] eqn:EE; [specialize (Hpos c eq_refl)|]; cbn [default from_option id].
    - destruct (Z.leb_spec (c + Z.of_nat (S n)) 1); [lia|]. destruct (decide (g = f)) as [->|]; [|by rewrite lookup_insert_ne].
      rewrite lookup_insert_eq, EE, EH. cbn. f_equal. lia.
    - destruct (Z.leb_spec (0 + Z.of_nat (S n)) 1); destruct (decide (g = f)) as [->|].
      + rewrite lookup_delete_eq, EE, EH. by replace n with 0%nat by lia.
      + by rewrite lookup_delete_ne.
      + rewrite lookup_insert_eq, EE, EH. cbn. destruct n; [lia|]. f_equal. lia.
      + by rewrite lookup_insert_ne. }
  apply (acct_pmm m _ (drop_ref m f)); try done.
  - apply Hp, (vi_pmm _ _ _ _ Hinv).
  - intros g Hg. rewrite Hdrop. by destruct (decide (g = f)) as [->|].
  - intros g Hg. rewrite Hdrop. destruct (decide (g = f)); [done|by apply Hm].
  - intros g. destruct (decide (g = f)) as [->|]; [|apply Hfr]. intros _. by apply Hfr.
  - intros g Hg [c Hc]. rewrite Hdrop. destruct (decide (g = f)) as [->|]; [done|]. congruence.
Qed.

Lemma unref_total a : total_pages (pmm_page_unref (phys_pages s) a) = total_pages (phys_pages s).
Proof using. apply (pmm_exec_keeps (phys_pages s) (Free_page a)). Qed.

Lemma acct_unref f : (0 < H f)%nat ->
  acct k E (fun g => (if decide (g = f) then pred (H g) else H g)%nat) (set_pmm s (pmm_page_unref (phys_pages s) (f * PAGE_SIZE))) T.
Proof using Ha.
  intros Hf. destruct (ac_frame _ _ _ _ _ Ha f Hf) as (Hf0 & _). apply acct_drop; [done|apply unref_total|]. intros m Hrep.
  unfold pmm_page_unref, pmm_free_page. destruct (Z.eqb_spec (f * PAGE_SIZE) 0); [lia|]. rewrite Z.div_mul by lia.
  pose proof (rep_drop k (phys_pages s) m f Hrep ltac:(lia)) as Hd.
  destruct (drop_page (phys_pages s) f) as [p []]; [apply rep_lower; [done|lia]|done].
Qed.

Lemma acct_write f pg : T !! f = None -> is_Some (ram s !! f) -> page_ok pg -> ~ D f ->
  acct k E H (set_frame s f pg) T /\ same_ptes s (set_frame s f pg) T /\ grows D s (set_frame s f pg) T T.
Proof using Ha.
  intros HT Hram Hpg HD. destruct Ha as [(m & Hinv & Hm) Hfr]. split; [split|split].
  - exists m. split; [by apply (data_inv k s m T)|done].
  - intros g Hg. destruct (Hfr g Hg) as (? & ? & ? & ?). split_and!; try done. by apply (data_dom s f pg Hram).
  - intros r va Hr. by apply (data_pte k s m T).
  - split; try done. intros g Hg HTg. split; [done|]. cbn. rewrite lookup_insert_ne; [done|]. intros <-. done.
Qed.

Lemma ext_grows s' m m' T' : vm_ext s s' m m' T T' -> (forall f, D f -> T !! f = None -> is_Some (m !! f)) -> grows D s s' T T'.
Proof using.
  intros He HD. split; [by eapply vm_ext_root|apply He..|]. intros f Hf HT. apply (ve_data _ _ _ _ _ _ He); auto.
Qed.

Lemma acct_map r virt phys flags : is_root T r -> own s r virt -> in_u 64 (phys |. flags) -> (forall f, D f -> (0 < H f)%nat) ->
  wp (vmm_map_page_by_cr3 (r * PAGE_SIZE) virt phys flags) (fun ok s' => exists T', acct k E H s' T' /\ grows D s s' T T' /\
    if (ok : bool) then maps s s' T r virt (kept (phys |. flags)) else same_ptes s s' T /\ all_used E H s T') s.
Proof using Ha.
  intros Hr Hown Hv HD. destruct Ha as [(m & Hinv & Hm) Hfr].
  assert (forall f, (0 < H f)%nat -> T !! f = None -> is_Some (m !! f)) as Hin.
  { intros f Hf HT. rewrite Hm by done. unfold plus. destruct (E f), (H f); try done. lia. }
  eapply wp_mono; [|by apply (map_page_by_cr3_spec k s m T)]. intros ok s' (m' & T' & Hinv' & He & Hk & Hok). exists T'.
  assert (forall f, T' !! f = None -> m' !! f = plus (E f) (H f)) as Hm'.
  { intros f Hf. rewrite Hk by done. apply Hm. eapply lookup_weaken_None; [done|apply He]. }
  split; [split|split].
  - by exists m'.
  - intros f Hf. destruct (Hfr f Hf) as (H1 & H2 & H3 & H4). split; [done|]. destruct (ve_data _ _ _ _ _ _ He f) as [H5 H6]; [auto..|].
    rewrite H6. done.
  - eapply ext_grows; [done|]. auto.
  - destruct ok; [done|]. destruct Hok as [Hs Hall]. split; [done|]. intros f Hf. destruct (T' !! f) eqn:ET; [by right; right|].
    specialize (Hall f Hf). rewrite Hm' in Hall by done. unfold plus in Hall. destruct (E f); [by left|]. right; left.
    destruct (H f); [by destruct Hall|lia].
Qed.


Lemma acct_leaf m s' : (forall f, T !! f = None -> m !! f = plus (E f) (H f)) -> (forall f, D f -> (0 < H f)%nat) ->
  vm_inv k s' m T -> vm_ext s s' m m T T -> acct k E H s' T /\ grows D s s' T T.
Proof using Ha.
  intros Hm HD Hinv' He. split; [split|].
  - by exists m.
  - intros f Hf. destruct (ac_frame _ _ _ _ _ Ha f Hf) as (? & ? & ? & ?). split_and!; try done. by apply (ve_dom _ _ _ _ _ _ He).
  - eapply ext_grows; [done|]. intros f Hf HT. rewrite Hm by done. unfold plus. specialize (HD f Hf).
    destruct (E f), (H f); try done. lia.
Qed.

Lemma acct_unmap r virt : is_root T r -> own s r virt -> (forall f, D f -> (0 < H f)%nat) ->
  wp (vmm_unmap_page_by_cr3 (r * PAGE_SIZE) virt) (fun _ s' => acct k E H s' T /\ grows D s s' T T /\ maps s s' T r virt None) s.
Proof using Ha.
  intros Hr Hown HD. destruct (ac_inv _ _ _ _ _ Ha) as (m & Hinv & Hm).
  eapply wp_mono; [|by apply (unmap_spec k s m T Hinv)]. intros u s' (Hinv' & He & Hmap).
  destruct (acct_leaf m s' Hm HD Hinv' He). done.
Qed.

Lemma acct_protect r virt fl : is_root T r -> own s r virt -> (forall f, D f -> (0 < H f)%nat) ->
  wp (vmm_protect_page_by_cr3 (r * PAGE_SIZE) virt fl) (fun ok s' => acct k E H s' T /\ grows D s s' T T /\
    maps s s' T r virt (option_map (fun e => protected e fl) (pte s r virt))) s.
Proof using Ha.
  intros Hr Hown HD. destruct (ac_inv _ _ _ _ _ Ha) as (m & Hinv & Hm).
  eapply wp_mono; [|by apply (protect_spec k s m T Hinv)]. intros u s' (Hinv' & He & Hmap).
  destruct (acct_leaf m s' Hm HD Hinv' He) as [Ha' Hg]. split; [done|]. split; [done|].
  destruct (pte s r virt) as [e|] eqn:Ep; [by destruct Hmap as [_ Hmap]|]. destruct Hmap as [_ ->].
  intros r' va _ _. case_bool_decide as Eb; [|done]. destruct Eb as [-> Ev]. by rewrite (pte_vpn s r va virt Ev).
Qed.

Lemma acct_zero f : T !! f = None -> 0 <= f -> is_Some (ram s !! f) -> ~ D f ->
  wp (kv ← hhdm (f * PAGE_SIZE); vmm_memset kv 0 (Z.to_nat PAGE_SIZE)) (fun _ s' => acct k E H s' T /\ same_ptes s s' T /\ grows D s s' T T /\
    ram s' = <[f := zero_page]> (ram s)) s.
Proof using Ha.
  intros HT Hf Hram HD. destruct (ac_inv _ _ _ _ _ Ha) as (m & Hinv & Hm). unfold hhdm. do 2 wp_step. fold (ptr s f).
  exists (set_frame s f zero_page), tt. split; [by eapply clear_frame|].
  destruct (acct_write f zero_page HT Hram page_ok_zero HD) as (? & ? & ?). done.
Qed.
End steps.

(** ** Lists of pages *)

(** Addresses of frames. *)
Definition page_list (l : list Z) : Prop := forall p, p ∈ l -> exists f, p = f * PAGE_SIZE /\ 0 < f.

Lemma page_list_cons p l : page_list (p :: l) -> (exists f, p = f * PAGE_SIZE /\ 0 < f) /\ page_list l.
Proof. intros Hl. split; [apply Hl; by left|]. intros q Hq. apply Hl. by right. Qed.

Definition run_pages (f : Z) (n : nat) : list Z := map (fun p => f * PAGE_SIZE + p * 4096) (seqZ 0 (Z.of_nat n)).

Lemma run_pages_S f n : run_pages f (S n) = f * PAGE_SIZE :: run_pages (f + 1) n.
Proof.
  unfold run_pages. rewrite seqZ_cons by lia. cbn [map]. f_equal; [lia|]. replace (Z.pred (Z.of_nat (S n))) with (Z.of_nat n) by lia.
  change (Z.succ 0) with (1 + 0). rewrite <- (fmap_add_seqZ 1 0 (Z.of_nat n)). cbn. rewrite map_map. apply map_ext. intros q. lia.
Qed.

Lemma cnt_run f n : forall g, cnt g (run_pages f n) = if decide (f <= g < f + Z.of_nat n) then 1%nat else 0%nat.
Proof.
  revert f. induction n as [|n IH]; intros f g; [by rewrite decide_False by lia|]. rewrite run_pages_S. cbn [cnt]. rewrite IH.
  destruct (decide (f * PAGE_SIZE = g * PAGE_SIZE)), (decide (f + 1 <= g < f + 1 + Z.of_nat n)), (decide (f <= g < f + Z.of_nat (S n))); lia.
Qed.

Section lists.
  Context (k : Z) (E : Z -> option Z) (D : Z -> Prop) (T : gmap Z node).

Lemma acct_refs l : forall H s, acct k E H s T -> page_list l ->
  (forall f, (0 < cnt f l)%nat -> (0 < H f)%nat /\ default 0 (E f) + Z.of_nat (H f + cnt f l) <= 255) ->
  wp (for_each l (fun p => if p =? 0 then mret tt else modify (fun s => {| s with phys_pages := pmm_page_ref (phys_pages s) p |})))
    (fun _ s' => acct k E (fun g => (H g + cnt g l)%nat) s' T /\ ram s' = ram s /\ grows D s s' T T) s.
Proof using.
  induction l as [|p l IH]; intros H s Ha Hl Hroom; cbn [for_each].
  { wp_step. split; [|split; [done|apply grows_refl]]. eapply acct_ext; [|done]. intros f. cbn. lia. }
  apply page_list_cons in Hl as [(f & -> & Hf) Hl]. destruct (Z.eqb_spec (f * PAGE_SIZE) 0); [lia|]. do 2 wp_step.
  destruct (Hroom f) as [H1 H2]; [apply cnt_pos; by left|]. rewrite cnt_page, decide_True in H2 by done.
  pose proof (acct_ref k E H s T Ha f H1 ltac:(lia)) as Ha'. fold (set_pmm s (pmm_page_ref (phys_pages s) (f * PAGE_SIZE))).
  eapply wp_mono; [|apply (IH _ _ Ha' Hl)].
  - intros u s' (H3 & H4 & H5). split; [|split; [done|]].
    + eapply acct_ext; [|exact H3]. intros g. rewrite cnt_page. cbv beta. destruct (decide (g = f)); lia.
    + eapply grows_trans; [|exact H5]. apply grows_pmm. apply (pmm_exec_keeps (phys_pages s) (Page_ref (f * PAGE_SIZE))).
  - intros g Hg. destruct (Hroom g) as [H3 H4]; [cbn [cnt]; lia|]. rewrite cnt_page in H4. destruct (decide (g = f)); lia.
Qed.

Lemma acct_unrefs l : forall H s, acct k E H s T -> page_list l -> (forall f, (cnt f l <= H f)%nat) ->
  wp (for_each l (fun p => if p =? 0 then mret tt else modify (fun s => {| s with phys_pages := pmm_page_unref (phys_pages s) p |})))
    (fun _ s' => acct k E (fun g => (H g - cnt g l)%nat) s' T /\ ram s' = ram s /\ grows D s s' T T) s.
Proof using.
  induction l as [|p l IH]; intros H s Ha Hl Hle; cbn [for_each].
  { wp_step. split; [|split; [done|apply grows_refl]]. eapply acct_ext; [|done]. intros f. cbn. lia. }
  apply page_list_cons in Hl as [(f & -> & Hf) Hl]. destruct (Z.eqb_spec (f * PAGE_SIZE) 0); [lia|]. do 2 wp_step.
  pose proof (Hle f) as H1. rewrite cnt_page, decide_True in H1 by done.
  pose proof (acct_unref k E H s T Ha f ltac:(lia)) as Ha'. fold (set_pmm s (pmm_page_unref (phys_pages s) (f * PAGE_SIZE))).
  eapply wp_mono; [|apply (IH _ _ Ha' Hl)].
  - intros u s' (H3 & H4 & H5). split; [|split; [done|]].
    + eapply acct_ext; [|exact H3]. intros g. rewrite cnt_page. cbv beta. destruct (decide (g = f)); lia.
    + eapply grows_trans; [|exact H5]. apply grows_pmm, unref_total.
  - intros g. specialize (Hle g). rewrite cnt_page in Hle. destruct (decide (g = f)); lia.
Qed.

Lemma acct_same H s p : acct k E H s T -> total_pages p = total_pages (phys_pages s) ->
  (forall m, pmm_rep k (phys_pages s) m -> pmm_rep k p m) -> acct k E H (set_pmm s p) T.
Proof using.
  intros Ha Ht Hp. destruct (ac_inv _ _ _ _ _ Ha) as (m & Hinv & Hm).
  eapply (acct_pmm k E H s T Ha m p m); try done; [apply Hp, (vi_pmm _ _ _ _ Hinv)|apply Ha|]. intros f _ [? ?]. congruence.
Qed.

Lemma acct_drops n : forall f H s, acct k E H s T -> 0 < f -> (forall g, (cnt g (run_pages f n) <= H g)%nat) ->
  acct k E (fun g => (H g - cnt g (run_pages f n))%nat) (set_pmm s (drop_pages (phys_pages s) f n)) T.
Proof using.
  induction n as [|n IH]; intros f H s Ha Hf Hle; cbn [drop_pages].
  { eapply acct_ext; [|by apply (acct_same H s (phys_pages s))]. intros g. change (cnt g (run_pages f 0)) with 0%nat. lia. }
  rewrite run_pages_S in Hle. pose proof (Hle f) as H1. rewrite cnt_page, decide_True in H1 by done.
  assert (total_pages (fst (drop_page (phys_pages s) f)) = total_pages (phys_pages s)) as Ht by (unfold drop_page; by split_ifs).
  pose proof (acct_drop k E H s T Ha f (fst (drop_page (phys_pages s) f)) ltac:(lia) Ht
    ltac:(intros; apply rep_drop; [done|lia])) as Ha'.
  eapply acct_ext; [|apply (IH (f + 1) _ _ Ha' ltac:(lia))].
  - intros g. rewrite run_pages_S, cnt_page. cbv beta. destruct (decide (g = f)); lia.
  - intros g. specialize (Hle g). rewrite cnt_page in Hle. destruct (decide (g = f)); lia.
Qed.

Lemma acct_free_run f n H s : acct k E H s T -> 0 < f -> (forall g, (cnt g (run_pages f n) <= H g)%nat) ->
  acct k E (fun g => (H g - cnt g (run_pages f n))%nat) (set_pmm s (pmm_free_pages (phys_pages s) (f * PAGE_SIZE) (Z.of_nat n))) T.
Proof using.
  intros Ha Hf Hle. unfold pmm_free_pages. destruct (Z.eqb_spec (f * PAGE_SIZE) 0); [lia|]. destruct (Z.eqb_spec (Z.of_nat n) 0).
  - replace n with 0%nat by lia. cbn [orb]. eapply acct_ext; [|by apply (acct_same H s (phys_pages s))]. intros g. change (cnt g (run_pages f 0)) with 0%nat. lia.
  - cbn [orb]. rewrite Z.div_mul, Nat2Z.id by lia. apply (acct_same _ (set_pmm s (drop_pages (phys_pages s) f n))).
    + by apply acct_drops.
    + unfold lower_hint. by split_ifs.
    + intros m Hm. apply rep_lower; [done|lia].
Qed.

Lemma acct_alloc_run n H s : acct k E H s T -> 0 < n ->
  wp (fun s => let '(p, r) := pmm_alloc_pages (phys_pages s) n in Some ({| s with phys_pages := p |}, r)) (fun a s' =>
    ram s' = ram s /\ grows D s s' T T /\
    if a =? 0 then acct k E H s' T else exists f, a = f * PAGE_SIZE /\ 0 < f /\ (forall g, f <= g < f + n -> E g = None /\ H g = 0%nat) /\
      acct k E (fun g => (H g + cnt g (run_pages f (Z.to_nat n)))%nat) s' T) s.
Proof using.
  intros Ha Hn. destruct (ac_inv _ _ _ _ _ Ha) as (m & Hinv & Hm). pose proof (vi_pmm _ _ _ _ Hinv) as Hrep.
  destruct (alloc_pages_step 0 k _ m n Hrep ltac:(lia)) as (m' & Hs & Hr).
  pose proof (proj1 (pmm_exec_keeps (phys_pages s) (Alloc_pages n))) as Ht. cbn [pmm_exec] in Ht.
  unfold wp. destruct (pmm_alloc_pages (phys_pages s) n) as [p a]. cbn [fst snd] in *. exists (set_pmm s p), a. split; [done|].
  split; [done|]. split; [by apply grows_pmm|].
  assert ((a = 0 /\ m' = m) \/ exists f, a = f * PAGE_SIZE /\ 0 <= f /\ f + n <= total_pages (phys_pages s) /\ free_run m f n /\
    m' = use_run m f (Z.to_nat n)) as Hcase.
  { inversion Hs as [| | |m1 r1 H1| | | | | | | | | |]; subst; [lia| |right; by exists i|by left].
    inversion H1; subst; [right|by left]. exists i. split_and!; [done|lia..| |done]. intros j Hj. by replace j with i by lia. }
  destruct Hcase as [[-> ->]|(f & -> & Hf & Hft & Hfree & ->)].
  { cbn. apply (acct_pmm k E H s T Ha m p m); try done; [apply Ha|]. intros f _ [? ?]. congruence. }
  assert (f <> 0) as Hf0. { intros ->. pose proof (Hfree 0 ltac:(lia)) as Hz. destruct (vi_zero _ _ _ _ Hinv) as [? Ez]. congruence. }
  destruct (Z.eqb_spec (f * PAGE_SIZE) 0); [lia|]. exists f. split; [done|]. split; [lia|].
  assert (forall g, f <= g < f + n -> T !! g = None /\ E g = None /\ H g = 0%nat) as Hnew.
  { intros g Hg. pose proof (Hfree g Hg) as Hn'. pose proof (table_fresh k s m T g Hinv Hn') as HT. split; [done|].
    rewrite Hm in Hn' by done. unfold plus in Hn'. by destruct (E g), (H g). }
  assert (forall g, cnt g (run_pages f (Z.to_nat n)) = if decide (f <= g < f + n) then 1%nat else 0%nat) as Hc.
  { intros g. rewrite cnt_run, Z2Nat.id by lia. done. }
  assert (forall g, use_run m f (Z.to_nat n) !! g = if decide (f <= g < f + n) then Some 1 else m !! g) as Hu.
  { intros g. rewrite use_run_lookup. unfold in_run. rewrite Z2Nat.id by lia.
    destruct (decide _), (Z.leb_spec f g), (Z.ltb_spec g (f + n)); cbn [andb]; (done || lia). }
  split; [intros g Hg; by apply Hnew|]. apply (acct_pmm k E H s T Ha m p (use_run m f (Z.to_nat n))); try done.
  - intros g Hg. rewrite Hu. destruct (decide _) as [Hd|]; [|done]. by destruct (Hnew g Hd).
  - intros g Hg. rewrite Hu, Hc. destruct (decide _) as [Hd|]; [|by rewrite Nat.add_0_r, Hm].
    destruct (Hnew g Hd) as (_ & -> & ->). done.
  - intros g. rewrite Hc. destruct (decide _) as [Hd|]; [|rewrite Nat.add_0_r; apply Ha]. intros _.
    destruct (Hnew g Hd) as (? & EE & _). split; [lia|]. split; [done|]. split; [|by rewrite EE]. apply (vi_free _ _ _ _ Hinv); [lia|]. by apply Hfree.
  - intros g _ [c Hg]. rewrite Hu. destruct (decide _); [done|]. congruence.
Qed.
End lists.
