(* ===== verification/VmoInv.v ===== *)
(** * The invariant of memory objects

    [held] counts the references to a frame that the memory objects account for: one for
    every entry of an object's array and one for every mapped page.  [uses] counts the
    users of an object, its mappings and its clones.  [mo_inv] ties both to the counters of
    the code: frames, objects and mappings.  The map [C] gives the references to objects
    that their owners (capabilities) hold.  On-demand objects and device memory are outside
    the invariant; [VmoProps] shows why the first cannot satisfy it. *)
From S2P Require Import Prelude Bytes Pmm StateM Vmm VmmInv VmmMap VmmSpace Rlimit Vmo VmoPages.
Local Open Scope Z_scope.
Local Open Scope c_scope.

(** ** Sums over finite maps *)
Definition msum {K A} `{Countable K} (f : A -> nat) (m : gmap K A) : nat := map_fold (fun _ x n => (f x + n)%nat) 0%nat m.

Section msum.
  Context {K A : Type} `{Countable K}.
  Implicit Types (f g : A -> nat) (m : gmap K A).

Lemma msum_insert f m i x : m !! i = None -> msum f (<[i := x]> m) = (f x + msum f m)%nat.
Proof. intros Hi. unfold msum. rewrite map_fold_insert_L; [done| |done]. intros. lia. Qed.

Lemma msum_delete f m i x : m !! i = Some x -> msum f m = (f x + msum f (delete i m))%nat.
Proof. intros Hi. rewrite <- (msum_insert f (delete i m) i x) by apply lookup_delete_eq. by rewrite insert_delete_id. Qed.

Lemma msum_update f m i x y : m !! i = Some x -> (msum f (<[i := y]> m) + f x = f y + msum f m)%nat.
Proof.
  intros Hi. rewrite (msum_delete f m i x), (msum_delete f (<[i := y]> m) i y) by (done || apply lookup_insert_eq).
  rewrite delete_insert_eq. lia.
Qed.

Lemma msum_ext f g m : (forall i x, m !! i = Some x -> f x = g x) -> msum f m = msum g m.
Proof.
  induction m as [|i x m Hi IH] using map_ind; intros Hfg; [done|]. rewrite !msum_insert by done.
  rewrite (Hfg i x), IH; [done| |by rewrite lookup_insert_eq]. intros j y Hj. apply (Hfg j). rewrite lookup_insert_ne; [done|]. intros ->. congruence.
Qed.

Lemma msum_le f m i x : m !! i = Some x -> (f x <= msum f m)%nat.
Proof. intros Hi. rewrite (msum_delete f m i x Hi). lia. Qed.

Lemma msum_pos f m : (0 < msum f m)%nat -> exists i x, m !! i = Some x /\ (0 < f x)%nat.
Proof.
  induction m as [|i x m Hi IH] using map_ind; [unfold msum; rewrite map_fold_empty; lia|]. rewrite msum_insert by done. intros Hp.
  destruct (decide (0 < f x)%nat); [exists i, x; by rewrite lookup_insert_eq|]. destruct IH as (j & y & Hj & Hy); [lia|].
  exists j, y. split; [|done]. rewrite lookup_insert_ne; [done|]. intros ->. congruence.
Qed.

Lemma msum_zero f m : (forall i x, m !! i = Some x -> f x = 0%nat) -> msum f m = 0%nat.
Proof.
  intros Hz. destruct (msum f m) eqn:E; [done|]. destruct (msum_pos f m) as (i & x & Hi & Hx); [lia|]. rewrite (Hz i x Hi) in Hx. lia.
Qed.

Lemma msum_agree f m m' : (forall i, option_map f (m' !! i) = option_map f (m !! i)) -> msum f m' = msum f m.
Proof.
  assert (forall m0, msum f m0 = msum (fun n => n) (f <$> m0)) as Hf.
  { intros m0. induction m0 as [|i x m0 Hi IH] using map_ind; [by rewrite fmap_empty|].
    rewrite fmap_insert. rewrite msum_insert, IH by done. unfold msum at 2. rewrite map_fold_insert_L; [done|intros; lia|].
    by rewrite lookup_fmap, Hi. }
  intros Hm. rewrite (Hf m), (Hf m'). f_equal. apply map_eq. intros i. rewrite !lookup_fmap. apply Hm.
Qed.
End msum.

(** ** Users *)

(** The pages of the object that a mapping shows. *)
Definition span (V : gmap Z vmo) (mp : vmo_mapping) : list Z :=
  match V !! m_vmo mp with
  | Some x => take (Z.to_nat (len_pages mp)) (drop (Z.to_nat (m_offset mp / 4096)) (pages x))
  | None => []
  end.

Definition held (s : mo) (f : Z) : nat :=
  (msum (fun x => cnt f (pages x)) (vmos s) + msum (fun mp => cnt f (span (vmos s) mp)) (g_vmo_task_maps s))%nat.

Lemma span_in V mp f : (0 < cnt f (span V mp))%nat -> exists x, V !! m_vmo mp = Some x /\ (0 < cnt f (pages x))%nat.
Proof.
  unfold span. destruct (V !! m_vmo mp) as [x|]; [|cbn; lia]. rewrite cnt_pos. intros (i & Hi & _)%elem_of_take. rewrite lookup_drop in Hi.
  exists x. split; [done|]. apply cnt_pos. by eapply list_elem_of_lookup_2.
Qed.

(** The frames with references are the pages of the objects. *)
Lemma held_live s f : (0 < held s f)%nat <-> exists v x, vmos s !! v = Some x /\ (0 < cnt f (pages x))%nat.
Proof.
  unfold held. split.
  - intros Hp. destruct (decide (0 < msum (fun x => cnt f (pages x)) (vmos s))%nat) as [H1|H1]; [by apply msum_pos in H1|].
    destruct (msum_pos (fun mp => cnt f (span (vmos s) mp)) (g_vmo_task_maps s)) as (i & mp & _ & Hc); [lia|].
    apply span_in in Hc as (x & Hx & Hc). by exists (m_vmo mp), x.
  - intros (v & x & Hx & Hc). pose proof (msum_le (fun x => cnt f (pages x)) _ v x Hx). cbv beta in *. lia.
Qed.

(** A mapped page has the reference of the array and that of the mapping. *)
Lemma held_two s i mp (q : nat) f a : g_vmo_task_maps s !! i = Some mp -> span (vmos s) mp !! q = Some a -> a = f * PAGE_SIZE -> (2 <= held s f)%nat.
Proof.
  intros Hmp Hq ->. assert (0 < cnt f (span (vmos s) mp))%nat as Hc by (apply cnt_pos; by eapply list_elem_of_lookup_2).
  destruct (span_in _ _ _ Hc) as (x & Hx & Hcx). unfold held. pose proof (msum_le (fun mp => cnt f (span (vmos s) mp)) _ _ mp Hmp).
  pose proof (msum_le (fun x => cnt f (pages x)) _ _ x Hx). cbv beta in *. lia.
Qed.

Definition one_if (u v : Z) : nat := if decide (u = v) then 1%nat else 0%nat.

Definition uses (s : mo) (v : Z) : nat :=
  (msum (fun mp => one_if (m_vmo mp) v) (g_vmo_task_maps s) + msum (fun x => one_if (parent x) v) (vmos s))%nat.

(** ** Objects *)
Record vmo_ok (x : vmo) : Prop := {
  vo_size : size_bytes x = npages x * 4096;
  vo_len : Z.of_nat (length (pages x)) = npages x;
  vo_npages : 0 < npages x <= VMO_MAX_SIZE / 4096;
  vo_pages : page_list (pages x);
  vo_mmio : has_flag (v_flags x) VMO_MMIO = false;
  vo_flags : in_u 32 (v_flags x);
  vo_contiguous : has_flag (v_flags x) VMO_CONTIGUOUS = true -> exists f, pages x = run_pages f (length (pages x)) }.

(** The entry [e] shows the page [p] with at most the rights [prot]. *)
Definition shows (e p prot : Z) : Prop :=
  e &. VMO_PTE_PHYS_MASK = p /\ present e = true /\ has_flag e PTE_USER = true /\
  (has_flag e PTE_WRITABLE = true -> has_flag prot PROT_WRITE = true) /\
  has_flag e PTE_NX = negb (has_flag prot PROT_EXEC).

(** The mapping shows its part of the object at its addresses. *)
Record map_ok (s : mo) (t i : Z) (mp : vmo_mapping) : Prop := {
  mk_slot : 0 <= t < VMO_MAX_TASKS /\ 0 <= i < VMO_MAPPINGS_PER_TASK;
  mk_part : exists x, vmos s !! m_vmo mp = Some x /\ 0 <= m_offset mp / 4096 /\ 0 < len_pages mp /\
    m_offset mp / 4096 + len_pages mp <= npages x;
  mk_task : is_Some (mtasks s !! t);
  mk_base : exists b, vaddr mp = b * PAGE_SIZE /\ 0 < b /\ b + len_pages mp <= 2 ^ 35;
  mk_ptes : forall tk r (q : nat) p, mtasks s !! t = Some tk -> t_cr3 tk = r * PAGE_SIZE ->
    span (vmos s) mp !! q = Some p -> exists e, pte (mem s) r (vaddr mp + Z.of_nat q * PAGE_SIZE) = Some e /\ shows e p (m_prot mp) }.

(** Mappings in one space do not overlap. *)
Definition disjoint_maps (s : mo) (P : gmap (Z * Z) vmo_mapping) : Prop := forall t1 i1 mp1 t2 i2 mp2 tk1 tk2,
  P !! (t1, i1) = Some mp1 -> P !! (t2, i2) = Some mp2 -> (t1, i1) <> (t2, i2) ->
  mtasks s !! t1 = Some tk1 -> mtasks s !! t2 = Some tk2 -> t_cr3 tk1 = t_cr3 tk2 ->
  vaddr mp1 + len_pages mp1 * PAGE_SIZE <= vaddr mp2 \/ vaddr mp2 + len_pages mp2 * PAGE_SIZE <= vaddr mp1.

Record mo_inv (k : Z) (E : Z -> option Z) (C : Z -> nat) (s : mo) (T : gmap Z node) : Prop := {
  mi_acct : acct k E (held s) (mem s) T;
  mi_next : 0 < next_vmo s;
  mi_addr : forall v x, vmos s !! v = Some x -> 0 < v < next_vmo s;
  mi_obj : forall v x, vmos s !! v = Some x -> vmo_ok x;
  mi_parent : forall v x, vmos s !! v = Some x -> parent x <> 0 -> parent x < v /\ is_Some (vmos s !! parent x);
  mi_refs : forall v x, vmos s !! v = Some x -> refcount x = Z.of_nat (C v + uses s v) /\ 0 < refcount x < 2 ^ 32;
  mi_caps : forall v, C v <> 0%nat -> is_Some (vmos s !! v);
  mi_map : forall t i mp, g_vmo_task_maps s !! (t, i) = Some mp -> map_ok s t i mp;
  mi_disjoint : disjoint_maps s (g_vmo_task_maps s);
  mi_tasks : forall t tk, mtasks s !! t = Some tk -> exists r, t_cr3 tk = r * PAGE_SIZE /\ is_root T r /\ r <> kernel_root (mem s) }.

(** The part of the invariant that does not count references. *)
Record obj_shape (x : vmo) : Prop := {
  os_len : Z.of_nat (length (pages x)) = npages x;
  os_npages : 0 < npages x <= VMO_MAX_SIZE / 4096;
  os_pages : page_list (pages x);
  os_mmio : has_flag (v_flags x) VMO_MMIO = false }.

Record mo_shape (s : mo) (T : gmap Z node) : Prop := {
  ms_addr : forall v x, vmos s !! v = Some x -> 0 < v;
  ms_obj : forall v x, vmos s !! v = Some x -> obj_shape x;
  ms_map : forall t i mp, g_vmo_task_maps s !! (t, i) = Some mp -> map_ok s t i mp;
  ms_disjoint : disjoint_maps s (g_vmo_task_maps s);
  ms_tasks : forall t tk, mtasks s !! t = Some tk -> exists r, t_cr3 tk = r * PAGE_SIZE /\ is_root T r }.

Lemma mi_shape k E C s T : mo_inv k E C s T -> mo_shape s T.
Proof.
  intros [_ _ Haddr Hobj _ _ _ Hmap Hdis Htasks]. split; try done.
  - intros v x Hx. by apply Haddr in Hx as [? _].
  - intros v x Hx. by destruct (Hobj v x Hx).
  - intros t tk Htk. destruct (Htasks t tk Htk) as (r & Hr & HT & _). by exists r.
Qed.

(** ** Changes of the state *)
Definition tasks_same (s s' : mo) : Prop := forall t, option_map t_cr3 (mtasks s' !! t) = option_map t_cr3 (mtasks s !! t).

Lemma tasks_same_refl s : tasks_same s s.
Proof. done. Qed.

Lemma tasks_same_Some s s' t tk : tasks_same s s' -> mtasks s' !! t = Some tk -> exists tk0, mtasks s !! t = Some tk0 /\ t_cr3 tk = t_cr3 tk0.
Proof. intros Hs Ht. specialize (Hs t). rewrite Ht in Hs. destruct (mtasks s !! t) as [tk0|]; [|done]. exists tk0. split; [done|]. by injection Hs. Qed.

(** Objects that differ in their counters only. *)
Definition vmo_same (x x' : vmo) : Prop := pages x' = pages x /\ npages x' = npages x /\ parent x' = parent x /\ size_bytes x' = size_bytes x /\ v_flags x' = v_flags x.

Lemma span_same V V' mp x x' : V !! m_vmo mp = Some x -> V' !! m_vmo mp = Some x' -> pages x' = pages x -> span V' mp = span V mp.
Proof. intros Hx Hx' Hp. unfold span. by rewrite Hx, Hx', Hp. Qed.

Lemma span_length V mp x : V !! m_vmo mp = Some x -> Z.of_nat (length (pages x)) = npages x -> 0 <= m_offset mp / 4096 -> 0 < len_pages mp ->
  m_offset mp / 4096 + len_pages mp <= npages x -> Z.of_nat (length (span V mp)) = len_pages mp.
Proof. intros Hx Hlen H1 H2 H3. unfold span. rewrite Hx, length_take, length_drop. lia. Qed.

Lemma map_ok_change s s' t i mp : map_ok s t i mp -> tasks_same s s' ->
  (forall x, vmos s !! m_vmo mp = Some x -> exists x', vmos s' !! m_vmo mp = Some x' /\ pages x' = pages x /\ npages x' = npages x) ->
  (forall tk r (q : nat) e p, mtasks s !! t = Some tk -> t_cr3 tk = r * PAGE_SIZE -> span (vmos s) mp !! q = Some p ->
    pte (mem s) r (vaddr mp + Z.of_nat q * PAGE_SIZE) = Some e -> shows e p (m_prot mp) ->
    exists e', pte (mem s') r (vaddr mp + Z.of_nat q * PAGE_SIZE) = Some e' /\ shows e' p (m_prot mp)) ->
  map_ok s' t i mp.
Proof.
  intros [Hs (x & Hx & H1 & H2 & H3) Ht Hb Hp] Hts Hobj Hpte. destruct (Hobj x Hx) as (x' & Hx' & Epg & En). split; try done.
  - exists x'. by rewrite En.
  - destruct Ht as [tk Ht]. specialize (Hts t). rewrite Ht in Hts. by destruct (mtasks s' !! t).
  - intros tk r q p Htk Hr Hq. rewrite (span_same (vmos s) (vmos s') mp x x') in Hq by done.
    destruct (tasks_same_Some s s' t tk Hts Htk) as (tk0 & Htk0 & Ec). rewrite Ec in Hr.
    destruct (Hp tk0 r q p Htk0 Hr Hq) as (e & He & Hsh). by eapply Hpte.
Qed.

Lemma disjoint_change s s' P P' : disjoint_maps s P -> tasks_same s s' -> P' ⊆ P -> disjoint_maps s' P'.
Proof.
  intros Hd Hts Hsub t1 i1 mp1 t2 i2 mp2 tk1 tk2 H1 H2 Hne Ht1 Ht2 Ec.
  destruct (tasks_same_Some s s' t1 tk1 Hts Ht1) as (tk1' & Ht1' & E1). destruct (tasks_same_Some s s' t2 tk2 Hts Ht2) as (tk2' & Ht2' & E2).
  eapply (Hd t1 i1 mp1 t2 i2 mp2 tk1' tk2'); try done; [by eapply lookup_weaken..|congruence].
Qed.

Lemma tasks_change k E C s T s' T' : mo_inv k E C s T -> tasks_same s s' -> kernel_root (mem s') = kernel_root (mem s) -> T ⊆ T' ->
  forall t tk, mtasks s' !! t = Some tk -> exists r, t_cr3 tk = r * PAGE_SIZE /\ is_root T' r /\ r <> kernel_root (mem s').
Proof.
  intros Hi Hts Hk Hsub t tk Ht. destruct (tasks_same_Some s s' t tk Hts Ht) as (tk0 & Ht0 & ->). rewrite Hk.
  destruct (mi_tasks _ _ _ _ _ Hi t tk0 Ht0) as (r & ? & ? & ?). exists r. split_and!; try done. by eapply lookup_weaken.
Qed.

(** In the memory [m] the mappings still show their pages. *)
Definition shows_maps (s : mo) (m : vm) : Prop := forall t i mp, g_vmo_task_maps s !! (t, i) = Some mp ->
  forall tk r (q : nat) e p, mtasks s !! t = Some tk -> t_cr3 tk = r * PAGE_SIZE -> span (vmos s) mp !! q = Some p ->
    pte (mem s) r (vaddr mp + Z.of_nat q * PAGE_SIZE) = Some e -> shows e p (m_prot mp) ->
    exists e', pte m r (vaddr mp + Z.of_nat q * PAGE_SIZE) = Some e' /\ shows e' p (m_prot mp).

Lemma same_ptes_map k E C s T m : mo_inv k E C s T -> same_ptes (mem s) m T -> shows_maps s m.
Proof.
  intros Hi Hs t i mp Hmp tk r q e p Ht Hr Hq He Hsh. exists e. split; [|done]. rewrite Hs; [done|].
  destruct (mi_tasks _ _ _ _ _ Hi t tk Ht) as (r' & Hr' & HT & _). by replace r with r' by lia.
Qed.

Ltac same_field Hi := first [exact (mi_obj _ _ _ _ _ Hi)|exact (mi_parent _ _ _ _ _ Hi)|exact (mi_caps _ _ _ _ _ Hi)|exact (mi_next _ _ _ _ _ Hi)|exact (mi_addr _ _ _ _ _ Hi)].

(** The memory, the quotas and the bookkeeping change. *)
Lemma mi_env k E C s T s' T' E' : mo_inv k E C s T -> vmos s' = vmos s -> g_vmo_task_maps s' = g_vmo_task_maps s -> tasks_same s s' ->
  next_vmo s <= next_vmo s' -> acct k E' (held s) (mem s') T' -> kernel_root (mem s') = kernel_root (mem s) -> T ⊆ T' ->
  shows_maps s (mem s') -> mo_inv k E' C s' T'.
Proof.
  intros Hi Ev Em Hts Hn Ha Hk Hsub Hp. pose proof (mi_next _ _ _ _ _ Hi).
  assert (forall v, uses s' v = uses s v) as Hu by (intros v; unfold uses; by rewrite Ev, Em).
  split; rewrite ?Ev, ?Em; try same_field Hi.
  - eapply acct_ext; [|exact Ha]. intros f. unfold held. by rewrite Ev, Em.
  - lia.
  - intros v x Hx. apply (mi_addr _ _ _ _ _ Hi) in Hx. lia.
  - intros v x Hx. rewrite Hu. by apply (mi_refs _ _ _ _ _ Hi).
  - intros t i mp Hmp. eapply map_ok_change; [by apply (mi_map _ _ _ _ _ Hi)|done| |by eapply Hp].
    intros x Hx. exists x. by rewrite Ev.
  - eapply disjoint_change; [apply (mi_disjoint _ _ _ _ _ Hi)|done|done].
  - by eapply tasks_change.
Qed.

Lemma option_map_comp {A B C} (g : B -> C) (f : A -> B) (o o' : option A) : option_map f o' = option_map f o ->
  option_map (fun x => g (f x)) o' = option_map (fun x => g (f x)) o.
Proof. destruct o, o'; cbn; intros [=]; congruence. Qed.

Lemma held_same s s' f : (forall u, option_map pages (vmos s' !! u) = option_map pages (vmos s !! u)) ->
  g_vmo_task_maps s' = g_vmo_task_maps s -> held s' f = held s f.
Proof.
  intros Hv Hm. unfold held. rewrite Hm. f_equal.
  - apply msum_agree. intros u. by apply (option_map_comp (cnt f) pages).
  - apply msum_ext. intros i mp _. f_equal. unfold span. specialize (Hv (m_vmo mp)).
    destruct (vmos s !! m_vmo mp), (vmos s' !! m_vmo mp); cbn in Hv; try done. by injection Hv as ->.
Qed.

Lemma uses_same s s' v : (forall u, option_map parent (vmos s' !! u) = option_map parent (vmos s !! u)) ->
  g_vmo_task_maps s' = g_vmo_task_maps s -> uses s' v = uses s v.
Proof.
  intros Hv Hm. unfold uses. rewrite Hm. f_equal. apply msum_agree. intros u.
  by apply (option_map_comp (fun p => one_if p v) parent).
Qed.

Definition with_vmo (s : mo) (v : Z) (x : vmo) : mo := {| s with vmos := <[v := x]> (vmos s) |}.
Definition recount (x : vmo) (r : Z) : vmo := {| x with refcount := r |}.

Lemma recount_fields {A} (g : vmo -> A) (V : gmap Z vmo) v x r u : V !! v = Some x -> g (recount x r) = g x ->
  option_map g (<[v := recount x r]> V !! u) = option_map g (V !! u).
Proof. intros Hx Hg. destruct (decide (u = v)) as [->|]; [|by rewrite lookup_insert_ne]. rewrite lookup_insert_eq, Hx. cbn. by rewrite Hg. Qed.

(** A counter changes together with the references of the owners. *)
Lemma mi_count k E C C' s T v x : mo_inv k E C s T -> vmos s !! v = Some x -> (forall u, u <> v -> C' u = C u) ->
  (0 < C' v + uses s v)%nat -> Z.of_nat (C' v + uses s v) < 2 ^ 32 ->
  mo_inv k E C' (with_vmo s v (recount x (Z.of_nat (C' v + uses s v)))) T.
Proof.
  intros Hi Hx HC H0 H32. set (r := Z.of_nat (C' v + uses s v)). set (s' := with_vmo s v (recount x r)).
  assert (forall u, uses s' u = uses s u) as Hu by (intros u; apply uses_same; [intros; by apply recount_fields|done]).
  assert (forall u y, vmos s' !! u = Some y -> (u = v /\ y = recount x r) \/ (u <> v /\ vmos s !! u = Some y)) as Hin.
  { intros u y. cbn. destruct (decide (u = v)) as [->|]; [rewrite lookup_insert_eq|rewrite lookup_insert_ne by done].
    - intros [= <-]. by left.
    - by right. }
  assert (forall u, is_Some (vmos s !! u) -> is_Some (vmos s' !! u)) as Hlive.
  { intros u Hl. cbn. destruct (decide (u = v)) as [->|]; [by rewrite lookup_insert_eq|by rewrite lookup_insert_ne]. }
  split; try same_field Hi.
  - eapply acct_ext; [|apply (mi_acct _ _ _ _ _ Hi)]. intros f. apply held_same; [intros; by apply recount_fields|done].
  - intros u y [[-> ->]|[_ Hy]]%Hin; by eapply (mi_addr _ _ _ _ _ Hi).
  - intros u y [[-> ->]|[_ Hy]]%Hin; [|by eapply (mi_obj _ _ _ _ _ Hi)]. destruct (mi_obj _ _ _ _ _ Hi v x Hx). by split.
  - intros u y [[-> ->]|[_ Hy]]%Hin Hp; cbn in Hp; [apply (mi_parent _ _ _ _ _ Hi _ _ Hx) in Hp|apply (mi_parent _ _ _ _ _ Hi _ _ Hy) in Hp];
      split; try apply Hp; apply Hlive, Hp.
  - intros u y. rewrite Hu. intros [[-> ->]|[Hne Hy]]%Hin; [cbn; fold r; lia|]. rewrite HC by done. by apply (mi_refs _ _ _ _ _ Hi).
  - intros u Hc. apply Hlive. destruct (decide (u = v)) as [->|]; [done|]. apply (mi_caps _ _ _ _ _ Hi). by rewrite <- HC.
  - intros t i mp Hmp. eapply map_ok_change; [by apply (mi_map _ _ _ _ _ Hi)|done| |by eapply (same_ptes_map k E C s T)].
    intros y Hy. cbn. destruct (decide (m_vmo mp = v)) as [Ev|]; [rewrite Ev in *; rewrite lookup_insert_eq|rewrite lookup_insert_ne by done; by exists y].
    exists (recount x r). assert (y = x) as -> by congruence. done.
  - by eapply disjoint_change; [apply (mi_disjoint _ _ _ _ _ Hi)| |].
  - by eapply (tasks_change k E C s T).
Qed.

Lemma uses_none s v : uses s v = 0%nat -> (forall i mp, g_vmo_task_maps s !! i = Some mp -> m_vmo mp <> v) /\
  (forall u y, vmos s !! u = Some y -> parent y <> v).
Proof.
  unfold uses. intros Hu. split.
  - intros i mp Hmp E. pose proof (msum_le (fun mp => one_if (m_vmo mp) v) _ i mp Hmp) as Hle. cbv beta in Hle.
    unfold one_if in Hle at 1. rewrite decide_True in Hle by done. lia.
  - intros u y Hy E. pose proof (msum_le (fun x => one_if (parent x) v) _ u y Hy) as Hle. cbv beta in Hle.
    unfold one_if in Hle at 1. rewrite decide_True in Hle by done. lia.
Qed.

(** The references after the object [v] with the parent [p] is gone. *)
Definition orphan (C : Z -> nat) (v p : Z) (u : Z) : nat :=
  if decide (u = v) then 0%nat else if decide (u = p /\ u <> 0) then S (C u) else C u.

Definition without_vmo (s : mo) (v : Z) : mo := {| s with vmos := delete v (vmos s) |}.

Section delete.
  Context (k : Z) (E : Z -> option Z) (C : Z -> nat) (s : mo) (T : gmap Z node) (v : Z) (x : vmo).
  Hypothesis Hi : mo_inv k E C s T.
  Hypothesis Hx : vmos s !! v = Some x.
  Hypothesis Hu : uses s v = 0%nat.
Let s' := without_vmo s v.

Lemma delete_held f : held s f = (held s' f + cnt f (pages x))%nat.
Proof using Hx Hu.
  unfold held. rewrite (msum_delete (fun x => cnt f (pages x)) (vmos s) v x Hx). cbn.
  rewrite (msum_ext (fun mp => cnt f (span (vmos s) mp)) (fun mp => cnt f (span (delete v (vmos s)) mp))); [lia|].
  intros i mp Hmp. f_equal. unfold span. rewrite lookup_delete_ne; [done|]. intros ->. by eapply (proj1 (uses_none s _ Hu)).
Qed.

Lemma delete_uses u : uses s u = (uses s' u + one_if (parent x) u)%nat.
Proof using Hx. clear Hu. unfold uses. rewrite (msum_delete _ (vmos s) v x Hx). cbn. lia. Qed.

Lemma mi_delete : mo_inv k (fun f => plus (E f) (cnt f (pages x))) (orphan C v (parent x)) s' T.
Proof using All.
  destruct (uses_none s v Hu) as [Hm Hc].
  assert (forall u y, vmos s' !! u = Some y -> u <> v /\ vmos s !! u = Some y) as Hin.
  { intros u y Hy. cbn in Hy. apply lookup_delete_Some in Hy as [? ?]. done. }
  assert (forall u, u <> v -> is_Some (vmos s !! u) -> is_Some (vmos s' !! u)) as Hlive.
  { intros u Hne Hl. cbn. by rewrite lookup_delete_ne. }
  split; try same_field Hi.
  - apply acct_lend. eapply acct_ext; [|apply (mi_acct _ _ _ _ _ Hi)]. intros f. by rewrite delete_held.
  - intros u y [_ Hy]%Hin. by apply (mi_addr _ _ _ _ _ Hi) in Hy.
  - intros u y [_ Hy]%Hin. by apply (mi_obj _ _ _ _ _ Hi) in Hy.
  - intros u y [_ Hy]%Hin Hp. destruct (mi_parent _ _ _ _ _ Hi u y Hy Hp) as [? ?]. split; [done|]. apply Hlive; [|done]. by eapply Hc.
  - intros u y [Hne Hy]%Hin. destruct (mi_refs _ _ _ _ _ Hi u y Hy) as [Er Hr]. split; [|done]. rewrite Er, delete_uses.
    pose proof (mi_addr _ _ _ _ _ Hi u y Hy). unfold orphan, one_if. rewrite (decide_False (P := u = v)) by done.
    destruct (decide (parent x = u)), (decide (u = parent x /\ u <> 0)); try lia.
  - intros u. unfold orphan. destruct (decide (u = v)); [done|]. destruct (decide _) as [[-> Hp]|].
    + intros _. apply Hlive; [done|]. by apply (mi_parent _ _ _ _ _ Hi v x Hx).
    + intros HC. apply Hlive; [done|]. by apply (mi_caps _ _ _ _ _ Hi).
  - intros t i mp Hmp. eapply map_ok_change; [by apply (mi_map _ _ _ _ _ Hi)|done| |by eapply (same_ptes_map k E C s T)].
    intros y Hy. exists y. split; [|done]. cbn. rewrite lookup_delete_ne; [done|]. intros Ev. by apply (Hm _ _ Hmp).
  - by eapply disjoint_change; [apply (mi_disjoint _ _ _ _ _ Hi)| |].
  - by eapply (tasks_change k E C s T).
Qed.
End delete.

Lemma uses_dead k E C s T v : mo_inv k E C s T -> vmos s !! v = None -> v <> 0 -> uses s v = 0%nat.
Proof.
  intros Hi Hv H0. unfold uses. rewrite !msum_zero; [done| |].
  - intros u y Hy. unfold one_if. apply decide_False. intros Ep. destruct (mi_parent _ _ _ _ _ Hi u y Hy) as [_ [? Hl]]; congruence.
  - intros [t i] mp Hmp. unfold one_if. apply decide_False. intros Ev. destruct (mk_part _ _ _ _ (mi_map _ _ _ _ _ Hi t i mp Hmp)) as (y & Hy & _).
    congruence.
Qed.

(** The references of the owners after a new object [v], with one reference, has the parent [p]. *)
Definition adopt (C : Z -> nat) (v p : Z) (u : Z) : nat :=
  if decide (u = v) then 1%nat else if decide (u = p /\ u <> 0) then pred (C u) else C u.

Section insert.
  Context (k : Z) (E : Z -> option Z) (C : Z -> nat) (s : mo) (T : gmap Z node) (v : Z) (x : vmo).
  Hypothesis Hi : mo_inv k E C s T.
  Hypothesis Hv : vmos s !! v = None.
  Hypothesis Hr : 0 < v < next_vmo s.
  Hypothesis Hok : vmo_ok x.
  Hypothesis Hone : refcount x = 1.
  Hypothesis Hpar : parent x <> 0 -> parent x < v /\ is_Some (vmos s !! parent x) /\ C (parent x) <> 0%nat.
Let s' := with_vmo s v x.

Lemma mapped_live i mp : g_vmo_task_maps s !! i = Some mp -> m_vmo mp <> v.
Proof using Hi Hv.
  destruct i as [t i]. intros Hmp Ev. destruct (mk_part _ _ _ _ (mi_map _ _ _ _ _ Hi t i mp Hmp)) as (y & Hy & _). congruence.
Qed.

Lemma insert_held f : held s' f = (held s f + cnt f (pages x))%nat.
Proof using Hi Hv.
  clear Hpar. unfold held. cbn. rewrite msum_insert by done.
  rewrite (msum_ext (fun mp => cnt f (span (vmos s) mp)) (fun mp => cnt f (span (<[v := x]> (vmos s)) mp))); [lia|].
  intros i mp Hmp. f_equal. unfold span. rewrite lookup_insert_ne; [done|]. intros Ev. symmetry in Ev. by apply (mapped_live _ _ Hmp).
Qed.

Lemma insert_uses u : uses s' u = (uses s u + one_if (parent x) u)%nat.
Proof using Hv. clear Hpar. unfold uses. cbn. rewrite msum_insert by done. lia. Qed.

Lemma mi_insert E' : acct k E' (fun f => (held s f + cnt f (pages x))%nat) (mem s) T -> mo_inv k E' (adopt C v (parent x)) s' T.
Proof using All.
  intros Ha.
  assert (forall u y, vmos s' !! u = Some y -> (u = v /\ y = x) \/ (u <> v /\ vmos s !! u = Some y)) as Hin.
  { intros u y. cbn. destruct (decide (u = v)) as [->|]; [rewrite lookup_insert_eq|rewrite lookup_insert_ne by done].
    - intros [= <-]. by left.
    - by right. }
  assert (forall u, is_Some (vmos s !! u) -> is_Some (vmos s' !! u)) as Hlive.
  { intros u Hl. cbn. destruct (decide (u = v)) as [->|]; [by rewrite lookup_insert_eq|by rewrite lookup_insert_ne]. }
  split; try same_field Hi.
  - eapply acct_ext; [|exact Ha]. intros f. by rewrite insert_held.
  - intros u y [[-> ->]|[_ Hy]]%Hin; [done|by eapply (mi_addr _ _ _ _ _ Hi)].
  - intros u y [[-> ->]|[_ Hy]]%Hin; [done|by eapply (mi_obj _ _ _ _ _ Hi)].
  - intros u y [[-> ->]|[_ Hy]]%Hin Hp.
    + destruct (Hpar Hp) as (? & ? & _). auto.
    + destruct (mi_parent _ _ _ _ _ Hi _ _ Hy Hp). auto.
  - intros u y. rewrite insert_uses. intros [[-> ->]|[Hne Hy]]%Hin.
    + rewrite Hone, (uses_dead k E C s T) by (done || lia). unfold adopt, one_if. rewrite decide_True, decide_False by (done || (intros ?; lia)). lia.
    + destruct (mi_refs _ _ _ _ _ Hi u y Hy) as [Er Hre]. split; [|done]. rewrite Er. pose proof (mi_addr _ _ _ _ _ Hi u y Hy).
      unfold adopt, one_if. rewrite (decide_False (P := u = v)) by done.
      destruct (decide (parent x = u)) as [Ep|], (decide (u = parent x /\ u <> 0)); try lia. rewrite Ep in Hpar. destruct Hpar as (_ & _ & ?); lia.
  - intros u. unfold adopt. destruct (decide (u = v)) as [->|]; [intros _; cbn; by rewrite lookup_insert_eq|].
    intros HC. apply Hlive, (mi_caps _ _ _ _ _ Hi). destruct (decide _); lia.
  - intros t i mp Hmp. eapply map_ok_change; [by apply (mi_map _ _ _ _ _ Hi)|done| |by eapply (same_ptes_map k E C s T)].
    intros y Hy. exists y. split; [|done]. cbn. rewrite lookup_insert_ne; [done|]. intros Ev. symmetry in Ev. by apply (mapped_live _ _ Hmp).
  - by eapply disjoint_change; [apply (mi_disjoint _ _ _ _ _ Hi)| |].
  - by eapply (tasks_change k E C s T).
Qed.
End insert.

(** ** Changes of the mappings *)
Definition add_cap (C : Z -> nat) (v u : Z) : nat := if decide (u = v) then S (C u) else C u.
Definition drop_cap (C : Z -> nat) (v u : Z) : nat := if decide (u = v) then pred (C u) else C u.

Definition with_maps (s : mo) (m : vm) (P : gmap (Z * Z) vmo_mapping) : mo := {| s with mem := m; g_vmo_task_maps := P |}.

(** The pages of the mappings in [P] have the translations of before. *)
Definition keeps_maps (s : mo) (P : gmap (Z * Z) vmo_mapping) (m : vm) : Prop := forall t i mp tk r (q : nat), P !! (t, i) = Some mp ->
  mtasks s !! t = Some tk -> t_cr3 tk = r * PAGE_SIZE -> Z.of_nat q < len_pages mp ->
  pte m r (vaddr mp + Z.of_nat q * PAGE_SIZE) = pte (mem s) r (vaddr mp + Z.of_nat q * PAGE_SIZE).

Lemma mapping_length s T t i mp : mo_shape s T -> g_vmo_task_maps s !! (t, i) = Some mp ->
  Z.of_nat (length (span (vmos s) mp)) = len_pages mp.
Proof.
  intros Hi Hmp. destruct (mk_part _ _ _ _ (ms_map _ _ Hi t i mp Hmp)) as (x & Hx & H1 & H2 & H3).
  apply (span_length _ _ x); try done. by eapply os_len, (ms_obj _ _ Hi).
Qed.

Lemma keeps_map_ok k E C s T m P P' t i mp : mo_inv k E C s T -> keeps_maps s P m -> P ⊆ g_vmo_task_maps s -> P !! (t, i) = Some mp ->
  map_ok (with_maps s m P') t i mp.
Proof.
  intros Hi Hk Hsub Hmp. pose proof (lookup_weaken _ _ _ _ Hmp Hsub) as Hmp'.
  apply (map_ok_change s); [by apply (mi_map _ _ _ _ _ Hi)|done|intros x Hx; by exists x|].
  intros tk r q e p Ht Hr Hq He Hsh. exists e. split; [|done]. cbn [mem with_maps]. rewrite (Hk t i mp tk r q); try done.
  pose proof (mapping_length s T t i mp (mi_shape _ _ _ _ _ Hi) Hmp') as Hl. apply lookup_lt_Some in Hq. lia.
Qed.

Lemma mi_unmap k E C s T m t i mp : mo_inv k E C s T -> g_vmo_task_maps s !! (t, i) = Some mp ->
  acct k E (fun f => (held s f - cnt f (span (vmos s) mp))%nat) m T -> kernel_root m = kernel_root (mem s) ->
  keeps_maps s (delete (t, i) (g_vmo_task_maps s)) m ->
  mo_inv k E (add_cap C (m_vmo mp)) (with_maps s m (delete (t, i) (g_vmo_task_maps s))) T.
Proof.
  intros Hi Hmp Ha Hk Hkeep. set (s' := with_maps s m _).
  assert (forall u, uses s u = (uses s' u + one_if (m_vmo mp) u)%nat) as Hu.
  { intros u. unfold uses. rewrite (msum_delete _ (g_vmo_task_maps s) (t, i) mp Hmp). cbn. lia. }
  assert (delete (t, i) (g_vmo_task_maps s) ⊆ g_vmo_task_maps s) as Hsub by apply delete_subseteq.
  split; try same_field Hi.
  - eapply acct_ext; [|exact Ha]. intros f. unfold held. rewrite (msum_delete _ (g_vmo_task_maps s) (t, i) mp Hmp). cbn. lia.
  - intros u y Hy. destruct (mi_refs _ _ _ _ _ Hi u y Hy) as [Er Hr]. split; [|done]. rewrite Er, Hu. unfold add_cap, one_if.
    destruct (decide (m_vmo mp = u)), (decide (u = m_vmo mp)); try lia; congruence.
  - intros u. unfold add_cap. destruct (decide (u = m_vmo mp)) as [->|]; [|apply (mi_caps _ _ _ _ _ Hi)]. intros _.
    destruct (mk_part _ _ _ _ (mi_map _ _ _ _ _ Hi t i mp Hmp)) as (x & Hx & _). by exists x.
  - intros t' i' mp' Hmp'. by eapply (keeps_map_ok k E C s T m).
  - eapply disjoint_change; [apply (mi_disjoint _ _ _ _ _ Hi)|done|done].
  - by eapply (tasks_change k E C s T).
Qed.

Lemma mi_mapped k E C s T m T' t i mp : mo_inv k E C s T -> g_vmo_task_maps s !! (t, i) = None -> C (m_vmo mp) <> 0%nat ->
  acct k E (fun f => (held s f + cnt f (span (vmos s) mp))%nat) m T' -> kernel_root m = kernel_root (mem s) -> T ⊆ T' ->
  keeps_maps s (g_vmo_task_maps s) m -> map_ok (with_maps s m (<[(t, i) := mp]> (g_vmo_task_maps s))) t i mp ->
  disjoint_maps s (<[(t, i) := mp]> (g_vmo_task_maps s)) ->
  mo_inv k E (drop_cap C (m_vmo mp)) (with_maps s m (<[(t, i) := mp]> (g_vmo_task_maps s))) T'.
Proof.
  intros Hi Hmp HC Ha Hk Hsub Hkeep Hok Hdis. set (s' := with_maps s m _).
  assert (forall u, uses s' u = (uses s u + one_if (m_vmo mp) u)%nat) as Hu.
  { intros u. unfold uses. cbn. rewrite msum_insert by done. lia. }
  split; try same_field Hi.
  - eapply acct_ext; [|exact Ha]. intros f. unfold held. cbn. rewrite msum_insert by done. lia.
  - intros u y Hy. destruct (mi_refs _ _ _ _ _ Hi u y Hy) as [Er Hr]. split; [|done]. rewrite Er, Hu. unfold drop_cap, one_if.
    destruct (decide (m_vmo mp = u)) as [Ev|], (decide (u = m_vmo mp)); subst; try lia; congruence.
  - intros u. unfold drop_cap. destruct (decide (u = m_vmo mp)) as [->|]; [|apply (mi_caps _ _ _ _ _ Hi)]. intros _. by apply (mi_caps _ _ _ _ _ Hi).
  - intros t' i' mp'. cbn. destruct (decide ((t', i') = (t, i))) as [[= -> ->]|]; [rewrite lookup_insert_eq; by intros [= <-]|].
    rewrite lookup_insert_ne by done. intros Hmp'. by eapply (keeps_map_ok k E C s T m).
  - done.
  - by eapply (tasks_change k E C s T).
Qed.
