(* ===== verification/VmoRefs.v ===== *)
(** * References to memory objects

    Dropping a reference, which frees an object without users, its pages, and the reference
    that it has to its parent.  vmo_free drops the parent's reference while the object that
    is freed is still there; the run on the parent does the same without that object
    ([blind]), so the invariant is used at states without it, its pages counting as those
    of others meanwhile. *)
From S2P Require Import Prelude Bytes Pmm StateM Vmm VmmInv VmmMap VmmSpace Rlimit Vmo VmoPages VmoInv.
Local Open Scope Z_scope.
Local Open Scope c_scope.

Definition with_mem (s : mo) (m : vm) : mo := {| s with mem := m |}.

Lemma wp_assoc {S A B D} (p : M S A) (q : A -> M S B) (h : B -> M S D) Q s : wp ((p ≫= q) ≫= h) Q s -> wp (p ≫= (fun a => q a ≫= h)) Q s.
Proof. unfold wp, mbind, M_bind. by destruct (p s) as [[]|]. Qed.

Lemma wp_on_mem {A} (p : M vm A) Q s : wp p (fun a m => Q a (with_mem s m)) (mem s) -> wp (on_mem p) Q s.
Proof. intros (m & a & E & H). exists (with_mem s m), a. split; [|done]. unfold on_mem. by rewrite E. Qed.

Lemma wp_on_pmm f Q s : Q tt (with_mem s (set_pmm (mem s) (f (phys_pages (mem s))))) -> wp (on_pmm f) Q s.
Proof. intros H. apply wp_on_mem. by wp_step. Qed.

Lemma wp_deref v x Q s : vmos s !! v = Some x -> Q x s -> wp (deref v) Q s.
Proof. intros Hx HQ. exists s, x. split; [|done]. unfold deref. by rewrite Hx. Qed.

Lemma wp_set_vmo v x Q s : Q tt (with_vmo s v x) -> wp (set_vmo v x) Q s.
Proof. intros HQ. unfold set_vmo. by wp_step. Qed.

Lemma wp_page_at x i p Q (s : mo) : get (pages x) i = Some p -> Q p s -> wp (page_at x i) Q s.
Proof. intros Hp HQ. unfold page_at. rewrite Hp. by wp_step. Qed.

Lemma wp_vmo_check v x Q s : v <> 0 -> vmos s !! v = Some x -> 0 < npages x -> Q true s -> wp (vmo_check v) Q s.
Proof.
  intros Hv Hx Hn HQ. unfold vmo_check. destruct (Z.eqb_spec v 0); [done|]. wp_step. apply (wp_deref v x); [done|]. wp_step.
  destruct (Z.gtb_spec (npages x) 0); [done|lia].
Qed.

(** ** The pages of an object *)
Lemma run_pages_length f n : length (run_pages f n) = n.
Proof. unfold run_pages. rewrite length_map, length_seqZ. lia. Qed.

Lemma release_spec k E H T D x s : acct k E (fun f => (H f + cnt f (pages x))%nat) (mem s) T -> vmo_ok x ->
  wp (release_pages x) (fun _ s' => exists m, s' = with_mem s m /\ acct k E H m T /\ ram m = ram (mem s) /\ grows D (mem s) m T T) s.
Proof.
  intros Ha Hok. unfold release_pages. rewrite (vo_mmio _ Hok). pose proof (vo_len _ Hok) as Hl. pose proof (vo_npages _ Hok) as Hn.
  destruct (has_flag (v_flags x) VMO_CONTIGUOUS) eqn:Ec.
  - destruct (vo_contiguous _ Hok Ec) as (f & Ef). destruct (length (pages x)) as [|n] eqn:En; [lia|]. rewrite run_pages_S in Ef.
    wp_step. apply (wp_page_at x 0 (f * PAGE_SIZE)); [by rewrite Ef|].
    assert (0 < f) as Hf by (destruct (vo_pages _ Hok (f * PAGE_SIZE)) as (f' & ? & ?); [rewrite Ef; by left|lia]).
    destruct (Z.eqb_spec (f * PAGE_SIZE) 0); [lia|]. apply wp_on_pmm. eexists. split; [done|].
    rewrite <- run_pages_S in Ef. rewrite <- Hl. split; [|split; [done|apply grows_pmm]].
    + eapply acct_ext; [|apply (acct_free_run k E T f (S n) _ _ Ha Hf)]; intros g; cbv beta; rewrite <- Ef; lia.
    + apply (pmm_exec_keeps (phys_pages (mem s)) (Free_pages (f * PAGE_SIZE) (Z.of_nat (S n)))).
  - apply wp_on_mem. eapply wp_mono; [|apply (acct_unrefs k E D T (pages x) _ _ Ha (vo_pages _ Hok)); intros; lia].
    intros u m (H1 & H2 & H3). exists m. split; [done|]. split; [|done]. eapply acct_ext; [|exact H1]. intros f. cbv beta. lia.
Qed.

(** ** Runs that do not look at the object [v] *)
Definition down (s : mo) : Prop := forall u x, vmos s !! u = Some x -> parent x <> 0 -> parent x < u.

Definition blind {A} (v : Z) (prog : M mo A) : Prop := forall s s1 a, down s -> prog (without_vmo s v) = Some (s1, a) ->
  exists s', prog s = Some (s', a) /\ s1 = without_vmo s' v /\ vmos s' !! v = vmos s !! v /\ down s'.

Section blind.
  Context (v : Z).

Lemma blind_ret {A} (a : A) : blind v (mret a).
Proof. intros s s1 a' Hd [= <- <-]. by exists s. Qed.

Lemma blind_bind {A B} (p : M mo A) (q : A -> M mo B) : blind v p -> (forall a, blind v (q a)) -> blind v (p ≫= q).
Proof.
  intros Hp Hq s s1 b Hd (s2 & a & E1 & E2)%bind_Some. destruct (Hp _ _ _ Hd E1) as (s2' & E3 & -> & Hv & Hd2).
  destruct (Hq a _ _ _ Hd2 E2) as (s3 & E4 & -> & Hv' & Hd3). exists s3. split; [|split_and!; [done|congruence|done]].
  unfold mbind, M_bind. by rewrite E3.
Qed.

Lemma blind_deref {B} u (q : vmo -> M mo B) : u <> v -> (forall x, (parent x <> 0 -> parent x < u) -> blind v (q x)) -> blind v (deref u ≫= q).
Proof.
  intros Hu Hq s s1 b Hd. unfold mbind, M_bind, deref. cbn. rewrite lookup_delete_ne by done. destruct (vmos s !! u) as [x|] eqn:Ex; [|done].
  apply Hq; [|done]. by apply (Hd u x).
Qed.

Lemma blind_set u x : u <> v -> (parent x <> 0 -> parent x < u) -> blind v (set_vmo u x).
Proof.
  intros Hu Hp s s1 a Hd [= <- <-]. eexists. split; [done|]. split; [|split].
  - unfold without_vmo. cbn. by rewrite delete_insert_ne.
  - cbn. by rewrite lookup_insert_ne.
  - intros w y. cbn. destruct (decide (w = u)) as [->|]; [rewrite lookup_insert_eq; by intros [= <-]|]. rewrite lookup_insert_ne by done. apply Hd.
Qed.

Lemma blind_delete u : u <> v -> blind v (modify (fun s => {| s with vmos := delete u (vmos s) |})).
Proof.
  intros Hu s s1 a Hd [= <- <-]. eexists. split; [done|]. split; [|split].
  - unfold without_vmo. cbn. by rewrite delete_delete.
  - cbn. by rewrite lookup_delete_ne.
  - intros w y. cbn. intros [_ Hy]%lookup_delete_Some. by apply Hd.
Qed.

Lemma blind_mem {A} (p : M vm A) : blind v (on_mem p).
Proof.
  intros s s1 a Hd. unfold on_mem. cbn. destruct (p (mem s)) as [[m b]|]; [|done]. intros [= <- <-]. by eexists.
Qed.

Lemma blind_check u : u <> v -> blind v (vmo_check u).
Proof. intros Hu. unfold vmo_check. destruct (u =? 0); [apply blind_ret|]. apply blind_deref; [done|]. intros. apply blind_ret. Qed.

Lemma blind_release x : blind v (release_pages x).
Proof.
  unfold release_pages. split_ifs; [apply blind_ret| |apply blind_mem]. apply blind_bind.
  - unfold page_at. destruct (get (pages x) 0); [apply blind_ret|]. by intros s s1 a _.
  - intros p. destruct (p =? 0); [apply blind_ret|apply blind_mem].
Qed.

Lemma blind_unref fuel : forall u, u < v -> blind v (unref_with fuel u).
Proof.
  induction fuel as [|fuel IH]; intros u Hu; cbn [unref_with]; [by intros s s1 a _|].
  apply blind_bind; [apply blind_check; lia|]. intros []; cbn [negb]; [|apply blind_ret]. apply blind_deref; [lia|]. intros x Hx. cbv zeta.
  apply blind_bind; [by apply blind_set; [lia|]|]. intros _. destruct (_ =? 0); [|apply blind_ret].
  unfold free_with. apply blind_bind; [apply blind_check; lia|]. intros []; cbn [negb]; [|apply blind_ret]. apply blind_deref; [lia|]. intros y Hy.
  apply blind_bind.
  - destruct (Z.eqb_spec (parent y) 0); [apply blind_ret|]. apply blind_bind; [apply IH; specialize (Hy ltac:(done)); lia|]. intros _.
    apply blind_deref; [lia|]. intros z Hz. by apply blind_set; [lia|].
  - intros _. apply blind_deref; [lia|]. intros z _. apply blind_bind; [apply blind_release|]. intros _. apply blind_delete. lia.
Qed.
End blind.

(** ** Dropping a reference *)
Record quiet (s s' : mo) : Prop := {
  qt_ram : ram (mem s') = ram (mem s);
  qt_kernel : kernel_root (mem s') = kernel_root (mem s);
  qt_total : total_pages (phys_pages (mem s')) = total_pages (phys_pages (mem s));
  qt_maps : g_vmo_task_maps s' = g_vmo_task_maps s;
  qt_tasks : mtasks s' = mtasks s;
  qt_current : current_task s' = current_task s;
  qt_next : next_vmo s' = next_vmo s;
  qt_held : forall f, (held s' f <= held s f)%nat;
  qt_vmos : forall u x', vmos s' !! u = Some x' -> exists x, vmos s !! u = Some x /\ vmo_same x x' }.

Lemma caps_ext k E C C' s T : (forall u, C' u = C u) -> mo_inv k E C s T -> mo_inv k E C' s T.
Proof. intros HC []. split; try done; intros u; rewrite HC; eauto. Qed.

Lemma mi_down k E C s T : mo_inv k E C s T -> down s.
Proof. intros Hi u x Hx Hp. by apply (mi_parent _ _ _ _ _ Hi u x Hx). Qed.

(** The end of vmo_free: the pages of [v] are released in a state [s2] whose other objects
    satisfy the invariant. *)
Lemma free_tail k E C C2 s s2 T v x x2 : mo_inv k E C s T -> vmos s !! v = Some x -> uses s v = 0%nat ->
  vmos s2 !! v = Some x2 ->
  pages x2 = pages x /\ npages x2 = npages x /\ size_bytes x2 = size_bytes x /\ v_flags x2 = v_flags x -> quiet (without_vmo s v) (without_vmo s2 v) ->
  mo_inv k (fun f => plus (E f) (cnt f (pages x))) C2 (without_vmo s2 v) T ->
  wp (x ← deref v; release_pages x;; modify (fun s => {| s with vmos := delete v (vmos s) |}))
    (fun _ s' => mo_inv k E C2 s' T /\ quiet s s') s2.
Proof.
  intros Hi Hx Hu Hx2 (Ep & En & Esz & Efl) Hq Hi2. wp_step. apply (wp_deref v x2 _ _ Hx2).
  pose proof (delete_held s v x Hx Hu) as Hh.
  assert (acct k E (fun f => (held (without_vmo s2 v) f + cnt f (pages x2))%nat) (mem s2) T) as Ha.
  { rewrite Ep. eapply (acct_return k E (held (without_vmo s v)) _ (mem s)); [| | |apply (mi_acct _ _ _ _ _ Hi2)].
    - eapply acct_ext; [|apply (mi_acct _ _ _ _ _ Hi)]. intros f. by rewrite Hh.
    - apply (qt_ram _ _ Hq).
    - intros f Hf. pose proof (qt_held _ _ Hq f). lia. }
  assert (vmo_ok x2) as Hok. { destruct (mi_obj _ _ _ _ _ Hi v x Hx). split; by rewrite ?Ep, ?En, ?Esz, ?Efl. }
  wp_step. eapply wp_mono; [|apply (release_spec k E _ T (fun _ => True) x2 s2 Ha Hok)]. intros u s3 (m & -> & Ha3 & Hram & Hg).
  wp_step. assert (forall f, held (without_vmo (with_mem s2 m) v) f = held (without_vmo s2 v) f) as Hh3 by (intros f; by apply held_same).
  destruct Hq as [Q1 Q2 Q3 Q4 Q5 Q6 Q7 Q8 Q9]. split.
  - assert (mo_inv k E C2 (with_mem (without_vmo s2 v) m) T) as Hi3; [|exact Hi3].
    split; try same_field Hi2; [exact Ha3|exact (mi_refs _ _ _ _ _ Hi2)| |exact (mi_disjoint _ _ _ _ _ Hi2)|].
    + intros t i mp Hmp. eapply (map_ok_change (without_vmo s2 v)); [by apply (mi_map _ _ _ _ _ Hi2)|done|intros y Hy; by exists y|].
      intros tk r q e p _ _ _ He Hsh. exists e. split; [|done]. cbn. by rewrite (pte_ram (mem s2)).
    + intros t tk Ht. cbn. rewrite (gr_kernel _ _ _ _ _ Hg). by eapply (mi_tasks _ _ _ _ _ Hi2).
  - split; cbn in *; try congruence.
    + rewrite (gr_kernel _ _ _ _ _ Hg). congruence.
    + rewrite (gr_total _ _ _ _ _ Hg). congruence.
    + intros f. rewrite Hh3, Hh. specialize (Q8 f). lia.
    + intros w x' Hw. destruct (Q9 w x' Hw) as (y & Hy & Hs). exists y. split; [|done]. by apply lookup_delete_Some in Hy as [_ ?].
Qed.

Lemma quiet_refl s : quiet s s.
Proof. split; try done. intros u x Hx. exists x. by split. Qed.

Lemma blind_wp {A} v (prog : M mo A) Q s : blind v prog -> down s -> wp prog Q (without_vmo s v) ->
  wp prog (fun a s' => Q a (without_vmo s' v) /\ vmos s' !! v = vmos s !! v) s.
Proof.
  intros Hb Hd (s1 & a & Er & HQ). destruct (Hb s s1 a Hd Er) as (s' & Es & -> & Hv & _). by exists s', a.
Qed.

Lemma without_with s v x : without_vmo (with_vmo s v x) v = without_vmo s v.
Proof. unfold without_vmo, with_vmo. cbn. by rewrite delete_insert_eq. Qed.

(** The last reference: the object and its reference to the parent. *)
Lemma free_spec k fuel E C s T v x : (forall u E C s T, (Z.to_nat u < fuel)%nat -> mo_inv k E C s T -> C u <> 0%nat ->
    wp (unref_with fuel u) (fun _ s' => mo_inv k E (drop_cap C u) s' T /\ quiet s s') s) ->
  (Z.to_nat v <= fuel)%nat -> mo_inv k E C s T -> vmos s !! v = Some x -> C v = 1%nat -> uses s v = 0%nat ->
  wp (free_with (unref_with fuel) v) (fun _ s' => mo_inv k E (drop_cap C v) s' T /\ quiet s s') (with_vmo s v (recount x 0)).
Proof.
  intros IH Hfuel Hi Hx HC Hu. pose proof (mi_addr _ _ _ _ _ Hi v x Hx) as Hv. pose proof (mi_obj _ _ _ _ _ Hi v x Hx) as Hok.
  pose proof (vo_npages _ Hok) as Hn. set (s1 := with_vmo s v (recount x 0)).
  assert (vmos s1 !! v = Some (recount x 0)) as Hx1 by (cbn; by rewrite lookup_insert_eq).
  pose proof (mi_delete k E C s T v x Hi Hx Hu) as Hdel. unfold free_with.
  wp_step. apply (wp_vmo_check v (recount x 0)); [lia|done|apply Hn|]. cbn [negb]. wp_step. apply (wp_deref v _ _ _ Hx1).
  cbn [parent recount]. wp_step. destruct (Z.eqb_spec (parent x) 0) as [Ep|Ep].
  - wp_step. eapply wp_mono; [|eapply (free_tail k E C (orphan C v 0) s s1); try done].
    + intros u s' [H1 H2]. split; [|done]. eapply caps_ext; [|exact H1]. intros w. unfold drop_cap, orphan.
      destruct (decide (w = v)) as [->|]; [lia|]. destruct (decide _); [lia|done].
    + unfold s1. rewrite without_with. apply quiet_refl.
    + unfold s1. rewrite without_with, <- Ep. exact Hdel.
  - destruct (mi_parent _ _ _ _ _ Hi v x Hx Ep) as [Hlt [px Hpx]]. pose proof (mi_addr _ _ _ _ _ Hi _ _ Hpx).
    assert (down s1) as Hd.
    { intros w y. cbn. destruct (decide (w = v)) as [->|]; [rewrite lookup_insert_eq; by intros [= <-]|].
      rewrite lookup_insert_ne by done. apply (mi_down k E C s T Hi). }
    wp_step. eapply wp_mono; [|eapply (blind_wp v (unref_with fuel (parent x)) _ s1); [by apply blind_unref|done|]]; last first.
    { unfold s1. rewrite without_with. apply (IH (parent x) _ _ _ _ ltac:(lia) Hdel). unfold orphan. rewrite decide_False by lia.
      rewrite decide_True by done. lia. }
    intros u s2 [[H1 H2] H3]. rewrite Hx1 in H3. wp_step. apply (wp_deref v _ _ _ H3). apply wp_set_vmo.
    eapply wp_mono; [|eapply (free_tail k E C (drop_cap (orphan C v (parent x)) (parent x)) s (with_vmo s2 v {| (recount x 0) with parent := 0 |}) T v x {| (recount x 0) with parent := 0 |}); try done].
    + intros u' s' [H4 H5]. split; [|done]. eapply caps_ext; [|exact H4]. intros w. unfold drop_cap, orphan.
      destruct (decide (w = v)) as [->|]; [rewrite decide_False by lia; lia|].
      destruct (decide (w = parent x)) as [->|]; [by rewrite decide_True|]. by rewrite decide_False by naive_solver.
    + cbn. by rewrite lookup_insert_eq.
    + by rewrite without_with.
    + by rewrite without_with.
Qed.

Lemma unref_spec k fuel : forall v E C s T, (Z.to_nat v < fuel)%nat -> mo_inv k E C s T -> C v <> 0%nat ->
  wp (unref_with fuel v) (fun _ s' => mo_inv k E (drop_cap C v) s' T /\ quiet s s') s.
Proof.
  induction fuel as [|fuel IH]; intros v E C s T Hfuel Hi HC; [lia|]. cbn [unref_with].
  destruct (mi_caps _ _ _ _ _ Hi v HC) as [x Hx]. pose proof (mi_addr _ _ _ _ _ Hi v x Hx) as Hv.
  pose proof (vo_npages _ (mi_obj _ _ _ _ _ Hi v x Hx)) as Hn. destruct (mi_refs _ _ _ _ _ Hi v x Hx) as [Er Hr].
  wp_step. apply (wp_vmo_check v x); [lia|done|lia|]. cbn [negb]. wp_step. apply (wp_deref v x _ _ Hx). cbv zeta.
  rewrite (wrap_small 32 (refcount x - 1)) by (unfold in_u; lia). wp_step. apply wp_set_vmo.
  destruct (Z.eqb_spec (refcount x - 1) 0) as [E0|E0].
  - rewrite E0. apply (free_spec k fuel E C s T v x); try done; try lia.
  - wp_step. assert (refcount x - 1 = Z.of_nat (drop_cap C v v + uses s v)) as E1 by (unfold drop_cap; rewrite decide_True by done; lia).
    rewrite E1. split; [apply (mi_count k E C); try done; [intros u Hu; unfold drop_cap; by rewrite decide_False|lia..]|].
    split; try done.
    + intros f. erewrite held_same; [done| |done]. intros u. by apply recount_fields.
    + intros u y. cbn. destruct (decide (u = v)) as [->|]; [rewrite lookup_insert_eq|rewrite lookup_insert_ne by done].
      * intros [= <-]. exists x. by split.
      * intros Hy. exists y. by split.
Qed.

Lemma mo_unref_spec k E C s T v : mo_inv k E C s T -> C v <> 0%nat ->
  wp (vmo_unref v) (fun _ s' => mo_inv k E (drop_cap C v) s' T /\ quiet s s') s.
Proof.
  intros Hi HC. unfold vmo_unref. do 2 wp_step. apply unref_spec; [|done..]. destruct (mi_caps _ _ _ _ _ Hi v HC) as [x Hx].
  pose proof (mi_addr _ _ _ _ _ Hi v x Hx). unfold unref_fuel. lia.
Qed.

Lemma mo_ref_spec k E C s T v x : mo_inv k E C s T -> vmos s !! v = Some x -> refcount x < 2 ^ 32 - 1 ->
  wp (vmo_ref v) (fun _ s' => s' = with_vmo s v (recount x (refcount x + 1)) /\ mo_inv k E (add_cap C v) s' T) s.
Proof.
  intros Hi Hx Hr. pose proof (mi_addr _ _ _ _ _ Hi v x Hx). pose proof (vo_npages _ (mi_obj _ _ _ _ _ Hi v x Hx)).
  destruct (mi_refs _ _ _ _ _ Hi v x Hx) as [Er ?]. unfold vmo_ref. wp_step. apply (wp_vmo_check v x); [lia|done|lia|]. cbn [negb].
  wp_step. apply (wp_deref v x _ _ Hx). apply wp_set_vmo. rewrite wrap_small by (unfold in_u; lia). split; [done|].
  assert (refcount x + 1 = Z.of_nat (add_cap C v v + uses s v)) as E1 by (unfold add_cap; rewrite decide_True by done; lia).
  rewrite E1. apply (mi_count k E C); try done; [intros u Hu; unfold add_cap; by rewrite decide_False|lia..].
Qed.
