(* ===== verification/VmoMapping.v ===== *)
(** * Mapping and unmapping of memory objects

    The loops of vmo_map, of its rollback, of vmo_unmap and of vmo_cleanup_task, page by
    page, and what they mean for the invariant. *)
From S2P Require Import Prelude Bytes Pmm StateM Vmm VmmInv VmmMap VmmSpace Rlimit Vmo VmoPages VmoInv VmoRefs.
Local Open Scope Z_scope.
Local Open Scope c_scope.

(** Only the memory and the quotas change. *)
Record env (s s' : mo) : Prop := {
  en_vmos : vmos s' = vmos s;
  en_maps : g_vmo_task_maps s' = g_vmo_task_maps s;
  en_tasks : tasks_same s s';
  en_next : next_vmo s' = next_vmo s;
  en_current : current_task s' = current_task s }.

Lemma env_refl s : env s s.
Proof. by split. Qed.

Lemma env_trans s1 s2 s3 : env s1 s2 -> env s2 s3 -> env s1 s3.
Proof. intros [] []. split; try congruence. Qed.

Lemma env_mem s m : env s (with_mem s m).
Proof. by split. Qed.

Lemma limits_same s t f : tasks_same s {| s with mtasks := alter (fun x => {| x with t_limits := f (t_limits x) |}) t (mtasks s) |}.
Proof.
  intros u. cbn. destruct (decide (u = t)) as [->|]; [rewrite lookup_alter_eq|by rewrite lookup_alter_ne]. by destruct (mtasks s !! t).
Qed.

Lemma wp_refund t Q s : (forall s', env s s' -> mem s' = mem s -> Q tt s') -> wp (refund_mem t) Q s.
Proof.
  intros HQ. unfold refund_mem, set_limits. wp_step. apply HQ; [|done]. split; try done. apply (limits_same s t (fun l => rlimit_account_free_mem l 1)).
Qed.

Lemma env_task s s' t tk : env s s' -> mtasks s !! t = Some tk -> exists tk', mtasks s' !! t = Some tk' /\ t_cr3 tk' = t_cr3 tk.
Proof.
  intros He Ht. pose proof (en_tasks _ _ He t) as Hs. rewrite Ht in Hs. destruct (mtasks s' !! t) as [tk'|]; [|done].
  exists tk'. split; [done|]. by injection Hs.
Qed.

Lemma wp_task_of t tk Q s : mtasks s !! t = Some tk -> Q tk s -> wp (task_of t) Q s.
Proof. intros Ht HQ. exists s, tk. split; [|done]. unfold task_of. by rewrite Ht. Qed.

(** A loop over [0 .. n-1]. *)
Lemma each_spec (f : Z -> M mo unit) (P : nat -> mo -> Prop) (n : nat) : forall s, P 0%nat s ->
  (forall q s', (q < n)%nat -> P q s' -> wp (f (Z.of_nat q)) (fun _ s'' => P (S q) s'') s') ->
  wp (each (seqZ 0 (Z.of_nat n)) f) (fun _ s' => P n s') s.
Proof.
  assert (forall j i s, P i s -> (forall q s', (i <= q < i + j)%nat -> P q s' -> wp (f (Z.of_nat q)) (fun _ s'' => P (S q) s'') s') ->
    wp (each (seqZ (Z.of_nat i) (Z.of_nat j)) f) (fun _ s' => P (i + j)%nat s') s) as Hg.
  { induction j as [|j IH]; intros i s HP Hf; [apply wp_ret; by rewrite Nat.add_0_r|]. rewrite seqZ_cons by lia. cbn [each].
    wp_step. eapply wp_mono; [|apply Hf; [lia|done]]. intros u s' HP'.
    replace (Z.succ (Z.of_nat i)) with (Z.of_nat (S i)) by lia. replace (Z.pred (Z.of_nat (S j))) with (Z.of_nat j) by lia.
    replace (i + S j)%nat with (S i + j)%nat by lia. apply IH; [done|]. intros q s'' Hq. apply Hf. lia. }
  intros s HP Hf. apply (Hg n 0%nat s HP). intros q s' Hq. apply Hf. lia.
Qed.

Lemma cnt_take_S f l (a : nat) p : l !! a = Some p -> cnt f (take (S a) l) = (cnt f (take a l) + cnt f [p])%nat.
Proof. intros Hp. by rewrite (take_S_r l a p Hp), cnt_app. Qed.

Lemma cnt_take_le f l (a : nat) : (cnt f (take a l) <= cnt f l)%nat.
Proof. rewrite <- (take_drop a l) at 2. rewrite cnt_app. lia. Qed.

(** The address of the page [q] of a range of user addresses. *)
Lemma range_va b q : 0 <= b -> 0 <= q -> b + q < 2 ^ 35 -> u64 (b * PAGE_SIZE + q * 4096) = (b + q) * PAGE_SIZE.
Proof. intros. rewrite wrap_small by (unfold in_u; lia). lia. Qed.

(** ** Taking pages out *)
Section unmapping.
  Context (k : Z) (E : Z -> option Z) (D : Z -> Prop) (H : Z -> nat) (s : mo) (T : gmap Z node) (r b : Z) (l : list Z).
  Hypothesis Hr : is_root T r.
  Hypothesis Hb : 0 <= b.
  Hypothesis Hbl : b + Z.of_nat (length l) <= 2 ^ 35.
  Hypothesis Hl : page_list l.
  Hypothesis HD : forall f, D f -> (cnt f l < H f)%nat.
  Hypothesis Hle : forall f, (cnt f l <= H f)%nat.

(** [a] references are dropped and [u] pages are unmapped. *)
Record taken (a u : nat) (s' : mo) : Prop := {
  tk_env : env s s';
  tk_acct : acct k E (fun f => (H f - cnt f (take a l))%nat) (mem s') T;
  tk_grows : grows D (mem s) (mem s') T T;
  tk_ptes : forall r' va, is_root T r' ->
    pte (mem s') r' va = if bool_decide (r' = r /\ b <= vpn va < b + Z.of_nat u) then None else pte (mem s) r' va }.

Lemma taken_start : acct k E H (mem s) T -> taken 0 0 s.
Proof using.
  intros Ha. split; [apply env_refl| |apply grows_refl|].
  - eapply acct_ext; [|exact Ha]. intros f. change (cnt f (take 0 l)) with 0%nat. lia.
  - intros r' va _. rewrite bool_decide_eq_false_2; [done|]. lia.
Qed.

Lemma taken_env a u s1 s2 : taken a u s1 -> env s1 s2 -> mem s2 = mem s1 -> taken a u s2.
Proof using. intros [] He Em. split; rewrite ?Em; try done. by eapply env_trans. Qed.

Lemma taken_unmap a u s' : taken a u s' -> (u < length l)%nat ->
  wp (on_mem (vmm_unmap_page_by_cr3 (r * PAGE_SIZE) (u64 (b * PAGE_SIZE + Z.of_nat u * 4096)))) (fun _ s'' => taken a (S u) s'') s'.
Proof using Hr Hb Hbl HD.
  intros [H1 H2 H3 H4] Hu. rewrite range_va by lia. apply wp_on_mem.
  assert (pml4_index ((b + Z.of_nat u) * PAGE_SIZE) < 256) as Hi by (apply user_page_index; lia).
  eapply wp_mono; [|apply (acct_unmap k E D _ _ T H2 r); [done|by right|]].
  - intros x m (Ha & Hg & Hm). split; [by eapply env_trans; [|apply env_mem]|done|by eapply grows_trans|].
    intros r' va Hr'. cbn [mem with_mem]. rewrite Hm, H4 by (try done; tauto). rewrite user_page_vpn by lia.
    repeat case_bool_decide; try done; exfalso; naive_solver lia.
  - intros f Hf. specialize (HD f Hf). pose proof (cnt_take_le f l a). lia.
Qed.

Lemma taken_unref a u s' p : taken a u s' -> l !! a = Some p ->
  wp (on_pmm (fun s => pmm_page_unref s p)) (fun _ s'' => taken (S a) u s'') s'.
Proof using Hl Hle.
  intros [H1 H2 H3 H4] Hp. destruct (Hl p) as (f & -> & Hf); [by eapply list_elem_of_lookup_2|].
  pose proof (cnt_take_le f l (S a)) as Hc. rewrite (cnt_take_S f l a _ Hp), cnt_one, decide_True in Hc by done. specialize (Hle f) as Hle'.
  apply wp_on_pmm. split; [by eapply env_trans; [|apply env_mem]| | |].
  - eapply acct_ext; [|apply (acct_unref k E _ _ T H2 f); lia]. intros g. rewrite (cnt_take_S g l a _ Hp), cnt_one.
    cbv beta. destruct (decide (g = f)) as [->|]; lia.
  - eapply grows_trans; [exact H3|]. apply grows_pmm, unref_total.
  - intros r' va Hr'. cbn [mem with_mem]. rewrite (pte_ram (mem s')) by done. by apply H4.
Qed.
End unmapping.

(** ** Putting pages in *)
Lemma acct_bound k E H s T f : acct k E H s T -> (0 < H f)%nat -> 0 < f < 2 ^ 35.
Proof.
  intros Ha Hf. destruct (ac_frame _ _ _ _ _ Ha f Hf) as (H0 & _ & [pg Hpg] & _).
  destruct (ac_inv _ _ _ _ _ Ha) as (m & Hinv & _). apply (vi_frame _ _ _ _ Hinv) in Hpg. lia.
Qed.

Lemma held_frame k E C s T f : mo_inv k E C s T -> (0 < held s f)%nat -> 0 < f < 2 ^ 35.
Proof. intros Hi. apply (acct_bound k E _ (mem s) T), Hi. Qed.

(** A mapping of the pages [l] of the object [v] at the page [b] of the task [t]. *)
Section mapping.
  Context (k : Z) (E : Z -> option Z) (C : Z -> nat) (s : mo) (T : gmap Z node).
  Context (v : Z) (x : vmo) (t : Z) (tk : mtask) (r b start : Z) (n : nat) (fl : Z).
  Hypothesis Hi : mo_inv k E C s T.
  Hypothesis Hx : vmos s !! v = Some x.
  Hypothesis Htk : mtasks s !! t = Some tk.
  Hypothesis Hcr : t_cr3 tk = r * PAGE_SIZE.
  Hypothesis Hstart : 0 <= start.
  Hypothesis Hn : start + Z.of_nat n <= npages x.
  Hypothesis Hb : 0 < b.
  Hypothesis Hbn : b + Z.of_nat n <= 2 ^ 35.
  Hypothesis Hfree : forall q, b <= q < b + Z.of_nat n -> pte (mem s) r (q * PAGE_SIZE) = None.
  Hypothesis Hfl : in_u 64 fl.
  Hypothesis Hpresent : Z.testbit fl 0 = true.
Let l := take n (drop (Z.to_nat start) (pages x)).
  Hypothesis Hroom : forall f, (0 < cnt f l)%nat -> default 0 (E f) + Z.of_nat (held s f + cnt f l) <= 255.
Let D f := (0 < held s f)%nat.

Record placed (p : nat) (m : vm) (T' : gmap Z node) : Prop := {
  pl_acct : acct k E (fun f => (held s f + cnt f (take p l))%nat) m T';
  pl_grows : grows D (mem s) m T T';
  pl_ptes : forall r' va, is_root T r' -> pte m r' va =
    if bool_decide (r' = r /\ b <= vpn va < b + Z.of_nat p) then option_map (fun pg => pg |. fl) (l !! Z.to_nat (vpn va - b)) else pte (mem s) r' va }.

Lemma part_root : is_root T r.
Proof using All. destruct (mi_tasks _ _ _ _ _ Hi t tk Htk) as (r' & Hr' & HT & _). by replace r with r' by lia. Qed.

Lemma part_length : length l = n.
Proof using All. pose proof (vo_len _ (mi_obj _ _ _ _ _ Hi v x Hx)). unfold l. rewrite length_take, length_drop. lia. Qed.

Lemma part_page (q : nat) p : l !! q = Some p -> get (pages x) (start + Z.of_nat q) = Some p /\ exists f, p = f * PAGE_SIZE /\ 0 < f /\ (0 < held s f)%nat.
Proof using All.
  intros Hp. assert (pages x !! (Z.to_nat start + q)%nat = Some p) as Hq.
  { unfold l in Hp. apply lookup_take_Some in Hp as [Hp _]. by rewrite lookup_drop in Hp. }
  split.
  - unfold get. destruct (Z.ltb_spec (start + Z.of_nat q) 0); [lia|]. by replace (Z.to_nat (start + Z.of_nat q)) with (Z.to_nat start + q)%nat by lia.
  - apply list_elem_of_lookup_2 in Hq. destruct (vo_pages _ (mi_obj _ _ _ _ _ Hi v x Hx) p Hq) as (f & -> & Hf). exists f. split_and!; try done.
    apply cnt_pos in Hq. unfold held. pose proof (msum_le (fun x => cnt f (pages x)) _ v x Hx). cbv beta in *. lia.
Qed.

Lemma part_list : page_list l.
Proof using All.
  intros p Hp. apply list_elem_of_lookup_1 in Hp as [q Hq]. destruct (part_page q p Hq) as [_ (f & ? & ? & _)]. by exists f.
Qed.

Lemma placed_start : placed 0 (mem s) T.
Proof using All.
  split.
  - eapply acct_ext; [|apply (mi_acct _ _ _ _ _ Hi)]. intros f. change (cnt f (take 0 l)) with 0%nat. lia.
  - apply grows_refl.
  - intros r' va _. rewrite bool_decide_eq_false_2; [done|]. lia.
Qed.

(** What a failed mapping leaves. *)
Record failed (s' : mo) (T' : gmap Z node) : Prop := {
  fa_env : env s s';
  fa_acct : acct k E (held s) (mem s') T';
  fa_grows : grows D (mem s) (mem s') T T';
  fa_ptes : same_ptes (mem s) (mem s') T }.

Lemma range_free va : b <= vpn va < b + Z.of_nat n -> pte (mem s) r va = None.
Proof using All.
  intros Hv. rewrite (pte_vpn (mem s) r va (vpn va * PAGE_SIZE)); [by apply Hfree|]. by rewrite user_page_vpn by lia.
Qed.

Lemma roll_back_spec (p j : nat) m1 T1 : (p <= j <= n)%nat -> acct k E (fun f => (held s f + cnt f (take j l))%nat) m1 T1 -> grows D (mem s) m1 T T1 ->
  (forall r' va, is_root T r' -> pte m1 r' va = if bool_decide (r' = r /\ b <= vpn va < b + Z.of_nat p)
    then option_map (fun pg => pg |. fl) (l !! Z.to_nat (vpn va - b)) else pte (mem s) r' va) ->
  wp (roll_back v t (b * PAGE_SIZE) start (Z.of_nat j) true false) (fun _ s' => failed s' T1) (with_mem s m1).
Proof using All.
  intros Hp Ha Hg Hpt. unfold roll_back. wp_step. apply (wp_task_of t tk _ (with_mem s m1) Htk). rewrite Hcr.
  pose proof part_length as Hlen. assert (length (take j l) = j) as Hlj by (rewrite length_take; lia).
  pose proof (lookup_weaken _ _ _ _ part_root (gr_tables _ _ _ _ _ Hg)) as Hroot.
  assert (page_list (take j l)) as Hpl by (intros y Hy; apply part_list; by eapply (subseteq_take j l)).
  eapply wp_mono; [|apply (each_spec _ (fun q => taken k E D (fun f => (held s f + cnt f (take j l))%nat) (with_mem s m1) T1 r b (take j l) q q) j)].
  - intros u s' [H1 H2 H3 H4]. split.
    + by eapply env_trans; [apply env_mem|].
    + eapply acct_ext; [|exact H2]. intros f. cbv beta. rewrite take_take, Nat.min_id. lia.
    + by eapply grows_trans.
    + intros r' va Hr'. rewrite H4 by (by eapply lookup_weaken; [|apply Hg]). cbn [mem with_mem]. rewrite Hpt by done.
      case_bool_decide as E1; [destruct E1 as [-> E1]; rewrite range_free; [done|lia]|]. case_bool_decide as E2; [|done]. naive_solver lia.
  - by apply taken_start.
  - intros q s' Hq Ht. assert (is_Some (take j l !! q)) as [y Hy] by (apply lookup_lt_is_Some; lia).
    wp_step. eapply wp_mono; [|eapply (taken_unmap k E D (fun f => (held s f + cnt f (take j l))%nat) (with_mem s m1) T1 r b (take j l)); [done|lia|lia| |exact Ht|lia]]; last first.
    { intros f Hf. unfold D in Hf. cbv beta. lia. }
    intros u1 s1 Ht1. pose proof (en_vmos _ _ (tk_env _ _ _ _ _ _ _ _ _ _ _ _ Ht1)) as Ev. cbn in Ev.
    assert (l !! q = Some y) as Hy' by (by apply lookup_take_Some in Hy as [? _]).
    do 2 wp_step. apply (wp_deref v x); [by rewrite Ev|]. wp_step. apply (wp_page_at x _ y); [by apply part_page|].
    eapply wp_mono; [|eapply taken_unref; [exact Hpl| |exact Ht1|exact Hy]; intros; cbv beta; lia].
    intros u2 s2 Ht2. by wp_step.
Qed.

(** The loop stops with every frame of the memory in use. *)
Definition map_failed (s' : mo) : Prop := exists T', failed s' T' /\ all_used E (held s) (mem s') T'.

Lemma page_entry f : (0 < held s f)%nat -> in_u 64 (f * PAGE_SIZE |. fl) /\ kept (f * PAGE_SIZE |. fl) = Some (f * PAGE_SIZE |. fl).
Proof using All.
  intros Hf. pose proof (held_frame k E C s T f Hi Hf). split; [apply in_u_lor; [lia|unfold in_u; lia|done]|].
  unfold kept. by rewrite present_odd, <- Z.bit0_odd, Z.lor_spec, Hpresent, orb_true_r.
Qed.

Lemma map_one_spec (p : nat) m T1 : (p < n)%nat -> placed p m T1 ->
  wp (map_one v t (b * PAGE_SIZE) start fl (Z.of_nat p)) (fun ok s' =>
    if (ok : bool) then exists m' T', s' = with_mem s m' /\ placed (S p) m' T' else map_failed s') (with_mem s m).
Proof using All.
  intros Hp [Ha Hg Hpt]. pose proof part_length as Hlen. assert (is_Some (l !! p)) as [y Hy] by (apply lookup_lt_is_Some; lia).
  destruct (part_page p y Hy) as [Hget (f & -> & Hf & Hheld)]. unfold map_one.
  wp_step. apply (wp_task_of t tk _ (with_mem s m) Htk). wp_step. apply (wp_deref v x _ (with_mem s m) Hx).
  wp_step. apply (wp_page_at x _ _ _ _ Hget). rewrite (vo_mmio _ (mi_obj _ _ _ _ _ Hi v x Hx)), andb_false_r. unfold back_page.
  destruct (Z.eqb_spec (f * PAGE_SIZE) 0); [lia|]. do 2 wp_step. apply wp_on_pmm. wp_step. cbv beta iota. rewrite Hcr, range_va by lia.
  assert (forall g, cnt g (take (S p) l) = (cnt g (take p l) + if decide (g = f) then 1 else 0)%nat) as Hc.
  { intros g. by rewrite (cnt_take_S g l p _ Hy), cnt_one. }
  assert (acct k E (fun g => (held s g + cnt g (take (S p) l))%nat) (set_pmm m (pmm_page_ref (phys_pages m) (f * PAGE_SIZE))) T1) as Ha1.
  { eapply acct_ext; [|apply (acct_ref k E _ m T1 Ha f); [lia|]].
    - intros g. rewrite Hc. cbv beta. destruct (decide (g = f)); lia.
    - cbv beta. pose proof (cnt_take_le f l (S p)). specialize (Hc f). rewrite decide_True in Hc by done. specialize (Hroom f ltac:(lia)). lia. }
  assert (pml4_index ((b + Z.of_nat p) * PAGE_SIZE) < 256) as Hidx by (apply user_page_index; lia).
  pose proof (lookup_weaken _ _ _ _ part_root (gr_tables _ _ _ _ _ Hg)) as Hroot. destruct (page_entry f Hheld) as [Hu Hk].
  wp_step. apply wp_on_mem. cbn [mem with_mem].
  eapply wp_mono; [|apply (acct_map k E D _ _ T1 Ha1 r); [done|by right|done|intros g Hg'; unfold D in Hg'; cbv beta; lia]].
  intros [] m' (T' & Ha' & Hg' & Hok).
  - wp_step. exists m', T'. split; [done|]. split; [done| |].
    + eapply grows_trans; [exact Hg|]. eapply grows_trans; [|exact Hg']. apply grows_pmm, (pmm_exec_keeps (phys_pages m) (Page_ref (f * PAGE_SIZE))).
    + intros r' va Hr'. rewrite Hok by (first [by eapply lookup_weaken; [|apply Hg]|tauto]). rewrite Hk, user_page_vpn by lia.
      rewrite (pte_ram m) by done. rewrite Hpt by done. destruct (decide (r' = r)) as [->|]; [|by rewrite !bool_decide_eq_false_2 by naive_solver].
      destruct (decide (vpn va = b + Z.of_nat p)) as [Ev|Ev].
      * rewrite !bool_decide_eq_true_2 by (split; lia || done). replace (Z.to_nat (vpn va - b)) with p by lia. by rewrite Hy.
      * rewrite (bool_decide_eq_false_2 (r = r /\ vpn va = _)) by naive_solver.
        assert ((r = r /\ b <= vpn va < b + Z.of_nat (S p)) <-> (r = r /\ b <= vpn va < b + Z.of_nat p)) as Hs by lia.
        by rewrite (bool_decide_ext _ _ Hs).
  - destruct Hok as [Hs Hall]. wp_step. replace (Z.of_nat p + 1) with (Z.of_nat (S p)) by lia.
    eapply wp_mono; [|apply (roll_back_spec p (S p) m' T'); [lia|done| |]].
    + intros u s' Hf'. wp_step. exists T'. split; [done|]. intros g Hg1.
      rewrite (gr_total _ _ _ _ _ (fa_grows _ _ Hf')), <- (gr_total _ _ _ _ _ Hg) in Hg1.
      pose proof (proj1 (pmm_exec_keeps (phys_pages m) (Page_ref (f * PAGE_SIZE)))) as Ht. cbn [pmm_exec fst] in Ht.
      destruct (Hall g) as [?|[Hh|?]]; [cbn; rewrite Ht; lia|by left| |by right; right]. right; left. rewrite Hc in Hh. cbv beta in Hh.
      destruct (decide (g = f)) as [->|]; [done|]. destruct (decide (0 < cnt g (take p l))%nat) as [Hin|]; [|lia].
      apply cnt_pos in Hin. apply elem_of_take in Hin as (q & Hq & _). destruct (part_page q _ Hq) as [_ (f' & Ef & _ & ?)]. by replace g with f' by lia.
    + eapply grows_trans; [exact Hg|]. eapply grows_trans; [|exact Hg']. apply grows_pmm, (pmm_exec_keeps (phys_pages m) (Page_ref (f * PAGE_SIZE))).
    + intros r' va Hr'. rewrite Hs by (by eapply lookup_weaken; [|apply Hg]). rewrite (pte_ram m) by done. by apply Hpt.
Qed.

Lemma map_pages_spec (j : nat) : forall p m T1, (p + j = n)%nat -> placed p m T1 ->
  wp (map_pages v t (b * PAGE_SIZE) start fl (seqZ (Z.of_nat p) (Z.of_nat j))) (fun ok s' =>
    if (ok : bool) then exists m' T', s' = with_mem s m' /\ placed n m' T' else map_failed s') (with_mem s m).
Proof using All.
  induction j as [|j IH]; intros p m T1 Hp Hpl.
  { apply wp_ret. replace p with n in Hpl by lia. by exists m, T1. }
  rewrite seqZ_cons by lia. cbn [map_pages]. wp_step. eapply wp_mono; [|apply (map_one_spec p m T1); [lia|done]].
  intros [] s' Hs'; [|by wp_step]. destruct Hs' as (m' & T' & -> & Hpl').
  replace (Z.succ (Z.of_nat p)) with (Z.of_nat (S p)) by lia. replace (Z.pred (Z.of_nat (S j))) with (Z.of_nat j) by lia.
  apply (IH (S p) m' T'); [lia|done].
Qed.
End mapping.

(** ** Entries of mappings *)
Lemma map_flags_cases x prot : has_flag (v_flags x) VMO_MMIO = false ->
  map_flags x prot = 5 + (if has_flag prot PROT_WRITE && negb (has_flag (v_flags x) VMO_COW_CHILD) then 2 else 0) +
    (if has_flag prot PROT_EXEC then 0 else 2 ^ 63).
Proof.
  intros Hm. unfold map_flags, prot_to_pte_flags. rewrite Hm.
  by destruct (has_flag prot PROT_WRITE), (has_flag prot PROT_EXEC), (has_flag (v_flags x) VMO_COW_CHILD).
Qed.

Lemma phys_mask f : 0 <= f < 2 ^ 35 -> (f * PAGE_SIZE) &. VMO_PTE_PHYS_MASK = f * PAGE_SIZE.
Proof.
  intros Hf. change PAGE_SIZE with (2 ^ 12). rewrite <- Z.shiftl_mul_pow2 by lia. change VMO_PTE_PHYS_MASK with (Z.ones 40 <<. 12).
  rewrite <- Z.shiftl_land, Z.land_ones by lia. f_equal. apply Z.mod_small. lia.
Qed.

Lemma page_bit f i : 0 <= f < 2 ^ 35 -> 0 <= i -> (i < 12 \/ 47 <= i) -> Z.testbit (f * PAGE_SIZE) i = false.
Proof.
  intros Hf H0 Hi. change PAGE_SIZE with (2 ^ 12). rewrite <- Z.shiftl_mul_pow2, Z.shiftl_spec by lia.
  destruct Hi; [apply Z.testbit_neg_r; lia|]. apply (testbit_high 35); [unfold in_u|]; lia.
Qed.

Lemma user_bit e : has_flag e PTE_USER = Z.testbit e 2.
Proof. apply (has_flag_pow2 e 2). lia. Qed.
Lemma writable_bit e : has_flag e PTE_WRITABLE = Z.testbit e 1.
Proof. apply (has_flag_pow2 e 1). lia. Qed.
Lemma nx_bit e : has_flag e PTE_NX = Z.testbit e 63.
Proof. apply (has_flag_pow2 e 63). lia. Qed.

Lemma shows_entry f x prot : 0 <= f < 2 ^ 35 -> has_flag (v_flags x) VMO_MMIO = false ->
  shows (f * PAGE_SIZE |. map_flags x prot) (f * PAGE_SIZE) prot.
Proof.
  intros Hf Hm. rewrite map_flags_cases by done. unfold shows. rewrite present_odd, <- Z.bit0_odd.
  rewrite !user_bit, !writable_bit, !nx_bit.
  rewrite Z.land_lor_distr_l, phys_mask, !Z.lor_spec, !(page_bit f) by lia. cbn [orb].
  destruct (Z.testbit prot 1), (Z.testbit prot 2), (has_flag (v_flags x) VMO_COW_CHILD); cbn [andb negb].
  all: split_and!; [exact (Z.lor_0_r _)|done..].
Qed.

Lemma map_flags_bits x prot : has_flag (v_flags x) VMO_MMIO = false -> in_u 64 (map_flags x prot) /\ Z.testbit (map_flags x prot) 0 = true.
Proof.
  intros Hm. rewrite map_flags_cases by done. unfold in_u.
  destruct (has_flag prot PROT_WRITE), (has_flag prot PROT_EXEC), (has_flag (v_flags x) VMO_COW_CHILD); cbn [andb negb]; split; (lia || done).
Qed.

(** ** Slots *)
Lemma first_slot_spec s t g : (first_slot s t g = -1 /\ (slot_bad t = true \/ forall i, 0 <= i < VMO_MAPPINGS_PER_TASK -> g (g_vmo_task_maps s !! (t, i)) = false)) \/
  (0 <= t < VMO_MAX_TASKS /\ 0 <= first_slot s t g < VMO_MAPPINGS_PER_TASK /\ g (g_vmo_task_maps s !! (t, first_slot s t g)) = true).
Proof.
  unfold first_slot. destruct (slot_bad t) eqn:Eb; [left; auto|]. unfold slot_bad in Eb. apply orb_false_iff in Eb as [E1 E2].
  destruct (List.find _ _) as [i|] eqn:Ef.
  - apply find_Some_in in Ef as [Hin Hg]. apply elem_of_seqZ in Hin. right. cbn. split; [lia|]. split; [lia|done].
  - left. split; [done|]. right. intros i Hi. apply (List.find_none _ _ Ef). apply list_elem_of_In, elem_of_seqZ. lia.
Qed.
