(* ===== verification/VmoMap.v ===== *)
(** * vmo_map, vmo_unmap and vmo_cleanup_task

    The operations on mappings keep the invariant.  A mapping that succeeds shows the pages
    of the object at addresses that were free; one that fails leaves objects, mappings and
    translations as they were, and has one of the reasons listed in [map_reason]. *)
From S2P Require Import Prelude Bytes Pmm StateM Vmm VmmInv VmmMap VmmSpace VmmInit VmmReserve Rlimit Vmo VmoPages VmoInv VmoRefs VmoMapping.
Local Open Scope Z_scope.
Local Open Scope c_scope.

Lemma low_bits_page a : a &. 0xFFF = 0 -> a = a / 4096 * 4096.
Proof. change 0xFFF with (Z.ones 12). rewrite Z.land_ones by lia. change (2 ^ 12) with 4096. intros. zlia. Qed.

Definition map_args (x : vmo) (offset len prot : Z) : Prop :=
  offset &. 0xFFF = 0 /\ len &. 0xFFF = 0 /\ len <> 0 /\ offset + len <= size_bytes x /\ prot &. (PROT_READ |. PROT_WRITE |. PROT_EXEC) <> 0.

(** The pages of an object may get a reference each. *)
Definition room (E : Z -> option Z) (s : mo) (x : vmo) : Prop := forall f, (0 < cnt f (pages x))%nat ->
  default 0 (E f) + Z.of_nat (held s f + cnt f (pages x)) <= 255.

(** Free addresses are searched for, or asked for and free. *)
Definition hint_ok (s : vm) (r hint n : Z) (fuel : nat) : Prop :=
  (hint = 0 /\ (length (user_ptes s r) < fuel)%nat) \/
  (exists b, hint = b * PAGE_SIZE /\ 0 < b /\ b + n <= 2 ^ 35 /\ forall q, b <= q < b + n -> pte s r (q * PAGE_SIZE) = None).

(** Why a mapping may fail, in the order of the code. *)
Inductive map_reason (E : Z -> option Z) (s s' : mo) (T' : gmap Z node) (x : vmo) (t r hint offset len prot : Z) : Prop :=
| Bad_args : ~ map_args x offset len prot -> map_reason E s s' T' x t r hint offset len prot
| Bad_task : slot_bad t = true -> map_reason E s s' T' x t r hint offset len prot
| No_slot : (forall i, 0 <= i < VMO_MAPPINGS_PER_TASK -> is_Some (g_vmo_task_maps s !! (t, i))) -> map_reason E s s' T' x t r hint offset len prot
| No_range : hint = 0 -> (forall c, BOT <= c <= TOP - len / 4096 -> exists q, c <= q < c + len / 4096 /\ pte (mem s) r (q * PAGE_SIZE) <> None) ->
    map_reason E s s' T' x t r hint offset len prot
| No_memory : all_used E (held s) (mem s') T' -> map_reason E s s' T' x t r hint offset len prot.

Section map.
  Context (k : Z) (E : Z -> option Z) (C : Z -> nat) (s : mo) (T : gmap Z node).
  Context (v : Z) (x : vmo) (t : Z) (tk : mtask) (r hint offset len prot : Z) (fuel : nat).
  Hypothesis Hi : mo_inv k E C s T.
  Hypothesis Hx : vmos s !! v = Some x.
  Hypothesis Htk : mtasks s !! t = Some tk.
  Hypothesis Hcr : t_cr3 tk = r * PAGE_SIZE.
  Hypothesis Hoff : 0 <= offset.
  Hypothesis Hlen : 0 <= len.
  Hypothesis Hsum : offset + len < 2 ^ 64.
  Hypothesis Hrefs : refcount x < 2 ^ 32 - 1.
  Hypothesis Hhint : hint_ok (mem s) r hint (len / 4096) fuel.
  Hypothesis Hroom : room E s x.
Let D f := (0 < held s f)%nat.

(** The state after a mapping at the page [b] in the slot [i]. *)
Record map_done (b i : Z) (s' : mo) (T' : gmap Z node) : Prop := {
  md_args : map_args x offset len prot;
  md_base : 0 < b /\ b + len / 4096 <= 2 ^ 35;
  md_free : forall q, b <= q < b + len / 4096 -> pte (mem s) r (q * PAGE_SIZE) = None;
  md_slot : g_vmo_task_maps s !! (t, i) = None;
  md_maps : g_vmo_task_maps s' = <[(t, i) := Vmo_mapping (b * PAGE_SIZE) v offset (len / 4096) prot]> (g_vmo_task_maps s);
  md_vmos : vmos s' = <[v := recount x (refcount x + 1)]> (vmos s);
  md_tasks : mtasks s' = mtasks s /\ current_task s' = current_task s;
  md_inv : mo_inv k E C s' T';
  md_grows : grows D (mem s) (mem s') T T';
  md_ptes : forall r' va, is_root T r' -> pte (mem s') r' va =
    if bool_decide (r' = r /\ b <= vpn va < b + len / 4096)
    then option_map (fun p => p |. map_flags x prot) (get (pages x) (offset / 4096 + (vpn va - b))) else pte (mem s) r' va }.

Definition map_post (a : Z) (s' : mo) : Prop :=
  if a =? 0 then exists T', mo_inv k E C s' T' /\ env s s' /\ grows D (mem s) (mem s') T T' /\ same_ptes (mem s) (mem s') T /\
    map_reason E s s' T' x t r hint offset len prot
  else exists b i T', a = b * PAGE_SIZE /\ map_done b i s' T'.

Lemma map_stops : map_reason E s s T x t r hint offset len prot -> wp (mret 0) map_post s.
Proof using Hi. intros Hre. wp_step. unfold map_post. exists T. split_and!; [done|apply env_refl|apply grows_refl|done|done]. Qed.

Lemma base_spec (Q : Z -> mo -> Prop) : map_args x offset len prot ->
  (forall b, 0 < b -> b + len / 4096 <= 2 ^ 35 -> (forall q, b <= q < b + len / 4096 -> pte (mem s) r (q * PAGE_SIZE) = None) -> Q (b * PAGE_SIZE) s) ->
  (map_reason E s s T x t r hint offset len prot -> Q 0 s) ->
  wp (if hint =? 0 then on_mem (vmm_reserve_va_by_cr3 fuel (t_cr3 tk) len) else mret hint) Q s.
Proof using All.
  intros (Ha1 & Ha2 & Ha3 & Ha4 & Ha5) Hyes Hno. destruct Hhint as [[-> Hf]|(b & -> & Hb & Hbn & Hfree)].
  - cbn. apply wp_on_mem. destruct (ac_inv _ _ _ _ _ (mi_acct _ _ _ _ _ Hi)) as (m & Hinv & _).
    pose proof (vo_npages _ (mi_obj _ _ _ _ _ Hi v x Hx)) as Hn. pose proof (vo_size _ (mi_obj _ _ _ _ _ Hi v x Hx)) as Hsz.
    pose proof (low_bits_page len Ha2) as Hl.
    destruct (mi_tasks _ _ _ _ _ Hi t tk Htk) as (r' & Hr' & HT & _). assert (r' = r) as -> by lia.
    destruct (reserve_first_fit k (mem s) m T r (len / 4096) fuel Hinv HT ltac:(zlia) Hf) as (a & Ea & Hcase). rewrite Hcr. rewrite Hl at 1.
    exists (mem s), a. split; [done|]. replace (with_mem s (mem s)) with s by (by destruct s).
    destruct Hcase as [(c & -> & Hc & Hfree & _)|[-> Hall]]; [apply Hyes; [lia|lia|done]|apply Hno; by apply No_range].
  - destruct (Z.eqb_spec (b * PAGE_SIZE) 0); [lia|]. wp_step. by apply Hyes.
Qed.

Lemma args_part : map_args x offset len prot -> exists o n, offset = o * 4096 /\ len = n * 4096 /\ 0 <= o /\ 0 < n /\ o + n <= npages x /\ n < 2 ^ 32.
Proof using All.
  intros (Ha1 & Ha2 & Ha3 & Ha4 & _). pose proof (vo_npages _ (mi_obj _ _ _ _ _ Hi v x Hx)) as Hn.
  pose proof (vo_size _ (mi_obj _ _ _ _ _ Hi v x Hx)) as Hsz. apply low_bits_page in Ha1, Ha2.
  exists (offset / 4096), (len / 4096). change (VMO_MAX_SIZE / 4096) with 65536 in Hn. zlia.
Qed.

(** A mapping that shows pages and addresses without translation are apart. *)
Lemma new_disjoint b i mp : 0 < len_pages mp -> (forall q, b <= q < b + len_pages mp -> pte (mem s) r (q * PAGE_SIZE) = None) -> vaddr mp = b * PAGE_SIZE ->
  g_vmo_task_maps s !! (t, i) = None -> disjoint_maps s (<[(t, i) := mp]> (g_vmo_task_maps s)).
Proof using Hi Htk Hcr.
  clear Hroom Hhint Hrefs Hsum Hoff Hlen. intros Hp Hfree Hva Hslot.
  assert (forall t2 i2 mp2 tk2, g_vmo_task_maps s !! (t2, i2) = Some mp2 -> mtasks s !! t2 = Some tk2 -> t_cr3 tk2 = t_cr3 tk ->
    vaddr mp + len_pages mp * PAGE_SIZE <= vaddr mp2 \/ vaddr mp2 + len_pages mp2 * PAGE_SIZE <= vaddr mp) as Hnew.
  { intros t2 i2 mp2 tk2 Hmp2 Ht2 Ec. pose proof (mi_map _ _ _ _ _ Hi t2 i2 mp2 Hmp2) as Hok. destruct (mk_base _ _ _ _ Hok) as (b2 & Hb2 & Hb2' & Hb2'').
    pose proof (mapping_length s T t2 i2 mp2 (mi_shape _ _ _ _ _ Hi) Hmp2) as Hl2. destruct (decide (b + len_pages mp <= b2 \/ b2 + len_pages mp2 <= b)); [lia|].
    exfalso. set (q := Z.max b b2).
    destruct (mk_part _ _ _ _ Hok) as (y & _ & _ & Hpos & _).
    destruct (lookup_lt_is_Some_2 (span (vmos s) mp2) (Z.to_nat (q - b2)) ltac:(lia)) as [p Hp'].
    destruct (mk_ptes _ _ _ _ Hok tk2 r (Z.to_nat (q - b2)) p Ht2 ltac:(lia) Hp') as (e & He & _).
    rewrite Hb2 in He. replace (b2 * PAGE_SIZE + Z.of_nat (Z.to_nat (q - b2)) * PAGE_SIZE) with (q * PAGE_SIZE) in He by lia.
    rewrite Hfree in He by lia. done. }
  intros t1 i1 mp1 t2 i2 mp2 tk1 tk2 H1 H2 Hne Ht1 Ht2 Ec.
  destruct (decide ((t1, i1) = (t, i))) as [E1|E1], (decide ((t2, i2) = (t, i))) as [E2|E2]; [congruence| | |].
  - rewrite E1, lookup_insert_eq in H1. rewrite lookup_insert_ne in H2 by done. simplify_eq. by eapply Hnew.
  - rewrite E2, lookup_insert_eq in H2. rewrite lookup_insert_ne in H1 by done. simplify_eq. apply or_comm. by eapply Hnew.
  - rewrite lookup_insert_ne in H1, H2 by done. by eapply (mi_disjoint _ _ _ _ _ Hi t1 i1 mp1 t2 i2 mp2).
Qed.

(** The translations after the loop, for the pages [l] of the object. *)
Definition shown (b n : Z) (l : list Z) (m : vm) : Prop := forall r' va, is_root T r' -> pte m r' va =
  if bool_decide (r' = r /\ b <= vpn va < b + n) then option_map (fun p => p |. map_flags x prot) (l !! Z.to_nat (vpn va - b)) else pte (mem s) r' va.

Lemma shown_keeps b n l m : shown b n l m -> (forall q, b <= q < b + n -> pte (mem s) r (q * PAGE_SIZE) = None) ->
  keeps_maps s (g_vmo_task_maps s) m.
Proof using Hi.
  clear Hcr Hroom Hhint Hrefs Hsum Hoff Hlen. intros Hpt Hfree t2 i2 mp2 tk2 r2 q Hmp2 Ht2 Hr2 Hq.
  destruct (mi_tasks _ _ _ _ _ Hi t2 tk2 Ht2) as (r' & Er' & HT & _). assert (r' = r2) as -> by lia.
  rewrite Hpt by done. case_bool_decide as Eb; [|done]. destruct Eb as [-> Eb]. exfalso.
  pose proof (mi_map _ _ _ _ _ Hi t2 i2 mp2 Hmp2) as Hok2. destruct (mk_base _ _ _ _ Hok2) as (b2 & Hb2 & Hb2' & Hb2'').
  destruct (lookup_lt_is_Some_2 (span (vmos s) mp2) q) as [p Hp]; [rewrite <- (mapping_length s T t2 i2 mp2 (mi_shape _ _ _ _ _ Hi) Hmp2) in Hq; lia|].
  destruct (mk_ptes _ _ _ _ Hok2 tk2 r q p Ht2 Hr2 Hp) as (e & He & _). rewrite Hb2 in He, Eb.
  replace (b2 * PAGE_SIZE + Z.of_nat q * PAGE_SIZE) with ((b2 + Z.of_nat q) * PAGE_SIZE) in He, Eb by lia.
  rewrite user_page_vpn in Eb by lia. by rewrite Hfree in He.
Qed.

Lemma object_page p : p ∈ pages x -> exists f, p = f * PAGE_SIZE /\ 0 < f < 2 ^ 35.
Proof using Hi Hx.
  intros Hin. destruct (vo_pages _ (mi_obj _ _ _ _ _ Hi v x Hx) p Hin) as (f & -> & Hf). exists f. split; [done|].
  apply (held_frame k E C s T f Hi). apply cnt_pos in Hin. pose proof (msum_le (fun x => cnt f (pages x)) _ v x Hx) as Hle.
  unfold held. cbv beta in Hle. clear - Hin Hle. lia.
Qed.

Lemma shown_ok (b n : Z) (m : vm) (i : Z) (s1 : mo) (P' : gmap (Z * Z) vmo_mapping) (y : vmo) : shown b n (take (Z.to_nat n) (drop (Z.to_nat (offset / 4096)) (pages x))) m ->
  0 < b -> b + n <= 2 ^ 35 -> 0 < n -> offset / 4096 + n <= npages x -> 0 <= t < VMO_MAX_TASKS -> 0 <= i < VMO_MAPPINGS_PER_TASK ->
  mtasks s1 = mtasks s -> vmos s1 !! v = Some y -> pages y = pages x -> npages y = npages x ->
  map_ok (with_maps s1 m P') t i (Vmo_mapping (b * PAGE_SIZE) v offset n prot).
Proof using All.
  intros Hpt Hb Hbn Hn Hon Ht Hislot Ets Hy Ep En. split; cbn [mtasks vmos mem with_maps vaddr m_vmo m_offset len_pages m_prot]; [done| | | |].
  - exists y. split; [done|]. rewrite En. zlia.
  - by rewrite Ets, Htk.
  - by exists b.
  - intros tk' r' q p Ht' Hr' Hq. rewrite Ets in Ht'. assert (tk' = tk) as -> by congruence. assert (r' = r) as -> by lia.
    unfold span in Hq. cbn [m_vmo len_pages m_offset] in Hq. rewrite Hy, Ep in Hq.
    assert (Z.of_nat q < n) as Hqn by (apply lookup_lt_Some in Hq; rewrite length_take in Hq; lia).
    assert (is_root T r) as HT by (destruct (mi_tasks _ _ _ _ _ Hi t tk Htk) as (r' & Er' & HT & _); by replace r with r' by lia).
    replace (b * PAGE_SIZE + Z.of_nat q * PAGE_SIZE) with ((b + Z.of_nat q) * PAGE_SIZE) by lia.
    rewrite Hpt, user_page_vpn, bool_decide_eq_true_2 by (done || lia). replace (Z.to_nat (b + Z.of_nat q - b)) with q by lia. rewrite Hq.
    eexists. split; [done|]. apply list_elem_of_lookup_2, elem_of_take in Hq as (q' & Hq' & _). rewrite lookup_drop in Hq'.
    destruct (object_page p) as (f & -> & Hf); [by eapply list_elem_of_lookup_2|]. apply shows_entry; [lia|apply (vo_mmio _ (mi_obj _ _ _ _ _ Hi v x Hx))].
Qed.

Lemma map_finish b i m T' : map_args x offset len prot -> 0 < b -> b + len / 4096 <= 2 ^ 35 ->
  (forall q, b <= q < b + len / 4096 -> pte (mem s) r (q * PAGE_SIZE) = None) ->
  0 <= t < VMO_MAX_TASKS -> 0 <= i < VMO_MAPPINGS_PER_TASK -> g_vmo_task_maps s !! (t, i) = None ->
  placed k E s T x r b (offset / 4096) (Z.to_nat (len / 4096)) (map_flags x prot) (Z.to_nat (len / 4096)) m T' ->
  wp (set_mapping t i (Some (Vmo_mapping (b * PAGE_SIZE) v offset (u32 (len / 4096)) prot));; vmo_ref v;; mret (b * PAGE_SIZE))
    map_post (with_mem s m).
Proof using All.
  intros Hargs Hb Hbn Hfree Ht Hislot Hslot [Ha Hg Hpt]. destruct (args_part Hargs) as (o & n & Eo & En & Ho & Hn & Hon & Hn32).
  assert (len / 4096 = n) as Eln by (rewrite En; zlia). assert (offset / 4096 = o) as Eof by (rewrite Eo; zlia).
  rewrite Eln in Hbn, Hfree |- *. rewrite Eln, Eof in Ha, Hpt.
  rewrite (wrap_small 32 n) by (unfold in_u; lia). set (mp := Vmo_mapping (b * PAGE_SIZE) v offset n prot).
  pose proof (mi_obj _ _ _ _ _ Hi v x Hx) as Hok. pose proof (vo_npages _ Hok) as Hnp.
  pose proof (mi_addr _ _ _ _ _ Hi v x Hx) as Hv. unfold set_mapping. do 2 wp_step. unfold vmo_ref.
  do 2 wp_step. apply (wp_vmo_check v x); [lia|done|lia|]. cbn [negb]. wp_step. apply (wp_deref v x); [done|]. apply wp_set_vmo. wp_step.
  destruct (mi_refs _ _ _ _ _ Hi v x Hx) as [Er Hr]. rewrite (wrap_small 32) by (unfold in_u; lia).
  unfold map_post. destruct (Z.eqb_spec (b * PAGE_SIZE) 0); [lia|]. exists b, i, T'. split; [done|].
  assert (refcount x + 1 = Z.of_nat (add_cap C v v + uses s v)) as E1 by (unfold add_cap; rewrite decide_True by done; lia).
  pose proof (mi_count k E C (add_cap C v) s T v x Hi Hx ltac:(intros u Hu; unfold add_cap; by rewrite decide_False) ltac:(lia) ltac:(lia)) as Hi1.
  rewrite <- E1 in Hi1. set (s1 := with_vmo s v (recount x (refcount x + 1))) in *.
  assert (vmos s1 !! v = Some (recount x (refcount x + 1))) as Hy by (cbn; by rewrite lookup_insert_eq).
  assert (shown b n (take (Z.to_nat n) (drop (Z.to_nat o) (pages x))) m) as Hpt' by (intros r' va Hr'; rewrite Hpt by done; by rewrite Z2Nat.id by lia).
  split; rewrite ?Eln, ?Eof; try done.
  - change (mo_inv k E C (with_maps s1 m (<[(t, i) := mp]> (g_vmo_task_maps s))) T').
    eapply caps_ext; [|eapply (mi_mapped k E (add_cap C v) s1 T m T' t i mp Hi1)]; try done.
    + intros u. unfold drop_cap, add_cap. cbn. by destruct (decide (u = v)).
    + unfold add_cap. cbn. rewrite decide_True by done. lia.
    + eapply acct_ext; [|exact Ha]. intros f. unfold span. cbn [m_vmo len_pages m_offset mp]. rewrite Hy, Eof. unfold s1.
      rewrite (held_same s); [|intros; by apply recount_fields|done]. by rewrite take_take, Nat.min_id.
    + apply (gr_kernel _ _ _ _ _ Hg).
    + apply (gr_tables _ _ _ _ _ Hg).
    + exact (shown_keeps b n _ m Hpt' Hfree).
    + rewrite <- Eof in Hpt'. apply (shown_ok b n m i s1 _ _ Hpt' Hb Hbn Hn ltac:(lia) Ht Hislot eq_refl Hy eq_refl eq_refl).
    + apply (new_disjoint b i mp); try done.
  - cbn [mem with_vmo with_maps with_mem]. intros r' va Hr'. rewrite Hpt' by done. case_bool_decide as Eb; [|done]. f_equal.
    unfold get. destruct (Z.ltb_spec (o + (vpn va - b)) 0); [lia|]. rewrite lookup_take_lt by lia. rewrite lookup_drop. f_equal. lia.
Qed.

Lemma failed_post s' : map_failed k E s T s' -> map_post 0 s'.
Proof using Hi.
  clear - Hi. intros (T' & [He Ha Hg Hs] & Hall). unfold map_post. cbn. exists T'. split_and!; try done; [|by apply No_memory].
  apply (mi_env k E C s T); [done|apply He|apply He|apply He|by rewrite (en_next _ _ He)|done|apply Hg|apply Hg|by apply (same_ptes_map k E C s T)].
Qed.

Lemma vmo_map_spec : wp (vmo_map fuel v t hint offset len prot) map_post s.
Proof using All.
  pose proof (mi_obj _ _ _ _ _ Hi v x Hx) as Hok. pose proof (vo_npages _ Hok) as Hnp. pose proof (mi_addr _ _ _ _ _ Hi v x Hx) as Hv. unfold vmo_map.
  wp_step. apply (wp_vmo_check v x); [lia|done|lia|]. cbn [negb]. wp_step. apply (wp_task_of t tk); [done|]. wp_step. apply (wp_deref v x); [done|].
  destruct (Z.eqb_spec (offset &. 0xFFF) 0) as [Ha1|]; [|cbn; apply map_stops, Bad_args; unfold map_args; naive_solver].
  destruct (Z.eqb_spec (len &. 0xFFF) 0) as [Ha2|]; [|cbn; apply map_stops, Bad_args; unfold map_args; naive_solver].
  destruct (Z.eqb_spec len 0) as [|Ha3]; [cbn; apply map_stops, Bad_args; unfold map_args; naive_solver|]. cbn [negb orb].
  rewrite (wrap_small 64) by (unfold in_u; lia).
  destruct (Z.gtb_spec (offset + len) (size_bytes x)) as [|Ha4]; [apply map_stops, Bad_args; unfold map_args; naive_solver lia|].
  destruct (Z.eqb_spec (prot &. (PROT_READ |. PROT_WRITE |. PROT_EXEC)) 0) as [|Ha5]; [apply map_stops, Bad_args; unfold map_args; naive_solver|].
  assert (map_args x offset len prot) as Hargs by (unfold map_args; split_and!; (done || lia)).
  do 2 wp_step. unfold vmo_alloc_map_slot. destruct (first_slot_spec s t (fun m => match m with None => true | Some _ => false end)) as [[-> Hno]|(Ht & Hslot & Hnone)].
  { apply map_stops. destruct Hno as [|Hno]; [by apply Bad_task|]. apply No_slot. intros i Hi'. specialize (Hno i Hi'). by destruct (g_vmo_task_maps s !! (t, i)). }
  set (i := first_slot s t _) in *. destruct (Z.ltb_spec i 0); [lia|]. assert (g_vmo_task_maps s !! (t, i) = None) as Hfree' by (by destruct (g_vmo_task_maps s !! (t, i))).
  wp_step. apply base_spec; [done| |by apply map_stops]. intros b Hb Hbn Hfree. destruct (Z.eqb_spec (b * PAGE_SIZE) 0) as [|_]; [lia|]. cbv zeta.
  destruct (args_part Hargs) as (o & n & Eo & En & Ho & Hn & Hon & Hn32). assert (len / 4096 = n) as Eln by (rewrite En; zlia). assert (offset / 4096 = o) as Eof by (rewrite Eo; zlia).
  destruct (map_flags_bits x prot (vo_mmio _ Hok)) as [Hf1 Hf2].
  assert (forall f, (cnt f (take (Z.to_nat n) (drop (Z.to_nat o) (pages x))) <= cnt f (pages x))%nat) as Hsub.
  { intros f. rewrite <- (take_drop (Z.to_nat o) (pages x)) at 2. rewrite cnt_app. pose proof (cnt_take_le f (drop (Z.to_nat o) (pages x)) (Z.to_nat n)). lia. }
  assert (Z.of_nat (Z.to_nat n) = n) as Hzn by lia.
  assert (placed k E s T x r b (offset / 4096) (Z.to_nat n) (map_flags x prot) 0 (mem s) T) as Hp0.
  { apply (placed_start k E C s T v x t tk); rewrite ?Eof, ?Hzn; try done; try lia; [by rewrite Eln in Hfree|].
    intros f Hf. specialize (Hroom f ltac:(specialize (Hsub f); lia)). specialize (Hsub f). lia. }
  pose proof (map_pages_spec k E C s T v x t tk r b (offset / 4096) (Z.to_nat n) (map_flags x prot) Hi Hx Htk Hcr) as Hloop.
  rewrite Hzn, Eof in Hloop. rewrite Eln in Hbn. rewrite Eln, Eof. wp_step.
  assert (wp (map_pages v t (b * PAGE_SIZE) o (map_flags x prot) (seqZ 0 n)) (fun ok s' => if (ok : bool) then exists m' T', s' = with_mem s m' /\
    placed k E s T x r b o (Z.to_nat n) (map_flags x prot) (Z.to_nat n) m' T' else map_failed k E s T s') (with_mem s (mem s))) as Hrun.
  { replace (seqZ 0 n) with (seqZ (Z.of_nat 0) (Z.of_nat (Z.to_nat n))) by (by rewrite Hzn).
    eapply Hloop; try done; try lia; [by rewrite Eln in Hfree| |by rewrite <- Eof; apply Hp0].
    intros f Hf. specialize (Hroom f ltac:(specialize (Hsub f); lia)). specialize (Hsub f). lia. }
  replace (with_mem s (mem s)) with s in Hrun by (by destruct s). eapply wp_mono; [|exact Hrun]. intros [] s' Hs'; cbn [negb]; [|wp_step; by apply failed_post]. destruct Hs' as (m' & T' & -> & Hpl).
  rewrite <- Eln. apply (map_finish b i m' T'); rewrite ?Eln, ?Eof; try done. by rewrite <- Eln.
Qed.
End map.

(** ** Mappings as the invariant has them *)
Section cell.
  Context (s : mo) (T : gmap Z node) (t i : Z) (mp : vmo_mapping).
  Hypothesis Hi : mo_shape s T.
  Hypothesis Hmp : g_vmo_task_maps s !! (t, i) = Some mp.
Let l := span (vmos s) mp.

Lemma map_cell : exists x tk r b, vmos s !! m_vmo mp = Some x /\ mtasks s !! t = Some tk /\ t_cr3 tk = r * PAGE_SIZE /\ is_root T r /\
  vaddr mp = b * PAGE_SIZE /\ 0 < b /\ b + len_pages mp <= 2 ^ 35 /\ m_vmo mp <> 0 /\ 0 < len_pages mp /\ Z.of_nat (length l) = len_pages mp /\
  page_list l /\ has_flag (v_flags x) VMO_MMIO = false /\
  forall (q : nat) p, l !! q = Some p -> get (pages x) (m_offset mp / 4096 + Z.of_nat q) = Some p.
Proof using Hi Hmp.
  pose proof (ms_map _ _ Hi t i mp Hmp) as Hok. destruct (mk_part _ _ _ _ Hok) as (x & Hx & H1 & H2 & H3).
  destruct (mk_task _ _ _ _ Hok) as [tk Htk]. destruct (ms_tasks _ _ Hi t tk Htk) as (r & Hr & HT).
  destruct (mk_base _ _ _ _ Hok) as (b & Hb & Hb' & Hb''). pose proof (ms_addr _ _ Hi _ _ Hx). pose proof (ms_obj _ _ Hi _ _ Hx) as Hvo.
  assert (forall (q : nat) p, l !! q = Some p -> pages x !! (Z.to_nat (m_offset mp / 4096) + q)%nat = Some p) as Hq.
  { intros q p Hp. unfold l, span in Hp. rewrite Hx in Hp. apply lookup_take_Some in Hp as [Hp _]. by rewrite lookup_drop in Hp. }
  exists x, tk, r, b. split_and!; try done; try lia; [by eapply mapping_length| | |].
  - intros p [q Hp%Hq]%list_elem_of_lookup_1. apply (os_pages _ Hvo). by eapply list_elem_of_lookup_2.
  - apply (os_mmio _ Hvo).
  - intros q p Hp%Hq. unfold get. destruct (Z.ltb_spec (m_offset mp / 4096 + Z.of_nat q) 0); [lia|].
    by replace (Z.to_nat (m_offset mp / 4096 + Z.of_nat q)) with (Z.to_nat (m_offset mp / 4096) + q)%nat by lia.
Qed.
End cell.

(** ** Taking a mapping away *)
Section unmap.
  Context (k : Z) (E : Z -> option Z) (C : Z -> nat) (s : mo) (T : gmap Z node) (t i : Z) (mp : vmo_mapping).
  Hypothesis Hi : mo_inv k E C s T.
  Hypothesis Hmp : g_vmo_task_maps s !! (t, i) = Some mp.
Let l := span (vmos s) mp.
Let D f := (cnt f l < held s f)%nat.

Lemma span_held f : (cnt f l <= held s f)%nat.
Proof using Hmp. unfold held. pose proof (msum_le (fun mp => cnt f (span (vmos s) mp)) _ _ mp Hmp) as Hle. cbv beta in Hle. fold l in Hle. clear - Hle. lia. Qed.

(** After the loop, with the [u] first pages unmapped: all of them, or none. *)
Lemma unmapped_inv r b (u : nat) s1 : (forall tk, mtasks s !! t = Some tk -> t_cr3 tk = r * PAGE_SIZE) -> vaddr mp = b * PAGE_SIZE ->
  Z.of_nat u <= len_pages mp -> b + len_pages mp <= 2 ^ 35 -> 0 < b ->
  taken k E D (held s) s T r b l (length l) u s1 ->
  mo_inv k E (add_cap C (m_vmo mp)) {| s1 with g_vmo_task_maps := delete (t, i) (g_vmo_task_maps s1) |} T.
Proof using Hi Hmp.
  intros Hcr Hb Hu Hbl Hb0 [He Ha Hg Hpt]. set (s0 := with_mem s1 (mem s)). destruct He as [Ev Em Ets En Ec].
  assert (mo_inv k E C s0 T) as Hi0.
  { apply (mi_env k E C s T); try done; [by rewrite <- En|apply (mi_acct _ _ _ _ _ Hi)|]. by apply (same_ptes_map k E C s T). }
  change (mo_inv k E (add_cap C (m_vmo mp)) (with_maps s0 (mem s1) (delete (t, i) (g_vmo_task_maps s0))) T).
  apply (mi_unmap k E C s0 T (mem s1) t i mp Hi0); [cbn; by rewrite Em| |apply (gr_kernel _ _ _ _ _ Hg)|].
  - eapply acct_ext; [|exact Ha]. intros f. cbn. rewrite Ev. fold l. rewrite firstn_all. rewrite (held_same s s0); [done|by intros; rewrite <- Ev|done].
  - cbn. rewrite Em. intros t2 i2 mp2 tk2 r2 q [Hne Hmp2]%lookup_delete_Some Ht2 Hr2 Hq. cbn [mem with_mem s0].
    destruct (tasks_same_Some s s1 t2 tk2 Ets Ht2) as (tk2' & Ht2' & Ec2).
    destruct (mi_tasks _ _ _ _ _ Hi t2 tk2' Ht2') as (r' & Hr' & HT & _). assert (r' = r2) as -> by lia.
    rewrite Hpt by done. case_bool_decide as Eb; [|done]. destruct Eb as [-> Eb]. exfalso.
    destruct (mk_task _ _ _ _ (mi_map _ _ _ _ _ Hi t i mp Hmp)) as [tk Htk].
    destruct (mk_base _ _ _ _ (mi_map _ _ _ _ _ Hi t2 i2 mp2 Hmp2)) as (b2 & Hb2 & Hb2' & Hb2''). rewrite Hb2 in Eb.
    replace (b2 * PAGE_SIZE + Z.of_nat q * PAGE_SIZE) with ((b2 + Z.of_nat q) * PAGE_SIZE) in Eb by lia. rewrite user_page_vpn in Eb by lia.
    pose proof (mi_disjoint _ _ _ _ _ Hi t i mp t2 i2 mp2 tk tk2' Hmp Hmp2 Hne Htk Ht2' ltac:(rewrite (Hcr tk Htk); lia)). lia.
Qed.

(** The object loses the reference of the mapping. *)
Lemma unmap_end r b (u : nat) s1 : (forall tk, mtasks s !! t = Some tk -> t_cr3 tk = r * PAGE_SIZE) -> vaddr mp = b * PAGE_SIZE ->
  Z.of_nat u <= len_pages mp -> b + len_pages mp <= 2 ^ 35 -> 0 < b ->
  taken k E D (held s) s T r b l (length l) u s1 ->
  wp (set_mapping t i None;; vmo_unref (m_vmo mp)) (fun _ s' => mo_inv k E C s' T /\ g_vmo_task_maps s' = delete (t, i) (g_vmo_task_maps s) /\
    tasks_same s s' /\ ram (mem s') = ram (mem s1) /\ (forall v y, vmos s' !! v = Some y -> exists x, vmos s !! v = Some x /\ vmo_same x y)) s1.
Proof using Hi Hmp.
  intros Hcr Hb Hu Hbl Hb0 Ht. pose proof (unmapped_inv r b u s1 Hcr Hb Hu Hbl Hb0 Ht) as Hi1. destruct (tk_env _ _ _ _ _ _ _ _ _ _ _ _ Ht) as [Ev Em Ets En Ec].
  unfold set_mapping. do 2 wp_step. change (partial_alter (fun _ => None) (t, i) (g_vmo_task_maps s1)) with (delete (t, i) (g_vmo_task_maps s1)).
  eapply wp_mono; [|apply (mo_unref_spec k E _ _ T (m_vmo mp) Hi1); unfold add_cap; rewrite decide_True by done; done].
  intros x s' [H1 H2]. split_and!; [|rewrite (qt_maps _ _ H2); cbn; congruence| |apply (qt_ram _ _ H2)|].
  - eapply caps_ext; [|exact H1]. intros w. unfold drop_cap, add_cap. by destruct (decide (w = m_vmo mp)).
  - intros t'. rewrite (qt_tasks _ _ H2). apply Ets.
  - intros w y Hy. rewrite <- Ev. by apply (qt_vmos _ _ H2).
Qed.
End unmap.

(** Unmapping: the mapping at [va] goes, with its translations. *)
Definition unmap_post (k : Z) (E : Z -> option Z) (C : Z -> nat) (s : mo) (T : gmap Z node) (t va len a : Z) (s' : mo) : Prop :=
  mo_inv k E C s' T /\
  ((a = CAP_V2_EINVAL /\ s' = s) \/
   exists i mp tk r, a = 0 /\ g_vmo_task_maps s !! (t, i) = Some mp /\ vaddr mp = va /\ len_pages mp * 4096 = len /\
     mtasks s !! t = Some tk /\ t_cr3 tk = r * PAGE_SIZE /\ g_vmo_task_maps s' = delete (t, i) (g_vmo_task_maps s) /\
     (forall r' a', is_root T r' -> pte (mem s') r' a' =
        if bool_decide (r' = r /\ va / PAGE_SIZE <= vpn a' < va / PAGE_SIZE + len_pages mp) then None else pte (mem s) r' a') /\
     (forall f, (cnt f (span (vmos s) mp) < held s f)%nat -> ram (mem s') !! f = ram (mem s) !! f) /\ tasks_same s s' /\
     (forall v y, vmos s' !! v = Some y -> exists x, vmos s !! v = Some x /\ vmo_same x y)).

Lemma vmo_unmap_spec k E C s T t va len : mo_inv k E C s T -> wp (vmo_unmap t va len) (unmap_post k E C s T t va len) s.
Proof.
  intros Hi. unfold vmo_unmap. assert (wp (mret CAP_V2_EINVAL) (unmap_post k E C s T t va len) s) as Hbad by (wp_step; split; [done|by left]).
  destruct (_ || _ || _); [done|]. do 2 wp_step. unfold vmo_find_map_slot.
  destruct (first_slot_spec s t (fun m => match m with None => false | Some m => vaddr m =? va end)) as [[-> _]|(Ht & Hslot & Hsome)]; [done|].
  set (i := first_slot s t _) in *. destruct (Z.ltb_spec i 0); [lia|]. destruct (g_vmo_task_maps s !! (t, i)) as [mp|] eqn:Hmp; [|done].
  apply Z.eqb_eq in Hsome. wp_step. exists s, mp. split; [unfold mapping_at; by rewrite Hmp|]. cbv beta.
  destruct (Z.eqb_spec (len_pages mp * 4096) len) as [Elen|]; cbn [negb]; [|done].
  destruct (map_cell s T t i mp (mi_shape _ _ _ _ _ Hi) Hmp) as (x & tk & r & b & Hx & Htk & Hr & HT & Hb & Hb0 & Hbl & Hv0 & Hlp & Hl & Hpl & Hmm & Hget).
  set (l := span (vmos s) mp) in *. wp_step. apply (wp_task_of t tk _ _ Htk). wp_step. apply (wp_deref _ x _ _ Hx). wp_step.
  pose (D := fun f => (cnt f l < held s f)%nat). pose proof (span_held s t i mp Hmp) as Hsh. rewrite <- Hl, Hb, Hr.
  eapply wp_mono; [|apply (each_spec _ (fun q => taken k E D (held s) s T r b l q q) (length l)); [apply taken_start, (mi_acct _ _ _ _ _ Hi)|]].
  - intros u s1 Ht1. apply wp_assoc. wp_step. eapply wp_mono; [|apply (unmap_end k E C s T t i mp Hi Hmp r b (length l) s1); try done; [|lia]].
    + intros u' s' (H1 & H2 & H3 & H4 & H5). wp_step. split; [done|]. right. exists i, mp, tk, r. rewrite <- Hsome, Hb, Z.div_mul by lia.
      split_and!; try done.
      * intros r' a' Hr'. rewrite (pte_ram (mem s1)) by done. rewrite (tk_ptes _ _ _ _ _ _ _ _ _ _ _ _ Ht1) by done. by rewrite Hl.
      * intros f Hf. rewrite H4. apply (gr_data _ _ _ _ _ (tk_grows _ _ _ _ _ _ _ _ _ _ _ _ Ht1)); [done|].
        apply (ac_frame _ _ _ _ _ (mi_acct _ _ _ _ _ Hi)). lia.
    + intros tk' Htk'. congruence.
  - intros q s1 Hq Ht1. destruct (lookup_lt_is_Some_2 l q Hq) as [p Hp]. pose proof (en_vmos _ _ (tk_env _ _ _ _ _ _ _ _ _ _ _ _ Ht1)) as Ev.
    wp_step. apply (wp_deref _ x); [by rewrite Ev|]. wp_step. apply (wp_page_at x _ p); [by apply Hget|].
    wp_step. eapply wp_mono; [|apply (taken_unmap k E D (held s) s T r b l HT ltac:(lia) ltac:(lia)); [intros; done|exact Ht1|done]].
    intros u s2 Ht2. destruct (Hpl p) as (f & -> & Hf); [by eapply list_elem_of_lookup_2|]. destruct (Z.eqb_spec (f * PAGE_SIZE) 0); [lia|].
    rewrite Hmm. cbn [negb andb]. wp_step. eapply wp_mono; [|by apply (taken_unref k E D (held s) s T r b l Hpl Hsh q (S q) s2)].
    intros u' s3 Ht3. apply wp_refund. intros s4 He Em. eapply taken_env; [exact Ht3|exact He|exact Em].
Qed.

(** ** The exit of a task *)

(** The mappings of the task [t] in the slots below [n] are gone; nothing else is. *)
Definition cleaned (s : mo) (t : Z) (n : nat) (s' : mo) : Prop := tasks_same s s' /\ ram (mem s') = ram (mem s) /\
  (forall t' i, g_vmo_task_maps s' !! (t', i) = if decide (t' = t /\ 0 <= i < Z.of_nat n) then None else g_vmo_task_maps s !! (t', i)) /\
  (forall v y, vmos s' !! v = Some y -> exists x, vmos s !! v = Some x /\ vmo_same x y).

Lemma cleanup_slot_spec k E C s T t i : mo_inv k E C s T ->
  wp (cleanup_slot t i) (fun _ s' => mo_inv k E C s' T /\ g_vmo_task_maps s' = delete (t, i) (g_vmo_task_maps s) /\ tasks_same s s' /\
    ram (mem s') = ram (mem s) /\ (forall v y, vmos s' !! v = Some y -> exists x, vmos s !! v = Some x /\ vmo_same x y)) s.
Proof.
  intros Hi. unfold cleanup_slot. do 2 wp_step. destruct (g_vmo_task_maps s !! (t, i)) as [mp|] eqn:Hmp; last first.
  { wp_step. split_and!; try done; [by rewrite delete_id|]. intros v y Hy. exists y. by split. }
  destruct (map_cell s T t i mp (mi_shape _ _ _ _ _ Hi) Hmp) as (x & tk & r & b & Hx & Htk & Hr & HT & Hb & Hb0 & Hbl & Hv0 & Hlp & Hl & Hpl & Hmm & Hget).
  set (l := span (vmos s) mp) in *. pose (D := fun f => (cnt f l < held s f)%nat). pose proof (span_held s t i mp Hmp) as Hsh.
  destruct (Z.eqb_spec (m_vmo mp) 0); [done|]. wp_step. rewrite <- Hl.
  eapply wp_mono; [|apply (each_spec _ (fun q s' => taken k E D (held s) s T r b l q 0 s' /\ ram (mem s') = ram (mem s)) (length l))].
  - intros u s1 [Ht1 Hram]. eapply wp_mono; [|apply (unmap_end k E C s T t i mp Hi Hmp r b 0 s1); try done; [|lia]].
    + intros u' s' (H1 & H2 & H3 & H4 & H5). split_and!; try done. congruence.
    + intros tk' Htk'. congruence.
  - split; [|done]. apply taken_start, (mi_acct _ _ _ _ _ Hi).
  - intros q s1 Hq [Ht1 Hram]. destruct (lookup_lt_is_Some_2 l q Hq) as [p Hp]. pose proof (en_vmos _ _ (tk_env _ _ _ _ _ _ _ _ _ _ _ _ Ht1)) as Ev.
    wp_step. apply (wp_deref _ x); [by rewrite Ev|]. wp_step. apply (wp_page_at x _ p); [by apply Hget|].
    destruct (Hpl p) as (f & -> & Hf); [by eapply list_elem_of_lookup_2|]. destruct (Z.eqb_spec (f * PAGE_SIZE) 0); [lia|].
    pose proof (taken_unref k E D (held s) s T r b l Hpl Hsh q 0 s1 _ Ht1 Hp) as Hwp. destruct Hwp as (s2 & u & Es & Ht2).
    exists s2, u. split; [done|]. split; [done|]. rewrite <- Hram. by injection Es as <- _.
Qed.

Lemma vmo_cleanup_task_spec k E C s T t : mo_inv k E C s T -> slot_bad t = false ->
  wp (vmo_cleanup_task t) (fun _ s' => mo_inv k E C s' T /\ cleaned s t 64 s') s.
Proof.
  intros Hi Ht. unfold vmo_cleanup_task. rewrite Ht.
  apply (each_spec _ (fun n s' => mo_inv k E C s' T /\ cleaned s t n s') 64).
  - split; [done|]. split_and!; try done; [intros t' i; by rewrite decide_False by lia|]. intros v y Hy. exists y. by split.
  - intros q s1 Hq [Hi1 (H1 & H2 & H3 & H4)]. eapply wp_mono; [|by apply (cleanup_slot_spec k E C s1 T)].
    intros u s2 (Hi2 & G1 & G2 & G3 & G4). split; [done|]. split_and!; [intros t'; by rewrite (G2 t')|congruence| |].
    + intros t' i. rewrite G1. destruct (decide ((t, Z.of_nat q) = (t', i))) as [[= <- <-]|Hne].
      * rewrite lookup_delete_eq, decide_True by lia. done.
      * rewrite lookup_delete_ne, H3 by done. destruct (decide (t' = t /\ 0 <= i < Z.of_nat q)).
        -- by rewrite decide_True by lia.
        -- rewrite decide_False; [done|]. intros [-> ?]. assert (i = Z.of_nat q) as -> by lia. done.
    + intros v y Hy. destruct (G4 v y Hy) as (y1 & Hy1 & Hs1). destruct (H4 v y1 Hy1) as (y2 & Hy2 & Hs2). exists y2. split; [done|].
      unfold vmo_same in *. destruct Hs1 as (-> & -> & -> & -> & ->). done.
Qed.
