(* ===== verification/VmoCreate.v ===== *)
(** * Creating and cloning memory objects

    A new object has frames of its own, zeroed when that is asked for; a clone shares the
    frames of its source.  Both keep the invariant, and when memory runs out every frame
    taken so far is given back.  A copy-on-write clone also takes the right to write from
    all mappings of the source. *)
From S2P Require Import Prelude Bytes Pmm StateM Vmm VmmInv VmmMap VmmSpace Rlimit Vmo VmoPages VmoInv VmoRefs VmoMapping VmoMap.
Local Open Scope Z_scope.
Local Open Scope c_scope.

(** Pages of [l] are frames that nobody used in [s]. *)
Definition new_pages (E : Z -> option Z) (s : mo) (l : list Z) : Prop := forall f, (0 < cnt f l)%nat -> cnt f l = 1%nat /\ held s f = 0%nat /\ E f = None.
Definition zeroed (m : vm) (l : list Z) : Prop := forall f, (0 < cnt f l)%nat -> ram m !! f = Some zero_page.

Section create.
  Context (k : Z) (E : Z -> option Z) (C : Z -> nat) (s : mo) (T : gmap Z node) (flags : Z).
  Hypothesis Hi : mo_inv k E C s T.
Let D f := (0 < held s f)%nat.

(** The pages [l] are taken for a new object. *)
Record filling (l : list Z) (m : vm) : Prop := {
  fi_acct : acct k E (fun f => (held s f + cnt f l)%nat) m T;
  fi_grows : grows D (mem s) m T T;
  fi_ptes : same_ptes (mem s) m T;
  fi_list : page_list l;
  fi_new : new_pages E s l;
  fi_zero : has_flag flags VMO_ZEROED = true -> zeroed m l }.

(** Everything is as it was, and no frame is free. *)
Record unfilled (m : vm) : Prop := {
  uf_acct : acct k E (held s) m T;
  uf_grows : grows D (mem s) m T T;
  uf_ptes : same_ptes (mem s) m T }.

Lemma filling_start : filling [] (mem s).
Proof using Hi.
  split; try done; [| | |].
  - eapply acct_ext; [|apply (mi_acct _ _ _ _ _ Hi)]. intros f. cbn. lia.
  - intros p Hp. by apply not_elem_of_nil in Hp.
  - intros f Hf. cbn in Hf. lia.
  - intros _ f Hf. cbn in Hf. lia.
Qed.

Lemma fill_page l m : filling l m ->
  wp (pa ← alloc_frame; if pa =? 0 then mret 0 else (if has_flag flags VMO_ZEROED then zero_frame pa else mret tt);; mret pa)
    (fun a m' => if a =? 0 then filling l m' /\ all_used E (fun f => (held s f + cnt f l)%nat) m T else filling (l ++ [a]) m') m.
Proof using Hi.
  intros [Ha Hg Hs Hl Hn Hz]. pose (D' := fun f => (0 < held s f + cnt f l)%nat).
  wp_step. eapply wp_mono; [|apply (acct_alloc k E D' _ _ T Ha)]. intros a m1 (Hs1 & Hg1 & Hram & Hcase).
  assert (grows D m m1 T T) as HgD by (destruct Hg1; split; try done; intros f _ Hf; by rewrite Hram).
  destruct (Z.eqb_spec a 0) as [->|Ha0].
  { wp_step. cbn. destruct Hcase as [Ha1 Hall]. split; [|done]. split; try done; [by eapply grows_trans| |].
    - by eapply same_ptes_trans.
    - intros Hf f Hc. rewrite Hram. by apply Hz. }
  destruct Hcase as (f & -> & HE & HH & HT & Ha1). set (l' := l ++ [f * PAGE_SIZE]).
  assert (forall g, cnt g (l') = (cnt g l + if decide (g = f) then 1 else 0)%nat) as Hc by (intros g; unfold l'; by rewrite cnt_app, cnt_one).
  assert (acct k E (fun g => (held s g + cnt g (l'))%nat) m1 T) as Ha2.
  { eapply acct_ext; [|exact Ha1]. intros g. rewrite Hc. cbv beta. destruct (decide (g = f)) as [->|]; lia. }
  destruct (ac_frame _ _ _ _ _ Ha2 f) as (Hf0 & _ & Hfr & _); [rewrite Hc, decide_True by done; lia|].
  assert (page_list (l')) as Hl2.
  { intros p [Hp|Hp%list_elem_of_singleton]%elem_of_app; [by apply Hl|]. subst p. by exists f. }
  assert (new_pages E s (l')) as Hn2.
  { intros g. rewrite Hc. destruct (decide (g = f)) as [->|]; [intros _; split_and!; [lia|lia|done]|]. intros Hg'. destruct (Hn g) as (? & ? & ?); [lia|].
    split_and!; [lia|done..]. }
  wp_step. destruct (has_flag flags VMO_ZEROED) eqn:Ez.
  - unfold zero_frame. eapply wp_mono; [|apply (acct_zero k E D' _ _ T Ha2 f); [done|lia|done|unfold D'; lia]].
    intros u m2 (Ha3 & Hs3 & Hg3 & Hz3). wp_step. destruct (Z.eqb_spec (f * PAGE_SIZE) 0); [lia|].
    assert (forall g, D' g -> ram m2 !! g = ram m1 !! g) as Hkeep.
    { intros g Hg'. apply (gr_data _ _ _ _ _ Hg3); [done|]. by apply (ac_frame _ _ _ _ _ Ha). }
    split; try done.
    + eapply grows_trans; [exact Hg|]. eapply grows_trans; [exact HgD|]. destruct Hg3. split; try done. intros g Hg' HTg. apply gr_data; [|done]. unfold D', D in *. lia.
    + eapply same_ptes_trans; [exact Hs|eapply same_ptes_trans; [exact Hs1|exact Hs3|done]|done].
    + intros _ g. rewrite Hc. destruct (decide (g = f)) as [->|]; [by rewrite Hz3, lookup_insert_eq|]. intros Hg'. rewrite Hkeep, Hram by (unfold D'; lia). apply Hz; [done|lia].
  - do 2 wp_step. destruct (Z.eqb_spec (f * PAGE_SIZE) 0); [lia|]. split; try done; [by eapply grows_trans|by eapply same_ptes_trans|congruence].
Qed.

(** One page of the loop; [none] runs when memory is full. *)
Lemma fill_step {B} l m (none : M mo B) (next : Z -> M mo B) Q : filling l m ->
  (forall m', filling l m' -> all_used E (fun f => (held s f + cnt f l)%nat) m T -> wp none Q (with_mem s m')) ->
  (forall a m', filling (l ++ [a]) m' -> wp (next a) Q (with_mem s m')) ->
  wp (pa ← on_mem alloc_frame; if pa =? 0 then none else (if has_flag flags VMO_ZEROED then on_mem (zero_frame pa) else mret tt);; next pa) Q (with_mem s m).
Proof using Hi.
  intros Hf Hnone Hnext. destruct (fill_page l m Hf) as (m' & a & Er & Hcase). apply bind_Some in Er as (m1 & pa & Ea & Er).
  wp_step. apply wp_on_mem. exists m1, pa. split; [done|]. destruct (Z.eqb_spec pa 0) as [->|Hp].
  - injection Er as <- <-. destruct Hcase as [Hc Hall]. by apply Hnone.
  - apply bind_Some in Er as (m2 & u & Ez & Er). injection Er as <- <-. destruct (Z.eqb_spec pa 0); [done|]. wp_step.
    destruct (has_flag flags VMO_ZEROED).
    + apply wp_on_mem. exists m2, u. split; [done|]. by apply (Hnext pa m2).
    + injection Ez as <- _. wp_step. by apply (Hnext pa m1).
Qed.

Definition alloc_post (n : Z) (o : option (list Z)) (s' : mo) : Prop := exists m, s' = with_mem s m /\
  match o with Some l => filling l m /\ Z.of_nat (length l) = n | None => unfilled m end.

Lemma alloc_eager_spec n : forall l m, filling l m -> wp (alloc_eager flags n l) (alloc_post (Z.of_nat (length l + n))) (with_mem s m).
Proof using Hi.
  induction n as [|n IH]; intros l m Hf; cbn [alloc_eager].
  { wp_step. exists m. split; [done|]. split; [done|lia]. }
  apply (fill_step l m); [done| |].
  - intros m' [Ha Hg Hs Hl Hn _] _. unfold unref_pages. wp_step. apply wp_on_mem. cbn [mem with_mem].
    eapply wp_mono; [|apply (acct_unrefs k E D T l _ _ Ha Hl); intros; lia]. intros u m2 (H1 & H2 & H3). wp_step. exists m2. split; [done|]. split.
    + eapply acct_ext; [|exact H1]. intros f. cbv beta. lia.
    + by eapply grows_trans.
    + eapply same_ptes_trans; [exact Hs| |done]. intros r va _. by apply pte_ram.
  - intros a m' Hf'. replace (length l + S n)%nat with (length (l ++ [a]) + n)%nat by (rewrite length_app; cbn; lia). by apply IH.
Qed.

(** A run of frames: the loop that zeroes them. *)
Lemma zero_run_spec f n H m : acct k E H m T -> (forall g, f <= g < f + Z.of_nat n -> (0 < H g)%nat /\ held s g = 0%nat) ->
  wp (for_each (run_pages f n) (fun p => if has_flag flags VMO_ZEROED then zero_frame p else mret tt)) (fun _ m' =>
    acct k E H m' T /\ grows D m m' T T /\ same_ptes m m' T /\
    (has_flag flags VMO_ZEROED = true -> forall g, f <= g < f + Z.of_nat n -> ram m' !! g = Some zero_page) /\
    (forall g, ~ (f <= g < f + Z.of_nat n) -> ram m' !! g = ram m !! g)) m.
Proof using Hi.
  revert f H m. induction n as [|n IH]; intros f H m Ha Hin; [apply wp_ret; split_and!; try done; intros; lia|].
  rewrite run_pages_S. cbn [for_each]. destruct (Hin f ltac:(lia)) as [Hf Hs0]. destruct (ac_frame _ _ _ _ _ Ha f Hf) as (H0 & HT & Hr & _).
  wp_step. destruct (has_flag flags VMO_ZEROED) eqn:Ez.
  - unfold zero_frame at 1. eapply wp_mono; [|apply (acct_zero k E (fun g => g <> f) H m T Ha f); [done|lia|done|tauto]].
    intros u m1 (Ha1 & Hs1 & Hg1 & Hz1). eapply wp_mono; [|apply (IH (f + 1) H m1 Ha1); intros g Hg; apply Hin; lia].
    intros u' m2 (Ha2 & Hg2 & Hs2 & Hz2 & Hk2). split; [done|]. split; [|split; [by eapply same_ptes_trans|split]].
    + eapply grows_trans; [|exact Hg2]. destruct Hg1. split; try done. intros g Hg HTg. apply gr_data; [|done]. intros ->. unfold D in Hg. lia.
    + intros _ g Hg. destruct (decide (g = f)) as [->|]; [by rewrite Hk2, Hz1, lookup_insert_eq by lia|]. apply Hz2; [done|lia].
    + intros g Hg. rewrite Hk2, Hz1, lookup_insert_ne by lia. done.
  - wp_step. eapply wp_mono; [|apply (IH (f + 1) H m Ha); intros g Hg; apply Hin; lia]. intros u' m2 (Ha2 & Hg2 & Hs2 & Hz2 & Hk2).
    split_and!; try done. intros g Hg. apply Hk2. lia.
Qed.

Lemma unfilled_start : unfilled (mem s).
Proof using Hi. split; [apply (mi_acct _ _ _ _ _ Hi)|apply grows_refl|done]. Qed.

Lemma alloc_contiguous_spec n : 0 < n -> wp (alloc_contiguous flags n) (fun o s' => alloc_post n o s' /\
  match o with Some l => exists f, l = run_pages f (length l) | None => True end) s.
Proof using Hi.
  intros Hn. assert (s = with_mem s (mem s)) as Es by (by destruct s). pose proof unfilled_start as Hun. unfold alloc_contiguous.
  assert (wp (mret None) (fun o s' => alloc_post n o s' /\ match o with Some l => exists f, l = run_pages f (length l) | None => True end) s) as Hnone.
  { wp_step. split; [|done]. by exists (mem s). }
  destruct (has_flag flags VMO_ONDEMAND); [done|]. destruct (n >? 64); [done|]. wp_step. apply wp_on_mem.
  eapply wp_mono; [|apply (acct_alloc_run k E D T n _ _ (mi_acct _ _ _ _ _ Hi) Hn)]. intros a m (Hram & Hg & Hcase). cbv beta.
  assert (same_ptes (mem s) m T) as Hs by (intros r va _; by apply pte_ram). destruct (Z.eqb_spec a 0) as [->|].
  { wp_step. split; [|done]. by exists m. }
  destruct Hcase as (f & -> & Hf & Hnew & Ha). assert (Z.of_nat (Z.to_nat n) = n) as Hzn by lia.
  assert (map (fun p => f * PAGE_SIZE + p * 4096) (seqZ 0 n) = run_pages f (Z.to_nat n)) as El by (unfold run_pages; by rewrite Hzn).
  rewrite El. wp_step. apply wp_on_mem. cbn [mem with_mem].
  assert (forall g, cnt g (run_pages f (Z.to_nat n)) = if decide (f <= g < f + n) then 1%nat else 0%nat) as Hc by (intros g; by rewrite cnt_run, Hzn).
  eapply wp_mono; [|apply (zero_run_spec f (Z.to_nat n) _ m Ha)].
  - intros u m2 (Ha2 & Hg2 & Hs2 & Hz2 & _). rewrite Hzn in Hz2. wp_step. split; [|exists f; by rewrite run_pages_length]. exists m2. split; [done|].
    split; [|by rewrite run_pages_length]. split; [done|by eapply grows_trans|by eapply same_ptes_trans| | |].
    + intros p (q & -> & Hq)%list_elem_of_fmap. rewrite elem_of_seqZ in Hq. exists (f + q). lia.
    + intros g. rewrite Hc. destruct (decide _) as [Hd|]; [|lia]. intros _. destruct (Hnew g Hd). done.
    + intros Hz g. rewrite Hc. destruct (decide _); [|lia]. intros _. by apply Hz2.
  - intros g Hg'. rewrite Hzn in Hg'. rewrite Hc, decide_True by done. destruct (Hnew g Hg'). split; [lia|done].
Qed.
End create.

(** The bookkeeping of a creation. *)
Definition booked (s : mo) (next id : Z) (l : list bool) : mo := {| s with next_vmo := next; g_next_vmo_id := id; kmem_answers := l |}.

Lemma booked_inv k E C s T next id l : mo_inv k E C s T -> next_vmo s <= next -> mo_inv k E C (booked s next id l) T.
Proof. intros Hi Hn. apply (mi_env k E C s T); try done; [apply (mi_acct _ _ _ _ _ Hi)|by apply (same_ptes_map k E C s T)]. Qed.

(** What creation and cloning may do: a new object, or nothing but bookkeeping. *)
Record same_objects (s s' : mo) (T : gmap Z node) : Prop := {
  so_maps : g_vmo_task_maps s' = g_vmo_task_maps s;
  so_tasks : mtasks s' = mtasks s;
  so_current : current_task s' = current_task s;
  so_grows : grows (fun f => (0 < held s f)%nat) (mem s) (mem s') T T;
  so_ptes : same_ptes (mem s) (mem s') T }.

Definition create_post (k : Z) (E : Z -> option Z) (C : Z -> nat) (s : mo) (T : gmap Z node) (size flags owner v : Z) (s' : mo) : Prop :=
  same_objects s s' T /\
  if v =? 0 then mo_inv k E C s' T /\ vmos s' = vmos s else
  exists l, v = next_vmo s /\ vmos s' = <[v := Vmo flags (g_next_vmo_id s) size (size / 4096) 1 l 0 owner 0]> (vmos s) /\ Z.of_nat (length l) = size / 4096 /\
    new_pages E s l /\ (has_flag flags VMO_ZEROED = true -> zeroed (mem s') l) /\ mo_inv k E (adopt C v 0) s' T.

Lemma kmem_grants_spec Q s : (forall b, Q b (booked s (next_vmo s) (g_next_vmo_id s) (tail (kmem_answers s)))) -> wp kmem_grants Q s.
Proof.
  intros HQ. unfold kmem_grants, wp. destruct (kmem_answers s) as [|b l] eqn:El.
  - exists s, false. split; [done|]. specialize (HQ false). unfold booked in HQ. cbn in HQ. rewrite <- El in HQ. by destruct s.
  - eexists _, b. split; [done|]. apply (HQ b).
Qed.

(** An allocation of the object cache: NULL, or the next address. *)
Lemma kmem_cache_alloc_spec Q s : (forall l, Q 0 (booked s (next_vmo s) (g_next_vmo_id s) l)) ->
  (forall l, Q (next_vmo s) (booked s (next_vmo s + 1) (g_next_vmo_id s) l)) -> wp kmem_cache_alloc Q s.
Proof. intros H1 H2. unfold kmem_cache_alloc. wp_step. apply kmem_grants_spec. intros []; cbn [negb]; [|by wp_step]. do 5 wp_step. apply H2. Qed.

Lemma next_vmo_id_spec Q s : Q (g_next_vmo_id s) (booked s (next_vmo s) (u64 (g_next_vmo_id s + 1)) (kmem_answers s)) -> wp next_vmo_id Q s.
Proof. intros HQ. unfold next_vmo_id. by do 5 wp_step. Qed.

Lemma booked_objects s T next id l : same_objects s (booked s next id l) T.
Proof. split; try done. Qed.

Lemma new_vmo_ok flags id size l owner par : 0 < size <= VMO_MAX_SIZE -> size &. 0xFFF = 0 -> Z.of_nat (length l) = size / 4096 -> page_list l -> in_u 32 flags ->
  has_flag flags VMO_MMIO = false -> (has_flag flags VMO_CONTIGUOUS = true -> exists f, l = run_pages f (length l)) ->
  vmo_ok (Vmo flags id size (size / 4096) 1 l par owner 0).
Proof.
  intros Hs Ha Hl Hp Hf Hm Hc. apply low_bits_page in Ha. split; try done. cbn [size_bytes npages]. zlia.
Qed.

Lemma vmo_create_spec k E C s T size flags owner : mo_inv k E C s T -> 0 <= size -> in_u 32 flags ->
  has_flag flags VMO_ONDEMAND = false -> has_flag flags VMO_MMIO = false ->
  wp (vmo_create size flags owner) (create_post k E C s T size flags owner) s.
Proof.
  intros Hi Hsize Hfl Hod Hmm. unfold vmo_create.
  assert (forall s', mo_inv k E C s' T -> same_objects s s' T -> vmos s' = vmos s -> wp (mret 0) (create_post k E C s T size flags owner) s') as Hnull.
  { intros s' H1 H2 H3. wp_step. by split. }
  assert (same_objects s s T) as Hsame by (by split).
  destruct (Z.eqb_spec size 0) as [|H0]; [by apply Hnull|]. destruct (Z.eqb_spec (size &. 0xFFF) 0) as [Hal|]; cbn [negb orb]; [|by apply Hnull].
  destruct (Z.gtb_spec size VMO_MAX_SIZE) as [|Hmax]; [by apply Hnull|]. cbv zeta. pose proof (mi_next _ _ _ _ _ Hi) as Hnext.
  wp_step. apply kmem_cache_alloc_spec; intros la; [cbn; apply Hnull; [apply booked_inv; [done|lia]|apply booked_objects|done]|].
  destruct (Z.eqb_spec (next_vmo s) 0) as [|Hv0]; [lia|]. wp_step. apply next_vmo_id_spec. wp_step. apply kmem_grants_spec. intros ok. cbn [next_vmo g_next_vmo_id kmem_answers booked].
  change (booked (booked (booked s ?a ?b ?c) ?d ?e ?f) ?g ?h ?i) with (booked s g h i).
  set (s1 := booked s (next_vmo s + 1) (u64 (g_next_vmo_id s + 1)) _). assert (mo_inv k E C s1 T) as Hi1 by (apply booked_inv; [done|lia]).
  destruct ok; cbn [negb]; [|apply Hnull; [done|apply booked_objects|done]]. set (n := size / 4096). assert (0 < n) as Hn by (apply low_bits_page in Hal; unfold n; zlia).
  rewrite Hod. wp_step. eapply (wp_mono _ (fun o s' => alloc_post k E s1 T flags n o s' /\ (has_flag flags VMO_CONTIGUOUS = true ->
    match o with Some l => exists f, l = run_pages f (length l) | None => True end))).
  - intros [l|] s' [(m & -> & Hpost) Hcont].
    + destruct Hpost as [[Ha Hg Hs Hl Hnew Hz] Hlen]. wp_step. apply wp_set_vmo. wp_step. split; [by split|].
      destruct (Z.eqb_spec (next_vmo s) 0); [done|]. exists l. split_and!; try done.
      assert (mo_inv k (fun f => plus (E f) (cnt f l)) C (with_mem s1 m) T) as Hi2.
      { apply (mi_env k E C s1 T); try done; [by apply acct_lend|apply Hg|by apply (same_ptes_map k E C s1 T)]. }
      apply (mi_insert k _ C (with_mem s1 m) T (next_vmo s) (Vmo flags (g_next_vmo_id s) size n 1 l 0 owner 0) Hi2); try done.
      * destruct (vmos (with_mem s1 m) !! next_vmo s) eqn:Ev; [|done]. apply (mi_addr _ _ _ _ _ Hi) in Ev. lia.
      * cbn. lia.
      * apply new_vmo_ok; try done. lia.
    + wp_step. destruct Hpost as [Ha Hg Hs]. split; [by split|]. cbn. split; [|done].
      apply (mi_env k E C s1 T); try done; [apply Hg|by apply (same_ptes_map k E C s1 T)].
  - destruct (has_flag flags VMO_CONTIGUOUS).
    + eapply wp_mono; [|by apply (alloc_contiguous_spec k E C s1 T flags Hi1)]. by intros o s' [? ?].
    + eapply wp_mono; [|exact (alloc_eager_spec k E C s1 T flags Hi1 (Z.to_nat n) [] (mem s1) (filling_start k E C s1 T flags Hi1))].
      intros o s' Hp. split; [|done]. cbn [length] in Hp. by replace (Z.of_nat (0 + Z.to_nat n)) with n in Hp by lia.
Qed.

(** ** Clones *)
Definition clone_post (k : Z) (E : Z -> option Z) (C : Z -> nat) (s : mo) (T : gmap Z node) (src : Z) (x : vmo) (g : Z -> Z) (owner v : Z) (s' : mo) : Prop :=
  same_objects s s' T /\ ram (mem s') = ram (mem s) /\
  if v =? 0 then mo_inv k E C s' T /\ vmos s' = vmos s else
  v = next_vmo s /\ vmos s' = <[src := recount x (refcount x + 1)]> (<[v := Vmo (g (v_flags x)) (g_next_vmo_id s) (size_bytes x) (npages x) 1 (pages x) src owner 0]> (vmos s)) /\
  mo_inv k E (fun u => if decide (u = v) then 1%nat else C u) s' T.

(** The two insertions of a clone, in a state whose frames have their references. *)
Lemma mi_clone k E C s T v src x y : mo_inv k (fun f => plus (E f) (cnt f (pages x))) C s T ->
  acct k E (fun f => (held s f + cnt f (pages x))%nat) (mem s) T -> vmos s !! src = Some x -> vmos s !! v = None -> src < v < next_vmo s ->
  refcount x < 2 ^ 32 - 1 -> vmo_ok y -> refcount y = 1 -> parent y = src -> pages y = pages x ->
  mo_inv k E (fun u => if decide (u = v) then 1%nat else C u) (with_vmo (with_vmo s v y) src (recount x (refcount x + 1))) T.
Proof.
  intros Hi Ha Hx Hv Hlt Hr Hok H1 Hp Hpg. destruct (mi_refs _ _ _ _ _ Hi src x Hx) as [Er Hre]. pose proof (mi_addr _ _ _ _ _ Hi src x Hx) as Hsrc.
  assert (refcount x + 1 = Z.of_nat (add_cap C src src + uses s src)) as E1 by (unfold add_cap; rewrite decide_True by done; lia).
  pose proof (mi_count _ _ _ (add_cap C src) s T src x Hi Hx ltac:(intros u Hu; unfold add_cap; by rewrite decide_False) ltac:(lia) ltac:(lia)) as Hi1.
  rewrite <- E1 in Hi1. set (s1 := with_vmo s src (recount x (refcount x + 1))) in *.
  replace (with_vmo (with_vmo s v y) src (recount x (refcount x + 1))) with (with_vmo s1 v y).
  2: { unfold s1, with_vmo. cbn. f_equal. apply insert_insert_ne. lia. }
  eapply caps_ext; [|apply (mi_insert k _ (add_cap C src) s1 T v y Hi1)]; try done.
  - intros u. unfold adopt, add_cap. rewrite Hp. destruct (decide (u = v)); [done|]. destruct (decide (u = src)) as [->|].
    + by rewrite decide_True by lia.
    + by rewrite decide_False by tauto.
  - cbn. rewrite lookup_insert_ne; [done|lia].
  - cbn. lia.
  - rewrite Hp. intros _. split; [lia|]. split; [cbn; by rewrite lookup_insert_eq|]. unfold add_cap. by rewrite decide_True.
  - eapply acct_ext; [|exact Ha]. intros f. rewrite Hpg. unfold s1. rewrite (held_same s); [done|intros; by apply recount_fields|done].
Qed.

Lemma clone_object_spec k E C s T src x g owner : mo_inv k E C s T -> vmos s !! src = Some x -> room E s x -> refcount x < 2 ^ 32 - 1 ->
  in_u 32 (g (v_flags x)) -> has_flag (g (v_flags x)) VMO_MMIO = false ->
  (has_flag (g (v_flags x)) VMO_CONTIGUOUS = true -> has_flag (v_flags x) VMO_CONTIGUOUS = true) ->
  wp (clone_object src g owner) (clone_post k E C s T src x g owner) s.
Proof.
  intros Hi Hx Hroom Hr Hg1 Hg2 Hg3. pose proof (mi_obj _ _ _ _ _ Hi src x Hx) as Hok. pose proof (vo_npages _ Hok) as Hnp.
  pose proof (mi_addr _ _ _ _ _ Hi src x Hx) as Hsrc. pose proof (mi_next _ _ _ _ _ Hi) as Hnext. unfold clone_object.
  assert (forall nx id l, next_vmo s <= nx -> wp (mret 0) (clone_post k E C s T src x g owner) (booked s nx id l)) as Hnull.
  { intros nx id l Hn. wp_step. split; [apply booked_objects|]. split; [done|]. split; [by apply booked_inv|done]. }
  wp_step. apply (wp_vmo_check src x); [lia|done|lia|]. cbn [negb]. wp_step. apply kmem_cache_alloc_spec; intros la; [apply Hnull; lia|].
  destruct (Z.eqb_spec (next_vmo s) 0) as [|Hv0]; [lia|]. wp_step. apply (wp_deref src x); [done|]. wp_step. apply next_vmo_id_spec. wp_step. apply kmem_grants_spec. intros ok.
  cbn [next_vmo g_next_vmo_id kmem_answers booked].
  change (booked (booked (booked s ?a ?b ?c) ?d ?e ?f) ?g ?h ?i) with (booked s g h i).
  destruct ok; cbn [negb]; [|apply Hnull; lia]. set (s1 := booked s _ _ _). assert (mo_inv k E C s1 T) as Hi1 by (apply booked_inv; [done|lia]).
  wp_step. apply wp_on_mem. eapply wp_mono; [|apply (acct_refs k E (fun f => (0 < held s f)%nat) T (pages x) _ _ (mi_acct _ _ _ _ _ Hi1) (vo_pages _ Hok))]; last first.
  { intros f Hf. split; [|by apply Hroom]. pose proof (msum_le (fun x => cnt f (pages x)) _ src x Hx) as Hle. unfold held. cbn. cbv beta in Hle. lia. }
  intros u m (Ha & Hram & Hg). assert (same_ptes (mem s) m T) as Hs by (intros r va _; by apply pte_ram). assert (next_vmo s <> src) as Hne by lia.
  wp_step. apply wp_set_vmo. wp_step. apply (wp_deref src x); [cbn; by rewrite lookup_insert_ne|]. wp_step. apply wp_set_vmo. wp_step.
  destruct (mi_refs _ _ _ _ _ Hi src x Hx) as [Er Hre]. rewrite (wrap_small 32) by (unfold in_u; lia).
  split; [by split|]. split; [done|]. destruct (Z.eqb_spec (next_vmo s) 0); [done|]. split; [done|]. split; [done|].
  apply (mi_clone k E C (with_mem s1 m) T (next_vmo s) src x); try done.
  - apply (mi_env k E C s1 T); try done; [by apply acct_lend|apply Hg|by apply (same_ptes_map k E C s1 T)].
  - destruct (vmos (with_mem s1 m) !! next_vmo s) eqn:Ev; [|done]. apply (mi_addr _ _ _ _ _ Hi) in Ev. lia.
  - cbn. lia.
  - destruct Hok. split; try done. intros Hc. by apply vo_contiguous, Hg3.
Qed.
