(* ===== verification/VmoCow.v ===== *)
(** * Copy-on-write clones

    vmo_clone_cow makes a clone and takes the right to write from every mapping of the
    source, page by page; no other translation changes. *)
From S2P Require Import Prelude Bytes Pmm StateM Vmm VmmInv VmmMap VmmSpace Rlimit Vmo VmoPages VmoInv VmoRefs VmoMapping VmoMap VmoCreate.
Local Open Scope Z_scope.
Local Open Scope c_scope.

(** ** Entries that lost the right to write *)
Definition ro_flags (prot : Z) : Z := prot_to_pte_flags prot &. (0xFFFFFFFFFFFFFFFF - PTE_WRITABLE).

(** The same page with the same rights, but writing. *)
Definition weak (e e' : Z) : Prop := e' &. VMO_PTE_PHYS_MASK = e &. VMO_PTE_PHYS_MASK /\ present e' = true /\ has_flag e' PTE_USER = true /\
  has_flag e' PTE_NX = has_flag e PTE_NX /\ has_flag e' PTE_WRITABLE = false.

Lemma weak_trans e1 e2 e3 : weak e1 e2 -> weak e2 e3 -> weak e1 e3.
Proof. intros (H1 & H2 & H3 & H4 & H5) (G1 & G2 & G3 & G4 & G5). unfold weak. split_and!; congruence. Qed.

Lemma weak_shows e e' p prot : weak e e' -> shows e p prot -> shows e' p prot.
Proof. intros (H1 & H2 & H3 & H4 & H5) (G1 & G2 & G3 & G4 & G5). unfold shows. split_and!; congruence. Qed.

Lemma ro_cases prot : ro_flags prot = if has_flag prot PROT_EXEC then 5 else 5 + 2 ^ 63.
Proof. unfold ro_flags, prot_to_pte_flags. by destruct (has_flag prot PROT_WRITE), (has_flag prot PROT_EXEC). Qed.

Lemma protected_weak e prot : weak e (protected e (ro_flags prot)).
Proof.
  unfold weak. rewrite protected_present, user_bit, writable_bit, !nx_bit, protected_nx. unfold protected. rewrite ro_cases.
  assert (forall a b, b &. VMO_PTE_PHYS_MASK = 0 -> (a |. b) &. VMO_PTE_PHYS_MASK = a &. VMO_PTE_PHYS_MASK) as Hm.
  { intros a b Hb. by rewrite Z.land_lor_distr_l, Hb, Z.lor_0_r. }
  split_and!; try done.
  - rewrite !Hm by (by destruct (has_flag prot PROT_EXEC)). rewrite <- Z.land_assoc. done.
  - rewrite !Z.lor_spec, !Z.land_spec. by destruct (has_flag prot PROT_EXEC); rewrite andb_false_r.
  - rewrite !Z.lor_spec, !Z.land_spec. by destruct (has_flag prot PROT_EXEC); rewrite andb_false_r.
Qed.

(** ** The loop over the mappings *)
Section downgrade.
  Context (k : Z) (E : Z -> option Z) (C : Z -> nat) (s : mo) (T : gmap Z node) (src : Z).
  Hypothesis Hi : mo_inv k E C s T.
Let D f := (0 < held s f)%nat.

(** The page of [va] in the space [r] is one of a mapping of [src]. *)
Definition covers (r va : Z) : Prop := exists t i mp tk (q : nat), g_vmo_task_maps s !! (t, i) = Some mp /\ m_vmo mp = src /\
  mtasks s !! t = Some tk /\ t_cr3 tk = r * PAGE_SIZE /\ Z.of_nat q < len_pages mp /\ vpn va = vpn (vaddr mp + Z.of_nat q * PAGE_SIZE).

Definition lowered (m m' : vm) : Prop := forall r va, is_root T r ->
  pte m' r va = pte m r va \/ (covers r va /\ exists e e', pte m r va = Some e /\ pte m' r va = Some e' /\ weak e e').

Definition read_only (m : vm) (r va : Z) : Prop := forall e, pte m r va = Some e -> has_flag e PTE_WRITABLE = false.

Lemma lowered_trans m1 m2 m3 : lowered m1 m2 -> lowered m2 m3 -> lowered m1 m3.
Proof using.
  intros H1 H2 r va Hr. destruct (H1 r va Hr) as [E1|(Hc & e & e' & E1 & E2 & Hw)], (H2 r va Hr) as [E3|(Hc' & f & f' & E3 & E4 & Hw')].
  - left. congruence.
  - right. split; [done|]. exists f, f'. split; [congruence|]. done.
  - right. split; [done|]. exists e, e'. split; [done|]. split; [congruence|done].
  - right. split; [done|]. exists e, f'. split; [done|]. split; [done|]. assert (f = e') as -> by congruence. by eapply weak_trans.
Qed.

Lemma lowered_read_only m m' r va : lowered m m' -> is_root T r -> read_only m r va -> read_only m' r va.
Proof using.
  intros Hl Hr Hro e He. destruct (Hl r va Hr) as [E1|(_ & f & f' & E1 & E2 & Hw)]; [apply Hro; congruence|].
  assert (f' = e) as -> by congruence. apply Hw.
Qed.

(** A state of the loop. *)
Record low (m : vm) : Prop := {
  lo_acct : acct k E (held s) m T;
  lo_grows : grows D (mem s) m T T;
  lo_ptes : lowered (mem s) m }.

Lemma low_start : low (mem s).
Proof using Hi. split; [apply (mi_acct _ _ _ _ _ Hi)|apply grows_refl|]. intros r va _. by left. Qed.

(** From [m] on, with the pages that [P] says made read-only. *)
Definition lows (m : vm) (P : Z -> Z -> Prop) (s' : mo) : Prop := exists m', s' = with_mem s m' /\ low m' /\ lowered m m' /\
  forall r va, is_root T r -> P r va -> read_only m' r va.

Lemma protect_step m t i mp tk r (q : nat) : low m -> g_vmo_task_maps s !! (t, i) = Some mp -> m_vmo mp = src -> mtasks s !! t = Some tk ->
  t_cr3 tk = r * PAGE_SIZE -> Z.of_nat q < len_pages mp ->
  wp (on_mem (vmm_protect_page_by_cr3 (r * PAGE_SIZE) (u64 (vaddr mp + Z.of_nat q * 4096)) (ro_flags (m_prot mp))))
    (fun _ => lows m (fun r' va => r' = r /\ va = vaddr mp + Z.of_nat q * PAGE_SIZE)) (with_mem s m).
Proof using Hi.
  intros [Ha Hg Hl] Hmp Hv Htk Hcr Hq. destruct (map_cell s T t i mp (mi_shape _ _ _ _ _ Hi) Hmp) as (x & tk' & r' & b & Hx & Htk' & Hr & HT & Hb & Hb0 & Hbl & _).
  assert (tk' = tk) as -> by congruence. assert (r' = r) as -> by lia. rewrite Hb, range_va by lia.
  assert (pml4_index ((b + Z.of_nat q) * PAGE_SIZE) < 256) as Hidx by (apply user_page_index; lia).
  apply wp_on_mem. cbn [mem with_mem]. eapply wp_mono; [|apply (acct_protect k E D _ _ T Ha r); [done|by right|done]].
  intros ok m' (Ha' & Hg' & Hm'). exists m'. split; [done|].
  assert (lowered m m') as Hlow.
  { intros r1 va Hr1. pose proof (Hm' r1 va Hr1 ltac:(tauto)) as Hpt. case_bool_decide as Eb; [|by left]. destruct Eb as [-> Ev].
    rewrite <- (pte_vpn m r va _ Ev) in Hpt. rewrite Hpt. destruct (pte m r va) as [e|] eqn:Ee; [|by left]. right. split; [|exists e, (protected e (ro_flags (m_prot mp))); split; [done|split; [done|apply protected_weak]]].
    exists t, i, mp, tk, q. rewrite Hb. split_and!; try done. rewrite Ev. f_equal. lia. }
  split; [split; [done|by eapply grows_trans|by eapply lowered_trans]|]. split; [done|]. intros r1 va Hr1 [-> ->] e. rewrite Hm' by tauto.
  replace (b * PAGE_SIZE + Z.of_nat q * PAGE_SIZE) with ((b + Z.of_nat q) * PAGE_SIZE) by lia. rewrite bool_decide_eq_true_2 by done.
  destruct (pte m r _) as [e0|]; [|done]. intros [= <-]. apply protected_weak.
Qed.

(** A loop whose step [q] makes the pages [P q] read-only. *)
Lemma lows_each (f : Z -> M mo unit) (P : nat -> Z -> Z -> Prop) (n : nat) m : low m ->
  (forall q m', (q < n)%nat -> low m' -> wp (f (Z.of_nat q)) (fun _ => lows m' (P q)) (with_mem s m')) ->
  wp (each (seqZ 0 (Z.of_nat n)) f) (fun _ => lows m (fun r va => exists q, (q < n)%nat /\ P q r va)) (with_mem s m).
Proof using.
  intros Hl Hf. apply (each_spec f (fun j => lows m (fun r va => exists q, (q < j)%nat /\ P q r va))).
  - exists m. split; [done|]. split; [done|]. split; [intros r va _; by left|]. intros r va _ (q & Hq & _). lia.
  - intros j s' Hj (m' & -> & Hl' & Hlow & Hro). eapply wp_mono; [|by apply Hf]. intros u s2 (m2 & -> & Hl2 & Hlow2 & Hro2). exists m2.
    split; [done|]. split; [done|]. split; [by eapply lowered_trans|]. intros r va Hr (q & Hq & HP). destruct (decide (q = j)) as [->|]; [by apply Hro2|].
    eapply lowered_read_only; [done..|]. apply Hro; [done|]. exists q. split; [lia|done].
Qed.

Lemma lows_none m P : low m -> (forall r va, ~ P r va) -> lows m P (with_mem s m).
Proof using. intros Hl HP. exists m. split_and!; try done; [intros r va _; by left|]. intros r va _ H. by destruct (HP r va). Qed.

Lemma lows_mono m (P Q : Z -> Z -> Prop) s' : (forall r va, Q r va -> P r va) -> lows m P s' -> lows m Q s'.
Proof using. intros HPQ (m' & H1 & H2 & H3 & H4). exists m'. split_and!; try done. intros r va Hr HQ. apply H4; auto. Qed.

(** The pages of the mappings of [src] in the slot [i] of the task [t]. *)
Definition slot_pages (t i r va : Z) : Prop := exists mp tk (q : nat), g_vmo_task_maps s !! (t, i) = Some mp /\ m_vmo mp = src /\
  mtasks s !! t = Some tk /\ t_cr3 tk = r * PAGE_SIZE /\ Z.of_nat q < len_pages mp /\ va = vaddr mp + Z.of_nat q * PAGE_SIZE.

Lemma downgrade_task_spec t m : low m -> wp (downgrade_task src t) (fun _ => lows m (fun r va => exists i : nat, (i < 64)%nat /\ slot_pages t (Z.of_nat i) r va)) (with_mem s m).
Proof using Hi.
  intros Hl. apply (lows_each _ (fun i => slot_pages t (Z.of_nat i)) 64); [done|]. intros i m1 Hi64 Hl1. do 2 wp_step. cbn [g_vmo_task_maps with_mem].
  destruct (g_vmo_task_maps s !! (t, Z.of_nat i)) as [mp|] eqn:Hmp.
  2: { wp_step. apply lows_none; [done|]. intros r va (mp & _ & _ & E1 & _). congruence. }
  destruct (Z.eqb_spec (m_vmo mp) src) as [Hv|Hv]; cbn [negb].
  2: { wp_step. apply lows_none; [done|]. intros r va (mp' & _ & _ & E1 & E2 & _). congruence. }
  do 2 wp_step. cbn [mtasks with_mem].
  destruct (map_cell s T t (Z.of_nat i) mp (mi_shape _ _ _ _ _ Hi) Hmp) as (x & tk & r & b & Hx & Htk & Hr & HT & Hb & Hb0 & Hbl & _ & Hlp & Hlen & _).
  rewrite Htk, Hr. destruct (ac_inv _ _ _ _ _ (mi_acct _ _ _ _ _ Hi)) as (mm & Hinv & _). pose proof (node_frame _ _ _ _ Hinv _ _ _ HT).
  destruct (Z.eqb_spec (r * PAGE_SIZE) 0); [lia|]. fold (ro_flags (m_prot mp)). cbv zeta. rewrite <- Hlen.
  eapply wp_mono; [|apply (lows_each _ (fun q r' va => r' = r /\ va = vaddr mp + Z.of_nat q * PAGE_SIZE) (length (span (vmos s) mp)) m1 Hl1)].
  - intros u s'. apply lows_mono. intros r' va (mp' & tk' & q & E1 & E2 & E3 & E4 & E5 & ->). assert (mp' = mp) as -> by congruence.
    assert (tk' = tk) as -> by congruence. exists q. split; [lia|]. split; [lia|done].
  - intros q m2 Hq Hl2. wp_step. eapply wp_mono; [|apply (protect_step m2 t (Z.of_nat i) mp tk r q); try done; lia]. intros ok s' Hs'. by wp_step.
Qed.

(** All tasks: no page of a mapping of [src] is writable. *)
Definition downgraded (s' : mo) : Prop := exists m, s' = with_mem s m /\ mo_inv k E C s' T /\ grows D (mem s) m T T /\ lowered (mem s) m /\
  forall r va, covers r va -> read_only m r va.

Lemma downgrade_spec : wp (each (seqZ 0 VMO_MAX_TASKS) (downgrade_task src)) (fun _ => downgraded) s.
Proof using Hi.
  assert (with_mem s (mem s) = s) as Es by (by destruct s). rewrite <- Es at 1.
  eapply wp_mono; [|apply (lows_each _ (fun t r va => exists i : nat, (i < 64)%nat /\ slot_pages (Z.of_nat t) (Z.of_nat i) r va) 256 (mem s) low_start)].
  2: { intros t m' _ Hl'. by apply downgrade_task_spec. }
  intros u s' (m & -> & [Ha Hg Hl] & _ & Hro). exists m. split; [done|]. split; [|split; [done|split; [done|]]].
  - apply (mi_env k E C s T); try done; [apply Hg|]. intros t i mp Hmp tk r q e p Htk Hr Hq He Hsh. cbn [mem with_mem].
    destruct (mi_tasks _ _ _ _ _ Hi t tk Htk) as (r' & Hr' & HT & _). assert (r' = r) as -> by lia.
    destruct (Hl r (vaddr mp + Z.of_nat q * PAGE_SIZE) HT) as [E1|(_ & e1 & e2 & E1 & E2 & Hw)]; [exists e; by rewrite E1|].
    exists e2. split; [done|]. assert (e1 = e) as -> by congruence. by eapply weak_shows.
  - intros r va (t & i & mp & tk & q & Hmp & Hv & Htk & Hr & Hq & Ev). destruct (mi_tasks _ _ _ _ _ Hi t tk Htk) as (r' & Hr' & HT & _). assert (r' = r) as -> by lia.
    destruct (mk_slot _ _ _ _ (mi_map _ _ _ _ _ Hi t i mp Hmp)) as [Ht Hi64]. intros e He. rewrite (pte_vpn m r va _ Ev) in He.
    eapply (Hro r _ HT); [|exact He]. exists (Z.to_nat t). split; [lia|]. exists (Z.to_nat i). split; [lia|]. rewrite !Z2Nat.id by lia. by exists mp, tk, q.
Qed.
End downgrade.

(** ** The two kinds of clone *)
Definition shared_flags (f : Z) : Z := f &. (0xFFFFFFFF - (VMO_ZEROED |. VMO_COW_CHILD)).
Definition cow_flags (f : Z) : Z := (f |. VMO_COW_CHILD) &. (0xFFFFFFFF - VMO_ZEROED).

Lemma flag_and f c i : 0 <= i -> has_flag (f &. c) (2 ^ i) = has_flag f (2 ^ i) && Z.testbit c i.
Proof. intros Hi. by rewrite !has_flag_pow2, Z.land_spec by lia. Qed.
Lemma flag_or f c i : 0 <= i -> has_flag (f |. c) (2 ^ i) = has_flag f (2 ^ i) || Z.testbit c i.
Proof. intros Hi. by rewrite !has_flag_pow2, Z.lor_spec by lia. Qed.

Lemma shared_flags_ok f : in_u 32 f -> in_u 32 (shared_flags f) /\ has_flag (shared_flags f) VMO_MMIO = has_flag f VMO_MMIO /\
  has_flag (shared_flags f) VMO_CONTIGUOUS = has_flag f VMO_CONTIGUOUS /\ has_flag (shared_flags f) VMO_COW_CHILD = false.
Proof.
  intros Hf. unfold shared_flags. split; [apply in_u_land_l; [lia|done]|]. split; [|split].
  - rewrite (flag_and f _ 4) by lia. apply andb_true_r.
  - rewrite (flag_and f _ 5) by lia. apply andb_true_r.
  - rewrite (flag_and f _ 3) by lia. apply andb_false_r.
Qed.

Lemma cow_flags_ok f : in_u 32 f -> in_u 32 (cow_flags f) /\ has_flag (cow_flags f) VMO_MMIO = has_flag f VMO_MMIO /\
  has_flag (cow_flags f) VMO_CONTIGUOUS = has_flag f VMO_CONTIGUOUS /\ has_flag (cow_flags f) VMO_COW_CHILD = true.
Proof.
  intros Hf. unfold cow_flags. split; [apply in_u_land_l; [lia|]; apply in_u_lor; [lia|done|unfold in_u; lia]|]. split; [|split].
  - rewrite (flag_and _ _ 4), (flag_or _ _ 4) by lia. rewrite andb_true_r. apply orb_false_r.
  - rewrite (flag_and _ _ 5), (flag_or _ _ 5) by lia. rewrite andb_true_r. apply orb_false_r.
  - rewrite (flag_and _ _ 3), (flag_or _ _ 3) by lia. rewrite andb_true_r. apply orb_true_r.
Qed.

Lemma vmo_clone_shared_spec k E C s T src x owner : mo_inv k E C s T -> vmos s !! src = Some x -> room E s x -> refcount x < 2 ^ 32 - 1 ->
  wp (vmo_clone_shared src owner) (clone_post k E C s T src x shared_flags owner) s.
Proof.
  intros Hi Hx Hroom Hr. pose proof (mi_obj _ _ _ _ _ Hi src x Hx) as Hok. destruct (shared_flags_ok _ (vo_flags _ Hok)) as (H1 & H2 & H3 & _).
  apply (clone_object_spec k E C s T src x shared_flags owner); try done; [rewrite H2; apply (vo_mmio _ Hok)|by rewrite H3].
Qed.

(** A copy-on-write clone: a clone, and then no writable mapping of the source. *)
Definition cow_post (k : Z) (E : Z -> option Z) (C : Z -> nat) (s : mo) (T : gmap Z node) (src : Z) (x : vmo) (owner v : Z) (s' : mo) : Prop :=
  if v =? 0 then clone_post k E C s T src x cow_flags owner v s' else
  exists s1, clone_post k E C s T src x cow_flags owner v s1 /\ downgraded k E (fun u => if decide (u = v) then 1%nat else C u) s1 T src s'.

Lemma vmo_clone_cow_spec k E C s T src x owner : mo_inv k E C s T -> vmos s !! src = Some x -> room E s x -> refcount x < 2 ^ 32 - 1 ->
  wp (vmo_clone_cow src owner) (cow_post k E C s T src x owner) s.
Proof.
  intros Hi Hx Hroom Hr. pose proof (mi_obj _ _ _ _ _ Hi src x Hx) as Hok. destruct (cow_flags_ok _ (vo_flags _ Hok)) as (H1 & H2 & H3 & _).
  unfold vmo_clone_cow. wp_step. eapply wp_mono; [|apply (clone_object_spec k E C s T src x cow_flags owner); try done; [rewrite H2; apply (vo_mmio _ Hok)|by rewrite H3]].
  intros v s1 Hp. pose proof Hp as (_ & _ & Hv). destruct (Z.eqb_spec v 0) as [->|Hv0]; [by wp_step|]. destruct Hv as (_ & _ & Hi1).
  wp_step. eapply wp_mono; [|by apply (downgrade_spec k E _ s1 T src Hi1)]. intros u s' Hd. wp_step. unfold cow_post.
  destruct (Z.eqb_spec v 0); [done|]. by exists s1.
Qed.
