(* ===== verification/VmoFault.v ===== *)
(** * Write faults in copy-on-write mappings

    A write to a page of a copy-on-write clone gives the clone a frame of its own with the
    same bytes and maps it writable in the task that faulted.  No other translation, object
    or byte changes.  The references of the two frames come out wrong: the account after
    the fault is given here, [VmoProps] draws the conclusions. *)
From S2P Require Import Prelude Bytes Pmm StateM Vmm VmmInv VmmMap VmmSpace Rlimit Vmo VmoPages VmoInv VmoRefs VmoMapping VmoMap VmoCreate VmoCow.
Local Open Scope Z_scope.
Local Open Scope c_scope.

Lemma copy_frame_spec k E D H s T f' f pg : acct k E H s T -> T !! f' = None -> is_Some (ram s !! f') -> ram s !! f = Some pg -> ~ D f' ->
  wp (copy_frame (f' * PAGE_SIZE) (f * PAGE_SIZE)) (fun _ s' => acct k E H s' T /\ same_ptes s s' T /\ grows D s s' T T /\ ram s' = <[f' := pg]> (ram s)) s.
Proof.
  intros Ha HT [pg' Hpg'] Hpg HD. destruct (ac_inv _ _ _ _ _ Ha) as (m & Hinv & _). pose proof (vi_frame _ _ _ _ Hinv) as Hmem.
  destruct (Hmem _ _ Hpg) as (Hf & Hok & Hwf). destruct (Hmem _ _ Hpg') as (Hf' & Hl' & _).
  exists (set_frame s f' pg), tt. split.
  - unfold copy_frame. fold (ptr s f) (ptr s f'). rewrite phys_ptr by lia. rewrite Z.div_mul, Z_mod_mult, Hpg by lia. cbn [mbind option_bind Z.eqb].
    replace (ptr s f') with (u64 (ptr s f' + 0)) by (unfold ptr; by rewrite Z.add_0_r, wrap_wrap).
    rewrite (store_bytes_raw s Hmem f' pg') by (rewrite ?Hok; done || lia). do 2 f_equal.
    unfold splice. cbn [Z.to_nat take]. rewrite Hok, <- Hl', Nat.add_0_l, skipn_all, app_nil_r. done.
  - destruct (acct_write k E D H s T Ha f' pg HT ltac:(by exists pg') ltac:(by split) HD) as (H1 & H2 & H3). done.
Qed.

Lemma acct_remap k E D H s T r virt phys flags pt : acct k E H s T -> T !! pt = Some (r, table_path virt) -> own s r virt -> in_u 64 (phys |. flags) ->
  (forall f, D f -> (0 < H f)%nat) ->
  wp (vmm_map_page_by_cr3 (r * PAGE_SIZE) virt phys flags) (fun _ s' => acct k E H s' T /\ grows D s s' T T /\ maps s s' T r virt (kept (phys |. flags))) s.
Proof.
  intros Ha Hpt Hown Hv HD. destruct (ac_inv _ _ _ _ _ Ha) as (m & Hinv & Hm).
  eapply wp_mono; [|by apply (map_existing k s m T r virt phys flags pt Hinv)]. intros ok s' (_ & Hinv' & He & Hmap).
  by destruct (acct_leaf k E D H s T Ha m s' Hm HD Hinv' He).
Qed.

(** The frames have the references [H]: at least one for every frame of an object, which is
    all that a fault needs. *)
Definition referenced (k : Z) (E : Z -> option Z) (H : Z -> nat) (s : mo) (T : gmap Z node) : Prop :=
  acct k E H (mem s) T /\ forall g, (0 < held s g)%nat -> (0 < H g)%nat.

Lemma referenced_held k E C s T : mo_inv k E C s T -> referenced k E (held s) s T.
Proof. intros Hi. split; [apply Hi|done]. Qed.

Section fault.
  Context (k : Z) (E : Z -> option Z) (H : Z -> nat) (s : mo) (T : gmap Z node) (t i : Z) (mp : vmo_mapping) (x : vmo) (tk : mtask) (r b f : Z) (q : nat).
  Hypothesis Hacct : referenced k E H s T.
  Hypothesis Hi : mo_shape s T.
  Hypothesis Hmp : g_vmo_task_maps s !! (t, i) = Some mp.
  Hypothesis Hx : vmos s !! m_vmo mp = Some x.
  Hypothesis Htk : mtasks s !! t = Some tk.
  Hypothesis Hcr : t_cr3 tk = r * PAGE_SIZE.
  Hypothesis Hb : vaddr mp = b * PAGE_SIZE.
  Hypothesis Hq : span (vmos s) mp !! q = Some (f * PAGE_SIZE).
Let va := (b + Z.of_nat q) * PAGE_SIZE.
Let idx := m_offset mp / 4096 + Z.of_nat q.
Let D g := (0 < H g)%nat.

(** The state after the fault, with the new frame [f']. *)
Record copied (f' : Z) (s' : mo) : Prop := {
  co_new : E f' = None /\ H f' = 0%nat /\ T !! f' = None /\ 0 < f' < 2 ^ 35;
  co_vmos : vmos s' = <[m_vmo mp := {| x with pages := upd (pages x) idx (f' * PAGE_SIZE) |}]> (vmos s);
  co_maps : g_vmo_task_maps s' = g_vmo_task_maps s;
  co_tasks : tasks_same s s';
  co_current : current_task s' = current_task s;
  co_acct : acct k E (fun g => if decide (g = f') then 1%nat else if decide (g = f) then pred (H g) else H g) (mem s') T;
  co_bytes : ram (mem s') !! f' = ram (mem s) !! f /\
    forall g, (0 < if decide (g = f) then pred (H g) else H g)%nat -> ram (mem s') !! g = ram (mem s) !! g;
  co_ptes : forall r' a, is_root T r' -> pte (mem s') r' a =
    if bool_decide (r' = r /\ vpn a = vpn va) then Some (f' * PAGE_SIZE |. prot_to_pte_flags (m_prot mp)) else pte (mem s) r' a }.

(** Without a free frame nothing changes. *)
Record not_copied (s' : mo) : Prop := {
  nc_env : env s s';
  nc_acct : acct k E H (mem s') T;
  nc_ram : ram (mem s') = ram (mem s);
  nc_ptes : same_ptes (mem s) (mem s') T;
  nc_full : all_used E H (mem s) T }.

Lemma fault_cell : 0 < b /\ b + Z.of_nat q < 2 ^ 35 /\ is_root T r /\ (0 < H f)%nat /\ 0 < f < 2 ^ 35 /\ get (pages x) idx = Some (f * PAGE_SIZE) /\
  exists e pt, pte (mem s) r va = Some e /\ T !! pt = Some (r, table_path va) /\ pml4_index va < 256.
Proof using All.
  destruct (map_cell s T t i mp Hi Hmp) as (x' & tk' & r' & b' & Hx' & Htk' & Hr' & HT & Hb' & Hb0 & Hbl & _ & _ & Hl & Hpl & _ & Hget).
  assert (x' = x) as -> by congruence. assert (tk' = tk) as -> by congruence. assert (r' = r) as -> by lia. assert (b' = b) as -> by lia.
  pose proof (lookup_lt_Some _ _ _ Hq) as Hlt. assert (pml4_index va < 256) as Hidx by (apply user_page_index; lia).
  destruct Hacct as [Ha Hlive]. assert (0 < H f)%nat as Hheld by (apply Hlive; pose proof (held_two s _ mp q f _ Hmp Hq eq_refl); lia).
  split; [done|]. split; [lia|]. split; [done|]. split; [done|]. split; [by apply (acct_bound k E H (mem s) T)|]. split; [by apply Hget|].
  destruct (mk_ptes _ _ _ _ (ms_map _ _ Hi t i mp Hmp) tk r q _ Htk Hcr Hq) as (e & He & _). rewrite Hb in He.
  replace (b * PAGE_SIZE + Z.of_nat q * PAGE_SIZE) with va in He by (unfold va; lia). exists e.
  unfold pte in He. destruct (node_at (mem s) r (table_path va)) as [pt|] eqn:En; [|done]. exists pt. unfold pte. rewrite En. split; [done|]. split; [|done].
  destruct (ac_inv _ _ _ _ _ (proj1 Hacct)) as (m & Hinv & _). pose proof (pte_table _ _ _ _ Hinv _ _ _ HT En) as Hpt.
  rewrite own_home in Hpt; [done|]. by right.
Qed.

Lemma cow_page_spec : wp (cow_page t (m_vmo mp) va idx (f * PAGE_SIZE) (prot_to_pte_flags (m_prot mp)))
  (fun ok s' => if (ok : bool) then exists f', copied f' s' else not_copied s') s.
Proof using All.
  destruct fault_cell as (Hb0 & Hbq & HT & Hheld & Hf & Hget & e & pt & He & Hpt & Hidx). unfold cow_page.
  wp_step. apply wp_on_mem. eapply wp_mono; [|apply (acct_alloc k E D _ _ T (proj1 Hacct))]. intros a m1 (Hs1 & Hg1 & Hram1 & Hcase). cbv beta.
  destruct (Z.eqb_spec a 0) as [->|Ha0].
  { wp_step. destruct Hcase as [Ha1 Hall]. split; [apply env_mem|done|done|done|done]. }
  destruct Hcase as (f' & -> & HE & HH & HT' & Ha1). destruct (ac_frame _ _ _ _ _ (proj1 Hacct) f ltac:(lia)) as (_ & _ & [pg Hpg] & _).
  destruct (ac_frame _ _ _ _ _ Ha1 f') as (Hf0 & _ & Hfr & _); [rewrite decide_True by done; lia|]. assert (f' <> f) as Hne by (intros ->; lia).
  assert (0 < f' < 2 ^ 35) as Hf'. { destruct Hfr as [pg' Hpg']. destruct (ac_inv _ _ _ _ _ Ha1) as (mm & Hinv & _). apply (vi_frame _ _ _ _ Hinv) in Hpg'. lia. }
  wp_step. apply wp_on_mem. cbn [mem with_mem]. eapply wp_mono; [|apply (copy_frame_spec k E D _ m1 T f' f pg Ha1 HT' Hfr); [by rewrite Hram1|unfold D; lia]].
  intros u m2 (Ha2 & Hs2 & Hg2 & Hram2). wp_step. apply (wp_task_of t tk); [done|]. rewrite Hcr. wp_step. apply wp_on_mem. cbn [mem with_mem].
  pose (D1 := fun g => (0 < H g)%nat \/ g = f').
  eapply wp_mono; [|apply (acct_unmap k E D1 _ _ T Ha2 r va HT); [by right|]].
  2: { intros g [Hg| ->]; [destruct (decide (g = f')); lia|rewrite decide_True by done; lia]. }
  intros u2 m3 (Ha3 & Hg3 & Hm3). wp_step. apply wp_on_pmm. cbn [mem with_mem].
  set (m4 := set_pmm m3 (pmm_page_unref (phys_pages m3) (f * PAGE_SIZE))).
  set (H4 := fun g => if decide (g = f') then 1%nat else if decide (g = f) then pred (H g) else H g).
  assert (acct k E H4 m4 T) as Ha4'.
  { eapply acct_ext; [|apply (acct_unref k E _ m3 T Ha3 f); rewrite decide_False by done; lia]. intros g. unfold H4. destruct (decide (g = f')) as [->|]; [by rewrite decide_False|]. done. }
  pose (D2 := fun g => (0 < H4 g)%nat). assert (in_u 64 (f' * PAGE_SIZE |. prot_to_pte_flags (m_prot mp))) as Hu.
  { apply in_u_lor; [lia|unfold in_u; lia|]. unfold prot_to_pte_flags, in_u. by destruct (has_flag (m_prot mp) PROT_WRITE), (has_flag (m_prot mp) PROT_EXEC). }
  wp_step. apply wp_on_mem. cbn [mem with_mem].
  eapply wp_mono; [|apply (acct_remap k E D2 H4 m4 T r va _ _ pt Ha4' Hpt); [by right|done|done]].
  intros u3 m5 (Ha5 & Hg5 & Hm5). wp_step. apply (wp_deref _ x); [done|]. wp_step. apply wp_set_vmo. wp_step. exists f'.
  assert (forall g, T !! g = None -> (0 < H4 g)%nat -> ram m5 !! g = ram m2 !! g) as Hkeep.
  { intros g HTg Hg. rewrite (proj2 (gr_data _ _ _ _ _ Hg5 g Hg HTg)). apply (gr_data _ _ _ _ _ Hg3); [|done].
    unfold D1, H4 in *. destruct (decide (g = f')); [by right|left]. destruct (decide (g = f)); lia. }
  split; try done.
  - split; [|intros g Hg]; cbn [mem with_vmo with_mem].
    + rewrite Hkeep, Hram2, lookup_insert_eq by (done || (unfold H4; rewrite decide_True by done; lia)). done.
    + assert (0 < H g)%nat as Hg' by (destruct (decide (g = f)); lia). assert (g <> f') by (intros ->; lia).
      rewrite Hkeep, Hram2, lookup_insert_ne, Hram1; try done; [by apply (ac_frame _ _ _ _ _ (proj1 Hacct))|]. unfold H4. by rewrite decide_False.
  - intros r' a Hr'. cbn [mem with_vmo with_mem]. rewrite Hm5 by tauto. unfold kept. case_bool_decide as Eb.
    + assert (present (f' * PAGE_SIZE |. prot_to_pte_flags (m_prot mp)) = true) as ->; [|done]. rewrite present_odd, <- Z.bit0_odd, Z.lor_spec.
      unfold prot_to_pte_flags. by destruct (has_flag (m_prot mp) PROT_WRITE), (has_flag (m_prot mp) PROT_EXEC); rewrite orb_true_r.
    + rewrite (pte_ram m3) by done. rewrite Hm3, bool_decide_eq_false_2 by (done || tauto). by rewrite Hs2, Hs1.
Qed.
End fault.

(** ** The handler *)

(** Audit records and quotas are no part of what [copied] describes. *)
Lemma copied_env k E H s s1 T mp x r b f q f' s2 s' : env s s1 -> mem s1 = mem s -> copied k E H s1 T mp x r b f q f' s2 -> env s2 s' -> mem s' = mem s2 ->
  copied k E H s T mp x r b f q f' s'.
Proof.
  intros He Em [H1 H2 H3 H4 H4' H5 H6 H7] He' Em'.
  rewrite (en_vmos _ _ He), (en_maps _ _ He), Em in *. split; rewrite ?(en_vmos _ _ He'), ?(en_maps _ _ He'), ?Em'; try done.
  - intros t. by rewrite (en_tasks _ _ He' t), (H4 t), (en_tasks _ _ He t).
  - by rewrite (en_current _ _ He'), H4', (en_current _ _ He).
Qed.

Lemma shape_env s s' T : mo_shape s T -> env s s' -> same_ptes (mem s) (mem s') T -> mo_shape s' T.
Proof.
  intros Hi He Em. split; rewrite ?(en_vmos _ _ He), ?(en_maps _ _ He); try apply Hi.
  - intros t i mp Hmp. eapply map_ok_change; [by apply (ms_map _ _ Hi)|apply He|intros x Hx; exists x; by rewrite (en_vmos _ _ He)|].
    intros tk r q e p Htk Hr _ Hp Hs. exists e. destruct (ms_tasks _ _ Hi t tk Htk) as (r' & Hr' & HT). replace r' with r in HT by lia. by rewrite Em.
  - eapply disjoint_change; [apply (ms_disjoint _ _ Hi)|apply He|done].
  - intros t tk Ht. destruct (tasks_same_Some s s' t tk (en_tasks _ _ He) Ht) as (tk0 & Ht0 & ->). by apply (ms_tasks _ _ Hi t).
Qed.

Lemma wp_charge t tk Q s : mtasks s !! t = Some tk -> (forall s', env s s' -> mem s' = mem s -> Q (snd (rlimit_check_mem (t_limits tk) 1)) s') -> wp (charge_mem t) Q s.
Proof.
  intros Htk HQ. unfold charge_mem. wp_step. apply (wp_task_of t tk); [done|]. destruct (rlimit_check_mem (t_limits tk) 1) as [l rc].
  unfold set_limits. do 3 wp_step. apply HQ; [|done]. split; try done. apply (limits_same s t (fun _ => l)).
Qed.

Lemma wp_audit t obj va ok Q s : (forall s', env s s' -> mem s' = mem s -> Q tt s') -> wp (audit_write_vmo_fault t obj va ok) Q s.
Proof. intros HQ. unfold audit_write_vmo_fault. wp_step. apply HQ; [|done]. by split. Qed.

Section dispatch.
  Context (k : Z) (E : Z -> option Z) (H : Z -> nat) (s : mo) (T : gmap Z node) (t i : Z) (mp : vmo_mapping) (x : vmo) (tk : mtask) (r b f : Z) (q : nat) (va : Z).
  Hypothesis Hacct : referenced k E H s T.
  Hypothesis Hi : mo_shape s T.
  Hypothesis Hmp : g_vmo_task_maps s !! (t, i) = Some mp.
  Hypothesis Hx : vmos s !! m_vmo mp = Some x.
  Hypothesis Htk : mtasks s !! t = Some tk.
  Hypothesis Hcr : t_cr3 tk = r * PAGE_SIZE.
  Hypothesis Hb : vaddr mp = b * PAGE_SIZE.
  Hypothesis Hq : span (vmos s) mp !! q = Some (f * PAGE_SIZE).
  Hypothesis Hva : va / PAGE_SIZE = b + Z.of_nat q.
  Hypothesis Hu : in_u 64 va.

Lemma fault_page : va &. (0xFFFFFFFFFFFFFFFF - 0xFFF) = (b + Z.of_nat q) * PAGE_SIZE.
Proof using Hva Hu. clear - Hva Hu. change (0xFFFFFFFFFFFFFFFF - 0xFFF) with PAGE_MASK. rewrite page_mask by done. by rewrite Hva. Qed.

(** The search finds the mapping: mappings do not overlap. *)
Lemma fault_slot : vmo_find_map_slot_containing s t ((b + Z.of_nat q) * PAGE_SIZE) = i.
Proof using All.
  destruct (map_cell s T t i mp Hi Hmp) as (_ & _ & _ & b' & _ & _ & _ & _ & Hb' & Hb0 & Hbl & _ & _ & Hl & _). assert (b' = b) as -> by lia.
  pose proof (lookup_lt_Some _ _ _ Hq) as Hlt. destruct (mk_slot _ _ _ _ (ms_map _ _ Hi t i mp Hmp)) as [Ht Hi64].
  unfold vmo_find_map_slot_containing. set (g := fun m : option vmo_mapping => _).
  assert (forall j mp', g_vmo_task_maps s !! (t, j) = Some mp' -> g (Some mp') = true <-> vaddr mp' <= (b + Z.of_nat q) * PAGE_SIZE < vaddr mp' + len_pages mp' * PAGE_SIZE) as Hg.
  { intros j mp' Hmp'. destruct (map_cell s T t j mp' Hi Hmp') as (_ & _ & _ & b' & _ & _ & _ & _ & Hb2 & Hb20 & Hbl2 & _ & Hlp2 & _).
    unfold g. rewrite (wrap_small 64) by (unfold in_u; lia). rewrite andb_true_iff. lia. }
  destruct (first_slot_spec s t g) as [[E1 [E2|E2]]|(_ & Hs & E2)].
  - unfold slot_bad in E2. lia.
  - specialize (E2 i Hi64). rewrite Hmp in E2. assert (g (Some mp) = true) by (apply (Hg i mp Hmp); lia). congruence.
  - set (j := first_slot s t g) in *. destruct (decide (j = i)) as [|Hne]; [done|exfalso].
    destruct (g_vmo_task_maps s !! (t, j)) as [mp'|] eqn:Hmp'; [|done]. apply (Hg j mp' Hmp') in E2.
    destruct (ms_disjoint _ _ Hi t j mp' t i mp tk tk Hmp' Hmp ltac:(congruence) Htk Htk eq_refl); lia.
Qed.

Definition fault_post (a : Z) (s' : mo) : Prop :=
  (a = 0 /\ exists f', copied k E H s T mp x r b f q f' s') \/
  (a = -1 /\ env s s' /\ ram (mem s') = ram (mem s) /\ acct k E H (mem s') T /\ same_ptes (mem s) (mem s') T /\ (snd (rlimit_check_mem (t_limits tk) 1) < 0 \/ all_used E H (mem s) T)).

Lemma pf_dispatch_spec err : has_flag err 0x4 = true -> has_flag err 0x2 = true -> has_flag err 0x1 = true -> current_task s = Some t ->
  has_flag (m_prot mp) PROT_WRITE = true -> has_flag (v_flags x) VMO_COW_CHILD = true -> wp (vmo_pf_dispatch va err) fault_post s.
Proof using All.
  intros He1 He2 He3 Hcur Hw Hcow. destruct (fault_cell k E H s T t i mp x tk r b f q Hacct Hi Hmp Hx Htk Hcr Hb Hq) as (Hb0 & Hbq & HT & Hheld & Hf & Hget & _).
  pose proof (ms_obj _ _ Hi _ _ Hx) as Hok. pose proof (os_npages _ Hok) as Hnp. pose proof (os_len _ Hok) as Hlen. pose proof (ms_addr _ _ Hi _ _ Hx) as Hv.
  pose proof (get_Some_bound _ _ _ Hget) as Hidx. destruct (mk_part _ _ _ _ (ms_map _ _ Hi t i mp Hmp)) as (_ & _ & Hoff & _).
  destruct (mk_slot _ _ _ _ (ms_map _ _ Hi t i mp Hmp)) as [_ Hi64]. change (VMO_MAX_SIZE / 4096) with 65536 in Hnp.
  unfold vmo_pf_dispatch. rewrite He1, He2, He3. cbn [negb orb]. do 2 wp_step. rewrite Hcur. do 2 wp_step. rewrite fault_page, fault_slot.
  destruct (Z.ltb_spec i 0); [lia|]. wp_step. exists s, mp. split; [unfold mapping_at; by rewrite Hmp|]. cbv beta. rewrite Hw. cbn [negb].
  wp_step. apply (wp_vmo_check _ x); [lia|done|lia|]. cbn [negb]. wp_step. apply (wp_deref _ x); [done|]. rewrite Hcow. cbn [negb]. unfold cow_fault. rewrite fault_page, Hb.
  replace (u64 ((b + Z.of_nat q) * PAGE_SIZE - b * PAGE_SIZE)) with (Z.of_nat q * 4096) by (rewrite wrap_small by (unfold in_u; lia); lia).
  assert (u32 (u64 (m_offset mp + Z.of_nat q * 4096) / 4096) = m_offset mp / 4096 + Z.of_nat q) as ->.
  { rewrite (wrap_small 64) by (unfold in_u; zlia). rewrite Z.div_add by lia. apply wrap_small. unfold in_u. lia. }
  cbv zeta. destruct (Z.geb_spec (m_offset mp / 4096 + Z.of_nat q) (npages x)); [lia|]. wp_step. apply (wp_page_at x _ (f * PAGE_SIZE)); [done|].
  destruct (Z.eqb_spec (f * PAGE_SIZE) 0); [lia|]. wp_step. apply (wp_charge t tk); [done|]. intros s1 Hs1 Em1.
  destruct (Z.ltb_spec (snd (rlimit_check_mem (t_limits tk) 1)) 0).
  { wp_step. apply wp_audit. intros s2 Hs2 Em2. wp_step. right. split; [done|]. split; [by eapply env_trans|]. rewrite Em2, Em1. split_and!; try done; [apply Hacct|by left]. }
  assert (referenced k E H s1 T) as Ha1.
  { split; [rewrite Em1; apply Hacct|]. intros g Hg. apply Hacct. erewrite <- held_same; [exact Hg|by rewrite (en_vmos _ _ Hs1)|apply Hs1]. }
  destruct (env_task s s1 t tk Hs1 Htk) as (tk1 & Htk1 & Ec1). wp_step.
  eapply wp_mono; [|apply (cow_page_spec k E H s1 T t i mp x tk1 r b f q Ha1 (shape_env s s1 T Hi Hs1 ltac:(by rewrite Em1))); rewrite ?(en_vmos _ _ Hs1), ?(en_maps _ _ Hs1), ?Ec1; done].
  intros [] s2 Hs2; cbn [negb].
  - destruct Hs2 as (f' & Hco). wp_step. apply wp_audit. intros s3 Hs3 Em3. wp_step. left. split; [done|]. exists f'. by eapply (copied_env k E H s s1 T _ _ _ _ _ _ _ s2).
  - destruct Hs2 as [N1 N2 N3 N4 N5]. wp_step. apply wp_refund. intros s3 Hs3 Em3. wp_step. apply wp_audit. intros s4 Hs4 Em4. wp_step. right. split; [done|].
    rewrite Em1 in *. rewrite Em4, Em3. split; [exact (env_trans _ _ _ Hs1 (env_trans _ _ _ N1 (env_trans _ _ _ Hs3 Hs4)))|]. split_and!; try done. by right.
Qed.
End dispatch.
