(* ===== verification/VmoPrivate.v ===== *)
(** * Stores through a copy-on-write mapping

    The processor's side of a store: it goes to the frame of a writable translation, and
    raises the write fault otherwise.  [cow_inv] is what a mapping of a copy-on-write clone
    keeps under any number of such stores.  It is weaker than [mo_inv], whose accounts
    the first fault breaks: a frame of an object has a reference, but not one for every
    user, and a page that can be written is used by this mapping alone. *)
From S2P Require Import Prelude Bytes Pmm StateM Vmm VmmInv VmmMap VmmSpace Rlimit Vmo VmoPages VmoInv VmoRefs VmoMapping VmoMap VmoCreate VmoCow VmoFault.
Local Open Scope Z_scope.
Local Open Scope c_scope.

(** ** Stores *)

(** The bytes [bs] go to the address [va] of the space with the root [r], within a page. *)
Definition mmu_store (r va : Z) (bs : list Z) (m : vm) : option vm :=
  e ← pte m r va;
  if has_flag e PTE_WRITABLE && has_flag e PTE_USER then
    let f := (e &. VMO_PTE_PHYS_MASK) / PAGE_SIZE in
    pg ← ram m !! f;
    Some (set_frame m f (splice pg (Z.to_nat (va mod PAGE_SIZE)) bs))
  else None.

(** The error code of the fault: a write from user mode, to a page that is present or not. *)
Definition fault_code (r va : Z) (m : vm) : Z := match pte m r va with Some _ => 7 | None => 6 end.

(** A store of the task that runs.  When the handler answers 0 the instruction is run again;
    the answer is otherwise that of the handler. *)
Definition user_store (r va : Z) (bs : list Z) : M mo Z := fun s =>
  match mmu_store r va bs (mem s) with
  | Some m => Some (with_mem s m, 0)
  | None =>
      '(s1, a) ← vmo_pf_dispatch va (fault_code r va (mem s)) s;
      if a =? 0 then m ← mmu_store r va bs (mem s1); Some (with_mem s1 m, 0) else Some (s1, a)
  end.

(** The bytes of page [j] of the object [v]. *)
Definition object_page (s : mo) (v j : Z) : option (list Z) :=
  x ← vmos s !! v; p ← get (pages x) j; ram (mem s) !! (p / PAGE_SIZE).

(** ** The users of a page that changes *)
Lemma cnt_insert g (l : list Z) (q : nat) (f f' : Z) : l !! q = Some (f * PAGE_SIZE) ->
  (cnt g (<[q := (f' * PAGE_SIZE)%Z]> l) + (if decide (g = f) then 1 else 0) = cnt g l + (if decide (g = f') then 1 else 0))%nat.
Proof.
  revert q. induction l as [|p l IH]; intros [|q] Hq; try done; cbn [lookup list_lookup] in Hq.
  - injection Hq as ->. change (<[O := f' * PAGE_SIZE]> (f * PAGE_SIZE :: l)) with (f' * PAGE_SIZE :: l). rewrite !cnt_page. lia.
  - change (<[S q := f' * PAGE_SIZE]> (p :: l)) with (p :: <[q := f' * PAGE_SIZE]> l). cbn [cnt]. specialize (IH q Hq). lia.
Qed.

Section page.
  Context (s : mo) (t i : Z) (mp : vmo_mapping) (x : vmo) (f f' : Z) (q : nat).
  Hypothesis Hmp : g_vmo_task_maps s !! (t, i) = Some mp.
  Hypothesis Hsole : forall j mp', g_vmo_task_maps s !! j = Some mp' -> m_vmo mp' = m_vmo mp -> j = (t, i).
  Hypothesis Hx : vmos s !! m_vmo mp = Some x.
  Hypothesis Hoff : 0 <= m_offset mp / 4096.
  Hypothesis Hq : span (vmos s) mp !! q = Some (f * PAGE_SIZE).
Let idx := m_offset mp / 4096 + Z.of_nat q.
Let x' := {| x with pages := upd (pages x) idx (f' * PAGE_SIZE) |}.

Lemma span_entry : pages x !! Z.to_nat idx = Some (f * PAGE_SIZE).
Proof using Hx Hq Hoff.
  unfold span in Hq. rewrite Hx in Hq. apply lookup_take_Some in Hq as [Hp _]. rewrite lookup_drop in Hp. rewrite <- Hp. f_equal. unfold idx. lia.
Qed.

Lemma page_span : span (<[m_vmo mp := x']> (vmos s)) mp = <[q := f' * PAGE_SIZE]> (span (vmos s) mp).
Proof using Hx Hq Hoff.
  pose proof (lookup_lt_Some _ _ _ Hq) as Hlt. unfold span in *. rewrite Hx in *. rewrite lookup_insert_eq. cbn [pages x']. unfold upd.
  rewrite length_take in Hlt. rewrite drop_insert_ge by (unfold idx; lia). rewrite take_insert_lt by (unfold idx; lia). do 2 f_equal. unfold idx. lia.
Qed.

(** The array and the mapping each give up one use of [f] for one of [f']. *)
Lemma page_held g : (held (with_vmo s (m_vmo mp) x') g + (if decide (g = f) then 2 else 0) = held s g + (if decide (g = f') then 2 else 0))%nat.
Proof using Hmp Hsole Hx Hoff Hq.
  unfold held. cbn [with_vmo vmos g_vmo_task_maps].
  pose proof (msum_update (fun x => cnt g (pages x)) _ _ x x' Hx) as H1. cbv beta in H1.
  pose proof (cnt_insert g _ _ f f' span_entry) as H2. change (<[Z.to_nat idx := f' * PAGE_SIZE]> (pages x)) with (pages x') in H2.
  rewrite (msum_delete (fun mp => cnt g (span (vmos s) mp)) _ _ _ Hmp), (msum_delete (fun mp0 => cnt g (span (<[m_vmo mp := x']> (vmos s)) mp0)) _ _ _ Hmp), page_span.
  pose proof (cnt_insert g _ _ f f' Hq) as H3.
  rewrite (msum_ext (fun mp0 => cnt g (span (<[m_vmo mp := x']> (vmos s)) mp0)) (fun mp => cnt g (span (vmos s) mp)) (delete (t, i) (g_vmo_task_maps s))).
  - destruct (decide (g = f)), (decide (g = f')); lia.
  - intros j mp' [Hne Hj]%lookup_delete_Some. f_equal. unfold span. rewrite lookup_insert_ne; [done|]. intros Ev. by apply Hne, eq_sym, (Hsole j mp').
Qed.
End page.

(** ** The invariant of the mapping *)

(** The page [j] of the object [v] as a mapping shows it. *)
Definition mmu_page (r va : Z) (m : vm) : option (list Z) :=
  e ← pte m r va; ram m !! ((e &. VMO_PTE_PHYS_MASK) / PAGE_SIZE).

Lemma shape_seen s T t i mp tk r (q : nat) : mo_shape s T -> g_vmo_task_maps s !! (t, i) = Some mp -> mtasks s !! t = Some tk -> t_cr3 tk = r * PAGE_SIZE ->
  Z.of_nat q < len_pages mp ->
  mmu_page r (vaddr mp + Z.of_nat q * PAGE_SIZE) (mem s) = object_page s (m_vmo mp) (m_offset mp / 4096 + Z.of_nat q).
Proof.
  intros Hi Hmp Htk Hr Hq. destruct (map_cell s T t i mp Hi Hmp) as (x & tk' & r' & b & Hx & _ & _ & _ & _ & _ & _ & _ & _ & Hl & _ & _ & Hget).
  destruct (lookup_lt_is_Some_2 (span (vmos s) mp) q ltac:(lia)) as [p Hp].
  destruct (mk_ptes _ _ _ _ (ms_map _ _ Hi t i mp Hmp) tk r q p Htk Hr Hp) as (e & He & Hsh & _).
  unfold mmu_page, object_page. rewrite He, Hx. cbn [mbind option_bind]. rewrite (Hget q p Hp). cbn. by rewrite Hsh.
Qed.

Lemma shows_prot f prot : 0 <= f < 2 ^ 35 -> shows (f * PAGE_SIZE |. prot_to_pte_flags prot) (f * PAGE_SIZE) prot.
Proof. intros Hf. by apply (shows_entry f (Vmo 0 0 0 0 0 [] 0 0 0) prot Hf). Qed.

Section private.
  Context (k : Z) (E : Z -> option Z) (T : gmap Z node) (t i : Z) (mp : vmo_mapping) (r b : Z).

Record cow_inv (H : Z -> nat) (s : mo) : Prop := {
  ci_acct : acct k E H (mem s) T;
  ci_count : forall g, (held s g <= H g)%nat \/ (H g = 1%nat /\ (held s g <= 2)%nat);
  ci_shape : mo_shape s T;
  ci_map : g_vmo_task_maps s !! (t, i) = Some mp;
  ci_sole : forall j mp', g_vmo_task_maps s !! j = Some mp' -> m_vmo mp' = m_vmo mp -> j = (t, i);
  ci_clone : exists x, vmos s !! m_vmo mp = Some x /\ has_flag (v_flags x) VMO_COW_CHILD = true;
  ci_task : current_task s = Some t /\ exists tk, mtasks s !! t = Some tk /\ t_cr3 tk = r * PAGE_SIZE;
  ci_own : forall (q : nat) g e, span (vmos s) mp !! q = Some (g * PAGE_SIZE) -> pte (mem s) r ((b + Z.of_nat q) * PAGE_SIZE) = Some e ->
    has_flag e PTE_WRITABLE = true -> held s g = 2%nat }.

Lemma ci_referenced H s : cow_inv H s -> referenced k E H s T.
Proof. intros Hi. split; [apply Hi|]. intros g Hg. destruct (ci_count _ _ Hi g); lia. Qed.

(** Bytes and quotas may change. *)
Lemma ci_env H s s' : cow_inv H s -> env s s' -> acct k E H (mem s') T -> same_ptes (mem s) (mem s') T -> cow_inv H s'.
Proof.
  intros Hi He Ha Hp. assert (forall g, held s' g = held s g) as Hh by (intros g; apply held_same; [by rewrite (en_vmos _ _ He)|apply He]).
  destruct (ci_task _ _ Hi) as (Hcur & tk & Htk & Hcr). destruct (env_task s s' t tk He Htk) as (tk' & Htk' & Ec).
  split; rewrite ?(en_vmos _ _ He), ?(en_maps _ _ He), ?(en_current _ _ He); try apply Hi; try done.
  - intros g. rewrite Hh. apply Hi.
  - eapply shape_env; [apply Hi|done|done].
  - split; [done|]. exists tk'. split; [done|]. congruence.
  - intros q g e Hq. rewrite Hh, Hp; [by apply (ci_own _ _ Hi)|]. destruct (ms_tasks _ _ (ci_shape _ _ Hi) t tk Htk) as (r' & Hr' & HT). by replace r with r' by lia.
Qed.

Lemma ci_start C s tk : mo_inv k E C s T -> g_vmo_task_maps s !! (t, i) = Some mp ->
  (forall j mp', g_vmo_task_maps s !! j = Some mp' -> m_vmo mp' = m_vmo mp -> j = (t, i)) ->
  (exists x, vmos s !! m_vmo mp = Some x /\ has_flag (v_flags x) VMO_COW_CHILD = true) ->
  current_task s = Some t -> mtasks s !! t = Some tk -> t_cr3 tk = r * PAGE_SIZE ->
  (forall q : nat, Z.of_nat q < len_pages mp -> read_only (mem s) r ((b + Z.of_nat q) * PAGE_SIZE)) -> cow_inv (held s) s.
Proof.
  intros Hi Hmp Hsole Hcow Hcur Htk Hcr Hro. pose proof (mi_shape _ _ _ _ _ Hi) as Hsh. split; try done.
  - apply Hi.
  - intros g. by left.
  - split; [done|]. by exists tk.
  - intros q g e Hq He Hw. rewrite Hro with (q := q) in Hw; [done| |done].
    pose proof (mapping_length s T t i mp Hsh Hmp). apply lookup_lt_Some in Hq. lia.
Qed.
End private.

(** ** After a copy *)
Section copy.
  Context (k : Z) (E : Z -> option Z) (H : Z -> nat) (s : mo) (T : gmap Z node) (t i : Z) (mp : vmo_mapping) (x : vmo) (r b f : Z) (q : nat) (f' : Z) (s' : mo).
  Hypothesis Hi : cow_inv k E T t i mp r b H s.
  Hypothesis Hx : vmos s !! m_vmo mp = Some x.
  Hypothesis Hb : vaddr mp = b * PAGE_SIZE.
  Hypothesis Hq : span (vmos s) mp !! q = Some (f * PAGE_SIZE).
  Hypothesis Hco : copied k E H s T mp x r b f q f' s'.
Let H' g := if decide (g = f') then 1%nat else if decide (g = f) then pred (H g) else H g.
Let idx := m_offset mp / 4096 + Z.of_nat q.
Let x' := {| x with pages := upd (pages x) idx (f' * PAGE_SIZE) |}.

Lemma copy_place : 0 <= m_offset mp / 4096 /\ 0 < b /\ b + len_pages mp <= 2 ^ 35 /\ Z.of_nat q < len_pages mp /\ is_root T r /\
  get (pages x) idx = Some (f * PAGE_SIZE).
Proof using Hi Hx Hb Hq.
  pose proof (ci_shape _ _ _ _ _ _ _ _ _ _ Hi) as Hsh. pose proof (ci_map _ _ _ _ _ _ _ _ _ _ Hi) as Hmp.
  destruct (map_cell s T t i mp Hsh Hmp) as (y & tk & r' & b' & Hy & Htk & Hr' & HT & Hb' & Hb0 & Hbl & _ & _ & Hl & _ & _ & Hget).
  destruct (ci_task _ _ _ _ _ _ _ _ _ _ Hi) as (_ & tk' & Htk' & Hcr). assert (tk' = tk) as -> by congruence. assert (r' = r) as -> by lia.
  assert (b' = b) as -> by lia. assert (y = x) as -> by congruence. destruct (mk_part _ _ _ _ (ms_map _ _ Hsh t i mp Hmp)) as (_ & _ & Hoff & _).
  apply lookup_lt_Some in Hq as Hlt. split_and!; try done; [lia|]. by apply Hget.
Qed.

Lemma copy_held g : (held s' g + (if decide (g = f) then 2 else 0) = held s g + (if decide (g = f') then 2 else 0))%nat.
Proof using Hi Hx Hb Hq Hco.
  destruct copy_place as (Hoff & _). rewrite <- (page_held s t i mp x f f' q); try done; [|apply Hi..]. f_equal. apply held_same; [|apply Hco].
  intros u. by rewrite (co_vmos _ _ _ _ _ _ _ _ _ _ _ _ _ Hco).
Qed.

Lemma copy_fresh : held s f' = 0%nat /\ f' <> f.
Proof using Hi Hx Hb Hq Hco.
  destruct (co_new _ _ _ _ _ _ _ _ _ _ _ _ _ Hco) as (_ & Hz & _). split; [destruct (ci_count _ _ _ _ _ _ _ _ _ _ Hi f'); lia|]. intros ->.
  pose proof (held_two s _ mp q f _ (ci_map _ _ _ _ _ _ _ _ _ _ Hi) Hq eq_refl). destruct (ci_count _ _ _ _ _ _ _ _ _ _ Hi f); lia.
Qed.

Lemma copy_count g : (held s' g <= H' g)%nat \/ (H' g = 1%nat /\ (held s' g <= 2)%nat).
Proof using Hi Hx Hb Hq Hco.
  pose proof (copy_held g) as Hh. destruct copy_fresh as [Hz Hne]. unfold H'. pose proof (ci_count _ _ _ _ _ _ _ _ _ _ Hi g) as Hg.
  destruct (decide (g = f')) as [->|]; [rewrite decide_False in Hh by done; lia|]. destruct (decide (g = f)); lia.
Qed.

(** The other pages of the mapping, and other mappings of the space, are elsewhere. *)
Lemma copy_elsewhere t2 i2 mp2 tk2 (q2 : nat) : g_vmo_task_maps s !! (t2, i2) = Some mp2 -> mtasks s !! t2 = Some tk2 -> t_cr3 tk2 = r * PAGE_SIZE ->
  Z.of_nat q2 < len_pages mp2 -> ((t2, i2) = (t, i) -> q2 <> q) -> vpn (vaddr mp2 + Z.of_nat q2 * PAGE_SIZE) <> vpn ((b + Z.of_nat q) * PAGE_SIZE).
Proof using Hi Hx Hb Hq.
  intros Hmp2 Htk2 Hr2 Hq2 Hne. pose proof (ci_shape _ _ _ _ _ _ _ _ _ _ Hi) as Hsh. destruct copy_place as (_ & Hb0 & Hbl & Hlt & _).
  destruct (mk_base _ _ _ _ (ms_map _ _ Hsh t2 i2 mp2 Hmp2)) as (b2 & Hb2 & Hb20 & Hb2l). rewrite Hb2, <- Z.mul_add_distr_r, !user_page_vpn by lia.
  destruct (decide ((t2, i2) = (t, i))) as [Ej|Hj].
  - rewrite Ej, (ci_map _ _ _ _ _ _ _ _ _ _ Hi) in Hmp2. injection Hmp2 as <-. specialize (Hne Ej). lia.
  - destruct (ci_task _ _ _ _ _ _ _ _ _ _ Hi) as (_ & tk & Htk & Hcr).
    destruct (ms_disjoint _ _ Hsh t2 i2 mp2 t i mp tk2 tk Hmp2 (ci_map _ _ _ _ _ _ _ _ _ _ Hi) Hj Htk2 Htk ltac:(lia)); lia.
Qed.

Lemma copy_pte t2 i2 mp2 tk2 r2 (q2 : nat) : g_vmo_task_maps s !! (t2, i2) = Some mp2 -> mtasks s !! t2 = Some tk2 -> t_cr3 tk2 = r2 * PAGE_SIZE ->
  Z.of_nat q2 < len_pages mp2 -> ((t2, i2) = (t, i) -> q2 <> q) ->
  pte (mem s') r2 (vaddr mp2 + Z.of_nat q2 * PAGE_SIZE) = pte (mem s) r2 (vaddr mp2 + Z.of_nat q2 * PAGE_SIZE).
Proof using Hi Hx Hb Hq Hco.
  intros Hmp2 Htk2 Hr2 Hq2 Hne. destruct (ms_tasks _ _ (ci_shape _ _ _ _ _ _ _ _ _ _ Hi) t2 tk2 Htk2) as (r' & Hr' & HT). replace r' with r2 in HT by lia.
  rewrite (co_ptes _ _ _ _ _ _ _ _ _ _ _ _ _ Hco) by done.
  case_bool_decide as Ev; [|done]. destruct Ev as [-> Ev]. by apply (copy_elsewhere t2 i2 mp2 tk2 q2) in Ev.
Qed.

Lemma copy_entry : shows (f' * PAGE_SIZE |. prot_to_pte_flags (m_prot mp)) (f' * PAGE_SIZE) (m_prot mp) /\
  pte (mem s') r ((b + Z.of_nat q) * PAGE_SIZE) = Some (f' * PAGE_SIZE |. prot_to_pte_flags (m_prot mp)).
Proof using Hi Hx Hb Hq Hco.
  destruct copy_place as (_ & _ & _ & _ & HT & _). destruct (co_new _ _ _ _ _ _ _ _ _ _ _ _ _ Hco) as (_ & _ & _ & Hf'). split; [apply shows_prot; lia|].
  rewrite (co_ptes _ _ _ _ _ _ _ _ _ _ _ _ _ Hco) by done. by rewrite bool_decide_eq_true_2.
Qed.

Lemma copy_map_ok t2 i2 mp2 : g_vmo_task_maps s !! (t2, i2) = Some mp2 -> map_ok s' t2 i2 mp2.
Proof using Hi Hx Hb Hq Hco.
  intros Hmp2. pose proof (ci_shape _ _ _ _ _ _ _ _ _ _ Hi) as Hsh. pose proof (ms_map _ _ Hsh t2 i2 mp2 Hmp2) as Hok.
  pose proof (mapping_length s T t2 i2 mp2 Hsh Hmp2) as Hl. pose proof (co_vmos _ _ _ _ _ _ _ _ _ _ _ _ _ Hco) as Ev. fold idx x' in Ev.
  pose proof (co_tasks _ _ _ _ _ _ _ _ _ _ _ _ _ Hco) as Ets. destruct (decide ((t2, i2) = (t, i))) as [Ej|Hj].
  - assert (mp2 = mp) as -> by (rewrite Ej, (ci_map _ _ _ _ _ _ _ _ _ _ Hi) in Hmp2; congruence). destruct Hok as [Hs (y & Hy & H1 & H2 & H3) Ht Hbase Hp].
    split; try done.
    + exists x'. rewrite Ev, lookup_insert_eq. assert (y = x) as -> by congruence. done.
    + destruct Ht as [tk Ht]. specialize (Ets t2). rewrite Ht in Ets. by destruct (mtasks s' !! t2).
    + intros tk r2 q2 p Htk Hr2 Hq2. destruct (tasks_same_Some s s' t2 tk Ets Htk) as (tk0 & Htk0 & Ec). rewrite Ec in Hr2.
      rewrite Ev in Hq2. unfold x', idx in Hq2. rewrite (page_span s mp x f f' q) in Hq2 by (done || apply copy_place).
      destruct (decide (q2 = q)) as [->|Hne].
      * rewrite list_lookup_insert_eq in Hq2 by (by eapply lookup_lt_Some). injection Hq2 as <-. destruct (ci_task _ _ _ _ _ _ _ _ _ _ Hi) as (_ & tk1 & Htk1 & Hcr).
        injection Ej as -> ->. assert (tk1 = tk0) as -> by congruence. assert (r2 = r) as -> by lia. rewrite Hb, <- Z.mul_add_distr_r.
        destruct copy_entry as [Hsw He]. by eexists.
      * rewrite list_lookup_insert_ne in Hq2 by done. destruct (Hp tk0 r2 q2 p Htk0 Hr2 Hq2) as (e & He & Hsw). exists e. split; [|done]. rewrite <- He.
        apply (copy_pte t2 i2 mp tk0); try done. apply lookup_lt_Some in Hq2. lia.
  - assert (m_vmo mp2 <> m_vmo mp) as Hv by (intros Hv; by apply Hj, (ci_sole _ _ _ _ _ _ _ _ _ _ Hi _ mp2)).
    apply (map_ok_change s); try done; [intros y Hy; exists y; by rewrite Ev, lookup_insert_ne|].
    intros tk r2 q2 e p Htk Hr2 Hq2 He Hsw. exists e. split; [|done]. rewrite <- He. apply (copy_pte t2 i2 mp2 tk); try done. apply lookup_lt_Some in Hq2. lia.
Qed.

Lemma copy_shape : mo_shape s' T.
Proof using Hi Hx Hb Hq Hco.
  pose proof (ci_shape _ _ _ _ _ _ _ _ _ _ Hi) as Hsh. pose proof (co_vmos _ _ _ _ _ _ _ _ _ _ _ _ _ Hco) as Ev. fold idx x' in Ev.
  pose proof (co_maps _ _ _ _ _ _ _ _ _ _ _ _ _ Hco) as Em. pose proof (co_tasks _ _ _ _ _ _ _ _ _ _ _ _ _ Hco) as Ets.
  assert (forall v y, vmos s' !! v = Some y -> (v = m_vmo mp /\ y = x') \/ vmos s !! v = Some y) as Hin.
  { intros v y. rewrite Ev. intros [[<- <-]|[_ Hy]]%lookup_insert_Some; [by left|by right]. }
  split.
  - intros v y [[-> ->]|Hy]%Hin; by eapply (ms_addr _ _ Hsh).
  - intros v y [[-> ->]|Hy]%Hin; [|by eapply (ms_obj _ _ Hsh)]. destruct (ms_obj _ _ Hsh _ _ Hx) as [Hlen Hnp Hpl Hmm]. split; try done.
    + cbn [pages npages x']. by rewrite length_upd.
    + intros p Hp. cbn [pages x'] in Hp. apply list_elem_of_lookup_1 in Hp as [j Hj]. unfold upd in Hj. apply list_lookup_insert_Some in Hj as [(_ & <- & _)|[_ Hj]].
      * exists f'. split; [done|]. apply (co_new _ _ _ _ _ _ _ _ _ _ _ _ _ Hco).
      * apply Hpl. by eapply list_elem_of_lookup_2.
  - intros t2 i2 mp2. rewrite Em. apply copy_map_ok.
  - rewrite Em. by eapply disjoint_change; [apply (ms_disjoint _ _ Hsh)| |].
  - intros t2 tk2 Htk2. destruct (tasks_same_Some s s' t2 tk2 Ets Htk2) as (tk0 & Ht0 & ->). by apply (ms_tasks _ _ Hsh t2).
Qed.

Lemma copy_inv : cow_inv k E T t i mp r b H' s'.
Proof using Hi Hx Hb Hq Hco.
  pose proof (co_vmos _ _ _ _ _ _ _ _ _ _ _ _ _ Hco) as Ev. fold idx x' in Ev. pose proof (co_maps _ _ _ _ _ _ _ _ _ _ _ _ _ Hco) as Em.
  destruct (ci_task _ _ _ _ _ _ _ _ _ _ Hi) as (Hcur & tk & Htk & Hcr). split; rewrite ?Em; try apply Hi.
  - apply Hco.
  - apply copy_count.
  - apply copy_shape.
  - exists x'. rewrite Ev, lookup_insert_eq. split; [done|]. destruct (ci_clone _ _ _ _ _ _ _ _ _ _ Hi) as (y & Hy & Hc). by assert (y = x) as -> by congruence.
  - split; [by rewrite (co_current _ _ _ _ _ _ _ _ _ _ _ _ _ Hco)|]. pose proof (co_tasks _ _ _ _ _ _ _ _ _ _ _ _ _ Hco t) as Ets. rewrite Htk in Ets.
    destruct (mtasks s' !! t) as [tk'|]; [|done]. exists tk'. split; [done|]. injection Ets. congruence.
  - intros q2 g e Hq2 He Hwr. pose proof (copy_held g) as Hh. destruct copy_fresh as [Hz Hne].
    assert (2 <= held s' g)%nat as H2 by (apply (held_two s' (t, i) mp q2 g (g * PAGE_SIZE)); [rewrite Em; apply Hi|done|done]).
    destruct (decide (g = f')) as [->|]; [rewrite decide_False in Hh by done; lia|].
    rewrite Ev in Hq2. unfold x', idx in Hq2. rewrite (page_span s mp x f f' q) in Hq2 by (done || apply copy_place). apply list_lookup_insert_Some in Hq2 as [(_ & ? & _)|[Hn Hq2]]; [lia|].
    assert (held s g = 2%nat) as Hg; [|destruct (decide (g = f)); lia]. apply (ci_own _ _ _ _ _ _ _ _ _ _ Hi q2 g e); try done. rewrite <- He.
    rewrite Z.mul_add_distr_r, <- Hb. symmetry. apply (copy_pte t i mp tk); try done; [apply Hi|].
    pose proof (mapping_length s T t i mp (ci_shape _ _ _ _ _ _ _ _ _ _ Hi) (ci_map _ _ _ _ _ _ _ _ _ _ Hi)). apply lookup_lt_Some in Hq2. lia.
Qed.

(** No page of an object changes its bytes. *)
Lemma copy_pages v j : object_page s' v j = object_page s v j.
Proof using Hi Hx Hb Hq Hco.
  pose proof (co_vmos _ _ _ _ _ _ _ _ _ _ _ _ _ Hco) as Ev. fold idx x' in Ev. destruct copy_place as (Hoff & _ & _ & _ & _ & Hget).
  pose proof (get_Some_bound _ _ _ Hget) as Hidx. destruct (co_bytes _ _ _ _ _ _ _ _ _ _ _ _ _ Hco) as [Hnew Hold]. unfold object_page.
  destruct (decide (v = m_vmo mp /\ j = idx)) as [[-> ->]|Hne].
  { rewrite Ev, lookup_insert_eq, Hx. cbn [mbind option_bind pages x']. rewrite get_upd_eq, Hget by done. cbn [mbind option_bind]. by rewrite !Z.div_mul. }
  assert (forall y y', vmos s !! v = Some y -> vmos s' !! v = Some y' -> get (pages y') j = get (pages y) j) as Hsame.
  { intros y y' Hy Hy'. rewrite Ev in Hy'. apply lookup_insert_Some in Hy' as [[<- <-]|[_ Hy']]; [|congruence].
    assert (y = x) as -> by congruence. apply get_upd_ne; [lia|]. intros <-. by apply Hne. }
  destruct (vmos s !! v) as [y|] eqn:Hy; last first. { rewrite Ev, lookup_insert_ne by congruence. by rewrite Hy. }
  destruct (vmos s' !! v) as [y'|] eqn:Hy'; [|rewrite Ev in Hy'; apply lookup_insert_None in Hy' as [? _]; congruence].
  cbn [mbind option_bind]. rewrite (Hsame y y' eq_refl eq_refl). destruct (get (pages y) j) as [p|] eqn:Hp; [|done]. cbn [mbind option_bind].
  assert (p ∈ pages y) as Hin. { unfold get in Hp. destruct (j <? 0); [done|]. by eapply list_elem_of_lookup_2. }
  destruct (os_pages _ (ms_obj _ _ (ci_shape _ _ _ _ _ _ _ _ _ _ Hi) _ _ Hy) p Hin) as (g & -> & _). rewrite Z.div_mul by done. apply Hold.
  assert (0 < held s g)%nat as Hg by (apply held_live; exists v, y; by rewrite cnt_pos).
  assert (0 < held s' g)%nat as Hg'.
  { apply held_live. exists v, y'. split; [done|]. apply cnt_pos. rewrite <- (Hsame y y') in Hp by done. unfold get in Hp. destruct (j <? 0); [done|]. by eapply list_elem_of_lookup_2. }
  destruct copy_fresh as [Hz _]. pose proof (copy_count g) as Hc. unfold H' in Hc. rewrite (decide_False (P := g = f')) in Hc by (intros ->; lia).
  destruct (decide (g = f)); lia.
Qed.
End copy.

(** ** Stores to a page *)
Record ustore := Ustore { u_page : nat; u_off : Z; u_bytes : list Z }.

Definition ustore_ok (mp : vmo_mapping) (w : ustore) : Prop :=
  Z.of_nat (u_page w) < len_pages mp /\ 0 <= u_off w < PAGE_SIZE /\ u_off w + Z.of_nat (length (u_bytes w)) <= PAGE_SIZE /\ wf_bytes (u_bytes w).

Definition u_va (b : Z) (w : ustore) : Z := (b + Z.of_nat (u_page w)) * PAGE_SIZE + u_off w.
Definition u_idx (mp : vmo_mapping) (w : ustore) : Z := m_offset mp / 4096 + Z.of_nat (u_page w).
Definition u_write (w : ustore) (pg : list Z) : list Z := splice pg (Z.to_nat (u_off w)) (u_bytes w).

Section store.
  Context (k : Z) (E : Z -> option Z) (H : Z -> nat) (s : mo) (T : gmap Z node) (t i : Z) (mp : vmo_mapping) (x : vmo) (r b f : Z) (w : ustore).
  Hypothesis Hi : cow_inv k E T t i mp r b H s.
  Hypothesis Hx : vmos s !! m_vmo mp = Some x.
  Hypothesis Hb : vaddr mp = b * PAGE_SIZE.
  Hypothesis Hok : ustore_ok mp w.
  Hypothesis Hq : span (vmos s) mp !! u_page w = Some (f * PAGE_SIZE).

Lemma store_page : u_va b w / PAGE_SIZE = b + Z.of_nat (u_page w) /\ u_va b w mod PAGE_SIZE = u_off w /\
  vpn (u_va b w) = vpn ((b + Z.of_nat (u_page w)) * PAGE_SIZE).
Proof using Hok.
  clear - Hok. destruct Hok as (_ & H0 & _). unfold u_va, vpn. rewrite Z.div_mul, Z.div_add_l, Z.div_small, Z.add_0_r by lia. split_and!; try done.
  rewrite Z.add_comm, Z_mod_plus_full. apply Z.mod_small. lia.
Qed.

(** Nobody else uses a frame that the mapping can write. *)
Lemma store_own v y j g : held s f = 2%nat -> (v, j) <> (m_vmo mp, u_idx mp w) -> vmos s !! v = Some y -> get (pages y) j = Some (g * PAGE_SIZE) -> g <> f.
Proof using Hi Hx Hb Hq.
  intros Hf Hne Hy Hg ->. destruct (copy_place k E H s T t i mp x r b f (u_page w) Hi Hx Hb Hq) as (Hoff & _ & _ & _ & _ & Hget). fold (u_idx mp w) in Hget.
  pose proof (page_held s t i mp x f (f + 1) (u_page w) ltac:(apply Hi) ltac:(apply Hi) Hx Hoff Hq f) as Hh. fold (u_idx mp w) in Hh.
  rewrite decide_True, (decide_False (P := f = f + 1)) in Hh by (done || lia). set (x2 := {| x with pages := _ |}) in Hh.
  assert (0 < held (with_vmo s (m_vmo mp) x2) f)%nat; [|lia]. apply held_live. cbn [vmos with_vmo]. destruct (decide (v = m_vmo mp)) as [->|Hv].
  - exists (m_vmo mp), x2. rewrite lookup_insert_eq. split; [done|]. apply cnt_pos. assert (y = x) as -> by congruence.
    rewrite <- (get_upd_ne _ (u_idx mp w) j ((f + 1) * PAGE_SIZE)) in Hg by (apply get_Some_bound in Hget; lia || congruence).
    change (upd (pages x) (u_idx mp w) ((f + 1) * PAGE_SIZE)) with (pages x2) in Hg. unfold get in Hg. destruct (j <? 0); [done|]. by eapply list_elem_of_lookup_2.
  - exists v, y. rewrite lookup_insert_ne by done. split; [done|]. apply cnt_pos. unfold get in Hg. destruct (j <? 0); [done|]. by eapply list_elem_of_lookup_2.
Qed.

Lemma mapped_entry : exists e, pte (mem s) r (u_va b w) = Some e /\ shows e (f * PAGE_SIZE) (m_prot mp).
Proof using Hi Hb Hok Hq.
  destruct (ci_task _ _ _ _ _ _ _ _ _ _ Hi) as (_ & tk & Htk & Hcr). destruct store_page as (_ & _ & Ev).
  destruct (mk_ptes _ _ _ _ (ms_map _ _ (ci_shape _ _ _ _ _ _ _ _ _ _ Hi) t i mp (ci_map _ _ _ _ _ _ _ _ _ _ Hi)) tk r _ _ Htk Hcr Hq) as (e & He & Hsh).
  exists e. split; [|done]. rewrite <- He, Hb, <- Z.mul_add_distr_r. by apply pte_vpn.
Qed.

(** What a store that succeeds does. *)
Definition wrote (s' : mo) : Prop :=
  (forall v j, (v, j) <> (m_vmo mp, u_idx mp w) -> object_page s' v j = object_page s v j) /\
  exists pg, object_page s (m_vmo mp) (u_idx mp w) = Some pg /\ object_page s' (m_vmo mp) (u_idx mp w) = Some (u_write w pg).

Lemma store_done e : pte (mem s) r (u_va b w) = Some e -> has_flag e PTE_WRITABLE = true ->
  exists m, mmu_store r (u_va b w) (u_bytes w) (mem s) = Some m /\ cow_inv k E T t i mp r b H (with_mem s m) /\ same_ptes (mem s) m T /\ wrote (with_mem s m).
Proof using Hi Hx Hb Hok Hq.
  intros He Hwr. destruct mapped_entry as (e' & He' & Hmask & _ & Hus & _). assert (e' = e) as -> by congruence. destruct store_page as (_ & Hmod & Ev).
  destruct (copy_place k E H s T t i mp x r b f (u_page w) Hi Hx Hb Hq) as (_ & _ & _ & _ & _ & Hget). fold (u_idx mp w) in Hget.
  assert (held s f = 2%nat) as Hf by (apply (ci_own _ _ _ _ _ _ _ _ _ _ Hi (u_page w) f e); try done; by rewrite <- (pte_vpn _ _ _ _ Ev)).
  pose proof (ci_acct _ _ _ _ _ _ _ _ _ _ Hi) as Ha.
  destruct (ac_frame _ _ _ _ _ Ha f) as (_ & HT & [pg Hpg] & _); [apply (ci_referenced _ _ _ _ _ _ _ _ _ _ Hi); lia|].
  destruct (ac_inv _ _ _ _ _ Ha) as (mm & Hinv & _). destruct (vi_frame _ _ _ _ Hinv _ _ Hpg) as (_ & Hpok).
  destruct Hok as (_ & H0 & H1 & H2). assert (page_ok (u_write w pg)) as Hwok by (apply page_ok_splice; [done|done|lia]).
  destruct (acct_write k E (fun _ => False) H (mem s) T Ha f (u_write w pg) HT ltac:(by exists pg) Hwok ltac:(tauto)) as (Ha' & Hp' & _).
  exists (set_frame (mem s) f (u_write w pg)). split_and!; try done.
  - unfold mmu_store. rewrite He, Hmod. cbn [mbind option_bind]. rewrite Hwr, Hus, Hmask, Z.div_mul by done. cbn [andb]. by rewrite Hpg.
  - by apply (ci_env k E T t i mp r b H s); [|apply env_mem| |].
  - split; [intros v j Hne|exists pg]; unfold object_page; cbn [vmos mem with_mem].
    + destruct (vmos s !! v) as [y|] eqn:Hy; [|done]. cbn [mbind option_bind].
      destruct (get (pages y) j) as [p|] eqn:Hp; [|done]. cbn [mbind option_bind]. assert (p ∈ pages y) as Hin. { unfold get in Hp. destruct (j <? 0); [done|]. by eapply list_elem_of_lookup_2. }
      destruct (os_pages _ (ms_obj _ _ (ci_shape _ _ _ _ _ _ _ _ _ _ Hi) _ _ Hy) p Hin) as (g & -> & _). rewrite Z.div_mul by done.
      cbn. rewrite lookup_insert_ne; [done|]. apply not_eq_sym. by eapply store_own.
    + rewrite Hx. cbn [mbind option_bind]. rewrite Hget. cbn [mbind option_bind]. rewrite Z.div_mul by done. split; [done|]. cbn. by rewrite lookup_insert_eq.
Qed.
End store.

(** ** Runs of stores *)
Section run.
  Context (k : Z) (E : Z -> option Z) (T : gmap Z node) (t i : Z) (mp : vmo_mapping) (r b : Z).

(** Why the handler may refuse: the quota of the task, or no frame is free. *)
Definition refused (s : mo) : Prop :=
  (exists tk, mtasks s !! t = Some tk /\ snd (rlimit_check_mem (t_limits tk) 1) < 0) \/
  (exists H, acct k E H (mem s) T /\ all_used E H (mem s) T).

Record stored (w : ustore) (s : mo) (a : Z) (s' : mo) : Prop := {
  st_bytes : (a = 0 /\ wrote s mp w s') \/ (a = -1 /\ (forall v j, object_page s' v j = object_page s v j) /\ refused s);
  st_objects : forall v, v <> m_vmo mp -> vmos s' !! v = vmos s !! v;
  st_maps : g_vmo_task_maps s' = g_vmo_task_maps s;
  st_ptes : forall r' va, is_root T r' -> ~ (r' = r /\ vpn va = vpn (u_va b w)) -> pte (mem s') r' va = pte (mem s) r' va;
  st_seen : forall t2 i2 mp2 tk2 r2 (q : nat), g_vmo_task_maps s' !! (t2, i2) = Some mp2 -> mtasks s' !! t2 = Some tk2 -> t_cr3 tk2 = r2 * PAGE_SIZE ->
    Z.of_nat q < len_pages mp2 ->
    mmu_page r2 (vaddr mp2 + Z.of_nat q * PAGE_SIZE) (mem s') = object_page s' (m_vmo mp2) (m_offset mp2 / 4096 + Z.of_nat q) }.

(** The stores [ws], one after the other. *)
Fixpoint private_run (ws : list ustore) (s : mo) : Prop :=
  match ws with
  | [] => True
  | w :: ws => exists s' a, user_store r (u_va b w) (u_bytes w) s = Some (s', a) /\ stored w s a s' /\ private_run ws s'
  end.

  Hypothesis Hb : vaddr mp = b * PAGE_SIZE.
  Hypothesis Hw : has_flag (m_prot mp) PROT_WRITE = true.

Lemma prot_writable f : has_flag (f * PAGE_SIZE |. prot_to_pte_flags (m_prot mp)) PTE_WRITABLE = true.
Proof using Hw. clear - Hw. rewrite writable_bit, Z.lor_spec. unfold prot_to_pte_flags. rewrite Hw. destruct (has_flag (m_prot mp) PROT_EXEC); by rewrite orb_true_r. Qed.

Lemma stored_now H s w m : cow_inv k E T t i mp r b H (with_mem s m) -> same_ptes (mem s) m T -> wrote s mp w (with_mem s m) -> stored w s 0 (with_mem s m).
Proof using.
  intros Hi Hp Hwr. split; try done; [by left|intros r' va Hr' _; by apply Hp|].
  intros t2 i2 mp2 tk2 r2 q H1 H2 H3 H4. eapply shape_seen; [apply Hi|done..].
Qed.

Lemma stored_copied H s x w f f' s1 : cow_inv k E T t i mp r b H s -> vmos s !! m_vmo mp = Some x -> ustore_ok mp w ->
  span (vmos s) mp !! u_page w = Some (f * PAGE_SIZE) -> copied k E H s T mp x r b f (u_page w) f' s1 ->
  exists m, mmu_store r (u_va b w) (u_bytes w) (mem s1) = Some m /\ stored w s 0 (with_mem s1 m) /\
    cow_inv k E T t i mp r b (fun g => if decide (g = f') then 1%nat else if decide (g = f) then pred (H g) else H g) (with_mem s1 m).
Proof using Hb Hw.
  intros Hi Hx Hok Hp Hco. pose proof (copy_inv k E H s T t i mp x r b f _ f' s1 Hi Hx Hb Hp Hco) as Hi1.
  destruct (copy_entry k E H s T t i mp x r b f _ f' s1 Hi Hx Hb Hp Hco) as [_ He1]. pose proof (copy_pages k E H s T t i mp x r b f _ f' s1 Hi Hx Hb Hp Hco) as Hpg.
  destruct (copy_place k E H s T t i mp x r b f _ Hi Hx Hb Hp) as (Hoff & _). destruct (store_page mp b w Hok) as (_ & _ & Ev).
  pose proof (co_vmos _ _ _ _ _ _ _ _ _ _ _ _ _ Hco) as Evm. set (x' := {| x with pages := _ |}) in Evm.
  assert (span (vmos s1) mp !! u_page w = Some (f' * PAGE_SIZE)) as Hp1.
  { rewrite Evm. unfold x'. rewrite (page_span s mp x f f' (u_page w)) by done. apply list_lookup_insert_eq. by eapply lookup_lt_Some. }
  destruct (store_done k E _ s1 T t i mp x' r b f' w Hi1 ltac:(by rewrite Evm, lookup_insert_eq) Hb Hok Hp1 _ ltac:(rewrite (pte_vpn _ _ _ _ Ev); exact He1) (prot_writable f'))
    as (m & Em & Hi' & Hs' & [Hoth (pg & Hpg0 & Hpg1)]).
  exists m. split; [done|]. split; [|done]. split.
  - left. split; [done|]. split; [intros v j Hne; by rewrite Hoth|]. exists pg. by rewrite <- Hpg.
  - intros v Hv. cbn [vmos with_mem]. by rewrite Evm, lookup_insert_ne.
  - apply (co_maps _ _ _ _ _ _ _ _ _ _ _ _ _ Hco).
  - intros r' va Hr' Hne. cbn [mem with_mem]. rewrite Hs', (co_ptes _ _ _ _ _ _ _ _ _ _ _ _ _ Hco) by done. rewrite bool_decide_eq_false_2; [done|]. by rewrite <- Ev.
  - intros t2 i2 mp2 tk2 r2 q H1 H2 H3 H4. eapply shape_seen; [apply Hi'|done..].
Qed.

Lemma store_step H s w : cow_inv k E T t i mp r b H s -> ustore_ok mp w ->
  exists s' a H', user_store r (u_va b w) (u_bytes w) s = Some (s', a) /\ stored w s a s' /\ cow_inv k E T t i mp r b H' s'.
Proof using Hb Hw.
  intros Hi Hok. pose proof (ci_shape _ _ _ _ _ _ _ _ _ _ Hi) as Hsh. pose proof (ci_map _ _ _ _ _ _ _ _ _ _ Hi) as Hmp.
  destruct (ci_clone _ _ _ _ _ _ _ _ _ _ Hi) as (x & Hx & Hcow). destruct (ci_task _ _ _ _ _ _ _ _ _ _ Hi) as (Hcur & tk & Htk & Hcr).
  destruct (lookup_lt_is_Some_2 (span (vmos s) mp) (u_page w)) as [p Hp]; [pose proof (mapping_length s T t i mp Hsh Hmp); destruct Hok; lia|].
  destruct (map_cell s T t i mp Hsh Hmp) as (_ & _ & _ & _ & _ & _ & _ & _ & _ & _ & _ & _ & _ & _ & Hpl & _).
  destruct (Hpl p ltac:(by eapply list_elem_of_lookup_2)) as (f & -> & _). destruct (copy_place k E H s T t i mp x r b f _ Hi Hx Hb Hp) as (_ & Hb0 & Hbl & Hlt & HT & _).
  destruct (mapped_entry k E H s T t i mp r b f w Hi Hb Hok Hp) as (e & He & Hsw). destruct (store_page mp b w Hok) as (Hdiv & _ & Ev).
  destruct (has_flag e PTE_WRITABLE) eqn:Hwr.
  { destruct (store_done k E H s T t i mp x r b f w Hi Hx Hb Hok Hp e He Hwr) as (m & Em & Hi' & Hs' & Hwrote). exists (with_mem s m), 0, H.
    split; [unfold user_store; by rewrite Em|]. split; [by eapply stored_now|done]. }
  assert (in_u 64 (u_va b w)) as Hu by (unfold u_va, in_u; destruct Hok as (_ & ? & _); lia).
  destruct (pf_dispatch_spec k E H s T t i mp x tk r b f (u_page w) (u_va b w) (ci_referenced _ _ _ _ _ _ _ _ _ _ Hi) Hsh Hmp Hx Htk Hcr Hb Hp Hdiv Hu 7
    eq_refl eq_refl eq_refl Hcur Hw Hcow) as (s1 & a & Er & Hpost).
  assert (user_store r (u_va b w) (u_bytes w) s =
    if a =? 0 then m ← mmu_store r (u_va b w) (u_bytes w) (mem s1); Some (with_mem s1 m, 0) else Some (s1, a)) as ->.
  { unfold user_store, mmu_store, fault_code. rewrite He. cbn [mbind option_bind]. rewrite Hwr. cbn [andb]. rewrite Er. done. }
  destruct Hpost as [[-> (f' & Hco)]|(-> & Henv & Hram & Ha & Hpt & Hwhy)].
  - destruct (stored_copied H s x w f f' s1 Hi Hx Hok Hp Hco) as (m & -> & Hst & Hi'). eexists (with_mem s1 m), 0, _. by split_and!.
  - assert (cow_inv k E T t i mp r b H s1) as Hi1 by (by apply (ci_env k E T t i mp r b H s)). exists s1, (-1), H. split; [done|]. split; [|done].
    split; [|by rewrite (en_vmos _ _ Henv)|by rewrite (en_maps _ _ Henv)|intros r' va Hr' _; by apply Hpt|].
    + right. split; [done|]. split; [intros v j; unfold object_page; by rewrite (en_vmos _ _ Henv), Hram|]. destruct Hwhy; [left; by exists tk|right; exists H; split; [apply Hi|done]].
    + intros t2 i2 mp2 tk2 r2 q H1 H2 H3 H4. eapply shape_seen; [apply Hi1|done..].
Qed.

Lemma private_runs ws : forall H s, cow_inv k E T t i mp r b H s -> Forall (ustore_ok mp) ws -> private_run ws s.
Proof using Hb Hw.
  induction ws as [|w ws IH]; intros H s Hi Hws; [done|]. apply Forall_cons in Hws as [Hok Hws].
  destruct (store_step H s w Hi Hok) as (s' & a & H' & Er & Hst & Hi'). exists s', a. split_and!; try done. by apply (IH H').
Qed.
End run.
