(* ===== verification/VmoProps.v ===== *)
(** * What memory objects promise

    Creation, references, mapping, unmapping, clones and the exit of a task keep the
    references of pages and objects exact, for every sequence of calls.  Mapping and the two
    sides of copy on write do what they should; the accounts of a copy-on-write fault and of
    on-demand pages are wrong, and the last theorems show where that leads. *)
From S2P Require Import Prelude Bytes Pmm StateM Vmm VmmInv VmmMap VmmSpace VmmInit VmmReserve VmmDestroy Rlimit.
From S2P Require Import Vmo VmoPages VmoInv VmoRefs VmoMapping VmoMap VmoCreate VmoCow VmoFault VmoPrivate.
Local Open Scope Z_scope.
Local Open Scope c_scope.

(** ** Sequences of calls *)
Inductive mo_op :=
| Op_create (size flags owner : Z) | Op_ref (v : Z) | Op_unref (v : Z)
| Op_map (fuel : nat) (v t hint offset len prot : Z) | Op_unmap (t va len : Z)
| Op_clone_cow (v owner : Z) | Op_clone_shared (v owner : Z) | Op_cleanup (t : Z).

Definition mo_exec (op : mo_op) : M mo Z :=
  match op with
  | Op_create size flags owner => vmo_create size flags owner
  | Op_ref v => vmo_ref v;; mret 0
  | Op_unref v => vmo_unref v;; mret 0
  | Op_map fuel v t hint offset len prot => vmo_map fuel v t hint offset len prot
  | Op_unmap t va len => vmo_unmap t va len
  | Op_clone_cow v owner => vmo_clone_cow v owner
  | Op_clone_shared v owner => vmo_clone_shared v owner
  | Op_cleanup t => vmo_cleanup_task t;; mret 0
  end.

(** The caller of an operation on an object holds a reference to it; counters have room. *)
Definition holds (E : Z -> option Z) (C : Z -> nat) (s : mo) (v : Z) : Prop :=
  C v <> 0%nat /\ forall x, vmos s !! v = Some x -> refcount x < 2 ^ 32 - 1 /\ room E s x.

(** What callers must respect: objects have their pages from the start and are not device
    memory, the sum of offset and length does not wrap, and an address that is asked for is
    a free one of the lower half. *)
Definition mo_op_ok (E : Z -> option Z) (C : Z -> nat) (s : mo) (op : mo_op) : Prop :=
  match op with
  | Op_create size flags owner => 0 <= size /\ in_u 32 flags /\ has_flag flags VMO_ONDEMAND = false /\ has_flag flags VMO_MMIO = false
  | Op_ref v | Op_clone_cow v _ | Op_clone_shared v _ => holds E C s v
  | Op_unref v => C v <> 0%nat
  | Op_map fuel v t hint offset len prot => holds E C s v /\ 0 <= offset /\ 0 <= len /\ offset + len < 2 ^ 64 /\
      exists tk r, mtasks s !! t = Some tk /\ t_cr3 tk = r * PAGE_SIZE /\ hint_ok (mem s) r hint (len / 4096) fuel
  | Op_unmap _ _ _ => True
  | Op_cleanup t => slot_bad t = false
  end.

(** The references that the callers hold after an operation with the result [r]. *)
Definition caps_after (C : Z -> nat) (op : mo_op) (r : Z) : Z -> nat :=
  match op with
  | Op_create _ _ _ | Op_clone_cow _ _ | Op_clone_shared _ _ => if r =? 0 then C else fun u => if decide (u = r) then 1%nat else C u
  | Op_ref v => add_cap C v
  | Op_unref v => drop_cap C v
  | _ => C
  end.

(** Every call that respects [mo_op_ok] returns, and the accounts are exact before and after. *)
Fixpoint accounted (k : Z) (E : Z -> option Z) (C : Z -> nat) (s : mo) (ops : list mo_op) : Prop :=
  (exists T, mo_inv k E C s T) /\
  match ops with
  | [] => True
  | op :: ops => mo_op_ok E C s op -> exists s' r, mo_exec op s = Some (s', r) /\ accounted k E (caps_after C op r) s' ops
  end.

Lemma clone_step k E C s T v x g owner : mo_inv k E C s T -> forall r s', clone_post k E C s T v x g owner r s' ->
  mo_inv k E (if r =? 0 then C else fun u => if decide (u = r) then 1%nat else C u) s' T.
Proof. intros Hi r s' (_ & _ & H). destruct (Z.eqb_spec r 0); [apply H|apply H]. Qed.

Lemma mo_step k E C s T op : mo_inv k E C s T -> mo_op_ok E C s op ->
  wp (mo_exec op) (fun r s' => exists T', mo_inv k E (caps_after C op r) s' T') s.
Proof.
  intros Hi Hop. destruct op as [size flags owner|v|v|fuel v t hint offset len prot|t va len|v owner|v owner|t]; cbn [mo_exec caps_after mo_op_ok] in *.
  - destruct Hop as (H1 & H2 & H3 & H4). eapply wp_mono; [|by apply (vmo_create_spec k E C s T)]. intros r s' [_ H]. exists T.
    destruct (Z.eqb_spec r 0); [apply H|]. destruct H as (l & _ & _ & _ & _ & _ & H). eapply caps_ext; [|exact H]. intros u. unfold adopt.
    destruct (decide (u = r)); [done|]. by rewrite decide_False by tauto.
  - destruct Hop as [HC Hx]. destruct (mi_caps _ _ _ _ _ Hi v HC) as [x Hv]. destruct (Hx x Hv) as [Hr _]. wp_step.
    eapply wp_mono; [|by apply (mo_ref_spec k E C s T v x)]. intros u s' [_ H]. wp_step. by exists T.
  - wp_step. eapply wp_mono; [|by apply (mo_unref_spec k E C s T v)]. intros u s' [H _]. wp_step. by exists T.
  - destruct Hop as ((HC & Hx) & H1 & H2 & H3 & tk & r & Ht & Hcr & Hh). destruct (mi_caps _ _ _ _ _ Hi v HC) as [x Hv]. destruct (Hx x Hv) as [Hr Hroom].
    eapply wp_mono; [|by apply (vmo_map_spec k E C s T v x t tk r hint offset len prot fuel)]. intros a s' H. unfold map_post in H. destruct (a =? 0).
    + destruct H as (T' & H & _). by exists T'.
    + destruct H as (b & i & T' & _ & H). exists T'. by destruct H.
  - eapply wp_mono; [|by apply (vmo_unmap_spec k E C s T)]. intros a s' [H _]. by exists T.
  - destruct Hop as [HC Hx]. destruct (mi_caps _ _ _ _ _ Hi v HC) as [x Hv]. destruct (Hx x Hv) as [Hr Hroom].
    eapply wp_mono; [|by apply (vmo_clone_cow_spec k E C s T v x)]. intros r s' H. exists T. unfold cow_post in H. destruct (Z.eqb_spec r 0) as [->|Hr0].
    + apply (clone_step k E C s T v x cow_flags owner Hi 0 s' H).
    + destruct H as (s1 & _ & m & -> & H & _). done.
  - destruct Hop as [HC Hx]. destruct (mi_caps _ _ _ _ _ Hi v HC) as [x Hv]. destruct (Hx x Hv) as [Hr Hroom].
    eapply wp_mono; [|by apply (vmo_clone_shared_spec k E C s T v x)]. intros r s' H. exists T. by apply (clone_step k E C s T v x shared_flags owner).
  - wp_step. eapply wp_mono; [|by apply (vmo_cleanup_task_spec k E C s T)]. intros u s' [H _]. wp_step. by exists T.
Qed.


(** C12: mapping a memory object.  Take an object that has its pages from the start and is not
    device memory (on-demand objects, whose mapping may also fail for the quota, are outside
    the invariant), in a state with exact accounts, and a task; let offset plus length not
    wrap, the counters of the object and of its pages have room, and the address be left
    open or ask for free pages of the lower half.  Then [vmo_map] returns.
    On success the answer is the base of a range of free addresses, which shows the pages of
    the object from the offset on with the rights asked for (without writing for a
    copy-on-write clone), all other translations of all spaces and the bytes of all objects
    are as before, the mapping has a slot that was free, and the object one reference more.
    On failure the answer is 0, nothing has changed, and there is a reason: arguments that
    do not fit, no slot, no range of addresses, or no free frame. *)
Theorem vmo_map_correct (k : Z) (E : Z -> option Z) (C : Z -> nat) (s : mo) (T : gmap Z node) (v : Z) (x : vmo) (t : Z) (tk : mtask)
    (r hint offset len prot : Z) (fuel : nat) :
  mo_inv k E C s T -> vmos s !! v = Some x -> mtasks s !! t = Some tk -> t_cr3 tk = r * PAGE_SIZE -> 0 <= offset -> 0 <= len ->
  offset + len < 2 ^ 64 -> refcount x < 2 ^ 32 - 1 -> hint_ok (mem s) r hint (len / 4096) fuel -> room E s x ->
  exists s' a, vmo_map fuel v t hint offset len prot s = Some (s', a) /\
    ((a = 0 /\ exists T', mo_inv k E C s' T' /\ env s s' /\ grows (fun f => (0 < held s f)%nat) (mem s) (mem s') T T' /\
        same_ptes (mem s) (mem s') T /\ map_reason E s s' T' x t r hint offset len prot) \/
     (exists b i T', a = b * PAGE_SIZE /\ a <> 0 /\ map_done k E C s T v x t r offset len prot b i s' T')).
Proof.
  intros Hi Hx Htk Hcr Ho Hl Hs Hr Hh Hroom.
  destruct (vmo_map_spec k E C s T v x t tk r hint offset len prot fuel Hi Hx Htk Hcr Ho Hl Hs Hr Hh Hroom) as (s' & a & Er & Hp).
  exists s', a. split; [done|]. unfold map_post in Hp. destruct (Z.eqb_spec a 0); [by left|right]. destruct Hp as (b & i & T' & -> & Hd). by exists b, i, T'.
Qed.

(** ** Copy on write *)

(** A write fault in a mapping of an object that is not a clone is not handled. *)
Lemma fault_refused s t va err mp x : current_task s = Some t ->
  g_vmo_task_maps s !! (t, vmo_find_map_slot_containing s t (va &. (0xFFFFFFFFFFFFFFFF - 0xFFF))) = Some mp ->
  0 <= vmo_find_map_slot_containing s t (va &. (0xFFFFFFFFFFFFFFFF - 0xFFF)) -> m_vmo mp <> 0 ->
  vmos s !! m_vmo mp = Some x -> has_flag (m_prot mp) PROT_WRITE = true -> has_flag (v_flags x) VMO_COW_CHILD = false ->
  vmo_pf_dispatch va err s = Some (s, -1).
Proof.
  intros Hcur Hmp H0 Hv Hx Hw Hc. enough (wp (vmo_pf_dispatch va err) (fun a s' => s' = s /\ a = -1) s) as (s' & a & Er & -> & ->) by done.
  unfold vmo_pf_dispatch. destruct (_ || _ || _); [by wp_step|]. do 2 wp_step. rewrite Hcur. do 2 wp_step.
  destruct (Z.ltb_spec (vmo_find_map_slot_containing s t (va &. (0xFFFFFFFFFFFFFFFF - 0xFFF))) 0); [lia|].
  wp_step. exists s, mp. split; [unfold mapping_at; by rewrite Hmp|]. cbv beta. rewrite Hw. cbn [negb]. wp_step. unfold vmo_check.
  destruct (Z.eqb_spec (m_vmo mp) 0); [done|]. wp_step. apply (wp_deref _ x); [done|]. wp_step. destruct (npages x >? 0); cbn [negb]; [|by wp_step].
  wp_step. apply (wp_deref _ x); [done|]. rewrite Hc. cbn [negb]. by wp_step.
Qed.

(** The state after a copy-on-write clone [v] of [src]. *)
Record cow_cloned (k : Z) (E : Z -> option Z) (C : Z -> nat) (s : mo) (T : gmap Z node) (src : Z) (x : vmo) (owner v : Z) (s' : mo) : Prop := {
  cc_vmos : vmos s' = <[src := recount x (refcount x + 1)]>
    (<[v := Vmo (cow_flags (v_flags x)) (g_next_vmo_id s) (size_bytes x) (npages x) 1 (pages x) src owner 0]> (vmos s));
  cc_new : v = next_vmo s;
  cc_env : g_vmo_task_maps s' = g_vmo_task_maps s /\ mtasks s' = mtasks s /\ current_task s' = current_task s;
  cc_inv : mo_inv k E (fun u => if decide (u = v) then 1%nat else C u) s' T;
  cc_bytes : forall f, (0 < held s f)%nat -> ram (mem s') !! f = ram (mem s) !! f;
  cc_other : forall r va, is_root T r -> ~ covers s src r va -> pte (mem s') r va = pte (mem s) r va;
  cc_ro : forall r va, covers s src r va -> read_only (mem s') r va }.

Lemma cow_done k E C s T src x owner v s' : mo_inv k E C s T -> vmos s !! src = Some x -> v <> 0 -> cow_post k E C s T src x owner v s' -> cow_cloned k E C s T src x owner v s'.
Proof.
  intros Hi Hx Hv Hp. unfold cow_post in Hp. destruct (Z.eqb_spec v 0); [done|]. destruct Hp as (s1 & (Hso & Hram & Hp1) & m & -> & Hi' & Hg & Hlow & Hro).
  destruct (Z.eqb_spec v 0); [done|]. destruct Hp1 as (Ev & Evm & Hi1). destruct Hso as [Sm St Sc Sg Sp].
  assert (forall r va, covers s1 src r va <-> covers s src r va) as Hcov by (intros r va; unfold covers; by rewrite Sm, St).
  split; try done.
  - intros f Hf. cbn. rewrite <- Hram. apply (gr_data _ _ _ _ _ Hg).
    + apply held_live in Hf as (u & y & Hy & Hc). apply held_live. rewrite Evm. destruct (decide (u = src)) as [->|].
      * exists src, (recount x (refcount x + 1)). rewrite lookup_insert_eq. split; [done|]. cbn. congruence.
      * exists u, y. rewrite !lookup_insert_ne; [done| |done]. pose proof (mi_addr _ _ _ _ _ Hi u y Hy). lia.
    + by apply (ac_frame _ _ _ _ _ (mi_acct _ _ _ _ _ Hi)).
  - intros r va Hr Hn. cbn. rewrite <- (pte_ram (mem s) (mem s1)) by done. destruct (Hlow r va Hr) as [E1|[Hc _]]; [done|]. by rewrite Hcov in Hc.
  - intros r va Hc. apply Hro. by apply Hcov.
Qed.

(** C14: a copy-on-write clone.  For a live object whose counters have room, [vmo_clone_cow]
    returns.  It answers 0 and leaves objects and translations as they were when the object
    cache or the heap refuses; otherwise the next address, where there is now an object with
    the pages of the source, the source as its parent and one reference.  Afterwards no
    mapping of the source, in any task, can be written through; every other translation of
    every space, and the bytes of every object, are as before, and the accounts are exact. *)
Theorem clone_cow_correct (k : Z) (E : Z -> option Z) (C : Z -> nat) (s : mo) (T : gmap Z node) (src : Z) (x : vmo) (owner : Z) :
  mo_inv k E C s T -> vmos s !! src = Some x -> room E s x -> refcount x < 2 ^ 32 - 1 ->
  exists s' v, vmo_clone_cow src owner s = Some (s', v) /\
    ((v = 0 /\ mo_inv k E C s' T /\ vmos s' = vmos s /\ same_ptes (mem s) (mem s') T) \/
     (v <> 0 /\ cow_cloned k E C s T src x owner v s')).
Proof.
  intros Hi Hx Hroom Hr. destruct (vmo_clone_cow_spec k E C s T src x owner Hi Hx Hroom Hr) as (s' & v & Er & Hp). exists s', v. split; [done|].
  destruct (decide (v = 0)) as [->|Hv]; [left|right; split; [done|by apply cow_done]]. destruct Hp as (Hso & _ & Hi' & Ev). split_and!; try done. apply Hso.
Qed.

(** C39: after the clone the owner of the source cannot write any more.  Let the task that runs
    have a writable mapping of an object that is no copy-on-write clone itself (the handler
    would serve one).  After a successful [vmo_clone_cow] of that object the pages of the
    mapping are read-only, and a write to any of them is refused by [vmo_pf_dispatch], which
    leaves the state as it is. *)
Theorem cow_parent_write_refused (k : Z) (E : Z -> option Z) (C : Z -> nat) (s : mo) (T : gmap Z node) (src : Z) (x : vmo) (owner : Z)
    (t i : Z) (mp : vmo_mapping) (tk : mtask) (r b : Z) (q : nat) (va err : Z) (s' : mo) (v : Z) :
  mo_inv k E C s T -> vmos s !! src = Some x -> room E s x -> refcount x < 2 ^ 32 - 1 -> has_flag (v_flags x) VMO_COW_CHILD = false ->
  g_vmo_task_maps s !! (t, i) = Some mp -> m_vmo mp = src -> has_flag (m_prot mp) PROT_WRITE = true ->
  current_task s = Some t -> mtasks s !! t = Some tk -> t_cr3 tk = r * PAGE_SIZE -> vaddr mp = b * PAGE_SIZE ->
  Z.of_nat q < len_pages mp -> va / PAGE_SIZE = b + Z.of_nat q -> in_u 64 va ->
  vmo_clone_cow src owner s = Some (s', v) -> v <> 0 ->
  read_only (mem s') r va /\ vmo_pf_dispatch va err s' = Some (s', -1).
Proof.
  intros Hi Hx Hroom Hr Hnc Hmp Hv Hw Hcur Htk Hcr Hb Hq Hva Hu Hrun Hv0.
  pose proof (wp_elim _ _ _ _ _ (vmo_clone_cow_spec k E C s T src x owner Hi Hx Hroom Hr) Hrun) as Hp.
  destruct (cow_done k E C s T src x owner v s' Hi Hx Hv0 Hp) as [Evm Ev (Em & Et & Ec) Hi' _ _ Hro].
  assert (vmos s' !! src = Some (recount x (refcount x + 1))) as Hx' by (by rewrite Evm, lookup_insert_eq).
  rewrite <- Em in Hmp. rewrite <- Et in Htk. pose proof (mapping_length _ _ _ _ _ (mi_shape _ _ _ _ _ Hi') Hmp) as Hl.
  destruct (lookup_lt_is_Some_2 (span (vmos s') mp) q ltac:(lia)) as [p Hp'].
  destruct (map_cell _ _ _ _ _ (mi_shape _ _ _ _ _ Hi') Hmp) as (_ & _ & _ & b' & _ & _ & _ & _ & Hb' & _ & Hbl & Hm0 & _ & _ & Hpl & _). assert (b' = b) as -> by lia.
  destruct (Hpl p) as (f & -> & _); [by eapply list_elem_of_lookup_2|]. split.
  - apply Hro. exists t, i, mp, tk, q. rewrite <- Em, <- Et. split_and!; try done. unfold vpn. rewrite Hva, Hb, <- Z.mul_add_distr_r, Z.div_mul by lia. done.
  - pose proof (fault_slot _ _ _ _ _ t i mp (recount x (refcount x + 1)) tk r b f q va (referenced_held _ _ _ _ _ Hi') (mi_shape _ _ _ _ _ Hi') Hmp ltac:(by rewrite Hv) Htk Hcr Hb Hp' Hva Hu) as Hs.
    apply (fault_refused s' t va err mp (recount x (refcount x + 1))); rewrite ?(fault_page b q va Hva Hu), ?Hs; try done; [congruence| |congruence].
    destruct (mk_slot _ _ _ _ (mi_map _ _ _ _ _ Hi' t i mp Hmp)). lia.
Qed.

(** C13: the stores of a task to its copy-on-write clone stay private.  Start in a state with
    exact accounts, in which the task that runs has the only mapping of a clone, writable but
    with read-only translations, as [vmo_map] leaves it.  Then any sequence of stores of the
    task to pages of the mapping runs: the first store to a page goes through the fault
    handler [vmo_pf_dispatch], later ones go straight to the frame.  Each store either
    succeeds, and changes the bytes at its place in the clone's page and no byte of any
    other page of any object, the parent's among them; or it is refused with -1, because
    the quota refuses or no frame is free, and changes no byte.  All other objects, the
    mappings and every translation but that of the page are left alone, and every mapping
    of every task keeps showing the pages of its object. *)
Theorem cow_write_private (k : Z) (E : Z -> option Z) (C : Z -> nat) (s : mo) (T : gmap Z node) (t i : Z) (mp : vmo_mapping) (x : vmo)
    (tk : mtask) (r b : Z) (ws : list ustore) :
  mo_inv k E C s T -> g_vmo_task_maps s !! (t, i) = Some mp -> vmos s !! m_vmo mp = Some x ->
  has_flag (v_flags x) VMO_COW_CHILD = true -> has_flag (m_prot mp) PROT_WRITE = true ->
  (forall j mp', g_vmo_task_maps s !! j = Some mp' -> m_vmo mp' = m_vmo mp -> j = (t, i)) ->
  current_task s = Some t -> mtasks s !! t = Some tk -> t_cr3 tk = r * PAGE_SIZE -> vaddr mp = b * PAGE_SIZE ->
  (forall q : nat, Z.of_nat q < len_pages mp -> read_only (mem s) r ((b + Z.of_nat q) * PAGE_SIZE)) ->
  Forall (ustore_ok mp) ws -> private_run k E T t mp r b ws s.
Proof.
  intros Hi Hmp Hx Hcow Hw Hsole Hcur Htk Hcr Hb Hro Hws. apply (private_runs k E T t i mp r b Hb Hw ws (held s)); [|done].
  eapply ci_start; try done. by exists x.
Qed.

(** Two accounts of one memory agree on the frames that are no tables. *)
Lemma acct_count k E H s T f : acct k E H s T -> T !! f = None -> (0 < H f)%nat -> count_of (phys_pages s) f = default 0 (E f) + Z.of_nat (H f).
Proof.
  intros [(m & Hinv & Hm) _] HT Hf. pose proof (vi_pmm _ _ _ _ Hinv) as Hrep. pose proof (Hm f HT) as Ef.
  assert (m !! f = Some (default 0 (E f) + Z.of_nat (H f))) as Em.
  { rewrite Ef. unfold plus. destruct (E f), (H f); try done. lia. }
  rewrite (rp_count _ _ _ Hrep) by (by apply (rp_range _ _ _ Hrep) in Em as [? _]). by rewrite Em.
Qed.

(** C40: the accounts of a copy-on-write fault are wrong.  In the situation of a write to a
    copy-on-write clone, when [vmo_pf_dispatch] succeeds, the new frame has one reference
    although two users will drop one each, the array of the clone and the mapping; no
    distribution of references to callers and no placement of tables makes the accounts
    exact again.  So the frame is freed by the first of vmo_unmap and vmo_free, while the
    other still uses it. *)
Theorem cow_fault_miscounts (k : Z) (E : Z -> option Z) (C : Z -> nat) (s : mo) (T : gmap Z node) (t i : Z) (mp : vmo_mapping) (x : vmo)
    (tk : mtask) (r b f : Z) (q : nat) (va err : Z) (s' : mo) :
  mo_inv k E C s T -> g_vmo_task_maps s !! (t, i) = Some mp -> vmos s !! m_vmo mp = Some x -> mtasks s !! t = Some tk -> t_cr3 tk = r * PAGE_SIZE ->
  vaddr mp = b * PAGE_SIZE -> span (vmos s) mp !! q = Some (f * PAGE_SIZE) -> va / PAGE_SIZE = b + Z.of_nat q -> in_u 64 va ->
  has_flag err 0x4 = true -> has_flag err 0x2 = true -> has_flag err 0x1 = true -> current_task s = Some t ->
  has_flag (m_prot mp) PROT_WRITE = true -> has_flag (v_flags x) VMO_COW_CHILD = true -> vmo_pf_dispatch va err s = Some (s', 0) ->
  exists f', copied k E (held s) s T mp x r b f q f' s' /\ count_of (phys_pages (mem s')) f' = 1 /\ (2 <= held s' f')%nat /\
    forall k' C' T', ~ mo_inv k' E C' s' T'.
Proof.
  intros Hi Hmp Hx Htk Hcr Hb Hq Hva Hu He1 He2 He3 Hcur Hw Hcow Hrun.
  pose proof (wp_elim _ _ _ _ _ (pf_dispatch_spec k E (held s) s T t i mp x tk r b f q va (referenced_held _ _ _ _ _ Hi) (mi_shape _ _ _ _ _ Hi) Hmp Hx Htk Hcr Hb Hq Hva Hu err He1 He2 He3 Hcur Hw Hcow) Hrun) as Hp.
  destruct Hp as [[_ (f' & Hco)]|[Ha _]]; [|done]. exists f'. split; [done|]. destruct Hco as [(HE & Hh & HT & Hf') Evm Em _ _ Ha _ _].
  destruct (fault_cell k E (held s) s T t i mp x tk r b f q (referenced_held _ _ _ _ _ Hi) (mi_shape _ _ _ _ _ Hi) Hmp Hx Htk Hcr Hb Hq) as (_ & _ & _ & _ & _ & Hget & _).
  set (x' := {| x with pages := upd (pages x) (m_offset mp / 4096 + Z.of_nat q) (f' * PAGE_SIZE) |}) in *.
  assert (count_of (phys_pages (mem s')) f' = 1) as Hcount.
  { rewrite (acct_count k E _ _ T f' Ha HT) by (rewrite decide_True by done; lia). rewrite decide_True, HE by done. done. }
  assert (vmos s' !! m_vmo mp = Some x') as Hx' by (by rewrite Evm, lookup_insert_eq).
  assert (2 <= held s' f')%nat as H2.
  { apply (held_two s' (t, i) mp q f' (f' * PAGE_SIZE)); [by rewrite Em| |done]. unfold span in Hq |- *. rewrite Hx in Hq. rewrite Hx'.
    apply lookup_take_Some in Hq as [_ Hlt]. apply lookup_take_Some. split; [|done]. rewrite lookup_drop.
    pose proof (get_upd_eq (pages x) _ (f' * PAGE_SIZE) (get_Some_bound _ _ _ Hget)) as Hg. unfold get in Hg. destruct (_ <? 0); [done|].
    destruct (mk_part _ _ _ _ (mi_map _ _ _ _ _ Hi t i mp Hmp)) as (_ & _ & Hoff & _).
    by replace (Z.to_nat (m_offset mp / 4096) + q)%nat with (Z.to_nat (m_offset mp / 4096 + Z.of_nat q)) by lia. }
  split; [done|]. split; [done|]. intros k' C' T' Hi'. pose proof (mi_acct _ _ _ _ _ Hi') as Ha'.
  destruct (ac_frame _ _ _ _ _ Ha' f' ltac:(lia)) as (_ & HT' & _). rewrite (acct_count k' E _ _ T' f' Ha' HT'), HE in Hcount by lia. cbn in Hcount. lia.
Qed.

(** ** A small machine: the task 1 runs in the space of [VmmDestroy] *)
Definition demo_limits : rtask := Rtask 0 0 0 0 0 0 [] 0 0 0 0 0 0 0 0 0.
Definition demo_mo : mo := Mo demo_space ∅ 1 1 ∅ {[1 := Mtask (4 * PAGE_SIZE) demo_limits]} (Some 1) (replicate 20 true) [].

(** The first page of an object. *)
Definition first_page (v : Z) : M mo Z := x ← deref v; page_at x 0.
Definition page_count (p : Z) : M mo Z := gets (fun s => pmm_page_get_refcount (phys_pages (mem s)) p).

(** A page of [v] is mapped and unmapped again in the task 1; then a new object is made. *)
Definition remade (v base : Z) : M mo (Z * Z * Z) :=
  vmo_unmap 1 base 4096;;
  p ← first_page v;
  n ← page_count p;
  w ← vmo_create 4096 VMO_ZEROED 2;
  p' ← first_page w;
  mret (p, n, p').

Definition ondemand_run : M mo (Z * Z * Z) :=
  v ← vmo_create 4096 (VMO_ONDEMAND |. VMO_ZEROED) 1;
  base ← vmo_map 10 v 1 0 0 4096 (PROT_READ |. PROT_WRITE);
  remade v base.

Definition cow_run : M mo (Z * Z * Z) :=
  src ← vmo_create 4096 VMO_ZEROED 1;
  v ← vmo_clone_cow src 1;
  base ← vmo_map 10 v 1 0 0 4096 (PROT_READ |. PROT_WRITE);
  vmo_pf_dispatch base 7;;
  remade v base.


(** The kernel has a page at this address; a new task asks to map an object there. *)
Abbreviation KERNEL_PAGE := 0xFFFF800000000000.
Definition hint_run : M mo (Z * Z * Z) :=
  on_mem (vmm_map_page (Some Kernel_space) KERNEL_PAGE (3 * PAGE_SIZE) (PTE_PRESENT |. PTE_WRITABLE));;
  before ← on_mem (vmm_get_pte (2 * PAGE_SIZE) KERNEL_PAGE);
  sp ← on_mem vmm_create_address_space;
  cr3 ← on_mem (gets (fun s => match sp with Some sp => u64 (top_level s sp - g_hhdm_offset s) | None => 0 end));
  modify (fun s => {| s with mtasks := <[2 := Mtask cr3 demo_limits]> (mtasks s) |});;
  v ← vmo_create 4096 VMO_ZEROED 1;
  p ← first_page v;
  vmo_map 10 v 2 KERNEL_PAGE 0 4096 (PROT_READ |. PROT_WRITE);;
  after ← on_mem (vmm_get_pte (2 * PAGE_SIZE) KERNEL_PAGE);
  mret (before, after, p).

(** A page that is mapped and unmapped once loses its last reference while an object still
    owns it: on demand, because vmo_map takes one reference for object and mapping
    together; after a copy-on-write fault, because the handler does the same.  The page
    goes to the next object that is made, so two objects share it. *)
Theorem page_reused_while_owned :
  (exists p, p <> 0 /\ option_map snd (ondemand_run demo_mo) = Some (p, 0, p)) /\
  (exists p, p <> 0 /\ option_map snd (cow_run demo_mo) = Some (p, 0, p)).
Proof. split; [exists 20480|exists 36864]; (split; [done|by vm_compute]). Qed.

(** The address that a task asks for is not checked: the kernel's page at [KERNEL_PAGE],
    not accessible for users before, is replaced in the kernel's own space by the page of
    the task's object, writable for users. *)
Theorem kernel_page_taken : exists before after p, option_map snd (hint_run demo_mo) = Some (before, after, p) /\
  before &. VMO_PTE_PHYS_MASK = 3 * PAGE_SIZE /\ has_flag before PTE_USER = false /\
  after &. VMO_PTE_PHYS_MASK = p /\ p <> 3 * PAGE_SIZE /\ has_flag after PTE_USER = true /\ has_flag after PTE_WRITABLE = true.
Proof. exists 12291, 9223372036854812679, 36864. split; [by vm_compute|]. by vm_compute. Qed.

(** ** Device memory *)

(** Ranges that do not wrap are accepted when they lie in a base address register. *)
Theorem mmio_range_exact (devs : list pci_entry) (phys size : Z) : 0 <= phys -> 0 < size -> phys + size < 2 ^ 64 ->
  Forall (Forall (fun bar => 0 <= bar.1 /\ 0 <= bar.2 /\ bar.1 + bar.2 < 2 ^ 64)) devs ->
  mmio_vmo_validate_range devs phys size = true <->
    exists dev base len, dev ∈ devs /\ (base, len) ∈ dev /\ len <> 0 /\ base <= phys /\ phys + size <= base + len.
Proof.
  intros Hp Hs Hw Hd. unfold mmio_vmo_validate_range. destruct (Z.eqb_spec size 0); [lia|]. rewrite existsb_exists. split.
  - intros (dev & Hin & ([base len] & Hbar & Hc)%existsb_exists). apply list_elem_of_In in Hin, Hbar. exists dev, base, len.
    rewrite Forall_forall in Hd. specialize (Hd _ Hin). rewrite Forall_forall in Hd. specialize (Hd _ Hbar). cbn in Hd. unfold bar_contains in Hc.
    destruct (Z.eqb_spec len 0); [done|]. apply andb_true_iff in Hc as [H1 H2]. rewrite !wrap_small in H2 by (unfold in_u; lia). split_and!; try done; lia.
  - intros (dev & base & len & Hin & Hbar & H0 & H1 & H2). exists dev. split; [by apply list_elem_of_In|]. apply existsb_exists. exists (base, len).
    split; [by apply list_elem_of_In|]. rewrite Forall_forall in Hd. specialize (Hd _ Hin). rewrite Forall_forall in Hd. specialize (Hd _ Hbar). cbn in Hd.
    unfold bar_contains. destruct (Z.eqb_spec len 0); [done|]. rewrite !wrap_small by (unfold in_u; lia). apply andb_true_iff. lia.
Qed.

(** A range that ends at the top of the address space wraps, and is accepted by any device. *)
Theorem mmio_range_wraps (base len size : Z) : 0 <= base -> 0 < len -> base + len < 2 ^ 64 -> 0 < size -> base <= 2 ^ 64 - size ->
  mmio_vmo_validate_range [[(base, len)]] (2 ^ 64 - size) size = true.
Proof.
  intros H1 H2 H3 H4 H5. unfold mmio_vmo_validate_range, bar_contains. destruct (Z.eqb_spec size 0); [lia|]. cbn [existsb].
  destruct (Z.eqb_spec len 0); [lia|]. replace (2 ^ 64 - size + size) with (2 ^ 64) by lia. change (u64 (2 ^ 64)) with 0.
  rewrite wrap_small by (unfold in_u; lia). destruct (Z.geb_spec (2 ^ 64 - size) base), (Z.leb_spec 0 (base + len)); (done || lia).
Qed.

(** ** Evaluation *)
Definition demo_E (f : Z) : option Z := demo_space_used !! f.

Lemma demo_mo_inv : exists k, mo_inv k demo_E (fun _ => 0%nat) demo_mo demo_space_tables.
Proof.
  destruct demo_space_inv as (k & Hinv). exists k. assert (forall f, held demo_mo f = 0%nat) as Hh by done.
  split; try done.
  - split; [|intros f Hf; rewrite Hh in Hf; lia]. exists demo_space_used. split; [done|]. intros f _. rewrite Hh. unfold plus, demo_E.
    destruct (demo_space_used !! f); [|done]. cbn. f_equal. lia.
  - intros t tk Ht. exists 4. cbn in Ht. apply lookup_singleton_Some in Ht as [_ <-]. split; [done|]. split; [apply lookup_insert_eq|by vm_compute].
Qed.

Local Opaque demo_mo.

(** What a run shows: the objects, the mappings and the answer. *)
Definition seen (r : option (mo * Z)) := option_map (fun r => (vmos r.1, g_vmo_task_maps r.1, r.2)) r.

(** A state of the machine whose accounts are exact, with the objects [V] and the mappings [P]. *)
Record ready (k : Z) (C : Z -> nat) (T : gmap Z node) (s : mo) (V : gmap Z vmo) (P : gmap (Z * Z) vmo_mapping) : Prop := {
  re_inv : mo_inv k demo_E C s T;
  re_vmos : vmos s = V;
  re_maps : g_vmo_task_maps s = P;
  re_tasks : mtasks s !! 1 = Some (Mtask (4 * PAGE_SIZE) demo_limits);
  re_current : current_task s = Some 1 }.

Definition demo_vmo (flags id refs parent : Z) : vmo := Vmo flags id 4096 1 refs [5 * PAGE_SIZE] parent 1 0.
Definition demo_base : Z := 0x100000000.
Definition demo_mapping (v : Z) : vmo_mapping := Vmo_mapping (demo_base * PAGE_SIZE) v 0 1 3.

Lemma demo_base_u : in_u 64 (demo_base * PAGE_SIZE).
Proof. unfold in_u, demo_base. lia. Qed.

Lemma demo_room k C T s V P flags id refs parent : ready k C T s V P -> (held (Mo demo_space V 1 1 P ∅ None [] []) 5 < 10)%nat ->
  room demo_E s (demo_vmo flags id refs parent).
Proof.
  intros [_ Ev Em _ _] Hh f Hf. cbn [pages demo_vmo cnt] in Hf |- *. destruct (decide (5 * PAGE_SIZE = f * PAGE_SIZE)); [|lia]. assert (f = 5) as -> by lia.
  change (held s 5) with (held (Mo demo_space (vmos s) 1 1 (g_vmo_task_maps s) ∅ None [] []) 5). rewrite Ev, Em.
  assert (default 0 (demo_E 5) = 0) as -> by by vm_compute. lia.
Qed.

(** An object of one zeroed page. *)
Lemma demo_object : exists k C s, vmo_create 4096 VMO_ZEROED 1 demo_mo = Some (s, 1) /\
  ready k C demo_space_tables s {[1 := demo_vmo 1 1 1 0]} ∅ /\ forall va, pte (mem s) 4 va = None.
Proof.
  destruct demo_mo_inv as (k & Hi). destruct (vmo_create_spec k demo_E _ demo_mo _ 4096 VMO_ZEROED 1 Hi) as (s & v & Er & Hso & Hp); [lia|by vm_compute..|].
  assert (seen (vmo_create 4096 VMO_ZEROED 1 demo_mo) = Some ({[1 := demo_vmo 1 1 1 0]}, ∅, 1)) as Hv by by vm_compute. rewrite Er in Hv. injection Hv as Ev Em ->.
  destruct Hp as (l & _ & _ & _ & _ & _ & Hi'). exists k, (adopt (fun _ => 0%nat) 1 0), s. split; [exact Er|]. destruct Hso as [_ St Sc _ Sp]. split.
  - split; [exact Hi'|exact Ev|exact Em|rewrite St; by vm_compute|rewrite Sc; by vm_compute].
  - intros va. rewrite (Sp 4 va); [exact (demo_space_pte va)|apply lookup_insert_eq].
Qed.

(** The object with a copy-on-write clone. *)
Lemma demo_clone : exists k C s1 s, vmo_create 4096 VMO_ZEROED 1 demo_mo = Some (s1, 1) /\ vmo_clone_cow 1 1 s1 = Some (s, 2) /\
  ready k C demo_space_tables s (<[2 := demo_vmo 8 2 1 1]> {[1 := demo_vmo 1 1 2 0]}) ∅ /\ forall va, pte (mem s) 4 va = None.
Proof.
  destruct demo_object as (k & C & s1 & E1 & Hre & Hp). pose proof Hre as [Hi Ev Em Et Ec].
  destruct (vmo_clone_cow_spec k demo_E C s1 _ 1 (demo_vmo 1 1 1 0) 1 Hi) as (s & v & Er & Hc);
    [rewrite Ev; apply lookup_singleton_eq|eapply demo_room; [exact Hre|vm_compute; lia]|by vm_compute|].
  assert (seen ((v ← vmo_create 4096 VMO_ZEROED 1; vmo_clone_cow v 1) demo_mo) = Some (<[2 := demo_vmo 8 2 1 1]> {[1 := demo_vmo 1 1 2 0]}, ∅, 2)) as Hv by by vm_compute.
  unfold mbind, M_bind in Hv. rewrite E1, Er in Hv. injection Hv as Ev' Em' ->.
  destruct (cow_done k demo_E C s1 demo_space_tables 1 (demo_vmo 1 1 1 0) 1 2 s Hi) as [_ _ (_ & St & Sc) Hi' _ Ho _]; [rewrite Ev; apply lookup_singleton_eq|done|done|].
  eexists k, _, s1, s. split; [exact E1|]. split; [exact Er|]. split; [split; [exact Hi'|done|done|by rewrite St|by rewrite Sc]|].
  intros va. rewrite Ho; [apply Hp|apply lookup_insert_eq|]. intros (t & i & mp & tk & q & Hm & _). by rewrite Em in Hm.
Qed.

(** In a space without pages an object is mapped for reading and writing. *)
Lemma demo_map k C T s V v x : ready k C T s V ∅ -> (forall va, pte (mem s) 4 va = None) -> V !! v = Some x -> refcount x < 100 -> room demo_E s x ->
  forall s' a, vmo_map 10 v 1 0 0 4096 3 s = Some (s', a) -> a <> 0 -> exists T', ready k C T' s' (vmos s') (g_vmo_task_maps s').
Proof.
  intros [Hi Ev Em Et Ec] Hp Hx Hr Hroom s' a Hrun Ha. assert (hint_ok (mem s) 4 0 (4096 / 4096) 10) as Hh by (left; rewrite user_ptes_none by exact Hp; cbn; lia).
  pose proof (vmo_map_spec k demo_E C s T v x 1 _ 4 0 0 4096 3 10 Hi ltac:(by rewrite Ev) Et eq_refl ltac:(lia) ltac:(lia) ltac:(lia) ltac:(lia) Hh Hroom) as Hw.
  pose proof (wp_elim _ _ _ _ _ Hw Hrun) as Hm. unfold map_post in Hm. destruct (Z.eqb_spec a 0); [done|]. destruct Hm as (b & i & T' & _ & Hd). exists T'.
  destruct (md_tasks _ _ _ _ _ _ _ _ _ _ _ _ _ _ _ _ Hd) as [Mt Mc]. split; [by destruct Hd|done|done|by rewrite Mt|by rewrite Mc].
Qed.

(** The object is mapped in the task. *)
Lemma demo_mapped : exists k C T s, ready k C T s {[1 := demo_vmo 1 1 2 0]} {[(1, 0) := demo_mapping 1]} /\
  (v ← vmo_create 4096 VMO_ZEROED 1; vmo_map 10 v 1 0 0 4096 3;; mret 0) demo_mo = Some (s, 0).
Proof.
  destruct demo_object as (k & C & s1 & E1 & Hre & Hp).
  assert (seen ((v ← vmo_create 4096 VMO_ZEROED 1; vmo_map 10 v 1 0 0 4096 3) demo_mo) =
    Some ({[1 := demo_vmo 1 1 2 0]}, {[(1, 0) := demo_mapping 1]}, demo_base * PAGE_SIZE)) as Hv by by vm_compute.
  unfold mbind, M_bind in Hv |- *. rewrite E1 in Hv |- *. destruct (vmo_map 10 1 1 0 0 4096 3 s1) as [[s a]|] eqn:Er; [|done]. injection Hv as Ev Em ->.
  destruct (demo_map k C _ s1 _ 1 (demo_vmo 1 1 1 0) Hre Hp) with (s' := s) (a := demo_base * PAGE_SIZE) as [T HT];
    [apply lookup_singleton_eq|by vm_compute|eapply demo_room; [exact Hre|vm_compute; lia]|exact Er|done|].
  exists k, C, T, s. rewrite Ev, Em in HT. by split.
Qed.

(** The copy-on-write clone is mapped in the task. *)
Lemma demo_child : exists k C T s, ready k C T s (<[2 := demo_vmo 8 2 2 1]> {[1 := demo_vmo 1 1 2 0]}) {[(1, 0) := demo_mapping 2]} /\
  (v ← vmo_create 4096 VMO_ZEROED 1; w ← vmo_clone_cow v 1; vmo_map 10 w 1 0 0 4096 3;; mret 0) demo_mo = Some (s, 0).
Proof.
  destruct demo_clone as (k & C & s1 & s2 & E1 & E2 & Hre & Hp).
  assert (seen ((v ← vmo_create 4096 VMO_ZEROED 1; w ← vmo_clone_cow v 1; vmo_map 10 w 1 0 0 4096 3) demo_mo) =
    Some (<[2 := demo_vmo 8 2 2 1]> {[1 := demo_vmo 1 1 2 0]}, {[(1, 0) := demo_mapping 2]}, demo_base * PAGE_SIZE)) as Hv by by vm_compute.
  unfold mbind, M_bind in Hv |- *. rewrite E1, E2 in Hv |- *. destruct (vmo_map 10 2 1 0 0 4096 3 s2) as [[s a]|] eqn:Er; [|done]. injection Hv as Ev Em ->.
  destruct (demo_map k C _ s2 _ 2 (demo_vmo 8 2 1 1) Hre Hp) with (s' := s) (a := demo_base * PAGE_SIZE) as [T HT];
    [apply lookup_insert_eq|by vm_compute|eapply demo_room; [exact Hre|vm_compute; lia]|exact Er|done|].
  exists k, C, T, s. rewrite Ev, Em in HT. by split.
Qed.


Lemma vmo_map_correct_witness : exists k C s s' b i T', vmo_map 10 1 1 0 0 4096 3 s = Some (s', b * PAGE_SIZE) /\
  map_done k demo_E C s demo_space_tables 1 (demo_vmo 1 1 1 0) 1 4 0 4096 3 b i s' T'.
Proof.
  destruct demo_object as (k & C & s & E1 & Hre & Hp). pose proof Hre as [Hi Ev Em Et Ec].
  destruct (vmo_map_correct k demo_E C s demo_space_tables 1 (demo_vmo 1 1 1 0) 1 (Mtask (4 * PAGE_SIZE) demo_limits) 4 0 0 4096 3 10 Hi) as (s' & a & Er & Hres);
    [rewrite Ev; apply lookup_singleton_eq|exact Et|done|lia|lia|lia|by vm_compute| |eapply demo_room; [exact Hre|vm_compute; lia]|].
  { left. rewrite user_ptes_none by exact Hp. cbn. lia. }
  assert (option_map snd ((v ← vmo_create 4096 VMO_ZEROED 1; vmo_map 10 v 1 0 0 4096 3) demo_mo) = Some (demo_base * PAGE_SIZE)) as Hv by by vm_compute.
  unfold mbind, M_bind in Hv. rewrite E1, Er in Hv. injection Hv as ->. destruct Hres as [[Ha _]|(b & i & T' & Hb & _ & Hd)]; [done|].
  exists k, C, s, s', b, i, T'. split; [by rewrite <- Hb|exact Hd].
Defined.

Lemma clone_cow_correct_witness : exists k C T s s', vmo_clone_cow 1 1 s = Some (s', 2) /\ cow_cloned k demo_E C s T 1 (demo_vmo 1 1 2 0) 1 2 s'.
Proof.
  destruct demo_mapped as (k & C & T & s & Hre & Hs). pose proof Hre as [Hi Ev Em Et Ec].
  destruct (clone_cow_correct k demo_E C s T 1 (demo_vmo 1 1 2 0) 1 Hi) as (s' & v & Er & Hres);
    [rewrite Ev; apply lookup_singleton_eq|eapply demo_room; [exact Hre|vm_compute; lia]|by vm_compute|].
  assert (option_map snd ((v ← vmo_create 4096 VMO_ZEROED 1; vmo_map 10 v 1 0 0 4096 3;; mret 0) demo_mo ≫= fun r => vmo_clone_cow 1 1 r.1) = Some 2) as Hv by by vm_compute.
  rewrite Hs in Hv. cbn [mbind option_bind fst] in Hv. rewrite Er in Hv. injection Hv as ->. exists k, C, T, s, s'. split; [done|]. by destruct Hres as [[Hz _]|[_ Hres]].
Defined.

Lemma cow_parent_write_refused_witness : exists s s', vmo_clone_cow 1 1 s = Some (s', 2) /\ read_only (mem s') 4 (demo_base * PAGE_SIZE) /\
  vmo_pf_dispatch (demo_base * PAGE_SIZE) 7 s' = Some (s', -1).
Proof.
  destruct demo_mapped as (k & C & T & s & Hre & Hs). pose proof Hre as [Hi Ev Em Et Ec].
  assert (option_map snd ((v ← vmo_create 4096 VMO_ZEROED 1; vmo_map 10 v 1 0 0 4096 3;; mret 0) demo_mo ≫= fun r => vmo_clone_cow 1 1 r.1) = Some 2) as Hv by by vm_compute.
  rewrite Hs in Hv. cbn [mbind option_bind fst] in Hv. destruct (vmo_clone_cow 1 1 s) as [[s' v]|] eqn:Er; [|done]. injection Hv as ->. exists s, s'. split; [done|].
  apply (cow_parent_write_refused k demo_E C s T 1 (demo_vmo 1 1 2 0) 1 1 0 (demo_mapping 1) (Mtask (4 * PAGE_SIZE) demo_limits) 4 demo_base 0 (demo_base * PAGE_SIZE) 7 s' 2 Hi);
    [rewrite Ev; apply lookup_singleton_eq|eapply demo_room; [exact Hre|vm_compute; lia]|by vm_compute|by vm_compute|rewrite Em; apply lookup_singleton_eq|reflexivity|by vm_compute
    |exact Ec|exact Et|reflexivity|reflexivity|by vm_compute|by vm_compute|exact demo_base_u|exact Er|done].
Defined.

Lemma cow_write_private_witness : exists k C T s, ready k C T s (<[2 := demo_vmo 8 2 2 1]> {[1 := demo_vmo 1 1 2 0]}) {[(1, 0) := demo_mapping 2]} /\
  private_run k demo_E T 1 (demo_mapping 2) 4 demo_base [Ustore 0 0 [7]; Ustore 0 100 [1; 2; 3]] s.
Proof.
  destruct demo_child as (k & C & T & s & Hre & Hs). pose proof Hre as [Hi Ev Em Et Ec]. exists k, C, T, s. split; [exact Hre|].
  apply (cow_write_private k demo_E C s T 1 0 (demo_mapping 2) (demo_vmo 8 2 2 1) (Mtask (4 * PAGE_SIZE) demo_limits) 4 demo_base _ Hi);
    [rewrite Em; apply lookup_singleton_eq|rewrite Ev; apply lookup_insert_eq|by vm_compute|by vm_compute| |exact Ec|exact Et|done|done| |].
  - intros j mp' Hj _. rewrite Em in Hj. by apply lookup_singleton_Some in Hj as [<- _].
  - intros q Hq. cbn in Hq. assert (q = 0%nat) as -> by lia. rewrite Z.add_0_r. intros e He.
    assert (option_map (fun p => pte (mem p.1) 4 (demo_base * PAGE_SIZE))
      ((v ← vmo_create 4096 VMO_ZEROED 1; w ← vmo_clone_cow v 1; vmo_map 10 w 1 0 0 4096 3;; mret 0) demo_mo) = Some (Some (5 * PAGE_SIZE + 5 + 2 ^ 63))) as Hp
      by (vm_compute; reflexivity).
    rewrite Hs in Hp. cbn [option_map fst] in Hp. rewrite He in Hp. injection Hp as ->. by vm_compute.
  - repeat constructor; cbn; unfold in_u; lia.
Defined.

Lemma cow_fault_miscounts_witness : exists k T s s' f', vmo_pf_dispatch (demo_base * PAGE_SIZE) 7 s = Some (s', 0) /\
  copied k demo_E (held s) s T (demo_mapping 2) (demo_vmo 8 2 2 1) 4 demo_base 5 0 f' s' /\ count_of (phys_pages (mem s')) f' = 1 /\ (2 <= held s' f')%nat /\
  forall k' C' T', ~ mo_inv k' demo_E C' s' T'.
Proof.
  destruct demo_child as (k & C & T & s & Hre & Hs). pose proof Hre as [Hi Ev Em Et Ec].
  assert (option_map snd ((v ← vmo_create 4096 VMO_ZEROED 1; w ← vmo_clone_cow v 1; vmo_map 10 w 1 0 0 4096 3;; mret 0) demo_mo ≫=
    fun r => vmo_pf_dispatch (demo_base * PAGE_SIZE) 7 r.1) = Some 0) as Hv by by vm_compute.
  rewrite Hs in Hv. cbn [mbind option_bind fst] in Hv. destruct (vmo_pf_dispatch (demo_base * PAGE_SIZE) 7 s) as [[s' a]|] eqn:Er; [|done]. injection Hv as ->.
  destruct (cow_fault_miscounts k demo_E C s T 1 0 (demo_mapping 2) (demo_vmo 8 2 2 1) (Mtask (4 * PAGE_SIZE) demo_limits) 4 demo_base 5 0 (demo_base * PAGE_SIZE) 7 s' Hi) as (f' & Hp);
    [rewrite Em; apply lookup_singleton_eq|rewrite Ev; apply lookup_insert_eq|exact Et|done|done|rewrite Ev; by vm_compute|by vm_compute|exact demo_base_u|by vm_compute|by vm_compute|by vm_compute|exact Ec|by vm_compute|by vm_compute|exact Er|].
  exists k, T, s, s', f'. split; [exact Er|exact Hp].
Defined.
