(* ===== verification/Stream.v ===== *)
(** * Submission streams (kernel/io)

    A stream is a pair of rings in shared memory: a process writes requests (SQEs) into
    one and reads completions (CQEs) from the other.  Submission takes a snapshot of each
    request, checks it against the manifest and the pledges of the process, resolves the
    memory object it names, passes the I/O limit and queues a job; a worker runs the jobs
    and posts their results.

    Streams, jobs and memory objects live at addresses; a freed address is absent from its
    map, so following a dangling pointer is [None].  The rings are bytes of pages that the
    process can overwrite at any time.  Answers of the allocator, of channels and of the
    file system are streams in the state; the trace records what is consumed, posted,
    lost, sent and cancelled. *)
From S2P Require Import Prelude Bytes StateM CapToken CapObject HandleTable Pledge CapSystem Runq Rlimit.
Local Open Scope Z_scope.
Local Open Scope c_scope.

Abbreviation STREAM_PAGE_SIZE := 4096.
Abbreviation STREAM_SQE_SIZE := 64.
Abbreviation STREAM_CQE_SIZE := 32.
Abbreviation STREAM_MIN_ENTRIES := 16.
Abbreviation STREAM_MAX_SQ_ENTRIES := 4096.
Abbreviation STREAM_MAX_CQ_ENTRIES := 8192.
Abbreviation STREAM_ENTRIES_OFFSET := 4096.
Abbreviation STREAM_STATE_ACTIVE := 1.
Abbreviation STREAM_STATE_DESTROYING := 2.
Abbreviation STREAM_STATE_DESTROYED := 3.
Abbreviation JOB_STATE_QUEUED := 1.
Abbreviation JOB_STATE_RUNNING := 2.
Abbreviation JOB_STATE_CANCELING := 3.
Abbreviation OP_READ_VMO := 1.
Abbreviation OP_WRITE_VMO := 2.
Abbreviation CQE_FLAG_CANCELED := 1.
Abbreviation CAP_V2_ECANCELED := (-125).
Abbreviation CHAN_MSG_INLINE_MAX := 256.
Abbreviation PROC_MAX_FDS := 16.
Abbreviation VMO_MAX_SIZE := 0x10000000.

(** ** Entries *)
Record sqe := Sqe {
  sqe_op : Z; sqe_flags : Z; fd_or_handle : Z; sqe_offset : Z; sqe_len : Z;
  dest_vmo_handle : Z; dest_vmo_offset : Z; sqe_cookie : Z
}.

Definition sqe_of (b : list Z) : sqe :=
  Sqe (u16 (field b 0 2)) (u16 (field b 2 2)) (u32 (field b 4 4)) (u64 (field b 8 8)) (u64 (field b 16 8)) (u32 (field b 24 4))
    (u64 (field b 32 8)) (u64 (field b 40 8)).

Record cqe := Cqe { cqe_cookie : Z; cqe_result : Z; cqe_flags : Z }.

Definition cqe_bytes (c : cqe) : list Z := le 8 (cqe_cookie c) ++ le 8 (u64 (cqe_result c)) ++ le 4 (cqe_flags c) ++ replicate 12 0.
Definition cqe_of (b : list Z) : cqe := Cqe (field b 0 8) (swrap 64 (field b 8 8)) (field b 16 4).

(** ** The manifest *)
Inductive dispatcher := Dispatch_read_vmo | Dispatch_write_vmo | Dispatch_sendmsg | Dispatch_open_stub | Dispatch_stat_stub | Dispatch_fsync_stub | Dispatch_close_stub.

Record op_schema := Op_schema { schema_op : Z; required_pledge_mask : Z; schema_dispatcher : dispatcher }.

Definition op_schema_io_v1 : list op_schema :=
  [ Op_schema 1 (1 <<. 0) Dispatch_read_vmo; Op_schema 2 (1 <<. 1) Dispatch_write_vmo; Op_schema 3 (1 <<. 5) Dispatch_sendmsg;
    Op_schema 4 (1 <<. 0) Dispatch_open_stub; Op_schema 5 (1 <<. 0) Dispatch_stat_stub; Op_schema 6 (1 <<. 1) Dispatch_fsync_stub;
    Op_schema 7 (1 <<. 10) Dispatch_close_stub ].

Definition g_manifest_registry : list (Z * list op_schema) :=
  [ (0x731C934A2C6A037B, op_schema_io_v1); (0xD4D893156B1C7693, []); (0x8CE1B2F34A88A610, []); (0xDDE77B853FE8322C, []);
    (0x94373FD4B7C1ED43, []); (0xB9BB0AACFACA5045, []); (0x0A8D84AA8BE2E342, []); (0xACC7E516EE71F1B3, []);
    (0x907BAAAD52A368B3, []); (0x19111BEED5E4736D, []); (0xA48A3EFE1139CA79, []); (0xF120F11A7BA1870E, []);
    (0xFB1E9BA25588A4A9, []); (0x671270DA03116FF6, []) ].

Definition stream_lookup_manifest (type_hash : Z) : option (list op_schema) :=
  snd <$> List.find (fun '(h, ops) => (h =? type_hash) && (Z.of_nat (length ops) >? 0)) g_manifest_registry.

(** ** State *)

(** A page is absent until its first use. *)
Record vmo := Vmo { v_refcount : Z; v_size : Z; v_pages : list (option (list Z)) }.

(** [jobs_head] is the list through [job_next]; the manifest is its table of operations. *)
Record stream := Stream {
  s_state : Z; s_id : Z; s_ops : list op_schema; sq_vmo : Z; cq_vmo : Z; sq_entries : Z; cq_entries : Z;
  sq_tail_kernel : Z; cq_head_kernel : Z; notify_tok_raw : Z; notify_caller_pid : Z; s_owner_pid : Z;
  s_refcount : Z; active_jobs : Z; total_submitted : Z; total_completed : Z; rejected_submissions : Z; jobs_head : list Z
}.

Record stream_job := Stream_job { j_state : Z; j_stream : Z; sqe_copy : sqe; submitter_pid : Z; dest_vmo : option Z }.

Record chan_endpoint := Chan_endpoint { ep_writes : bool; ep_channel : option Z }.

Inductive io_event :=
| Consumed (s cookie : Z)
| Posted (s : Z) (c : cqe)
| Lost (s : Z) (c : cqe)
| Rejected (pid s op err : Z)
| Wake_reaper (s : Z)
| Wake_worker
| Notified (ch s total : Z)
| Sent (ch pid : Z) (payload : list Z)
| Canceled (owner s count : Z).

(** [io_fds] gives the file behind a process's descriptor, [io_files] its bytes; a job
    waiting for tokens is on its process's list in [io_pending_jobs]. *)
Record io := Io {
  io_world : world; io_streams : gmap Z stream; io_jobs : gmap Z stream_job; io_vmos : gmap Z vmo;
  io_limits : gmap Z rtask; io_pending_jobs : gmap Z (list Z); g_worker_queue : list Z;
  io_ends : gmap Z chan_endpoint; io_fds : gmap (Z * Z) Z; io_files : gmap Z (list Z);
  g_next_stream_id : Z; io_next : Z; io_allocs : list bool; io_answers : list Z; io_trace : list io_event
}.

Definition io_emit (es : list io_event) : M io unit := modify (fun s => {| s with io_trace := io_trace s ++ es |}).
Definition alloc : M io bool :=
  ok ← gets (fun s => default true (head (io_allocs s))); modify (fun s => {| s with io_allocs := tl (io_allocs s) |});; mret ok.
Definition answer : M io Z :=
  r ← gets (fun s => default 0 (head (io_answers s))); modify (fun s => {| s with io_answers := tl (io_answers s) |});; mret r.

Definition follow {A} (f : io -> gmap Z A) (i : Z) : M io A := fun s => x ← f s !! i; Some (s, x).
Definition set_vmos (m : gmap Z vmo) (s : io) : io := {| s with io_vmos := m |}.
Definition set_streams (m : gmap Z stream) (s : io) : io := {| s with io_streams := m |}.
Definition set_jobs (m : gmap Z stream_job) (s : io) : io := {| s with io_jobs := m |}.

Definition on_stream (i : Z) (f : stream -> stream) : M io unit :=
  s ← follow io_streams i; modify (fun st => set_streams (<[i := f s]> (io_streams st)) st).
Definition on_vmo (i : Z) (f : vmo -> vmo) : M io unit :=
  v ← follow io_vmos i; modify (fun st => set_vmos (<[i := f v]> (io_vmos st)) st).
Definition on_job (i : Z) (f : stream_job -> stream_job) : M io unit :=
  j ← follow io_jobs i; modify (fun st => set_jobs (<[i := f j]> (io_jobs st)) st).

Definition fresh_address : M io Z := i ← gets io_next; modify (fun s => {| s with io_next := i + 1 |});; mret i.

(** ** Memory objects (kernel/mm/vmo.c) *)
Fixpoint alloc_pages (n : nat) : M io bool :=
  match n with O => mret true | S n => ok ← alloc; if ok : bool then alloc_pages n else mret false end.

(** The eager, zeroed kind. *)
Definition vmo_create (size_bytes : Z) : M io (option Z) :=
  if (size_bytes =? 0) || negb (size_bytes &. 0xFFF =? 0) || (size_bytes >? VMO_MAX_SIZE) then mret None else
  let npages := Z.to_nat (size_bytes / 4096) in
  ok ← alloc; if negb ok then mret None else
  ok ← alloc; if negb ok then mret None else
  ok ← alloc_pages npages; if negb ok then mret None else
  i ← fresh_address;
  modify (fun s => set_vmos (<[i := Vmo 1 size_bytes (replicate npages (Some zero_page))]> (io_vmos s)) s);;
  mret (Some i).

Definition vmo_ref (i : Z) : M io unit := on_vmo i (fun v => {| v with v_refcount := u32 (v_refcount v + 1) |}).

Definition vmo_unref (i : Z) : M io unit :=
  v ← follow io_vmos i;
  let r := u32 (v_refcount v - 1) in
  if r =? 0 then modify (fun s => set_vmos (delete i (io_vmos s)) s)
  else on_vmo i (fun v => {| v with v_refcount := r |}).

(** The page and the offset in it; [None] is NULL. *)
Definition vmo_kva_at (v : vmo) (byte_offset : Z) : option (Z * Z) :=
  let page_idx := u32 (byte_offset / STREAM_PAGE_SIZE) in
  if page_idx >=? Z.of_nat (length (v_pages v)) then None else
  match get (v_pages v) page_idx with Some (Some _) => Some (page_idx, byte_offset mod STREAM_PAGE_SIZE) | _ => None end.

(** An access through such a pointer; it faults when it leaves the page. *)
Definition load (i page off : Z) (n : nat) : M io (list Z) :=
  v ← follow io_vmos i;
  match get (v_pages v) page with
  | Some (Some p) => if off + Z.of_nat n <=? STREAM_PAGE_SIZE then mret (take n (drop (Z.to_nat off) p)) else diverge
  | _ => diverge
  end.

Definition store (i page off : Z) (b : list Z) : M io unit :=
  v ← follow io_vmos i;
  match get (v_pages v) page with
  | Some (Some p) =>
      if off + Z.of_nat (length b) <=? STREAM_PAGE_SIZE
      then on_vmo i (fun v => {| v with v_pages := upd (v_pages v) page (Some (splice p (Z.to_nat off) b)) |})
      else diverge
  | _ => diverge
  end.

(** ** Rings *)
Definition stream_sqe_at (s : stream) (v : vmo) (idx : Z) : option (Z * Z) :=
  if idx >=? sq_entries s then None else vmo_kva_at v (STREAM_ENTRIES_OFFSET + idx * STREAM_SQE_SIZE).

Definition stream_cqe_at (s : stream) (v : vmo) (idx : Z) : option (Z * Z) :=
  if idx >=? cq_entries s then None else vmo_kva_at v (STREAM_ENTRIES_OFFSET + idx * STREAM_CQE_SIZE).

Definition ring_head (i : Z) : M io Z := b ← load i 0 0 4; mret (u32 (of_le b)).
Definition ring_tail (i : Z) : M io Z := b ← load i 0 128 4; mret (u32 (of_le b)).

Definition is_power_of_two_u32 (x : Z) : bool := negb (x =? 0) && (x &. u32 (x - 1) =? 0).

Definition ring_vmo_size (entries entry_size : Z) : Z :=
  let payload := u64 (entries * entry_size) in
  u64 (STREAM_PAGE_SIZE + (u64 (payload + STREAM_PAGE_SIZE - 1) &. (0xFFFFFFFFFFFFFFFF - (STREAM_PAGE_SIZE - 1)))).

(** ** References *)
Definition stream_ref (i : Z) : M io unit := on_stream i (fun s => {| s with s_refcount := u32 (s_refcount s + 1) |}).

Definition stream_free (i : Z) : M io unit :=
  s ← follow io_streams i;
  vmo_unref (sq_vmo s);;
  vmo_unref (cq_vmo s);;
  modify (fun st => set_streams (delete i (io_streams st)) st).

Definition stream_unref (i : Z) : M io unit :=
  s ← follow io_streams i;
  let r := u32 (s_refcount s - 1) in
  on_stream i (fun s => {| s with s_refcount := r |});;
  if r =? 0 then stream_free i else mret tt.

(** ** Completions *)
Definition clear_notify (i tok_raw : Z) : M io unit :=
  on_stream i (fun s => if notify_tok_raw s =? tok_raw then {| s with notify_tok_raw := 0 |} else s).

(** The message of a notification carries the stream's number and its total. *)
Definition stream_notify_channel (i : Z) : M io Z :=
  s ← follow io_streams i;
  let tok_raw := notify_tok_raw s in
  if tok_raw =? 0 then mret 0 else
  st ← gets id;
  match cap_token_resolve (reg (io_world st)) (notify_caller_pid s) tok_raw RIGHT_SEND with
  | None => clear_notify i tok_raw;; mret CAP_V2_EPIPE
  | Some obj =>
      if negb (kind obj =? CAP_KIND_CHANNEL) || (kind_data obj =? 0) then clear_notify i tok_raw;; mret CAP_V2_EPIPE else
      ep ← follow io_ends (kind_data obj);
      if negb (ep_writes ep) then clear_notify i tok_raw;; mret CAP_V2_EPIPE else
      match ep_channel ep with
      | None => mret CAP_V2_EPIPE
      | Some ch =>
          match sched_get_task (io_world st) (notify_caller_pid s) with
          | None => mret CAP_V2_EPIPE
          | Some _ =>
              r ← answer;
              (if r =? 0 then io_emit [Notified ch (s_id s) (total_completed s)] else mret tt);;
              (if r =? CAP_V2_EPIPE then clear_notify i tok_raw else mret tt);;
              mret r
          end
      end
  end.

Definition stream_post_cqe (i cookie result flags : Z) : M io unit :=
  s ← follow io_streams i;
  let c := Cqe cookie result flags in
  let cur_head := cq_head_kernel s in
  cur_tail ← ring_tail (cq_vmo s);
  if u32 (cur_head - cur_tail) >=? cq_entries s then io_emit [Lost i c] else
  v ← follow io_vmos (cq_vmo s);
  match stream_cqe_at s v (cur_head &. (cq_entries s - 1)) with
  | None => io_emit [Lost i c]
  | Some (page, off) =>
      store (cq_vmo s) page off (cqe_bytes c);;
      store (cq_vmo s) 0 0 (le 4 (u32 (cur_head + 1)));;
      on_stream i (fun s => {| s with cq_head_kernel := u32 (cur_head + 1); total_completed := u64 (total_completed s + 1) |});;
      io_emit [Posted i c; Wake_reaper i];;
      stream_notify_channel i;;
      mret tt
  end.

Definition unlink (job : Z) (l : list Z) : list Z :=
  match find_index (fun x => x =? job) l with Some k => delete k l | None => l end.

Definition stream_complete_job (job result : Z) : M io unit :=
  j ← follow io_jobs job;
  let i := j_stream j in
  let canceling := j_state j =? JOB_STATE_CANCELING in
  on_stream i (fun s => {| s with jobs_head := unlink job (jobs_head s);
                                  active_jobs := if active_jobs s >? 0 then active_jobs s - 1 else active_jobs s |});;
  stream_post_cqe i (sqe_cookie (sqe_copy j)) (if canceling then CAP_V2_ECANCELED else result) (if canceling then CQE_FLAG_CANCELED else 0);;
  (match dest_vmo j with Some v => vmo_unref v | None => mret tt end);;
  modify (fun s => set_jobs (delete job (io_jobs s)) s);;
  stream_unref i.

(** ** Submission (kernel/io/submit.c) *)
Definition stream_find_op (s : stream) (op : Z) : option op_schema := List.find (fun o => schema_op o =? op) (s_ops s).

(** The scan stops at the first empty place of the array. *)
Fixpoint in_audience (pid : Z) (l : list Z) : bool :=
  match l with
  | [] => false
  | a :: l => if a =? PID_NONE then false else if (a =? PID_PUBLIC) || (a =? pid) then true else in_audience pid l
  end.

Definition resolve_dest_vmo (pid obj_idx : Z) : M io (option Z) :=
  st ← gets id;
  match cap_object_get (reg (io_world st)) obj_idx with
  | None => mret None
  | Some obj =>
      if negb (kind obj =? CAP_KIND_VMO) then mret None else
      if negb (in_audience pid (take 8 (audience_set obj))) then mret None else
      if kind_data obj =? 0 then mret None else
      vmo_ref (kind_data obj);;
      mret (Some (kind_data obj))
  end.

Definition reject_sqe (i pid : Z) (q : sqe) (err : Z) : M io unit :=
  on_stream i (fun s => {| s with rejected_submissions := u64 (rejected_submissions s + 1) |});;
  io_emit [Consumed i (sqe_cookie q); Rejected pid i (sqe_op q) err];;
  stream_post_cqe i (sqe_cookie q) err 0.

Definition stream_worker_enqueue (job : Z) : M io unit :=
  modify (fun s => {| s with g_worker_queue := g_worker_queue s ++ [job] |});; io_emit [Wake_worker].

Definition limits (s : io) (pid : Z) : rtask := default (rlimit_init_defaults None) (io_limits s !! pid).
Definition pending (s : io) (pid : Z) : list Z := default [] (io_pending_jobs s !! pid).

(** The gate of bulk operations: [true] when the job has to wait for tokens. *)
Definition gate_io (pid : Z) (q : sqe) : M io bool :=
  if ((sqe_op q =? OP_READ_VMO) || (sqe_op q =? OP_WRITE_VMO)) && (sqe_len q >? 0) then
    t ← gets (fun s => limits s pid);
    let '(t, rc) := rlimit_check_io t (sqe_len q) in
    modify (fun s => {| s with io_limits := <[pid := t]> (io_limits s) |});;
    mret (rc =? RLIMIT_EAGAIN_INTERNAL)
  else mret false.

(** The job enters the stream's list, and the worker's queue or the list of those that wait. *)
Definition link_job (i pid : Z) (q : sqe) (dest : option Z) : M io unit :=
  job ← fresh_address;
  io_emit [Consumed i (sqe_cookie q)];;
  modify (fun s => set_jobs (<[job := Stream_job JOB_STATE_QUEUED i q pid dest]> (io_jobs s)) s);;
  stream_ref i;;
  on_stream i (fun s => {| s with jobs_head := job :: jobs_head s; active_jobs := u32 (active_jobs s + 1);
                                  total_submitted := u64 (total_submitted s + 1) |});;
  wait ← gate_io pid q;
  if wait : bool
  then modify (fun s => {| s with io_pending_jobs := <[pid := job :: pending s pid]> (io_pending_jobs s) |})
  else stream_worker_enqueue job.

(** One request; [false] if there is no memory for its job. *)
Definition submit_one (i pid pledge : Z) (q : sqe) : M io bool :=
  s ← follow io_streams i;
  match stream_find_op s (sqe_op q) with
  | None => reject_sqe i pid q CAP_V2_EPROTOTYPE;; mret true
  | Some schema =>
      if negb (required_pledge_mask schema =? 0) && (pledge &. required_pledge_mask schema =? 0)
      then reject_sqe i pid q CAP_V2_EPLEDGE;; mret true else
      let bulk := (sqe_op q =? OP_READ_VMO) || (sqe_op q =? OP_WRITE_VMO) in
      dest ← (if bulk then resolve_dest_vmo pid (dest_vmo_handle q) else mret None);
      if bulk && bool_decide (dest = None) then reject_sqe i pid q CAP_V2_EBADF;; mret true else
      ok ← alloc;
      if negb ok then (match dest with Some v => vmo_unref v | None => mret tt end);; mret false
      else link_job i pid q dest;; mret true
  end.

Fixpoint submit_loop (n : nat) (i pid pledge sq_head processed : Z) : M io Z :=
  match n with
  | O => mret processed
  | S n =>
      s ← follow io_streams i;
      let slot_k := sq_tail_kernel s in
      if slot_k =? sq_head then mret processed else
      v ← follow io_vmos (sq_vmo s);
      match stream_sqe_at s v (slot_k &. (sq_entries s - 1)) with
      | None => mret processed
      | Some (page, off) =>
          b ← load (sq_vmo s) page off 64;
          on_stream i (fun s => {| s with sq_tail_kernel := u32 (slot_k + 1) |});;
          ok ← submit_one i pid pledge (sqe_of b);
          if ok : bool then submit_loop n i pid pledge sq_head (processed + 1)
          else
            on_stream i (fun s => {| s with sq_tail_kernel := slot_k |});;
            mret processed
      end
  end.

Definition stream_submit_batch (i n_to_submit pid : Z) : M io Z :=
  s ← follow io_streams i;
  if negb (s_state s =? STREAM_STATE_ACTIVE) then mret CAP_V2_EBADF else
  if n_to_submit >? sq_entries s then mret CAP_V2_EINVAL else
  st ← gets id;
  match sched_get_task (io_world st) pid with
  | None => mret CAP_V2_EBADF
  | Some t =>
      sq_head ← ring_head (sq_vmo s);
      processed ← submit_loop (Z.to_nat n_to_submit) i pid (pledge_mask t) sq_head 0;
      s ← follow io_streams i;
      store (sq_vmo s) 0 128 (le 4 (sq_tail_kernel s));;
      mret processed
  end.

(** ** The I/O limit (kernel/resource/rlimit.c) *)

(** The drain loop over a process's waiting jobs. *)
Fixpoint drain_jobs (jobs : list Z) (tokens : Z) : M io (Z * list Z) :=
  match jobs with
  | [] => mret (tokens, [])
  | job :: rest =>
      j ← follow io_jobs job;
      if tokens <? swrap 64 (sqe_len (sqe_copy j)) then mret (tokens, jobs) else
      stream_worker_enqueue job;;
      drain_jobs rest (swrap 64 (tokens - swrap 64 (sqe_len (sqe_copy j))))
  end.

Definition refill_io_tokens (pid : Z) : M io unit :=
  t ← gets (fun s => limits s pid);
  let rate := io_rate_bytes_per_sec t in
  if rate =? 0 then mret tt else
  let tokens := swrap 64 (io_tokens t + refill_amount rate) in
  let tokens := if tokens >? swrap 64 rate then swrap 64 rate else tokens in
  jobs ← gets (fun s => pending s pid);
  r ← drain_jobs jobs tokens;
  modify (fun s => {| s with io_limits := <[pid := {| t with io_tokens := fst r |}]> (io_limits s);
                             io_pending_jobs := <[pid := snd r]> (io_pending_jobs s) |}).

(** ** Dispatchers (kernel/io/dispatch_fs.c, dispatch_ipc.c) *)
Definition node_for_submitter_fd (pid fd : Z) : M io (option Z) :=
  s ← gets id;
  mret (if (swrap 32 fd <? 0) || (swrap 32 fd >=? PROC_MAX_FDS) then None else
        match sched_get_task (io_world s) pid with Some _ => io_fds s !! (pid, swrap 32 fd) | None => None end).

(** A read or write of a file: an error of the file system, or the bytes there are. *)
Definition node_read (node off n : Z) : M io (Z * list Z) :=
  r ← answer;
  file ← follow io_files node;
  let b := take (Z.to_nat n) (drop (Z.to_nat off) file) in
  mret (if r <? 0 then (r, []) else (Z.of_nat (length b), b)).

Definition node_write (node off : Z) (b : list Z) : M io Z :=
  r ← answer;
  file ← follow io_files node;
  if r <? 0 then mret r else
  let file := file ++ replicate (Z.to_nat off + length b - length file) 0 in
  modify (fun s => {| s with io_files := <[node := splice file (Z.to_nat off) b]> (io_files s) |});;
  mret (Z.of_nat (length b)).

(** The copy loops go page by page, so the number of pages bounds them. *)
Fixpoint read_into_loop (fuel : nat) (node dst s_off d_off remaining total : Z) : M io Z :=
  match fuel with
  | O => diverge
  | S fuel =>
      if remaining <=? 0 then mret total else
      v ← follow io_vmos dst;
      let page_off := d_off mod 4096 in
      let chunk := Z.min (4096 - page_off) remaining in
      match vmo_kva_at v d_off with
      | None => mret total
      | Some (page, off) =>
          nb ← node_read node s_off chunk;
          let n := fst nb in
          if n <? 0 then mret n else
          if n =? 0 then mret total else
          store dst page off (snd nb);;
          if n <? chunk then mret (total + n)
          else read_into_loop fuel node dst (u64 (s_off + chunk)) (u64 (d_off + chunk)) (remaining - chunk) (total + n)
      end
  end.

Definition read_into_vmo (node s_off dst d_off len : Z) : M io Z :=
  v ← follow io_vmos dst;
  if u64 (d_off + len) >? v_size v then mret CAP_V2_EINVAL
  else read_into_loop (S (S (length (v_pages v)))) node dst s_off d_off len 0.

Fixpoint write_from_loop (fuel : nat) (node src d_off s_off remaining total : Z) : M io Z :=
  match fuel with
  | O => diverge
  | S fuel =>
      if remaining <=? 0 then mret total else
      v ← follow io_vmos src;
      let page_off := s_off mod 4096 in
      let chunk := Z.min (4096 - page_off) remaining in
      match vmo_kva_at v s_off with
      | None => mret total
      | Some (page, off) =>
          b ← load src page off (Z.to_nat chunk);
          n ← node_write node d_off b;
          if n <? 0 then mret n else
          if n =? 0 then mret total else
          if n <? chunk then mret (total + n)
          else write_from_loop fuel node src (u64 (d_off + chunk)) (u64 (s_off + chunk)) (remaining - chunk) (total + n)
      end
  end.

Definition write_from_vmo (node d_off src s_off len : Z) : M io Z :=
  v ← follow io_vmos src;
  if u64 (s_off + len) >? v_size v then mret CAP_V2_EINVAL
  else write_from_loop (S (S (length (v_pages v)))) node src d_off s_off len 0.

Definition dispatch_rw (transfer : Z -> sqe -> Z -> M io Z) (job : Z) : M io unit :=
  j ← follow io_jobs job;
  if j_state j =? JOB_STATE_CANCELING then stream_complete_job job CAP_V2_ECANCELED else
  match dest_vmo j with
  | None => stream_complete_job job CAP_V2_EBADF
  | Some v =>
      node ← node_for_submitter_fd (submitter_pid j) (fd_or_handle (sqe_copy j));
      match node with
      | None => stream_complete_job job CAP_V2_EBADF
      | Some node => r ← transfer node (sqe_copy j) v; stream_complete_job job r
      end
  end.

Definition dispatch_read_vmo : Z -> M io unit :=
  dispatch_rw (fun node q v => read_into_vmo node (sqe_offset q) v (dest_vmo_offset q) (sqe_len q)).
Definition dispatch_write_vmo : Z -> M io unit :=
  dispatch_rw (fun node q v => write_from_vmo node (sqe_offset q) v (dest_vmo_offset q) (sqe_len q)).

Definition resolve_channel (pid obj_idx : Z) : M io (option Z) :=
  st ← gets id;
  match cap_object_get (reg (io_world st)) obj_idx with
  | None => mret None
  | Some obj =>
      if negb (kind obj =? CAP_KIND_CHANNEL) then mret None else
      if negb (in_audience pid (take 8 (audience_set obj))) then mret None else
      if kind_data obj =? 0 then mret None else
      ep ← follow io_ends (kind_data obj);
      mret (if ep_writes ep then ep_channel ep else None)
  end.

Fixpoint copy_from_loop (fuel : nat) (i off remaining : Z) : M io (list Z) :=
  match fuel with
  | O => diverge
  | S fuel =>
      if remaining <=? 0 then mret [] else
      v ← follow io_vmos i;
      let chunk := Z.min (4096 - off mod 4096) remaining in
      match vmo_kva_at v off with
      | None => mret []
      | Some (page, o) =>
          b ← load i page o (Z.to_nat chunk);
          rest ← copy_from_loop fuel i (u64 (off + chunk)) (remaining - chunk);
          mret (b ++ rest)
      end
  end.

Definition copy_from_vmo (i src_offset max : Z) : M io (list Z) :=
  v ← follow io_vmos i;
  if (max =? 0) || (src_offset >=? v_size v) then mret [] else
  let max := if u64 (src_offset + max) >? v_size v then u32 (v_size v - src_offset) else max in
  copy_from_loop (S (S (length (v_pages v)))) i src_offset max.

Definition dispatch_sendmsg (job : Z) : M io unit :=
  j ← follow io_jobs job;
  if j_state j =? JOB_STATE_CANCELING then stream_complete_job job CAP_V2_ECANCELED else
  ch ← resolve_channel (submitter_pid j) (fd_or_handle (sqe_copy j));
  match ch with
  | None => stream_complete_job job CAP_V2_EBADF
  | Some ch =>
      st ← gets id;
      match sched_get_task (io_world st) (submitter_pid j) with
      | None => stream_complete_job job CAP_V2_EBADF
      | Some _ =>
          payload ← (match dest_vmo j with
                     | Some v => if sqe_len (sqe_copy j) >? 0
                                 then copy_from_vmo v (dest_vmo_offset (sqe_copy j)) (Z.min (u32 (sqe_len (sqe_copy j))) CHAN_MSG_INLINE_MAX)
                                 else mret []
                     | None => mret []
                     end);
          r ← answer;
          (if r =? 0 then io_emit [Sent ch (submitter_pid j) payload] else mret tt);;
          stream_complete_job job (if r =? 0 then Z.of_nat (length payload) else r)
      end
  end.

Definition dispatch_stub (job : Z) : M io unit := stream_complete_job job (-38).

Definition dispatch_fsync_stub (job : Z) : M io unit :=
  j ← follow io_jobs job;
  node ← node_for_submitter_fd (submitter_pid j) (fd_or_handle (sqe_copy j));
  match node with
  | None => stream_complete_job job (-9)
  | Some _ => rc ← answer; stream_complete_job job rc
  end.

Definition dispatch (d : dispatcher) (job : Z) : M io unit :=
  match d with
  | Dispatch_read_vmo => dispatch_read_vmo job
  | Dispatch_write_vmo => dispatch_write_vmo job
  | Dispatch_sendmsg => dispatch_sendmsg job
  | Dispatch_fsync_stub => dispatch_fsync_stub job
  | _ => dispatch_stub job
  end.

(** ** The worker (kernel/io/worker.c) *)
Definition worker_pop : M io (option Z) :=
  q ← gets g_worker_queue;
  match q with [] => mret None | job :: q => modify (fun s => {| s with g_worker_queue := q |});; mret (Some job) end.

(** One pass of the inner loop; [false] when the queue is empty. *)
Definition worker_step : M io bool :=
  popped ← worker_pop;
  match popped with
  | None => mret false
  | Some job =>
      on_job job (fun j => {| j with j_state := JOB_STATE_RUNNING |});;
      j ← follow io_jobs job;
      s ← follow io_streams (j_stream j);
      match stream_find_op s (sqe_op (sqe_copy j)) with
      | Some schema => dispatch (schema_dispatcher schema) job
      | None => stream_complete_job job (-38)
      end;;
      mret true
  end.

(** ** Destruction *)
Fixpoint cancel_jobs (jobs : list Z) : M io unit :=
  match jobs with [] => mret tt | job :: jobs => on_job job (fun j => {| j with j_state := JOB_STATE_CANCELING |});; cancel_jobs jobs end.

Definition stream_destroy (i : Z) : M io unit :=
  s ← follow io_streams i;
  if negb (s_state s =? STREAM_STATE_ACTIVE) then mret tt else
  on_stream i (fun s => {| s with s_state := STREAM_STATE_DESTROYING; notify_tok_raw := 0 |});;
  cancel_jobs (jobs_head s);;
  if Z.of_nat (length (jobs_head s)) >? 0 then io_emit [Canceled (s_owner_pid s) (s_id s) (Z.of_nat (length (jobs_head s)))] else mret tt.

(** The endpoint record is identified with its stream. *)
Definition stream_endpoint_deactivate (i : Z) : M io unit := stream_destroy i;; stream_unref i.

Definition vmo_cap_deactivate (i : Z) : M io unit := vmo_unref i.

Definition set_io_reg (r : registry) (s : io) : io := {| s with io_world := set_reg (io_world s) r |}.

(** [cap_object_destroy] with the hooks of the two kinds of this component. *)
Definition object_destroy (idx : Z) : M io unit :=
  st ← gets id;
  match (if (idx =? 0) || (idx >=? CAP_OBJECT_CAPACITY) then None else g_cap_object_ptrs (reg (io_world st)) !! idx) with
  | None => mret tt
  | Some obj =>
      modify (set_io_reg (cap_object_destroy (reg (io_world st)) idx));;
      if (kind obj =? CAP_KIND_VMO) && negb (kind_data obj =? 0) then vmo_cap_deactivate (kind_data obj)
      else if (kind obj =? CAP_KIND_STREAM) && negb (kind_data obj =? 0) then stream_endpoint_deactivate (kind_data obj)
      else mret tt
  end.

(** ** Reaping *)
Inductive reap_outcome := Reaped (ready : Z) | Reap_error (rc : Z) | Blocks.

(** One look at the ring, [late] if the deadline has passed; what the loop of
    [stream_reap] does between two blocks. *)
Definition reap_check (i min_complete : Z) (nonblocking late : bool) : M io reap_outcome :=
  s ← follow io_streams i;
  if s_state s =? STREAM_STATE_DESTROYED then mret (Reap_error CAP_V2_EBADF) else
  if min_complete >? cq_entries s then mret (Reap_error CAP_V2_EINVAL) else
  tail ← ring_tail (cq_vmo s);
  let ready := u32 (cq_head_kernel s - tail) in
  mret (if (ready >=? min_complete) || nonblocking then Reaped (swrap 32 ready)
        else if late then Reap_error CAP_V2_ETIMEDOUT else Blocks).

(** ** Creation *)
Definition create_object (k kd pid : Z) : M io Z :=
  ok ← alloc;
  st ← gets id;
  let '(r, idx) := cap_object_create ok (reg (io_world st)) k (RIGHT_READ |. RIGHT_WRITE |. RIGHT_INSPECT |. RIGHT_DERIVE |. RIGHT_REVOKE)
                     (Some (pid :: replicate 8 PID_NONE)) 0 kd pid CAP_OBJECT_IDX_NONE in
  modify (set_io_reg r);;
  mret idx.

Definition free_stream_slab (i : Z) : M io unit := follow io_streams i;; modify (fun st => set_streams (delete i (io_streams st)) st).

Definition new_stream (id : Z) (ops : list op_schema) (sq cq sqn cqn tok pid : Z) : stream :=
  Stream STREAM_STATE_ACTIVE id ops sq cq sqn cqn 0 0 tok pid pid 1 0 0 0 0 [].

(** The slot and the result of the insertion. *)
Definition insert_with (pid idx : Z) (ok : bool) : M io (Z * Z) := fun st =>
  t ← tasks (io_world st) !! pid;
  '(h, slot, r) ← cap_handle_insert ok (cap_handles t) idx 0;
  Some ({| st with io_world := set_handles (io_world st) pid t h |}, (slot, r)).

Definition insert_handle (pid idx : Z) : M io (Z * Z) := ok ← alloc; insert_with pid idx ok.

Definition remove_handle (pid slot : Z) : M io unit := fun st =>
  t ← tasks (io_world st) !! pid;
  '(h, _) ← cap_handle_remove (cap_handles t) slot;
  Some ({| st with io_world := set_handles (io_world st) pid t h |}, tt).

Definition insert_handles (pid st_idx sq_idx cq_idx : Z) : M io bool :=
  a ← insert_handle pid st_idx;
  if snd a <? 0 then mret false else
  b ← insert_handle pid sq_idx;
  if snd b <? 0 then remove_handle pid (fst a);; mret false else
  c ← insert_handle pid cq_idx;
  if snd c <? 0 then remove_handle pid (fst b);; remove_handle pid (fst a);; mret false else mret true.

Definition object_token (s : io) (idx : Z) : Z :=
  cap_token_pack (match g_cap_object_ptrs (reg (io_world s)) !! idx with Some o => generation o | None => 0 end) idx 0.

(** The control block is made, or the ring objects are released. *)
Definition create_block (ops : list op_schema) (sq cq sqn cqn pid notify_raw : Z) : M io (Z + Z) :=
  ok ← alloc;
  if negb ok then vmo_unref sq;; vmo_unref cq;; mret (inl CAP_V2_ENOMEM) else
  st ← gets id;
  if negb (notify_raw =? 0) && negb (match cap_token_resolve (reg (io_world st)) pid notify_raw RIGHT_SEND with
                                    | Some o => kind o =? CAP_KIND_CHANNEL | None => false end)
  then modify (fun s => {| s with g_next_stream_id := u64 (g_next_stream_id s + 1) |});; vmo_unref sq;; vmo_unref cq;; mret (inl CAP_V2_EBADF) else
  i ← fresh_address;
  modify (fun s => {| s with io_streams := <[i := new_stream (g_next_stream_id s) ops sq cq sqn cqn notify_raw pid]> (io_streams s);
                             g_next_stream_id := u64 (g_next_stream_id s + 1) |});;
  mret (inr i).

(** The three objects; on a failure everything made so far is undone. *)
Definition create_objects (i sq cq pid : Z) : M io (Z + Z * Z * Z) :=
  sq_idx ← create_object CAP_KIND_VMO sq pid;
  if sq_idx <? 0 then vmo_unref sq;; vmo_unref cq;; free_stream_slab i;; mret (inl sq_idx) else
  cq_idx ← create_object CAP_KIND_VMO cq pid;
  if cq_idx <? 0 then object_destroy sq_idx;; vmo_unref cq;; free_stream_slab i;; mret (inl cq_idx) else
  ok ← alloc;
  if negb ok then object_destroy sq_idx;; object_destroy cq_idx;; free_stream_slab i;; mret (inl CAP_V2_ENOMEM) else
  st_idx ← create_object CAP_KIND_STREAM i pid;
  if st_idx <? 0 then object_destroy sq_idx;; object_destroy cq_idx;; free_stream_slab i;; mret (inl st_idx) else
  mret (inr (st_idx, sq_idx, cq_idx)).

(** The result and the three tokens. *)
Definition stream_create (type_hash sqn cqn pid notify_raw : Z) : M io (Z * list Z) :=
  if negb (is_power_of_two_u32 sqn && is_power_of_two_u32 cqn) then mret (CAP_V2_EINVAL, []) else
  if (sqn <? STREAM_MIN_ENTRIES) || (sqn >? STREAM_MAX_SQ_ENTRIES) then mret (CAP_V2_EINVAL, []) else
  if (cqn <? sqn) || (cqn >? STREAM_MAX_CQ_ENTRIES) then mret (CAP_V2_EINVAL, []) else
  match stream_lookup_manifest type_hash with
  | None => mret (CAP_V2_EPROTOTYPE, [])
  | Some ops =>
      sq ← vmo_create (ring_vmo_size sqn STREAM_SQE_SIZE);
      match sq with
      | None => mret (CAP_V2_ENOMEM, [])
      | Some sq =>
          cq ← vmo_create (ring_vmo_size cqn STREAM_CQE_SIZE);
          match cq with
          | None => vmo_unref sq;; mret (CAP_V2_ENOMEM, [])
          | Some cq =>
              b ← create_block ops sq cq sqn cqn pid notify_raw;
              match b with
              | inl e => mret (e, [])
              | inr i =>
                  o ← create_objects i sq cq pid;
                  match o with
                  | inl e => mret (e, [])
                  | inr (st_idx, sq_idx, cq_idx) =>
                      st ← gets id;
                      match sched_get_task (io_world st) pid with
                      | None => object_destroy st_idx;; object_destroy sq_idx;; object_destroy cq_idx;; free_stream_slab i;; mret (CAP_V2_EINVAL, [])
                      | Some _ =>
                          ok ← insert_handles pid st_idx sq_idx cq_idx;
                          if negb ok
                          then object_destroy st_idx;; object_destroy sq_idx;; object_destroy cq_idx;; free_stream_slab i;; mret (CAP_V2_ENOMEM, [])
                          else st ← gets id; mret (0, map (object_token st) [st_idx; sq_idx; cq_idx])
                      end
                  end
              end
          end
      end
  end.

(** ** System calls *)
Definition sys_pledged (pid : Z) : M io bool := fun s =>
  let '(ok, w) := pledge_check_and_audit (io_world s) pid 10 in Some ({| s with io_world := w |}, ok).

Definition resolve_stream (pid tok right : Z) : M io (option Z) :=
  st ← gets id;
  mret (match cap_token_resolve (reg (io_world st)) pid tok right with
        | Some obj => if (kind obj =? CAP_KIND_STREAM) && negb (kind_data obj =? 0) then Some (kind_data obj) else None
        | None => None
        end).

Definition sys_stream_submit (pid tok n_to_submit : Z) : M io Z :=
  ok ← sys_pledged pid;
  if negb ok then mret (u64 CAP_V2_EPLEDGE) else
  s ← resolve_stream pid tok RIGHT_WRITE;
  match s with
  | None => mret (u64 CAP_V2_EBADF)
  | Some i => rc ← stream_submit_batch i (u32 n_to_submit) pid; mret (u64 rc)
  end.

(** One look of the loop; [late] if the deadline has passed. *)
Definition sys_stream_reap (pid tok rsi timeout_ns : Z) (late : bool) : M io reap_outcome :=
  ok ← sys_pledged pid;
  if negb ok then mret (Reap_error CAP_V2_EPLEDGE) else
  s ← resolve_stream pid tok RIGHT_READ;
  match s with
  | None => mret (Reap_error CAP_V2_EBADF)
  | Some i => reap_check i (u32 rsi) (timeout_ns =? 0) (late && negb (timeout_ns =? 0xFFFFFFFFFFFFFFFF))
  end.

Definition sys_stream_destroy (pid tok : Z) : M io Z :=
  ok ← sys_pledged pid;
  if negb ok then mret (u64 CAP_V2_EPLEDGE) else
  s ← resolve_stream pid tok RIGHT_REVOKE;
  match s with None => mret (u64 CAP_V2_EBADF) | Some i => stream_destroy i;; mret 0 end.

(** [out_ok] tells if the pointer for the handles lies in the user's half. *)
Definition sys_stream_create (out_ok : bool) (pid type_hash rdx notify_raw : Z) : M io (Z * list Z) :=
  ok ← sys_pledged pid;
  if negb ok then mret (u64 CAP_V2_EPLEDGE, []) else
  if negb out_ok then mret (u64 CAP_V2_EFAULT, []) else
  r ← stream_create type_hash (u32 (rdx &. 0xFFFFFFFF)) (u32 (rdx >>. 32)) pid notify_raw;
  mret (u64 (fst r), snd r).
