(* ===== verification/StreamInv.v ===== *)
(** * Submission streams: the invariant and the primitive steps

    [core_of] forgets what the accounting does not depend on: the bytes of pages, ring
    positions of completions, states, counters, answers and the trace.  [io_inv] is the accounting of
    references on the core: every job is on its stream's list and in exactly one queue,
    a stream has one reference more than jobs, and a memory object at least one more than
    the jobs that use it.  Each function of the code is a step of the core. *)
From S2P Require Import Prelude Bytes StateM CapToken CapObject HandleTable Pledge CapSystem Runq Rlimit Stream.
Local Open Scope Z_scope.

(** ** The core of a state *)
Definition hard (s : stream) : stream :=
  {| s with s_state := 0; cq_head_kernel := 0; notify_tok_raw := 0; total_submitted := 0;
            total_completed := 0; rejected_submissions := 0 |}.
Definition hard_job (j : stream_job) : stream_job := {| j with j_state := 0 |}.
Definition shape (v : vmo) : Z * Z * list (option nat) := (v_refcount v, v_size v, (fmap length : option (list Z) -> option nat) <$> v_pages v).

Record core := Core {
  c_streams : gmap Z stream; c_jobs : gmap Z stream_job; c_vmos : gmap Z (Z * Z * list (option nat));
  c_pending : gmap Z (list Z); c_queue : list Z; c_reg : registry; c_ends : gmap Z chan_endpoint;
  c_fds : gmap (Z * Z) Z; c_files : gmap Z unit; c_next : Z
}.

Definition core_of (s : io) : core := {|
  c_streams := hard <$> io_streams s; c_jobs := hard_job <$> io_jobs s; c_vmos := shape <$> io_vmos s;
  c_pending := io_pending_jobs s; c_queue := g_worker_queue s; c_reg := reg (io_world s); c_ends := io_ends s;
  c_fds := io_fds s; c_files := (fun _ => tt) <$> io_files s; c_next := io_next s |}.

Definition waiting (k : core) (pid : Z) : list Z := default [] (c_pending k !! pid).

(** The jobs that use a memory object. *)
Definition users (jobs : gmap Z stream_job) (v : Z) : Z :=
  Z.of_nat (length (filter (fun p => dest_vmo p.2 = Some v) (map_to_list jobs))).

Lemma users_insert jobs job j v : jobs !! job = None ->
  users (<[job := j]> jobs) v = users jobs v + if decide (dest_vmo j = Some v) then 1 else 0.
Proof.
  intros H. unfold users. rewrite (map_to_list_insert jobs job j H), filter_cons. cbn [snd].
  destruct (decide (dest_vmo j = Some v)); cbn [length]; lia.
Qed.

Lemma users_delete jobs job j v : jobs !! job = Some j ->
  users jobs v = users (delete job jobs) v + if decide (dest_vmo j = Some v) then 1 else 0.
Proof. intros H. rewrite <- (insert_delete_id jobs job j H) at 1. apply users_insert, lookup_delete_eq. Qed.

Lemma users_nonneg jobs v : 0 <= users jobs v.
Proof. unfold users. lia. Qed.

(** ** The invariant *)
Record ring_ok (k : core) (v entries size : Z) : Prop := {
  rk_vmo : exists rc sz np, c_vmos k !! v = Some (rc, sz, replicate np (Some 4096%nat)) /\ 4096 + entries * size <= 4096 * Z.of_nat np /\ Z.of_nat np < 2 ^ 32;
  rk_entries : exists n, 0 <= n < 32 /\ entries = 2 ^ n
}.

Record stream_ok (k : core) (i : Z) (s : stream) : Prop := {
  sk_sq : ring_ok k (sq_vmo s) (sq_entries s) 64;
  sk_cq : ring_ok k (cq_vmo s) (cq_entries s) 32;
  sk_jobs : NoDup (jobs_head s) /\ forall job, job ∈ jobs_head s <-> exists j, c_jobs k !! job = Some j /\ j_stream j = i;
  sk_refs : s_refcount s = 1 + Z.of_nat (length (jobs_head s)) /\ active_jobs s = Z.of_nat (length (jobs_head s));
  sk_bound : Z.of_nat (length (jobs_head s)) <= c_next k;
  sk_ops : s_ops s = op_schema_io_v1 /\ cq_vmo s <> sq_vmo s /\ in_u 32 (sq_tail_kernel s)
}.

Record vmo_ok (k : core) (v : Z) (x : Z * Z * list (option nat)) : Prop := {
  vk_pages : Forall (fun p => p = None \/ p = Some 4096%nat) x.2 /\ Z.of_nat (length x.2) < 2 ^ 32;
  vk_refs : 1 + users (c_jobs k) v <= x.1.1 <= 2 ^ 30 + c_next k
}.

Record job_ok (k : core) (cur : option Z) (job : Z) (j : stream_job) : Prop := {
  jk_stream : is_Some (c_streams k !! j_stream j);
  jk_dest : forall v, dest_vmo j = Some v -> is_Some (c_vmos k !! v);
  jk_place : job ∈ c_queue k \/ job ∈ waiting k (submitter_pid j) \/ cur = Some job;
  jk_next : job < c_next k;
  jk_sqe : in_u 64 (dest_vmo_offset (sqe_copy j));
  jk_bulk : dest_vmo j <> None -> sqe_op (sqe_copy j) = OP_READ_VMO \/ sqe_op (sqe_copy j) = OP_WRITE_VMO
}.

(** [cur] is the job the worker is at. *)
Record io_inv (cur : option Z) (k : core) : Prop := {
  ii_streams : forall i s, c_streams k !! i = Some s -> stream_ok k i s /\ i < c_next k;
  ii_vmos : forall v x, c_vmos k !! v = Some x -> vmo_ok k v x /\ v < c_next k;
  ii_jobs : forall job j, c_jobs k !! job = Some j -> job_ok k cur job j;
  ii_queue : NoDup (c_queue k) /\ forall job, job ∈ c_queue k -> is_Some (c_jobs k !! job) /\ cur <> Some job;
  ii_wait : forall pid, NoDup (waiting k pid) /\ forall job, job ∈ waiting k pid ->
    (exists j, c_jobs k !! job = Some j /\ submitter_pid j = pid) /\ job ∉ c_queue k /\ cur <> Some job;
  ii_cur : forall job, cur = Some job -> is_Some (c_jobs k !! job);
  ii_objects : forall idx o, g_cap_object_ptrs (c_reg k) !! idx = Some o -> kind_data o <> 0 ->
    (kind o = CAP_KIND_VMO -> is_Some (c_vmos k !! kind_data o)) /\ (kind o = CAP_KIND_CHANNEL -> is_Some (c_ends k !! kind_data o)) /\
    (kind o = CAP_KIND_STREAM -> is_Some (c_streams k !! kind_data o));
  ii_fds : forall fd node, c_fds k !! fd = Some node -> is_Some (c_files k !! node);
  ii_next : 0 < c_next k
}.

(** ** Steps that keep the core *)

(** Not about consumption and completion; and what is sent is empty. *)
Definition quiet_event (e : io_event) : Prop := match e with Consumed _ _ | Posted _ _ | Lost _ _ => False | Sent _ _ payload => payload = [] | _ => True end.

Definition calm (s s' : io) : Prop := core_of s' = core_of s /\ io_jobs s' = io_jobs s /\ exists evs, io_trace s' = io_trace s ++ evs /\ Forall quiet_event evs.

#[export] Instance calm_preorder : PreOrder calm.
Proof.
  split.
  - intros s. split; [done|]. split; [done|]. exists []. by rewrite app_nil_r.
  - intros s1 s2 s3 (E1 & J1 & l1 & T1 & Q1) (E2 & J2 & l2 & T2 & Q2). split; [congruence|]. split; [congruence|]. exists (l1 ++ l2). split; [by rewrite T2, T1, app_assoc|by apply Forall_app].
Qed.

Lemma calm_same s s' : core_of s' = core_of s -> io_jobs s' = io_jobs s -> io_trace s' = io_trace s -> calm s s'.
Proof. intros E J T. split; [done|]. split; [done|]. exists []. by rewrite app_nil_r. Qed.

(** A run that keeps the core, from wherever the earlier steps led. *)
Definition settles {A} (m : M io A) (P : A -> Prop) (s : io) : Prop := wp m (fun a s' => calm s s' /\ P a) s.

Lemma follow_eq {A} (f : io -> gmap Z A) i x s : f s !! i = Some x -> follow f i s = Some (s, x).
Proof. intros H. unfold follow. by rewrite H. Qed.

Lemma wp_follow {A} (f : io -> gmap Z A) i x (Q : A -> io -> Prop) s : f s !! i = Some x -> Q x s -> wp (follow f i) Q s.
Proof. intros H HQ. exists s, x. split; [|done]. unfold follow. by rewrite H. Qed.

Lemma wp_settles {A B} (m : M io A) (k : A -> M io B) P s (Q : B -> io -> Prop) :
  settles m P s -> (forall a s', calm s s' -> P a -> wp (k a) Q s') -> wp (m ≫= k) Q s.
Proof. intros (s' & a & E & Hc & HP) H. apply wp_bind. exists s', a. split; [done|]. by apply H. Qed.

Lemma settles_emit evs s : Forall quiet_event evs -> settles (io_emit evs) (fun _ => True) s.
Proof. intros H. apply wp_modify. split; [|done]. split; [done|]. split; [done|]. exists evs. split; [done|done]. Qed.

Lemma settles_answer s : settles answer (fun _ => True) s.
Proof. unfold answer. apply wp_bind, wp_gets, wp_bind, wp_modify, wp_ret. split; [|done]. by apply calm_same. Qed.

Lemma settles_alloc s : settles alloc (fun _ => True) s.
Proof. unfold alloc. apply wp_bind, wp_gets, wp_bind, wp_modify, wp_ret. split; [|done]. by apply calm_same. Qed.

Lemma core_streams s i : c_streams (core_of s) !! i = hard <$> io_streams s !! i.
Proof. apply lookup_fmap. Qed.
Lemma core_jobs s i : c_jobs (core_of s) !! i = hard_job <$> io_jobs s !! i.
Proof. apply lookup_fmap. Qed.
Lemma core_vmos s i : c_vmos (core_of s) !! i = shape <$> io_vmos s !! i.
Proof. apply lookup_fmap. Qed.

(** What is in the core is in the state. *)
Lemma live_stream s i : is_Some (c_streams (core_of s) !! i) -> exists x, io_streams s !! i = Some x /\ c_streams (core_of s) !! i = Some (hard x).
Proof. rewrite core_streams. destruct (io_streams s !! i) as [x|]; [by exists x|by intros [? ?]]. Qed.
Lemma live_job s i : is_Some (c_jobs (core_of s) !! i) -> exists x, io_jobs s !! i = Some x /\ c_jobs (core_of s) !! i = Some (hard_job x).
Proof. rewrite core_jobs. destruct (io_jobs s !! i) as [x|]; [by exists x|by intros [? ?]]. Qed.
Lemma live_vmo s i : is_Some (c_vmos (core_of s) !! i) -> exists x, io_vmos s !! i = Some x /\ c_vmos (core_of s) !! i = Some (shape x).
Proof. rewrite core_vmos. destruct (io_vmos s !! i) as [x|]; [by exists x|by intros [? ?]]. Qed.

Lemma settles_on_stream i f s x : io_streams s !! i = Some x -> hard (f x) = hard x -> settles (on_stream i f) (fun _ => True) s.
Proof.
  intros H E. apply wp_bind, (wp_follow _ _ x); [done|]. apply wp_modify. split; [|done]. apply calm_same; [|done|done].
  unfold core_of; cbn. f_equal. rewrite fmap_insert, E. apply insert_id. by rewrite lookup_fmap, H.
Qed.

(** ** Memory *)
Definition page_of (x : vmo) (page : Z) (p : list Z) : Prop := get (v_pages x) page = Some (Some p) /\ length p = 4096%nat.

Lemma settles_load i page off n s x p : io_vmos s !! i = Some x -> page_of x page p -> off + Z.of_nat n <= 4096 ->
  settles (load i page off n) (eq (take n (drop (Z.to_nat off) p))) s.
Proof.
  intros H [Hp _] Ho. apply wp_bind, (wp_follow _ _ x); [done|]. rewrite Hp. destruct (Z.leb_spec (off + Z.of_nat n) 4096); [|lia].
  apply wp_ret. split; [|done]. reflexivity.
Qed.

Lemma shape_store x page p p' : page_of x page p -> length p' = 4096%nat -> shape {| x with v_pages := upd (v_pages x) page (Some p') |} = shape x.
Proof.
  intros [Hp Hl] Hl'. unfold shape; cbn. f_equal. unfold upd. rewrite list_fmap_insert. cbn. rewrite Hl'.
  apply list_insert_id. rewrite list_lookup_fmap. unfold get in Hp. destruct (page <? 0); [done|]. rewrite Hp. cbn. by rewrite Hl.
Qed.

Lemma settles_store i page off b s x p : io_vmos s !! i = Some x -> page_of x page p -> 0 <= off -> off + Z.of_nat (length b) <= 4096 ->
  settles (store i page off b) (fun _ => True) s.
Proof.
  intros H Hp Ho Hb. apply wp_bind, (wp_follow _ _ x); [done|]. rewrite (proj1 Hp). destruct (Z.leb_spec (off + Z.of_nat (length b)) 4096); [|lia].
  apply wp_bind, (wp_follow _ _ x); [done|]. apply wp_modify. split; [|done]. apply calm_same; [|done|done].
  unfold core_of; cbn. f_equal. rewrite fmap_insert, (shape_store x page p); [apply insert_id; by rewrite lookup_fmap, H|done|].
  rewrite length_splice; [apply Hp|]. destruct Hp as [_ Hl]. lia.
Qed.

(** ** Rings *)
Lemma ring_pages s v e sz : ring_ok (core_of s) v e sz -> exists x, io_vmos s !! v = Some x /\
  (forall page, 0 <= page < Z.of_nat (length (v_pages x)) -> exists p, page_of x page p) /\
  4096 + e * sz <= 4096 * Z.of_nat (length (v_pages x)) /\ Z.of_nat (length (v_pages x)) < 2 ^ 32.
Proof.
  intros [(rc & size & np & H & Hl & Hn) _]. rewrite core_vmos in H. destruct (io_vmos s !! v) as [x|]; [|done]. injection H as _ _ H.
  assert (length (v_pages x) = np) as Ex by (rewrite <- (length_fmap (fmap length : option (list Z) -> option nat)), H; apply length_replicate).
  exists x. split; [done|]. rewrite Ex. split; [|done]. intros page Hp. assert (((fmap length : option (list Z) -> option nat) <$> v_pages x) !! Z.to_nat page = Some (Some 4096%nat)) as Hk.
  { rewrite H. apply lookup_replicate. split; [done|lia]. }
  rewrite list_lookup_fmap in Hk. destruct (v_pages x !! Z.to_nat page) as [[p|]|] eqn:E; [|done|done]. injection Hk as Hk. exists p.
  split; [|done]. unfold get. destruct (Z.ltb_spec page 0); [lia|done].
Qed.

(** An entry of a ring lies in one page. *)
Lemma ring_entry s v e sz c idx : ring_ok (core_of s) v e sz -> 4096 = c * sz -> 0 < sz -> 0 <= idx < e ->
  let o := 4096 + idx * sz in
  exists x p, io_vmos s !! v = Some x /\ vmo_kva_at x o = Some (o / 4096, o mod 4096) /\ page_of x (o / 4096) p /\ 0 <= o mod 4096 /\ o mod 4096 + sz <= 4096.
Proof.
  intros Hr Hc Hsz Hi o. destruct (ring_pages _ _ _ _ Hr) as (x & Hx & Hp & Hl & Hn).
  assert (o + sz <= 4096 * Z.of_nat (length (v_pages x))) as Ho by nia. assert (0 <= o / 4096 < Z.of_nat (length (v_pages x))) as Hpg.
  { split; [apply Z.div_pos; lia|]. apply Z.div_lt_upper_bound; lia. }
  destruct (Hp (o / 4096) Hpg) as (p & Hpp). exists x, p. split; [done|].
  assert (o mod 4096 = (idx mod c) * sz) as Em.
  { unfold o. rewrite Hc at 2. replace (4096 + idx * sz) with ((idx + c) * sz) by lia. rewrite Zmult_mod_distr_r. f_equal.
    rewrite <- (Z.mul_1_l c) at 1. apply Z_mod_plus_full. }
  assert (0 <= idx mod c < c) as Hm by (apply Z.mod_pos_bound; nia). split; [|split; [done|split; nia]].
  unfold vmo_kva_at. change STREAM_PAGE_SIZE with 4096. rewrite u32_small by lia. destruct (Z.geb_spec (o / 4096) (Z.of_nat (length (v_pages x)))); [lia|].
  by rewrite (proj1 Hpp).
Qed.

Lemma ring_first s v e sz : ring_ok (core_of s) v e sz -> 0 <= e * sz -> exists x p, io_vmos s !! v = Some x /\ page_of x 0 p.
Proof.
  intros Hr He. destruct (ring_pages _ _ _ _ Hr) as (x & Hx & Hp & Hl & _). destruct (Hp 0) as (p & ?); [lia|]. by exists x, p.
Qed.

Lemma ring_positive k v e sz : ring_ok k v e sz -> 0 < e.
Proof. intros [_ (n & Hn & ->)]. lia. Qed.

Lemma ring_index k v e sz x : ring_ok k v e sz -> 0 <= Z.land x (e - 1) < e.
Proof.
  intros [_ (n & Hn & ->)]. replace (2 ^ n - 1) with (Z.ones n) by (rewrite Z.ones_equiv; lia). rewrite Z.land_ones by lia. apply Z.mod_pos_bound. lia.
Qed.

(** ** Completions *)

(** What posting needs of the state: the stream, its ring, and live channel endpoints. *)
Record postable (k : core) (i : Z) : Prop := {
  po_stream : is_Some (c_streams k !! i);
  po_ring : forall s, c_streams k !! i = Some s -> ring_ok k (cq_vmo s) (cq_entries s) 32;
  po_ends : forall idx o, g_cap_object_ptrs (c_reg k) !! idx = Some o -> kind_data o <> 0 -> kind o = CAP_KIND_CHANNEL -> is_Some (c_ends k !! kind_data o)
}.

Lemma inv_postable cur k i : io_inv cur k -> is_Some (c_streams k !! i) -> postable k i.
Proof.
  intros Hk Hi. split; [done| |].
  - intros s Hs. apply (ii_streams _ _ Hk) in Hs as [Hs _]. apply Hs.
  - intros idx o Ho Hd Hc. by apply (ii_objects _ _ Hk idx o Ho Hd).
Qed.

Lemma settles_clear s i tok : is_Some (c_streams (core_of s) !! i) -> settles (clear_notify i tok) (fun _ => True) s.
Proof.
  intros (x & Hx & _)%live_stream. eapply settles_on_stream; [done|]. by destruct (notify_tok_raw x =? tok).
Qed.

Lemma resolve_object r pid tok right o : cap_token_resolve r pid tok right = Some o -> exists idx, g_cap_object_ptrs r !! idx = Some o.
Proof.
  unfold cap_token_resolve. destruct (cap_token_is_null tok); [done|]. destruct (_ || _); [done|].
  destruct (g_cap_object_ptrs r !! cap_token_idx tok) as [obj|] eqn:E; [|done]. intros H.
  exists (cap_token_idx tok). destruct (deleted obj); [done|]. destruct (negb _); [done|]. destruct (_ && _); [done|]. destruct (negb _); [done|]. congruence.
Qed.

Lemma settles_notify s i : postable (core_of s) i -> settles (stream_notify_channel i) (fun _ => True) s.
Proof.
  intros [Hs _ He]. destruct (live_stream _ _ Hs) as (x & Hx & _). unfold stream_notify_channel. apply wp_bind, (wp_follow _ _ x); [done|].
  destruct (_ =? 0); [by apply wp_ret|]. apply wp_bind, wp_gets. unfold id.
  assert (settles (clear_notify i (notify_tok_raw x);; mret CAP_V2_EPIPE) (fun _ : Z => True) s) as Hclear.
  { eapply wp_settles; [by apply settles_clear|]. intros ? s' Hc _. by apply wp_ret. }
  destruct (cap_token_resolve _ _ _ _) as [o|] eqn:Er; [|done]. apply resolve_object in Er as [idx Ho].
  destruct (Z.eqb_spec (kind o) CAP_KIND_CHANNEL) as [Ek|]; cbn [negb orb]; [|done]. destruct (Z.eqb_spec (kind_data o) 0) as [|Hd]; [done|].
  destruct (He idx o Ho Hd Ek) as [ep Hep]. apply wp_bind, (wp_follow _ _ ep); [done|]. destruct (ep_writes ep); cbn [negb]; [|done].
  destruct (ep_channel ep) as [ch|]; [|by apply wp_ret]. destruct (sched_get_task _ _); [|by apply wp_ret].
  eapply wp_settles; [apply settles_answer|]. intros r s1 Hc1 _. eapply wp_settles with (P := fun _ => True).
  { destruct (r =? 0); [by apply settles_emit; constructor|by apply wp_ret]. }
  intros ? s2 Hc2 _. eapply wp_settles with (P := fun _ => True).
  { destruct (r =? CAP_V2_EPIPE); [|by apply wp_ret]. apply settles_clear. by rewrite (proj1 Hc2), (proj1 Hc1). }
  intros ? s3 Hc3 _. apply wp_ret. split; [|done]. by do 2 (etrans; [|done]).
Qed.

(** Posting keeps the core and is recorded once, as delivered or as lost. *)
Definition posts (i : Z) (c : cqe) (s s' : io) : Prop := core_of s' = core_of s /\ io_jobs s' = io_jobs s /\
  exists e evs, io_trace s' = io_trace s ++ e :: evs /\ (e = Posted i c \/ e = Lost i c) /\ Forall quiet_event evs.

Lemma posts_calm i c s1 s2 s3 : posts i c s1 s2 -> calm s2 s3 -> posts i c s1 s3.
Proof.
  intros (E1 & J1 & e & l1 & T1 & He & Q1) (E2 & J2 & l2 & T2 & Q2). split; [congruence|]. split; [congruence|]. exists e, (l1 ++ l2). split; [|split; [done|by apply Forall_app]].
  by rewrite T2, T1, <- app_assoc.
Qed.

Lemma length_cqe_bytes c : length (cqe_bytes c) = 32%nat.
Proof. unfold cqe_bytes. rewrite !length_app, !length_le, length_replicate. done. Qed.

(** The steps before the record leave the trace alone. *)
Definition silent {A} (m : M io A) (s : io) : Prop := wp m (fun _ s' => core_of s' = core_of s /\ io_jobs s' = io_jobs s /\ io_trace s' = io_trace s) s.

Lemma silent_store i page off b s x p : io_vmos s !! i = Some x -> page_of x page p -> 0 <= off -> off + Z.of_nat (length b) <= 4096 -> silent (store i page off b) s.
Proof.
  intros H Hp Ho Hb. destruct (settles_store i page off b s x p H Hp Ho Hb) as (s' & [] & E & (Hc & Hj & _) & _). exists s', tt. split; [done|]. split; [done|]. split; [done|].
  revert E. unfold store, on_vmo, mbind, M_bind. rewrite (follow_eq _ _ _ _ H), (proj1 Hp). destruct (_ <=? _); [|done].
  rewrite (follow_eq _ _ _ _ H). by intros [= <-].
Qed.

Lemma post_cqe_spec s i cookie result flags : postable (core_of s) i ->
  wp (stream_post_cqe i cookie result flags) (fun _ s' => posts i (Cqe cookie result flags) s s') s.
Proof.
  intros Hpo. destruct Hpo as [Hs Hr He] eqn:Epo; clear Epo. destruct (live_stream _ _ Hs) as (x & Hx & Hc). specialize (Hr _ Hc). cbn [hard cq_vmo cq_entries] in Hr.
  assert (0 <= cq_entries x * 32) as Hpos by (apply ring_positive in Hr; lia). unfold stream_post_cqe. apply wp_bind, (wp_follow _ _ x); [done|].
  assert (forall s1, core_of s1 = core_of s -> io_jobs s1 = io_jobs s -> io_trace s1 = io_trace s -> wp (io_emit [Lost i (Cqe cookie result flags)]) (fun _ s' => posts i (Cqe cookie result flags) s s') s1) as Hlost.
  { intros s1 E J T. apply wp_modify. split; [done|]. split; [done|]. eexists _, []. split; [cbn; by rewrite T|]. auto. }
  apply wp_bind. destruct (ring_first _ _ _ _ Hr Hpos) as (v & p0 & Hv & Hp0). exists s, (u32 (of_le (take 4 (drop 128 p0)))). split.
  { unfold ring_tail, load, mbind, M_bind. rewrite (follow_eq _ _ _ _ Hv), (proj1 Hp0). done. }
  destruct (_ >=? _); [by apply Hlost|]. apply wp_bind, (wp_follow _ _ v); [done|]. pose proof (ring_index _ _ _ _ (cq_head_kernel x) Hr) as Hidx.
  destruct (ring_entry s (cq_vmo x) (cq_entries x) 32 128 (Z.land (cq_head_kernel x) (cq_entries x - 1)) Hr) as (v' & p & Hv' & Hk & Hp & Ho & Hl); [lia|lia|exact Hidx|].
  rewrite Hv in Hv'. injection Hv' as <-. unfold stream_cqe_at. destruct (Z.geb_spec (Z.land (cq_head_kernel x) (cq_entries x - 1)) (cq_entries x)); [lia|]. rewrite Hk.
  apply wp_bind. eapply wp_mono; [|apply (silent_store _ _ _ _ _ v p); [done|done|done|rewrite length_cqe_bytes; lia]]. intros ? s1 (E1 & J1 & T1).
  assert (ring_ok (core_of s1) (cq_vmo x) (cq_entries x) 32) as Hr1 by by rewrite E1. destruct (ring_first _ _ _ _ Hr1 Hpos) as (v1 & p1 & Hv1 & Hp1).
  apply wp_bind. eapply wp_mono; [|apply (silent_store _ 0 0 _ s1 v1 p1); [done|done|done|rewrite length_le; lia]]. intros ? s2 (E2 & J2 & T2).
  destruct (live_stream s2 i) as (x2 & Hx2 & Hc2); [by rewrite E2, E1|]. apply wp_bind, wp_bind, (wp_follow _ _ x2); [done|]. apply wp_modify.
  set (s3 := set_streams _ s2). assert (core_of s3 = core_of s) as E3.
  { rewrite <- E1, <- E2. unfold s3, core_of; cbn. f_equal. rewrite fmap_insert. apply insert_id. by rewrite lookup_fmap, Hx2. }
  apply wp_bind, wp_modify. set (s4 := Io _ _ _ _ _ _ _ _ _ _ _ _ _ _ _). assert (core_of s4 = core_of s) as E4 by exact E3.
  assert (postable (core_of s4) i) as Hpo4 by by rewrite E4. eapply wp_settles; [by apply settles_notify|]. intros ? s5 Hc5 _. apply wp_ret.
  eapply posts_calm; [|done]. split; [done|]. split; [cbn; congruence|]. eexists _, [Wake_reaper i]. split; [|split; [by left|by constructor]]. cbn. by rewrite T2, T1.
Qed.

(** ** Completing a job *)
Lemma unlink_perm job l : job ∈ l -> l ≡ₚ job :: unlink job l.
Proof.
  intros Hin. unfold unlink. destruct (find_index (fun x => x =? job) l) as [k|] eqn:E.
  - apply find_index_Some in E as (x & Hk & ->%Z.eqb_eq). by apply delete_Permutation.
  - apply list_elem_of_lookup in Hin as [k Hk]. eapply find_index_None in E; [|exact Hk]. by rewrite Z.eqb_refl in E.
Qed.

Definition add_ref (d : Z) (x : Z * Z * list (option nat)) : Z * Z * list (option nat) := (x.1.1 + d, x.1.2, x.2).
Definition drop_dest (o : option Z) (m : gmap Z (Z * Z * list (option nat))) : gmap Z (Z * Z * list (option nat)) :=
  match o with Some v => alter (add_ref (-1)) v m | None => m end.

Definition k_complete (job : Z) (j : stream_job) (st : stream) (k : core) : core :=
  {| k with c_streams := <[j_stream j := {| st with jobs_head := unlink job (jobs_head st); active_jobs := active_jobs st - 1; s_refcount := s_refcount st - 1 |}]> (c_streams k);
            c_jobs := delete job (c_jobs k); c_vmos := drop_dest (dest_vmo j) (c_vmos k) |}.

Lemma drop_dest_lookup o m v x : drop_dest o m !! v = Some x <-> exists y, m !! v = Some y /\ x = if decide (o = Some v) then add_ref (-1) y else y.
Proof.
  destruct o as [w|]; cbn [drop_dest]; [|case_decide; [done|]; naive_solver]. destruct (decide (w = v)) as [->|Hne].
  - rewrite lookup_alter_eq. destruct (decide (Some v = Some v)); [|done]. destruct (m !! v) as [y|]; cbn; naive_solver.
  - rewrite lookup_alter_ne by done. destruct (decide (Some w = Some v)); [congruence|]. naive_solver.
Qed.

Lemma drop_dest_live o m v : is_Some (drop_dest o m !! v) <-> is_Some (m !! v).
Proof.
  split; intros [x Hx]; [apply drop_dest_lookup in Hx as (y & ? & _); by exists y|]. eexists. apply drop_dest_lookup. eauto.
Qed.

(** A ring only needs the pages of its object. *)
Lemma ring_ok_vmos k k' v e sz : ring_ok k v e sz ->
  (forall x, c_vmos k !! v = Some x -> exists y, c_vmos k' !! v = Some y /\ y.2 = x.2) -> ring_ok k' v e sz.
Proof.
  intros [(rc & size & np & H & Hl) He] Hv. split; [|done]. destruct (Hv _ H) as ([[rc' size'] ps] & Hy & E). cbn in E. subst. by exists rc', size', np.
Qed.

Section complete.
  Context (k : core) (job : Z) (j : stream_job) (st : stream).
  Hypothesis Hinv : io_inv (Some job) k.
  Hypothesis Hj : c_jobs k !! job = Some j.
  Hypothesis Hst : c_streams k !! j_stream j = Some st.

Lemma complete_member : job ∈ jobs_head st.
Proof using Hinv Hj Hst. destruct (ii_streams _ _ Hinv _ _ Hst) as [[_ _ [_ H] _ _ _] _]. apply H. by exists j. Qed.

Lemma complete_ring v e sz : ring_ok k v e sz -> ring_ok (k_complete job j st k) v e sz.
Proof using.
  intros Hr. eapply ring_ok_vmos; [done|]. intros x Hx. eexists. split; [apply drop_dest_lookup; eauto|]. by case_decide.
Qed.

Lemma complete_streams i s : c_streams (k_complete job j st k) !! i = Some s -> stream_ok (k_complete job j st k) i s /\ i < c_next k.
Proof using Hinv Hj Hst.
  pose proof complete_member as Hin. intros Hs. cbn in Hs. apply lookup_insert_Some in Hs as [[<- <-]|[Hne Hs]].
  - destruct (ii_streams _ _ Hinv _ _ Hst) as [[H1 H2 [H3 H4] [H5 H6] H7 Hops] H8]. pose proof (unlink_perm _ _ Hin) as Hp. rewrite Hp in H3. apply NoDup_cons in H3 as [Hni Hnd].
    pose proof (Permutation_length Hp) as Hl. cbn [length] in Hl. split; [|done]. split; cbn; [by apply complete_ring|by apply complete_ring| |lia|lia|done].
    split; [done|]. intros job'. split.
    + intros Hin'. destruct (proj1 (H4 job')) as (j' & Hj' & E); [rewrite Hp; by right|]. exists j'. split; [|done]. rewrite lookup_delete_ne; [done|]. congruence.
    + intros (j' & Hj' & E). apply lookup_delete_Some in Hj' as [Hne Hj']. assert (job' ∈ jobs_head st) as Hin' by (apply H4; eauto). rewrite Hp in Hin'. apply elem_of_cons in Hin' as [->|]; done.
  - destruct (ii_streams _ _ Hinv _ _ Hs) as [[H1 H2 [H3 H4] H5 H7 Hops] H8]. split; [|done]. split; cbn; [by apply complete_ring|by apply complete_ring| |done|done|done].
    split; [done|]. intros job'. rewrite H4. split; intros (j' & Hj' & E); exists j'; (split; [|done]).
    + rewrite lookup_delete_ne; [done|]. intros <-. congruence.
    + by apply lookup_delete_Some in Hj' as [_ ?].
Qed.

Lemma complete_vmos v x : c_vmos (k_complete job j st k) !! v = Some x -> vmo_ok (k_complete job j st k) v x /\ v < c_next k.
Proof using Hinv Hj.
  intros (y & Hy & ->)%drop_dest_lookup. destruct (ii_vmos _ _ Hinv _ _ Hy) as [[H1 H2] H3]. split; [|done]. pose proof (users_delete _ _ _ v Hj) as Hu. cbn in H2.
  split; cbn; case_decide; cbn; try done; lia.
Qed.

Lemma complete_jobs job' j' : c_jobs (k_complete job j st k) !! job' = Some j' -> job_ok (k_complete job j st k) None job' j'.
Proof using Hinv Hj.
  intros Hj'. cbn in Hj'. apply lookup_delete_Some in Hj' as [Hne Hj']. destruct (ii_jobs _ _ Hinv _ _ Hj') as [H1 H2 H3 H4 H5 H6]. split; cbn; [| | |done|done|done].
  - destruct (decide (j_stream j' = j_stream j)) as [->|]; [rewrite lookup_insert_eq; eauto|by rewrite lookup_insert_ne].
  - intros v Hv. by apply drop_dest_live, H2.
  - destruct H3 as [|[|[= ->]]]; [by left|by right; left|done].
Qed.

Lemma complete_inv : io_inv None (k_complete job j st k).
Proof using Hinv Hj Hst.
  destruct Hinv as [H1 H2 H3 [H4 H5] H6 H7 H8 H9 H10]. split; [apply complete_streams|apply complete_vmos|apply complete_jobs| | | | |done|done]; cbn.
  - split; [done|]. intros job' Hin. destruct (H5 _ Hin) as [[j' Hj'] Hne]. split; [|done]. exists j'. rewrite lookup_delete_ne; [done|]. congruence.
  - intros pid. destruct (H6 pid) as [Hn Hw]. split; [done|]. intros job' Hin. destruct (Hw _ Hin) as ((j' & Hj' & E) & Hq & Hne). split; [|done].
    exists j'. split; [|done]. rewrite lookup_delete_ne; [done|]. congruence.
  - done.
  - intros idx o Ho Hd. destruct (H8 idx o Ho Hd) as (Ha & Hb & Hc). split; [|split]; [|done|].
    + intros Hk. by apply drop_dest_live, Ha.
    + intros Hk. destruct (decide (kind_data o = j_stream j)) as [->|]; [rewrite lookup_insert_eq; eauto|rewrite lookup_insert_ne by done; auto].
Qed.
End complete.

Lemma alter_known {A} (m : gmap Z A) f i x : m !! i = Some x -> alter f i m = <[i := f x]> m.
Proof.
  intros H. apply map_eq. intros k. destruct (decide (i = k)) as [<-|]; [by rewrite lookup_alter_eq, lookup_insert_eq, H|by rewrite lookup_alter_ne, lookup_insert_ne].
Qed.

Definition with_vmos f (k : core) : core := {| k with c_vmos := f (c_vmos k) |}.
Definition with_streams f (k : core) : core := {| k with c_streams := f (c_streams k) |}.
Definition with_jobs f (k : core) : core := {| k with c_jobs := f (c_jobs k) |}.

(** Dropping a reference that is not the last one. *)
Lemma vmo_unref_spec s v y : io_vmos s !! v = Some y -> 2 <= v_refcount y < 2 ^ 32 ->
  wp (vmo_unref v) (fun _ s' => core_of s' = with_vmos (alter (add_ref (-1)) v) (core_of s) /\ io_trace s' = io_trace s) s.
Proof.
  intros H Hr. unfold vmo_unref. apply wp_bind, (wp_follow _ _ y); [done|]. rewrite u32_small by lia. destruct (Z.eqb_spec (v_refcount y - 1) 0); [lia|].
  apply wp_bind, (wp_follow _ _ y); [done|]. apply wp_modify. split; [|done]. unfold core_of, with_vmos, with_streams, with_jobs; cbn. f_equal.
  rewrite (alter_known _ _ _ (shape y)) by (by rewrite lookup_fmap, H). by rewrite fmap_insert.
Qed.

Lemma vmo_ref_spec s v y : io_vmos s !! v = Some y -> 0 <= v_refcount y < 2 ^ 32 - 1 ->
  wp (vmo_ref v) (fun _ s' => core_of s' = with_vmos (alter (add_ref 1) v) (core_of s) /\ io_trace s' = io_trace s) s.
Proof.
  intros H Hr. apply wp_bind, (wp_follow _ _ y); [done|]. rewrite u32_small by lia. apply wp_modify. split; [|done]. unfold core_of, with_vmos, with_streams, with_jobs; cbn. f_equal.
  rewrite (alter_known _ _ _ (shape y)) by (by rewrite lookup_fmap, H). by rewrite fmap_insert.
Qed.

Lemma stream_unref_spec s i x : io_streams s !! i = Some x -> 2 <= s_refcount x < 2 ^ 32 ->
  wp (stream_unref i) (fun _ s' => core_of s' = with_streams <[i := hard {| x with s_refcount := s_refcount x - 1 |}]> (core_of s) /\
    io_trace s' = io_trace s) s.
Proof.
  intros H Hr. unfold stream_unref. apply wp_bind, (wp_follow _ _ x); [done|]. rewrite u32_small by lia. apply wp_bind, wp_bind, (wp_follow _ _ x); [done|]. apply wp_modify.
  destruct (Z.eqb_spec (s_refcount x - 1) 0); [lia|]. apply wp_ret. split; [|done]. unfold core_of, with_vmos, with_streams, with_jobs; cbn. f_equal. by rewrite fmap_insert.
Qed.

Definition completion (j : stream_job) (result : Z) : cqe :=
  let canceling := j_state j =? JOB_STATE_CANCELING in
  Cqe (sqe_cookie (sqe_copy j)) (if canceling then CAP_V2_ECANCELED else result) (if canceling then CQE_FLAG_CANCELED else 0).

(** The record of one completion at the end of a trace. *)
Definition finishes (i : Z) (c : cqe) (s s' : io) : Prop :=
  exists e evs0 evs, io_trace s' = io_trace s ++ evs0 ++ e :: evs /\ (e = Posted i c \/ e = Lost i c) /\ Forall quiet_event evs0 /\ Forall quiet_event evs.

Lemma calm_finishes i c s1 s2 s3 : calm s1 s2 -> finishes i c s2 s3 -> finishes i c s1 s3.
Proof.
  intros (_ & _ & l & T & Q) (e & l0 & l1 & T' & He & Q0 & Q1). exists e, (l ++ l0), l1. rewrite T', T, <- !app_assoc. split; [done|]. split; [done|]. split; [by apply Forall_app|done].
Qed.

Lemma complete_job_spec s job j st result : io_inv (Some job) (core_of s) -> io_next s <= 2 ^ 31 ->
  io_jobs s !! job = Some j -> io_streams s !! j_stream j = Some st ->
  wp (stream_complete_job job result) (fun _ s' => core_of s' = k_complete job (hard_job j) (hard st) (core_of s) /\
    finishes (j_stream j) (completion j result) s s') s.
Proof.
  intros Hinv Hn Hj Hst. assert (c_jobs (core_of s) !! job = Some (hard_job j)) as Hcj by by rewrite core_jobs, Hj.
  assert (c_streams (core_of s) !! j_stream j = Some (hard st)) as Hcs by by rewrite core_streams, Hst.
  pose proof (complete_member _ _ _ _ Hinv Hcj Hcs) as Hin. cbn in Hin. destruct (ii_streams _ _ Hinv _ _ Hcs) as [[_ Hcq _ [Href Hact] Hb _] _]. cbn in Hcq, Href, Hact, Hb.
  pose proof (Permutation_length (unlink_perm _ _ Hin)) as Hl. cbn [length] in Hl.
  unfold stream_complete_job. apply wp_bind, (wp_follow _ _ j); [done|]. apply wp_bind, wp_bind, (wp_follow _ _ st); [done|]. apply wp_modify.
  destruct (Z.gtb_spec (active_jobs st) 0); [|lia]. set (st1 := Stream _ _ _ _ _ _ _ _ _ _ _ _ _ _ _ _ _ _). set (s1 := set_streams _ s).
  assert (core_of s1 = with_streams <[j_stream j := hard st1]> (core_of s)) as E1.
  { unfold s1, core_of, with_vmos, with_streams, with_jobs; cbn. f_equal. by rewrite fmap_insert. }
  assert (postable (core_of s1) (j_stream j)) as Hpo.
  { rewrite E1. split; cbn; [rewrite lookup_insert_eq; eauto| |].
    - intros x. rewrite lookup_insert_eq. intros [= <-]. cbn. eapply ring_ok_vmos; [exact Hcq|]. eauto.
    - intros idx o Ho Hd Hk. by apply (ii_objects _ _ Hinv idx o). }
  apply wp_bind. eapply wp_mono; [|by apply post_cqe_spec]. intros ? s2 (E2 & _ & T2). apply wp_bind.
  apply (wp_mono _ (fun _ s3 => core_of s3 = with_vmos (drop_dest (dest_vmo j)) (core_of s2) /\ io_trace s3 = io_trace s2)).
  2:{ destruct (dest_vmo j) as [v|] eqn:Ed; [|by apply wp_ret]. assert (is_Some (c_vmos (core_of s2) !! v)) as Hv by (rewrite E2, E1; by apply (jk_dest _ _ _ _ (ii_jobs _ _ Hinv _ _ Hcj))).
      destruct (live_vmo _ _ Hv) as (y & Hy & Hcy). apply (vmo_unref_spec s2 v y Hy). rewrite E2, E1 in Hcy. destruct (ii_vmos _ _ Hinv _ _ Hcy) as [[_ Hvr] _]. cbn in Hvr.
      pose proof (users_delete _ _ _ v Hcj) as Hu. rewrite decide_True in Hu by done. pose proof (users_nonneg (delete job (c_jobs (core_of s))) v) as Hnn. cbn in Hu, Hn, Hnn. lia. }
  intros ? s3 [E3 T3]. apply wp_bind, wp_modify. set (s4 := set_jobs _ s3).
  destruct (live_stream s4 (j_stream j)) as (x & Hx & Hcx). { change (c_streams (core_of s4)) with (c_streams (core_of s3)). rewrite E3, E2, E1. cbn. rewrite lookup_insert_eq. eauto. }
  assert (hard x = hard st1) as Ex. { change (c_streams (core_of s4)) with (c_streams (core_of s3)) in Hcx. rewrite E3, E2, E1 in Hcx. cbn in Hcx. rewrite lookup_insert_eq in Hcx. congruence. }
  eapply wp_mono; [|apply (stream_unref_spec s4 _ x Hx)]. 2:{ assert (s_refcount x = s_refcount st) as -> by by injection Ex. cbn in Hn. lia. }
  intros ? s5 [E5 T5]. split.
  - rewrite E5. assert (core_of s4 = with_jobs (delete job) (core_of s3)) as E4 by (unfold s4, core_of, with_vmos, with_streams, with_jobs; cbn; f_equal; by rewrite fmap_delete).
    rewrite E4, E3, E2, E1. unfold k_complete, with_vmos, with_streams, with_jobs; cbn. f_equal. rewrite insert_insert_eq. f_equal. unfold hard; cbn. injection Ex. intros. f_equal; congruence.
  - unfold finishes. rewrite T5. change (io_trace s4) with (io_trace s3). rewrite T3. destruct T2 as (e & evs & T2 & He & Q). exists e, [], evs. done.
Qed.

(** ** Transfers *)
Definition usable (k : core) (v : Z) (np : nat) : Prop := exists x, c_vmos k !! v = Some x /\
  Forall (fun p => p = None \/ p = Some 4096%nat) x.2 /\ length x.2 = np /\ Z.of_nat np < 2 ^ 32.

Lemma inv_usable cur k v : io_inv cur k -> is_Some (c_vmos k !! v) -> exists np, usable k v np.
Proof. intros Hk [x Hx]. exists (length x.2), x. destruct (ii_vmos _ _ Hk _ _ Hx) as [[[H1 H2] _] _]. done. Qed.

Lemma usable_page s v np o : usable (core_of s) v np -> exists x, io_vmos s !! v = Some x /\ length (v_pages x) = np /\
  (vmo_kva_at x o = None \/ exists p, u32 (o / 4096) < Z.of_nat np /\ vmo_kva_at x o = Some (u32 (o / 4096), o mod 4096) /\ page_of x (u32 (o / 4096)) p).
Proof.
  intros (y & Hy & Hf & Hl & Hn). destruct (live_vmo s v) as (x & Hx & Hc); [by exists y|]. rewrite Hy in Hc. injection Hc as ->. cbn [shape snd] in *. rewrite length_fmap in Hl.
  exists x. split; [done|]. split; [done|]. unfold vmo_kva_at. change STREAM_PAGE_SIZE with 4096. rewrite Hl. destruct (Z.geb_spec (u32 (o / 4096)) (Z.of_nat np)); [by left|].
  destruct (get (v_pages x) (u32 (o / 4096))) as [[p|]|] eqn:E; [|by left|by left]. right. exists p. split; [lia|]. split; [done|]. split; [done|].
  unfold get in E. destruct (_ <? 0); [done|]. destruct (proj1 (Forall_lookup _ _) Hf (Z.to_nat (u32 (o / 4096))) (Some (length p))) as [|[= Hp]]; [by rewrite list_lookup_fmap, E|done|done].
Qed.

Lemma settles_node_read s node off n : is_Some (c_files (core_of s) !! node) -> 0 <= n ->
  settles (node_read node off n) (fun r => r.1 < 0 \/ r.1 = Z.of_nat (length r.2) /\ r.1 <= n) s.
Proof.
  intros Hf Hn. unfold node_read. eapply wp_settles; [apply settles_answer|]. intros r s1 Hc _.
  assert (is_Some (io_files s1 !! node)) as [file Hfile].
  { destruct Hc as [E _]. rewrite <- E in Hf. cbn in Hf. rewrite lookup_fmap in Hf. destruct (io_files s1 !! node); [eauto|by destruct Hf]. }
  apply wp_bind, (wp_follow _ _ file); [done|]. apply wp_ret. split; [done|]. destruct (Z.ltb_spec r 0); cbn; [auto|]. right. rewrite length_take. lia.
Qed.

Lemma settles_node_write s node off b : is_Some (c_files (core_of s) !! node) -> settles (node_write node off b) (fun _ => True) s.
Proof.
  intros Hf. unfold node_write. eapply wp_settles; [apply settles_answer|]. intros r s1 Hc _.
  assert (is_Some (io_files s1 !! node)) as [file Hfile].
  { destruct Hc as [E _]. rewrite <- E in Hf. cbn in Hf. rewrite lookup_fmap in Hf. destruct (io_files s1 !! node); [eauto|by destruct Hf]. }
  apply wp_bind, (wp_follow _ _ file); [done|]. destruct (r <? 0); [by apply wp_ret|]. apply wp_bind, wp_modify, wp_ret. split; [|done]. etrans; [done|].
  apply calm_same; [|done|done]. unfold core_of; cbn. f_equal. rewrite fmap_insert. apply insert_id. by rewrite lookup_fmap, Hfile.
Qed.

(** The page number grows by one with each full page, so the pages bound the loops. *)
Lemma next_page o rem np : in_u 64 o -> u32 (o / 4096) < Z.of_nat np -> Z.of_nat np < 2 ^ 32 -> 4096 - o mod 4096 <= rem ->
  u64 (o + Z.min (4096 - o mod 4096) rem) = 4096 * (o / 4096 + 1) /\ u32 (u64 (o + Z.min (4096 - o mod 4096) rem) / 4096) = u32 (o / 4096) + 1.
Proof.
  intros Ho Hp Hn Hr. rewrite Z.min_l by lia. pose proof (Z.div_mod o 4096 ltac:(lia)) as Hd. set (q := o / 4096) in *. unfold wrap in Hp |- * at 2 4.
  replace (o + (4096 - o mod 4096)) with (4096 * (q + 1)) by lia. assert (0 <= q < 2 ^ 52) as Hq.
  { unfold in_u in Ho. unfold q. split; [apply Z.div_pos; lia|]. apply Z.div_lt_upper_bound; lia. }
  assert ((q + 1) mod 2 ^ 32 = q mod 2 ^ 32 + 1) as Em.
  { pose proof (Z.div_mod q (2 ^ 32) ltac:(lia)). symmetry. apply (Z.mod_unique_pos (q + 1) (2 ^ 32) (q / 2 ^ 32)); [|lia]. pose proof (Z.mod_pos_bound q (2 ^ 32)). lia. }
  assert (4096 * (q + 1) < 2 ^ 64) as Hlt.
  { destruct (decide (q = 2 ^ 52 - 1)) as [Eq|]; [|lia]. rewrite Eq in Hp. change ((2 ^ 52 - 1) mod 2 ^ 32) with (2 ^ 32 - 1) in Hp. lia. }
  assert (u64 (4096 * (q + 1)) = 4096 * (q + 1)) as -> by (apply wrap_small; unfold in_u; lia).
  split; [done|]. rewrite Z.mul_comm, Z.div_mul by lia. exact Em.
Qed.

Definition turns (o rem : Z) (np : nat) : Z := if (rem <=? 0) || (Z.of_nat np <=? u32 (o / 4096)) then 1 else Z.of_nat np - u32 (o / 4096) + 1.

Lemma turns_next o rem np : in_u 64 o -> 0 < rem -> u32 (o / 4096) < Z.of_nat np -> Z.of_nat np < 2 ^ 32 ->
  let chunk := Z.min (4096 - o mod 4096) rem in turns (u64 (o + chunk)) (rem - chunk) np < turns o rem np.
Proof.
  intros Ho Hr Hp Hn chunk. unfold turns at 2. destruct (Z.leb_spec rem 0), (Z.leb_spec (Z.of_nat np) (u32 (o / 4096))); try lia. cbn [orb].
  destruct (Z.le_gt_cases (4096 - o mod 4096) rem) as [Hc|Hc].
  - destruct (next_page o rem np Ho Hp Hn Hc) as [_ E]. unfold turns. fold chunk in E. rewrite E. destruct (_ || _); lia.
  - unfold turns, chunk. rewrite Z.min_r by lia. replace (rem - rem <=? 0) with true by lia. cbn [orb]. lia.
Qed.

Lemma turns_start o rem np : turns o rem np <= Z.of_nat np + 1.
Proof. unfold turns. pose proof (wrap_bound 32 (o / 4096) ltac:(lia)) as H. unfold in_u in H. destruct (_ || _); lia. Qed.

(** A page that is there stays there while the core is kept. *)
Lemma page_same s s1 v x pg p : core_of s1 = core_of s -> io_vmos s !! v = Some x -> page_of x pg p -> exists x1 p1, io_vmos s1 !! v = Some x1 /\ page_of x1 pg p1.
Proof.
  intros E Hx [Hp Hl]. pose proof (core_vmos s1 v) as E1. rewrite E, core_vmos, Hx in E1. destruct (io_vmos s1 !! v) as [x1|]; [|done]. cbn in E1. injection E1 as _ _ Es.
  unfold get in Hp. destruct (pg <? 0) eqn:Epg; [done|]. pose proof (list_lookup_fmap (fmap length : option (list Z) -> option nat) (v_pages x) (Z.to_nat pg)) as Hq.
  rewrite Es, list_lookup_fmap, Hp in Hq. destruct (v_pages x1 !! Z.to_nat pg) as [[p1|]|] eqn:E1; [|done|done]. injection Hq as Hq.
  exists x1, p1. split; [done|]. split; [|congruence]. unfold get. by rewrite Epg.
Qed.

Lemma settles_read_loop node dst np : forall fuel s s_off d_off rem total, usable (core_of s) dst np -> is_Some (c_files (core_of s) !! node) ->
  in_u 64 d_off -> turns d_off rem np <= Z.of_nat fuel -> settles (read_into_loop fuel node dst s_off d_off rem total) (fun _ => True) s.
Proof.
  induction fuel as [|fuel IH]; intros s s_off d_off rem total Hu Hf Ho Ht; [unfold turns in Ht; destruct (_ || _) eqn:E; lia|].
  cbn [read_into_loop]. destruct (Z.leb_spec rem 0); [by apply wp_ret|]. destruct (usable_page s dst np d_off Hu) as (x & Hx & Hl & Hk).
  apply wp_bind, (wp_follow _ _ x); [done|]. destruct Hk as [->|(p & Hpg & -> & Hp)]; [by apply wp_ret|].
  pose proof (Z.mod_pos_bound d_off 4096 ltac:(lia)) as Hm. assert (Z.of_nat np < 2 ^ 32) as Hn by by destruct Hu as (? & ? & ? & ? & ?).
  eapply wp_settles; [apply settles_node_read; [done|lia]|]. intros [n b] s1 Hc1 Hn1. cbn [fst snd] in *.
  destruct (Z.ltb_spec n 0); [by apply wp_ret|]. destruct (n =? 0); [by apply wp_ret|]. destruct Hn1 as [|[-> Hle]]; [lia|].
  destruct (page_same s s1 dst x _ p (proj1 Hc1) Hx Hp) as (x1 & p1 & Hx1 & Hp1).
  eapply wp_settles; [by apply (settles_store _ _ _ _ _ x1 p1); [done|done|lia|lia]|]. intros ? s2 Hc2 _.
  destruct (_ <? _); [apply wp_ret; split; [by etrans|done]|]. assert (core_of s2 = core_of s) as E2 by (rewrite (proj1 Hc2); apply Hc1).
  eapply wp_mono; [|apply (IH s2)]; [|by rewrite E2|by rewrite E2|by apply wrap_bound|].
  - intros ? s3 [Hc3 _]. split; [|done]. by do 2 (etrans; [done|]).
  - pose proof (turns_next d_off rem np Ho ltac:(lia) Hpg Hn). cbv zeta in *. lia.
Qed.

Lemma settles_write_loop node src np : forall fuel s d_off s_off rem total, usable (core_of s) src np -> is_Some (c_files (core_of s) !! node) ->
  in_u 64 s_off -> turns s_off rem np <= Z.of_nat fuel -> settles (write_from_loop fuel node src d_off s_off rem total) (fun _ => True) s.
Proof.
  induction fuel as [|fuel IH]; intros s d_off s_off rem total Hu Hf Ho Ht; [unfold turns in Ht; destruct (_ || _) eqn:E; lia|].
  cbn [write_from_loop]. destruct (Z.leb_spec rem 0); [by apply wp_ret|]. destruct (usable_page s src np s_off Hu) as (x & Hx & Hl & Hk).
  apply wp_bind, (wp_follow _ _ x); [done|]. destruct Hk as [->|(p & Hpg & -> & Hp)]; [by apply wp_ret|].
  pose proof (Z.mod_pos_bound s_off 4096 ltac:(lia)) as Hm. assert (Z.of_nat np < 2 ^ 32) as Hn by by destruct Hu as (? & ? & ? & ? & ?).
  eapply wp_settles; [by apply (settles_load _ _ _ _ _ x p); [done|done|lia]|]. intros b s1 Hc1 _.
  eapply wp_settles; [apply settles_node_write; by rewrite (proj1 Hc1)|]. intros n s2 Hc2 _. assert (core_of s2 = core_of s) as E2 by (rewrite (proj1 Hc2); apply Hc1).
  destruct (n <? 0); [apply wp_ret; split; [by etrans|done]|]. destruct (n =? 0); [apply wp_ret; split; [by etrans|done]|].
  destruct (_ <? _); [apply wp_ret; split; [by etrans|done]|].
  eapply wp_mono; [|apply (IH s2)]; [|by rewrite E2|by rewrite E2|by apply wrap_bound|].
  - intros ? s3 [Hc3 _]. split; [|done]. by do 2 (etrans; [done|]).
  - pose proof (turns_next s_off rem np Ho ltac:(lia) Hpg Hn). cbv zeta in *. lia.
Qed.

Lemma settles_transfer s node v np (read : bool) a b len : usable (core_of s) v np -> is_Some (c_files (core_of s) !! node) -> in_u 64 b ->
  settles (if read then read_into_vmo node a v b len else write_from_vmo node a v b len) (fun _ => True) s.
Proof.
  intros Hu Hf Hb. destruct (usable_page s v np 0 Hu) as (x & Hx & Hl & _). pose proof (turns_start b len np) as Ht.
  destruct read; (apply wp_bind, (wp_follow _ _ x); [done|]); (destruct (_ >? _); [by apply wp_ret|]); rewrite Hl.
  - eapply settles_read_loop; [done..|lia].
  - eapply settles_write_loop; [done..|lia].
Qed.

Lemma settles_copy_loop i np : forall fuel s o rem, usable (core_of s) i np -> in_u 64 o -> turns o rem np <= Z.of_nat fuel ->
  settles (copy_from_loop fuel i o rem) (fun _ => True) s.
Proof.
  induction fuel as [|fuel IH]; intros s o rem Hu Ho Ht; [unfold turns in Ht; destruct (_ || _) eqn:E; lia|].
  cbn [copy_from_loop]. destruct (Z.leb_spec rem 0); [by apply wp_ret|]. destruct (usable_page s i np o Hu) as (x & Hx & Hl & Hk).
  apply wp_bind, (wp_follow _ _ x); [done|]. destruct Hk as [->|(p & Hpg & -> & Hp)]; [by apply wp_ret|].
  pose proof (Z.mod_pos_bound o 4096 ltac:(lia)) as Hm. assert (Z.of_nat np < 2 ^ 32) as Hn by by destruct Hu as (? & ? & ? & ? & ?).
  eapply wp_settles; [by apply (settles_load _ _ _ _ _ x p); [done|done|lia]|]. intros b s1 Hc1 _.
  pose proof (turns_next o rem np Ho ltac:(lia) Hpg Hn) as Htn. cbv zeta in Htn.
  eapply wp_settles with (P := fun _ => True).
  - apply IH; [by rewrite (proj1 Hc1)|by apply wrap_bound|lia].
  - intros ? s2 Hc2 _. apply wp_ret. split; [by etrans|done].
Qed.

Lemma settles_copy s v np o max : usable (core_of s) v np -> in_u 64 o -> settles (copy_from_vmo v o max) (fun _ => True) s.
Proof.
  intros Hu Ho. destruct (usable_page s v np 0 Hu) as (x & Hx & Hl & _). apply wp_bind, (wp_follow _ _ x); [done|].
  destruct (_ || _); [by apply wp_ret|]. rewrite Hl. apply (settles_copy_loop v np); [done|done|]. pose proof (turns_start o (if u64 (o + max) >? v_size x then u32 (v_size x - o) else max) np). lia.
Qed.
