(* ===== verification/StreamSteps.v ===== *)
(** * Submission streams: the operations

    Each operation of the worker, of the submission, of the limit and of destruction
    keeps the invariant and the balance of the trace: what a stream has consumed is what
    it has completed, delivered or lost, together with what is still in flight. *)
From S2P Require Import Prelude Bytes StateM CapToken CapObject HandleTable Pledge CapSystem Runq Rlimit Stream StreamInv.
Local Open Scope Z_scope.

(** ** The worker *)
Definition completes (job : Z) (j : stream_job) (s s' : io) : Prop := exists x r, c_streams (core_of s) !! j_stream j = Some x /\
  core_of s' = k_complete job (hard_job j) x (core_of s) /\ finishes (j_stream j) (completion j r) s s'.

Section dispatch.
  Context (s : io) (job : Z) (j : stream_job).
  Hypothesis Hinv : io_inv (Some job) (core_of s).
  Hypothesis Hn : io_next s <= 2 ^ 31.
  Hypothesis Hj : io_jobs s !! job = Some j.

Lemma complete_after s1 r : calm s s1 -> wp (stream_complete_job job r) (fun _ s' => completes job j s s') s1.
Proof using Hinv Hn Hj.
  intros Hc. destruct Hc as (E & J & T) eqn:EHc. assert (io_jobs s1 !! job = Some j) as Hj1 by by rewrite J.
  assert (c_jobs (core_of s) !! job = Some (hard_job j)) as Hcj by by rewrite core_jobs, Hj.
  destruct (live_stream s1 (j_stream j)) as (st & Hst & Hcs); [rewrite E; apply (jk_stream _ _ _ _ (ii_jobs _ _ Hinv _ _ Hcj))|].
  assert (io_next s1 <= 2 ^ 31) as Hn1. { change (io_next s1) with (c_next (core_of s1)). by rewrite E. }
  eapply wp_mono; [|apply (complete_job_spec s1 job j st r); [by rewrite E|done|done|done]].
  intros ? s' [E' F]. exists (hard st), r. split; [by rewrite <- E|]. split; [by rewrite E', E|]. by eapply calm_finishes.
Qed.

Lemma dest_usable v : dest_vmo j = Some v -> exists np, usable (core_of s) v np.
Proof using Hinv Hj.
  intros Hd. eapply inv_usable; [done|]. assert (c_jobs (core_of s) !! job = Some (hard_job j)) as Hcj by by rewrite core_jobs, Hj.
  by apply (jk_dest _ _ _ _ (ii_jobs _ _ Hinv _ _ Hcj)).
Qed.

Lemma sqe_widths : in_u 64 (dest_vmo_offset (sqe_copy j)).
Proof using Hinv Hj.
  assert (c_jobs (core_of s) !! job = Some (hard_job j)) as Hcj by by rewrite core_jobs, Hj. apply (jk_sqe _ _ _ _ (ii_jobs _ _ Hinv _ _ Hcj)).
Qed.

Lemma settles_node pid fd : settles (node_for_submitter_fd pid fd) (fun o => forall node, o = Some node -> is_Some (c_files (core_of s) !! node)) s.
Proof using Hinv.
  apply wp_bind, wp_gets, wp_ret. split; [reflexivity|]. intros node. destruct (_ || _); [done|]. destruct (sched_get_task _ _); [|done].
  intros H. by apply (ii_fds _ _ Hinv) in H.
Qed.

Lemma dispatch_rw_spec (read : bool) : wp (if read then dispatch_read_vmo job else dispatch_write_vmo job) (fun _ s' => completes job j s s') s.
Proof using Hinv Hn Hj.
  assert (forall f, (forall node v s1, calm s s1 -> is_Some (c_files (core_of s) !! node) -> dest_vmo j = Some v -> settles (f node (sqe_copy j) v) (fun _ => True) s1) ->
    wp (dispatch_rw f job) (fun _ s' => completes job j s s') s) as H.
  { intros f Hf. unfold dispatch_rw. apply wp_bind, (wp_follow _ _ j); [done|]. destruct (_ =? _); [by apply complete_after|].
    destruct (dest_vmo j) as [v|] eqn:Ed; [|by apply complete_after]. eapply wp_settles; [apply settles_node|]. intros [node|] s1 Hc1 Hnode; [|by apply complete_after].
    eapply wp_settles; [by apply Hf; [done|by apply Hnode|]|]. intros r s2 Hc2 _. apply complete_after. by etrans. }
  pose proof sqe_widths as Hw. destruct read; apply H; intros node v s1 Hc Hf Hd; destruct (dest_usable v Hd) as [np Hu].
  - apply (settles_transfer s1 node v np true); by rewrite ?(proj1 Hc).
  - apply (settles_transfer s1 node v np false); by rewrite ?(proj1 Hc).
Qed.

Lemma settles_channel pid idx : settles (resolve_channel pid idx) (fun _ => True) s.
Proof using Hinv.
  unfold resolve_channel. apply wp_bind, wp_gets. unfold id. destruct (cap_object_get _ _) as [o|] eqn:Eo; [|by apply wp_ret].
  destruct (Z.eqb_spec (kind o) CAP_KIND_CHANNEL) as [Ek|]; cbn [negb]; [|by apply wp_ret]. destruct (negb _); [by apply wp_ret|].
  destruct (Z.eqb_spec (kind_data o) 0) as [|Hd]; [by apply wp_ret|]. unfold cap_object_get in Eo. destruct (_ >=? _); [done|].
  destruct (ii_objects _ _ Hinv idx o Eo Hd) as (_ & He & _). destruct (He Ek) as [ep Hep]. apply wp_bind, (wp_follow _ _ ep); [done|]. by apply wp_ret.
Qed.

Lemma dispatch_sendmsg_spec : dest_vmo j = None -> wp (dispatch_sendmsg job) (fun _ s' => completes job j s s') s.
Proof using Hinv Hn Hj.
  intros Hd. unfold dispatch_sendmsg. apply wp_bind, (wp_follow _ _ j); [done|]. destruct (_ =? _); [by apply complete_after|].
  eapply wp_settles; [apply settles_channel|]. intros [ch|] s1 Hc1 _; [|by apply complete_after]. apply wp_bind, wp_gets.
  destruct (sched_get_task _ _); [|by apply complete_after]. rewrite Hd. apply wp_bind, wp_ret.
  eapply wp_settles; [apply settles_answer|]. intros r s3 Hc3 _. eapply wp_settles with (P := fun _ => True).
  { destruct (r =? 0); [by apply settles_emit; constructor|by apply wp_ret]. }
  intros ? s4 Hc4 _. apply complete_after. by do 2 (etrans; [done|]).
Qed.

Lemma dispatch_spec d : (d = Dispatch_sendmsg -> dest_vmo j = None) -> wp (dispatch d job) (fun _ s' => completes job j s s') s.
Proof using Hinv Hn Hj.
  intros Hd. destruct d; cbn [dispatch]; [apply (dispatch_rw_spec true)|apply (dispatch_rw_spec false)|by apply dispatch_sendmsg_spec, Hd|by apply complete_after|by apply complete_after| |by apply complete_after].
  unfold dispatch_fsync_stub. apply wp_bind, (wp_follow _ _ j); [done|]. eapply wp_settles; [apply settles_node|]. intros [node|] s1 Hc1 _; [|by apply complete_after].
  eapply wp_settles; [apply settles_answer|]. intros r s2 Hc2 _. apply complete_after. by etrans.
Qed.
End dispatch.

Definition k_pop (q : list Z) (k : core) : core := {| k with c_queue := q |}.

Lemma pop_inv job q k : io_inv None k -> c_queue k = job :: q -> io_inv (Some job) (k_pop q k).
Proof.
  intros [H1 H2 H3 [H4 H5] H6 H7 H8 H9 H10] Hq. rewrite Hq in H4, H5. apply NoDup_cons in H4 as [Hni Hnd]. split; [| | | | | | done|done|done]; cbn.
  - intros i s Hs. destruct (H1 _ _ Hs) as [[A B C D E G] F]. split; [|done]. split; [| |done|done|done|done]; (eapply ring_ok_vmos; [done|]); eauto.
  - intros v x Hx. destruct (H2 _ _ Hx) as [[A B] C]. done.
  - intros job' j' Hj'. destruct (H3 _ _ Hj') as [A B C D E G]. split; [done|done| |done|done|done]. cbn. rewrite Hq in C. destruct C as [C|[C|C]]; [|by right; left|done].
    apply elem_of_cons in C as [->|C]; [by right; right|by left].
  - split; [done|]. intros job' Hin. destruct (H5 job') as [A B]; [by right|]. split; [done|]. congruence.
  - intros pid. destruct (H6 pid) as [A B]. split; [done|]. intros job' Hin. destruct (B _ Hin) as (C & D & E). rewrite Hq in D. apply not_elem_of_cons in D as [D1 D2]. split; [done|]. split; [done|]. congruence.
  - intros job' [= <-]. apply H5. left.
Qed.

(** The completion the worker reports is never marked as cancelled. *)
Definition worked (s s' : io) : Prop := exists job q j x r, g_worker_queue s = job :: q /\ io_jobs s !! job = Some j /\ c_streams (core_of s) !! j_stream j = Some x /\
  core_of s' = k_complete job (hard_job j) x (k_pop q (core_of s)) /\ finishes (j_stream j) (Cqe (sqe_cookie (sqe_copy j)) r 0) s s'.

(** A request to send is not a bulk operation and has no memory object. *)
Lemma sendmsg_no_dest cur k job j st o : io_inv cur k -> c_jobs k !! job = Some (hard_job j) -> c_streams k !! j_stream j = Some (hard st) ->
  stream_find_op st (sqe_op (sqe_copy j)) = Some o -> schema_dispatcher o = Dispatch_sendmsg -> dest_vmo j = None.
Proof.
  intros Hinv Hj Hs Ho Hd. pose proof (proj1 (sk_ops _ _ _ (proj1 (ii_streams _ _ Hinv _ _ Hs)))) as Hops. cbn in Hops. unfold stream_find_op in Ho. rewrite Hops in Ho.
  apply List.find_some in Ho as [Hin Hop%Z.eqb_eq]. destruct (dest_vmo j) as [v|] eqn:E; [|done]. exfalso.
  assert (sqe_op (sqe_copy j) = OP_READ_VMO \/ sqe_op (sqe_copy j) = OP_WRITE_VMO) as Hb by (apply (jk_bulk _ _ _ _ (ii_jobs _ _ Hinv _ _ Hj)); cbn; congruence).
  unfold op_schema_io_v1 in Hin. cbn in Hin. destruct Hb as [Hb|Hb]; rewrite Hb in Hop; repeat destruct Hin as [<-|Hin]; done.
Qed.

Lemma worker_step_spec s : io_inv None (core_of s) -> io_next s <= 2 ^ 31 ->
  wp worker_step (fun b s' => if b then worked s s' /\ io_inv None (core_of s') /\ io_next s' = io_next s else s' = s /\ g_worker_queue s = []) s.
Proof.
  intros Hinv Hn. unfold worker_step, worker_pop. apply wp_bind, wp_bind, wp_gets. destruct (g_worker_queue s) as [|job q] eqn:Eq; [by apply wp_ret, wp_ret|].
  apply wp_bind, wp_modify, wp_ret. set (s1 := Io _ _ _ _ _ _ _ _ _ _ _ _ _ _ _). pose proof (pop_inv job q (core_of s) Hinv Eq) as Hinv1. change (k_pop q (core_of s)) with (core_of s1) in Hinv1.
  destruct (live_job s1 job) as (j & Hj & Hcj); [by apply (ii_cur _ _ Hinv1)|]. apply wp_bind, wp_bind, (wp_follow _ _ j); [done|]. apply wp_modify.
  set (s2 := set_jobs _ s1). set (j2 := Stream_job _ _ _ _ _) in s2. assert (core_of s2 = core_of s1) as E2.
  { unfold s2, core_of; cbn. f_equal. rewrite fmap_insert. apply insert_id. rewrite lookup_fmap. exact (f_equal (fmap hard_job) Hj). }
  assert (io_jobs s2 !! job = Some j2) as Hj2 by apply lookup_insert_eq. apply wp_bind, (wp_follow _ _ j2); [done|].
  destruct (live_stream s2 (j_stream j2)) as (st & Hst & Hcst); [rewrite E2; apply (jk_stream _ _ _ _ (ii_jobs _ _ Hinv1 _ _ Hcj))|].
  apply wp_bind, (wp_follow _ _ st); [done|]. assert (io_inv (Some job) (core_of s2)) as Hinv2 by by rewrite E2. apply wp_bind.
  apply (wp_mono _ (fun _ s' => completes job j2 s2 s')); [|destruct (stream_find_op _ _) as [o|] eqn:Eo; [apply dispatch_spec; [done|done|done|]|by apply complete_after]].
  2:{ intros Hd. apply (sendmsg_no_dest (Some job) (core_of s2) job j2 st o); [done|by rewrite core_jobs, Hj2|done|done|done]. }
  intros ? s3 (x & r & Hx & E3 & F). apply wp_ret. rewrite E2 in Hx, E3. split; [|split].
  - exists job, q, j, x, r. split; [done|]. split; [exact Hj|]. split; [exact Hx|]. split; [exact E3|exact F].
  - rewrite E3. apply complete_inv; [done|exact Hcj|exact Hx].
  - change (io_next s3) with (c_next (core_of s3)). by rewrite E3.
Qed.

(** ** The I/O limit *)
Definition k_ship (pid : Z) (shipped rest : list Z) (k : core) : core :=
  {| k with c_queue := c_queue k ++ shipped; c_pending := <[pid := rest]> (c_pending k) |}.

Lemma waiting_ship pid shipped rest k pid' : waiting (k_ship pid shipped rest k) pid' = if decide (pid' = pid) then rest else waiting k pid'.
Proof.
  unfold waiting; cbn. destruct (decide (pid' = pid)) as [->|]; [by rewrite lookup_insert_eq|by rewrite lookup_insert_ne].
Qed.

Lemma ship_inv pid shipped rest k : io_inv None k -> waiting k pid = shipped ++ rest -> io_inv None (k_ship pid shipped rest k).
Proof.
  intros [H1 H2 H3 [H4 H5] H6 H7 H8 H9 H10] Hw. destruct (H6 pid) as [Hnd Hin]. rewrite Hw in Hnd, Hin. apply NoDup_app in Hnd as (Hn1 & Hdis & Hn2).
  assert (forall pid', pid' <> pid -> forall job, job ∈ waiting k pid' -> job ∉ shipped) as Hother.
  { intros pid' Hne job Ha Hb. destruct (proj2 (H6 pid') job Ha) as ((j1 & Hj1 & E1) & _). destruct (Hin job) as ((j2 & Hj2 & E2) & _); [apply elem_of_app; by left|]. congruence. }
  split; [| | | | |done|done|done|done].
  - intros i s Hs. destruct (H1 _ _ Hs) as [[A B C D E G] F]. split; [|done]. split; [| |done|done|done|done]; (eapply ring_ok_vmos; [done|]); eauto.
  - intros v x Hx. destruct (H2 _ _ Hx) as [[A B] C]. done.
  - intros job j Hj. destruct (H3 _ _ Hj) as [A B C D E G]. split; [done|done| |done|done|done]. rewrite waiting_ship. cbn. rewrite elem_of_app.
    destruct C as [C|[C|C]]; [by left; left| |done]. case_decide as Hp; [|by right; left]. rewrite Hp, Hw in C. apply elem_of_app in C as [C|C]; [by left; right|by right; left].
  - cbn. split.
    + apply NoDup_app. split; [done|]. split; [|done]. intros job Ha Hb. destruct (Hin job) as (_ & Hc & _); [apply elem_of_app; by left|done].
    + intros job [Ha|Ha]%elem_of_app; [by apply H5|]. destruct (Hin job) as ((j & Hj & _) & _); [apply elem_of_app; by left|]. split; [by exists j|done].
  - intros pid'. rewrite waiting_ship. case_decide as Hp.
    + subst pid'. split; [done|]. intros job Ha. destruct (Hin job) as (A & B & C); [apply elem_of_app; by right|]. split; [done|]. split; [|done].
      cbn. rewrite not_elem_of_app. split; [done|]. intros Hb. by apply (Hdis job).
    + destruct (H6 pid') as [A B]. split; [done|]. intros job Ha. destruct (B job Ha) as (C & D & E). split; [done|]. split; [|done].
      cbn. rewrite not_elem_of_app. split; [done|]. by apply (Hother pid').
Qed.

Definition job_len (s : io) (job : Z) : Z := default 0 ((fun j => sqe_len (sqe_copy j)) <$> io_jobs s !! job).
Definition quiet_trace (s s' : io) : Prop := exists evs, io_trace s' = io_trace s ++ evs /\ Forall quiet_event evs.

Lemma quiet_trace_trans s1 s2 s3 : quiet_trace s1 s2 -> quiet_trace s2 s3 -> quiet_trace s1 s3.
Proof. intros (l1 & T1 & Q1) (l2 & T2 & Q2). exists (l1 ++ l2). split; [by rewrite T2, T1, app_assoc|by apply Forall_app]. Qed.

Definition k_enqueue (jobs : list Z) (k : core) : core := {| k with c_queue := c_queue k ++ jobs |}.

(** The loop over jobs is the loop over lengths of Rlimit. *)
Lemma drain_jobs_spec jobs : forall tok s, (forall job, job ∈ jobs -> is_Some (io_jobs s !! job)) ->
  wp (drain_jobs jobs tok) (fun r s' => exists shipped, jobs = shipped ++ r.2 /\
    drain tok (map (job_len s) jobs) = (r.1, map (job_len s) r.2, map (job_len s) shipped) /\
    core_of s' = k_enqueue shipped (core_of s) /\ io_jobs s' = io_jobs s /\ quiet_trace s s') s.
Proof.
  induction jobs as [|job jobs IH]; intros tok s Hl; cbn [drain_jobs].
  { apply wp_ret. exists []. split; [done|]. split; [done|]. split; [|split; [done|exists []; by rewrite app_nil_r]]. unfold k_enqueue; cbn. by rewrite app_nil_r. }
  destruct (Hl job) as [j Hj]; [left|]. apply wp_bind, (wp_follow _ _ j); [done|].
  assert (job_len s job = sqe_len (sqe_copy j)) as El by (unfold job_len; by rewrite Hj). cbn [map drain]. rewrite El. destruct (tok <? swrap 64 (sqe_len (sqe_copy j))) eqn:Et.
  { apply wp_ret. exists []. split; [done|]. cbn [fst snd map]. rewrite El. split; [done|]. split; [|split; [done|exists []; by rewrite app_nil_r]]. unfold k_enqueue; cbn. by rewrite app_nil_r. }
  apply wp_bind, wp_bind, wp_modify, wp_modify. set (s1 := Io _ _ _ _ _ _ _ _ _ _ _ _ _ _ _).
  eapply wp_mono; [|apply (IH (swrap 64 (tok - swrap 64 (sqe_len (sqe_copy j)))) s1)]; [|intros job' Hin; apply Hl; by right].
  intros r s' (shipped & Hj' & Hd & E & J & T). change (job_len s1) with (job_len s) in Hd. exists (job :: shipped). split; [by rewrite Hj'|]. split; [rewrite Hd; cbn [map]; by rewrite El|].
  split; [rewrite E; unfold k_enqueue, s1; cbn; f_equal; by rewrite <- app_assoc|]. split; [done|]. eapply quiet_trace_trans; [|done]. exists [Wake_worker]. split; [done|by constructor].
Qed.

(** A tick moves a part of the jobs that wait to the worker, as [rlimit_refill_io_tokens]
    does with their lengths. *)
Lemma refill_io_spec s pid : io_inv None (core_of s) ->
  wp (refill_io_tokens pid) (fun _ s' => exists shipped rest, pending s pid = shipped ++ rest /\
    (core_of s' = core_of s /\ shipped = [] \/ core_of s' = k_ship pid shipped rest (core_of s)) /\ io_jobs s' = io_jobs s /\ quiet_trace s s' /\
    forall t, limits s pid = t -> exists t', rlimit_refill_io_tokens {| t with io_pending := map (job_len s) (pending s pid) |} = (t', map (job_len s) shipped) /\
      io_pending t' = map (job_len s) rest /\ io_tokens (limits s' pid) = io_tokens t') s.
Proof.
  intros Hinv. unfold refill_io_tokens. apply wp_bind, wp_gets. set (t := limits s pid). destruct (Z.eqb_spec (io_rate_bytes_per_sec t) 0) as [Er|Er].
  { apply wp_ret. exists [], (pending s pid). split; [done|]. split; [by left|]. split; [done|]. split; [exists []; by rewrite app_nil_r|]. intros t' <-. fold t.
    eexists. unfold rlimit_refill_io_tokens. cbn [io_rate_bytes_per_sec]. rewrite Er. cbn. done. }
  apply wp_bind, wp_gets. set (tok := if _ >? _ then _ else _). assert (forall job, job ∈ pending s pid -> is_Some (io_jobs s !! job)) as Hl.
  { intros job Hin. destruct (proj2 (ii_wait _ _ Hinv pid) job Hin) as ((j & Hj & _) & _). rewrite core_jobs in Hj. destruct (io_jobs s !! job); [eauto|done]. }
  apply wp_bind. eapply wp_mono; [|by apply (drain_jobs_spec _ tok s Hl)]. intros [tok' rest] s1 (shipped & Hp & Hd & E & J & T). cbn [fst snd] in *. apply wp_modify.
  exists shipped, rest. split; [done|]. split; [right; unfold k_ship; rewrite <- (f_equal c_queue E : _ = c_queue _ ++ _); unfold core_of; cbn|].
  { pose proof E as E'. unfold k_enqueue, core_of in E'; cbn in E'. injection E' as -> -> -> -> _ -> -> -> -> ->. done. }
  split; [done|]. split; [done|]. intros ? <-. fold t. unfold rlimit_refill_io_tokens. cbn [io_rate_bytes_per_sec io_tokens io_pending].
  destruct (Z.eqb_spec (io_rate_bytes_per_sec t) 0); [done|]. fold tok. rewrite Hd. eexists. split; [done|]. cbn. split; [done|]. unfold limits; cbn. by rewrite lookup_insert_eq.
Qed.

(** ** Submission *)
Definition take_dest (o : option Z) (m : gmap Z (Z * Z * list (option nat))) : gmap Z (Z * Z * list (option nat)) :=
  match o with Some v => alter (add_ref 1) v m | None => m end.

Definition k_link (i pid : Z) (q : sqe) (dest : option Z) (wait : bool) (st : stream) (k : core) : core :=
  let job := c_next k in
  {| k with c_streams := <[i := {| st with s_refcount := s_refcount st + 1; jobs_head := job :: jobs_head st; active_jobs := active_jobs st + 1 |}]> (c_streams k);
            c_jobs := <[job := Stream_job 0 i q pid dest]> (c_jobs k); c_vmos := take_dest dest (c_vmos k);
            c_pending := if wait then <[pid := job :: waiting k pid]> (c_pending k) else c_pending k;
            c_queue := if wait then c_queue k else c_queue k ++ [job]; c_next := job + 1 |}.

Lemma take_dest_lookup o m v x : take_dest o m !! v = Some x <-> exists y, m !! v = Some y /\ x = if decide (o = Some v) then add_ref 1 y else y.
Proof.
  destruct o as [w|]; cbn [take_dest]; [|case_decide; [done|]; naive_solver]. destruct (decide (w = v)) as [->|Hne].
  - rewrite lookup_alter_eq. destruct (decide (Some v = Some v)); [|done]. destruct (m !! v) as [y|]; cbn; naive_solver.
  - rewrite lookup_alter_ne by done. destruct (decide (Some w = Some v)); [congruence|]. naive_solver.
Qed.

Lemma take_dest_live o m v : is_Some (take_dest o m !! v) <-> is_Some (m !! v).
Proof.
  split; intros [x Hx]; [apply take_dest_lookup in Hx as (y & ? & _); by exists y|]. eexists. apply take_dest_lookup. eauto.
Qed.

Section link.
  Context (k : core) (i pid : Z) (q : sqe) (dest : option Z) (wait : bool) (st : stream).
  Hypothesis Hinv : io_inv None k.
  Hypothesis Hst : c_streams k !! i = Some st.
  Hypothesis Hdest : forall v, dest = Some v -> is_Some (c_vmos k !! v).
  Hypothesis Hq : in_u 64 (dest_vmo_offset q).
  Hypothesis Hbulk : dest <> None -> sqe_op q = OP_READ_VMO \/ sqe_op q = OP_WRITE_VMO.

Lemma link_fresh : c_jobs k !! c_next k = None.
Proof using Hinv. destruct (c_jobs k !! c_next k) as [j|] eqn:E; [|done]. apply (ii_jobs _ _ Hinv), jk_next in E. lia. Qed.

Lemma link_waiting pid' : waiting (k_link i pid q dest wait st k) pid' = if wait && bool_decide (pid' = pid) then c_next k :: waiting k pid else waiting k pid'.
Proof using.
  unfold waiting; cbn. destruct wait; cbn; [|done]. case_bool_decide as Hp; [subst; by rewrite lookup_insert_eq|by rewrite lookup_insert_ne].
Qed.

Lemma link_streams i' s : c_streams (k_link i pid q dest wait st k) !! i' = Some s -> stream_ok (k_link i pid q dest wait st k) i' s /\ i' < c_next k + 1.
Proof using Hinv Hst.
  assert (forall v e sz, ring_ok k v e sz -> ring_ok (k_link i pid q dest wait st k) v e sz) as Hring.
  { intros v e sz Hr. eapply ring_ok_vmos; [done|]. intros x Hx. eexists. split; [apply take_dest_lookup; eauto|]. by case_decide. }
  pose proof link_fresh as Hf. intros Hs. cbn in Hs. apply lookup_insert_Some in Hs as [[<- <-]|[Hne Hs]].
  - destruct (ii_streams _ _ Hinv _ _ Hst) as [[H1 H2 [H3 H4] [H5 H6] H7 Hops] H8]. split; [|lia]. split; cbn [s_ops sq_vmo cq_vmo sq_entries cq_entries jobs_head s_refcount active_jobs c_jobs c_next k_link]; [auto|auto| |cbn [length]; lia|cbn [length]; lia|done].
    split.
    + apply NoDup_cons. split; [|done]. intros (j & Hj & _)%H4. congruence.
    + intros job. rewrite elem_of_cons, H4. split.
      * intros [->|(j & Hj & E)]; [rewrite lookup_insert_eq; eauto|]. exists j. split; [|done]. rewrite lookup_insert_ne; [done|]. congruence.
      * intros (j & Hj & E). apply lookup_insert_Some in Hj as [[<- <-]|[_ Hj]]; [by left|right; eauto].
  - destruct (ii_streams _ _ Hinv _ _ Hs) as [[H1 H2 [H3 H4] H5 H7 Hops] H8]. split; [|lia]. split; cbn [c_jobs c_next k_link]; [auto|auto| |done|lia|done].
    split; [done|]. intros job. rewrite H4. split; intros (j & Hj & E).
    + exists j. split; [|done]. rewrite lookup_insert_ne; [done|]. congruence.
    + apply lookup_insert_Some in Hj as [[<- <-]|[_ Hj]]; [done|eauto].
Qed.

Lemma link_vmos v x : c_vmos (k_link i pid q dest wait st k) !! v = Some x -> vmo_ok (k_link i pid q dest wait st k) v x /\ v < c_next k + 1.
Proof using Hinv.
  intros (y & Hy & ->)%take_dest_lookup. destruct (ii_vmos _ _ Hinv _ _ Hy) as [[H1 H2] H3]. split; [|lia].
  pose proof (users_insert (c_jobs k) (c_next k) (Stream_job 0 i q pid dest) v link_fresh) as Hu. cbn [dest_vmo] in Hu. split; cbn [c_jobs c_next k_link]; case_decide; cbn [add_ref fst snd]; try done; lia.
Qed.

Lemma link_inv : io_inv None (k_link i pid q dest wait st k).
Proof using Hinv Hst Hdest Hq Hbulk.
  pose proof link_fresh as Hf. destruct Hinv as [H1 H2 H3 [H4 H5] H6 H7 H8 H9 H10].
  assert (forall job, is_Some (c_jobs k !! job) -> job <> c_next k) as Hold by (intros job [j Hj] ->; congruence).
  assert (forall job, is_Some (c_jobs k !! job) -> is_Some (<[c_next k := Stream_job 0 i q pid dest]> (c_jobs k) !! job)) as Hkeep by (intros job Hj; rewrite lookup_insert_ne; [done|]; by apply not_eq_sym, Hold).
  assert (forall z, is_Some (c_streams k !! z) -> is_Some (c_streams (k_link i pid q dest wait st k) !! z)) as Hks.
  { intros z Hz. cbn. destruct (decide (z = i)) as [->|]; [rewrite lookup_insert_eq; eauto|by rewrite lookup_insert_ne]. }
  split; [exact link_streams|exact link_vmos| | | |done| |done|cbn; lia].
  - intros job j Hj. cbn in Hj. apply lookup_insert_Some in Hj as [[<- <-]|[Hne Hj]].
    + split; cbn [j_stream dest_vmo submitter_pid sqe_copy]; [apply Hks; eauto| | |cbn; lia|done|done].
      * intros v Hv. by apply take_dest_live, Hdest.
      * rewrite link_waiting. cbn. destruct wait; cbn; [right; left; rewrite bool_decide_eq_true_2 by done; left|left; apply elem_of_app; right; left].
    + destruct (H3 _ _ Hj) as [A B C D E G]. split; [by apply Hks| | |cbn; lia|done|done].
      * intros v Hv. by apply take_dest_live, B.
      * rewrite link_waiting. cbn. destruct C as [C|[C|C]]; [left; destruct wait; [done|apply elem_of_app; by left]| |done]. right. left.
        destruct wait; cbn; [|done]. case_bool_decide as Hp; [rewrite Hp in C; by right|done].
  - cbn. split.
    + destruct wait; [done|]. apply NoDup_app. split; [done|]. split; [|apply NoDup_singleton]. intros job Ha ->%list_elem_of_singleton. by apply H5 in Ha as [Ha%Hold _].
    + intros job Ha. split; [|done]. destruct wait; [by apply Hkeep, H5|]. apply elem_of_app in Ha as [Ha| ->%list_elem_of_singleton]; [by apply Hkeep, H5|rewrite lookup_insert_eq; eauto].
  - intros pid'. rewrite link_waiting. assert (forall p job, job ∈ waiting k p -> is_Some (c_jobs k !! job)) as Hw by (intros p job Ha; destruct (proj2 (H6 p) job Ha) as ((j & Hj & _) & _); by exists j).
    assert (c_next k ∉ c_queue k) as Hnq by (intros Ha; by apply H5 in Ha as [Ha%Hold _]).
    assert (forall p job, job ∈ waiting k p -> (exists j, c_jobs (k_link i pid q dest wait st k) !! job = Some j /\ submitter_pid j = p) /\ job ∉ c_queue (k_link i pid q dest wait st k) /\ None <> Some job) as Hb.
    { intros p job Ha. destruct (proj2 (H6 p) job Ha) as ((j & Hj & E) & D & _). pose proof (Hold job (Hw p job Ha)) as Hne. split; [exists j; split; [cbn; by rewrite lookup_insert_ne|done]|]. split; [|done].
      cbn. destruct wait; [done|]. rewrite not_elem_of_app, list_elem_of_singleton. done. }
    destruct (H6 pid') as [A _]. destruct wait; cbn [andb]; [|split; [done|by apply Hb]]. case_bool_decide as Hp; [subst pid'|split; [done|by apply Hb]]. split.
    + apply NoDup_cons. split; [|done]. intros Ha. by apply (Hold (c_next k) (Hw pid _ Ha)).
    + intros job [->|Ha]%elem_of_cons; [|by apply Hb]. split; [cbn; rewrite lookup_insert_eq; eauto|done].
  - intros idx o Ho Hd. destruct (H8 idx o Ho Hd) as (A & B & C). split; [|split; [done|]]; intros Hk; [by apply take_dest_live, A|by apply Hks, C].
Qed.
End link.

Lemma silent_gate pid q s : silent (gate_io pid q) s.
Proof.
  unfold gate_io. destruct (_ && _); [|by apply wp_ret]. apply wp_bind, wp_gets. destruct (rlimit_check_io _ _) as [t rc]. apply wp_bind, wp_modify, wp_ret. done.
Qed.

(** The same queues as before. *)
Definition unplaced (k0 k : core) : core := {| k with c_pending := c_pending k0; c_queue := c_queue k0 |}.

Lemma link_job_spec s s1 i pid q dest st : core_of s1 = with_vmos (take_dest dest) (core_of s) -> io_streams s1 !! i = Some st ->
  0 <= s_refcount st < 2 ^ 32 - 1 -> 0 <= active_jobs st < 2 ^ 32 - 1 ->
  wp (link_job i pid q dest) (fun _ s' => exists wait evs, core_of s' = k_link i pid q dest wait (hard st) (core_of s) /\
    io_trace s' = io_trace s1 ++ Consumed i (sqe_cookie q) :: evs /\ Forall quiet_event evs) s1.
Proof.
  intros E Hst Hr Ha. unfold link_job. apply wp_bind, wp_bind, wp_gets, wp_bind, wp_modify, wp_ret, wp_bind, wp_modify, wp_bind, wp_modify. set (job := io_next s1).
  apply wp_bind, wp_bind. set (s2 := set_jobs _ _). apply (wp_follow _ _ st); [done|]. apply wp_modify. rewrite u32_small by lia. set (st2 := Stream _ _ _ _ _ _ _ _ _ _ _ _ _ _ _ _ _ _). set (s3 := set_streams _ _).
  apply wp_bind, wp_bind, (wp_follow _ _ st2); [apply lookup_insert_eq|]. apply wp_modify. rewrite u32_small by (unfold st2; cbn; lia). set (s4 := set_streams _ s3).
  assert (job = io_next s) as Ejob by exact (f_equal c_next E).
  assert (forall wait, core_of s4 = unplaced (core_of s) (k_link i pid q dest wait (hard st) (core_of s))) as E4.
  { intros wait. unfold unplaced, k_link, core_of; cbn. rewrite <- Ejob. injection E as E1 E2 E3 E4 E5 E6 E7 E8 E9 E10. f_equal; try done.
    - by rewrite insert_insert_eq, fmap_insert, E1.
    - by rewrite fmap_insert, E2. }
  apply wp_bind. eapply wp_mono; [|apply silent_gate]. intros wait s5 (E5 & _ & T5). rewrite (E4 wait) in E5. injection E5 as F1 F2 F3 F4 F5 F6 F7 F8 F9 F10. destruct wait.
  - apply wp_modify. exists true, []. split; [|split; [cbn; by rewrite T5|done]]. unfold pending. unfold k_link, core_of, waiting; cbn. rewrite F1, F2, F3, F4, F5, F6, F7, F8, F9, F10, Ejob. done.
  - unfold stream_worker_enqueue. apply wp_bind, wp_modify, wp_modify. exists false, [Wake_worker]. split; [|split; [cbn; rewrite T5; change (io_trace s4) with (io_trace s1 ++ [Consumed i (sqe_cookie q)]); by rewrite <- app_assoc|by constructor]].
    unfold k_link, core_of; cbn. rewrite F1, F2, F3, F4, F5, F6, F7, F8, F9, F10, Ejob. done.
Qed.

(** What the trace gains when a request is refused at once. *)
Definition refuses (i : Z) (cookie : Z) (s s' : io) : Prop := core_of s' = core_of s /\ exists c e evs0 evs,
  io_trace s' = io_trace s ++ Consumed i cookie :: evs0 ++ e :: evs /\ (e = Posted i c \/ e = Lost i c) /\ (cqe_cookie c = cookie /\ cqe_flags c = 0) /\ Forall quiet_event evs0 /\ Forall quiet_event evs.

Lemma reject_spec s i pid q err : postable (core_of s) i -> wp (reject_sqe i pid q err) (fun _ s' => refuses i (sqe_cookie q) s s') s.
Proof.
  intros Hpo. destruct (live_stream _ _ (po_stream _ _ Hpo)) as (st & Hst & _). unfold reject_sqe. apply wp_bind, wp_bind, (wp_follow _ _ st); [done|]. apply wp_modify. set (s1 := set_streams _ s).
  assert (core_of s1 = core_of s) as E1. { unfold s1, core_of; cbn. f_equal. rewrite fmap_insert. apply insert_id. by rewrite lookup_fmap, Hst. }
  apply wp_bind, wp_modify. set (s2 := Io _ _ _ _ _ _ _ _ _ _ _ _ _ _ _). eapply wp_mono; [|apply (post_cqe_spec s2)]; [|change (core_of s2) with (core_of s1); by rewrite E1].
  intros ? s3 (E3 & _ & e & evs & T & He & Q). split; [by rewrite E3|]. exists (Cqe (sqe_cookie q) err 0), e, [Rejected pid i (sqe_op q) err], evs.
  split; [rewrite T; cbn; by rewrite <- app_assoc|]. split; [done|]. split; [done|]. split; [by constructor|done].
Qed.

Lemma resolve_dest_spec s pid idx : io_inv None (core_of s) -> io_next s < 2 ^ 31 ->
  wp (resolve_dest_vmo pid idx) (fun o s' => core_of s' = with_vmos (take_dest o) (core_of s) /\ io_trace s' = io_trace s /\ forall v, o = Some v -> is_Some (c_vmos (core_of s) !! v)) s.
Proof.
  intros Hinv Hn. assert (core_of s = with_vmos (take_dest None) (core_of s)) as E0 by done. unfold resolve_dest_vmo. apply wp_bind, wp_gets. unfold id.
  destruct (cap_object_get _ _) as [o|] eqn:Eo; [|by apply wp_ret]. destruct (Z.eqb_spec (kind o) CAP_KIND_VMO) as [Ek|]; cbn [negb]; [|by apply wp_ret]. destruct (negb _); [by apply wp_ret|].
  destruct (Z.eqb_spec (kind_data o) 0) as [|Hd]; [by apply wp_ret|]. unfold cap_object_get in Eo. destruct (_ >=? _); [done|].
  destruct (ii_objects _ _ Hinv idx o Eo Hd) as (Hv & _ & _). specialize (Hv Ek). destruct (live_vmo _ _ Hv) as (y & Hy & Hcy).
  destruct (ii_vmos _ _ Hinv _ _ Hcy) as [[_ Hr] _]. cbn in Hr. pose proof (users_nonneg (hard_job <$> io_jobs s) (kind_data o)). apply wp_bind. eapply wp_mono; [|apply (vmo_ref_spec s _ y Hy); lia].
  intros ? s1 [E1 T1]. apply wp_ret. split; [exact E1|]. split; [exact T1|]. by intros v [= <-].
Qed.

Inductive submitted (i pid : Z) (q : sqe) (s s' : io) : bool -> Prop :=
| Refused : refuses i (sqe_cookie q) s s' -> submitted i pid q s s' true
| Accepted dest wait st evs : c_streams (core_of s) !! i = Some st -> core_of s' = k_link i pid q dest wait st (core_of s) ->
    io_trace s' = io_trace s ++ Consumed i (sqe_cookie q) :: evs -> Forall quiet_event evs -> submitted i pid q s s' true
| No_memory : core_of s' = core_of s -> quiet_trace s s' -> submitted i pid q s s' false.

Lemma take_drop_dest o m : drop_dest o (take_dest o m) = m.
Proof.
  apply map_eq. intros v. apply option_eq. intros x. rewrite drop_dest_lookup. split.
  - intros (y & (z & Hz & ->)%take_dest_lookup & ->). rewrite Hz. f_equal. case_decide; [|done]. destruct z as [[r sz] ps]. unfold add_ref; cbn. do 2 f_equal. lia.
  - intros Hx. eexists. split; [apply take_dest_lookup; eauto|]. case_decide; [|done]. destruct x as [[r sz] ps]. unfold add_ref; cbn. do 2 f_equal. lia.
Qed.

Lemma no_memory_spec s s1 dest : io_inv None (core_of s) -> io_next s < 2 ^ 31 -> (forall v, dest = Some v -> is_Some (c_vmos (core_of s) !! v)) ->
  core_of s1 = with_vmos (take_dest dest) (core_of s) ->
  wp (match dest with Some v => vmo_unref v | None => mret tt end) (fun _ s' => core_of s' = core_of s /\ io_trace s' = io_trace s1) s1.
Proof.
  intros Hinv Hn Hl E. assert (forall k : core, with_vmos (fun m => m) k = k) as Hid by by intros []. pose proof (take_drop_dest dest (c_vmos (core_of s))) as Ed. destruct dest as [v|]; [|by apply wp_ret].
  destruct (Hl v eq_refl) as [y Hy]. destruct (live_vmo s1 v) as (x & Hx & Hcx); [rewrite E; by apply (take_dest_live (Some v))|].
  assert (shape x = add_ref 1 y) as Ex. { rewrite E in Hcx. change (alter (add_ref 1) v (c_vmos (core_of s)) !! v = Some (shape x)) in Hcx. rewrite lookup_alter_eq, Hy in Hcx. by apply (inj Some) in Hcx. }
  destruct (ii_vmos _ _ Hinv _ _ Hy) as [[_ Hr] _]. pose proof (users_nonneg (c_jobs (core_of s)) v). assert (v_refcount x = y.1.1 + 1) as Er by by injection Ex.
  change (c_next (core_of s)) with (io_next s) in Hr. eapply wp_mono; [|apply (vmo_unref_spec s1 v x Hx); lia]. intros ? s2 [E2 T2]. split; [|done]. rewrite E2, E. unfold with_vmos; cbn. cbn in Ed. rewrite Ed. done.
Qed.

Lemma silent_alloc s : silent alloc s.
Proof. by apply wp_bind, wp_gets, wp_bind, wp_modify, wp_ret. Qed.

Lemma submit_one_spec s i pid pledge q : io_inv None (core_of s) -> io_next s < 2 ^ 31 -> is_Some (c_streams (core_of s) !! i) -> in_u 64 (dest_vmo_offset q) ->
  wp (submit_one i pid pledge q) (fun b s' => submitted i pid q s s' b /\ io_inv None (core_of s') /\ io_next s <= io_next s' <= io_next s + 1) s.
Proof.
  intros Hinv Hn Hi Hw. pose proof (inv_postable _ _ _ Hinv Hi) as Hpo. destruct (live_stream _ _ Hi) as (st & Hst & Hcst). unfold submit_one. apply wp_bind, (wp_follow _ _ st); [done|].
  assert (forall s1 err, core_of s1 = core_of s -> io_trace s1 = io_trace s -> wp (reject_sqe i pid q err;; mret true)
    (fun b s' => submitted i pid q s s' b /\ io_inv None (core_of s') /\ io_next s <= io_next s' <= io_next s + 1) s1) as Hrej.
  { intros s1 err E T. apply wp_bind. eapply wp_mono; [|apply reject_spec; by rewrite E]. intros ? s2 [E2 Ht]. apply wp_ret. rewrite E in E2. rewrite T in Ht. split; [by apply Refused|]. rewrite E2. split; [done|].
    pose proof (f_equal c_next E2) as En. cbn in En. lia. }
  destruct (stream_find_op st (sqe_op q)) as [schema|]; [|by apply Hrej]. destruct (_ && _); [by apply Hrej|]. set (bulk := (_ || _)). apply wp_bind.
  apply (wp_mono _ (fun o s' => core_of s' = with_vmos (take_dest o) (core_of s) /\ io_trace s' = io_trace s /\ (forall v, o = Some v -> is_Some (c_vmos (core_of s) !! v)) /\ (o <> None -> bulk = true))).
  2:{ destruct bulk; [|apply wp_ret; split; [|done]; by destruct s]. eapply wp_mono; [|by apply resolve_dest_spec]. intros o s1 (A & B & C). done. }
  intros dest s1 (E1 & T1 & Hl & Hb). destruct (bulk && bool_decide (dest = None)) eqn:Ed.
  { apply andb_true_iff in Ed as [_ ->%bool_decide_eq_true]. apply Hrej; [by rewrite E1|done]. }
  apply wp_bind. eapply wp_mono; [|apply silent_alloc]. intros ok s2 (E2 & _ & T2). rewrite E1 in E2. destruct ok; cbn [negb]; apply wp_bind.
  - destruct (live_stream s2 i) as (st2 & Hst2 & Hcst2); [by rewrite E2|]. assert (hard st2 = hard st) as Es. { rewrite E2 in Hcst2. cbn in Hcst2. cbn in Hcst. congruence. }
    destruct (ii_streams _ _ Hinv _ _ Hcst) as [[_ _ _ [Hr Ha] Hbd _] _]. cbn in Hr, Ha, Hbd. assert (s_refcount st2 = s_refcount st /\ active_jobs st2 = active_jobs st) as [Er2 Ea2] by by injection Es.
    eapply wp_mono; [|apply (link_job_spec s s2 i pid q dest st2); [done|done|lia|lia]]. intros ? s3 (wait & evs & E3 & T3 & Q3). apply wp_ret. rewrite Es in E3.
    rewrite T2, T1 in T3. split; [by eapply Accepted|]. rewrite E3. split.
    + apply link_inv; [done|done|done|done|]. intros Hd%Hb. unfold bulk in Hd. lia.
    + pose proof (f_equal c_next E3) as En. cbn in En. lia.
  - eapply wp_mono; [|by apply (no_memory_spec s s2 dest)]. intros ? s3 [E3 T3]. apply wp_ret. split; [apply No_memory; [done|exists []; by rewrite T3, T2, T1, app_nil_r]|]. rewrite E3. split; [done|].
    pose proof (f_equal c_next E3) as En. cbn in En. lia.
Qed.
