(* ===== verification/StreamRun.v ===== *)
(** * Submission streams: batches and the balance of requests and completions

    [counted] says that what a stream has consumed is what it has finished, posted or
    lost, together with the requests of its jobs.  Every operation keeps it. *)
From S2P Require Import Prelude Bytes StateM CapToken CapObject HandleTable Pledge CapSystem Runq Rlimit Stream StreamInv StreamSteps.
Local Open Scope Z_scope.

(** ** The balance *)
Definition consumed_of (i : Z) (e : io_event) : option Z :=
  match e with Consumed i' c => if i' =? i then Some c else None | _ => None end.
Definition finished_of (i : Z) (e : io_event) : option Z :=
  match e with Posted i' c | Lost i' c => if i' =? i then Some (cqe_cookie c) else None | _ => None end.
Definition consumed (i : Z) (tr : list io_event) : list Z := omap (consumed_of i) tr.
Definition finished (i : Z) (tr : list io_event) : list Z := omap (finished_of i) tr.
Definition flight (jobs : gmap Z stream_job) (l : list Z) : list Z := omap (fun job => (fun j => sqe_cookie (sqe_copy j)) <$> jobs !! job) l.

Definition counted (s : io) : Prop := forall i st, c_streams (core_of s) !! i = Some st ->
  consumed i (io_trace s) ≡ₚ finished i (io_trace s) ++ flight (c_jobs (core_of s)) (jobs_head st).

Lemma quiet_none i evs : Forall quiet_event evs -> consumed i evs = [] /\ finished i evs = [].
Proof.
  induction 1 as [|e evs He _ [IH1 IH2]]; [done|]. unfold consumed, finished in *. cbn [omap list_omap]. by destruct e.
Qed.

Lemma consumed_app i a b : consumed i (a ++ b) = consumed i a ++ consumed i b.
Proof. apply omap_app. Qed.
Lemma finished_app i a b : finished i (a ++ b) = finished i a ++ finished i b.
Proof. apply omap_app. Qed.

Lemma flight_ext jobs jobs' l : (forall job, job ∈ l -> jobs !! job = jobs' !! job) -> flight jobs l = flight jobs' l.
Proof.
  unfold flight. induction l as [|job l IH]; intros H; [done|]. cbn [omap list_omap]. rewrite (H job), IH; [done| |left]. intros job' Hin. apply H. by right.
Qed.

Lemma flight_cons jobs job j l : jobs !! job = Some j -> flight jobs (job :: l) = sqe_cookie (sqe_copy j) :: flight jobs l.
Proof. intros H. unfold flight. cbn [omap list_omap]. by rewrite H. Qed.

Lemma flight_perm jobs l l' : l ≡ₚ l' -> flight jobs l ≡ₚ flight jobs l'.
Proof. intros H. unfold flight. by rewrite H. Qed.

(** Steps that neither take nor finish a request. *)
Lemma counted_quiet s s' : (forall i st, c_streams (core_of s') !! i = Some st -> exists st0, c_streams (core_of s) !! i = Some st0 /\ jobs_head st = jobs_head st0) ->
  c_jobs (core_of s') = c_jobs (core_of s) -> quiet_trace s s' -> counted s -> counted s'.
Proof.
  intros Hs Hj (evs & T & Q) Hb i st Hst. destruct (Hs _ _ Hst) as (st0 & Hst0 & E). destruct (quiet_none i evs Q) as [E1 E2].
  rewrite T, consumed_app, finished_app, E1, E2, !app_nil_r, Hj, E. by apply Hb.
Qed.

Lemma counted_same s s' : core_of s' = core_of s -> quiet_trace s s' -> counted s -> counted s'.
Proof. intros E. apply counted_quiet; rewrite E; [eauto|done]. Qed.

Lemma counted_refuses i cookie s s' : refuses i cookie s s' -> counted s -> counted s'.
Proof.
  intros (E & c & e & evs0 & evs & T & He & [Hc _] & Q0 & Q) Hb i' st Hst. rewrite E in Hst |- *. specialize (Hb _ _ Hst).
  destruct (quiet_none i' evs0 Q0) as [A0 B0], (quiet_none i' evs Q) as [A B].
  assert (consumed i' [e] = [] /\ finished i' [e] = if i =? i' then [cookie] else []) as [A1 B1].
  { subst cookie. by destruct He as [-> | ->]; unfold finished; cbn; destruct (i =? i'). }
  assert (io_trace s' = io_trace s ++ [Consumed i cookie] ++ evs0 ++ [e] ++ evs) as -> by done. rewrite !consumed_app, !finished_app, A0, B0, A, B, A1, B1.
  unfold consumed at 2, finished at 2; cbn. destruct (i =? i'); rewrite ?app_nil_r; [|done]. cbn. rewrite Hb. by rewrite <- !app_assoc, (Permutation_app_comm _ [cookie]).
Qed.

Lemma counted_link s s' i pid q dest wait st evs : io_inv None (core_of s) -> c_streams (core_of s) !! i = Some st -> core_of s' = k_link i pid q dest wait st (core_of s) ->
  io_trace s' = io_trace s ++ Consumed i (sqe_cookie q) :: evs -> Forall quiet_event evs -> counted s -> counted s'.
Proof.
  intros Hinv Hi E T Q Hb i' st' Hst. rewrite E in Hst |- *. destruct (quiet_none i' evs Q) as [A B].
  assert (io_trace s' = io_trace s ++ [Consumed i (sqe_cookie q)] ++ evs) as -> by done. rewrite !consumed_app, !finished_app, A, B. cbn [finished omap list_omap finished_of]. rewrite !app_nil_r.
  assert (forall i0 st0, c_streams (core_of s) !! i0 = Some st0 -> flight (c_jobs (k_link i pid q dest wait st (core_of s))) (jobs_head st0) = flight (c_jobs (core_of s)) (jobs_head st0)) as Hold.
  { intros i0 st0 H0. apply flight_ext. intros job Hin. cbn. apply lookup_insert_ne. intros <-. destruct (ii_streams _ _ Hinv _ _ H0) as [[_ _ [_ Hk] _ _ _] _].
    apply Hk in Hin as (j & Hj & _). change (io_next s) with (c_next (core_of s)) in Hj. by rewrite (link_fresh (core_of s) Hinv) in Hj. }
  cbn in Hst. apply lookup_insert_Some in Hst as [[<- <-]|[Hne Hst]]; unfold consumed at 2; cbn [omap list_omap consumed_of].
  - rewrite Z.eqb_refl. cbn [jobs_head]. rewrite (flight_cons _ _ (Stream_job 0 i q pid dest)) by apply lookup_insert_eq. rewrite (Hold _ _ Hi), (Hb _ _ Hi), <- app_assoc. apply Permutation_app_head. by rewrite Permutation_app_comm.
  - destruct (Z.eqb_spec i i'); [done|]. rewrite app_nil_r, (Hold _ _ Hst). by apply Hb.
Qed.

Lemma submitted_counted i pid q s s' b : io_inv None (core_of s) -> submitted i pid q s s' b -> counted s -> counted s'.
Proof.
  intros Hinv [Hr|dest wait st evs Hst E T Q|E T]; [by eapply counted_refuses|by eapply counted_link|by apply counted_same].
Qed.

(** ** The worker *)
Lemma worked_counted s s' : io_inv None (core_of s) -> worked s s' -> counted s -> counted s'.
Proof.
  intros Hinv (job & q & j & x & r & Hq & Hj & Hx & E & (e & evs0 & evs & T & He & Q0 & Q)) Hb i st Hst. rewrite E in Hst |- *.
  destruct (quiet_none i evs0 Q0) as [A0 B0], (quiet_none i evs Q) as [A B]. set (cookie := sqe_cookie (sqe_copy j)) in *.
  assert (consumed i [e] = [] /\ finished i [e] = if j_stream j =? i then [cookie] else []) as [A1 B1] by by destruct He as [-> | ->]; unfold finished; cbn; destruct (j_stream j =? i).
  assert (io_trace s' = io_trace s ++ evs0 ++ [e] ++ evs) as -> by done. rewrite !consumed_app, !finished_app, A0, B0, A, B, A1, B1. cbn [app]. rewrite !app_nil_r.
  assert (c_jobs (core_of s) !! job = Some (hard_job j)) as Hcj by by rewrite core_jobs, Hj. destruct (ii_streams _ _ Hinv _ _ Hx) as [[_ _ [Hnd Hk] _ _ _] _].
  assert (job ∈ jobs_head x) as Hin by (apply Hk; by exists (hard_job j)). pose proof (unlink_perm _ _ Hin) as Hp.
  cbn in Hst. apply lookup_insert_Some in Hst as [[<- <-]|[Hne Hst]].
  - rewrite Z.eqb_refl. cbn [jobs_head]. rewrite (Hb _ _ Hx), (flight_perm _ _ _ Hp), (flight_cons _ _ _ _ Hcj). rewrite <- app_assoc. cbn. fold cookie.
    rewrite (flight_ext (c_jobs (core_of s)) (delete job (c_jobs (core_of s)))); [done|]. intros job' Hin'. symmetry. apply lookup_delete_ne. intros <-. rewrite Hp in Hnd. by apply NoDup_cons in Hnd as [? _].
  - cbn in Hne. destruct (Z.eqb_spec (j_stream j) i); [done|]. rewrite app_nil_r, (Hb _ _ Hst). cbn.
    rewrite (flight_ext (c_jobs (core_of s)) (delete job (c_jobs (core_of s)))); [done|]. intros job' Hin'. symmetry. apply lookup_delete_ne. intros <-.
    destruct (ii_streams _ _ Hinv _ _ Hst) as [[_ _ [_ Hk'] _ _ _] _]. apply Hk' in Hin' as (j' & Hj' & Ej). rewrite Hcj in Hj'. injection Hj' as <-. done.
Qed.

(** ** The ledger *)

(** A completion is not marked as cancelled, and what is sent is empty. *)
Definition plain (e : io_event) : Prop := match e with Posted _ c | Lost _ c => cqe_flags c = 0 | Sent _ _ payload => payload = [] | _ => True end.

(** No request is of a stream that does not exist yet. *)
Definition unborn (s : io) : Prop := forall i, io_next s <= i -> consumed i (io_trace s) = [] /\ finished i (io_trace s) = [].
Definition balanced (s : io) : Prop := counted s /\ Forall plain (io_trace s) /\ unborn s.
Definition good (s : io) : Prop := io_inv None (core_of s) /\ balanced s.

Lemma quiet_plain evs : Forall quiet_event evs -> Forall plain evs.
Proof. intros H. eapply Forall_impl; [done|]. by intros []. Qed.

Lemma plain_event i c e : e = Posted i c \/ e = Lost i c -> cqe_flags c = 0 -> plain e.
Proof. by intros [-> | ->]. Qed.

(** The events of one stream are not those of another. *)
Lemma event_other i c e i' : e = Posted i c \/ e = Lost i c -> i <> i' -> consumed i' [e] = [] /\ finished i' [e] = [].
Proof. intros [-> | ->] Hne; unfold finished; cbn; (destruct (Z.eqb_spec i i'); [done|done]). Qed.

Lemma unborn_step s s' i : (io_next s <= io_next s') -> i < io_next s -> (forall i', i' <> i -> consumed i' (io_trace s') = consumed i' (io_trace s) /\ finished i' (io_trace s') = finished i' (io_trace s)) -> unborn s -> unborn s'.
Proof. intros Hn Hi H Hu i' Hi'. destruct (H i') as [-> ->]; [lia|]. apply Hu. lia. Qed.

Lemma balanced_quiet s s' : (forall i st, c_streams (core_of s') !! i = Some st -> exists st0, c_streams (core_of s) !! i = Some st0 /\ jobs_head st = jobs_head st0) ->
  c_jobs (core_of s') = c_jobs (core_of s) -> c_next (core_of s') = c_next (core_of s) -> quiet_trace s s' -> balanced s -> balanced s'.
Proof.
  intros Hs Hj En Ht (Hc & Hp & Hu). split; [by eapply counted_quiet|]. destruct Ht as (evs & T & Q). rewrite T. split; [apply Forall_app; split; [done|by apply quiet_plain]|]. intros i Hi.
  destruct (quiet_none i evs Q) as [A B]. rewrite T, consumed_app, finished_app, A, B, !app_nil_r. apply Hu. cbn in En. lia.
Qed.

Lemma balanced_same s s' : core_of s' = core_of s -> quiet_trace s s' -> balanced s -> balanced s'.
Proof. intros E. apply balanced_quiet; rewrite E; [eauto|done|done]. Qed.

Lemma submitted_unborn i pid q s s' b : io_inv None (core_of s) -> is_Some (c_streams (core_of s) !! i) -> submitted i pid q s s' b -> unborn s -> unborn s'.
Proof.
  intros Hinv [st Hst] Hs. destruct (ii_streams _ _ Hinv _ _ Hst) as [_ Hi]. change (c_next (core_of s)) with (io_next s) in Hi. apply (unborn_step _ _ i); [|done|].
  - destruct Hs as [[E _]|dest wait st' evs _ E _ _|E _]; apply (f_equal c_next) in E; cbn in E; lia.
  - intros i' Hne. destruct Hs as [(_ & c & e & evs0 & evs & T & He & _ & Q0 & Q)|dest wait st' evs _ _ T Q|_ (evs & T & Q)].
    + change (Consumed i (sqe_cookie q) :: evs0 ++ e :: evs) with ([Consumed i (sqe_cookie q)] ++ evs0 ++ [e] ++ evs) in T. destruct (quiet_none i' _ Q0) as [A0 B0], (quiet_none i' _ Q) as [A B], (event_other _ _ _ i' He ltac:(congruence)) as [A1 B1].
      rewrite T, !consumed_app, !finished_app, A0, B0, A, B, A1, B1. unfold consumed at 2, finished at 2; cbn. destruct (Z.eqb_spec i i'); [congruence|]. by rewrite !app_nil_r.
    + change (Consumed i (sqe_cookie q) :: evs) with ([Consumed i (sqe_cookie q)] ++ evs) in T. destruct (quiet_none i' _ Q) as [A B]. rewrite T, !consumed_app, !finished_app, A, B. unfold consumed at 2, finished at 2; cbn.
      destruct (Z.eqb_spec i i'); [congruence|]. by rewrite !app_nil_r.
    + destruct (quiet_none i' _ Q) as [A B]. by rewrite T, consumed_app, finished_app, A, B, !app_nil_r.
Qed.

Lemma submitted_balanced i pid q s s' b : io_inv None (core_of s) -> is_Some (c_streams (core_of s) !! i) -> submitted i pid q s s' b -> balanced s -> balanced s'.
Proof.
  intros Hinv Hi Hs (Hc & Hp & Hu). split; [by eapply submitted_counted|]. split; [|by eapply submitted_unborn]. destruct Hs as [(_ & c & e & evs0 & evs & -> & He & [_ Hf] & Q0 & Q)|dest wait st evs _ _ -> Q|_ (evs & -> & Q)].
  - apply Forall_app. split; [done|]. constructor; [done|]. apply Forall_app. split; [by apply quiet_plain|]. constructor; [by eapply plain_event|by apply quiet_plain].
  - apply Forall_app. split; [done|]. constructor; [done|by apply quiet_plain].
  - apply Forall_app. split; [done|by apply quiet_plain].
Qed.

Lemma worked_balanced s s' : io_inv None (core_of s) -> worked s s' -> balanced s -> balanced s'.
Proof.
  intros Hinv Hw (Hc & Hp & Hu). split; [by eapply worked_counted|]. destruct Hw as (job & q & j & x & r & _ & _ & Hx & E & (e & evs0 & evs & T & He & Q0 & Q)). split.
  - rewrite T. apply Forall_app. split; [done|]. apply Forall_app. split; [by apply quiet_plain|]. constructor; [by eapply plain_event|by apply quiet_plain].
  - destruct (ii_streams _ _ Hinv _ _ Hx) as [_ Hi]. apply (unborn_step s s' (j_stream j)); [apply (f_equal c_next) in E; cbn in E; lia|done| |done]. intros i' Hne.
    change (evs0 ++ e :: evs) with (evs0 ++ [e] ++ evs) in T. destruct (quiet_none i' _ Q0) as [A0 B0], (quiet_none i' _ Q) as [A B], (event_other _ _ _ i' He ltac:(congruence)) as [A1 B1].
    by rewrite T, !consumed_app, !finished_app, A0, B0, A, B, A1, B1, !app_nil_r.
Qed.

Lemma worker_good s : good s -> io_next s <= 2 ^ 31 ->
  wp worker_step (fun b s' => good s' /\ io_next s' = io_next s /\ if b then worked s s' else s' = s /\ g_worker_queue s = []) s.
Proof.
  intros [Hinv Hb] Hn. eapply wp_mono; [|by apply worker_step_spec]. intros [] s'; [|by intros [-> Hq]]. intros (Hw & Hinv' & En). split; [|done]. split; [done|]. by apply (worked_balanced s).
Qed.

(** ** Batches *)

(** The accounting does not depend on the position in the ring of requests. *)
Definition k_tail (i : Z) (st : stream) (t : Z) : core -> core := with_streams <[i := {| st with sq_tail_kernel := t |}]>.

Lemma tail_inv i st t k : in_u 32 t -> c_streams k !! i = Some st -> io_inv None k -> io_inv None (k_tail i st t k).
Proof.
  intros Ht Hi [H1 H2 H3 H4 H5 H6 H7 H8 H9]. assert (forall z, is_Some (c_streams k !! z) -> is_Some (c_streams (k_tail i st t k) !! z)) as Hks.
  { intros z Hz. cbn. destruct (decide (z = i)) as [->|]; [rewrite lookup_insert_eq; eauto|by rewrite lookup_insert_ne]. }
  split; [| | |done|done|done| |done|done].
  - assert (forall z s, c_streams k !! z = Some s -> stream_ok (k_tail i st t k) z s /\ z < c_next k) as Hok.
    { intros z s Hs. destruct (H1 _ _ Hs) as [[A B C D E G] F]. split; [|done]. split; [| |done|done|done|done]; (eapply ring_ok_vmos; [done|]); eauto. }
    intros z s Hs. cbn in Hs. apply lookup_insert_Some in Hs as [[<- <-]|[Hne Hs]]; [|by apply Hok]. destruct (Hok _ _ Hi) as [[A B C D E (G1 & G2 & G3)] F]. done.
  - intros v x Hx. destruct (H2 _ _ Hx) as [[A B] C]. done.
  - intros job j Hj. destruct (H3 _ _ Hj) as [A B C D E G]. split; [by apply Hks|done..].
  - intros idx o Ho Hd. destruct (H7 idx o Ho Hd) as (A & B & C). split; [done|]. split; [done|]. intros Hk. by apply Hks, C.
Qed.

Lemma tail_good s s' i st t : in_u 32 t -> c_streams (core_of s) !! i = Some st -> core_of s' = k_tail i st t (core_of s) -> quiet_trace s s' -> good s -> good s'.
Proof.
  intros Ht Hi E T [Hinv Hb]. split; [rewrite E; by apply tail_inv|]. eapply balanced_quiet; [|by rewrite E|by rewrite E|done|done]. rewrite E. intros z s0 Hs. cbn in Hs.
  apply lookup_insert_Some in Hs as [[<- <-]|[_ Hs]]; eauto.
Qed.

Lemma set_tail_spec s i st t : io_streams s !! i = Some st ->
  wp (on_stream i (fun s => {| s with sq_tail_kernel := t |})) (fun _ s' => core_of s' = k_tail i (hard st) t (core_of s) /\ io_trace s' = io_trace s) s.
Proof.
  intros H. apply wp_bind, (wp_follow _ _ st); [done|]. apply wp_modify. split; [|done]. unfold k_tail, with_streams, core_of; cbn. f_equal. by rewrite fmap_insert.
Qed.

(** ** What a submission leaves alone *)

(** A property that survives a run, if the run returns. *)
Definition keeps {A} (P : io -> Prop) (m : M io A) : Prop := forall s s' a, P s -> m s = Some (s', a) -> P s'.

Section keeps.
  Context (P : io -> Prop).

Lemma keep_ret {A} (a : A) : keeps P (mret a).
Proof using. by intros s s' b H [= <- _]. Qed.
Lemma keep_bind {A B} (m : M io A) (k : A -> M io B) : keeps P m -> (forall a, keeps P (k a)) -> keeps P (m ≫= k).
Proof using. intros Hm Hk s s' b H (s1 & a & E & E')%bind_Some. eapply Hk; [|done]. by eapply Hm. Qed.
Lemma keeps_modify f : (forall s, P s -> P (f s)) -> keeps P (modify f).
Proof using. intros Hf s s' a H [= <- _]. auto. Qed.
Lemma keeps_gets_bind {A B} (f : io -> A) (k : A -> M io B) : (forall s, P s -> keeps P (k (f s))) -> keeps P (gets f ≫= k).
Proof using. intros Hk s s' b H (s1 & a & [= <- <-] & E)%bind_Some. by eapply (Hk s). Qed.
Lemma keeps_follow_bind {A B} (f : io -> gmap Z A) i (k : A -> M io B) : (forall s x, P s -> f s !! i = Some x -> keeps P (k x)) -> keeps P (follow f i ≫= k).
Proof using.
  intros Hk s s' b H (s1 & x & E & E')%bind_Some. unfold follow in E. destruct (f s !! i) as [y|] eqn:Ey; [|done]. injection E as <- <-. by eapply (Hk s).
Qed.
(** Notification only changes the stream's token, the answers and the trace. *)
Lemma keeps_notify_of i : (forall tok, keeps P (clear_notify i tok)) ->
  (forall f, (forall s, io_streams (f s) = io_streams s /\ io_vmos (f s) = io_vmos s /\ io_allocs (f s) = io_allocs s) -> keeps P (modify f)) -> keeps P (stream_notify_channel i).
Proof using.
  intros Hclear Hworld. assert (forall tok, keeps P (clear_notify i tok;; mret CAP_V2_EPIPE)) as Hpipe by (intros tok; apply keep_bind; [done|intros; apply keep_ret]).
  apply keeps_follow_bind. intros s st _ _. cbv beta zeta. destruct (_ =? 0); [apply keep_ret|]. apply keeps_gets_bind. intros s1 _. cbv beta zeta. destruct (cap_token_resolve _ _ _ _); [|done].
  destruct (_ || _); [done|]. apply keeps_follow_bind. intros s2 ep _ _. cbv beta zeta. destruct (negb _); [done|]. destruct (ep_channel ep); [|apply keep_ret]. destruct (sched_get_task _ _); [|apply keep_ret].
  apply keep_bind; [apply keeps_gets_bind; intros; apply keep_bind; [by apply Hworld|intros; apply keep_ret]|]. intros r.
  apply keep_bind; [destruct (r =? 0); [by apply Hworld|apply keep_ret]|]. intros _. apply keep_bind; [destruct (_ =? _); [done|apply keep_ret]|]. intros _. apply keep_ret.
Qed.

Lemma wp_keeps {A} (m : M io A) (Q : A -> io -> Prop) s : wp m Q s -> keeps P m -> P s -> wp m (fun a s' => Q a s' /\ P s') s.
Proof using. intros (s' & a & E & HQ) Hk HP. exists s', a. split; [done|]. split; [done|]. by eapply Hk. Qed.
End keeps.

(** The ring of requests is only written by the process; with [mem], no allocation fails. *)
Section undisturbed.
  Context (i sq cq e : Z) (pages : list (option (list Z))) (mem : bool).
  Hypothesis Hne : cq <> sq.

Definition undisturbed (s : io) : Prop :=
  (forall st, io_streams s !! i = Some st -> sq_vmo st = sq /\ cq_vmo st = cq /\ sq_entries st = e) /\ (forall x, io_vmos s !! sq = Some x -> v_pages x = pages) /\
  (mem = true -> Forall (eq true) (io_allocs s)).

Lemma keeps_on_stream f : (forall st, sq_vmo (f st) = sq_vmo st /\ cq_vmo (f st) = cq_vmo st /\ sq_entries (f st) = sq_entries st) -> keeps undisturbed (on_stream i f).
Proof using.
  intros Hf. apply keeps_follow_bind. intros s x [H1 _] Hx. cbv beta zeta. apply keeps_modify. intros s1 [_ H2]. split; [|exact H2]. intros st. cbn. rewrite lookup_insert_eq. intros [= <-].
  destruct (Hf x) as (-> & -> & ->). by apply H1.
Qed.

Lemma keeps_on_vmo v f : (forall x, v = sq -> v_pages (f x) = v_pages x) -> keeps undisturbed (on_vmo v f).
Proof using.
  intros Hf. apply keeps_follow_bind. intros s x (_ & H1 & _) Hx. cbv beta zeta. apply keeps_modify. intros s1 (H2 & H3 & H4). split; [done|]. split; [|done]. intros y. cbn. rewrite lookup_insert_Some.
  intros [[-> <-]|[_ Hy]]; [rewrite Hf by done; by apply H1|by apply H3].
Qed.

Lemma keeps_world f : (forall s, io_streams (f s) = io_streams s /\ io_vmos (f s) = io_vmos s /\ io_allocs (f s) = io_allocs s) -> keeps undisturbed (modify f).
Proof using. intros Hf. apply keeps_modify. intros s H. unfold undisturbed. destruct (Hf s) as (-> & -> & ->). done. Qed.

Lemma keeps_alloc : keeps undisturbed alloc.
Proof using.
  apply keeps_gets_bind. intros s _. cbv beta zeta. apply keep_bind; [|intros; apply keep_ret]. apply keeps_modify. intros s1 (H1 & H2 & H3). split; [done|]. split; [done|].
  cbn. intros Hm. specialize (H3 Hm). by destruct H3.
Qed.

Lemma alloc_true s s' ok : mem = true -> undisturbed s -> alloc s = Some (s', ok) -> ok = true.
Proof using. intros Hm (_ & _ & H) (s1 & a & [= <- <-] & (s2 & [] & _ & [= _ <-])%bind_Some)%bind_Some. specialize (H Hm). by destruct H. Qed.

Lemma keeps_store v page off b : v <> sq -> keeps undisturbed (store v page off b).
Proof using.
  intros Hv. apply keeps_follow_bind. intros s x _ _. cbv beta zeta. destruct (get _ _) as [[p|]|]; [|by intros ??|by intros ??]. destruct (_ <=? _); [|by intros ??]. by apply keeps_on_vmo.
Qed.

Lemma keeps_notify : keeps undisturbed (stream_notify_channel i).
Proof using.
  apply keeps_notify_of; [|exact keeps_world]. intros tok. apply keeps_on_stream. intros st. by destruct (_ =? _).
Qed.

Lemma keeps_load v page off n : keeps undisturbed (load v page off n).
Proof using. apply keeps_follow_bind. intros s x _ _. cbv beta zeta. destruct (get _ _) as [[p|]|]; [|by intros ??|by intros ??]. destruct (_ <=? _); [apply keep_ret|by intros ??]. Qed.

Lemma keeps_post cookie r flags : keeps undisturbed (stream_post_cqe i cookie r flags).
Proof using Hne.
  apply keeps_follow_bind. intros s st [H1 _] Hst. cbv beta zeta. destruct (H1 _ Hst) as (_ & Ecq & _). apply keep_bind; [apply keep_bind; [apply keeps_load|intros; apply keep_ret]|]. intros tail.
  destruct (_ >=? _); [by apply keeps_world|]. apply keeps_follow_bind. intros s1 v _ _. cbv beta zeta. destruct (stream_cqe_at _ _ _) as [[page off]|]; [|by apply keeps_world].
  rewrite Ecq. do 2 (apply keep_bind; [by apply keeps_store|intros _]). apply keep_bind; [by apply keeps_on_stream|intros _]. apply keep_bind; [by apply keeps_world|intros _].
  apply keep_bind; [apply keeps_notify|intros _]. apply keep_ret.
Qed.

Lemma keeps_vmo_unref v : keeps undisturbed (vmo_unref v).
Proof using.
  apply keeps_follow_bind. intros s x _ _. cbv beta zeta. destruct (_ =? 0); [|by apply keeps_on_vmo]. apply keeps_modify. intros s1 (H1 & H2 & H3). split; [done|]. split; [|done]. intros y Hy. cbn in Hy. apply lookup_delete_Some in Hy as [_ Hy]. by apply H2.
Qed.

Lemma keeps_link pid q dest : keeps undisturbed (link_job i pid q dest).
Proof using.
  apply keep_bind; [apply keeps_gets_bind; intros; apply keep_bind; [by apply keeps_world|intros; apply keep_ret]|]. intros job. do 2 (apply keep_bind; [by apply keeps_world|intros _]).
  do 2 (apply keep_bind; [by apply keeps_on_stream|intros _]). apply keep_bind.
  - unfold gate_io. destruct (_ && _); [|apply keep_ret]. apply keeps_gets_bind. intros s _. cbv beta zeta. destruct (rlimit_check_io _ _). apply keep_bind; [by apply keeps_world|intros _]. apply keep_ret.
  - intros []; [by apply keeps_world|]. apply keep_bind; [by apply keeps_world|intros _]. by apply keeps_world.
Qed.

Lemma keeps_resolve_dest pid idx : keeps undisturbed (resolve_dest_vmo pid idx).
Proof using.
  apply keeps_gets_bind. intros s1 _. cbv beta zeta. destruct (cap_object_get _ _); [|apply keep_ret]. repeat (destruct (negb _); [apply keep_ret|]).
  destruct (_ =? 0); [apply keep_ret|]. apply keep_bind; [by apply keeps_on_vmo|intros _; apply keep_ret].
Qed.

Lemma keeps_reject pid q err : keeps undisturbed (reject_sqe i pid q err;; mret true).
Proof using Hne.
  apply keep_bind; [|intros; apply keep_ret]. apply keep_bind; [by apply keeps_on_stream|intros _]. apply keep_bind; [by apply keeps_world|intros _]. apply keeps_post.
Qed.

Lemma keeps_submit_one pid pledge q : keeps undisturbed (submit_one i pid pledge q).
Proof using Hne.
  pose proof (keeps_reject pid q) as Hrej. apply keeps_follow_bind. intros s st _ _. cbv beta zeta. destruct (stream_find_op st _); [|done]. destruct (_ && _); [done|].
  apply keep_bind; [destruct (_ || _); [apply keeps_resolve_dest|apply keep_ret]|]. intros dest. destruct (_ && _); [done|]. apply keep_bind; [apply keeps_alloc|]. intros ok. destruct (negb ok).
  - apply keep_bind; [destruct dest; [apply keeps_vmo_unref|apply keep_ret]|intros _; apply keep_ret].
  - apply keep_bind; [apply keeps_link|intros _; apply keep_ret].
Qed.

Lemma submit_one_true pid pledge q s s' b : mem = true -> undisturbed s -> submit_one i pid pledge q s = Some (s', b) -> b = true.
Proof using.
  intros Hm H. unfold submit_one. intros (s1 & st & E & Hk)%bind_Some. unfold follow in E. destruct (io_streams s !! i); [|done]. injection E as <- <-.
  assert (forall err s2, (reject_sqe i pid q err;; mret true) s2 = Some (s', b) -> b = true) as Hrej by (intros err s2 (s3 & [] & _ & [= _ <-])%bind_Some; done).
  destruct (stream_find_op _ _); [|by eapply Hrej]. destruct (_ && _); [by eapply Hrej|]. cbv zeta in Hk. apply bind_Some in Hk as (s2 & dest & E2 & Hk).
  destruct (_ && _); [by eapply Hrej|]. apply bind_Some in Hk as (s3 & ok & E3 & Hk). assert (ok = true) as ->.
  { eapply alloc_true; [done| |done]. revert E2. destruct (_ || _); [by apply keeps_resolve_dest|by apply keep_ret]. }
  by apply bind_Some in Hk as (s4 & [] & _ & [= _ <-]).
Qed.
End undisturbed.

(** ** The loop over requests *)

(** The bytes of a slot as the process finds them: slot [k] of a ring of [e] entries is
    [k mod e], and the entries start at the second page. *)
Definition entry_bytes (sz e : Z) (pages : list (option (list Z))) (slot : Z) : list Z :=
  let o := 4096 + slot mod e * sz in take (Z.to_nat sz) (drop (Z.to_nat (o mod 4096)) (default [] (default None (get pages (o / 4096))))).

(** The slots from a position on. *)
Fixpoint ring_slots (t : Z) (n : nat) : list Z := match n with O => [] | S n => t :: ring_slots (u32 (t + 1)) n end.

Definition request_at (e : Z) (pages : list (option (list Z))) (slot : Z) : sqe := sqe_of (entry_bytes 64 e pages slot).
Definition requests (e : Z) (pages : list (option (list Z))) (t : Z) (n : nat) : list sqe := map (request_at e pages) (ring_slots t n).

Lemma submitted_consumed i pid q s s' b i' : submitted i pid q s s' b ->
  consumed i' (io_trace s') = consumed i' (io_trace s) ++ if b && (i =? i') then [sqe_cookie q] else [].
Proof.
  intros [(_ & c & e & evs0 & evs & T & He & _ & Q0 & Q)|dest wait st evs _ _ T Q|_ (evs & T & Q)]; rewrite T, consumed_app; f_equal; cbn [andb].
  - change (Consumed i (sqe_cookie q) :: evs0 ++ e :: evs) with ([Consumed i (sqe_cookie q)] ++ evs0 ++ [e] ++ evs). rewrite !consumed_app, (proj1 (quiet_none i' _ Q0)), (proj1 (quiet_none i' _ Q)).
    assert (consumed i' [e] = []) as -> by by destruct He as [-> | ->]. unfold consumed; cbn. by destruct (i =? i').
  - change (Consumed i (sqe_cookie q) :: evs) with ([Consumed i (sqe_cookie q)] ++ evs). rewrite consumed_app, (proj1 (quiet_none i' _ Q)). unfold consumed; cbn. by destruct (i =? i').
  - by rewrite (proj1 (quiet_none i' _ Q)).
Qed.

Lemma submitted_tail i pid q s s' b st : submitted i pid q s s' b -> c_streams (core_of s) !! i = Some st ->
  exists st', c_streams (core_of s') !! i = Some st' /\ sq_tail_kernel st' = sq_tail_kernel st.
Proof.
  intros [[E _]|dest wait st1 evs Hst E _ _|E _] Hi; rewrite E; [eauto| |eauto]. rewrite Hst in Hi. injection Hi as ->. cbn. rewrite lookup_insert_eq. eauto.
Qed.

Lemma sqe_of_width b : in_u 64 (dest_vmo_offset (sqe_of b)).
Proof. by apply wrap_bound. Qed.

Section loop.
  Context (i sq cq e pid pledge h : Z) (pages : list (option (list Z))) (mem : bool).
  Hypothesis Hne : cq <> sq.

(** What the loop needs of the state, at position [t] of the ring. *)
Definition ready (t : Z) (s : io) : Prop := good s /\ undisturbed i sq cq e pages mem s /\ in_u 32 t /\ exists st, c_streams (core_of s) !! i = Some st /\ sq_tail_kernel st = t.

Definition advanced (n : nat) (t p : Z) (s : io) (r : Z) (s' : io) : Prop := exists m : nat, r = p + Z.of_nat m /\ (m <= n)%nat /\
  ready (u32 (t + Z.of_nat m)) s' /\ io_next s <= io_next s' <= io_next s + Z.of_nat m /\
  (forall i', consumed i' (io_trace s') = consumed i' (io_trace s) ++ if i =? i' then map sqe_cookie (requests e pages t m) else []) /\
  (forall k, 0 <= k < Z.of_nat m -> u32 (t + k) <> h) /\ (mem = true -> m = n \/ u32 (t + Z.of_nat m) = h).

Lemma advanced_none n t p s s' : ready t s' -> io_next s' = io_next s -> (forall i', consumed i' (io_trace s') = consumed i' (io_trace s)) -> (mem = true -> n = O \/ t = h) -> advanced n t p s p s'.
Proof using.
  intros H En Hc Hm. exists O. replace (u32 (t + Z.of_nat 0)) with t by (rewrite Z.add_0_r; symmetry; apply wrap_small, H). split; [lia|]. split; [lia|]. split; [done|]. split; [lia|].
  split; [intros i'; rewrite Hc; destruct (i =? i'); by rewrite app_nil_r|]. split; [lia|]. intros Hm1. destruct (Hm Hm1); [by left|by right].
Qed.

(** The request at the position. *)
Lemma ready_request t s : ready t s -> exists st v page off p, io_streams s !! i = Some st /\ sq_tail_kernel st = t /\ sq_vmo st = sq /\ io_vmos s !! sq = Some v /\
  stream_sqe_at st v (Z.land t (sq_entries st - 1)) = Some (page, off) /\ page_of v page p /\ 0 <= off /\ off + 64 <= 4096 /\
  sqe_of (take 64 (drop (Z.to_nat off) p)) = request_at e pages t.
Proof using.
  intros ([Hinv _] & [Hu1 [Hu2 _]] & Ht & st0 & Hst0 & Et). destruct (live_stream s i) as (st & Hst & Hcst); [by exists st0|]. rewrite Hst0 in Hcst. injection Hcst as ->. cbn in Et.
  destruct (Hu1 _ Hst) as (Esq & _ & Ee). destruct (ii_streams _ _ Hinv _ _ Hst0) as [[Hr _ _ _ _ _] _]. cbn in Hr. rewrite Esq in Hr. pose proof (ring_index _ _ _ _ t Hr) as Hidx.
  destruct (ring_entry s sq (sq_entries st) 64 64 (Z.land t (sq_entries st - 1)) Hr) as (v & p & Hv & Hk & Hp & Ho & Hl); [lia|lia|done|].
  eexists st, v, _, _, p. split; [done|]. split; [done|]. split; [done|]. split; [done|]. unfold stream_sqe_at. destruct (Z.geb_spec (Z.land t (sq_entries st - 1)) (sq_entries st)); [lia|].
  split; [exact Hk|]. split; [done|]. split; [done|]. split; [done|]. assert (Z.land t (sq_entries st - 1) = t mod e) as Em.
  { destruct Hr as [_ (k & Hk1 & E)]. rewrite <- Ee, E. replace (2 ^ k - 1) with (Z.ones k) by (rewrite Z.ones_equiv; lia). apply Z.land_ones; lia. }
  rewrite Em in Hp |- *. unfold request_at, entry_bytes. by rewrite <- (Hu2 _ Hv), (proj1 Hp).
Qed.

Lemma advanced_step n t p s s2 r s3 : t <> h -> io_next s <= io_next s2 <= io_next s + 1 ->
  (forall i', consumed i' (io_trace s2) = consumed i' (io_trace s) ++ if i =? i' then [sqe_cookie (request_at e pages t)] else []) ->
  in_u 32 t -> advanced n (u32 (t + 1)) (p + 1) s2 r s3 -> advanced (S n) t p s r s3.
Proof using.
  intros Hh En Hc Ht (m & -> & Hm & Hr & En2 & Hc2 & Hk & Hmem). exists (S m).
  assert (forall k, u32 (u32 (t + 1) + k) = u32 (t + (k + 1))) as Hw by (intros k; unfold wrap; rewrite Zplus_mod_idemp_l; f_equal; lia). rewrite Hw in Hr, Hmem.
  replace (Z.of_nat (S m)) with (Z.of_nat m + 1) by lia. split; [lia|]. split; [lia|]. split; [done|]. split; [lia|]. split; [|split].
  - intros i'. rewrite Hc2, Hc, <- app_assoc. f_equal. by destruct (i =? i').
  - intros k Hk'. destruct (decide (k = 0)) as [->|]; [rewrite Z.add_0_r, u32_small; [done|exact Ht]|]. specialize (Hk (k - 1) ltac:(lia)). rewrite Hw in Hk. by replace (k - 1 + 1) with k in Hk by lia.
  - intros H. destruct (Hmem H) as [->|]; auto.
Qed.

Lemma submit_loop_spec n : forall s t p, ready t s -> io_next s + Z.of_nat n <= 2 ^ 31 ->
  wp (submit_loop n i pid pledge h p) (advanced n t p s) s.
Proof using Hne.
  induction n as [|n IH]; intros s t p Hr Hn; cbn [submit_loop]; [apply wp_ret, advanced_none; auto|].
  destruct (ready_request _ _ Hr) as (st & v & page & off & pg & Hst & Et & Esq & Hv & Hk & Hp & Ho & Hl & Eq). apply wp_bind, (wp_follow _ _ st); [done|]. rewrite Et.
  destruct (Z.eqb_spec t h) as [Eh|Hh]; [apply wp_ret, advanced_none; auto|]. rewrite Esq. apply wp_bind, (wp_follow _ _ v); [done|]. rewrite Hk.
  apply wp_bind. exists s, (take 64 (drop (Z.to_nat off) pg)). split.
  { unfold load, mbind, M_bind. rewrite (follow_eq _ _ _ _ Hv), (proj1 Hp). destruct (Z.leb_spec (off + Z.of_nat 64) 4096); [done|lia]. }
  rewrite Eq. destruct Hr as (Hg & Hu & Ht & st0 & Hst0 & Et0). assert (c_streams (core_of s) !! i = Some (hard st)) as Hcst by by rewrite core_streams, Hst.
  apply wp_bind. eapply wp_mono; [|apply (wp_keeps (undisturbed i sq cq e pages mem)); [by apply set_tail_spec|by apply keeps_on_stream|done]].
  intros ? s1 [[E1 T1] Hu1]. assert (quiet_trace s s1) as Q1 by (exists []; by rewrite T1, app_nil_r). pose proof (tail_good _ _ _ _ (u32 (t + 1)) (wrap_bound 32 _ ltac:(lia)) Hcst E1 Q1 Hg) as Hg1.
  assert (c_streams (core_of s1) !! i = Some {| (hard st) with sq_tail_kernel := u32 (t + 1) |}) as Hst1 by (rewrite E1; cbn; by rewrite lookup_insert_eq).
  assert (io_next s1 = io_next s) as En1 by exact (f_equal c_next E1). apply wp_bind.
  destruct (submit_one_spec s1 i pid pledge (request_at e pages t)) as (s2 & ok & Erun & Hs & Hinv2 & En2); [apply Hg1|lia|by eexists|apply sqe_of_width|].
  exists s2, ok. split; [exact Erun|]. pose proof (keeps_submit_one i sq cq e pages mem Hne pid pledge _ s1 s2 ok Hu1 Erun) as Hu2. assert (good s2) as Hg2 by (split; [done|]; eapply submitted_balanced; [apply Hg1|by eexists|done|apply Hg1]).
  destruct (submitted_tail _ _ _ _ _ _ _ Hs Hst1) as (st2 & Hst2 & Et2). cbn in Et2. destruct ok.
  - eapply wp_mono; [|apply (IH s2 (u32 (t + 1)) (p + 1))]; [|split; [done|]; split; [done|]; split; [by apply wrap_bound|eauto]|lia].
    intros r s3. apply advanced_step; [done|lia| |done]. intros i'. by rewrite (submitted_consumed _ _ _ _ _ _ i' Hs), T1.
  - destruct (live_stream s2 i) as (x2 & Hx2 & Hcx2); [by exists st2|]. apply wp_bind.
    eapply wp_mono; [|apply (wp_keeps (undisturbed i sq cq e pages mem)); [by apply (set_tail_spec s2 i x2 t)|by apply keeps_on_stream|done]].
    intros ? s3 [[E3 T3] Hu3]. apply wp_ret. assert (quiet_trace s2 s3) as Q3 by (exists []; by rewrite T3, app_nil_r). apply advanced_none.
    + split; [by eapply tail_good|]. split; [done|]. split; [done|]. rewrite E3. cbn. rewrite lookup_insert_eq. eauto.
    + pose proof (f_equal c_next E3) as E. cbn in E. assert (core_of s2 = core_of s1) as E2 by by inversion Hs. pose proof (f_equal c_next E2) as E'. cbn in E'. lia.
    + intros i'. by rewrite T3, (submitted_consumed _ _ _ _ _ _ i' Hs), T1, app_nil_r.
    + intros Hm. by pose proof (submit_one_true i sq cq e pages mem pid pledge _ _ _ _ Hm Hu1 Erun).
Qed.
End loop.

(** ** Batches *)

(** A position at the start of a ring, which the process and the kernel share. *)
Definition word_at (pages : list (option (list Z))) (o : nat) : Z := u32 (field (default [] (default None (get pages 0))) o 4).

(** How many requests wait in a ring. *)
Definition offered (st : stream) (pages : list (option (list Z))) : Z := u32 (word_at pages 0 - sq_tail_kernel st).

Record batch (i n : Z) (st : stream) (pages : list (option (list Z))) (s : io) (r : Z) (s' : io) : Prop := {
  bt_count : 0 <= r <= Z.min n (offered st pages);
  bt_order : forall i', consumed i' (io_trace s') = consumed i' (io_trace s) ++
    if i =? i' then map sqe_cookie (requests (sq_entries st) pages (sq_tail_kernel st) (Z.to_nat r)) else [];
  bt_full : Forall (eq true) (io_allocs s) -> r = Z.min n (offered st pages);
  bt_tail : exists st' v, io_streams s' !! i = Some st' /\ sq_tail_kernel st' = u32 (sq_tail_kernel st + r) /\
    io_vmos s' !! sq_vmo st = Some v /\ word_at (v_pages v) 128 = u32 (sq_tail_kernel st + r)
}.

Lemma wrap_distance t h k : in_u 32 t -> in_u 32 h -> 0 <= k < 2 ^ 32 -> u32 (t + k) = h <-> k = u32 (h - t).
Proof.
  intros Ht Hh Hk. unfold in_u in *. unfold wrap. split.
  - intros <-. rewrite Zminus_mod_idemp_l. replace (t + k - t) with k by lia. symmetry. apply Z.mod_small. lia.
  - intros ->. rewrite Zplus_mod_idemp_r. replace (t + (h - t)) with h by lia. apply Z.mod_small. lia.
Qed.

Lemma batch_count (t h n m : Z) : in_u 32 t -> in_u 32 h -> 0 <= m <= n -> n < 2 ^ 32 -> (forall k, 0 <= k < m -> u32 (t + k) <> h) ->
  m <= u32 (h - t) /\ (m = n \/ u32 (t + m) = h -> m = Z.min n (u32 (h - t))).
Proof.
  intros Ht Hh Hm Hn Hk. pose proof (wrap_bound 32 (h - t) ltac:(lia)) as Hd. unfold in_u in Hd. assert (m <= u32 (h - t)) as Hle.
  { destruct (Z.le_gt_cases m (u32 (h - t))) as [|Hgt]; [done|]. exfalso. apply (Hk (u32 (h - t))); [lia|]. apply wrap_distance; [done|done|lia|done]. }
  split; [done|]. intros [->|E]; [lia|]. apply wrap_distance in E; [|done|done|lia]. lia.
Qed.

Lemma store_eq s v x page p off b : io_vmos s !! v = Some x -> page_of x page p -> off + Z.of_nat (length b) <= 4096 ->
  store v page off b s = Some (set_vmos (<[v := {| x with v_pages := upd (v_pages x) page (Some (splice p (Z.to_nat off) b)) |}]> (io_vmos s)) s, tt).
Proof.
  intros H Hp Ho. unfold store, on_vmo, mbind, M_bind. rewrite (follow_eq _ _ _ _ H), (proj1 Hp). destruct (Z.leb_spec (off + Z.of_nat (length b)) 4096); [|lia]. by rewrite (follow_eq _ _ _ _ H).
Qed.

Lemma page_index x page p : page_of x page p -> 0 <= page < Z.of_nat (length (v_pages x)).
Proof. intros [H _]. unfold get in H. destruct (Z.ltb_spec page 0); [done|]. apply lookup_lt_Some in H. lia. Qed.

(** The position of the kernel is published in the ring. *)
Lemma publish_spec s v e sz o t : ring_ok (core_of s) v e sz -> 0 <= e * sz -> in_u 32 t -> 0 <= o -> o + 4 <= 4096 ->
  wp (store v 0 o (le 4 t)) (fun _ s' => core_of s' = core_of s /\ io_streams s' = io_streams s /\ io_trace s' = io_trace s /\ exists x, io_vmos s' !! v = Some x /\ word_at (v_pages x) (Z.to_nat o) = t) s.
Proof.
  intros Hr He Ht Ho Hl. destruct (ring_first _ _ _ _ Hr He) as (x & p & Hx & Hp). destruct (silent_store v 0 o (le 4 t) s x p Hx Hp) as (s' & [] & E & Hc & _ & T); [done|rewrite length_le; lia|].
  pose proof E as E'. rewrite (store_eq s v x 0 p) in E'; [|done|done|rewrite length_le; lia]. exists s', tt. split; [done|]. split; [done|].
  injection E' as <-. split; [done|]. split; [done|]. eexists. split; [apply lookup_insert_eq|]. unfold word_at. cbn [v_pages]. rewrite get_upd_eq by (by eapply page_index).
  change (u32 (field (splice p (Z.to_nat o) (le 4 t)) (Z.to_nat o) 4) = t). rewrite field_splice_eq; [by apply wrap_small|done|]. destruct Hp as [_ Hlen]. rewrite Hlen. lia.
Qed.

Lemma ring_head_spec s v e sz : ring_ok (core_of s) v e sz -> 0 <= e * sz -> exists x, io_vmos s !! v = Some x /\ ring_head v s = Some (s, word_at (v_pages x) 0).
Proof.
  intros Hr He. destruct (ring_first _ _ _ _ Hr He) as (x & p & Hx & Hp). exists x. split; [done|]. unfold ring_head, load, mbind, M_bind, word_at. rewrite (follow_eq _ _ _ _ Hx), (proj1 Hp). done.
Qed.

Lemma submit_batch_spec s i n pid st : good s -> io_streams s !! i = Some st -> 0 <= n -> io_next s + n <= 2 ^ 31 ->
  exists v, io_vmos s !! sq_vmo st = Some v /\
  wp (stream_submit_batch i n pid) (fun r s' => good s' /\ io_next s <= io_next s' <= io_next s + n /\
    if negb (s_state st =? STREAM_STATE_ACTIVE) then s' = s /\ r = CAP_V2_EBADF else if n >? sq_entries st then s' = s /\ r = CAP_V2_EINVAL else
    match sched_get_task (io_world s) pid with None => s' = s /\ r = CAP_V2_EBADF | Some _ => batch i n st (v_pages v) s r s' end) s.
Proof.
  intros Hg Hst Hn0 Hn. assert (c_streams (core_of s) !! i = Some (hard st)) as Hcst by by rewrite core_streams, Hst. destruct (ii_streams _ _ (proj1 Hg) _ _ Hcst) as [[Hsq _ _ _ _ (_ & Hne & Ht)] _]. cbn in Hsq, Hne, Ht.
  pose proof (ring_positive _ _ _ _ Hsq) as Hpos. assert (sq_entries st < 2 ^ 32) as Hmax by (destruct Hsq as [_ (k & Hk & ->)]; apply Z.pow_lt_mono_r; lia).
  destruct (ring_head_spec s _ _ _ Hsq ltac:(lia)) as (v & Hv & Eh). exists v. split; [done|]. unfold stream_submit_batch. apply wp_bind, (wp_follow _ _ st); [done|].
  destruct (negb _); [apply wp_ret; split; [exact Hg|]; split; [lia|done]|]. destruct (Z.gtb_spec n (sq_entries st)); [apply wp_ret; split; [exact Hg|]; split; [lia|done]|].
  apply wp_bind, wp_gets. unfold id. destruct (sched_get_task _ _) as [t|]; [|apply wp_ret; split; [exact Hg|]; split; [lia|done]].
  apply wp_bind. exists s, (word_at (v_pages v) 0). split; [done|]. apply wp_bind. set (mem := bool_decide (Forall (eq true) (io_allocs s))).
  eapply wp_mono; [|apply (submit_loop_spec i (sq_vmo st) (cq_vmo st) (sq_entries st) pid (pledge_mask t) (word_at (v_pages v) 0) (v_pages v) mem Hne (Z.to_nat n) s (sq_tail_kernel st) 0)]; [| |lia].
  2:{ split; [done|]. split; [|split; [done|eauto]]. split; [intros st' Hst'; rewrite Hst in Hst'; by injection Hst' as <-|]. split; [intros x Hx; rewrite Hv in Hx; by injection Hx as <-|]. apply bool_decide_eq_true_1. }
  intros r s1 (m & -> & Hm & (Hg1 & Hu1 & Ht1 & st1 & Hst1 & Et1) & En & Hc & Hk & Hf).
  destruct (live_stream s1 i) as (x1 & Hx1 & Hcx1); [by exists st1|]. rewrite Hst1 in Hcx1. injection Hcx1 as ->. cbn in Et1. destruct (proj1 Hu1 _ Hx1) as (Esq1 & _ & Ee1).
  apply wp_bind, (wp_follow _ _ x1); [done|]. rewrite Esq1, Et1. destruct (ii_streams _ _ (proj1 Hg1) _ _ Hst1) as [[Hsq1 _ _ _ _ _] _]. cbn in Hsq1. rewrite Esq1, Ee1 in Hsq1.
  apply wp_bind. eapply wp_mono; [|apply (publish_spec s1 _ _ _ 128 _ Hsq1); [lia|done|lia|lia]]. intros ? s2 (E2 & S2 & T2 & x & Hx & Ew). apply wp_ret.
  assert (io_next s2 = io_next s1) as En2 by exact (f_equal c_next E2). split; [|split; [lia|]].
  - split; [rewrite E2; apply Hg1|]. apply (balanced_same s1); [done|exists []; by rewrite T2, app_nil_r|apply Hg1].
  - destruct (batch_count (sq_tail_kernel st) (word_at (v_pages v) 0) n (Z.of_nat m) Ht (wrap_bound 32 _ ltac:(lia)) ltac:(lia) ltac:(lia) Hk) as [Hle Hfull]. rewrite Z.add_0_l in *. split.
    + unfold offered. lia.
    + intros i'. by rewrite T2, Nat2Z.id.
    + intros Ha. apply Hfull. destruct (Hf (bool_decide_eq_true_2 _ Ha)) as [->|]; [left; lia|by right].
    + exists x1, x. rewrite S2. done.
Qed.
