(* ===== verification/StreamRing.v ===== *)
(** * Submission streams: the ring of completions

    What a process finds between its own position and the kernel's is a queue: posting a
    completion adds it at the end, and a completion that finds the ring full is lost. *)
From S2P Require Import Prelude Bytes StateM CapToken CapObject HandleTable Pledge CapSystem Runq Rlimit Stream StreamInv StreamSteps StreamRun.
Local Open Scope Z_scope.

(** ** Entries *)
Definition cqe_wf (c : cqe) : Prop := in_u 64 (cqe_cookie c) /\ in_s 64 (cqe_result c) /\ in_u 32 (cqe_flags c).

Lemma swrap_wrap w x : 0 < w -> in_s w x -> swrap w (wrap w x) = x.
Proof.
  intros Hw Hx. transitivity (swrap w x); [|by apply swrap_small]. unfold swrap, wrap. by rewrite Zplus_mod_idemp_l.
Qed.

Lemma cqe_roundtrip c : cqe_wf c -> cqe_of (cqe_bytes c) = c.
Proof.
  intros (H1 & H2 & H3). destruct c as [k r f]. cbn in H1, H2, H3. unfold cqe_of, cqe_bytes; cbn [cqe_cookie cqe_result cqe_flags]. f_equal.
  - by apply field_le.
  - rewrite (field_skip (le 8 k) _ 0 8 : field _ 8 8 = _), field_le by (by apply wrap_bound). by apply swrap_wrap.
  - rewrite app_assoc, (field_skip (le 8 k ++ le 8 (u64 r)) _ 0 4 : field _ 16 4 = _). by apply field_le.
Qed.

Section entries.
  Context (sz e c : Z) (pages : list (option (list Z))).
  Hypothesis Hsz : 0 < sz /\ 4096 = c * sz.
  Hypothesis He : 0 < e.

Definition place (slot : Z) : Z := 4096 + slot mod e * sz.

Lemma place_page slot : 1 <= place slot / 4096 /\ 0 <= place slot mod 4096 /\ place slot mod 4096 + sz <= 4096.
Proof using Hsz He.
  pose proof (Z.mod_pos_bound slot e He). unfold place. set (idx := slot mod e) in *. split; [apply Z.div_le_lower_bound; nia|].
  assert ((4096 + idx * sz) mod 4096 = (idx mod c) * sz) as ->.
  { destruct Hsz as [_ Hc]. rewrite Hc at 2. replace (4096 + idx * sz) with ((idx + c) * sz) by lia. rewrite Zmult_mod_distr_r. f_equal. rewrite <- (Z.mul_1_l c) at 1. apply Z_mod_plus_full. }
  pose proof (Z.mod_pos_bound idx c ltac:(nia)). split; nia.
Qed.

(** The page under a slot after an entry is written there. *)
Context (slot : Z) (p b : list Z).
Hypothesis Hp : get pages (place slot / 4096) = Some (Some p) /\ length p = 4096%nat.
Hypothesis Hb : length b = Z.to_nat sz.

Definition written : list (option (list Z)) := upd pages (place slot / 4096) (Some (splice p (Z.to_nat (place slot mod 4096)) b)).

Lemma page_exists : 0 <= place slot / 4096 < Z.of_nat (length pages).
Proof using Hsz He Hp Hb. destruct Hp as [H _]. unfold get in H. destruct (Z.ltb_spec (place slot / 4096) 0); [done|]. apply lookup_lt_Some in H. lia. Qed.

Lemma entry_written : entry_bytes sz e written slot = b.
Proof using Hsz He Hp Hb.
  unfold entry_bytes. fold (place slot). unfold written. rewrite get_upd_eq by apply page_exists. destruct (place_page slot) as (_ & H1 & H2). rewrite <- Hb. apply slice_splice_eq. destruct Hp as [_ ->]. lia.
Qed.

Lemma entry_kept slot' : slot' mod e <> slot mod e -> entry_bytes sz e written slot' = entry_bytes sz e pages slot'.
Proof using Hsz He Hp Hb.
  intros Hne. unfold entry_bytes. fold (place slot'). unfold written. destruct (decide (place slot' / 4096 = place slot / 4096)) as [E|E]; [|by rewrite get_upd_ne by (pose proof page_exists; lia)].
  rewrite E, get_upd_eq by apply page_exists. rewrite (proj1 Hp). destruct (place_page slot) as (_ & H1 & H2), (place_page slot') as (_ & H3 & H4).
  assert (place slot' mod 4096 + sz <= place slot mod 4096 \/ place slot mod 4096 + sz <= place slot' mod 4096) as Hd.
  { pose proof (Z.div_mod (place slot) 4096 ltac:(lia)). pose proof (Z.div_mod (place slot') 4096 ltac:(lia)). unfold place in *. destruct (Z.lt_ge_cases (slot' mod e) (slot mod e)); [left|right]; nia. }
  destruct Hp as [_ Hl]. apply (slice_splice_ne p b); rewrite Hb, ?Hl; lia.
Qed.
End entries.

(** ** The queue of completions *)
Definition completion_at (e : Z) (pages : list (option (list Z))) (slot : Z) : cqe := cqe_of (entry_bytes 32 e pages slot).
Definition completions (e : Z) (pages : list (option (list Z))) (t : Z) (n : nat) : list cqe := map (completion_at e pages) (ring_slots t n).

Lemma ring_slots_snoc n : forall t, in_u 32 t -> ring_slots t (S n) = ring_slots t n ++ [u32 (t + Z.of_nat n)].
Proof.
  induction n as [|n IH]; intros t Ht; [cbn; by rewrite Z.add_0_r, wrap_small|]. change (ring_slots t (S (S n))) with (t :: ring_slots (u32 (t + 1)) (S n)).
  rewrite IH by by apply wrap_bound. cbn [ring_slots app]. do 3 f_equal. unfold wrap. rewrite Zplus_mod_idemp_l. f_equal. lia.
Qed.

Lemma elem_of_slots x n : forall t, in_u 32 t -> x ∈ ring_slots t n -> exists k, 0 <= k < Z.of_nat n /\ x = u32 (t + k).
Proof.
  induction n as [|n IH]; intros t Ht; cbn [ring_slots]; [by intros ?%elem_of_nil|]. intros [->|Hx]%elem_of_cons; [exists 0; split; [lia|]; by rewrite Z.add_0_r, wrap_small|].
  apply IH in Hx as (k & Hk & ->); [|by apply wrap_bound]. exists (k + 1). split; [lia|]. unfold wrap. rewrite Zplus_mod_idemp_l. f_equal. lia.
Qed.

(** The entries of a ring divide the range of positions. *)
Lemma slot_mod e x : (exists n, 0 <= n < 32 /\ e = 2 ^ n) -> u32 x mod e = x mod e.
Proof.
  intros (n & Hn & ->). unfold wrap. symmetry. apply Znumtheory.Zmod_div_mod; [lia|lia|]. exists (2 ^ (32 - n)). rewrite <- Z.pow_add_r by lia. f_equal. lia.
Qed.

Lemma slots_distinct e t k n : (exists n, 0 <= n < 32 /\ e = 2 ^ n) -> 0 <= k < n -> n < e -> u32 (t + k) mod e <> u32 (t + n) mod e.
Proof.
  intros He Hk Hn. rewrite !slot_mod by done. intros E. assert ((n - k) mod e = 0) as Hd. { replace (n - k) with (t + n - (t + k)) by lia. rewrite Zminus_mod, <- E, Z.sub_diag. apply Z.mod_0_l. lia. }
  rewrite Z.mod_small in Hd by lia. lia.
Qed.

(** Writing the entry after [n] others and the position in the first page. *)
Lemma completions_posted e pages t n p p0 c hd : (exists k, 0 <= k < 32 /\ e = 2 ^ k) -> in_u 32 t -> Z.of_nat n < e -> cqe_wf c ->
  let slot := u32 (t + Z.of_nat n) in
  get pages (place 32 e slot / 4096) = Some (Some p) -> length p = 4096%nat ->
  completions e (upd (written 32 e pages slot p (cqe_bytes c)) 0 (Some (splice p0 0 (le 4 hd)))) t (S n) = completions e pages t n ++ [c].
Proof.
  intros He Ht Hn Hc slot Hp Hl. set (pages1 := written _ _ _ _ _ _). assert (0 < e) as He0 by (destruct He as (k & ? & ->); lia). assert (0 < 32 /\ 4096 = 128 * 32) as Hsz by lia.
  assert (length (cqe_bytes c) = Z.to_nat 32) as Hb by apply length_cqe_bytes.
  assert (forall sl, entry_bytes 32 e (upd pages1 0 (Some (splice p0 0 (le 4 hd)))) sl = entry_bytes 32 e pages1 sl) as H0.
  { intros sl. unfold entry_bytes. rewrite get_upd_ne; [done|lia|]. pose proof (proj1 (place_page 32 e 128 Hsz He0 sl)) as H. unfold place in H. lia. }
  unfold completions. rewrite ring_slots_snoc by done. rewrite map_app. cbn [map]. fold slot. f_equal.
  - apply map_ext_in. intros x Hx. apply list_elem_of_In in Hx. apply elem_of_slots in Hx as (k & Hk & ->); [|done]. unfold completion_at. f_equal. rewrite H0.
    apply (entry_kept 32 e 128); [done|done|done|done|]. by apply slots_distinct.
  - f_equal. unfold completion_at. rewrite H0. unfold pages1. rewrite (entry_written 32 e 128) by done. by apply cqe_roundtrip.
Qed.

Lemma word_kept pages x : get pages 0 = Some (Some x) -> length x = 4096%nat -> forall pages1 hd, get pages1 0 = get pages 0 -> 0 < Z.of_nat (length pages1) ->
  word_at (upd pages1 0 (Some (splice x 0 (le 4 hd)))) 128 = word_at pages 128.
Proof.
  intros Hx Hl pages1 hd Hp H0. unfold word_at. rewrite get_upd_eq, Hx by lia. change (u32 (field (splice x 0 (le 4 hd)) 128 4) = u32 (field x 128 4)). rewrite field_splice_ne; [done| |right]; rewrite length_le; lia.
Qed.

(** Notification leaves the memory and the position alone. *)
Definition pinned (i h : Z) (m : gmap Z vmo) (s : io) : Prop := io_vmos s = m /\ exists st, io_streams s !! i = Some st /\ cq_head_kernel st = h.

Lemma keeps_pinned i h m : keeps (pinned i h m) (stream_notify_channel i).
Proof.
  apply keeps_notify_of.
  - intros tok. apply keeps_follow_bind. intros s st (_ & st' & Hst' & Hh) Hst. cbv beta zeta. rewrite Hst in Hst'. injection Hst' as <-. apply keeps_modify. intros s1 [Hm _]. split; [done|].
    cbn. rewrite lookup_insert_eq. eexists. split; [done|]. by destruct (_ =? _).
  - intros f Hf. apply keeps_modify. intros s [Hm Hs]. unfold pinned. by destruct (Hf s) as (-> & -> & _).
Qed.

Section post.
  Context (s : io) (i : Z) (st : stream) (v : vmo) (c : cqe).
  Hypothesis Hinv : io_inv None (core_of s).
  Hypothesis Hst : io_streams s !! i = Some st.
  Hypothesis Hv : io_vmos s !! cq_vmo st = Some v.

Lemma post_tail : ring_tail (cq_vmo st) s = Some (s, word_at (v_pages v) 128).
Proof using Hinv Hst Hv.
  assert (c_streams (core_of s) !! i = Some (hard st)) as Hcst by by rewrite core_streams, Hst. destruct (ii_streams _ _ Hinv _ _ Hcst) as [[_ Hcq _ _ _ _] _]. cbn in Hcq.
  pose proof (ring_positive _ _ _ _ Hcq). destruct (ring_first _ _ _ _ Hcq ltac:(lia)) as (v' & p & Hv' & Hp). rewrite Hv in Hv'. injection Hv' as <-.
  unfold ring_tail, load, mbind, M_bind, word_at. rewrite (follow_eq _ _ _ _ Hv), (proj1 Hp). done.
Qed.

(** With no room the completion is dropped. *)
Lemma post_full : cq_entries st <= u32 (cq_head_kernel st - word_at (v_pages v) 128) ->
  stream_post_cqe i (cqe_cookie c) (cqe_result c) (cqe_flags c) s = io_emit [Lost i c] s.
Proof using Hinv Hst Hv.
  intros Hf. unfold stream_post_cqe, mbind, M_bind. rewrite (follow_eq _ _ _ _ Hst), post_tail. destruct (Z.geb_spec (u32 (cq_head_kernel st - word_at (v_pages v) 128)) (cq_entries st)); [|lia]. by destruct c.
Qed.

(** With room it is the last of the completions the process finds. *)
Lemma post_room : in_u 32 (cq_head_kernel st) -> cqe_wf c -> let t := word_at (v_pages v) 128 in let n := u32 (cq_head_kernel st - t) in n < cq_entries st ->
  wp (stream_post_cqe i (cqe_cookie c) (cqe_result c) (cqe_flags c)) (fun _ s' => exists st' v', io_streams s' !! i = Some st' /\ io_vmos s' !! cq_vmo st = Some v' /\
    cq_head_kernel st' = u32 (cq_head_kernel st + 1) /\ word_at (v_pages v') 0 = u32 (cq_head_kernel st + 1) /\ word_at (v_pages v') 128 = t /\
    completions (cq_entries st) (v_pages v') t (S (Z.to_nat n)) = completions (cq_entries st) (v_pages v) t (Z.to_nat n) ++ [c]) s.
Proof using Hinv Hst Hv.
  intros Hh Hc t n Hn. assert (c_streams (core_of s) !! i = Some (hard st)) as Hcst by by rewrite core_streams, Hst. destruct (ii_streams _ _ Hinv _ _ Hcst) as [[_ Hcq _ _ _ _] _]. cbn in Hcq.
  pose proof (inv_postable _ _ _ Hinv (ex_intro _ _ Hcst)) as Hpo. pose proof (ring_positive _ _ _ _ Hcq) as Hpos.
  destruct (ring_first _ _ _ _ Hcq ltac:(lia)) as (v0 & p0 & Hv0 & Hp0). rewrite Hv in Hv0. injection Hv0 as <-. pose proof (page_index _ _ _ Hp0) as Hlen.
  destruct (rk_entries _ _ _ _ Hcq) as (k & Hk & Ee). pose proof (wrap_bound 32 (cq_head_kernel st - t) ltac:(lia)) as Hn0. unfold in_u in Hn0. fold n in Hn0.
  assert (in_u 32 t) as Ht by by apply wrap_bound. assert (u32 (t + Z.of_nat (Z.to_nat n)) = cq_head_kernel st) as Eslot by (rewrite Z2Nat.id by lia; apply wrap_distance; [done|done|lia|done]).
  assert (Z.land (cq_head_kernel st) (cq_entries st - 1) = cq_head_kernel st mod cq_entries st) as Em.
  { rewrite Ee. replace (2 ^ k - 1) with (Z.ones k) by (rewrite Z.ones_equiv; lia). apply Z.land_ones. lia. }
  pose proof (ring_index _ _ _ _ (cq_head_kernel st) Hcq) as Hidx. rewrite Em in Hidx.
  destruct (ring_entry s (cq_vmo st) (cq_entries st) 32 128 _ Hcq eq_refl eq_refl Hidx) as (v1 & p & Hv1 & Hkva & Hp & Ho & Hl). rewrite Hv in Hv1. injection Hv1 as <-.
  fold (place 32 (cq_entries st) (cq_head_kernel st)) in *. set (o := place 32 (cq_entries st) (cq_head_kernel st)) in *.
  unfold stream_post_cqe. apply wp_bind, (wp_follow _ _ st); [done|]. apply wp_bind. exists s, t. split; [exact post_tail|]. fold n. destruct (Z.geb_spec n (cq_entries st)); [lia|].
  apply wp_bind, (wp_follow _ _ v); [done|]. unfold stream_cqe_at. rewrite Em. destruct (Z.geb_spec (cq_head_kernel st mod cq_entries st) (cq_entries st)); [lia|].
  rewrite (Hkva : vmo_kva_at v (4096 + cq_head_kernel st mod cq_entries st * 32) = _). destruct c as [ck cr cf] eqn:Ec. cbn [cqe_cookie cqe_result cqe_flags]. rewrite <- Ec in *.
  apply wp_bind. eexists _, tt. split; [apply (store_eq s _ v _ p); [done|done|rewrite length_cqe_bytes; lia]|]. set (v1 := Vmo _ _ _). set (s1 := set_vmos _ s).
  pose proof (proj1 (place_page 32 (cq_entries st) 128 ltac:(lia) Hpos (cq_head_kernel st))) as Ho1. fold o in Ho1.
  assert (page_of v1 0 p0) as Hp01. { split; [|apply Hp0]. unfold v1; cbn [v_pages]. rewrite get_upd_ne; [apply Hp0|lia|lia]. }
  apply wp_bind. eexists _, tt. split; [apply (store_eq s1 _ v1 0 p0); [apply lookup_insert_eq|done|rewrite length_le; lia]|]. set (v2 := Vmo _ _ _). set (s2 := set_vmos _ s1).
  apply wp_bind, wp_bind, (wp_follow _ _ st); [done|]. apply wp_modify. set (s3 := set_streams _ s2). apply wp_bind, wp_modify. set (s4 := Io _ _ _ _ _ _ _ _ _ _ _ _ _ _ _).
  assert (shape v2 = shape v) as Es.
  { transitivity (shape v1); [apply (shape_store v1 0 p0); [done|]|apply (shape_store v (o / 4096) p); [done|]]; rewrite length_splice.
    - apply Hp0.
    - destruct Hp0 as [_ ->]. rewrite length_le. lia.
    - apply Hp.
    - destruct Hp as [_ ->]. rewrite length_cqe_bytes. lia. }
  assert (core_of s4 = core_of s) as E4.
  { unfold s4, core_of; cbn. f_equal; [rewrite fmap_insert; apply insert_id; by rewrite lookup_fmap, Hst|]. rewrite insert_insert_eq, fmap_insert, Es. apply insert_id. by rewrite lookup_fmap, Hv. }
  apply wp_bind. eapply wp_mono; [|apply (wp_keeps (pinned i (u32 (cq_head_kernel st + 1)) (io_vmos s2))); [apply settles_notify; by rewrite E4|apply keeps_pinned|]].
  2:{ split; [done|]. eexists. split; [apply lookup_insert_eq|done]. }
  intros ? s5 [_ (Hm & st5 & Hst5 & Eh)]. apply wp_ret. exists st5, v2. split; [done|]. split; [rewrite Hm; apply lookup_insert_eq|]. split; [done|].
  pose proof (page_index _ _ _ Hp01) as Hlen1. assert (v_pages v1 = written 32 (cq_entries st) (v_pages v) (cq_head_kernel st) p (cqe_bytes c)) as Ew by done. split; [|split].
  - unfold word_at, v2. cbn [v_pages]. rewrite get_upd_eq by done. change (u32 (field (splice p0 0 (le 4 (u32 (cq_head_kernel st + 1)))) 0 4) = u32 (cq_head_kernel st + 1)).
    rewrite field_splice_eq; [by apply wrap_small, wrap_bound|by apply wrap_bound|]. destruct Hp0 as [_ ->]. lia.
  - apply word_kept; [apply Hp0|apply Hp0| |lia]. rewrite (proj1 Hp0). apply Hp01.
  - unfold v2. cbn [v_pages]. rewrite Ew. rewrite <- Eslot at 1. apply completions_posted; [by exists k|done|lia|done|rewrite Eslot; apply Hp|apply Hp].
Qed.
End post.
