(* ===== verification/StreamSystem.v ===== *)
(** * Submission streams: the system

    The operations that processes, the worker and the clock interleave: every sequence of
    them runs without following a dangling pointer, keeps the accounting of references,
    and finishes every request it takes exactly once. *)
From S2P Require Import Prelude Bytes StateM CapToken CapObject HandleTable Pledge CapSystem Runq Rlimit Stream StreamInv StreamSteps StreamRun.
Local Open Scope Z_scope.

(** ** Destruction, the clock and reaping *)

(** The accounting is the same, and nothing is taken or finished. *)
Definition mild (s s' : io) : Prop := core_of s' = core_of s /\ quiet_trace s s'.

#[export] Instance mild_preorder : PreOrder mild.
Proof.
  split; [intros s; split; [done|]; exists []; by rewrite app_nil_r|]. intros s1 s2 s3 [E1 T1] [E2 T2]. split; [congruence|by eapply quiet_trace_trans].
Qed.

Lemma mild_good s s' : mild s s' -> good s -> good s' /\ io_next s' = io_next s.
Proof. intros [E T] [Hinv Hb]. split; [split; [by rewrite E|by eapply balanced_same]|exact (f_equal c_next E)]. Qed.

Lemma mild_same s s' : core_of s' = core_of s -> io_trace s' = io_trace s -> mild s s'.
Proof. intros E T. split; [done|]. exists []. by rewrite T, app_nil_r. Qed.

Lemma cancel_jobs_spec jobs : forall s, (forall job, job ∈ jobs -> is_Some (io_jobs s !! job)) -> wp (cancel_jobs jobs) (fun _ s' => mild s s') s.
Proof.
  induction jobs as [|job jobs IH]; intros s Hl; cbn [cancel_jobs]; [by apply wp_ret|]. destruct (Hl job) as [j Hj]; [left|]. apply wp_bind, wp_bind, (wp_follow _ _ j); [done|]. apply wp_modify.
  set (s1 := set_jobs _ s). assert (mild s s1) as H1. { apply mild_same; [|done]. unfold s1, core_of; cbn. f_equal. rewrite fmap_insert. apply insert_id. rewrite lookup_fmap. exact (f_equal (fmap hard_job) Hj). }
  eapply wp_mono; [|apply (IH s1)]; [intros ? s2 H2; by etrans|]. intros job' Hin. cbn. destruct (decide (job' = job)) as [->|]; [rewrite lookup_insert_eq; eauto|]. rewrite lookup_insert_ne by done. apply Hl. by right.
Qed.

Lemma stream_destroy_spec s i : io_inv None (core_of s) -> is_Some (c_streams (core_of s) !! i) -> wp (stream_destroy i) (fun _ s' => mild s s') s.
Proof.
  intros Hinv Hi. destruct (live_stream _ _ Hi) as (st & Hst & Hcst). unfold stream_destroy. apply wp_bind, (wp_follow _ _ st); [done|]. destruct (negb _); [by apply wp_ret|].
  apply wp_bind, wp_bind, (wp_follow _ _ st); [done|]. apply wp_modify. set (s1 := set_streams _ s).
  assert (mild s s1) as H1. { apply mild_same; [|done]. unfold s1, core_of; cbn. f_equal. rewrite fmap_insert. apply insert_id. by rewrite lookup_fmap, Hst. }
  apply wp_bind. eapply wp_mono; [|apply cancel_jobs_spec].
  - intros ? s2 H2. assert (mild s s2) as H by by etrans. destruct (_ >? 0); [|by apply wp_ret]. apply wp_modify. etrans; [exact H|]. split; [done|]. eexists. split; [done|by constructor].
  - intros job Hin. destruct (ii_streams _ _ Hinv _ _ Hcst) as [[_ _ [_ Hk] _ _ _] _]. apply Hk in Hin as (j & Hj & _). rewrite core_jobs in Hj. cbn. destruct (io_jobs s !! job); [eauto|done].
Qed.

Lemma refill_good s pid : good s -> wp (refill_io_tokens pid) (fun _ s' => good s' /\ io_next s' = io_next s) s.
Proof.
  intros [Hinv Hb]. eapply wp_mono; [|by apply refill_io_spec]. intros ? s' (shipped & rest & Hp & [[E _]|E] & _ & T & _); [by apply (mild_good s)|]. split; [|exact (f_equal c_next E)]. split.
  - rewrite E. by apply ship_inv.
  - eapply balanced_quiet; [|by rewrite E|by rewrite E|done|done]. rewrite E. eauto.
Qed.

Lemma reap_spec s i min nb late : io_inv None (core_of s) -> is_Some (c_streams (core_of s) !! i) -> wp (reap_check i min nb late) (fun _ s' => s' = s) s.
Proof.
  intros Hinv Hi. destruct (live_stream _ _ Hi) as (st & Hst & Hcst). apply wp_bind, (wp_follow _ _ st); [done|]. destruct (_ =? _); [by apply wp_ret|]. destruct (_ >? _); [by apply wp_ret|].
  destruct (ii_streams _ _ Hinv _ _ Hcst) as [[_ Hcq _ _ _ _] _]. cbn in Hcq. pose proof (ring_positive _ _ _ _ Hcq). destruct (ring_first _ _ _ _ Hcq ltac:(lia)) as (v & p & Hv & Hp).
  apply wp_bind. exists s. eexists. split; [|by apply wp_ret]. unfold ring_tail, load, mbind, M_bind. rewrite (follow_eq _ _ _ _ Hv), (proj1 Hp). done.
Qed.

(** ** System calls *)
Lemma sys_pledged_spec s pid : wp (sys_pledged pid) (fun _ s' => mild s s' /\ io_allocs s' = io_allocs s) s.
Proof.
  unfold sys_pledged. destruct (pledge_check_and_audit (io_world s) pid 10) as [ok w] eqn:E. eexists _, ok. split; [by rewrite E|]. split; [|done]. apply mild_same; [|done]. unfold core_of; cbn. f_equal.
  by rewrite <- (pledge_reg (io_world s) pid 10), E.
Qed.

Lemma resolve_stream_spec s pid tok right : io_inv None (core_of s) ->
  wp (resolve_stream pid tok right) (fun o s' => s' = s /\ forall i, o = Some i -> is_Some (c_streams (core_of s) !! i)) s.
Proof.
  intros Hinv. apply wp_bind, wp_gets, wp_ret. split; [done|]. unfold id. intros i. destruct (cap_token_resolve _ _ _ _) as [o|] eqn:Er; [|done]. apply resolve_object in Er as [idx Ho].
  destruct (Z.eqb_spec (kind o) CAP_KIND_STREAM) as [Ek|]; [|done]. destruct (Z.eqb_spec (kind_data o) 0) as [|Hd]; [done|]. intros [= <-]. by apply (ii_objects _ _ Hinv idx o).
Qed.

(** A call on a stream: denied, no stream, or the operation on a live stream. *)
Lemma sys_call_spec {A} s pid tok right (denied : A) (k : option Z -> M io A) (Q : A -> io -> Prop) : good s ->
  (forall s', mild s s' -> Q denied s') -> (forall s', mild s s' -> wp (k None) Q s') ->
  (forall s' i, mild s s' -> io_allocs s' = io_allocs s -> is_Some (c_streams (core_of s') !! i) -> wp (k (Some i)) Q s') ->
  wp (ok ← sys_pledged pid; if negb ok then mret denied else s ← resolve_stream pid tok right; k s) Q s.
Proof.
  intros Hg Hd Hn Hk. apply wp_bind. eapply wp_mono; [|apply sys_pledged_spec]. intros ok s1 [H1 Ha]. destruct (mild_good _ _ H1 Hg) as [[Hinv _] _]. destruct (negb ok); [by apply wp_ret, Hd|].
  apply wp_bind. eapply wp_mono; [|by apply resolve_stream_spec]. intros [i|] s2 [-> Hi]; [by apply Hk; [| |apply Hi]|by apply Hn].
Qed.

Lemma sys_submit_good s pid tok n : good s -> io_next s + u32 n <= 2 ^ 31 -> wp (sys_stream_submit pid tok n) (fun _ s' => good s' /\ io_next s' <= io_next s + u32 n) s.
Proof.
  intros Hg Hn. pose proof (wrap_bound 32 n ltac:(lia)) as Hw. unfold in_u in Hw. apply sys_call_spec; [done| | |].
  - intros s' Hm. destruct (mild_good _ _ Hm Hg) as [? ->]. split; [done|lia].
  - intros s' Hm. destruct (mild_good _ _ Hm Hg) as [? E]. apply wp_ret. split; [done|lia].
  - intros s' i Hm _ Hi. destruct (mild_good _ _ Hm Hg) as [Hg' E]. destruct (live_stream _ _ Hi) as (st & Hst & _). destruct (submit_batch_spec s' i (u32 n) pid st Hg' Hst) as (v & _ & H); [lia|lia|].
    apply wp_bind. eapply wp_mono; [|exact H]. intros r s2 (Hg2 & En & _). apply wp_ret. split; [done|lia].
Qed.

Lemma sys_destroy_good s pid tok : good s -> wp (sys_stream_destroy pid tok) (fun _ s' => good s' /\ io_next s' = io_next s) s.
Proof.
  intros Hg. apply sys_call_spec; [done|intros s' Hm; by apply (mild_good s)|intros s' Hm; apply wp_ret; by apply (mild_good s)|]. intros s' i Hm _ Hi. destruct (mild_good _ _ Hm Hg) as [Hg' E].
  apply wp_bind. eapply wp_mono; [|apply stream_destroy_spec; [apply Hg'|done]]. intros ? s2 H2. apply wp_ret. destruct (mild_good _ _ H2 Hg'). split; [done|lia].
Qed.

Lemma sys_reap_good s pid tok n tmo late : good s -> wp (sys_stream_reap pid tok n tmo late) (fun _ s' => good s' /\ io_next s' = io_next s) s.
Proof.
  intros Hg. apply sys_call_spec; [done|intros s' Hm; by apply (mild_good s)|intros s' Hm; apply wp_ret; by apply (mild_good s)|]. intros s' i Hm _ Hi. destruct (mild_good _ _ Hm Hg) as [Hg' E].
  eapply wp_mono; [|apply reap_spec; [apply Hg'|done]]. intros ? s2 ->. done.
Qed.

(** ** Runs *)

(** A store of a process into a page it shares with the kernel. *)
Definition user_write (v page off : Z) (b : list Z) : M io unit :=
  s ← gets id;
  match io_vmos s !! v with
  | Some x =>
      match get (v_pages x) page with
      | Some (Some _) => if (0 <=? off) && (off + Z.of_nat (length b) <=? 4096) then store v page off b else mret tt
      | _ => mret tt
      end
  | None => mret tt
  end.

Inductive io_op :=
| Op_write (v page off : Z) (b : list Z)
| Op_submit (pid tok n : Z)
| Op_reap (pid tok n timeout : Z) (late : bool)
| Op_destroy (pid tok : Z)
| Op_worker
| Op_tick (pid : Z).

Definition io_exec (op : io_op) : M io unit :=
  match op with
  | Op_write v page off b => user_write v page off b
  | Op_submit pid tok n => sys_stream_submit pid tok n;; mret tt
  | Op_reap pid tok n timeout late => sys_stream_reap pid tok n timeout late;; mret tt
  | Op_destroy pid tok => sys_stream_destroy pid tok;; mret tt
  | Op_worker => worker_step;; mret tt
  | Op_tick pid => refill_io_tokens pid
  end.

Fixpoint io_run (ops : list io_op) : M io unit :=
  match ops with [] => mret tt | op :: ops => io_exec op;; io_run ops end.

(** The requests that an operation may take. *)
Definition op_requests (op : io_op) : Z := match op with Op_submit _ _ n => u32 n | _ => 0 end.
Definition total_requests (ops : list io_op) : Z := foldr (fun op n => op_requests op + n) 0 ops.

Lemma user_write_good s v page off b : good s -> wp (user_write v page off b) (fun _ s' => good s' /\ io_next s' = io_next s) s.
Proof.
  intros Hg. apply wp_bind, wp_gets. unfold id. destruct (io_vmos s !! v) as [x|] eqn:Hx; [|by apply wp_ret]. destruct (get (v_pages x) page) as [[p|]|] eqn:Hp; [|by apply wp_ret|by apply wp_ret].
  destruct (_ && _) eqn:Eo; [|by apply wp_ret]. assert (page_of x page p) as Hpg.
  { split; [done|]. assert (c_vmos (core_of s) !! v = Some (shape x)) as Hc by by rewrite core_vmos, Hx. destruct (ii_vmos _ _ (proj1 Hg) _ _ Hc) as [[[Hf _] _] _]. cbn in Hf.
    unfold get in Hp. destruct (page <? 0); [done|]. destruct (proj1 (Forall_lookup _ _) Hf (Z.to_nat page) (Some (length p))) as [|[= Hl]]; [by rewrite list_lookup_fmap, Hp|done|done]. }
  eapply wp_mono; [|apply (silent_store v page off b s x p Hx Hpg); lia]. intros ? s' (E & _ & T). apply (mild_good s); [by apply mild_same|done].
Qed.

Lemma io_exec_good s op : good s -> io_next s + op_requests op <= 2 ^ 31 -> wp (io_exec op) (fun _ s' => good s' /\ io_next s' <= io_next s + op_requests op) s.
Proof.
  intros Hg Hn. destruct op; cbn [io_exec op_requests] in *; [|apply wp_bind|apply wp_bind|apply wp_bind|apply wp_bind|].
  - eapply wp_mono; [|by apply user_write_good]. intros ? s' [H E]. split; [done|lia].
  - eapply wp_mono; [|by apply sys_submit_good]. intros ? s' H. by apply wp_ret.
  - eapply wp_mono; [|by apply sys_reap_good]. intros ? s' [H E]. apply wp_ret. split; [done|lia].
  - eapply wp_mono; [|by apply sys_destroy_good]. intros ? s' [H E]. apply wp_ret. split; [done|lia].
  - eapply wp_mono; [|apply worker_good; [done|lia]]. intros ? s' (H & E & _). apply wp_ret. split; [done|lia].
  - eapply wp_mono; [|by apply refill_good]. intros ? s' [H E]. split; [done|lia].
Qed.

Lemma op_nonneg op : 0 <= op_requests op.
Proof. destruct op; cbn; try lia. pose proof (wrap_bound 32 n ltac:(lia)) as Hw. unfold in_u in Hw. lia. Qed.

Lemma total_nonneg ops : 0 <= total_requests ops.
Proof. induction ops as [|op ops IH]; [done|]. pose proof (op_nonneg op). unfold total_requests in *. cbn [foldr]. lia. Qed.

Lemma run_good ops : forall s, good s -> io_next s + total_requests ops <= 2 ^ 31 -> wp (io_run ops) (fun _ s' => good s') s.
Proof.
  induction ops as [|op ops IH]; intros s Hg Hn; cbn [io_run]; [by apply wp_ret|]. change (total_requests (op :: ops)) with (op_requests op + total_requests ops) in Hn.
  pose proof (op_nonneg op). pose proof (total_nonneg ops). apply wp_bind. eapply wp_mono; [|apply io_exec_good; [done|lia]]. intros ? s1 [H1 E1]. apply IH; [done|lia].
Qed.

(** ** The worker's loop *)

(** Passes until the queue is empty; a pass never adds to the queue. *)
Fixpoint worker_drain (fuel : nat) : M io unit :=
  match fuel with
  | O => diverge
  | S fuel => more ← worker_step; if more : bool then worker_drain fuel else mret tt
  end.

Definition undelayed (k : core) : Prop := forall pid, waiting k pid = [].

Lemma worked_queue s s' : worked s s' -> exists job, g_worker_queue s = job :: g_worker_queue s' /\ forall pid, waiting (core_of s') pid = waiting (core_of s) pid.
Proof. intros (job & q & j & x & r & Hq & _ & _ & E & _). exists job. rewrite Hq. split; [f_equal; exact (eq_sym (f_equal c_queue E))|]. intros pid. by rewrite E. Qed.

Lemma drain_good fuel : forall s, good s -> io_next s <= 2 ^ 31 -> (length (g_worker_queue s) < fuel)%nat ->
  wp (worker_drain fuel) (fun _ s' => good s' /\ g_worker_queue s' = [] /\ (undelayed (core_of s) -> undelayed (core_of s'))) s.
Proof.
  induction fuel as [|fuel IH]; intros s Hg Hn Hf; [lia|]. cbn [worker_drain]. apply wp_bind. eapply wp_mono; [|by apply worker_good].
  intros [] s1 (Hg1 & En & Hw); [|destruct Hw as [-> Hq]; by apply wp_ret]. destruct (worked_queue _ _ Hw) as (job & Hq & Hd). rewrite Hq in Hf. cbn [length] in Hf.
  eapply wp_mono; [|apply (IH s1); [done|lia|lia]]. intros ? s2 (Hg2 & Hq2 & Hu). split; [done|]. split; [done|]. intros H. apply Hu. intros pid. rewrite Hd. apply H.
Qed.

(** With no job in a queue there is no job. *)
Lemma idle_streams s i st : io_inv None (core_of s) -> g_worker_queue s = [] -> undelayed (core_of s) -> io_streams s !! i = Some st -> jobs_head st = [] /\ s_refcount st = 1.
Proof.
  intros Hinv Hq Hu Hst. assert (c_streams (core_of s) !! i = Some (hard st)) as Hc by by rewrite core_streams, Hst. destruct (ii_streams _ _ Hinv _ _ Hc) as [[_ _ [_ Hk] [Hr _] _ _] _]. cbn in Hk, Hr.
  destruct (jobs_head st) as [|job l]; [done|]. exfalso. destruct (proj1 (Hk job)) as (j & Hj & _); [left|]. destruct (jk_place _ _ _ _ (ii_jobs _ _ Hinv _ _ Hj)) as [H|[H|H]]; [|by rewrite Hu in H; apply elem_of_nil in H|done].
  change (c_queue (core_of s)) with (g_worker_queue s) in H. rewrite Hq in H. by apply elem_of_nil in H.
Qed.
