(* ===== verification/StreamCreate.v ===== *)
(** * Submission streams: creation

    Creation makes two memory objects, a control block and three kernel objects, and
    gives the process three handles.  While there are handles it is atomic: it makes all
    of them, or it fails and leaves none.  Without a handle its undoing releases the
    rings twice. *)
From S2P Require Import Prelude Bytes StateM CapToken CapObject HandleTable Pledge CapSystem Runq Rlimit Stream StreamInv StreamSteps StreamRun StreamSystem.
Local Open Scope Z_scope.
Local Open Scope c_scope.

(** ** What creation changes *)

(** What creation does not touch. *)
Definition rest_of (s : io) := (io_jobs s, io_pending_jobs s, g_worker_queue s, io_ends s, io_fds s, io_files s, io_trace s, io_limits s).
Abbreviation objects s := (g_cap_object_ptrs (reg (io_world s))).

(** The state is that of [s0] but for the streams, memory objects and kernel objects
    given; the next address is [n]. *)
Record site (s0 : io) (S : gmap Z stream) (V : gmap Z vmo) (O : gmap Z cap_object) (n : Z) (s : io) : Prop := Site {
  si_streams : io_streams s = S;
  si_vmos : io_vmos s = V;
  si_objs : objects s = O;
  si_tasks : tasks (io_world s) = tasks (io_world s0);
  si_rest : rest_of s = rest_of s0;
  si_next : io_next s = n
}.

Definition err (e : Z) : Prop := -128 <= e < 0.

Lemma u64_err e : err e -> u64 e <> 0.
Proof. unfold err, wrap. intros He. rewrite <- (Z.mod_add e 1) by lia. rewrite Z.mod_small; lia. Qed.

Definition object_of (k kd pid : Z) : cap_object :=
  new_object k (RIGHT_READ |. RIGHT_WRITE |. RIGHT_INSPECT |. RIGHT_DERIVE |. RIGHT_REVOKE) (Some (pid :: replicate 8 PID_NONE)) 0 kd pid CAP_OBJECT_IDX_NONE.

Lemma object_of_fields k kd pid : kind (object_of k kd pid) = k /\ kind_data (object_of k kd pid) = kd.
Proof. done. Qed.

Lemma create_root ok r k kd pid :
  let c := cap_object_create ok r k (RIGHT_READ |. RIGHT_WRITE |. RIGHT_INSPECT |. RIGHT_DERIVE |. RIGHT_REVOKE) (Some (pid :: replicate 8 PID_NONE)) 0 kd pid CAP_OBJECT_IDX_NONE in
  (exists e, err e /\ c = (r, e)) \/ exists idx, 1 <= idx < CAP_OBJECT_CAPACITY /\ g_cap_object_ptrs r !! idx = None /\ c = (publish_slot r idx (object_of k kd pid), idx).
Proof.
  unfold cap_object_create. destruct (cache_ready r); cbn [negb]; [|left; by exists CAP_V2_EINVAL]. destruct ok; cbn [negb]; [|left; by exists CAP_V2_ENOMEM]. cbv zeta.
  destruct (find_free_slot_spec r) as [[-> _]|(Hr & Hn & _)]; [left; by exists CAP_V2_ENOMEM|]. unfold CAP_OBJECT_CAPACITY, CAP_OBJECT_IDX_NONE in *.
  destruct (Z.eqb_spec (cap_object_find_free_slot_locked r) 0xFFFFFFFF); [lia|]. right. by exists (cap_object_find_free_slot_locked r).
Qed.

Section site.
  Context (s0 : io).

Lemma site_start : site s0 (io_streams s0) (io_vmos s0) (objects s0) (io_next s0) s0.
Proof using. done. Qed.

Lemma site_alloc S V O n s : site s0 S V O n s -> wp alloc (fun _ s' => site s0 S V O n s') s.
Proof using. intros []. by apply wp_bind, wp_gets, wp_bind, wp_modify, wp_ret. Qed.

Lemma site_alloc_pages S V O n k : forall s, site s0 S V O n s -> wp (alloc_pages k) (fun _ s' => site s0 S V O n s') s.
Proof using.
  induction k as [|k IH]; intros s H; cbn [alloc_pages]; [by apply wp_ret|]. apply wp_bind. eapply wp_mono; [|by apply site_alloc]. intros [] s1 H1; [by apply IH|by apply wp_ret].
Qed.

(** A new memory object of [np] pages. *)
Definition new_vmo (size : Z) : vmo := Vmo 1 size (replicate (Z.to_nat (size / 4096)) (Some zero_page)).

Lemma site_vmo_create S V O n s size : site s0 S V O n s ->
  wp (vmo_create size) (fun o s' => match o with None => site s0 S V O n s' | Some i => i = n /\ site s0 S (<[n := new_vmo size]> V) O (n + 1) s' end) s.
Proof using.
  intros H. unfold vmo_create. destruct (_ || _); [by apply wp_ret|]. apply wp_bind. eapply wp_mono; [|by apply site_alloc]. intros [] s1 H1; cbn [negb]; [|by apply wp_ret].
  apply wp_bind. eapply wp_mono; [|by apply site_alloc]. intros [] s2 H2; cbn [negb]; [|by apply wp_ret]. apply wp_bind. eapply wp_mono; [|by apply site_alloc_pages]. intros [] s3 [H3 <- ????]; cbn [negb]; [|by apply wp_ret].
  apply wp_bind, wp_bind, wp_gets, wp_bind, wp_modify, wp_ret, wp_bind, wp_modify, wp_ret. split; [done|]. subst n. split; done.
Qed.

Lemma site_vmo_unref S V O n s i x : site s0 S V O n s -> V !! i = Some x -> v_refcount x = 1 -> wp (vmo_unref i) (fun _ s' => site s0 S (delete i V) O n s') s.
Proof using.
  intros [HS HV HO HT HR Hn] Hx Hr. rewrite <- HV in Hx. apply wp_bind, (wp_follow _ _ x); [done|]. rewrite Hr. apply wp_modify. split; try done. cbn. by rewrite HV.
Qed.

Lemma site_free_slab S V O n s i : site s0 S V O n s -> is_Some (S !! i) -> wp (free_stream_slab i) (fun _ s' => site s0 (delete i S) V O n s') s.
Proof using.
  intros [HS HV HO HT HR Hn] [x Hx]. rewrite <- HS in Hx. apply wp_bind, (wp_follow _ _ x); [done|]. apply wp_modify. split; try done. cbn. by rewrite HS.
Qed.

Lemma site_create_object S V O n s k kd pid : site s0 S V O n s ->
  wp (create_object k kd pid) (fun idx s' => if idx <? 0 then err idx /\ site s0 S V O n s' else 1 <= idx < CAP_OBJECT_CAPACITY /\ O !! idx = None /\ site s0 S V (<[idx := object_of k kd pid]> O) n s') s.
Proof using.
  intros H. apply wp_bind. eapply wp_mono; [|by apply site_alloc]. intros ok s1 [HS HV HO HT HR Hn]. apply wp_bind, wp_gets. unfold id.
  destruct (create_root ok (reg (io_world s1)) k kd pid) as [(e & He & ->)|(idx & Hi & Hf & ->)]; apply wp_bind, wp_modify, wp_ret.
  - destruct (Z.ltb_spec e 0); [|unfold err in He; lia]. done.
  - destruct (Z.ltb_spec idx 0); [lia|]. rewrite <- HO. split; [done|]. split; [done|]. by split.
Qed.

(** Releasing the object of a memory object releases it. *)
Lemma site_destroy_vmo S V O n s idx kd pid x : site s0 S V O n s -> 1 <= idx < CAP_OBJECT_CAPACITY -> O !! idx = Some (object_of CAP_KIND_VMO kd pid) -> kd <> 0 -> V !! kd = Some x -> v_refcount x = 1 ->
  wp (object_destroy idx) (fun _ s' => site s0 S (delete kd V) (delete idx O) n s') s.
Proof using.
  intros [HS HV HO HT HR Hn] Hi Ho Hkd Hx Hr. apply wp_bind, wp_gets. unfold id. destruct (Z.eqb_spec idx 0); [lia|]. destruct (Z.geb_spec idx CAP_OBJECT_CAPACITY); [lia|]. cbn [orb]. rewrite HO, Ho.
  apply wp_bind, wp_modify. set (s1 := set_io_reg _ s). destruct (object_of_fields CAP_KIND_VMO kd pid) as [-> ->]. destruct (Z.eqb_spec kd 0); [done|]. cbn [negb andb Z.eqb Pos.eqb].
  eapply (site_vmo_unref S V (delete idx O) n s1 kd x); [|done|done]. split; try done. unfold s1, cap_object_destroy; cbn.
  destruct (Z.eqb_spec idx 0); [lia|]. destruct (Z.geb_spec idx CAP_OBJECT_CAPACITY); [lia|]. cbn [orb]. by rewrite HO, Ho.
Qed.

(** ** The steps of creation *)
Context (pid sqz cqz : Z).
Let n := io_next s0.
Let S0 := io_streams s0.
Let V0 := io_vmos s0.
Let O0 := objects s0.
Hypothesis Hn : 0 < n.
Hypothesis HV0 : forall v, n <= v -> V0 !! v = None.
Hypothesis HS0 : forall i, n <= i -> S0 !! i = None.

(** With both rings. *)
Definition rings : gmap Z vmo := <[n + 1 := new_vmo cqz]> (<[n := new_vmo sqz]> V0).

Lemma rings_sq : rings !! n = Some (new_vmo sqz).
Proof using. unfold rings. rewrite lookup_insert_ne by lia. apply lookup_insert_eq. Qed.
Lemma rings_cq : rings !! (n + 1) = Some (new_vmo cqz).
Proof using. apply lookup_insert_eq. Qed.
Lemma rings_delete : delete (n + 1) (delete n rings) = V0.
Proof using HV0.
  apply map_eq. intros v. destruct (decide (v = n + 1)) as [->|]; [rewrite lookup_delete_eq; symmetry; apply HV0; lia|]. rewrite lookup_delete_ne by done.
  destruct (decide (v = n)) as [->|]; [rewrite lookup_delete_eq; symmetry; apply HV0; lia|]. unfold rings. by rewrite lookup_delete_ne, !lookup_insert_ne by done.
Qed.

Lemma site_unref_sq S O k s : site s0 S rings O k s -> wp (vmo_unref n) (fun _ s' => site s0 S (delete n rings) O k s') s.
Proof using. intros H. eapply site_vmo_unref; [done|apply rings_sq|done]. Qed.
Lemma site_unref_cq S O k s : site s0 S (delete n rings) O k s -> wp (vmo_unref (n + 1)) (fun _ s' => site s0 S V0 O k s') s.
Proof using HV0. intros H. rewrite <- rings_delete. eapply site_vmo_unref; [done|rewrite lookup_delete_ne by lia; apply rings_cq|done]. Qed.

(** Nothing of it is left. *)
Definition undone (s : io) : Prop := exists n', n <= n' <= n + 3 /\ site s0 S0 V0 O0 n' s.

Lemma site_create_block s ops sqn cqn raw : site s0 S0 rings O0 (n + 2) s ->
  wp (create_block ops n (n + 1) sqn cqn pid raw) (fun r s' => match r with
    | inl e => err e /\ undone s'
    | inr i => i = n + 2 /\ exists id, site s0 (<[n + 2 := new_stream id ops n (n + 1) sqn cqn raw pid]> S0) rings O0 (n + 3) s'
    end) s.
Proof using HV0 Hn.
  intros H. unfold create_block. assert (forall s1 e, err e -> site s0 S0 rings O0 (n + 2) s1 -> wp (vmo_unref n;; vmo_unref (n + 1);; mret (inl e)) (fun r s' => match r with
    | inl e => err e /\ undone s' | inr i => i = n + 2 /\ exists id, site s0 (<[n + 2 := new_stream id ops n (n + 1) sqn cqn raw pid]> S0) rings O0 (n + 3) s' end) s1) as Hundo.
  { intros s1 e He H1. apply wp_bind. eapply wp_mono; [|apply (site_unref_sq _ _ _ _ H1)]. intros ? s2 H2. apply wp_bind.
    eapply wp_mono; [|apply (site_unref_cq _ _ _ _ H2)]. intros ? s3 H3. apply wp_ret. split; [done|]. exists (n + 2). split; [lia|done]. }
  apply wp_bind. eapply wp_mono; [|by apply site_alloc]. intros [] s1 H1; cbn [negb]; [|by apply Hundo]. apply wp_bind, wp_gets. unfold id. destruct (_ && _).
  - apply wp_bind, wp_modify, Hundo; [done|]. by destruct H1.
  - destruct H1 as [HS HV HO HT HR H2]. apply wp_bind, wp_bind, wp_gets, wp_bind, wp_modify, wp_ret, wp_bind, wp_modify, wp_ret. rewrite H2. split; [done|]. eexists. split; try done; cbn; [by rewrite HS|lia].
Qed.

Context (st : stream).
Let S1 : gmap Z stream := <[n + 2 := st]> S0.

Lemma site_free s O e : err e -> O = O0 -> site s0 S1 V0 O (n + 3) s -> wp (free_stream_slab (n + 2);; mret (inl e)) (fun r s' => exists e', r = inl (B := Z * Z * Z) e' /\ err e' /\ undone s') s.
Proof using HS0 Hn.
  intros He -> H. apply wp_bind. eapply wp_mono; [|eapply (site_free_slab _ _ _ _ _ (n + 2) H); unfold S1; rewrite lookup_insert_eq; eauto]. intros ? s1 H1. apply wp_ret. exists e. split; [done|]. split; [done|].
  exists (n + 3). split; [lia|]. assert (delete (n + 2) S1 = S0) as E by (unfold S1; rewrite delete_insert_eq; apply delete_id, HS0; lia). by rewrite E in H1.
Qed.

(** The three objects. *)
Definition published (sq_idx cq_idx st_idx : Z) : gmap Z cap_object :=
  <[st_idx := object_of CAP_KIND_STREAM (n + 2) pid]> (<[cq_idx := object_of CAP_KIND_VMO (n + 1) pid]> (<[sq_idx := object_of CAP_KIND_VMO n pid]> O0)).

Definition slots_fresh (sq_idx cq_idx st_idx : Z) : Prop := NoDup [sq_idx; cq_idx; st_idx] /\ forall x, x ∈ [sq_idx; cq_idx; st_idx] -> 1 <= x < CAP_OBJECT_CAPACITY /\ O0 !! x = None.

Lemma site_destroy_sq s O idx : site s0 S1 rings O (n + 3) s -> 1 <= idx < CAP_OBJECT_CAPACITY -> O !! idx = Some (object_of CAP_KIND_VMO n pid) ->
  wp (object_destroy idx) (fun _ s' => site s0 S1 (delete n rings) (delete idx O) (n + 3) s') s.
Proof using Hn. intros H Hi Ho. eapply site_destroy_vmo; [done|done|done|lia|apply rings_sq|done]. Qed.
Lemma site_destroy_cq s O idx : site s0 S1 (delete n rings) O (n + 3) s -> 1 <= idx < CAP_OBJECT_CAPACITY -> O !! idx = Some (object_of CAP_KIND_VMO (n + 1) pid) ->
  wp (object_destroy idx) (fun _ s' => site s0 S1 V0 (delete idx O) (n + 3) s') s.
Proof using Hn HV0. intros H Hi Ho. rewrite <- rings_delete. eapply site_destroy_vmo; [done|done|done|lia|rewrite lookup_delete_ne by lia; apply rings_cq|done]. Qed.

Lemma site_create_objects s : site s0 S1 rings O0 (n + 3) s ->
  wp (create_objects (n + 2) n (n + 1) pid) (fun r s' => (exists e, r = inl e /\ err e /\ undone s') \/
    exists a b c, r = inr (c, a, b) /\ slots_fresh a b c /\ site s0 S1 rings (published a b c) (n + 3) s') s.
Proof using Hn HV0 HS0.
  intros H. unfold create_objects. apply wp_bind. eapply wp_mono; [|apply (site_create_object _ _ _ _ _ CAP_KIND_VMO n pid H)]. intros a s1 H1. cbv beta in H1. destruct (Z.ltb_spec a 0) as [_|_].
  { destruct H1 as [Ha0 H1]. apply wp_bind. eapply wp_mono; [|apply (site_unref_sq _ _ _ _ H1)]. intros ? s2 H2. apply wp_bind. eapply wp_mono; [|apply (site_unref_cq _ _ _ _ H2)]. intros ? s3 H3. eapply wp_mono; [|by eapply site_free]. intros r s4 H4. by left. }
  destruct H1 as (Ha & Fa & H1). set (O1 := <[a := _]> O0) in H1. assert (delete a O1 = O0) as E1 by (unfold O1; by rewrite delete_insert_id). assert (O1 !! a = Some (object_of CAP_KIND_VMO n pid)) as L1 by apply lookup_insert_eq.
  apply wp_bind. eapply wp_mono; [|apply (site_create_object _ _ _ _ _ CAP_KIND_VMO (n + 1) pid H1)]. intros b s2 H2. cbv beta in H2. destruct (Z.ltb_spec b 0) as [_|_].
  { destruct H2 as [Hb0 H2]. apply wp_bind. eapply wp_mono; [|apply (site_destroy_sq _ _ _ H2 Ha L1)]. intros ? s3 H3. apply wp_bind. eapply wp_mono; [|apply (site_unref_cq _ _ _ _ H3)]. intros ? s4 H4. eapply wp_mono; [|by eapply site_free]. intros r s5 H5. by left. }
  destruct H2 as (Hb & Fb & H2). set (O2 := <[b := _]> O1) in H2. assert (a <> b) as Hab by (intros ->; congruence). assert (O0 !! b = None) as Fb0 by (unfold O1 in Fb; by rewrite lookup_insert_ne in Fb).
  assert (forall s3 e, err e -> site s0 S1 rings O2 (n + 3) s3 -> wp (object_destroy a;; object_destroy b;; free_stream_slab (n + 2);; mret (inl e)) (fun r s' => exists e', r = inl (B := Z * Z * Z) e' /\ err e' /\ undone s') s3) as Hundo.
  { intros s3 e He H3. assert (O2 !! a = Some (object_of CAP_KIND_VMO n pid)) as L2 by (unfold O2; by rewrite lookup_insert_ne). apply wp_bind. eapply wp_mono; [|apply (site_destroy_sq _ _ _ H3 Ha L2)]. intros ? s4 H4. apply wp_bind.
    assert (delete a O2 !! b = Some (object_of CAP_KIND_VMO (n + 1) pid)) as L3 by (rewrite lookup_delete_ne by done; apply lookup_insert_eq). eapply wp_mono; [|apply (site_destroy_cq _ _ _ H4 Hb L3)]. intros ? s5 H5.
    eapply (site_free s5 _ e He); [|exact H5]. unfold O2. rewrite delete_insert_ne, E1 by done. by rewrite delete_insert_id. }
  assert (forall s3 e, err e -> site s0 S1 rings O2 (n + 3) s3 -> wp (object_destroy a;; object_destroy b;; free_stream_slab (n + 2);; mret (inl e)) (fun r s' => (exists e, r = inl e /\ err e /\ undone s') \/
    exists a b c, r = inr (c, a, b) /\ slots_fresh a b c /\ site s0 S1 rings (published a b c) (n + 3) s') s3) as Hfail by (intros s3 e He H3; eapply wp_mono; [|by apply Hundo]; intros r s4 H4; by left).
  apply wp_bind. eapply wp_mono; [|by apply site_alloc]. intros [] s3 H3; cbn [negb]; [|by apply Hfail].
  apply wp_bind. eapply wp_mono; [|apply (site_create_object _ _ _ _ _ CAP_KIND_STREAM (n + 2) pid H3)]. intros c s4 H4. cbv beta in H4. destruct (Z.ltb_spec c 0) as [_|_]; [destruct H4; by apply Hfail|].
  destruct H4 as (Hc & Fc & H4). apply wp_ret. right. exists a, b, c. split; [done|]. split; [|exact H4]. unfold O2, O1 in Fc.
  assert (b <> c) by (intros ->; by rewrite lookup_insert_eq in Fc). rewrite lookup_insert_ne in Fc by done. assert (a <> c) by (intros ->; by rewrite lookup_insert_eq in Fc). rewrite lookup_insert_ne in Fc by done. split.
  - rewrite !NoDup_cons, !elem_of_cons, !elem_of_nil. split; [intros [?|[?|[]]]; congruence|]. split; [intros [?|[]]; congruence|]. split; [by intros []|constructor].
  - intros x. rewrite !elem_of_cons, elem_of_nil. intros [->|[->|[->|[]]]]; done.
Qed.
End site.

(** ** Handles *)

(** The process has [k] free handles, and no slot was used 2^31 times. *)
Definition room (s : io) (pid : Z) (k : nat) : Prop := exists t fl, tasks (io_world s) !! pid = Some t /\ zombie t = false /\ wf_table (cap_handles t) fl /\ (k <= length fl)%nat /\
  forall slot g, slot_gen (cap_handles t) slot = Some g -> 0 <= g < 2 ^ 31.

Definition only_tasks (s s' : io) : Prop := io_streams s' = io_streams s /\ io_vmos s' = io_vmos s /\ objects s' = objects s /\ rest_of s' = rest_of s /\ io_next s' = io_next s.

Lemma insert_handle_ok s pid k idx : room s pid (S k) -> idx <> CAP_OBJECT_IDX_NONE -> wp (insert_handle pid idx) (fun r s' => 0 <= r.2 /\ room s' pid k /\ only_tasks s s') s.
Proof.
  intros (t & fl & Ht & Hz & Hwf & Hk & Hg) Hi. destruct fl as [|a fl]; [cbn in Hk; lia|]. apply wp_bind, wp_bind, wp_gets, wp_bind, wp_modify, wp_ret. set (s1 := Io _ _ _ _ _ _ _ _ _ _ _ _ _ _ _).
  destruct (pop_slot_spec (cap_handles t) a fl idx 0 Hwf Hi) as (h & g & Hp & Hwf' & _ & _ & Hga & Hgs & _).
  assert (forall ok, cap_handle_insert ok (cap_handles t) idx 0 = Some (h, a, i32 g)) as E.
  { intros ok. unfold cap_handle_insert. destruct (Z.eqb_spec idx CAP_OBJECT_IDX_NONE); [done|]. destruct (Z.eqb_spec (next_free (cap_handles t)) CAP_HANDLE_SLOT_NONE) as [En|]; [by apply (next_free_none _ _ Hwf) in En|done]. }
  eexists _, _. split; [unfold insert_with; change (tasks (io_world s1) !! pid) with (tasks (io_world s) !! pid); rewrite Ht; cbn [mbind option_bind]; by rewrite E|]. cbn [snd].
  specialize (Hg _ _ Hga) as Hg0. rewrite swrap_small by (unfold in_s; lia). split; [lia|]. split; [|done]. exists {| t with cap_handles := h |}, fl. unfold set_handles. cbn. split; [apply lookup_insert_eq|].
  split; [done|]. split; [done|]. split; [cbn in Hk; lia|]. intros slot g' Hs. rewrite Hgs in Hs. by eapply Hg.
Qed.

Lemma insert_handles_ok s pid a b c : room s pid 3 -> Forall (fun x => x <> CAP_OBJECT_IDX_NONE) [a; b; c] -> wp (insert_handles pid a b c) (fun r s' => r = true /\ only_tasks s s') s.
Proof.
  intros Hr (Ha & (Hb & (Hc & _)%Forall_cons)%Forall_cons)%Forall_cons. unfold insert_handles.
  apply wp_bind. eapply wp_mono; [|by apply insert_handle_ok]. intros ra s1 (Ra & Hr1 & S1). destruct (Z.ltb_spec ra.2 0); [lia|].
  apply wp_bind. eapply wp_mono; [|by apply insert_handle_ok]. intros rb s2 (Rb & Hr2 & S2). destruct (Z.ltb_spec rb.2 0); [lia|].
  apply wp_bind. eapply wp_mono; [|by apply insert_handle_ok]. intros rc s3 (Rc & _ & S3). destruct (Z.ltb_spec rc.2 0); [lia|]. apply wp_ret. split; [done|].
  destruct S1 as (? & ? & ? & ? & ?), S2 as (? & ? & ? & ? & ?), S3 as (? & ? & ? & ? & ?). repeat split; congruence.
Qed.

(** ** Ring sizes *)
Lemma power_of_two x : in_u 32 x -> is_power_of_two_u32 x = true -> exists k, 0 <= k < 32 /\ x = 2 ^ k.
Proof.
  intros Hx. unfold is_power_of_two_u32. unfold in_u in Hx. rewrite andb_true_iff, negb_true_iff, Z.eqb_neq, Z.eqb_eq. intros [H0 Hl]. rewrite u32_small in Hl by lia.
  exists (Z.log2 x). destruct (Z.log2_spec x ltac:(lia)) as [Hlo Hhi]. split; [split; [apply Z.log2_nonneg|apply Z.log2_lt_pow2; lia]|]. destruct (decide (x = 2 ^ Z.log2 x)) as [|Hne]; [done|]. exfalso.
  assert (Z.log2 (x - 1) = Z.log2 x) as El by (apply Z.log2_unique; [apply Z.log2_nonneg|lia]). pose proof (Z.bit_log2 x ltac:(lia)) as B1. assert (0 < x - 1) as Hx1 by (pose proof (Z.pow_pos_nonneg 2 (Z.log2 x) ltac:(lia) (Z.log2_nonneg x)); lia).
  pose proof (Z.bit_log2 (x - 1) Hx1) as B2. rewrite El in B2. pose proof (f_equal (fun z => Z.testbit z (Z.log2 x)) Hl) as B. cbv beta in B. by rewrite Z.land_spec, B1, B2, Z.bits_0 in B.
Qed.

Lemma entries_cases x : in_u 32 x -> is_power_of_two_u32 x = true -> 16 <= x <= 8192 -> x ∈ [16; 32; 64; 128; 256; 512; 1024; 2048; 4096; 8192].
Proof.
  intros Hx Hp Hb. destruct (power_of_two x Hx Hp) as (k & Hk & ->). assert (2 ^ 3 < 2 ^ k < 2 ^ 14) as [H1 H2] by lia. apply Z.pow_lt_mono_r_iff in H1; [|lia|lia]. apply Z.pow_lt_mono_r_iff in H2; [|lia|lia].
  assert (k ∈ seqZ 4 10) as Hin by (apply elem_of_seqZ; lia). cbn in Hin. repeat (apply elem_of_cons in Hin as [->|Hin]; [apply list_elem_of_In; cbn; tauto|]). by apply elem_of_nil in Hin.
Qed.

Lemma ring_size x sz : x ∈ [16; 32; 64; 128; 256; 512; 1024; 2048; 4096; 8192] -> sz ∈ [32; 64] ->
  4096 + x * sz <= 4096 * (ring_vmo_size x sz / 4096) /\ 0 <= ring_vmo_size x sz / 4096 < 2 ^ 32.
Proof. intros Hx Hs. set_unfold. destruct Hs as [->|[->|[]]]; repeat destruct Hx as [->|Hx]; done. Qed.

Lemma shape_new_vmo size : shape (new_vmo size) = (1, size, replicate (Z.to_nat (size / 4096)) (Some 4096%nat)).
Proof. unfold shape, new_vmo; cbn [v_refcount v_size v_pages]. by rewrite fmap_replicate. Qed.

Lemma new_ring_ok k v e sz : in_u 32 e -> is_power_of_two_u32 e = true -> 16 <= e <= 8192 -> sz ∈ [32; 64] -> c_vmos k !! v = Some (shape (new_vmo (ring_vmo_size e sz))) -> ring_ok k v e sz.
Proof.
  intros He Hp Hb Hs Hv. destruct (ring_size e sz (entries_cases e He Hp Hb) Hs) as [H1 H2]. split; [|by apply power_of_two]. rewrite shape_new_vmo in Hv. do 3 eexists. split; [exact Hv|]. lia.
Qed.

(** ** The invariant *)
Definition k_create (st : stream) (sqv cqv : Z * Z * list (option nat)) (r : registry) (k : core) : core :=
  let n := c_next k in
  {| k with c_streams := <[n + 2 := st]> (c_streams k); c_vmos := <[n + 1 := cqv]> (<[n := sqv]> (c_vmos k)); c_reg := r; c_next := n + 3 |}.

Section create_inv.
  Context (k : core) (r : registry) (id sqn cqn raw pid a b c : Z).
Let n := c_next k.
Let st := hard (new_stream id op_schema_io_v1 n (n + 1) sqn cqn raw pid).
Let sqv := shape (new_vmo (ring_vmo_size sqn 64)).
Let cqv := shape (new_vmo (ring_vmo_size cqn 32)).
Let k' := k_create st sqv cqv r k.
  Hypothesis Hinv : io_inv None k.
  Hypothesis Hsq : in_u 32 sqn /\ is_power_of_two_u32 sqn = true /\ 16 <= sqn <= 8192.
  Hypothesis Hcq : in_u 32 cqn /\ is_power_of_two_u32 cqn = true /\ 16 <= cqn <= 8192.
  Hypothesis Hr : g_cap_object_ptrs r = <[c := object_of CAP_KIND_STREAM (n + 2) pid]> (<[b := object_of CAP_KIND_VMO (n + 1) pid]> (<[a := object_of CAP_KIND_VMO n pid]> (g_cap_object_ptrs (c_reg k)))).

Lemma create_old_vmo v x : c_vmos k !! v = Some x -> c_vmos k' !! v = Some x.
Proof using Hinv Hsq Hcq. intros H. destruct (ii_vmos _ _ Hinv _ _ H) as [_ Hv]. cbn. fold n in Hv |- *. by rewrite !lookup_insert_ne by lia. Qed.

Lemma create_old_stream i x : c_streams k !! i = Some x -> c_streams k' !! i = Some x.
Proof using Hinv Hsq Hcq. intros H. destruct (ii_streams _ _ Hinv _ _ H) as [_ Hi]. cbn. fold n in Hi |- *. by rewrite !lookup_insert_ne by lia. Qed.

Lemma create_new_ring : c_vmos k' !! n = Some sqv /\ c_vmos k' !! (n + 1) = Some cqv.
Proof using Hsq Hcq. cbn. fold n. split; [rewrite lookup_insert_ne by lia|]; apply lookup_insert_eq. Qed.

Lemma create_streams i x : c_streams k' !! i = Some x -> stream_ok k' i x /\ i < n + 3.
Proof using Hinv Hsq Hcq Hr.
  destruct create_new_ring as [Rs Rc]. pose proof (ii_next _ _ Hinv) as Hn. fold n in Hn. intros Hx. cbn in Hx. fold n in Hx. apply lookup_insert_Some in Hx as [[<- <-]|[_ Hx]].
  - split; [|lia]. split; cbn.
    + apply new_ring_ok; [apply Hsq|apply Hsq|apply Hsq|set_solver|done].
    + apply new_ring_ok; [apply Hcq|apply Hcq|apply Hcq|set_solver|done].
    + split; [constructor|]. intros job. split; [by intros ?%elem_of_nil|]. intros (j & Hj & E). destruct (jk_stream _ _ _ _ (ii_jobs _ _ Hinv _ _ Hj)) as [y Hy]. rewrite E in Hy. destruct (ii_streams _ _ Hinv _ _ Hy) as [_ H]. fold n in H. lia.
    + done.
    + lia.
    + split; [done|]. split; [lia|]. unfold in_u. lia.
  - destruct (ii_streams _ _ Hinv _ _ Hx) as [[A B C D E G] F]. fold n in F. split; [|lia]. split; [| |done|done|cbn; fold n; fold n in E; lia|done]; (eapply ring_ok_vmos; [done|]); intros y Hy; exists y; (split; [by apply create_old_vmo|done]).
Qed.

Lemma create_vmos v x : c_vmos k' !! v = Some x -> vmo_ok k' v x /\ v < n + 3.
Proof using Hinv Hsq Hcq Hr.
  pose proof (ii_next _ _ Hinv) as Hn. fold n in Hn. assert (forall w, n <= w -> users (c_jobs k) w = 0) as Hu.
  { intros w Hw. unfold users. destruct (filter _ _) as [|[job j] l] eqn:Ef; [done|]. exfalso. assert ((job, j) ∈ filter (fun p : Z * stream_job => dest_vmo p.2 = Some w) (map_to_list (c_jobs k))) as Hin by (rewrite Ef; left).
    apply list_elem_of_filter in Hin as [Hd Hin%elem_of_map_to_list]. cbn in Hd.
    destruct (jk_dest _ _ _ _ (ii_jobs _ _ Hinv _ _ Hin) w Hd) as [y Hy]. destruct (ii_vmos _ _ Hinv _ _ Hy) as [_ H]. fold n in H. lia. }
  assert (forall e sz, e ∈ [16; 32; 64; 128; 256; 512; 1024; 2048; 4096; 8192] -> sz ∈ [32; 64] -> forall w, n <= w -> vmo_ok k' w (shape (new_vmo (ring_vmo_size e sz)))) as Hnew.
  { intros e sz He Hs w Hw. destruct (ring_size e sz He Hs). rewrite shape_new_vmo. split; cbn; [split; [by apply Forall_replicate; right|rewrite length_replicate; lia]|]. rewrite Hu by done. lia. }
  intros Hx. cbn in Hx. fold n in Hx. apply lookup_insert_Some in Hx as [[<- <-]|[_ Hx]]; [split; [apply Hnew; [apply entries_cases; apply Hcq|set_solver|lia]|lia]|].
  apply lookup_insert_Some in Hx as [[<- <-]|[_ Hx]]; [split; [apply Hnew; [apply entries_cases; apply Hsq|set_solver|lia]|lia]|]. destruct (ii_vmos _ _ Hinv _ _ Hx) as [[A B] C]. fold n in B, C. split; [|lia]. split; [done|]. cbn. fold n. lia.
Qed.

Lemma create_inv : io_inv None k'.
Proof using Hinv Hsq Hcq Hr.
  split; [exact create_streams|exact create_vmos| |apply Hinv|apply Hinv|done| |apply Hinv|pose proof (ii_next _ _ Hinv); cbn; lia].
  - intros job j Hj. destruct (ii_jobs _ _ Hinv _ _ Hj) as [A B C D E G]. split; [| |done|cbn; lia|done|done].
    + destruct A as [x Hx]. exists x. by apply create_old_stream.
    + intros v Hv. destruct (B v Hv) as [x Hx]. exists x. by apply create_old_vmo.
  - destruct create_new_ring as [Rs Rc]. intros idx o Ho Hd. cbn in Ho. rewrite Hr in Ho. apply lookup_insert_Some in Ho as [[_ <-]|[_ Ho]].
    { split; [done|]. split; [done|]. intros _. cbn. fold n. rewrite lookup_insert_eq. eauto. }
    apply lookup_insert_Some in Ho as [[_ <-]|[_ Ho]]; [split; [intros _; by exists cqv|done]|]. apply lookup_insert_Some in Ho as [[_ <-]|[_ Ho]]; [split; [intros _; by exists sqv|done]|].
    destruct (ii_objects _ _ Hinv idx o Ho Hd) as (A & B & C). split; [|split; [done|]]; intros Hk.
    + destruct (A Hk) as [x Hx]. exists x. by apply create_old_vmo.
    + destruct (C Hk) as [x Hx]. exists x. by apply create_old_stream.
Qed.
End create_inv.

(** ** Creation is atomic *)

(** Nothing but the next address has changed. *)
Definition unchanged (s s' : io) : Prop := io_streams s' = io_streams s /\ io_vmos s' = io_vmos s /\ objects s' = objects s /\ rest_of s' = rest_of s /\ io_next s <= io_next s' <= io_next s + 3.

Definition created (sqn cqn pid raw : Z) (s s' : io) : Prop := exists id a b c, let n := io_next s in
  io_streams s' = <[n + 2 := new_stream id op_schema_io_v1 n (n + 1) sqn cqn raw pid]> (io_streams s) /\
  io_vmos s' = <[n + 1 := new_vmo (ring_vmo_size cqn 32)]> (<[n := new_vmo (ring_vmo_size sqn 64)]> (io_vmos s)) /\
  objects s' = <[c := object_of CAP_KIND_STREAM (n + 2) pid]> (<[b := object_of CAP_KIND_VMO (n + 1) pid]> (<[a := object_of CAP_KIND_VMO n pid]> (objects s))) /\
  slots_fresh s a b c /\ rest_of s' = rest_of s /\ io_next s' = n + 3.

Lemma unchanged_core s s' : unchanged s s' -> core_of s' = {| (core_of s) with c_reg := reg (io_world s'); c_next := io_next s' |}.
Proof. intros (ES & EV & _ & HR & _). injection HR as R1 R2 R3 R4 R5 R6 _ _. unfold core_of; cbn. by rewrite ES, EV, R1, R2, R3, R4, R5, R6. Qed.

Lemma unchanged_good s s' : unchanged s s' -> good s -> good s'.
Proof.
  intros Hu [[H1 H2 H3 H4 H5 H6 H7 H8 H9] (Hc & Hp & Hb)]. pose proof (unchanged_core _ _ Hu) as E. destruct Hu as (ES & EV & EO & HR & En). assert (io_trace s' = io_trace s) as T by (by injection HR). split.
  - rewrite E. change (c_next (core_of s)) with (io_next s) in *. split; cbn; [| | |done|done|done| |done|cbn in H9; lia].
    + intros i x Hx. destruct (H1 _ _ Hx) as [[A B C D F G] I]. cbn in F. split; [|lia]. split; [| |done|done|cbn; lia|done]; (eapply ring_ok_vmos; [done|]); eauto.
    + intros v x Hx. destruct (H2 _ _ Hx) as [[A B] C]. cbn in B. split; [|lia]. split; [done|cbn; lia].
    + intros job j Hj. destruct (H3 _ _ Hj) as [A B C D F G]. cbn in D. split; [done|done|done|cbn; lia|done|done].
    + intros idx o Ho. rewrite EO in Ho. by apply (H7 idx o).
  - split; [intros i st Hst; rewrite E in Hst |- *; rewrite T; by apply Hc|]. rewrite T. split; [done|]. intros i Hi. rewrite T. apply Hb. lia.
Qed.

Definition valid_sizes (sqn cqn : Z) : Prop := (in_u 32 sqn /\ is_power_of_two_u32 sqn = true /\ 16 <= sqn <= 8192) /\ (in_u 32 cqn /\ is_power_of_two_u32 cqn = true /\ 16 <= cqn <= 8192).

Lemma created_good sqn cqn pid raw s s' : valid_sizes sqn cqn -> created sqn cqn pid raw s s' -> good s -> good s'.
Proof.
  intros [Hsq Hcq] (id & a & b & c & ES & EV & EO & _ & HR & En) [Hinv (Hc & Hp & Hb)]. assert (io_trace s' = io_trace s) as T by (by injection HR). set (st := new_stream _ _ _ _ _ _ _ _) in ES.
  assert (core_of s' = k_create (hard st) (shape (new_vmo (ring_vmo_size sqn 64))) (shape (new_vmo (ring_vmo_size cqn 32))) (reg (io_world s')) (core_of s)) as E.
  { unfold core_of, k_create; cbn. injection HR as R1 R2 R3 R4 R5 R6 _ _. by rewrite ES, EV, En, R1, R2, R3, R4, R5, R6, !fmap_insert. }
  split; [rewrite E; by apply (create_inv (core_of s) (reg (io_world s')) id sqn cqn raw pid a b c)|]. split; [|rewrite T; split; [done|]].
  - intros i x Hx. rewrite E in Hx |- *. rewrite T. cbn in Hx. apply lookup_insert_Some in Hx as [[<- <-]|[_ Hx]]; [|by apply Hc]. destruct (Hb (io_next s + 2) ltac:(lia)) as [-> ->]. done.
  - intros i Hi. rewrite T. apply Hb. lia.
Qed.

(** Only one manifest has operations. *)
Lemma manifest_ops th ops : stream_lookup_manifest th = Some ops -> ops = op_schema_io_v1.
Proof.
  unfold stream_lookup_manifest. destruct (List.find _ _) as [[h o]|] eqn:E; [|done]. intros [= <-]. apply List.find_some in E as [Hin H]. apply andb_true_iff in H as [_ H]. cbn in Hin.
  repeat (destruct Hin as [[= <- <-]|Hin]; [done|]). done.
Qed.

Lemma stream_create_spec s th sqn cqn pid raw : good s -> room s pid 3 -> in_u 32 sqn -> in_u 32 cqn ->
  wp (stream_create th sqn cqn pid raw) (fun r s' => err r.1 /\ unchanged s s' \/ r.1 = 0 /\ valid_sizes sqn cqn /\ created sqn cqn pid raw s s') s.
Proof.
  intros [Hinv _] Hroom Hsq Hcq. pose proof (ii_next _ _ Hinv : 0 < io_next s) as Hn. set (Q := fun (r : Z * list Z) s' => _).
  assert (forall s1 e, err e -> undone s s1 -> wp (mret (e, [])) Q s1) as Hfail.
  { intros s1 e He (n' & Hn' & [ES EV EO _ ER En]). apply wp_ret. left. split; [done|]. split; [done|]. split; [done|]. split; [done|]. split; [done|lia]. }
  assert (forall v, io_next s <= v -> io_vmos s !! v = None) as HV.
  { intros v Hv. destruct (io_vmos s !! v) as [x|] eqn:Ex; [|done]. assert (c_vmos (core_of s) !! v = Some (shape x)) as H by by rewrite core_vmos, Ex. apply (ii_vmos _ _ Hinv) in H as [_ H]. cbn in H. lia. }
  assert (forall i, io_next s <= i -> io_streams s !! i = None) as HS.
  { intros v Hv. destruct (io_streams s !! v) as [x|] eqn:Ex; [|done]. assert (c_streams (core_of s) !! v = Some (hard x)) as H by by rewrite core_streams, Ex. apply (ii_streams _ _ Hinv) in H as [_ H]. cbn in H. lia. }
  assert (undone s s) as H0 by (exists (io_next s); split; [lia|done]).
  unfold stream_create. destruct (negb (_ && _)) eqn:Ep; [by apply Hfail|]. destruct (_ || _) eqn:Es; [by apply Hfail|]. destruct (_ || _) eqn:Ec in |- *; [by apply Hfail|].
  assert (valid_sizes sqn cqn) as Hval. { apply negb_false_iff, andb_true_iff in Ep as [P1 P2]. apply orb_false_iff in Es as [S1 S2], Ec as [C1 C2]. split; (split; [done|]; split; [done|lia]). }
  destruct (stream_lookup_manifest th) as [ops|] eqn:Eo; [|by apply Hfail]. apply manifest_ops in Eo as ->.
  apply wp_bind. eapply wp_mono; [|apply (site_vmo_create s _ _ _ _ s _ (site_start s))]. intros [sq|] s1 H1; cbv beta iota in H1; [destruct H1 as [-> H1]|apply Hfail; [done|]; exists (io_next s); split; [lia|done]].
  apply wp_bind. eapply wp_mono; [|apply (site_vmo_create s _ _ _ _ s1 _ H1)]. intros [cq|] s2 H2; cbv beta iota in H2; [destruct H2 as [-> H2]|].
  2:{ apply wp_bind. eapply wp_mono; [|eapply (site_vmo_unref s _ _ _ _ s2 (io_next s) _ H2); [apply lookup_insert_eq|done]]. intros ? s3 H3. rewrite delete_insert_id in H3 by (apply HV; lia). apply Hfail; [done|]. exists (io_next s + 1). split; [lia|done]. }
  replace (io_next s + 1 + 1) with (io_next s + 2) in H2 by lia.
  apply wp_bind. eapply wp_mono; [|apply (site_create_block s pid (ring_vmo_size sqn 64) (ring_vmo_size cqn 32) Hn HV s2 op_schema_io_v1 sqn cqn raw H2)].
  intros [e|i] s3 H3; cbv beta iota in H3; [destruct H3; by apply Hfail|]. destruct H3 as (-> & sid & H3).
  apply wp_bind. eapply wp_mono; [|apply (site_create_objects s pid (ring_vmo_size sqn 64) (ring_vmo_size cqn 32) Hn HV HS _ s3 H3)].
  intros r s4 [(e & -> & He & H4)|(a & b & c & -> & Hf & [S4 V4 O4 T4 R4 N4])]; [by apply Hfail|]. apply wp_bind, wp_gets. unfold id.
  assert (room s4 pid 3) as Hroom4 by (unfold room; rewrite T4; exact Hroom). assert (exists t, sched_get_task (io_world s4) pid = Some t) as [t ->].
  { destruct Hroom4 as (t & fl & Ht & Hz & _). exists t. unfold sched_get_task. rewrite Ht. cbn. by rewrite Hz. }
  apply wp_bind. eapply wp_mono; [|apply (insert_handles_ok s4 pid c a b Hroom4)].
  - intros ok s5 (-> & S5 & V5 & O5 & R5 & N5). cbn [negb]. apply wp_bind, wp_gets, wp_ret. right. split; [done|]. split; [done|]. exists sid, a, b, c.
    split; [by rewrite S5, S4|]. split; [by rewrite V5, V4|]. split; [by rewrite O5, O4|]. split; [done|]. split; [by rewrite R5|lia].
  - destruct Hf as [_ Hf]. apply Forall_forall. intros x Hx. destruct (Hf x) as [Hb _]; [set_solver|]. unfold CAP_OBJECT_CAPACITY, CAP_OBJECT_IDX_NONE in *. lia.
Qed.

(** ** A state to start from *)

(** One process with a file open, all pledges and an empty table of handles. *)
Definition io_boot : io := Io (World (cap_object_init registry_boot) {[7 := CapSystem.Task (cap_handle_table_init true).1 0xFFFFFFFF false]} 0 [])
  ∅ ∅ ∅ ∅ ∅ [] ∅ {[(7, 3) := 100]} {[100 := [72; 101; 108; 108; 111]]} 1 1 [] [] [].

Lemma io_boot_good : good io_boot.
Proof.
  split; [split|split; [|split]]; cbn.
  - intros i x H. by rewrite fmap_empty, lookup_empty in H.
  - intros i x H. by rewrite fmap_empty, lookup_empty in H.
  - intros i x H. by rewrite fmap_empty, lookup_empty in H.
  - split; [constructor|by intros ? ?%elem_of_nil].
  - intros pid. unfold waiting; cbn. rewrite lookup_empty. split; [constructor|by intros ? ?%elem_of_nil].
  - done.
  - intros idx o Ho Hd. change (g_cap_object_ptrs (cap_object_init registry_boot)) with ({[0 := sentinel]} : gmap Z cap_object) in Ho. apply lookup_singleton_Some in Ho as [_ <-]. done.
  - intros fd node H. apply lookup_singleton_Some in H as [_ <-]. rewrite lookup_fmap, lookup_singleton_eq. eauto.
  - lia.
  - intros i x H. rewrite core_streams in H. cbn in H. by rewrite lookup_empty in H.
  - constructor.
  - done.
Qed.

Lemma io_boot_room : room io_boot 7 3.
Proof.
  destruct init_wf as [fl Hfl]. eexists _, fl. split; [apply lookup_singleton_eq|]. split; [done|]. split; [exact Hfl|]. split.
  - pose proof (wt_count _ _ Hfl) as H. change (0 = 16 - Z.of_nat (length fl)) in H. lia.
  - intros slot g Hg. assert (forallb (fun e => (0 <=? local_generation e) && (local_generation e <? 2 ^ 31)) (entries (cap_handle_table_init true).1) = true) as Hf by done.
    unfold slot_gen, get in Hg. cbn [cap_handles] in Hg. destruct (slot <? 0); [done|]. destruct (entries (cap_handle_table_init true).1 !! Z.to_nat slot) as [e|] eqn:E; [|done]. injection Hg as <-.
    apply list_elem_of_lookup_2, list_elem_of_In in E. rewrite forallb_forall in Hf. apply Hf in E. lia.
Qed.

(** Creating a stream is atomic while the process has three free handles: the call
    returns, and either every check and allocation succeeded and there is one new stream
    over two new rings of the sizes asked for, with three new objects, or it failed and
    no stream, memory object or kernel object is left; the invariants hold in both cases. *)
Theorem create_atomic (s : io) (out_ok : bool) (pid th rdx raw : Z) : good s -> room s pid 3 ->
  wp (sys_stream_create out_ok pid th rdx raw) (fun r s' => good s' /\
    (r.1 = 0 /\ created (u32 (rdx &. 0xFFFFFFFF)) (u32 (rdx >>. 32)) pid raw s s' \/ r.1 <> 0 /\ unchanged s s')) s.
Proof.
  intros Hg Hroom. set (Q := fun (r : Z * list Z) (s' : io) => _). assert (forall s', unchanged s s' -> forall e l, u64 e <> 0 -> wp (mret (u64 e, l)) Q s') as Hfail.
  { intros s' Hu e l He. apply wp_ret. split; [by eapply unchanged_good|]. by right. }
  apply wp_bind. unfold sys_pledged. destruct (pledge_check_and_audit (io_world s) pid 10) as [ok w] eqn:E. eexists _, ok. split; [by rewrite E|]. set (s1 := Io _ _ _ _ _ _ _ _ _ _ _ _ _ _ _).
  assert (reg w = reg (io_world s)) as Er by (by rewrite <- (pledge_reg (io_world s) pid 10), E). assert (unchanged s s1) as Hu by (split; [done|]; split; [done|]; split; [cbn; by rewrite Er|]; split; [done|cbn; lia]).
  destruct ok; cbn [negb]; [|by apply Hfail]. destruct out_ok; cbn [negb]; [|by apply Hfail]. apply wp_bind.
  assert (room s1 pid 3) as Hroom1. { unfold room. assert (tasks w = tasks (io_world s)) as Et; [|cbn; rewrite Et; exact Hroom]. revert E. unfold pledge_check_and_audit. destruct (tasks (io_world s) !! pid); [destruct (pledge_mask_allows _ _)|]; intros E; (discriminate || by injection E as <-). }
  eapply wp_mono; [|apply (stream_create_spec s1 th _ _ pid raw); [by eapply unchanged_good|done|by apply wrap_bound|by apply wrap_bound]]. intros [r l] s2 [[Hr Hu2]|(Hr & Hval & Hc)]; cbn [fst snd] in *.
  - apply Hfail; [|by apply u64_err]. destruct Hu as (U1 & U2 & U3 & U4 & _), Hu2 as (W1 & W2 & W3 & W4 & W5). split; [congruence|]. split; [congruence|]. split; [congruence|]. split; [congruence|done].
  - apply wp_ret. rewrite Hr. split; [eapply created_good; [done|done|by eapply unchanged_good]|]. left. split; [done|]. destruct Hc as (id & a & b & c & ES & EV & EO & Hf & HR & En). exists id, a, b, c. unfold slots_fresh in *. cbn in EO, Hf |- *. rewrite Er in EO, Hf. done.
Qed.

Definition demo_sizes : Z := 16 |. (16 <<. 32).
Lemma create_atomic_witness : wp (sys_stream_create true 7 0x731C934A2C6A037B demo_sizes 0) (fun r s' => good s' /\
  (r.1 = 0 /\ created (u32 (demo_sizes &. 0xFFFFFFFF)) (u32 (demo_sizes >>. 32)) 7 0 io_boot s' \/ r.1 <> 0 /\ unchanged io_boot s')) io_boot.
Proof. exact (create_atomic io_boot true 7 0x731C934A2C6A037B demo_sizes 0 io_boot_good io_boot_room). Defined.
