(* ===== verification/StreamProps.v ===== *)
(** * Submission streams: what they promise, and what breaks it

    The safety of every interleaving of processes, worker and clock, the fate of every
    request, the order of the rings, the end of the worker's loop, and the runs that show
    where cancellation, the ring of completions and the release of rings go wrong. *)
From S2P Require Import Prelude Bytes StateM CapToken CapObject HandleTable Pledge CapSystem Runq Rlimit Stream StreamInv StreamSteps StreamRun StreamRing StreamSystem StreamCreate.
Local Open Scope Z_scope.
Local Open Scope c_scope.

(** ** A stream to run *)
Definition io_type : Z := 0x731C934A2C6A037B.
Definition io_demo : io := match stream_create io_type 16 16 7 0 io_boot with Some (s, _) => s | None => io_boot end.
Definition demo_token : Z := cap_token_pack 1 3 0.

Lemma io_demo_good : good io_demo.
Proof.
  destruct (stream_create_spec io_boot io_type 16 16 7 0 io_boot_good io_boot_room) as (s' & r & E & H); [done|done|]. unfold io_demo. rewrite E.
  destruct H as [[_ Hu]|(_ & Hv & Hc)]; [by eapply unchanged_good; [|apply io_boot_good]|by eapply created_good; [| |apply io_boot_good]].
Qed.

(** A request as the process writes it into a slot. *)
Definition sqe_bytes (op fd off len dest dest_off cookie : Z) : list Z :=
  le 2 op ++ le 2 0 ++ le 4 fd ++ le 8 off ++ le 8 len ++ le 4 dest ++ le 4 0 ++ le 8 dest_off ++ le 8 cookie ++ replicate 16 0.

(** Writing [n] equal requests from slot 0 on, and the position behind them. *)
Definition demo_fill (n : nat) (req : Z -> list Z) : list io_op :=
  map (fun k => Op_write 1 1 (64 * Z.of_nat k) (req (Z.of_nat k))) (seq 0 n) ++ [Op_write 1 0 0 (le 4 (Z.of_nat n))].
Definition demo_read (cookie : Z) : list Z := sqe_bytes 1 3 0 5 1 6144 cookie.
Definition trace_of (ops : list io_op) : option (list io_event) := (fun r => io_trace r.1) <$> io_run ops io_demo.

(** ** Safety and the fate of requests *)

(** C18: no interleaving of the operations of processes, of the worker and of the clock
    follows a dangling pointer, leaves a page or runs out of a loop's bound: stores of the
    processes into the shared rings at any point, submissions, reaping, destruction, the
    worker's passes and the ticks of the I/O limit.  Afterwards every stream has one
    reference more than jobs, every job is in exactly one queue, and every memory object
    has a reference for each job that uses it. *)
Theorem streams_safe (s : io) (ops : list io_op) : good s -> io_next s + total_requests ops <= 2 ^ 31 ->
  wp (io_run ops) (fun _ s' => io_inv None (core_of s')) s.
Proof. intros Hg Hn. eapply wp_mono; [|by apply run_good]. by intros ? s' [H _]. Qed.

Definition demo_ops : list io_op :=
  demo_fill 2 demo_read ++ [Op_submit 7 demo_token 2; Op_worker; Op_tick 7; Op_destroy 7 demo_token; Op_worker; Op_reap 7 demo_token 1 0 false].

Lemma demo_next : io_next io_demo = 4.
Proof. vm_compute. reflexivity. Qed.

Lemma demo_budget : io_next io_demo + total_requests demo_ops <= 2 ^ 31.
Proof. rewrite demo_next. vm_compute. discriminate. Qed.

Lemma streams_safe_witness : wp (io_run demo_ops) (fun _ s' => io_inv None (core_of s')) io_demo.
Proof. exact (streams_safe io_demo demo_ops io_demo_good demo_budget). Defined.

(** C19: every request a stream takes has exactly one fate.  After any interleaving the
    cookies of the requests it has consumed are those of the completions it has posted or
    lost together with those of its jobs; once it has no job, they are those of its
    completions. *)
Theorem exactly_once (s : io) (ops : list io_op) (i : Z) : good s -> io_next s + total_requests ops <= 2 ^ 31 ->
  wp (io_run ops) (fun _ s' => forall st, io_streams s' !! i = Some st ->
    consumed i (io_trace s') ≡ₚ finished i (io_trace s') ++ flight (io_jobs s') (jobs_head st) /\
    (jobs_head st = [] -> consumed i (io_trace s') ≡ₚ finished i (io_trace s'))) s.
Proof.
  intros Hg Hn. eapply wp_mono; [|by apply run_good]. intros ? s' [_ (Hc & _ & _)] st Hst. assert (c_streams (core_of s') !! i = Some (hard st)) as H by by rewrite core_streams, Hst. apply Hc in H.
  assert (flight (c_jobs (core_of s')) (jobs_head (hard st)) = flight (io_jobs s') (jobs_head st)) as E.
  { cbn. unfold flight. apply list_omap_ext, Forall_Forall2_diag, Forall_true. intros job. rewrite lookup_fmap. by destruct (io_jobs s' !! job). }
  rewrite E in H. split; [done|]. intros Hj. rewrite Hj, app_nil_r in H. exact H.
Qed.

Lemma exactly_once_witness : wp (io_run demo_ops) (fun _ s' => forall st, io_streams s' !! 3 = Some st ->
  consumed 3 (io_trace s') ≡ₚ finished 3 (io_trace s') ++ flight (io_jobs s') (jobs_head st) /\
  (jobs_head st = [] -> consumed 3 (io_trace s') ≡ₚ finished 3 (io_trace s'))) io_demo.
Proof. exact (exactly_once io_demo demo_ops 3 io_demo_good demo_budget). Defined.

(** ** The rings *)

(** A batch takes the requests of the ring in order.  Unless it is refused as a whole
    (the stream is being destroyed, the count exceeds the ring, the process is gone, and
    then nothing happens) it takes a prefix of the requests between the kernel's position
    and the process's, at most as many as asked for and, if memory lasts, exactly so many;
    it returns their number and publishes the new position. *)
Theorem submit_in_order (s : io) (i n pid : Z) (st : stream) : good s -> io_streams s !! i = Some st -> 0 <= n -> io_next s + n <= 2 ^ 31 ->
  exists v, io_vmos s !! sq_vmo st = Some v /\ wp (stream_submit_batch i n pid) (fun r s' => good s' /\
    (if negb (s_state st =? STREAM_STATE_ACTIVE) then s' = s /\ r = CAP_V2_EBADF else if n >? sq_entries st then s' = s /\ r = CAP_V2_EINVAL else
     match sched_get_task (io_world s) pid with None => s' = s /\ r = CAP_V2_EBADF | Some _ => batch i n st (v_pages v) s r s' end)) s.
Proof.
  intros Hg Hst Hn0 Hn. destruct (submit_batch_spec s i n pid st Hg Hst Hn0 Hn) as (v & Hv & H). exists v. split; [done|]. eapply wp_mono; [|exact H]. intros r s' (Hg' & _ & Hr). done.
Qed.

Definition demo_stream : stream := default (new_stream 0 [] 0 0 0 0 0 0) (io_streams io_demo !! 3).

Lemma demo_stream_at : io_streams io_demo !! 3 = Some demo_stream.
Proof. vm_compute. reflexivity. Qed.

Lemma submit_in_order_witness : exists v, io_vmos io_demo !! sq_vmo demo_stream = Some v /\ wp (stream_submit_batch 3 2 7) (fun r s' => good s' /\
  (if negb (s_state demo_stream =? STREAM_STATE_ACTIVE) then s' = io_demo /\ r = CAP_V2_EBADF else if 2 >? sq_entries demo_stream then s' = io_demo /\ r = CAP_V2_EINVAL else
   match sched_get_task (io_world io_demo) 7 with None => s' = io_demo /\ r = CAP_V2_EBADF | Some _ => batch 3 2 demo_stream (v_pages v) io_demo r s' end)) io_demo.
Proof. apply (submit_in_order io_demo 3 2 7 demo_stream io_demo_good demo_stream_at); [lia|rewrite demo_next; lia]. Defined.

(** The ring of completions is a queue.  While it has room, a completion that is
    posted becomes the last of those between the process's position and the kernel's, the
    others are as before, and the process's position is untouched; with no room it is
    dropped and only the trace knows. *)
Theorem completions_queue (s : io) (i : Z) (st : stream) (v : vmo) (c : cqe) : good s -> io_streams s !! i = Some st -> io_vmos s !! cq_vmo st = Some v ->
  in_u 32 (cq_head_kernel st) -> cqe_wf c ->
  let t := word_at (v_pages v) 128 in let n := u32 (cq_head_kernel st - t) in
  wp (stream_post_cqe i (cqe_cookie c) (cqe_result c) (cqe_flags c)) (fun _ s' =>
    if n <? cq_entries st then exists st' v', io_streams s' !! i = Some st' /\ io_vmos s' !! cq_vmo st = Some v' /\
      cq_head_kernel st' = u32 (cq_head_kernel st + 1) /\ word_at (v_pages v') 0 = u32 (cq_head_kernel st + 1) /\ word_at (v_pages v') 128 = t /\
      completions (cq_entries st) (v_pages v') t (S (Z.to_nat n)) = completions (cq_entries st) (v_pages v) t (Z.to_nat n) ++ [c]
    else s' = {| s with io_trace := io_trace s ++ [Lost i c] |}) s.
Proof.
  intros Hg Hst Hv Hh Hc t n. destruct (Z.ltb_spec n (cq_entries st)) as [Hn|Hn].
  - by apply (post_room s i st v c (proj1 Hg)).
  - eexists _, _. split; [|reflexivity]. by rewrite (post_full s i st v c (proj1 Hg)).
Qed.

Definition demo_ring : vmo := default (Vmo 0 0 []) (io_vmos io_demo !! 2).

Lemma demo_ring_at : io_vmos io_demo !! cq_vmo demo_stream = Some demo_ring.
Proof. vm_compute. reflexivity. Qed.

Lemma completions_queue_witness : let t := word_at (v_pages demo_ring) 128 in let n := u32 (cq_head_kernel demo_stream - t) in
  wp (stream_post_cqe 3 77 5 0) (fun _ s' =>
    if n <? cq_entries demo_stream then exists st' v', io_streams s' !! 3 = Some st' /\ io_vmos s' !! cq_vmo demo_stream = Some v' /\
      cq_head_kernel st' = u32 (cq_head_kernel demo_stream + 1) /\ word_at (v_pages v') 0 = u32 (cq_head_kernel demo_stream + 1) /\ word_at (v_pages v') 128 = t /\
      completions (cq_entries demo_stream) (v_pages v') t (S (Z.to_nat n)) = completions (cq_entries demo_stream) (v_pages demo_ring) t (Z.to_nat n) ++ [Cqe 77 5 0]
    else s' = (let s := io_demo in {| s with io_trace := io_trace io_demo ++ [Lost 3 (Cqe 77 5 0)] |})) io_demo.
Proof. apply (completions_queue io_demo 3 demo_stream demo_ring (Cqe 77 5 0) io_demo_good demo_stream_at demo_ring_at); [by vm_compute|split; [by vm_compute|split; by vm_compute]]. Defined.

(** ** The worker *)

(** C34: the worker's loop ends, after one pass for each job of its queue, and empties it;
    if no job waits for the I/O limit, then no stream has a job left, only the reference
    of its endpoint remains, and every request it took is finished. *)
Theorem worker_finishes (s : io) : good s -> io_next s <= 2 ^ 31 ->
  wp (worker_drain (S (length (g_worker_queue s)))) (fun _ s' => g_worker_queue s' = [] /\
    ((forall pid, pending s pid = []) -> forall i st, io_streams s' !! i = Some st ->
      jobs_head st = [] /\ s_refcount st = 1 /\ consumed i (io_trace s') ≡ₚ finished i (io_trace s'))) s.
Proof.
  intros Hg Hn. eapply wp_mono; [|apply drain_good; [done|done|lia]]. intros ? s' ([Hinv (Hc & _ & _)] & Hq & Hu). split; [done|]. intros Hp i st Hst. specialize (Hu Hp).
  destruct (idle_streams s' i st Hinv Hq Hu Hst) as [Hj Hr]. split; [done|]. split; [done|]. assert (c_streams (core_of s') !! i = Some (hard st)) as H by by rewrite core_streams, Hst. apply Hc in H. cbn in H. by rewrite Hj, app_nil_r in H.
Qed.

(** Two reads and a message to nobody in the queue. *)
Definition busy_ops : list io_op := demo_fill 2 demo_read ++ [Op_write 1 1 128 (sqe_bytes 3 9 0 5 1 6144 9); Op_write 1 0 0 (le 4 3); Op_submit 7 demo_token 3].
Definition io_busy : io := match io_run busy_ops io_demo with Some (s, _) => s | None => io_demo end.

Lemma io_busy_good : good io_busy.
Proof.
  destruct (run_good busy_ops io_demo io_demo_good) as (s' & [] & E & H); [rewrite demo_next; vm_compute; discriminate|]. unfold io_busy. by rewrite E.
Qed.

Lemma busy_queue : io_next io_busy = 7 /\ length (g_worker_queue io_busy) = 3%nat.
Proof. vm_compute. split; reflexivity. Qed.

Lemma worker_finishes_witness : wp (worker_drain (S (length (g_worker_queue io_busy)))) (fun _ s' => g_worker_queue s' = [] /\
  ((forall pid, pending io_busy pid = []) -> forall i st, io_streams s' !! i = Some st ->
    jobs_head st = [] /\ s_refcount st = 1 /\ consumed i (io_trace s') ≡ₚ finished i (io_trace s'))) io_busy.
Proof. apply (worker_finishes io_busy io_busy_good). rewrite (proj1 busy_queue). lia. Defined.

(** ** What breaks *)

(** C35: no completion ever says that its request was cancelled, and no message sent
    through a stream has a payload, in any interleaving of whole operations: the worker
    takes a job into the running state before it looks for a cancellation, which overwrites
    it, and a request to send never gets the memory object it names. *)
Theorem cancellation_lost (s : io) (ops : list io_op) : good s -> io_next s + total_requests ops <= 2 ^ 31 ->
  wp (io_run ops) (fun _ s' => (forall i c, Posted i c ∈ io_trace s' -> cqe_flags c = 0) /\ forall ch pid payload, Sent ch pid payload ∈ io_trace s' -> payload = []) s.
Proof.
  intros Hg Hn. eapply wp_mono; [|by apply run_good]. intros ? s' [_ (_ & Hp & _)]. rewrite Forall_forall in Hp. split; [intros i c H; by apply Hp in H|intros ch pid payload H; by apply Hp in H].
Qed.

Definition cancel_ops : list io_op := demo_fill 2 demo_read ++ [Op_submit 7 demo_token 2; Op_destroy 7 demo_token; Op_worker; Op_worker].

Lemma cancellation_lost_witness : wp (io_run cancel_ops) (fun _ s' =>
  (forall i c, Posted i c ∈ io_trace s' -> cqe_flags c = 0) /\ forall ch pid payload, Sent ch pid payload ∈ io_trace s' -> payload = []) io_demo.
Proof. apply (cancellation_lost io_demo cancel_ops io_demo_good). rewrite demo_next. vm_compute. discriminate. Defined.

(** Both jobs are counted as cancelled, and both run. *)
Lemma cancelled_jobs_run : trace_of cancel_ops = Some [Consumed 3 0; Wake_worker; Consumed 3 1; Wake_worker; Canceled 7 1 2; Posted 3 (Cqe 0 5 0); Wake_reaper 3; Posted 3 (Cqe 1 5 0); Wake_reaper 3].
Proof. vm_compute. reflexivity. Qed.

(** A process that does not reap loses the seventeenth completion of a ring of sixteen. *)
Definition overflow_ops : list io_op := demo_fill 16 (sqe_bytes 99 0 0 0 0 0) ++ [Op_submit 7 demo_token 16; Op_write 1 0 0 (le 4 17); Op_submit 7 demo_token 1].

Lemma completion_overflow : (trace_of overflow_ops ≫= last) = Some (Lost 3 (Cqe 0 CAP_V2_EPROTOTYPE 0)).
Proof. vm_compute. reflexivity. Qed.

(** Closing the object of a ring frees the memory under its stream. *)
Lemma ring_closed_under_stream : (object_destroy 1;; sys_stream_submit 7 demo_token 1) io_demo = None.
Proof. vm_compute. reflexivity. Qed.

(** The table of handles with two slots left and no memory to grow. *)
Fixpoint fill_handles (n : nat) (t : cap_handle_table) : cap_handle_table :=
  match n with O => t | S n => match cap_handle_insert true t 9 0 with Some (t, _, _) => fill_handles n t | None => t end end.
Definition io_crowded : io := let s := io_boot in
  {| s with io_world := World (cap_object_init registry_boot) {[7 := CapSystem.Task (fill_handles 14 (cap_handle_table_init true).1) 0xFFFFFFFF false]} 0 []; io_allocs := replicate 15 true ++ [false] |}.

(** Undoing a creation that found no third handle releases the rings twice. *)
Lemma create_releases_twice : sys_stream_create true 7 io_type demo_sizes 0 io_crowded = None.
Proof. vm_compute. reflexivity. Qed.
