(* ===== verification/Channel.v ===== *)
(** * IPC channels (kernel/ipc/channel.c)

    A channel is a ring of message slots with head, tail and count.  Each call is
    one locked region; [Blocked] is the outcome of an iteration that puts the task
    to sleep, after which the code runs the same region again.  Wake-ups and audit
    records are a trace of events.  The theorems: the ring is a bounded FIFO with
    consecutive sequence numbers, a frozen channel changes only by thawing, and
    rewinding a ring that was full loses every message. *)
From S2P Require Import Prelude CapToken.
Local Open Scope Z_scope.
Local Open Scope c_scope.

Abbreviation CHAN_MODE_BLOCKING := 1.
Abbreviation CHAN_MODE_NONBLOCKING := 2.
Abbreviation CHAN_ENDPOINT_READ := 1.
Abbreviation CHAN_ENDPOINT_WRITE := 2.
Abbreviation CHAN_MSG_INLINE_MAX := 256.
Abbreviation CHAN_MSG_HANDLES_MAX := 8.
Definition CHAN_CAPACITY_MAX : Z := 4096.
Abbreviation CHANNEL_MAGIC := 0xCAFEC4A1.
Definition CHAN_THAW_KEEP : Z := 0xFFFFFFFF.

Record chan_msg_header := Msg_header {
  m_seq : Z; m_type_hash : Z; m_sender_pid : Z; m_inline_len : Z; m_nhandles : Z; m_flags : Z;
  m_timestamp_tsc : Z
}.
Record channel_msg := Channel_msg {
  header : chan_msg_header; inline_payload : list Z; in_flight_idx : list Z
}.
Definition zero_msg : channel_msg :=
  Channel_msg (Msg_header 0 0 0 0 0 0 0) (replicate 256 0) (replicate 8 0).

Record channel := Channel {
  ch_magic : Z; ch_mode : Z; ch_id : Z; ch_type_hash : Z;
  ch_capacity : Z; ch_head : Z; ch_tail : Z; ch_msgcount : Z; ch_refcount : Z;
  ch_read_cap_idx : Z; ch_write_cap_idx : Z;
  ch_ring : list channel_msg;
  ch_seq_next : Z; ch_total_sends : Z; ch_total_recvs : Z; ch_rejected : Z; ch_owner_pid : Z;
  ch_frozen_at_snap : Z; ch_saved_head : Z; ch_saved_tail : Z; ch_saved_msgcount : Z
}.

Inductive chan_event :=
| Wake_one (readers : bool)
| Wake_all (readers : bool) (rc : Z)
| Type_mismatch (pid cap expected got : Z).

(** [Ret] is a return; [Blocked] a call still asleep; [Fault] a ring index out of
    bounds, which [fifo_run] shows does not happen. *)
Inductive chan_out := Ret (rc : Z) | Blocked | Fault.

Definition chan_check (c : channel) : bool :=
  (ch_magic c =? CHANNEL_MAGIC) && (ch_capacity c >? 0) && negb (bool_decide (ch_ring c = [])).

(** ** The registry: the channels in list order, a pointer being its id *)
Record chan_registry := Chan_registry { g_next_chan_id : Z; g_chan_reg : list channel }.

Definition chan_reg_link (g : chan_registry) (c : channel) : chan_registry :=
  {| g with g_chan_reg := c :: g_chan_reg g |}.

Definition chan_reg_unlink (g : chan_registry) (c : channel) : chan_registry :=
  {| g with g_chan_reg := filter (fun d => ch_id d <> ch_id c) (g_chan_reg g) |}.

(** A change to a channel, seen through the registry's pointer to it. *)
Definition chan_put (g : chan_registry) (c : channel) : chan_registry :=
  {| g with g_chan_reg := map (fun d => if ch_id d =? ch_id c then c else d) (g_chan_reg g) |}.

Definition next_chan_id (g : chan_registry) : Z * chan_registry :=
  (g_next_chan_id g, {| g with g_next_chan_id := u64 (g_next_chan_id g + 1) |}).

Definition chan_lookup_by_id (g : chan_registry) (chan_id : Z) : option channel :=
  if chan_id =? 0 then None else List.find (fun c => ch_id c =? chan_id) (g_chan_reg g).

(** [None] is NULL: bad arguments or a failed allocation, of the channel
    ([alloc_ok]) or of its ring ([ring_ok], after the id has been drawn). *)
Definition chan_create_kernel (g : chan_registry) (alloc_ok ring_ok : bool) (type_hash mode capacity : Z)
    : chan_registry * option channel :=
  if (capacity =? 0) || (capacity >? CHAN_CAPACITY_MAX) then (g, None) else
  if negb (mode =? CHAN_MODE_BLOCKING) && negb (mode =? CHAN_MODE_NONBLOCKING) then (g, None) else
  if negb alloc_ok then (g, None) else
  let '(id, g) := next_chan_id g in
  if negb ring_ok then (g, None) else
  let c := Channel CHANNEL_MAGIC mode id type_hash capacity 0 0 0 2 0 0
             (replicate (Z.to_nat capacity) zero_msg) 0 0 0 0 (-1) 0 0 0 0 in
  (chan_reg_link g c, Some c).

(** ** Sending *)
Section Send.
(** A transaction layer of the sender: whether the peer is outside its scope, and
    appending a message to its buffer (kernel/txn/buffer.c). *)
Context {T : Type} (txn_is_external_peer : T -> bool) (txn_buffer_append : T -> channel_msg -> T * Z).

(** The walk from the innermost layer outward: [Some rc] stops [chan_send]. *)
Fixpoint txn_route (stack : list T) (msg : channel_msg) (any_external : bool) : list T * option Z :=
  match stack with
  | [] => ([], if any_external then Some 0 else None)
  | tcur :: rest =>
      if txn_is_external_peer tcur then
        let '(tcur, rc) := txn_buffer_append tcur msg in
        if rc <? 0 then (tcur :: rest, Some rc)
        else let '(rest, r) := txn_route rest msg true in (tcur :: rest, r)
      else let '(rest, r) := txn_route rest msg any_external in (tcur :: rest, r)
  end.

Record sender := Sender { s_id : Z; s_active_txn : list T; s_replay_in_progress : bool }.

Definition stamp (msg : channel_msg) (pid seq : Z) : channel_msg :=
  let hd := header msg in
  {| msg with header := {| hd with m_sender_pid := u32 pid; m_seq := seq |} |}.

(** One iteration of the delivery loop. *)
Definition chan_send_try (c : channel) (pid : Z) (msg : channel_msg) (timeout_ns : Z)
    : channel * list chan_event * chan_out :=
  if negb (ch_frozen_at_snap c =? 0) then (c, [], Ret CAP_V2_EFROZEN) else
  if ch_msgcount c <? ch_capacity c then
    if get (ch_ring c) (ch_tail c) is Some _ then
      ({| c with ch_ring := upd (ch_ring c) (ch_tail c) (stamp msg pid (ch_seq_next c));
                 ch_seq_next := u64 (ch_seq_next c + 1);
                 ch_tail := u32 (ch_tail c + 1) mod ch_capacity c;
                 ch_msgcount := u32 (ch_msgcount c + 1);
                 ch_total_sends := u64 (ch_total_sends c + 1) |}, [Wake_one true], Ret 0)
    else (c, [], Fault)
  else if (ch_mode c =? CHAN_MODE_NONBLOCKING) || (timeout_ns =? 0) then (c, [], Ret CAP_V2_EAGAIN)
  else (c, [], Blocked).

(** [chan_send] up to its first sleep; [fault] is the outcome of the sampled fault
    injection.  After a sleep that returns 0 the code runs [chan_send_try] again. *)
Definition chan_send (c : channel) (s : sender) (msg : channel_msg) (timeout_ns : Z) (fault : bool)
    : channel * sender * list chan_event * chan_out :=
  if negb (chan_check c) then (c, s, [], Ret CAP_V2_EINVAL) else
  if fault then (c, s, [], Ret CAP_V2_EAGAIN) else
  if negb (m_type_hash (header msg) =? ch_type_hash c) then
    ({| c with ch_rejected := u64 (ch_rejected c + 1) |}, s,
     [Type_mismatch (s_id s) (ch_write_cap_idx c) (ch_type_hash c) (m_type_hash (header msg))],
     Ret CAP_V2_EPROTOTYPE)
  else
    let '(s, r) :=
      if negb (s_replay_in_progress s) then
        let '(st, r) := txn_route (s_active_txn s) msg false in ({| s with s_active_txn := st |}, r)
      else (s, None) in
    match r with
    | Some rc => (c, s, [], Ret rc)
    | None => let '(c, evs, out) := chan_send_try c (s_id s) msg timeout_ns in (c, s, evs, out)
    end.
End Send.
Arguments sender : clear implicits.

(** ** Receiving *)

(** One iteration of the loop of [chan_recv]: the message on success. *)
Definition chan_recv_try (c : channel) (timeout_ns : Z)
    : channel * list chan_event * chan_out * option channel_msg :=
  if negb (ch_frozen_at_snap c =? 0) then (c, [], Ret CAP_V2_EFROZEN, None) else
  if ch_msgcount c >? 0 then
    match get (ch_ring c) (ch_head c) with
    | None => (c, [], Fault, None)
    | Some slot =>
        ({| c with ch_ring := upd (ch_ring c) (ch_head c) {| slot with in_flight_idx := replicate 8 0 |};
                   ch_head := u32 (ch_head c + 1) mod ch_capacity c;
                   ch_msgcount := u32 (ch_msgcount c - 1);
                   ch_total_recvs := u64 (ch_total_recvs c + 1) |},
         [Wake_one false], Ret (m_inline_len (header slot)), Some slot)
    end
  else if ch_refcount c <? 2 then (c, [], Ret CAP_V2_EPIPE, None)
  else if (ch_mode c =? CHAN_MODE_NONBLOCKING) || (timeout_ns =? 0) then (c, [], Ret CAP_V2_EAGAIN, None)
  else (c, [], Blocked, None).

Definition chan_recv (c : channel) (timeout_ns : Z)
    : channel * list chan_event * chan_out * option channel_msg :=
  if negb (chan_check c) then (c, [], Ret CAP_V2_EINVAL, None) else chan_recv_try c timeout_ns.

(** The part of [chan_endpoint_deactivate] on the channel; [None] when it is freed. *)
Definition chan_endpoint_deactivate (g : chan_registry) (c : channel)
    : chan_registry * option channel * list chan_event :=
  if chan_check c then
    let c := {| c with ch_refcount := u32 (ch_refcount c - 1) |} in
    let evs := [Wake_all true CAP_V2_EPIPE; Wake_all false CAP_V2_EPIPE] in
    if ch_refcount c =? 0 then (chan_reg_unlink g c, None, evs) else (chan_put g c, Some c, evs)
  else (g, Some c, []).

Definition chan_destroy_kernel (g : chan_registry) (c : channel)
    : chan_registry * option channel * list chan_event :=
  if negb (chan_check c) then (g, Some c, []) else
  (chan_reg_unlink g c, None, [Wake_all true CAP_V2_EPIPE; Wake_all false CAP_V2_EPIPE]).

Definition chan_poll_probe (c : channel) : Z :=
  if negb (chan_check c) then 0 else
  (if ch_msgcount c >? 0 then 0x1 else 0) |. (if ch_msgcount c <? ch_capacity c then 0x2 else 0) |.
  (if ch_refcount c <? 2 then 0x4 else 0).

Definition chan_freeze_locked (c : channel) (snap_id : Z) : channel * list chan_event * Z :=
  if negb (chan_check c) || (snap_id =? 0) then (c, [], CAP_V2_EINVAL) else
  if negb (ch_frozen_at_snap c =? 0) && negb (ch_frozen_at_snap c =? snap_id) then (c, [], CAP_V2_EBUSY) else
  ({| c with ch_frozen_at_snap := snap_id; ch_saved_head := ch_head c; ch_saved_tail := ch_tail c;
             ch_saved_msgcount := ch_msgcount c |},
   [Wake_all true CAP_V2_EFROZEN; Wake_all false CAP_V2_EFROZEN], CAP_V2_OK).

Definition chan_thaw_locked (c : channel) (restore_head restore_tail : Z) : channel * list chan_event * Z :=
  if negb (chan_check c) then (c, [], CAP_V2_EINVAL) else
  if ch_frozen_at_snap c =? 0 then (c, [], CAP_V2_EINVAL) else
  let c := {| c with ch_frozen_at_snap := 0 |} in
  let c :=
    if negb (restore_head =? CHAN_THAW_KEEP) && negb (restore_tail =? CHAN_THAW_KEEP) then
      let h := restore_head mod ch_capacity c in
      let t := restore_tail mod ch_capacity c in
      {| c with ch_head := h; ch_tail := t;
                ch_msgcount := if t >=? h then t - h else ch_capacity c - h + t |}
    else c in
  (c, [Wake_all true 0; Wake_all false 0], CAP_V2_OK).

(** The walks over the registry. *)
Definition chan_freeze_all_locked (g : chan_registry) (snap_id : Z) : chan_registry * Z :=
  if snap_id =? 0 then (g, CAP_V2_EINVAL)
  else ({| g with g_chan_reg := map (fun c => fst (fst (chan_freeze_locked c snap_id))) (g_chan_reg g) |},
        CAP_V2_OK).

Definition chan_thaw_all_locked (g : chan_registry) (snap_id : Z) : chan_registry * Z :=
  if snap_id =? 0 then (g, CAP_V2_EINVAL)
  else ({| g with g_chan_reg :=
             map (fun c => if ch_frozen_at_snap c =? snap_id
                           then fst (fst (chan_thaw_locked c CHAN_THAW_KEEP CHAN_THAW_KEEP)) else c)
                 (g_chan_reg g) |}, CAP_V2_OK).

(** ** The ring as a queue *)
Definition slot_at (c : channel) (i : Z) : channel_msg :=
  nth (Z.to_nat ((ch_head c + i) mod ch_capacity c)) (ch_ring c) zero_msg.

(** The messages in the ring, oldest first. *)
Definition contents (c : channel) : list channel_msg :=
  map (fun i => slot_at c (Z.of_nat i)) (seq 0 (Z.to_nat (ch_msgcount c))).

Definition wf_channel (c : channel) : Prop :=
  ch_magic c = CHANNEL_MAGIC /\ 0 < ch_capacity c <= CHAN_CAPACITY_MAX /\
  Z.of_nat (length (ch_ring c)) = ch_capacity c /\
  0 <= ch_head c < ch_capacity c /\ 0 <= ch_msgcount c <= ch_capacity c /\
  ch_tail c = (ch_head c + ch_msgcount c) mod ch_capacity c.

Lemma wf_check c : wf_channel c -> chan_check c = true.
Proof.
  intros (Hm & Hc & Hl & _). unfold chan_check. rewrite Hm, Z.eqb_refl.
  destruct (ch_capacity c >? 0) eqn:E; [|lia]. cbn. apply negb_true_iff, bool_decide_eq_false.
  intros E'. rewrite E' in Hl. cbn in Hl. lia.
Qed.

(** Two offsets below the capacity name the same slot only when they are equal. *)
Lemma ring_offset_inj cap h i j :
  0 <= i < cap -> 0 <= j < cap -> (h + i) mod cap = (h + j) mod cap -> i = j.
Proof.
  intros Hi Hj E.
  pose proof (Z.div_mod (h + i) cap ltac:(lia)) as Ei. pose proof (Z.div_mod (h + j) cap ltac:(lia)) as Ej.
  rewrite E in Ei. set (p := (h + i) / cap) in *. set (q := (h + j) / cap) in *.
  destruct (Z.lt_trichotomy p q) as [Hl | [-> | Hl]]; [nia | lia | nia].
Qed.

Lemma slot_upd_ne c i j x r :
  wf_channel c -> 0 <= i < ch_capacity c -> 0 <= j < ch_capacity c -> i <> j ->
  r = upd (ch_ring c) ((ch_head c + j) mod ch_capacity c) x ->
  nth (Z.to_nat ((ch_head c + i) mod ch_capacity c)) r zero_msg = slot_at c i.
Proof.
  intros (_ & Hc & Hl & _) Hi Hj Hne ->. unfold slot_at, upd.
  rewrite !nth_lookup, list_lookup_insert_ne; [done|]. intros E.
  assert (0 <= (ch_head c + i) mod ch_capacity c) by (apply Z.mod_pos_bound; lia).
  assert (0 <= (ch_head c + j) mod ch_capacity c) by (apply Z.mod_pos_bound; lia).
  apply Hne, (ring_offset_inj (ch_capacity c) (ch_head c)); lia.
Qed.

Lemma succ_mod_u32 x cap : 0 < cap <= CHAN_CAPACITY_MAX -> 0 <= x < cap -> u32 (x + 1) mod cap = (x + 1) mod cap.
Proof. unfold CHAN_CAPACITY_MAX. intros. rewrite wrap_small; [done|]. unfold in_u. lia. Qed.

Lemma get_slot c i :
  wf_channel c -> get (ch_ring c) ((ch_head c + i) mod ch_capacity c) = Some (slot_at c i).
Proof.
  intros (_ & Hc & Hl & _). pose proof (Z.mod_pos_bound (ch_head c + i) (ch_capacity c) ltac:(lia)).
  destruct (get_bound_Some (ch_ring c) ((ch_head c + i) mod ch_capacity c)) as [x Hx]; [lia|].
  rewrite Hx. unfold get in Hx. destruct (Z.ltb_spec ((ch_head c + i) mod ch_capacity c) 0); [lia|].
  unfold slot_at. rewrite nth_lookup, Hx. done.
Qed.

(** Accepting a message: it goes to the back, stamped with the next sequence number. *)
Lemma send_accepts c pid msg timeout :
  wf_channel c -> ch_frozen_at_snap c = 0 -> ch_msgcount c < ch_capacity c ->
  exists c', chan_send_try c pid msg timeout = (c', [Wake_one true], Ret 0) /\ wf_channel c' /\
    contents c' = contents c ++ [stamp msg pid (ch_seq_next c)] /\
    ch_seq_next c' = u64 (ch_seq_next c + 1) /\ ch_type_hash c' = ch_type_hash c.
Proof.
  intros Hwf Hf Hroom. unfold chan_send_try. rewrite Hf. cbn.
  destruct (Z.ltb_spec (ch_msgcount c) (ch_capacity c)); [|lia].
  pose proof Hwf as (Hm & Hc & Hl & Hh & Hn & Ht). rewrite Ht, get_slot by done.
  pose proof (Z.mod_pos_bound (ch_head c + ch_msgcount c) (ch_capacity c) ltac:(lia)).
  rewrite succ_mod_u32 by (try done; lia).
  assert (u32 (ch_msgcount c + 1) = ch_msgcount c + 1) as Hc1
    by (unfold CHAN_CAPACITY_MAX in *; apply wrap_small; unfold in_u; lia).
  eexists. split; [reflexivity|]. rewrite Hc1. split_and!; try done; cbn.
  - unfold wf_channel; cbn. rewrite length_upd. split_and!; try lia; try done.
    rewrite Zplus_mod_idemp_l. f_equal. lia.
  - unfold contents at 1. cbn. replace (Z.to_nat (ch_msgcount c + 1)) with (S (Z.to_nat (ch_msgcount c))) by lia.
    rewrite seq_S, map_app. f_equal.
    + apply map_ext_in. intros i [_ Hi]%in_seq.
      unfold slot_at at 1; cbn. apply slot_upd_ne with (j := ch_msgcount c) (x := stamp msg pid (ch_seq_next c));
        try done; lia.
    + cbn. unfold slot_at; cbn. rewrite Z2Nat.id by lia. unfold upd.
      rewrite nth_lookup, list_lookup_insert_eq by lia. done.
Qed.

(** Taking a message: the oldest leaves. *)
Lemma recv_takes c timeout :
  wf_channel c -> ch_frozen_at_snap c = 0 -> 0 < ch_msgcount c ->
  exists c' m, chan_recv_try c timeout = (c', [Wake_one false], Ret (m_inline_len (header m)), Some m) /\
    wf_channel c' /\ contents c = m :: contents c' /\ ch_seq_next c' = ch_seq_next c /\
    ch_type_hash c' = ch_type_hash c.
Proof.
  intros Hwf Hf Hsome. unfold chan_recv_try. rewrite Hf. cbn.
  destruct (ch_msgcount c >? 0) eqn:E; [|lia].
  pose proof Hwf as (Hm & Hc & Hl & Hh & Hn & Ht).
  replace (get (ch_ring c) (ch_head c)) with (Some (slot_at c 0))
    by (rewrite <- get_slot by done; f_equal; rewrite Z.add_0_r, Z.mod_small; lia).
  rewrite succ_mod_u32 by (try done; lia).
  assert (u32 (ch_msgcount c - 1) = ch_msgcount c - 1) as Hc1
    by (unfold CHAN_CAPACITY_MAX in *; apply wrap_small; unfold in_u; lia).
  do 2 eexists. split; [reflexivity|]. rewrite Hc1. split_and!; try done; cbn.
  - unfold wf_channel; cbn. rewrite length_upd.
    pose proof (Z.mod_pos_bound (ch_head c + 1) (ch_capacity c) ltac:(lia)).
    split_and!; try lia; try done. rewrite Zplus_mod_idemp_l, Ht. f_equal. lia.
  - unfold contents. cbn. replace (Z.to_nat (ch_msgcount c)) with (S (Z.to_nat (ch_msgcount c - 1))) by lia.
    cbn. f_equal. rewrite <- seq_shift, map_map. apply map_ext_in. intros i [_ Hi]%in_seq.
    unfold slot_at at 2; cbn. rewrite Zplus_mod_idemp_l.
    replace (ch_head c + 1 + Z.of_nat i) with (ch_head c + Z.of_nat (S i)) by lia. symmetry.
    eapply slot_upd_ne with (j := 0); try done; try lia.
    f_equal. rewrite Z.add_0_r, Z.mod_small; lia.
Qed.

(** ** Runs

    Senders and receivers use the channel in any order; a sender that found the
    ring full sleeps in [blocked] and runs the loop again when it is woken.  [Thaw] keeps the
    queue, [Rewind] is the thaw to the head and tail saved by the freeze.  The lists of
    messages accepted, received and lost from the ring are a record of what happened. *)
Section Runs.
Context {T : Type} (txn_is_external_peer : T -> bool) (txn_buffer_append : T -> channel_msg -> T * Z).

Inductive chan_op :=
| Send (s : sender T) (msg : channel_msg) (timeout_ns : Z) (fault : bool)
| Wake (i : nat) (rc : Z)
| Recv (timeout_ns : Z)
| Freeze (snap_id : Z)
| Thaw
| Rewind.

Record chan_world := Chan_world {
  chan : channel; blocked : list (Z * channel_msg * Z);
  accepted : list channel_msg; received : list channel_msg; lost : list channel_msg; faulted : bool
}.

Definition send_result (w : chan_world) (pid : Z) (msg : channel_msg) (timeout_ns : Z)
    (c : channel) (evs : list chan_event) (out : chan_out) : chan_world :=
  match out with
  | Ret _ =>
      if evs is Wake_one true :: _
      then {| w with chan := c; accepted := accepted w ++ [stamp msg pid (ch_seq_next (chan w))] |}
      else {| w with chan := c |}
  | Blocked => {| w with chan := c; blocked := blocked w ++ [(pid, msg, timeout_ns)] |}
  | Fault => {| w with faulted := true |}
  end.

Definition chan_step (w : chan_world) (op : chan_op) : chan_world :=
  match op with
  | Send s msg timeout fault =>
      let '(c, _, evs, out) := chan_send txn_is_external_peer txn_buffer_append (chan w) s msg timeout fault in
      send_result w (s_id s) msg timeout c evs out
  | Wake i rc =>
      match blocked w !! i with
      | None => w
      | Some (pid, msg, timeout) =>
          let w := {| w with blocked := delete i (blocked w) |} in
          if rc =? 0 then
            let '(c, evs, out) := chan_send_try (chan w) pid msg timeout in
            send_result w pid msg timeout c evs out
          else w
      end
  | Recv timeout =>
      let '(c, _, out, m) := chan_recv (chan w) timeout in
      match out with
      | Fault => {| w with faulted := true |}
      | _ => {| w with chan := c; received := received w ++ option_list m |}
      end
  | Freeze snap_id => {| w with chan := fst (fst (chan_freeze_locked (chan w) snap_id)) |}
  | Thaw => {| w with chan := fst (fst (chan_thaw_locked (chan w) CHAN_THAW_KEEP CHAN_THAW_KEEP)) |}
  | Rewind =>
      let c := fst (fst (chan_thaw_locked (chan w) (ch_saved_head (chan w)) (ch_saved_tail (chan w)))) in
      {| w with chan := c; lost := lost w ++ drop (length (contents c)) (contents (chan w)) |}
  end.

Definition chan_run (w : chan_world) (ops : list chan_op) : chan_world := foldl chan_step w ops.

Definition initial (c : channel) : chan_world := Chan_world c [] [] [] [] false.

(** A message as the channel with type [hash] accepts it, in position [i]. *)
Definition good_msg (hash : Z) (i : nat) (m : channel_msg) : Prop :=
  m_type_hash (header m) = hash /\ m_seq (header m) = u64 (Z.of_nat i).

(** The messages that left the ring, in order: received or lost. *)
Definition taken (w : chan_world) (l : list channel_msg) : Prop :=
  l ++ contents (chan w) = accepted w /\ sublist (received w) l /\ l ≡ₚ received w ++ lost w.

(** A frozen channel has saved its head and tail. *)
Definition saved (c : channel) : Prop := ch_frozen_at_snap c <> 0 -> ch_saved_head c = ch_head c /\ ch_saved_tail c = ch_tail c.

Definition fifo (w : chan_world) : Prop :=
  wf_channel (chan w) /\ faulted w = false /\
  (exists l, taken w l) /\ saved (chan w) /\
  ch_seq_next (chan w) = u64 (Z.of_nat (length (accepted w))) /\
  (forall i m, accepted w !! i = Some m -> good_msg (ch_type_hash (chan w)) i m) /\
  Forall (fun '(_, msg, _) => m_type_hash (header msg) = ch_type_hash (chan w)) (blocked w).

(** The parts of a channel the queue is made of. *)
Definition same_queue (c d : channel) : Prop :=
  ch_magic d = ch_magic c /\ ch_capacity d = ch_capacity c /\ ch_ring d = ch_ring c /\
  ch_head d = ch_head c /\ ch_tail d = ch_tail c /\ ch_msgcount d = ch_msgcount c /\
  ch_seq_next d = ch_seq_next c /\ ch_type_hash d = ch_type_hash c.

#[global] Instance same_queue_refl : Reflexive same_queue.
Proof. intros c. by unfold same_queue. Qed.

Lemma same_queue_wf c d : same_queue c d -> wf_channel c -> wf_channel d.
Proof. intros (H1&H2&H3&H4&H5&H6&_). unfold wf_channel. by rewrite H1, H2, H3, H4, H5, H6. Qed.

Lemma same_queue_contents c d : same_queue c d -> contents d = contents c.
Proof. intros (H1&H2&H3&H4&H5&H6&_). unfold contents, slot_at. by rewrite H2, H3, H4, H6. Qed.

Lemma fifo_same w c : fifo w -> same_queue (chan w) c -> saved c -> fifo {| w with chan := c |}.
Proof.
  intros (Hwf & Hf & Hq & _ & Hs & Hg & Hb) Hc Hsv. pose proof Hc as (_&_&_&_&_&_&Hseq&Hty).
  unfold fifo, taken; cbn. rewrite (same_queue_contents _ _ Hc), Hseq, Hty.
  split_and!; try done. by eapply same_queue_wf.
Qed.

(** What one delivery attempt can do on a well-formed channel. *)
Lemma send_try_cases c pid msg timeout c' evs out :
  wf_channel c -> chan_send_try c pid msg timeout = (c', evs, out) ->
  (c' = c /\ evs = [] /\ out <> Fault) \/
  (evs = [Wake_one true] /\ out = Ret 0 /\ wf_channel c' /\
   contents c' = contents c ++ [stamp msg pid (ch_seq_next c)] /\
   ch_seq_next c' = u64 (ch_seq_next c + 1) /\ ch_type_hash c' = ch_type_hash c).
Proof.
  intros Hwf E. pose proof E as E'. unfold chan_send_try in E.
  destruct (Z.eqb_spec (ch_frozen_at_snap c) 0) as [Hf|Hf]; cbn [negb] in E;
    [|simplify_eq; by left].
  destruct (Z.ltb_spec (ch_msgcount c) (ch_capacity c)) as [Hlt|Hge].
  - right. destruct (send_accepts c pid msg timeout Hwf Hf Hlt) as (d & Hd & H1 & H2 & H3 & H4).
    destruct (get (ch_ring c) (ch_tail c)); [|congruence].
    rewrite E' in Hd. simplify_eq. by split_and!.
  - left. by destruct (_ || _); simplify_eq.
Qed.

Lemma recv_try_cases c timeout :
  wf_channel c ->
  (exists evs out, chan_recv_try c timeout = (c, evs, out, None) /\ out <> Fault) \/
  (exists c' evs rc m, chan_recv_try c timeout = (c', evs, Ret rc, Some m) /\ wf_channel c' /\
     contents c = m :: contents c' /\ ch_seq_next c' = ch_seq_next c /\ ch_type_hash c' = ch_type_hash c).
Proof.
  intros Hwf. destruct (Z.eq_dec (ch_frozen_at_snap c) 0) as [Hf|Hf].
  - destruct (Z_lt_le_dec 0 (ch_msgcount c)) as [Hlt|Hle].
    + right. destruct (recv_takes c timeout Hwf Hf Hlt) as (c' & m & E & H1 & H2 & H3 & H4).
      exists c'. do 3 eexists. by split_and!.
    + left. unfold chan_recv_try. rewrite Hf; cbn. destruct (ch_msgcount c >? 0) eqn:E; [lia|].
      split_ifs; eauto.
  - left. unfold chan_recv_try. apply Z.eqb_neq in Hf. rewrite Hf; cbn. eauto.
Qed.

Lemma send_try_saved c pid msg timeout c' evs out : chan_send_try c pid msg timeout = (c', evs, out) -> saved c -> saved c'.
Proof. unfold chan_send_try. intros E Hs. destruct (Z.eqb_spec (ch_frozen_at_snap c) 0); cbn [negb] in E; [|by simplify_eq]. by split_ifs; repeat case_match; simplify_eq. Qed.

Lemma recv_try_saved c timeout c' evs out m : chan_recv_try c timeout = (c', evs, out, m) -> saved c -> saved c'.
Proof. unfold chan_recv_try. intros E Hs. destruct (Z.eqb_spec (ch_frozen_at_snap c) 0); cbn [negb] in E; [|by simplify_eq]. by split_ifs; repeat case_match; simplify_eq. Qed.

Lemma fifo_send_result w pid msg timeout c evs out :
  fifo w -> m_type_hash (header msg) = ch_type_hash (chan w) ->
  chan_send_try (chan w) pid msg timeout = (c, evs, out) ->
  fifo (send_result w pid msg timeout c evs out).
Proof.
  intros Hw Hty E. pose proof Hw as (Hwf & Hf & Hq & Hsv & Hs & Hg & Hb). pose proof (send_try_saved _ _ _ _ _ _ _ E Hsv) as Hsv'.
  destruct (send_try_cases _ _ _ _ _ _ _ Hwf E) as [(-> & -> & Hout) | (-> & -> & Hc & Hct & Hsq & Hth)]; cbn.
  - destruct out; [apply fifo_same; done | | done].
    unfold fifo; cbn. split_and!; try done. apply Forall_app; split; [done|]. by apply Forall_singleton.
  - unfold fifo; cbn. rewrite Hsq, Hth, Hs, length_app, wrap_add_l by lia; cbn.
    split_and!; try done; try (f_equal; lia).
    + destruct Hq as (l & Hl & Hq). exists l. unfold taken; cbn. by rewrite Hct, Hs, app_assoc, Hl.
    + intros i m [Hi | [Hi [Hi0 <-]%list_lookup_singleton_Some]]%lookup_app_Some; [by apply Hg|].
      unfold good_msg; cbn. split; [congruence|]. f_equal. lia.
Qed.

(** The count [chan_thaw_locked] recomputes from the saved indices. *)
Lemma rewound_count c :
  wf_channel c ->
  (if ch_tail c >=? ch_head c then ch_tail c - ch_head c else ch_capacity c - ch_head c + ch_tail c) =
  (if ch_msgcount c =? ch_capacity c then 0 else ch_msgcount c).
Proof.
  intros (_ & Hc & _ & Hh & Hn & ->).
  assert ((ch_head c + ch_msgcount c) mod ch_capacity c =
          if ch_head c + ch_msgcount c <? ch_capacity c then ch_head c + ch_msgcount c
          else ch_head c + ch_msgcount c - ch_capacity c) as ->.
  { destruct (Z.ltb_spec (ch_head c + ch_msgcount c) (ch_capacity c)); [apply Z.mod_small; lia|].
    symmetry. apply Z.mod_unique with 1; lia. }
  split_ifs; lia.
Qed.

(** Rewinding a frozen channel to what the freeze saved keeps the queue, or empties a full ring. *)
Lemma rewind_spec c : wf_channel c -> saved c ->
  let c' := fst (fst (chan_thaw_locked c (ch_saved_head c) (ch_saved_tail c))) in
  wf_channel c' /\ saved c' /\ ch_seq_next c' = ch_seq_next c /\ ch_type_hash c' = ch_type_hash c /\
  contents c' = if negb (ch_frozen_at_snap c =? 0) && (ch_msgcount c =? ch_capacity c) then [] else contents c.
Proof.
  intros Hwf Hsv c'. subst c'. unfold chan_thaw_locked. rewrite wf_check by done. cbn [negb].
  destruct (Z.eqb_spec (ch_frozen_at_snap c) 0) as [|Hf]; [done|]. cbn [negb andb]. destruct (Hsv Hf) as [-> ->].
  pose proof Hwf as (Hm & Hc & Hl & Hh & Hn & Ht). assert (0 <= ch_tail c < ch_capacity c) by (rewrite Ht; apply Z.mod_pos_bound; lia).
  unfold CHAN_THAW_KEEP, CHAN_CAPACITY_MAX in *. destruct (Z.eqb_spec (ch_head c) 0xFFFFFFFF), (Z.eqb_spec (ch_tail c) 0xFFFFFFFF); try lia. cbn.
  rewrite !Z.mod_small, rewound_count by (done || lia). split; [|split; [done|split; [done|split; [done|]]]].
  - unfold wf_channel, CHAN_CAPACITY_MAX; cbn. destruct (Z.eqb_spec (ch_msgcount c) (ch_capacity c)) as [Efull|]; split_and!; try done; try lia.
    rewrite Ht, Efull, Z.add_0_r, <- (Z.mod_add (ch_head c) 1) by lia. f_equal. lia.
  - unfold contents, slot_at; cbn. by destruct (ch_msgcount c =? ch_capacity c).
Qed.

Lemma fifo_step w op : fifo w -> fifo (chan_step w op).
Proof.
  intros Hw. pose proof Hw as (Hwf & Hf & Hq & Hsv & Hs & Hg & Hb). destruct op as [s msg timeout fault | i rc | timeout | snap | |]; cbn.
  - unfold chan_send. rewrite wf_check by done; cbn.
    destruct fault; [by apply fifo_same|].
    destruct (Z.eqb_spec (m_type_hash (header msg)) (ch_type_hash (chan w))) as [Hty|]; cbn [negb];
      [|by apply fifo_same].
    destruct (if negb (s_replay_in_progress s) then _ else _) as [s' [rc|]] eqn:Er; [by apply fifo_same|].
    assert (s_id s' = s_id s) as ->
      by (destruct (negb _); [destruct (txn_route _ _ _ _ _)|]; by simplify_eq).
    destruct (chan_send_try _ _ _ _) as [[c evs] out] eqn:E. by apply fifo_send_result.
  - destruct (blocked w !! i) as [[[pid msg] timeout]|] eqn:Hi; [|done].
    pose proof (Forall_lookup_1 _ _ _ _ Hb Hi) as Hty; cbn in Hty.
    assert (fifo {| w with blocked := delete i (blocked w) |}) as Hw'
      by (unfold fifo; cbn; split_and!; try done; by apply Forall_delete).
    destruct (rc =? 0); [|done].
    destruct (chan_send_try _ _ _ _) as [[c evs] out] eqn:E. by apply fifo_send_result.
  - unfold chan_recv. rewrite wf_check by done; cbn.
    destruct (recv_try_cases (chan w) timeout Hwf) as [(evs & out & -> & Hout) | (c & evs & rc & m & E & Hc)].
    + by destruct out; try apply fifo_same with (w := {| w with received := received w ++ [] |});
        try done; unfold fifo, taken; cbn; rewrite app_nil_r.
    + pose proof (recv_try_saved _ _ _ _ _ _ E Hsv). rewrite E. destruct Hc as (Hwf' & Hct & Hsq & Hth). unfold fifo; cbn. rewrite Hsq, Hth.
      split_and!; try done. destruct Hq as (l & Hl & Hsub & Hp). exists (l ++ [m]). unfold taken; cbn.
      rewrite <- app_assoc, <- Hl, Hct. split_and!; [done|by apply sublist_app|]. rewrite Hp. solve_Permutation.
  - apply fifo_same; [done|unfold chan_freeze_locked; by split_ifs|]. unfold chan_freeze_locked, saved. by split_ifs.
  - apply fifo_same; [done|unfold chan_thaw_locked; by split_ifs|]. unfold chan_thaw_locked, saved. by split_ifs.
  - destruct (rewind_spec (chan w) Hwf Hsv) as (H1 & H2 & H3 & H4 & H5). set (c := fst (fst (chan_thaw_locked _ _ _))) in *.
    unfold fifo; cbn. rewrite H3, H4. split_and!; try done. destruct Hq as (l & Hl & Hsub & Hp). unfold taken; cbn. rewrite H5.
    destruct (negb _ && _); cbn [length].
    + exists (l ++ contents (chan w)). rewrite drop_0, app_nil_r. split_and!; [done|by apply sublist_inserts_r|]. rewrite Hp. by rewrite app_assoc.
    + exists l. by rewrite skipn_all, app_nil_r.
Qed.

Lemma fifo_run w ops : fifo w -> fifo (chan_run w ops).
Proof. revert w. induction ops as [|op ops IH]; intros w Hw; [done|]. by apply IH, fifo_step. Qed.

Lemma create_fifo g alloc_ok ring_ok hash mode cap g' c :
  chan_create_kernel g alloc_ok ring_ok hash mode cap = (g', Some c) -> 0 <= cap ->
  fifo (initial c) /\ ch_type_hash c = hash /\ ch_capacity c = cap.
Proof.
  unfold chan_create_kernel. intros E Hcap.
  destruct (Z.eqb_spec cap 0), (cap >? CHAN_CAPACITY_MAX) eqn:Emax; cbn in E; try done.
  destruct (negb (mode =? _) && _), alloc_ok, ring_ok; simplify_eq/=.
  split; [|done]. unfold fifo, wf_channel, saved; cbn. rewrite length_replicate.
  split_and!; try done; try lia. by exists [].
Qed.

Lemma step_type_capacity w op :
  ch_type_hash (chan (chan_step w op)) = ch_type_hash (chan w) /\
  ch_capacity (chan (chan_step w op)) = ch_capacity (chan w).
Proof.
  destruct op as [s msg timeout fault | i rc | timeout | snap | |]; cbn;
    unfold chan_send, chan_recv, chan_recv_try, chan_freeze_locked, chan_thaw_locked, chan_send_try, send_result;
    repeat case_match; simplify_eq/=; try done; repeat case_match; by simplify_eq/=.
Qed.

Lemma run_type_capacity w ops :
  ch_type_hash (chan (chan_run w ops)) = ch_type_hash (chan w) /\
  ch_capacity (chan (chan_run w ops)) = ch_capacity (chan w).
Proof.
  revert w. induction ops as [|op ops IH]; intros w; [done|].
  destruct (IH (chan_step w op)) as [H1 H2], (step_type_capacity w op). unfold chan_run in *; cbn. split; congruence.
Qed.

Definition is_io (op : chan_op) : bool :=
  match op with Send _ _ _ _ | Wake _ _ | Recv _ => true | Freeze _ | Thaw | Rewind => false end.

(** A held channel: the queue of [c], frozen at [snap]. *)
Definition held (c : channel) (snap : Z) (d : channel) : Prop :=
  same_queue c d /\ ch_frozen_at_snap d = snap /\
  ch_saved_head d = ch_head c /\ ch_saved_tail d = ch_tail c.

Lemma held_step c snap w op :
  snap <> 0 -> is_io op = true -> held c snap (chan w) ->
  held c snap (chan (chan_step w op)) /\ received (chan_step w op) = received w /\ accepted (chan_step w op) = accepted w.
Proof.
  intros Hs%Z.eqb_neq Hio Hh. assert (forall d, same_queue (chan w) d -> ch_frozen_at_snap d = ch_frozen_at_snap (chan w) ->
    ch_saved_head d = ch_saved_head (chan w) -> ch_saved_tail d = ch_saved_tail (chan w) -> held c snap d) as Hd.
  { destruct Hh as ((?&?&?&?&?&?&?&?)&?&?&?). intros d (?&?&?&?&?&?&?&?) ???. unfold held, same_queue.
    split_and!; congruence. }
  destruct Hh as (_ & Hf & _). destruct op as [s msg timeout fault | i rc | timeout | | |]; try done; cbn.
  - unfold chan_send, chan_send_try. rewrite Hf.
    repeat case_match; simplify_eq/=; rewrite ?Hs in *; simplify_eq/=; split_and!; try done; by apply Hd.
  - unfold chan_send_try. repeat case_match; simplify_eq/=; rewrite ?Hf, ?Hs in *; simplify_eq/=;
      split_and!; try done; by apply Hd.
  - unfold chan_recv, chan_recv_try. rewrite Hf, Hs; cbn.
    destruct (negb _); cbn; rewrite app_nil_r; split_and!; try done; by apply Hd.
Qed.

Lemma held_run c snap w ops :
  snap <> 0 -> Forall is_io ops -> held c snap (chan w) ->
  held c snap (chan (chan_run w ops)) /\ received (chan_run w ops) = received w /\ accepted (chan_run w ops) = accepted w.
Proof.
  intros Hs Hops. revert w. induction Hops as [|op ops Hop Hops IH]; intros w Hw; [done|].
  destruct (held_step c snap w op Hs (Is_true_true_1 _ Hop) Hw) as (H1 & H2 & H3).
  destruct (IH _ H1) as (H4 & H5 & H6). unfold chan_run in *; cbn. rewrite H5, H6. done.
Qed.

Lemma thaw_rewinds c snap d :
  wf_channel c -> snap <> 0 -> held c snap d ->
  let d' := fst (fst (chan_thaw_locked d (ch_saved_head d) (ch_saved_tail d))) in
  ch_frozen_at_snap d' = 0 /\
  contents d' = (if ch_msgcount c =? ch_capacity c then [] else contents c).
Proof.
  intros Hwf Hs%Z.eqb_neq ((H1&H2&H3&H4&H5&H6&H7&H8) & Hf & Hsh & Hst). unfold chan_thaw_locked.
  rewrite wf_check by by (eapply same_queue_wf; [|exact Hwf]).
  cbn. rewrite Hf, Hs, Hsh, Hst, H2; cbn. pose proof Hwf as (_ & Hc & _ & Hh & Hn & Ht).
  assert (0 <= ch_tail c < ch_capacity c) by (rewrite Ht; apply Z.mod_pos_bound; lia).
  unfold CHAN_THAW_KEEP, CHAN_CAPACITY_MAX in *.
  destruct (Z.eqb_spec (ch_head c) 0xFFFFFFFF), (Z.eqb_spec (ch_tail c) 0xFFFFFFFF); try lia; cbn.
  split; [done|]. rewrite !Z.mod_small by lia. unfold contents, slot_at; cbn.
  rewrite rewound_count by done. rewrite H3. by destruct (ch_msgcount c =? ch_capacity c).
Qed.

End Runs.

(** Every [Rewind] of a run finds room in the ring. *)
Fixpoint rewinds_have_room {T} (ext : T -> bool) append (w : chan_world) (ops : list chan_op) : Prop :=
  match ops with
  | [] => True
  | op :: ops => (op = Rewind -> ch_msgcount (chan w) < ch_capacity (chan w)) /\ rewinds_have_room ext append (chan_step ext append w op) ops
  end.

Lemma nothing_lost {T} (ext : T -> bool) append ops : forall w, fifo w -> rewinds_have_room ext append w ops -> lost w = [] -> lost (chan_run ext append w ops) = [].
Proof.
  induction ops as [|op ops IH]; intros w Hw Hr Hl; [done|]. destruct Hr as [Ho Hr]. apply IH; [by apply fifo_step|done|].
  destruct Hw as (Hwf & _ & _ & Hsv & _). destruct op as [s msg timeout fault | i rc | timeout | snap | |]; cbn; unfold send_result; repeat case_match; try done.
  destruct (rewind_spec (chan w) Hwf Hsv) as (_ & _ & _ & _ & ->). specialize (Ho eq_refl).
  destruct (Z.eqb_spec (ch_msgcount (chan w)) (ch_capacity (chan w))); [lia|]. by rewrite andb_false_r, skipn_all, app_nil_r.
Qed.

Lemma sublist_whole {A} (l k : list A) : sublist l k -> (length k <= length l)%nat -> l = k.
Proof.
  induction 1 as [|x l k Hs IH|x l k Hs IH]; cbn; intros Hl; [done|f_equal; apply IH; lia|]. apply sublist_length in Hs. lia.
Qed.

(** C21: a channel is a bounded FIFO queue.  Whatever sends, receives, wake-ups of sleeping
    senders, freezes, thaws that keep the queue and thaws that rewind it to the head and tail
    of the freeze happen, in whatever order and with whatever transaction layers buffering
    some of the sends: no ring access is out of bounds; at most [capacity] messages are held;
    the n-th accepted message has sequence number n and the channel's type; the messages that
    left the ring, followed by those in it, are the messages accepted in order of acceptance;
    those that left are the ones received, in their order, and the ones lost.  When every
    rewinding thaw finds room in the ring, none is lost: the messages received followed by
    those in the ring are the messages accepted.  A full ring that is rewound is lost,
    [freeze_holds_queue]. *)
Theorem channel_fifo {T} (ext : T -> bool) append g alloc_ok ring_ok hash mode cap g' c ops :
  chan_create_kernel g alloc_ok ring_ok hash mode cap = (g', Some c) -> 0 <= cap ->
  let w := chan_run ext append (initial c) ops in
  faulted w = false /\ Z.of_nat (length (contents (chan w))) <= cap /\
  (forall i m, accepted w !! i = Some m -> good_msg hash i m) /\
  (exists l, l ++ contents (chan w) = accepted w /\ sublist (received w) l /\ l ≡ₚ received w ++ lost w) /\
  (rewinds_have_room ext append (initial c) ops -> received w ++ contents (chan w) = accepted w).
Proof.
  intros E Hcap w. destruct (create_fifo _ _ _ _ _ _ _ _ E Hcap) as (Hi & <- & <-).
  destruct (fifo_run ext append _ ops Hi) as (Hwf & Hf & (l & Hl & Hsub & Hp) & _ & _ & Hg & _).
  destruct (run_type_capacity ext append (initial c) ops) as [Hty Hc]. fold w in Hwf, Hf, Hl, Hsub, Hp, Hg, Hty, Hc.
  rewrite Hty in Hg. split_and!; try done.
  - unfold contents. rewrite length_map, length_seq. cbn in Hc. rewrite <- Hc. destruct Hwf as (_ & _ & _ & _ & Hn & _). lia.
  - by exists l.
  - intros Hr. pose proof (nothing_lost ext append ops _ Hi Hr eq_refl) as Hlost. fold w in Hlost. rewrite Hlost, app_nil_r in Hp.
    rewrite <- Hl. f_equal. apply (sublist_whole _ _ Hsub). by rewrite Hp.
Qed.

Definition sample_msg (n : Z) : channel_msg :=
  Channel_msg (Msg_header 0 7 0 1 0 0 0) [n] (replicate 8 0).

Definition sample_ops : list chan_op :=
  let s := Sender 5 ([] : list unit) false in
  [Send s (sample_msg 1) 9 false; Send s (sample_msg 2) 9 false; Send s (sample_msg 3) 9 false;
   Recv 0; Wake 0 0; Recv 0; Freeze 3; Rewind].

Lemma channel_fifo_witness :
  let c := Channel CHANNEL_MAGIC 1 1 7 2 0 0 0 2 0 0 (replicate 2 zero_msg) 0 0 0 0 (-1) 0 0 0 0 in
  let w := chan_run (fun _ => false) (fun t _ => (t, 0)) (initial c) sample_ops in
  map inline_payload (received w) = [[1]; [2]] /\ received w ++ contents (chan w) = accepted w.
Proof.
  intros c w. split; [vm_compute; reflexivity|].
  destruct (channel_fifo (fun _ => false) (fun t _ => (t, 0)) (Chan_registry 1 []) true true 7 1 2
              (chan_reg_link (Chan_registry 2 []) c) c sample_ops) as (_ & _ & _ & _ & H); [reflexivity | lia |].
  apply H. unfold sample_ops. cbn [rewinds_have_room].
  do 7 (split; [intros ?; discriminate|]). split; [intros _; vm_compute; reflexivity|exact I].
Defined.

(** A snapshot holds a channel's queue.  From the freeze until the thaw nothing is
    accepted or received, whatever sends, receives and wake-ups are tried.  Thawing
    in place gives the queue back unchanged.  Rewinding to the saved head and tail
    gives it back when the ring was not full, but a ring that was full comes back
    empty, because the count is recomputed from two equal indices. *)
Theorem freeze_holds_queue {T} (ext : T -> bool) append (w : chan_world) snap ops :
  wf_channel (chan w) -> ch_frozen_at_snap (chan w) = 0 -> snap <> 0 -> Forall is_io ops ->
  let c := chan w in
  let w' := chan_run ext append (chan_step ext append w (Freeze snap)) ops in
  received w' = received w /\ accepted w' = accepted w /\
  contents (chan (chan_step ext append w' Thaw)) = contents c /\
  contents (fst (fst (chan_thaw_locked (chan w') (ch_saved_head (chan w')) (ch_saved_tail (chan w'))))) =
    (if ch_msgcount c =? ch_capacity c then [] else contents c).
Proof.
  intros Hwf Hf Hs Hops c w'. pose proof Hs as Hs'%Z.eqb_neq.
  assert (held c snap (chan (chan_step ext append w (Freeze snap)))) as H0.
  { cbn. unfold chan_freeze_locked. rewrite wf_check, Hs', Hf by done. by cbn. }
  destruct (held_run ext append c snap _ ops Hs Hops H0) as (H1 & H2 & H3). fold w' in H1, H2, H3.
  split_and!; [done | done | |].
  - cbn. rewrite <- (same_queue_contents c (chan w')) by apply H1. apply same_queue_contents.
    unfold chan_thaw_locked. by split_ifs.
  - by apply (thaw_rewinds c snap (chan w') Hwf Hs H1).
Qed.

Lemma freeze_holds_queue_witness :
  let c := Channel CHANNEL_MAGIC 1 1 7 2 1 1 2 2 0 0 [sample_msg 1; sample_msg 2] 2 2 0 0 (-1) 0 0 0 0 in
  let s := Sender 5 ([] : list unit) false in
  let w' := chan_run (fun _ => false) (fun t _ => (t, 0))
              (chan_step (fun _ : unit => false) (fun t _ => (t, 0)) (initial c) (Freeze 3)) [Send s (sample_msg 4) 0 false; Recv 9] in
  contents c = [sample_msg 2; sample_msg 1] /\
  contents (fst (fst (chan_thaw_locked (chan w') (ch_saved_head (chan w')) (ch_saved_tail (chan w'))))) = [].
Proof.
  intros c s w'. split; [vm_compute; reflexivity|].
  apply (freeze_holds_queue (fun _ => false) (fun t _ => (t, 0)) (initial c) 3
           [Send s (sample_msg 4) 0 false; Recv 9]).
  - unfold wf_channel, CHAN_CAPACITY_MAX; cbn. split_and!; try done; lia.
  - reflexivity.
  - discriminate.
  - repeat constructor.
Defined.
