(* ===== verification/TxnBuffer.v ===== *)
(** * Transaction buffers and scope (kernel/txn/buffer.c, parts of kernel/txn/transaction.c)

    The messages a transaction holds back are records in the pages of a VMO: a
    32-byte header, the 320 bytes of a [channel_msg_t] and a 4-byte tail mark.  The
    pages are lists of bytes, the copy loops split at page boundaries as in the code,
    and structures are laid out in little-endian byte order.  The scope of a
    transaction is the sorted array of process ids of its snapshot, searched by
    bisection. *)
From stdpp Require Import sorting.
From S2P Require Import Prelude Bytes CapToken CapObject Channel.
Local Open Scope Z_scope.
Local Open Scope c_scope.

Definition TXN_MAX_NESTING : Z := 4.
Abbreviation TXN_MAX_SCOPE_TASKS := 256.
Definition TXN_DEFAULT_BUFFER_BYTES : Z := 4 * 1024 * 1024.
Abbreviation TXN_NAME_MAX_LEN := 31.
Definition TXN_BUFFER_MAGIC_HEAD : Z := 0xBEADF00D.
Definition TXN_BUFFER_MAGIC_TAIL : Z := 0xDEADC0DE.
Abbreviation TXN_FLAG_SELF_SCOPE := 0x1.
Abbreviation TXN_FLAG_GLOBAL_SCOPE := 0x2.
Abbreviation TXN_FLAG_BUFFER_2MB := 0x10.
Abbreviation TXN_FLAG_BUFFER_4MB := 0x20.
Abbreviation TXN_FLAG_BUFFER_8MB := 0x40.
Definition TXN_FLAG_VALID_MASK : Z :=
  TXN_FLAG_SELF_SCOPE |. TXN_FLAG_GLOBAL_SCOPE |. TXN_FLAG_BUFFER_2MB |. TXN_FLAG_BUFFER_4MB |.
  TXN_FLAG_BUFFER_8MB.
Abbreviation TXN_OK := 0.
Definition TXN_EINVAL : Z := -22.
Abbreviation TXN_EPERM := (-1).
Abbreviation TXN_ENOMEM := (-3).
Abbreviation TXN_EBUSY := (-16).
Abbreviation TXN_E2BIG := (-7).
Abbreviation TXN_EALREADY := (-114).
Definition TXN_ETXNREPLAY : Z := -200.
Abbreviation TXN_ENESTED := (-201).
Definition TXN_ENOSPC : Z := -28.
Definition TXN_ENODATA : Z := -61.
Definition VMO_MAX_SIZE : Z := 256 * 1024 * 1024.

Inductive txn_state :=
| TXN_STATE_INVALID | TXN_STATE_ACTIVE | TXN_STATE_COMMITTING | TXN_STATE_COMMITTED
| TXN_STATE_COMMITTING_FAILED | TXN_STATE_ABORTING | TXN_STATE_ABORTED.

#[export] Instance txn_state_eq_dec : EqDecision txn_state.
Proof. solve_decision. Defined.

(** The bytes behind [pages], each of 4096 bytes. *)
Record vmo := Vmo { pages : list (list Z) }.

(** A transaction; [t_parent] is the address of the outer one, 0 for NULL. *)
Record transaction := Transaction {
  t_id : Z; t_flags : Z; t_cap_object_idx : Z; t_creator_pid : Z; t_nesting_depth : Z;
  t_backing_snapshot : option Z; t_parent : Z;
  t_buffer_vmo : option vmo; t_capacity : Z; t_head : Z; t_buffered_count : Z;
  t_scope_pids : list Z; t_scope_pid_count : Z;
  t_state : txn_state; t_replay_cursor : Z; t_replay_delivered : Z; t_replay_failed_chan_id : Z
}.

Record buffered_msg_header := Buffered_msg_header {
  b_magic : Z; b_target_chan_id : Z; b_payload_len : Z; b_flags : Z; b_original_send_seq : Z
}.

Definition header_bytes (h : buffered_msg_header) : list Z :=
  le 4 (b_magic h) ++ le 4 0 ++ le 8 (b_target_chan_id h) ++ le 4 (b_payload_len h) ++
  le 4 (b_flags h) ++ le 8 (b_original_send_seq h).

Definition header_of (l : list Z) : buffered_msg_header :=
  Buffered_msg_header (field l 0 4) (field l 8 8) (field l 16 4) (field l 20 4) (field l 24 8).

Definition msg_bytes (m : channel_msg) : list Z :=
  let h := header m in
  le 8 (m_seq h) ++ le 8 (m_type_hash h) ++ le 4 (m_sender_pid h) ++ le 2 (m_inline_len h) ++
  le 1 (m_nhandles h) ++ le 1 (m_flags h) ++ le 8 (m_timestamp_tsc h) ++
  inline_payload m ++ concat (map (le 4) (in_flight_idx m)).

Definition msg_of (l : list Z) : channel_msg :=
  Channel_msg
    (Msg_header (field l 0 8) (field l 8 8) (field l 16 4) (field l 20 2) (field l 22 1) (field l 23 1)
                (field l 24 8))
    (take 256 (drop 32 l)) (map (fun i => field l (288 + 4 * i) 4) (seq 0 8)).

(** ** The VMO *)

(** A page as [VMO_ZEROED] leaves it. *)
(** Eager, zeroed VMO; [ok] says that every allocation succeeds. *)
Definition vmo_create (ok : bool) (size_bytes : Z) : option vmo :=
  if (size_bytes =? 0) || negb (size_bytes &. 0xFFF =? 0) then None else
  if size_bytes >? VMO_MAX_SIZE then None else
  if negb ok then None else
  Some (Vmo (replicate (Z.to_nat (size_bytes / 4096)) zero_page)).

Definition txn_buffer_page_kv (v : vmo) (page_idx : Z) : option (list Z) := get (pages v) page_idx.

(** The copy loops; each iteration takes at least one byte, so the fuel given, the
    number of bytes, is enough. *)
Fixpoint write_loop (fuel : nat) (v : vmo) (off : Z) (src : list Z) : vmo :=
  match fuel, src with
  | S fuel, _ :: _ =>
      let page_idx := off / 4096 in
      let page_off := off mod 4096 in
      let n := Z.min (Z.of_nat (length src)) (4096 - page_off) in
      match txn_buffer_page_kv v page_idx with
      | None => v
      | Some page =>
          let page := splice page (Z.to_nat page_off) (take (Z.to_nat n) src) in
          write_loop fuel (Vmo (upd (pages v) page_idx page)) (u32 (off + n)) (drop (Z.to_nat n) src)
      end
  | _, _ => v
  end.

Definition txn_buffer_write_bytes (v : vmo) (off : Z) (src : list Z) : vmo := write_loop (length src) v off src.

(** The bytes read before the loop stops. *)
Fixpoint read_loop (fuel : nat) (v : vmo) (off n : Z) : list Z :=
  match fuel with
  | O => []
  | S fuel =>
      if n =? 0 then [] else
      let page_off := off mod 4096 in
      let take_n := Z.min n (4096 - page_off) in
      match txn_buffer_page_kv v (off / 4096) with
      | None => []
      | Some page =>
          take (Z.to_nat take_n) (drop (Z.to_nat page_off) page) ++
          read_loop fuel v (u32 (off + take_n)) (n - take_n)
      end
  end.

(** Reads [n] bytes over the previous content of [dst]. *)
Definition txn_buffer_read_bytes (v : vmo) (off : Z) (dst : list Z) (n : Z) : list Z :=
  let l := read_loop (Z.to_nat n) v off n in l ++ drop (length l) dst.

(** ** Records *)
Definition txn_buffer_lazy_alloc (t : transaction) (vmo_ok : bool) : transaction * Z :=
  if t_buffer_vmo t is Some _ then (t, 0) else
  let cap := if t_capacity t =? 0 then TXN_DEFAULT_BUFFER_BYTES else t_capacity t in
  let cap := if negb (cap &. 0xFFF =? 0) then u32 (cap + 0xFFF) &. Z.lnot 0xFFF else cap in
  match vmo_create vmo_ok cap with
  | None => (t, TXN_ENOMEM)
  | Some v => ({| t with t_buffer_vmo := Some v; t_capacity := cap; t_head := 0 |}, 0)
  end.

Definition ENTRY_SIZE : Z := 32 + 320 + 4.

Definition txn_buffer_append (vmo_ok : bool) (t : transaction) (target_chan_id : Z) (msg : channel_msg) (flags : Z)
    : transaction * Z :=
  let '(t, rc) := txn_buffer_lazy_alloc t vmo_ok in
  if rc <? 0 then (t, rc) else
  match t_buffer_vmo t with
  | None => (t, TXN_EINVAL)
  | Some v =>
      if t_head t + ENTRY_SIZE >? t_capacity t then (t, TXN_ENOSPC) else
      let off := t_head t in
      let hdr := Buffered_msg_header TXN_BUFFER_MAGIC_HEAD target_chan_id 320 flags (t_buffered_count t) in
      let v := txn_buffer_write_bytes v off (header_bytes hdr) in
      let off := u32 (off + 32) in
      let v := txn_buffer_write_bytes v off (msg_bytes msg) in
      let off := u32 (off + 320) in
      let v := txn_buffer_write_bytes v off (le 4 TXN_BUFFER_MAGIC_TAIL) in
      let off := u32 (off + 4) in
      ({| t with t_buffer_vmo := Some v; t_head := off; t_buffered_count := u32 (t_buffered_count t + 1) |}, 0)
  end.

(** [inl rc] is an error return; the uninitialised outputs are zero bytes. *)
Definition txn_buffer_iter_next (t : transaction) (current_offset : Z)
    : Z + (buffered_msg_header * channel_msg * Z) :=
  match t_buffer_vmo t with
  | None => inl TXN_ENODATA
  | Some v =>
      if current_offset >=? t_head t then inl TXN_ENODATA else
      let off := current_offset in
      let hdr := header_of (txn_buffer_read_bytes v off (replicate 32 0) 32) in
      if negb (b_magic hdr =? TXN_BUFFER_MAGIC_HEAD) then inl TXN_EINVAL else
      let off := u32 (off + 32) in
      if b_payload_len hdr >? 320 then inl TXN_EINVAL else
      let payload := msg_of (txn_buffer_read_bytes v off (replicate 320 0) (b_payload_len hdr)) in
      let off := u32 (off + (u32 (b_payload_len hdr + 7) &. Z.lnot 7)) in
      let tail := of_le (txn_buffer_read_bytes v off (le 4 0) 4) in
      if negb (tail =? TXN_BUFFER_MAGIC_TAIL) then inl TXN_EINVAL else
      inr (hdr, payload, u32 (off + 4))
  end.

Definition txn_buffer_free_drop (t : transaction) : transaction :=
  {| t with t_buffer_vmo := None; t_head := 0; t_buffered_count := 0 |}.

(** ** Scope *)

(** The inner loop of [sort_pids_inplace]: shifts, and returns the free place. *)
Fixpoint shift_loop (fuel : nat) (arr : list Z) (key j : Z) : list Z * Z :=
  match fuel with
  | O => (arr, j)
  | S fuel =>
      match get arr j with
      | Some x => if x >? key then shift_loop fuel (upd arr (j + 1) x) key (j - 1) else (arr, j)
      | None => (arr, j)
      end
  end.

Definition insert_step (arr : list Z) (i : Z) : list Z :=
  match get arr i with
  | Some key => let '(arr, j) := shift_loop (Z.to_nat i) arr key (i - 1) in upd arr (j + 1) key
  | None => arr
  end.

Definition sort_pids_inplace (arr : list Z) (n : Z) : list Z :=
  foldl insert_step arr (seqZ 1 (n - 1)).

(** [pids] are the tasks of the snapshot. *)
Definition populate_scope_pids (t : transaction) (pids : list Z) : transaction * Z :=
  let n := Z.of_nat (length pids) in
  if n >? TXN_MAX_SCOPE_TASKS then (t, TXN_E2BIG) else
  ({| t with t_scope_pids := sort_pids_inplace (pids ++ drop (length pids) (t_scope_pids t)) n;
             t_scope_pid_count := n |}, 0).

(** The bisection: whether [peer] is among the first [hi + 1] entries from [lo]. *)
Fixpoint bisect (fuel : nat) (arr : list Z) (peer lo hi : Z) : bool :=
  match fuel with
  | O => false
  | S fuel =>
      if lo <=? hi then
        let mid := lo + Z.shiftr (hi - lo) 1 in
        match get arr mid with
        | None => false
        | Some v =>
            if v =? peer then true
            else if v <? peer then bisect fuel arr peer (mid + 1) hi
            else bisect fuel arr peer lo (mid - 1)
        end
      else false
  end.

(** The holder recorded in the endpoint behind a capability slot, -1 if none;
    [endpoints] are the [chan_endpoint_t] by address. *)
Definition endpoint_holder (s : registry) (endpoints : gmap Z Z) (idx : Z) : Z :=
  match cap_object_get s idx with
  | Some o =>
      if (kind o =? CAP_KIND_CHANNEL) && negb (kind_data o =? 0) then default (-1) (endpoints !! kind_data o) else -1
  | None => -1
  end.

Definition txn_is_external_peer (s : registry) (endpoints : gmap Z Z) (c : channel) (t : transaction) (sender_id : Z)
    : bool :=
  let rd_holder := endpoint_holder s endpoints (ch_read_cap_idx c) in
  let wr_holder := endpoint_holder s endpoints (ch_write_cap_idx c) in
  let scan (peer_pid : Z) :=
    if peer_pid <? 0 then true else
    if peer_pid =? sender_id then false else
    if t_scope_pid_count t =? 0 then true else
    negb (bisect (Z.to_nat (t_scope_pid_count t)) (t_scope_pids t) peer_pid 0 (t_scope_pid_count t - 1)) in
  if rd_holder =? sender_id then scan wr_holder
  else if wr_holder =? sender_id then scan rd_holder
  else true.

Definition txn_buffer_bytes_for_flags (flags : Z) : Z :=
  if has_flag flags TXN_FLAG_BUFFER_2MB then 2 * 1024 * 1024 else
  if has_flag flags TXN_FLAG_BUFFER_8MB then 8 * 1024 * 1024 else TXN_DEFAULT_BUFFER_BYTES.

(** ** The pages as one flat array *)
Definition flat (v : vmo) : list Z := concat (pages v).

Definition wf_vmo (v : vmo) (npages : nat) : Prop :=
  length (pages v) = npages /\ Forall (fun p => length p = 4096%nat) (pages v).

Lemma length_concat_pages (l : list (list Z)) :
  Forall (fun p => length p = 4096%nat) l -> length (concat l) = (4096 * length l)%nat.
Proof. induction 1 as [|p l Hp _ IH]; [done|]. cbn [concat length]. rewrite length_app. lia. Qed.

Lemma length_flat v n : wf_vmo v n -> length (flat v) = (4096 * n)%nat.
Proof. intros [<- Hv]. by apply length_concat_pages. Qed.

(** Page [i] inside the flat array. *)
Lemma page_split v n i page :
  wf_vmo v n -> txn_buffer_page_kv v i = Some page ->
  0 <= i /\ length page = 4096%nat /\ exists l1 l2, pages v = l1 ++ page :: l2 /\ Z.of_nat (length l1) = i.
Proof.
  intros [Hl Hv] Hp. pose proof (get_Some_bound _ _ _ Hp) as Hb. unfold txn_buffer_page_kv, get in Hp.
  destruct (Z.ltb_spec i 0); [lia|]. split; [lia|]. split; [by eapply Forall_lookup_1 in Hp; [|exact Hv]|].
  apply list_elem_of_split_length in Hp as (l1 & l2 & -> & Hi). exists l1, l2. split; [done|]. lia.
Qed.

Lemma page_flat v n i page off src :
  wf_vmo v n -> txn_buffer_page_kv v i = Some page -> 0 <= off ->
  off + Z.of_nat (length src) <= 4096 ->
  let v' := Vmo (upd (pages v) i (splice page (Z.to_nat off) src)) in
  wf_vmo v' n /\ flat v' = splice (flat v) (Z.to_nat (4096 * i + off)) src.
Proof.
  intros Hv Hp Ho Hs. destruct (page_split _ _ _ _ Hv Hp) as (Hi & Hlp & l1 & l2 & E & Hl1).
  destruct Hv as [Hl Hv]. unfold wf_vmo, flat; cbn. unfold upd.
  replace (Z.to_nat i) with (length l1) by lia. rewrite E, insert_app_r_alt, Nat.sub_diag by lia. cbn.
  rewrite E in Hl, Hv. apply Forall_app in Hv as [Hv1 [_ Hv2]%Forall_cons].
  assert (length (splice page (Z.to_nat off) src) = 4096%nat) by (rewrite length_splice; lia).
  split.
  - split; [by rewrite <- Hl, !length_app|]. apply Forall_app; split; [done|]. by constructor.
  - rewrite !concat_app. cbn. rewrite <- splice_app_mid by lia. f_equal.
    rewrite length_concat_pages by done. lia.
Qed.

Lemma write_loop_step fuel v off s :
  s <> [] ->
  write_loop (S fuel) v off s =
    match txn_buffer_page_kv v (off / 4096) with
    | None => v
    | Some page =>
        let k := Z.min (Z.of_nat (length s)) (4096 - off mod 4096) in
        write_loop fuel (Vmo (upd (pages v) (off / 4096)
          (splice page (Z.to_nat (off mod 4096)) (take (Z.to_nat k) s)))) (u32 (off + k)) (drop (Z.to_nat k) s)
    end.
Proof. by destruct s. Qed.

(** Writing through the pages is writing into the flat array. *)
Lemma write_loop_flat fuel : forall v n off src,
  wf_vmo v n -> 0 <= off -> off + Z.of_nat (length src) <= 4096 * Z.of_nat n ->
  4096 * Z.of_nat n < 2 ^ 32 -> (length src <= fuel)%nat ->
  wf_vmo (write_loop fuel v off src) n /\
  flat (write_loop fuel v off src) = splice (flat v) (Z.to_nat off) src.
Proof.
  induction fuel as [|fuel IH]; intros v n off src Hv Ho Hb Hn Hf.
  { destruct src; [|cbn in Hf; lia]. by rewrite splice_nil. }
  destruct (decide (src = [])) as [->|Hne]; [by rewrite splice_nil|].
  rewrite write_loop_step by done. rename src into s.
  assert (0 < length s)%nat by (destruct s; [done|cbn; lia]).
  pose proof (Z.div_mod off 4096 ltac:(lia)). pose proof (Z.mod_pos_bound off 4096 ltac:(lia)).
  destruct (get_bound_Some (pages v) (off / 4096)) as [page Hp]; [destruct Hv as [-> _]; nia|].
  change (get (pages v) (off / 4096)) with (txn_buffer_page_kv v (off / 4096)) in Hp. rewrite Hp.
  set (k := Z.min (Z.of_nat (length s)) (4096 - off mod 4096)). cbv zeta.
  assert (0 < k <= Z.of_nat (length s)) as Hk by lia.
  assert (length (take (Z.to_nat k) s) = Z.to_nat k) as Hlt by (rewrite length_take; lia).
  destruct (page_flat v n (off / 4096) page (off mod 4096) (take (Z.to_nat k) s) Hv Hp) as [Hv' E]; [lia | lia|].
  assert (u32 (off + k) = off + k) as -> by (apply wrap_small; unfold in_u; lia).
  destruct (IH _ n (off + k) (drop (Z.to_nat k) s) Hv') as [Hw Hfl]; rewrite ?length_drop; try lia.
  split; [done|]. rewrite Hfl, E. replace (4096 * (off / 4096) + off mod 4096) with off by lia.
  replace (Z.to_nat (off + k)) with (Z.to_nat off + length (take (Z.to_nat k) s))%nat by lia.
  rewrite splice_splice, take_drop; [done|]. rewrite (length_flat _ _ Hv), length_drop. lia.
Qed.

Lemma write_bytes_flat v n off src :
  wf_vmo v n -> 0 <= off -> off + Z.of_nat (length src) <= 4096 * Z.of_nat n -> 4096 * Z.of_nat n < 2 ^ 32 ->
  wf_vmo (txn_buffer_write_bytes v off src) n /\
  flat (txn_buffer_write_bytes v off src) = splice (flat v) (Z.to_nat off) src.
Proof. intros. by apply write_loop_flat. Qed.

Lemma page_read v n i page off k :
  wf_vmo v n -> txn_buffer_page_kv v i = Some page -> 0 <= off -> off + Z.of_nat k <= 4096 ->
  take k (drop (Z.to_nat off) page) = take k (drop (Z.to_nat (4096 * i + off)) (flat v)).
Proof.
  intros Hv Hp Ho Hk. destruct (page_split _ _ _ _ Hv Hp) as (Hi & Hlp & l1 & l2 & E & Hl1).
  destruct Hv as [_ Hv]. rewrite E in Hv. apply Forall_app in Hv as [Hv1 _].
  unfold flat. rewrite E, concat_app. cbn.
  replace (Z.to_nat (4096 * i + off)) with (length (concat l1) + Z.to_nat off)%nat
    by (rewrite length_concat_pages by done; lia).
  rewrite drop_app_add, drop_app_le, take_app_le by (rewrite ?length_drop; lia). done.
Qed.

Lemma read_loop_flat fuel : forall v n off k,
  wf_vmo v n -> 0 <= off -> 0 <= k -> off + k <= 4096 * Z.of_nat n -> 4096 * Z.of_nat n < 2 ^ 32 ->
  (Z.to_nat k <= fuel)%nat ->
  read_loop fuel v off k = take (Z.to_nat k) (drop (Z.to_nat off) (flat v)).
Proof.
  induction fuel as [|fuel IH]; intros v n off k Hv Ho Hk Hb Hn Hf; cbn [read_loop].
  { by replace (Z.to_nat k) with 0%nat by lia. }
  destruct (Z.eqb_spec k 0) as [->|Hk0]; [done|].
  pose proof (Z.div_mod off 4096 ltac:(lia)). pose proof (Z.mod_pos_bound off 4096 ltac:(lia)).
  destruct (get_bound_Some (pages v) (off / 4096)) as [page Hp]; [destruct Hv as [-> _]; nia|].
  change (get (pages v) (off / 4096)) with (txn_buffer_page_kv v (off / 4096)) in Hp. rewrite Hp.
  set (j := Z.min k (4096 - off mod 4096)). assert (0 < j <= k) by lia.
  assert (u32 (off + j) = off + j) as -> by (apply wrap_small; unfold in_u; lia).
  rewrite (IH v n) by (try done; lia).
  rewrite (page_read v n (off / 4096)) by (try done; lia).
  replace (4096 * (off / 4096) + off mod 4096) with off by lia.
  replace (drop (Z.to_nat (off + j)) (flat v)) with (drop (Z.to_nat j) (drop (Z.to_nat off) (flat v)))
    by (rewrite drop_drop; f_equal; lia).
  replace (Z.to_nat k) with (Z.to_nat j + Z.to_nat (k - j))%nat by lia.
  generalize (drop (Z.to_nat off) (flat v)) as l. intros l. by rewrite <- take_take_drop.
Qed.

Lemma read_bytes_flat v n off dst :
  wf_vmo v n -> 0 <= off -> off + Z.of_nat (length dst) <= 4096 * Z.of_nat n -> 4096 * Z.of_nat n < 2 ^ 32 ->
  txn_buffer_read_bytes v off dst (Z.of_nat (length dst)) = take (length dst) (drop (Z.to_nat off) (flat v)).
Proof.
  intros Hv Ho Hb Hn. unfold txn_buffer_read_bytes. rewrite (read_loop_flat _ v n) by (try done; lia).
  rewrite Nat2Z.id, (drop_ge dst), app_nil_r; [done|].
  rewrite length_take, length_drop, (length_flat _ _ Hv). lia.
Qed.

(** ** Layout round trips *)
Definition wf_header (h : buffered_msg_header) : Prop :=
  in_u 32 (b_magic h) /\ in_u 64 (b_target_chan_id h) /\ in_u 32 (b_payload_len h) /\ in_u 32 (b_flags h) /\
  in_u 64 (b_original_send_seq h).

Lemma header_of_bytes h : wf_header h -> header_of (header_bytes h) = h.
Proof.
  destruct h as [a b c d e]. intros (Ha & Hb & Hc & Hd & He); cbn in *.
  unfold header_of, field, header_bytes; cbn [b_magic b_target_chan_id b_payload_len b_flags b_original_send_seq].
  f_equal; [apply (of_le_le 4 a) | apply (of_le_le 8 b) | apply (of_le_le 4 c) | apply (of_le_le 4 d) |
            apply (of_le_le 8 e)]; done.
Qed.

Definition wf_msg (m : channel_msg) : Prop :=
  let h := header m in
  in_u 64 (m_seq h) /\ in_u 64 (m_type_hash h) /\ in_u 32 (m_sender_pid h) /\ in_u 16 (m_inline_len h) /\
  in_u 8 (m_nhandles h) /\ in_u 8 (m_flags h) /\ in_u 64 (m_timestamp_tsc h) /\
  length (inline_payload m) = 256%nat /\ length (in_flight_idx m) = 8%nat /\ Forall (in_u 32) (in_flight_idx m).

Lemma length_msg_bytes m : wf_msg m -> length (msg_bytes m) = 320%nat.
Proof.
  intros (_ & _ & _ & _ & _ & _ & _ & Hp & Hf & _). unfold msg_bytes.
  rewrite !length_app, !length_le, length_concat_le. lia.
Qed.

(** The handle words behind 288 bytes of header and payload. *)
Lemma handles_of_bytes (front : list Z) (l : list Z) :
  length front = 288%nat -> length l = 8%nat -> Forall (in_u 32) l ->
  map (fun i => field (front ++ concat (map (le 4) l)) (288 + 4 * i) 4) (seq 0 8) = l.
Proof.
  intros Hf Hl Hu. do 8 (destruct l as [|? l]; [done|]). destruct l; [|done].
  repeat match goal with H : Forall _ (_ :: _) |- _ => apply Forall_cons in H as [? H] end.
  unfold field. erewrite map_ext by (intros i; rewrite <- Hf, drop_app_add; reflexivity).
  cbn [seq map]. repeat f_equal; by apply (of_le_le 4).
Qed.

Lemma msg_of_bytes m : wf_msg m -> msg_of (msg_bytes m) = m.
Proof.
  destruct m as [[sq ty pid il nh fl ts] pay fi].
  intros (H1 & H2 & H3 & H4 & H5 & H6 & H7 & Hp & Hf & Hu); cbn in H1, H2, H3, H4, H5, H6, H7, Hp, Hf, Hu.
  unfold msg_of, msg_bytes; cbn [header inline_payload in_flight_idx m_seq m_type_hash m_sender_pid m_inline_len
    m_nhandles m_flags m_timestamp_tsc].
  f_equal; [f_equal | |].
  1-7: unfold field; cbn [le seq map app drop take].
  - by apply (of_le_le 8 sq).
  - by apply (of_le_le 8 ty).
  - by apply (of_le_le 4 pid).
  - by apply (of_le_le 2 il).
  - by apply (of_le_le 1 nh).
  - by apply (of_le_le 1 fl).
  - by apply (of_le_le 8 ts).
  - change (take 256 (pay ++ concat (map (le 4) fi)) = pay). by rewrite take_app_length' by done.
  - rewrite !app_assoc. rewrite handles_of_bytes; [done| |done|done].
    rewrite !length_app, !length_le, Hp. done.
Qed.

(** ** The records of a transaction *)

(** A held-back send: channel, message, flags. *)
Abbreviation entry := (Z * channel_msg * Z)%type.

Definition entry_header (i : nat) (e : entry) : buffered_msg_header :=
  Buffered_msg_header TXN_BUFFER_MAGIC_HEAD (fst (fst e)) 320 (snd e) (Z.of_nat i).

Definition entry_bytes (i : nat) (e : entry) : list Z :=
  header_bytes (entry_header i e) ++ msg_bytes (snd (fst e)) ++ le 4 TXN_BUFFER_MAGIC_TAIL.

Definition wf_entry (e : entry) : Prop :=
  in_u 64 (fst (fst e)) /\ wf_msg (snd (fst e)) /\ in_u 32 (snd e).

(** Transaction [t] has [cap] bytes of buffer holding exactly [es]. *)
Definition buffers (t : transaction) (cap : Z) (es : list entry) : Prop :=
  t_head t = ENTRY_SIZE * Z.of_nat (length es) /\ t_buffered_count t = Z.of_nat (length es) /\
  t_head t <= cap /\ 0 < cap <= VMO_MAX_SIZE /\ cap mod 4096 = 0 /\ Forall wf_entry es /\
  match t_buffer_vmo t with
  | None => es = [] /\ t_capacity t = cap
  | Some v => t_capacity t = cap /\ wf_vmo v (Z.to_nat (cap / 4096)) /\
              take (Z.to_nat (t_head t)) (flat v) = concat (imap entry_bytes es)
  end.

Lemma length_entry_bytes i e : wf_entry e -> length (entry_bytes i e) = 356%nat.
Proof. intros (_ & Hm & _). unfold entry_bytes. by rewrite !length_app, length_msg_bytes, length_le. Qed.

Lemma length_entries es : forall (f : nat -> nat),
  Forall wf_entry es -> length (concat (imap (fun i => entry_bytes (f i)) es)) = (356 * length es)%nat.
Proof.
  intros f H. revert f. induction H as [|e es He _ IH]; intros f; [done|]. rewrite imap_cons. cbn [concat length].
  rewrite length_app, length_entry_bytes by done. unfold compose. rewrite (IH (fun i => f (S i))). lia.
Qed.

Lemma cap_pages cap : cap mod 4096 = 0 -> 0 < cap -> 4096 * Z.of_nat (Z.to_nat (cap / 4096)) = cap.
Proof. intros Hm Hc. pose proof (Z.div_mod cap 4096). rewrite Z2Nat.id; [lia|]. apply Z.div_pos; lia. Qed.

(** Three consecutive writes write their concatenation. *)
Lemma write_three v n off (a b c : list Z) :
  wf_vmo v n -> 0 <= off -> off + Z.of_nat (length (a ++ b ++ c)) <= 4096 * Z.of_nat n ->
  4096 * Z.of_nat n < 2 ^ 32 ->
  let v3 := txn_buffer_write_bytes
              (txn_buffer_write_bytes (txn_buffer_write_bytes v off a) (off + Z.of_nat (length a)) b)
              (off + Z.of_nat (length a) + Z.of_nat (length b)) c in
  wf_vmo v3 n /\ flat v3 = splice (flat v) (Z.to_nat off) (a ++ b ++ c).
Proof.
  intros Hv Ho Hb Hn v3. rewrite !length_app in Hb. pose proof (length_flat _ _ Hv) as Hlf.
  destruct (write_bytes_flat v n off a) as [Hv1 E1]; [done | lia | lia | done|].
  destruct (write_bytes_flat _ n (off + Z.of_nat (length a)) b Hv1) as [Hv2 E2]; [lia | lia | done|].
  destruct (write_bytes_flat _ n (off + Z.of_nat (length a) + Z.of_nat (length b)) c Hv2) as [Hv3 E3];
    [lia | lia | done|].
  split; [done|]. unfold v3. rewrite E3, E2, E1.
  replace (Z.to_nat (off + Z.of_nat (length a) + Z.of_nat (length b)))
    with (Z.to_nat off + length (a ++ b))%nat by (rewrite length_app; lia).
  replace (Z.to_nat (off + Z.of_nat (length a))) with (Z.to_nat off + length a)%nat by lia.
  rewrite splice_splice by lia. rewrite splice_splice by (rewrite length_app; lia). by rewrite app_assoc.
Qed.

Lemma land_FFF x : x &. 0xFFF = x mod 4096.
Proof. apply (Z.land_ones x 12). lia. Qed.

Lemma zeroed_wf n : wf_vmo (Vmo (replicate n zero_page)) n.
Proof. split; [apply length_replicate|]. apply Forall_replicate, length_replicate. Qed.

Lemma lazy_alloc_spec t cap es :
  buffers t cap es ->
  exists v, txn_buffer_lazy_alloc t true = ({| t with t_buffer_vmo := Some v; t_capacity := cap |}, 0) /\
            buffers {| t with t_buffer_vmo := Some v; t_capacity := cap |} cap es.
Proof.
  intros Hb. pose proof Hb as (Hh & Hc & Hle & Hcap & Hmod & Hwf & Hv). unfold txn_buffer_lazy_alloc.
  destruct (t_buffer_vmo t) as [v|] eqn:Ev.
  - exists v. destruct Hv as (Hv0 & Hv). split; [|unfold buffers; cbn; tauto].
    f_equal. destruct t; cbn in *. by subst.
  - destruct Hv as [-> ->]. cbn in Hh. destruct (Z.eqb_spec cap 0); [lia|].
    rewrite land_FFF, Hmod; cbn. unfold vmo_create. rewrite land_FFF, Hmod.
    destruct (Z.eqb_spec cap 0), (cap >? VMO_MAX_SIZE) eqn:E; try lia; cbn.
    pose proof (zeroed_wf (Z.to_nat (cap / 4096))) as Hz. revert Hz.
    generalize (Vmo (replicate (Z.to_nat (cap / 4096)) zero_page)) as v. intros v Hz.
    rewrite Z.mul_0_r in Hh. exists v. split; [f_equal; congruence|].
    unfold buffers; cbn. rewrite Hh. by split_and!; try lia.
Qed.

#[global] Arguments txn_buffer_write_bytes : simpl never.
#[global] Arguments txn_buffer_read_bytes : simpl never.
#[global] Arguments header_bytes : simpl never.
#[global] Arguments msg_bytes : simpl never.
#[global] Arguments le : simpl never.

(** Appending: the record goes behind the others, or nothing changes and -ENOSPC. *)
Lemma append_spec t cap es e :
  buffers t cap es -> wf_entry e ->
  let '(t', rc) := txn_buffer_append true t (fst (fst e)) (snd (fst e)) (snd e) in
  if ENTRY_SIZE * Z.of_nat (S (length es)) <=? cap
  then rc = 0 /\ buffers t' cap (es ++ [e]) else rc = TXN_ENOSPC /\ buffers t' cap es.
Proof.
  intros Hb He. destruct (lazy_alloc_spec t cap es Hb) as (v & E & Hb'). unfold txn_buffer_append. rewrite E. cbn.
  pose proof Hb' as (Hh & Hc & Hle & Hcap & Hmod & Hwf & _ & Hv & Hfl); cbn in Hh, Hc, Hle, Hfl.
  unfold ENTRY_SIZE, VMO_MAX_SIZE in *.
  destruct (Z.leb_spec ((32 + 320 + 4) * Z.of_nat (S (length es))) cap) as [Hr|Hr];
    (destruct (t_head t + (32 + 320 + 4) >? cap) eqn:Ec; [try lia; done | try lia]).
  pose proof He as (Hcid & Hm & Hf). split; [done|].
  pose proof (cap_pages cap Hmod ltac:(lia)) as Hpg.
  rewrite !u32_small by lia.
  pose proof (write_three v _ (t_head t) (header_bytes (entry_header (length es) e)) (msg_bytes (snd (fst e)))
                (le 4 TXN_BUFFER_MAGIC_TAIL) Hv) as W; cbv zeta in W.
  rewrite !length_app, length_msg_bytes, length_le in W by done.
  change (length (header_bytes (entry_header (length es) e))) with 32%nat in W.
  change (Z.of_nat 32) with 32 in W. change (Z.of_nat 320) with 320 in W.
  unfold entry_header in W. rewrite <- Hc in W. destruct W as [Hv3 E3]; [lia | lia | lia|].
  assert (length (entry_bytes (length es) e) = 356%nat) as Hle3 by by apply length_entry_bytes.
  unfold buffers, ENTRY_SIZE, VMO_MAX_SIZE; cbn. rewrite length_app. cbn [length]. split_and!; try done; try lia.
  - apply Forall_app; split; [done|]. by apply Forall_singleton.
  - rewrite imap_app, concat_app. cbn. rewrite app_nil_r, Nat.add_0_r, <- Hfl, E3.
    replace (Z.to_nat (t_head t + 32 + 320 + 4))
      with (Z.to_nat (t_head t) + length (entry_bytes (length es) e))%nat by lia.
    rewrite <- take_splice by (rewrite (length_flat _ _ Hv); lia).
    unfold entry_bytes, entry_header. by rewrite Hc.
Qed.

(** The bytes of record [i] in the flat array. *)
Lemma entry_at t cap es i e v o k :
  buffers t cap es -> t_buffer_vmo t = Some v -> es !! i = Some e -> (o + k <= 356)%nat ->
  take k (drop (356 * i + o) (flat v)) = take k (drop o (entry_bytes i e)).
Proof.
  intros (Hh & _ & _ & _ & _ & Hwf & Hv) Ev Hi Hk. rewrite Ev in Hv. destruct Hv as (_ & _ & Hfl).
  rewrite <- (take_drop (Z.to_nat (t_head t)) (flat v)), Hfl.
  pose proof (lookup_lt_Some _ _ _ Hi) as Hlt.
  rewrite <- (take_drop_middle _ _ _ Hi) in Hwf |- *.
  apply Forall_app in Hwf as [Hw1 [He Hw2]%Forall_cons].
  rewrite imap_app, imap_cons, concat_app. cbn [concat].
  pose proof (length_entries (take i es) (fun x => x) Hw1) as HA. cbn beta in HA.
  assert (length (take i es) = i) as Hti by (rewrite length_take; lia). rewrite Hti in *.
  rewrite <- !app_assoc. rewrite <- HA, drop_app_add. rewrite Nat.add_0_r.
  rewrite drop_app_le, take_app_le by (rewrite ?length_drop, ?length_entry_bytes by done; lia). done.
Qed.

Lemma iter_next_spec t cap es i e :
  buffers t cap es -> es !! i = Some e ->
  txn_buffer_iter_next t (ENTRY_SIZE * Z.of_nat i) =
    inr (entry_header i e, snd (fst e), ENTRY_SIZE * Z.of_nat (S i)).
Proof.
  intros Hb Hi. pose proof Hb as (Hh & Hc & Hle & Hcap & Hmod & Hwf & Hv). pose proof (lookup_lt_Some _ _ _ Hi) as Hlt.
  pose proof (Forall_lookup_1 _ _ _ _ Hwf Hi) as He. pose proof He as (Hcid & Hm & Hf).
  unfold txn_buffer_iter_next. destruct (t_buffer_vmo t) as [v|] eqn:Ev; [|destruct Hv as [-> _]; done].
  destruct Hv as (Hcp & Hv & _). pose proof (cap_pages cap Hmod ltac:(lia)) as Hpg.
  unfold ENTRY_SIZE, VMO_MAX_SIZE in *. destruct (_ >=? _) eqn:Ege; [lia|]. clear Ege.
  assert (forall o dst, (o + length dst <= 356)%nat ->
            txn_buffer_read_bytes v ((32 + 320 + 4) * Z.of_nat i + Z.of_nat o) dst (Z.of_nat (length dst)) =
            take (length dst) (drop o (entry_bytes i e))) as Hread.
  { intros o dst Ho. rewrite (read_bytes_flat v _ _ dst Hv) by lia.
    rewrite <- (entry_at t cap es i e v o) by done. do 2 f_equal. lia. }
  assert (wf_header (entry_header i e)) as Hwh.
  { unfold wf_header, entry_header, in_u, TXN_BUFFER_MAGIC_HEAD; cbn. unfold in_u in *. lia. }
  pose proof (Hread 0%nat (replicate 32 0) ltac:(cbn; lia)) as R1.
  pose proof (Hread 32%nat (replicate 320 0) ltac:(cbn; lia)) as R2.
  pose proof (Hread 352%nat (le 4 0) ltac:(rewrite length_le; lia)) as R3.
  rewrite (u32_small ((32 + 320 + 4) * Z.of_nat i + 32)) by lia.
  rewrite Z.add_0_r in R1. change (Z.of_nat (length (replicate 32 0))) with 32 in R1. rewrite R1.
  change (take _ (drop 0 (entry_bytes i e))) with (header_bytes (entry_header i e)).
  rewrite header_of_bytes by done. cbn [entry_header b_magic b_payload_len]. rewrite Z.eqb_refl. cbn [negb].
  change (320 >? 320) with false. cbn match.
  change (Z.of_nat 32) with 32 in R2. change (Z.of_nat (length (replicate 320 0))) with 320 in R2. rewrite R2.
  change (u32 (320 + 7) &. Z.lnot 7) with 320. rewrite !u32_small by lia.
  replace ((32 + 320 + 4) * Z.of_nat i + 32 + 320) with ((32 + 320 + 4) * Z.of_nat i + Z.of_nat 352) by lia.
  change (Z.of_nat (length (le 4 0))) with 4 in R3. rewrite R3.
  assert (drop 32 (entry_bytes i e) = msg_bytes (snd (fst e)) ++ le 4 TXN_BUFFER_MAGIC_TAIL) as D32 by done.
  assert (drop 352 (entry_bytes i e) = le 4 TXN_BUFFER_MAGIC_TAIL) as D352.
  { change 352%nat with (32 + 320)%nat. by rewrite <- drop_drop, D32, drop_app_length' by by rewrite length_msg_bytes. }
  rewrite D32, D352, take_app_length' by (rewrite length_msg_bytes by done; done).
  rewrite msg_of_bytes by done. change (of_le _) with TXN_BUFFER_MAGIC_TAIL. rewrite Z.eqb_refl. cbn [negb].
  do 2 f_equal. lia.
Qed.

Lemma iter_next_end t cap es :
  buffers t cap es -> txn_buffer_iter_next t (ENTRY_SIZE * Z.of_nat (length es)) = inl TXN_ENODATA.
Proof.
  intros (Hh & _). unfold txn_buffer_iter_next. destruct (t_buffer_vmo t); [|done].
  rewrite Hh. by destruct (_ >=? _) eqn:E; [|lia].
Qed.

(** A run of appends that stops at the first error, and a walk over all records. *)
Fixpoint append_all (t : transaction) (es : list entry) : transaction * Z :=
  match es with
  | [] => (t, 0)
  | (cid, msg, fl) :: es =>
      let '(t, rc) := txn_buffer_append true t cid msg fl in
      if rc <? 0 then (t, rc) else append_all t es
  end.

Fixpoint read_all (fuel : nat) (t : transaction) (off : Z) : list (buffered_msg_header * channel_msg) * Z :=
  match fuel with
  | O => ([], 0)
  | S fuel =>
      match txn_buffer_iter_next t off with
      | inl rc => ([], rc)
      | inr (hdr, msg, next) => let '(l, rc) := read_all fuel t next in ((hdr, msg) :: l, rc)
      end
  end.

Definition room (cap : Z) : nat := Z.to_nat (cap / ENTRY_SIZE).

Lemma room_le cap n : 0 < cap -> (ENTRY_SIZE * Z.of_nat n <=? cap) = bool_decide (n <= room cap)%nat.
Proof.
  intros Hc. unfold room, ENTRY_SIZE. pose proof (Z.div_mod cap (32 + 320 + 4) ltac:(lia)).
  pose proof (Z.mod_pos_bound cap (32 + 320 + 4) ltac:(lia)).
  assert (0 <= cap / (32 + 320 + 4)) by (apply Z.div_pos; lia).
  destruct (bool_decide_reflect (n <= Z.to_nat (cap / (32 + 320 + 4)))%nat); nia.
Qed.

Lemma append_all_spec es : forall t cap done,
  buffers t cap done -> Forall wf_entry es -> (length done <= room cap)%nat ->
  let '(t', rc) := append_all t es in
  rc = (if bool_decide (length (done ++ es) <= room cap)%nat then 0 else TXN_ENOSPC) /\
  buffers t' cap (take (room cap) (done ++ es)).
Proof.
  induction es as [|[[cid msg] fl] es IH]; intros t cap done Hb Hes Hd.
  { cbn. rewrite app_nil_r, take_ge by done. by rewrite bool_decide_true. }
  apply Forall_cons in Hes as [He Hes]. cbn [append_all].
  pose proof (append_spec t cap done (cid, msg, fl) Hb He) as Ha; cbn [fst snd] in Ha.
  destruct (txn_buffer_append true t cid msg fl) as [t1 rc].
  assert (0 < cap) by (destruct Hb as (_ & _ & _ & ? & _); lia). rewrite room_le in Ha by done.
  destruct (bool_decide_reflect (S (length done) <= room cap)%nat) as [Hr|Hr]; destruct Ha as [-> Hb1].
  - change (0 <? 0) with false. cbv iota.
    specialize (IH t1 cap (done ++ [(cid, msg, fl)]) Hb1 Hes ltac:(rewrite length_app; cbn; lia)).
    destruct (append_all t1 es) as [t2 rc2]. by rewrite <- app_assoc in IH.
  - change (TXN_ENOSPC <? 0) with true. cbv iota.
    rewrite bool_decide_false by (rewrite length_app; cbn; lia). split; [done|].
    rewrite take_app_le, take_ge by lia. done.
Qed.

Lemma read_all_spec t cap es n : forall i,
  buffers t cap es -> (i + n = length es)%nat ->
  read_all (S n) t (ENTRY_SIZE * Z.of_nat i) =
    (imap (fun j e => (entry_header (i + j) e, snd (fst e))) (drop i es), TXN_ENODATA).
Proof.
  induction n as [|n IH]; intros i Hb Hi; cbn [read_all].
  { replace i with (length es) by lia. by rewrite (iter_next_end _ _ _ Hb), drop_all. }
  destruct (lookup_lt_is_Some_2 es i) as [e He]; [lia|].
  rewrite (iter_next_spec _ _ _ _ _ Hb He). cbn [read_all] in IH. rewrite IH by (try done; lia).
  rewrite (drop_S _ _ _ He), imap_cons, Nat.add_0_r. do 2 f_equal. apply imap_ext. intros j x _. cbn.
  by rewrite Nat.add_succ_r.
Qed.

(** ** Sorting and bisection *)
Lemma shift_loop_spec p : forall fuel x s key,
  StronglySorted Z.le p -> (length p <= fuel)%nat ->
  exists p1 p2 y, shift_loop fuel (p ++ x :: s) key (Z.of_nat (length p) - 1) =
      (p1 ++ y :: p2 ++ s, Z.of_nat (length p1) - 1) /\
    p = p1 ++ p2 /\ Forall (fun z => z <= key) p1 /\ Forall (fun z => key < z) p2.
Proof.
  induction p as [|z p IH] using rev_ind; intros fuel x s key Hs Hf.
  { exists [], [], x. by destruct fuel. }
  rewrite length_app in Hf; cbn in Hf. destruct fuel as [|fuel]; [lia|]. cbn [shift_loop].
  rewrite length_app, <- app_assoc. cbn [app length].
  replace (Z.of_nat (length p + 1) - 1) with (Z.of_nat (length p)) by lia. rewrite get_app_at by done.
  destruct (z >? key) eqn:Ez.
  - rewrite (app_assoc p [z] (x :: s) : p ++ z :: x :: s = (p ++ [z]) ++ x :: s).
    rewrite upd_app_at by (rewrite length_app; cbn; lia). rewrite <- app_assoc; cbn [app].
    destruct (IH fuel z (z :: s) key) as (p1 & p2 & y & -> & -> & H1 & H2);
      [by apply StronglySorted_app_1_l in Hs | lia|].
    exists p1, (p2 ++ [z]), y. rewrite <- !app_assoc. split_and!; try done.
    apply Forall_app; split; [done|]. apply Forall_singleton. lia.
  - exists (p ++ [z]), [], x. rewrite length_app, app_nil_r, <- app_assoc. cbn [app length].
    split_and!; try done; [do 2 f_equal; lia|]. apply Forall_app; split; [|apply Forall_singleton; lia].
    apply Forall_forall. intros a Ha.
    assert (a <= z) by (eapply StronglySorted_app_1_elem_of; [exact Hs | done | by apply list_elem_of_singleton]). lia.
Qed.

Lemma insert_step_spec q key r :
  StronglySorted Z.le q ->
  exists q', insert_step (q ++ key :: r) (Z.of_nat (length q)) = q' ++ r /\
             StronglySorted Z.le q' /\ q' ≡ₚ q ++ [key].
Proof.
  intros Hq. unfold insert_step. rewrite get_app_at by done.
  destruct (shift_loop_spec q (length q) key r key Hq) as (p1 & p2 & y & E & -> & H1 & H2); [done|].
  rewrite Nat2Z.id, E, upd_app_at by lia. exists (p1 ++ key :: p2). split_and!.
  - by rewrite <- app_assoc.
  - apply StronglySorted_app in Hq as (Hc & Hq1 & Hq2). rewrite Forall_forall in H1, H2.
    apply StronglySorted_app_2; [|done|].
    + intros a b Ha [->|Hb]%elem_of_cons; [by apply H1|]. by apply Hc.
    + constructor; [done|]. apply Forall_forall. intros b Hb. apply H2 in Hb. lia.
  - rewrite <- app_assoc. by rewrite (Permutation_app_comm p2 [key]).
Qed.

Lemma sort_from_spec todo : forall q rest,
  StronglySorted Z.le q ->
  exists q', foldl insert_step (q ++ todo ++ rest) (seqZ (Z.of_nat (length q)) (Z.of_nat (length todo))) = q' ++ rest /\
             StronglySorted Z.le q' /\ q' ≡ₚ q ++ todo.
Proof.
  induction todo as [|key todo IH]; intros q rest Hq; cbn [app].
  { exists q. by rewrite app_nil_r. }
  rewrite seqZ_cons by (cbn; lia). cbn [foldl].
  destruct (insert_step_spec q key (todo ++ rest) Hq) as (q1 & E & Hs1 & Hp1). rewrite E.
  destruct (IH q1 rest Hs1) as (q2 & E2 & Hs2 & Hp2). exists q2. split_and!; [|done|].
  - rewrite <- E2. do 2 f_equal; [|cbn; lia]. rewrite Hp1, length_app. cbn. lia.
  - rewrite Hp2, Hp1, <- app_assoc. done.
Qed.

Lemma sort_pids_spec pids rest :
  exists q, sort_pids_inplace (pids ++ rest) (Z.of_nat (length pids)) = q ++ rest /\
            StronglySorted Z.le q /\ q ≡ₚ pids.
Proof.
  unfold sort_pids_inplace. destruct pids as [|p pids]; [by exists []; repeat constructor|].
  destruct (sort_from_spec pids [p] rest) as (q & E & Hs & Hp); [by repeat constructor|].
  exists q. split_and!; try done. rewrite <- E. cbn [app length]. do 2 f_equal. lia.
Qed.

Lemma sorted_lookup l i j (a b : Z) :
  StronglySorted Z.le l -> (i <= j)%nat -> l !! i = Some a -> l !! j = Some b -> a <= b.
Proof.
  intros Hs. revert i j. induction Hs as [|x l Hs IH Hx]; intros i j Hij Ha Hb; [done|].
  destruct i as [|i], j as [|j]; cbn in *; try lia; simplify_eq; [lia| |by apply (IH i j); auto; lia].
  by eapply Forall_lookup_1 in Hb; [|exact Hx].
Qed.

Lemma bisect_spec l rest peer fuel : forall lo hi,
  StronglySorted Z.le l -> 0 <= lo -> hi < Z.of_nat (length l) -> hi - lo < Z.of_nat fuel ->
  bisect fuel (l ++ rest) peer lo hi = true <->
  exists i, lo <= Z.of_nat i <= hi /\ l !! i = Some peer.
Proof.
  induction fuel as [|fuel IH]; intros lo hi Hs Hlo Hhi Hf; cbn [bisect].
  { split; [done|]. intros (i & ? & _). lia. }
  destruct (Z.leb_spec lo hi) as [Hle|Hgt]; [|split; [done|]; intros (i & ? & _); lia].
  rewrite Z.shiftr_div_pow2 by lia. change (2 ^ 1) with 2.
  set (mid := lo + (hi - lo) / 2).
  pose proof (Z.div_mod (hi - lo) 2 ltac:(lia)). pose proof (Z.mod_pos_bound (hi - lo) 2 ltac:(lia)).
  assert (lo <= mid <= hi) as Hmid by lia.
  destruct (lookup_lt_is_Some_2 l (Z.to_nat mid)) as [v Hv]; [lia|].
  assert (get (l ++ rest) mid = Some v) as ->.
  { unfold get. destruct (Z.ltb_spec mid 0); [lia|]. by apply lookup_app_l_Some. }
  destruct (Z.eqb_spec v peer) as [->|Hne].
  { split; [|done]. intros _. exists (Z.to_nat mid). split; [lia|done]. }
  destruct (Z.ltb_spec v peer) as [Hlt|Hge]; rewrite IH by (try done; lia); split; intros (i & Hi & Hl);
    exists i; (split; [|done]); try lia.
  - destruct (decide (Z.of_nat i <= mid)); [|lia].
    pose proof (sorted_lookup l i (Z.to_nat mid) peer v Hs ltac:(lia) Hl Hv). lia.
  - destruct (decide (mid <= Z.of_nat i)); [|lia].
    pose proof (sorted_lookup l (Z.to_nat mid) i v peer Hs ltac:(lia) Hv Hl). lia.
Qed.

(** The scope array after [populate_scope_pids], bisected, is membership in [pids]. *)
Lemma scope_member t pids t' peer :
  populate_scope_pids t pids = (t', 0) ->
  t_scope_pid_count t' = Z.of_nat (length pids) /\
  bisect (Z.to_nat (t_scope_pid_count t')) (t_scope_pids t') peer 0 (t_scope_pid_count t' - 1) =
    bool_decide (peer ∈ pids).
Proof.
  unfold populate_scope_pids. destruct (_ >? _); intros E; simplify_eq/=. split; [done|].
  destruct (sort_pids_spec pids (drop (length pids) (t_scope_pids t))) as (q & -> & Hs & Hp).
  apply eq_bool_prop_intro. rewrite bool_decide_spec, Is_true_true.
  assert (length q = length pids) as Hl by by rewrite Hp.
  rewrite bisect_spec by (try done; lia). rewrite <- Hp, list_elem_of_lookup. split.
  - intros (i & _ & Hi). by exists i.
  - intros (i & Hi). exists i. pose proof (lookup_lt_Some _ _ _ Hi). split; [lia|done].
Qed.

(** C24: A transaction's buffer keeps what it is given.  Starting empty, with the
    capacity that [txn_begin] chooses from the flags, any run of appends succeeds
    until the records no longer fit and fails with -ENOSPC from then on; walking the
    buffer then yields exactly the messages accepted, in order, each with its target
    channel, flags and position, across page boundaries, and ends with -ENODATA. *)
Theorem txn_buffer_roundtrip (t : transaction) (fl : Z) (es : list entry) :
  t_buffer_vmo t = None -> t_head t = 0 -> t_buffered_count t = 0 ->
  t_capacity t = txn_buffer_bytes_for_flags fl -> Forall wf_entry es ->
  let n := room (t_capacity t) in
  let '(t', rc) := append_all t es in
  rc = (if bool_decide (length es <= n)%nat then 0 else TXN_ENOSPC) /\
  read_all (S (Nat.min n (length es))) t' 0 =
    (imap (fun i e => (entry_header i e, snd (fst e))) (take n es), TXN_ENODATA).
Proof.
  intros Hv Hh Hc Hcap Hes n.
  assert (buffers t (t_capacity t) []) as Hb.
  { unfold buffers, VMO_MAX_SIZE. rewrite Hv, Hh, Hc. split_and!; try done;
      rewrite Hcap; unfold txn_buffer_bytes_for_flags; split_ifs; done. }
  pose proof (append_all_spec es t (t_capacity t) [] Hb Hes ltac:(cbn; lia)) as Ha; cbn [app] in Ha.
  destruct (append_all t es) as [t' rc]. destruct Ha as [-> Hb']. split; [done|].
  pose proof (read_all_spec t' _ (take n es) (length (take n es)) 0 Hb' eq_refl) as Hr.
  rewrite length_take in Hr. exact Hr.
Qed.

Definition empty_txn : transaction :=
  Transaction 1 TXN_FLAG_SELF_SCOPE 1 5 0 None 0 None (txn_buffer_bytes_for_flags TXN_FLAG_SELF_SCOPE) 0 0
    (replicate 256 0) 0 TXN_STATE_ACTIVE 0 0 0.

Lemma txn_buffer_roundtrip_witness :
  let es := replicate 20 (3, zero_msg, 0) in
  snd (append_all empty_txn es) = 0 /\
  read_all 21 (fst (append_all empty_txn es)) 0 =
    (imap (fun i e => (entry_header i e, snd (fst e))) es, TXN_ENODATA).
Proof.
  intros es. assert (Forall wf_entry es) as Hes.
  { apply Forall_replicate. unfold wf_entry, wf_msg, in_u; cbn. split_and!; try done. by repeat constructor. }
  pose proof (txn_buffer_roundtrip empty_txn TXN_FLAG_SELF_SCOPE es eq_refl eq_refl eq_refl eq_refl Hes) as H.
  destruct (append_all empty_txn es) as [t' rc]. destruct H as [H1 H2].
  assert (room (t_capacity empty_txn) = Z.to_nat 11781) as Hn by reflexivity. rewrite Hn in H1, H2.
  unfold es in *. rewrite length_replicate in H1, H2.
  rewrite bool_decide_true in H1 by lia. split; [exact H1|].
  rewrite Nat.min_r, take_ge in H2 by (rewrite ?length_replicate; lia). exact H2.
Defined.

(** The scope test is exact.  For a transaction whose scope was built from the
    tasks of its snapshot, a send is kept back unless the other end of the channel is
    held by the sender itself or by a task of the snapshot; when the sender holds
    neither end, or the other end has no holder, it is kept back. *)
Theorem external_peer_exact (s : registry) (endpoints : gmap Z Z) (c : channel) (t t' : transaction) (pids : list Z)
    (sender_id : Z) :
  populate_scope_pids t pids = (t', 0) ->
  let rd := endpoint_holder s endpoints (ch_read_cap_idx c) in
  let wr := endpoint_holder s endpoints (ch_write_cap_idx c) in
  txn_is_external_peer s endpoints c t' sender_id = false <->
  exists peer, (rd = sender_id /\ peer = wr \/ rd <> sender_id /\ wr = sender_id /\ peer = rd) /\
    0 <= peer /\ (peer = sender_id \/ peer ∈ pids).
Proof.
  intros Hp rd wr. unfold txn_is_external_peer. fold rd wr. cbv zeta.
  destruct (scope_member t pids t' rd Hp) as [Hn Hrd], (scope_member t pids t' wr Hp) as [_ Hwr].
  assert (forall p, bisect (Z.to_nat (t_scope_pid_count t')) (t_scope_pids t') p 0 (t_scope_pid_count t' - 1) =
            bool_decide (p ∈ pids) ->
          (if p <? 0 then true else if p =? sender_id then false else if t_scope_pid_count t' =? 0 then true
           else negb (bisect (Z.to_nat (t_scope_pid_count t')) (t_scope_pids t') p 0 (t_scope_pid_count t' - 1))) = false
          <-> 0 <= p /\ (p = sender_id \/ p ∈ pids)) as Hscan.
  { intros p ->.
    destruct (Z.ltb_spec p 0), (Z.eqb_spec p sender_id), (Z.eqb_spec (t_scope_pid_count t') 0) as [E|E];
      rewrite ?negb_false_iff, ?bool_decide_eq_true; try (intuition (try done; lia)).
    rewrite Hn in E. destruct pids; [|cbn in E; lia].
    split; [done|]. by intros [_ [?|?%not_elem_of_nil]]. }
  generalize (Hscan wr Hwr) (Hscan rd Hrd).
  destruct (Z.eqb_spec rd sender_id) as [Er|Er]; [|destruct (Z.eqb_spec wr sender_id) as [Ew|Ew]]; intros Sw Sr.
  - rewrite Sw. split; [intros Hx; exists wr; auto|].
    by intros (p & [[_ ->] | [? _]] & Hx).
  - rewrite Sr. split; [intros Hx; exists rd; auto|].
    by intros (p & [[? _] | (_ & _ & ->)] & Hx).
  - split; [done|]. by intros (p & [[? _] | (_ & ? & _)] & Hx).
Qed.

Lemma external_peer_exact_witness :
  let o k d := {| sentinel with kind := k; kind_data := d |} in
  let s := Registry true (<[4 := o CAP_KIND_CHANNEL 100]> (<[5 := o CAP_KIND_CHANNEL 200]> ∅)) 6 [] [] in
  let endpoints : gmap Z Z := <[100 := 9]> (<[200 := 7]> ∅) in
  let c := Channel CHANNEL_MAGIC 1 1 7 2 0 0 0 2 4 5 [] 0 0 0 0 7 0 0 0 0 in
  populate_scope_pids empty_txn [12; 7; 9] = (fst (populate_scope_pids empty_txn [12; 7; 9]), 0) /\
  txn_is_external_peer s endpoints c (fst (populate_scope_pids empty_txn [12; 7; 9])) 7 = false.
Proof.
  intros o s endpoints c. split; [vm_compute; reflexivity|].
  apply (external_peer_exact s endpoints c empty_txn _ [12; 7; 9] 7); [vm_compute; reflexivity|].
  exists 9. split; [|split; [lia | right; set_solver]]. right. vm_compute. repeat split; discriminate.
Defined.
