(* ===== verification/Txn.v ===== *)
(** * Transactions (kernel/txn/transaction.c, kernel/txn/replay.c)

    The lifecycle of a transaction over the capability world, the channels and the
    buffers: begin, commit with replay, abort, and the teardown of a dying task.
    Transactions are records in a heap by address, so that a freed record is absent;
    an access to an absent record is [Fault].  The snapshot subsystem's answers are
    arguments and its calls a trace, like the audit records. *)
From S2P Require Import Prelude Bytes CapToken CapObject CapRevoke CapSecurity HandleTable Pledge CapSystem Channel TxnBuffer.
Local Open Scope Z_scope.
Local Open Scope c_scope.

Inductive txn_event :=
| Snap_destroy (id : Z)
| Snap_restore (id pid : Z)
| Audit_begin (pid obj id depth : Z)
| Audit_commit (pid obj id delivered : Z)
| Audit_abort (pid obj id delivered remaining : Z)
| Audit_partial (pid obj id delivered remaining force_drop : Z)
| Wake_state_waiters (id : Z).

(** [task_txn_frame_t] and the replay flag of a task; address 0 is NULL. *)
Record task_txn_frame := Task_txn_frame { f_current : Z; f_stack_depth : Z; f_replay_in_progress : bool }.
Definition no_frame : task_txn_frame := Task_txn_frame 0 0 false.

Record kernel := Kernel {
  k_world : world;
  k_chans : chan_registry;
  k_endpoints : gmap Z Z;               (* holder of each chan_endpoint_t, by address *)
  k_txns : gmap Z transaction;
  k_frames : gmap Z task_txn_frame;
  g_txn_next_id : Z;
  g_txn_live : list Z;
  k_log : list txn_event
}.

Definition frame_of (k : kernel) (pid : Z) : task_txn_frame := default no_frame (k_frames k !! pid).
Definition set_frame (k : kernel) (pid : Z) (f : task_txn_frame) : kernel :=
  {| k with k_frames := <[pid := f]> (k_frames k) |}.
Definition set_txn (k : kernel) (p : Z) (t : transaction) : kernel := {| k with k_txns := <[p := t]> (k_txns k) |}.
Definition free_txn (k : kernel) (p : Z) : kernel := {| k with k_txns := delete p (k_txns k) |}.
Definition set_world (k : kernel) (w : world) : kernel := {| k with k_world := w |}.
Definition emit (k : kernel) (l : list txn_event) : kernel := {| k with k_log := k_log k ++ l |}.

#[global] Arguments frame_of : simpl never.
#[global] Arguments set_frame : simpl never.
#[global] Arguments set_txn : simpl never.
#[global] Arguments free_txn : simpl never.
#[global] Arguments set_world : simpl never.
#[global] Arguments emit : simpl never.

Definition txn_link_locked (k : kernel) (p : Z) : kernel := {| k with g_txn_live := p :: g_txn_live k |}.
Definition txn_unlink_locked (k : kernel) (p : Z) : kernel :=
  {| k with g_txn_live := filter (fun q => q <> p) (g_txn_live k) |}.

(** ** Begin *)

(** The answers of the allocators and of [snap_create_internal]: the address of the
    record (0 when the slab is empty), the snapshot with the pids of its tasks or an
    error, and the two allocations of the capability. *)
Record begin_answers := Begin_answers {
  a_slab : Z; a_snap : Z + Z * list Z; a_cap_ok : bool; a_kmalloc_ok : bool
}.

Definition new_txn (k : kernel) (pid flags : Z) : transaction :=
  Transaction (g_txn_next_id k) flags 0 pid 0 None 0 None (txn_buffer_bytes_for_flags flags) 0 0
    (replicate 256 0) 0 TXN_STATE_ACTIVE 0 0 0.

(** [None] is an access outside a handle table. *)
Definition txn_begin (a : begin_answers) (k : kernel) (pid flags : Z) : option (kernel * Z) :=
  match tasks (k_world k) !! pid with
  | None => Some (k, TXN_EPERM)
  | Some caller =>
    if negb (Z.ldiff flags TXN_FLAG_VALID_MASK =? 0) then Some (k, TXN_EINVAL) else
    let flags :=
      if negb (has_flag flags (TXN_FLAG_SELF_SCOPE |. TXN_FLAG_GLOBAL_SCOPE)) then flags |. TXN_FLAG_SELF_SCOPE
      else flags in
    sys ← (if has_flag flags TXN_FLAG_GLOBAL_SCOPE then cap_system_resolve (k_world k) pid 0x10000 else Some 0);
    if negb (sys =? 0) then Some (k, TXN_EPERM) else
    let fr := frame_of k pid in
    if f_stack_depth fr >=? TXN_MAX_NESTING then Some (k, TXN_ENESTED) else
    let p := a_slab a in
    if p =? 0 then Some (k, TXN_ENOMEM) else
    let t := new_txn k pid flags in
    let k := {| k with g_txn_next_id := u64 (g_txn_next_id k + 1) |} in
    match a_snap a with
    | inl rc => Some (k, if rc <? 0 then rc else TXN_ENOMEM)
    | inr (snap, pids) =>
        let t := {| t with t_backing_snapshot := Some snap |} in
        let '(t, rc) := populate_scope_pids t pids in
        if rc <? 0 then Some (emit k [Snap_destroy snap], rc) else
        let '(s, obj_idx) :=
          cap_object_create (a_cap_ok a) (reg (k_world k)) CAP_KIND_TRANSACTION
            (RIGHT_INSPECT |. RIGHT_REVOKE |. RIGHT_DERIVE |. RIGHT_COMMIT |. RIGHT_ABORT)
            (Some [pid; PID_NONE]) 0 p pid CAP_OBJECT_IDX_NONE in
        let k := set_world k (set_reg (k_world k) s) in
        if obj_idx <? 0 then Some (emit k [Snap_destroy snap], TXN_ENOMEM) else
        let t := {| t with t_cap_object_idx := u32 obj_idx |} in
        '(h, slot, ins) ← cap_handle_insert (a_kmalloc_ok a) (cap_handles caller) (u32 obj_idx) 0;
        let k := set_world k (set_handles (k_world k) pid caller h) in
        if ins <? 0 then
          let s := cap_object_destroy (cap_object_revoke (reg (k_world k)) (u32 obj_idx)).1 (u32 obj_idx) in
          Some (emit (set_world k (set_reg (k_world k) s)) [Snap_destroy snap],
                if ins =? CAP_V2_ENOMEM then TXN_ENOMEM else TXN_EINVAL)
        else
          let t := {| t with t_parent := f_current fr; t_nesting_depth := f_stack_depth fr |} in
          let depth := u32 (f_stack_depth fr + 1) in
          let k := set_txn k p t in
          let k := set_frame k pid {| fr with f_current := p; f_stack_depth := depth |} in
          let k := txn_link_locked k p in
          Some (emit k [Audit_begin pid (u32 obj_idx) (t_id t) depth], i32 slot)
    end
  end.

(** The address behind a handle; 0 is NULL. *)
Definition txn_resolve_handle (k : kernel) (pid handle : Z) : Z :=
  match tasks (k_world k) !! pid with
  | None => 0
  | Some caller =>
      match cap_handle_lookup (cap_handles caller) handle with
      | None => 0
      | Some e =>
          match cap_object_get (reg (k_world k)) (object_idx e) with
          | Some obj => if kind obj =? CAP_KIND_TRANSACTION then kind_data obj else 0
          | None => 0
          end
      end
  end.

(** ** The stack of a task *)

(** Whether [target] is on the stack from [cur]; the fuel is the number of records. *)
Fixpoint on_stack (fuel : nat) (m : gmap Z transaction) (cur target : Z) : bool :=
  match fuel with
  | O => false
  | S fuel =>
      if cur =? 0 then false else if cur =? target then true else
      match m !! cur with Some t => on_stack fuel m (t_parent t) target | None => false end
  end.

Definition txn_pop_stack (k : kernel) (pid target : Z) : kernel * Z :=
  let fr := frame_of k pid in
  if f_current fr =? 0 then (k, 0) else
  match k_txns k !! target with
  | None => (k, 0)
  | Some t =>
      if on_stack (S (size (k_txns k))) (k_txns k) (f_current fr) target then
        (set_frame k pid {| fr with f_current := t_parent t; f_stack_depth := t_nesting_depth t |},
         u32 (f_stack_depth fr - t_nesting_depth t))
      else (k, 0)
  end.

(** The layers of a task from the innermost outward, with their addresses. *)
Fixpoint stack_layers (fuel : nat) (m : gmap Z transaction) (cur : Z) : list (Z * transaction) :=
  match fuel with
  | O => []
  | S fuel =>
      match m !! cur with
      | Some t => if cur =? 0 then [] else (cur, t) :: stack_layers fuel m (t_parent t)
      | None => []
      end
  end.

(** ** Sending while transactions are active *)
Definition layer_external (k : kernel) (c : channel) (pid : Z) (l : Z * transaction) : bool :=
  txn_is_external_peer (reg (k_world k)) (k_endpoints k) c (snd l) pid.
Definition layer_append (vmo_ok : bool) (c : channel) (l : Z * transaction) (msg : channel_msg) : (Z * transaction) * Z :=
  let '(t, rc) := txn_buffer_append vmo_ok (snd l) (ch_id c) msg 0 in ((fst l, t), rc).

Definition put_layers (m : gmap Z transaction) (ls : list (Z * transaction)) : gmap Z transaction :=
  foldr (fun l m => <[fst l := snd l]> m) m ls.

(** [chan_send] by task [pid] on the channel with id [cid]; [Fault] when there is none.
    [vmo_ok] says whether the kernel grants a buffer to a transaction that has none yet;
    the debugging hook that lets sends fail is off, as it is from the start. *)
Definition task_send (vmo_ok : bool) (k : kernel) (pid cid : Z) (msg : channel_msg) (timeout_ns : Z) : kernel * chan_out :=
  match chan_lookup_by_id (k_chans k) cid with
  | None => (k, Fault)
  | Some c =>
      let fr := frame_of k pid in
      let s := Sender pid (stack_layers (size (k_txns k)) (k_txns k) (f_current fr)) (f_replay_in_progress fr) in
      let '(c', s', _, out) := chan_send (layer_external k c pid) (layer_append vmo_ok c) c s msg timeout_ns false in
      ({| k with k_chans := chan_put (k_chans k) c'; k_txns := put_layers (k_txns k) (s_active_txn s') |}, out)
  end.

(** ** Replay *)
Record txn_replay_context := Txn_replay_context {
  r_current_offset : Z; r_delivered_count : Z; r_failed_chan_id : Z
}.

(** The loop of [txn_replay_all]; each turn moves the offset forward by a record, so
    the fuel given, the number of bytes, is enough. *)
Fixpoint replay_loop (fuel : nat) (k : kernel) (pid : Z) (t : transaction) (ctx : txn_replay_context)
    : kernel * txn_replay_context * Z :=
  match fuel with
  | O => (k, ctx, 0)
  | S fuel =>
      if r_current_offset ctx <? t_head t then
        let ctx := {| ctx with r_failed_chan_id := 0 |} in
        match txn_buffer_iter_next t (r_current_offset ctx) with
        | inl rc => (k, ctx, if rc =? TXN_ENODATA then 0 else rc)
        | inr (hdr, payload, next_offset) =>
            let fail := {| ctx with r_failed_chan_id := b_target_chan_id hdr |} in
            match chan_lookup_by_id (k_chans k) (b_target_chan_id hdr) with
            | None => (k, fail, TXN_ETXNREPLAY)
            | Some c => (* a replay appends to no buffer *)
                match task_send true k pid (b_target_chan_id hdr) payload 0 with
                | (k, Ret srv) =>
                    if srv <? 0 then (k, fail, TXN_ETXNREPLAY) else
                    replay_loop fuel k pid t
                      {| ctx with r_current_offset := next_offset;
                                  r_delivered_count := u32 (r_delivered_count ctx + 1) |}
                | (k, _) => (k, fail, TXN_ETXNREPLAY)
                end
            end
        end
      else (k, ctx, 0)
  end.

Definition txn_replay_all (k : kernel) (pid : Z) (t : transaction) (ctx : txn_replay_context)
    : kernel * txn_replay_context * Z :=
  if bool_decide (t_buffer_vmo t = None) || (t_buffered_count t =? 0)
  then (k, {| ctx with r_delivered_count := 0 |}, 0) else
  let fr := frame_of k pid in
  let k := set_frame k pid {| fr with f_replay_in_progress := true |} in
  let '(k, ctx, rc) := replay_loop (Z.to_nat (t_head t)) k pid t ctx in
  let fr := frame_of k pid in
  (set_frame k pid {| fr with f_replay_in_progress := false |}, ctx, rc).

(** ** Commit and abort *)
Definition txn_state_cas (t : transaction) (expected desired : txn_state) : option transaction :=
  if bool_decide (t_state t = expected) then Some {| t with t_state := desired |} else None.

(** The handle, the capability and the record: the teardown shared by commit and abort. *)
Definition teardown (k : kernel) (pid p handle : Z) (t : transaction) : option kernel :=
  let '(k, _) := txn_pop_stack k pid p in
  match tasks (k_world k) !! pid with
  | None => None
  | Some caller =>
      '(h, _) ← cap_handle_remove (cap_handles caller) handle;
      let w := set_handles (k_world k) pid caller h in
      let s := (cap_object_revoke (reg w) (t_cap_object_idx t)).1 in
      let w := set_reg w (cap_object_destroy s (t_cap_object_idx t)) in
      Some (txn_unlink_locked (set_world k w) p)
  end.

Definition snap_id (t : transaction) : Z := default 0 (t_backing_snapshot t).

(** The abort path once the state is ABORTING. *)
Definition abort_finish (k : kernel) (pid handle p : Z) (t : transaction) : kernel * chan_out :=
  let warning := if t_replay_delivered t >? 0
                 then [Audit_partial pid (t_cap_object_idx t) (t_id t) (t_replay_delivered t)
                         (u32 (t_buffered_count t - t_replay_delivered t)) 0]
                 else [] in
  let t := txn_buffer_free_drop t in
  let k := emit k (warning ++ [Snap_restore (snap_id t) pid; Snap_destroy (snap_id t)]) in
  let t := {| t with t_backing_snapshot := None |} in
  match teardown (set_txn k p t) pid p handle t with
  | None => (k, Fault)
  | Some k =>
      let k := emit k [Audit_abort pid (t_cap_object_idx t) (t_id t) (t_replay_delivered t)
                         (t_buffered_count t); Wake_state_waiters (t_id t)] in
      (free_txn k p, Ret 0)
  end.

Definition txn_abort (k : kernel) (pid handle : Z) : kernel * chan_out :=
  let p := txn_resolve_handle k pid handle in
  if p =? 0 then (k, Ret TXN_EINVAL) else
  match k_txns k !! p with
  | None => (k, Fault)
  | Some t =>
      if negb (t_creator_pid t =? pid) then (k, Ret TXN_EPERM) else
      if negb (f_current (frame_of k pid) =? p) then (k, Ret TXN_EBUSY) else
      match t_state t with
      | TXN_STATE_ACTIVE | TXN_STATE_COMMITTING_FAILED =>
          abort_finish k pid handle p {| t with t_state := TXN_STATE_ABORTING |}
      | TXN_STATE_COMMITTING => (k, Blocked)
      | TXN_STATE_COMMITTED => (k, Ret TXN_EALREADY)
      | _ => (k, Ret TXN_EBUSY)
      end
  end.

(** The end of [txn_commit] once the buffer is drained. *)
Definition commit_finish (k : kernel) (pid handle p : Z) (t : transaction) : kernel * chan_out :=
  let k := emit k [Audit_commit pid (t_cap_object_idx t) (t_id t) (t_replay_delivered t); Snap_destroy (snap_id t)] in
  let t := {| t with t_backing_snapshot := None |} in
  match teardown (set_txn k p t) pid p handle t with
  | None => (k, Fault)
  | Some k => (free_txn (emit k [Wake_state_waiters (t_id t)]) p, Ret 0)
  end.

Definition txn_commit (k : kernel) (pid handle : Z) : kernel * chan_out :=
  let p := txn_resolve_handle k pid handle in
  if p =? 0 then (k, Ret TXN_EINVAL) else
  match k_txns k !! p with
  | None => (k, Fault)
  | Some t =>
      if negb (t_creator_pid t =? pid) then (k, Ret TXN_EPERM) else
      if negb (f_current (frame_of k pid) =? p) then (k, Ret TXN_EBUSY) else
      let first := txn_state_cas t TXN_STATE_ACTIVE TXN_STATE_COMMITTING in
      let attempt := match first with
                     | Some t => Some (t, Txn_replay_context 0 0 0)
                     | None =>
                         match txn_state_cas t TXN_STATE_COMMITTING_FAILED TXN_STATE_COMMITTING with
                         | Some t => Some (t, Txn_replay_context (t_replay_cursor t) (t_replay_delivered t) 0)
                         | None => None
                         end
                     end in
      match attempt with
      | None => (k, Ret TXN_EBUSY)
      | Some (t, ctx) =>
          let k := set_txn k p t in
          if t_buffered_count t >? 0 then
            let '(k, ctx, replay_rc) := txn_replay_all k pid t ctx in
            let t := {| t with t_replay_cursor := r_current_offset ctx;
                               t_replay_delivered := r_delivered_count ctx;
                               t_replay_failed_chan_id := r_failed_chan_id ctx |} in
            if replay_rc <? 0 then
              let t := {| t with t_state := TXN_STATE_COMMITTING_FAILED |} in
              (emit (set_txn k p t) [Wake_state_waiters (t_id t)], Ret replay_rc)
            else commit_finish (set_txn k p t) pid handle p t
          else commit_finish k pid handle p t
      end
  end.

(** ** Task exit *)
Definition txn_force_drop (k : kernel) (p pid : Z) (t : transaction) : kernel :=
  let t := txn_buffer_free_drop t in
  let k := if t_backing_snapshot t is Some s then emit k [Snap_destroy s] else k in
  let w := k_world k in
  let w := if negb (t_cap_object_idx t =? 0)
           then set_reg w (cap_object_destroy (cap_object_revoke (reg w) (t_cap_object_idx t)).1 (t_cap_object_idx t))
           else w in
  let k := txn_unlink_locked (set_world k w) p in
  free_txn (emit k [Audit_partial pid (t_cap_object_idx t) (t_id t) 0 (t_buffered_count t) 1]) p.

Fixpoint cleanup_loop (fuel : nat) (k : kernel) (cur pid : Z) : kernel :=
  match fuel with
  | O => k
  | S fuel =>
      if cur =? 0 then k else
      match k_txns k !! cur with
      | None => k
      | Some t => cleanup_loop fuel (txn_force_drop k cur pid t) (t_parent t) pid
      end
  end.

Definition txn_task_exit_cleanup (k : kernel) (pid : Z) : kernel :=
  let fr := frame_of k pid in
  let k := cleanup_loop (size (k_txns k)) k (f_current fr) pid in
  set_frame k pid {| fr with f_current := 0; f_stack_depth := 0 |}.

(** ** Replay is plain sending *)

(** One message as a task without transactions sends it, not waiting. *)
Definition plain_send (c : channel) (pid : Z) (msg : channel_msg) : channel * chan_out :=
  let '(c', _, _, out) :=
    chan_send (fun _ : unit => false) (fun t _ => (t, 0)) c (Sender pid [] false) msg 0 false in (c', out).

(** The reference for a replay: the messages sent one after the other until one
    fails; the number sent, and the channel of the one that failed. *)
Fixpoint deliver (g : chan_registry) (pid : Z) (es : list entry) : chan_registry * nat * option Z :=
  match es with
  | [] => (g, 0%nat, None)
  | (cid, msg, _) :: es =>
      match chan_lookup_by_id g cid with
      | None => (g, 0%nat, Some cid)
      | Some c =>
          let '(c', out) := plain_send c pid msg in
          let g := chan_put g c' in
          match out with
          | Ret rc => if rc <? 0 then (g, 0%nat, Some cid) else
                      let '(g, n, failed) := deliver g pid es in (g, S n, failed)
          | _ => (g, 0%nat, Some cid)
          end
      end
  end.

Lemma replay_send_plain {T} (ext : T -> bool) app c pid st msg :
  chan_send ext app c (Sender pid st true) msg 0 false =
    let '(c', s', evs, out) :=
      chan_send (fun _ : unit => false) (fun t _ => (t, 0)) c (Sender pid [] false) msg 0 false in
    (c', Sender pid st true, evs, out).
Proof.
  unfold chan_send. cbn.
  destruct (negb (chan_check c)), (negb (m_type_hash (header msg) =? ch_type_hash c)); try done.
  by destruct (chan_send_try c pid msg 0) as [[c' evs] out].
Qed.

Lemma put_layers_same (m : gmap Z transaction) fuel cur : put_layers m (stack_layers fuel m cur) = m.
Proof.
  revert cur. induction fuel as [|fuel IH]; intros cur; cbn; [done|].
  destruct (m !! cur) as [t|] eqn:E; [|done]. destruct (cur =? 0); [done|]. cbn. by rewrite IH, insert_id.
Qed.

(** A task that replays sends like one without transactions. *)
Lemma task_send_replay vmo_ok k pid cid msg :
  f_replay_in_progress (frame_of k pid) = true ->
  task_send vmo_ok k pid cid msg 0 =
    match chan_lookup_by_id (k_chans k) cid with
    | None => (k, Fault)
    | Some c => let '(c', out) := plain_send c pid msg in ({| k with k_chans := chan_put (k_chans k) c' |}, out)
    end.
Proof.
  intros Hr. unfold task_send, plain_send. destruct (chan_lookup_by_id (k_chans k) cid) as [c|]; [|done].
  rewrite Hr, replay_send_plain.
  destruct (chan_send _ _ c _ msg 0 false) as [[[c' s'] evs] out]. cbn. by rewrite put_layers_same.
Qed.

Definition set_chans (k : kernel) (g : chan_registry) : kernel := {| k with k_chans := g |}.

(** One turn of the loop at record [i]. *)
Lemma replay_step t cap es i cid msg fl fuel k pid d f0 :
  buffers t cap es -> es !! i = Some (cid, msg, fl) -> f_replay_in_progress (frame_of k pid) = true ->
  replay_loop (S fuel) k pid t (Txn_replay_context (ENTRY_SIZE * Z.of_nat i) d f0) =
    let fail k := (k, Txn_replay_context (ENTRY_SIZE * Z.of_nat i) d cid, TXN_ETXNREPLAY) in
    match chan_lookup_by_id (k_chans k) cid with
    | None => fail k
    | Some c =>
        let '(c', out) := plain_send c pid msg in
        let k := set_chans k (chan_put (k_chans k) c') in
        match out with
        | Ret srv => if srv <? 0 then fail k else
            replay_loop fuel k pid t (Txn_replay_context (ENTRY_SIZE * Z.of_nat (S i)) (u32 (d + 1)) 0)
        | _ => fail k
        end
    end.
Proof.
  intros Hb He Hr. pose proof (lookup_lt_Some _ _ _ He) as Hlt. pose proof Hb as (Hh & _).
  cbn [replay_loop r_current_offset].
  destruct (Z.ltb_spec (ENTRY_SIZE * Z.of_nat i) (t_head t)) as [_|Hx]; [|unfold ENTRY_SIZE in *; lia].
  rewrite (iter_next_spec _ _ _ _ _ Hb He). cbn [entry_header b_target_chan_id fst snd].
  rewrite task_send_replay by done.
  destruct (chan_lookup_by_id (k_chans k) cid) as [c|]; [|done].
  by destruct (plain_send c pid msg) as [c' [srv| |]].
Qed.

(** The outcome of a replay that delivers [n] records from record [i] on. *)
Definition replayed (k : kernel) (i n : nat) (d : Z) (g : chan_registry) (failed : option Z)
    (r : kernel * txn_replay_context * Z) : Prop :=
  exists f1, r = (set_chans k g, Txn_replay_context (ENTRY_SIZE * Z.of_nat (i + n)) (u32 (d + Z.of_nat n)) f1,
                  if failed is Some _ then TXN_ETXNREPLAY else 0) /\
             (forall cid, failed = Some cid -> f1 = cid).

Lemma replay_loop_spec t cap es pid : forall rest i fuel k d f0,
  buffers t cap es -> rest = drop i es -> (length rest <= fuel)%nat -> (i <= length es)%nat ->
  f_replay_in_progress (frame_of k pid) = true ->
  let '(g, n, failed) := deliver (k_chans k) pid rest in
  replayed k i n d g failed
    (replay_loop (S fuel) k pid t (Txn_replay_context (ENTRY_SIZE * Z.of_nat i) (u32 d) f0)).
Proof.
  induction rest as [|[[cid msg] fl] rest IH]; intros i fuel k d f0 Hb Hrest Hf Hi Hr.
  - cbn [deliver]. unfold replayed. rewrite Nat.add_0_r, Z.add_0_r. exists f0. split; [|done].
    assert (length es = i) as <- by (apply (f_equal length) in Hrest; rewrite length_drop in Hrest; cbn in Hrest; lia).
    pose proof Hb as (Hh & _). cbn [replay_loop r_current_offset]. rewrite Hh, Z.ltb_irrefl. by destruct k.
  - assert (es !! i = Some (cid, msg, fl)) as He.
    { rewrite <- (Nat.add_0_r i), <- lookup_drop, <- Hrest. done. }
    assert (rest = drop (S i) es) as Hrest' by (rewrite (drop_S _ _ _ He) in Hrest; by simplify_eq).
    pose proof (lookup_lt_Some _ _ _ He) as Hlt. rewrite (replay_step _ _ _ _ _ _ _ _ _ _ _ _ Hb He Hr).
    assert (forall k g, replayed k i 0 d g (Some cid)
              (set_chans k g, Txn_replay_context (ENTRY_SIZE * Z.of_nat i) (u32 d) cid, TXN_ETXNREPLAY)) as Hfail.
    { intros k0 g. exists cid. rewrite Nat.add_0_r, Z.add_0_r. split; [done|congruence]. }
    cbn [deliver]. destruct (chan_lookup_by_id (k_chans k) cid) as [c|].
    2: { specialize (Hfail k (k_chans k)). by destruct k. }
    destruct (plain_send c pid msg) as [c' [srv| |]]; [destruct (srv <? 0)| |]; try by apply Hfail.
    destruct fuel as [|fuel]; [cbn in Hf; lia|].
    specialize (IH (S i) fuel (set_chans k (chan_put (k_chans k) c')) (d + 1) 0 Hb Hrest').
    cbn [k_chans set_chans] in IH. destruct (deliver (chan_put (k_chans k) c') pid rest) as [[g n] failed].
    destruct IH as (f1 & E & Hf1); [cbn in Hf; lia | lia | done|]. exists f1. split; [|done].
    rewrite wrap_add_l by lia. rewrite E. do 3 f_equal; [f_equal; lia | f_equal; lia].
Qed.

Lemma frame_of_set k pid f : frame_of (set_frame k pid f) pid = f.
Proof. unfold frame_of, set_frame. cbn. by rewrite lookup_insert_eq. Qed.

Lemma set_frame_set k pid f f' : set_frame (set_frame k pid f) pid f' = set_frame k pid f'.
Proof. unfold set_frame. cbn. by rewrite insert_insert_eq. Qed.

(** A replay of a non-empty buffer from record [i] on. *)
Lemma replay_all_spec t cap es pid i k d f0 :
  buffers t cap es -> (i <= length es)%nat -> es <> [] ->
  let '(g, n, failed) := deliver (k_chans k) pid (drop i es) in
  let fr := frame_of k pid in
  replayed (set_frame k pid {| fr with f_replay_in_progress := false |}) i n d g failed
    (txn_replay_all k pid t (Txn_replay_context (ENTRY_SIZE * Z.of_nat i) (u32 d) f0)).
Proof.
  intros Hb Hi Hne. pose proof Hb as (Hh & Hc & _ & _ & _ & _ & Hv).
  assert (0 < length es)%nat by (destruct es; [done|cbn; lia]).
  unfold txn_replay_all. rewrite (bool_decide_false (t_buffer_vmo t = None))
    by (intros E; rewrite E in Hv; by destruct Hv).
  destruct (Z.eqb_spec (t_buffered_count t) 0) as [Hz|Hz]; [lia|]. cbn [orb].
  set (fr := frame_of k pid). set (k1 := set_frame k pid {| fr with f_replay_in_progress := true |}).
  pose proof (replay_loop_spec t cap es pid (drop i es) i (Nat.pred (Z.to_nat (t_head t))) k1 d f0 Hb eq_refl) as Hl.
  change (k_chans k1) with (k_chans k) in Hl.
  destruct (deliver (k_chans k) pid (drop i es)) as [[g n] failed].
  replace (Z.to_nat (t_head t)) with (S (Nat.pred (Z.to_nat (t_head t)))) by (unfold ENTRY_SIZE in *; lia).
  destruct Hl as (f1 & E & Hf1).
  { rewrite length_drop. unfold ENTRY_SIZE in *. lia. }
  { done. }
  { unfold k1. by rewrite frame_of_set. }
  exists f1. split; [|done]. rewrite E. do 2 f_equal. unfold k1.
  change (set_chans (set_frame k pid ?f) g) with (set_frame (set_chans k g) pid f).
  by rewrite frame_of_set, set_frame_set.
Qed.

(** ** What a task can do with its innermost transaction *)

(** Handle [handle] of task [pid] is its innermost transaction, at address [p], which
    holds the messages [es], the first [i] of them delivered by earlier attempts. *)
Record open_txn (k : kernel) (pid handle p : Z) (t : transaction) (cap : Z) (es : list entry) (i : nat) : Prop := {
  ot_addr : p <> 0;
  ot_handle : txn_resolve_handle k pid handle = p;
  ot_record : k_txns k !! p = Some t;
  ot_creator : t_creator_pid t = pid;
  ot_top : f_current (frame_of k pid) = p;
  ot_idle : f_replay_in_progress (frame_of k pid) = false;
  ot_buffer : buffers t cap es;
  ot_room : (i <= length es)%nat;
  ot_progress : t_state t = TXN_STATE_ACTIVE /\ i = 0%nat \/
                t_state t = TXN_STATE_COMMITTING_FAILED /\
                t_replay_cursor t = ENTRY_SIZE * Z.of_nat i /\ t_replay_delivered t = Z.of_nat i
}.

Lemma resolve_inv k pid handle p :
  txn_resolve_handle k pid handle = p -> p <> 0 ->
  exists caller e, tasks (k_world k) !! pid = Some caller /\
    cap_handle_lookup (cap_handles caller) handle = Some e.
Proof.
  unfold txn_resolve_handle. intros E Hp. destruct (tasks (k_world k) !! pid) as [caller|]; [|done].
  destruct (cap_handle_lookup (cap_handles caller) handle) as [e|] eqn:He; [|done]. eauto.
Qed.

Lemma remove_found t slot e :
  cap_handle_lookup t slot = Some e ->
  exists t', cap_handle_remove t slot = Some (t', CAP_V2_OK) /\ cap_handle_lookup t' slot = None.
Proof.
  unfold cap_handle_lookup, cap_handle_remove. destruct (slot >=? capacity t) eqn:Ec; [done|].
  destruct (get (entries t) slot) as [e0|] eqn:Eg; [|done].
  destruct (object_idx e0 =? CAP_OBJECT_IDX_NONE); [done|]. intros _. eexists. split; [done|]. cbn. rewrite Ec.
  rewrite get_upd_eq by by eapply get_Some_bound. done.
Qed.

(** What commit and abort leave behind when they succeed. *)
Definition closed (k k' : kernel) (pid handle p : Z) (t : transaction) : Prop :=
  k_txns k' = delete p (k_txns k) /\
  (exists fr, frame_of k pid = fr /\
     frame_of k' pid = {| fr with f_current := t_parent t; f_stack_depth := t_nesting_depth t |}) /\
  txn_resolve_handle k' pid handle = 0 /\ p ∉ g_txn_live k'.

Lemma teardown_closes k pid handle p t :
  p <> 0 -> txn_resolve_handle k pid handle = p -> k_txns k !! p = Some t -> f_current (frame_of k pid) = p ->
  exists k', teardown k pid p handle t = Some k' /\ k_chans k' = k_chans k /\ k_log k' = k_log k /\
    (forall l, closed k (free_txn (emit k' l) p) pid handle p t).
Proof.
  intros Hp Hh Ht Hf. destruct (resolve_inv _ _ _ _ Hh Hp) as (caller & e & Hc & He).
  destruct (remove_found _ _ _ He) as (h' & Hr & Hl'). unfold teardown, txn_pop_stack. rewrite Ht, Hf.
  destruct (Z.eqb_spec p 0) as [|_]; [done|]. cbn [on_stack].
  destruct (Z.eqb_spec p 0) as [|_]; [done|]. rewrite Z.eqb_refl. cbn [fst snd].
  change (tasks (k_world (set_frame k pid ?f))) with (tasks (k_world k)). rewrite Hc, Hr. cbn.
  eexists. split; [done|]. split; [done|]. split; [done|]. intros l. unfold closed. split_and!.
  - done.
  - eexists. split; [done|]. apply (frame_of_set k pid).
  - unfold txn_resolve_handle. change (tasks (k_world (free_txn (emit _ l) p))) with
      (<[pid := {| caller with cap_handles := h' |}]> (tasks (k_world k))).
    rewrite lookup_insert_eq. cbn. by rewrite Hl'.
  - change (p ∉ filter (fun q => q <> p) (g_txn_live k)). rewrite list_elem_of_filter. by intros [? _].
Qed.

Lemma delete_set_txn k p t : delete p (k_txns (set_txn k p t)) = delete p (k_txns k).
Proof. apply delete_insert_eq. Qed.

Lemma commit_finish_spec k pid handle p t :
  p <> 0 -> txn_resolve_handle k pid handle = p -> f_current (frame_of k pid) = p ->
  exists k', commit_finish k pid handle p t = (k', Ret 0) /\ k_chans k' = k_chans k /\ closed k k' pid handle p t.
Proof.
  intros Hp Hh Hf. unfold commit_finish.
  set (t1 := {| t with t_backing_snapshot := None |}).
  set (k1 := set_txn (emit k _) p t1).
  destruct (teardown_closes k1 pid handle p t1) as (k2 & -> & Hc & _ & Hcl); [done | done | apply lookup_insert_eq | done |].
  eexists. split; [done|]. split; [done|].
  destruct (Hcl [Wake_state_waiters (t_id t1)]) as (H1 & H2 & H3 & H4).
  unfold closed. rewrite H1. unfold k1. rewrite delete_set_txn. split_and!; done.
Qed.

Lemma abort_finish_spec k pid handle p t :
  p <> 0 -> txn_resolve_handle k pid handle = p -> f_current (frame_of k pid) = p ->
  exists k', abort_finish k pid handle p t = (k', Ret 0) /\ k_chans k' = k_chans k /\ closed k k' pid handle p t /\
    Snap_restore (snap_id t) pid ∈ k_log k'.
Proof.
  intros Hp Hh Hf. unfold abort_finish. set (warning := if _ >? _ then _ else []).
  set (t1 := Transaction _ _ _ _ _ None _ _ _ _ _ _ _ _ _ _ _).
  set (k1 := set_txn (emit k _) p t1).
  destruct (teardown_closes k1 pid handle p t1) as (k2 & E & Hc & Hl & Hcl);
    [done | done | apply lookup_insert_eq | done |].
  rewrite E. eexists. split; [done|]. split; [done|]. split.
  - match goal with |- closed _ (free_txn (emit _ ?l) _) _ _ _ _ => destruct (Hcl l) as (H1 & H2 & H3 & H4) end.
    unfold closed. rewrite H1. unfold k1. rewrite delete_set_txn. split_and!; done.
  - change (k_log (free_txn (emit k2 ?l) p)) with (k_log k2 ++ l). rewrite Hl.
    change (k_log k1) with (k_log k ++ warning ++ [Snap_restore (snap_id t) pid; Snap_destroy (snap_id t)]).
    rewrite !elem_of_app, elem_of_cons. tauto.
Qed.

Lemma buffers_state t cap es st : buffers t cap es -> buffers {| t with t_state := st |} cap es.
Proof. done. Qed.

Lemma idle_frame (fr : task_txn_frame) :
  f_replay_in_progress fr = false -> {| fr with f_replay_in_progress := false |} = fr.
Proof. destruct fr; cbn. by intros ->. Qed.

(** The state in which [txn_commit] starts its attempt. *)
Lemma commit_attempt k pid handle p t cap es i :
  open_txn k pid handle p t cap es i ->
  let t1 := {| t with t_state := TXN_STATE_COMMITTING |} in
  exists d f0, u32 d = u32 (Z.of_nat i) /\
  txn_commit k pid handle =
    let k1 := set_txn k p t1 in
    if t_buffered_count t1 >? 0 then
      let '(k2, ctx, replay_rc) := txn_replay_all k1 pid t1 (Txn_replay_context (ENTRY_SIZE * Z.of_nat i) (u32 d) f0) in
      let t2 := {| t1 with t_replay_cursor := r_current_offset ctx; t_replay_delivered := r_delivered_count ctx;
                           t_replay_failed_chan_id := r_failed_chan_id ctx |} in
      if replay_rc <? 0 then
        let t3 := {| t2 with t_state := TXN_STATE_COMMITTING_FAILED |} in
        (emit (set_txn k2 p t3) [Wake_state_waiters (t_id t3)], Ret replay_rc)
      else commit_finish (set_txn k2 p t2) pid handle p t2
    else commit_finish k1 pid handle p t1.
Proof.
  intros [Hp Hh Ht Hcr Htop _ Hb Hi Hpr] t1. unfold txn_commit. rewrite Hh, Ht, Hcr, Htop, !Z.eqb_refl.
  destruct (Z.eqb_spec p 0) as [|_]; [done|]. cbn [negb]. unfold txn_state_cas.
  destruct Hpr as [[Hst ->] | (Hst & Hcur & Hdel)]; rewrite Hst.
  - exists 0, 0. split; [done|]. rewrite bool_decide_true by done. reflexivity.
  - exists (Z.of_nat i), 0. split; [done|]. rewrite bool_decide_false, bool_decide_true by done.
    replace (u32 (Z.of_nat i)) with (t_replay_delivered t); [by rewrite <- Hcur|].
    rewrite Hdel. symmetry. apply wrap_small. destruct Hb as (Hhd & _ & Hle & Hcap & _).
    unfold in_u, ENTRY_SIZE, VMO_MAX_SIZE in *. lia.
Qed.

(** The record after an attempt that stopped having delivered [j] records. *)
Lemma stalled_record k pid handle p t cap es i j k2 t3 l :
  open_txn k pid handle p t cap es i -> (j <= length es)%nat ->
  txn_resolve_handle k2 pid handle = p -> frame_of k2 pid = frame_of k pid ->
  t_creator_pid t3 = t_creator_pid t -> buffers t3 cap es -> t_state t3 = TXN_STATE_COMMITTING_FAILED ->
  t_replay_cursor t3 = ENTRY_SIZE * Z.of_nat j -> t_replay_delivered t3 = Z.of_nat j ->
  open_txn (emit (set_txn k2 p t3) l) pid handle p t3 cap es j.
Proof.
  intros [Hp Hh Ht Hcr Htop Hid Hb Hi Hpr] Hj Hh2 Hf2 Hcr3 Hb3 Hst3 Hcur3 Hdel3.
  constructor; try done.
  - apply lookup_insert_eq.
  - congruence.
  - change (frame_of (emit (set_txn k2 p t3) l) pid) with (frame_of k2 pid). by rewrite Hf2.
  - change (frame_of (emit (set_txn k2 p t3) l) pid) with (frame_of k2 pid). by rewrite Hf2.
  - by right.
Qed.

Lemma deliver_count g pid es g' n failed :
  deliver g pid es = (g', n, failed) ->
  if failed is Some _ then (n < length es)%nat else n = length es.
Proof.
  revert g g' n failed. induction es as [|[[cid msg] fl] es IH]; intros g g' n failed E; cbn in E; [by simplify_eq|].
  destruct (chan_lookup_by_id g cid) as [c|]; [|simplify_eq; cbn; lia].
  destruct (plain_send c pid msg) as [c' [rc| |]]; [destruct (rc <? 0)| |]; try (simplify_eq; cbn; lia).
  destruct (deliver (chan_put g c') pid es) as [[g1 n1] f1] eqn:E1. simplify_eq. specialize (IH _ _ _ _ E1).
  destruct failed; cbn; lia.
Qed.

Lemma replay_frame_idle k pid :
  f_replay_in_progress (frame_of k pid) = false ->
  let fr := frame_of k pid in
  frame_of (set_frame k pid {| fr with f_replay_in_progress := false |}) pid = frame_of k pid.
Proof. intros H fr. rewrite frame_of_set. by apply idle_frame. Qed.

(** C20: Committing delivers what was kept back, once, in order.  An attempt sends to
    the live channels exactly the messages earlier attempts did not deliver, one after
    the other, as a task outside any transaction would.  When all of them are accepted
    the commit succeeds and the transaction, its handle and its place on the task's
    stack are gone.  When one is refused the call returns -ETXNREPLAY with the channel
    recorded, and the transaction stays open at that message, so that a later attempt
    continues there. *)
Theorem commit_delivers (k : kernel) (pid handle p : Z) (t : transaction) (cap : Z) (es : list entry) (i : nat) :
  open_txn k pid handle p t cap es i ->
  let '(g, n, failed) := deliver (k_chans k) pid (drop i es) in
  exists k' out, txn_commit k pid handle = (k', out) /\ k_chans k' = g /\
  match failed with
  | None => out = Ret 0 /\ (i + n = length es)%nat /\ closed k k' pid handle p t
  | Some cid => out = Ret TXN_ETXNREPLAY /\
      exists t', open_txn k' pid handle p t' cap es (i + n) /\ t_replay_failed_chan_id t' = cid
  end.
Proof.
  intros Ho. pose proof Ho as [Hp Hh Ht Hcr Htop Hid Hb Hi Hpr].
  destruct (commit_attempt _ _ _ _ _ _ _ _ Ho) as (d & f0 & Hd & ->).
  set (t1 := {| t with t_state := TXN_STATE_COMMITTING |}). set (k1 := set_txn k p t1). cbv zeta.
  pose proof Hb as (Hhd & Hcnt & Hle & Hcap & _). change (t_buffered_count t1) with (t_buffered_count t).
  destruct (decide (es = [])) as [->|Hne].
  { rewrite Hcnt, drop_nil. cbn [length deliver Z.gtb]. change (Z.of_nat 0 >? 0) with false. cbv iota.
    destruct (commit_finish_spec k1 pid handle p t1 Hp Hh Htop) as (k' & -> & Hc & Hcl).
    do 2 eexists. split; [done|]. split; [done|]. split; [done|]. split; [cbn in Hi |- *; lia|].
    destruct Hcl as (H1 & H2). unfold closed. rewrite H1. unfold k1. by rewrite delete_set_txn. }
  assert (0 < length es)%nat by (destruct es; [done|cbn; lia]).
  destruct (t_buffered_count t >? 0) eqn:Ec; [|lia]. clear Ec.
  pose proof (replay_all_spec t1 cap es pid i k1 d f0 Hb Hi Hne) as Hr. change (k_chans k1) with (k_chans k) in Hr.
  destruct (deliver (k_chans k) pid (drop i es)) as [[g n] failed] eqn:Edel.
  apply deliver_count in Edel. rewrite length_drop in Edel.
  destruct Hr as (f1 & -> & Hf1). cbn [r_current_offset r_delivered_count r_failed_chan_id].
  change (frame_of k1 pid) with (frame_of k pid). set (k2 := set_chans (set_frame k1 pid _) g).
  assert (frame_of k2 pid = frame_of k pid) as Hfr.
  { unfold k2. change (frame_of (set_chans ?x g) pid) with (frame_of x pid).
    rewrite frame_of_set. by apply idle_frame. }
  destruct failed as [cid|].
  - change (TXN_ETXNREPLAY <? 0) with true. cbv iota. do 2 eexists. split; [done|]. split; [done|]. split; [done|].
    eexists. split; [apply (stalled_record k pid handle p t cap es i); try done; [lia | cbn] | cbn; by apply Hf1].
    rewrite <- wrap_add_l, Hd, wrap_add_l by lia. rewrite wrap_small; [lia|].
    unfold in_u, ENTRY_SIZE, VMO_MAX_SIZE in *. lia.
  - change (0 <? 0) with false. cbv iota. set (t2 := Transaction _ _ _ _ _ _ _ _ _ _ _ _ _ _ _ _ _).
    destruct (commit_finish_spec (set_txn k2 p t2) pid handle p t2 Hp Hh) as (k' & -> & Hc & Hcl).
    { change (frame_of (set_txn k2 p t2) pid) with (frame_of k2 pid). by rewrite Hfr. }
    do 2 eexists. split; [done|]. split; [done|]. split; [done|]. split; [lia|].
    destruct Hcl as (H1 & (fr & H2 & H3) & H4). unfold closed. rewrite H1, !delete_set_txn.
    split; [apply delete_set_txn|]. split; [|done]. exists fr. split; [|done]. rewrite <- Hfr. done.
Qed.

(** ** Beginning *)
Lemma system_resolve_total w pid rights t :
  wf_world w -> tasks w !! pid = Some t -> is_Some (cap_system_resolve w pid rights).
Proof.
  intros Hw Ht. destruct (decide (g_cap_system_bootcap_idx w = 0)) as [E|Hb].
  { unfold cap_system_resolve. by rewrite E. }
  destruct (decide (rights = 0)) as [->|Hr].
  { unfold cap_system_resolve. rewrite (proj2 (Z.eqb_neq _ _) Hb). by eexists. }
  destruct (cap_system_resolve_iff w pid rights t Hw Hb Hr Ht) as (v & -> & _). by eexists.
Qed.

Lemma handle_lookup t s v : handle t s = Some v -> exists e, cap_handle_lookup t s = Some e /\ object_idx e = fst v.
Proof. unfold handle. intros (e & He & ->)%fmap_Some. by exists e. Qed.

Lemma represents_slot t m s v : represents t m -> m !! s = Some v -> 0 <= s < CAP_HANDLE_MAX.
Proof.
  intros [[fl Hwf] Hm] Hs. rewrite Hm, (handle_get _ _ _ Hwf) in Hs.
  destruct (get (entries t) s) as [e|] eqn:E; [|done]. apply get_Some_bound in E.
  destruct Hwf as [Hl Hcap _ _ _ _]. lia.
Qed.

(** The transaction a successful [txn_begin] makes, and the stack it leaves. *)
Definition began (k k' : kernel) (pid p slot : Z) : Prop :=
  let fr := frame_of k pid in
  exists t flags, open_txn k' pid slot p t (txn_buffer_bytes_for_flags flags) [] 0 /\
    k_txns k' = <[p := t]> (k_txns k) /\ t_parent t = f_current fr /\ t_nesting_depth t = f_stack_depth fr /\
    f_stack_depth (frame_of k' pid) = f_stack_depth fr + 1 /\ f_stack_depth fr < TXN_MAX_NESTING /\
    g_txn_live k' = p :: g_txn_live k.

Definition not_begun (k k' : kernel) : Prop :=
  k_txns k' = k_txns k /\ k_frames k' = k_frames k /\ g_txn_live k' = g_txn_live k.

(** The last steps of a successful [txn_begin]. *)
Lemma begin_pushes k pid p t w idx slot ev caller (m : gmap Z (Z * Z)) :
  let fr := frame_of k pid in
  p <> 0 -> 0 <= f_stack_depth fr < TXN_MAX_NESTING -> f_replay_in_progress fr = false ->
  t_creator_pid t = pid -> t_state t = TXN_STATE_ACTIVE -> t_buffer_vmo t = None -> t_head t = 0 ->
  t_buffered_count t = 0 -> (exists fl, t_capacity t = txn_buffer_bytes_for_flags fl) ->
  t_parent t = f_current fr -> t_nesting_depth t = f_stack_depth fr ->
  tasks w !! pid = Some caller -> represents (cap_handles caller) (<[slot := (idx, 0)]> m) ->
  (exists o, g_cap_object_ptrs (reg w) !! idx = Some o /\ kind o = CAP_KIND_TRANSACTION /\ kind_data o = p) ->
  0 <= idx < CAP_OBJECT_CAPACITY ->
  forall k1, k_txns k1 = k_txns k -> g_txn_live k1 = g_txn_live k -> k_world k1 = w -> k_frames k1 = k_frames k ->
  began k (emit (txn_link_locked (set_frame (set_txn k1 p t) pid
    {| fr with f_current := p; f_stack_depth := u32 (f_stack_depth fr + 1) |}) p) ev) pid p slot.
Proof.
  intros fr Hp Hd Hidle Hcr Hst Hvm Hhd Hct [fl Hcap] Hpar Hnest Hta Hrep (o & Ho & Hk & Hkd) Hidx k1 H1 H2 H3 H4.
  set (k' := emit _ ev). assert (frame_of k' pid = {| fr with f_current := p; f_stack_depth := u32 (f_stack_depth fr + 1) |})
    as Hfr by apply frame_of_set.
  unfold TXN_MAX_NESTING, fr in *. exists t, fl. split_and!; try done.
  - constructor; try done; try (by rewrite Hfr).
    + unfold txn_resolve_handle. change (k_world k') with (k_world k1). rewrite H3, Hta.
      destruct Hrep as [_ Hm]. specialize (Hm slot). rewrite lookup_insert_eq in Hm.
      destruct (handle_lookup _ _ _ (eq_sym Hm)) as (e & -> & ->). cbn [fst].
      unfold cap_object_get. destruct (idx >=? CAP_OBJECT_CAPACITY) eqn:E; [lia|]. by rewrite Ho, Hk, Hkd.
    + apply lookup_insert_eq.
    + unfold buffers, VMO_MAX_SIZE. rewrite Hvm, Hhd, Hct.
      split_and!; try done; unfold txn_buffer_bytes_for_flags; split_ifs; done.
    + by left.
  - change (k_txns k') with (<[p := t]> (k_txns k1)). by rewrite H1.
  - rewrite Hfr. cbn. apply wrap_small. unfold in_u. lia.
  - unfold TXN_MAX_NESTING. lia.
  - change (g_txn_live k') with (p :: g_txn_live k1). by rewrite H2.
Qed.

Local Ltac begin_fails := do 2 eexists; split; [done|]; left; by split.

(** Beginning a transaction either fails, leaving the transactions, the stacks and
    the live list as they were, or returns a handle that is the task's innermost
    transaction, active and with nothing kept back, nested in the one that was innermost
    before, never more than four deep.  No handle table is accessed out of bounds. *)
Theorem begin_correct (a : begin_answers) (k : kernel) (pid flags : Z) :
  wf_world (k_world k) -> 0 <= f_stack_depth (frame_of k pid) -> f_replay_in_progress (frame_of k pid) = false ->
  exists k' rc, txn_begin a k pid flags = Some (k', rc) /\
    (rc < 0 /\ not_begun k k' \/ 0 <= rc /\ began k k' pid (a_slab a) rc).
Proof.
  intros Hw Hd Hidle. unfold txn_begin. destruct (tasks (k_world k) !! pid) as [caller|] eqn:Ht; [|begin_fails].
  destruct (negb (Z.ldiff _ _ =? 0)); [begin_fails|]. set (fl := if negb (has_flag flags _) then _ else _).
  assert (is_Some (if has_flag fl TXN_FLAG_GLOBAL_SCOPE then cap_system_resolve (k_world k) pid 0x10000 else Some 0))
    as [sys ->] by (destruct (has_flag fl _); [by eapply system_resolve_total | by eexists]). cbn [mbind option_bind].
  destruct (negb (sys =? 0)); [begin_fails|].
  destruct (f_stack_depth (frame_of k pid) >=? TXN_MAX_NESTING) eqn:Edep; [begin_fails|].
  destruct (Z.eqb_spec (a_slab a) 0) as [|Hp]; [begin_fails|].
  destruct (a_snap a) as [rc|[snap pids]].
  { do 2 eexists. split; [done|]. left. split; [|done]. destruct (Z.ltb_spec rc 0); [lia|done]. }
  destruct (populate_scope_pids _ pids) as [t rc] eqn:Epop.
  assert (rc < 0 \/ rc = 0 /\ exists ps n, t = let t0 := new_txn k pid fl in
            {| t0 with t_backing_snapshot := Some snap; t_scope_pids := ps; t_scope_pid_count := n |}) as Ht0.
  { unfold populate_scope_pids in Epop. destruct (_ >? _); simplify_eq; [by left|]. right. eauto. }
  destruct (Z.ltb_spec rc 0) as [Hrc|Hrc]; [begin_fails|]. destruct Ht0 as [?|(_ & ps & n & ->)]; [lia|].
  pose proof (cap_object_create_spec (a_cap_ok a) (reg (k_world k)) CAP_KIND_TRANSACTION
    (RIGHT_INSPECT |. RIGHT_REVOKE |. RIGHT_DERIVE |. RIGHT_COMMIT |. RIGHT_ABORT) (Some [pid; PID_NONE]) 0 (a_slab a)
    pid CAP_OBJECT_IDX_NONE) as Hcr.
  cbn [k_world]. destruct (cap_object_create _ _ _ _ _ _ _ _ _) as [s idx].
  inversion Hcr as [e He | s' slot Hcache Hslot Hnone Hev _ Hnew _ _ _ _]; subst; clear Hcr.
  { destruct (Z.ltb_spec idx 0); [|lia]. do 2 eexists. split; [done|]. by left. }
  destruct (Z.ltb_spec idx 0) as [|_]; [lia|]. unfold CAP_OBJECT_CAPACITY in *.
  assert (u32 idx = idx) as -> by (apply wrap_small; unfold in_u; lia).
  destruct (ww_tables _ Hw _ _ Ht) as [m Hm].
  destruct (insert_refines (a_kmalloc_ok a) (cap_handles caller) m idx 0 Hm) as (h & sl & r & -> & Hr);
    [unfold CAP_OBJECT_IDX_NONE; lia|]. cbn [mbind option_bind].
  destruct (Z.ltb_spec r 0) as [Hneg|Hpos].
  { do 2 eexists. split; [done|]. left. split; [by destruct (r =? _)|done]. }
  destruct Hr as [(-> & _)|(gen & Hfree & Hrep & _)]; [done|].
  pose proof (represents_slot _ _ _ _ Hrep (lookup_insert_eq _ _ _)) as Hsl. unfold CAP_HANDLE_MAX in Hsl.
  assert (i32 sl = sl) as -> by (apply swrap_small; unfold in_s; lia).
  do 2 eexists. split; [done|]. right. split; [lia|].
  eapply begin_pushes with (caller := {| caller with cap_handles := h |}) (idx := idx); try done; try (unfold CAP_OBJECT_CAPACITY, TXN_MAX_NESTING in *; lia).
  - by exists fl.
  - apply lookup_insert_eq.
  - destruct Hnew as (o & Ho & Hev' & _). exists o. split; [done|]. by destruct Hev'.
Qed.

(** Aborting discards.  The messages kept back reach no channel, the snapshot is
    restored, and the transaction, its handle and its place on the stack are gone. *)
Theorem abort_discards (k : kernel) (pid handle p : Z) (t : transaction) (cap : Z) (es : list entry) (i : nat) :
  open_txn k pid handle p t cap es i ->
  exists k', txn_abort k pid handle = (k', Ret 0) /\ k_chans k' = k_chans k /\ closed k k' pid handle p t /\
    Snap_restore (snap_id t) pid ∈ k_log k'.
Proof.
  intros [Hp Hh Ht Hcr Htop _ _ _ Hpr]. unfold txn_abort. rewrite Hh, Ht, Htop, Z.eqb_refl.
  destruct (Z.eqb_spec p 0), (Z.eqb_spec (t_creator_pid t) pid); try done. cbn [negb].
  assert (exists k', abort_finish k pid handle p {| t with t_state := TXN_STATE_ABORTING |} = (k', Ret 0) /\
    k_chans k' = k_chans k /\ closed k k' pid handle p t /\ Snap_restore (snap_id t) pid ∈ k_log k')
    by by apply (abort_finish_spec k pid handle p {| t with t_state := TXN_STATE_ABORTING |}).
  destruct Hpr as [[Hst _] | (Hst & _)]; rewrite Hst; done.
Qed.

(** ** A concrete run

    Task 5 holds the write end and task 6 the read end of channel 1. *)
Definition demo_chan (rd wr : Z) : channel :=
  Channel CHANNEL_MAGIC CHAN_MODE_BLOCKING 1 7 4 0 0 0 2 rd wr (replicate 4 zero_msg) 0 0 0 0 5 0 0 0 0.

Definition demo_kernel : kernel :=
  let '(s, rd) := cap_object_create true demo CAP_KIND_CHANNEL 1 (Some [6; PID_NONE]) 0 1000 6 CAP_OBJECT_IDX_NONE in
  let '(s, wr) := cap_object_create true s CAP_KIND_CHANNEL 1 (Some [5; PID_NONE]) 0 2000 5 CAP_OBJECT_IDX_NONE in
  Kernel (set_reg demo_world s) (Chan_registry 2 [demo_chan rd wr]) (<[1000 := 6]> (<[2000 := 5]> ∅)) ∅ ∅ 1 [] [].

Definition demo_answers (p : Z) : begin_answers := Begin_answers p (inr (p + 1, [5])) true true.

(** Apply steps in order; [None] when one of them goes out of bounds. *)
Definition demo_begin (p : Z) (k : kernel) : option (kernel * Z) := txn_begin (demo_answers p) k 5 0.
Definition demo_msg : channel_msg := Channel_msg (Msg_header 0 7 0 1 0 0 0) (42 :: replicate 255 0) (replicate 8 0).
Definition delivered (k : kernel) : list Z :=
  match chan_lookup_by_id (k_chans k) 1 with
  | Some c => map (fun m => hd 0 (inline_payload m)) (contents c)
  | None => []
  end.

Lemma demo_kernel_wf : wf_world (k_world demo_kernel).
Proof.
  unfold demo_kernel.
  destruct (cap_object_create true demo _ _ _ _ _ _ _) as [s rd] eqn:E1.
  destruct (cap_object_create true s _ _ _ _ _ _ _) as [s' wr] eqn:E2. cbn [k_world].
  apply wf_set_reg; [apply demo_world_wf|].
  pose proof (wf_create true s CAP_KIND_CHANNEL 1 (Some [5; PID_NONE]) 0 2000 5 CAP_OBJECT_IDX_NONE) as H2.
  rewrite E2 in H2. apply H2.
  pose proof (wf_create true demo CAP_KIND_CHANNEL 1 (Some [6; PID_NONE]) 0 1000 6 CAP_OBJECT_IDX_NONE) as H1.
  rewrite E1 in H1. apply H1. apply (ww_reg _ demo_world_wf).
Qed.

(** A message kept back is one more message for the next commit. *)
Lemma open_append k pid handle p t cap es e t' :
  open_txn k pid handle p t cap es 0 -> wf_entry e ->
  txn_buffer_append true t (fst (fst e)) (snd (fst e)) (snd e) = (t', 0) ->
  t_creator_pid t' = t_creator_pid t -> t_state t' = t_state t -> t_state t = TXN_STATE_ACTIVE ->
  open_txn (set_txn k p t') pid handle p t' cap (es ++ [e]) 0.
Proof.
  intros [Hp Hh Ht Hcr Htop Hid Hb Hi Hpr] He Ea Hc Hs Hst.
  pose proof (append_spec t cap es e Hb He) as Ha. rewrite Ea in Ha.
  destruct (_ <=? _); destruct Ha as [Hrc Hb']; [|done].
  constructor; try done; try congruence; [apply lookup_insert_eq | lia | left; split; [congruence|done]].
Qed.

Definition demo_begun : kernel := match demo_begin 8 demo_kernel with Some (k, _) => k | None => demo_kernel end.
Definition demo_txn : transaction := default empty_txn (k_txns demo_begun !! 8).
Definition demo_kept : transaction := fst (txn_buffer_append true demo_txn 1 demo_msg 0).
Definition demo_cap : Z := txn_buffer_bytes_for_flags TXN_FLAG_SELF_SCOPE.

Lemma demo_open : open_txn demo_begun 5 0 8 demo_txn demo_cap [] 0.
Proof.
  assert (buffers demo_txn demo_cap []) as Hb.
  { assert (t_buffer_vmo demo_txn = None) as Hv by (vm_compute; reflexivity).
    assert (t_head demo_txn = 0) as Hh by (vm_compute; reflexivity).
    assert (t_buffered_count demo_txn = 0) as Hc by (vm_compute; reflexivity).
    assert (t_capacity demo_txn = demo_cap) as Hcap by (vm_compute; reflexivity).
    unfold buffers, VMO_MAX_SIZE. rewrite Hv, Hh, Hc, Hcap. by split_and!. }
  constructor; [discriminate | vm_compute; reflexivity .. | exact Hb | lia | left; split; vm_compute; reflexivity].
Qed.

Lemma demo_entry_wf : wf_entry (1, demo_msg, 0).
Proof. unfold wf_entry, wf_msg, in_u; cbn. split_and!; try done. by repeat constructor. Qed.

Lemma demo_open_kept : open_txn (set_txn demo_begun 8 demo_kept) 5 0 8 demo_kept demo_cap [(1, demo_msg, 0)] 0.
Proof.
  assert (snd (txn_buffer_append true demo_txn 1 demo_msg 0) = 0) as Hrc by (vm_compute; reflexivity).
  apply (open_append demo_begun 5 0 8 demo_txn demo_cap [] (1, demo_msg, 0));
    [exact demo_open | exact demo_entry_wf | | vm_compute; reflexivity ..].
  cbn [fst snd]. unfold demo_kept. rewrite <- Hrc. apply surjective_pairing.
Qed.

Lemma commit_delivers_witness :
  exists k', txn_commit (set_txn demo_begun 8 demo_kept) 5 0 = (k', Ret 0) /\ delivered k' = [42].
Proof.
  pose proof (commit_delivers _ _ _ _ _ _ _ _ demo_open_kept) as H.
  destruct (deliver _ 5 _) as [[g n] failed] eqn:E. destruct H as (k' & out & Ec & Hg & H).
  assert (failed = None) as -> by (apply (f_equal snd) in E; vm_compute in E; congruence).
  exists k'. destruct H as (-> & _). split; [exact Ec|].
  assert (Hd : delivered k' = delivered (set_chans demo_kernel g)) by (unfold delivered; rewrite Hg; reflexivity).
  rewrite Hd. apply (f_equal (fun r => delivered (set_chans demo_kernel (fst (fst r))))) in E.
  cbn [fst] in E. rewrite <- E. vm_compute. reflexivity.
Defined.

Lemma abort_discards_witness :
  exists k', txn_abort (set_txn demo_begun 8 demo_kept) 5 0 = (k', Ret 0) /\ delivered k' = [].
Proof.
  destruct (abort_discards _ _ _ _ _ _ _ _ demo_open_kept) as (k' & E & Hc & _).
  exists k'. split; [exact E|]. unfold delivered. rewrite Hc. vm_compute. reflexivity.
Defined.

Lemma begin_correct_witness :
  exists k' rc, demo_begin 8 demo_kernel = Some (k', rc) /\ rc = 0 /\ began demo_kernel k' 5 8 rc.
Proof.
  destruct (begin_correct (demo_answers 8) demo_kernel 5 0) as (k' & rc & E & H);
    [exact demo_kernel_wf | vm_compute; discriminate | reflexivity |].
  assert (rc = 0) as -> by (apply (f_equal (fmap snd)) in E; vm_compute in E; congruence).
  exists k', 0. split; [exact E|]. split; [reflexivity|]. destruct H as [[? _]|[_ H]]; [lia|exact H].
Defined.

(** Two nested transactions, a send, and the two commits: the results and what the
    reader can see after each of the three. *)
Definition nested_run : option (list (chan_out * list Z)) :=
  '(k1, outer) ← demo_begin 8 demo_kernel;
  '(k2, inner) ← demo_begin 16 k1;
  let '(k3, r3) := task_send true k2 5 1 demo_msg 0 in
  let '(k4, r4) := txn_commit k3 5 inner in
  let '(k5, r5) := txn_commit k4 5 outer in
  Some [(r3, delivered k3); (r4, delivered k4); (r5, delivered k5)].

(** A message kept back by two nested transactions is delivered when the inner one
    commits, although the outer one may still abort, and again when the outer one
    commits: each layer keeps its own copy, and replay bypasses the outer layers. *)
Theorem nested_commit_delivers_twice :
  nested_run = Some [(Ret 0, []); (Ret 0, [42]); (Ret 0, [42; 42])].
Proof. vm_compute. reflexivity. Qed.

(** A capability derived from the transaction's, the commit, and a second commit
    through the derived handle. *)
Definition dangling_run : option (chan_out * chan_out) :=
  '(k1, h) ← demo_begin 8 demo_kernel;
  '(w, tok) ← sys_cap_derive true true (k_world k1) 5 (cap_token_pack 1 5 0) RIGHT_COMMIT UNull 0;
  let '(k2, r) := txn_commit (set_world k1 w) 5 h in
  let '(_, r') := txn_commit k2 5 1 in
  Some (r, r').

(** A handle derived from a transaction outlives it: after the commit the derived
    capability still points to the record that was freed, and a second commit through
    it reads the freed memory. *)
Theorem derived_handle_dangles : dangling_run = Some (Ret 0, Fault).
Proof. vm_compute. reflexivity. Qed.
